(* ===== verification/_CoqProject ===== *)
-Q . S2P
Prelude.v
Psort.v
DfsImage.v
Dfs.v
DfsSpec.v
DfsMkfs.v
DfsServer.v
DfsThms.v
Bio.v
BioThms.v
Log.v
LogSpec.v
LogThms.v
Kalloc.v
Pipe.v
File.v
Spinlock.v
Vm.v
VmSpec.v
VmThms.v
VmLife.v
CString.v
Proc.v
ProcThms.v
Txn.v
Fs.v
FsThms.v
FsWrite.v
FsWriteThms.v
FsDir.v
Syscall.v
Tickets.v
Protect.v
Sysfile.v
SysfileThms.v
McNumber.v
Assoc.v
Items.v
ItemsSpec.v
ItemsThms.v
Slabs.v
SlabsSpec.v
SlabsThms.v
McCommand.v
Wish.v
WishThms.v
Umalloc.v
Trace.v
Sh.v
ShLex.v
ShThms.v
ShRun.v
ShTyped.v
Grep.v
Console.v
ConsoleThms.v
Exec.v
ExecThms.v
ExecArgs.v
ExecFs.v
