(* ===== verification/Prelude.v ===== *)
(** * xv6 and operating-system projects: verification development

    The repository holds the projects of an operating-systems course: new
    commands for memcached (p1a), a shell (p2a), a user level sort (p3a), xv6
    kernels with system calls (p1b), a ticket scheduler and page protection
    (p2b) and threads (p3b), and a file server over UDP (p4).  This library
    models their own code, and the parts of memcached and xv6 it stands on,
    and proves what makes it correct.  All sources named here are under
    [src/]; [xv6/] abbreviates [p3b/xv6-public/], [dfs/]
    [p4/Distributed-File-System/] and [mc/] [p1a/memcached-1.6.17/].  The
    kernels of p1b and p2b are the one of p3b but for their own additions.

    ** Conventions

    A C integer is a [Z] with its wrap-around written out ([u32], [s32],
    [u8] below).  A call returns an [outcome]: [Ret], the kernel's [Panic],
    [Fault] for an access C gives no meaning to, or [Blocked] where it would
    sleep on a lock another process holds.  The p3a and p4 programs use
    [option], [None] being such an access.  Memory is a function from
    addresses to bytes; the bytes of 32-bit words are laid out as on x86.
    Tables of structures are lists and a pointer into one is an index, except
    where the links of a list are updated through pointers (the LRU list of
    [Bio], the free list of [Kalloc]).  Loops whose end is not structural
    take fuel.  Out of fuel is [Fault] or [None], and the theorems about a
    loop show a [Ret] or a [Some], so that the fuel its caller passes is
    enough; the fuel of [apply_delta] is a hypothesis of its theorem, because
    one of its loops need not end.

    ** The user programs

    - [Psort]: [p3a/psort.c], a merge sort by a tree of threads under any
      schedule.  It writes the stable sort of the records ([psort_sorts]),
      whatever the schedule and the number of processors
      ([multithread_sort_deterministic]).
    - [CString]: [xv6/string.c] and the string half of [xv6/ulib.c] over one
      byte memory; [memmove] with overlapping areas, and [safestrcpy].
    - [Spinlock] (second half): [lock_acquire] and [lock_release] of
      [xv6/ulib.c] over [fetch_and_add] of [xv6/x86.h].
    - [Umalloc]: [xv6/umalloc.c], the list of free blocks in the bytes of the
      process, and [thread_create] and [thread_join] of [xv6/ulib.c] on it.
      The blocks of a program never overlap, whatever it calls.
    - [Sh]: [xv6/sh.c], the shell of xv6: a parser that builds commands from
      nodes on a heap, and [runcmd] and [main] as the system calls of their
      processes.  Each process keeps its descriptors and what it has still to
      do; the kernel lets any of them go on next and may refuse [fork], [exec],
      [open], [pipe] and [chdir].  [ShLex] has the grammar and when nodes are a
      command, [ShThms] that [parsecmd] takes exactly the lines of the grammar,
      [ShTyped] that every node the parser makes is well formed.  [ShRun]: under
      every interleaving the processes of a session do the jobs of its lines,
      with the descriptors their trees say and in the order the calls of [wait]
      enforce; none gets stuck, and when no process can go on all is done.
    - [Grep]: [xv6/grep.c], whose matcher decides what a pattern means, and
      [xv6/wc.c].
    - [Console] (first part): [printf] of [xv6/printf.c].
    - [Wish]: the whole of [p2a/wish.c] in a monad of its state, [exit] and
      the ways to get stuck (a null or freed pointer, a full array, a string
      copied into a block too small for it).  Processes and files are the
      parameter [host], which also says how large the blocks of [malloc] are
      ([room]): the program asks for one byte less than most of its copies
      need.  [WishThms]: what [DoCmd] does to the words of nested [if]s, what a
      batch file runs, that [DoCmd] ends without undefined behaviour when its
      words are short and its blocks large enough, and that blocks of exactly
      the size asked for are overrun.

    ** The file server (p4)

    - [DfsImage]: the mapped image as bytes, its 32-bit words and bitmaps.
    - [Dfs]: every [fs_*] function of [dfs/fs.c]; [DfsMkfs]: [dfs/mkfs.c];
      [DfsServer]: the dispatch loop of [dfs/server.c] and the client calls
      of [dfs/libmfs.c], the datagram exchange being a parameter.
    - [DfsSpec]: directories and inodes as maps, and what each operation does
      to them; [DfsThms]: creating, looking up, unlinking, reading and
      writing, the image [mkfs] makes, and the faults found on the way.

    ** memcached (p1a)

    - [McNumber]: reading numbers ([safe_strtoull] of [mc/util.c]), printing
      them ([mc/itoa_ljust.c]: what is printed reads back), and the arithmetic
      of [do_add_delta], with the [mult] and [div] loops of the repository.
    - [Assoc]: the hash table of [mc/assoc.c], chains through [h_next] and a
      table that grows while it is used; at every point it is a finite map.
    - [Items]: [mc/items.c], the reference counts of items, the LRU queues and
      lookup, linking and allocation over them, with the bump buffers, which
      keep a reference to what they hold, and the maintainer's turn that
      empties them.  [ItemsSpec] says what table, queues and bodies a cache
      represents and what each operation does to them; [ItemsThms]: in every
      reachable state a count is the sum of the table's reference, the
      callers' and the buffers', table and queues agree, and nothing in use
      is freed.
    - [Slabs]: the allocator of [mc/slabs.c], free lists of chunks threaded
      through pages, with the growth factor as an IEEE double.  [SlabsSpec]
      says what free lists and pages it keeps and what each function does to
      them; [SlabsThms]: no chunk is handed out twice and memory stays near
      the limit.  The thread that moves pages between classes is left out.
    - [McCommand]: [do_add_delta] of [mc/memcached.c] and the commands of
      [mc/proto_text.c] that reach it: the number is stored in its item, or in
      a copy that replaces it.

    ** The kernel (p3b), bottom up

    - [Spinlock]: [xv6/spinlock.c], acquire and release as steps of any
      number of CPUs, interleaved at the atomic exchange: mutual exclusion,
      and the interrupt flag restored with the last lock.
    - [Kalloc]: [xv6/kalloc.c], the free list threaded through the free pages.
    - [Vm]: [xv6/vm.c] over the memory of [Kalloc], page tables being pages of
      it.  [VmSpec] says which pages belong to an address space and where its
      entries lie; [VmThms] has [allocuvm] and [deallocuvm]; [VmLife] an
      address space from [setupkvm] to [freevm], with what is loaded into it
      and copied out to it on the way.
    - [Bio]: [xv6/bio.c] with [xv6/sleeplock.c] and the effect of
      [xv6/ide.c].  The class [BlockCache] has what the layers above call and
      [BlockCacheSpec] what they may rely on; [BioThms] the LRU properties.
    - [Log]: [xv6/log.c] over any [BlockCache]; [LogSpec] the exact sequence
      of disk writes and what recovery computes from a disk; [LogThms]:
      commits are atomic and recovery idempotent under a crash between any
      two writes, and the admission of calls never overruns a log that has
      room for [LOGSIZE] blocks besides its header.
    - [Txn]: the interface of [fs.c] to the log and the cache inside a
      transaction ([Txn], [TxnSpec]), implemented by [Log] over any
      [BlockCache].
    - [Fs]: [xv6/fs.c] over any [Txn]: block allocation, the inode cache,
      [bmap], [readi], [writei], directories and path names.  [FsThms]:
      reference counts of the inode cache, the allocator, reading, and the
      elements of a path; the allocator and [readi] are proved against
      [TxnSpec] and instantiated with the log over [Bio].  [FsWrite] says what
      a well-formed file is (a map from block numbers to distinct allocated
      blocks) and what [bmap] does to it; [FsWriteThms]: what [writei] writes,
      [readi] reads back; [FsDir]: a directory as a finite map from names.
    - [Console]: [xv6/console.c], the formatted output of [cprintf] and the
      input buffer; [ConsoleThms]: keys and reads are those of a line that is
      edited and the finished lines before it.
    - [Pipe]: [xv6/pipe.c] as a bounded queue; [File]: the reference counts of
      [xv6/file.c] and [pipealloc].
    - [Proc]: [xv6/proc.c].  The memory below is the class [Vmem], implemented
      by [Kalloc] and [Vm].  Every function is the code between two points
      where [ptable.lock] is taken and given up, so [ProcThms] states its
      results for any sequence of such turns: the process tree, no lost
      wake-up between [exit] and [wait] or [join] (over the memory of
      [VmLife]), no starvation within a pass of the scheduler, and a run that
      frees a page directory in use.
    - [Syscall]: [xv6/syscall.c] and [xv6/sysproc.c]; every pointer the kernel
      accepts lies inside the process.
    - [Sysfile]: [xv6/sysfile.c] and the rest of [xv6/file.c], composing
      [File], [Pipe], [Fs] and [Log]; [SysfileThms]: descriptors and
      references agree in every reachable state.
    - [Exec]: [xv6/exec.c] over [Vm] and the interface [Files] of a file
      system.  [ExecThms] and [ExecArgs]: every page is accounted for however
      a call ends, a new program finds its arguments, and the call succeeds on
      every ELF file that can be read and fits when enough pages are free.
      [ExecFs]: [Fs] over the log keeps what the two ask of a file system.

    ** The kernel of p2b

    - [Tickets]: [p2b/xv6-public/proc.c] and [sysproc.c], the scheduler that
      runs the processes with the most tickets, [settickets], [getpinfo].
    - [Protect]: [mprotect] and [munprotect] of [p2b/xv6-public/sysproc.c]
      over the page tables of [Vm].

    ** The kernel of p1b

    - [Trace]: the path tracing of [p1b/xv6-public/sysfile.c]; [getcount]
      returns the number of opens of the path traced last.

    ** Not modelled

    Device drivers, interrupts and boot code are hardware input and output,
    as are [swtch] and the loading of segment registers.  Processes are
    modelled one lock hold at a time on a sequentially consistent machine.
    The file system runs for one process at a time: a sleep lock held by
    another one ends a call as [Blocked].
    In the shell of xv6 memory for the parser's nodes is taken to be there, and
    a program run by [exec] is one event and an exit at any later time.
    Of memcached, the page mover, the crawler and the LRU maintainer (but for
    its emptying of the bump buffers) are not modelled: an allocation of
    [Items] takes its slot as an argument, since what the maintainer evicts for
    it is not determined.  Nor are its other commands, its protocols, threads
    and external storage, which the repository does not change. *)

From Stdlib Require Export ZArith Lia.
From stdpp Require Export base gmap list numbers strings option relations.

Global Open Scope Z_scope.

(** ** Machine integers *)

(** The value an [uint] variable holds after [z] is stored in it. *)
Definition u32 (z : Z) : Z := z mod 2 ^ 32.

(** The value an [int] variable holds after [z] is stored in it (two's
    complement, as the x86 compilers of the repository do). *)
Definition s32 (z : Z) : Z := (z + 2 ^ 31) mod 2 ^ 32 - 2 ^ 31.

(** The value an [uchar] variable holds after [z] is stored in it. *)
Definition u8 (z : Z) : Z := z mod 256.

(** The values an [uint64_t] and an [int64_t] variable hold. *)
Definition u64 (z : Z) : Z := z mod 2 ^ 64.
Definition s64 (z : Z) : Z := (z + 2 ^ 63) mod 2 ^ 64 - 2 ^ 63.

Definition is_u64 (z : Z) : Prop := 0 <= z < 2 ^ 64.
Definition is_u32 (z : Z) : Prop := 0 <= z < 2 ^ 32.
Definition is_s32 (z : Z) : Prop := - 2 ^ 31 <= z < 2 ^ 31.
Definition is_u8 (z : Z) : Prop := 0 <= z < 256.

Create HintDb words.
Create Rewrite HintDb word_rw.

Lemma u32_range z : is_u32 (u32 z).
Proof. unfold is_u32, u32. apply Z.mod_pos_bound. lia. Qed.

Lemma u32_small z : is_u32 z -> u32 z = z.
Proof. unfold is_u32, u32. intros. apply Z.mod_small. lia. Qed.

Lemma s32_range z : is_s32 (s32 z).
Proof.
  unfold is_s32, s32. pose proof (Z.mod_pos_bound (z + 2^31) (2^32) ltac:(lia)). lia.
Qed.

Lemma s32_small z : is_s32 z -> s32 z = z.
Proof. unfold is_s32, s32. intros. rewrite Z.mod_small; lia. Qed.

Lemma u8_range z : is_u8 (u8 z).
Proof. unfold is_u8, u8. apply Z.mod_pos_bound. lia. Qed.

Lemma u8_small z : is_u8 z -> u8 z = z.
Proof. unfold is_u8, u8. intros. apply Z.mod_small. lia. Qed.

Lemma u64_range z : is_u64 (u64 z).
Proof. unfold is_u64, u64. apply Z.mod_pos_bound. lia. Qed.

Lemma u64_small z : is_u64 z -> u64 z = z.
Proof. unfold is_u64, u64. intros. apply Z.mod_small. lia. Qed.

Lemma u64_add_idemp_l a b : u64 (u64 a + b) = u64 (a + b).
Proof. unfold u64. rewrite Zplus_mod_idemp_l. reflexivity. Qed.

Lemma u64_add_idemp_r a b : u64 (a + u64 b) = u64 (a + b).
Proof. unfold u64. rewrite Zplus_mod_idemp_r. reflexivity. Qed.

(** A value that came in as an [uint64_t] survives a trip through [int64_t]. *)
Lemma u64_s64 z : u64 (s64 z) = u64 z.
Proof.
  unfold s64, u64. rewrite Zminus_mod, Z.mod_mod by lia.
  rewrite <- Zminus_mod. f_equal. lia.
Qed.

Lemma s64_nonneg z : is_u64 z -> 0 <= s64 z <-> z < 2 ^ 63.
Proof.
  unfold is_u64, s64. intros. destruct (decide (z < 2 ^ 63)).
  - rewrite Z.mod_small by lia. lia.
  - rewrite <- (Z_mod_plus_full (z + 2 ^ 63) (-1)), Z.mod_small by lia. lia.
Qed.

Lemma u32_idemp z : u32 (u32 z) = u32 z.
Proof. apply u32_small, u32_range. Qed.

Lemma u32_add_idemp_l a b : u32 (u32 a + b) = u32 (a + b).
Proof. unfold u32. rewrite Zplus_mod_idemp_l. reflexivity. Qed.

Lemma u32_add_idemp_r a b : u32 (a + u32 b) = u32 (a + b).
Proof. unfold u32. rewrite Zplus_mod_idemp_r. reflexivity. Qed.

Lemma u32_sub_idemp a b : u32 (u32 a - u32 b) = u32 (a - b).
Proof. unfold u32. rewrite <- Zminus_mod. reflexivity. Qed.

Lemma s32_u32 z : s32 (u32 z) = s32 z.
Proof. unfold s32, u32. rewrite Zplus_mod_idemp_l. reflexivity. Qed.

Lemma u32_s32 z : u32 (s32 z) = u32 z.
Proof.
  unfold s32, u32. rewrite Zminus_mod, Z.mod_mod by lia.
  rewrite <- Zminus_mod. f_equal. lia.
Qed.

(** A divisor of [2 ^ 32] (a ring-buffer size) does not see the wrap-around. *)
Lemma u32_mod_divides z d : 0 < d -> (d | 2 ^ 32) -> u32 z mod d = z mod d.
Proof.
  intros Hd [k Hk]. unfold u32. symmetry.
  rewrite (Z.div_mod z (2 ^ 32)) at 1 by lia.
  rewrite Hk at 1. rewrite <- (Z_mod_plus_full (z mod 2^32) (k * (z / 2^32)) d).
  f_equal. lia.
Qed.

#[export] Hint Resolve u32_range s32_range u8_range u64_range : words.
#[export] Hint Rewrite u32_idemp u32_add_idemp_l u32_add_idemp_r u32_sub_idemp
  s32_u32 u32_s32 u64_add_idemp_l u64_add_idemp_r u64_s64 : word_rw.

(** Rewrites away the wrap-arounds of values the context bounds. *)
Ltac unwrap :=
  repeat first
    [ rewrite u32_small by (unfold is_u32 in *; lia)
    | rewrite s32_small by (unfold is_s32 in *; lia)
    | rewrite u8_small by (unfold is_u8 in *; lia)
    | rewrite u64_small by (unfold is_u64 in *; lia) ].

(** ** Results of kernel and library code *)

(** [Ret] is a normal return, [Panic] the kernel's [panic], [Fault] an access
    the C abstract machine gives no meaning to (out of bounds, unmapped), and
    [Blocked] a call that sleeps until another thread acts. *)
Inductive outcome (A : Type) : Type :=
| Ret (a : A)
| Panic (msg : string)
| Fault
| Blocked.
Arguments Ret {A} a.
Arguments Panic {A} msg.
Arguments Fault {A}.
Arguments Blocked {A}.

Definition obind {A B} (c : outcome A) (k : A -> outcome B) : outcome B :=
  match c with
  | Ret a => k a
  | Panic m => Panic m
  | Fault => Fault
  | Blocked => Blocked
  end.

Declare Scope xv6_scope.
Delimit Scope xv6_scope with xv6.
Notation "'let*' x := c 'in' k" := (obind c (fun x => k))
  (at level 10, x pattern, c at level 100, k at level 200)
  : xv6_scope.
Notation "'let?' x := c 'in' k" :=
  (match c with Some x => k | None => None end)
  (at level 10, x pattern, c at level 100, k at level 200)
  : xv6_scope.

(** A lookup that faults when it finds nothing. *)
Definition of_option {A} (o : option A) : outcome A :=
  match o with Some a => Ret a | None => Fault end.

Lemma obind_ret {A B} (c : outcome A) (k : A -> outcome B) b :
  obind c k = Ret b <-> exists a, c = Ret a /\ k a = Ret b.
Proof.
  destruct c; simpl; split; try done; [by eauto|by intros (? & [= ->] & ?)|by intros (? & ? & ?)..].
Qed.

Lemma obind_assoc {A B C} (c : outcome A) (f : A -> outcome B) (g : B -> outcome C) :
  obind (obind c f) g = obind c (fun a => obind (f a) g).
Proof. by destruct c. Qed.

(** ** Characters *)

Definition chr (a : Ascii.ascii) : Z := Z.of_N (Ascii.N_of_ascii a).
(** The bytes of a literal, without the NUL behind them. *)
Definition lit (s : string) : list Z := chr <$> String.list_ascii_of_string s.

(** ** Arrays indexed by C integers *)

(** [l[i]], with [None] outside the array. *)
Definition getZ {A} (l : list A) (i : Z) : option A :=
  if decide (0 <= i) then l !! Z.to_nat i else None.

(** [l[i] = x], with [None] outside the array. *)
Definition setZ {A} (l : list A) (i : Z) (x : A) : option (list A) :=
  if decide (0 <= i < Z.of_nat (length l)) then Some (<[Z.to_nat i := x]> l) else None.

Create HintDb arrays.

Section arrays.
Context {A : Type}.
Implicit Types (l : list A) (x : A) (i : Z).

Lemma getZ_Some_range l i x : getZ l i = Some x -> 0 <= i < Z.of_nat (length l).
Proof. unfold getZ. case_decide; [|done]. intros Hl%lookup_lt_Some. lia. Qed.

Lemma getZ_is_Some l i : 0 <= i < Z.of_nat (length l) -> is_Some (getZ l i).
Proof. intros. unfold getZ. rewrite decide_True by lia. apply lookup_lt_is_Some. lia. Qed.

Lemma getZ_nat l (n : nat) : getZ l (Z.of_nat n) = l !! n.
Proof. unfold getZ. rewrite decide_True by lia. f_equal. lia. Qed.

Lemma getZ_app_at l1 x l2 : getZ (l1 ++ x :: l2) (Z.of_nat (length l1)) = Some x.
Proof. rewrite getZ_nat. by rewrite list_lookup_middle. Qed.

Lemma getZ_app_at' l1 x l2 i : i = Z.of_nat (length l1) -> getZ (l1 ++ x :: l2) i = Some x.
Proof. intros ->. apply getZ_app_at. Qed.

Lemma setZ_length l i x l' : setZ l i x = Some l' -> length l' = length l.
Proof. unfold setZ. case_decide; [|done]. intros [= <-]. apply length_insert. Qed.

Lemma setZ_get l i x l' : setZ l i x = Some l' -> getZ l' i = Some x.
Proof.
  unfold setZ, getZ. case_decide; [|done]. intros [= <-].
  rewrite decide_True by lia. apply list_lookup_insert_eq. lia.
Qed.

Lemma setZ_get_ne l i j x l' : setZ l i x = Some l' -> i <> j -> getZ l' j = getZ l j.
Proof.
  unfold setZ, getZ. case_decide; [|done]. intros [= <-] Hij.
  case_decide; [|done]. apply list_lookup_insert_ne. lia.
Qed.

Lemma setZ_app_at l1 y l2 x i :
  i = Z.of_nat (length l1) -> setZ (l1 ++ y :: l2) i x = Some (l1 ++ x :: l2).
Proof.
  intros ->. unfold setZ. rewrite decide_True by (rewrite length_app; simpl; lia).
  rewrite Nat2Z.id. f_equal. rewrite insert_app_r_alt by lia.
  by rewrite Nat.sub_diag.
Qed.

Lemma setZ_Some l i x :
  0 <= i < Z.of_nat (length l) -> setZ l i x = Some (<[Z.to_nat i := x]> l).
Proof. intros. unfold setZ. by rewrite decide_True. Qed.
End arrays.

#[export] Hint Resolve getZ_is_Some getZ_app_at getZ_app_at' setZ_app_at setZ_Some : arrays.

(** ** Reachability *)

(** An invariant that holds initially and is kept by every step holds in
    every reachable state. *)
Lemma rtc_invariant {S : Type} (R : S -> S -> Prop) (I : S -> Prop) s s' :
  (forall x y, I x -> R x y -> I y) -> I s -> rtc R s s' -> I s'.
Proof. intros Hstep HI H. induction H; eauto. Qed.
