(* ===== verification/Psort.v ===== *)
(** * The multi-threaded merge sort of [p3a/psort.c]

    [records] is the array of record pointers; a [record_ptr] is the index of a
    record in the memory-mapped input file [mapped].  Loops carry fuel, and
    [None] is an access outside an array or exhausted fuel: the theorems show
    that neither happens.  The threads of one batch run in an order chosen by
    [sched], an arbitrary permutation per batch, because [pthread_create] and
    [pthread_join] fix nothing else. *)

From S2P Require Import Prelude.
From stdpp Require Import sorting.
Local Open Scope Z_scope.
Local Open Scope xv6_scope.

Create HintDb psort.

Module Psort.

Definition RECORD_LEN : Z := 100.

Record record_t := { key : Z; value : list Z }.

Record threads_t := { curr : Z; num : Z; length : Z }.

#[local] Abbreviation len l := (Z.of_nat (Datatypes.length l)).

(** [(p)->key] for a record pointer [p]. *)
Definition key_of (mapped : list record_t) (p : Z) : option Z :=
  let? r := getZ mapped p in Some (key r).

Definition cmp (mapped : list record_t) (a b : Z) : option Z :=
  let? ka := key_of mapped a in
  let? kb := key_of mapped b in
  Some (if kb <? ka then 1 else 0).

(** [arr_records[i] = mapped + i] for every record of the file. *)
Definition initRecords (filesize : Z) : list Z :=
  let num_records := Z.quot filesize RECORD_LEN in
  seqZ 0 num_records.

(** [output[i] = *records[i]]. *)
Fixpoint output (mapped : list record_t) (records : list Z) : option (list record_t) :=
  match records with
  | [] => Some []
  | p :: ps =>
      let? r := getZ mapped p in
      let? rs := output mapped ps in
      Some (r :: rs)
  end.

(** The loops that fill [L] and [R]. *)
Fixpoint copy_from (records : list Z) (start : Z) (count : nat) : option (list Z) :=
  match count with
  | O => Some []
  | S n =>
      let? x := getZ records start in
      let? t := copy_from records (start + 1) n in
      Some (x :: t)
  end.

(** [while (i < curr_left && j < curr_right)]. *)
Fixpoint merge_while (mapped : list record_t) (fuel : nat) (L R : list Z)
    (curr_left curr_right : Z) (records : list Z) (i j k : Z) :
    option (list Z * Z * Z * Z) :=
  match fuel with
  | O => None
  | S f =>
      if (i <? curr_left) && (j <? curr_right) then
        let? pl := getZ L i in
        let? pr := getZ R j in
        let? kl := key_of mapped pl in
        let? kr := key_of mapped pr in
        if kl <=? kr then
          let? records := setZ records k pl in
          merge_while mapped f L R curr_left curr_right records (i + 1) j (k + 1)
        else
          let? records := setZ records k pr in
          merge_while mapped f L R curr_left curr_right records i (j + 1) (k + 1)
      else Some (records, i, j, k)
  end.

(** [while (i < n) records[k++] = X[i++]]. *)
Fixpoint drain (fuel : nat) (X : list Z) (n : Z) (records : list Z) (i k : Z) :
    option (list Z * Z) :=
  match fuel with
  | O => None
  | S f =>
      if i <? n then
        let? p := getZ X i in
        let? records := setZ records k p in
        drain f X n records (i + 1) (k + 1)
      else Some (records, k)
  end.

Definition merge (mapped : list record_t) (left mid right : Z) (records : list Z) :
    option (list Z) :=
  let curr_left := mid - left + 1 in
  let curr_right := right - mid in
  let? L := copy_from records left (Z.to_nat curr_left) in
  let? R := copy_from records (mid + 1) (Z.to_nat curr_right) in
  let fuel := S (Z.to_nat (curr_left + curr_right)) in
  let? (records, i, j, k) :=
    merge_while mapped fuel L R curr_left curr_right records 0 0 left in
  let? (records, k) := drain fuel L curr_left records i k in
  let? (records, k) := drain fuel R curr_right records j k in
  Some records.

Fixpoint mergeSort (mapped : list record_t) (fuel : nat) (left right : Z)
    (records : list Z) : option (list Z) :=
  match fuel with
  | O => None
  | S f =>
      if right <=? left then Some records
      else
        let mid := left + Z.quot (right - left) 2 in
        let? records := mergeSort mapped f left mid records in
        let? records := mergeSort mapped f (mid + 1) right records in
        merge mapped left mid right records
  end.

Definition threads_mergeSort (mapped : list record_t) (num_records procs : Z)
    (curr_thread : Z) (records : list Z) : option (list Z) :=
  let left := curr_thread * Z.quot num_records procs in
  let right :=
    if curr_thread =? procs - 1 then num_records - 1
    else left + Z.quot num_records procs - 1 in
  mergeSort mapped (S (Z.to_nat num_records)) left right records.

Definition threads_merge (mapped : list record_t) (num_records : Z)
    (thread : threads_t) (records : list Z) : option (list Z) :=
  let left := s32 (curr thread * num thread) in
  let mid := s32 (left + Z.quot (num thread) 2 - 1) in
  let right := s32 (left + num thread - 1) in
  let last_index := Z.quot (length thread) 2 - 1 in
  let last :=
    if negb (Z.rem (length thread) 2 =? 0) || negb (curr thread =? last_index)
    then 0 else 1 in
  let right := if last =? 1 then num_records - 1 else right in
  merge mapped left mid right records.

(** One batch: every created thread runs, in the order the scheduler picks,
    before the last [pthread_join] returns. *)
Fixpoint run_threads (f : Z -> list Z -> option (list Z)) (order : list Z)
    (records : list Z) : option (list Z) :=
  match order with
  | [] => Some records
  | t :: ts =>
      let? records := f t records in
      run_threads f ts records
  end.

(** [for (merges = length / 2; merges > 0; merges = length / 2)]. *)
Fixpoint merge_rounds (sched : nat -> list Z -> list Z) (mapped : list record_t)
    (num_records : Z) (fuel : nat) (round : nat) (len num : Z) (records : list Z) :
    option (list Z) :=
  match fuel with
  | O => None
  | S f =>
      let merges := Z.quot len 2 in
      if 0 <? merges then
        let? records :=
          run_threads
            (fun i => threads_merge mapped num_records
                        {| curr := i; num := num; length := len |})
            (sched round (seqZ 0 merges)) records in
        let temp := len - merges in
        merge_rounds sched mapped num_records f (S round) temp (s32 (num * 2)) records
      else Some records
  end.

Definition multithread_sort (sched : nat -> list Z -> list Z) (get_nprocs : Z)
    (mapped : list record_t) (num_records : Z) (records : list Z) : option (list Z) :=
  let procs :=
    if (num_records <=? 100) || (num_records <=? get_nprocs) then 1 else get_nprocs in
  let? records :=
    run_threads (threads_mergeSort mapped num_records procs)
      (sched O (seqZ 0 procs)) records in
  if 1 <? procs then
    let len := procs in
    let num := s32 (Z.quot num_records len * 2) in
    merge_rounds sched mapped num_records (S (Z.to_nat procs)) 1 len num records
  else Some records.

(** [main]: the records written to the output file, from those of the input. *)
Definition psort (sched : nat -> list Z -> list Z) (get_nprocs : Z) (filesize : Z)
    (mapped : list record_t) : option (list record_t) :=
  let num_records := Z.quot filesize RECORD_LEN in
  let records := initRecords filesize in
  let? records := multithread_sort sched get_nprocs mapped num_records records in
  output mapped records.

Example psort_small :
  psort (fun _ l => rev l) 4 400
    [ {| key := 3; value := [] |}; {| key := 1; value := [10] |};
      {| key := 2; value := [] |}; {| key := 1; value := [11] |} ]
  = Some [ {| key := 1; value := [10] |}; {| key := 1; value := [11] |};
           {| key := 2; value := [] |}; {| key := 3; value := [] |} ].
Proof. vm_compute. reflexivity. Qed.

(** ** The reference order and the sort it determines *)

Definition asc (l : list Z) : Prop := StronglySorted Z.lt l.

Lemma seqZ_asc m n : asc (seqZ m n).
Proof.
  unfold asc. destruct (Z.le_gt_cases n 0) as [Hn|Hn]; [rewrite seqZ_nil by lia; constructor|].
  revert m. apply (Wf_Z.natlike_ind (fun n => forall m, StronglySorted Z.lt (seqZ m n))); [| |lia].
  - intros m. rewrite seqZ_nil by lia. constructor.
  - intros x Hx IH m. rewrite seqZ_cons by lia. rewrite Z.pred_succ. constructor; [apply IH|].
    apply Forall_seqZ. lia.
Qed.


Section correctness.
Context (mapped : list record_t).

Definition kf (p : Z) : Z := default 0 (key_of mapped p).

(** Order of the keys, ties broken by the position in the input: sorting by
    it is the stable sort by key. *)
Definition lexle (p q : Z) : Prop := kf p < kf q \/ (kf p = kf q /\ p <= q).

#[export] Instance lexle_dec p q : Decision (lexle p q).
Proof. unfold lexle. apply _. Defined.

#[export] Instance lexle_trans : Transitive lexle.
Proof. intros p q r. unfold lexle. lia. Qed.

#[export] Instance lexle_total : Total lexle.
Proof. intros p q. unfold lexle. lia. Qed.

#[export] Instance lexle_antisym : AntiSymm (=) lexle.
Proof. intros p q. unfold lexle. lia. Qed.

Definition valid_ptrs (l : list Z) : Prop := forall p, p ∈ l -> 0 <= p < len mapped.

Definition before (A B : list Z) : Prop := forall a b, a ∈ A -> b ∈ B -> a < b.

Lemma key_of_valid p : 0 <= p < len mapped -> key_of mapped p = Some (kf p).
Proof.
  intros Hp. unfold kf, key_of. destruct (getZ_is_Some mapped p Hp) as [r Hr].
  rewrite Hr. reflexivity.
Qed.

Lemma lexle_key p q : p < q -> (kf p <=? kf q) = bool_decide (lexle p q).
Proof.
  intros Hpq. unfold lexle. destruct (Z.leb_spec (kf p) (kf q)); symmetry.
  - apply bool_decide_eq_true. lia.
  - apply bool_decide_eq_false. lia.
Qed.

(** ** One merge *)

Lemma copy_from_spec pre A post start :
  start = len pre -> copy_from (pre ++ A ++ post) start (Datatypes.length A) = Some A.
Proof.
  revert pre start. induction A as [|a A IH]; intros pre start ->; [done|]. simpl.
  rewrite getZ_app_at. simpl.
  replace (pre ++ a :: A ++ post) with ((pre ++ [a]) ++ A ++ post)
    by (by rewrite <- app_assoc).
  rewrite IH by (rewrite length_app; simpl; lia). done.
Qed.

Lemma drain_spec fuel done l pre X post n i k :
  n = len (done ++ l) -> i = len done -> k = len pre ->
  Datatypes.length X = Datatypes.length l -> (Datatypes.length l < fuel)%nat ->
  drain fuel (done ++ l) n (pre ++ X ++ post) i k = Some (pre ++ l ++ post, k + len l).
Proof.
  revert n done l pre X i k.
  induction fuel as [|fuel IH]; intros n done l pre X i k -> -> -> HX Hf; [lia|].
  simpl. destruct l as [|a l].
  - destruct X; [|done]. rewrite app_nil_r, Z.ltb_irrefl. simpl. repeat f_equal. lia.
  - destruct X as [|x X]; [done|]. simpl in HX, Hf.
    destruct (Z.ltb_spec (len done) (len (done ++ a :: l))) as [_|Hl];
      [|rewrite length_app in Hl; simpl in Hl; lia].
    rewrite getZ_app_at. simpl. erewrite setZ_app_at by done. simpl.
    replace (done ++ a :: l) with ((done ++ [a]) ++ l) by (by rewrite <- app_assoc).
    replace (pre ++ a :: X ++ post) with ((pre ++ [a]) ++ X ++ post)
      by (by rewrite <- app_assoc).
    rewrite (IH _ (done ++ [a]) l (pre ++ [a]) X);
      [|done|rewrite length_app; simpl; lia|rewrite length_app; simpl; lia|lia|lia].
    rewrite <- app_assoc. cbn [app Datatypes.length]. do 2 f_equal. lia.
Qed.

(** The three loops of [merge], from any intermediate state. *)
Definition merge_loops (fuel d : nat) (L R records : list Z) (i j k : Z) : option (list Z) :=
  let? (records, i, j, k) :=
    merge_while mapped fuel L R (len L) (len R) records i j k in
  let? (records, k) := drain d L (len L) records i k in
  let? (records, k) := drain d R (len R) records j k in
  Some records.

Lemma drains_spec d dl l dr r pre X post k :
  l = [] \/ r = [] -> k = len pre ->
  Datatypes.length X = (Datatypes.length l + Datatypes.length r)%nat ->
  (Datatypes.length l + Datatypes.length r < d)%nat ->
  (let? (records, k) := drain d (dl ++ l) (len (dl ++ l)) (pre ++ X ++ post) (len dl) k in
   let? (records, k) := drain d (dr ++ r) (len (dr ++ r)) records (len dr) k in
   Some records) = Some (pre ++ (l ++ r) ++ post).
Proof.
  intros Hlr -> HX Hd. destruct Hlr as [-> | ->].
  - pose proof (drain_spec d dl [] pre [] (X ++ post)) as H1. simpl in H1.
    rewrite H1 by (simpl; lia). simpl in *. rewrite Z.add_0_r.
    rewrite (drain_spec d dr r pre X post) by (simpl in *; lia). done.
  - rewrite (drain_spec d dl l pre X post) by (simpl in *; lia). simpl.
    pose proof (drain_spec d dr [] (pre ++ l) [] post) as H1. simpl in H1.
    rewrite <- app_assoc in H1. rewrite H1 by (rewrite ?length_app; simpl in *; lia).
    simpl. by rewrite !app_nil_r.
Qed.

Lemma merge_loops_spec fuel d dl l dr r pre X post k :
  valid_ptrs l -> valid_ptrs r -> before l r -> k = len pre ->
  Datatypes.length X = (Datatypes.length l + Datatypes.length r)%nat ->
  (Datatypes.length l + Datatypes.length r < fuel)%nat ->
  (Datatypes.length l + Datatypes.length r < d)%nat ->
  merge_loops fuel d (dl ++ l) (dr ++ r) (pre ++ X ++ post) (len dl) (len dr) k
  = Some (pre ++ list_merge lexle l r ++ post).
Proof.
  revert dl l dr r pre X k.
  induction fuel as [|fuel IH]; intros dl l dr r pre X k Hl Hr Hb -> HX Hf Hd; [lia|].
  unfold merge_loops. simpl.
  destruct l as [|a l]; [|destruct r as [|b r]].
  - rewrite (app_nil_r dl), Z.ltb_irrefl. simpl.
    pose proof (drains_spec d dl [] dr r pre X post _ (or_introl eq_refl) eq_refl HX Hd) as H.
    rewrite app_nil_r in H. rewrite list_merge_nil_l. exact H.
  - rewrite (app_nil_r dr), Z.ltb_irrefl, andb_false_r. cbv beta match.
    pose proof (drains_spec d dl (a :: l) dr [] pre X post _ (or_intror eq_refl) eq_refl HX Hd) as H.
    rewrite !app_nil_r in H. exact H.
  - destruct X as [|x X]; [done|]. simpl in HX, Hf, Hd.
    assert (Hlt : (len dl <? len (dl ++ a :: l)) && (len dr <? len (dr ++ b :: r)) = true).
    { rewrite !length_app. simpl. apply andb_true_iff. rewrite !Z.ltb_lt. lia. }
    rewrite Hlt, !getZ_app_at. cbv beta match.
    rewrite (key_of_valid a) by (apply Hl; left).
    rewrite (key_of_valid b) by (apply Hr; left).
    cbv beta match. simpl list_merge.
    rewrite lexle_key by (apply Hb; left). cbv beta match.
    change ((x :: X) ++ post) with (x :: X ++ post).
    case_bool_decide; [rewrite decide_True by done | rewrite decide_False by done];
      erewrite setZ_app_at by done.
    + change (merge_loops fuel d (dl ++ a :: l) (dr ++ b :: r) (pre ++ a :: X ++ post)
                (len dl + 1) (len dr) (len pre + 1) =
              Some (pre ++ a :: list_merge lexle l (b :: r) ++ post)).
      specialize (IH (dl ++ [a]) l dr (b :: r) (pre ++ [a]) X (len pre + 1)).
      rewrite <- !app_assoc, !length_app, !Nat2Z.inj_add in IH. apply IH.
      * intros p Hp. apply Hl. by right.
      * done.
      * intros p q Hp Hq. apply Hb; [by right|done].
      * done.
      * simpl. lia.
      * simpl. lia.
      * simpl. lia.
    + change (merge_loops fuel d (dl ++ a :: l) (dr ++ b :: r) (pre ++ b :: X ++ post)
                (len dl) (len dr + 1) (len pre + 1) =
              Some (pre ++ b :: list_merge lexle (a :: l) r ++ post)).
      specialize (IH dl (a :: l) (dr ++ [b]) r (pre ++ [b]) X (len pre + 1)).
      rewrite <- !app_assoc, !length_app, !Nat2Z.inj_add in IH. apply IH.
      * done.
      * intros p Hp. apply Hr. by right.
      * intros p q Hp Hq. apply Hb; [done|by right].
      * done.
      * simpl. lia.
      * simpl. lia.
      * simpl. lia.
Qed.

(** [merge] on a segment [A ++ B] of the array replaces it by the merge of
    [A] and [B] and leaves the rest of the array alone. *)
Lemma merge_segment pre A B post left mid right :
  left = len pre -> mid = len pre + len A - 1 -> right = mid + len B ->
  valid_ptrs A -> valid_ptrs B -> before A B ->
  merge mapped left mid right (pre ++ A ++ B ++ post)
  = Some (pre ++ list_merge lexle A B ++ post).
Proof.
  intros -> -> -> HA HB Hb. unfold merge.
  replace (len pre + len A - 1 - len pre + 1) with (len A) by lia.
  replace (len pre + len A - 1 + len B - (len pre + len A - 1)) with (len B) by lia.
  replace (len pre + len A - 1 + 1) with (len pre + len A) by lia.
  rewrite !Nat2Z.id. rewrite (copy_from_spec pre A (B ++ post)) by done. cbv beta match.
  pose proof (copy_from_spec (pre ++ A) B post (len pre + len A)) as HR.
  rewrite <- app_assoc, length_app, Nat2Z.inj_add in HR. rewrite HR by lia. cbv beta match.
  pose proof (merge_loops_spec (S (Z.to_nat (len A + len B))) (S (Z.to_nat (len A + len B)))
    [] A [] B pre (A ++ B) post (len pre) HA HB Hb eq_refl) as H.
  rewrite <- app_assoc in H. apply H; rewrite ?length_app; lia.
Qed.

(** ** Sorting a segment *)

Abbreviation msort := (merge_sort lexle).

Lemma msort_merge A B : list_merge lexle (msort A) (msort B) = msort (A ++ B).
Proof.
  apply (StronglySorted_unique lexle).
  - apply (Sorted_StronglySorted lexle), (Sorted_list_merge lexle);
      apply (Sorted_merge_sort lexle).
  - apply (StronglySorted_merge_sort lexle).
  - by rewrite merge_Permutation, !merge_sort_Permutation.
Qed.

Lemma msort_length A : Datatypes.length (msort A) = Datatypes.length A.
Proof. apply Permutation_length, merge_sort_Permutation. Qed.

Lemma msort_elem p A : p ∈ msort A <-> p ∈ A.
Proof. by rewrite merge_sort_Permutation. Qed.

Lemma msort_short A : (Datatypes.length A <= 1)%nat -> msort A = A.
Proof. destruct A as [|a [|b A]]; simpl; [done|done|lia]. Qed.

Lemma before_msort A B : asc (A ++ B) -> before (msort A) (msort B).
Proof.
  intros HAB a b Ha Hb. rewrite msort_elem in Ha, Hb.
  exact (StronglySorted_app_1_elem_of _ _ _ _ _ HAB Ha Hb).
Qed.

Lemma asc_app_l A B : asc (A ++ B) -> asc A.
Proof. apply StronglySorted_app_1_l. Qed.

Lemma asc_app_r A B : asc (A ++ B) -> asc B.
Proof. apply StronglySorted_app_1_r. Qed.

Lemma valid_app A B : valid_ptrs (A ++ B) <-> valid_ptrs A /\ valid_ptrs B.
Proof. unfold valid_ptrs. setoid_rewrite elem_of_app. firstorder. Qed.

Lemma valid_msort A : valid_ptrs A -> valid_ptrs (msort A).
Proof. intros HA p Hp. rewrite msort_elem in Hp. by apply HA. Qed.

#[local] Hint Resolve asc_app_l asc_app_r valid_msort before_msort : psort.

(** Merging two sorted neighbours gives the sorted union. *)
Lemma merge_sorted_segment pre A B post left mid right :
  left = len pre -> mid = len pre + len A - 1 -> right = mid + len B ->
  valid_ptrs (A ++ B) -> asc (A ++ B) ->
  merge mapped left mid right (pre ++ (msort A ++ msort B) ++ post)
  = Some (pre ++ msort (A ++ B) ++ post).
Proof.
  intros -> -> -> [HA HB]%valid_app Hasc. rewrite <- app_assoc, <- msort_merge.
  apply merge_segment; rewrite ?msort_length; eauto with psort.
Qed.

Lemma mergeSort_segment fuel pre A post left right :
  left = len pre -> right = len pre + len A - 1 ->
  (Datatypes.length A < fuel)%nat -> valid_ptrs A -> asc A ->
  mergeSort mapped fuel left right (pre ++ A ++ post) = Some (pre ++ msort A ++ post).
Proof.
  revert pre A post left right.
  induction fuel as [|fuel IH]; intros pre A post left right -> -> Hf HA Hasc; [lia|].
  cbn [mergeSort]. destruct (Z.leb_spec (len pre + len A - 1) (len pre)) as [Hle|Hgt].
  { by rewrite msort_short by lia. }
  replace (len pre + len A - 1 - len pre) with (len A - 1) by lia.
  rewrite Z.quot_div_nonneg by lia. set (h := (len A - 1) / 2).
  assert (Hh : 0 <= h < len A - 1) by (unfold h; split; [apply Z.div_pos|apply Z.div_lt]; lia).
  set (A1 := take (Z.to_nat (h + 1)) A). set (A2 := drop (Z.to_nat (h + 1)) A).
  assert (HAe : A = A1 ++ A2) by (symmetry; apply take_drop).
  assert (Hl1 : len A1 = h + 1) by (unfold A1; rewrite length_take; lia).
  assert (Hl2 : len A2 = len A - (h + 1)) by (unfold A2; rewrite length_drop; lia).
  clearbody A1 A2 h. subst A. rewrite length_app in *. rewrite <- app_assoc.
  pose proof (proj1 (valid_app _ _) HA) as [HA1 HA2].
  rewrite (IH pre A1 (A2 ++ post)) by (eauto with psort; lia). cbv beta match.
  pose proof (IH (pre ++ msort A1) A2 post (len pre + h + 1)
    (len pre + Z.of_nat (Datatypes.length A1 + Datatypes.length A2) - 1)) as H2.
  rewrite length_app, msort_length, <- !app_assoc in H2.
  rewrite H2 by (eauto with psort; lia). cbv beta match.
  pose proof (merge_sorted_segment pre A1 A2 post (len pre) (len pre + h)
    (len pre + Z.of_nat (Datatypes.length A1 + Datatypes.length A2) - 1)) as H3.
  rewrite <- app_assoc in H3. apply H3; eauto; lia.
Qed.

(** ** Batches of threads that own disjoint blocks *)

Lemma length_concat_eq (xs ys : list (list Z)) :
  map Datatypes.length xs = map Datatypes.length ys ->
  Datatypes.length (concat xs) = Datatypes.length (concat ys).
Proof.
  revert ys. induction xs as [|x xs IH]; intros [|y ys]; simpl; [done..|].
  intros [= Hx Hxs]. rewrite !length_app. rewrite (IH ys Hxs). lia.
Qed.

Lemma concat_split (xs : list (list Z)) n b :
  xs !! n = Some b -> concat xs = concat (take n xs) ++ b ++ concat (drop (S n) xs).
Proof.
  intros Hn. rewrite <- (take_drop_middle xs n b Hn) at 1. by rewrite concat_app.
Qed.

(** If every thread of the batch turns its own block into its target, whatever
    the other blocks hold, then the batch reaches all targets in every order. *)
Lemma run_threads_blocks f (targets : list (list Z)) order cur :
  NoDup order ->
  (forall t, t ∈ order -> 0 <= t < len cur) ->
  map Datatypes.length cur = map Datatypes.length targets ->
  (forall n, Z.of_nat n ∉ order -> cur !! n = targets !! n) ->
  (forall n b c pre post, Z.of_nat n ∈ order -> cur !! n = Some b -> targets !! n = Some c ->
     Datatypes.length pre = Datatypes.length (concat (take n targets)) ->
     Datatypes.length post = Datatypes.length (concat (drop (S n) targets)) ->
     f (Z.of_nat n) (pre ++ b ++ post) = Some (pre ++ c ++ post)) ->
  run_threads f order (concat cur) = Some (concat targets).
Proof.
  revert cur. induction order as [|t ts IH]; intros cur Hnd Hin Hlen Hout Hf; simpl.
  { do 2 f_equal. apply list_eq. intros i. apply Hout. set_solver. }
  assert (Hlen' : Datatypes.length cur = Datatypes.length targets)
    by (rewrite <- (length_map Datatypes.length cur), Hlen; apply length_map).
  pose proof (Hin t ltac:(left)) as Ht. destruct (Z_of_nat_complete t) as [n ->]; [lia|].
  destruct (lookup_lt_is_Some_2 cur n ltac:(lia)) as [b Hb].
  destruct (lookup_lt_is_Some_2 targets n ltac:(lia)) as [c Hc].
  apply NoDup_cons in Hnd as [Hnt Hnd].
  rewrite (concat_split cur n b Hb).
  rewrite (Hf n b c); [|left|done|done|apply length_concat_eq..].
  2: by rewrite <- !firstn_map, Hlen. 2: by rewrite <- !skipn_map, Hlen.
  cbv beta match.
  assert (Hbc : Datatypes.length b = Datatypes.length c).
  { assert (Hn : map Datatypes.length cur !! n = map Datatypes.length targets !! n) by (by rewrite Hlen).
    change (Datatypes.length <$> cur) with (map Datatypes.length cur) in *.
    rewrite !list_lookup_fmap, Hb, Hc in Hn. by injection Hn. }
  assert (Hcur' : concat (take n cur) ++ c ++ concat (drop (S n) cur) = concat (<[n := c]> cur)).
  { rewrite insert_take_drop by lia. by rewrite concat_app. }
  rewrite Hcur'. apply IH.
  - done.
  - intros t Ht'. rewrite length_insert. apply Hin. by right.
  - rewrite <- Hlen. change (Datatypes.length <$> <[n:=c]> cur = Datatypes.length <$> cur).
    rewrite list_fmap_insert. apply list_insert_id. rewrite list_lookup_fmap, Hb. simpl. by f_equal.
  - intros m Hm. destruct (decide (m = n)) as [->|Hne].
    + rewrite list_lookup_insert_eq by lia. done.
    + rewrite list_lookup_insert_ne by done. apply Hout.
      rewrite not_elem_of_cons. split; [lia|done].
  - intros m b' c' pre post Hm Hb' Hc'. rewrite list_lookup_insert_ne in Hb' by (intros ->; done).
    apply Hf; [by right|done..].
Qed.

(** ** The rounds of pairwise merging *)

(** All slices but the last have [c] records. *)
Definition uniform (c : Z) (ss : list (list Z)) : Prop :=
  forall i s, ss !! i = Some s -> (S i < Datatypes.length ss)%nat -> len s = c.

Fixpoint pair_up (ss : list (list Z)) : list (list Z) :=
  match ss with
  | a :: b :: r => (a ++ b) :: pair_up r
  | _ => ss
  end.

Fixpoint pair_sorted (ss : list (list Z)) : list (list Z) :=
  match ss with
  | a :: b :: r => (msort a ++ msort b) :: pair_sorted r
  | _ => map msort ss
  end.

Lemma list_ind2 {A} (P : list A -> Prop) :
  P [] -> (forall a, P [a]) -> (forall a b r, P r -> P (a :: b :: r)) -> forall l, P l.
Proof.
  intros H0 H1 H2. fix IH 1.
  intros [|a [|b r]]; [exact H0|exact (H1 a)|exact (H2 a b r (IH r))].
Qed.

Lemma concat_pair_up ss : concat (pair_up ss) = concat ss.
Proof. induction ss using list_ind2; simpl; [done..|]. by rewrite IHss, <- app_assoc. Qed.

Lemma concat_pair_sorted ss : concat (pair_sorted ss) = concat (map msort ss).
Proof. induction ss using list_ind2; simpl; [done..|]. by rewrite IHss, <- app_assoc. Qed.

Lemma pair_sorted_lengths ss :
  map Datatypes.length (pair_sorted ss) = map Datatypes.length (map msort (pair_up ss)).
Proof.
  induction ss using list_ind2; simpl; [done..|].
  rewrite IHss, length_app, !msort_length, length_app. done.
Qed.

Lemma length_pair_up ss :
  len (pair_up ss) = len ss - len ss / 2.
Proof.
  induction ss using list_ind2; [done..|]. cbn [pair_up Datatypes.length].
  rewrite !Nat2Z.inj_succ, IHss.
  replace (Z.succ (Z.succ (len ss))) with (len ss + 1 * 2) by lia.
  rewrite Z.div_add by lia. lia.
Qed.

Lemma uniform_tl c a ss : uniform c (a :: ss) -> uniform c ss.
Proof. intros H i s Hi Hlt. apply (H (S i) s); [done|simpl; lia]. Qed.

Lemma uniform_pair_up c ss : uniform c ss -> uniform (2 * c) (pair_up ss).
Proof.
  induction ss as [|a|a b r IH] using list_ind2; intros Hu i s Hi Hlt;
    [done|simpl in Hlt; lia|].
  assert (Hr : r <> []) by (intros ->; simpl in Hlt; destruct i; simpl in Hlt; lia).
  destruct i as [|i]; simpl in Hi, Hlt.
  - injection Hi as <-. rewrite length_app.
    pose proof (Hu 0%nat a eq_refl ltac:(simpl; lia)).
    pose proof (Hu 1%nat b eq_refl ltac:(destruct r; [done|simpl; lia])). lia.
  - apply (IH (uniform_tl _ _ _ (uniform_tl _ _ _ Hu)) i s); [done|lia].
Qed.

(** Thread [i] of a round finds its two slices at position [2 * i * c]. *)
Lemma pair_block i ss b' c' c :
  uniform c ss -> 2 * Z.of_nat i + 1 < len ss ->
  pair_sorted ss !! i = Some b' -> map msort (pair_up ss) !! i = Some c' ->
  exists A B, b' = msort A ++ msort B /\ c' = msort (A ++ B) /\
    (exists s1 s2, ss = s1 ++ A :: B :: s2 /\
      len (concat s1) = Z.of_nat i * (2 * c) /\ (s2 = [] <-> len ss = 2 * Z.of_nat i + 2)) /\
    len (concat (take i (map msort (pair_up ss)))) = Z.of_nat i * (2 * c) /\
    len (concat (drop (S i) (map msort (pair_up ss)))) =
      len (concat ss) - Z.of_nat i * (2 * c) - len A - len B /\
    len A = c /\ (2 * Z.of_nat i + 2 < len ss -> len B = c).
Proof.
  assert (Hcat : forall xs, len (concat (map msort xs)) = len (concat xs)).
  { induction xs as [|x xs IHx]; [done|]. simpl. rewrite !length_app, msort_length. lia. }
  revert ss. induction i as [|i IH]; intros ss Hu Hlt Hb Hc;
    (destruct ss as [|a [|b r]]; [simpl in *; lia | simpl in *; lia |]).
  - cbn in Hb, Hc. injection Hb as <-. injection Hc as <-. exists a, b.
    split; [done|]. split; [done|]. split.
    { exists [], r. split; [done|]. split; [done|]. destruct r; simpl; [done|]. split; [done|lia]. }
    split; [done|]. split; [|split].
    + change (drop 1 (map msort (pair_up (a :: b :: r)))) with (map msort (pair_up r)).
      rewrite Hcat, concat_pair_up. simpl. rewrite !length_app. lia.
    + apply (Hu 0%nat a eq_refl). simpl. lia.
    + intros Hl. apply (Hu 1%nat); [done|]. simpl in *. lia.
  - cbn [Datatypes.length] in Hlt.
    destruct (IH r) as (A & B & -> & -> & (s1 & s2 & -> & Hs1 & Hs2) & H1 & H2 & H3 & H4);
      [by do 2 eapply uniform_tl|lia|done|done|].
    exists A, B. split; [done|]. split; [done|].
    pose proof (Hu 0%nat a eq_refl ltac:(simpl; lia)) as Ha.
    assert (Hbl : len b = c).
    { apply (Hu 1%nat b eq_refl). cbn [Datatypes.length]. rewrite length_app. simpl. lia. }
    split.
    { exists (a :: b :: s1), s2. split; [done|]. split.
      - cbn [concat]. rewrite !length_app. lia.
      - rewrite Hs2. cbn [Datatypes.length]. lia. }
    cbn [pair_up map take drop concat Datatypes.length].
    cbn [concat]. rewrite !length_app, msort_length, length_app in *.
    split; [lia|]. split; [lia|]. split; [done|]. intros. apply H4. lia.
Qed.

Hypothesis mapped_small : len mapped <= 21474836.

(** One thread of a round does its part, whatever the other threads did. *)
Lemma threads_merge_block ss c i b' c' pre post :
  uniform c ss -> 2 * Z.of_nat i + 1 < len ss -> len (concat ss) <= len mapped ->
  valid_ptrs (concat ss) -> asc (concat ss) ->
  pair_sorted ss !! i = Some b' -> map msort (pair_up ss) !! i = Some c' ->
  Datatypes.length pre = Datatypes.length (concat (take i (map msort (pair_up ss)))) ->
  Datatypes.length post = Datatypes.length (concat (drop (S i) (map msort (pair_up ss)))) ->
  threads_merge mapped (len (concat ss))
    {| curr := Z.of_nat i; num := 2 * c; length := len ss |} (pre ++ b' ++ post)
  = Some (pre ++ c' ++ post).
Proof.
  intros Hu Hi Hn Hv Hasc Hb Hc Hpre Hpost.
  destruct (pair_block i ss b' c' c Hu Hi Hb Hc)
    as (A & B & -> & -> & (s1 & s2 & Hss & Hs1 & Hs2) & H1 & H2 & HA & HB).
  assert (HAB : concat ss = concat s1 ++ (A ++ B) ++ concat s2)
    by (rewrite Hss, concat_app; simpl; by rewrite <- app_assoc).
  assert (Hsz : Z.of_nat i * (2 * c) + len A + len B <= len (concat ss)) by lia.
  assert (0 <= Z.of_nat i * (2 * c)) by (apply Z.mul_nonneg_nonneg; lia).
  unfold threads_merge. cbn [curr num length].
  rewrite (Z.mul_comm 2 c), Z.quot_mul, (Z.mul_comm c 2) by lia.
  rewrite (s32_small (Z.of_nat i * (2 * c))) by (unfold is_s32; lia).
  rewrite (s32_small (_ + c - 1)) by (unfold is_s32; lia).
  rewrite (s32_small (_ + 2 * c - 1)) by (unfold is_s32; lia).
  rewrite Z.quot_div_nonneg, Z.rem_mod_nonneg by lia.
  pose proof (Z.div_mod (len ss) 2 ltac:(lia)) as Hdm.
  pose proof (Z.mod_pos_bound (len ss) 2 ltac:(lia)) as Hmb.
  apply merge_sorted_segment.
  - lia.
  - lia.
  - destruct (Z.eqb_spec (len ss mod 2) 0); destruct (Z.eqb_spec (Z.of_nat i) (len ss / 2 - 1));
      simpl; try (rewrite HB by lia; lia).
    assert (s2 = []) as -> by (apply Hs2; lia).
    rewrite HAB, !length_app. simpl. lia.
  - rewrite HAB in Hv. by apply valid_app in Hv as [_ [Hv _]%valid_app].
  - rewrite HAB in Hasc. eauto with psort.
Qed.

Context (sched : nat -> list Z -> list Z).
Hypothesis sched_perm : forall r l, sched r l ≡ₚ l.

Lemma sched_NoDup r n : NoDup (sched r (seqZ 0 n)).
Proof. rewrite sched_perm. apply NoDup_seqZ. Qed.

Lemma sched_elem r n t : t ∈ sched r (seqZ 0 n) <-> 0 <= t < n.
Proof. rewrite sched_perm, elem_of_seqZ. lia. Qed.

Lemma merge_round r ss c :
  uniform c ss -> len (concat ss) <= len mapped ->
  valid_ptrs (concat ss) -> asc (concat ss) ->
  run_threads (fun i => threads_merge mapped (len (concat ss))
                          {| curr := i; num := 2 * c; length := len ss |})
    (sched r (seqZ 0 (len ss / 2))) (concat (map msort ss))
  = Some (concat (map msort (pair_up ss))).
Proof.
  intros Hu Hn Hv Hasc. rewrite <- concat_pair_sorted.
  assert (Hl : len (pair_sorted ss) = len ss - len ss / 2).
  { rewrite <- length_pair_up, <- (length_map Datatypes.length), pair_sorted_lengths.
    by rewrite !length_map. }
  pose proof (Z.div_mod (len ss) 2 ltac:(lia)).
  pose proof (Z.mod_pos_bound (len ss) 2 ltac:(lia)).
  apply run_threads_blocks.
  - apply sched_NoDup.
  - intros t Ht%sched_elem. lia.
  - apply pair_sorted_lengths.
  - intros n Hn'. rewrite sched_elem in Hn'.
    assert (Hge : len ss / 2 <= Z.of_nat n) by lia.
    assert (Htriv : forall xs m, len xs / 2 <= Z.of_nat m ->
      pair_sorted xs !! m = map msort (pair_up xs) !! m).
    { clear. induction xs as [|a|a b xs IH] using list_ind2; intros m Hm; [done..|].
      cbn [Datatypes.length] in Hm.
      replace (Z.of_nat (S (S (Datatypes.length xs)))) with (len xs + 1 * 2) in Hm by lia.
      rewrite Z.div_add in Hm by lia. pose proof (Z.div_pos (len xs) 2).
      destruct m as [|m]; [lia|]. simpl. apply IH. lia. }
    by apply Htriv.
  - intros n b' c' pre post Hin. rewrite sched_elem in Hin.
    apply threads_merge_block; [done|lia|done..].
Qed.

Lemma merge_rounds_correct fuel r ss c num :
  (Datatypes.length ss <= fuel)%nat -> ss <> [] -> uniform c ss ->
  (2 <= len ss -> num = 2 * c) ->
  len (concat ss) <= len mapped -> valid_ptrs (concat ss) -> asc (concat ss) ->
  merge_rounds sched mapped (len (concat ss)) fuel r (len ss) num (concat (map msort ss))
  = Some (msort (concat ss)).
Proof.
  revert r ss c num. induction fuel as [|fuel IH]; intros r ss c num Hf Hne Hu Hnum Hn Hv Hasc.
  { destruct ss; [done|simpl in Hf; lia]. }
  cbn [merge_rounds]. rewrite Z.quot_div_nonneg by lia.
  destruct (Z.ltb_spec 0 (len ss / 2)) as [Hpos|Hle].
  - assert (H2 : 2 <= len ss).
    { pose proof (Z.div_mod (len ss) 2 ltac:(lia)).
      pose proof (Z.mod_pos_bound (len ss) 2 ltac:(lia)). lia. }
    rewrite (Hnum H2), merge_round by done. cbv beta match.
    rewrite <- length_pair_up, <- (concat_pair_up ss) in *.
    assert (Hlt : len (pair_up ss) < len ss) by (rewrite length_pair_up; lia).
    apply (IH _ _ (2 * c)); [lia| |by apply uniform_pair_up| |done..].
    + destruct ss as [|a [|b r']]; done.
    + intros _. rewrite s32_small; [lia|].
      destruct ss as [|a [|b r']]; [done|simpl in H2; lia|].
      pose proof (Hu 0%nat a eq_refl ltac:(simpl; lia)) as Ha.
      cbn [pair_up concat] in Hn. rewrite !length_app in Hn. unfold is_s32. lia.
  - assert (len ss = 1) as H1.
    { destruct ss as [|a [|b r']]; [done..|]. exfalso. cbn [Datatypes.length] in Hle.
      replace (Z.of_nat (S (S (Datatypes.length r')))) with (len r' + 1 * 2) in Hle by lia.
      rewrite Z.div_add in Hle by lia. pose proof (Z.div_pos (len r') 2). lia. }
    destruct ss as [|a [|b r']]; [done| |simpl in H1; lia]. simpl. by rewrite !app_nil_r.
Qed.

(** ** The first batch: every thread sorts its own slice *)

Fixpoint slices (c : nat) (k : nat) (l : list Z) : list (list Z) :=
  match k with
  | O => []
  | S O => [l]
  | S k' => take c l :: slices c k' (drop c l)
  end.

Lemma slices_S c k l : slices c (S (S k)) l = take c l :: slices c (S k) (drop c l).
Proof. done. Qed.

Lemma length_slices c k l : Datatypes.length (slices c k l) = k.
Proof.
  revert l. induction k as [|[|k] IH]; intros l; [done..|]. rewrite slices_S. cbn [Datatypes.length].
  f_equal. apply IH.
Qed.

Lemma concat_slices c k l : concat (slices c (S k) l) = l.
Proof.
  revert l. induction k as [|k IH]; intros l; [apply app_nil_r|].
  rewrite slices_S. cbn [concat]. rewrite IH. apply take_drop.
Qed.

Lemma slices_lookup c k l i b :
  (c * k <= Datatypes.length l)%nat -> slices c (S k) l !! i = Some b ->
  len (concat (take i (slices c (S k) l))) = Z.of_nat (c * i) /\
  len b = (if decide (i = k) then len l - Z.of_nat (c * k) else Z.of_nat c).
Proof.
  revert l i. induction k as [|k IH]; intros l i Hc Hi.
  - destruct i; [|done]. injection Hi as <-. simpl. lia.
  - rewrite slices_S in *. destruct i as [|i].
    + injection Hi as <-. simpl. rewrite length_take. lia.
    + cbn [lookup list_lookup] in Hi. destruct (IH (drop c l) i) as [H1 H2];
        [rewrite length_drop; lia|done|].
      cbn [take concat]. rewrite length_app, length_take, length_drop in *.
      split; [lia|]. repeat case_decide; lia.
Qed.

Lemma uniform_slices c k l :
  (c * k <= Datatypes.length l)%nat -> uniform (Z.of_nat c) (slices c (S k) l).
Proof.
  intros Hc i s Hi Hlt. rewrite length_slices in Hlt.
  destruct (slices_lookup c k l i s Hc Hi) as [_ Hs]. rewrite decide_False in Hs by lia. done.
Qed.

Lemma map_msort_lengths ss : map Datatypes.length ss = map Datatypes.length (map msort ss).
Proof.
  rewrite map_map. apply map_ext. intros s. by rewrite msort_length.
Qed.

Lemma concat_elem_valid (ss : list (list Z)) i b :
  ss !! i = Some b -> valid_ptrs (concat ss) -> asc (concat ss) -> valid_ptrs b /\ asc b.
Proof.
  intros Hi. rewrite (concat_split ss i b Hi). intros [_ [? _]%valid_app]%valid_app ?.
  split; [done|]. by eapply asc_app_l, asc_app_r.
Qed.

Lemma sort_round r n k c l :
  n = len l -> c = Z.to_nat (Z.quot n (Z.of_nat (S k))) ->
  valid_ptrs l -> asc l ->
  run_threads (threads_mergeSort mapped n (Z.of_nat (S k)))
    (sched r (seqZ 0 (Z.of_nat (S k)))) l
  = Some (concat (map msort (slices c (S k) l))).
Proof.
  intros -> Hc Hv Hasc. rewrite Z.quot_div_nonneg in Hc by lia.
  assert (Hc' : Z.of_nat c = len l / Z.of_nat (S k)) by (pose proof (Z.div_pos (len l) (Z.of_nat (S k))); lia).
  assert (Hck : (c * k <= Datatypes.length l)%nat).
  { pose proof (Z.mul_div_le (len l) (Z.of_nat (S k)) ltac:(lia)). nia. }
  transitivity (run_threads (threads_mergeSort mapped (len l) (Z.of_nat (S k)))
    (sched r (seqZ 0 (Z.of_nat (S k)))) (concat (slices c (S k) l)));
    [by rewrite concat_slices|].
  apply run_threads_blocks.
  - apply sched_NoDup.
  - intros t Ht%sched_elem. rewrite length_slices. done.
  - apply map_msort_lengths.
  - intros i Hi. rewrite sched_elem in Hi.
    rewrite !lookup_ge_None_2 by (rewrite ?length_map, ?length_slices; lia). done.
  - intros i b t pre post _ Hb Ht Hpre _.
    assert (Hi : (i < S k)%nat) by (apply lookup_lt_Some in Hb; by rewrite length_slices in Hb).
    change (map msort (slices c (S k) l)) with (msort <$> slices c (S k) l) in Ht.
    rewrite list_lookup_fmap, Hb in Ht. injection Ht as <-.
    destruct (slices_lookup c k l i b Hck Hb) as [Hstart Hlen].
    destruct (concat_elem_valid _ _ _ Hb) as [Hvb Hab]; [by rewrite concat_slices..|].
    rewrite firstn_map, <- (length_concat_eq _ _ (map_msort_lengths _)) in Hpre.
    unfold threads_mergeSort. rewrite Z.quot_div_nonneg, <- Hc' by lia.
    assert (Hbl : (Datatypes.length b <= Datatypes.length l)%nat) by (case_decide; nia).
    apply mergeSort_segment; [lia| |lia|done..].
    destruct (decide (i = k)) as [->|];
      destruct (Z.eqb_spec (Z.of_nat i) (Z.of_nat (S k) - 1))
      || destruct (Z.eqb_spec (Z.of_nat k) (Z.of_nat (S k) - 1)); lia.
Qed.

(** The pointer array after the sort, for every number of processors and every
    order of the threads of each batch. *)
Lemma multithread_sort_msort nprocs l :
  1 <= nprocs -> len l = len mapped -> valid_ptrs l -> asc l ->
  multithread_sort sched nprocs mapped (len mapped) l = Some (msort l).
Proof.
  intros Hp Hl Hv Hasc. unfold multithread_sort. rewrite <- Hl.
  set (procs := if _ || _ then 1 else nprocs).
  assert (Hprocs : 1 <= procs /\ (1 < procs -> 100 < len l)).
  { unfold procs. destruct (Z.leb_spec (len l) 100); simpl; [lia|].
    destruct (Z.leb_spec (len l) nprocs); lia. }
  clearbody procs.
  assert (exists k, procs = Z.of_nat (S k)) as [k ->] by (exists (Z.to_nat (procs - 1)); lia).
  rewrite (sort_round O (len l) k _ l) by done. cbv beta match.
  set (c := Z.to_nat (Z.quot (len l) (Z.of_nat (S k)))). set (ss := slices c (S k) l).
  assert (Hcat : concat ss = l) by apply concat_slices.
  destruct (Z.ltb_spec 1 (Z.of_nat (S k))).
  - assert (Hc : Z.of_nat c = len l / Z.of_nat (S k)).
    { unfold c. rewrite Z.quot_div_nonneg by lia.
      pose proof (Z.div_pos (len l) (Z.of_nat (S k))). lia. }
    pose proof (Z.mul_div_le (len l) (Z.of_nat (S k)) ltac:(lia)).
    assert (Z.of_nat c <= len l) by (rewrite Hc; apply Z.div_le_upper_bound; nia).
    replace (Z.quot (len l) (Z.of_nat (S k))) with (Z.of_nat c)
      by (rewrite Z.quot_div_nonneg; lia).
    rewrite (s32_small (Z.of_nat c * 2)) by (clearbody c; unfold is_s32; lia).
    assert (Hls : len ss = Z.of_nat (S k)) by (unfold ss; rewrite length_slices; lia).
    pose proof (merge_rounds_correct (S (Z.to_nat (Z.of_nat (S k)))) 1 ss (Z.of_nat c)
      (Z.of_nat c * 2)) as Hm.
    rewrite Hcat, Hls in Hm. apply Hm; [lia| | |lia|lia|done|done].
    + intros Hss. by rewrite Hss in Hls.
    + apply uniform_slices. nia.
  - assert (k = 0)%nat as -> by lia. simpl. by rewrite app_nil_r.
Qed.

(** ** The output file *)

Definition deref (p : Z) : record_t := default {| key := 0; value := [] |} (getZ mapped p).

Lemma kf_deref p : 0 <= p < len mapped -> kf p = key (deref p).
Proof.
  intros Hp. unfold kf, key_of, deref. destruct (getZ_is_Some mapped p Hp) as [r Hr].
  by rewrite Hr.
Qed.

Lemma output_deref l : valid_ptrs l -> output mapped l = Some (deref <$> l).
Proof.
  induction l as [|p l IH]; intros Hv; [done|]. simpl.
  destruct (getZ_is_Some mapped p) as [r Hr]; [apply Hv; left|]. unfold deref at 1.
  rewrite Hr. simpl. rewrite IH; [done|]. intros q Hq. apply Hv. by right.
Qed.

Lemma deref_all : deref <$> seqZ 0 (len mapped) = mapped.
Proof.
  apply list_eq. intros i. rewrite list_lookup_fmap.
  destruct (decide (i < Datatypes.length mapped)%nat).
  - rewrite lookup_seqZ_lt, Z.add_0_l by lia. cbn. unfold deref. rewrite getZ_nat.
    by destruct (lookup_lt_is_Some_2 mapped i ltac:(done)) as [r ->].
  - rewrite lookup_seqZ_ge, lookup_ge_None_2 by lia. done.
Qed.

Lemma seqZ_valid : valid_ptrs (seqZ 0 (len mapped)).
Proof. intros p Hp. apply elem_of_seqZ in Hp. lia. Qed.

Lemma StronglySorted_filter {A} (R : relation A) (P : A -> Prop) `{forall x, Decision (P x)} l :
  StronglySorted R l -> StronglySorted R (filter P l).
Proof.
  induction 1 as [|x l Hl IH Hx]; [constructor|]. rewrite filter_cons. case_decide; [|done].
  constructor; [done|]. rewrite Forall_forall in *. intros y [_ Hy]%list_elem_of_filter. by apply Hx.
Qed.

(** The records with a given key keep their order. *)
Lemma msort_stable k l :
  asc l -> filter (fun p => kf p = k) (msort l) = filter (fun p => kf p = k) l.
Proof.
  intros Hasc. apply (StronglySorted_unique_strong lexle).
  - intros p q _ _. apply lexle_antisym.
  - apply StronglySorted_filter, StronglySorted_merge_sort; apply _.
  - assert (Ha : StronglySorted Z.lt (filter (fun p => kf p = k) l)) by (by apply StronglySorted_filter).
    assert (Hk : Forall (fun p => kf p = k) (filter (fun p => kf p = k) l))
      by (apply Forall_forall; intros p Hp; by apply list_elem_of_filter in Hp as [Hp _]).
    induction Ha as [|p l' _ IH Hp]; [constructor|]. apply Forall_cons in Hk as [Hpk Hk].
    constructor; [by apply IH|]. rewrite Forall_forall in *. intros q Hq.
    specialize (Hp q Hq). specialize (Hk q Hq). unfold lexle. lia.
  - by rewrite merge_sort_Permutation.
Qed.

Lemma filter_deref k l :
  valid_ptrs l ->
  filter (fun r => key r = k) (deref <$> l) = deref <$> filter (fun p => kf p = k) l.
Proof.
  induction l as [|p l IH]; intros Hv; [done|]. csimpl. rewrite !filter_cons.
  rewrite <- kf_deref by (apply Hv; left).
  rewrite IH by (intros q Hq; apply Hv; by right). by case_decide.
Qed.

Lemma sorted_deref l :
  valid_ptrs l -> StronglySorted lexle l ->
  StronglySorted (fun a b => key a <= key b) (deref <$> l).
Proof.
  intros Hv Hs. induction Hs as [|p l Hl IH Hp]; [constructor|]. csimpl. constructor.
  - apply IH. intros q Hq. apply Hv. by right.
  - apply Forall_fmap. rewrite Forall_forall in *. intros q Hq. simpl.
    rewrite <- !kf_deref by (apply Hv; first [left | by right]).
    specialize (Hp q Hq). unfold lexle in Hp. lia.
Qed.

End correctness.

(** What [psort] promises about the file it writes. *)
Definition sorted_version (input written : list record_t) : Prop :=
  written ≡ₚ input /\
  StronglySorted (fun a b => key a <= key b) written /\
  forall k, filter (fun r => key r = k) written = filter (fun r => key r = k) input.

(** The conditions under which [main] reaches the sort: the file size is an
    [int], the input holds its whole records, there is a processor. *)
Definition psort_pre (sched : nat -> list Z -> list Z) (get_nprocs filesize : Z)
    (mapped : list record_t) : Prop :=
  0 <= filesize < 2 ^ 31 /\ len mapped = Z.quot filesize RECORD_LEN /\
  1 <= get_nprocs /\ forall r l, sched r l ≡ₚ l.

Lemma psort_pre_small sched nprocs filesize mapped :
  psort_pre sched nprocs filesize mapped -> len mapped <= 21474836.
Proof.
  unfold psort_pre, RECORD_LEN. intros (Hf & -> & _). rewrite Z.quot_div_nonneg by lia.
  enough (filesize / 100 < 21474837) by lia. apply Z.div_lt_upper_bound; lia.
Qed.

Lemma psort_pointers sched nprocs filesize mapped :
  psort_pre sched nprocs filesize mapped ->
  multithread_sort sched nprocs mapped (Z.quot filesize RECORD_LEN) (initRecords filesize)
  = Some (merge_sort (lexle mapped) (initRecords filesize)).
Proof.
  intros Hpre. pose proof (psort_pre_small _ _ _ _ Hpre) as Hsmall.
  destruct Hpre as (Hf & Hlen & Hp & Hs). unfold initRecords. rewrite <- Hlen.
  apply multithread_sort_msort; [done|done|done| |apply seqZ_valid|apply seqZ_asc].
  rewrite length_seqZ. lia.
Qed.

(** C25. Run on any machine and under any order of its threads, [psort] faults
    nowhere, no index or chunk size overflows, and the file it writes is the
    stable sort of the input: a permutation of the records, ascending by key,
    with the records of equal key in their input order. *)
Theorem psort_sorts sched nprocs filesize mapped :
  psort_pre sched nprocs filesize mapped ->
  exists written, psort sched nprocs filesize mapped = Some written /\
    sorted_version mapped written.
Proof.
  intros Hpre. unfold psort. rewrite (psort_pointers _ _ _ _ Hpre). cbv beta match.
  destruct Hpre as (Hf & Hlen & _). unfold initRecords. rewrite <- Hlen.
  set (ps := merge_sort (lexle mapped) (seqZ 0 (len mapped))).
  assert (Hv : valid_ptrs mapped ps) by (apply valid_msort, seqZ_valid).
  exists (deref mapped <$> ps). rewrite output_deref by done. split; [done|].
  split; [|split].
  - rewrite <- (deref_all mapped) at 2. unfold ps. by rewrite merge_sort_Permutation.
  - apply sorted_deref; [done|].
    apply (StronglySorted_merge_sort (lexle mapped)); apply _.
  - intros k. rewrite filter_deref by done. unfold ps.
    rewrite msort_stable by apply seqZ_asc.
    rewrite <- filter_deref by apply seqZ_valid. by rewrite deref_all.
Qed.

Lemma psort_sorts_witness :
  exists written, psort (fun _ l => rev l) 3 10400 (map (fun k => {| key := Z.rem (k * 37) 50; value := [k] |}) (seqZ 0 104))
    = Some written /\
    sorted_version (map (fun k => {| key := Z.rem (k * 37) 50; value := [k] |}) (seqZ 0 104)) written.
Proof.
  apply psort_sorts. split; [lia|]. split; [vm_compute; reflexivity|]. split; [lia|].
  intros r l. symmetry. apply Permutation_rev.
Defined.

(** The result does not depend on the machine or on the scheduling: two
    runs with different numbers of processors and different thread orders leave
    the same pointer array. *)
Theorem multithread_sort_deterministic sched1 sched2 nprocs1 nprocs2 filesize mapped :
  psort_pre sched1 nprocs1 filesize mapped -> psort_pre sched2 nprocs2 filesize mapped ->
  multithread_sort sched1 nprocs1 mapped (Z.quot filesize RECORD_LEN) (initRecords filesize)
  = multithread_sort sched2 nprocs2 mapped (Z.quot filesize RECORD_LEN) (initRecords filesize).
Proof. intros H1 H2. by rewrite (psort_pointers _ _ _ _ H1), (psort_pointers _ _ _ _ H2). Qed.

Lemma multithread_sort_deterministic_witness :
  let mapped := map (fun k => {| key := Z.rem (k * 37) 50; value := [] |}) (seqZ 0 104) in
  multithread_sort (fun _ l => l) 8 mapped 104 (initRecords 10400)
  = multithread_sort (fun _ l => rev l) 5 mapped 104 (initRecords 10400).
Proof.
  apply (multithread_sort_deterministic (fun _ l => l) (fun _ l => rev l) 8 5 10400);
    (split; [lia|]; split; [vm_compute; reflexivity|]; split; [lia|]).
  - done.
  - intros r l. symmetry. apply Permutation_rev.
Defined.

End Psort.
