(* ===== verification/DfsImage.v ===== *)
(** * The mapped file-system image of [p4/Distributed-File-System]

    The server maps the image into memory and works on it through C pointers,
    so the model is a flat byte memory: an address is a byte offset from the
    start of the mapping, and the structures of [ufs.h] are read and written
    where the compiler lays them out.  An access outside the mapping, or a
    shift the C standard leaves undefined, is [None]. *)

From S2P Require Import Prelude.
Local Open Scope Z_scope.
Local Open Scope xv6_scope.

Create HintDb image.
Create Rewrite HintDb image.

(** ** Bytes and 32-bit words *)

(** The contents of the mapping. *)
Definition bytes := Z -> Z.

Definition word32 (m : bytes) (a : Z) : Z :=
  s32 (m a + 2 ^ 8 * m (a + 1) + 2 ^ 16 * m (a + 2) + 2 ^ 24 * m (a + 3)).

Definition put8 (m : bytes) (a v : Z) : bytes :=
  fun x => if x =? a then u8 v else m x.

(** Little-endian store of an [int]. *)
Definition put32 (m : bytes) (a v : Z) : bytes :=
  fun x =>
    if (a <=? x) && (x <? a + 4) then u8 (u32 v / 2 ^ (8 * (x - a))) else m x.

(** Two contents of the mapping that no read can tell apart. *)
Definition bytes_eq (m m' : bytes) : Prop := forall x, m x = m' x.

#[export] Instance bytes_eq_equiv : Equivalence bytes_eq.
Proof.
  split; [by intros m x | by intros m m' H x | intros m1 m2 m3 H1 H2 x; by rewrite H1].
Qed.

#[export] Instance word32_proper : Proper (bytes_eq ==> eq ==> eq) word32.
Proof. intros m m' Hm a _ <-. unfold word32. by rewrite !Hm. Qed.

#[export] Instance put32_proper : Proper (bytes_eq ==> eq ==> eq ==> bytes_eq) put32.
Proof. intros m m' Hm a _ <- v _ <- x. unfold put32. by rewrite Hm. Qed.

Section image.
(** The size of the mapping in bytes. *)
Context (size : Z).

Definition ld8 (m : bytes) (a : Z) : option Z :=
  if decide (0 <= a /\ a + 1 <= size) then Some (m a) else None.

Definition ld32 (m : bytes) (a : Z) : option Z :=
  if decide (0 <= a /\ a + 4 <= size) then Some (word32 m a) else None.

Definition st8 (m : bytes) (a v : Z) : option bytes :=
  if decide (0 <= a /\ a + 1 <= size) then Some (put8 m a v) else None.

Definition st32 (m : bytes) (a v : Z) : option bytes :=
  if decide (0 <= a /\ a + 4 <= size) then Some (put32 m a v) else None.

(** [strcmp(name, (char * )a)] for a string [name] held outside the image. *)
Fixpoint strcmp (m : bytes) (name : list Z) (a : Z) : option Z :=
  match name with
  | [] => let? b := ld8 m a in Some (0 - b)
  | c :: cs =>
      let? b := ld8 m a in
      if c =? b then strcmp m cs (a + 1) else Some (c - b)
  end.

(** [strcpy((char * )a, name)]. *)
Fixpoint strcpy (m : bytes) (a : Z) (name : list Z) : option bytes :=
  match name with
  | [] => st8 m a 0
  | c :: cs => let? m := st8 m a c in strcpy m (a + 1) cs
  end.

(** [memcpy((char * )a, buffer, n)] out of a buffer held outside the image. *)
Fixpoint memcpy_to (m : bytes) (a : Z) (buffer : list Z) (n : nat) {struct n} : option bytes :=
  match n with
  | O => Some m
  | S n =>
      match buffer with
      | [] => None
      | c :: cs => let? m := st8 m a c in memcpy_to m (a + 1) cs n
      end
  end.

(** [memcpy(buffer, (char * )a, n)]: the bytes read. *)
Fixpoint memcpy_from (m : bytes) (a : Z) (n : nat) : option (list Z) :=
  match n with
  | O => Some []
  | S n =>
      let? b := ld8 m a in
      let? bs := memcpy_from m (a + 1) n in
      Some (b :: bs)
  end.

(** ** Bitmaps *)

(** The bit the code reads at index [i] of the bitmap at [bitmap]. *)
Definition read_bit (m : bytes) (bitmap i : Z) : option Z :=
  let shift := 31 - Z.rem i 32 in
  let? bitint := ld32 m (bitmap + 4 * Z.quot i 32) in
  if decide (0 <= shift < 32) then Some (Z.land (Z.shiftr bitint shift) 1) else None.

(** [for (int i = 0; i < ...; i++)], with [n] iterations left. *)
Fixpoint find_free_from (m : bytes) (bitmap : Z) (n : nat) (i : Z) : option Z :=
  match n with
  | O => Some (-1)
  | S n =>
      let? bitint := read_bit m bitmap i in
      if bitint =? 0 then Some i else find_free_from m bitmap n (i + 1)
  end.

Definition find_free_block (m : bytes) (bitmap bitmap_len : Z) : option Z :=
  find_free_from m bitmap (Z.to_nat (32 * bitmap_len * (4096 / 4))) 0.

Definition flip_bit (m : bytes) (bitmap i : Z) : option bytes :=
  let shift := 31 - Z.rem i 32 in
  let a := bitmap + 4 * Z.quot i 32 in
  let? bitint := read_bit m bitmap i in
  let? w := ld32 m a in
  if bitint =? 0 then st32 m a (s32 (Z.lor w (Z.shiftl 1 shift)))
  else st32 m a (s32 (Z.land w (Z.lnot (Z.shiftl 1 shift)))).

(** ** Facts about words *)

Lemma put32_out m a v x : x < a \/ a + 4 <= x -> put32 m a v x = m x.
Proof.
  intros H. unfold put32. destruct (Z.leb_spec a x); destruct (Z.ltb_spec x (a + 4)); simpl; [lia|done..].
Qed.

Lemma put32_in m a v k :
  0 <= k < 4 -> put32 m a v (a + k) = u8 (u32 v / 2 ^ (8 * k)).
Proof.
  intros Hk. unfold put32.
  destruct (Z.leb_spec a (a + k)); [|lia]. destruct (Z.ltb_spec (a + k) (a + 4)); [|lia].
  simpl. do 4 f_equal. lia.
Qed.

Lemma word32_ext m m' a :
  (forall k, 0 <= k < 4 -> m (a + k) = m' (a + k)) -> word32 m a = word32 m' a.
Proof.
  intros H. unfold word32. rewrite <- (Z.add_0_r a) at 1 5.
  by rewrite !H by lia.
Qed.

Lemma word32_put32_eq m a v : word32 (put32 m a v) a = s32 v.
Proof.
  unfold word32. rewrite <- (Z.add_0_r a) at 2. rewrite !put32_in by lia.
  rewrite <- (s32_u32 v). pose proof (u32_range v) as Hr. unfold is_u32 in Hr.
  set (w := u32 v) in *. clearbody w. unfold u8. f_equal.
  change (2 ^ (8 * 0)) with 1. change (2 ^ (8 * 1)) with (2 ^ 8).
  change (2 ^ (8 * 2)) with (2 ^ 16). change (2 ^ (8 * 3)) with (2 ^ 24).
  Z.to_euclidean_division_equations. lia.
Qed.

Lemma word32_put32_ne m a b v : b + 4 <= a \/ a + 4 <= b -> word32 (put32 m a v) b = word32 m b.
Proof. intros H. apply word32_ext. intros k Hk. apply put32_out. lia. Qed.

Lemma put8_out m a v x : x <> a -> put8 m a v x = m x.
Proof. intros. unfold put8. destruct (Z.eqb_spec x a); done. Qed.

Lemma word32_range m a : is_s32 (word32 m a).
Proof. apply s32_range. Qed.

Lemma testbit_s32 z k : 0 <= k < 32 -> Z.testbit (s32 z) k = Z.testbit z k.
Proof.
  intros Hk. rewrite <- (Z.mod_pow2_bits_low (s32 z) 32) by lia.
  change (s32 z mod 2 ^ 32) with (u32 (s32 z)). rewrite u32_s32. unfold u32.
  apply Z.mod_pow2_bits_low. lia.
Qed.

(** ** Facts about bitmaps *)

Definition bit (m : bytes) (bitmap i : Z) : bool :=
  Z.testbit (word32 m (bitmap + 4 * (i / 32))) (31 - i mod 32).

(** The bitmap's word for index [i] lies inside the mapping. *)
Definition bit_ok (bitmap i : Z) : Prop := 0 <= bitmap /\ 0 <= i /\ bitmap + 4 * (i / 32) + 4 <= size.

Lemma ld32_Some m a : 0 <= a -> a + 4 <= size -> ld32 m a = Some (word32 m a).
Proof. intros. unfold ld32. by rewrite decide_True. Qed.

Lemma st32_Some m a v : 0 <= a -> a + 4 <= size -> st32 m a v = Some (put32 m a v).
Proof. intros. unfold st32. by rewrite decide_True. Qed.

Lemma shift_bounds i : 0 <= i -> 0 <= 31 - i mod 32 < 32.
Proof. intros. pose proof (Z.mod_pos_bound i 32). lia. Qed.

Lemma read_bit_spec m bitmap i :
  bit_ok bitmap i -> read_bit m bitmap i = Some (Z.b2z (bit m bitmap i)).
Proof.
  intros (Hb & Hi & Hs). unfold read_bit. pose proof (shift_bounds i Hi).
  assert (0 <= i / 32) by (apply Z.div_pos; lia).
  rewrite Z.quot_div_nonneg, Z.rem_mod_nonneg by lia.
  rewrite ld32_Some by lia. simpl. rewrite decide_True by done. f_equal. unfold bit.
  rewrite Z.testbit_spec' by lia. rewrite Z.shiftr_div_pow2 by lia.
  change 1 with (Z.ones 1). rewrite Z.land_ones by lia. done.
Qed.

Lemma flip_bit_Some m bitmap i :
  bit_ok bitmap i ->
  exists v, flip_bit m bitmap i = Some (put32 m (bitmap + 4 * (i / 32)) v) /\
    forall k, 0 <= k < 32 ->
      Z.testbit (s32 v) k =
        if k =? 31 - i mod 32 then negb (bit m bitmap i)
        else Z.testbit (word32 m (bitmap + 4 * (i / 32))) k.
Proof.
  intros Hok. pose proof Hok as (Hb & Hi & Hs). pose proof (shift_bounds i Hi) as Hsh.
  assert (0 <= i / 32) by (apply Z.div_pos; lia).
  unfold flip_bit. rewrite read_bit_spec by done. simpl.
  rewrite Z.quot_div_nonneg, Z.rem_mod_nonneg by lia. rewrite ld32_Some by lia. simpl.
  set (k0 := 31 - i mod 32) in *.
  destruct (bit m bitmap i) eqn:Hbit; simpl; rewrite st32_Some by lia;
    eexists; (split; [done|]); intros k Hk; rewrite !testbit_s32 by done.
  - rewrite Z.land_spec, Z.lnot_spec, Z.shiftl_1_l by lia.
    rewrite Z.pow2_bits_eqb by lia. rewrite (Z.eqb_sym k k0).
    destruct (Z.eqb_spec k0 k); simpl; by rewrite ?andb_false_r, ?andb_true_r.
  - rewrite Z.lor_spec, Z.shiftl_1_l by lia.
    rewrite Z.pow2_bits_eqb by lia. rewrite (Z.eqb_sym k k0).
    destruct (Z.eqb_spec k0 k); simpl; by rewrite ?orb_false_r, ?orb_true_r.
Qed.

(** [flip_bit] inverts exactly the bit it is given. *)
Lemma flip_bit_spec m bitmap i :
  bit_ok bitmap i ->
  exists m', flip_bit m bitmap i = Some m' /\
    (forall j, 0 <= j -> bit m' bitmap j = if j =? i then negb (bit m bitmap i) else bit m bitmap j) /\
    (forall x, x < bitmap + 4 * (i / 32) \/ bitmap + 4 * (i / 32) + 4 <= x -> m' x = m x).
Proof.
  intros Hok. destruct (flip_bit_Some m bitmap i Hok) as (v & -> & Hv).
  eexists. split; [done|]. split; [|intros x Hx; by apply put32_out].
  intros j Hj. unfold bit at 1. destruct Hok as (_ & Hi & _).
  pose proof (Z.div_mod i 32 ltac:(lia)). pose proof (Z.div_mod j 32 ltac:(lia)).
  destruct (decide (j / 32 = i / 32)) as [Hw|Hw].
  - rewrite Hw, word32_put32_eq, <- testbit_s32, s32_small by (apply s32_range || by apply shift_bounds).
    rewrite Hv by (by apply shift_bounds).
    destruct (Z.eqb_spec (31 - j mod 32) (31 - i mod 32)); destruct (Z.eqb_spec j i); try lia; [done|].
    unfold bit. by rewrite Hw.
  - rewrite word32_put32_ne by lia. destruct (Z.eqb_spec j i) as [->|]; done.
Qed.

Lemma find_free_from_spec m bitmap n i :
  (forall j, i <= j < i + Z.of_nat n -> bit_ok bitmap j) ->
  exists r, find_free_from m bitmap n i = Some r /\
    ((r = -1 /\ forall j, i <= j < i + Z.of_nat n -> bit m bitmap j = true) \/
     (i <= r < i + Z.of_nat n /\ bit m bitmap r = false /\
      forall j, i <= j < r -> bit m bitmap j = true)).
Proof.
  revert i. induction n as [|n IH]; intros i Hok; simpl.
  { exists (-1). split; [done|]. left. split; [done|lia]. }
  rewrite read_bit_spec by (apply Hok; lia).
  destruct (bit m bitmap i) eqn:Hb; simpl.
  - destruct (IH (i + 1)) as (r & -> & Hr); [intros j Hj; apply Hok; lia|].
    exists r. split; [done|].
    assert (Hi : forall j, i <= j -> (i + 1 <= j -> bit m bitmap j = true) -> bit m bitmap j = true).
    { intros j Hj Hj'. destruct (decide (j = i)) as [->|]; [done|]. apply Hj'. lia. }
    destruct Hr as [[-> Hall]|(Hr1 & Hr2 & Hall)].
    + left. split; [done|]. intros j Hj. apply Hi; [lia|]. intros. apply Hall. lia.
    + right. split; [lia|]. split; [done|]. intros j Hj. apply Hi; [lia|]. intros. apply Hall. lia.
  - exists i. split; [done|]. right. split; [lia|]. split; [done|lia].
Qed.

Definition bitmap_ok (bitmap bitmap_len : Z) : Prop :=
  0 <= bitmap /\ 0 <= bitmap_len /\ bitmap + 4096 * bitmap_len <= size.

Lemma bitmap_ok_bit bitmap bitmap_len i :
  bitmap_ok bitmap bitmap_len -> 0 <= i < 32768 * bitmap_len -> bit_ok bitmap i.
Proof.
  intros (Hb & Hl & Hs) Hi. split; [done|]. split; [lia|].
  assert (i / 32 < 1024 * bitmap_len) by (apply Z.div_lt_upper_bound; lia). lia.
Qed.

(** [find_free_block] returns the first clear bit, or -1 when there is none. *)
Lemma find_free_block_first m bitmap bitmap_len :
  bitmap_ok bitmap bitmap_len ->
  exists r, find_free_block m bitmap bitmap_len = Some r /\
    ((r = -1 /\ forall i, 0 <= i < 32768 * bitmap_len -> bit m bitmap i = true) \/
     (0 <= r < 32768 * bitmap_len /\ bit m bitmap r = false /\
      forall i, 0 <= i < r -> bit m bitmap i = true)).
Proof.
  intros Hok. unfold find_free_block. change (4096 / 4) with 1024.
  replace (32 * bitmap_len * 1024) with (32768 * bitmap_len) by lia.
  assert (Hn : Z.of_nat (Z.to_nat (32768 * bitmap_len)) = 32768 * bitmap_len)
    by (destruct Hok as (_ & ? & _); lia).
  destruct (find_free_from_spec m bitmap (Z.to_nat (32768 * bitmap_len)) 0) as (r & Hr & Hcase).
  { intros i Hi. eapply bitmap_ok_bit; [done|lia]. }
  rewrite Hn in Hcase. exists r. split; [done|].
  destruct Hcase as [[-> Hall]|(? & ? & ?)]; [left|right]; auto.
Qed.

Lemma st8_Some m a v : 0 <= a -> a + 1 <= size -> st8 m a v = Some (put8 m a v).
Proof. intros. unfold st8. by rewrite decide_True. Qed.

Lemma put8_in m a v : put8 m a v a = u8 v.
Proof. unfold put8. by rewrite Z.eqb_refl. Qed.

Lemma memcpy_to_spec m a buf n :
  0 <= a -> a + Z.of_nat n <= size -> (n <= length buf)%nat ->
  exists m', memcpy_to m a buf n = Some m' /\
    (forall x, x < a \/ a + Z.of_nat n <= x -> m' x = m x) /\
    (forall i c, (i < n)%nat -> buf !! i = Some c -> m' (a + Z.of_nat i) = u8 c).
Proof.
  revert m a buf. induction n as [|n IH]; intros m a buf Ha Hs Hn.
  { exists m. split; [done|]. split; [done|]. intros i c Hi. lia. }
  destruct buf as [|c cs]; simpl in *; [lia|]. rewrite st8_Some by lia.
  destruct (IH (put8 m a c) (a + 1) cs) as (m' & -> & Hout & Hin); [lia..|].
  exists m'. split; [done|]. split.
  - intros x Hx. rewrite Hout by lia. apply put8_out. lia.
  - intros [|i] c' Hi Hc; simpl in Hc.
    + injection Hc as ->. rewrite Hout by lia. rewrite Z.add_0_r. by rewrite put8_in.
    + rewrite <- (Hin i c') by (done || lia). f_equal. lia.
Qed.

End image.

#[export] Hint Resolve ld32_Some st32_Some word32_range shift_bounds bitmap_ok_bit : image.
#[export] Hint Rewrite word32_put32_eq : image.
