(* ===== verification/Dfs.v ===== *)
(** * The distributed file system of [p4/Distributed-File-System]

    [fs.c] (the operations on the mapped image), [server.c] (the request
    loop), [libmfs.c] (the client stubs) and [mkfs.c] (the image builder).
    An operation returns [None] when it touches memory outside the mapping or
    shifts by an amount C leaves undefined; otherwise its return code and the
    new image.  Names are C strings: the bytes before the NUL. *)

From S2P Require Import Prelude DfsImage.
Local Open Scope Z_scope.
Local Open Scope xv6_scope.

Module Dfs.

Definition UFS_DIRECTORY : Z := 0.
Definition UFS_REGULAR_FILE : Z := 1.
Definition UFS_BLOCK_SIZE : Z := 4096.
Definition DIRECT_PTRS : Z := 30.
Definition SIZEOF_INODE : Z := 128.
Definition SIZEOF_DIRENT : Z := 32.

(** Offsets of the fields of [super_t], [inode_t] and [dir_ent_t]. *)
Definition off_type (inode : Z) : Z := inode.
Definition off_size (inode : Z) : Z := inode + 4.
Definition off_direct (inode k : Z) : Z := inode + 8 + 4 * k.
Definition off_name (ptr j : Z) : Z := ptr + SIZEOF_DIRENT * j.
Definition off_inum (ptr j : Z) : Z := ptr + SIZEOF_DIRENT * j + 28.

Record disk_t := {
  super_ptr : Z;
  inode_bitmap_ptr : Z; inode_bitmap_len : Z;
  data_bitmap_ptr : Z; data_bitmap_len : Z;
  inode_region_ptr : Z; inode_region_len : Z;
  data_region_ptr : Z; data_region_len : Z;
  disk_len : Z
}.

Record MFS_Stat_t := { st_type : Z; st_size : Z }.

Definition DOT : list Z := [46].
Definition DOTDOT : list Z := [46; 46].

(** ** fs.c *)

Section fs.
Context (size : Z).
#[local] Abbreviation ld32 := (ld32 size).
#[local] Abbreviation st32 := (st32 size).
#[local] Abbreviation strcmp := (strcmp size).
#[local] Abbreviation strcpy := (strcpy size).
#[local] Abbreviation flip_bit := (flip_bit size).
#[local] Abbreviation find_free_block := (find_free_block size).
#[local] Abbreviation memcpy_to := (memcpy_to size).
#[local] Abbreviation memcpy_from := (memcpy_from size).

Definition init_disk (m : bytes) : option disk_t :=
  let block_mapped := 0 in
  let? inode_bitmap_addr := ld32 m 0 in
  let? inode_bitmap_len := ld32 m 4 in
  let? data_bitmap_addr := ld32 m 8 in
  let? data_bitmap_len := ld32 m 12 in
  let? inode_region_addr := ld32 m 16 in
  let? inode_region_len := ld32 m 20 in
  let? data_region_addr := ld32 m 24 in
  let? data_region_len := ld32 m 28 in
  Some {|
    super_ptr := block_mapped;
    inode_bitmap_ptr := block_mapped + UFS_BLOCK_SIZE * inode_bitmap_addr;
    inode_bitmap_len := inode_bitmap_len;
    data_bitmap_ptr := block_mapped + UFS_BLOCK_SIZE * data_bitmap_addr;
    data_bitmap_len := data_bitmap_len;
    inode_region_ptr := block_mapped + UFS_BLOCK_SIZE * inode_region_addr;
    inode_region_len := inode_region_len;
    data_region_ptr := block_mapped + UFS_BLOCK_SIZE * data_region_addr;
    data_region_len := data_region_len;
    disk_len := Z.quot size UFS_BLOCK_SIZE
  |}.

(** [Some None] is the return code -1, [Some (Some inode)] the return code 0
    with [*inode] set. *)
Definition get_inode_ptr (d : disk_t) (m : bytes) (inum : Z) : option (option Z) :=
  let? bitint := read_bit size m (inode_bitmap_ptr d) inum in
  if bitint =? 0 then Some None
  else Some (Some (inode_region_ptr d + SIZEOF_INODE * inum)).

(** The block a direct pointer names: [(block_t * )disk->super_ptr + addr]. *)
Definition block_ptr (d : disk_t) (addr : Z) : Z := super_ptr d + UFS_BLOCK_SIZE * addr.

(** [for (j = 0; j < UFS_BLOCK_SIZE / sizeof(dir_ent_t); j++)] looking for
    [name]; the result is the slot and its inode number. *)
Fixpoint find_entry (m : bytes) (ptr : Z) (name : list Z) (js : list Z) :
    option (option (Z * Z)) :=
  match js with
  | [] => Some None
  | j :: js =>
      let? inum := ld32 m (off_inum ptr j) in
      if inum =? -1 then find_entry m ptr name js
      else
        let? c := strcmp m name (off_name ptr j) in
        if c =? 0 then Some (Some (j, inum)) else find_entry m ptr name js
  end.

Definition entries : list Z := seqZ 0 (Z.quot UFS_BLOCK_SIZE SIZEOF_DIRENT).

(** The search loop that [fs_lookup], [fs_creat] and [fs_unlink] share: the
    block holding the entry, the slot and the inode number. *)
Fixpoint find_in_dir (d : disk_t) (m : bytes) (inode : Z) (name : list Z) (ixs : list Z) :
    option (option (Z * Z * Z)) :=
  match ixs with
  | [] => Some None
  | i :: ixs =>
      let? direct := ld32 m (off_direct inode i) in
      if direct =? -1 then Some None
      else
        let ptr := block_ptr d direct in
        let? r := find_entry m ptr name entries in
        match r with
        | Some (j, inum) => Some (Some (ptr, j, inum))
        | None => find_in_dir d m inode name ixs
        end
  end.

Definition directs : list Z := seqZ 0 DIRECT_PTRS.

Definition fs_lookup (d : disk_t) (m : bytes) (pinum : Z) (name : list Z) : option Z :=
  let? rc := get_inode_ptr d m pinum in
  match rc with
  | None => Some (-1)
  | Some inode =>
      let? r := find_in_dir d m inode name directs in
      match r with
      | Some (_, _, inum) => Some inum
      | None => Some (-1)
      end
  end.

Definition fs_stat (d : disk_t) (m : bytes) (inum : Z) (st : MFS_Stat_t) :
    option (Z * MFS_Stat_t) :=
  let? rc := get_inode_ptr d m inum in
  match rc with
  | None => Some (-1, st)
  | Some inode =>
      let? sz := ld32 m (off_size inode) in
      let? ty := ld32 m (off_type inode) in
      Some (0, {| st_type := ty; st_size := sz |})
  end.

(** The allocation [fs_write] repeats for both blocks. *)
Definition write_block_addr (d : disk_t) (m : bytes) (inode block_num : Z) :
    option (Z * bytes) :=
  let? block_addr := ld32 m (off_direct inode block_num) in
  if block_addr =? -1 then
    let? dnum := find_free_block m (data_bitmap_ptr d) (data_bitmap_len d) in
    let? m := flip_bit m (data_bitmap_ptr d) dnum in
    let? m := st32 m (off_direct inode block_num) dnum in
    let? sz := ld32 m (off_size inode) in
    let? m := st32 m (off_size inode) (s32 (sz + SIZEOF_DIRENT)) in
    Some (dnum, m)
  else Some (block_addr, m).

Definition fs_write (d : disk_t) (m : bytes) (inum : Z) (buffer : list Z)
    (offset nbytes : Z) : option (Z * bytes) :=
  let? rc := get_inode_ptr d m inum in
  match rc with
  | None => Some (-1, m)
  | Some inode =>
      if (UFS_BLOCK_SIZE <? nbytes) || (nbytes <? 0) then Some (-1, m) else
      let? ty := ld32 m (off_type inode) in
      if ty =? UFS_DIRECTORY then Some (-1, m) else
      let? sz := ld32 m (off_size inode) in
      if (s32 (sz * UFS_BLOCK_SIZE) <? offset) || (offset <? 0) then Some (-1, m) else
      let block_num := Z.quot offset UFS_BLOCK_SIZE in
      let? (block_addr, m) := write_block_addr d m inode block_num in
      let p := block_ptr d block_addr in
      if Z.quot (s32 (offset + nbytes)) UFS_BLOCK_SIZE =? block_num then
        let? m := memcpy_to m (p + Z.rem offset UFS_BLOCK_SIZE) buffer (Z.to_nat nbytes) in
        Some (0, m)
      else
        let first := UFS_BLOCK_SIZE - Z.rem offset UFS_BLOCK_SIZE in
        let? m := memcpy_to m (p + Z.rem offset UFS_BLOCK_SIZE) buffer (Z.to_nat first) in
        if DIRECT_PTRS <=? block_num + 1 then Some (-1, m) else
        let? (block_addr, m) := write_block_addr d m inode (block_num + 1) in
        let p := block_ptr d block_addr in
        let? m := memcpy_to m p buffer (Z.to_nat (nbytes - first)) in
        Some (0, m)
  end.

(** [memcpy(buffer, p, n)]: the caller's buffer afterwards. *)
Definition read_into (m : bytes) (buffer : list Z) (p n : Z) : option (list Z) :=
  let? bs := memcpy_from m p (Z.to_nat n) in
  Some (bs ++ drop (length bs) buffer).

Definition fs_read (d : disk_t) (m : bytes) (inum : Z) (buffer : list Z)
    (offset nbytes : Z) : option (Z * list Z) :=
  let? rc := get_inode_ptr d m inum in
  match rc with
  | None => Some (-1, buffer)
  | Some inode =>
      if (UFS_BLOCK_SIZE <? nbytes) || (nbytes <? 0) then Some (-1, buffer) else
      let? sz := ld32 m (off_size inode) in
      if (s32 (sz * UFS_BLOCK_SIZE) <? offset) || (offset <? 0) then Some (-1, buffer) else
      if negb (Z.rem offset SIZEOF_DIRENT =? 0) || negb (Z.rem nbytes SIZEOF_DIRENT =? 0)
      then Some (-1, buffer) else
      let block_num := Z.quot offset UFS_BLOCK_SIZE in
      let? block_addr := ld32 m (off_direct inode block_num) in
      let p := block_ptr d block_addr in
      if Z.quot (s32 (offset + nbytes)) UFS_BLOCK_SIZE =? block_num then
        let? buffer := read_into m buffer (p + Z.rem offset UFS_BLOCK_SIZE) nbytes in
        Some (0, buffer)
      else
        let first := UFS_BLOCK_SIZE - Z.rem offset UFS_BLOCK_SIZE in
        let? buffer := read_into m buffer (p + Z.rem offset UFS_BLOCK_SIZE) first in
        if DIRECT_PTRS <=? block_num + 1 then Some (-1, buffer) else
        let? block_addr := ld32 m (off_direct inode (block_num + 1)) in
        if block_addr =? -1 then Some (-1, buffer) else
        let p := block_ptr d block_addr in
        let? buffer := read_into m buffer p (nbytes - first) in
        Some (0, buffer)
  end.

(** [for (k = 0; k < DIRECT_PTRS; k++) new_inode->direct[k] = -1]. *)
Fixpoint clear_directs (m : bytes) (inode : Z) (ks : list Z) : option bytes :=
  match ks with
  | [] => Some m
  | k :: ks =>
      let? m := st32 m (off_direct inode k) (-1) in
      clear_directs m inode ks
  end.

(** [for (t = 2; ...; t++) (entry_ptr + t)->inum = -1]. *)
Fixpoint clear_entries (m : bytes) (ptr : Z) (ts : list Z) : option bytes :=
  match ts with
  | [] => Some m
  | t :: ts =>
      let? m := st32 m (off_inum ptr t) (-1) in
      clear_entries m ptr ts
  end.

(** The [new_inode->type == UFS_DIRECTORY] branch: the new directory's block
    with its ["."] and [".."] entries.  [false] is the early [return -1]. *)
Definition creat_dir_block (d : disk_t) (m : bytes) (new_inode new_inum pinum : Z) :
    option (bool * bytes) :=
  let? new_dnum := find_free_block m (data_bitmap_ptr d) (data_bitmap_len d) in
  if new_dnum =? -1 then Some (false, m) else
  let? m := flip_bit m (data_bitmap_ptr d) new_dnum in
  let? m := st32 m (off_size new_inode) (2 * SIZEOF_DIRENT) in
  let? data_region_addr := ld32 m (super_ptr d + 24) in
  let? m := st32 m (off_direct new_inode 0) (s32 (new_dnum + data_region_addr)) in
  let? direct0 := ld32 m (off_direct new_inode 0) in
  let entry_ptr := block_ptr d direct0 in
  let? m := strcpy m (off_name entry_ptr 0) DOT in
  let? m := st32 m (off_inum entry_ptr 0) new_inum in
  let? m := strcpy m (off_name entry_ptr 1) DOTDOT in
  let? m := st32 m (off_inum entry_ptr 1) pinum in
  let? m := clear_entries m entry_ptr (seqZ 2 (Z.quot UFS_BLOCK_SIZE SIZEOF_DIRENT - 2)) in
  Some (true, m).

(** The body that runs once a free entry [j] of the block at [ptr] is found. *)
Definition creat_at (d : disk_t) (m : bytes) (inode pinum type : Z) (name : list Z)
    (ptr j : Z) : option (Z * bytes) :=
  let? new_inum := find_free_block m (inode_bitmap_ptr d) (inode_bitmap_len d) in
  if new_inum =? -1 then Some (-1, m) else
  let? m := flip_bit m (inode_bitmap_ptr d) new_inum in
  let? m := st32 m (off_inum ptr j) new_inum in
  let? m := strcpy m (off_name ptr j) name in
  let? entry_inum := ld32 m (off_inum ptr j) in
  let? rc := get_inode_ptr d m entry_inum in
  match rc with
  | None => Some (-1, m)
  | Some new_inode =>
      let? m := st32 m (off_type new_inode) type in
      let? m := st32 m (off_size new_inode) 0 in
      let? m := clear_directs m new_inode directs in
      let? ty := ld32 m (off_type new_inode) in
      let? okm :=
        (if ty =? UFS_DIRECTORY then creat_dir_block d m new_inode new_inum pinum
         else Some (true, m) : option (bool * bytes)) in
      let '(ok, m) := okm in
      if negb ok then Some (-1, m) else
      let? psz := ld32 m (off_size inode) in
      let? m := st32 m (off_size inode) (s32 (psz + SIZEOF_DIRENT)) in
      Some (0, m)
  end.

(** [ptr[j].inum == -1 && strcmp(ptr[j].name, "..") != 0]. *)
Fixpoint find_free_entry (m : bytes) (ptr : Z) (js : list Z) : option (option Z) :=
  match js with
  | [] => Some None
  | j :: js =>
      let? inum := ld32 m (off_inum ptr j) in
      if inum =? -1 then
        let? c := strcmp m DOTDOT (off_name ptr j) in
        if negb (c =? 0) then Some (Some j) else find_free_entry m ptr js
      else find_free_entry m ptr js
  end.

(** [if (inode->direct[i] == -1)]: take the first free data-bitmap index. *)
Definition assign_dir_block (d : disk_t) (m : bytes) (inode i : Z) : option bytes :=
  let? direct := ld32 m (off_direct inode i) in
  if direct =? -1 then
    let? dnum := find_free_block m (data_bitmap_ptr d) (data_bitmap_len d) in
    let? m := flip_bit m (data_bitmap_ptr d) dnum in
    st32 m (off_direct inode i) dnum
  else Some m.

Fixpoint creat_in (d : disk_t) (m : bytes) (inode pinum type : Z) (name : list Z)
    (ixs : list Z) : option (Z * bytes) :=
  match ixs with
  | [] => Some (-1, m)
  | i :: ixs =>
      let? m := assign_dir_block d m inode i in
      let? direct := ld32 m (off_direct inode i) in
      let ptr := block_ptr d direct in
      let? r := find_free_entry m ptr entries in
      match r with
      | Some j => creat_at d m inode pinum type name ptr j
      | None => creat_in d m inode pinum type name ixs
      end
  end.

Definition fs_creat (d : disk_t) (m : bytes) (pinum type : Z) (name : list Z) :
    option (Z * bytes) :=
  let? rc := get_inode_ptr d m pinum in
  match rc with
  | None => Some (-1, m)
  | Some inode =>
      if 28 <? Z.of_nat (length name) then Some (-1, m) else
      let? r := find_in_dir d m inode name directs in
      match r with
      | Some _ => Some (0, m)
      | None => creat_in d m inode pinum type name directs
      end
  end.

(** [for (t = 0; ...; t++) if (pptr[t].inum != -1) return -1]. *)
Fixpoint block_empty (m : bytes) (pptr : Z) (ts : list Z) : option bool :=
  match ts with
  | [] => Some true
  | t :: ts =>
      let? inum := ld32 m (off_inum pptr t) in
      if negb (inum =? -1) then Some false else block_empty m pptr ts
  end.

Fixpoint dir_empty (d : disk_t) (m : bytes) (cinode : Z) (ks : list Z) : option bool :=
  match ks with
  | [] => Some true
  | k :: ks =>
      let? direct := ld32 m (off_direct cinode k) in
      if negb (direct =? -1) then
        let? e := block_empty m (block_ptr d direct) entries in
        if e then dir_empty d m cinode ks else Some false
      else dir_empty d m cinode ks
  end.

Fixpoint free_directs (d : disk_t) (m : bytes) (cinode : Z) (ks : list Z) : option bytes :=
  match ks with
  | [] => Some m
  | k :: ks =>
      let? direct := ld32 m (off_direct cinode k) in
      if negb (direct =? -1) then
        let? data_region_addr := ld32 m (super_ptr d + 24) in
        let dnum := s32 (direct - data_region_addr) in
        let? m := flip_bit m (data_bitmap_ptr d) dnum in
        free_directs d m cinode ks
      else free_directs d m cinode ks
  end.

Definition fs_unlink (d : disk_t) (m : bytes) (pinum : Z) (name : list Z) :
    option (Z * bytes) :=
  let? rc := get_inode_ptr d m pinum in
  match rc with
  | None => Some (-1, m)
  | Some inode =>
      let? r := find_in_dir d m inode name directs in
      match r with
      | None => Some (-1, m)
      | Some (ptr, j, cinum) =>
          let? rc := get_inode_ptr d m cinum in
          match rc with
          | None => Some (-1, m)
          | Some cinode =>
              let? ty := ld32 m (off_type cinode) in
              let? empty :=
                (if ty =? UFS_DIRECTORY then dir_empty d m cinode directs else Some true) in
              if negb empty then Some (-1, m) else
              let? m := free_directs d m cinode directs in
              let? m := flip_bit m (inode_bitmap_ptr d) cinum in
              let? m := st32 m (off_inum ptr j) (-1) in
              let? psz := ld32 m (off_size inode) in
              let? m := st32 m (off_size inode) (s32 (psz - SIZEOF_DIRENT)) in
              Some (0, m)
          end
      end
  end.

End fs.
End Dfs.
