(* ===== verification/DfsSpec.v ===== *)
(** * What the distributed file system's operations promise

    The layout of an image, and the effect of the operations of [fs.c] on a
    directory and on a file, stated on the mapped bytes. *)

From S2P Require Import Prelude DfsImage Dfs.
Import Dfs.
Local Open Scope Z_scope.
Local Open Scope xv6_scope.

Module DfsSpec.

(** The regions of the image follow each other in the order [mkfs] lays them
    out, inside the mapping. *)
Record layout (size : Z) (d : disk_t) : Prop := {
  lay_super : super_ptr d = 0;
  lay_ib : 4096 <= inode_bitmap_ptr d;
  lay_ib_len : 0 <= inode_bitmap_len d;
  lay_db : inode_bitmap_ptr d + 4096 * inode_bitmap_len d <= data_bitmap_ptr d;
  lay_db_len : 0 <= data_bitmap_len d;
  lay_ir : data_bitmap_ptr d + 4096 * data_bitmap_len d <= inode_region_ptr d;
  lay_ir_len : 0 <= inode_region_len d <= 1024 * inode_bitmap_len d;
  lay_dr : inode_region_ptr d + 4096 * inode_region_len d <= data_region_ptr d;
  lay_size : data_region_ptr d <= size < 2 ^ 31
}.

(** An inode number with room for its inode. *)
Definition inum_ok (d : disk_t) (inum : Z) : Prop := 0 <= inum < 32 * inode_region_len d.

Definition inode_at (d : disk_t) (inum : Z) : Z := inode_region_ptr d + SIZEOF_INODE * inum.

(** A direct pointer into the data region. *)
Definition data_block (size : Z) (d : disk_t) (addr : Z) : Prop :=
  data_region_ptr d <= 4096 * addr /\ 4096 * addr + 4096 <= size.

(** A name that fits an entry with its NUL. *)
Definition good_name (name : list Z) : Prop :=
  (length name <= 27)%nat /\ Forall (fun c => 0 < c < 256) name.

(** The inode [inum] is in use and is a directory of [n] blocks. *)
Record dir_ok (size : Z) (d : disk_t) (m : bytes) (inum : Z) (n : nat) : Prop := {
  dir_inum : inum_ok d inum;
  dir_bit : bit m (inode_bitmap_ptr d) inum = true;
  dir_n : (n <= 30)%nat;
  dir_data : forall k, 0 <= k < Z.of_nat n ->
    data_block size d (word32 m (off_direct (inode_at d inum) k));
  dir_distinct : forall k k', 0 <= k < Z.of_nat n -> 0 <= k' < Z.of_nat n ->
    word32 m (off_direct (inode_at d inum) k) = word32 m (off_direct (inode_at d inum) k') -> k = k';
  dir_end : (n < 30)%nat -> word32 m (off_direct (inode_at d inum) (Z.of_nat n)) = -1
}.

(** ** Strings in the image *)

Section strings.
Context (size : Z).

Lemma ld8_Some m a : 0 <= a -> a + 1 <= size -> ld8 size m a = Some (m a).
Proof. intros. unfold ld8. by rewrite decide_True. Qed.

Lemma strcmp_total m name a :
  0 <= a -> a + Z.of_nat (length name) + 1 <= size -> is_Some (strcmp size m name a).
Proof.
  revert a. induction name as [|c cs IH]; intros a Ha Hs; simpl in *.
  - rewrite ld8_Some by lia. eauto.
  - rewrite ld8_Some by lia. case_match; [apply IH; lia|eauto].
Qed.

(** [strcmp] reads at most the bytes of the name and of its NUL. *)
Lemma strcmp_agree m m' name a :
  (forall x, a <= x <= a + Z.of_nat (length name) -> m' x = m x) ->
  strcmp size m' name a = strcmp size m name a.
Proof.
  revert a. induction name as [|c cs IH]; intros a H; simpl in *.
  - unfold ld8. rewrite H by lia. done.
  - unfold ld8. rewrite H by lia. rewrite IH; [done|]. intros x Hx. apply H. lia.
Qed.

Lemma strcpy_spec m a name :
  0 <= a -> a + Z.of_nat (length name) + 1 <= size ->
  exists m', strcpy size m a name = Some m' /\
    (forall x, x < a \/ a + Z.of_nat (length name) + 1 <= x -> m' x = m x) /\
    (forall i c, name !! i = Some c -> m' (a + Z.of_nat i) = u8 c) /\
    m' (a + Z.of_nat (length name)) = 0.
Proof.
  revert m a. induction name as [|c cs IH]; intros m a Ha Hs; simpl in *.
  - rewrite st8_Some by lia. eexists. split; [done|]. split; [|split; [done|]].
    + intros x Hx. apply put8_out. lia.
    + rewrite Z.add_0_r. by rewrite put8_in.
  - rewrite st8_Some by lia. destruct (IH (put8 m a c) (a + 1)) as (m' & -> & Hout & Hin & Hnul); [lia..|].
    exists m'. split; [done|]. split; [|split].
    + intros x Hx. rewrite Hout by lia. apply put8_out. lia.
    + intros [|i] c' Hi; simpl in Hi.
      * injection Hi as ->. rewrite Hout by lia. rewrite Z.add_0_r. by rewrite put8_in.
      * rewrite <- (Hin i c' Hi). f_equal. lia.
    + rewrite <- Hnul. f_equal. lia.
Qed.

(** The bytes at [a] spell the C string [name]. *)
Definition cstr_at (m : bytes) (a : Z) (name : list Z) : Prop :=
  (forall i c, name !! i = Some c -> m (a + Z.of_nat i) = c) /\
  m (a + Z.of_nat (length name)) = 0.

Lemma cstr_at_cons m a c cs :
  cstr_at m a (c :: cs) <-> m a = c /\ cstr_at m (a + 1) cs.
Proof.
  unfold cstr_at. simpl. split.
  - intros [H H0]. split; [rewrite <- (H 0%nat c eq_refl); f_equal; lia|]. split.
    + intros i c' Hi. rewrite <- (H (S i) c' Hi). f_equal. lia.
    + rewrite <- H0. f_equal. lia.
  - intros [Hc [H H0]]. split.
    + intros [|i] c' Hi; simpl in Hi; [injection Hi as <-; rewrite <- Hc; f_equal; lia|].
      rewrite <- (H i c' Hi). f_equal. lia.
    + rewrite <- H0. f_equal. lia.
Qed.

(** [strcmp] is 0 exactly on the string the entry holds. *)
Lemma strcmp_zero m name a r :
  Forall (fun c => 0 < c < 256) name ->
  strcmp size m name a = Some r -> r = 0 <-> cstr_at m a name.
Proof.
  revert a. induction name as [|c cs IH]; intros a Hf; simpl.
  - unfold ld8. case_decide; [|done]. intros [= <-]. unfold cstr_at. simpl. rewrite Z.add_0_r.
    split; [intros; split; [done|lia]|intros [_ ->]; lia].
  - apply Forall_cons in Hf as [Hc Hf]. rewrite cstr_at_cons.
    unfold ld8 at 1. case_decide; [|done].
    destruct (Z.eqb_spec c (m a)) as [->|Hne].
    + intros Hr. rewrite (IH _ Hf Hr). intuition.
    + intros [= <-]. split; [lia|]. intros [<- _]. lia.
Qed.

Lemma cstr_at_inj m a s1 s2 :
  Forall (fun c => 0 < c < 256) s1 -> Forall (fun c => 0 < c < 256) s2 ->
  cstr_at m a s1 -> cstr_at m a s2 -> s1 = s2.
Proof.
  revert a s2. induction s1 as [|c cs IH]; intros a [|c2 cs2] H1 H2.
  - done.
  - rewrite cstr_at_cons. apply Forall_cons in H2 as [? _].
    intros [_ H0] [Hc _]. simpl in H0. rewrite Z.add_0_r in H0. lia.
  - rewrite cstr_at_cons. apply Forall_cons in H1 as [? _].
    intros [Hc _] [_ H0]. simpl in H0. rewrite Z.add_0_r in H0. lia.
  - rewrite !cstr_at_cons. apply Forall_cons in H1 as [_ H1]. apply Forall_cons in H2 as [_ H2].
    intros [<- Ha] [<- Hb]. f_equal. eauto.
Qed.

Lemma memcpy_from_spec m a n :
  0 <= a -> a + Z.of_nat n <= size ->
  memcpy_from size m a n = Some (map (fun i => m (a + Z.of_nat i)) (seq 0 n)).
Proof.
  revert a. induction n as [|n IH]; intros a Ha Hs; [done|]. simpl.
  rewrite ld8_Some, IH by lia. rewrite <- seq_shift, map_map. do 2 f_equal; [f_equal; lia|].
  apply map_ext. intros i. f_equal. lia.
Qed.
End strings.

(** ** Directories as lists of slots *)

Lemma find_ext {A} (f g : A -> bool) l :
  (forall x, x ∈ l -> f x = g x) -> List.find f l = List.find g l.
Proof.
  induction l as [|x l IH]; intros H; simpl; [done|].
  rewrite H by left. rewrite IH; [done|]. intros y Hy. apply H. by right.
Qed.

Lemma find_app {A} (f : A -> bool) l1 l2 :
  List.find f (l1 ++ l2) =
    match List.find f l1 with Some x => Some x | None => List.find f l2 end.
Proof. induction l1 as [|x l1 IH]; simpl; [done|]. by destruct (f x). Qed.

Lemma find_map_pair {A B} (f : A * B -> bool) a (l : list B) :
  List.find f (map (pair a) l) = option_map (pair a) (List.find (fun b => f (a, b)) l).
Proof. induction l as [|b l IH]; simpl; [done|]. by destruct (f (a, b)). Qed.

Lemma find_Some_iff {A} (f : A -> bool) l x : List.find f l = Some x -> x ∈ l /\ f x = true.
Proof. intros [Hin ?]%List.find_some. split; [|done]. by apply list_elem_of_In. Qed.

Lemma find_None_iff {A} (f : A -> bool) l : List.find f l = None -> forall x, x ∈ l -> f x = false.
Proof. intros H x Hx. eapply List.find_none; [done|]. by apply list_elem_of_In. Qed.

(** The slots [(block, entry)] of a directory of [n] blocks, in the order the
    loops of [fs.c] visit them. *)
Definition block_slots (i : Z) : list (Z * Z) := map (pair i) entries.
Definition slots_from (i n : Z) : list (Z * Z) := concat (map block_slots (seqZ i n)).
Definition slots (n : nat) : list (Z * Z) := slots_from 0 (Z.of_nat n).

Lemma elem_of_slots_from a n i j :
  (i, j) ∈ slots_from a n <-> a <= i < a + n /\ 0 <= j < 128.
Proof.
  unfold slots_from. rewrite list_elem_of_In, List.in_concat. split.
  - intros (l & Hl & Hj). apply List.in_map_iff in Hl as (i' & <- & Hi').
    apply List.in_map_iff in Hj as (j' & [= <- <-] & Hj').
    apply list_elem_of_In, elem_of_seqZ in Hi'. apply list_elem_of_In, elem_of_seqZ in Hj'.
    change (Z.quot UFS_BLOCK_SIZE SIZEOF_DIRENT) with 128 in Hj'. lia.
  - intros [Hi Hj]. exists (block_slots i). split.
    + apply List.in_map, list_elem_of_In, elem_of_seqZ. lia.
    + apply List.in_map, list_elem_of_In, elem_of_seqZ.
      change (Z.quot UFS_BLOCK_SIZE SIZEOF_DIRENT) with 128. lia.
Qed.

Lemma elem_of_slots n i j : (i, j) ∈ slots n <-> 0 <= i < Z.of_nat n /\ 0 <= j < 128.
Proof. unfold slots. rewrite elem_of_slots_from. lia. Qed.

Section dirs.
Context (size : Z) (d : disk_t) (Hlay : layout size d).

Definition slot_block (m : bytes) (inum i : Z) : Z :=
  block_ptr d (word32 m (off_direct (inode_at d inum) i)).

(** The entry [j] of the block at [ptr] is in use under [name]. *)
Definition occb (m : bytes) (ptr : Z) (name : list Z) (j : Z) : bool :=
  negb (word32 m (off_inum ptr j) =? -1) &&
  match strcmp size m name (off_name ptr j) with Some c => c =? 0 | None => false end.

Definition freeb (m : bytes) (ptr j : Z) : bool :=
  (word32 m (off_inum ptr j) =? -1) &&
  match strcmp size m DOTDOT (off_name ptr j) with Some c => negb (c =? 0) | None => false end.

(** A block of entries inside the mapping. *)
Definition block_in (ptr : Z) : Prop := 0 <= ptr /\ ptr + 4096 <= size.

Lemma find_entry_find m ptr name js :
  block_in ptr -> (length name <= 27)%nat -> (forall j, j ∈ js -> 0 <= j < 128) ->
  find_entry size m ptr name js =
    Some (option_map (fun j => (j, word32 m (off_inum ptr j))) (List.find (occb m ptr name) js)).
Proof.
  intros [Hp Hs] Hname. induction js as [|j js IH]; intros Hjs; [done|].
  pose proof (Hjs j ltac:(left)). assert (forall j, j ∈ js -> 0 <= j < 128) by (intros; apply Hjs; by right).
  simpl. unfold occb at 1. unfold off_inum, SIZEOF_DIRENT.
  rewrite ld32_Some by lia. destruct (Z.eqb_spec (word32 m (ptr + 32 * j + 28)) (-1)); simpl; [auto|].
  destruct (strcmp_total size m name (off_name ptr j)) as [c Hc]; [unfold off_name, SIZEOF_DIRENT; lia..|].
  rewrite Hc. destruct (Z.eqb_spec c 0); simpl; auto.
Qed.

Lemma find_free_entry_find m ptr js :
  block_in ptr -> (forall j, j ∈ js -> 0 <= j < 128) ->
  find_free_entry size m ptr js = Some (List.find (freeb m ptr) js).
Proof.
  intros [Hp Hs]. induction js as [|j js IH]; intros Hjs; [done|].
  pose proof (Hjs j ltac:(left)). assert (forall j, j ∈ js -> 0 <= j < 128) by (intros; apply Hjs; by right).
  cbn [find_free_entry List.find]. unfold freeb at 1. unfold off_inum, SIZEOF_DIRENT.
  rewrite ld32_Some by lia. destruct (Z.eqb_spec (word32 m (ptr + 32 * j + 28)) (-1)); cbn [andb]; [|auto].
  destruct (strcmp_total size m DOTDOT (off_name ptr j)) as [c Hc];
    [unfold off_name, SIZEOF_DIRENT; cbn [Datatypes.length DOTDOT]; lia..|].
  rewrite Hc. destruct (Z.eqb_spec c 0); cbn [negb]; auto.
Qed.

Lemma entries_range j : j ∈ entries -> 0 <= j < 128.
Proof. intros Hj%elem_of_seqZ. change (Z.quot UFS_BLOCK_SIZE SIZEOF_DIRENT) with 128 in Hj. lia. Qed.

(** The occupied slots of a directory. *)
Definition occ_slot (m : bytes) (pinum : Z) (name : list Z) (s : Z * Z) : bool :=
  occb m (slot_block m pinum s.1) name s.2.
Definition free_slot (m : bytes) (pinum : Z) (s : Z * Z) : bool :=
  freeb m (slot_block m pinum s.1) s.2.

Definition slot_result (m : bytes) (pinum : Z) (s : Z * Z) : Z * Z * Z :=
  (slot_block m pinum s.1, s.2, word32 m (off_inum (slot_block m pinum s.1) s.2)).

Lemma inode_in inum : inum_ok d inum ->
  inode_region_ptr d <= inode_at d inum /\ inode_at d inum + 128 <= data_region_ptr d.
Proof. destruct Hlay. unfold inum_ok, inode_at, SIZEOF_INODE. lia. Qed.

Lemma ld32_direct m inum k :
  inum_ok d inum -> 0 <= k < 30 ->
  ld32 size m (off_direct (inode_at d inum) k) = Some (word32 m (off_direct (inode_at d inum) k)).
Proof.
  intros Hi Hk. pose proof (inode_in inum Hi). destruct Hlay. apply ld32_Some; unfold off_direct; lia.
Qed.

Lemma slot_block_in m inum n k :
  dir_ok size d m inum n -> 0 <= k < Z.of_nat n ->
  data_region_ptr d <= slot_block m inum k /\ block_in (slot_block m inum k).
Proof.
  intros Hd Hk. destruct (dir_data _ _ _ _ _ Hd k Hk). destruct Hlay.
  unfold slot_block, block_in, block_ptr, UFS_BLOCK_SIZE. lia.
Qed.

Lemma data_block_ne size' addr : layout size' d -> data_block size' d addr -> addr <> -1.
Proof. intros [] [H _] ->. lia. Qed.

Lemma seqZ_split k : 0 <= k < 30 -> seqZ k (30 - k) = k :: seqZ (k + 1) (30 - (k + 1)).
Proof. intros. rewrite seqZ_cons by lia. do 2 f_equal; lia. Qed.

(** The search loop visits the slots in order and stops at the first hit. *)
Lemma find_in_dir_from m pinum n name i :
  dir_ok size d m pinum n -> (length name <= 27)%nat -> 0 <= i <= Z.of_nat n ->
  find_in_dir size d m (inode_at d pinum) name (seqZ i (30 - i)) =
    Some (option_map (slot_result m pinum)
            (List.find (occ_slot m pinum name) (slots_from i (Z.of_nat n - i)))).
Proof.
  intros Hd Hname. pose proof (dir_n _ _ _ _ _ Hd). remember (n - Z.to_nat i)%nat as fuel eqn:Hf.
  revert i Hf. induction fuel as [|fuel IH]; intros i Hf Hi.
  - replace (Z.of_nat n - i) with 0 by lia.
    change (slots_from i 0) with (@nil (Z * Z)).
    assert (i = Z.of_nat n) as -> by lia. destruct (decide (n = 30%nat)) as [->|].
    { change (Z.of_nat 30) with 30. by rewrite seqZ_nil by lia. }
    rewrite seqZ_split by lia. cbn [find_in_dir]. rewrite ld32_direct by (apply Hd || lia).
    rewrite (dir_end _ _ _ _ _ Hd) by lia. reflexivity.
  - rewrite seqZ_split by lia. cbn [find_in_dir]. rewrite ld32_direct by (apply Hd || lia).
    destruct (Z.eqb_spec (word32 m (off_direct (inode_at d pinum) i)) (-1)) as [He|_].
    { destruct (data_block_ne _ _ Hlay (dir_data _ _ _ _ _ Hd i ltac:(lia)) He). }
    fold (slot_block m pinum i). destruct (slot_block_in m pinum n i Hd ltac:(lia)) as [_ Hin].
    rewrite find_entry_find by (done || apply entries_range).
    unfold slots_from. rewrite (seqZ_cons i (Z.of_nat n - i)) by lia. cbn [map concat]. rewrite find_app.
    unfold block_slots at 1. rewrite find_map_pair.
    change (fun b => occ_slot m pinum name (i, b)) with (occb m (slot_block m pinum i) name).
    destruct (List.find (occb m (slot_block m pinum i) name) entries) as [j|]; cbn [option_map]; [reflexivity|].
    rewrite <- Z.add_1_r, IH by lia. unfold slots_from.
    by replace (Z.pred (Z.of_nat n - i)) with (Z.of_nat n - (i + 1)) by lia.
Qed.

Lemma find_in_dir_find m pinum n name :
  dir_ok size d m pinum n -> (length name <= 27)%nat ->
  find_in_dir size d m (inode_at d pinum) name directs =
    Some (option_map (slot_result m pinum) (List.find (occ_slot m pinum name) (slots n))).
Proof.
  intros Hd Hn. change directs with (seqZ 0 (30 - 0)). rewrite (find_in_dir_from m pinum n) by (done || lia).
  unfold slots. do 4 f_equal. lia.
Qed.

Lemma bit_ok_inum inum : inum_ok d inum -> bit_ok size (inode_bitmap_ptr d) inum.
Proof.
  destruct Hlay. unfold inum_ok. intros. split; [lia|]. split; [lia|].
  assert (inum / 32 < 1024 * inode_bitmap_len d) by (apply Z.div_lt_upper_bound; lia). lia.
Qed.

Lemma get_inode_ptr_spec m inum :
  inum_ok d inum ->
  get_inode_ptr size d m inum =
    Some (if bit m (inode_bitmap_ptr d) inum then Some (inode_at d inum) else None).
Proof.
  intros Hi. unfold get_inode_ptr. rewrite read_bit_spec by (by apply bit_ok_inum).
  by destruct (bit m (inode_bitmap_ptr d) inum).
Qed.

Lemma fs_lookup_find m pinum n name :
  dir_ok size d m pinum n -> (length name <= 27)%nat ->
  fs_lookup size d m pinum name =
    Some (match List.find (occ_slot m pinum name) (slots n) with
          | Some s => (slot_result m pinum s).2
          | None => -1
          end).
Proof.
  intros Hd Hn. unfold fs_lookup. rewrite get_inode_ptr_spec by apply Hd.
  rewrite (dir_bit _ _ _ _ _ Hd), (find_in_dir_find m pinum n) by done.
  by destruct (List.find _ _).
Qed.

(** ** Creating a file *)

Lemma clear_directs_spec m inode ks :
  0 <= inode -> inode + 128 <= size -> (forall k, k ∈ ks -> 0 <= k < 30) ->
  exists m', clear_directs size m inode ks = Some m' /\
    (forall x, x < inode + 8 \/ inode + 128 <= x -> m' x = m x) /\
    (forall k, 0 <= k < 30 ->
       (word32 m' (off_direct inode k) = -1) \/
       (~ k ∈ ks /\ word32 m' (off_direct inode k) = word32 m (off_direct inode k))).
Proof.
  intros Hi Hs. revert m. induction ks as [|k0 ks IH]; intros m Hks; simpl.
  { exists m. split; [done|]. split; [done|]. intros k _. right. split; [apply not_elem_of_nil|done]. }
  pose proof (Hks k0 ltac:(left)). rewrite st32_Some by (unfold off_direct; lia).
  destruct (IH (put32 m (off_direct inode k0) (-1))) as (m' & -> & Hout & Hk).
  { intros k Hk. apply Hks. by right. }
  exists m'. split; [done|]. split.
  - intros x Hx. rewrite Hout by done. apply put32_out. unfold off_direct. lia.
  - intros k Hk'. destruct (Hk k Hk') as [->|[Hnin ->]]; [by left|].
    destruct (decide (k = k0)) as [->|Hne].
    + left. by rewrite word32_put32_eq.
    + right. split; [by rewrite not_elem_of_cons|]. apply word32_put32_ne. unfold off_direct. lia.
Qed.

Lemma bit_ext m m' bitmap i :
  (forall x, bitmap + 4 * (i / 32) <= x < bitmap + 4 * (i / 32) + 4 -> m' x = m x) ->
  bit m' bitmap i = bit m bitmap i.
Proof.
  intros H. unfold bit. f_equal. apply word32_ext. intros k Hk. apply H. lia.
Qed.

(** The bytes the body of [fs_creat] may write for a regular file. *)
Definition creat_footprint (ptr j r pinum x : Z) : Prop :=
  (inode_bitmap_ptr d <= x < data_bitmap_ptr d) \/
  (off_name ptr j <= x < off_name ptr j + 32) \/
  (inode_at d r <= x < inode_at d r + 128) \/
  (off_size (inode_at d pinum) <= x < off_size (inode_at d pinum) + 4).

Record creat_post (m m' : bytes) (pinum type : Z) (name : list Z) (ptr j r : Z) : Prop := {
  cp_bits : forall k, inum_ok d k ->
    bit m' (inode_bitmap_ptr d) k = bit m (inode_bitmap_ptr d) k || (k =? r);
  cp_inum : word32 m' (off_inum ptr j) = r;
  cp_name : cstr_at m' (off_name ptr j) name;
  cp_type : word32 m' (off_type (inode_at d r)) = type;
  cp_size : word32 m' (off_size (inode_at d r)) = 0;
  cp_direct : forall k, 0 <= k < 30 -> word32 m' (off_direct (inode_at d r) k) = -1;
  cp_psize : word32 m' (off_size (inode_at d pinum)) =
    s32 (word32 m (off_size (inode_at d pinum)) + 32);
  cp_frame : forall x, ~ creat_footprint ptr j r pinum x -> m' x = m x
}.

Lemma inum_word inum : inum_ok d inum ->
  inode_bitmap_ptr d + 4 * (inum / 32) + 4 <= data_bitmap_ptr d /\ 0 <= inum / 32.
Proof.
  intros Hi. destruct Hlay. unfold inum_ok in Hi. split; [|apply Z.div_pos; lia].
  assert (inum / 32 < 1024 * inode_bitmap_len d) by (apply Z.div_lt_upper_bound; lia). lia.
Qed.

Lemma inode_disjoint r pinum :
  r <> pinum -> inode_at d r + 128 <= inode_at d pinum \/ inode_at d pinum + 128 <= inode_at d r.
Proof. unfold inode_at, SIZEOF_INODE. lia. Qed.

(** The directory entry and the inode bit, written first. *)
Lemma creat_entry_spec m ptr j name r :
  data_region_ptr d <= ptr -> block_in ptr -> 0 <= j < 128 -> good_name name ->
  find_free_block size m (inode_bitmap_ptr d) (inode_bitmap_len d) = Some r ->
  inum_ok d r ->
  exists m1 m3, flip_bit size m (inode_bitmap_ptr d) r = Some m1 /\
    strcpy size (put32 m1 (off_inum ptr j) r) (off_name ptr j) name = Some m3 /\
    word32 m3 (off_inum ptr j) = r /\
    cstr_at m3 (off_name ptr j) name /\
    (forall k, inum_ok d k ->
       bit m3 (inode_bitmap_ptr d) k = bit m (inode_bitmap_ptr d) k || (k =? r)) /\
    (forall x, ~ (inode_bitmap_ptr d <= x < data_bitmap_ptr d) ->
       ~ (off_name ptr j <= x < off_name ptr j + 32) -> m3 x = m x).
Proof.
  intros Hdata [Hb0 Hb1] Hj [Hlen Hname] Hr Hrok.
  pose proof (inode_in r Hrok) as Hir. pose proof (inum_word r Hrok) as Hw. pose proof Hlay as [].
  destruct (flip_bit_spec size m (inode_bitmap_ptr d) r) as (m1 & Hm1 & Hbit & Hout1); [by apply bit_ok_inum|].
  destruct (strcpy_spec size (put32 m1 (off_inum ptr j) r) (off_name ptr j) name)
    as (m3 & Hm3 & Hout3 & Hin3 & Hnul3); [unfold off_name, SIZEOF_DIRENT; lia..|].
  exists m1, m3. split; [done|]. split; [done|]. unfold off_inum, off_name, SIZEOF_DIRENT in *.
  assert (Hr32 : is_s32 r) by (unfold inum_ok, inode_at, SIZEOF_INODE, is_s32 in *; lia).
  split; [|split; [|split]].
  - rewrite (word32_ext m3 (put32 m1 (ptr + 32 * j + 28) r)) by (intros; apply Hout3; lia).
    by rewrite word32_put32_eq, s32_small.
  - split; [|done]. intros i c Hi. rewrite (Hin3 i c Hi). apply u8_small.
    pose proof (proj1 (Forall_lookup _ _) Hname i c Hi) as Hc. simpl in Hc. unfold is_u8. lia.
  - intros k Hk. pose proof (inum_word k Hk).
    rewrite (bit_ext m1 m3) by (intros; rewrite Hout3 by lia; apply put32_out; lia).
    rewrite Hbit by apply Hk.
    destruct (find_free_block_first size m (inode_bitmap_ptr d) (inode_bitmap_len d)) as (r' & Hr' & Hc);
      [split; lia|].
    rewrite Hr in Hr'. injection Hr' as <-. destruct Hc as [[-> _]|(_ & Hbr & _)]; [unfold inum_ok in *; lia|].
    destruct (Z.eqb_spec k r) as [->|]; [by rewrite Hbr|by rewrite orb_false_r].
  - intros x Hx1 Hx2. rewrite Hout3, put32_out by lia. apply Hout1. lia.
Qed.

(** The fresh inode, written next. *)
Lemma creat_inode_spec m r type :
  inum_ok d r -> is_s32 type ->
  let ino := inode_at d r in
  exists m', clear_directs size (put32 (put32 m (off_type ino) type) (off_size ino) 0) ino directs = Some m' /\
    word32 m' (off_type ino) = type /\ word32 m' (off_size ino) = 0 /\
    (forall k, 0 <= k < 30 -> word32 m' (off_direct ino k) = -1) /\
    (forall x, ~ (ino <= x < ino + 128) -> m' x = m x).
Proof.
  intros Hrok Hty. pose proof (inode_in r Hrok) as Hir. pose proof Hlay as []. intros ino. fold ino in Hir.
  destruct (clear_directs_spec (put32 (put32 m (off_type ino) type) (off_size ino) 0) ino directs)
    as (m' & Hm' & Hout & Hk); [lia..|by intros k Hk%elem_of_seqZ|].
  exists m'. split; [done|]. unfold off_type, off_size in *. split; [|split; [|split]].
  - erewrite word32_ext by (intros; apply Hout; lia).
    rewrite word32_put32_ne, word32_put32_eq by lia. by apply s32_small.
  - erewrite word32_ext by (intros; apply Hout; lia). by rewrite word32_put32_eq.
  - intros k Hk'. destruct (Hk k Hk') as [|[Hn _]]; [done|]. destruct Hn. by apply elem_of_seqZ.
  - intros x Hx. rewrite Hout by lia. by rewrite !put32_out by lia.
Qed.

Lemma creat_at_regular m pinum n i j type name r :
  dir_ok size d m pinum n -> (i, j) ∈ slots n -> good_name name ->
  is_s32 type -> type <> UFS_DIRECTORY ->
  find_free_block size m (inode_bitmap_ptr d) (inode_bitmap_len d) = Some r ->
  inum_ok d r -> r <> pinum ->
  exists m', creat_at size d m (inode_at d pinum) pinum type name (slot_block m pinum i) j = Some (0, m') /\
    creat_post m m' pinum type name (slot_block m pinum i) j r.
Proof.
  intros Hd Hij Hname Hty Hdir Hr Hrok Hne.
  apply elem_of_slots in Hij as [Hi Hj].
  destruct (slot_block_in m pinum n i Hd Hi) as [Hdata Hblk]. pose proof Hblk as [Hb0 Hb1].
  set (ptr := slot_block m pinum i) in *. clearbody ptr.
  pose proof (inode_in r Hrok) as Hir. pose proof (inode_in pinum (dir_inum _ _ _ _ _ Hd)) as Hip.
  pose proof (inode_disjoint r pinum Hne) as Hdj. pose proof Hlay as [].
  destruct (creat_entry_spec m ptr j name r) as (m1 & m3 & Hm1 & Hm3 & Hent & Hstr & Hbits & Hout3); [done..|].
  destruct (creat_inode_spec m3 r type) as (m6 & Hm6 & Hty6 & Hsz6 & Hk6 & Hout6); [done..|].
  unfold creat_at. rewrite Hr. destruct (Z.eqb_spec r (-1)); [unfold inum_ok in *; lia|].
  rewrite Hm1. rewrite st32_Some by (unfold off_inum, SIZEOF_DIRENT; lia). rewrite Hm3.
  rewrite ld32_Some, Hent by (unfold off_inum, SIZEOF_DIRENT; lia).
  rewrite get_inode_ptr_spec, Hbits, Z.eqb_refl, orb_true_r by done.
  rewrite st32_Some by (unfold off_type; lia). rewrite st32_Some by (unfold off_size; lia).
  rewrite Hm6, ld32_Some, Hty6 by (unfold off_type; lia).
  destruct (Z.eqb_spec type UFS_DIRECTORY) as [|_]; [done|]. cbn [negb].
  rewrite ld32_Some by (unfold off_size; lia). rewrite st32_Some by (unfold off_size; lia).
  eexists. split; [done|].
  unfold off_inum, off_name, off_type, off_size, off_direct, SIZEOF_DIRENT in *.
  assert (Hold : word32 m6 (inode_at d pinum + 4) = word32 m (inode_at d pinum + 4)).
  { apply word32_ext. intros k Hk. rewrite Hout6, Hout3 by lia. done. }
  split; unfold off_inum, off_name, off_type, off_size, off_direct, SIZEOF_DIRENT.
  - intros k Hk. rewrite <- (Hbits k Hk). pose proof (inum_word k Hk). apply bit_ext. intros x Hx.
    rewrite put32_out by lia. apply Hout6. lia.
  - rewrite word32_put32_ne by lia. erewrite word32_ext; [apply Hent|]. intros k Hk. apply Hout6. lia.
  - destruct Hstr as [H1 H2], Hname as [Hlen _]. split.
    + intros k c Hk. pose proof (lookup_lt_Some _ _ _ Hk).
      rewrite put32_out, Hout6 by lia. by apply H1.
    + by rewrite put32_out, Hout6 by lia.
  - by rewrite word32_put32_ne by lia.
  - by rewrite word32_put32_ne by lia.
  - intros k Hk. rewrite word32_put32_ne by lia. by apply Hk6.
  - rewrite word32_put32_eq, Hold. apply s32_small, s32_range.
  - intros x Hx. unfold creat_footprint, off_name, off_size, SIZEOF_DIRENT in Hx.
    rewrite put32_out, Hout6, Hout3 by lia. done.
Qed.

Lemma creat_in_from m pinum n type name i s :
  dir_ok size d m pinum n -> 0 <= i <= Z.of_nat n ->
  List.find (free_slot m pinum) (slots_from i (Z.of_nat n - i)) = Some s ->
  creat_in size d m (inode_at d pinum) pinum type name (seqZ i (30 - i)) =
    creat_at size d m (inode_at d pinum) pinum type name (slot_block m pinum s.1) s.2.
Proof.
  intros Hd. pose proof (dir_n _ _ _ _ _ Hd). remember (n - Z.to_nat i)%nat as fuel eqn:Hf.
  revert i Hf. induction fuel as [|fuel IH]; intros i Hf Hi.
  { replace (Z.of_nat n - i) with 0 by lia. done. }
  unfold slots_from. rewrite (seqZ_cons i (Z.of_nat n - i)) by lia. cbn [map concat].
  rewrite find_app. unfold block_slots at 1. rewrite find_map_pair.
  change (fun b => free_slot m pinum (i, b)) with (freeb m (slot_block m pinum i)).
  rewrite seqZ_split by lia. cbn [creat_in]. unfold assign_dir_block.
  rewrite ld32_direct by (apply Hd || lia).
  destruct (Z.eqb_spec (word32 m (off_direct (inode_at d pinum) i)) (-1)) as [He|_].
  { destruct (data_block_ne _ _ Hlay (dir_data _ _ _ _ _ Hd i ltac:(lia)) He). }
  rewrite ld32_direct by (apply Hd || lia).
  fold (slot_block m pinum i). destruct (slot_block_in m pinum n i Hd ltac:(lia)) as [_ Hin].
  rewrite find_free_entry_find by (done || apply entries_range).
  destruct (List.find (freeb m (slot_block m pinum i)) entries) as [j|]; cbn [option_map].
  - by intros [= <-].
  - intros Hfind. apply IH; [lia..|]. unfold slots_from.
    rewrite <- Hfind. do 4 f_equal; lia.
Qed.

(** Two slots of a directory do not share bytes. *)
Lemma slots_disjoint m pinum n i j i' j' :
  dir_ok size d m pinum n -> (i, j) ∈ slots n -> (i', j') ∈ slots n -> (i, j) <> (i', j') ->
  off_name (slot_block m pinum i) j + 32 <= off_name (slot_block m pinum i') j' \/
  off_name (slot_block m pinum i') j' + 32 <= off_name (slot_block m pinum i) j.
Proof.
  intros Hd [Hi Hj]%elem_of_slots [Hi' Hj']%elem_of_slots Hne.
  unfold off_name, SIZEOF_DIRENT. destruct (decide (i = i')) as [->|Hii].
  - assert (j <> j') by congruence. lia.
  - unfold slot_block, block_ptr, UFS_BLOCK_SIZE.
    assert (word32 m (off_direct (inode_at d pinum) i) <> word32 m (off_direct (inode_at d pinum) i'))
      by (intros Heq; apply Hii; eapply (dir_distinct _ _ _ _ _ Hd); done). lia.
Qed.

(** The bytes of a slot the new entry does not occupy survive. *)
Lemma creat_post_slot m m' pinum n type name i j r s x :
  dir_ok size d m pinum n -> inum_ok d r ->
  creat_post m m' pinum type name (slot_block m pinum i) j r ->
  (i, j) ∈ slots n -> s ∈ slots n -> s <> (i, j) ->
  off_name (slot_block m pinum s.1) s.2 <= x < off_name (slot_block m pinum s.1) s.2 + 32 ->
  m' x = m x.
Proof.
  intros Hd Hr Hp Hij Hs Hne Hx. destruct s as [i' j']. cbn [fst snd] in *.
  apply (cp_frame _ _ _ _ _ _ _ _ Hp). unfold creat_footprint.
  pose proof (slots_disjoint _ _ _ _ _ _ _ Hd Hs Hij Hne) as Hdj.
  apply elem_of_slots in Hs as [Hi' Hj'].
  destruct (slot_block_in m pinum n i' Hd Hi') as [Hdata _].
  pose proof (inode_in r Hr). pose proof (inode_in pinum (dir_inum _ _ _ _ _ Hd)).
  pose proof Hlay as []. unfold off_name, off_size, SIZEOF_DIRENT in *. lia.
Qed.

Lemma creat_post_direct m m' pinum n type name i j r k :
  dir_ok size d m pinum n -> inum_ok d r -> r <> pinum -> (i, j) ∈ slots n ->
  creat_post m m' pinum type name (slot_block m pinum i) j r ->
  0 <= k < 30 ->
  word32 m' (off_direct (inode_at d pinum) k) = word32 m (off_direct (inode_at d pinum) k).
Proof.
  intros Hd Hr Hne [Hi Hj]%elem_of_slots Hp Hk. apply word32_ext. intros b Hb.
  apply (cp_frame _ _ _ _ _ _ _ _ Hp). unfold creat_footprint.
  destruct (slot_block_in m pinum n i Hd Hi) as [Hdata _].
  pose proof (inode_disjoint r pinum Hne). pose proof (inode_in pinum (dir_inum _ _ _ _ _ Hd)).
  pose proof Hlay as []. unfold off_name, off_size, off_direct, SIZEOF_DIRENT in *. lia.
Qed.

(** The directory stays well formed. *)
Lemma creat_post_dir m m' pinum n type name i j r :
  dir_ok size d m pinum n -> inum_ok d r -> r <> pinum -> (i, j) ∈ slots n ->
  creat_post m m' pinum type name (slot_block m pinum i) j r ->
  dir_ok size d m' pinum n.
Proof.
  intros Hd Hr Hne Hij Hp. pose proof (fun k => creat_post_direct _ _ _ _ _ _ _ _ _ k Hd Hr Hne Hij Hp) as Hk.
  pose proof (dir_n _ _ _ _ _ Hd). split; [apply Hd| |done| | |].
  - rewrite (cp_bits _ _ _ _ _ _ _ _ Hp) by apply Hd. by rewrite (dir_bit _ _ _ _ _ Hd).
  - intros k ?. rewrite Hk by lia. by apply Hd.
  - intros k k' ? ?. rewrite !Hk by lia. by apply Hd.
  - intros ?. rewrite Hk by lia. by apply (dir_end _ _ _ _ _ Hd).
Qed.

Lemma occb_new m' ptr j name r name' :
  block_in ptr -> 0 <= j < 128 -> r <> -1 ->
  word32 m' (off_inum ptr j) = r -> cstr_at m' (off_name ptr j) name -> good_name name ->
  good_name name' -> occb m' ptr name' j = bool_decide (name' = name).
Proof.
  intros [Hb0 Hb1] Hj Hr Hw Hs [_ Hg] [Hlen Hg']. unfold occb. rewrite Hw.
  destruct (Z.eqb_spec r (-1)); [done|]. cbn [negb andb].
  destruct (strcmp_total size m' name' (off_name ptr j)) as [c Hc]; [unfold off_name, SIZEOF_DIRENT; lia..|].
  rewrite Hc. pose proof (strcmp_zero _ _ _ _ _ Hg' Hc) as Hz.
  destruct (Z.eqb_spec c 0) as [H0|H0]; symmetry; [apply bool_decide_true|apply bool_decide_false].
  - eapply cstr_at_inj; [done..|by apply Hz|done].
  - intros ->. by apply H0, Hz.
Qed.

Lemma occ_slot_agree m m' pinum s name :
  (length name <= 27)%nat ->
  slot_block m' pinum s.1 = slot_block m pinum s.1 ->
  (forall x, off_name (slot_block m pinum s.1) s.2 <= x < off_name (slot_block m pinum s.1) s.2 + 32 ->
     m' x = m x) ->
  occ_slot m' pinum name s = occ_slot m pinum name s /\
  slot_result m' pinum s = slot_result m pinum s.
Proof.
  intros Hlen Hb Hx. unfold occ_slot, slot_result, occb. rewrite Hb.
  unfold off_inum, off_name, SIZEOF_DIRENT in *.
  rewrite (word32_ext m' m) by (intros; apply Hx; lia).
  rewrite (strcmp_agree size m m') by (intros; apply Hx; lia). done.
Qed.

(** Looking a name up after the entry of [name] was added. *)
Lemma creat_post_lookup m m' pinum n type name i j r name' :
  dir_ok size d m pinum n -> inum_ok d r -> r <> pinum -> (i, j) ∈ slots n -> good_name name ->
  free_slot m pinum (i, j) = true ->
  List.find (occ_slot m pinum name) (slots n) = None ->
  creat_post m m' pinum type name (slot_block m pinum i) j r ->
  good_name name' ->
  fs_lookup size d m' pinum name' =
    if bool_decide (name' = name) then Some r else fs_lookup size d m pinum name'.
Proof.
  intros Hd Hr Hne Hij Hname Hfree Hnone Hp Hname'.
  pose proof (creat_post_dir _ _ _ _ _ _ _ _ _ Hd Hr Hne Hij Hp) as Hd'.
  rewrite (fs_lookup_find m' pinum n), (fs_lookup_find m pinum n) by (done || apply Hname').
  assert (Hold : forall s, s ∈ slots n -> s <> (i, j) -> forall nm, (length nm <= 27)%nat ->
    occ_slot m' pinum nm s = occ_slot m pinum nm s /\ slot_result m' pinum s = slot_result m pinum s).
  { intros [i' j'] Hs Hsne nm Hnm. apply occ_slot_agree; [done| |].
    - unfold slot_block. f_equal. apply elem_of_slots in Hs as [? _]. pose proof (dir_n _ _ _ _ _ Hd).
      eapply creat_post_direct; [done..|cbn; lia].
    - intros x Hx. by eapply creat_post_slot. }
  assert (Hblk : slot_block m' pinum i = slot_block m pinum i).
  { unfold slot_block. f_equal. apply elem_of_slots in Hij as Hij'. pose proof (dir_n _ _ _ _ _ Hd).
    eapply creat_post_direct; [done..|lia]. }
  assert (Hnew : occ_slot m' pinum name' (i, j) = bool_decide (name' = name)).
  { apply elem_of_slots in Hij as [Hi Hj]. destruct (slot_block_in m pinum n i Hd Hi) as [_ Hin].
    unfold occ_slot. cbn [fst snd]. rewrite Hblk.
    eapply occb_new; [done..| |apply Hp|apply Hp|done|done]. unfold inum_ok in Hr. lia. }
  case_bool_decide as Heq.
  - subst name'. destruct (List.find (occ_slot m' pinum name) (slots n)) as [s|] eqn:Hf.
    + apply find_Some_iff in Hf as [Hin Hocc]. destruct (decide (s = (i, j))) as [->|Hs].
      * unfold slot_result. cbn [fst snd]. by rewrite Hblk, (cp_inum _ _ _ _ _ _ _ _ Hp).
      * rewrite (proj1 (Hold s Hin Hs name (proj1 Hname))), (find_None_iff _ _ Hnone s Hin) in Hocc. done.
    + rewrite (find_None_iff _ _ Hf (i, j) Hij) in Hnew. done.
  - rewrite (find_ext _ (occ_slot m pinum name') (slots n)).
    + destruct (List.find (occ_slot m pinum name') (slots n)) as [s|] eqn:Hf; [|done].
      apply find_Some_iff in Hf as [Hin Hocc]. destruct (decide (s = (i, j))) as [->|Hs].
      * unfold free_slot, freeb in Hfree. unfold occ_slot, occb in Hocc. cbn [fst snd] in *.
        apply andb_true_iff in Hfree as [H1 _], Hocc as [H2 _]. by rewrite H1 in H2.
      * by rewrite (proj2 (Hold s Hin Hs name' (proj1 Hname'))).
    + intros s Hin. destruct (decide (s = (i, j))) as [->|Hs]; [|by apply Hold; try apply Hname'].
      rewrite Hnew. unfold free_slot, freeb in Hfree. unfold occ_slot, occb. cbn [fst snd] in *.
      apply andb_true_iff in Hfree as [-> _]. done.
Qed.

Lemma bitmap_ok_ib : bitmap_ok size (inode_bitmap_ptr d) (inode_bitmap_len d).
Proof. destruct Hlay. split; lia. Qed.

Lemma find_free_inode_bit m r :
  find_free_block size m (inode_bitmap_ptr d) (inode_bitmap_len d) = Some r -> 0 <= r ->
  bit m (inode_bitmap_ptr d) r = false.
Proof.
  intros Hr Hr0. destruct (find_free_block_first size m _ _ bitmap_ok_ib) as (r' & Hr' & Hc).
  rewrite Hr in Hr'. injection Hr' as <-. destruct Hc as [[-> _]|(_ & ? & _)]; [lia|done].
Qed.

Lemma fs_lookup_absent m pinum n name :
  dir_ok size d m pinum n -> (length name <= 27)%nat ->
  fs_lookup size d m pinum name = Some (-1) <-> List.find (occ_slot m pinum name) (slots n) = None.
Proof.
  intros Hd Hlen. rewrite (fs_lookup_find m pinum n) by done.
  destruct (List.find _ _) as [s|] eqn:Hf; [|done]. apply find_Some_iff in Hf as [_ Hocc].
  unfold occ_slot, occb in Hocc. apply andb_true_iff in Hocc as [Hne _].
  apply negb_true_iff, Z.eqb_neq in Hne. split; [|done]. unfold slot_result. cbn [snd]. congruence.
Qed.

(** The whole operation on an absent name, when the directory has a free slot. *)
Lemma fs_creat_regular m pinum n name type r :
  dir_ok size d m pinum n -> good_name name -> is_s32 type -> type <> UFS_DIRECTORY ->
  fs_lookup size d m pinum name = Some (-1) ->
  (exists s, s ∈ slots n /\ free_slot m pinum s = true) ->
  find_free_block size m (inode_bitmap_ptr d) (inode_bitmap_len d) = Some r -> inum_ok d r ->
  exists m' i j, fs_creat size d m pinum type name = Some (0, m') /\
    (i, j) ∈ slots n /\ free_slot m pinum (i, j) = true /\ r <> pinum /\
    creat_post m m' pinum type name (slot_block m pinum i) j r.
Proof.
  intros Hd Hname Hty Hdir Habs (s & Hs & Hfree) Hr Hrok.
  assert (Hne : r <> pinum).
  { intros ->. pose proof (find_free_inode_bit _ _ Hr ltac:(apply Hrok)) as Hb.
    rewrite (dir_bit _ _ _ _ _ Hd) in Hb. done. }
  apply (fs_lookup_absent m pinum n) in Habs; [|done|apply Hname].
  destruct (List.find (free_slot m pinum) (slots n)) as [[i j]|] eqn:Hf;
    [|by rewrite (find_None_iff _ _ Hf s Hs) in Hfree].
  pose proof (find_Some_iff _ _ _ Hf) as [Hij Hfr].
  destruct (creat_at_regular m pinum n i j type name r) as (m' & Hm' & Hpost); [done..|].
  exists m', i, j. split; [|done]. unfold fs_creat. rewrite get_inode_ptr_spec by apply Hd.
  rewrite (dir_bit _ _ _ _ _ Hd). destruct (Z.ltb_spec 28 (Z.of_nat (length name))) as [Hl|_].
  { destruct Hname. lia. }
  rewrite (find_in_dir_find m pinum n), Habs by (done || apply Hname). cbn [option_map].
  change directs with (seqZ 0 (30 - 0)). rewrite (creat_in_from m pinum n _ _ _ (i, j)); [done..|lia|].
  rewrite <- Hf. unfold slots. do 2 f_equal. lia.
Qed.

Lemma fs_stat_spec m inum st :
  inum_ok d inum -> bit m (inode_bitmap_ptr d) inum = true ->
  fs_stat size d m inum st =
    Some (0, {| st_type := word32 m (off_type (inode_at d inum));
                st_size := word32 m (off_size (inode_at d inum)) |}).
Proof.
  intros Hi Hb. unfold fs_stat. rewrite get_inode_ptr_spec, Hb by done.
  pose proof (inode_in inum Hi). pose proof Hlay as [].
  by rewrite !ld32_Some by (unfold off_type, off_size; lia).
Qed.

(** ** Reading and writing a file *)

(** The code's test that a transfer stays inside its first block. *)
Lemma same_block_quot offset nbytes :
  0 <= offset < 2 ^ 31 -> 0 <= nbytes -> offset mod 4096 + nbytes < 4096 ->
  Z.quot (s32 (offset + nbytes)) 4096 = offset / 4096.
Proof.
  intros Ho Hn Hsame. pose proof (Z.div_mod offset 4096 ltac:(lia)).
  assert (offset / 4096 < 2 ^ 19) by (apply Z.div_lt_upper_bound; lia).
  rewrite s32_small by (unfold is_s32; lia). rewrite Z.quot_div_nonneg by lia.
  pose proof (Z.mod_pos_bound offset 4096 ltac:(lia)).
  symmetry. apply (Z.div_unique _ _ _ (offset mod 4096 + nbytes)); lia.
Qed.

Lemma write_guards m inum nbytes offset :
  inum_ok d inum -> bit m (inode_bitmap_ptr d) inum = true ->
  word32 m (off_type (inode_at d inum)) <> UFS_DIRECTORY ->
  0 <= nbytes -> 0 <= offset <= s32 (word32 m (off_size (inode_at d inum)) * UFS_BLOCK_SIZE) ->
  offset mod 4096 + nbytes < 4096 ->
  forall buffer, fs_write size d m inum buffer offset nbytes =
    match write_block_addr size d m (inode_at d inum) (offset / 4096) with
    | Some (block_addr, m) =>
        match memcpy_to size m (block_ptr d block_addr + offset mod 4096) buffer (Z.to_nat nbytes) with
        | Some m => Some (0, m)
        | None => None
        end
    | None => None
    end.
Proof.
  intros Hi Hb Hty Hn Ho Hsame buffer. unfold fs_write. rewrite get_inode_ptr_spec, Hb by done.
  pose proof (inode_in inum Hi). pose proof (s32_range (word32 m (off_size (inode_at d inum)) * UFS_BLOCK_SIZE)) as Hr.
  pose proof Hlay as []. pose proof (Z.mod_pos_bound offset 4096 ltac:(lia)).
  destruct (Z.ltb_spec UFS_BLOCK_SIZE nbytes); [unfold UFS_BLOCK_SIZE in *; lia|].
  destruct (Z.ltb_spec nbytes 0); [lia|]. cbn [orb].
  rewrite ld32_Some by (unfold off_type; lia).
  destruct (Z.eqb_spec (word32 m (off_type (inode_at d inum))) UFS_DIRECTORY); [done|].
  rewrite ld32_Some by (unfold off_size; lia).
  destruct (Z.ltb_spec (s32 (word32 m (off_size (inode_at d inum)) * UFS_BLOCK_SIZE)) offset); [lia|].
  destruct (Z.ltb_spec offset 0); [lia|]. cbn [orb].
  unfold UFS_BLOCK_SIZE. rewrite Z.quot_div_nonneg, Z.rem_mod_nonneg by lia.
  destruct (write_block_addr _ _ _ _ _) as [[a m']|]; [|done].
  by rewrite same_block_quot, Z.eqb_refl by (unfold is_s32 in Hr; lia).
Qed.

Lemma fs_read_same_block m inum buffer offset nbytes :
  inum_ok d inum -> bit m (inode_bitmap_ptr d) inum = true ->
  0 <= nbytes -> 0 <= offset <= s32 (word32 m (off_size (inode_at d inum)) * UFS_BLOCK_SIZE) ->
  offset mod 4096 + nbytes < 4096 -> offset mod 32 = 0 -> nbytes mod 32 = 0 ->
  offset / 4096 < 30 ->
  data_block size d (word32 m (off_direct (inode_at d inum) (offset / 4096))) ->
  let p := 4096 * word32 m (off_direct (inode_at d inum) (offset / 4096)) + offset mod 4096 in
  fs_read size d m inum buffer offset nbytes =
    Some (0, map (fun i => m (p + Z.of_nat i)) (seq 0 (Z.to_nat nbytes)) ++ drop (Z.to_nat nbytes) buffer).
Proof.
  intros Hi Hb Hn Ho Hsame Ha1 Ha2 Hblk [Hd1 Hd2] p. unfold fs_read.
  pose proof (s32_range (word32 m (off_size (inode_at d inum)) * UFS_BLOCK_SIZE)) as Hr.
  rewrite get_inode_ptr_spec, Hb by done.
  pose proof (inode_in inum Hi). pose proof Hlay as []. pose proof (Z.mod_pos_bound offset 4096 ltac:(lia)).
  pose proof (Z.div_pos offset 4096 ltac:(lia) ltac:(lia)).
  destruct (Z.ltb_spec UFS_BLOCK_SIZE nbytes); [unfold UFS_BLOCK_SIZE in *; lia|].
  destruct (Z.ltb_spec nbytes 0); [lia|]. cbn [orb].
  rewrite ld32_Some by (unfold off_size; lia).
  destruct (Z.ltb_spec (s32 (word32 m (off_size (inode_at d inum)) * UFS_BLOCK_SIZE)) offset); [lia|].
  destruct (Z.ltb_spec offset 0); [lia|]. cbn [orb].
  unfold UFS_BLOCK_SIZE, SIZEOF_DIRENT. rewrite Z.quot_div_nonneg, !Z.rem_mod_nonneg by lia.
  rewrite Ha1, Ha2. cbn [Z.eqb negb orb].
  rewrite ld32_Some by (unfold off_direct; lia).
  rewrite same_block_quot, Z.eqb_refl by (unfold is_s32 in Hr; lia). unfold read_into, block_ptr, UFS_BLOCK_SIZE. rewrite lay_super0. cbn [Z.add].
  fold p. rewrite memcpy_from_spec by (subst p; lia). by rewrite length_map, length_seq.
Qed.
End dirs.

End DfsSpec.
