(* ===== verification/DfsMkfs.v ===== *)
(** * The image builder of [p4/Distributed-File-System]

    [mkfs.c]'s [main] after option parsing: the layout it computes, the
    blocks it writes with [pwrite] and the root directory.  The inode table
    and the root directory are written from stack buffers the program fills
    only partly: their other bytes are the parameters [junk_itable] and
    [junk_parent]. *)

From S2P Require Import Prelude DfsImage Dfs DfsSpec.
Import Dfs DfsSpec.
Local Open Scope Z_scope.
Local Open Scope xv6_scope.

Module DfsMkfs.

Record super_t := {
  s_inode_bitmap_addr : Z; s_inode_bitmap_len : Z;
  s_data_bitmap_addr : Z; s_data_bitmap_len : Z;
  s_inode_region_addr : Z; s_inode_region_len : Z;
  s_data_region_addr : Z; s_data_region_len : Z;
  s_num_inodes : Z; s_num_data : Z
}.

(** [len = n / d; if (n % d != 0) len++]. *)
Definition div_up (n d : Z) : Z :=
  let len := Z.quot n d in
  if negb (Z.rem n d =? 0) then len + 1 else len.

Definition mkfs_super (num_inodes num_data : Z) : super_t :=
  let bits_per_block := 8 * UFS_BLOCK_SIZE in
  let inode_bitmap_addr := 1 in
  let inode_bitmap_len := div_up num_inodes bits_per_block in
  let data_bitmap_addr := inode_bitmap_addr + inode_bitmap_len in
  let data_bitmap_len := div_up num_data bits_per_block in
  let inode_region_addr := data_bitmap_addr + data_bitmap_len in
  let total_inode_bytes := s32 (num_inodes * SIZEOF_INODE) in
  let inode_region_len := div_up total_inode_bytes UFS_BLOCK_SIZE in
  {| s_inode_bitmap_addr := inode_bitmap_addr; s_inode_bitmap_len := inode_bitmap_len;
     s_data_bitmap_addr := data_bitmap_addr; s_data_bitmap_len := data_bitmap_len;
     s_inode_region_addr := inode_region_addr; s_inode_region_len := inode_region_len;
     s_data_region_addr := inode_region_addr + inode_region_len; s_data_region_len := num_data;
     s_num_inodes := num_inodes; s_num_data := num_data |}.

Definition total_blocks (s : super_t) : Z :=
  1 + s_inode_bitmap_len s + s_data_bitmap_len s + s_inode_region_len s + s_data_region_len s.

(** [pwrite(fd, buf, n, off)] on the file's bytes. *)
Definition pwrite (file buf : bytes) (n off : Z) : bytes :=
  fun x => if (off <=? x) && (x <? off + n) then buf (x - off) else file x.

(** The buffers [mkfs] writes. *)
Definition super_buf (s : super_t) : bytes :=
  put32 (put32 (put32 (put32 (put32 (put32 (put32 (put32 (put32 (put32 (fun _ => 0)
    0 (s_inode_bitmap_addr s)) 4 (s_inode_bitmap_len s))
    8 (s_data_bitmap_addr s)) 12 (s_data_bitmap_len s))
    16 (s_inode_region_addr s)) 20 (s_inode_region_len s))
    24 (s_data_region_addr s)) 28 (s_data_region_len s))
    32 (s_num_inodes s)) 36 (s_num_data s).

Definition empty_buffer : bytes := fun _ => 0.

Definition bitmap_buf : bytes :=
  put32 (fold_left (fun b i => put32 b (4 * i) 0) (seqZ 0 1024) empty_buffer)
    0 (Z.shiftl 1 31).

Definition itable_buf (junk_itable : bytes) (s : super_t) : bytes :=
  let b := put32 junk_itable (off_type 0) UFS_DIRECTORY in
  let b := put32 b (off_size 0) (2 * SIZEOF_DIRENT) in
  let b := put32 b (off_direct 0 0) (s_data_region_addr s) in
  fold_left (fun b i => put32 b (off_direct 0 i) (-1)) (seqZ 1 (DIRECT_PTRS - 1)) b.

Definition parent_buf (junk_parent : bytes) : bytes :=
  let b := put8 (put8 junk_parent (off_name 0 0) 46) (off_name 0 0 + 1) 0 in
  let b := put32 b (off_inum 0 0) 0 in
  let b := put8 (put8 (put8 b (off_name 0 1) 46) (off_name 0 1 + 1) 46) (off_name 0 1 + 2) 0 in
  let b := put32 b (off_inum 0 1) 0 in
  fold_left (fun b i => put32 b (off_inum 0 i) (-1)) (seqZ 2 126) b.

(** The file [mkfs] leaves and its size; [None] when an [assert] fails. *)
Definition mkfs (junk_itable junk_parent : bytes) (num_inodes num_data : Z) : option (bytes * Z) :=
  if negb (32 <=? num_inodes) then None else
  if negb (32 <=? num_data) then None else
  let s := mkfs_super num_inodes num_data in
  let f := pwrite (fun _ => 0) (super_buf s) 40 0 in
  let f := fold_left (fun f i => pwrite f empty_buffer UFS_BLOCK_SIZE (i * UFS_BLOCK_SIZE))
             (seqZ 1 (total_blocks s - 1)) f in
  let f := pwrite f bitmap_buf UFS_BLOCK_SIZE (s_inode_bitmap_addr s * UFS_BLOCK_SIZE) in
  let f := pwrite f bitmap_buf UFS_BLOCK_SIZE (s_data_bitmap_addr s * UFS_BLOCK_SIZE) in
  let f := pwrite f (itable_buf junk_itable s) UFS_BLOCK_SIZE (s_inode_region_addr s * UFS_BLOCK_SIZE) in
  let f := pwrite f (parent_buf junk_parent) UFS_BLOCK_SIZE (s_data_region_addr s * UFS_BLOCK_SIZE) in
  Some (f, total_blocks s * UFS_BLOCK_SIZE).

(** ** The image is well formed *)

Lemma pwrite_in file buf n off x : off <= x < off + n -> pwrite file buf n off x = buf (x - off).
Proof.
  intros. unfold pwrite. destruct (Z.leb_spec off x); [|lia].
  destruct (Z.ltb_spec x (off + n)); [done|lia].
Qed.

Lemma pwrite_out file buf n off x : x < off \/ off + n <= x -> pwrite file buf n off x = file x.
Proof.
  intros. unfold pwrite. destruct (Z.leb_spec off x); [|done].
  destruct (Z.ltb_spec x (off + n)); [lia|done].
Qed.

Lemma word32_pwrite_in file buf n off a :
  off <= a -> a + 4 <= off + n -> word32 (pwrite file buf n off) a = word32 buf (a - off).
Proof.
  intros. unfold word32. rewrite !pwrite_in by lia. do 2 f_equal; [|f_equal; f_equal; lia].
  f_equal; [|do 2 f_equal; lia]. do 3 f_equal. lia.
Qed.

Lemma word32_pwrite_out file buf n off a :
  a + 4 <= off \/ off + n <= a -> word32 (pwrite file buf n off) a = word32 file a.
Proof. intros. apply word32_ext. intros. apply pwrite_out. lia. Qed.

Lemma div_up_spec n k : 0 < n -> 0 < k ->
  0 < div_up n k /\ (div_up n k - 1) * k < n <= div_up n k * k.
Proof.
  intros Hn Hk. unfold div_up. rewrite Z.quot_div_nonneg, Z.rem_mod_nonneg by lia.
  pose proof (Z.div_mod n k ltac:(lia)). pose proof (Z.mod_pos_bound n k Hk).
  pose proof (Z.div_pos n k ltac:(lia) Hk).
  destruct (Z.eqb_spec (n mod k) 0); cbn [negb]; nia.
Qed.

(** The stack of [put32]s a buffer is built with. *)
Lemma fold_put32_at (g : Z -> Z) (v : Z) l b a :
  (forall i, i ∈ l -> a + 4 <= g i \/ g i + 4 <= a) ->
  word32 (fold_left (fun b i => put32 b (g i) v) l b) a = word32 b a.
Proof.
  revert b. induction l as [|i l IH]; intros b H; [done|]. simpl. rewrite IH.
  - apply word32_put32_ne. apply H. left.
  - intros j Hj. apply H. by right.
Qed.

Lemma fold_put32_byte (g : Z -> Z) (v : Z) l b x :
  (forall i, i ∈ l -> x < g i \/ g i + 4 <= x) ->
  fold_left (fun b i => put32 b (g i) v) l b x = b x.
Proof.
  revert b. induction l as [|i l IH]; intros b H; [done|]. simpl. rewrite IH.
  - apply put32_out. apply H. left.
  - intros j Hj. apply H. by right.
Qed.

Lemma fold_put32_in (g : Z -> Z) (v : Z) l b i :
  i ∈ l -> (forall j, g j = g i \/ g j + 4 <= g i \/ g i + 4 <= g j) ->
  word32 (fold_left (fun b i => put32 b (g i) v) l b) (g i) = s32 v.
Proof.
  intros Hi Hg.
  assert (Hgen : forall l b, word32 b (g i) = s32 v \/ i ∈ l ->
    word32 (fold_left (fun b i => put32 b (g i) v) l b) (g i) = s32 v).
  { clear l b Hi. induction l as [|k l IH]; intros b Hb; simpl.
    { destruct Hb as [|Hb]; [done|by apply elem_of_nil in Hb]. }
    apply IH. destruct (Hg k) as [Heq|Hne].
    - left. rewrite Heq. apply word32_put32_eq.
    - destruct Hb as [Hb|[->|Hb]%elem_of_cons]; [|lia|by right].
      left. by rewrite word32_put32_ne by lia. }
  apply Hgen. by right.
Qed.

Section image.
Context (junk_itable junk_parent : bytes) (num_inodes num_data : Z).
Context (Hni : 32 <= num_inodes) (Hnd : 32 <= num_data).
Let s := mkfs_super num_inodes num_data.
Let size := total_blocks s * UFS_BLOCK_SIZE.
Context (Hsize : size < 2 ^ 31) (Hni_max : num_inodes * SIZEOF_INODE < 2 ^ 31).

Lemma mkfs_super_spec :
  s_inode_bitmap_addr s = 1 /\ 0 < s_inode_bitmap_len s /\
  s_data_bitmap_addr s = 1 + s_inode_bitmap_len s /\ 0 < s_data_bitmap_len s /\
  s_inode_region_addr s = s_data_bitmap_addr s + s_data_bitmap_len s /\
  num_inodes <= 32 * s_inode_region_len s < num_inodes + 32 /\
  s_inode_region_len s <= 1024 * s_inode_bitmap_len s /\
  s_data_region_addr s = s_inode_region_addr s + s_inode_region_len s /\
  s_data_region_len s = num_data /\ total_blocks s = s_data_region_addr s + num_data.
Proof.
  pose proof (div_up_spec num_inodes 32768 ltac:(lia) ltac:(lia)).
  pose proof (div_up_spec num_data 32768 ltac:(lia) ltac:(lia)).
  unfold SIZEOF_INODE in Hni_max.
  pose proof (div_up_spec (num_inodes * 128) 4096 ltac:(lia) ltac:(lia)).
  unfold s, mkfs_super, total_blocks, UFS_BLOCK_SIZE, SIZEOF_INODE; cbn -[div_up s32].
  rewrite s32_small by (unfold is_s32; lia). change (8 * 4096) with 32768. repeat split; lia.
Qed.

(** The file before the region writes: the super block, zeros elsewhere. *)
Lemma zero_blocks f l x :
  (forall y, 40 <= y -> f y = 0) -> (forall i, i ∈ l -> 1 <= i) ->
  fold_left (fun f i => pwrite f empty_buffer UFS_BLOCK_SIZE (i * UFS_BLOCK_SIZE)) l f x = f x.
Proof.
  revert f. induction l as [|i l IH]; intros f Hf Hl; [done|]. simpl.
  pose proof (Hl i ltac:(left)). rewrite IH; [| |intros j Hj; apply Hl; by right].
  - unfold pwrite. destruct (andb _ _) eqn:Hb; [|done]. apply andb_true_iff in Hb as [Hb _].
    apply Z.leb_le in Hb. unfold UFS_BLOCK_SIZE in Hb. rewrite Hf by lia. done.
  - intros y Hy. unfold pwrite. destruct (andb _ _); [done|by apply Hf].
Qed.

Definition super_file : bytes :=
  fold_left (fun f i => pwrite f empty_buffer UFS_BLOCK_SIZE (i * UFS_BLOCK_SIZE))
             (seqZ 1 (total_blocks s - 1)) (pwrite (fun _ => 0) (super_buf s) 40 0).

Definition image : bytes :=
  pwrite (pwrite (pwrite (pwrite super_file
    bitmap_buf UFS_BLOCK_SIZE (s_inode_bitmap_addr s * UFS_BLOCK_SIZE))
    bitmap_buf UFS_BLOCK_SIZE (s_data_bitmap_addr s * UFS_BLOCK_SIZE))
    (itable_buf junk_itable s) UFS_BLOCK_SIZE (s_inode_region_addr s * UFS_BLOCK_SIZE))
    (parent_buf junk_parent) UFS_BLOCK_SIZE (s_data_region_addr s * UFS_BLOCK_SIZE).

Lemma mkfs_image : mkfs junk_itable junk_parent num_inodes num_data = Some (image, size).
Proof.
  unfold mkfs. destruct (Z.leb_spec 32 num_inodes); [|lia]. destruct (Z.leb_spec 32 num_data); [|lia].
  done.
Qed.

Definition mkfs_disk : disk_t := {|
  super_ptr := 0;
  inode_bitmap_ptr := 4096 * s_inode_bitmap_addr s; inode_bitmap_len := s_inode_bitmap_len s;
  data_bitmap_ptr := 4096 * s_data_bitmap_addr s; data_bitmap_len := s_data_bitmap_len s;
  inode_region_ptr := 4096 * s_inode_region_addr s; inode_region_len := s_inode_region_len s;
  data_region_ptr := 4096 * s_data_region_addr s; data_region_len := s_data_region_len s;
  disk_len := total_blocks s
|}.

Lemma image_super a v : 0 <= a -> a + 4 <= 40 -> word32 (super_buf s) a = s32 v ->
  is_s32 v -> word32 image a = v.
Proof.
  pose proof mkfs_super_spec as H. intros Ha Ha' Hw Hv. unfold image, UFS_BLOCK_SIZE.
  rewrite !word32_pwrite_out by lia. unfold super_file.
  rewrite (word32_ext _ (pwrite (fun _ => 0) (super_buf s) 40 0)).
  - rewrite word32_pwrite_in by lia. rewrite Z.sub_0_r, Hw. by apply s32_small.
  - intros k Hk. apply zero_blocks.
    + intros y Hy. by apply pwrite_out; lia.
    + intros i Hi%elem_of_seqZ. lia.
Qed.

Lemma mkfs_init : init_disk size image = Some mkfs_disk.
Proof.
  pose proof mkfs_super_spec as H. unfold size, UFS_BLOCK_SIZE in Hsize. unfold init_disk.
  assert (Hld : forall a v, 0 <= a -> a + 4 <= 40 -> word32 (super_buf s) a = s32 v ->
    is_s32 v -> ld32 size image a = Some v).
  { intros a v Ha Ha' Hw Hv. unfold size, UFS_BLOCK_SIZE.
    rewrite ld32_Some by lia. by rewrite (image_super a v). }
  unfold super_buf in Hld.
  do 8 (erewrite Hld; [|lia|lia|by rewrite ?word32_put32_ne, word32_put32_eq by lia|unfold is_s32; lia]).
  unfold mkfs_disk, UFS_BLOCK_SIZE. do 2 f_equal. unfold size, UFS_BLOCK_SIZE. apply Z.quot_mul. lia.
Qed.

Lemma mkfs_layout : layout size mkfs_disk.
Proof.
  pose proof mkfs_super_spec as H. pose proof Hsize as Hs. unfold size, UFS_BLOCK_SIZE in *.
  split; cbn [super_ptr inode_bitmap_ptr inode_bitmap_len data_bitmap_ptr data_bitmap_len
              inode_region_ptr inode_region_len data_region_ptr mkfs_disk]; lia.
Qed.

Lemma mkfs_inums inum : 0 <= inum < num_inodes -> inum_ok mkfs_disk inum.
Proof. pose proof mkfs_super_spec as H. unfold inum_ok, mkfs_disk. cbn [inode_region_len]. lia. Qed.

(** Bit 0 of both bitmaps is set, every other bit is clear. *)
Lemma bitmap_buf_word a : 0 <= a < 1024 ->
  word32 bitmap_buf (4 * a) = if a =? 0 then s32 (2 ^ 31) else 0.
Proof.
  intros Ha. unfold bitmap_buf. destruct (Z.eqb_spec a 0) as [->|Hne].
  - rewrite Z.mul_0_r, word32_put32_eq. by rewrite Z.shiftl_1_l.
  - rewrite word32_put32_ne by lia.
    rewrite (fold_put32_in (fun i => 4 * i) 0); [done|apply elem_of_seqZ; lia|lia].
Qed.

Lemma bitmap_buf_bit f lo i :
  (forall a, 0 <= a < 1024 -> word32 f (lo + 4 * a) = word32 bitmap_buf (4 * a)) ->
  0 <= i < 32768 -> bit f lo i = bool_decide (i = 0).
Proof.
  intros Hf Hi. unfold bit. assert (0 <= i / 32 < 1024) by (split; [apply Z.div_pos|apply Z.div_lt_upper_bound]; lia).
  pose proof (shift_bounds i ltac:(lia)). pose proof (Z.div_mod i 32 ltac:(lia)).
  rewrite Hf, bitmap_buf_word by lia. destruct (Z.eqb_spec (i / 32) 0) as [Hz|Hz].
  - rewrite testbit_s32, Z.pow2_bits_eqb by lia.
    case_bool_decide; [apply Z.eqb_eq|apply Z.eqb_neq]; lia.
  - rewrite Z.testbit_0_l. case_bool_decide; [lia|done].
Qed.

Lemma image_inode_bit i : 0 <= i < 32768 ->
  bit image (inode_bitmap_ptr mkfs_disk) i = bool_decide (i = 0).
Proof.
  pose proof mkfs_super_spec as H. intros Hi. apply bitmap_buf_bit; [|done]. intros a Ha.
  unfold image, UFS_BLOCK_SIZE, mkfs_disk. cbn [inode_bitmap_ptr].
  rewrite !(word32_pwrite_out (pwrite _ _ _ _)) by lia. rewrite word32_pwrite_in by lia.
  f_equal. lia.
Qed.

Lemma image_data_bit i : 0 <= i < 32768 ->
  bit image (data_bitmap_ptr mkfs_disk) i = bool_decide (i = 0).
Proof.
  pose proof mkfs_super_spec as H. intros Hi. apply bitmap_buf_bit; [|done]. intros a Ha.
  unfold image, UFS_BLOCK_SIZE, mkfs_disk. cbn [data_bitmap_ptr].
  rewrite !(word32_pwrite_out (pwrite (pwrite _ _ _ _) _ _ _)) by lia. rewrite word32_pwrite_in by lia.
  f_equal. lia.
Qed.

Lemma root_inode_word a : 0 <= a -> a + 4 <= 128 ->
  word32 image (inode_at mkfs_disk 0 + a) = word32 (itable_buf junk_itable s) a.
Proof.
  pose proof mkfs_super_spec as H. intros. unfold image, UFS_BLOCK_SIZE, inode_at, mkfs_disk, SIZEOF_INODE.
  cbn [inode_region_ptr]. rewrite word32_pwrite_out, word32_pwrite_in by lia. f_equal. lia.
Qed.

Lemma root_direct k : 0 <= k < 30 ->
  word32 image (off_direct (inode_at mkfs_disk 0) k) = if k =? 0 then s_data_region_addr s else -1.
Proof.
  pose proof mkfs_super_spec as H. unfold size, UFS_BLOCK_SIZE in Hsize. intros Hk. unfold off_direct.
  replace (inode_at mkfs_disk 0 + 8 + 4 * k) with (inode_at mkfs_disk 0 + (8 + 4 * k)) by lia.
  rewrite root_inode_word by lia. unfold itable_buf, off_type, off_size, SIZEOF_DIRENT, DIRECT_PTRS.
  destruct (Z.eqb_spec k 0) as [->|Hne].
  - rewrite (fold_put32_at (off_direct 0)); [|intros i [? _]%elem_of_seqZ; unfold off_direct; lia].
    unfold off_direct. rewrite word32_put32_eq. apply s32_small. unfold is_s32. lia.
  - replace (8 + 4 * k) with (off_direct 0 k) by (unfold off_direct; lia).
    rewrite (fold_put32_in (off_direct 0)); [done|apply elem_of_seqZ; lia|].
    intros j. unfold off_direct. lia.
Qed.

Lemma root_type_size :
  word32 image (off_type (inode_at mkfs_disk 0)) = UFS_DIRECTORY /\
  word32 image (off_size (inode_at mkfs_disk 0)) = 64.
Proof.
  unfold off_type, off_size. rewrite <- (Z.add_0_r (inode_at mkfs_disk 0)) at 1.
  rewrite !root_inode_word by lia. unfold itable_buf.
  rewrite !(fold_put32_at (off_direct 0)); [|intros i [? _]%elem_of_seqZ; unfold off_direct; lia..].
  unfold off_type, off_size, off_direct, SIZEOF_DIRENT. split.
  - rewrite !word32_put32_ne by lia. by rewrite word32_put32_eq.
  - rewrite word32_put32_ne by lia. by rewrite word32_put32_eq.
Qed.

Lemma mkfs_root_dir : dir_ok size mkfs_disk image 0 1.
Proof.
  pose proof mkfs_super_spec as H.
  split; [apply mkfs_inums; lia|by rewrite image_inode_bit|lia| | |].
  - intros k Hk. rewrite root_direct by lia. destruct (Z.eqb_spec k 0); [|lia].
    unfold data_block, mkfs_disk, size, UFS_BLOCK_SIZE. cbn [data_region_ptr]. lia.
  - lia.
  - intros _. by rewrite root_direct.
Qed.

(** ** The root directory *)

Lemma root_block_byte x : 0 <= x < 4096 ->
  image (slot_block mkfs_disk image 0 0 + x) = parent_buf junk_parent x.
Proof.
  pose proof mkfs_super_spec as H. intros Hx. unfold slot_block, block_ptr. rewrite root_direct by lia.
  unfold image, UFS_BLOCK_SIZE. cbn [super_ptr mkfs_disk Z.eqb]. rewrite pwrite_in by lia. f_equal. lia.
Qed.

Lemma root_block_word a : 0 <= a -> a + 4 <= 4096 ->
  word32 image (slot_block mkfs_disk image 0 0 + a) = word32 (parent_buf junk_parent) a.
Proof.
  intros. rewrite <- (Z.add_0_l a) at 2. unfold word32.
  rewrite <- !Z.add_assoc, !root_block_byte by lia. by rewrite Z.add_0_l.
Qed.

Lemma parent_inum j : 0 <= j < 128 ->
  word32 (parent_buf junk_parent) (off_inum 0 j) = if j <? 2 then 0 else -1.
Proof.
  intros Hj. unfold parent_buf.
  destruct (Z.ltb_spec j 2).
  - rewrite (fold_put32_at (off_inum 0)); [|intros i [? _]%elem_of_seqZ; unfold off_inum, SIZEOF_DIRENT; lia].
    destruct (decide (j = 1)) as [->|]; [by rewrite word32_put32_eq|].
    replace j with 0 by lia.
    rewrite word32_put32_ne by (unfold off_inum, SIZEOF_DIRENT; lia).
    rewrite (word32_ext _ (put32 (put8 (put8 junk_parent (off_name 0 0) 46) (off_name 0 0 + 1) 0)
                             (off_inum 0 0) 0)); [by rewrite word32_put32_eq|]. intros k Hk.
    by rewrite !put8_out by (unfold off_inum, off_name, SIZEOF_DIRENT; lia).
  - rewrite (fold_put32_in (off_inum 0)); [done|apply elem_of_seqZ; lia|].
    intros i. unfold off_inum, SIZEOF_DIRENT. lia.
Qed.

Lemma parent_byte x : 0 <= x < 64 -> (x < 28 \/ 32 <= x < 60) ->
  parent_buf junk_parent x =
    if x =? 0 then 46 else if x =? 1 then 0 else if x =? 32 then 46 else if x =? 33 then 46
    else if x =? 34 then 0 else junk_parent x.
Proof.
  intros Hx Hx'. unfold parent_buf.
  rewrite (fold_put32_byte (off_inum 0)); [|intros i [? _]%elem_of_seqZ; unfold off_inum, SIZEOF_DIRENT; lia].
  rewrite put32_out by (unfold off_inum, SIZEOF_DIRENT; lia).
  unfold off_name, SIZEOF_DIRENT. unfold put8.
  change (0 + 32 * 1 + 2) with 34. change (0 + 32 * 1 + 1) with 33. change (0 + 32 * 1) with 32.
  change (0 + 32 * 0 + 1) with 1. change (0 + 32 * 0) with 0.
  destruct (Z.eqb_spec x 34); [subst; done|]. destruct (Z.eqb_spec x 33); [subst; done|].
  destruct (Z.eqb_spec x 32); [subst; done|].
  rewrite put32_out by (unfold off_inum, SIZEOF_DIRENT; lia).
  destruct (Z.eqb_spec x 1); [subst; done|]. by destruct (Z.eqb_spec x 0).
Qed.

Definition root_name (j : Z) : list Z := if j =? 0 then DOT else DOTDOT.

Lemma root_cstr j : 0 <= j < 2 ->
  cstr_at image (off_name (slot_block mkfs_disk image 0 0) j) (root_name j).
Proof.
  intros Hj. unfold off_name, SIZEOF_DIRENT, cstr_at, root_name.
  assert (j = 0 \/ j = 1) as [->| ->] by lia; cbn [Z.eqb DOT DOTDOT Datatypes.length].
  - split; [intros [|[|]] c [= <-]|]; rewrite <- ?Z.add_assoc, root_block_byte, parent_byte by lia; done.
  - split; [intros [|[|[|]]] c [= <-]|]; rewrite <- ?Z.add_assoc, root_block_byte, parent_byte by lia; done.
Qed.

Lemma root_block_in : block_in size (slot_block mkfs_disk image 0 0).
Proof.
  destruct (slot_block_in size mkfs_disk mkfs_layout image 0 1 0 mkfs_root_dir) as [_ H]; [lia|done].
Qed.

Lemma root_word j : 0 <= j < 128 ->
  word32 image (off_inum (slot_block mkfs_disk image 0 0) j) = if j <? 2 then 0 else -1.
Proof.
  intros Hj. rewrite <- (parent_inum j Hj). unfold off_inum, SIZEOF_DIRENT.
  rewrite <- !Z.add_assoc, root_block_word by lia. done.
Qed.

Lemma root_occ j name : 0 <= j < 128 -> good_name name ->
  occ_slot size mkfs_disk image 0 name (0, j) = bool_decide (j < 2 /\ name = root_name j).
Proof.
  intros Hj Hn. unfold occ_slot. cbn [fst snd]. pose proof (root_word j Hj) as Hw.
  destruct (Z.ltb_spec j 2).
  - rewrite (occb_new size image _ j (root_name j) 0); [|apply root_block_in|done|done|done| | |done].
    + apply bool_decide_ext. intuition.
    + apply root_cstr. lia.
    + unfold root_name. destruct (j =? 0); split; [cbn; lia|by repeat constructor|cbn; lia|by repeat constructor].
  - unfold occb. rewrite Hw. cbn. symmetry. apply bool_decide_false. lia.
Qed.

Lemma root_lookup name : good_name name ->
  fs_lookup size mkfs_disk image 0 name =
    Some (if bool_decide (name = DOT \/ name = DOTDOT) then 0 else -1).
Proof.
  intros Hn. rewrite (fs_lookup_find size _ mkfs_layout image 0 1) by (apply mkfs_root_dir || apply Hn).
  destruct (List.find _ _) as [[i j]|] eqn:Hf; f_equal.
  - apply find_Some_iff in Hf as [[Hi Hj]%elem_of_slots Hocc]. assert (i = 0) as -> by lia.
    rewrite root_occ in Hocc by done. apply bool_decide_eq_true in Hocc as [Hj2 ->].
    unfold slot_result. cbn [fst snd]. rewrite root_word by done.
    destruct (Z.ltb_spec j 2); [|lia]. rewrite bool_decide_true; [done|].
    unfold root_name. destruct (j =? 0); auto.
  - rewrite bool_decide_false; [done|]. pose proof (find_None_iff _ _ Hf) as Hall.
    intros [->| ->].
    + specialize (Hall (0, 0)). rewrite root_occ in Hall by done.
      rewrite bool_decide_true in Hall by done. by discriminate Hall; apply elem_of_slots.
    + specialize (Hall (0, 1)). rewrite root_occ in Hall by done.
      rewrite bool_decide_true in Hall by done. by discriminate Hall; apply elem_of_slots.
Qed.

Lemma first_free_inode :
  find_free_block size image (inode_bitmap_ptr mkfs_disk) (inode_bitmap_len mkfs_disk) = Some 1.
Proof.
  destruct (find_free_block_first size image _ _ (bitmap_ok_ib size _ mkfs_layout)) as (r & -> & Hr).
  f_equal. pose proof mkfs_super_spec as H. cbn [inode_bitmap_len mkfs_disk] in Hr.
  destruct Hr as [[-> Hall]|(Hr & Hb & Hall)].
  - specialize (Hall 1 ltac:(lia)). by rewrite image_inode_bit in Hall by lia.
  - destruct (decide (r = 0)) as [->|]; [by rewrite image_inode_bit in Hb by lia|].
    destruct (decide (r = 1)); [done|]. specialize (Hall 1 ltac:(lia)).
    by rewrite image_inode_bit in Hall by lia.
Qed.
End image.
End DfsMkfs.
