(* ===== verification/DfsServer.v ===== *)
(** * The server's request loop and the client library

    [server.c]: one turn of the loop as a function from the image and a
    message to the reply; [libmfs.c]: the client stubs, over an exchange with
    the server.  The sockets ([udp.c]) are the parameter [exchange]: a request
    sent and the reply received, or [None] when [UDP_Write] or [UDP_Read]
    reports an error.  [junk] is the [malloc]ed message before it is filled
    in. *)

From S2P Require Import Prelude DfsImage Dfs.
Import Dfs.
Local Open Scope Z_scope.
Local Open Scope xv6_scope.

Module DfsServer.

Definition MFS_INIT : Z := 1.
Definition MFS_LOOKUP : Z := 2.
Definition MFS_STAT : Z := 3.
Definition MFS_WRITE : Z := 4.
Definition MFS_READ : Z := 5.
Definition MFS_CREAT : Z := 6.
Definition MFS_UNLINK : Z := 7.
Definition MFS_SHUTDOWN : Z := 8.

(** [message_t]; [msg_name] is the string the bytes from [name] on hold. *)
Record message_t := {
  type : Z;
  inum : Z;
  offset : Z;
  nbytes : Z;
  ftype : Z;
  result : Z;
  msg_name : list Z;
  buffer : list Z;
  m : MFS_Stat_t
}.

Definition set_result (r : Z) (msg : message_t) : message_t :=
  {| type := type msg; inum := inum msg; offset := offset msg; nbytes := nbytes msg;
     ftype := ftype msg; result := r; msg_name := msg_name msg; buffer := buffer msg; m := m msg |}.

Definition set_m (st : MFS_Stat_t) (msg : message_t) : message_t :=
  {| type := type msg; inum := inum msg; offset := offset msg; nbytes := nbytes msg;
     ftype := ftype msg; result := result msg; msg_name := msg_name msg; buffer := buffer msg; m := st |}.

Definition set_buffer (b : list Z) (msg : message_t) : message_t :=
  {| type := type msg; inum := inum msg; offset := offset msg; nbytes := nbytes msg;
     ftype := ftype msg; result := result msg; msg_name := msg_name msg; buffer := b; m := m msg |}.

(** The [switch] of the server: the image afterwards, the reply and whether
    the server keeps running. *)
Definition serve (size : Z) (disk : disk_t) (img : bytes) (msg : message_t) :
    option (bytes * message_t * bool) :=
  if type msg =? MFS_INIT then Some (img, msg, true)
  else if type msg =? MFS_LOOKUP then
    let? r := fs_lookup size disk img (inum msg) (msg_name msg) in
    Some (img, set_result r msg, true)
  else if type msg =? MFS_STAT then
    let? (r, st) := fs_stat size disk img (inum msg) (m msg) in
    Some (img, set_result r (set_m st msg), true)
  else if type msg =? MFS_WRITE then
    let? (r, img) := fs_write size disk img (inum msg) (buffer msg) (offset msg) (nbytes msg) in
    Some (img, set_result r msg, true)
  else if type msg =? MFS_READ then
    let? (r, b) := fs_read size disk img (inum msg) (buffer msg) (offset msg) (nbytes msg) in
    Some (img, set_result r (set_buffer b msg), true)
  else if type msg =? MFS_CREAT then
    let? (r, img) := fs_creat size disk img (inum msg) (type msg) (msg_name msg) in
    Some (img, set_result r msg, true)
  else if type msg =? MFS_UNLINK then
    let? (r, img) := fs_unlink size disk img (inum msg) (msg_name msg) in
    Some (img, set_result r msg, true)
  else if type msg =? MFS_SHUTDOWN then Some (img, set_result 0 msg, false)
  else Some (img, msg, true).

(** ** libmfs.c *)

Section client.
Context (junk : message_t).
(** The world the exchange runs in (for instance the server's image). *)
Context {W : Type} (exchange : W -> message_t -> W * option message_t).

Definition with_request (ty inum_ offset_ nbytes_ ftype_ : Z) (name_ buffer_ : list Z) : message_t :=
  {| type := ty; inum := inum_; offset := offset_; nbytes := nbytes_; ftype := ftype_;
     result := result junk; msg_name := name_; buffer := buffer_; m := m junk |}.

(** [memcpy(dst, src, n)] into a buffer. *)
Definition buf_copy (dst src : list Z) (n : Z) : list Z :=
  take (Z.to_nat n) src ++ drop (Z.to_nat n) dst.

Definition MFS_Lookup (w : W) (pinum : Z) (name : list Z) : W * Z :=
  let msg := with_request MFS_LOOKUP pinum (offset junk) (nbytes junk) (ftype junk) name (buffer junk) in
  match exchange w msg with
  | (w, None) => (w, -1)
  | (w, Some r) => (w, result r)
  end.

Definition MFS_Stat (w : W) (inum_ : Z) (st : MFS_Stat_t) : W * (Z * MFS_Stat_t) :=
  let msg := with_request MFS_STAT inum_ (offset junk) (nbytes junk) (ftype junk)
               (msg_name junk) (buffer junk) in
  match exchange w msg with
  | (w, None) => (w, (-1, st))
  | (w, Some r) => (w, (result r, m r))
  end.

(** [buffer == NULL] is [None]. *)
Definition MFS_Write (w : W) (inum_ : Z) (buf : option (list Z)) (offset_ nbytes_ : Z) : W * Z :=
  match buf with
  | None => (w, -1)
  | Some buf =>
      if (inum_ <? 0) || (nbytes_ <? 0) || (4096 <? nbytes_) || (offset_ <? 0) then (w, -1)
      else
        let msg := with_request MFS_WRITE inum_ offset_ nbytes_ (ftype junk) (msg_name junk)
                     (buf_copy (buffer junk) buf nbytes_) in
        match exchange w msg with
        | (w, None) => (w, -1)
        | (w, Some r) => (w, result r)
        end
  end.

Definition MFS_Read (w : W) (inum_ : Z) (buf : option (list Z)) (offset_ nbytes_ : Z) :
    W * (Z * option (list Z)) :=
  match buf with
  | None => (w, (-1, None))
  | Some buf =>
      if (inum_ <? 0) || (nbytes_ <? 0) || (4096 <? nbytes_) || (offset_ <? 0) then (w, (-1, Some buf))
      else
        let msg := with_request MFS_READ inum_ offset_ nbytes_ (ftype junk) (msg_name junk)
                     (buffer junk) in
        match exchange w msg with
        | (w, None) => (w, (-1, Some buf))
        | (w, Some r) => (w, (result r, Some (buf_copy buf (buffer r) nbytes_)))
        end
  end.

Definition MFS_Creat (w : W) (pinum type_ : Z) (name : list Z) : W * Z :=
  if (pinum <? 0) || (28 <? Z.of_nat (length name)) then (w, -1)
  else
    let msg := with_request MFS_CREAT pinum (offset junk) (nbytes junk) type_ name (buffer junk) in
    match exchange w msg with
    | (w, None) => (w, -1)
    | (w, Some r) => (w, result r)
    end.

Definition MFS_Unlink (w : W) (pinum : Z) (name : list Z) : W * Z :=
  if pinum <? 0 then (w, -1)
  else
    let msg := with_request MFS_UNLINK pinum (offset junk) (nbytes junk) (ftype junk) name (buffer junk) in
    match exchange w msg with
    | (w, None) => (w, -1)
    | (w, Some r) => (w, result r)
    end.

End client.

(** The client's exchange with the server over a network that loses nothing:
    the world is the server's image. *)
Definition local_exchange (size : Z) (disk : disk_t) (w : option bytes) (msg : message_t) :
    option bytes * option message_t :=
  match w with
  | None => (None, None)
  | Some img =>
      match serve size disk img msg with
      | Some (img, reply, _) => (Some img, Some reply)
      | None => (None, None)
      end
  end.

End DfsServer.
