(* ===== verification/DfsThms.v ===== *)
(** * The properties of the distributed file system

    The theorems about [fs.c], [mkfs.c], [server.c] and [libmfs.c], each with
    an instance on the image [mkfs] builds. *)

From S2P Require Import Prelude DfsImage Dfs DfsSpec DfsMkfs DfsServer.
Import Dfs DfsSpec DfsMkfs DfsServer.
Local Open Scope Z_scope.
Local Open Scope xv6_scope.

Module DfsThms.

(** ** Unlinking *)

Section unlink.
Context (size : Z) (d : disk_t) (Hlay : layout size d).

(** Every block the inode names has its bit in the data bitmap. *)
Definition directs_in_bitmap (m : bytes) (ino : Z) : Prop :=
  forall k, 0 <= k < 30 ->
    word32 m (off_direct ino k) = -1 \/
    0 <= s32 (word32 m (off_direct ino k) - word32 m 24) < 32768 * data_bitmap_len d.

Lemma free_directs_spec m0 m ino ks :
  inode_region_ptr d <= ino -> ino + 128 <= data_region_ptr d ->
  (forall k, k ∈ ks -> 0 <= k < 30) -> directs_in_bitmap m0 ino ->
  (forall x, ~ (data_bitmap_ptr d <= x < inode_region_ptr d) -> m x = m0 x) ->
  exists m', free_directs size d m ino ks = Some m' /\
    (forall x, ~ (data_bitmap_ptr d <= x < inode_region_ptr d) -> m' x = m0 x).
Proof.
  intros Hino1 Hino2 Hks Hdir. pose proof Hlay as []. revert m.
  induction ks as [|k ks IH]; intros m Hm; simpl; [by exists m|].
  pose proof (Hks k ltac:(left)) as Hk.
  assert (IH' := IH ltac:(intros k' Hk'; apply Hks; by right)). clear IH.
  rewrite ld32_Some by (unfold off_direct; lia).
  assert (Hw : word32 m (off_direct ino k) = word32 m0 (off_direct ino k)).
  { apply word32_ext. intros b Hb. apply Hm. unfold off_direct. lia. }
  rewrite Hw. destruct (Z.eqb_spec (word32 m0 (off_direct ino k)) (-1)) as [|Hne]; simpl; [by apply IH'|].
  rewrite lay_super0. rewrite ld32_Some by lia. change (0 + 24) with 24.
  rewrite (word32_ext m m0 24) by (intros; apply Hm; lia).
  destruct (Hdir k Hk) as [|Hr]; [done|].
  destruct (flip_bit_spec size m (data_bitmap_ptr d) (s32 (word32 m0 (off_direct ino k) - word32 m0 24)))
    as (m1 & -> & _ & Hout).
  { eapply bitmap_ok_bit; [|exact Hr]. split; lia. }
  apply IH'. intros x Hx. rewrite Hout; [by apply Hm|].
  set (i := s32 _) in *. clearbody i.
  assert (i / 32 < 1024 * data_bitmap_len d) by (apply Z.div_lt_upper_bound; lia).
  pose proof (Z.div_pos i 32). lia.
Qed.

(** The bytes unlinking the slot [s] of [pinum], naming [c], may write. *)
Definition unlink_footprint (ptr j pinum x : Z) : Prop :=
  (inode_bitmap_ptr d <= x < inode_region_ptr d) \/
  (off_inum ptr j <= x < off_inum ptr j + 4) \/
  (off_size (inode_at d pinum) <= x < off_size (inode_at d pinum) + 4).

Record unlink_post (m m' : bytes) (pinum ptr j c : Z) : Prop := {
  up_bits : forall k, inum_ok d k ->
    bit m' (inode_bitmap_ptr d) k = bit m (inode_bitmap_ptr d) k && negb (k =? c);
  up_inum : word32 m' (off_inum ptr j) = -1;
  up_psize : word32 m' (off_size (inode_at d pinum)) =
    s32 (word32 m (off_size (inode_at d pinum)) - 32);
  up_frame : forall x, ~ unlink_footprint ptr j pinum x -> m' x = m x
}.

Lemma fs_unlink_file m pinum n name s c :
  dir_ok size d m pinum n -> (length name <= 27)%nat ->
  List.find (occ_slot size d m pinum name) (slots n) = Some s ->
  c = (slot_result d m pinum s).2 -> inum_ok d c ->
  bit m (inode_bitmap_ptr d) c = true ->
  word32 m (off_type (inode_at d c)) <> UFS_DIRECTORY ->
  directs_in_bitmap m (inode_at d c) ->
  exists m', fs_unlink size d m pinum name = Some (0, m') /\
    unlink_post m m' pinum (slot_block d m pinum s.1) s.2 c.
Proof.
  intros Hd Hlen Hf Hc Hcok Hcbit Hty Hdirs. destruct s as [i j].
  pose proof (find_Some_iff _ _ _ Hf) as [[Hi Hj]%elem_of_slots _].
  destruct (slot_block_in size d Hlay m pinum n i Hd Hi) as [Hdata [Hb0 Hb1]].
  pose proof (inode_in size d Hlay c Hcok) as Hic.
  pose proof (inode_in size d Hlay pinum (dir_inum _ _ _ _ _ Hd)) as Hip.
  pose proof Hlay as []. pose proof (inum_word size d Hlay c Hcok) as Hcw.
  unfold fs_unlink. rewrite (get_inode_ptr_spec size d Hlay) by apply Hd. rewrite (dir_bit _ _ _ _ _ Hd).
  rewrite (find_in_dir_find size d Hlay m pinum n), Hf by done. unfold slot_result in *. cbn [option_map fst snd] in *.
  rewrite <- Hc, (get_inode_ptr_spec size d Hlay), Hcbit by done.
  rewrite ld32_Some by (unfold off_type; lia).
  destruct (Z.eqb_spec (word32 m (off_type (inode_at d c))) UFS_DIRECTORY) as [|_]; [done|]. cbn [negb].
  destruct (free_directs_spec m m (inode_at d c) directs) as (m1 & -> & Hm1); [lia..| |done|done|].
  { by intros k Hk%elem_of_seqZ. }
  destruct (flip_bit_spec size m1 (inode_bitmap_ptr d) c) as (m2 & -> & Hbit & Hm2);
    [by apply (bit_ok_inum size d Hlay)|].
  unfold off_inum, off_size, SIZEOF_DIRENT. rewrite st32_Some, ld32_Some, st32_Some by lia.
  eexists. split; [done|]. rewrite word32_put32_ne by lia.
  assert (Hb : forall k, inum_ok d k -> bit m1 (inode_bitmap_ptr d) k = bit m (inode_bitmap_ptr d) k).
  { intros k Hk. pose proof (inum_word size d Hlay k Hk). apply bit_ext. intros x Hx. apply Hm1. lia. }
  split; unfold off_inum, off_size, SIZEOF_DIRENT.
  - intros k Hk. pose proof (inum_word size d Hlay k Hk).
    rewrite (bit_ext m2) by (intros x Hx; rewrite !put32_out by lia; done).
    rewrite Hbit, !Hb by (done || apply Hk). destruct (Z.eqb_spec k c) as [->|]; cbn [negb].
    + by rewrite Hcbit.
    + by rewrite andb_true_r.
  - rewrite word32_put32_ne by lia. by rewrite word32_put32_eq.
  - rewrite word32_put32_eq, s32_small by apply s32_range. do 2 f_equal.
    apply word32_ext. intros k Hk. rewrite Hm2, Hm1 by lia. done.
  - intros x Hx. unfold unlink_footprint, off_inum, off_size, SIZEOF_DIRENT in Hx.
    rewrite !put32_out, Hm2, Hm1 by lia. done.
Qed.

Lemma unlink_post_direct m m' pinum n i j c k :
  dir_ok size d m pinum n -> (i, j) ∈ slots n ->
  unlink_post m m' pinum (slot_block d m pinum i) j c -> 0 <= k < 30 ->
  word32 m' (off_direct (inode_at d pinum) k) = word32 m (off_direct (inode_at d pinum) k).
Proof.
  intros Hd [Hi Hj]%elem_of_slots Hp Hk. apply word32_ext. intros b Hb.
  apply (up_frame _ _ _ _ _ _ Hp). unfold unlink_footprint.
  destruct (slot_block_in size d Hlay m pinum n i Hd Hi) as [Hdata _].
  pose proof (inode_in size d Hlay pinum (dir_inum _ _ _ _ _ Hd)).
  pose proof Hlay as []. unfold off_inum, off_size, off_direct, SIZEOF_DIRENT in *. lia.
Qed.

Lemma unlink_post_dir m m' pinum n i j c :
  dir_ok size d m pinum n -> (i, j) ∈ slots n -> c <> pinum ->
  unlink_post m m' pinum (slot_block d m pinum i) j c -> dir_ok size d m' pinum n.
Proof.
  intros Hd Hij Hne Hp. pose proof (fun k => unlink_post_direct _ _ _ _ _ _ _ k Hd Hij Hp) as Hk.
  pose proof (dir_n _ _ _ _ _ Hd). split; [apply Hd| |done| | |].
  - rewrite (up_bits _ _ _ _ _ _ Hp), (dir_bit _ _ _ _ _ Hd) by apply Hd.
    destruct (Z.eqb_spec pinum c); [by subst|done].
  - intros k ?. rewrite Hk by lia. by apply Hd.
  - intros k k' ? ?. rewrite !Hk by lia. by apply Hd.
  - intros ?. rewrite Hk by lia. by apply (dir_end _ _ _ _ _ Hd).
Qed.

(** Every slot but the cleared one still reads the same. *)
Lemma unlink_post_slots m m' pinum n i j c s name :
  dir_ok size d m pinum n -> (i, j) ∈ slots n -> s ∈ slots n -> (length name <= 27)%nat ->
  unlink_post m m' pinum (slot_block d m pinum i) j c ->
  occ_slot size d m' pinum name s = occ_slot size d m pinum name s && bool_decide (s <> (i, j)) /\
  (s <> (i, j) -> slot_result d m' pinum s = slot_result d m pinum s).
Proof.
  intros Hd Hij Hs Hlen Hp. pose proof (dir_n _ _ _ _ _ Hd).
  assert (Hblk : slot_block d m' pinum s.1 = slot_block d m pinum s.1).
  { unfold slot_block. f_equal. destruct s as [i' j']. apply elem_of_slots in Hs as [? _].
    eapply unlink_post_direct; [done..|cbn; lia]. }
  destruct (decide (s = (i, j))) as [->|Hne].
  - rewrite bool_decide_false, andb_false_r by naive_solver. split; [|done].
    unfold occ_slot, occb. cbn [fst snd] in *. by rewrite Hblk, (up_inum _ _ _ _ _ _ Hp).
  - rewrite bool_decide_true, andb_true_r by done. split; [|intros _].
    1: edestruct (occ_slot_agree size d m m' pinum s name) as [-> _]; try done.
    2: edestruct (occ_slot_agree size d m m' pinum s name) as [_ ->]; try done.
    all: intros x Hx; apply (up_frame _ _ _ _ _ _ Hp); destruct s as [i' j'];
      pose proof (slots_disjoint size d m pinum n i' j' i j Hd Hs Hij Hne) as Hdj;
      apply elem_of_slots in Hs as [Hi' Hj'];
      destruct (slot_block_in size d Hlay m pinum n i' Hd Hi') as [Hdata _];
      pose proof (inode_in size d Hlay pinum (dir_inum _ _ _ _ _ Hd));
      pose proof Hlay as []; cbn [fst snd] in *;
      unfold unlink_footprint, off_inum, off_name, off_size, SIZEOF_DIRENT in *; lia.
Qed.

Lemma block_empty_in_use m ptr t ts :
  block_in size ptr -> (forall j, j ∈ ts -> 0 <= j < 128) -> t ∈ ts ->
  word32 m (off_inum ptr t) <> -1 -> block_empty size m ptr ts = Some false.
Proof.
  intros [Hb0 Hb1] Hts Hin Hw. induction ts as [|t0 ts IH]; [by apply elem_of_nil in Hin|].
  pose proof (Hts t0 ltac:(left)). simpl. rewrite ld32_Some by (unfold off_inum, SIZEOF_DIRENT; lia).
  destruct (Z.eqb_spec (word32 m (off_inum ptr t0)) (-1)); [|done]. cbn [negb].
  apply elem_of_cons in Hin as [->|Hin]; [done|]. apply IH; [|done]. intros j Hj. apply Hts. by right.
Qed.

Lemma dir_empty_in_use m c nc t :
  dir_ok size d m c nc -> (0 < nc)%nat -> 0 <= t < 128 ->
  word32 m (off_inum (slot_block d m c 0) t) <> -1 ->
  dir_empty size d m (inode_at d c) directs = Some false.
Proof.
  intros Hc Hnc Ht Hent. change directs with (seqZ 0 (30 - 0)). rewrite seqZ_split by lia.
  cbn [dir_empty]. rewrite (ld32_direct size d Hlay) by (apply Hc || lia).
  destruct (Z.eqb_spec (word32 m (off_direct (inode_at d c) 0)) (-1)) as [He|_].
  { destruct (data_block_ne _ _ _ Hlay (dir_data _ _ _ _ _ Hc 0 ltac:(lia)) He). }
  cbn [negb]. fold (slot_block d m c 0).
  destruct (slot_block_in size d Hlay m c nc 0 Hc ltac:(lia)) as [_ Hin].
  rewrite (block_empty_in_use m _ t); [done|done|apply entries_range| |done].
  apply elem_of_seqZ. change (Z.quot UFS_BLOCK_SIZE SIZEOF_DIRENT) with 128. lia.
Qed.

(** An entry spells one name. *)
Lemma occb_inj m ptr j name name' :
  good_name name -> good_name name' ->
  occb size m ptr name j = true -> occb size m ptr name' j = true -> name' = name.
Proof.
  intros [_ Hg] [_ Hg'] [_ H1]%andb_true_iff [_ H2]%andb_true_iff.
  destruct (strcmp size m name (off_name ptr j)) as [c|] eqn:Hc; [|done].
  destruct (strcmp size m name' (off_name ptr j)) as [c'|] eqn:Hc'; [|done].
  apply Z.eqb_eq in H1, H2. eapply cstr_at_inj; [done|done| |].
  - by apply (strcmp_zero _ _ _ _ _ Hg' Hc').
  - by apply (strcmp_zero _ _ _ _ _ Hg Hc).
Qed.
End unlink.

(** ** The properties *)

(** Creating a regular file in a well-formed directory that has a free
    entry: [fs_creat] succeeds, the directory stays well formed, its name map
    becomes the old one with [name] bound to the first free inode, and the
    new inode is an empty file of the requested type. *)
Theorem fs_creat_lookup size d m pinum n name type r
    (Hlay : layout size d) (Hd : dir_ok size d m pinum n)
    (Hname : good_name name) (Hty : is_s32 type) (Hfile : type <> UFS_DIRECTORY)
    (Habs : fs_lookup size d m pinum name = Some (-1))
    (Hfree : exists s, s ∈ slots n /\ free_slot size d m pinum s = true)
    (Hr : find_free_block size m (inode_bitmap_ptr d) (inode_bitmap_len d) = Some r)
    (Hrok : inum_ok d r) :
  exists m', fs_creat size d m pinum type name = Some (0, m') /\
    dir_ok size d m' pinum n /\
    (forall st, fs_stat size d m' r st = Some (0, {| st_type := type; st_size := 0 |})) /\
    forall name', good_name name' ->
      fs_lookup size d m' pinum name' =
        if bool_decide (name' = name) then Some r else fs_lookup size d m pinum name'.
Proof.
  destruct (fs_creat_regular size d Hlay m pinum n name type r)
    as (m' & i & j & Hm' & Hij & Hfr & Hne & Hpost); [done..|].
  exists m'. split; [done|]. split; [by eapply creat_post_dir|]. split.
  - intros st. rewrite (fs_stat_spec size d Hlay); [|done|].
    + by rewrite (cp_type _ _ _ _ _ _ _ _ _ Hpost), (cp_size _ _ _ _ _ _ _ _ _ Hpost).
    + by rewrite (cp_bits _ _ _ _ _ _ _ _ _ Hpost), Z.eqb_refl, orb_true_r.
  - intros name' Hn'. eapply creat_post_lookup; [done..| |done|done].
    apply (fs_lookup_absent size d Hlay m pinum n); [done|apply Hname|done].
Qed.

(** Creating a name that is already there reports success and changes
    nothing. *)
Lemma fs_creat_existing size d m pinum n name type c
    (Hlay : layout size d) (Hd : dir_ok size d m pinum n) (Hname : good_name name)
    (Hold : fs_lookup size d m pinum name = Some c) (Hc : c <> -1) :
  fs_creat size d m pinum type name = Some (0, m).
Proof.
  rewrite (fs_lookup_find size d Hlay m pinum n) in Hold by (done || apply Hname).
  unfold fs_creat. rewrite (get_inode_ptr_spec size d Hlay), (dir_bit _ _ _ _ _ Hd) by apply Hd.
  destruct (Z.ltb_spec 28 (Z.of_nat (length name))); [destruct Hname; lia|].
  rewrite (find_in_dir_find size d Hlay m pinum n) by (done || apply Hname).
  destruct (List.find _ _); [done|]. injection Hold. lia.
Qed.

(** Unlinking a regular file whose blocks lie in the data bitmap:
    the inode is freed, the directory stays well formed, and its name map
    loses the entry and nothing else, provided no other entry holds the
    name. *)
Theorem fs_unlink_lookup size d m pinum n name c
    (Hlay : layout size d) (Hd : dir_ok size d m pinum n) (Hname : good_name name)
    (Hlook : fs_lookup size d m pinum name = Some c) (Hcok : inum_ok d c) (Hne : c <> pinum)
    (Hbit : bit m (inode_bitmap_ptr d) c = true)
    (Hty : word32 m (off_type (inode_at d c)) <> UFS_DIRECTORY)
    (Hdirs : directs_in_bitmap d m (inode_at d c))
    (Huniq : forall s s', s ∈ slots n -> s' ∈ slots n ->
       occ_slot size d m pinum name s = true -> occ_slot size d m pinum name s' = true -> s = s') :
  exists m', fs_unlink size d m pinum name = Some (0, m') /\
    dir_ok size d m' pinum n /\ bit m' (inode_bitmap_ptr d) c = false /\
    forall name', good_name name' ->
      fs_lookup size d m' pinum name' =
        if bool_decide (name' = name) then Some (-1) else fs_lookup size d m pinum name'.
Proof.
  rewrite (fs_lookup_find size d Hlay m pinum n) in Hlook by (done || apply Hname).
  destruct (List.find (occ_slot size d m pinum name) (slots n)) as [[i j]|] eqn:Hf;
    [|injection Hlook as <-; unfold inum_ok in Hcok; lia].
  injection Hlook as Hc. pose proof (find_Some_iff _ _ _ Hf) as [Hij Hocc].
  destruct (fs_unlink_file size d Hlay m pinum n name (i, j) c) as (m' & Hm' & Hpost);
    [done|apply Hname|done..|]. cbn [fst snd] in Hpost.
  pose proof (unlink_post_dir size d Hlay m m' pinum n i j c Hd Hij Hne Hpost) as Hd'.
  exists m'. split; [done|]. split; [done|]. split.
  { rewrite (up_bits _ _ _ _ _ _ _ Hpost), Z.eqb_refl by done. by rewrite andb_false_r. }
  intros name' Hn'.
  rewrite !(fs_lookup_find size d Hlay _ pinum n) by (done || apply Hn').
  assert (Hsl := fun s Hs => unlink_post_slots size d Hlay m m' pinum n i j c s name' Hd Hij Hs (proj1 Hn') Hpost).
  case_bool_decide as Heq.
  - subst name'. destruct (List.find (occ_slot size d m' pinum name) (slots n)) as [s|] eqn:Hf'; [|done].
    apply find_Some_iff in Hf' as [Hs Ho]. rewrite (proj1 (Hsl s Hs)) in Ho.
    apply andb_true_iff in Ho as [Ho Hsne]. apply bool_decide_eq_true in Hsne.
    destruct Hsne. by apply Huniq.
  - assert (Hoc : occ_slot size d m pinum name' (i, j) = false).
    { destruct (occ_slot size d m pinum name' (i, j)) eqn:Ho'; [|done]. exfalso. apply Heq.
      by eapply occb_inj. }
    rewrite (find_ext _ (occ_slot size d m pinum name') (slots n)).
    + destruct (List.find (occ_slot size d m pinum name') (slots n)) as [s|] eqn:Hf'; [|done].
      apply find_Some_iff in Hf' as [Hs Ho]. destruct (decide (s = (i, j))) as [->|Hsne]; [congruence|].
      by rewrite (proj2 (Hsl s Hs)).
    + intros s Hs. rewrite (proj1 (Hsl s Hs)). case_bool_decide as Hsne; [by rewrite andb_true_r|].
      subst s. by rewrite Hoc.
Qed.

(** A directory is never unlinked while a block of it holds an entry, and
    since every directory holds ["."] none ever is: the call returns -1 and
    leaves the image alone. *)
Theorem fs_unlink_directory size d m pinum n name c nc t
    (Hlay : layout size d) (Hd : dir_ok size d m pinum n) (Hname : good_name name)
    (Hlook : fs_lookup size d m pinum name = Some c)
    (Hc : dir_ok size d m c nc) (Hnc : (0 < nc)%nat)
    (Hty : word32 m (off_type (inode_at d c)) = UFS_DIRECTORY)
    (Ht : 0 <= t < 128) (Hent : word32 m (off_inum (slot_block d m c 0) t) <> -1) :
  fs_unlink size d m pinum name = Some (-1, m).
Proof.
  rewrite (fs_lookup_find size d Hlay m pinum n) in Hlook by (done || apply Hname).
  unfold fs_unlink. rewrite (get_inode_ptr_spec size d Hlay), (dir_bit _ _ _ _ _ Hd) by apply Hd.
  rewrite (find_in_dir_find size d Hlay m pinum n) by (done || apply Hname).
  destruct (List.find _ _) as [s|]; [|done]. injection Hlook as Hc'.
  unfold slot_result in *. cbn [option_map snd] in *. rewrite Hc'.
  rewrite (get_inode_ptr_spec size d Hlay), (dir_bit _ _ _ _ _ Hc) by apply Hc.
  pose proof (inode_in size d Hlay c (dir_inum _ _ _ _ _ Hc)). pose proof Hlay as [].
  rewrite ld32_Some, Hty by (unfold off_type; lia). rewrite Z.eqb_refl.
  by rewrite (dir_empty_in_use size d Hlay m c nc t).
Qed.

(** C32.  Reading back what was written: a write inside one assigned block of
    a regular file, then a read of the same range, gives the bytes written;
    no other byte of the image moves. *)
Theorem fs_write_read size d m inum data buffer offset nbytes
    (Hlay : layout size d) (Hi : inum_ok d inum) (Hbit : bit m (inode_bitmap_ptr d) inum = true)
    (Hty : word32 m (off_type (inode_at d inum)) <> UFS_DIRECTORY)
    (Hoff : 0 <= offset <= s32 (word32 m (off_size (inode_at d inum)) * UFS_BLOCK_SIZE))
    (Hdata : Z.of_nat (length data) = nbytes) (Hbytes : Forall is_u8 data)
    (Hsame : offset mod 4096 + nbytes < 4096) (Hal : offset mod 32 = 0 /\ nbytes mod 32 = 0)
    (Hblk : offset / 4096 < 30)
    (Hassigned : data_block size d (word32 m (off_direct (inode_at d inum) (offset / 4096)))) :
  let p := 4096 * word32 m (off_direct (inode_at d inum) (offset / 4096)) + offset mod 4096 in
  exists m', fs_write size d m inum data offset nbytes = Some (0, m') /\
    (forall x, x < p \/ p + nbytes <= x -> m' x = m x) /\
    fs_read size d m' inum buffer offset nbytes =
      Some (0, data ++ drop (length data) buffer).
Proof.
  intros p. pose proof (Z.mod_pos_bound offset 4096 ltac:(lia)). pose proof (Z.div_pos offset 4096 ltac:(lia) ltac:(lia)).
  pose proof (inode_in size d Hlay inum Hi) as Hin. pose proof Hassigned as [Hd1 Hd2]. pose proof Hlay as [].
  rewrite (write_guards size d Hlay) by (done || lia). unfold write_block_addr.
  rewrite ld32_Some by (unfold off_direct; lia).
  destruct (Z.eqb_spec (word32 m (off_direct (inode_at d inum) (offset / 4096))) (-1)) as [He|_]; [lia|].
  unfold block_ptr, UFS_BLOCK_SIZE. rewrite lay_super0, Z.add_0_l. fold p.
  destruct (memcpy_to_spec size m p data (Z.to_nat nbytes)) as (m' & -> & Hout & Hcopy); [lia..|].
  exists m'. split; [done|]. split; [intros x Hx; apply Hout; lia|].
  assert (Hw : forall a, inode_at d inum <= a -> a + 4 <= inode_at d inum + 128 -> word32 m' a = word32 m a).
  { intros a Ha1 Ha2. apply word32_ext. intros k Hk. apply Hout. lia. }
  assert (Hdir : word32 m' (off_direct (inode_at d inum) (offset / 4096)) =
                 word32 m (off_direct (inode_at d inum) (offset / 4096))).
  { apply Hw; unfold off_direct; lia. }
  rewrite (fs_read_same_block size d Hlay); rewrite ?Hdir; [|try done..].
  - fold p. rewrite <- Hdata, Nat2Z.id. do 3 f_equal. apply list_eq. intros k.
    rewrite list_lookup_fmap. destruct (decide (k < length data)%nat) as [Hk|Hk].
    + rewrite lookup_seq_lt by done. cbn. destruct (lookup_lt_is_Some_2 data k Hk) as [c Hc].
      rewrite (Hcopy k c), Hc by (done || lia). f_equal. apply u8_small.
      by apply (proj1 (Forall_lookup _ _) Hbytes k c Hc).
    + rewrite lookup_seq_ge by lia. cbn. by rewrite lookup_ge_None_2 by lia.
  - pose proof (inum_word size d Hlay inum Hi). rewrite <- Hbit. apply bit_ext. intros x Hx. apply Hout. lia.
  - lia.
  - rewrite Hw by (unfold off_size; lia). done.
  - apply Hal.
  - apply Hal.
Qed.

(** A write to a block the file does not have yet puts the bytes at block
    [r] of the image, where [r] is the first clear bit of the data bitmap:
    the index is used as an address from the start of the image and not from
    the start of the data region. *)
Theorem fs_write_new_block size d m inum data offset nbytes r
    (Hlay : layout size d) (Hi : inum_ok d inum) (Hbit : bit m (inode_bitmap_ptr d) inum = true)
    (Hty : word32 m (off_type (inode_at d inum)) <> UFS_DIRECTORY)
    (Hoff : 0 <= offset <= s32 (word32 m (off_size (inode_at d inum)) * UFS_BLOCK_SIZE))
    (Hdata : Z.of_nat (length data) = nbytes) (Hbytes : Forall is_u8 data)
    (Hsame : offset mod 4096 + nbytes < 4096) (Hblk : offset / 4096 < 30)
    (Hnew : word32 m (off_direct (inode_at d inum) (offset / 4096)) = -1)
    (Hr : find_free_block size m (data_bitmap_ptr d) (data_bitmap_len d) = Some r)
    (Hr0 : 0 <= r) (Hrin : 4096 * r + 4096 <= size) :
  exists m', fs_write size d m inum data offset nbytes = Some (0, m') /\
    forall k c, data !! k = Some c -> m' (4096 * r + offset mod 4096 + Z.of_nat k) = c.
Proof.
  pose proof (Z.mod_pos_bound offset 4096 ltac:(lia)). pose proof (Z.div_pos offset 4096 ltac:(lia) ltac:(lia)).
  pose proof (inode_in size d Hlay inum Hi) as Hin. pose proof Hlay as [].
  rewrite (write_guards size d Hlay) by (done || lia). unfold write_block_addr.
  rewrite ld32_Some, Hnew by (unfold off_direct; lia). rewrite Z.eqb_refl, Hr.
  assert (Hrb : 0 <= r < 32768 * data_bitmap_len d).
  { destruct (find_free_block_first size m (data_bitmap_ptr d) (data_bitmap_len d)) as (r' & Hr' & Hc);
      [split; lia|]. rewrite Hr in Hr'. injection Hr' as <-. destruct Hc as [[-> _]|[? _]]; [lia|done]. }
  destruct (flip_bit_spec size m (data_bitmap_ptr d) r) as (m1 & -> & _ & Hm1).
  { eapply bitmap_ok_bit; [|exact Hrb]. split; lia. }
  rewrite st32_Some by (unfold off_direct; lia). rewrite ld32_Some, st32_Some by (unfold off_size; lia).
  unfold block_ptr, UFS_BLOCK_SIZE. rewrite lay_super0, Z.add_0_l.
  set (m2 := put32 _ _ (s32 _)).
  destruct (memcpy_to_spec size m2 (4096 * r + offset mod 4096) data (Z.to_nat nbytes))
    as (m' & -> & _ & Hcopy); [lia..|].
  exists m'. split; [done|]. intros k c Hk. pose proof (lookup_lt_Some _ _ _ Hk).
  rewrite (Hcopy k c) by (done || lia). apply u8_small. by apply (proj1 (Forall_lookup _ _) Hbytes k c Hk).
Qed.

(** A name created through the client library is then found under the
    first free inode number, and its type is the message type [MFS_CREAT],
    whatever type the caller asked for. *)
Theorem MFS_Creat_type size d m pinum n name ty r junk
    (Hlay : layout size d) (Hd : dir_ok size d m pinum n) (Hname : good_name name)
    (Habs : fs_lookup size d m pinum name = Some (-1))
    (Hfree : exists s, s ∈ slots n /\ free_slot size d m pinum s = true)
    (Hr : find_free_block size m (inode_bitmap_ptr d) (inode_bitmap_len d) = Some r)
    (Hrok : inum_ok d r) :
  let ex := local_exchange size d in
  exists m', MFS_Creat junk ex (Some m) pinum ty name = (Some m', 0) /\
    MFS_Lookup junk ex (Some m') pinum name = (Some m', r) /\
    forall st, MFS_Stat junk ex (Some m') r st =
      (Some m', (0, {| st_type := MFS_CREAT; st_size := 0 |})).
Proof.
  intros ex.
  destruct (fs_creat_regular size d Hlay m pinum n name MFS_CREAT r)
    as (m' & i & j & Hm' & Hij & Hfr & Hne & Hpost);
    [done|done|unfold is_s32, MFS_CREAT; lia|done..|].
  exists m'. pose proof (dir_inum _ _ _ _ _ Hd) as Hp. split; [|split].
  - unfold MFS_Creat. destruct (Z.ltb_spec pinum 0); [unfold inum_ok in Hp; lia|].
    destruct (Z.ltb_spec 28 (Z.of_nat (length name))); [destruct Hname; lia|]. cbn [orb].
    unfold ex, local_exchange, serve, with_request. cbn. by rewrite Hm'.
  - unfold MFS_Lookup, ex, local_exchange, serve, with_request. cbn.
    rewrite (creat_post_lookup size d Hlay m m' pinum n MFS_CREAT name i j r); [|done..| |done|done].
    + by rewrite bool_decide_true.
    + apply (fs_lookup_absent size d Hlay m pinum n); [done|apply Hname|done].
  - intros st. unfold MFS_Stat, ex, local_exchange, serve, with_request. cbn.
    rewrite (fs_stat_spec size d Hlay); [|done|].
    + cbn. by rewrite (cp_type _ _ _ _ _ _ _ _ _ Hpost), (cp_size _ _ _ _ _ _ _ _ _ Hpost).
    + by rewrite (cp_bits _ _ _ _ _ _ _ _ _ Hpost), Z.eqb_refl, orb_true_r.
Qed.

(** The image [mkfs] writes, whatever the unfilled bytes of its buffers
    are: the server's [init_disk] finds the regions in order inside the
    image with room for every inode, inode 0 is a well-formed directory
    holding exactly ["."] and [".."], and inode 1 is the next to be
    allocated. *)
Theorem mkfs_root junk_itable junk_parent num_inodes num_data
    (Hni : 32 <= num_inodes) (Hnd : 32 <= num_data)
    (Hsize : total_blocks (mkfs_super num_inodes num_data) * UFS_BLOCK_SIZE < 2 ^ 31)
    (Hmax : num_inodes * SIZEOF_INODE < 2 ^ 31) :
  exists img size d,
    mkfs junk_itable junk_parent num_inodes num_data = Some (img, size) /\
    init_disk size img = Some d /\ layout size d /\
    (forall inum, 0 <= inum < num_inodes -> inum_ok d inum) /\
    dir_ok size d img 0 1 /\
    (forall name, good_name name ->
       fs_lookup size d img 0 name = Some (if bool_decide (name = DOT \/ name = DOTDOT) then 0 else -1)) /\
    (forall st, fs_stat size d img 0 st = Some (0, {| st_type := UFS_DIRECTORY; st_size := 64 |})) /\
    find_free_block size img (inode_bitmap_ptr d) (inode_bitmap_len d) = Some 1.
Proof.
  pose proof (mkfs_layout num_inodes num_data Hni Hnd Hsize Hmax) as Hlay.
  exists (image junk_itable junk_parent num_inodes num_data), (total_blocks (mkfs_super num_inodes num_data) * UFS_BLOCK_SIZE),
    (mkfs_disk num_inodes num_data).
  split; [by apply mkfs_image|]. split; [by apply mkfs_init|]. split; [done|].
  split; [by apply mkfs_inums|]. split; [by apply mkfs_root_dir|]. split; [by apply root_lookup|].
  split; [|by apply first_free_inode].
  intros st. rewrite (fs_stat_spec _ _ Hlay); [|apply mkfs_inums; lia|by apply image_inode_bit].
  destruct (root_type_size junk_itable junk_parent num_inodes num_data) as [-> ->]; done.
Qed.

(** ** Instances *)

Definition zeros : bytes := fun _ => 0.
Definition img0 : bytes := image zeros zeros 32 32.
Definition d0 : disk_t := mkfs_disk 32 32.
Definition sz0 : Z := total_blocks (mkfs_super 32 32) * UFS_BLOCK_SIZE.
Definition name_a : list Z := [97].

Definition layout0 : layout sz0 d0 :=
  mkfs_layout 32 32 ltac:(done) ltac:(done) ltac:(done) ltac:(done).
Definition root0 : dir_ok sz0 d0 img0 0 1 :=
  mkfs_root_dir zeros zeros 32 32 ltac:(done) ltac:(done) ltac:(done) ltac:(done).

Lemma good_name_a : good_name name_a.
Proof. split; [vm_compute; lia|repeat constructor]. Qed.

Lemma good_name_dot : good_name DOT.
Proof. split; [vm_compute; lia|repeat constructor]. Qed.

Lemma free0 : exists s, s ∈ slots 1 /\ free_slot sz0 d0 img0 0 s = true.
Proof. exists (0, 2). split; [by apply elem_of_slots|by vm_compute]. Qed.

Lemma inum_ok_1 : inum_ok d0 1.
Proof. split; vm_compute; congruence. Qed.

(** The image after a file ["a"] is created in the root. *)
Definition img1 : bytes :=
  match fs_creat sz0 d0 img0 0 1 name_a with Some (_, m) => m | None => zeros end.

(** The same with a data block assigned to the file. *)
Definition img2 : bytes := put32 img1 (off_direct (inode_at d0 1) 0) 5.

Lemma root1 : dir_ok sz0 d0 img1 0 1.
Proof.
  split; [split; vm_compute; congruence|by vm_compute|lia| | |].
  - intros k Hk. assert (k = 0) as -> by lia. split; vm_compute; congruence.
  - lia.
  - intros _. by vm_compute.
Qed.

Lemma fs_creat_lookup_witness :
  good_name name_a /\ exists m', fs_creat sz0 d0 img0 0 1 name_a = Some (0, m') /\
    fs_lookup sz0 d0 m' 0 name_a = Some 1.
Proof.
  split; [apply good_name_a|].
  destruct (fs_creat_lookup sz0 d0 img0 0 1 name_a 1 1 layout0 root0 good_name_a)
    as (m' & Hm' & _ & _ & Hl);
    [unfold is_s32; lia|by vm_compute|by vm_compute|apply free0|by vm_compute|apply inum_ok_1|].
  exists m'. split; [done|]. rewrite (Hl name_a good_name_a). by vm_compute.
Defined.

Lemma fs_creat_existing_witness :
  fs_creat sz0 d0 img0 0 1 DOT = Some (0, img0).
Proof.
  apply (fs_creat_existing sz0 d0 img0 0 1 DOT 1 0 layout0 root0 good_name_dot); [by vm_compute|lia].
Defined.

Lemma fs_unlink_lookup_witness :
  fs_lookup sz0 d0 img1 0 name_a = Some 1 /\
  exists m', fs_unlink sz0 d0 img1 0 name_a = Some (0, m') /\
    fs_lookup sz0 d0 m' 0 name_a = Some (-1).
Proof.
  split; [by vm_compute|].
  destruct (fs_unlink_lookup sz0 d0 img1 0 1 name_a 1 layout0 root1 good_name_a)
    as (m' & Hm' & _ & _ & Hl).
  - by vm_compute.
  - apply inum_ok_1.
  - lia.
  - by vm_compute.
  - by vm_compute.
  - intros k Hk. left. assert (Hall : forallb (fun k => word32 img1 (off_direct (inode_at d0 1) k) =? -1) directs = true)
      by (by vm_compute).
    rewrite forallb_forall in Hall. apply Z.eqb_eq, Hall, list_elem_of_In, elem_of_seqZ. unfold DIRECT_PTRS. lia.
  - assert (Hall : forallb (fun s => negb (occ_slot sz0 d0 img1 0 name_a s) || bool_decide (s = (0, 2))) (slots 1) = true)
      by (by vm_compute).
    rewrite forallb_forall in Hall. intros s s' Hs Hs' Ho Ho'.
    apply list_elem_of_In, Hall in Hs. apply list_elem_of_In, Hall in Hs'.
    rewrite Ho in Hs. rewrite Ho' in Hs'. cbn [negb orb] in *.
    apply bool_decide_eq_true in Hs, Hs'. by subst.
  - exists m'. split; [done|]. rewrite (Hl name_a good_name_a). by vm_compute.
Defined.

Lemma fs_unlink_directory_witness : fs_unlink sz0 d0 img0 0 DOT = Some (-1, img0).
Proof.
  apply (fs_unlink_directory sz0 d0 img0 0 1 DOT 0 1 0 layout0 root0 good_name_dot);
    [by vm_compute|apply root0|lia|by vm_compute|lia|by vm_compute].
Defined.

Lemma fs_write_read_witness :
  exists m', fs_write sz0 d0 img2 1 (repeat 7 32) 0 32 = Some (0, m') /\
    fs_read sz0 d0 m' 1 (repeat 0 40) 0 32 = Some (0, repeat 7 32 ++ repeat 0 8).
Proof.
  destruct (fs_write_read sz0 d0 img2 1 (repeat 7 32) (repeat 0 40) 0 32 layout0 inum_ok_1)
    as (m' & Hw & _ & Hr).
  - by vm_compute.
  - by vm_compute.
  - split; vm_compute; congruence.
  - done.
  - apply Forall_forall. intros x Hx%list_elem_of_In%repeat_spec. subst. unfold is_u8. lia.
  - vm_compute. done.
  - done.
  - vm_compute. done.
  - split; vm_compute; congruence.
  - exists m'. by split.
Defined.

(** The first write to the new file lands on block 1, the inode bitmap: the
    root directory's bit is lost and nothing can be looked up any more. *)
Lemma fs_write_new_block_witness :
  exists m', fs_write sz0 d0 img1 1 (repeat 0 32) 0 32 = Some (0, m') /\
    (forall k c, repeat 0 32 !! k = Some c -> m' (4096 + Z.of_nat k) = c) /\
    fs_lookup sz0 d0 img1 0 DOT = Some 0 /\ fs_lookup sz0 d0 m' 0 DOT = Some (-1).
Proof.
  destruct (fs_write_new_block sz0 d0 img1 1 (repeat 0 32) 0 32 1 layout0 inum_ok_1)
    as (m' & Hw & Hb).
  - by vm_compute.
  - by vm_compute.
  - split; vm_compute; congruence.
  - done.
  - apply Forall_forall. intros x Hx%list_elem_of_In%repeat_spec. subst. unfold is_u8. lia.
  - vm_compute. done.
  - vm_compute. done.
  - by vm_compute.
  - by vm_compute.
  - lia.
  - vm_compute. congruence.
  - exists m'. split; [done|]. split; [exact Hb|]. split; [by vm_compute|].
    assert (Hm : bit m' (inode_bitmap_ptr d0) 0 = false).
    { assert (H0 : m' 4096 = 0) by (by apply (Hb 0%nat 0)).
      assert (H1 : m' 4097 = 0) by (by apply (Hb 1%nat 0)).
      assert (H2 : m' 4098 = 0) by (by apply (Hb 2%nat 0)).
      assert (H3 : m' 4099 = 0) by (by apply (Hb 3%nat 0)).
      transitivity (Z.testbit (s32 (m' 4096 + 2 ^ 8 * m' 4097 + 2 ^ 16 * m' 4098 + 2 ^ 24 * m' 4099)) 31);
        [done|]. by rewrite H0, H1, H2, H3. }
    unfold fs_lookup. rewrite (get_inode_ptr_spec sz0 d0 layout0) by (split; vm_compute; congruence).
    by rewrite Hm.
Defined.

Definition junk_msg : message_t :=
  {| type := 0; inum := 0; offset := 0; nbytes := 0; ftype := 0; result := 0;
     msg_name := []; buffer := []; m := {| st_type := 0; st_size := 0 |} |}.

Lemma MFS_Creat_type_witness :
  exists m', MFS_Creat junk_msg (local_exchange sz0 d0) (Some img0) 0 UFS_REGULAR_FILE name_a = (Some m', 0) /\
    MFS_Stat junk_msg (local_exchange sz0 d0) (Some m') 1 {| st_type := 0; st_size := 0 |} =
      (Some m', (0, {| st_type := 6; st_size := 0 |})).
Proof.
  destruct (MFS_Creat_type sz0 d0 img0 0 1 name_a UFS_REGULAR_FILE 1 junk_msg layout0 root0 good_name_a)
    as (m' & Hc & _ & Hs); [by vm_compute|apply free0|by vm_compute|apply inum_ok_1|].
  exists m'. split; [done|]. apply Hs.
Defined.

Lemma mkfs_root_witness :
  exists img size d, mkfs zeros zeros 32 64 = Some (img, size) /\ init_disk size img = Some d /\
    fs_lookup size d img 0 DOT = Some 0.
Proof.
  destruct (mkfs_root zeros zeros 32 64) as (img & size & d & Hm & Hi & _ & _ & _ & Hl & _);
    [lia|lia|by vm_compute|by vm_compute|].
  exists img, size, d. split; [done|]. split; [done|]. rewrite (Hl DOT good_name_dot). by vm_compute.
Defined.

End DfsThms.
