(* ===== verification/Bio.v ===== *)
(** * The buffer cache

    [bio.c] with the parts of [sleeplock.c] and [ide.c] it stands on, as one
    process runs it.  The buffers are an array with [prev] and [next] links,
    updated pointer by pointer as the code does; index [NBUF] is
    [bcache.head].  The disk is a function from device and block number to
    contents, and every block written to it is recorded in order. *)

From Stdlib Require Import FunctionalExtensionality.
From stdpp Require Import functions.
From S2P Require Import Prelude DfsImage.
Local Open Scope Z_scope.
Local Open Scope xv6_scope.

(** ** The cache's interface

    What [log.c] and [fs.c] use of the cache, for one device: a buffer is
    named by its index, [held] is the set of blocks whose buffer this process
    has between [bread] and [brelse], [pinned] the set of blocks marked dirty
    outside [bwrite]. *)

Abbreviation block := bytes (only parsing).

Definition NBUF : nat := 30.
Definition FSSIZE : Z := 20000.

Class BlockCache (S : Type) := {
  bread : S -> Z -> outcome (S * nat);
  bdata : S -> nat -> block;
  bblockno : S -> nat -> Z;
  set_data : S -> nat -> block -> S;
  set_dirty : S -> nat -> S;
  bwrite : S -> nat -> outcome S;
  brelse : S -> nat -> outcome S
}.

(** What the clients may rely on.  [cache_ok s H P]: the cache is well formed
    with [H] held and [P] pinned; [view] is what [bread] shows of a block,
    [home] what the disk has, [journal] the disk writes so far. *)
Class BlockCacheSpec (S : Type) `{BlockCache S} := {
  cache_ok : S -> gset Z -> gset Z -> Prop;
  view : S -> Z -> block;
  home : S -> Z -> block;
  journal : S -> list (Z * block);
  at_buf : S -> Z -> nat -> Prop;
  same_blocks s s' := (forall b, view s' b = view s b) /\ (forall b, home s' b = home s b) /\ journal s' = journal s;
  view_home s H P b : cache_ok s H P -> b ∉ H -> b ∉ P -> view s b = home s b;
  at_buf_spec s H P b i : cache_ok s H P -> at_buf s b i -> bblockno s i = b /\ bdata s i = view s b;
  bread_ok s H P b :
    cache_ok s H P -> b ∉ H -> 0 <= b < FSSIZE -> (size (H ∪ P) < NBUF)%nat \/ b ∈ P ->
    exists s' i, bread s b = Ret (s', i) /\ cache_ok s' ({[b]} ∪ H) P /\ at_buf s' b i /\
      same_blocks s s' /\ (forall b' j, b' ∈ H -> at_buf s b' j -> at_buf s' b' j);
  set_data_ok s H P b i v :
    cache_ok s H P -> b ∈ H -> at_buf s b i ->
    cache_ok (set_data s i v) H P /\ view (set_data s i v) b = v /\
    (forall b', b' <> b -> view (set_data s i v) b' = view s b') /\
    (forall b', home (set_data s i v) b' = home s b') /\ journal (set_data s i v) = journal s /\
    (forall b' j, at_buf s b' j -> at_buf (set_data s i v) b' j);
  set_dirty_ok s H P b i :
    cache_ok s H P -> b ∈ H -> at_buf s b i ->
    cache_ok (set_dirty s i) H ({[b]} ∪ P) /\ same_blocks s (set_dirty s i) /\
    (forall b' j, at_buf s b' j -> at_buf (set_dirty s i) b' j);
  bwrite_ok s H P b i :
    cache_ok s H P -> b ∈ H -> at_buf s b i ->
    exists s', bwrite s i = Ret s' /\ cache_ok s' H (P ∖ {[b]}) /\ (forall b', view s' b' = view s b') /\
      home s' b = view s b /\ (forall b', b' <> b -> home s' b' = home s b') /\
      journal s' = journal s ++ [(b, view s b)] /\
      (forall b' j, at_buf s b' j -> at_buf s' b' j);
  brelse_ok s H P b i :
    cache_ok s H P -> b ∈ H -> at_buf s b i -> b ∈ P \/ view s b = home s b ->
    exists s', brelse s i = Ret s' /\ cache_ok s' (H ∖ {[b]}) P /\ same_blocks s s' /\
      (forall b' j, at_buf s b' j -> at_buf s' b' j)
}.

Module Bio.

Record sleeplock := { locked : bool; pid : Z }.

Record buf := {
  valid : bool;
  dirty : bool;
  dev : Z;
  blockno : Z;
  lock : sleeplock;
  refcnt : Z;
  prev : nat;
  next : nat;
  data : block
}.

Definition head : nat := NBUF.

Record bcache := {
  bufs : nat -> buf;
  disk : Z -> Z -> block;
  writes : list (Z * Z * block)
}.

(** Field updates. *)
Definition upd_buf (c : bcache) (i : nat) (b : buf) : bcache :=
  {| bufs := <[i := b]> (bufs c); disk := disk c; writes := writes c |}.
Definition with_prev (p : nat) (b : buf) : buf :=
  {| valid := valid b; dirty := dirty b; dev := dev b; blockno := blockno b; lock := lock b;
     refcnt := refcnt b; prev := p; next := next b; data := data b |}.
Definition with_next (p : nat) (b : buf) : buf :=
  {| valid := valid b; dirty := dirty b; dev := dev b; blockno := blockno b; lock := lock b;
     refcnt := refcnt b; prev := prev b; next := p; data := data b |}.
Definition with_flags (v d : bool) (b : buf) : buf :=
  {| valid := v; dirty := d; dev := dev b; blockno := blockno b; lock := lock b;
     refcnt := refcnt b; prev := prev b; next := next b; data := data b |}.
Definition with_id (dv bn : Z) (b : buf) : buf :=
  {| valid := valid b; dirty := dirty b; dev := dv; blockno := bn; lock := lock b;
     refcnt := refcnt b; prev := prev b; next := next b; data := data b |}.
Definition with_lock (l : sleeplock) (b : buf) : buf :=
  {| valid := valid b; dirty := dirty b; dev := dev b; blockno := blockno b; lock := l;
     refcnt := refcnt b; prev := prev b; next := next b; data := data b |}.
Definition with_refcnt (n : Z) (b : buf) : buf :=
  {| valid := valid b; dirty := dirty b; dev := dev b; blockno := blockno b; lock := lock b;
     refcnt := n; prev := prev b; next := next b; data := data b |}.
Definition with_data (d : block) (b : buf) : buf :=
  {| valid := valid b; dirty := dirty b; dev := dev b; blockno := blockno b; lock := lock b;
     refcnt := refcnt b; prev := prev b; next := next b; data := d |}.

Definition update (c : bcache) (i : nat) (f : buf -> buf) : bcache := upd_buf c i (f (bufs c i)).

(** ** sleeplock.c *)

Definition initsleeplock : sleeplock := {| locked := false; pid := 0 |}.

Section process.
(** [myproc()->pid] and whether the second disk answered [ideinit]. *)
Context (mypid : Z) (havedisk1 : bool).

(** One turn of [acquiresleep]: it sleeps while the lock is taken. *)
Definition acquiresleep (lk : sleeplock) : outcome sleeplock :=
  if locked lk then Blocked else Ret {| locked := true; pid := mypid |}.

Definition releasesleep (lk : sleeplock) : sleeplock := {| locked := false; pid := 0 |}.

Definition holdingsleep (lk : sleeplock) : bool := locked lk && (pid lk =? mypid).

(** ** ide.c *)

(** [idestart]'s checks, then the transfer [ideintr] completes: the data goes
    to the disk when the buffer is dirty and comes from it otherwise. *)
Definition iderw (c : bcache) (i : nat) : outcome bcache :=
  let b := bufs c i in
  if negb (holdingsleep (lock b)) then Panic "iderw: buf not locked"
  else if valid b && negb (dirty b) then Panic "iderw: nothing to do"
  else if negb (dev b =? 0) && negb havedisk1 then Panic "iderw: ide disk 1 not present"
  else if FSSIZE <=? blockno b then Panic "incorrect blockno"
  else if dirty b then
    Ret {| bufs := <[i := with_flags true false b]> (bufs c);
           disk := <[dev b := <[blockno b := data b]> (disk c (dev b))]> (disk c);
           writes := writes c ++ [(dev b, blockno b, data b)] |}
  else Ret (upd_buf c i (with_flags true false (with_data (disk c (dev b) (blockno b)) b))).

(** ** bio.c *)

(** The loop body of [binit], for the buffer [b]. *)
Definition binit_step (c : bcache) (b : nat) : bcache :=
  let c := update c b (with_next (next (bufs c head))) in
  let c := update c b (with_prev head) in
  let c := update c b (with_lock initsleeplock) in
  let c := update c (next (bufs c head)) (with_prev b) in
  update c head (with_next b).

Definition binit (c : bcache) : bcache :=
  let c := update c head (with_prev head) in
  let c := update c head (with_next head) in
  fold_left binit_step (seq 0 NBUF) c.

(** [for(b = bcache.head.next; b != &bcache.head; b = b->next)]. *)
Fixpoint scan_next (fuel : nat) (c : bcache) (f : buf -> bool) (b : nat) : option nat :=
  match fuel with
  | O => None
  | S fuel =>
      if decide (b = head) then None
      else if f (bufs c b) then Some b
      else scan_next fuel c f (next (bufs c b))
  end.

Fixpoint scan_prev (fuel : nat) (c : bcache) (f : buf -> bool) (b : nat) : option nat :=
  match fuel with
  | O => None
  | S fuel =>
      if decide (b = head) then None
      else if f (bufs c b) then Some b
      else scan_prev fuel c f (prev (bufs c b))
  end.

Definition cached (dv bn : Z) (b : buf) : bool := (dev b =? dv) && (blockno b =? bn).
Definition unused (b : buf) : bool := (refcnt b =? 0) && negb (dirty b).

Definition bget (c : bcache) (dv bn : Z) : outcome (bcache * nat) :=
  match scan_next (S NBUF) c (cached dv bn) (next (bufs c head)) with
  | Some b =>
      let c := update c b (fun x => with_refcnt (u32 (refcnt x + 1)) x) in
      let* l := acquiresleep (lock (bufs c b)) in
      Ret (update c b (with_lock l), b)
  | None =>
      match scan_prev (S NBUF) c unused (prev (bufs c head)) with
      | Some b =>
          let c := update c b (with_id dv bn) in
          let c := update c b (with_flags false false) in
          let c := update c b (with_refcnt 1) in
          let* l := acquiresleep (lock (bufs c b)) in
          Ret (update c b (with_lock l), b)
      | None => Panic "bget: no buffers"
      end
  end.

Definition bread (c : bcache) (dv bn : Z) : outcome (bcache * nat) :=
  let* (c, b) := bget c dv bn in
  if negb (valid (bufs c b)) then
    let* c := iderw c b in Ret (c, b)
  else Ret (c, b).

Definition bwrite (c : bcache) (b : nat) : outcome bcache :=
  if negb (holdingsleep (lock (bufs c b))) then Panic "bwrite"
  else iderw (update c b (fun x => with_flags (valid x) true x)) b.

Definition brelse (c : bcache) (b : nat) : outcome bcache :=
  if negb (holdingsleep (lock (bufs c b))) then Panic "brelse"
  else
    let c := update c b (fun x => with_lock (releasesleep (lock x)) x) in
    let c := update c b (fun x => with_refcnt (u32 (refcnt x - 1)) x) in
    if refcnt (bufs c b) =? 0 then
      let c := update c (next (bufs c b)) (with_prev (prev (bufs c b))) in
      let c := update c (prev (bufs c b)) (with_next (next (bufs c b))) in
      let c := update c b (with_next (next (bufs c head))) in
      let c := update c b (with_prev head) in
      let c := update c (next (bufs c head)) (with_prev b) in
      let c := update c head (with_next b) in
      Ret c
    else Ret c.

End process.

(** ** The linked list *)

(** Following [next] from [p] visits [l] and reaches [q], and [prev] leads
    back. *)
Fixpoint seg (nx pv : nat -> nat) (p : nat) (l : list nat) (q : nat) : Prop :=
  match l with
  | [] => nx p = q /\ pv q = p
  | x :: l => nx p = x /\ pv x = p /\ seg nx pv x l q
  end.

Definition nexts (c : bcache) (i : nat) : nat := next (bufs c i).
Definition prevs (c : bcache) (i : nat) : nat := prev (bufs c i).

(** The list from [head], most recently used first. *)
Definition ring (c : bcache) (l : list nat) : Prop :=
  seg (nexts c) (prevs c) head l head /\ NoDup (head :: l).

Lemma seg_ext nx pv nx' pv' p l q :
  (forall i, i ∈ p :: l -> nx' i = nx i) -> (forall i, i ∈ l ++ [q] -> pv' i = pv i) ->
  seg nx pv p l q -> seg nx' pv' p l q.
Proof.
  revert p. induction l as [|x l IH]; intros p Hn Hp; simpl.
  - rewrite Hn, Hp by left. done.
  - rewrite Hn by left. rewrite Hp by left. intros (H1 & H2 & H3). split; [done|]. split; [done|].
    apply IH; [| |done]; intros i Hi; [apply Hn|apply Hp]; by right.
Qed.

Lemma seg_app nx pv p l1 x l2 q :
  seg nx pv p (l1 ++ x :: l2) q <-> seg nx pv p l1 x /\ seg nx pv x l2 q.
Proof.
  revert p. induction l1 as [|y l1 IH]; intros p; simpl; [tauto|]. rewrite IH. tauto.
Qed.

Lemma seg_rev nx pv p l q : seg nx pv p l q -> seg pv nx q (rev l) p.
Proof.
  revert p. induction l as [|x l IH]; intros p; simpl; [tauto|].
  intros (H1 & H2 & H3). apply seg_app. split; [by apply IH|done].
Qed.

Lemma seg_last nx pv p l q : seg nx pv p l q -> pv q ∈ p :: l.
Proof.
  revert p. induction l as [|x l IH]; intros p; simpl; [intros [_ ->]; left|].
  intros (_ & _ & H). right. by apply IH.
Qed.

Lemma seg_first nx pv p l q : seg nx pv p l q -> nx p ∈ l ++ [q].
Proof. destruct l; simpl; [intros [-> _]|intros (-> & _)]; left. Qed.

(** Taking [b] out of the list. *)
Lemma seg_unlink nx pv p l1 b l2 q :
  seg nx pv p (l1 ++ b :: l2) q -> NoDup (p :: l1 ++ b :: l2) -> q ∉ l1 ++ b :: l2 ->
  seg (<[pv b := nx b]> nx) (<[nx b := pv b]> pv) p (l1 ++ l2) q.
Proof.
  revert p. induction l1 as [|y l1 IH]; intros p Hs Hnd Hq; simpl in *.
  - destruct Hs as (H1 & H2 & H3). rewrite H2. apply NoDup_cons in Hnd as [Hp Hnd].
    destruct l2 as [|x l2]; simpl in *.
    + destruct H3 as [-> H3]. by rewrite !fn_lookup_insert.
    + destruct H3 as (-> & H4 & H5). rewrite !fn_lookup_insert. split; [done|]. split; [done|].
      apply NoDup_cons in Hnd as [_ Hnd]. apply NoDup_cons in Hnd as [Hx _].
      eapply seg_ext; [| |exact H5].
      * intros i Hi. apply fn_lookup_insert_ne. intros ->. apply Hp. by right.
      * intros i [Hi| ->%list_elem_of_singleton]%elem_of_app; apply fn_lookup_insert_ne.
        -- by intros ->.
        -- intros ->. apply Hq. right. left.
  - destruct Hs as (H1 & H2 & H3). apply NoDup_cons in Hnd as [Hp Hnd].
    pose proof (proj1 (seg_app _ _ _ _ _ _ _) H3) as [Hl Hr].
    apply seg_last in Hl. apply seg_first in Hr.
    assert (Hyn : y ∉ l1 ++ b :: l2) by (by apply NoDup_cons in Hnd as [? _]).
    rewrite fn_lookup_insert_ne.
    2: { intros Heq. apply Hp. rewrite <- Heq. rewrite elem_of_cons, elem_of_app. apply elem_of_cons in Hl. tauto. }
    rewrite fn_lookup_insert_ne.
    2: { intros Heq. rewrite Heq in Hr. apply elem_of_app in Hr as [Hr|Hr%list_elem_of_singleton].
         - apply Hyn. rewrite elem_of_app, elem_of_cons. tauto.
         - apply Hq. rewrite <- Hr. left. }
    split; [done|]. split; [done|]. apply IH; [done|done|]. intros Hin. apply Hq. by right.
Qed.

(** Putting [b] at the front. *)
Lemma seg_push nx pv l b :
  seg nx pv head l head -> NoDup (head :: l) -> b ∉ head :: l ->
  seg (<[head := b]> (<[b := nx head]> nx)) (<[nx head := b]> (<[b := head]> pv)) head (b :: l) head.
Proof.
  intros Hs Hnd Hb. simpl. rewrite fn_lookup_insert. split; [done|].
  apply not_elem_of_cons in Hb as [Hbh Hbl].
  destruct l as [|x l]; simpl in *.
  - destruct Hs as [-> Hp]. rewrite (fn_lookup_insert_ne _ head b) by done.
    rewrite fn_lookup_insert. split; [done|]. rewrite fn_lookup_insert_ne by done.
    by rewrite !fn_lookup_insert.
  - destruct Hs as (-> & Hx & Hs). apply NoDup_cons in Hnd as [Hh Hnd]. apply NoDup_cons in Hnd as [Hxl _].
    assert (Hxb : x <> b) by (intros ->; apply Hbl; left).
    rewrite (fn_lookup_insert_ne _ x b) by done. rewrite fn_lookup_insert. split; [done|].
    rewrite fn_lookup_insert_ne by done. rewrite !fn_lookup_insert. split; [done|]. split; [done|].
    eapply seg_ext; [| |exact Hs]; intros i Hi.
    + rewrite !fn_lookup_insert_ne; [done|by intros <-|by intros <-].
    + rewrite !fn_lookup_insert_ne; [done| |].
      * intros <-. apply elem_of_app in Hi as [Hi|Hi%list_elem_of_singleton]; [apply Hbl; by right|done].
      * intros <-. apply elem_of_app in Hi as [Hi|Hi%list_elem_of_singleton]; [done|].
        subst. apply Hh. left.
Qed.

(** Following the links of a well-formed list is a search in it. *)
Lemma scan_next_find c f p l fuel :
  seg (nexts c) (prevs c) p l head -> head ∉ l -> (length l < fuel)%nat ->
  scan_next fuel c f (nexts c p) = List.find (fun i => f (bufs c i)) l.
Proof.
  revert p fuel. induction l as [|x l IH]; intros p fuel Hs Hh Hf; destruct fuel as [|fuel]; simpl in *; try lia.
  - destruct Hs as [-> _]. by rewrite decide_True.
  - destruct Hs as (-> & _ & Hs). apply not_elem_of_cons in Hh as [Hx Hh].
    rewrite decide_False by done. destruct (f (bufs c x)); [done|]. apply IH; [done|done|lia].
Qed.

Lemma scan_prev_find c f p l fuel :
  seg (prevs c) (nexts c) p l head -> head ∉ l -> (length l < fuel)%nat ->
  scan_prev fuel c f (prevs c p) = List.find (fun i => f (bufs c i)) l.
Proof.
  revert p fuel. induction l as [|x l IH]; intros p fuel Hs Hh Hf; destruct fuel as [|fuel]; simpl in *; try lia.
  - destruct Hs as [-> _]. by rewrite decide_True.
  - destruct Hs as (-> & _ & Hs). apply not_elem_of_cons in Hh as [Hx Hh].
    rewrite decide_False by done. destruct (f (bufs c x)); [done|]. apply IH; [done|done|lia].
Qed.

(** ** Single-field updates *)

Lemma bufs_update_eq c i f : bufs (update c i f) i = f (bufs c i).
Proof. unfold update, upd_buf. simpl. by rewrite fn_lookup_insert. Qed.

Lemma bufs_update_ne c i j f : i <> j -> bufs (update c i f) j = bufs c j.
Proof. intros. unfold update, upd_buf. simpl. by rewrite fn_lookup_insert_ne. Qed.

Lemma nexts_update c i f : nexts (update c i f) = <[i := next (f (bufs c i))]> (nexts c).
Proof.
  apply functional_extensionality. intros j. unfold nexts. destruct (decide (i = j)) as [->|].
  - by rewrite bufs_update_eq, fn_lookup_insert.
  - by rewrite bufs_update_ne, fn_lookup_insert_ne.
Qed.

Lemma prevs_update c i f : prevs (update c i f) = <[i := prev (f (bufs c i))]> (prevs c).
Proof.
  apply functional_extensionality. intros j. unfold prevs. destruct (decide (i = j)) as [->|].
  - by rewrite bufs_update_eq, fn_lookup_insert.
  - by rewrite bufs_update_ne, fn_lookup_insert_ne.
Qed.

Lemma insert_same (f : nat -> nat) i : <[i := f i]> f = f.
Proof.
  apply functional_extensionality. intros j.
  destruct (decide (i = j)) as [->|]; [by rewrite fn_lookup_insert|by rewrite fn_lookup_insert_ne].
Qed.

Lemma in_rev_iff (x : nat) l : x ∈ l <-> x ∈ rev l.
Proof. by rewrite !list_elem_of_In, <- List.in_rev. Qed.

(** Everything of a buffer but its links. *)
Definition core (b : buf) : buf := with_prev 0 (with_next 0 b).

Definition same_core (c c' : bcache) : Prop :=
  (forall j, core (bufs c' j) = core (bufs c j)) /\ disk c' = disk c /\ writes c' = writes c.

Lemma same_core_trans c1 c2 c3 : same_core c1 c2 -> same_core c2 c3 -> same_core c1 c3.
Proof. intros (H1 & H2 & H3) (H4 & H5 & H6). split; [|split]; [|congruence..]. intros j. by rewrite H4. Qed.

Lemma same_core_link c i f :
  (forall b, core (f b) = core b) -> same_core c (update c i f).
Proof.
  intros Hf. split; [|done]. intros j. destruct (decide (i = j)) as [->|].
  - by rewrite bufs_update_eq.
  - by rewrite bufs_update_ne.
Qed.

Lemma core_link c k f i :
  (forall b, core (f b) = core b) -> core (bufs (update c k f) i) = core (bufs c i).
Proof. intros Hf. apply (same_core_link c k f Hf). Qed.

Lemma same_links c i f :
  (forall b, next (f b) = next b) -> (forall b, prev (f b) = prev b) ->
  nexts (update c i f) = nexts c /\ prevs (update c i f) = prevs c.
Proof.
  intros Hn Hp. rewrite nexts_update, prevs_update, Hn, Hp.
  split; [apply (insert_same (nexts c))|apply (insert_same (prevs c))].
Qed.

Lemma ring_update c i f l :
  (forall b, next (f b) = next b) -> (forall b, prev (f b) = prev b) -> ring c l -> ring (update c i f) l.
Proof. intros Hn Hp. unfold ring. by destruct (same_links c i f Hn Hp) as [-> ->]. Qed.

(** The four pointer writes that put [b] behind [head]. *)
Definition push_front (c : bcache) (b : nat) : bcache :=
  let c := update c b (with_next (next (bufs c head))) in
  let c := update c b (with_prev head) in
  let c := update c (next (bufs c head)) (with_prev b) in
  update c head (with_next b).

Definition unlink (c : bcache) (b : nat) : bcache :=
  let c := update c (next (bufs c b)) (with_prev (prev (bufs c b))) in
  update c (prev (bufs c b)) (with_next (next (bufs c b))).

Lemma push_front_links c b : b <> head ->
  nexts (push_front c b) = <[head := b]> (<[b := nexts c head]> (nexts c)) /\
  prevs (push_front c b) = <[nexts c head := b]> (<[b := head]> (prevs c)).
Proof.
  intros Hb. unfold push_front.
  set (c1 := update c b _). set (c2 := update c1 b _). set (c3 := update c2 _ _).
  assert (Hn1 : nexts c1 = <[b := nexts c head]> (nexts c)) by (unfold c1; by rewrite nexts_update).
  assert (Hp1 : prevs c1 = prevs c).
  { unfold c1. rewrite prevs_update. apply (insert_same (prevs c)). }
  assert (Hn2 : nexts c2 = nexts c1).
  { unfold c2. rewrite nexts_update. apply (insert_same (nexts c1)). }
  assert (Hp2 : prevs c2 = <[b := head]> (prevs c1)) by (unfold c2; by rewrite prevs_update).
  assert (Hh : next (bufs c2 head) = nexts c head).
  { change (next (bufs c2 head)) with (nexts c2 head). rewrite Hn2, Hn1. by rewrite fn_lookup_insert_ne. }
  assert (Hn3 : nexts c3 = nexts c2).
  { unfold c3. rewrite nexts_update. apply (insert_same (nexts c2)). }
  assert (Hp3 : prevs c3 = <[nexts c head := b]> (prevs c2)).
  { unfold c3. rewrite prevs_update, Hh. done. }
  split.
  - rewrite nexts_update, Hn3, Hn2, Hn1. done.
  - rewrite prevs_update. change (prev (with_next b (bufs c3 head))) with (prevs c3 head).
    by rewrite insert_same, Hp3, Hp2, Hp1.
Qed.

Lemma unlink_links c b :
  nexts c b <> b ->
  nexts (unlink c b) = <[prevs c b := nexts c b]> (nexts c) /\
  prevs (unlink c b) = <[nexts c b := prevs c b]> (prevs c).
Proof.
  intros Hb. unfold unlink. set (c1 := update c _ _).
  assert (Hn1 : nexts c1 = nexts c).
  { unfold c1. rewrite nexts_update. apply (insert_same (nexts c)). }
  assert (Hp1 : prevs c1 = <[nexts c b := prevs c b]> (prevs c)) by (unfold c1; by rewrite prevs_update).
  assert (Hpb : prev (bufs c1 b) = prevs c b).
  { change (prev (bufs c1 b)) with (prevs c1 b). rewrite Hp1. by rewrite fn_lookup_insert_ne. }
  assert (Hnb : next (bufs c1 b) = nexts c b).
  { change (next (bufs c1 b)) with (nexts c1 b). by rewrite Hn1. }
  rewrite Hpb, Hnb. split.
  - by rewrite nexts_update, Hn1.
  - rewrite prevs_update. change (prev (with_next _ (bufs c1 (prevs c b)))) with (prevs c1 (prevs c b)).
    by rewrite insert_same, Hp1.
Qed.

Lemma push_front_ring c l b : ring c l -> b ∉ head :: l -> ring (push_front c b) (b :: l).
Proof.
  intros [Hs Hnd] Hb. pose proof Hb as [Hbh Hbl]%not_elem_of_cons. unfold ring.
  destruct (push_front_links c b Hbh) as [-> ->].
  split; [by apply seg_push|]. apply NoDup_cons in Hnd as [Hh Hnd].
  rewrite !NoDup_cons, not_elem_of_cons. done.
Qed.

Lemma unlink_ring c l1 l2 b : ring c (l1 ++ b :: l2) -> ring (unlink c b) (l1 ++ l2).
Proof.
  intros [Hs Hnd]. unfold ring.
  assert (Hbh : head ∉ l1 ++ b :: l2) by (by apply NoDup_cons in Hnd as [? _]).
  destruct (unlink_links c b) as [-> ->].
  { intros Heq. apply seg_app in Hs as [_ Hs]. apply seg_first in Hs. rewrite Heq in Hs.
    apply NoDup_cons in Hnd as [_ Hnd]. apply NoDup_app in Hnd as (_ & _ & Hnd).
    apply NoDup_cons in Hnd as [Hb _]. apply elem_of_app in Hs as [|Hs%list_elem_of_singleton]; [done|].
    subst b. apply Hbh. rewrite elem_of_app, elem_of_cons. tauto. }
  split; [by apply seg_unlink|].
  rewrite <- Permutation_middle in Hnd. rewrite NoDup_cons, elem_of_cons in Hnd.
  rewrite NoDup_cons. destruct Hnd as [Hh Hnd]. apply NoDup_cons in Hnd as [_ Hnd].
  split; [|done]. tauto.
Qed.

(** ** binit *)

Lemma update_update c i f g : update (update c i f) i g = update c i (fun b => g (f b)).
Proof.
  unfold update at 1. rewrite bufs_update_eq. unfold update, upd_buf. simpl. f_equal.
  apply functional_extensionality. intros j.
  destruct (decide (i = j)) as [->|]; [by rewrite !fn_lookup_insert|by rewrite !fn_lookup_insert_ne].
Qed.

Lemma binit_step_push c b : b <> head ->
  binit_step c b = push_front (update c b (with_lock initsleeplock)) b.
Proof.
  intros Hb. unfold binit_step, push_front.
  rewrite !(bufs_update_ne _ b head) by done. by rewrite !update_update.
Qed.

Lemma binit_ring c : ring (binit c) (rev (seq 0 NBUF)).
Proof.
  unfold binit. set (c0 := update (update c head _) head _).
  assert (H0 : ring c0 []).
  { split; [|by repeat constructor; apply not_elem_of_nil]. unfold c0, nexts, prevs. cbn [seg].
    by rewrite !bufs_update_eq. }
  assert (Hgen : forall n k l c, ring c l -> (forall i, i ∈ l -> (i < k)%nat) -> (k + n <= head)%nat ->
    ring (fold_left binit_step (seq k n) c) (rev (seq k n) ++ l)).
  { clear. intros n. induction n as [|n IH]; intros k l c Hr Hl Hk; simpl; [done|].
    rewrite <- app_assoc. simpl. apply IH; [|intros i [->|Hi]%elem_of_cons; [lia|]|lia].
    - rewrite binit_step_push by lia. apply push_front_ring; [by apply ring_update|].
      intros [Hb|Hb]%elem_of_cons; [lia|]. apply Hl in Hb. lia.
    - apply Hl in Hi. lia. }
  rewrite <- (app_nil_r (rev (seq 0 NBUF))). apply Hgen; [done| |unfold head; lia].
  intros i Hi. by apply elem_of_nil in Hi.
Qed.

Lemma binit_core c j : (j < NBUF)%nat ->
  core (bufs (binit c) j) = core (with_lock initsleeplock (bufs c j)).
Proof.
  intros Hj. unfold binit. set (c0 := update (update c head _) head _).
  assert (H0 : bufs c0 j = bufs c j).
  { unfold c0. by rewrite !bufs_update_ne by (unfold head; lia). }
  rewrite <- H0. clearbody c0. clear H0 c.
  assert (Hpush : forall c b j, core (bufs (push_front c b) j) = core (bufs c j)).
  { intros c b i. unfold push_front.
    by rewrite !core_link by done. }
  assert (Hgen : forall n k c, (k + n <= head)%nat ->
    core (bufs (fold_left binit_step (seq k n) c) j) =
      if decide (k <= j < k + n)%nat then core (with_lock initsleeplock (bufs c j)) else core (bufs c j)).
  { intros n. induction n as [|n IH]; intros k c Hk; simpl.
    { rewrite decide_False by lia. done. }
    rewrite IH by lia. rewrite binit_step_push by lia.
    assert (Hw : forall b b', core b = core b' -> core (with_lock initsleeplock b) = core (with_lock initsleeplock b')).
    { intros [] []; unfold core, with_lock, with_prev, with_next; cbn; congruence. }
    destruct (decide (j = k)) as [->|Hne].
    - rewrite decide_False by lia. rewrite decide_True by lia.
      by rewrite Hpush, bufs_update_eq.
    - assert (Hc : core (bufs (push_front (update c k (with_lock initsleeplock)) k) j) = core (bufs c j))
        by (by rewrite Hpush, bufs_update_ne).
      repeat case_decide; try lia; [by apply Hw|done]. }
  rewrite (Hgen NBUF 0%nat) by (unfold head; lia). by rewrite decide_True by lia.
Qed.

(** ** The invariant *)

Section inv.
Context (mypid : Z) (havedisk1 : bool) (dv : Z).
Context (Hdisk1 : dv = 0 \/ havedisk1 = true).

Definition on (b : buf) (bn : Z) : Prop := dev b = dv /\ blockno b = bn.
#[local] Instance on_dec b bn : Decision (on b bn).
Proof. unfold on. apply _. Defined.

Definition is_held (H : gset Z) (b : buf) : Prop := dev b = dv /\ blockno b ∈ H.

(** What a buffer of the cache looks like when this process holds the blocks
    [H] and the blocks [P] are marked dirty. *)
Record buf_ok (H P : gset Z) (dk : Z -> block) (b : buf) : Prop := {
  bo_valid : dev b = dv -> valid b = true /\ 0 <= blockno b < FSSIZE;
  bo_held : is_held H b -> refcnt b = 1 /\ lock b = {| locked := true; pid := mypid |};
  bo_free : ~ is_held H b -> refcnt b = 0 /\ locked (lock b) = false;
  bo_dirty : dirty b = true <-> is_held P b;
  bo_clean : dev b = dv -> blockno b ∉ H -> blockno b ∉ P -> data b = dk (blockno b)
}.

Record binv (c : bcache) (H P : gset Z) (l : list nat) : Prop := {
  bi_ring : ring c l;
  bi_perm : l ≡ₚ seq 0 NBUF;
  bi_inj : forall i j bn, i ∈ l -> j ∈ l -> on (bufs c i) bn -> on (bufs c j) bn -> i = j;
  bi_buf : forall i, i ∈ l -> buf_ok H P (disk c dv) (bufs c i);
  bi_have : forall bn, bn ∈ H ∪ P -> exists i, i ∈ l /\ on (bufs c i) bn
}.

(** The contents [bread] gives for a block. *)
Definition view (c : bcache) (bn : Z) : block :=
  match List.find (fun i => cached dv bn (bufs c i)) (seq 0 NBUF) with
  | Some i => data (bufs c i)
  | None => disk c dv bn
  end.

Lemma cached_on bn b : cached dv bn b = true <-> on b bn.
Proof. unfold cached, on. rewrite andb_true_iff, !Z.eqb_eq. done. Qed.

Lemma binv_range c H P l i : binv c H P l -> i ∈ l <-> (i < NBUF)%nat.
Proof. intros Hi. rewrite (bi_perm _ _ _ _ Hi), elem_of_seq. lia. Qed.

Lemma view_on c H P l i bn : binv c H P l -> i ∈ l -> on (bufs c i) bn -> view c bn = data (bufs c i).
Proof.
  intros Hi Hl Hon. unfold view. destruct (List.find _ _) as [j|] eqn:Hf.
  - apply List.find_some in Hf as [Hj Hc]. apply cached_on in Hc.
    assert (j ∈ l) by (rewrite (bi_perm _ _ _ _ Hi); by apply list_elem_of_In).
    by rewrite (bi_inj _ _ _ _ Hi j i bn).
  - exfalso. eapply List.find_none in Hf; [|apply list_elem_of_In; by rewrite <- (bi_perm _ _ _ _ Hi)].
    apply (proj2 (cached_on _ _)) in Hon. simpl in Hf. congruence.
Qed.

Lemma view_off c H P l bn : binv c H P l -> (forall i, i ∈ l -> ~ on (bufs c i) bn) -> view c bn = disk c dv bn.
Proof.
  intros Hi Hno. unfold view. destruct (List.find _ _) as [j|] eqn:Hf; [|done]. exfalso.
  apply List.find_some in Hf as [Hj Hc]. apply cached_on in Hc. eapply Hno; [|done].
  rewrite (bi_perm _ _ _ _ Hi). by apply list_elem_of_In.
Qed.

(** A block that is neither held nor pinned reads as the disk has it. *)
Lemma view_clean c H P l bn : binv c H P l -> bn ∉ H -> bn ∉ P -> view c bn = disk c dv bn.
Proof.
  intros Hi HnH HnP. destruct (decide (Exists (fun i => on (bufs c i) bn) l)) as [Hex|Hno].
  - apply Exists_exists in Hex as (i & Hl & Hon). rewrite (view_on c H P l i) by done.
    destruct Hon as [Hd <-]. by apply (bo_clean _ _ _ _ (bi_buf _ _ _ _ Hi i Hl)).
  - apply (view_off c H P l); [done|]. intros i Hl Hon. apply Hno, Exists_exists. eauto.
Qed.

Lemma core_fields b b' : core b = core b' ->
  valid b = valid b' /\ dirty b = dirty b' /\ dev b = dev b' /\ blockno b = blockno b' /\
  lock b = lock b' /\ refcnt b = refcnt b' /\ data b = data b'.
Proof. unfold core, with_prev, with_next. cbn. intros [= ]. done. Qed.

Lemma on_core b b' bn : core b = core b' -> on b bn <-> on b' bn.
Proof. unfold on. intros (_ & _ & -> & -> & _)%core_fields. done. Qed.

Lemma buf_ok_core H P H' P' dk dk' b b' :
  core b = core b' -> buf_ok H P dk b ->
  (dev b = dv -> (blockno b ∈ H' <-> blockno b ∈ H) /\ (blockno b ∈ P' <-> blockno b ∈ P) /\
     dk' (blockno b) = dk (blockno b)) ->
  buf_ok H' P' dk' b'.
Proof.
  intros (Hv & Hdi & Hde & Hbn & Hlo & Hre & Hda)%core_fields [Ho1 Ho2 Ho3 Ho4 Ho5] Hs.
  split; unfold is_held in *; rewrite <- ?Hv, <- ?Hdi, <- ?Hde, <- ?Hbn, <- ?Hlo, <- ?Hre, <- ?Hda.
  - done.
  - intros [Hd Hb]. apply Ho2. split; [done|]. by apply Hs.
  - intros Hn. apply Ho3. intros [Hd Hb]. apply Hn. split; [done|]. by apply Hs.
  - rewrite Ho4. split; intros [Hd Hb]; (split; [done|]); by apply Hs.
  - intros Hd HnH HnP. destruct (Hs Hd) as (E1 & E2 & ->). rewrite E1 in HnH. rewrite E2 in HnP. auto.
Qed.

(** The effect of any operation that changes the buffer [i] only, which
    afterwards holds block [bn]. *)
Lemma binv_step c c' H P H' P' l l' i bn :
  binv c H P l -> i ∈ l -> ring c' l' -> l' ≡ₚ l ->
  (forall j, j ∈ l -> j <> i -> core (bufs c' j) = core (bufs c j)) ->
  (forall x, x <> bn -> disk c' dv x = disk c dv x) ->
  on (bufs c' i) bn ->
  (forall j, j ∈ l -> j <> i -> ~ on (bufs c j) bn) ->
  (forall x, x <> bn -> (x ∈ H' <-> x ∈ H) /\ (x ∈ P' <-> x ∈ P)) ->
  (forall x, x ∈ H ∪ P -> x <> bn -> ~ on (bufs c i) x) ->
  buf_ok H' P' (disk c' dv) (bufs c' i) ->
  binv c' H' P' l' /\ view c' bn = data (bufs c' i) /\ (forall x, x <> bn -> view c' x = view c x).
Proof.
  intros Hi Hil Hring Hperm Hcore Hdk Hon Hother HHP Hold Hok.
  assert (Hi' : binv c' H' P' l').
  { split; [done|by rewrite Hperm, (bi_perm _ _ _ _ Hi)| | |].
    - intros j k x. rewrite !Hperm. intros Hj Hk Hjx Hkx.
      destruct (decide (j = i)) as [->|Hji], (decide (k = i)) as [->|Hki]; [done| | |].
      + destruct Hon as [_ Hb], Hjx as [_ Hb']. assert (x = bn) as -> by congruence.
        rewrite (on_core _ _ _ (Hcore k Hk Hki)) in Hkx. by destruct (Hother k Hk Hki).
      + destruct Hon as [_ Hb], Hkx as [_ Hb']. assert (x = bn) as -> by congruence.
        rewrite (on_core _ _ _ (Hcore j Hj Hji)) in Hjx. by destruct (Hother j Hj Hji).
      + rewrite (on_core _ _ _ (Hcore j Hj Hji)) in Hjx. rewrite (on_core _ _ _ (Hcore k Hk Hki)) in Hkx.
        by apply (bi_inj _ _ _ _ Hi j k x).
    - intros j. rewrite Hperm. intros Hj. destruct (decide (j = i)) as [->|Hji]; [done|].
      eapply buf_ok_core; [symmetry; by apply Hcore|by apply (bi_buf _ _ _ _ Hi)|]. intros Hd.
      assert (Hne : blockno (bufs c j) <> bn) by (intros Heq; by destruct (Hother j Hj Hji)).
      destruct (HHP _ Hne). split; [done|]. split; [done|]. by apply Hdk.
    - intros x Hx. destruct (decide (x = bn)) as [->|Hne]; [exists i; by rewrite Hperm|].
      assert (Hx' : x ∈ H ∪ P) by (destruct (HHP x Hne) as [E1 E2]; rewrite elem_of_union, <- E1, <- E2; by apply elem_of_union).
      destruct (bi_have _ _ _ _ Hi x Hx') as (j & Hj & Hjx). exists j. rewrite Hperm. split; [done|].
      destruct (decide (j = i)) as [->|Hji]; [by destruct (Hold x Hx' Hne)|].
      by rewrite (on_core _ _ _ (Hcore j Hj Hji)). }
  split; [done|]. split; [apply (view_on c' H' P' l'); [done|by rewrite Hperm|done]|].
  intros x Hne. destruct (decide (Exists (fun j => j <> i /\ on (bufs c j) x) l)) as [Hex|Hno].
  - apply Exists_exists in Hex as (j & Hj & Hji & Hjx). rewrite (view_on c H P l j x) by done.
    rewrite (view_on c' H' P' l' j x); [|done|by rewrite Hperm|by rewrite (on_core _ _ _ (Hcore j Hj Hji))].
    by apply core_fields, Hcore.
  - assert (Hno' : forall j, j ∈ l -> j <> i -> ~ on (bufs c j) x).
    { intros j Hj Hji Hjx. apply Hno, Exists_exists. eauto. }
    rewrite (view_off c' H' P' l'); [|done|].
    + rewrite Hdk by done. symmetry. destruct (decide (on (bufs c i) x)) as [Hix|Hix].
      * assert (~ x ∈ H ∪ P) as Hn by (intros Hx; by destruct (Hold x Hx Hne)).
        rewrite elem_of_union in Hn. apply (view_clean c H P l); [done|tauto|tauto].
      * apply (view_off c H P l); [done|]. intros j Hj. destruct (decide (j = i)) as [->|]; auto.
    + intros j. rewrite Hperm. intros Hj. destruct (decide (j = i)) as [->|Hji].
      * destruct Hon as [_ Hb]. intros [_ Hb']. congruence.
      * rewrite (on_core _ _ _ (Hcore j Hj Hji)). by apply Hno'.
Qed.

(** ** The operations *)

Definition bn_at (c : bcache) (bn : Z) (i : nat) : Prop := (i < NBUF)%nat /\ on (bufs c i) bn.

Definition bio_ok (c : bcache) (H P : gset Z) : Prop := exists l, binv c H P l.

Definition bio_journal (c : bcache) : list (Z * block) :=
  omap (fun '(d, b, x) => if decide (d = dv) then Some (b, x) else None) (writes c).

Definition same (c c' : bcache) : Prop :=
  (forall b, view c' b = view c b) /\ (forall b, disk c' dv b = disk c dv b) /\ bio_journal c' = bio_journal c.

(** A buffer is always free while fewer than [NBUF] blocks are held or
    pinned. *)
Lemma unused_exists c H P l :
  binv c H P l -> (size (H ∪ P) < NBUF)%nat -> exists i, i ∈ l /\ unused (bufs c i) = true.
Proof.
  intros Hi Hsz. destruct (decide (Exists (fun i => unused (bufs c i) = true) l)) as [Hex|Hno].
  { by apply Exists_exists. }
  exfalso. assert (Hbusy : forall i, i ∈ l -> dev (bufs c i) = dv /\ blockno (bufs c i) ∈ H ∪ P).
  { intros i Hil. pose proof (bi_buf _ _ _ _ Hi i Hil) as Hok.
    destruct (decide (is_held H (bufs c i) \/ is_held P (bufs c i))) as [[[]|[]]|Hn].
    1-2: set_solver. exfalso. apply Hno, Exists_exists. exists i. split; [done|].
    unfold unused. destruct (bo_free _ _ _ _ Hok) as [-> _]; [tauto|].
    destruct (dirty (bufs c i)) eqn:Hd; [|done]. apply (bo_dirty _ _ _ _ Hok) in Hd. tauto. }
  assert (Hnd : NoDup l) by (rewrite (bi_perm _ _ _ _ Hi); apply NoDup_seq).
  assert (Hnd' : NoDup ((fun i => blockno (bufs c i)) <$> l)).
  { apply NoDup_fmap_2_strong; [|done]. intros i j Hil Hjl Heq.
    apply (bi_inj _ _ _ _ Hi i j (blockno (bufs c i))); [done..| |].
    - split; [by apply Hbusy|done].
    - split; [by apply Hbusy|done]. }
  assert (Hlen : length l = NBUF) by (by rewrite (bi_perm _ _ _ _ Hi), length_seq).
  assert (Hsub : list_to_set ((fun i => blockno (bufs c i)) <$> l) ⊆ H ∪ P).
  { intros x. rewrite elem_of_list_to_set, list_elem_of_fmap. intros (i & -> & Hil). by apply Hbusy. }
  apply subseteq_size in Hsub. rewrite size_list_to_set, length_fmap in Hsub by done. lia.
Qed.

(** Only the buffer [i] changes. *)
Definition frame (c c' : bcache) (i : nat) : Prop :=
  nexts c' = nexts c /\ prevs c' = prevs c /\ (forall j, j <> i -> bufs c' j = bufs c j).

Lemma frame_update c i f :
  (forall b, next (f b) = next b) -> (forall b, prev (f b) = prev b) -> frame c (update c i f) i.
Proof.
  intros Hn Hp. destruct (same_links c i f Hn Hp) as [H1 H2]. split; [done|]. split; [done|].
  intros j Hj. by apply bufs_update_ne.
Qed.

Lemma frame_trans c1 c2 c3 i : frame c1 c2 i -> frame c2 c3 i -> frame c1 c3 i.
Proof.
  intros (H1 & H2 & H3) (H4 & H5 & H6). split; [congruence|]. split; [congruence|].
  intros j Hj. rewrite H6, H3; done.
Qed.

Lemma frame_ring c c' i l : frame c c' i -> ring c l -> ring c' l.
Proof. unfold ring. by intros (-> & -> & _). Qed.

(** A held buffer after an operation on it alone. *)
Lemma binv_held c c' H P H' P' l i bn :
  binv c H P l -> i ∈ l -> on (bufs c i) bn -> frame c c' i ->
  (forall x, x <> bn -> disk c' dv x = disk c dv x) ->
  on (bufs c' i) bn ->
  (forall x, x <> bn -> (x ∈ H' <-> x ∈ H) /\ (x ∈ P' <-> x ∈ P)) ->
  buf_ok H' P' (disk c' dv) (bufs c' i) ->
  binv c' H' P' l /\ view c' bn = data (bufs c' i) /\ (forall x, x <> bn -> view c' x = view c x).
Proof.
  intros Hi Hil Hon Hf Hd Hon' HHP Hok. pose proof Hf as (_ & _ & Hne).
  apply (binv_step c c' H P H' P' l l i bn); try done.
  - by eapply frame_ring, Hi.
  - intros j Hj Hji. by rewrite Hne.
  - intros j Hj Hji Hjx. apply Hji. by apply (bi_inj _ _ _ _ Hi j i bn).
  - intros x Hx Hxb [_ Hb]. destruct Hon as [_ Hb']. congruence.
Qed.

Lemma frame_bn_at c c' i bn :
  (i < NBUF)%nat -> frame c c' i -> on (bufs c i) bn -> on (bufs c' i) bn ->
  forall b j, bn_at c b j -> bn_at c' b j.
Proof.
  intros Hi (_ & _ & Hne) Hon Hon' b j [Hj Hjb]. split; [done|].
  destruct (decide (j = i)) as [->|Hji]; [|by rewrite Hne].
  destruct Hon as [_ Hb], Hjb as [_ Hb']. by replace b with bn by congruence.
Qed.

Lemma bi_on_held c H P l i bn :
  binv c H P l -> i ∈ l -> on (bufs c i) bn -> bn ∈ H -> is_held H (bufs c i).
Proof. intros _ _ [Hd <-] Hb. by split. Qed.

Lemma bi_lookup c H P bn i : bio_ok c H P -> bn_at c bn i -> exists l, binv c H P l /\ i ∈ l /\ on (bufs c i) bn.
Proof. intros [l Hi] [Hlt Hon]. exists l. split; [done|]. split; [by eapply binv_range|done]. Qed.

Lemma set_data_bio c H P b i v :
  bio_ok c H P -> b ∈ H -> bn_at c b i ->
  let c' := update c i (with_data v) in
  bio_ok c' H P /\ view c' b = v /\ (forall b', b' <> b -> view c' b' = view c b') /\
  (forall b' j, bn_at c b' j -> bn_at c' b' j).
Proof.
  intros Hok Hb Hat c'. destruct (bi_lookup _ _ _ _ _ Hok Hat) as (l & Hi & Hil & Hon).
  assert (Hf : frame c c' i) by (by apply frame_update).
  assert (Hbi : bufs c' i = with_data v (bufs c i)) by apply bufs_update_eq.
  assert (Hon' : on (bufs c' i) b) by (by rewrite Hbi).
  destruct (binv_held c c' H P H P l i b) as (Hi' & Hv & Hv'); [done..|tauto| |].
  { rewrite Hbi. destruct (bi_buf _ _ _ _ Hi i Hil) as [Ho1 Ho2 Ho3 Ho4 Ho5].
    split; [done..|]. intros Hd HnH. cbn in HnH. destruct HnH. by destruct Hon as [_ ->]. }
  split; [by exists l|]. split; [by rewrite Hv, Hbi|]. split; [done|].
  eapply frame_bn_at; [|done..]. by eapply binv_range.
Qed.

Lemma set_dirty_bio c H P b i :
  bio_ok c H P -> b ∈ H -> bn_at c b i ->
  let c' := update c i (fun x => with_flags (valid x) true x) in
  bio_ok c' H ({[b]} ∪ P) /\ (forall b', view c' b' = view c b') /\
  (forall b' j, bn_at c b' j -> bn_at c' b' j).
Proof.
  intros Hok Hb Hat c'. destruct (bi_lookup _ _ _ _ _ Hok Hat) as (l & Hi & Hil & Hon).
  assert (Hf : frame c c' i) by (by apply frame_update).
  assert (Hbi : bufs c' i = with_flags (valid (bufs c i)) true (bufs c i)) by (unfold c'; by rewrite bufs_update_eq).
  assert (Hon' : on (bufs c' i) b) by (by rewrite Hbi).
  destruct (binv_held c c' H P H ({[b]} ∪ P) l i b) as (Hi' & Hv & Hv'); [done..|set_solver| |].
  { rewrite Hbi. destruct (bi_buf _ _ _ _ Hi i Hil) as [Ho1 Ho2 Ho3 Ho4 Ho5]. destruct Hon as [Hd Hbn].
    split; [done..| |].
    - split; [|done]. intros _. split; [done|]. cbn. rewrite Hbn. set_solver.
    - intros _ HnH. cbn in HnH. rewrite Hbn in HnH. done. }
  split; [by exists l|]. split.
  - intros b'. destruct (decide (b' = b)) as [->|]; [|by apply Hv'].
    rewrite Hv, Hbi. symmetry. by apply (view_on c H P l).
  - eapply frame_bn_at; [|done..]. by eapply binv_range.
Qed.

(** [iderw] on a dirty buffer this process holds. *)
Lemma iderw_write c i :
  let b := bufs c i in
  lock b = {| locked := true; pid := mypid |} -> dirty b = true -> dev b = dv -> blockno b < FSSIZE ->
  iderw mypid havedisk1 c i = Ret
    {| bufs := <[i := with_flags true false b]> (bufs c);
       disk := <[dv := <[blockno b := data b]> (disk c dv)]> (disk c);
       writes := writes c ++ [(dv, blockno b, data b)] |}.
Proof.
  intros b Hl Hd Hdev Hbn. unfold iderw. fold b. unfold holdingsleep. rewrite Hl. cbn [locked Bio.pid].
  rewrite Z.eqb_refl, Hd, andb_false_r, Hdev. cbn [andb negb].
  destruct (Z.eqb_spec dv 0); cbn [negb andb].
  - destruct (Z.leb_spec FSSIZE (blockno b)); [lia|done].
  - destruct Hdisk1 as [| ->]; [done|]. cbn [negb]. destruct (Z.leb_spec FSSIZE (blockno b)); [lia|done].
Qed.

(** [iderw] on a buffer without data. *)
Lemma iderw_read c i bn :
  lock (bufs c i) = {| locked := true; pid := mypid |} -> valid (bufs c i) = false ->
  dirty (bufs c i) = false -> dev (bufs c i) = dv -> blockno (bufs c i) = bn -> bn < FSSIZE ->
  iderw mypid havedisk1 c i = Ret (update c i (fun b => with_flags true false (with_data (disk c dv bn) b))).
Proof.
  intros Hl Hv Hd Hdev Hb Hbn. unfold iderw, holdingsleep. rewrite Hl, Hv, Hd, Hdev, Hb. cbn [locked Bio.pid].
  rewrite Z.eqb_refl. cbn [andb negb].
  destruct (Z.leb_spec FSSIZE bn); [lia|].
  destruct Hdisk1 as [->| ->]; [done|]. cbn [negb]. by rewrite andb_false_r.
Qed.

Lemma bwrite_bio c H P b i :
  bio_ok c H P -> b ∈ H -> bn_at c b i ->
  exists c', bwrite mypid havedisk1 c i = Ret c' /\ bio_ok c' H (P ∖ {[b]}) /\
    (forall b', view c' b' = view c b') /\
    disk c' dv b = view c b /\ (forall b', b' <> b -> disk c' dv b' = disk c dv b') /\
    bio_journal c' = bio_journal c ++ [(b, view c b)] /\
    (forall b' j, bn_at c b' j -> bn_at c' b' j).
Proof.
  intros Hok Hb Hat. destruct (bi_lookup _ _ _ _ _ Hok Hat) as (l & Hi & Hil & Hon).
  destruct (bi_buf _ _ _ _ Hi i Hil) as [Ho1 Ho2 Ho3 Ho4 Ho5]. pose proof Hon as [Hd Hbn].
  destruct (Ho1 Hd) as [Hv Hr]. destruct Ho2 as [Href Hl]; [by split; [|rewrite Hbn]|].
  assert (Hview : view c b = data (bufs c i)) by (by apply (view_on c H P l)).
  unfold bwrite, holdingsleep. rewrite Hl. cbn [locked Bio.pid negb andb]. rewrite Z.eqb_refl. cbn [negb].
  set (c1 := update c i _).
  assert (Hf1 : frame c c1 i) by (by apply frame_update).
  assert (Hb1 : bufs c1 i = with_flags (valid (bufs c i)) true (bufs c i)) by (unfold c1; by rewrite bufs_update_eq).
  rewrite (iderw_write c1 i); rewrite ?Hb1; [|done|done|done|cbn; lia]. cbn [blockno with_flags data valid dirty].
  set (c' := {| bufs := _; disk := _; writes := _ |}).
  assert (Hbi : bufs c' i = with_flags true false (bufs c1 i)).
  { unfold c'. cbn [bufs]. by rewrite fn_lookup_insert, Hb1. }
  assert (Hf : frame c c' i).
  { apply (frame_trans _ c1); [done|].
    assert (Heq : bufs c' = bufs (update c1 i (with_flags true false))).
    { unfold c', update, upd_buf. cbn [bufs]. by rewrite Hb1. }
    unfold frame, nexts, prevs. rewrite Heq. by apply (frame_update c1 i (with_flags true false)). }
  assert (Hon' : on (bufs c' i) b) by (by rewrite Hbi, Hb1).
  assert (Hdk : forall x, disk c' dv x = if decide (x = b) then view c b else disk c dv x).
  { intros x. unfold c'. cbn [disk]. rewrite fn_lookup_insert, Hbn.
    destruct (decide (x = b)) as [->|]; [by rewrite fn_lookup_insert|by rewrite fn_lookup_insert_ne]. }
  destruct (binv_held c c' H P H (P ∖ {[b]}) l i b) as (Hi' & Hvw & Hvw'); [done..| |done|set_solver| |].
  { intros x Hx. by rewrite Hdk, decide_False. }
  { rewrite Hbi, Hb1. split; [done..| |].
    - split; [done|]. intros [_ Hx]. cbn in Hx. rewrite Hbn in Hx. set_solver.
    - cbn. rewrite Hbn. done. }
  exists c'. split; [done|]. split; [by exists l|]. split.
  { intros x. destruct (decide (x = b)) as [->|]; [|by apply Hvw']. by rewrite Hvw, Hbi, Hb1, Hview. }
  split; [by rewrite Hdk, decide_True|]. split; [intros x Hx; by rewrite Hdk, decide_False|]. split.
  - unfold bio_journal, c'. cbn [writes]. rewrite omap_app. cbn. rewrite decide_True by done.
    by rewrite Hview, Hbn.
  - eapply frame_bn_at; [|done..]. by eapply binv_range.
Qed.

Lemma ring_length c H P l : binv c H P l -> length l = NBUF.
Proof. intros Hi. by rewrite (bi_perm _ _ _ _ Hi), length_seq. Qed.

Lemma bget_hit c H P l bn :
  binv c H P l ->
  scan_next (S NBUF) c (cached dv bn) (next (bufs c head)) =
    List.find (fun i => cached dv bn (bufs c i)) l.
Proof.
  intros Hi. pose proof (bi_ring _ _ _ _ Hi) as [Hs Hnd]. apply scan_next_find; [done| |].
  - by apply NoDup_cons in Hnd as [? _].
  - rewrite (ring_length _ _ _ _ Hi). lia.
Qed.

Lemma bget_miss c H P l :
  binv c H P l ->
  scan_prev (S NBUF) c unused (prev (bufs c head)) = List.find (fun i => unused (bufs c i)) (rev l).
Proof.
  intros Hi. pose proof (bi_ring _ _ _ _ Hi) as [Hs Hnd]. apply scan_prev_find.
  - by apply seg_rev.
  - rewrite <- in_rev_iff. by apply NoDup_cons in Hnd as [? _].
  - rewrite length_rev, (ring_length _ _ _ _ Hi). lia.
Qed.

(** The buffer [bread] hands out. *)
Definition taken (b : buf) (bn : Z) (d : bool) (v : block) : Prop :=
  valid b = true /\ dirty b = d /\ dev b = dv /\ blockno b = bn /\ refcnt b = 1 /\
  lock b = {| locked := true; pid := mypid |} /\ data b = v.

Lemma taken_ok H P dk b bn d v :
  taken b bn d v -> 0 <= bn < FSSIZE -> (d = true <-> bn ∈ P) -> buf_ok ({[bn]} ∪ H) P dk b.
Proof.
  intros (H1 & H2 & H3 & H4 & H5 & H6 & H7) Hr Hd.
  split; unfold is_held; rewrite ?H1, ?H2, ?H3, ?H4, ?H5, ?H6, ?H7.
  - done.
  - done.
  - intros Hn. destruct Hn. split; [done|set_solver].
  - rewrite Hd. tauto.
  - intros _ Hn. set_solver.
Qed.

Lemma bread_hit c H P l i bn :
  binv c H P l -> i ∈ l -> on (bufs c i) bn -> bn ∉ H ->
  scan_next (S NBUF) c (cached dv bn) (next (bufs c head)) = Some i ->
  exists c', bread mypid havedisk1 c dv bn = Ret (c', i) /\ frame c c' i /\
    disk c' = disk c /\ writes c' = writes c /\
    taken (bufs c' i) bn (dirty (bufs c i)) (data (bufs c i)).
Proof.
  intros Hi Hil Hon HnH Hscan. pose proof Hon as [Hd Hbn].
  destruct (bi_buf _ _ _ _ Hi i Hil) as [Ho1 Ho2 Ho3 Ho4 Ho5]. destruct (Ho1 Hd) as [Hv _].
  destruct Ho3 as [Href Hl]; [by intros [_ Hb]; rewrite Hbn in Hb|].
  unfold bread, bget. rewrite Hscan. set (c1 := update c i _).
  assert (Hb1 : bufs c1 i = with_refcnt (u32 (refcnt (bufs c i) + 1)) (bufs c i))
    by (unfold c1; by rewrite bufs_update_eq).
  unfold acquiresleep. rewrite Hb1. cbn [lock with_refcnt]. rewrite Hl. cbn [obind].
  set (c2 := update c1 i _).
  assert (Hb2 : bufs c2 i = with_lock {| locked := true; pid := mypid |} (bufs c1 i))
    by (unfold c2; by rewrite bufs_update_eq).
  rewrite Hb2, Hb1. cbn [valid with_lock with_refcnt]. rewrite Hv. cbn [negb].
  exists c2. split; [done|]. split.
  { apply (frame_trans _ c1); by apply frame_update. }
  split; [done|]. split; [done|]. unfold taken. rewrite Hb2, Hb1. cbn. rewrite Href. done.
Qed.

Lemma bread_miss c H P l i bn :
  binv c H P l -> i ∈ l -> unused (bufs c i) = true -> 0 <= bn < FSSIZE ->
  scan_next (S NBUF) c (cached dv bn) (next (bufs c head)) = None ->
  scan_prev (S NBUF) c unused (prev (bufs c head)) = Some i ->
  exists c', bread mypid havedisk1 c dv bn = Ret (c', i) /\ frame c c' i /\
    disk c' = disk c /\ writes c' = writes c /\ taken (bufs c' i) bn false (disk c dv bn).
Proof.
  intros Hi Hil Hun Hr Hscan Hscan'.
  destruct (bi_buf _ _ _ _ Hi i Hil) as [Ho1 Ho2 Ho3 Ho4 Ho5].
  assert (Hnh : ~ is_held H (bufs c i)).
  { intros Hh. apply Ho2 in Hh as [Hh _]. unfold unused in Hun. by rewrite Hh in Hun. }
  destruct (Ho3 Hnh) as [_ Hl].
  unfold bread, bget. rewrite Hscan, Hscan'.
  set (c1 := update c i _). set (c2 := update c1 i _). set (c3 := update c2 i _).
  assert (Hb3 : bufs c3 i = with_refcnt 1 (with_flags false false (with_id dv bn (bufs c i)))).
  { unfold c3, c2, c1. by rewrite !bufs_update_eq. }
  unfold acquiresleep. rewrite Hb3. cbn [lock with_refcnt with_flags with_id]. rewrite Hl. cbn [obind].
  set (c4 := update c3 i _).
  assert (Hb4 : bufs c4 i = with_lock {| locked := true; pid := mypid |} (bufs c3 i))
    by (unfold c4; by rewrite bufs_update_eq).
  assert (Hf4 : frame c c4 i).
  { apply (frame_trans _ c3); [|by apply frame_update]. apply (frame_trans _ c2); [|by apply frame_update].
    apply (frame_trans _ c1); by apply frame_update. }
  rewrite Hb4, Hb3. cbn [valid with_lock with_refcnt with_flags negb].
  rewrite (iderw_read c4 i bn) by (rewrite ?Hb4, ?Hb3; cbn; done || lia). cbn [obind].
  eexists. split; [done|]. split.
  { apply (frame_trans _ c4); [done|]. by apply frame_update. }
  split; [done|]. split; [done|]. unfold taken. by rewrite bufs_update_eq, Hb4, Hb3.
Qed.

Lemma same_journal c c' : disk c' = disk c -> writes c' = writes c ->
  (forall b, disk c' dv b = disk c dv b) /\ bio_journal c' = bio_journal c.
Proof. unfold bio_journal. by intros -> ->. Qed.

Lemma bread_bio c H P bn :
  bio_ok c H P -> bn ∉ H -> 0 <= bn < FSSIZE -> (size (H ∪ P) < NBUF)%nat \/ bn ∈ P ->
  exists c' i, bread mypid havedisk1 c dv bn = Ret (c', i) /\ bio_ok c' ({[bn]} ∪ H) P /\ bn_at c' bn i /\
    same c c' /\ (forall b' j, b' ∈ H -> bn_at c b' j -> bn_at c' b' j).
Proof.
  intros [l Hi] HnH Hr Hcap. pose proof (bget_hit c H P l bn Hi) as Hhit.
  assert (Hfin : forall c' i d v, i ∈ l -> frame c c' i -> disk c' = disk c -> writes c' = writes c ->
    taken (bufs c' i) bn d v -> (d = true <-> bn ∈ P) -> v = view c bn ->
    (forall j, j ∈ l -> j <> i -> ~ on (bufs c j) bn) ->
    (forall x, x ∈ H ∪ P -> x <> bn -> ~ on (bufs c i) x) ->
    bio_ok c' ({[bn]} ∪ H) P /\ bn_at c' bn i /\
    same c c' /\ (forall b' j, b' ∈ H -> bn_at c b' j -> bn_at c' b' j)).
  { intros c' i d v Hil Hf Hdk Hwr Ht Hd Hv Hother Hold. pose proof Hf as (_ & _ & Hne).
    assert (Hon' : on (bufs c' i) bn) by (by split; apply Ht).
    destruct (binv_step c c' H P ({[bn]} ∪ H) P l l i bn) as (Hi' & Hv1 & Hv2); try done.
    - by eapply frame_ring, Hi.
    - intros j _ Hji. by rewrite Hne.
    - intros x _. by rewrite Hdk.
    - set_solver.
    - by eapply taken_ok.
    - split; [by exists l|]. split; [split; [by eapply binv_range, Hil|done]|]. split.
      + split; [|by apply same_journal]. intros x. destruct (decide (x = bn)) as [->|]; [|by apply Hv2].
        rewrite Hv1. destruct Ht as (_ & _ & _ & _ & _ & _ & ->). done.
      + intros b j Hb [Hj Hjb]. split; [done|]. destruct (decide (j = i)) as [->|Hji]; [|by rewrite Hne].
        destruct (decide (b = bn)) as [->|Hbn]; [done|]. destruct (Hold b); [set_solver|done|done]. }
  destruct (List.find (fun i => cached dv bn (bufs c i)) l) as [i|] eqn:Hf.
  - apply List.find_some in Hf as [Hil Hc]. apply list_elem_of_In in Hil. apply cached_on in Hc.
    destruct (bread_hit c H P l i bn) as (c' & Hc' & Hfr & Hdk & Hwr & Ht); [done..|].
    exists c', i. split; [done|].
    apply (Hfin c' i (dirty (bufs c i)) (data (bufs c i))); try done.
    + rewrite (bo_dirty _ _ _ _ (bi_buf _ _ _ _ Hi i Hil)). unfold is_held. destruct Hc as [-> ->]. tauto.
    + symmetry. by apply (view_on c H P l).
    + intros j Hj Hji Hjx. apply Hji. by apply (bi_inj _ _ _ _ Hi j i bn).
    + intros x Hx Hxb [_ Hb]. destruct Hc as [_ Hb']. congruence.
  - assert (Hno : forall j, j ∈ l -> ~ on (bufs c j) bn).
    { intros j Hj Hon. eapply List.find_none in Hf; [|by apply list_elem_of_In].
      apply (proj2 (cached_on _ _)) in Hon. simpl in Hf. congruence. }
    assert (HnP : bn ∉ P).
    { intros Hb. destruct (bi_have _ _ _ _ Hi bn) as (j & Hj & Hon); [set_solver|]. by destruct (Hno j). }
    destruct Hcap as [Hcap|]; [|done].
    pose proof (bget_miss c H P l Hi) as Hmiss.
    destruct (List.find (fun i => unused (bufs c i)) (rev l)) as [i|] eqn:Hf'.
    2: { destruct (unused_exists c H P l Hi Hcap) as (j & Hj & Hu). exfalso.
         eapply List.find_none in Hf'; [|rewrite <- List.in_rev; by apply list_elem_of_In].
         simpl in Hf'. congruence. }
    apply List.find_some in Hf' as [Hil Hu]. rewrite <- List.in_rev in Hil. apply list_elem_of_In in Hil.
    destruct (bread_miss c H P l i bn) as (c' & Hc' & Hfr & Hdk & Hwr & Ht); [done..|].
    exists c', i. split; [done|].
    apply (Hfin c' i false (disk c dv bn)); try done.
    + symmetry. by apply (view_off c H P l).
    + intros j Hj _. by apply Hno.
    + intros x Hx _ [Hd Hb]. destruct (bi_buf _ _ _ _ Hi i Hil) as [Ho1 Ho2 Ho3 Ho4 Ho5].
      unfold unused in Hu. apply andb_true_iff in Hu as [Hu1 Hu2]. apply Z.eqb_eq in Hu1.
      apply elem_of_union in Hx as [Hx|Hx].
      * destruct Ho2 as [Hr1 _]; [by split; [|rewrite Hb]|]. lia.
      * destruct Ho4 as [_ Ho4]. rewrite Ho4 in Hu2; [done|]. by split; [|rewrite Hb].
Qed.

(** [brelse] of the last reference moves the buffer to the front. *)
Lemma brelse_shape c i :
  lock (bufs c i) = {| locked := true; pid := mypid |} -> refcnt (bufs c i) = 1 ->
  exists c1, brelse mypid c i = Ret (push_front (unlink c1 i) i) /\ frame c c1 i /\
    disk c1 = disk c /\ writes c1 = writes c /\
    bufs c1 i = with_refcnt 0 (with_lock {| locked := false; pid := 0 |} (bufs c i)).
Proof.
  intros Hl Hr. unfold brelse, holdingsleep. rewrite Hl. cbn [locked Bio.pid]. rewrite Z.eqb_refl. cbn [andb negb].
  set (c0 := update c i _). set (c1 := update c0 i _).
  assert (Hb1 : bufs c1 i = with_refcnt 0 (with_lock {| locked := false; pid := 0 |} (bufs c i))).
  { unfold c1, c0. rewrite !bufs_update_eq. cbn. by rewrite Hr. }
  assert (Hr0 : refcnt (bufs c1 i) = 0) by (by rewrite Hb1). rewrite Hr0, Z.eqb_refl.
  exists c1. split; [done|]. split; [|split; [done|split; [done|exact Hb1]]].
  apply (frame_trans _ c0); by apply frame_update.
Qed.

Lemma push_unlink_core c i j : core (bufs (push_front (unlink c i) i) j) = core (bufs c j).
Proof. unfold push_front, unlink. by rewrite !core_link by done. Qed.

Lemma brelse_bio c H P b i :
  bio_ok c H P -> b ∈ H -> bn_at c b i -> b ∈ P \/ view c b = disk c dv b ->
  exists c', brelse mypid c i = Ret c' /\ bio_ok c' (H ∖ {[b]}) P /\ same c c' /\
    (forall b' j, bn_at c b' j -> bn_at c' b' j).
Proof.
  intros Hok Hb Hat Hcl. destruct (bi_lookup _ _ _ _ _ Hok Hat) as (l & Hi & Hil & Hon).
  destruct (bi_buf _ _ _ _ Hi i Hil) as [Ho1 Ho2 Ho3 Ho4 Ho5]. pose proof Hon as [Hd Hbn].
  destruct (Ho1 Hd) as [Hv Hr]. destruct Ho2 as [Href Hl]; [by split; [|rewrite Hbn]|].
  assert (Hview : view c b = data (bufs c i)) by (by apply (view_on c H P l)).
  destruct (brelse_shape c i Hl Href) as (c1 & -> & Hf & Hdk & Hwr & Hb1).
  set (c' := push_front (unlink c1 i) i). exists c'. split; [done|].
  pose proof Hf as (_ & _ & Hne). apply list_elem_of_split in Hil as Hsplit.
  destruct Hsplit as (l1 & l2 & Hl12).
  assert (Hring1 : ring c1 (l1 ++ i :: l2)) by (rewrite <- Hl12; by eapply frame_ring, Hi).
  assert (Hring : ring c' (i :: l1 ++ l2)).
  { apply push_front_ring; [by apply unlink_ring|]. destruct Hring1 as [_ Hnd].
    rewrite <- Permutation_middle in Hnd. apply NoDup_cons in Hnd as [Hh Hnd].
    apply NoDup_cons in Hnd as [Hn _]. rewrite not_elem_of_cons. split; [|done].
    intros ->. apply Hh. left. }
  assert (Hcore : forall j, core (bufs c' j) = core (bufs c1 j)) by (intros j; apply push_unlink_core).
  pose proof (Hcore i) as Hci. rewrite Hb1 in Hci.
  assert (Hon' : on (bufs c' i) b) by (by rewrite (on_core _ _ _ Hci)).
  destruct (binv_step c c' H P (H ∖ {[b]}) P l (i :: l1 ++ l2) i b) as (Hi' & Hv1 & Hv2); try done.
  - rewrite Hl12. by rewrite <- Permutation_middle.
  - intros j _ Hji. by rewrite Hcore, Hne.
  - intros x _. change (disk c') with (disk c1). by rewrite Hdk.
  - intros j Hj Hji Hjx. apply Hji. by apply (bi_inj _ _ _ _ Hi j i b).
  - set_solver.
  - intros x Hx Hxb [_ Hb']. congruence.
  - eapply (buf_ok_core (H ∖ {[b]}) P); [symmetry; exact Hci| |done].
    change (disk c') with (disk c1). rewrite Hdk. split; unfold is_held; cbn; rewrite ?Hd, ?Hbn.
    + rewrite Hbn in Hr. done.
    + set_solver.
    + done.
    + unfold is_held in Ho4. by rewrite Ho4, Hd, Hbn.
    + intros _ _ HnP. rewrite <- Hview. by destruct Hcl.
  - split; [by eexists|]. split.
    + split; [|by apply same_journal]. intros x. destruct (decide (x = b)) as [->|]; [|by apply Hv2].
      rewrite Hv1, Hview. by apply core_fields in Hci as (_ & _ & _ & _ & _ & _ & ->).
    + intros b' j [Hj Hjb]. split; [done|]. destruct (decide (j = i)) as [->|Hji].
      * destruct Hjb as [_ Hb']. by replace b' with b by congruence.
      * rewrite (on_core _ (bufs c j)); [done|]. by rewrite Hcore, Hne.
Qed.
End inv.

(** ** The initial cache *)

(** The kernel's zero-initialised data segment. *)
Definition zero_buf : buf :=
  {| valid := false; dirty := false; dev := 0; blockno := 0; lock := {| locked := false; pid := 0 |};
     refcnt := 0; prev := 0; next := 0; data := fun _ => 0 |}.
Definition boot (dk : Z -> Z -> block) : bcache :=
  {| bufs := fun _ => zero_buf; disk := dk; writes := [] |}.

Lemma fold_binit_disk l c : disk (fold_left binit_step l c) = disk c.
Proof. revert c. induction l as [|i l IH]; intros c; [done|]. cbn [fold_left]. by rewrite IH. Qed.

Lemma binit_bio mypid dv dk : dv <> 0 ->
  bio_ok mypid dv (binit (boot dk)) ∅ ∅ /\ disk (binit (boot dk)) = dk.
Proof.
  intros Hdv. assert (Hdk : disk (binit (boot dk)) = dk) by (unfold binit; by rewrite fold_binit_disk).
  split; [|done]. exists (rev (seq 0 NBUF)).
  assert (Hcore : forall i, i ∈ rev (seq 0 NBUF) -> core (bufs (binit (boot dk)) i) = core zero_buf).
  { intros i Hi%in_rev_iff%elem_of_seq. rewrite binit_core by lia. done. }
  assert (Hno : forall i bn, i ∈ rev (seq 0 NBUF) -> ~ on dv (bufs (binit (boot dk)) i) bn).
  { intros i bn Hi. rewrite (on_core _ _ _ _ (Hcore i Hi)). intros [Hd _]. by apply Hdv. }
  split; [apply binit_ring|symmetry; apply Permutation_rev| | |].
  - intros i j bn Hi _ Hon. by destruct (Hno i bn Hi).
  - intros i Hi. rewrite Hdk. apply (buf_ok_core mypid dv ∅ ∅ ∅ ∅ (dk dv) (dk dv) zero_buf); [symmetry; by apply Hcore| |done].
    assert (Hd : dev zero_buf <> dv) by (cbn; congruence). clear -Hd.
    split; unfold is_held.
    + by intros ?.
    + by intros [? _].
    + by intros _.
    + split; [by intros Hf|by intros [? _]].
    + by intros ?.
  - intros bn [Hb|Hb]%elem_of_union; by apply elem_of_empty in Hb.
Qed.

(** ** The interface implemented *)

#[export] Instance bio_cache (mypid : Z) (havedisk1 : bool) (dv : Z) : BlockCache bcache := {
  bread c bn := bread mypid havedisk1 c dv bn;
  bdata c i := data (bufs c i);
  bblockno c i := blockno (bufs c i);
  set_data c i v := update c i (with_data v);
  set_dirty c i := update c i (fun x => with_flags (valid x) true x);
  bwrite c i := bwrite mypid havedisk1 c i;
  brelse c i := brelse mypid c i
}.

Section spec.
Context (mypid : Z) (havedisk1 : bool) (dv : Z) (Hdisk1 : dv = 0 \/ havedisk1 = true).

#[export] Instance bio_spec : @BlockCacheSpec bcache (bio_cache mypid havedisk1 dv).
Proof.
  refine (@Build_BlockCacheSpec bcache (bio_cache mypid havedisk1 dv)
    (bio_ok mypid dv) (view dv) (fun c b => disk c dv b) (bio_journal dv) (bn_at dv) _ _ _ _ _ _ _).
  - intros c H P b [l Hi] HnH HnP. by apply (view_clean mypid dv c H P l).
  - intros c H P b i Hok Hat. destruct (bi_lookup _ _ _ _ _ _ _ Hok Hat) as (l & Hi & Hil & Hon).
    split; [apply Hon|]. symmetry. by apply (view_on mypid dv c H P l).
  - intros c H P b. by apply bread_bio.
  - intros c H P b i v Hok Hb Hat.
    destruct (set_data_bio mypid havedisk1 dv Hdisk1 c H P b i v Hok Hb Hat) as (H1 & H2 & H3 & H4).
    repeat (split; [done|]). done.
  - intros c H P b i Hok Hb Hat.
    destruct (set_dirty_bio mypid havedisk1 dv Hdisk1 c H P b i Hok Hb Hat) as (H1 & H2 & H3).
    repeat (split; [done|]). done.
  - intros c H P b i. by apply bwrite_bio.
  - intros c H P b i. by apply (brelse_bio mypid havedisk1 dv Hdisk1).
Defined.
End spec.
End Bio.
