(* ===== verification/BioThms.v ===== *)
(** * The properties of the buffer cache

    The cache is transparent, recycles the least recently used free buffer,
    and keeps its linked list in most-recently-used order. *)

From stdpp Require Import functions.
From S2P Require Import Prelude DfsImage Bio.
Import Bio.
Local Open Scope Z_scope.
Local Open Scope xv6_scope.

Module BioThms.

(** C31.  [bread] of a block this process does not hold, with a free buffer
    or the block pinned: it returns a locked buffer with the block's current
    contents (the disk's, unless the block is pinned), and neither the disk
    nor what any other block reads as changes, whichever buffer is recycled. *)
Theorem bread_transparent mypid havedisk1 dv c H P bn
    (Hdisk : dv = 0 \/ havedisk1 = true) (Hok : bio_ok mypid dv c H P) (Hnew : bn ∉ H)
    (Hbn : 0 <= bn < FSSIZE) (Hroom : (size (H ∪ P) < NBUF)%nat \/ bn ∈ P) :
  exists c' i, bread mypid havedisk1 c dv bn = Ret (c', i) /\
    bio_ok mypid dv c' ({[bn]} ∪ H) P /\
    holdingsleep mypid (lock (bufs c' i)) = true /\
    data (bufs c' i) = view dv c bn /\ (bn ∉ P -> data (bufs c' i) = disk c dv bn) /\
    (forall b, view dv c' b = view dv c b) /\ (forall b, disk c' dv b = disk c dv b).
Proof.
  destruct (bread_bio mypid havedisk1 dv Hdisk c H P bn Hok Hnew Hbn Hroom)
    as (c' & i & Hb & Hok' & Hat & (Hv & Hd & _) & _).
  destruct (bi_lookup _ _ _ _ _ _ _ Hok' Hat) as (l & Hi & Hil & Hon).
  assert (Hdata : data (bufs c' i) = view dv c bn).
  { rewrite <- Hv. symmetry. by apply (view_on mypid dv c' ({[bn]} ∪ H) P l). }
  exists c', i. split; [done|]. split; [done|]. split; [|split; [done|split; [|done]]].
  - destruct (bo_held _ _ _ _ _ _ (bi_buf _ _ _ _ _ _ Hi i Hil)) as [_ Hl].
    + destruct Hon as [Hdev Hbn']. split; [done|]. rewrite Hbn'. set_solver.
    + unfold holdingsleep. rewrite Hl. cbn. apply Z.eqb_refl.
  - intros HnP. rewrite Hdata. destruct Hok as [l0 Hi0]. by apply (view_clean mypid dv c H P l0).
Qed.

(** A miss recycles the least recently used buffer among those with no
    reference and no pending write, and panics when there is none. *)
Theorem bget_lru mypid dv c H P l bn
    (Hi : binv mypid dv c H P l) (Hmiss : forall i, i ∈ l -> cached dv bn (bufs c i) = false) :
  (exists l1 i l2 c', l = l1 ++ i :: l2 /\ unused (bufs c i) = true /\
      (forall j, j ∈ l2 -> unused (bufs c j) = false) /\ bget mypid c dv bn = Ret (c', i)) \/
  ((forall i, i ∈ l -> unused (bufs c i) = false) /\ bget mypid c dv bn = Panic "bget: no buffers").
Proof.
  unfold bget. rewrite (bget_hit mypid dv c H P l bn Hi), (bget_miss mypid dv c H P l Hi).
  destruct (List.find (fun i => cached dv bn (bufs c i)) l) as [i|] eqn:Hf.
  { apply List.find_some in Hf as [Hin Hc]. apply list_elem_of_In in Hin. by rewrite Hmiss in Hc. }
  assert (Hlast : (exists l1 i l2, l = l1 ++ i :: l2 /\ unused (bufs c i) = true /\
      (forall j, j ∈ l2 -> unused (bufs c j) = false) /\
      List.find (fun i => unused (bufs c i)) (rev l) = Some i) \/
    ((forall i, i ∈ l -> unused (bufs c i) = false) /\
      List.find (fun i => unused (bufs c i)) (rev l) = None)).
  { clear. induction l as [|i l IH] using rev_ind.
    - right. split; [|done]. intros i Hi. by apply elem_of_nil in Hi.
    - rewrite rev_unit. cbn [List.find]. destruct (unused (bufs c i)) eqn:Hu.
      + left. exists l, i, []. split; [done|]. split; [done|]. split; [|done].
        intros j Hj. by apply elem_of_nil in Hj.
      + destruct IH as [(l1 & k & l2 & -> & Hk & Hl2 & ->)|[Hno ->]].
        * left. exists l1, k, (l2 ++ [i]). rewrite <- app_assoc. split; [done|]. split; [done|].
          split; [|done]. intros j [Hj| ->%list_elem_of_singleton]%elem_of_app; auto.
        * right. split; [|done]. intros j [Hj| ->%list_elem_of_singleton]%elem_of_app; auto. }
  destruct Hlast as [(l1 & i & l2 & -> & Hu & Hl2 & ->)|[Hno ->]]; [left|by right].
  exists l1, i, l2. unfold acquiresleep. rewrite !bufs_update_eq.
  cbn [lock with_refcnt with_flags with_id locked].
  assert (Hfree : locked (lock (bufs c i)) = false).
  { pose proof (bi_buf _ _ _ _ _ _ Hi i ltac:(apply elem_of_app; right; left)) as [Ho1 Ho2 Ho3 Ho4 Ho5].
    apply Ho3. intros Hh. apply Ho2 in Hh as [Hr _]. unfold unused in Hu. by rewrite Hr in Hu. }
  rewrite Hfree. cbn [obind]. eexists. done.
Qed.

(** [brelse] of a buffer moves it to the front of the list and keeps the
    order of the others: the pointer updates are exactly a move-to-front. *)
Theorem brelse_mru mypid dv c H P l1 i l2 bn
    (Hi : binv mypid dv c H P (l1 ++ i :: l2)) (Hon : on dv (bufs c i) bn) (Hheld : bn ∈ H) :
  exists c', brelse mypid c i = Ret c' /\ ring c' (i :: l1 ++ l2) /\
    refcnt (bufs c' i) = 0 /\ locked (lock (bufs c' i)) = false.
Proof.
  assert (Hil : i ∈ l1 ++ i :: l2) by (apply elem_of_app; right; left).
  destruct (bo_held _ _ _ _ _ _ (bi_buf _ _ _ _ _ _ Hi i Hil)) as [Hr Hl].
  { destruct Hon as [Hd Hb]. split; [done|]. by rewrite Hb. }
  destruct (brelse_shape mypid c i Hl Hr) as (c1 & -> & Hf & _ & _ & Hb1).
  eexists. split; [done|]. split; [|split].
  - apply push_front_ring.
    + apply unlink_ring. eapply frame_ring; [done|]. apply Hi.
    + destruct (bi_ring _ _ _ _ _ _ Hi) as [_ Hnd]. rewrite <- Permutation_middle in Hnd.
      apply NoDup_cons in Hnd as [Hh Hnd]. apply NoDup_cons in Hnd as [Hn _].
      rewrite not_elem_of_cons. split; [|done]. intros ->. apply Hh. left.
  - pose proof (push_unlink_core c1 i i) as Hc. rewrite Hb1 in Hc.
    by apply core_fields in Hc as (_ & _ & _ & _ & _ & -> & _).
  - pose proof (push_unlink_core c1 i i) as Hc. rewrite Hb1 in Hc.
    by apply core_fields in Hc as (_ & _ & _ & _ & -> & _ & _).
Qed.

(** ** Instances *)

Definition disk5 : Z -> Z -> block := fun _ b _ => b.
Definition boot5 : bcache := binit (boot disk5).

Lemma boot5_ok : bio_ok 1 1 boot5 ∅ ∅ /\ disk boot5 = disk5.
Proof. by apply binit_bio. Qed.

Lemma bread_transparent_witness :
  exists c' i, bread 1 true boot5 1 9 = Ret (c', i) /\ data (bufs c' i) 0 = 9.
Proof.
  destruct boot5_ok as [Hok Hd].
  destruct (bread_transparent 1 true 1 boot5 ∅ ∅ 9) as (c' & i & Hb & _ & _ & _ & Hdata & _).
  - by right.
  - done.
  - apply not_elem_of_empty.
  - by split.
  - left. rewrite union_empty_l_L, size_empty. unfold NBUF. lia.
  - exists c', i. split; [done|]. rewrite Hdata by apply not_elem_of_empty. by rewrite Hd.
Defined.

Lemma bget_lru_witness : exists c' i, bget 1 boot5 1 9 = Ret (c', i).
Proof.
  destruct boot5_ok as [[l Hi] Hd].
  destruct (bget_lru 1 1 boot5 ∅ ∅ l 9 Hi) as [(l1 & i & l2 & c' & _ & _ & _ & Hb)|[_ Hb]].
  - intros i Hil. apply (binv_range _ _ _ _ _ _ _ Hi) in Hil. destruct (cached 1 9 (bufs boot5 i)) eqn:Hc; [|done].
    exfalso. unfold cached in Hc. pose proof (binit_core (boot disk5) i Hil) as Hcore.
    apply core_fields in Hcore as (_ & _ & Hdev & _). fold boot5 in Hdev. rewrite Hdev in Hc. done.
  - exists c', i. exact Hb.
  - vm_compute in Hb. discriminate Hb.
Defined.

Lemma brelse_mru_witness :
  exists c i c', bread 1 true boot5 1 9 = Ret (c, i) /\ brelse 1 c i = Ret c'.
Proof.
  destruct boot5_ok as [Hok Hd].
  destruct (bread_bio 1 true 1 (or_intror eq_refl) boot5 ∅ ∅ 9 Hok) as (c & i & Hb & Hok' & Hat & _).
  - apply not_elem_of_empty.
  - by split.
  - left. rewrite union_empty_l_L, size_empty. unfold NBUF. lia.
  - destruct (bi_lookup _ _ _ _ _ _ _ Hok' Hat) as (l & Hi & Hil & Hon).
    apply list_elem_of_split in Hil as (l1 & l2 & ->).
    destruct (brelse_mru 1 1 c ({[9]} ∪ ∅) ∅ l1 i l2 9 Hi Hon) as (c' & Hr & _).
    + apply elem_of_union. left. by apply elem_of_singleton.
    + exists c, i, c'. split; [exact Hb|exact Hr].
Defined.

End BioThms.
