(* ===== verification/Log.v ===== *)
(** * The file system log

    [log.c], over any block cache: the in-memory header, the commit and
    recovery code, and the admission of system calls.  The block cache is the
    interface [BlockCache] of [Bio], so every disk write goes through
    [bwrite] and appears in the cache's journal in order; a crash leaves the
    disk after some prefix of the journal. *)

From stdpp Require Import functions.
From S2P Require Import Prelude DfsImage Bio.
Local Open Scope Z_scope.
Local Open Scope xv6_scope.

Module Log.

Definition MAXOPBLOCKS : Z := 10.
Definition LOGSIZE : Z := MAXOPBLOCKS * 3.

(** [struct logheader]. *)
Record logheader := { n : Z; lblock : list Z }.

Record log := {
  start : Z;
  log_size : Z;
  outstanding : Z;
  committing : bool;
  lh : logheader
}.

Definition with_lh (h : logheader) (lg : log) : log :=
  {| start := start lg; log_size := log_size lg; outstanding := outstanding lg;
     committing := committing lg; lh := h |}.
Definition with_out (o : Z) (c : bool) (lg : log) : log :=
  {| start := start lg; log_size := log_size lg; outstanding := o; committing := c; lh := lh lg |}.

(** Field offsets in the header block: [n], then [block[i]]. *)
Definition off_n : Z := 0.
Definition off_block (i : Z) : Z := 4 + 4 * i.

(** The index the loop of [log_write] stops at. *)
Fixpoint absorb_index (blocks : list Z) (bn : Z) (ixs : list Z) (n : Z) : outcome Z :=
  match ixs with
  | [] => Ret n
  | i :: ixs =>
      let* x := of_option (getZ blocks i) in
      if x =? bn then Ret i else absorb_index blocks bn ixs n
  end.

(** What [log_write] does to the in-memory header for block [bn]. *)
Definition log_append (lg : log) (bn : Z) : outcome log :=
  if (LOGSIZE <=? n (lh lg)) || (log_size lg - 1 <=? n (lh lg)) then Panic "too big a transaction"
  else if outstanding lg <? 1 then Panic "log_write outside of trans"
  else
    let* i := absorb_index (lblock (lh lg)) bn (seqZ 0 (n (lh lg))) (n (lh lg)) in
    let* blocks := of_option (setZ (lblock (lh lg)) i bn) in
    let h := {| n := if i =? n (lh lg) then n (lh lg) + 1 else n (lh lg); lblock := blocks |} in
    Ret (with_lh h lg).

Section log_ops.
Context {S : Type} `{BlockCache S}.

(** The loop body of [install_trans]. *)
Definition install_body (lg : log) (s : S) (tail : Z) : outcome S :=
  let* (s, lbuf) := bread s (start lg + tail + 1) in
  let* dst := of_option (getZ (lblock (lh lg)) tail) in
  let* (s, dbuf) := bread s dst in
  let s := set_data s dbuf (bdata s lbuf) in
  let* s := bwrite s dbuf in
  let* s := brelse s lbuf in
  brelse s dbuf.

(** [for (tail = 0; tail < log.lh.n; tail++)]. *)
Fixpoint install_from (lg : log) (s : S) (tails : list Z) : outcome S :=
  match tails with
  | [] => Ret s
  | tail :: tails => let* s := install_body lg s tail in install_from lg s tails
  end.

Definition install_trans (lg : log) (s : S) : outcome S :=
  install_from lg s (seqZ 0 (n (lh lg))).

(** [log.lh.block[i] = lh->block[i]] for each [i]. *)
Fixpoint copy_head (b : block) (blocks : list Z) (ixs : list Z) : outcome (list Z) :=
  match ixs with
  | [] => Ret blocks
  | i :: ixs =>
      let* blocks := of_option (setZ blocks i (word32 b (off_block i))) in
      copy_head b blocks ixs
  end.

Definition read_head (lg : log) (s : S) : outcome (log * S) :=
  let* (s, buf) := bread s (start lg) in
  let b := bdata s buf in
  let n' := word32 b off_n in
  let* blocks := copy_head b (lblock (lh lg)) (seqZ 0 n') in
  let* s := brelse s buf in
  Ret (with_lh {| n := n'; lblock := blocks |} lg, s).

(** [hb->block[i] = log.lh.block[i]] for each [i]. *)
Fixpoint fill_head (b : block) (blocks : list Z) (ixs : list Z) : outcome block :=
  match ixs with
  | [] => Ret b
  | i :: ixs =>
      let* x := of_option (getZ blocks i) in
      fill_head (put32 b (off_block i) x) blocks ixs
  end.

Definition write_head (lg : log) (s : S) : outcome S :=
  let* (s, buf) := bread s (start lg) in
  let b := put32 (bdata s buf) off_n (n (lh lg)) in
  let* b := fill_head b (lblock (lh lg)) (seqZ 0 (n (lh lg))) in
  let s := set_data s buf b in
  let* s := bwrite s buf in
  brelse s buf.

Definition recover_from_log (lg : log) (s : S) : outcome (log * S) :=
  let* (lg, s) := read_head lg s in
  let* s := install_trans lg s in
  let lg := with_lh {| n := 0; lblock := lblock (lh lg) |} lg in
  let* s := write_head lg s in
  Ret (lg, s).

(** The loop body of [write_log]. *)
Definition write_log_body (lg : log) (s : S) (tail : Z) : outcome S :=
  let* (s, to) := bread s (start lg + tail + 1) in
  let* src := of_option (getZ (lblock (lh lg)) tail) in
  let* (s, from) := bread s src in
  let s := set_data s to (bdata s from) in
  let* s := bwrite s to in
  let* s := brelse s from in
  brelse s to.

Fixpoint write_log_from (lg : log) (s : S) (tails : list Z) : outcome S :=
  match tails with
  | [] => Ret s
  | tail :: tails => let* s := write_log_body lg s tail in write_log_from lg s tails
  end.

Definition write_log (lg : log) (s : S) : outcome S :=
  write_log_from lg s (seqZ 0 (n (lh lg))).

Definition commit (lg : log) (s : S) : outcome (log * S) :=
  if 0 <? n (lh lg) then
    let* s := write_log lg s in
    let* s := write_head lg s in
    let* s := install_trans lg s in
    let lg := with_lh {| n := 0; lblock := lblock (lh lg) |} lg in
    let* s := write_head lg s in
    Ret (lg, s)
  else Ret (lg, s).

(** One turn of the loop of [begin_op]: [Blocked] is the [sleep]. *)
Definition begin_op (lg : log) : outcome log :=
  if committing lg then Blocked
  else if LOGSIZE <? n (lh lg) + (outstanding lg + 1) * MAXOPBLOCKS then Blocked
  else Ret (with_out (outstanding lg + 1) (committing lg) lg).

(** The first critical section of [end_op], and whether to commit. *)
Definition end_op_enter (lg : log) : outcome (log * bool) :=
  let lg := with_out (outstanding lg - 1) (committing lg) lg in
  if committing lg then Panic "log.committing"
  else if outstanding lg =? 0 then Ret (with_out (outstanding lg) true lg, true)
  else Ret (lg, false).

(** The last critical section. *)
Definition end_op_leave (lg : log) : log := with_out (outstanding lg) false lg.

Definition end_op (lg : log) (s : S) : outcome (log * S) :=
  let* (lg, do_commit) := end_op_enter lg in
  if (do_commit : bool) then
    let* (lg, s) := commit lg s in
    Ret (end_op_leave lg, s)
  else Ret (lg, s).

(** [log_write]: the buffer's block is logged and the buffer marked dirty. *)
Definition log_write (lg : log) (s : S) (b : nat) : outcome (log * S) :=
  let* lg := log_append lg (bblockno s b) in
  Ret (lg, set_dirty s b).

(** [readsb] of [fs.c] as [initlog] uses it: [nlog] and [logstart]. *)
Definition readsb (s : S) : outcome (S * (Z * Z)) :=
  let* (s, bp) := bread s 1 in
  let b := bdata s bp in
  let* s := brelse s bp in
  Ret (s, (word32 b 12, word32 b 16)).

Definition initlog (s : S) : outcome (log * S) :=
  let* (s, sb) := readsb s in
  let lg := {| start := sb.2; log_size := sb.1; outstanding := 0; committing := false;
               lh := {| n := 0; lblock := replicate (Z.to_nat LOGSIZE) 0 |} |} in
  recover_from_log lg s.
End log_ops.
End Log.
