(* ===== verification/LogSpec.v ===== *)
(** * What the log promises

    The exact sequence of disk writes of each part of [log.c], the state a
    recovery computes from a disk, and atomicity: whatever prefix of a
    commit's writes reaches the disk, recovery gives the old contents or the
    new ones. *)

From stdpp Require Import functions.
From S2P Require Import Prelude DfsImage Bio Log.
Import Log.
Local Open Scope Z_scope.
Local Open Scope xv6_scope.

Module LogSpec.

(** ** Journals *)

Fixpoint jrun (d : Z -> block) (js : list (Z * block)) : Z -> block :=
  match js with
  | [] => d
  | (b, x) :: js => jrun (<[b := x]> d) js
  end.

Lemma jrun_app d js1 js2 : jrun d (js1 ++ js2) = jrun (jrun d js1) js2.
Proof. revert d. induction js1 as [|[b x] js1 IH]; intros d; [done|]. apply IH. Qed.

Lemma jrun_notin d js b : b ∉ js.*1 -> jrun d js b = d b.
Proof.
  revert d. induction js as [|[c x] js IH]; intros d Hb; [done|]. cbn in Hb |- *.
  apply not_elem_of_cons in Hb as [Hbc Hb]. rewrite IH by done. by rewrite fn_lookup_insert_ne.
Qed.

Lemma jrun_ext d d' js : (forall b, d b = d' b) -> forall b, jrun d js b = jrun d' js b.
Proof.
  revert d d'. induction js as [|[c x] js IH]; intros d d' Hd; [done|]. cbn. apply IH.
  intros b. destruct (decide (c = b)) as [->|]; [by rewrite !fn_lookup_insert|by rewrite !fn_lookup_insert_ne].
Qed.

(** Writes to distinct blocks: each block ends with the contents written. *)
Lemma jrun_in d js b x : NoDup js.*1 -> (b, x) ∈ js -> jrun d js b = x.
Proof.
  revert d. induction js as [|[c y] js IH]; intros d Hnd Hb; [by apply elem_of_nil in Hb|].
  cbn in Hnd |- *. apply NoDup_cons in Hnd as [Hc Hnd]. apply elem_of_cons in Hb as [Heq|Hb].
  - injection Heq as -> ->. rewrite jrun_notin by done. by rewrite fn_lookup_insert.
  - by apply IH.
Qed.

(** What [js] leaves in a block does not depend on the disk before when [js]
    writes the block. *)
Lemma jrun_agree d d' js b : b ∈ js.*1 \/ d b = d' b -> jrun d js b = jrun d' js b.
Proof.
  revert d d'. induction js as [|[c x] js IH]; intros d d' Hb; cbn in *.
  - destruct Hb as [Hb|]; [by apply elem_of_nil in Hb|done].
  - apply IH. destruct (decide (c = b)) as [->|Hne]; [right; by rewrite !fn_lookup_insert|].
    rewrite !fn_lookup_insert_ne by done. destruct Hb as [[->|Hb]%elem_of_cons|]; auto. done.
Qed.

(** A property of every disk a crash can leave while [js] is written. *)
Definition all_crash (Q : (Z -> block) -> Prop) (d : Z -> block) (js : list (Z * block)) : Prop :=
  forall k, Q (jrun d (take k js)).

Lemma all_crash_app Q d js1 js2 :
  all_crash Q d js1 -> all_crash Q (jrun d js1) js2 -> all_crash Q d (js1 ++ js2).
Proof.
  intros H1 H2 k. destruct (decide (k <= length js1)%nat) as [Hk|Hk].
  - rewrite take_app_le by done. apply H1.
  - rewrite take_app_ge by lia. rewrite jrun_app. apply H2.
Qed.

Lemma all_crash_one Q d w : Q d -> Q (jrun d [w]) -> all_crash Q d [w].
Proof. intros H1 H2 [|k]; [done|]. simpl. rewrite take_nil. apply H2. Qed.

Section spec.
Context {S : Type} `{BlockCacheSpec S}.
Implicit Types (s : S) (P : gset Z).

(** [s'] is [s] after the disk writes [js]. *)
Definition wrote s s' (js : list (Z * block)) : Prop :=
  (forall b, home s' b = jrun (home s) js b) /\ journal s' = journal s ++ js.

Lemma wrote_nil s : wrote s s [].
Proof. split; [done|by rewrite app_nil_r]. Qed.

Lemma wrote_app s1 s2 s3 js1 js2 : wrote s1 s2 js1 -> wrote s2 s3 js2 -> wrote s1 s3 (js1 ++ js2).
Proof.
  intros [H1 H2] [H3 H4]. split.
  - intros b. rewrite H3, jrun_app. by apply jrun_ext.
  - by rewrite H4, H2, app_assoc.
Qed.

Lemma size_insert_lt P b : b ∉ P -> (size P + 1 < NBUF)%nat -> (size ({[b]} ∪ P) < NBUF)%nat.
Proof. intros Hb Hs. rewrite size_union by set_solver. rewrite size_singleton. lia. Qed.

(** Copying block [src] over block [dst], the buffer of the first block read
    being [b1]. *)
Lemma install_body_ok (lg : log) s P tail dst :
  cache_ok s ∅ P -> (size P < NBUF)%nat -> getZ (lblock (lh lg)) tail = Some dst ->
  let src := start lg + tail + 1 in
  src <> dst -> src ∉ P -> 0 <= src < FSSIZE -> 0 <= dst < FSSIZE ->
  dst ∈ P \/ (size P + 1 < NBUF)%nat ->
  exists s', install_body lg s tail = Ret s' /\ cache_ok s' ∅ (P ∖ {[dst]}) /\
    wrote s s' [(dst, view s src)] /\
    view s' dst = view s src /\ (forall b, b <> dst -> view s' b = view s b).
Proof.
  intros Hok Hsz Hget src Hne HsP Hsr Hdr Hcap. unfold install_body. fold src. rewrite Hget. cbn [of_option].
  destruct (bread_ok s ∅ P src) as (s1 & i & -> & Hok1 & Hat1 & (Hv1 & Hh1 & Hj1) & _);
    [done|set_solver|done|left; by rewrite union_empty_l_L|]. cbn [obind].
  destruct (bread_ok s1 ({[src]} ∪ ∅) P dst) as (s2 & j & -> & Hok2 & Hat2 & (Hv2 & Hh2 & Hj2) & Hkeep); [done|set_solver|done| |].
  { destruct Hcap as [|Hcap]; [by right|left]. rewrite union_empty_r_L. by apply size_insert_lt. }
  pose proof (Hkeep src i ltac:(set_solver) Hat1) as Hat1'. cbn [obind].
  destruct (at_buf_spec s2 _ _ src i Hok2 Hat1') as [_ ->].
  destruct (set_data_ok s2 _ P dst j (view s2 src) Hok2) as (Hok3 & Hv3 & Hv3' & Hh3 & Hj3 & Hat3); [set_solver|done|].
  set (s3 := set_data s2 j (view s2 src)) in *.
  destruct (bwrite_ok s3 _ P dst j Hok3) as (s4 & -> & Hok4 & Hv4 & Hh4 & Hh4' & Hj4 & Hat4); [set_solver|by apply Hat3|].
  cbn [obind].
  destruct (brelse_ok s4 _ _ src i Hok4) as (s5 & -> & Hok5 & (Hv5 & Hh5 & Hj5) & Hat5); [set_solver|by apply Hat4, Hat3| |].
  { right. rewrite Hv4, Hv3', Hh4', Hh3 by done. rewrite Hv2, Hv1, Hh2, Hh1. apply (view_home s ∅ P); [done|set_solver|done]. }
  cbn [obind].
  destruct (brelse_ok s5 _ _ dst j Hok5) as (s6 & -> & Hok6 & (Hv6 & Hh6 & Hj6) & _); [set_solver|by apply Hat5, Hat4, Hat3| |].
  { right. by rewrite Hv5, Hh5, Hh4, Hv4. }
  exists s6. split; [done|].
  assert (Hvs : view s2 src = view s src) by (by rewrite Hv2, Hv1).
  split; [|split; [split|split]].
  - replace ∅ with (({[dst]} ∪ ({[src]} ∪ ∅)) ∖ {[src]} ∖ {[dst]} : gset Z) by set_solver. done.
  - intros b. cbn. destruct (decide (dst = b)) as [<-|Hb].
    + by rewrite fn_lookup_insert, Hh6, Hh5, Hh4, Hv3, Hvs.
    + rewrite fn_lookup_insert_ne by done. by rewrite Hh6, Hh5, Hh4', Hh3, Hh2, Hh1 by done.
  - by rewrite Hj6, Hj5, Hj4, Hj3, Hj2, Hj1, Hv3, Hvs.
  - by rewrite Hv6, Hv5, Hv4, Hv3.
  - intros b Hb. by rewrite Hv6, Hv5, Hv4, Hv3', Hv2, Hv1 by done.
Qed.

Lemma write_log_body_ok (lg : log) s P tail src :
  cache_ok s ∅ P -> (size P < NBUF)%nat -> getZ (lblock (lh lg)) tail = Some src ->
  let dst := start lg + tail + 1 in
  src <> dst -> dst ∉ P -> src ∈ P -> 0 <= src < FSSIZE -> 0 <= dst < FSSIZE ->
  exists s', write_log_body lg s tail = Ret s' /\ cache_ok s' ∅ P /\
    wrote s s' [(dst, view s src)] /\
    view s' dst = view s src /\ (forall b, b <> dst -> view s' b = view s b).
Proof.
  intros Hok Hsz Hget dst Hne HdP HsP Hsr Hdr. unfold write_log_body. fold dst. rewrite Hget. cbn [of_option].
  destruct (bread_ok s ∅ P dst) as (s1 & i & -> & Hok1 & Hat1 & (Hv1 & Hh1 & Hj1) & _);
    [done|set_solver|done|left; by rewrite union_empty_l_L|]. cbn [obind].
  destruct (bread_ok s1 ({[dst]} ∪ ∅) P src) as (s2 & j & -> & Hok2 & Hat2 & (Hv2 & Hh2 & Hj2) & Hkeep); [done|set_solver|done|by right|].
  pose proof (Hkeep dst i ltac:(set_solver) Hat1) as Hat1'. cbn [obind].
  destruct (at_buf_spec s2 _ _ src j Hok2 Hat2) as [_ ->].
  destruct (set_data_ok s2 _ P dst i (view s2 src) Hok2) as (Hok3 & Hv3 & Hv3' & Hh3 & Hj3 & Hat3); [set_solver|done|].
  set (s3 := set_data s2 i (view s2 src)) in *.
  destruct (bwrite_ok s3 _ P dst i Hok3) as (s4 & -> & Hok4 & Hv4 & Hh4 & Hh4' & Hj4 & Hat4); [set_solver|by apply Hat3|].
  cbn [obind].
  destruct (brelse_ok s4 _ _ src j Hok4) as (s5 & -> & Hok5 & (Hv5 & Hh5 & Hj5) & Hat5); [set_solver|by apply Hat4, Hat3|left; set_solver|].
  cbn [obind].
  destruct (brelse_ok s5 _ _ dst i Hok5) as (s6 & -> & Hok6 & (Hv6 & Hh6 & Hj6) & _); [set_solver|by apply Hat5, Hat4, Hat3| |].
  { right. by rewrite Hv5, Hh5, Hh4, Hv4. }
  exists s6. split; [done|].
  assert (Hvs : view s2 src = view s src) by (by rewrite Hv2, Hv1).
  split; [|split; [split|split]].
  - replace ∅ with (({[src]} ∪ ({[dst]} ∪ ∅)) ∖ {[src]} ∖ {[dst]} : gset Z) by set_solver.
    by replace P with (P ∖ {[dst]}) by set_solver.
  - intros b. cbn. destruct (decide (dst = b)) as [<-|Hb].
    + by rewrite fn_lookup_insert, Hh6, Hh5, Hh4, Hv3, Hvs.
    + rewrite fn_lookup_insert_ne by done. by rewrite Hh6, Hh5, Hh4', Hh3, Hh2, Hh1 by done.
  - by rewrite Hj6, Hj5, Hj4, Hj3, Hj2, Hj1, Hv3, Hvs.
  - by rewrite Hv6, Hv5, Hv4, Hv3.
  - intros b Hb. by rewrite Hv6, Hv5, Hv4, Hv3', Hv2, Hv1 by done.
Qed.

(** ** The header block *)

Lemma fill_head_ok b blocks ixs :
  (forall i, i ∈ ixs -> 0 <= i < Z.of_nat (length blocks)) ->
  exists b', fill_head b blocks ixs = Ret b' /\
    (forall a, (forall i, i ∈ ixs -> a + 4 <= off_block i \/ off_block i + 4 <= a) -> word32 b' a = word32 b a) /\
    (forall i x, i ∈ ixs -> getZ blocks i = Some x -> word32 b' (off_block i) = s32 x).
Proof.
  revert b. induction ixs as [|i ixs IH]; intros b Hr; simpl.
  { exists b. split; [done|]. split; [done|]. intros i x Hi. by apply elem_of_nil in Hi. }
  destruct (getZ_is_Some blocks i (Hr i ltac:(left))) as [x Hx]. rewrite Hx. cbn [of_option obind].
  destruct (IH (put32 b (off_block i) x)) as (b' & -> & Hout & Hin); [intros j Hj; apply Hr; by right|].
  exists b'. split; [done|]. split.
  - intros a Ha. rewrite Hout by (intros j Hj; apply Ha; by right).
    apply word32_put32_ne. apply Ha. left.
  - intros j y Hj Hy. destruct (decide (j ∈ ixs)) as [Hji|Hnj]; [by apply Hin|].
    apply elem_of_cons in Hj as [->|]; [|done]. rewrite Hx in Hy. injection Hy as <-.
    rewrite Hout; [by rewrite word32_put32_eq|]. intros k Hk. unfold off_block.
    assert (k <> i) by (by intros ->). lia.
Qed.

Lemma copy_head_ok b blocks ixs :
  (forall i, i ∈ ixs -> 0 <= i < Z.of_nat (length blocks)) ->
  exists blocks', copy_head b blocks ixs = Ret blocks' /\ length blocks' = length blocks /\
    (forall i, i ∉ ixs -> getZ blocks' i = getZ blocks i) /\
    (forall i, i ∈ ixs -> getZ blocks' i = Some (word32 b (off_block i))).
Proof.
  revert blocks. induction ixs as [|i ixs IH]; intros blocks Hr; simpl.
  { exists blocks. split; [done|]. split; [done|]. split; [done|]. intros i Hi. by apply elem_of_nil in Hi. }
  pose proof (Hr i ltac:(left)) as Hi. pose proof (setZ_Some blocks i (word32 b (off_block i)) Hi) as Hset.
  rewrite Hset. cbn [of_option obind]. set (bl := <[_ := _]> blocks) in *.
  pose proof (setZ_length _ _ _ _ Hset) as Hlen.
  destruct (IH bl) as (bl' & -> & Hl' & Hout & Hin).
  { intros j Hj. rewrite Hlen. apply Hr. by right. }
  exists bl'. split; [done|]. split; [congruence|]. split.
  - intros j [Hji Hj]%not_elem_of_cons. rewrite Hout by done. by eapply setZ_get_ne.
  - intros j Hj. destruct (decide (j ∈ ixs)) as [|Hn]; [by apply Hin|].
    apply elem_of_cons in Hj as [->|]; [|done]. rewrite Hout by done. by eapply setZ_get.
Qed.

(** Reading and writing one unpinned block. *)
Lemma read_block_ok s P bn :
  cache_ok s ∅ P -> (size P < NBUF)%nat -> bn ∉ P -> 0 <= bn < FSSIZE ->
  exists s1 i s2, bread s bn = Ret (s1, i) /\ bdata s1 i = view s bn /\ brelse s1 i = Ret s2 /\
    cache_ok s2 ∅ P /\ same_blocks s s2.
Proof.
  intros Hok Hsz HnP Hr.
  destruct (bread_ok s ∅ P bn) as (s1 & i & Hb & Hok1 & Hat1 & (Hv1 & Hh1 & Hj1) & _);
    [done|set_solver|done|left; by rewrite union_empty_l_L|].
  destruct (at_buf_spec s1 _ _ bn i Hok1 Hat1) as [_ Hd].
  destruct (brelse_ok s1 _ _ bn i Hok1) as (s2 & Hr2 & Hok2 & (Hv2 & Hh2 & Hj2) & _); [set_solver|done| |].
  { right. rewrite Hv1, Hh1. apply (view_home s ∅ P); [done|set_solver|done]. }
  exists s1, i, s2. split; [done|]. split; [by rewrite Hd|]. split; [done|]. split.
  - by replace ∅ with (({[bn]} ∪ ∅) ∖ {[bn]} : gset Z) by set_solver.
  - split; [intros b; by rewrite Hv2|]. split; [intros b; by rewrite Hh2|congruence].
Qed.

Lemma write_head_ok (lg : log) s P :
  cache_ok s ∅ P -> (size P < NBUF)%nat -> start lg ∉ P -> 0 <= start lg < FSSIZE ->
  0 <= n (lh lg) <= Z.of_nat (length (lblock (lh lg))) ->
  exists s' hd, write_head lg s = Ret s' /\ cache_ok s' ∅ P /\ wrote s s' [(start lg, hd)] /\
    view s' (start lg) = hd /\ (forall b, b <> start lg -> view s' b = view s b) /\
    word32 hd off_n = s32 (n (lh lg)) /\
    (forall i x, 0 <= i < n (lh lg) -> getZ (lblock (lh lg)) i = Some x -> word32 hd (off_block i) = s32 x).
Proof.
  intros Hok Hsz HnP Hr Hn. unfold write_head.
  destruct (bread_ok s ∅ P (start lg)) as (s1 & i & -> & Hok1 & Hat1 & (Hv1 & Hh1 & Hj1) & _);
    [done|set_solver|done|left; by rewrite union_empty_l_L|]. cbn [obind].
  destruct (at_buf_spec s1 _ _ (start lg) i Hok1 Hat1) as [_ ->].
  destruct (fill_head_ok (put32 (view s1 (start lg)) off_n (n (lh lg))) (lblock (lh lg)) (seqZ 0 (n (lh lg))))
    as (hd & -> & Hout & Hin).
  { intros k Hk%elem_of_seqZ. lia. }
  cbn [obind].
  destruct (set_data_ok s1 _ P (start lg) i hd Hok1) as (Hok3 & Hv3 & Hv3' & Hh3 & Hj3 & Hat3); [set_solver|done|].
  set (s3 := set_data s1 i hd) in *.
  destruct (bwrite_ok s3 _ P (start lg) i Hok3) as (s4 & -> & Hok4 & Hv4 & Hh4 & Hh4' & Hj4 & Hat4); [|by apply Hat3|];
    [set_solver|]. cbn [obind].
  destruct (brelse_ok s4 _ _ (start lg) i Hok4) as (s5 & -> & Hok5 & (Hv5 & Hh5 & Hj5) & _); [|by apply Hat4, Hat3| |];
    [set_solver| |].
  { right. by rewrite Hh4, Hv4. }
  exists s5, hd. split; [done|]. split; [|split; [split|]].
  - replace ∅ with (({[start lg]} ∪ ∅) ∖ {[start lg]} : gset Z) by set_solver.
    by replace P with (P ∖ {[start lg]}) by set_solver.
  - intros b. cbn. destruct (decide (start lg = b)) as [<-|Hb].
    + by rewrite fn_lookup_insert, Hh5, Hh4, Hv3.
    + by rewrite fn_lookup_insert_ne, Hh5, Hh4', Hh3, Hh1 by done.
  - by rewrite Hj5, Hj4, Hj3, Hj1, Hv3.
  - split; [by rewrite Hv5, Hv4, Hv3|]. split; [intros b Hb; by rewrite Hv5, Hv4, Hv3', Hv1|].
    split.
    + rewrite Hout; [by rewrite word32_put32_eq|]. intros k Hk%elem_of_seqZ. unfold off_n, off_block. lia.
    + intros k x Hk. apply Hin. by apply elem_of_seqZ.
Qed.

Lemma read_head_ok (lg : log) s P :
  cache_ok s ∅ P -> (size P < NBUF)%nat -> start lg ∉ P -> 0 <= start lg < FSSIZE ->
  0 <= word32 (view s (start lg)) off_n <= Z.of_nat (length (lblock (lh lg))) ->
  exists lg' s', read_head lg s = Ret (lg', s') /\ cache_ok s' ∅ P /\ same_blocks s s' /\
    start lg' = start lg /\ log_size lg' = log_size lg /\ outstanding lg' = outstanding lg /\
    committing lg' = committing lg /\
    n (lh lg') = word32 (view s (start lg)) off_n /\ length (lblock (lh lg')) = length (lblock (lh lg)) /\
    (forall i, 0 <= i < n (lh lg') ->
       getZ (lblock (lh lg')) i = Some (word32 (view s (start lg)) (off_block i))).
Proof.
  intros Hok Hsz HnP Hr Hn. unfold read_head.
  destruct (read_block_ok s P (start lg)) as (s1 & i & s2 & -> & Hd & Hrel & Hok2 & Hsame); [done..|].
  cbn [obind]. rewrite Hd.
  destruct (copy_head_ok (view s (start lg)) (lblock (lh lg)) (seqZ 0 (word32 (view s (start lg)) off_n)))
    as (bl & -> & Hlen & _ & Hin).
  { intros k Hk%elem_of_seqZ. lia. }
  cbn [obind]. rewrite Hrel. cbn [obind]. eexists _, s2. split; [done|]. cbn.
  repeat (split; [done|]). intros k Hk. apply Hin, elem_of_seqZ. lia.
Qed.

(** ** The loops *)

(** The home block and the log block of the transaction's entry [t]. *)
Definition blk (lg : log) (t : Z) : Z := default 0 (getZ (lblock (lh lg)) t).
Definition slot (lg : log) (t : Z) : Z := start lg + t + 1.

Definition in_log (lg : log) (b : Z) : Prop := start lg <= b < start lg + log_size lg.

(** The log fits the device and the in-memory header names distinct home
    blocks. *)
Record log_wf (lg : log) : Prop := {
  wf_start : 0 <= start lg;
  wf_size : 1 <= log_size lg <= LOGSIZE;
  wf_end : start lg + log_size lg <= FSSIZE;
  wf_len : length (lblock (lh lg)) = Z.to_nat LOGSIZE;
  wf_n : 0 <= n (lh lg) <= log_size lg - 1;
  wf_blk : forall t, 0 <= t < n (lh lg) -> 0 <= blk lg t < FSSIZE /\ ~ in_log lg (blk lg t);
  wf_inj : forall t t', 0 <= t < n (lh lg) -> 0 <= t' < n (lh lg) -> blk lg t = blk lg t' -> t = t'
}.

Definition entries_of (lg : log) : list Z := seqZ 0 (n (lh lg)).
Definition blks (lg : log) : gset Z := list_to_set (blk lg <$> entries_of lg).

Lemma elem_of_blks lg b : b ∈ blks lg <-> exists t, 0 <= t < n (lh lg) /\ b = blk lg t.
Proof.
  unfold blks, entries_of. rewrite elem_of_list_to_set, list_elem_of_fmap.
  split; [intros (t & -> & Ht%elem_of_seqZ)|intros (t & Ht & ->)]; exists t.
  - split; [lia|done].
  - split; [done|]. apply elem_of_seqZ. lia.
Qed.

Lemma blks_NoDup lg ts : log_wf lg -> NoDup ts -> (forall t, t ∈ ts -> 0 <= t < n (lh lg)) ->
  NoDup (blk lg <$> ts).
Proof.
  intros Hwf Hnd Hts. apply NoDup_fmap_2_strong; [|done].
  intros t t' Ht Ht' Heq. by apply (wf_inj lg Hwf); [apply Hts..|].
Qed.

Lemma blks_size lg : log_wf lg -> (size (blks lg) < NBUF)%nat.
Proof.
  intros Hwf. unfold blks. rewrite size_list_to_set.
  - rewrite length_fmap. unfold entries_of. rewrite length_seqZ. destruct Hwf.
    unfold LOGSIZE, MAXOPBLOCKS, NBUF in *. lia.
  - apply blks_NoDup; [done|apply NoDup_seqZ|]. intros t Ht%elem_of_seqZ. lia.
Qed.

Lemma getZ_blk lg t : log_wf lg -> 0 <= t < n (lh lg) -> getZ (lblock (lh lg)) t = Some (blk lg t).
Proof.
  intros [] Ht. unfold blk. destruct (getZ_is_Some (lblock (lh lg)) t) as [x ->]; [|done].
  rewrite wf_len0. unfold LOGSIZE, MAXOPBLOCKS in *. lia.
Qed.

Lemma slot_in_log lg t : log_wf lg -> 0 <= t < n (lh lg) -> in_log lg (slot lg t) /\ slot lg t <> start lg.
Proof. intros [] Ht. unfold in_log, slot. lia. Qed.

Lemma slot_blk lg t t' : log_wf lg -> 0 <= t < n (lh lg) -> 0 <= t' < n (lh lg) -> slot lg t <> blk lg t'.
Proof.
  intros Hwf Ht Ht' Heq. destruct (wf_blk lg Hwf t' Ht') as [_ Hn]. apply Hn. rewrite <- Heq.
  by apply slot_in_log.
Qed.

(** The writes of [install_trans] and of [write_log], reading from [v]. *)
Definition install_js lg (v : Z -> block) (ts : list Z) : list (Z * block) :=
  (fun t => (blk lg t, v (slot lg t))) <$> ts.
Definition log_js lg (v : Z -> block) (ts : list Z) : list (Z * block) :=
  (fun t => (slot lg t, v (blk lg t))) <$> ts.

Lemma install_from_ok (lg : log) ts s P :
  log_wf lg -> (forall t, t ∈ ts -> 0 <= t < n (lh lg)) -> NoDup ts ->
  cache_ok s ∅ P -> (size P < NBUF)%nat -> (forall b, b ∈ P -> ~ in_log lg b) ->
  (forall t, t ∈ ts -> blk lg t ∈ P \/ (size P + 1 < NBUF)%nat) ->
  exists s', install_from lg s ts = Ret s' /\ cache_ok s' ∅ (P ∖ list_to_set (blk lg <$> ts)) /\
    wrote s s' (install_js lg (view s) ts) /\
    (forall b, view s' b = jrun (view s) (install_js lg (view s) ts) b).
Proof.
  intros Hwf. revert s P. induction ts as [|t ts IH]; intros s P Hts Hnd Hok Hsz HPl Hcap.
  { exists s. split; [done|]. split; [by replace (P ∖ _) with P by set_solver|]. split; [apply wrote_nil|done]. }
  pose proof (Hts t ltac:(left)) as Ht. apply NoDup_cons in Hnd as [Htn Hnd].
  assert (Hts' : forall t', t' ∈ ts -> 0 <= t' < n (lh lg)) by (intros; apply Hts; by right).
  destruct (slot_in_log lg t Hwf Ht) as [Hsl _]. destruct (wf_blk lg Hwf t Ht) as [Hbr _].
  destruct (install_body_ok lg s P t (blk lg t)) as (s1 & Hb & Hok1 & Hw1 & Hv1 & Hv1'); try done.
  { by apply getZ_blk. }
  { by apply slot_blk. }
  { intros Hin. by apply (HPl _ Hin). }
  { pose proof (wf_end lg Hwf). pose proof (wf_start lg Hwf). unfold in_log, slot in Hsl. lia. }
  { apply Hcap. left. }
  fold (slot lg t) in Hw1, Hv1.
  cbn [install_from]. rewrite Hb. cbn [obind].
  assert (Hsub : (size (P ∖ {[blk lg t]}) <= size P)%nat) by (apply subseteq_size; set_solver).
  destruct (IH s1 (P ∖ {[blk lg t]})) as (s2 & Hi & Hok2 & Hw2 & Hv2); [done|done|done|lia|set_solver| |].
  { intros t' Ht'. destruct (Hcap t') as [Hin|Hc]; [by right| |right; lia]. left.
    apply elem_of_difference. split; [done|]. intros Heq%elem_of_singleton.
    apply (wf_inj lg Hwf) in Heq; [by subst|by apply Hts'|done]. }
  assert (Hjs : install_js lg (view s1) ts = install_js lg (view s) ts).
  { apply list_fmap_ext. intros k t' Hk. apply list_elem_of_lookup_2 in Hk. f_equal. apply Hv1'.
    apply slot_blk; [done|by apply Hts'|done]. }
  rewrite Hjs in Hw2, Hv2. exists s2. split; [done|]. split; [|split].
  - replace (P ∖ list_to_set (blk lg <$> t :: ts))
      with (P ∖ {[blk lg t]} ∖ list_to_set (blk lg <$> ts)) by (cbn; set_solver). done.
  - by apply (wrote_app s s1 s2 [_]).
  - intros b. rewrite Hv2. cbn. apply jrun_ext. intros b'.
    destruct (decide (blk lg t = b')) as [<-|Hb']; [by rewrite fn_lookup_insert|].
    rewrite fn_lookup_insert_ne by done. by apply Hv1'.
Qed.

Lemma write_log_from_ok (lg : log) ts s P :
  log_wf lg -> (forall t, t ∈ ts -> 0 <= t < n (lh lg)) ->
  cache_ok s ∅ P -> (size P < NBUF)%nat -> (forall b, b ∈ P -> ~ in_log lg b) ->
  (forall t, t ∈ ts -> blk lg t ∈ P) ->
  exists s', write_log_from lg s ts = Ret s' /\ cache_ok s' ∅ P /\
    wrote s s' (log_js lg (view s) ts) /\
    (forall b, view s' b = jrun (view s) (log_js lg (view s) ts) b).
Proof.
  intros Hwf. revert s. induction ts as [|t ts IH]; intros s Hts Hok Hsz HPl Hcap.
  { exists s. split; [done|]. split; [done|]. split; [apply wrote_nil|done]. }
  pose proof (Hts t ltac:(left)) as Ht.
  assert (Hts' : forall t', t' ∈ ts -> 0 <= t' < n (lh lg)) by (intros; apply Hts; by right).
  destruct (slot_in_log lg t Hwf Ht) as [Hsl _]. destruct (wf_blk lg Hwf t Ht) as [Hbr _].
  destruct (write_log_body_ok lg s P t (blk lg t)) as (s1 & Hb & Hok1 & Hw1 & Hv1 & Hv1'); try done.
  { by apply getZ_blk. }
  { intros Heq. symmetry in Heq. revert Heq. by apply slot_blk. }
  { intros Hin. by apply (HPl _ Hin). }
  { apply Hcap. left. }
  { pose proof (wf_end lg Hwf). pose proof (wf_start lg Hwf). unfold in_log, slot in Hsl. lia. }
  fold (slot lg t) in Hw1, Hv1, Hv1'.
  cbn [write_log_from]. rewrite Hb. cbn [obind].
  destruct (IH s1) as (s2 & Hi & Hok2 & Hw2 & Hv2); [done..| |].
  { intros t' Ht'. apply Hcap. by right. }
  assert (Hjs : log_js lg (view s1) ts = log_js lg (view s) ts).
  { apply list_fmap_ext. intros k t' Hk. apply list_elem_of_lookup_2 in Hk. f_equal. apply Hv1'.
    intros Heq. symmetry in Heq. revert Heq. apply slot_blk; [done|done|by apply Hts']. }
  rewrite Hjs in Hw2, Hv2. exists s2. split; [done|]. split; [done|]. split.
  - by apply (wrote_app s s1 s2 [_]).
  - intros b. rewrite Hv2. cbn. apply jrun_ext. intros b'.
    destruct (decide (slot lg t = b')) as [<-|Hb']; [by rewrite fn_lookup_insert|].
    rewrite fn_lookup_insert_ne by done. by apply Hv1'.
Qed.
End spec.

(** ** What a recovery computes *)

(** The header of a disk, as [read_head] decodes it. *)
Definition head_n (st : Z) (d : Z -> block) : Z := word32 (d st) off_n.
Definition head_block (st : Z) (d : Z -> block) (t : Z) : Z := word32 (d st) (off_block t).

(** The disk with the logged blocks installed. *)
Definition recovered (st : Z) (d : Z -> block) : Z -> block :=
  jrun d ((fun t => (head_block st d t, d (st + t + 1))) <$> seqZ 0 (head_n st d)).

(** The header of [d] describes the transaction of [lg]. *)
Definition head_is (lg : log) (d : Z -> block) : Prop :=
  head_n (start lg) d = n (lh lg) /\
  forall t, 0 <= t < n (lh lg) -> head_block (start lg) d t = blk lg t.

Lemma recovered_empty st d : head_n st d = 0 -> recovered st d = d.
Proof. intros Hn. unfold recovered. by rewrite Hn. Qed.

Lemma recovered_head lg d :
  head_is lg d -> recovered (start lg) d = jrun d (install_js lg d (entries_of lg)).
Proof.
  intros [Hn Hb]. unfold recovered, install_js, entries_of. rewrite Hn. f_equal.
  apply list_fmap_ext. intros k t Ht. apply list_elem_of_lookup_2, elem_of_seqZ in Ht.
  rewrite Hb by lia. done.
Qed.

Lemma fst_install lg v ts : (install_js lg v ts).*1 = blk lg <$> ts.
Proof. unfold install_js. by rewrite <- list_fmap_compose. Qed.
Lemma fst_log lg v ts : (log_js lg v ts).*1 = slot lg <$> ts.
Proof. unfold log_js. by rewrite <- list_fmap_compose. Qed.

Section crash.
Context (lg : log) (Hwf : log_wf lg).

Lemma log_entries_range t : t ∈ entries_of lg <-> 0 <= t < n (lh lg).
Proof. unfold entries_of. rewrite elem_of_seqZ. lia. Qed.

Lemma entries_NoDup : NoDup (entries_of lg).
Proof. apply NoDup_seqZ. Qed.

(** Writes of [js] all fall outside the header. *)
Lemma head_is_jrun d js : start lg ∉ js.*1 -> head_is lg d -> head_is lg (jrun d js).
Proof. intros Hn. unfold head_is, head_n, head_block. by rewrite jrun_notin. Qed.

Lemma head_n_jrun d js : start lg ∉ js.*1 -> head_n (start lg) (jrun d js) = head_n (start lg) d.
Proof. intros Hn. unfold head_n. by rewrite jrun_notin. Qed.

Lemma start_notin_slots (ts : list Z) : (forall t, t ∈ ts -> 0 <= t < n (lh lg)) -> start lg ∉ (slot lg <$> ts).
Proof.
  intros Hts. rewrite list_elem_of_fmap. intros (t & Heq & Ht).
  destruct (slot_in_log lg t Hwf (Hts t Ht)) as [_ Hn]. congruence.
Qed.

Lemma start_in_log : in_log lg (start lg).
Proof. destruct Hwf. unfold in_log. lia. Qed.

Lemma start_notin_blks (ts : list Z) : (forall t, t ∈ ts -> 0 <= t < n (lh lg)) -> start lg ∉ (blk lg <$> ts).
Proof.
  intros Hts. rewrite list_elem_of_fmap. intros (t & Heq & Ht).
  destruct (wf_blk lg Hwf t (Hts t Ht)) as [_ Hn]. apply Hn. rewrite <- Heq. apply start_in_log.
Qed.

Lemma take_range {A} (f : Z -> A) k (ts : list Z) : take k (f <$> ts) = f <$> take k ts.
Proof. apply firstn_map. Qed.

Lemma in_take {A} k (l : list A) x : x ∈ take k l -> x ∈ l.
Proof. intros Hx. rewrite <- (take_drop k l). apply elem_of_app. by left. Qed.

(** A home block after the installation of entries [ts] of [v]. *)
Lemma jrun_install d v ts b : NoDup ts -> (forall t, t ∈ ts -> 0 <= t < n (lh lg)) ->
  (exists t, t ∈ ts /\ b = blk lg t /\ jrun d (install_js lg v ts) b = v (slot lg t)) \/
  (b ∉ (blk lg <$> ts) /\ jrun d (install_js lg v ts) b = d b).
Proof.
  intros Hnd Hts. destruct (decide (b ∈ (blk lg <$> ts))) as [Hin|Hn].
  - left. apply list_elem_of_fmap in Hin as (t & -> & Ht). exists t. split; [done|]. split; [done|].
    apply jrun_in.
    + rewrite fst_install. by apply blks_NoDup.
    + apply list_elem_of_fmap. by exists t.
  - right. split; [done|]. apply jrun_notin. by rewrite fst_install.
Qed.

(** Interrupting the installation does not change what a recovery gives. *)
Lemma recovered_installed d k b :
  head_is lg d ->
  let d' := jrun d (take k (install_js lg d (entries_of lg))) in
  head_is lg d' /\ recovered (start lg) d' b = recovered (start lg) d b.
Proof.
  intros Hh d'. unfold d'. unfold install_js. rewrite take_range.
  fold (install_js lg d (take k (entries_of lg))). fold d'. clear d'. set (d' := jrun d _).
  assert (Hts : forall t, t ∈ take k (entries_of lg) -> 0 <= t < n (lh lg))
    by (intros t Ht; by apply log_entries_range, (in_take k)).
  assert (Hh' : head_is lg d').
  { apply head_is_jrun; [|done]. rewrite fst_install. by apply start_notin_blks. }
  split; [done|]. rewrite !recovered_head by done.
  assert (Hsl : install_js lg d' (entries_of lg) = install_js lg d (entries_of lg)).
  { apply list_fmap_ext. intros i t Ht. apply list_elem_of_lookup_2, log_entries_range in Ht. f_equal.
    apply jrun_notin. rewrite fst_install, list_elem_of_fmap. intros (t' & Heq & Ht').
    revert Heq. apply slot_blk; [done|done|by apply Hts]. }
  rewrite Hsl. apply jrun_agree. rewrite fst_install.
  destruct (decide (b ∈ (blk lg <$> entries_of lg))) as [|Hn]; [by left|right].
  apply jrun_notin. rewrite fst_install. intros Hin. apply Hn.
  apply list_elem_of_fmap in Hin as (t & -> & Ht). apply list_elem_of_fmap. exists t. split; [done|].
  by eapply in_take.
Qed.

(** The disk after [write_log] and [write_head] of the contents [v]. *)
Lemma recovered_committed d v hd b :
  head_is lg (<[start lg := hd]> (jrun d (log_js lg v (entries_of lg)))) ->
  (forall b, ~ in_log lg b -> b ∉ blks lg -> v b = d b) -> ~ in_log lg b ->
  recovered (start lg) (<[start lg := hd]> (jrun d (log_js lg v (entries_of lg)))) b = v b.
Proof.
  intros Hh Hv Hb. set (d2 := <[_ := _]> _) in *. rewrite recovered_head by done.
  assert (Hslots : forall t, 0 <= t < n (lh lg) -> d2 (slot lg t) = v (blk lg t)).
  { intros t Ht. unfold d2. destruct (slot_in_log lg t Hwf Ht) as [_ Hne].
    rewrite fn_lookup_insert_ne by done. apply jrun_in.
    - rewrite fst_log. apply NoDup_fmap_2; [|apply entries_NoDup]. intros x y. unfold slot. lia.
    - apply list_elem_of_fmap. exists t. split; [done|]. by apply log_entries_range. }
  destruct (jrun_install d2 d2 (entries_of lg) b) as [(t & Ht & -> & ->)|[Hn ->]].
  - apply entries_NoDup.
  - intros t. apply log_entries_range.
  - by apply Hslots, log_entries_range.
  - unfold d2. rewrite fn_lookup_insert_ne.
    2: { intros <-. apply Hb. apply start_in_log. }
    rewrite jrun_notin.
    + symmetry. apply Hv; [done|]. unfold blks. by rewrite elem_of_list_to_set.
    + rewrite fst_log, list_elem_of_fmap. intros (t & -> & Ht). apply Hb, slot_in_log; [done|].
      by apply log_entries_range.
Qed.

Lemma recovered_install_done d b :
  head_is lg d -> jrun d (install_js lg d (entries_of lg)) b = recovered (start lg) d b.
Proof. intros Hh. by rewrite recovered_head. Qed.
End crash.

(** ** Commit and recovery *)

Section commit.
Context {S : Type} `{BlockCacheSpec S}.
Implicit Types (s : S) (P : gset Z).

Lemma blks_not_in_log lg b : log_wf lg -> b ∈ blks lg -> ~ in_log lg b.
Proof. intros Hwf (t & Ht & ->)%elem_of_blks. by apply (wf_blk lg Hwf). Qed.

Lemma start_range lg : log_wf lg -> 0 <= start lg < FSSIZE.
Proof. intros []. lia. Qed.

Lemma head_room lg : log_wf lg -> 0 <= n (lh lg) <= Z.of_nat (length (lblock (lh lg))).
Proof. intros [? ? ? Hl ? ? ?]. rewrite Hl. unfold LOGSIZE, MAXOPBLOCKS in *. lia. Qed.

(** A header just written describes the transaction. *)
Lemma written_head lg d hd :
  log_wf lg -> word32 hd off_n = s32 (n (lh lg)) ->
  (forall i x, 0 <= i < n (lh lg) -> getZ (lblock (lh lg)) i = Some x -> word32 hd (off_block i) = s32 x) ->
  head_is lg (<[start lg := hd]> d).
Proof.
  intros Hwf Hn Hb. unfold head_is, head_n, head_block. rewrite fn_lookup_insert. split.
  - rewrite Hn. apply s32_small. destruct Hwf. unfold is_s32, LOGSIZE, MAXOPBLOCKS in *. lia.
  - intros t Ht. rewrite (Hb t (blk lg t)) by (done || by apply getZ_blk). apply s32_small.
    destruct (wf_blk lg Hwf t Ht) as [Hr _]. unfold is_s32, FSSIZE in *. lia.
Qed.

Definition cleared (lg : log) : log := with_lh {| n := 0; lblock := lblock (lh lg) |} lg.

Lemma write_log_phase lg s :
  log_wf lg -> cache_ok s ∅ (blks lg) ->
  exists s', write_log lg s = Ret s' /\ cache_ok s' ∅ (blks lg) /\
    wrote s s' (log_js lg (view s) (entries_of lg)) /\
    (forall b, view s' b = jrun (view s) (log_js lg (view s) (entries_of lg)) b).
Proof.
  intros Hwf Hok. apply write_log_from_ok; [done| |done|by apply blks_size| |].
  - intros t. apply log_entries_range.
  - intros b. by apply blks_not_in_log.
  - intros t Ht%log_entries_range. apply elem_of_blks. by exists t.
Qed.

Lemma install_phase lg s P :
  log_wf lg -> cache_ok s ∅ P -> (P = blks lg \/ P = ∅) ->
  exists s', install_trans lg s = Ret s' /\ cache_ok s' ∅ ∅ /\
    wrote s s' (install_js lg (view s) (entries_of lg)) /\
    (forall b, view s' b = jrun (view s) (install_js lg (view s) (entries_of lg)) b).
Proof.
  intros Hwf Hok HP.
  destruct (install_from_ok lg (entries_of lg) s P) as (s' & Hi & Hok' & Hw & Hv); [done| |apply NoDup_seqZ|done| | | |].
  - intros t. apply log_entries_range.
  - destruct HP as [-> | ->]; [by apply blks_size|]. rewrite size_empty. unfold NBUF. lia.
  - intros b Hb. destruct HP as [-> | ->]; [by apply blks_not_in_log|set_solver].
  - intros t Ht%log_entries_range. destruct HP as [-> | ->]; [left; apply elem_of_blks; by exists t|].
    right. rewrite size_empty. unfold NBUF. lia.
  - exists s'. split; [done|]. split; [|done]. fold (blks lg) in Hok'.
    replace ∅ with (P ∖ blks lg) at 2; [done|]. destruct HP as [-> | ->]; set_solver.
Qed.

Lemma write_head_phase lg s P :
  log_wf lg -> cache_ok s ∅ P -> (P = blks lg \/ P = ∅) ->
  exists s' hd, write_head lg s = Ret s' /\ cache_ok s' ∅ P /\ wrote s s' [(start lg, hd)] /\
    (forall d, head_is lg (<[start lg := hd]> d)) /\
    (forall b, b <> start lg -> view s' b = view s b).
Proof.
  intros Hwf Hok HP.
  destruct (write_head_ok lg s P) as (s' & hd & Hw & Hok' & Hwr & _ & Hv & Hn & Hb); [done| | | | |].
  - destruct HP as [-> | ->]; [by apply blks_size|]. rewrite size_empty. unfold NBUF. lia.
  - destruct HP as [-> | ->]; [|set_solver]. intros Hin%blks_not_in_log; [|done]. apply Hin. by apply start_in_log.
  - by apply start_range.
  - by apply head_room.
  - exists s', hd. split; [done|]. split; [done|]. split; [done|]. split; [|done].
    intros d. by apply written_head.
Qed.

Lemma cleared_wf lg : log_wf lg -> log_wf (cleared lg).
Proof. intros []. split; cbn; try done; try lia. Qed.

Lemma head_is_cleared lg d : head_is (cleared lg) d -> head_n (start lg) d = 0.
Proof. by intros [Hn _]. Qed.

(** The disk writes of a commit and the state it leaves. *)
Lemma commit_ok lg s :
  log_wf lg -> 0 < n (lh lg) -> cache_ok s ∅ (blks lg) ->
  exists s' hd hd0,
    commit lg s = Ret (cleared lg, s') /\ cache_ok s' ∅ ∅ /\
    wrote s s' ((log_js lg (view s) (entries_of lg) ++ [(start lg, hd)]) ++
                install_js lg (jrun (view s) (log_js lg (view s) (entries_of lg))) (entries_of lg) ++ [(start lg, hd0)]) /\
    (forall d, head_is lg (<[start lg := hd]> d)) /\
    (forall d, head_n (start lg) (<[start lg := hd0]> d) = 0) /\
    (forall b, ~ in_log lg b -> view s' b = view s b).
Proof.
  intros Hwf Hn Hok. unfold commit. destruct (Z.ltb_spec 0 (n (lh lg))); [|lia].
  destruct (write_log_phase lg s Hwf Hok) as (s1 & -> & Hok1 & Hw1 & Hv1). cbn [obind].
  destruct (write_head_phase lg s1 _ Hwf Hok1) as (s2 & hd & -> & Hok2 & Hw2 & Hhd & Hv2); [by left|]. cbn [obind].
  destruct (install_phase lg s2 _ Hwf Hok2) as (s3 & -> & Hok3 & Hw3 & Hv3); [by left|]. cbn [obind].
  destruct (write_head_phase (cleared lg) s3 ∅ (cleared_wf lg Hwf) Hok3) as (s4 & hd0 & Hwh & Hok4 & Hw4 & Hhd0 & Hv4);
    [by right|].
  unfold cleared in Hwh. rewrite Hwh. cbn [obind].
  exists s4, hd, hd0. split; [done|]. split; [done|].
  assert (Hjs : install_js lg (view s2) (entries_of lg) =
                install_js lg (jrun (view s) (log_js lg (view s) (entries_of lg))) (entries_of lg)).
  { apply list_fmap_ext. intros i t Ht. apply list_elem_of_lookup_2, log_entries_range in Ht. f_equal.
    rewrite Hv2, Hv1; [done|]. by apply slot_in_log. }
  split; [|split; [done|split]].
  - rewrite <- Hjs. eapply wrote_app; [by eapply wrote_app|by eapply wrote_app].
  - intros d. by eapply head_is_cleared.
  - intros b Hb. assert (Hne : b <> start lg) by (intros ->; apply Hb; by apply start_in_log).
    assert (Hlog : forall b, ~ in_log lg b -> view s1 b = view s b).
    { intros x Hx. rewrite Hv1. apply jrun_notin. rewrite fst_log, list_elem_of_fmap.
      intros (t & -> & Ht%log_entries_range). apply Hx. by apply slot_in_log. }
    rewrite Hv4, Hv3 by done.
    destruct (jrun_install lg Hwf (view s2) (view s2) (entries_of lg) b) as [(t & Ht & -> & ->)|[_ ->]].
    + apply NoDup_seqZ.
    + intros t. apply log_entries_range.
    + apply log_entries_range in Ht. destruct (slot_in_log lg t Hwf Ht) as [_ Hs].
      rewrite Hv2, Hv1 by done. apply jrun_in.
      * rewrite fst_log. apply NoDup_fmap_2; [|apply NoDup_seqZ]. intros x y. unfold slot. lia.
      * apply list_elem_of_fmap. exists t. split; [done|]. by apply log_entries_range.
    + rewrite Hv2 by done. by apply Hlog.
Qed.

(** The header on a disk is one the log code wrote: at most [sz - 1] distinct
    home blocks. *)
Record header_ok (st sz : Z) (d : Z -> block) : Prop := {
  ho_n : 0 <= head_n st d <= sz - 1;
  ho_blk : forall t, 0 <= t < head_n st d ->
    0 <= head_block st d t < FSSIZE /\ ~ (st <= head_block st d t < st + sz);
  ho_inj : forall t t', 0 <= t < head_n st d -> 0 <= t' < head_n st d ->
    head_block st d t = head_block st d t' -> t = t'
}.

Lemma header_ok_empty st sz d : 1 <= sz -> head_n st d = 0 -> header_ok st sz d.
Proof. intros Hsz Hn. split; rewrite ?Hn; lia. Qed.

Lemma header_ok_head lg d : log_wf lg -> head_is lg d -> header_ok (start lg) (log_size lg) d.
Proof.
  intros Hwf [Hn Hb]. split; rewrite ?Hn.
  - apply Hwf.
  - intros t Ht. rewrite Hb by done. by apply (wf_blk lg Hwf).
  - intros t t' Ht Ht'. rewrite !Hb by done. by apply (wf_inj lg Hwf).
Qed.

(** The prefixes of a commit's writes. *)
Lemma commit_crash lg d v hd hd0 :
  log_wf lg -> (forall d, head_is lg (<[start lg := hd]> d)) ->
  (forall d, head_n (start lg) (<[start lg := hd0]> d) = 0) ->
  head_n (start lg) d = 0 -> (forall b, ~ in_log lg b -> b ∉ blks lg -> v b = d b) ->
  all_crash (fun d' => header_ok (start lg) (log_size lg) d' /\
      ((forall b, ~ in_log lg b -> recovered (start lg) d' b = d b) \/
       (forall b, ~ in_log lg b -> recovered (start lg) d' b = v b))) d
    ((log_js lg v (entries_of lg) ++ [(start lg, hd)]) ++
     install_js lg (jrun v (log_js lg v (entries_of lg))) (entries_of lg) ++ [(start lg, hd0)]).
Proof.
  intros Hwf Hhd Hhd0 Hd0 Hv.
  assert (Hsz : 1 <= log_size lg) by apply Hwf.
  set (d2 := <[start lg := hd]> (jrun d (log_js lg v (entries_of lg)))).
  assert (Hh2 : head_is lg d2) by apply Hhd.
  assert (Hnew : forall b, ~ in_log lg b -> recovered (start lg) d2 b = v b)
    by (intros b Hb; by apply recovered_committed).
  assert (Hsl : install_js lg (jrun v (log_js lg v (entries_of lg))) (entries_of lg) = install_js lg d2 (entries_of lg)).
  { apply list_fmap_ext. intros i t Ht. apply list_elem_of_lookup_2, log_entries_range in Ht. f_equal.
    destruct (slot_in_log lg t Hwf Ht) as [_ Hne]. unfold d2. rewrite fn_lookup_insert_ne by done.
    apply jrun_agree. left. rewrite fst_log. apply list_elem_of_fmap. exists t. split; [done|]. by apply log_entries_range. }
  rewrite Hsl.
  assert (Hinst : forall k, let d' := jrun d2 (take k (install_js lg d2 (entries_of lg))) in
    header_ok (start lg) (log_size lg) d' /\ forall b, ~ in_log lg b -> recovered (start lg) d' b = v b).
  { intros k d'. split.
    - apply header_ok_head; [done|]. by apply (recovered_installed lg Hwf d2 k 0 Hh2).
    - intros b Hb. rewrite <- Hnew by done. by apply (recovered_installed lg Hwf d2 k b Hh2). }
  apply all_crash_app; [apply all_crash_app|].
  - intros k. unfold log_js. rewrite take_range. fold (log_js lg v (take k (entries_of lg))).
    assert (Hns : start lg ∉ (log_js lg v (take k (entries_of lg))).*1).
    { rewrite fst_log. apply start_notin_slots; [done|]. intros t Ht. by apply log_entries_range, (in_take k). }
    assert (Hn : head_n (start lg) (jrun d (log_js lg v (take k (entries_of lg)))) = 0)
      by (unfold head_n; by rewrite jrun_notin).
    split; [by apply header_ok_empty|]. left. intros b Hb. rewrite recovered_empty by done.
    apply jrun_notin. rewrite fst_log, list_elem_of_fmap. intros (t & -> & Ht).
    apply Hb, slot_in_log; [done|]. by apply log_entries_range, (in_take k).
  - apply all_crash_one.
    + assert (Hn : head_n (start lg) (jrun d (log_js lg v (entries_of lg))) = 0).
      { unfold head_n. rewrite jrun_notin; [done|]. rewrite fst_log. apply start_notin_slots; [done|].
        intros t. apply log_entries_range. }
      split; [by apply header_ok_empty|]. left. intros b Hb. rewrite recovered_empty by done.
      apply jrun_notin. rewrite fst_log, list_elem_of_fmap. intros (t & -> & Ht).
      apply Hb, slot_in_log; [done|]. by apply log_entries_range.
    + cbn. split; [apply header_ok_head; [done|apply Hhd]|]. by right.
  - rewrite jrun_app. cbn [jrun]. fold d2. apply all_crash_app.
    + intros k. destruct (Hinst k) as [H1 H2]. split; [done|]. by right.
    + apply all_crash_one.
      * destruct (Hinst (length (install_js lg d2 (entries_of lg)))) as [H1 H2].
        rewrite take_ge in H1, H2 by done. split; [done|]. by right.
      * cbn. split; [apply header_ok_empty; [done|apply Hhd0]|]. right. intros b Hb.
        rewrite recovered_empty by apply Hhd0. rewrite fn_lookup_insert_ne.
        2: { intros <-. apply Hb. by apply start_in_log. }
        rewrite (recovered_install_done lg) by apply Hhd. by apply Hnew.
Qed.

(** The log geometry [initlog] reads from the super block. *)
Record geometry (lg : log) : Prop := {
  ge_start : 0 <= start lg;
  ge_size : 1 <= log_size lg <= LOGSIZE;
  ge_end : start lg + log_size lg <= FSSIZE;
  ge_len : length (lblock (lh lg)) = Z.to_nat LOGSIZE
}.

Lemma geometry_wf lg d :
  geometry lg -> header_ok (start lg) (log_size lg) d -> n (lh lg) = head_n (start lg) d ->
  (forall i, 0 <= i < n (lh lg) -> getZ (lblock (lh lg)) i = Some (head_block (start lg) d i)) ->
  log_wf lg /\ head_is lg d.
Proof.
  intros [] [Hn Hb Hinj] Heq Hget.
  assert (Hblk : forall t, 0 <= t < n (lh lg) -> blk lg t = head_block (start lg) d t).
  { intros t Ht. unfold blk. by rewrite Hget. }
  split; [split; try done|].
  - by rewrite Heq.
  - intros t Ht. rewrite Hblk by done. apply Hb. by rewrite <- Heq.
  - intros t t' Ht Ht'. rewrite !Hblk by done. apply Hinj; by rewrite <- Heq.
  - split; [done|]. intros t Ht. by rewrite Hblk.
Qed.

Lemma recover_ok lg s :
  geometry lg -> cache_ok s ∅ ∅ -> header_ok (start lg) (log_size lg) (home s) ->
  exists lg' s' js, recover_from_log lg s = Ret (lg', s') /\ n (lh lg') = 0 /\ cache_ok s' ∅ ∅ /\
    wrote s s' js /\ head_n (start lg) (home s') = 0 /\
    (forall b, ~ in_log lg b -> home s' b = recovered (start lg) (home s) b) /\
    all_crash (fun d => header_ok (start lg) (log_size lg) d /\
       forall b, ~ in_log lg b -> recovered (start lg) d b = recovered (start lg) (home s) b) (home s) js.
Proof.
  intros Hge Hok Hho. unfold recover_from_log.
  assert (Hvh : forall b, view s b = home s b) by (intros b; apply (view_home s ∅ ∅); [done|set_solver..]).
  destruct (read_head_ok lg s ∅) as (lg1 & s1 & -> & Hok1 & (Hv1 & Hh1 & Hj1) & Hst & Hsz & _ & _ & Hn & Hl & Hb);
    [done|rewrite size_empty; unfold NBUF; lia|set_solver| | |].
  { destruct Hge. lia. }
  { rewrite Hvh. fold (head_n (start lg) (home s)). destruct Hge, Hho. rewrite ge_len0.
    unfold LOGSIZE, MAXOPBLOCKS in *. lia. }
  cbn [obind]. rewrite Hvh in Hn, Hb.
  destruct (geometry_wf lg1 (home s)) as [Hwf Hhead].
  { destruct Hge. split; rewrite ?Hst, ?Hsz, ?Hl; done. }
  { by rewrite Hst, Hsz. }
  { by rewrite Hst. }
  { intros i Hi. rewrite Hst. by apply Hb. }
  destruct (install_phase lg1 s1 ∅ Hwf Hok1) as (s2 & -> & Hok2 & Hw2 & Hv2); [by right|]. cbn [obind].
  destruct (write_head_phase (cleared lg1) s2 ∅ (cleared_wf lg1 Hwf) Hok2) as (s3 & hd0 & Hwh & Hok3 & Hw3 & Hhd0 & Hv3);
    [by right|].
  unfold cleared in Hwh. rewrite Hwh. cbn [obind].
  assert (Hjs : install_js lg1 (view s1) (entries_of lg1) = install_js lg1 (home s) (entries_of lg1)).
  { apply list_fmap_ext. intros i t _. f_equal. by rewrite Hv1, Hvh. }
  rewrite Hjs in Hw2. change (start (cleared lg1)) with (start lg1) in *.
  assert (Hw1 : wrote s s1 []) by (split; [done|by rewrite Hj1, app_nil_r]).
  pose proof (wrote_app _ _ _ _ _ (wrote_app _ _ _ _ _ Hw1 Hw2) Hw3) as Hw. cbn [app] in Hw.
  eexists _, s3, _. split; [done|]. split; [done|]. split; [done|]. split; [exact Hw|].
  assert (Hin : forall b, ~ in_log lg b -> b <> start lg1).
  { intros b Hb' ->. apply Hb'. unfold in_log. rewrite Hst. destruct Hge. lia. }
  pose proof (fun d => head_is_cleared lg1 _ (Hhd0 d)) as Hz. rewrite <- Hst.
  split; [|split].
  - rewrite <- (Hz (jrun (home s) (install_js lg1 (home s) (entries_of lg1)))). unfold head_n. f_equal.
    destruct Hw as [Hw _]. by rewrite Hw, jrun_app.
  - intros b Hb'. destruct Hw as [Hw _]. rewrite Hw, jrun_app. cbn [jrun].
    rewrite fn_lookup_insert_ne by (by apply not_eq_sym, Hin). by apply recovered_install_done.
  - rewrite <- Hsz. apply all_crash_app.
    + intros k. split.
      * apply header_ok_head; [done|]. by apply (recovered_installed lg1 Hwf (home s) k 0).
      * intros b _. by apply (recovered_installed lg1 Hwf (home s) k b).
    + apply all_crash_one.
      * split.
        -- apply header_ok_head; [done|]. apply head_is_jrun; [|done]. rewrite fst_install.
           apply start_notin_blks; [done|]. intros t. apply log_entries_range.
        -- intros b _. pose proof (recovered_installed lg1 Hwf (home s) (length (install_js lg1 (home s) (entries_of lg1))) b Hhead) as [_ Hr].
           by rewrite take_ge in Hr.
      * cbn [jrun]. split; [apply header_ok_empty; [apply Hwf|apply Hz]|]. intros b Hb'.
        rewrite recovered_empty by apply Hz. rewrite fn_lookup_insert_ne by (by apply not_eq_sym, Hin).
        by apply recovered_install_done.
Qed.
End commit.
End LogSpec.
