(* ===== verification/LogThms.v ===== *)
(** * The properties of the log

    Absorption and admission of system calls, commit atomicity and recovery,
    the last two instantiated with the buffer cache of [Bio]. *)

From stdpp Require Import functions.
From S2P Require Import Prelude DfsImage Bio Log LogSpec.
Import Log LogSpec.
Local Open Scope Z_scope.
Local Open Scope xv6_scope.

Module LogThms.

(** ** log_write *)

Lemma absorb_index_spec blocks bn ixs m :
  (forall i, i ∈ ixs -> 0 <= i < Z.of_nat (length blocks)) ->
  (exists xs1 xs2 i, ixs = xs1 ++ i :: xs2 /\ getZ blocks i = Some bn /\
     absorb_index blocks bn ixs m = Ret i) \/
  ((forall i, i ∈ ixs -> getZ blocks i <> Some bn) /\ absorb_index blocks bn ixs m = Ret m).
Proof.
  induction ixs as [|i ixs IH]; intros Hr; simpl.
  { right. split; [|done]. intros i Hi. by apply elem_of_nil in Hi. }
  destruct (getZ_is_Some blocks i (Hr i ltac:(left))) as [x Hx]. rewrite Hx. cbn [of_option obind].
  destruct (Z.eqb_spec x bn) as [->|Hne].
  - left. by exists [], ixs, i.
  - destruct IH as [(xs1 & xs2 & j & -> & Hj & ->)|[Hno ->]]; [intros j Hj; apply Hr; by right| |].
    + left. by exists (i :: xs1), xs2, j.
    + right. split; [|done]. intros j [->|Hj]%elem_of_cons; [congruence|by apply Hno].
Qed.

Definition room (lg : log) : Prop :=
  0 <= n (lh lg) < LOGSIZE /\ n (lh lg) < log_size lg - 1 /\ 1 <= outstanding lg /\
  length (lblock (lh lg)) = Z.to_nat LOGSIZE.

Lemma log_append_spec lg bn :
  room lg ->
  exists lg', log_append lg bn = Ret lg' /\
    start lg' = start lg /\ log_size lg' = log_size lg /\ outstanding lg' = outstanding lg /\
    committing lg' = committing lg /\ length (lblock (lh lg')) = length (lblock (lh lg)) /\
    ((exists t, 0 <= t < n (lh lg) /\ getZ (lblock (lh lg)) t = Some bn /\ n (lh lg') = n (lh lg) /\
        forall i, getZ (lblock (lh lg')) i = getZ (lblock (lh lg)) i) \/
     ((forall t, 0 <= t < n (lh lg) -> getZ (lblock (lh lg)) t <> Some bn) /\ n (lh lg') = n (lh lg) + 1 /\
        getZ (lblock (lh lg')) (n (lh lg)) = Some bn /\
        forall i, i <> n (lh lg) -> getZ (lblock (lh lg')) i = getZ (lblock (lh lg)) i)).
Proof.
  intros (Hn & Hsz & Hout & Hlen). unfold log_append.
  destruct (Z.leb_spec LOGSIZE (n (lh lg))); [lia|]. destruct (Z.leb_spec (log_size lg - 1) (n (lh lg))); [lia|].
  cbn [orb]. destruct (Z.ltb_spec (outstanding lg) 1); [lia|].
  assert (Hl : Z.of_nat (length (lblock (lh lg))) = LOGSIZE) by (rewrite Hlen; done).
  destruct (absorb_index_spec (lblock (lh lg)) bn (seqZ 0 (n (lh lg))) (n (lh lg)))
    as [(xs1 & xs2 & t & Hsplit & Ht & ->)|[Hno ->]].
  - intros i Hi%elem_of_seqZ. lia.
  - cbn [obind]. assert (Htr : 0 <= t < n (lh lg)).
    { apply (elem_of_seqZ 0) with (n := n (lh lg)). rewrite Hsplit. apply elem_of_app. right. left. }
    pose proof (setZ_Some (lblock (lh lg)) t bn ltac:(lia)) as Hset. rewrite Hset. cbn [of_option obind].
    eexists. split; [done|]. cbn. repeat (split; [done|]).
    split; [by eapply setZ_length|]. left. exists t. split; [done|]. split; [done|]. split.
    + destruct (Z.eqb_spec t (n (lh lg))); lia.
    + intros i. destruct (decide (t = i)) as [<-|Hne]; [by rewrite (setZ_get _ _ _ _ Hset)|].
      by eapply setZ_get_ne.
  - cbn [obind]. pose proof (setZ_Some (lblock (lh lg)) (n (lh lg)) bn ltac:(lia)) as Hset.
    rewrite Hset. cbn [of_option obind].
    eexists. split; [done|]. cbn. repeat (split; [done|]).
    split; [by eapply setZ_length|]. right. split.
    + intros t Ht. apply Hno, elem_of_seqZ. lia.
    + rewrite Z.eqb_refl. split; [done|]. split; [by eapply setZ_get|].
      intros i Hi. eapply setZ_get_ne; [done|]. by apply not_eq_sym.
Qed.

(** ** Admission of system calls *)

(** The log and, for each system call between [begin_op] and [end_op], how
    many times it has called [log_write]. *)
Definition astate : Type := log * list Z.

Inductive astep : astate -> astate -> Prop :=
| a_begin lg lg' ops :
    begin_op lg = Ret lg' -> astep (lg, ops) (lg', 0 :: ops)
| a_write lg lg' bn o1 k o2 :
    k < MAXOPBLOCKS -> log_append lg bn = Ret lg' ->
    astep (lg, o1 ++ k :: o2) (lg', o1 ++ (k + 1) :: o2)
| a_end lg lg' o1 k o2 c :
    end_op_enter lg = Ret (lg', c) -> astep (lg, o1 ++ k :: o2) (lg', o1 ++ o2)
| a_commit_done lg ops :
    committing lg = true -> astep (lg, ops) (end_op_leave (cleared lg), ops).

(** Writes the calls in progress may still make. *)
Fixpoint reserved (ops : list Z) : Z :=
  match ops with [] => 0 | k :: ops => MAXOPBLOCKS - k + reserved ops end.

Lemma reserved_app o1 o2 : reserved (o1 ++ o2) = reserved o1 + reserved o2.
Proof. induction o1 as [|k o1 IH]; simpl; lia. Qed.

Record admitted (s : astate) : Prop := {
  ad_out : outstanding s.1 = Z.of_nat (length s.2);
  ad_commit : committing s.1 = true -> s.2 = [];
  ad_n : 0 <= n (lh s.1);
  ad_ops : Forall (fun k => 0 <= k <= MAXOPBLOCKS) s.2;
  ad_room : n (lh s.1) + reserved s.2 <= LOGSIZE;
  ad_len : length (lblock (lh s.1)) = Z.to_nat LOGSIZE
}.

Lemma reserved_nonneg ops : Forall (fun k => 0 <= k <= MAXOPBLOCKS) ops -> 0 <= reserved ops.
Proof. induction 1; simpl; lia. Qed.

Lemma reserved_bound ops : Forall (fun k => 0 <= k <= MAXOPBLOCKS) ops ->
  reserved ops <= MAXOPBLOCKS * Z.of_nat (length ops).
Proof. induction 1; simpl; lia. Qed.

Lemma log_append_shape lg bn lg' : log_append lg bn = Ret lg' ->
  length (lblock (lh lg')) = length (lblock (lh lg)) /\ outstanding lg' = outstanding lg /\
  committing lg' = committing lg /\ n (lh lg) <= n (lh lg') <= n (lh lg) + 1.
Proof.
  unfold log_append. destruct (_ || _); [done|]. destruct (_ <? _); [done|].
  destruct (absorb_index _ _ _ _) as [i| | |]; try done. cbn [obind].
  destruct (setZ _ i bn) as [bl|] eqn:Hset; [|done]. cbn [of_option obind]. intros [= <-]. cbn.
  split; [by eapply setZ_length|]. repeat (split; [done|]). destruct (_ =? _); lia.
Qed.

Lemma admitted_step s s' : admitted s -> astep s s' -> admitted s'.
Proof.
  intros [Ho Hc Hn Hops Hroom Hlen] Hstep.
  destruct Hstep as [lg lg' ops Hb|lg lg' bn o1 k o2 Hk Ha|lg lg' o1 k o2 c He|lg ops Hcm]; cbn [fst snd] in *.
  - unfold begin_op in Hb. destruct (committing lg) eqn:Hcl; [done|].
    destruct (Z.ltb_spec LOGSIZE (n (lh lg) + (outstanding lg + 1) * MAXOPBLOCKS)) as [|Hle]; [done|].
    injection Hb as <-. pose proof (reserved_bound ops Hops).
    split; cbn; try done.
    + lia.
    + constructor; [unfold MAXOPBLOCKS; lia|done].
    + unfold MAXOPBLOCKS in *. lia.
  - destruct (log_append_shape _ _ _ Ha) as (Hl & Hout & Hcm & Hn').
    apply Forall_app in Hops as [Hf1 [Hk0 Hf2]%Forall_cons]. rewrite reserved_app in Hroom. cbn in Hroom.
    split; cbn [fst snd]; [|rewrite Hcm| | | |].
    + rewrite Hout, Ho. rewrite !length_app. done.
    + intros H%Hc. by destruct o1.
    + lia.
    + apply Forall_app. split; [done|]. constructor; [lia|done].
    + rewrite reserved_app. cbn. lia.
    + congruence.
  - unfold end_op_enter in He. cbn in He. destruct (committing lg) eqn:Hcl; [done|].
    apply Forall_app in Hops as [Hf1 [Hk0 Hf2]%Forall_cons]. rewrite reserved_app in Hroom. cbn in Hroom.
    rewrite length_app in Ho. cbn [length] in Ho.
    assert (Hf : Forall (fun k => 0 <= k <= MAXOPBLOCKS) (o1 ++ o2)) by (by apply Forall_app).
    destruct (Z.eqb_spec (outstanding lg - 1) 0) as [Hz|Hnz]; injection He as <- <-;
      split; cbn [fst snd with_out outstanding committing lh n lblock]; try done;
      rewrite ?length_app, ?reserved_app; try lia.
    intros _. apply nil_length_inv. rewrite length_app. lia.
  - specialize (Hc Hcm). subst ops. split; cbn; try done.
Qed.

(** [log_write] of a block: it is recorded at most once (absorbed when
    the transaction already has it, appended otherwise), every other entry
    stays, and the buffer is pinned with its contents untouched. *)
Theorem log_write_absorbs {S} `{BlockCacheSpec S} (lg : log) (s : S) Hd P b i
    (Hroom : room lg) (Hok : cache_ok s Hd P) (Hb : b ∈ Hd) (Hat : at_buf s b i) :
  exists lg' s', log_write lg s i = Ret (lg', s') /\
    cache_ok s' Hd ({[b]} ∪ P) /\ (forall x, view s' x = view s x) /\
    (forall x, (exists t, 0 <= t < n (lh lg') /\ getZ (lblock (lh lg')) t = Some x) <->
               (exists t, 0 <= t < n (lh lg) /\ getZ (lblock (lh lg)) t = Some x) \/ x = b) /\
    n (lh lg') = n (lh lg) +
      (if decide (Exists (fun t => getZ (lblock (lh lg)) t = Some b) (entries_of lg)) then 0 else 1).
Proof.
  destruct (at_buf_spec s _ _ b i Hok Hat) as [Hbn _].
  destruct (set_dirty_ok s Hd P b i Hok Hb Hat) as (Hok' & (Hv & _) & _).
  destruct (log_append_spec lg b Hroom) as (lg' & Ha & _ & _ & _ & _ & Hl & Hcase).
  exists lg', (set_dirty s i). unfold log_write. rewrite Hbn, Ha. split; [done|].
  split; [done|]. split; [done|].
  destruct Hcase as [(t & Ht & Hget & Hn & Heq)|(Hno & Hn & Hnew & Heq)].
  - rewrite Hn, decide_True by (apply Exists_exists; exists t; split; [by apply log_entries_range|done]).
    split; [|lia]. intros x. split.
    + intros (t' & Ht' & Hx). left. exists t'. split; [done|]. by rewrite <- Heq.
    + intros [(t' & Ht' & Hx)| ->]; [exists t'|exists t]; (split; [done|]); by rewrite Heq.
  - rewrite Hn, decide_False.
    2: { intros (t & Ht%log_entries_range & Hget)%Exists_exists. by apply (Hno t). }
    destruct Hroom as (Hr & _). split; [|lia]. intros x. split.
    + intros (t' & Ht' & Hx). destruct (decide (t' = n (lh lg))) as [->|Hne].
      * right. congruence.
      * left. exists t'. split; [lia|]. by rewrite <- Heq.
    + intros [(t' & Ht' & Hx)| ->].
      * exists t'. split; [lia|]. by rewrite Heq by lia.
      * exists (n (lh lg)). split; [lia|done].
Qed.

(** C29.  However [begin_op], [log_write] (at most [MAXOPBLOCKS] times between
    the two), [end_op] and commits interleave, a log with room for [LOGSIZE]
    blocks besides its header never makes a permitted [log_write] panic, and
    [end_op] never finds a commit in progress. *)
Theorem admission_safe lg0 lg ops
    (Hinit : outstanding lg0 = 0 /\ committing lg0 = false /\ n (lh lg0) = 0 /\
             length (lblock (lh lg0)) = Z.to_nat LOGSIZE)
    (Hreach : rtc astep (lg0, []) (lg, ops)) (Hsize : LOGSIZE < log_size lg) :
  (forall k bn, k ∈ ops -> k < MAXOPBLOCKS -> exists lg', log_append lg bn = Ret lg') /\
  (ops <> [] -> exists lg' c, end_op_enter lg = Ret (lg', c)).
Proof.
  assert (Had : admitted (lg, ops)).
  { apply (rtc_invariant astep admitted (lg0, []) (lg, ops)); [intros; by eapply admitted_step| |done].
    destruct Hinit as (Ho & Hc & Hn & Hl). split; cbn; try done; rewrite ?Ho, ?Hc, ?Hn; done. }
  destruct Had as [Ho Hc Hn Hops Hroom Hlen]. cbn [fst snd] in *. split.
  - intros k bn Hk Hlt. apply list_elem_of_split in Hk as (o1 & o2 & ->).
    apply Forall_app in Hops as [Hf1 [Hk0 Hf2]%Forall_cons]. rewrite reserved_app in Hroom. cbn in Hroom.
    pose proof (reserved_nonneg _ Hf1). pose proof (reserved_nonneg _ Hf2).
    destruct (log_append_spec lg bn) as (lg' & -> & _); [|by exists lg'].
    rewrite length_app in Ho. cbn in Ho. split; [lia|]. split; [lia|]. split; [lia|done].
  - intros Hne. unfold end_op_enter. cbn. destruct (committing lg) eqn:Hcm; [by destruct Hne; apply Hc|].
    destruct (_ =? 0); by eexists _, _.
Qed.

(** ** Running the transition system *)

Inductive action := ABegin | AWrite (i : nat) (bn : Z) | AEnd (i : nat) | ACommitDone.

Definition arun1 (a : action) (st : astate) : option astate :=
  let '(lg, ops) := st in
  match a with
  | ABegin => match begin_op lg with Ret lg => Some (lg, 0 :: ops) | _ => None end
  | AWrite i bn =>
      match ops !! i with
      | Some k =>
          if k <? MAXOPBLOCKS then
            match log_append lg bn with
            | Ret lg => Some (lg, take i ops ++ (k + 1) :: drop (S i) ops)
            | _ => None
            end
          else None
      | None => None
      end
  | AEnd i =>
      match ops !! i, end_op_enter lg with
      | Some _, Ret (lg, _) => Some (lg, take i ops ++ drop (S i) ops)
      | _, _ => None
      end
  | ACommitDone => if committing lg then Some (end_op_leave (cleared lg), ops) else None
  end.

Fixpoint arun (l : list action) (st : astate) : option astate :=
  match l with
  | [] => Some st
  | a :: l => match arun1 a st with Some st => arun l st | None => None end
  end.

Lemma arun1_step a st st' : arun1 a st = Some st' -> astep st st'.
Proof.
  destruct st as [lg ops]. destruct a as [|i bn|i|]; cbn.
  - destruct (begin_op lg) eqn:Hb; [|done..]. intros [= <-]. by apply a_begin.
  - destruct (ops !! i) as [k|] eqn:Hk; [|done]. destruct (Z.ltb_spec k MAXOPBLOCKS); [|done].
    destruct (log_append lg bn) eqn:Ha; [|done..]. intros [= <-].
    rewrite <- (take_drop_middle ops i k Hk) at 1. by apply a_write with bn.
  - destruct (ops !! i) as [k|] eqn:Hk; [|done]. destruct (end_op_enter lg) as [[lg' c]| | |] eqn:He; [|done..].
    intros [= <-]. rewrite <- (take_drop_middle ops i k Hk) at 1. by eapply a_end.
  - destruct (committing lg) eqn:Hc; [|done]. intros [= <-]. by apply a_commit_done.
Qed.

Lemma arun_rtc l st st' : arun l st = Some st' -> rtc astep st st'.
Proof.
  revert st. induction l as [|a l IH]; intros st; cbn; [by intros [= ->]|].
  destruct (arun1 a st) as [st1|] eqn:Ha; [|done]. intros Hl.
  eapply rtc_l; [by eapply arun1_step|by apply IH].
Qed.

Definition fresh_log (st sz : Z) : log :=
  {| start := st; log_size := sz; outstanding := 0; committing := false;
     lh := {| n := 0; lblock := replicate (Z.to_nat LOGSIZE) 0 |} |}.

(** Three calls that write ten, ten and nine different blocks. *)
Definition three_calls : list action :=
  [ABegin; ABegin; ABegin] ++
  map (fun i => AWrite 0 (100 + Z.of_nat i)) (seq 0 10) ++
  map (fun i => AWrite 1 (200 + Z.of_nat i)) (seq 0 10) ++
  map (fun i => AWrite 2 (300 + Z.of_nat i)) (seq 0 9).

(** C30.  With the log [mkfs] makes ([LOGSIZE] blocks, one of them the header)
    the admission test is one block too generous: three admitted calls, none
    of which exceeds [MAXOPBLOCKS] writes, reach a state where a permitted
    [log_write] panics. *)
Theorem log_too_small st :
  exists lg ops, rtc astep (fresh_log st LOGSIZE, []) (lg, ops) /\
    Forall (fun k => 0 <= k <= MAXOPBLOCKS) ops /\ 9 ∈ ops /\
    forall bn, log_append lg bn = Panic "too big a transaction".
Proof.
  destruct (arun three_calls (fresh_log st LOGSIZE, [])) as [[lg ops]|] eqn:Hrun;
    [|by vm_compute in Hrun].
  exists lg, ops. split; [by apply (arun_rtc three_calls)|].
  vm_compute in Hrun. injection Hrun as <- <-. split; [repeat (constructor; [unfold MAXOPBLOCKS; lia|]); constructor|].
  split; [by right; right; left|]. done.
Qed.

(** ** Commit and recovery *)

(** C1.  A commit is atomic.  It never fails, the home blocks end with the
    contents the cache showed, and after a crash between any two of its disk
    writes the disk is one a recovery can read and brings to the old contents
    of every home block or to the new contents of every home block. *)
Theorem commit_atomic {S} `{BlockCacheSpec S} (lg : log) (s : S)
    (Hwf : log_wf lg) (Hn : 0 < n (lh lg)) (Hok : cache_ok s ∅ (blks lg))
    (Hempty : head_n (start lg) (home s) = 0) :
  exists s' js, commit lg s = Ret (cleared lg, s') /\ cache_ok s' ∅ ∅ /\
    journal s' = journal s ++ js /\ head_n (start lg) (home s') = 0 /\
    (forall b, ~ in_log lg b -> home s' b = view s b) /\
    forall k, let d := jrun (home s) (take k js) in
      header_ok (start lg) (log_size lg) d /\
      ((forall b, ~ in_log lg b -> recovered (start lg) d b = home s b) \/
       (forall b, ~ in_log lg b -> recovered (start lg) d b = view s b)).
Proof.
  destruct (commit_ok lg s Hwf Hn Hok) as (s' & hd & hd0 & Hc & Hok' & Hw & Hhd & Hhd0 & Hv).
  pose proof (fun b => view_home s ∅ (blks lg) b Hok) as Hvh.
  eexists s', _. split; [done|]. split; [done|]. destruct Hw as [Hw Hj]. split; [exact Hj|].
  assert (Hhome : forall b, home s' b = view s' b).
  { intros b. symmetry. apply (view_home s' ∅ ∅); [done|set_solver..]. }
  split; [|split].
  - unfold head_n. rewrite Hw, !jrun_app. cbn [jrun]. apply Hhd0.
  - intros b Hb. by rewrite Hhome, Hv.
  - apply (commit_crash lg (home s) (view s) hd hd0); [done..|].
    intros b _ Hb. by apply Hvh; [set_solver|].
Qed.

(** C2.  Recovery, from any disk the log code can leave: it never fails,
    installs exactly the logged blocks and empties the log, and it can itself
    be interrupted: a crash between any two of its disk writes leaves a disk
    with the same recovered contents, so the next boot ends the same way. *)
Theorem recover_crash_safe {S} `{BlockCacheSpec S} (lg : log) (s : S)
    (Hge : geometry lg) (Hok : cache_ok s ∅ ∅)
    (Hhead : header_ok (start lg) (log_size lg) (home s)) :
  exists lg' s' js, recover_from_log lg s = Ret (lg', s') /\ n (lh lg') = 0 /\ cache_ok s' ∅ ∅ /\
    journal s' = journal s ++ js /\ head_n (start lg) (home s') = 0 /\
    (forall b, ~ in_log lg b -> home s' b = recovered (start lg) (home s) b) /\
    forall k, let d := jrun (home s) (take k js) in
      header_ok (start lg) (log_size lg) d /\
      forall b, ~ in_log lg b -> recovered (start lg) d b = recovered (start lg) (home s) b.
Proof.
  destruct (recover_ok lg s Hge Hok Hhead) as (lg' & s' & js & Hr & Hn & Hok' & [_ Hj] & Hh & Hv & Hcr).
  exists lg', s', js. repeat (split; [done|]). exact Hcr.
Qed.

(** ** Instances, over the buffer cache of [Bio] *)

Section witness.
#[local] Instance cache1 : BlockCache Bio.bcache := Bio.bio_cache 1 true 1.
#[local] Instance spec1 : BlockCacheSpec Bio.bcache := Bio.bio_spec 1 true 1 (or_intror eq_refl).

Definition zero_disk : Z -> Z -> block := fun _ _ _ => 0.
Definition boot1 : Bio.bcache := Bio.binit (Bio.boot zero_disk).

Lemma boot1_ok : cache_ok boot1 ∅ ∅ /\ forall b, home boot1 b = fun _ => 0.
Proof.
  destruct (Bio.binit_bio 1 1 zero_disk ltac:(done)) as [Hok Hd]. split; [exact Hok|].
  intros b. change (home boot1 b) with (Bio.disk boot1 1 b). unfold boot1. by rewrite Hd.
Qed.

(** The transaction of one block, 100. *)
Definition one_block : log :=
  {| start := 2; log_size := 30; outstanding := 1; committing := false;
     lh := {| n := 1; lblock := 100 :: replicate 29 0 |} |}.

Lemma one_block_wf : log_wf one_block.
Proof.
  split; cbn; unfold LOGSIZE, MAXOPBLOCKS, FSSIZE; try lia; try done.
  - intros t Ht. assert (t = 0) as -> by lia. split; [vm_compute; split; congruence|]. change (blk one_block 0) with 100. unfold in_log. cbn. lia.
Qed.

Lemma one_block_blks : blks one_block = {[100]}.
Proof.
  apply set_eq. intros b. rewrite elem_of_blks, elem_of_singleton. split.
  - intros (t & Ht & ->). cbn in Ht. assert (t = 0) as -> by lia. done.
  - intros ->. by exists 0.
Qed.

(** A cache holding block 100 locked, its contents changed. *)
Lemma held_cache (v : block) :
  exists s i, cache_ok s {[100]} ∅ /\ at_buf s 100 i /\ view s 100 = v /\
    (forall b, home s b = fun _ => 0) /\ journal s = journal boot1.
Proof.
  destruct boot1_ok as [Hok Hh].
  destruct (bread_ok boot1 ∅ ∅ 100 Hok) as (s1 & i & _ & Hok1 & Hat1 & (Hv1 & Hh1 & Hj1) & _);
    [set_solver|unfold FSSIZE; lia|left; by rewrite union_empty_l_L, size_empty; unfold NBUF; lia|].
  rewrite union_empty_r_L in Hok1.
  destruct (set_data_ok s1 {[100]} ∅ 100 i v Hok1) as (Hok2 & Hv2 & _ & Hh2 & Hj2 & Hat2); [set_solver|done|].
  exists (set_data s1 i v), i. split; [done|]. split; [by apply Hat2|]. split; [done|].
  split; [intros b; by rewrite Hh2, Hh1, Hh|congruence].
Qed.

(** The same after [log_write] and [brelse]. *)
Lemma pinned_cache (v : block) :
  exists s, cache_ok s ∅ {[100]} /\ view s 100 = v /\ (forall b, home s b = fun _ => 0).
Proof.
  destruct (held_cache v) as (s1 & i & Hok1 & Hat1 & Hv1 & Hh1 & _).
  destruct (set_dirty_ok s1 {[100]} ∅ 100 i Hok1) as (Hok2 & (Hv2 & Hh2 & _) & Hat2); [set_solver|done|].
  rewrite union_empty_r_L in Hok2.
  destruct (brelse_ok (set_dirty s1 i) {[100]} {[100]} 100 i Hok2) as (s3 & _ & Hok3 & (Hv3 & Hh3 & _) & _);
    [set_solver|by apply Hat2|left; set_solver|].
  replace ({[100]} ∖ {[100]}) with (∅ : gset Z) in Hok3 by set_solver.
  exists s3. split; [done|]. split; [by rewrite Hv3, Hv2|]. intros b. by rewrite Hh3, Hh2.
Qed.

Lemma log_write_absorbs_witness :
  exists (s : Bio.bcache) i lg' s', log_write (with_lh {| n := 0; lblock := replicate 30 0 |} one_block) s i = Ret (lg', s') /\
    n (lh lg') = 1.
Proof.
  destruct (held_cache (fun _ => 7)) as (s & i & Hok & Hat & _).
  destruct (log_write_absorbs (with_lh {| n := 0; lblock := replicate 30 0 |} one_block) s {[100]} ∅ 100 i)
    as (lg' & s' & Hw & _ & _ & _ & Hn); [|done|set_solver|done|].
  - split; [cbn; unfold LOGSIZE, MAXOPBLOCKS; lia|]. cbn. split; [lia|]. split; [lia|done].
  - exists s, i, lg', s'. split; [done|]. rewrite Hn. done.
Defined.

Lemma admission_safe_witness :
  exists lg, rtc astep (fresh_log 2 31, []) (lg, [0]) /\ exists lg', log_append lg 5 = Ret lg'.
Proof.
  destruct (arun [ABegin] (fresh_log 2 31, [])) as [[lg ops]|] eqn:Hrun; [|by vm_compute in Hrun].
  pose proof (arun_rtc _ _ _ Hrun) as Hr. vm_compute in Hrun. injection Hrun as Hlg Hops. subst ops.
  exists lg. split; [done|].
  destruct (admission_safe (fresh_log 2 31) lg [0]) as [Hw _]; [done|done|subst lg; done|].
  apply (Hw 0 5); [left|done].
Defined.

Lemma commit_atomic_witness :
  exists (s s' : Bio.bcache), view s 100 = (fun _ => 7) /\ commit one_block s = Ret (cleared one_block, s') /\
    home s' 100 = fun _ => 7.
Proof.
  destruct (pinned_cache (fun _ => 7)) as (s & Hok & Hv & Hh).
  destruct (commit_atomic one_block s one_block_wf) as (s' & js & Hc & _ & _ & _ & Hhome & _).
  - cbn. lia.
  - by rewrite one_block_blks.
  - unfold head_n. by rewrite Hh.
  - exists s, s'. split; [done|]. split; [done|]. rewrite Hhome; [done|]. unfold in_log. cbn. lia.
Defined.

Lemma recover_crash_safe_witness :
  exists lg' (s' : Bio.bcache), recover_from_log (fresh_log 2 30) boot1 = Ret (lg', s') /\ n (lh lg') = 0.
Proof.
  destruct boot1_ok as [Hok Hh].
  destruct (recover_crash_safe (fresh_log 2 30) boot1) as (lg' & s' & js & Hr & Hn & _).
  - split; cbn; unfold LOGSIZE, MAXOPBLOCKS, FSSIZE; try lia; done.
  - done.
  - apply header_ok_empty; [cbn; lia|]. unfold head_n. by rewrite Hh.
  - exists lg', s'. by split.
Defined.
End witness.

End LogThms.
