(* ===== verification/Kalloc.v ===== *)
(** * The physical page allocator

    [kalloc.c] of p3b: the free list threaded through the free pages
    themselves, over the byte memory.  [kend] is the linker symbol [end]. *)

From S2P Require Import Prelude DfsImage.
Local Open Scope Z_scope.
Local Open Scope xv6_scope.

Module Kalloc.

Definition PGSIZE : Z := 4096.
Definition KERNBASE : Z := 2147483648.
Definition PHYSTOP : Z := 234881024.

Definition PGROUNDUP (sz : Z) : Z := Z.land (u32 (sz + PGSIZE - 1)) (Z.lnot (PGSIZE - 1)).
Definition PGROUNDDOWN (a : Z) : Z := Z.land a (Z.lnot (PGSIZE - 1)).
Definition V2P (v : Z) : Z := u32 (v - KERNBASE).

(** The memory and [kmem.freelist], 0 for the null pointer. *)
Record kmem := { mem : bytes; use_lock : bool; freelist : Z }.

(** [memset(dst, c, n)]. *)
Definition memset (m : bytes) (dst c n : Z) : bytes :=
  fun x => if (dst <=? x) && (x <? dst + n) then u8 c else m x.

(** The [next] field of the run at [v]. *)
Definition run_next (m : bytes) (v : Z) : Z := u32 (word32 m v).

Section kalloc.
Context (kend : Z).

Definition kfree (k : kmem) (v : Z) : outcome kmem :=
  if negb (v mod PGSIZE =? 0) || (v <? kend) || (PHYSTOP <=? V2P v) then Panic "kfree"
  else
    let m := memset (mem k) v 1 PGSIZE in
    let m := put32 m v (freelist k) in
    Ret {| mem := m; use_lock := use_lock k; freelist := v |}.

Definition kalloc (k : kmem) : kmem * Z :=
  let r := freelist k in
  if r =? 0 then (k, 0)
  else ({| mem := mem k; use_lock := use_lock k; freelist := run_next (mem k) r |}, r).

(** [for(; p + PGSIZE <= vend; p += PGSIZE) kfree(p)]. *)
Fixpoint freerange_from (fuel : nat) (k : kmem) (p vend : Z) : outcome kmem :=
  match fuel with
  | O => Fault
  | S fuel =>
      if p + PGSIZE <=? vend then
        let* k := kfree k p in freerange_from fuel k (p + PGSIZE) vend
      else Ret k
  end.

(** Each turn consumes a page below [vend]. *)
Definition freerange_fuel (p vend : Z) : nat := S (Z.to_nat ((vend - p) / PGSIZE)).

Definition freerange (k : kmem) (vstart vend : Z) : outcome kmem :=
  let p := PGROUNDUP vstart in
  freerange_from (freerange_fuel p vend) k p vend.

Definition kinit1 (k : kmem) (vstart vend : Z) : outcome kmem :=
  freerange {| mem := mem k; use_lock := false; freelist := freelist k |} vstart vend.

Definition kinit2 (k : kmem) (vstart vend : Z) : outcome kmem :=
  let* k := freerange k vstart vend in
  Ret {| mem := mem k; use_lock := true; freelist := freelist k |}.

(** ** The free list *)

(** A page [kfree] accepts. *)
Definition page_ok (v : Z) : Prop :=
  v mod PGSIZE = 0 /\ kend <= v /\ KERNBASE <= v < KERNBASE + PHYSTOP.

(** Following [next] from [h] visits the pages [l]. *)
Fixpoint chain (m : bytes) (h : Z) (l : list Z) : Prop :=
  match l with
  | [] => h = 0
  | v :: l => h = v /\ v <> 0 /\ chain m (run_next m v) l
  end.

Record free_pages (k : kmem) (l : list Z) : Prop := {
  fp_chain : chain (mem k) (freelist k) l;
  fp_ok : Forall page_ok l;
  fp_nodup : NoDup l
}.

Lemma page_ok_range v : page_ok v -> 0 < v /\ v + PGSIZE <= 2 ^ 32 /\ is_u32 v.
Proof. unfold page_ok, KERNBASE, PHYSTOP, is_u32, PGSIZE. lia. Qed.

(** Distinct pages do not overlap. *)
Lemma pages_disjoint v w : v mod PGSIZE = 0 -> w mod PGSIZE = 0 -> v <> w ->
  v + PGSIZE <= w \/ w + PGSIZE <= v.
Proof.
  unfold PGSIZE. intros Hv Hw Hne. pose proof (Z.div_mod v 4096 ltac:(lia)). pose proof (Z.div_mod w 4096 ltac:(lia)).
  assert (v / 4096 <> w / 4096) by congruence. lia.
Qed.

Lemma chain_ext m m' h l :
  Forall page_ok l -> (forall v x, v ∈ l -> v <= x < v + PGSIZE -> m' x = m x) ->
  chain m h l -> chain m' h l.
Proof.
  revert h. induction l as [|v l IH]; intros h Hok Hm; simpl; [done|].
  apply Forall_cons in Hok as [Hv Hok]. intros (-> & Hv0 & Hc). split; [done|]. split; [done|].
  assert (run_next m' v = run_next m v) as ->.
  { unfold run_next. f_equal. apply word32_ext. intros k Hk. apply (Hm v); [left|unfold PGSIZE; lia]. }
  apply IH; [done| |done]. intros w x Hw Hx. apply (Hm w); [by right|done].
Qed.

Lemma kfree_spec k l v :
  free_pages k l -> page_ok v -> v ∉ l ->
  exists k', kfree k v = Ret k' /\ free_pages k' (v :: l) /\
    (forall x, x < v \/ v + PGSIZE <= x -> mem k' x = mem k x) /\
    (forall x, v + 4 <= x < v + PGSIZE -> mem k' x = 1).
Proof.
  intros [Hc Hok Hnd] Hv Hnl. pose proof (page_ok_range v Hv) as (Hv0 & Hv1 & Hv2).
  unfold kfree. destruct Hv as (Hal & Hend & Hk).
  rewrite Hal. cbn [Z.eqb negb orb]. destruct (Z.ltb_spec v kend); [lia|].
  destruct (Z.leb_spec PHYSTOP (V2P v)) as [Hp|_].
  { unfold V2P in Hp. rewrite u32_small in Hp by (unfold is_u32, KERNBASE, PHYSTOP in *; lia). lia. }
  cbn [orb]. eexists. split; [done|].
  set (m' := put32 (memset (mem k) v 1 PGSIZE) v (freelist k)).
  assert (Hout : forall x, x < v \/ v + PGSIZE <= x -> m' x = mem k x).
  { intros x Hx. unfold m'. rewrite put32_out by (unfold PGSIZE in Hx; lia). unfold memset.
    destruct (Z.leb_spec v x); destruct (Z.ltb_spec x (v + PGSIZE)); simpl; try done; lia. }
  split; [|split; [done|]].
  - split; cbn [mem freelist].
    + simpl. split; [done|]. split; [lia|].
      assert (Hn : run_next m' v = freelist k).
      { unfold run_next, m'. rewrite word32_put32_eq, u32_s32. apply u32_small.
        destruct l as [|w l]; simpl in Hc; [by rewrite Hc|]. destruct Hc as (-> & _).
        apply Forall_cons in Hok as [Hw _]. by apply page_ok_range. }
      rewrite Hn. eapply chain_ext; [done| |done]. intros w x Hw Hx. apply Hout.
      pose proof (proj1 (Forall_forall _ _) Hok w Hw) as (Halw & _).
      destruct (pages_disjoint v w Hal Halw); [by intros ->| |]; lia.
    + constructor; [|done]. done.
    + by constructor.
  - intros x Hx. unfold m'. cbn [mem]. rewrite put32_out by lia. unfold memset.
    destruct (Z.leb_spec v x); [|lia]. destruct (Z.ltb_spec x (v + PGSIZE)); [done|lia].
Qed.

Lemma kalloc_spec k l :
  free_pages k l ->
  mem (kalloc k).1 = mem k /\
  match l with
  | [] => kalloc k = (k, 0)
  | v :: l' => (kalloc k).2 = v /\ free_pages (kalloc k).1 l'
  end.
Proof.
  intros [Hc Hok Hnd]. unfold kalloc. destruct l as [|v l]; simpl in Hc.
  - rewrite Hc. done.
  - destruct Hc as (-> & Hv & Hc). destruct (Z.eqb_spec v 0); [done|]. split; [done|]. split; [done|].
    apply Forall_cons in Hok as [_ Hok]. apply NoDup_cons in Hnd as [_ Hnd]. by split.
Qed.

(** ** freerange *)

Lemma PGROUNDUP_spec v : 0 <= v -> v + PGSIZE < 2 ^ 32 ->
  v <= PGROUNDUP v < v + PGSIZE /\ PGROUNDUP v mod PGSIZE = 0.
Proof.
  unfold PGROUNDUP, PGSIZE. intros Hv Hb. rewrite u32_small by (unfold is_u32; lia).
  change (4096 - 1) with (Z.ones 12). rewrite <- Z.ldiff_land, Z.ldiff_ones_r by lia.
  rewrite Z.shiftr_div_pow2, Z.shiftl_mul_pow2 by lia. change (2 ^ 12) with 4096.
  pose proof (Z.div_mod (v + 4096 - 1) 4096 ltac:(lia)). pose proof (Z.mod_pos_bound (v + 4096 - 1) 4096 ltac:(lia)).
  split; [lia|]. by apply Z.mod_mul.
Qed.

(** The pages of a range, in the order [freerange] frees them. *)
Definition range_pages (p : Z) (n : nat) : list Z := map (fun i => p + PGSIZE * Z.of_nat i) (seq 0 n).

Lemma range_pages_S p n : range_pages p (S n) = p :: range_pages (p + PGSIZE) n.
Proof.
  unfold range_pages. cbn [seq map]. f_equal; [lia|]. rewrite <- seq_shift, map_map.
  apply map_ext. intros i. lia.
Qed.

Lemma elem_of_range_pages p n v :
  v ∈ range_pages p n <-> exists i, (i < n)%nat /\ v = p + PGSIZE * Z.of_nat i.
Proof.
  unfold range_pages. rewrite list_elem_of_fmap. split; intros (i & H1 & H2); exists i.
  - apply elem_of_seq in H2. split; [lia|done].
  - split; [done|]. apply elem_of_seq. lia.
Qed.

Lemma freerange_from_spec n k l p vend fuel :
  free_pages k l -> (n < fuel)%nat -> p mod PGSIZE = 0 ->
  p + PGSIZE * Z.of_nat n <= vend < p + PGSIZE * (Z.of_nat n + 1) ->
  kend <= p -> KERNBASE <= p -> vend <= KERNBASE + PHYSTOP ->
  (forall v, v ∈ range_pages p n -> v ∉ l) ->
  exists k', freerange_from fuel k p vend = Ret k' /\ free_pages k' (rev (range_pages p n) ++ l) /\
    use_lock k' = use_lock k.
Proof.
  revert k l p fuel. induction n as [|n IH]; intros k l p fuel Hf Hfuel Hal Hv He Hk Hp Hnl;
    destruct fuel as [|fuel]; try lia; cbn [freerange_from].
  - destruct (Z.leb_spec (p + PGSIZE) vend); [unfold PGSIZE in *; lia|]. by exists k.
  - destruct (Z.leb_spec (p + PGSIZE) vend); [|unfold PGSIZE in *; lia].
    rewrite range_pages_S in *.
    destruct (kfree_spec k l p Hf) as (k1 & Hfr & Hf1 & _).
    { split; [done|]. unfold PGSIZE in *. lia. }
    { apply Hnl. left. }
    assert (Hul : use_lock k1 = use_lock k).
    { unfold kfree in Hfr. destruct (_ || _); [done|]. by injection Hfr as <-. }
    rewrite Hfr. cbn [obind].
    destruct (IH k1 (p :: l) (p + PGSIZE) fuel Hf1) as (k2 & -> & Hf2 & Hul2).
    + lia.
    + rewrite Zplus_mod, Hal, Z_mod_same_full. done.
    + lia.
    + unfold PGSIZE; lia.
    + unfold PGSIZE; lia.
    + done.
    + intros v Hin. rewrite not_elem_of_cons. split; [|by apply Hnl; right].
      intros ->. apply elem_of_range_pages in Hin as (i & _ & Heq). unfold PGSIZE in Heq. lia.
    + exists k2. split; [done|]. split; [|congruence]. simpl. rewrite <- app_assoc. done.
Qed.

Lemma freerange_fuel_ok p vend : p <= vend ->
  let n := Z.to_nat ((vend - p) / PGSIZE) in
  p + PGSIZE * Z.of_nat n <= vend < p + PGSIZE * (Z.of_nat n + 1) /\ (n < freerange_fuel p vend)%nat.
Proof.
  intros Hp n. unfold freerange_fuel. fold n. unfold PGSIZE in *.
  pose proof (Z.div_mod (vend - p) 4096 ltac:(lia)). pose proof (Z.mod_pos_bound (vend - p) 4096 ltac:(lia)).
  pose proof (Z.div_pos (vend - p) 4096 ltac:(lia) ltac:(lia)). subst n. lia.
Qed.

(** ** The kernel's use of the allocator *)

(** The allocator and the pages handed out; a client may write anything into
    a page it owns. *)
Inductive kstep : kmem * list Z -> kmem * list Z -> Prop :=
| k_alloc k k' v own : kalloc k = (k', v) -> v <> 0 -> kstep (k, own) (k', v :: own)
| k_fail k k' own : kalloc k = (k', 0) -> kstep (k, own) (k', own)
| k_free k k' own1 v own2 : kfree k v = Ret k' -> kstep (k, own1 ++ v :: own2) (k', own1 ++ own2)
| k_write k m own :
    (forall x, (forall v, v ∈ own -> ~ v <= x < v + PGSIZE) -> m x = mem k x) ->
    kstep (k, own) ({| mem := m; use_lock := use_lock k; freelist := freelist k |}, own).

Definition partition (pages : list Z) (s : kmem * list Z) : Prop :=
  exists l, free_pages s.1 l /\ Forall page_ok s.2 /\ l ++ s.2 ≡ₚ pages /\ NoDup pages.

Lemma partition_step pages s s' : partition pages s -> kstep s s' -> partition pages s'.
Proof.
  intros (l & Hf & Hown & Hperm & Hnd) Hstep.
  destruct Hstep as [k k' v own Ha Hv|k k' own Ha|k k' own1 v own2 Hfr|k m own Hm]; cbn [fst snd] in *.
  - pose proof (kalloc_spec k l Hf) as [_ Hs]. rewrite Ha in Hs. destruct l as [|w l].
    + by injection Hs as _ ->.
    + cbn in Hs. destruct Hs as [<- Hf']. exists l. split; [done|]. split.
      * constructor; [|done]. by apply (Forall_inv (fp_ok _ _ Hf)).
      * split; [|done]. rewrite <- Hperm. cbn. by rewrite Permutation_middle.
  - pose proof (kalloc_spec k l Hf) as [_ Hs]. rewrite Ha in Hs. destruct l as [|w l].
    + injection Hs as ->. by exists [].
    + cbn in Hs. destruct Hs as [<- _]. exfalso.
      pose proof (Forall_inv (fp_ok _ _ Hf)) as Hw. apply page_ok_range in Hw. lia.
  - apply Forall_app in Hown as [Ho1 [Hv Ho2]%Forall_cons].
    destruct (kfree_spec k l v Hf Hv) as (k1 & Hk1 & Hf1 & _).
    { intros Hin. rewrite <- Hperm in Hnd. apply NoDup_app in Hnd as (_ & Hd & _).
      apply (Hd v Hin). apply elem_of_app. right. left. }
    rewrite Hfr in Hk1. injection Hk1 as <-. exists (v :: l). split; [done|]. split; [by apply Forall_app|].
    split; [|done]. rewrite <- Hperm. rewrite <- !Permutation_middle. done.
  - exists l. split; [|done]. destruct Hf as [Hc Hok Hndl]. split; [|done|done].
    cbn [mem freelist]. eapply chain_ext; [done| |done]. intros v x Hv Hx. apply Hm. intros w Hw Hx'.
    pose proof (proj1 (Forall_forall _ _) Hok v Hv) as (Hav & _).
    pose proof (proj1 (Forall_forall _ _) Hown w Hw) as (Haw & _).
    destruct (pages_disjoint v w Hav Haw); [|lia..].
    intros ->. rewrite <- Hperm in Hnd. apply NoDup_app in Hnd as (_ & Hd & _). by apply (Hd w).
Qed.

End kalloc.

(** ** The properties *)

(** [freerange] terminates and puts exactly the whole pages of the range
    on the free list, in the order that makes the last one the first to be
    allocated. *)
Theorem freerange_pages kend k l vstart vend
    (Hf : free_pages kend k l) (Hs : kend <= vstart) (Hk : KERNBASE <= vstart)
    (Hse : vstart <= vend) (Hv : PGROUNDUP vstart <= vend <= KERNBASE + PHYSTOP)
    (Hnl : forall v, v ∈ l -> v < vstart \/ vend <= v) :
  exists k', freerange kend k vstart vend = Ret k' /\
    free_pages kend k' (rev (range_pages (PGROUNDUP vstart) (Z.to_nat ((vend - PGROUNDUP vstart) / PGSIZE))) ++ l).
Proof.
  destruct (PGROUNDUP_spec vstart) as [Hr Hal];
    [unfold KERNBASE in *; lia|unfold KERNBASE, PHYSTOP, PGSIZE in *; lia|].
  destruct (freerange_fuel_ok (PGROUNDUP vstart) vend) as [Hn Hfuel]; [lia|].
  destruct (freerange_from_spec kend _ k l (PGROUNDUP vstart) vend _ Hf Hfuel Hal Hn) as (k' & Hk' & Hf' & _);
    [lia|lia|lia| |by exists k'].
  intros v (i & Hi & ->)%elem_of_range_pages Hin. destruct (Hnl _ Hin); unfold PGSIZE in *; lia.
Qed.

(** C33.  Whatever the order of allocations, frees and writes to allocated
    pages, [kalloc] only returns pages of the initial free list that are not
    allocated, returns 0 only when all are, and [kfree] of an allocated page
    never panics. *)
Theorem kalloc_exclusive kend k0 pages k own
    (Hf : free_pages kend k0 pages) (Hreach : rtc (kstep kend) (k0, []) (k, own)) :
  NoDup own /\
  (forall k' v, kalloc k = (k', v) -> v <> 0 -> v ∈ pages /\ v ∉ own) /\
  (forall k', kalloc k = (k', 0) -> own ≡ₚ pages) /\
  (forall v, v ∈ own -> exists k', kfree kend k v = Ret k').
Proof.
  assert (Hp : partition kend pages (k, own)).
  { apply (rtc_invariant (kstep kend) (partition kend pages) (k0, []) (k, own));
      [intros; by eapply partition_step| |done].
    exists pages. split; [done|]. split; [done|]. split; [by rewrite app_nil_r|apply Hf]. }
  destruct Hp as (l & Hl & Hown & Hperm & Hnd). cbn [fst snd] in *.
  rewrite <- Hperm in Hnd. apply NoDup_app in Hnd as (Hndl & Hd & Hndo).
  pose proof (kalloc_spec kend k l Hl) as [_ Hs]. split; [done|]. split; [|split].
  - intros k' v Ha Hv. rewrite Ha in Hs. destruct l as [|w l]; [by injection Hs as _ ->|].
    cbn in Hs. destruct Hs as [<- _]. split; [rewrite <- Hperm; left|]. apply Hd. left.
  - intros k' Ha. rewrite Ha in Hs. destruct l as [|w l]; [by rewrite <- Hperm|].
    cbn in Hs. destruct Hs as [<- _]. pose proof (Forall_inv (fp_ok _ _ _ Hl)) as Hw.
    apply page_ok_range in Hw. lia.
  - intros v Hv. pose proof (proj1 (Forall_forall _ _) Hown v Hv) as Hvok.
    destruct (kfree_spec kend k l v Hl Hvok) as (k' & Hk' & _); [|by exists k'].
    intros Hin. by apply (Hd v).
Qed.

Definition kmem0 : kmem := {| mem := fun _ => 0; use_lock := false; freelist := 0 |}.

Lemma freerange_pages_witness :
  exists k', freerange KERNBASE kmem0 (KERNBASE + 1) (KERNBASE + 3 * PGSIZE) = Ret k' /\
    freelist k' = KERNBASE + 2 * PGSIZE.
Proof.
  destruct (freerange_pages KERNBASE kmem0 [] (KERNBASE + 1) (KERNBASE + 3 * PGSIZE)) as (k' & Hk & Hf).
  - split; [done|constructor|constructor].
  - lia.
  - lia.
  - vm_compute. congruence.
  - split; vm_compute; congruence.
  - intros v Hv. by apply elem_of_nil in Hv.
  - exists k'. split; [exact Hk|]. destruct Hf as [Hc _ _].
    assert (Hl : rev (range_pages (PGROUNDUP (KERNBASE + 1))
        (Z.to_nat ((KERNBASE + 3 * PGSIZE - PGROUNDUP (KERNBASE + 1)) / PGSIZE))) ++ [] =
        [KERNBASE + 2 * PGSIZE; KERNBASE + PGSIZE]) by (by vm_compute).
    rewrite Hl in Hc. apply Hc.
Defined.

Lemma kalloc_exclusive_witness :
  exists k v, free_pages KERNBASE k [KERNBASE + PGSIZE; KERNBASE] /\ (kalloc k).2 = v /\
    NoDup [v] /\ exists k', kfree KERNBASE (kalloc k).1 v = Ret k'.
Proof.
  destruct (freerange_from_spec KERNBASE 2 kmem0 [] KERNBASE (KERNBASE + 2 * PGSIZE) 3) as (k & _ & Hf & _).
  - split; [done|constructor|constructor].
  - lia.
  - done.
  - unfold PGSIZE. lia.
  - lia.
  - lia.
  - vm_compute. congruence.
  - intros v _ Hv. by apply elem_of_nil in Hv.
  - change (rev (range_pages KERNBASE 2) ++ []) with [KERNBASE + PGSIZE; KERNBASE] in Hf.
    destruct (kalloc_spec KERNBASE k _ Hf) as [_ [Hv _]].
    exists k, (KERNBASE + PGSIZE). split; [exact Hf|]. split; [exact Hv|].
    destruct (kalloc_exclusive KERNBASE k [KERNBASE + PGSIZE; KERNBASE] (kalloc k).1 [KERNBASE + PGSIZE] Hf)
      as (Hnd & _ & _ & Hfree).
    + apply rtc_once, k_alloc; [|unfold KERNBASE, PGSIZE; lia]. rewrite <- Hv. by destruct (kalloc k).
    + split; [exact Hnd|]. apply Hfree. left.
Defined.
End Kalloc.
