(* ===== verification/Pipe.v ===== *)
(** * Pipes

    [pipe.c] of p3b.  [pipewrite] and [piperead] hold the pipe's lock except
    while they sleep, so each runs as a sequence of turns, a turn ending in a
    return or in a [sleep]; the byte copied, the wrap-around of the [uint]
    counters and the array index are the code's. *)

From S2P Require Import Prelude.
Local Open Scope Z_scope.
Local Open Scope xv6_scope.

Module Pipe.

Definition PIPESIZE : Z := 512.

Record pipe := {
  data : list Z;
  nread : Z;
  nwrite : Z;
  readopen : bool;
  writeopen : bool
}.

(** [pipealloc]'s initialisation of a page from [kalloc]. *)
Definition pipeinit (page : list Z) : pipe :=
  {| data := page; nread := 0; nwrite := 0; readopen := true; writeopen := true |}.

(** The pipe afterwards and whether its page is freed. *)
Definition pipeclose (p : pipe) (writable : bool) : pipe * bool :=
  let p :=
    if writable then
      {| data := data p; nread := nread p; nwrite := nwrite p; readopen := readopen p; writeopen := false |}
    else
      {| data := data p; nread := nread p; nwrite := nwrite p; readopen := false; writeopen := writeopen p |} in
  (p, negb (readopen p) && negb (writeopen p)).

(** How a turn of [pipewrite] ends: it returns, or sleeps on [&p->nwrite]
    with [rest] still to write. *)
Inductive wturn :=
| WRet (r : Z)
| WSleep (rest : list Z).

(** [p->data[p->nwrite++ % PIPESIZE] = c]. *)
Definition put (p : pipe) (c : Z) : option pipe :=
  let? d := setZ (data p) (nwrite p mod PIPESIZE) c in
  Some {| data := d; nread := nread p; nwrite := u32 (nwrite p + 1);
          readopen := readopen p; writeopen := writeopen p |}.

(** The loop of [pipewrite] from [addr[i]] on, [n] being its argument. *)
Fixpoint pipewrite (p : pipe) (killed : bool) (rest : list Z) (n : Z) : option (pipe * wturn) :=
  match rest with
  | [] => Some (p, WRet n)
  | c :: rest' =>
      if nwrite p =? u32 (nread p + PIPESIZE) then
        if negb (readopen p) || killed then Some (p, WRet (-1)) else Some (p, WSleep rest)
      else
        let? p := put p c in pipewrite p killed rest' n
  end.

Inductive rturn :=
| RRet (r : Z) (bytes : list Z)
| RSleep.

(** [addr[i] = p->data[p->nread++ % PIPESIZE]], [n] times at most; [got] are
    the bytes copied so far. *)
Fixpoint read_from (p : pipe) (n : nat) (got : list Z) : option (pipe * rturn) :=
  match n with
  | O => Some (p, RRet (Z.of_nat (length got)) got)
  | S n =>
      if nread p =? nwrite p then Some (p, RRet (Z.of_nat (length got)) got)
      else
        let? c := getZ (data p) (nread p mod PIPESIZE) in
        read_from {| data := data p; nread := u32 (nread p + 1); nwrite := nwrite p;
                     readopen := readopen p; writeopen := writeopen p |} n (got ++ [c])
  end.

Definition piperead (p : pipe) (killed : bool) (n : Z) : option (pipe * rturn) :=
  if (nread p =? nwrite p) && writeopen p then
    if killed then Some (p, RRet (-1) []) else Some (p, RSleep)
  else read_from p (Z.to_nat n) [].

(** ** The abstract pipe: a bounded queue of bytes *)

Definition count (p : pipe) : Z := u32 (nwrite p - nread p).

Definition byte_at (p : pipe) (k : nat) : Z :=
  default 0 (getZ (data p) (u32 (nread p + Z.of_nat k) mod PIPESIZE)).

Definition queue (p : pipe) : list Z := map (byte_at p) (seq 0 (Z.to_nat (count p))).

Record pipe_ok (p : pipe) : Prop := {
  po_len : Z.of_nat (length (data p)) = PIPESIZE;
  po_nread : is_u32 (nread p);
  po_nwrite : is_u32 (nwrite p);
  po_count : count p <= PIPESIZE
}.

Lemma count_range p : 0 <= count p.
Proof. apply u32_range. Qed.

Lemma queue_length p : length (queue p) = Z.to_nat (count p).
Proof. unfold queue. by rewrite length_map, length_seq. Qed.

(** The code's full and empty tests. *)
Lemma full_iff p : pipe_ok p ->
  (nwrite p =? u32 (nread p + PIPESIZE)) = (count p =? PIPESIZE).
Proof.
  intros [_ Hr Hw Hc]. unfold count, is_u32, u32, PIPESIZE in *.
  destruct (Z.eqb_spec (nwrite p) ((nread p + 512) mod 2 ^ 32)) as [He|Hne];
    destruct (Z.eqb_spec ((nwrite p - nread p) mod 2 ^ 32) 512); try done; exfalso;
    Z.to_euclidean_division_equations; nia.
Qed.

Lemma empty_iff p : pipe_ok p -> (nread p =? nwrite p) = (count p =? 0).
Proof.
  intros [_ Hr Hw Hc]. unfold count, is_u32, u32 in *.
  destruct (Z.eqb_spec (nread p) (nwrite p)) as [He|Hne];
    destruct (Z.eqb_spec ((nwrite p - nread p) mod 2 ^ 32) 0); try done; exfalso;
    Z.to_euclidean_division_equations; nia.
Qed.

Lemma ring_mod z : u32 z mod PIPESIZE = z mod PIPESIZE.
Proof. apply u32_mod_divides; [done|]. exists (2 ^ 23). done. Qed.

Lemma byte_at_mod p k : byte_at p k = default 0 (getZ (data p) ((nread p + Z.of_nat k) mod PIPESIZE)).
Proof. unfold byte_at. by rewrite ring_mod. Qed.

Lemma slot_range z : 0 <= z mod PIPESIZE < PIPESIZE.
Proof. by apply Z.mod_pos_bound. Qed.

(** Where the next byte goes, counted from [nread]. *)
Lemma nwrite_slot p : pipe_ok p ->
  nwrite p mod PIPESIZE = (nread p + Z.of_nat (Z.to_nat (count p))) mod PIPESIZE.
Proof.
  intros _. rewrite Z2Nat.id by apply count_range. unfold count.
  rewrite <- (ring_mod (nread p + _)), u32_add_idemp_r, ring_mod. f_equal. lia.
Qed.

Lemma put_spec p c : pipe_ok p -> count p < PIPESIZE ->
  exists p', put p c = Some p' /\ pipe_ok p' /\ queue p' = queue p ++ [c] /\
    readopen p' = readopen p /\ writeopen p' = writeopen p /\ nread p' = nread p.
Proof.
  intros Hok Hc. pose proof Hok as [Hl Hr Hw _]. unfold put.
  pose proof (slot_range (nwrite p)) as Hs.
  pose proof (setZ_Some (data p) (nwrite p mod PIPESIZE) c ltac:(lia)) as Hset. rewrite Hset.
  set (d := <[_ := _]> _) in *. eexists. split; [done|].
  set (p' := {| data := d; nread := nread p; nwrite := u32 (nwrite p + 1); readopen := readopen p; writeopen := writeopen p |}).
  assert (Hcnt : count p' = count p + 1).
  { unfold count, p'. cbn [nwrite nread]. unfold count in Hc.
    replace (u32 (nwrite p + 1) - nread p) with (u32 (nwrite p + 1) - u32 (nread p)) by (by rewrite (u32_small (nread p))).
    rewrite u32_sub_idemp. replace (nwrite p + 1 - nread p) with (nwrite p - nread p + 1) by lia.
    rewrite <- u32_add_idemp_l. apply u32_small. pose proof (u32_range (nwrite p - nread p)).
    unfold is_u32, PIPESIZE in *. lia. }
  split; [|split; [|done]].
  - split; cbn [data nread nwrite p'].
    + by rewrite (setZ_length _ _ _ _ Hset).
    + done.
    + apply u32_range.
    + lia.
  - unfold queue. rewrite Hcnt. pose proof (count_range p).
    rewrite Z2Nat.inj_add by lia. change (Z.to_nat 1) with 1%nat. rewrite Nat.add_1_r, seq_S, map_app. cbn [map Nat.add].
    f_equal.
    + apply map_ext_in. intros k Hk%in_seq. rewrite !byte_at_mod. f_equal. cbn [nread p' data].
      eapply setZ_get_ne; [done|]. rewrite (nwrite_slot p Hok).
      intros Heq. assert (Hd : Z.of_nat (Z.to_nat (count p)) mod PIPESIZE = Z.of_nat k mod PIPESIZE).
      { replace (Z.of_nat (Z.to_nat (count p))) with (nread p + Z.of_nat (Z.to_nat (count p)) - nread p) by lia.
        replace (Z.of_nat k) with (nread p + Z.of_nat k - nread p) by lia.
        rewrite Zminus_mod, Heq, <- Zminus_mod. done. }
      unfold PIPESIZE in *. rewrite !Z.mod_small in Hd by lia. lia.
    + f_equal. rewrite byte_at_mod. cbn [nread p' data]. rewrite <- (nwrite_slot p Hok).
      by rewrite (setZ_get _ _ _ _ Hset).
Qed.

Definition can_put (p : pipe) : nat := Z.to_nat (PIPESIZE - count p).

(** What a turn of [pipewrite] does to the queue. *)
Lemma pipewrite_spec p killed rest n : pipe_ok p ->
  exists p' t, pipewrite p killed rest n = Some (p', t) /\ pipe_ok p' /\
    queue p' = queue p ++ take (can_put p) rest /\
    readopen p' = readopen p /\ writeopen p' = writeopen p /\
    t = (if decide (length rest <= can_put p)%nat then WRet n
         else if negb (readopen p) || killed then WRet (-1) else WSleep (drop (can_put p) rest)).
Proof.
  revert p. induction rest as [|c rest IH]; intros p Hok.
  { exists p, (WRet n). split; [done|]. split; [done|]. rewrite take_nil, app_nil_r. repeat (split; [done|]).
    by rewrite decide_True by (cbn; lia). }
  cbn [pipewrite]. rewrite full_iff by done. pose proof (po_count _ Hok) as Hc. pose proof (count_range p).
  unfold can_put. destruct (Z.eqb_spec (count p) PIPESIZE) as [Hf|Hnf].
  - rewrite Hf, Z.sub_diag. cbn [Z.to_nat take drop]. rewrite app_nil_r. rewrite decide_False by (cbn; lia).
    destruct (negb (readopen p) || killed); eexists _, _; split; done.
  - destruct (put_spec p c Hok) as (p1 & -> & Hok1 & Hq1 & Hr1 & Hw1 & Hn1); [lia|].
    destruct (IH p1 Hok1) as (p2 & t & -> & Hok2 & Hq2 & Hr2 & Hw2 & Ht).
    assert (Hcnt : count p1 = count p + 1).
    { apply (f_equal length) in Hq1. rewrite length_app, !queue_length in Hq1. cbn in Hq1.
      pose proof (count_range p1). lia. }
    replace (Z.to_nat (PIPESIZE - count p)) with (S (can_put p1)) by (unfold can_put; lia).
    eexists _, _. split; [done|]. split; [done|]. split; [|split; [congruence|split; [congruence|]]].
    + rewrite Hq2, Hq1, <- app_assoc. done.
    + rewrite Ht, Hr1. cbn [length drop].
      destruct (decide (length rest <= can_put p1)%nat).
      * by rewrite decide_True by lia.
      * by rewrite decide_False by lia.
Qed.

Lemma get_spec p : pipe_ok p -> 0 < count p ->
  exists c q, queue p = c :: q /\ getZ (data p) (nread p mod PIPESIZE) = Some c /\
    let p' := {| data := data p; nread := u32 (nread p + 1); nwrite := nwrite p;
                 readopen := readopen p; writeopen := writeopen p |} in
    pipe_ok p' /\ queue p' = q.
Proof.
  intros Hok Hc. pose proof Hok as [Hl Hr Hw Hcnt].
  destruct (getZ_is_Some (data p) (nread p mod PIPESIZE)) as [c Hget]; [pose proof (slot_range (nread p)); lia|].
  set (p' := {| data := data p; nread := u32 (nread p + 1); nwrite := nwrite p; readopen := readopen p; writeopen := writeopen p |}).
  assert (Hcnt' : count p' = count p - 1).
  { unfold count, p'. cbn [nwrite nread]. unfold count in Hc.
    replace (nwrite p - u32 (nread p + 1)) with (u32 (nwrite p) - u32 (nread p + 1)) by (by rewrite (u32_small (nwrite p))).
    rewrite u32_sub_idemp. replace (nwrite p - (nread p + 1)) with (nwrite p - nread p + -1) by lia.
    rewrite <- u32_add_idemp_l. rewrite u32_small; [lia|]. pose proof (u32_range (nwrite p - nread p)).
    unfold is_u32 in *. lia. }
  exists c, (queue p'). split; [|split; [done|split; [|done]]].
  - unfold queue. rewrite Hcnt'. replace (Z.to_nat (count p)) with (S (Z.to_nat (count p - 1))) by lia.
    cbn [seq map]. rewrite byte_at_mod. rewrite Z.add_0_r, Hget. cbn [default]. f_equal.
    rewrite <- seq_shift, map_map. apply map_ext. intros k. rewrite !byte_at_mod. cbn [data nread p'].
    rewrite <- (ring_mod (u32 _ + _)), u32_add_idemp_l, ring_mod. do 3 f_equal. lia.
  - split; cbn [data nread nwrite p']; [done|apply u32_range|done|lia].
Qed.

Lemma read_from_spec p n got : pipe_ok p ->
  exists p', read_from p n got =
      Some (p', RRet (Z.of_nat (length (got ++ take n (queue p)))) (got ++ take n (queue p))) /\
    pipe_ok p' /\ queue p' = drop n (queue p) /\ readopen p' = readopen p /\ writeopen p' = writeopen p.
Proof.
  revert p got. induction n as [|n IH]; intros p got Hok; cbn [read_from].
  { exists p. by rewrite app_nil_r. }
  rewrite empty_iff by done. pose proof (count_range p).
  destruct (Z.eqb_spec (count p) 0) as [He|Hne].
  - assert (Hq : queue p = []) by (apply nil_length_inv; rewrite queue_length, He; done).
    rewrite Hq. exists p. rewrite app_nil_r. repeat (split; [done|]). done.
  - destruct (get_spec p Hok) as (c & q & Hq & -> & Hok' & Hq'); [lia|]. rewrite Hq.
    destruct (IH _ (got ++ [c]) Hok') as (p2 & -> & Hok2 & Hq2 & Hr2 & Hw2).
    exists p2. rewrite Hq' in *. rewrite <- !app_assoc. done.
Qed.

Lemma piperead_spec p killed n : pipe_ok p ->
  exists p' t, piperead p killed n = Some (p', t) /\ pipe_ok p' /\
    readopen p' = readopen p /\ writeopen p' = writeopen p /\
    (if (count p =? 0) && writeopen p then queue p' = queue p /\ t = (if killed then RRet (-1) [] else RSleep)
     else queue p' = drop (Z.to_nat n) (queue p) /\
          t = RRet (Z.of_nat (length (take (Z.to_nat n) (queue p)))) (take (Z.to_nat n) (queue p))).
Proof.
  intros Hok. unfold piperead. rewrite empty_iff by done.
  destruct ((count p =? 0) && writeopen p).
  - destruct killed; eexists _, _; split; done.
  - destruct (read_from_spec p (Z.to_nat n) [] Hok) as (p' & -> & Hok' & Hq & Hr & Hw).
    by eexists _, _.
Qed.

(** ** One writer and any number of readers *)

(** The writer is between calls, inside a call with bytes still to write, or
    has had a call fail. *)
Inductive wstate := Idle | Writing (rest : list Z) | Failed.

(** [submitted] are the bytes of all the writer's calls so far, [given] the
    bytes returned by reads, in order. *)
Record trace := { tp : pipe; wr : wstate; submitted : list Z; given : list Z }.

Inductive pstep : trace -> trace -> Prop :=
| p_call p sub giv bs :
    pstep {| tp := p; wr := Idle; submitted := sub; given := giv |}
          {| tp := p; wr := Writing bs; submitted := sub ++ bs; given := giv |}
| p_turn p sub giv rest killed n p' t :
    0 <= n -> pipewrite p killed rest n = Some (p', t) ->
    pstep {| tp := p; wr := Writing rest; submitted := sub; given := giv |}
          {| tp := p';
             wr := match t with
                   | WSleep rest' => Writing rest'
                   | WRet r => if r =? -1 then Failed else Idle
                   end;
             submitted := sub; given := giv |}
| p_read p w sub giv killed n p' r bs :
    piperead p killed n = Some (p', RRet r bs) ->
    pstep {| tp := p; wr := w; submitted := sub; given := giv |}
          {| tp := p'; wr := w; submitted := sub; given := giv ++ bs |}
| p_read_sleep p w sub giv killed n p' :
    piperead p killed n = Some (p', RSleep) ->
    pstep {| tp := p; wr := w; submitted := sub; given := giv |}
          {| tp := p'; wr := w; submitted := sub; given := giv |}
| p_close p w sub giv e :
    pstep {| tp := p; wr := w; submitted := sub; given := giv |}
          {| tp := (pipeclose p e).1; wr := w; submitted := sub; given := giv |}.

Definition fifo (t : trace) : Prop :=
  pipe_ok (tp t) /\
  match wr t with
  | Idle => submitted t = given t ++ queue (tp t)
  | Writing rest => submitted t = given t ++ queue (tp t) ++ rest
  | Failed => given t ++ queue (tp t) `prefix_of` submitted t
  end.

Lemma close_ok p e : pipe_ok p -> pipe_ok (pipeclose p e).1 /\ queue (pipeclose p e).1 = queue p.
Proof. intros []. unfold pipeclose. destruct e; (split; [by split|done]). Qed.

Lemma fifo_step t t' : fifo t -> pstep t t' -> fifo t'.
Proof.
  intros [Hok Hf] Hstep.
  destruct Hstep as [p sub giv bs|p sub giv rest killed n p' tn Hn Hw|p w sub giv killed n p' r bs Hr|
                     p w sub giv killed n p' Hr|p w sub giv e]; unfold fifo in *; cbn [tp wr submitted given] in *.
  - split; [done|]. by rewrite Hf, <- app_assoc.
  - destruct (pipewrite_spec p killed rest n Hok) as (p1 & t1 & Hw1 & Hok1 & Hq & _ & _ & Ht).
    rewrite Hw in Hw1. injection Hw1 as <- <-. split; [done|]. rewrite Hq, Ht.
    destruct (decide (length rest <= can_put p)%nat) as [Hle|Hgt].
    + destruct (Z.eqb_spec n (-1)); [lia|]. by rewrite take_ge by done.
    + destruct (negb (readopen p) || killed).
      * cbn. exists (drop (can_put p) rest). rewrite Hf, <- !app_assoc. by rewrite take_drop.
      * rewrite Hf, <- app_assoc. by rewrite take_drop.
  - destruct (piperead_spec p killed n Hok) as (p1 & t1 & Hr1 & Hok1 & _ & _ & Hc).
    rewrite Hr in Hr1. injection Hr1 as <- Ht. split; [done|]. subst t1.
    assert (Hq : queue p = bs ++ queue p').
    { destruct ((count p =? 0) && writeopen p).
      - destruct Hc as [-> Hc]. destruct killed; [|done]. by injection Hc as _ ->.
      - destruct Hc as [-> Hc]. injection Hc as _ ->. by rewrite take_drop. }
    destruct w; rewrite Hq in Hf; by rewrite <- ?app_assoc in *.
  - destruct (piperead_spec p killed n Hok) as (p1 & t1 & Hr1 & Hok1 & _ & _ & Hc).
    rewrite Hr in Hr1. injection Hr1 as <- Ht. split; [done|]. subst t1.
    destruct ((count p =? 0) && writeopen p); destruct Hc as [Hq Hc]; [by rewrite Hq|done].
  - destruct (close_ok p e Hok) as [Hok' Hq]. split; [done|]. by rewrite Hq.
Qed.

(** ** The properties *)

(** A turn of [pipewrite] refines appending to a queue of at most 512
    bytes: it never indexes outside the buffer, appends what fits, and
    returns [n] when everything fitted, -1 when the pipe is full and the
    reader is gone or the process killed, and sleeps otherwise. *)
Theorem pipewrite_queue p killed rest n (Hok : pipe_ok p) :
  let fits := Z.to_nat (PIPESIZE - Z.of_nat (length (queue p))) in
  exists p' t, pipewrite p killed rest n = Some (p', t) /\ pipe_ok p' /\
    queue p' = queue p ++ take fits rest /\ (length (queue p') <= Z.to_nat PIPESIZE)%nat /\
    t = (if decide (length rest <= fits)%nat then WRet n
         else if negb (readopen p) || killed then WRet (-1) else WSleep (drop fits rest)).
Proof.
  intros fits. pose proof (count_range p).
  assert (Hfits : fits = can_put p) by (unfold fits, can_put; rewrite queue_length; lia).
  rewrite Hfits. destruct (pipewrite_spec p killed rest n Hok) as (p' & t & Hw & Hok' & Hq & _ & _ & Ht).
  exists p', t. split; [done|]. split; [done|]. split; [done|]. split; [|done].
  rewrite queue_length. pose proof (po_count _ Hok'). lia.
Qed.

(** A turn of [piperead] refines taking from the front of the queue: an
    empty pipe with the write end open sleeps (or fails when killed); otherwise
    the first [n] bytes are returned and removed, 0 meaning end of file. *)
Theorem piperead_queue p killed n (Hok : pipe_ok p) :
  exists p' t, piperead p killed n = Some (p', t) /\ pipe_ok p' /\
    ((queue p = [] /\ writeopen p = true /\ queue p' = [] /\
        t = (if killed then RRet (-1) [] else RSleep)) \/
     ((queue p <> [] \/ writeopen p = false) /\
        queue p = take (Z.to_nat n) (queue p) ++ queue p' /\
        t = RRet (Z.of_nat (length (take (Z.to_nat n) (queue p)))) (take (Z.to_nat n) (queue p)))).
Proof.
  destruct (piperead_spec p killed n Hok) as (p' & t & Hr & Hok' & _ & _ & Hc).
  exists p', t. split; [done|]. split; [done|]. pose proof (count_range p).
  assert (He : queue p = [] <-> count p = 0).
  { split; [intros Hq; apply (f_equal length) in Hq; rewrite queue_length in Hq; cbn in Hq; lia|].
    intros Hq. apply nil_length_inv. rewrite queue_length, Hq. done. }
  destruct (Z.eqb_spec (count p) 0) as [H0|H0]; destruct (writeopen p); cbn [andb] in Hc.
  - left. destruct Hc as [Hq Ht]. apply He in H0. split; [done|]. split; [done|]. split; [congruence|done].
  - right. destruct Hc as [Hq Ht]. split; [by right|]. split; [|done]. by rewrite Hq, take_drop.
  - right. destruct Hc as [Hq Ht]. split; [left; by rewrite He|]. split; [|done]. by rewrite Hq, take_drop.
  - right. destruct Hc as [Hq Ht]. split; [by right|]. split; [|done]. by rewrite Hq, take_drop.
Qed.

(** C34.  A pipe is a FIFO: for one writer, any readers, any sleeps, kills and
    closes, the bytes readers have been given are a prefix of the bytes
    submitted, and when the writer's last call has returned its length what is
    missing is exactly the queue; the counters' wrap-around at 2^32 is not
    observable. *)
Theorem pipe_fifo page t (Hpage : Z.of_nat (length page) = PIPESIZE)
    (Hreach : rtc pstep {| tp := pipeinit page; wr := Idle; submitted := []; given := [] |} t) :
  given t `prefix_of` submitted t /\
  (wr t = Idle -> submitted t = given t ++ queue (tp t)).
Proof.
  assert (Hf : fifo t).
  { eapply (rtc_invariant pstep fifo); [intros; by eapply fifo_step| |done].
    split; [|done]. split; cbn; try done; unfold is_u32; lia. }
  destruct Hf as [_ Hf]. destruct (wr t); split; try done.
  - rewrite Hf. by apply prefix_app_r.
  - rewrite Hf. by apply prefix_app_r.
  - eapply prefix_app_l. done.
Qed.

Definition page0 : list Z := replicate 512 0.

Lemma pipewrite_queue_witness :
  exists p', pipewrite {| data := page0; nread := 2 ^ 32 - 1; nwrite := 2 ^ 32 - 1; readopen := true; writeopen := true |}
    false [7; 8] 2 = Some (p', WRet 2) /\ queue p' = [7; 8].
Proof.
  set (p := {| data := page0; nread := 2 ^ 32 - 1; nwrite := 2 ^ 32 - 1; readopen := true; writeopen := true |}).
  destruct (pipewrite_queue p false [7; 8] 2) as (p' & t & Hw & _ & Hq & _ & Ht).
  - split; vm_compute; try done; split; congruence.
  - exists p'. rewrite Ht in Hw. split; [exact Hw|]. by rewrite Hq.
Defined.

Lemma piperead_queue_witness :
  exists p', piperead {| data := page0; nread := 2 ^ 32 - 1; nwrite := 1; readopen := true; writeopen := true |}
    false 5 = Some (p', RRet 2 [0; 0]).
Proof.
  destruct (piperead_queue {| data := page0; nread := 2 ^ 32 - 1; nwrite := 1; readopen := true; writeopen := true |}
    false 5) as (p' & t & Hr & _ & [(Hq & _)|(_ & _ & Ht)]).
  - split; vm_compute; try done; split; congruence.
  - vm_compute in Hq. congruence.
  - exists p'. rewrite Ht in Hr. exact Hr.
Defined.

Lemma pipe_fifo_witness :
  exists t, rtc pstep {| tp := pipeinit page0; wr := Idle; submitted := []; given := [] |} t /\
    submitted t = [3] /\ given t `prefix_of` [3].
Proof.
  eexists. assert (Hr : rtc pstep {| tp := pipeinit page0; wr := Idle; submitted := []; given := [] |}
    {| tp := pipeinit page0; wr := Writing [3]; submitted := [3]; given := [] |}).
  { apply rtc_once. apply (p_call _ [] [] [3]). }
  split; [exact Hr|]. split; [done|].
  apply (pipe_fifo page0 _ ltac:(done) Hr).
Defined.
End Pipe.
