(* ===== verification/File.v ===== *)
(** * The open-file table

    [file.c]'s reference counting and [pipealloc] of [pipe.c].  A file is an
    index into [ftable.file]; [fileclose] reports what its last reference lets
    go, a pipe end or an inode. *)

From S2P Require Import Prelude.
Local Open Scope Z_scope.
Local Open Scope xv6_scope.

Module File.

Definition NFILE : nat := 100.

Inductive ftype := FD_NONE | FD_PIPE | FD_INODE.
#[export] Instance ftype_dec : EqDecision ftype.
Proof. solve_decision. Defined.

Record file := {
  type : ftype;
  ref : Z;
  readable : bool;
  writable : bool;
  fpipe : Z;
  ip : Z;
  off : Z
}.

Definition with_ref (r : Z) (f : file) : file :=
  {| type := type f; ref := r; readable := readable f; writable := writable f;
     fpipe := fpipe f; ip := ip f; off := off f |}.
Definition with_type (t : ftype) (f : file) : file :=
  {| type := t; ref := ref f; readable := readable f; writable := writable f;
     fpipe := fpipe f; ip := ip f; off := off f |}.

Abbreviation table := (list file).

(** [for(f = ftable.file; f < ftable.file + NFILE; f++) if(f->ref == 0)]. *)
Fixpoint free_index (t : table) : option nat :=
  match t with
  | [] => None
  | f :: t => if ref f =? 0 then Some 0%nat else S <$> free_index t
  end.

Definition filealloc (t : table) : table * option nat :=
  match free_index t with
  | Some i => (alter (with_ref 1) i t, Some i)
  | None => (t, None)
  end.

Definition filedup (t : table) (i : nat) : outcome table :=
  let* f := of_option (t !! i) in
  if ref f <? 1 then Panic "filedup" else Ret (<[i := with_ref (ref f + 1) f]> t).

(** What closing a file asks of the layers below. *)
Inductive release := RNone | RPipe (p : Z) (writable : bool) | RInode (ip : Z).

Definition fileclose (t : table) (i : nat) : outcome (table * release) :=
  let* f := of_option (t !! i) in
  if ref f <? 1 then Panic "fileclose"
  else
    let f := with_ref (ref f - 1) f in
    if 0 <? ref f then Ret (<[i := f]> t, RNone)
    else
      let ff := f in
      let t := <[i := with_type FD_NONE (with_ref 0 f)]> t in
      match type ff with
      | FD_PIPE => Ret (t, RPipe (fpipe ff) (writable ff))
      | FD_INODE => Ret (t, RInode (ip ff))
      | FD_NONE => Ret (t, RNone)
      end.

Definition pipe_end (p : Z) (w : bool) (f : file) : file :=
  {| type := FD_PIPE; ref := ref f; readable := negb w; writable := w; fpipe := p; ip := ip f; off := off f |}.

(** [fileclose] of a file that may be null. *)
Definition close_opt (t : table) (f : option nat) : outcome (table * list release) :=
  match f with
  | Some i => let* (t, r) := fileclose t i in Ret (t, [r])
  | None => Ret (t, [])
  end.

(** [pipealloc], [page] being what [kalloc] returns (0 for none): the table,
    the two files or the failure, and what the failure path released.  The
    [bad] path is only reached with [p == 0], so it frees no page. *)
Definition pipealloc (t : table) (page : Z) : outcome (table * option (nat * nat) * list release) :=
  let '(t, f0) := filealloc t in
  match f0 with
  | None => Ret (t, None, [])
  | Some i0 =>
      let '(t, f1) := filealloc t in
      match f1 with
      | None => let* (t, r) := close_opt t (Some i0) in Ret (t, None, r)
      | Some i1 =>
          if page =? 0 then
            let* (t, r0) := close_opt t (Some i0) in
            let* (t, r1) := close_opt t (Some i1) in
            Ret (t, None, r0 ++ r1)
          else
            let t := alter (pipe_end page false) i0 t in
            let t := alter (pipe_end page true) i1 t in
            Ret (t, Some (i0, i1), [])
      end
  end.

(** ** References *)

(** [h] lists the references held, a file as often as it is held. *)
Definition refs_to (h : list nat) (i : nat) : Z := Z.of_nat (count_occ Nat.eq_dec h i).

Record table_ok (t : table) (h : list nat) : Prop := {
  to_ref : forall i f, t !! i = Some f -> ref f = refs_to h i;
  to_none : forall i f, t !! i = Some f -> ref f = 0 -> type f = FD_NONE;
  to_held : forall i, i ∈ h -> (i < length t)%nat
}.

Lemma refs_to_nonneg h i : 0 <= refs_to h i.
Proof. unfold refs_to. lia. Qed.

Lemma refs_to_held h i : i ∈ h <-> 1 <= refs_to h i.
Proof. unfold refs_to. rewrite list_elem_of_In, (count_occ_In Nat.eq_dec). lia. Qed.

Lemma refs_to_cons i h j : refs_to (i :: h) j = (if decide (i = j) then 1 else 0) + refs_to h j.
Proof.
  unfold refs_to. destruct (decide (i = j)) as [->|Hne].
  - rewrite count_occ_cons_eq by done. lia.
  - by rewrite count_occ_cons_neq.
Qed.

Lemma refs_to_perm h h' j : h ≡ₚ h' -> refs_to h j = refs_to h' j.
Proof. intros Hp. unfold refs_to. f_equal. by apply Permutation_count_occ. Qed.

Lemma free_index_spec t :
  match free_index t with
  | Some i => exists f, t !! i = Some f /\ ref f = 0 /\ forall j g, (j < i)%nat -> t !! j = Some g -> ref g <> 0
  | None => forall i f, t !! i = Some f -> ref f <> 0
  end.
Proof.
  induction t as [|f t IH]; cbn [free_index]; [by intros [|i] g|].
  destruct (Z.eqb_spec (ref f) 0) as [Hz|Hnz].
  - exists f. split; [done|]. split; [done|lia].
  - destruct (free_index t) as [i|]; cbn.
    + destruct IH as (g & Hg & Hz & Hmin). exists g. split; [done|]. split; [done|].
      intros [|j] g' Hj Hg'; [cbn in Hg'; congruence|]. apply (Hmin j); [lia|done].
    + intros [|i] g Hg; cbn in Hg; [congruence|by apply (IH i)].
Qed.

Lemma filealloc_spec t h : table_ok t h ->
  match filealloc t with
  | (t', Some i) => i ∉ h /\ table_ok t' (i :: h) /\ length t' = length t /\
      (exists f, t !! i = Some f /\ t' = <[i := with_ref 1 f]> t)
  | (t', None) => t' = t /\ forall i, (i < length t)%nat -> i ∈ h
  end.
Proof.
  intros [Href Hnone Hheld]. unfold filealloc. pose proof (free_index_spec t) as Hfi.
  destruct (free_index t) as [i|].
  - destruct Hfi as (f & Hf & Hz & _).
    assert (Hn : i ∉ h) by (rewrite refs_to_held, <- (Href i f Hf); lia).
    split; [done|]. assert (Heq : alter (with_ref 1) i t = <[i := with_ref 1 f]> t).
    { apply list_eq. intros j. destruct (decide (i = j)) as [<-|Hne].
      - rewrite list_lookup_alter_eq, Hf. rewrite list_lookup_insert_eq; [done|by eapply lookup_lt_Some].
      - by rewrite list_lookup_alter_ne, list_lookup_insert_ne. }
    rewrite Heq. split; [|split; [by rewrite length_insert|by exists f]].
    assert (Hlt : (i < length t)%nat) by (by eapply lookup_lt_Some).
    split.
    + intros j g. rewrite refs_to_cons. destruct (decide (i = j)) as [<-|Hne].
      * rewrite list_lookup_insert_eq by done. intros [= <-]. cbn. rewrite <- (Href i f Hf). lia.
      * rewrite list_lookup_insert_ne by done. intros Hg. rewrite (Href j g Hg). lia.
    + intros j g. destruct (decide (i = j)) as [<-|Hne].
      * rewrite list_lookup_insert_eq by done. intros [= <-]. done.
      * rewrite list_lookup_insert_ne by done. by apply Hnone.
    + intros j [->|Hj]%elem_of_cons; rewrite length_insert; [done|by apply Hheld].
  - split; [done|]. intros i [f Hf]%lookup_lt_is_Some. apply refs_to_held.
    rewrite <- (Href i f Hf). pose proof (Hfi i f Hf). pose proof (refs_to_nonneg h i). rewrite <- (Href i f Hf) in *. lia.
Qed.

Lemma filedup_spec t h i : table_ok t h -> i ∈ h ->
  exists t', filedup t i = Ret t' /\ table_ok t' (i :: h).
Proof.
  intros [Href Hnone Hheld] Hi. destruct (lookup_lt_is_Some_2 t i (Hheld i Hi)) as [f Hf].
  pose proof Hi as Hr%refs_to_held. rewrite <- (Href i f Hf) in Hr.
  unfold filedup. rewrite Hf. cbn [of_option obind]. destruct (Z.ltb_spec (ref f) 1); [lia|].
  eexists. split; [done|]. assert (Hlt : (i < length t)%nat) by (by apply Hheld). split.
  - intros j g. rewrite refs_to_cons. destruct (decide (i = j)) as [<-|Hne].
    + rewrite list_lookup_insert_eq by done. intros [= <-]. cbn. rewrite <- (Href i f Hf). lia.
    + rewrite list_lookup_insert_ne by done. intros Hg. rewrite (Href j g Hg). lia.
  - intros j g. destruct (decide (i = j)) as [<-|Hne].
    + rewrite list_lookup_insert_eq by done. intros [= <-]. cbn. lia.
    + rewrite list_lookup_insert_ne by done. by apply Hnone.
  - intros j [->|Hj]%elem_of_cons; rewrite length_insert; by apply Hheld.
Qed.

(** What the last [fileclose] of [f] releases. *)
Definition released (f : file) : release :=
  match type f with FD_PIPE => RPipe (fpipe f) (writable f) | FD_INODE => RInode (ip f) | FD_NONE => RNone end.

Lemma fileclose_spec t h h' i f : table_ok t h -> h ≡ₚ i :: h' -> t !! i = Some f ->
  exists t' f', fileclose t i = Ret (t', if decide (i ∈ h') then RNone else released f) /\
    table_ok t' h' /\ t' = <[i := f']> t /\
    f' = if decide (i ∈ h') then with_ref (ref f - 1) f else with_type FD_NONE (with_ref 0 f).
Proof.
  intros [Href Hnone Hheld] Hperm Hf.
  assert (Hr : ref f = 1 + refs_to h' i).
  { rewrite (Href i f Hf), (refs_to_perm _ _ i Hperm), refs_to_cons, decide_True; done. }
  pose proof (refs_to_nonneg h' i). assert (Hlt : (i < length t)%nat) by (by eapply lookup_lt_Some).
  assert (Hok : forall f', ref f' = refs_to h' i -> (ref f' = 0 -> type f' = FD_NONE) -> table_ok (<[i := f']> t) h').
  { intros f' Hrf Htf. split.
    - intros j g. destruct (decide (i = j)) as [<-|Hne].
      + rewrite list_lookup_insert_eq by done. by intros [= <-].
      + rewrite list_lookup_insert_ne by done. intros Hg. rewrite (Href j g Hg), (refs_to_perm _ _ j Hperm), refs_to_cons.
        by rewrite decide_False.
    - intros j g. destruct (decide (i = j)) as [<-|Hne].
      + rewrite list_lookup_insert_eq by done. by intros [= <-].
      + rewrite list_lookup_insert_ne by done. by apply Hnone.
    - intros j Hj. rewrite length_insert. apply Hheld. rewrite Hperm. by right. }
  unfold fileclose. rewrite Hf. cbn [of_option obind]. destruct (Z.ltb_spec (ref f) 1); [lia|]. cbn [ref with_ref].
  destruct (decide (i ∈ h')) as [Hin|Hnin].
  - apply refs_to_held in Hin. destruct (Z.ltb_spec 0 (ref f - 1)); [|lia].
    eexists _, _. split; [done|]. split; [|done]. apply Hok; cbn; lia.
  - rewrite refs_to_held in Hnin. destruct (Z.ltb_spec 0 (ref f - 1)); [lia|].
    eexists _, _. unfold released. cbn. split; [by destruct (type f)|]. split; [|done].
    apply Hok; [cbn; lia|done].
Qed.

Lemma free_type t h i f : table_ok t h -> t !! i = Some f -> i ∉ h -> type f = FD_NONE.
Proof.
  intros Hok Hf Hn. apply (to_none _ _ Hok i f Hf). rewrite (to_ref _ _ Hok i f Hf).
  rewrite refs_to_held in Hn. pose proof (refs_to_nonneg h i). lia.
Qed.

Lemma pipe_end_ok t h p w i : table_ok t h -> i ∈ h -> table_ok (alter (pipe_end p w) i t) h.
Proof.
  intros [Href Hnone Hheld] Hi. split.
  - intros j g. destruct (decide (i = j)) as [<-|Hne].
    + rewrite list_lookup_alter_eq. destruct (t !! i) as [f|] eqn:Hf; [|done]. cbn. intros [= <-]. cbn. by apply (Href i f).
    + rewrite list_lookup_alter_ne by done. by apply Href.
  - intros j g. destruct (decide (i = j)) as [<-|Hne].
    + rewrite list_lookup_alter_eq. destruct (t !! i) as [f|] eqn:Hf; [|done]. cbn. intros [= <-]. cbn.
      rewrite (Href i f Hf). apply refs_to_held in Hi. lia.
    + rewrite list_lookup_alter_ne by done. by apply Hnone.
  - intros j Hj. rewrite length_alter. by apply Hheld.
Qed.

(** ** The properties *)

(** Reference counting: with [h] the references held, [filealloc] hands
    out a file nobody holds; [filedup] of a held file adds a reference;
    [fileclose] of a held file never panics, drops one reference, and lets
    the pipe end or inode go exactly when the last reference is dropped. *)
Theorem file_refcount t h (Hok : table_ok t h) :
  (forall t' i, filealloc t = (t', Some i) -> i ∉ h /\ table_ok t' (i :: h)) /\
  (forall t', filealloc t = (t', None) -> t' = t /\ forall i, (i < length t)%nat -> i ∈ h) /\
  (forall i, i ∈ h -> exists t', filedup t i = Ret t' /\ table_ok t' (i :: h)) /\
  (forall i h', h ≡ₚ i :: h' -> exists t' f, t !! i = Some f /\
     fileclose t i = Ret (t', if decide (i ∈ h') then RNone else released f) /\ table_ok t' h').
Proof.
  pose proof (filealloc_spec t h Hok) as Ha. split; [|split; [|split]].
  - intros t' i Heq. rewrite Heq in Ha. destruct Ha as (Hn & Ht & _). done.
  - intros t' Heq. by rewrite Heq in Ha.
  - intros i Hi. by apply filedup_spec.
  - intros i h' Hperm. assert (Hi : i ∈ h) by (rewrite Hperm; left).
    destruct (lookup_lt_is_Some_2 t i (to_held _ _ Hok i Hi)) as [f Hf].
    destruct (fileclose_spec t h h' i f Hok Hperm Hf) as (t' & f' & Hc & Ht & _).
    by exists t', f.
Qed.

Lemma pipealloc_spec t h page :
  table_ok t h ->
  exists t' r rel, pipealloc t page = Ret (t', r, rel) /\
    match r with
    | Some (i0, i1) => page <> 0 /\ i0 <> i1 /\ i0 ∉ h /\ i1 ∉ h /\ table_ok t' (i1 :: i0 :: h) /\ rel = [] /\
        (exists f0 f1, t' !! i0 = Some f0 /\ t' !! i1 = Some f1 /\
           type f0 = FD_PIPE /\ type f1 = FD_PIPE /\ fpipe f0 = page /\ fpipe f1 = page /\
           readable f0 = true /\ writable f0 = false /\ readable f1 = false /\ writable f1 = true)
    | None => table_ok t' h /\ Forall (fun x => x = RNone) rel
    end.
Proof.
  intros Hok. unfold pipealloc. pose proof (filealloc_spec t h Hok) as Ha.
  destruct (filealloc t) as [t0 [i0|]].
  2: { destruct Ha as [-> _]. by eexists _, _, _. }
  destruct Ha as (Hn0 & Hok0 & Hl0 & f0 & Hf0 & Ht0).
  assert (Hi0 : (i0 < length t)%nat) by (by eapply lookup_lt_Some).
  assert (Hg0 : t0 !! i0 = Some (with_ref 1 f0)) by (subst t0; by apply list_lookup_insert_eq).
  assert (Hnone0 : type f0 = FD_NONE) by (eapply free_type; [exact Hok|done|done]).
  pose proof (filealloc_spec t0 (i0 :: h) Hok0) as Ha1.
  destruct (filealloc t0) as [t1 [i1|]].
  2: { destruct Ha1 as [-> _]. destruct (fileclose_spec t0 (i0 :: h) h i0 _ Hok0 ltac:(done) Hg0) as (t2 & f2 & Hc & Hok2 & _).
       rewrite decide_False in Hc by done. unfold close_opt. rewrite Hc. cbn [obind].
       eexists _, _, _. split; [done|]. split; [done|]. constructor; [|constructor].
       unfold released. cbn. by rewrite Hnone0. }
  destruct Ha1 as (Hn1 & Hok1 & Hl1 & f1 & Hf1 & Ht1).
  assert (Hne : i1 <> i0) by (intros ->; apply Hn1; left).
  assert (Hn1' : i1 ∉ h) by (intros Hin; apply Hn1; by right).
  assert (Hi1 : (i1 < length t)%nat) by (rewrite <- Hl0; by eapply lookup_lt_Some).
  assert (Hg1 : t1 !! i1 = Some (with_ref 1 f1)) by (subst t1; apply list_lookup_insert_eq; lia).
  assert (Hg0' : t1 !! i0 = Some (with_ref 1 f0)) by (subst t1; by rewrite list_lookup_insert_ne).
  assert (Hnone1 : type f1 = FD_NONE) by (eapply free_type; [exact Hok0|done|done]).
  destruct (Z.eqb_spec page 0) as [->|Hp].
  - destruct (fileclose_spec t1 (i1 :: i0 :: h) (i1 :: h) i0 _ Hok1 ltac:(apply perm_swap) Hg0') as (t2 & f2 & Hc & Hok2 & Ht2 & _).
    rewrite decide_False in Hc by (rewrite not_elem_of_cons; split; [by apply not_eq_sym|done]).
    unfold close_opt. rewrite Hc. cbn [obind].
    assert (Hg1' : t2 !! i1 = Some (with_ref 1 f1)) by (subst t2; by rewrite list_lookup_insert_ne by (by apply not_eq_sym)).
    destruct (fileclose_spec t2 (i1 :: h) h i1 _ Hok2 ltac:(done) Hg1') as (t3 & f3 & Hc3 & Hok3 & _).
    rewrite decide_False in Hc3 by done. rewrite Hc3. cbn [obind].
    eexists _, _, _. split; [done|]. split; [done|].
    unfold released. cbn. rewrite Hnone0, Hnone1. by repeat constructor.
  - eexists _, _, _. split; [done|]. split; [done|]. split; [by apply not_eq_sym|]. split; [done|]. split; [done|].
    split; [|split; [done|]].
    + apply pipe_end_ok; [apply pipe_end_ok; [done|right; left]|left].
    + eexists _, _. rewrite list_lookup_alter_ne by done. rewrite list_lookup_alter_eq, Hg0'.
      rewrite list_lookup_alter_eq, list_lookup_alter_ne, Hg1 by (by apply not_eq_sym). done.
Qed.

(** [pipealloc] either makes two different new files, the read end and
    the write end of the page, or fails leaving every reference as it was
    and releasing nothing below. *)
Theorem pipealloc_atomic t h page (Hok : table_ok t h) :
  exists t' r rel, pipealloc t page = Ret (t', r, rel) /\
    match r with
    | Some (i0, i1) => page <> 0 /\ i0 <> i1 /\ i0 ∉ h /\ i1 ∉ h /\ table_ok t' (i1 :: i0 :: h) /\ rel = [] /\
        (exists f0 f1, t' !! i0 = Some f0 /\ t' !! i1 = Some f1 /\
           type f0 = FD_PIPE /\ type f1 = FD_PIPE /\ fpipe f0 = page /\ fpipe f1 = page /\
           readable f0 = true /\ writable f0 = false /\ readable f1 = false /\ writable f1 = true)
    | None => table_ok t' h /\ Forall (fun x => x = RNone) rel
    end.
Proof. by apply pipealloc_spec. Qed.

Definition table0 : table :=
  replicate NFILE {| type := FD_NONE; ref := 0; readable := false; writable := false; fpipe := 0; ip := 0; off := 0 |}.

Lemma table0_ok : table_ok table0 [].
Proof.
  split.
  - intros i f [-> _]%lookup_replicate. done.
  - intros i f [-> _]%lookup_replicate. done.
  - intros i Hi. by apply elem_of_nil in Hi.
Qed.

Lemma file_refcount_witness :
  exists t', filealloc table0 = (t', Some 0%nat) /\ table_ok t' [0%nat] /\
    exists t2, fileclose t' 0 = Ret (t2, RNone).
Proof.
  destruct (file_refcount table0 [] table0_ok) as (Ha & _).
  destruct (filealloc table0) as [t' [i|]] eqn:Heq; [|by vm_compute in Heq].
  assert (i = 0%nat) as -> by (vm_compute in Heq; congruence).
  exists t'. split; [done|]. destruct (Ha t' 0%nat eq_refl) as [_ Ht]. split; [done|].
  destruct (file_refcount t' [0%nat] Ht) as (_ & _ & _ & Hc).
  destruct (Hc 0%nat [] ltac:(done)) as (t2 & f & Hf & Hcl & _). exists t2. rewrite Hcl.
  vm_compute in Heq. injection Heq as <-. injection Hf as <-. done.
Defined.

Lemma pipealloc_atomic_witness :
  exists t' rel, pipealloc table0 4096 = Ret (t', Some (0%nat, 1%nat), rel) /\ table_ok t' [1%nat; 0%nat].
Proof.
  destruct (pipealloc_atomic table0 [] 4096 table0_ok) as (t' & r & rel & Hp & Hr).
  assert (Hr' : r = Some (0%nat, 1%nat)).
  { destruct (pipealloc table0 4096) as [[[t2 r2] rel2]| | |] eqn:Heq; [|done..].
    injection Hp as -> -> ->. vm_compute in Heq. congruence. }
  subst r. exists t', rel. split; [done|]. apply Hr.
Defined.
End File.
