(* ===== verification/Spinlock.v ===== *)
(** * Spin locks

    [spinlock.c] of the kernel (per-CPU interrupt nesting, [xchg] locks) and
    the user-level [lock_t] of p3b's [ulib.c] ([fetch_and_add] locks).  The
    functions are deterministic steps of one CPU; the transition systems
    interleave them, an attempt at the atomic instruction being one step. *)

From stdpp Require Import functions.
From S2P Require Import Prelude.
Local Open Scope Z_scope.
Local Open Scope xv6_scope.

Module Spinlock.

(** The part of [struct cpu] the locks use, and the interrupt flag of its
    [eflags]. *)
Record cpu := { ncli : Z; intena : bool; FL_IF : bool }.

Record spinlock := { locked : Z; lcpu : option nat }.

Definition initlock : spinlock := {| locked := 0; lcpu := None |}.

Definition pushcli (u : cpu) : cpu :=
  {| ncli := s32 (ncli u + 1);
     intena := if ncli u =? 0 then FL_IF u else intena u;
     FL_IF := false |}.

Definition popcli (u : cpu) : outcome cpu :=
  if FL_IF u then Panic "popcli - interruptible"
  else
    let n := s32 (ncli u - 1) in
    if n <? 0 then Panic "popcli"
    else Ret {| ncli := n; intena := intena u; FL_IF := (n =? 0) && intena u |}.

Section one_cpu.
(** [mycpu()]. *)
Context (mycpu : nat).

Definition is_mine (lk : spinlock) : bool :=
  negb (locked lk =? 0) && bool_decide (lcpu lk = Some mycpu).

Definition holding (u : cpu) (lk : spinlock) : outcome (cpu * bool) :=
  let u := pushcli u in
  let r := is_mine lk in
  let* u := popcli u in
  Ret (u, r).

(** [acquire] up to the loop. *)
Definition acquire_enter (u : cpu) (lk : spinlock) : outcome cpu :=
  let u := pushcli u in
  let* (u, r) := holding u lk in
  if r then Panic "acquire" else Ret u.

(** The atomic exchange: the lock afterwards and the value it had. *)
Definition xchg (lk : spinlock) (newval : Z) : spinlock * Z :=
  ({| locked := newval; lcpu := lcpu lk |}, locked lk).

(** [lk->cpu = mycpu()]. *)
Definition acquire_record (lk : spinlock) : spinlock :=
  {| locked := locked lk; lcpu := Some mycpu |}.

(** The whole of [acquire] when no other CPU runs in between; it spins for
    ever, here [Blocked], on a lock that stays taken. *)
Definition acquire (u : cpu) (lk : spinlock) : outcome (cpu * spinlock) :=
  let* u := acquire_enter u lk in
  let (lk, old) := xchg lk 1 in
  if old =? 0 then Ret (u, acquire_record lk) else Blocked.

(** [release]: [lk->cpu = 0], then [lk->locked = 0], then [popcli]. *)
Definition release (u : cpu) (lk : spinlock) : outcome (cpu * spinlock) :=
  let* (u, r) := holding u lk in
  if r then
    let* u := popcli u in
    Ret (u, {| locked := 0; lcpu := None |})
  else Panic "release".
End one_cpu.

(** ** Interleaving

    Where a CPU is: outside [acquire], in its loop, or between the exchange
    that took the lock and [lk->cpu = mycpu()].  [held] is the list of locks a
    CPU has acquired and not released. *)
(** Locks are told apart by their index: a [struct spinlock] takes more than
    four bytes of a 32-bit address space. *)
Definition is_lock (l : nat) : Prop := Z.of_nat l < 2 ^ 30.

Inductive pc := Run | Spin (l : nat) | Won (l : nat).

Record system := {
  cpus : nat -> cpu;
  locks : nat -> spinlock;
  pcs : nat -> pc;
  held : nat -> list nat
}.

Inductive step : system -> system -> Prop :=
| st_enter s c l u :
    pcs s c = Run -> is_lock l -> acquire_enter c (cpus s c) (locks s l) = Ret u ->
    step s {| cpus := <[c := u]> (cpus s); locks := locks s;
              pcs := <[c := Spin l]> (pcs s); held := held s |}
| st_xchg s c l lk old :
    pcs s c = Spin l -> xchg (locks s l) 1 = (lk, old) ->
    step s {| cpus := cpus s; locks := <[l := lk]> (locks s);
              pcs := <[c := if old =? 0 then Won l else Spin l]> (pcs s); held := held s |}
| st_record s c l :
    pcs s c = Won l ->
    step s {| cpus := cpus s; locks := <[l := acquire_record c (locks s l)]> (locks s);
              pcs := <[c := Run]> (pcs s); held := <[c := l :: held s c]> (held s) |}
| st_release s c l h u lk :
    pcs s c = Run -> held s c ≡ₚ l :: h -> release c (cpus s c) (locks s l) = Ret (u, lk) ->
    step s {| cpus := <[c := u]> (cpus s); locks := <[l := lk]> (locks s);
              pcs := pcs s; held := <[c := h]> (held s) |}.

Definition initial (flags : nat -> bool) : system := {|
  cpus := fun c => {| ncli := 0; intena := false; FL_IF := flags c |};
  locks := fun _ => initlock;
  pcs := fun _ => Run;
  held := fun _ => []
|}.

(** ** The user-level lock *)

(** [lock; xaddl]: the flag afterwards and the value returned. *)
Definition fetch_and_add (flag v : Z) : Z * Z := (s32 (flag + v), flag).

Definition lock_init : Z := 0.
Definition lock_release : Z := 0.

(** One test of the loop of [lock_acquire]: the flag afterwards and whether
    the lock is taken. *)
Definition lock_acquire_try (flag : Z) : Z * bool :=
  let (flag, old) := fetch_and_add flag 1 in (flag, old =? 0).

(** The flag, the threads between [lock_acquire] and [lock_release], and the
    number of attempts since the flag was last cleared. *)
Record ustate := { flag : Z; inside : list nat; tries : Z }.

Inductive ustep : ustate -> ustate -> Prop :=
| us_try u t flag' b :
    t ∉ inside u -> lock_acquire_try (flag u) = (flag', b) ->
    ustep u {| flag := flag'; inside := if b then t :: inside u else inside u; tries := tries u + 1 |}
| us_release u t rest :
    inside u ≡ₚ t :: rest ->
    ustep u {| flag := lock_release; inside := rest; tries := 0 |}.

Definition uinitial : ustate := {| flag := lock_init; inside := []; tries := 0 |}.

(** ** Lemmas *)

(** The number of [pushcli] a CPU has outstanding. *)
Definition depth (s : system) (c : nat) : Z :=
  Z.of_nat (length (held s c)) + match pcs s c with Run => 0 | _ => 1 end.

Definition takes (s : system) (c l : nat) : Prop := l ∈ held s c \/ pcs s c = Won l.

(** What holds in every reachable state, [flags] being the interrupt flags
    the CPUs started with. *)
Record sys_ok (flags : nat -> bool) (s : system) : Prop := {
  ok_ncli c : ncli (cpus s c) = depth s c;
  ok_off c : 0 < depth s c -> FL_IF (cpus s c) = false /\ intena (cpus s c) = flags c;
  ok_on c : depth s c = 0 -> FL_IF (cpus s c) = flags c;
  ok_held c : NoDup (held s c) /\ Forall is_lock (held s c);
  ok_pc c l : pcs s c = Spin l \/ pcs s c = Won l -> is_lock l;
  ok_one c c' l : takes s c l -> takes s c' l -> c = c';
  ok_not_both c l : pcs s c = Won l -> l ∉ held s c;
  ok_taken c l : takes s c l -> locked (locks s l) = 1;
  ok_locked l : locked (locks s l) <> 0 -> exists c, takes s c l;
  ok_cpu c l : lcpu (locks s l) = Some c <-> l ∈ held s c
}.

Lemma held_bound h : NoDup h -> Forall is_lock h -> Z.of_nat (length h) <= 2 ^ 30.
Proof.
  intros Hnd Hl.
  pose proof (NoDup_incl_length (proj1 (NoDup_ListNoDup h) Hnd)
    (l' := seq 0 (Z.to_nat (2 ^ 30)))) as H.
  rewrite length_seq in H. enough (length h <= Z.to_nat (2 ^ 30))%nat by lia.
  apply H. intros x Hx%list_elem_of_In. rewrite Forall_forall in Hl.
  apply in_seq. specialize (Hl x Hx). unfold is_lock in Hl. lia.
Qed.

Lemma depth_range flags s c : sys_ok flags s -> 0 <= depth s c <= 2 ^ 30 + 1.
Proof.
  intros Hok. destruct (ok_held _ _ Hok c) as [Hnd Hl].
  pose proof (held_bound _ Hnd Hl). unfold depth. destruct (pcs s c); lia.
Qed.

Lemma holding_spec c u lk :
  0 <= ncli u < 2 ^ 31 - 1 -> (0 < ncli u -> FL_IF u = false) ->
  holding c u lk =
    Ret ({| ncli := ncli u; intena := if ncli u =? 0 then FL_IF u else intena u; FL_IF := FL_IF u |},
         is_mine c lk).
Proof.
  intros Hn Hf. unfold holding, pushcli, popcli. simpl.
  rewrite (s32_small (ncli u + 1)) by (unfold is_s32; lia).
  replace (ncli u + 1 - 1) with (ncli u) by lia.
  rewrite (s32_small (ncli u)) by (unfold is_s32; lia).
  destruct (Z.ltb_spec (ncli u) 0) as [?|_]; [lia|]. simpl. do 3 f_equal.
  destruct (Z.eqb_spec (ncli u) 0); simpl; [done|]. symmetry. apply Hf. lia.
Qed.

Lemma acquire_enter_spec c u lk :
  0 <= ncli u < 2 ^ 31 - 2 ->
  acquire_enter c u lk =
    if is_mine c lk then Panic "acquire"
    else Ret {| ncli := ncli u + 1; intena := if ncli u =? 0 then FL_IF u else intena u; FL_IF := false |}.
Proof.
  intros Hn. unfold acquire_enter. rewrite holding_spec; simpl;
    rewrite ?(s32_small (ncli u + 1)) by (unfold is_s32; lia); [|lia|done].
  destruct (Z.eqb_spec (ncli u + 1) 0); [lia|]. done.
Qed.

Lemma release_spec c u lk :
  0 < ncli u < 2 ^ 31 - 1 -> FL_IF u = false ->
  release c u lk =
    if is_mine c lk then
      Ret ({| ncli := ncli u - 1; intena := intena u; FL_IF := (ncli u - 1 =? 0) && intena u |}, initlock)
    else Panic "release".
Proof.
  intros Hn Hf. unfold release. rewrite holding_spec; [|lia|done]. simpl.
  destruct (is_mine c lk); [|done]. unfold popcli. simpl. rewrite Hf.
  rewrite (s32_small (ncli u - 1)) by (unfold is_s32; lia).
  destruct (Z.ltb_spec (ncli u - 1) 0); [lia|]. simpl.
  destruct (Z.eqb_spec (ncli u) 0); [lia|]. done.
Qed.

Lemma is_mine_held flags s c l :
  sys_ok flags s -> is_mine c (locks s l) = true <-> l ∈ held s c.
Proof.
  intros Hok. unfold is_mine. rewrite andb_true_iff, bool_decide_eq_true, (ok_cpu _ _ Hok).
  split; [by intros [_ ?]|]. intros H. split; [|done].
  rewrite (ok_taken _ _ Hok c l) by (by left). done.
Qed.

Lemma depth_nonneg s c : 0 <= depth s c.
Proof. unfold depth. destruct (pcs s c); lia. Qed.

Lemma depth_held s c l : l ∈ held s c -> 0 < depth s c.
Proof. unfold depth. intros H. destruct (held s c); [by apply elem_of_nil in H|]. simpl. destruct (pcs s c); lia. Qed.

Lemma takes_run s c l : pcs s c = Run -> takes s c l <-> l ∈ held s c.
Proof. unfold takes. intros ->. naive_solver. Qed.

(** Splits on whether a CPU (or lock) is the one a step changes. *)
Ltac at_index c c' :=
  destruct (decide (c = c')) as [<-|?];
  [rewrite ?fn_lookup_insert in *|rewrite ?fn_lookup_insert_ne in * by done]; simpl in *.

Section steps.
Context (flags : nat -> bool) (s : system) (Hok : sys_ok flags s).

(** A step that changes no lock and no list of held locks. *)
Lemma enter_ok c l u :
  pcs s c = Run -> is_lock l -> acquire_enter c (cpus s c) (locks s l) = Ret u ->
  sys_ok flags {| cpus := <[c := u]> (cpus s); locks := locks s;
                  pcs := <[c := Spin l]> (pcs s); held := held s |}.
Proof.
  intros Hpc Hl Hu. pose proof (depth_range _ _ c Hok) as Hd. pose proof (ok_ncli _ _ Hok c) as Hn.
  rewrite acquire_enter_spec in Hu by lia. destruct (is_mine c (locks s l)); [done|]. injection Hu as <-.
  match goal with |- sys_ok _ ?x => set (s' := x) end.
  assert (Ht : forall c' l', takes s' c' l' <-> takes s c' l').
  { intros c' l'. unfold takes, s'. simpl. at_index c c'; [|done]. rewrite Hpc. naive_solver. }
  assert (Hdep : forall c', depth s' c' = if decide (c = c') then depth s c + 1 else depth s c').
  { intros c'. unfold depth, s'. simpl. case_decide as Hc; at_index c c'; try done.
    rewrite Hpc. lia. }
  split.
  - intros c'. rewrite Hdep. simpl. case_decide; at_index c c'; [lia|done|done|apply (ok_ncli _ _ Hok)].
  - intros c'. rewrite Hdep. simpl. case_decide; at_index c c'; [|done|done|apply (ok_off _ _ Hok)].
    intros _. split; [done|]. destruct (Z.eqb_spec (ncli (cpus s c)) 0).
    + apply (ok_on _ _ Hok). lia.
    + apply (ok_off _ _ Hok c). lia.
  - intros c'. rewrite Hdep. simpl. case_decide; at_index c c'; [lia|done|done|apply (ok_on _ _ Hok)].
  - apply (ok_held _ _ Hok).
  - intros c' l' H. simpl in H. at_index c c'; [by destruct H as [[= <-]|]|by apply (ok_pc _ _ Hok c')].
  - intros c1 c2 l'. rewrite !Ht. apply (ok_one _ _ Hok).
  - intros c' l' H. simpl in H. at_index c c'; [done|by apply (ok_not_both _ _ Hok)].
  - intros c' l'. rewrite Ht. apply (ok_taken _ _ Hok).
  - intros l' H. destruct (ok_locked _ _ Hok l' H) as [c' Hc']. exists c'. by apply Ht.
  - apply (ok_cpu _ _ Hok).
Qed.

(** The exchange takes a free lock, and changes nothing on a taken one. *)
Lemma xchg_ok c l lk old :
  pcs s c = Spin l -> xchg (locks s l) 1 = (lk, old) ->
  sys_ok flags {| cpus := cpus s; locks := <[l := lk]> (locks s);
                  pcs := <[c := if old =? 0 then Won l else Spin l]> (pcs s); held := held s |}.
Proof.
  intros Hpc [= <- <-]. match goal with |- sys_ok _ ?x => set (s' := x) end.
  assert (Hdep : forall c', depth s' c' = depth s c').
  { intros c'. unfold depth, s'. simpl. at_index c c'; [|done]. rewrite Hpc. by destruct (_ =? _). }
  assert (Ht : forall c' l', takes s' c' l' <->
      takes s c' l' \/ (c' = c /\ l' = l /\ locked (locks s l) = 0)).
  { intros c' l'. unfold takes, s'. simpl. at_index c c'; [|naive_solver]. rewrite Hpc.
    destruct (Z.eqb_spec (locked (locks s l)) 0); naive_solver. }
  assert (Hlcpu : forall l', lcpu (locks s' l') = lcpu (locks s l')).
  { intros l'. unfold s'. simpl. by at_index l l'. }
  split.
  - intros c'. rewrite Hdep. apply (ok_ncli _ _ Hok).
  - intros c'. rewrite Hdep. apply (ok_off _ _ Hok).
  - intros c'. rewrite Hdep. apply (ok_on _ _ Hok).
  - apply (ok_held _ _ Hok).
  - intros c' l' H. simpl in H. at_index c c'; [|by apply (ok_pc _ _ Hok c')].
    apply (ok_pc _ _ Hok c). destruct (_ =? _); naive_solver.
  - intros c1 c2 l'. rewrite !Ht. intros H1 H2.
    assert (Hfree : locked (locks s l) = 0 -> forall c', ~ takes s c' l).
    { intros H0 c' Hc'. pose proof (ok_taken _ _ Hok c' l Hc'). lia. }
    destruct H1 as [H1|(? & ? & H1)], H2 as [H2|(? & ? & H2)]; subst; try done.
    + by eapply (ok_one _ _ Hok).
    + by destruct (Hfree H2 c1).
    + by destruct (Hfree H1 c2).
  - intros c' l' H. simpl in *. at_index c c'; [|by apply (ok_not_both _ _ Hok)].
    destruct (Z.eqb_spec (locked (locks s l)) 0) as [H0|]; [|done]. injection H as <-.
    intros Hin. pose proof (ok_taken _ _ Hok c l (or_introl Hin)). lia.
  - intros c' l'. rewrite Ht. intros H. simpl. at_index l l'; [done|].
    destruct H as [H|(_ & -> & _)]; [by eapply (ok_taken _ _ Hok)|done].
  - intros l' H. simpl in H. destruct (decide (l = l')) as [<-|Hne].
    + destruct (decide (locked (locks s l) = 0)) as [H0|H0].
      * exists c. apply Ht. naive_solver.
      * destruct (ok_locked _ _ Hok l H0) as [c' ?]. exists c'. apply Ht. by left.
    + rewrite fn_lookup_insert_ne in H by done.
      destruct (ok_locked _ _ Hok l' H) as [c' ?]. exists c'. apply Ht. by left.
  - intros c' l'. rewrite Hlcpu. apply (ok_cpu _ _ Hok).
Qed.

Lemma record_ok c l :
  pcs s c = Won l ->
  sys_ok flags {| cpus := cpus s; locks := <[l := acquire_record c (locks s l)]> (locks s);
                  pcs := <[c := Run]> (pcs s); held := <[c := l :: held s c]> (held s) |}.
Proof.
  intros Hpc. match goal with |- sys_ok _ ?x => set (s' := x) end.
  assert (Hdep : forall c', depth s' c' = depth s c').
  { intros c'. unfold depth, s'. simpl. at_index c c'; [|done]. rewrite Hpc. lia. }
  assert (Ht : forall c' l', takes s' c' l' <-> takes s c' l').
  { intros c' l'. unfold takes, s'. simpl. at_index c c'; [|done]. rewrite Hpc, elem_of_cons. naive_solver. }
  assert (Hlk : forall l', locked (locks s' l') = locked (locks s l')).
  { intros l'. unfold s'. simpl. by at_index l l'. }
  split.
  - intros c'. rewrite Hdep. apply (ok_ncli _ _ Hok).
  - intros c'. rewrite Hdep. apply (ok_off _ _ Hok).
  - intros c'. rewrite Hdep. apply (ok_on _ _ Hok).
  - intros c'. simpl. at_index c c'; [|apply (ok_held _ _ Hok)].
    destruct (ok_held _ _ Hok c) as [Hnd Hf]. split; constructor; try done.
    + by apply (ok_not_both _ _ Hok).
    + apply (ok_pc _ _ Hok c). by right.
  - intros c' l' H. simpl in H. at_index c c'; [by destruct H|by apply (ok_pc _ _ Hok c')].
  - intros c1 c2 l'. rewrite !Ht. apply (ok_one _ _ Hok).
  - intros c' l' H. simpl in *. at_index c c'; [done|by apply (ok_not_both _ _ Hok)].
  - intros c' l'. rewrite Ht, Hlk. apply (ok_taken _ _ Hok).
  - intros l'. rewrite Hlk. intros H. destruct (ok_locked _ _ Hok l' H) as [c' Hc']. exists c'. by apply Ht.
  - intros c' l'. simpl. destruct (decide (l = l')) as [<-|Hl].
    + rewrite fn_lookup_insert. simpl. at_index c c'; [rewrite elem_of_cons; naive_solver|].
      split; [congruence|]. intros H.
      assert (c = c') by (eapply (ok_one _ _ Hok); [right|left]; done). done.
    + rewrite fn_lookup_insert_ne by done. rewrite (ok_cpu _ _ Hok).
      at_index c c'; [rewrite elem_of_cons; naive_solver|done].
Qed.

Lemma release_ok c l h u lk :
  pcs s c = Run -> held s c ≡ₚ l :: h -> release c (cpus s c) (locks s l) = Ret (u, lk) ->
  sys_ok flags {| cpus := <[c := u]> (cpus s); locks := <[l := lk]> (locks s);
                  pcs := pcs s; held := <[c := h]> (held s) |}.
Proof.
  intros Hpc Hh Hu. pose proof (depth_range _ _ c Hok) as Hd. pose proof (ok_ncli _ _ Hok c) as Hn.
  assert (Hl : l ∈ held s c) by (rewrite Hh; by left). pose proof (depth_held _ _ _ Hl) as Hpos.
  destruct (ok_off _ _ Hok c Hpos) as [Hoff Hint].
  rewrite release_spec in Hu by (done || lia).
  rewrite (proj2 (is_mine_held _ _ c l Hok) Hl) in Hu. injection Hu as <- <-.
  match goal with |- sys_ok _ ?x => set (s' := x) end.
  assert (Hlen : depth s c = Z.of_nat (length h) + 1).
  { unfold depth. rewrite Hpc, Hh. simpl. lia. }
  assert (Hdep : forall c', depth s' c' = if decide (c = c') then depth s c - 1 else depth s c').
  { intros c'. case_decide as Hc; unfold depth at 1, s'; simpl; at_index c c'; try done.
    rewrite Hpc. lia. }
  destruct (ok_held _ _ Hok c) as [Hnd Hall]. rewrite Hh in Hnd, Hall.
  apply NoDup_cons in Hnd as [Hlh Hnd].
  assert (Ht : forall c' l', takes s' c' l' <-> takes s c' l' /\ l' <> l).
  { intros c' l'. unfold takes at 1, s'. simpl. at_index c c'.
    - rewrite Hpc, takes_run, Hh, elem_of_cons by done. naive_solver.
    - split; [|by intros [? _]]. intros H. split; [done|]. intros ->.
      assert (c' = c); [|done]. eapply (ok_one _ _ Hok); [done|by left]. }
  split.
  - intros c'. rewrite Hdep. simpl. case_decide; at_index c c'; [lia|done|done|apply (ok_ncli _ _ Hok)].
  - intros c'. rewrite Hdep. simpl. case_decide; at_index c c'; [|done|done|apply (ok_off _ _ Hok)].
    intros Hgt. destruct (Z.eqb_spec (ncli (cpus s c) - 1) 0); [lia|done].
  - intros c'. rewrite Hdep. simpl. case_decide; at_index c c'; [|done|done|apply (ok_on _ _ Hok)].
    intros Hgt. destruct (Z.eqb_spec (ncli (cpus s c) - 1) 0); [done|lia].
  - intros c'. simpl. at_index c c'; [|apply (ok_held _ _ Hok)]. split; [done|]. by apply Forall_cons in Hall as [_ ?].
  - apply (ok_pc _ _ Hok).
  - intros c1 c2 l'. rewrite !Ht. intros [H1 _] [H2 _]. by eapply (ok_one _ _ Hok).
  - intros c' l' H. simpl in *. at_index c c'; [congruence|by apply (ok_not_both _ _ Hok)].
  - intros c' l'. rewrite Ht. intros [H Hne]. simpl. rewrite fn_lookup_insert_ne by done. by apply (ok_taken _ _ Hok c').
  - intros l' H. simpl in H. at_index l l'; [done|].
    destruct (ok_locked _ _ Hok l' H) as [c' Hc']. exists c'. apply Ht. done.
  - intros c' l'. simpl. destruct (decide (l = l')) as [<-|Hne].
    + rewrite fn_lookup_insert. simpl. split; [done|]. at_index c c'; [done|]. intros H.
      assert (c = c'); [|done]. eapply (ok_one _ _ Hok); by left.
    + rewrite fn_lookup_insert_ne, (ok_cpu _ _ Hok) by done.
      at_index c c'; [rewrite Hh, elem_of_cons; naive_solver|done].
Qed.
End steps.

Lemma step_ok flags s s' : sys_ok flags s -> step s s' -> sys_ok flags s'.
Proof.
  intros Hok Hs. destruct Hs; [by eapply enter_ok|by eapply xchg_ok|by eapply record_ok|by eapply release_ok].
Qed.

Lemma initial_ok flags : sys_ok flags (initial flags).
Proof.
  split; unfold takes, depth; simpl; try done.
  - intros c. split; [constructor|done].
  - naive_solver.
  - intros ? ? ? [H|H]; [by apply elem_of_nil in H|done].
  - intros ? ? [H|H]; [by apply elem_of_nil in H|done].
  - intros c l. split; [done|]. intros H. by apply elem_of_nil in H.
Qed.

(** ** The user-level lock *)

(** As long as the attempts since the last release do not wrap the flag, it
    counts them. *)
Record counted (u : ustate) : Prop := {
  cnt_flag : flag u = s32 (tries u);
  cnt_range : 0 <= tries u;
  cnt_free : inside u = [] <-> tries u = 0;
  cnt_one : (length (inside u) <= 1)%nat
}.

Lemma s32_zero z : 0 <= z < 2 ^ 32 -> s32 z = 0 <-> z = 0.
Proof.
  intros Hz. split; [|by intros ->]. unfold s32. intros H.
  destruct (Z_lt_le_dec z (2 ^ 31)).
  - rewrite Z.mod_small in H; lia.
  - replace (z + 2 ^ 31) with (z - 2 ^ 31 + 1 * 2 ^ 32) in H by lia.
    rewrite Z_mod_plus_full, Z.mod_small in H; lia.
Qed.

Lemma s32_succ z : s32 (s32 z + 1) = s32 (z + 1).
Proof.
  unfold s32. f_equal. replace ((z + 2 ^ 31) mod 2 ^ 32 - 2 ^ 31 + 1 + 2 ^ 31)
    with ((z + 2 ^ 31) mod 2 ^ 32 + 1) by lia.
  rewrite Zplus_mod_idemp_l. f_equal. lia.
Qed.

Lemma counted_initial : counted uinitial.
Proof. split; simpl; [done|lia|split; done|lia]. Qed.

Lemma counted_step u v : tries v < 2 ^ 32 -> counted u -> ustep u v -> counted v.
Proof.
  intros Hv [Hf Hr Hfree Hone] Hstep. destruct Hstep as [u t flag' b Ht Htry|u t rest Hin]; simpl in *.
  - unfold lock_acquire_try, fetch_and_add in Htry. injection Htry as <- <-.
    destruct (Z.eqb_spec (flag u) 0) as [H0|H0]; rewrite Hf in H0.
    + rewrite s32_zero in H0 by lia. rewrite (proj2 Hfree H0) in *.
      split; simpl; [by rewrite Hf, s32_succ|lia|split; [done|intros; lia]|lia].
    + split; simpl; [by rewrite Hf, s32_succ|lia| |done].
      rewrite Hfree. split; [intros H; rewrite H in H0; by destruct H0|intros; lia].
  - pose proof (Permutation_length Hin) as Hlen. simpl in Hlen.
    destruct rest; [|simpl in Hlen; lia]. split; simpl; try done; lia.
Qed.

(** A thread that keeps trying while another is inside only counts up. *)
Lemma spin_many t0 t1 (k : nat) :
  t1 <> t0 -> Z.of_nat k <= 2 ^ 32 - 1 ->
  rtc ustep {| flag := s32 1; inside := [t0]; tries := 1 |}
            {| flag := s32 (1 + Z.of_nat k); inside := [t0]; tries := 1 + Z.of_nat k |}.
Proof.
  intros Ht. induction k as [|k IH]; intros Hk; [done|].
  eapply rtc_r; [apply IH; lia|].
  set (u := {| flag := s32 (1 + Z.of_nat k); inside := [t0]; tries := 1 + Z.of_nat k |}).
  replace {| flag := s32 (1 + Z.of_nat (S k)); inside := [t0]; tries := 1 + Z.of_nat (S k) |}
    with {| flag := s32 (flag u + 1); inside := if flag u =? 0 then t1 :: inside u else inside u;
            tries := tries u + 1 |}.
  - apply us_try; [by apply not_elem_of_cons, conj, not_elem_of_nil|done].
  - unfold u. cbn [flag inside tries].
    destruct (Z.eqb_spec (s32 (1 + Z.of_nat k)) 0) as [H|_].
    + rewrite s32_zero in H by lia. lia.
    + rewrite s32_succ. repeat (f_equal; try lia).
Qed.

(** ** Properties *)

(** C24.  Spin locks, in every interleaving of [acquire] and [release] on any
    number of CPUs: a lock is held by at most one CPU; a CPU holding one runs
    with interrupts off, and one that holds none has its interrupts as they
    were at the start; [acquire] panics exactly on a lock the CPU already
    holds, and [release] exactly on one it does not. *)
Theorem spinlock_mutex flags s (Hreach : rtc step (initial flags) s) :
  (forall c c' l, l ∈ held s c -> l ∈ held s c' -> c = c') /\
  (forall c, held s c <> [] -> FL_IF (cpus s c) = false) /\
  (forall c, pcs s c = Run -> held s c = [] -> FL_IF (cpus s c) = flags c) /\
  (forall c l, acquire_enter c (cpus s c) (locks s l) = Panic "acquire" <-> l ∈ held s c) /\
  (forall c l, l ∈ held s c <-> exists u lk, release c (cpus s c) (locks s l) = Ret (u, lk)) /\
  (forall c l, l ∈ held s c \/ release c (cpus s c) (locks s l) = Panic "release").
Proof.
  assert (Hok : sys_ok flags s).
  { eapply rtc_invariant; [by apply step_ok|apply initial_ok|done]. }
  assert (Hrel : forall c l, release c (cpus s c) (locks s l) = Panic "release" \/ l ∈ held s c).
  { intros c l. destruct (is_mine c (locks s l)) eqn:Hm; [right; by eapply is_mine_held|left].
    unfold release. pose proof (depth_range _ _ c Hok). pose proof (ok_ncli _ _ Hok c).
    rewrite holding_spec; [by simpl; rewrite Hm|lia|]. intros. apply (ok_off _ _ Hok). lia. }
  split_and!.
  - intros. eapply (ok_one _ _ Hok); by left.
  - intros c Hh. destruct (held s c) as [|l h] eqn:E; [done|].
    apply (ok_off _ _ Hok), depth_held with l. rewrite E. by left.
  - intros c Hpc Hh. apply (ok_on _ _ Hok). unfold depth. by rewrite Hpc, Hh.
  - intros c l. pose proof (depth_range _ _ c Hok). pose proof (ok_ncli _ _ Hok c).
    rewrite acquire_enter_spec by lia. rewrite <- (is_mine_held _ _ _ _ Hok). by destruct (is_mine _ _).
  - intros c l. split.
    + intros Hl. pose proof (depth_held _ _ _ Hl). pose proof (depth_range _ _ c Hok).
      pose proof (ok_ncli _ _ Hok c). destruct (ok_off _ _ Hok c) as [Hoff _]; [done|].
      rewrite release_spec by (done || lia). rewrite (proj2 (is_mine_held _ _ _ _ Hok) Hl). eauto.
    + intros (u & lk & H). by destruct (Hrel c l) as [E|]; [rewrite E in H|].
  - intros c l. by destruct (Hrel c l); [right|left].
Qed.

(** The user-level lock admits one thread at a time as long as fewer than
    2^32 attempts are made between two releases. *)
Theorem lock_acquire_mutex u
    (Hreach : rtc (fun a b => ustep a b /\ tries b < 2 ^ 32) uinitial u) :
  (length (inside u) <= 1)%nat /\
  (inside u = [] -> forall t, exists flag', lock_acquire_try (flag u) = (flag', true) /\
     ustep u {| flag := flag'; inside := [t]; tries := tries u + 1 |}).
Proof.
  assert (Hc : counted u).
  { eapply (rtc_invariant _ counted); [|apply counted_initial|exact Hreach].
    intros x y Hx [Hs Ht]. by eapply counted_step. }
  destruct Hc as [Hf Hr Hfree Hone]. split; [done|]. intros Hin t.
  assert (H0 : flag u = 0) by (rewrite Hf; by rewrite (proj1 Hfree Hin)).
  exists (s32 (flag u + 1)). unfold lock_acquire_try, fetch_and_add.
  assert (Hb : (flag u =? 0) = true) by (by rewrite H0). rewrite Hb. split; [done|].
  replace [t] with (t :: inside u) by (by rewrite Hin). apply (us_try u t _ true).
  - rewrite Hin. apply not_elem_of_nil.
  - unfold lock_acquire_try, fetch_and_add. by rewrite Hb.
Qed.

(** Without that bound it does not: a thread spinning 2^32 - 1 times while
    another is inside wraps the flag to zero and enters as well. *)
Theorem lock_acquire_wraps :
  exists u, rtc ustep uinitial u /\ inside u = [1; 0]%nat.
Proof.
  eexists. split; [|shelve].
  eapply rtc_l. { apply (us_try uinitial 0%nat (s32 1) true); [apply not_elem_of_nil|done]. }
  eapply rtc_r.
  { apply (spin_many 0 1 (Z.to_nat (2 ^ 32 - 1)) ltac:(done)). rewrite Z2Nat.id; lia. }
  apply (us_try _ 1%nat (s32 (s32 (2 ^ 32) + 1)) true).
  - simpl. rewrite elem_of_cons, elem_of_nil. lia.
  - cbn [flag]. rewrite Z2Nat.id by lia. reflexivity.
  Unshelve. reflexivity.
Qed.

Lemma spinlock_mutex_witness :
  exists s, rtc step (initial (fun _ => true)) s /\
    forall c c' l, l ∈ held s c -> l ∈ held s c' -> c = c'.
Proof.
  eexists. split.
  - eapply rtc_l; [by apply (st_enter _ 0 7); [..|vm_compute; reflexivity]|].
    eapply rtc_l; [by eapply (st_xchg _ 0 7)|].
    eapply rtc_l; [by eapply (st_record _ 0 7)|]. apply rtc_refl.
  - apply (spinlock_mutex (fun _ => true)).
    eapply rtc_l; [by apply (st_enter _ 0 7); [..|vm_compute; reflexivity]|].
    eapply rtc_l; [by eapply (st_xchg _ 0 7)|].
    eapply rtc_l; [by eapply (st_record _ 0 7)|]. apply rtc_refl.
Defined.

Lemma lock_acquire_mutex_witness :
  exists u, inside u = [3%nat] /\ (length (inside u) <= 1)%nat.
Proof.
  set (u := {| flag := 1; inside := [3%nat]; tries := 1 |}).
  exists u. split; [done|]. apply (lock_acquire_mutex u).
  apply rtc_once. split; [|simpl; lia].
  apply (us_try uinitial 3%nat 1 true); [apply not_elem_of_nil|reflexivity].
Defined.

End Spinlock.
