(* ===== verification/Vm.v ===== *)
(** * Page tables

    [vm.c] of p3b over the memory and free list of [Kalloc]: page directories
    and tables are words of that memory, reached through [P2V].  A null
    pointer is 0.  [data] is the linker's symbol, an argument of the section. *)

From S2P Require Import Prelude DfsImage Kalloc.
Import Kalloc.
Local Open Scope Z_scope.
Local Open Scope xv6_scope.

Module Vm.

Definition PTE_P : Z := 1.
Definition PTE_W : Z := 2.
Definition PTE_U : Z := 4.
Definition NPDENTRIES : Z := 1024.
Definition EXTMEM : Z := 1048576.
Definition DEVSPACE : Z := 4261412864.
Definition KERNLINK : Z := KERNBASE + EXTMEM.

Definition PDX (va : Z) : Z := Z.land (Z.shiftr va 22) 1023.
Definition PTX (va : Z) : Z := Z.land (Z.shiftr va 12) 1023.
Definition PGADDR (d t o : Z) : Z := u32 (Z.lor (Z.lor (Z.shiftl d 22) (Z.shiftl t 12)) o).
Definition PTE_ADDR (pte : Z) : Z := Z.land pte (Z.lnot 4095).
Definition PTE_FLAGS (pte : Z) : Z := Z.land pte 4095.
Definition P2V (a : Z) : Z := u32 (a + KERNBASE).

(** Memory accesses of the kernel. *)
Definition ld (k : kmem) (a : Z) : Z := u32 (word32 (mem k) a).
Definition with_mem (m : bytes) (k : kmem) : kmem :=
  {| mem := m; use_lock := use_lock k; freelist := freelist k |}.
Definition st (k : kmem) (a v : Z) : kmem := with_mem (put32 (mem k) a v) k.
Definition clear (k : kmem) (page : Z) : kmem := with_mem (memset (mem k) page 0 PGSIZE) k.

(** [memmove] between two pages that do not overlap. *)
Definition memmove (k : kmem) (dst src n : Z) : kmem :=
  with_mem (fun x => if (dst <=? x) && (x <? dst + n) then mem k (src + (x - dst)) else mem k x) k.

Definition present (pte : Z) : bool := negb (Z.land pte PTE_P =? 0).

(** The page table a present directory entry points to. *)
Definition pgtab_of (pde : Z) : Z := P2V (PTE_ADDR pde).

Definition walkpgdir (k : kmem) (pgdir va : Z) (alloc : bool) : kmem * Z :=
  let pde := pgdir + 4 * PDX va in
  if present (ld k pde) then (k, pgtab_of (ld k pde) + 4 * PTX va)
  else if negb alloc then (k, 0)
  else
    let (k, pgtab) := kalloc k in
    if pgtab =? 0 then (k, 0)
    else
      let k := clear k pgtab in
      let k := st k pde (Z.lor (V2P pgtab) (Z.lor PTE_P (Z.lor PTE_W PTE_U))) in
      (k, pgtab + 4 * PTX va).

(** The loop of [mappages] from [a]; it ends when [a] reaches [last], both
    being page-aligned. *)
Fixpoint mappages_from (fuel : nat) (k : kmem) (pgdir a last pa perm : Z) : outcome (kmem * Z) :=
  match fuel with
  | O => Fault
  | S fuel =>
      let (k, pte) := walkpgdir k pgdir a true in
      if pte =? 0 then Ret (k, -1)
      else if present (ld k pte) then Panic "remap"
      else
        let k := st k pte (Z.lor pa (Z.lor perm PTE_P)) in
        if a =? last then Ret (k, 0)
        else mappages_from fuel k pgdir (u32 (a + PGSIZE)) last (u32 (pa + PGSIZE)) perm
  end.

Definition mappages (k : kmem) (pgdir va size pa perm : Z) : outcome (kmem * Z) :=
  let a := PGROUNDDOWN va in
  let last := PGROUNDDOWN (u32 (va + size - 1)) in
  mappages_from (S (Z.to_nat (u32 (last - a) / PGSIZE))) k pgdir a last pa perm.

Section vm.
Context (kend data : Z).

(** The loop of [deallocuvm]. *)
Fixpoint deallocuvm_from (fuel : nat) (k : kmem) (pgdir a oldsz : Z) : outcome kmem :=
  match fuel with
  | O => Fault
  | S fuel =>
      if a <? oldsz then
        let (k, pte) := walkpgdir k pgdir a false in
        if pte =? 0 then
          deallocuvm_from fuel k pgdir (u32 (u32 (PGADDR (PDX a + 1) 0 0 - PGSIZE) + PGSIZE)) oldsz
        else if present (ld k pte) then
          let pa := PTE_ADDR (ld k pte) in
          if pa =? 0 then Panic "kfree"
          else
            let* k := kfree kend k (P2V pa) in
            deallocuvm_from fuel (st k pte 0) pgdir (u32 (a + PGSIZE)) oldsz
        else deallocuvm_from fuel k pgdir (u32 (a + PGSIZE)) oldsz
      else Ret k
  end.

Definition dealloc_fuel (newsz oldsz : Z) : nat := S (Z.to_nat ((oldsz - newsz) / PGSIZE + 1)).

Definition deallocuvm (k : kmem) (pgdir oldsz newsz : Z) : outcome (kmem * Z) :=
  if oldsz <=? newsz then Ret (k, oldsz)
  else
    let a := PGROUNDUP newsz in
    let* k := deallocuvm_from (dealloc_fuel newsz oldsz) k pgdir a oldsz in
    Ret (k, newsz).

(** [for(; a < newsz; a += PGSIZE)] of [allocuvm]: [true] when it ran to its
    end, [false] when memory ran out and the new pages were taken back. *)
Fixpoint allocuvm_from (fuel : nat) (k : kmem) (pgdir a oldsz newsz : Z) : outcome (kmem * bool) :=
  match fuel with
  | O => Fault
  | S fuel =>
      if a <? newsz then
        let (k, page) := kalloc k in
        if page =? 0 then
          let* (k, _) := deallocuvm k pgdir newsz oldsz in Ret (k, false)
        else
          let k := clear k page in
          let* (k, r) := mappages k pgdir a PGSIZE (V2P page) (Z.lor PTE_W PTE_U) in
          if r <? 0 then
            let* (k, _) := deallocuvm k pgdir newsz oldsz in
            let* k := kfree kend k page in
            Ret (k, false)
          else allocuvm_from fuel k pgdir (u32 (a + PGSIZE)) oldsz newsz
      else Ret (k, true)
  end.

Definition alloc_fuel (a newsz : Z) : nat := S (Z.to_nat ((newsz - a) / PGSIZE + 1)).

Definition allocuvm (k : kmem) (pgdir oldsz newsz : Z) : outcome (kmem * Z) :=
  if KERNBASE <=? newsz then Ret (k, 0)
  else if newsz <? oldsz then Ret (k, oldsz)
  else
    let a := PGROUNDUP oldsz in
    let* (k, ok) := allocuvm_from (alloc_fuel a newsz) k pgdir a oldsz newsz in
    Ret (k, if ok : bool then newsz else 0).

(** [for(i = 0; i < NPDENTRIES; i++)] of [freevm]. *)
Fixpoint free_tables (k : kmem) (pgdir : Z) (ixs : list Z) : outcome kmem :=
  match ixs with
  | [] => Ret k
  | i :: ixs =>
      let pde := ld k (pgdir + 4 * i) in
      if present pde then
        let* k := kfree kend k (pgtab_of pde) in free_tables k pgdir ixs
      else free_tables k pgdir ixs
  end.

Definition freevm (k : kmem) (pgdir : Z) : outcome kmem :=
  if pgdir =? 0 then Panic "freevm: no pgdir"
  else
    let* (k, _) := deallocuvm k pgdir KERNBASE 0 in
    let* k := free_tables k pgdir (seqZ 0 NPDENTRIES) in
    kfree kend k pgdir.

Record kmap_t := { virt : Z; phys_start : Z; phys_end : Z; kperm : Z }.

Definition kmap : list kmap_t := [
  {| virt := KERNBASE; phys_start := 0; phys_end := EXTMEM; kperm := PTE_W |};
  {| virt := KERNLINK; phys_start := V2P KERNLINK; phys_end := V2P data; kperm := 0 |};
  {| virt := data; phys_start := V2P data; phys_end := PHYSTOP; kperm := PTE_W |};
  {| virt := DEVSPACE; phys_start := DEVSPACE; phys_end := 0; kperm := PTE_W |}
].

Fixpoint map_kernel (k : kmem) (pgdir : Z) (ms : list kmap_t) : outcome (kmem * Z) :=
  match ms with
  | [] => Ret (k, pgdir)
  | m :: ms =>
      let* (k, r) := mappages k pgdir (virt m) (u32 (phys_end m - phys_start m)) (phys_start m) (kperm m) in
      if r <? 0 then let* k := freevm k pgdir in Ret (k, 0)
      else map_kernel k pgdir ms
  end.

Definition setupkvm (k : kmem) : outcome (kmem * Z) :=
  let (k, pgdir) := kalloc k in
  if pgdir =? 0 then Ret (k, 0)
  else
    let k := clear k pgdir in
    if DEVSPACE <? P2V PHYSTOP then Panic "PHYSTOP too high"
    else map_kernel k pgdir kmap.

(** [init] is the address of the code and [sz] its size. *)
Definition inituvm (k : kmem) (pgdir init sz : Z) : outcome kmem :=
  if PGSIZE <=? sz then Panic "inituvm: more than a page"
  else
    let (k, page) := kalloc k in
    if page =? 0 then Fault
    else
      let k := clear k page in
      let* (k, _) := mappages k pgdir 0 PGSIZE (V2P page) (Z.lor PTE_W PTE_U) in
      Ret (memmove k page init sz).

Definition clearpteu (k : kmem) (pgdir uva : Z) : outcome kmem :=
  let (k, pte) := walkpgdir k pgdir uva false in
  if pte =? 0 then Panic "clearpteu"
  else Ret (st k pte (Z.land (ld k pte) (Z.lnot PTE_U))).

(** The loop of [copyuvm] into the new directory [d]; [goto bad] frees it. *)
Fixpoint copyuvm_from (fuel : nat) (k : kmem) (pgdir d i sz : Z) : outcome (kmem * Z) :=
  match fuel with
  | O => Fault
  | S fuel =>
      if i <? sz then
        let (k, pte) := walkpgdir k pgdir i false in
        if pte =? 0 then Panic "copyuvm: pte should exist"
        else if negb (present (ld k pte)) then Panic "copyuvm: page not present"
        else
          let pa := PTE_ADDR (ld k pte) in
          let flags := PTE_FLAGS (ld k pte) in
          let (k, page) := kalloc k in
          if page =? 0 then let* k := freevm k d in Ret (k, 0)
          else
            let k := memmove k page (P2V pa) PGSIZE in
            let* (k, r) := mappages k d i PGSIZE (V2P page) flags in
            if r <? 0 then
              let* k := kfree kend k page in
              let* k := freevm k d in
              Ret (k, 0)
            else copyuvm_from fuel k pgdir d (u32 (i + PGSIZE)) sz
      else Ret (k, d)
  end.

Definition copyuvm (k : kmem) (pgdir sz : Z) : outcome (kmem * Z) :=
  let* (k, d) := setupkvm k in
  if d =? 0 then Ret (k, 0)
  else copyuvm_from (alloc_fuel 0 sz) k pgdir d 0 sz.

(** [uva2ka] reads through the pointer [walkpgdir] returns without testing it. *)
Definition uva2ka (k : kmem) (pgdir uva : Z) : outcome Z :=
  let (k, pte) := walkpgdir k pgdir uva false in
  if pte =? 0 then Fault
  else if Z.land (ld k pte) PTE_P =? 0 then Ret 0
  else if Z.land (ld k pte) PTE_U =? 0 then Ret 0
  else Ret (P2V (PTE_ADDR (ld k pte))).

(** [copyout], the bytes at [p] being given as a list; 0 or -1. *)
Fixpoint copyout (fuel : nat) (k : kmem) (pgdir va : Z) (p : list Z) : outcome (kmem * Z) :=
  match fuel with
  | O => Fault
  | S fuel =>
      match p with
      | [] => Ret (k, 0)
      | _ =>
          let va0 := PGROUNDDOWN va in
          let* pa0 := uva2ka k pgdir va0 in
          if pa0 =? 0 then Ret (k, -1)
          else
            let n := Z.min (PGSIZE - (va - va0)) (Z.of_nat (length p)) in
            let* m := of_option (memcpy_to (2 ^ 32) (mem k) (pa0 + (va - va0)) p (Z.to_nat n)) in
            copyout fuel (with_mem m k) pgdir (u32 (va0 + PGSIZE)) (drop (Z.to_nat n) p)
      end
  end.

(** Loads a segment through [readi], which copies [n] bytes of the file at
    [off] to a kernel address and returns how many it copied; [f] is the state
    of the file system. *)
Fixpoint loaduvm_from {F} (readi : F -> bytes -> Z -> Z -> Z -> outcome (F * bytes * Z)) (fuel : nat)
    (f : F) (k : kmem) (pgdir addr offset sz i : Z) : outcome (F * kmem * Z) :=
  match fuel with
  | O => Fault
  | S fuel =>
      if i <? sz then
        let (k, pte) := walkpgdir k pgdir (u32 (addr + i)) false in
        if pte =? 0 then Panic "loaduvm: address should exist"
        else
          let pa := PTE_ADDR (ld k pte) in
          let n := if sz - i <? PGSIZE then sz - i else PGSIZE in
          let* (f, m, r) := readi f (mem k) (P2V pa) (u32 (offset + i)) n in
          let k := with_mem m k in
          if negb (r =? n) then Ret (f, k, -1)
          else loaduvm_from readi fuel f k pgdir addr offset sz (u32 (i + PGSIZE))
      else Ret (f, k, 0)
  end.

Definition loaduvm {F} (readi : F -> bytes -> Z -> Z -> Z -> outcome (F * bytes * Z))
    (f : F) (k : kmem) (pgdir addr offset sz : Z) : outcome (F * kmem * Z) :=
  if negb (addr mod PGSIZE =? 0) then Panic "loaduvm: addr must be page aligned"
  else loaduvm_from readi (alloc_fuel 0 sz) f k pgdir addr offset sz 0.
End vm.

End Vm.
