(* ===== verification/VmSpec.v ===== *)
(** * Page tables: the ownership invariant and the lemmas

    Which page of memory plays which part in an address space ([place]), and
    what each primitive of [Vm] does to it. *)

From S2P Require Import Prelude DfsImage Kalloc Vm.
Import Kalloc Vm.
Local Open Scope Z_scope.
Local Open Scope xv6_scope.

Module VmSpec.

(** ** Words of a page *)

(** The address of a word of the page at [p]. *)
Definition word_in (p b : Z) : Prop := p <= b /\ b + 4 <= p + PGSIZE /\ b mod 4 = 0.

Lemma word_at p i : p mod PGSIZE = 0 -> 0 <= i < 1024 -> word_in p (p + 4 * i).
Proof.
  unfold word_in, PGSIZE. intros Hp Hi. split_and!; [lia..|].
  pose proof (Z.div_mod p 4096 ltac:(lia)). replace (p + 4 * i) with ((1024 * (p / 4096) + i) * 4) by lia.
  apply Z.mod_mul. lia.
Qed.

Lemma ld_ext k k' b : (forall x, b <= x < b + 4 -> mem k' x = mem k x) -> ld k' b = ld k b.
Proof. intros H. unfold ld. f_equal. apply word32_ext. intros i Hi. apply H. lia. Qed.

Lemma ld_st_eq k a v : ld (st k a v) a = u32 v.
Proof. unfold ld, st. simpl. rewrite word32_put32_eq. by rewrite u32_s32. Qed.

Lemma ld_st_ne k a b v : a mod 4 = 0 -> b mod 4 = 0 -> a <> b -> ld (st k a v) b = ld k b.
Proof.
  intros Ha Hb Hne. unfold ld, st. simpl. rewrite word32_put32_ne; [done|].
  pose proof (Z.div_mod a 4 ltac:(lia)). pose proof (Z.div_mod b 4 ltac:(lia)).
  assert (a / 4 <> b / 4) by congruence. lia.
Qed.

Lemma st_out k a v x : x < a \/ a + 4 <= x -> mem (st k a v) x = mem k x.
Proof. intros. unfold st. simpl. by apply put32_out. Qed.

Lemma clear_in k p x : p <= x < p + PGSIZE -> mem (clear k p) x = 0.
Proof.
  intros H. unfold clear, memset. simpl. destruct (Z.leb_spec p x); [|lia].
  destruct (Z.ltb_spec x (p + PGSIZE)); [done|lia].
Qed.

Lemma clear_out k p x : x < p \/ p + PGSIZE <= x -> mem (clear k p) x = mem k x.
Proof.
  intros H. unfold clear, memset. simpl. destruct (Z.leb_spec p x); destruct (Z.ltb_spec x (p + PGSIZE)); simpl; done || lia.
Qed.

Lemma ld_zero k b : (forall x, b <= x < b + 4 -> mem k x = 0) -> ld k b = 0.
Proof. intros H. unfold ld, word32. rewrite !H by lia. done. Qed.

(** ** Page-table entries *)

Lemma land_lnot_4095 a : Z.land a (Z.lnot 4095) = a / 4096 * 4096.
Proof.
  change 4095 with (Z.ones 12). rewrite <- Z.ldiff_land, Z.ldiff_ones_r by lia.
  by rewrite Z.shiftr_div_pow2, Z.shiftl_mul_pow2 by lia.
Qed.

Lemma lor_page a f : a mod 4096 = 0 -> 0 <= f < 4096 -> Z.lor a f = a + f.
Proof.
  intros Ha Hf. rewrite <- Z.lxor_lor; [symmetry; apply Z.add_nocarry_lxor|];
    (apply Z.bits_inj'; intros i Hi; rewrite Z.land_spec, Z.bits_0;
     destruct (Z_lt_le_dec i 12);
     [rewrite <- (Z.mod_pow2_bits_low a 12) by lia; change (2 ^ 12) with 4096; rewrite Ha, Z.bits_0; done
     |rewrite (Z.bits_above_log2 f i), andb_false_r; [done|lia|];
      destruct (decide (f = 0)) as [->|]; [simpl; lia|apply Z.log2_lt_pow2; [lia|];
      apply Z.lt_le_trans with (2 ^ 12); [simpl; lia|by apply Z.pow_le_mono_r]]]).
Qed.

(** The entry the kernel writes for the physical page of [p]. *)
Definition entry (p perm : Z) : Z := Z.lor (V2P p) (Z.lor perm PTE_P).

Lemma perm_range perm : 0 <= perm < 4096 -> 0 <= Z.lor perm PTE_P < 4096.
Proof.
  intros H. split; [apply Z.lor_nonneg; unfold PTE_P; lia|].
  change 4096 with (2 ^ 12). destruct (decide (Z.lor perm PTE_P = 0)) as [->|Hn]; [lia|].
  pose proof (proj2 (Z.lor_nonneg perm PTE_P) ltac:(unfold PTE_P; lia)).
  apply Z.log2_lt_pow2; [lia|]. rewrite Z.log2_lor by (unfold PTE_P; lia).
  unfold PTE_P. change (Z.log2 1) with 0. rewrite Z.max_l by apply Z.log2_nonneg.
  destruct (decide (perm = 0)) as [->|]; [simpl; lia|]. apply Z.log2_lt_pow2; lia.
Qed.

Lemma V2P_page kend p : page_ok kend p -> V2P p = p - KERNBASE /\ (V2P p) mod 4096 = 0 /\ 0 <= V2P p < PHYSTOP.
Proof.
  intros (Hal & Hk & Hr). unfold V2P. rewrite u32_small by (unfold is_u32, KERNBASE, PHYSTOP in *; lia).
  split; [done|]. split; [|lia]. unfold PGSIZE, KERNBASE in *.
  replace (p - 2147483648) with (p + (-524288) * 4096) by lia. by rewrite Z_mod_plus_full.
Qed.

Lemma entry_spec kend p perm :
  page_ok kend p -> 0 <= perm < 4096 ->
  is_u32 (entry p perm) /\ present (entry p perm) = true /\ pgtab_of (entry p perm) = p /\
  PTE_FLAGS (entry p perm) = Z.lor perm PTE_P.
Proof.
  intros Hp Hperm. destruct (V2P_page _ _ Hp) as (Hv & Hal & Hr).
  pose proof (perm_range _ Hperm) as Hf. unfold entry. rewrite lor_page by done.
  assert (Hdiv : (V2P p + Z.lor perm PTE_P) / 4096 * 4096 = V2P p).
  { pose proof (Z.div_mod (V2P p) 4096 ltac:(lia)).
    replace (V2P p + Z.lor perm PTE_P) with (Z.lor perm PTE_P + V2P p / 4096 * 4096) by lia.
    rewrite Z.div_add, (Z.div_small (Z.lor perm PTE_P)) by lia. lia. }
  split_and!.
  - unfold is_u32, PHYSTOP in *. lia.
  - unfold present. rewrite <- lor_page by done. rewrite Z.land_lor_distr_l, (Z.land_lor_distr_l perm).
    change (Z.land PTE_P PTE_P) with 1. destruct (Z.eqb_spec (Z.lor (Z.land (V2P p) PTE_P) (Z.lor (Z.land perm PTE_P) 1)) 0) as [E|]; [|done].
    apply Z.lor_eq_0_iff in E as [_ E]. by apply Z.lor_eq_0_iff in E as [_ ?].
  - unfold pgtab_of, PTE_ADDR, P2V. rewrite land_lnot_4095, Hdiv, Hv.
    rewrite Z.sub_add. apply u32_small. by apply page_ok_range in Hp as (_ & _ & ?).
  - unfold PTE_FLAGS. change 4095 with (Z.ones 12). rewrite Z.land_ones by lia. change (2 ^ 12) with 4096.
    rewrite Zplus_mod, Hal. rewrite Z.add_0_l, Z.mod_mod, Z.mod_small by lia. done.
Qed.

Lemma PDX_spec va : 0 <= va < 2 ^ 32 -> PDX va = va / 4096 / 1024 /\ 0 <= PDX va < 1024.
Proof.
  intros H. unfold PDX. change 1023 with (Z.ones 10). rewrite Z.land_ones, Z.shiftr_div_pow2 by lia.
  rewrite Z.div_div by lia. change (4096 * 1024) with (2 ^ 22). change (2 ^ 10) with 1024.
  assert (0 <= va / 2 ^ 22 < 1024) by (split; [apply Z.div_pos; lia|apply Z.div_lt_upper_bound; lia]).
  by rewrite Z.mod_small.
Qed.

Lemma PTX_spec va : 0 <= va < 2 ^ 32 -> PTX va = (va / 4096) mod 1024 /\ 0 <= PTX va < 1024.
Proof.
  intros H. unfold PTX. change 1023 with (Z.ones 10). rewrite Z.land_ones, Z.shiftr_div_pow2 by lia.
  change (2 ^ 12) with 4096. change (2 ^ 10) with 1024.
  split; [done|]. apply Z.mod_pos_bound. lia.
Qed.

(** ** Address spaces *)

Definition pde_at (k : kmem) (pgdir i : Z) : Z := ld k (pgdir + 4 * i).

(** The entry the hardware finds for page number [n], 0 when the directory
    has no table for it. *)
Definition pte (k : kmem) (pgdir n : Z) : Z :=
  let pde := pde_at k pgdir (n / 1024) in
  if present pde then ld k (pgtab_of pde + 4 * (n mod 1024)) else 0.

(** The parts a page can play: the directory, the table for a range of 1024
    pages, the memory of a user page. *)
Inductive slot := SDir | STab (i : Z) | SFrame (n : Z).
#[export] Instance slot_dec : EqDecision slot.
Proof. solve_decision. Defined.

Definition UPAGES : Z := KERNBASE / PGSIZE.

Definition valid (s : slot) : Prop :=
  match s with SDir => True | STab i => 0 <= i < 1024 | SFrame n => 0 <= n < UPAGES end.

Definition is_frame (s : slot) : bool := match s with SFrame _ => true | _ => false end.

Definition place (k : kmem) (pgdir : Z) (s : slot) : option Z :=
  match s with
  | SDir => Some pgdir
  | STab i => if present (pde_at k pgdir i) then Some (pgtab_of (pde_at k pgdir i)) else None
  | SFrame n => if present (pte k pgdir n) then Some (pgtab_of (pte k pgdir n)) else None
  end.

Section aspace.
Context (kend : Z) (Hkend : KERNBASE < kend).

(** [pgdir] is an address space: no page plays two parts, or is free. *)
Record aspace (k : kmem) (free : list Z) (pgdir : Z) : Prop := {
  as_free : free_pages kend k free;
  as_page s p : valid s -> place k pgdir s = Some p -> page_ok kend p /\ p ∉ free;
  as_inj s s' p : valid s -> valid s' -> place k pgdir s = Some p -> place k pgdir s' = Some p -> s = s'
}.

(** [p] is a page that is neither free nor part of the address space. *)
Definition spare (k : kmem) (free : list Z) (pgdir p : Z) : Prop :=
  page_ok kend p /\ p ∉ free /\ forall s, valid s -> place k pgdir s <> Some p.

(** [k'] differs from [k] at most in the pages [ps]. *)
Definition only (k k' : kmem) (ps : Z -> Prop) : Prop :=
  forall x, (forall p, ps p -> ~ p <= x < p + PGSIZE) -> mem k' x = mem k x.

Lemma page_apart p q x : page_ok kend p -> page_ok kend q -> p <> q -> p <= x < p + PGSIZE -> ~ q <= x < q + PGSIZE.
Proof. intros (Hp & _) (Hq & _) Hne Hx. destruct (pages_disjoint p q Hp Hq Hne); lia. Qed.

Lemma ld_only k k' p b ps :
  only k k' ps -> page_ok kend p -> word_in p b ->
  (forall q, ps q -> page_ok kend q /\ q <> p) -> ld k' b = ld k b.
Proof.
  intros Ho Hp (Hb & Hb' & _) Hps. apply ld_ext. intros x Hx. apply Ho. intros q Hq.
  destruct (Hps q Hq) as [Hqok Hqp]. apply (page_apart p q x Hp Hqok); [done|lia].
Qed.

Lemma mod1024 n : 0 <= n mod 1024 < 1024.
Proof. apply Z.mod_pos_bound. lia. Qed.

Lemma as_dir k free pgdir : aspace k free pgdir -> page_ok kend pgdir /\ pgdir ∉ free.
Proof. intros Ha. by apply (as_page _ _ _ Ha SDir). Qed.

Lemma as_tab k free pgdir i :
  aspace k free pgdir -> 0 <= i < 1024 -> present (pde_at k pgdir i) = true ->
  page_ok kend (pgtab_of (pde_at k pgdir i)) /\ pgtab_of (pde_at k pgdir i) ∉ free /\
  pgtab_of (pde_at k pgdir i) <> pgdir.
Proof.
  intros Ha Hi Hp. assert (Hpl : place k pgdir (STab i) = Some (pgtab_of (pde_at k pgdir i))).
  { simpl. by rewrite Hp. }
  destruct (as_page _ _ _ Ha (STab i) _ Hi Hpl) as [Hok Hnf]. split_and!; [done|done|].
  intros E. rewrite E in Hpl. by pose proof (as_inj _ _ _ Ha (STab i) SDir _ Hi I Hpl eq_refl).
Qed.

Definition upage (n : Z) : Prop := 0 <= n < 1024 * 1024.

Lemma upage_div n : upage n -> 0 <= n / 1024 < 1024.
Proof. unfold upage. intros. split; [apply Z.div_pos; lia|apply Z.div_lt_upper_bound; lia]. Qed.

(** Memory that changes only in pages that are no directory and no table
    leaves every entry alone. *)
Lemma only_entries k k' free pgdir ps :
  aspace k free pgdir -> only k k' ps ->
  (forall p, ps p -> page_ok kend p /\ place k pgdir SDir <> Some p /\
     forall i, 0 <= i < 1024 -> place k pgdir (STab i) <> Some p) ->
  (forall i, 0 <= i < 1024 -> pde_at k' pgdir i = pde_at k pgdir i) /\
  (forall n, upage n -> pte k' pgdir n = pte k pgdir n).
Proof.
  intros Ha Ho Hps. destruct (as_dir _ _ _ Ha) as [Hd _].
  assert (Hpde : forall i, 0 <= i < 1024 -> pde_at k' pgdir i = pde_at k pgdir i).
  { intros i Hi. unfold pde_at. eapply ld_only; [done|exact Hd|apply word_at; [apply Hd|done]|].
    intros q Hq. destruct (Hps q Hq) as (? & Hne & _). split; [done|]. intros ->. by apply Hne. }
  split; [done|]. intros n Hn. unfold pte. rewrite Hpde by by apply upage_div.
  destruct (present (pde_at k pgdir (n / 1024))) eqn:Hpr; [|done].
  destruct (as_tab _ _ _ _ Ha (upage_div n Hn) Hpr) as (Ht & _ & _).
  eapply ld_only; [done|exact Ht|apply word_at; [apply Ht|apply mod1024]|].
  intros q Hq. destruct (Hps q Hq) as (? & _ & Hne). split; [done|]. intros ->.
  apply (Hne (n / 1024)); [by apply upage_div|]. simpl. by rewrite Hpr.
Qed.

Lemma valid_upage n : valid (SFrame n) -> upage n.
Proof. simpl. unfold upage. change UPAGES with 524288. lia. Qed.

(** Entries that agree give the same address space. *)
Lemma place_agree k k' pgdir :
  (forall i, 0 <= i < 1024 -> pde_at k' pgdir i = pde_at k pgdir i) ->
  (forall n, upage n -> pte k' pgdir n = pte k pgdir n) ->
  forall s, valid s -> place k' pgdir s = place k pgdir s.
Proof.
  intros H1 H2 [|i|n] Hs; simpl; [done|by rewrite H1|by rewrite H2 by by apply valid_upage].
Qed.

Lemma aspace_agree k k' free free' pgdir :
  aspace k free pgdir -> free_pages kend k' free' -> (forall p, p ∈ free' -> p ∈ free) ->
  (forall s, valid s -> place k' pgdir s = place k pgdir s) -> aspace k' free' pgdir.
Proof.
  intros Ha Hf Hsub Hpl. split; [done| |].
  - intros s p Hs. rewrite Hpl by done. intros E. destruct (as_page _ _ _ Ha s p Hs E). naive_solver.
  - intros s s' p Hs Hs'. rewrite !Hpl by done. by apply (as_inj _ _ _ Ha).
Qed.

(** The free list survives changes outside its pages. *)
Lemma free_only k k' free ps :
  free_pages kend k free -> freelist k' = freelist k -> only k k' ps ->
  (forall p, ps p -> page_ok kend p /\ p ∉ free) -> free_pages kend k' free.
Proof.
  intros [Hc Hok Hnd] Hfl Ho Hps. split; [|done|done]. rewrite Hfl.
  eapply chain_ext; [done| |done]. intros v x Hv Hx. apply Ho. intros p Hp.
  destruct (Hps p Hp) as [Hpok Hnf]. rewrite Forall_forall in Hok.
  apply (page_apart v p x); [by apply Hok|done| |done]. by intros ->.
Qed.

(** The pages the allocator and the address space have between them. *)
Definition owned (k : kmem) (free : list Z) (pgdir p : Z) : Prop :=
  p ∈ free \/ exists s, valid s /\ place k pgdir s = Some p.

Definition tab_addr (k : kmem) (pgdir n : Z) : Z :=
  pgtab_of (pde_at k pgdir (n / 1024)) + 4 * (n mod 1024).

(** ** Writing an entry *)

Lemma set_pte k free pgdir n w :
  aspace k free pgdir -> upage n -> present (pde_at k pgdir (n / 1024)) = true -> is_u32 w ->
  (n < UPAGES -> present w = true ->
     place k pgdir (SFrame n) = Some (pgtab_of w) \/ spare k free pgdir (pgtab_of w)) ->
  let k' := st k (tab_addr k pgdir n) w in
  aspace k' free pgdir /\
  (forall i, 0 <= i < 1024 -> pde_at k' pgdir i = pde_at k pgdir i) /\
  (forall m, upage m -> pte k' pgdir m = if decide (m = n) then w else pte k pgdir m) /\
  only k k' (fun p => p = pgtab_of (pde_at k pgdir (n / 1024))).
Proof.
  intros Ha Hn Hpr Hw Hsp k'. set (t := pgtab_of (pde_at k pgdir (n / 1024))).
  destruct (as_tab _ _ _ _ Ha (upage_div n Hn) Hpr) as (Ht & Htf & Htd). fold t in Ht, Htf, Htd.
  destruct (as_dir _ _ _ Ha) as [Hd Hdf].
  assert (Hwt : word_in t (tab_addr k pgdir n)) by (apply word_at; [apply Ht|apply mod1024]).
  assert (Ho : only k k' (fun p => p = t)).
  { intros x Hx. apply st_out. specialize (Hx t eq_refl). unfold word_in in Hwt. lia. }
  assert (Hpde : forall i, 0 <= i < 1024 -> pde_at k' pgdir i = pde_at k pgdir i).
  { intros i Hi. unfold pde_at. eapply ld_only; [exact Ho|exact Hd|apply word_at; [apply Hd|done]|].
    intros q ->. done. }
  assert (Hpte : forall m, upage m -> pte k' pgdir m = if decide (m = n) then w else pte k pgdir m).
  { intros m Hm. unfold pte. rewrite Hpde by by apply upage_div.
    case_decide as Hmn; [subst m; rewrite Hpr; unfold k'; rewrite <- (u32_small w) at 2 by done; apply ld_st_eq|].
    destruct (present (pde_at k pgdir (m / 1024))) eqn:Hpm; [|done].
    destruct (as_tab _ _ _ _ Ha (upage_div m Hm) Hpm) as (Htm & _ & _).
    pose proof (word_at _ (m mod 1024) (proj1 Htm) (mod1024 m)) as Hwm.
    apply ld_st_ne; [apply Hwt|apply Hwm|]. unfold tab_addr. fold t. intros E.
    assert (m / 1024 <> n / 1024 -> pgtab_of (pde_at k pgdir (m / 1024)) <> t) as Hinj.
    { intros Hne Et. apply Hne. assert (STab (m / 1024) = STab (n / 1024)) as [=]; [|done].
      apply (as_inj _ _ _ Ha _ _ t); simpl; [by apply upage_div|by apply upage_div|by rewrite Hpm, Et|by rewrite Hpr]. }
    pose proof (mod1024 m). pose proof (mod1024 n).
    destruct (decide (m / 1024 = n / 1024)) as [Ed|Ed].
    - rewrite Ed in E. fold t in E. apply Hmn. rewrite (Z.div_mod m 1024), (Z.div_mod n 1024) by lia. lia.
    - specialize (Hinj Ed). destruct (pages_disjoint _ t (proj1 Htm) (proj1 Ht) Hinj); unfold PGSIZE in *; lia. }
  assert (Hfl : freelist k' = freelist k) by done. clearbody k'.
  split; [|by split].
  assert (Hpl : forall s, valid s -> place k' pgdir s =
      if decide (s = SFrame n) then (if present w then Some (pgtab_of w) else None) else place k pgdir s).
  { intros [|i|m] Hs; [by rewrite decide_False|rewrite decide_False by done; simpl; by rewrite Hpde|].
    simpl. rewrite Hpte by by apply valid_upage.
    destruct (decide (m = n)) as [->|Hmn]; [by rewrite decide_True|by rewrite decide_False by congruence]. }
  split.
  - eapply free_only; [apply (as_free _ _ _ Ha)|done|exact Ho|]. by intros ? ->.
  - intros s p Hs. rewrite Hpl by done. case_decide as Hsn; [|by apply (as_page _ _ _ Ha)].
    subst s. destruct (present w) eqn:Hw'; [|done]. intros [= <-].
    destruct (Hsp (proj2 Hs) eq_refl) as [E|(? & ? & _)]; [|done]. by apply (as_page _ _ _ Ha (SFrame n)).
  - intros s s' p Hs Hs'. rewrite !Hpl by done.
    assert (Hone : forall s0, valid s0 -> s0 <> SFrame n -> valid (SFrame n) -> present w = true ->
        place k pgdir s0 = Some (pgtab_of w) -> False).
    { intros s0 Hs0 Hne Hvn Hw' E. destruct (Hsp (proj2 Hvn) Hw') as [E'|(_ & _ & Hno)]; [|by apply (Hno s0)].
      by apply Hne, (as_inj _ _ _ Ha _ _ (pgtab_of w)). }
    case_decide; case_decide; subst; try done.
    + destruct (present w) eqn:Hw'; [|done]. intros [= <-] E. by destruct (Hone s').
    + destruct (present w) eqn:Hw'; [|done]. intros E [= <-]. by destruct (Hone s).
    + by apply (as_inj _ _ _ Ha).
Qed.

(** ** Taking a page *)

Lemma kalloc_aspace k t free pgdir :
  aspace k (t :: free) pgdir ->
  exists k', kalloc k = (k', t) /\ t <> 0 /\ mem k' = mem k /\ aspace k' free pgdir /\
    spare k' free pgdir t /\ forall s, place k' pgdir s = place k pgdir s.
Proof.
  intros Ha. pose proof (as_free _ _ _ Ha) as Hf. destruct (kalloc_spec _ _ _ Hf) as (Hm & Ht & Hf').
  destruct (kalloc k) as [k' t'] eqn:E. simpl in *. subst t'. exists k'.
  assert (Hok : page_ok kend t) by (destruct Hf as [_ Hok _]; by apply Forall_cons in Hok as [? _]).
  assert (Htf : t ∉ free) by (destruct Hf as [_ _ Hnd]; by apply NoDup_cons in Hnd as [? _]).
  assert (Hld : forall a, ld k' a = ld k a) by (intros a; unfold ld; by rewrite Hm).
  assert (Hpl : forall s, place k' pgdir s = place k pgdir s).
  { intros s. destruct s; simpl; unfold pte, pde_at; by rewrite ?Hld. }
  split_and!; [done|pose proof (page_ok_range _ _ Hok); lia|done| | |done].
  - eapply aspace_agree; [done|done| |by intros; apply Hpl]. intros p ?. by right.
  - split_and!; [done|done|]. intros s Hs E'. rewrite Hpl in E'.
    destruct (as_page _ _ _ Ha s t Hs E') as [_ Hn]. apply Hn. left.
Qed.

(** Filling a spare page. *)
Lemma fill_spare k k' free pgdir t :
  aspace k free pgdir -> spare k free pgdir t -> only k k' (fun p => p = t) -> freelist k' = freelist k ->
  aspace k' free pgdir /\ spare k' free pgdir t /\
  (forall i, 0 <= i < 1024 -> pde_at k' pgdir i = pde_at k pgdir i) /\
  (forall n, upage n -> pte k' pgdir n = pte k pgdir n).
Proof.
  intros Ha (Ht & Htf & Hts) Ho Hfl.
  destruct (only_entries k k' free pgdir (fun p => p = t) Ha Ho) as [Hpde Hpte].
  { intros p ->. split_and!; [done|by apply (Hts SDir)|]. intros i Hi. by apply (Hts (STab i)). }
  pose proof (place_agree _ _ _ Hpde Hpte) as Hpl.
  split_and!; [| |done|done].
  - eapply aspace_agree; [done| | |done].
    + eapply free_only; [apply (as_free _ _ _ Ha)|done|exact Ho|]. by intros ? ->.
    + done.
  - split_and!; [done|done|]. intros s Hs. rewrite Hpl by done. by apply Hts.
Qed.

(** A zeroed spare page becomes the table for index [i]. *)
Lemma link_table k free pgdir i t :
  aspace k free pgdir -> spare k free pgdir t -> 0 <= i < 1024 ->
  present (pde_at k pgdir i) = false -> (forall x, t <= x < t + PGSIZE -> mem k x = 0) ->
  let k' := st k (pgdir + 4 * i) (entry t (Z.lor PTE_W PTE_U)) in
  aspace k' free pgdir /\
  (forall j, 0 <= j < 1024 -> pde_at k' pgdir j = if decide (j = i) then entry t (Z.lor PTE_W PTE_U) else pde_at k pgdir j) /\
  (forall n, upage n -> pte k' pgdir n = pte k pgdir n) /\
  only k k' (fun p => p = pgdir).
Proof.
  intros Ha (Ht & Htf & Hts) Hi Habs Hz k'. destruct (as_dir _ _ _ Ha) as [Hd Hdf].
  destruct (entry_spec kend t (Z.lor PTE_W PTE_U) Ht) as (Hu & Hpr & Htab & _); [done|].
  set (w := entry t (Z.lor PTE_W PTE_U)) in *.
  assert (Hwd : word_in pgdir (pgdir + 4 * i)) by (by apply word_at; [apply Hd|]).
  assert (Ho : only k k' (fun p => p = pgdir)).
  { intros x Hx. apply st_out. specialize (Hx pgdir eq_refl). unfold word_in in Hwd. lia. }
  assert (Htd : t <> pgdir) by (intros ->; by apply (Hts SDir)).
  assert (Hpde : forall j, 0 <= j < 1024 -> pde_at k' pgdir j = if decide (j = i) then w else pde_at k pgdir j).
  { intros j Hj. unfold pde_at, k'. case_decide as E; [subst j; rewrite ld_st_eq; by apply u32_small|].
    apply ld_st_ne; [apply Hwd|by apply (word_at pgdir j); [apply Hd|]|lia]. }
  assert (Hpte : forall n, upage n -> pte k' pgdir n = pte k pgdir n).
  { intros n Hn. unfold pte. rewrite Hpde by by apply upage_div. case_decide as E.
    - rewrite E, Habs, Hpr, Htab.
      pose proof (word_at t (n mod 1024) (proj1 Ht) (mod1024 n)) as (? & ? & _).
      rewrite (ld_only _ _ t _ _ Ho Ht);
        [|apply word_at; [apply Ht|apply mod1024]|intros ? ->; by split; [|intros ->]].
      apply ld_zero. intros x Hx. apply Hz. lia.
    - destruct (present (pde_at k pgdir (n / 1024))) eqn:Hpn; [|done].
      destruct (as_tab _ _ _ _ Ha (upage_div n Hn) Hpn) as (Htn & _ & Hne).
      eapply ld_only; [exact Ho|exact Htn|apply word_at; [apply Htn|apply mod1024]|]. by intros ? ->. }
  assert (Hpl : forall s, valid s -> place k' pgdir s = if decide (s = STab i) then Some t else place k pgdir s).
  { intros [|j|n] Hs; [by rewrite decide_False| |].
    - simpl. rewrite Hpde by done. destruct (decide (j = i)) as [->|Hji].
      + by rewrite decide_True, Hpr, Htab.
      + by rewrite decide_False by congruence.
    - rewrite decide_False by done. simpl. by rewrite Hpte by by apply valid_upage. }
  assert (Hfl : freelist k' = freelist k) by done. clearbody k' w.
  split; [|by split]. split.
  - eapply free_only; [apply (as_free _ _ _ Ha)|done|exact Ho|]. by intros ? ->.
  - intros s p Hs. rewrite Hpl by done. case_decide; [by intros [= <-]|by apply (as_page _ _ _ Ha)].
  - intros s s' p Hs Hs'. rewrite !Hpl by done. case_decide; case_decide; subst; try done.
    + intros [= <-] E. by destruct (Hts s').
    + intros E [= <-]. by destruct (Hts s).
    + by apply (as_inj _ _ _ Ha).
Qed.

(** ** Walking with allocation *)

Lemma tab_addr_pos k free pgdir n :
  aspace k free pgdir -> upage n -> present (pde_at k pgdir (n / 1024)) = true -> tab_addr k pgdir n <> 0.
Proof.
  intros Ha Hn Hp. destruct (as_tab _ _ _ _ Ha (upage_div n Hn) Hp) as (Ht & _).
  unfold tab_addr. pose proof (mod1024 n). pose proof (page_ok_range _ _ Ht). lia.
Qed.

(** What a step that keeps every page accounted for leaves. *)
Record kept (k k' : kmem) (free free' : list Z) (pgdir : Z) : Prop := {
  kp_aspace : aspace k' free' pgdir;
  kp_pte n : upage n -> pte k' pgdir n = pte k pgdir n;
  kp_only : only k k' (fun p => p = pgdir \/ p ∈ free);
  kp_sub p : p ∈ free' -> p ∈ free;
  kp_owned p : owned k' free' pgdir p <-> owned k free pgdir p
}.

Lemma kept_refl k free pgdir : aspace k free pgdir -> kept k k free free pgdir.
Proof. by split. Qed.

Lemma va_page va : 0 <= va < 2 ^ 32 -> upage (va / 4096).
Proof. unfold upage. intros. split; [apply Z.div_pos; lia|apply Z.div_lt_upper_bound; lia]. Qed.

Lemma walk_found k pgdir va alloc :
  0 <= va < 2 ^ 32 -> present (pde_at k pgdir (va / 4096 / 1024)) = true ->
  walkpgdir k pgdir va alloc = (k, tab_addr k pgdir (va / 4096)).
Proof.
  intros Hva Hp. destruct (PDX_spec va Hva) as [Ed _]. destruct (PTX_spec va Hva) as [Et _].
  unfold walkpgdir, tab_addr, pde_at in *. by rewrite Ed, Et, Hp.
Qed.

Lemma walk_missing k pgdir va :
  0 <= va < 2 ^ 32 -> present (pde_at k pgdir (va / 4096 / 1024)) = false ->
  walkpgdir k pgdir va false = (k, 0).
Proof.
  intros Hva Hp. destruct (PDX_spec va Hva) as [Ed _].
  unfold walkpgdir, pde_at in *. by rewrite Ed, Hp.
Qed.

Lemma walk_alloc k free pgdir va :
  aspace k free pgdir -> 0 <= va < 2 ^ 32 ->
  exists k' a, walkpgdir k pgdir va true = (k', a) /\
    ((a = 0 /\ k' = k /\ free = []) \/
     (exists free', kept k k' free free' pgdir /\ a <> 0 /\ a = tab_addr k' pgdir (va / 4096) /\
        present (pde_at k' pgdir (va / 4096 / 1024)) = true /\ (length free <= S (length free'))%nat)).
Proof.
  intros Ha Hva. pose proof (va_page va Hva) as Hn. pose proof (upage_div _ Hn) as Hi.
  destruct (present (pde_at k pgdir (va / 4096 / 1024))) eqn:Hp.
  { exists k, (tab_addr k pgdir (va / 4096)). split; [by apply walk_found|]. right. exists free.
    split_and!; [by apply kept_refl|by eapply tab_addr_pos|done|done|lia]. }
  destruct (PDX_spec va Hva) as [Ed _]. destruct (PTX_spec va Hva) as [Et _].
  unfold walkpgdir. rewrite Ed, Et. change (ld k (pgdir + 4 * (va / 4096 / 1024))) with (pde_at k pgdir (va / 4096 / 1024)).
  rewrite Hp. cbn [negb]. destruct free as [|t free'].
  { exists k, 0. destruct (kalloc_spec _ _ _ (as_free _ _ _ Ha)) as [_ ->]. split; [done|by left]. }
  destruct (kalloc_aspace _ _ _ _ Ha) as (k1 & -> & Ht0 & Hm1 & Ha1 & Hs1 & Hp1).
  destruct (Z.eqb_spec t 0); [done|].
  assert (Ho2 : only k1 (clear k1 t) (fun p => p = t)).
  { intros x Hx. apply clear_out. specialize (Hx t eq_refl). lia. }
  destruct (fill_spare _ _ _ _ _ Ha1 Hs1 Ho2 eq_refl) as (Ha2 & Hs2 & Hpde2 & Hpte2).
  assert (Hpde1 : forall i, pde_at k1 pgdir i = pde_at k pgdir i).
  { intros i. unfold pde_at, ld. by rewrite Hm1. }
  assert (Hpte1 : forall m, pte k1 pgdir m = pte k pgdir m).
  { intros m. unfold pte. rewrite Hpde1. unfold ld. by rewrite Hm1. }
  destruct (link_table (clear k1 t) free' pgdir (va / 4096 / 1024) t) as (Ha3 & Hpde3 & Hpte3 & Ho3);
    [done|done|done|by rewrite Hpde2, Hpde1|by intros; apply clear_in|].
  destruct (entry_spec kend t (Z.lor PTE_W PTE_U)) as (_ & Hpr & Htab & _); [apply Hs1|done|].
  change (Z.lor PTE_P (Z.lor PTE_W PTE_U)) with (Z.lor (Z.lor PTE_W PTE_U) PTE_P).
  change (Z.lor (V2P t) (Z.lor (Z.lor PTE_W PTE_U) PTE_P)) with (entry t (Z.lor PTE_W PTE_U)).
  set (k3 := st _ _ _) in *.
  assert (Hpi : pde_at k3 pgdir (va / 4096 / 1024) = entry t (Z.lor PTE_W PTE_U)).
  { rewrite Hpde3 by done. by rewrite decide_True. }
  exists k3, (t + 4 * ((va / 4096) mod 1024)). split; [done|]. right. exists free'.
  assert (Hta : t + 4 * ((va / 4096) mod 1024) = tab_addr k3 pgdir (va / 4096)).
  { unfold tab_addr. by rewrite Hpi, Htab. }
  assert (Hpte : forall m, upage m -> pte k3 pgdir m = pte k pgdir m).
  { intros m Hm. by rewrite Hpte3, Hpte2, Hpte1 by done. }
  split_and!; [|rewrite Hta; eapply tab_addr_pos; [done|done|by rewrite Hpi]|done|by rewrite Hpi|done].
  split; [done|done| | |].
  - intros x Hx. rewrite Ho3; [|intros p ->; apply Hx; by left].
    rewrite Ho2; [by rewrite Hm1|]. intros p ->. apply Hx. right. left.
  - intros p ?. by right.
  - intros p. unfold owned. rewrite elem_of_cons.
    assert (Hpl : forall s, valid s -> place k3 pgdir s =
        if decide (s = STab (va / 4096 / 1024)) then Some t else place k pgdir s).
    { intros [|j|m] Hs; [by rewrite decide_False| |].
      - simpl. rewrite Hpde3, Hpde2, Hpde1 by done. destruct (decide (j = va / 4096 / 1024)) as [->|].
        + by rewrite decide_True, Hpr, Htab.
        + by rewrite decide_False by congruence.
      - rewrite decide_False by done. simpl. by rewrite Hpte by by apply valid_upage. }
    split.
    + intros [H|(s & Hs & H)]; [left; by right|]. rewrite Hpl in H by done.
      case_decide; [left; left; congruence|right; by exists s].
    + intros [[->|H]|(s & Hs & H)].
      * right. exists (STab (va / 4096 / 1024)). split; [done|]. rewrite Hpl by done. by rewrite decide_True.
      * by left.
      * right. exists s. split; [done|]. rewrite Hpl by done. case_decide as E; [|done].
        subst s. simpl in H. by rewrite Hp in H.
Qed.

(** ** Mapping and unmapping one user page *)

(** A page the memory manager owns that holds no user page. *)
Definition metapage (k : kmem) (free : list Z) (pgdir p : Z) : Prop :=
  owned k free pgdir p /\ forall n, valid (SFrame n) -> place k pgdir (SFrame n) <> Some p.

Lemma owned_page k free pgdir p : aspace k free pgdir -> owned k free pgdir p -> page_ok kend p.
Proof.
  intros Ha [H|(s & Hs & H)]; [|by apply (as_page _ _ _ Ha s)].
  destruct (as_free _ _ _ Ha) as [_ Hok _]. rewrite Forall_forall in Hok. by apply Hok.
Qed.

Lemma spare_owned k free pgdir p : spare k free pgdir p <-> page_ok kend p /\ ~ owned k free pgdir p.
Proof.
  unfold spare, owned. split.
  - intros (? & Hf & Hs). split; [done|]. intros [?|(s & Hv & E)]; [done|by apply (Hs s)].
  - intros (? & Ho). split_and!; [done|naive_solver|]. intros s Hs E. apply Ho. right. by exists s.
Qed.

Lemma meta_free k free pgdir p : aspace k free pgdir -> p ∈ free -> metapage k free pgdir p.
Proof.
  intros Ha Hp. split; [by left|]. intros n Hn E. by destruct (as_page _ _ _ Ha (SFrame n) p Hn E).
Qed.

Lemma meta_place k free pgdir s p :
  aspace k free pgdir -> valid s -> is_frame s = false -> place k pgdir s = Some p -> metapage k free pgdir p.
Proof.
  intros Ha Hs Hf E. split; [right; by exists s|]. intros n Hn E'.
  by rewrite (as_inj _ _ _ Ha s (SFrame n) p Hs Hn E E') in Hf.
Qed.

Lemma only_weaken k k' (ps qs : Z -> Prop) : only k k' ps -> (forall p, ps p -> qs p) -> only k k' qs.
Proof. intros Ho Hsub x Hx. apply Ho. intros p Hp. by apply Hx, Hsub. Qed.

Lemma only_trans k k1 k2 (ps : Z -> Prop) : only k k1 ps -> only k1 k2 ps -> only k k2 ps.
Proof. intros H1 H2 x Hx. by rewrite H2, H1. Qed.

Lemma frame_pte k k' pgdir n : upage n -> pte k' pgdir n = pte k pgdir n -> place k' pgdir (SFrame n) = place k pgdir (SFrame n).
Proof. intros Hn E. simpl. by rewrite E. Qed.

Lemma kept_meta k k' free free' pgdir p :
  aspace k free pgdir -> kept k k' free free' pgdir -> metapage k' free' pgdir p <-> metapage k free pgdir p.
Proof.
  intros Ha [Ha' Hpte _ _ Hown]. unfold metapage. rewrite Hown. split; intros [H1 H2]; split; try done;
    intros n Hn; specialize (H2 n Hn); pose proof (valid_upage n Hn);
    [rewrite <- (frame_pte k k')|rewrite (frame_pte k k')]; auto.
Qed.

Lemma kept_only k k' free free' pgdir : aspace k free pgdir -> kept k k' free free' pgdir -> only k k' (metapage k free pgdir).
Proof.
  intros Ha Hk. eapply only_weaken; [apply (kp_only _ _ _ _ _ Hk)|]. intros p [->|H]; [|by apply meta_free].
  by apply (meta_place _ _ _ SDir).
Qed.

Lemma mappages_page k free pgdir va page perm :
  aspace k free pgdir -> 0 <= va < KERNBASE -> va mod PGSIZE = 0 ->
  spare k free pgdir page -> 0 <= perm < 4096 -> present (pte k pgdir (va / 4096)) = false ->
  exists k' r, mappages k pgdir va PGSIZE (V2P page) perm = Ret (k', r) /\
    ((r = -1 /\ k' = k /\ free = []) \/
     (r = 0 /\ exists free', aspace k' free' pgdir /\
        (forall m, upage m -> pte k' pgdir m = if decide (m = va / 4096) then entry page perm else pte k pgdir m) /\
        only k k' (metapage k free pgdir) /\ (forall p, p ∈ free' -> p ∈ free) /\
        (forall p, owned k' free' pgdir p <-> p = page \/ owned k free pgdir p) /\
        (length free <= S (length free'))%nat)).
Proof.
  intros Ha Hva Hal Hsp Hperm Habs. unfold mappages.
  assert (H32 : 0 <= va < 2 ^ 32) by (unfold KERNBASE in *; lia).
  assert (Hdown : PGROUNDDOWN va = va /\ PGROUNDDOWN (u32 (va + PGSIZE - 1)) = va).
  { unfold PGROUNDDOWN, PGSIZE in *. change (Z.lnot (4096 - 1)) with (Z.lnot 4095).
    pose proof (Z.div_mod va 4096 ltac:(lia)).
    rewrite u32_small by (unfold is_u32, KERNBASE in *; lia). rewrite !land_lnot_4095. split; [lia|].
    replace (va + 4096 - 1) with (4095 + va / 4096 * 4096) by lia. rewrite Z.div_add, Z.div_small by lia. lia. }
  destruct Hdown as [-> ->]. rewrite Z.sub_diag. change (S (Z.to_nat (u32 0 / PGSIZE))) with 1%nat.
  cbn [mappages_from]. destruct (walk_alloc _ _ _ _ Ha H32) as (k1 & a & -> & Hw).
  destruct Hw as [(-> & -> & ->)|(free' & Hk & Ha0 & -> & Hpr & Hlen)].
  { exists k, (-1). split; [done|by left]. }
  destruct (Z.eqb_spec (tab_addr k1 pgdir (va / 4096)) 0); [done|].
  pose proof (va_page va H32) as Hn. pose proof (kp_aspace _ _ _ _ _ Hk) as Ha1.
  assert (Hpte1 : ld k1 (tab_addr k1 pgdir (va / 4096)) = pte k pgdir (va / 4096)).
  { rewrite <- (kp_pte _ _ _ _ _ Hk) by done. unfold pte. by rewrite Hpr. }
  rewrite Hpte1, Habs, Z.eqb_refl.
  change (Z.lor (V2P page) (Z.lor perm PTE_P)) with (entry page perm).
  destruct Hsp as (Hpok & Hsp0). destruct (entry_spec kend page perm Hpok Hperm) as (Hu & Hep & Htab & _).
  assert (Hsp1 : spare k1 free' pgdir page).
  { apply spare_owned. rewrite (kp_owned _ _ _ _ _ Hk). by apply spare_owned. }
  destruct (set_pte k1 free' pgdir (va / 4096) (entry page perm) Ha1 Hn Hpr Hu) as (Ha2 & Hpde2 & Hpte2 & Ho2).
  { intros _ _. right. by rewrite Htab. }
  set (k2 := st _ _ _) in *. clearbody k2.
  exists k2, 0. split; [done|]. right. split; [done|]. exists free'. split_and!; [done| | |apply (kp_sub _ _ _ _ _ Hk)| |done].
  - intros m Hm. rewrite Hpte2 by done. case_decide; [done|]. by apply (kp_pte _ _ _ _ _ Hk).
  - eapply only_trans; [by eapply kept_only|]. eapply only_weaken; [done|]. intros p ->.
    apply (kept_meta _ _ _ _ _ _ Ha Hk). apply (meta_place _ _ _ (STab (va / 4096 / 1024))); [done|by apply upage_div|done|].
    simpl. by rewrite Hpr.
  - intros p. rewrite <- (kp_owned _ _ _ _ _ Hk). unfold owned.
    assert (Hvn : valid (SFrame (va / 4096))).
    { simpl. change UPAGES with 524288. unfold KERNBASE in Hva.
      split; [apply Z.div_pos; lia|apply Z.div_lt_upper_bound; lia]. }
    assert (Hpl : forall s, valid s -> place k2 pgdir s =
        if decide (s = SFrame (va / 4096)) then Some page else place k1 pgdir s).
    { intros [|i|m] Hs; [by rewrite decide_False|rewrite decide_False by done; simpl; by rewrite Hpde2|].
      simpl. rewrite Hpte2 by by apply valid_upage. destruct (decide (m = va / 4096)) as [->|].
      - by rewrite decide_True, Hep, Htab.
      - by rewrite decide_False by congruence. }
    split.
    + intros [?|(s & Hs & E)]; [by right; left|]. rewrite Hpl in E by done.
      case_decide; [left; congruence|right; right; by exists s].
    + intros [->|[?|(s & Hs & E)]]; [|by left|].
      * right. exists (SFrame (va / 4096)). split; [done|]. rewrite Hpl by done. by rewrite decide_True.
      * right. exists s. split; [done|]. rewrite Hpl by done. case_decide as Es; [|done]. subst s.
        simpl in E. rewrite (kp_pte _ _ _ _ _ Hk), Habs in E by done. done.
Qed.

(** Memories that agree byte by byte. *)
Lemma aspace_ext k k' free pgdir :
  (forall x, mem k' x = mem k x) -> freelist k' = freelist k -> aspace k free pgdir ->
  aspace k' free pgdir /\ (forall s, place k' pgdir s = place k pgdir s) /\ (forall n, pte k' pgdir n = pte k pgdir n).
Proof.
  intros Hm Hfl Ha.
  assert (Hld : forall b, ld k' b = ld k b) by (intros b; by apply ld_ext).
  assert (Hpte : forall n, pte k' pgdir n = pte k pgdir n) by (intros n; unfold pte, pde_at; by rewrite !Hld).
  assert (Hpl : forall s, place k' pgdir s = place k pgdir s).
  { intros [|i|n]; simpl; unfold pde_at; by rewrite ?Hpte, ?Hld. }
  split_and!; [|done..]. eapply aspace_agree; [done| |done|by intros].
  eapply (free_only k k' free (fun _ => False)); [apply (as_free _ _ _ Ha)|done| |done]. by intros x _.
Qed.

Lemma kfree_st_comm k q k1 a v :
  kfree kend k q = Ret k1 -> a + 4 <= q \/ q + PGSIZE <= a ->
  exists k1', kfree kend (st k a v) q = Ret k1' /\ freelist k1' = freelist (st k1 a v) /\
    forall x, mem k1' x = mem (st k1 a v) x.
Proof.
  unfold kfree. destruct (_ || _); [done|]. intros [= <-] Ha. eexists. split; [done|]. split; [done|].
  intros x. unfold st, memset, put32. simpl. unfold PGSIZE in *.
  destruct (Z.leb_spec q x), (Z.ltb_spec x (q + 4)), (Z.ltb_spec x (q + 4096)),
    (Z.leb_spec a x), (Z.ltb_spec x (a + 4)); simpl; done || lia.
Qed.

Lemma unmap_page k free pgdir n q :
  aspace k free pgdir -> valid (SFrame n) -> place k pgdir (SFrame n) = Some q ->
  exists k1, kfree kend k q = Ret k1 /\
    let k2 := st k1 (tab_addr k pgdir n) 0 in
    aspace k2 (q :: free) pgdir /\
    (forall i, 0 <= i < 1024 -> pde_at k2 pgdir i = pde_at k pgdir i) /\
    (forall m, upage m -> pte k2 pgdir m = if decide (m = n) then 0 else pte k pgdir m) /\
    only k k2 (fun p => metapage k free pgdir p \/ p = q) /\
    (forall p, owned k2 (q :: free) pgdir p <-> owned k free pgdir p).
Proof.
  intros Ha Hn Hpl. pose proof (valid_upage n Hn) as Hu.
  assert (Hpr : present (pde_at k pgdir (n / 1024)) = true).
  { simpl in Hpl. unfold pte in Hpl. destruct (present (pde_at k pgdir (n / 1024))); [done|]. by simpl in Hpl. }
  destruct (as_page _ _ _ Ha _ _ Hn Hpl) as [Hq Hqf].
  destruct (as_tab _ _ _ _ Ha (upage_div n Hu) Hpr) as (Ht & _ & _).
  assert (Htq : pgtab_of (pde_at k pgdir (n / 1024)) <> q).
  { intros E. assert (STab (n / 1024) = SFrame n) as [=]. apply (as_inj _ _ _ Ha _ _ q); [by apply upage_div|done| |done].
    simpl. by rewrite Hpr, E. }
  destruct (word_at _ (n mod 1024) (proj1 Ht) (mod1024 n)) as (Hw1 & Hw2 & _). fold (tab_addr k pgdir n) in Hw1, Hw2.
  destruct (set_pte k free pgdir n 0 Ha Hu Hpr) as (Ha1 & Hpde1 & Hpte1 & Ho1); [unfold is_u32; lia|done|].
  set (k0 := st k (tab_addr k pgdir n) 0) in *.
  assert (Hpl1 : forall s, valid s -> place k0 pgdir s = if decide (s = SFrame n) then None else place k pgdir s).
  { clearbody k0. intros [|i|m] Hs; [by rewrite decide_False|rewrite decide_False by done; simpl; by rewrite Hpde1|].
    simpl. rewrite Hpte1 by by apply valid_upage. destruct (decide (m = n)) as [->|].
    - by rewrite decide_True.
    - by rewrite decide_False by congruence. }
  assert (Hsp : spare k0 free pgdir q).
  { split_and!; [done|done|]. intros s Hs E. rewrite Hpl1 in E by done. case_decide as Es; [done|].
    by apply Es, (as_inj _ _ _ Ha s (SFrame n) q). }
  destruct (kfree_spec _ k free q (as_free _ _ _ Ha) Hq Hqf) as (k1 & Hk1 & _ & Hout1 & _).
  exists k1. split; [done|]. intros k2.
  destruct (kfree_st_comm k q k1 (tab_addr k pgdir n) 0 Hk1) as (k3 & Hk3 & Hfl3 & Hm3).
  { destruct (pages_disjoint _ q (proj1 Ht) (proj1 Hq) Htq); lia. }
  fold k0 in Hk3. fold k2 in Hfl3, Hm3. clearbody k0 k2.
  destruct (kfree_spec _ k0 free q (as_free _ _ _ Ha1) Hq Hqf) as (k3' & Hk3' & Hf3 & Hout3 & _).
  rewrite Hk3 in Hk3'. injection Hk3' as <-.
  assert (Ho3 : only k0 k3 (fun p => p = q)).
  { intros x Hx. apply Hout3. specialize (Hx q eq_refl). lia. }
  destruct (only_entries k0 k3 free pgdir (fun p => p = q) Ha1 Ho3) as [Hpde3 Hpte3].
  { intros p ->. destruct Hsp as (? & _ & Hs). split_and!; [done|by apply (Hs SDir)|]. intros i Hi. by apply (Hs (STab i)). }
  pose proof (place_agree _ _ _ Hpde3 Hpte3) as Hpl3.
  assert (Ha3 : aspace k3 (q :: free) pgdir).
  { split; [done| |].
    - intros s p Hs. rewrite Hpl3, Hpl1 by done. case_decide as Es; [done|]. intros E.
      destruct (as_page _ _ _ Ha s p Hs E) as [? Hpf]. split; [done|]. rewrite elem_of_cons. intros [->|?]; [|done].
      by apply Es, (as_inj _ _ _ Ha s (SFrame n) q).
    - intros s s' p Hs Hs'. rewrite !Hpl3 by done. by apply (as_inj _ _ _ Ha1). }
  destruct (aspace_ext k3 k2 (q :: free) pgdir) as (Ha2 & Hpl2 & Hpte2); [by intros; rewrite Hm3|done|done|].
  split_and!; [done| | | |].
  - intros i Hi. rewrite <- Hpde1, <- Hpde3 by done. unfold pde_at. apply ld_ext. by intros; rewrite Hm3.
  - intros m Hm. by rewrite Hpte2, Hpte3, Hpte1.
  - eapply only_trans; [eapply (only_weaken k k0); [exact Ho1|]|].
    + intros p ->. left. apply (meta_place _ _ _ (STab (n / 1024))); [done|by apply upage_div|done|]. simpl. by rewrite Hpr.
    + intros x Hx. rewrite <- Hm3. apply Ho3. intros p ->. apply Hx. by right.
  - intros p. unfold owned. rewrite elem_of_cons. split.
    + intros [[->|?]|(s & Hs & E)]; [right; by exists (SFrame n)|by left|].
      rewrite Hpl2, Hpl3, Hpl1 in E by done. case_decide; [done|]. right. by exists s.
    + intros [?|(s & Hs & E)]; [left; by right|]. destruct (decide (s = SFrame n)) as [->|Es].
      * left. left. congruence.
      * right. exists s. split; [done|]. by rewrite Hpl2, Hpl3, Hpl1, decide_False.
Qed.

End aspace.
End VmSpec.
