(* ===== verification/VmThms.v ===== *)
(** * Page tables: theorems

    [deallocuvm] and [allocuvm] over address spaces: what they map, what they
    free, and that no page is lost or shared. *)

From S2P Require Import Prelude DfsImage Kalloc Vm VmSpec.
Import Kalloc Vm VmSpec.
Local Open Scope Z_scope.
Local Open Scope xv6_scope.

Module VmThms.

Section thms.
Context (kend : Z) (Hkend : KERNBASE < kend).

#[local] Abbreviation aspace := (aspace kend).
#[local] Abbreviation spare := (spare kend).

(** Page [m] starts in [a, oldsz). *)
Definition in_range (a oldsz m : Z) : Prop := a <= 4096 * m < oldsz.

(** What is left of the entries when the user pages of a range are freed. *)
Definition cleared (k : kmem) (pgdir a oldsz m : Z) : Z :=
  if decide (in_range a oldsz m /\ present (pte k pgdir m) = true) then 0 else pte k pgdir m.

(** The pages freeing a range may write. *)
Definition freeing (k : kmem) (free : list Z) (pgdir a oldsz p : Z) : Prop :=
  metapage k free pgdir p \/ exists n, valid (SFrame n) /\ in_range a oldsz n /\ place k pgdir (SFrame n) = Some p.

Record freed (k k' : kmem) (free free' : list Z) (pgdir a oldsz : Z) : Prop := {
  fr_aspace : aspace k' free' pgdir;
  fr_pte m : upage m -> pte k' pgdir m = cleared k pgdir a oldsz m;
  fr_only : only k k' (freeing k free pgdir a oldsz);
  fr_sub p : p ∈ free -> p ∈ free';
  fr_frames n p : valid (SFrame n) -> in_range a oldsz n -> place k pgdir (SFrame n) = Some p -> p ∈ free';
  fr_owned p : owned k' free' pgdir p <-> owned k free pgdir p
}.

Lemma freed_none k free pgdir a oldsz :
  aspace k free pgdir -> (forall m, upage m -> in_range a oldsz m -> present (pte k pgdir m) = false) ->
  freed k k free free pgdir a oldsz.
Proof.
  intros Ha Hno. split; [done| |done|done| |done].
  - intros m Hm. unfold cleared. case_decide as E; [|done]. destruct E as [Hr Hp]. by rewrite Hno in Hp.
  - intros n p Hn Hr. simpl. by rewrite Hno by (done || by apply valid_upage).
Qed.

(** Pages without an entry at the start of the range make no difference. *)
Lemma freed_skip k k' free free' pgdir a a' oldsz :
  a <= a' -> (forall m, upage m -> in_range a oldsz m -> ~ in_range a' oldsz m -> present (pte k pgdir m) = false) ->
  freed k k' free free' pgdir a' oldsz -> freed k k' free free' pgdir a oldsz.
Proof.
  intros Haa Hno [H1 H2 H3 H4 H6 H5]. split; [done| | |done| |done].
  - intros m Hm. rewrite H2 by done. unfold cleared. case_decide as E; case_decide as E'; try done.
    + destruct E as [Hr Hp]. destruct E'. unfold in_range in *. split; [lia|done].
    + destruct E' as [Hr Hp]. destruct (decide (in_range a' oldsz m)) as [Hi|Hi]; [by destruct E|].
      by rewrite Hno in Hp.
  - eapply only_weaken; [done|]. intros p [?|(n & Hn & Hr & E)]; [by left|right].
    exists n. split_and!; [done| |done]. unfold in_range in *. lia.
  - intros n p Hn Hr E. destruct (decide (in_range a' oldsz n)) as [Hi|Hi]; [by eapply H6|].
    simpl in E. by rewrite Hno in E by (done || by apply valid_upage).
Qed.

Lemma next_page a m oldsz :
  a mod 4096 = 0 -> a < oldsz -> in_range a oldsz m <-> m = a / 4096 \/ in_range (a + 4096) oldsz m.
Proof. unfold in_range. intros Ha Ho. pose proof (Z.div_mod a 4096 ltac:(lia)). lia. Qed.

(** Freeing the first page of the range and then the rest. *)
Lemma freed_step k k2 k' free free' pgdir a oldsz q :
  aspace k free pgdir -> 0 <= a -> a mod 4096 = 0 -> a < oldsz -> oldsz <= KERNBASE ->
  place k pgdir (SFrame (a / 4096)) = Some q ->
  (forall m, upage m -> pte k2 pgdir m = if decide (m = a / 4096) then 0 else pte k pgdir m) ->
  only k k2 (fun p => metapage k free pgdir p \/ p = q) ->
  (forall p, owned k2 (q :: free) pgdir p <-> owned k free pgdir p) ->
  freed k2 k' (q :: free) free' pgdir (a + 4096) oldsz -> freed k k' free free' pgdir a oldsz.
Proof.
  intros Ha Ha0 Hal Hao Hold Hpl Hpte2 Ho2 Hown2 [H1 H2 H3 H4 H6 H5].
  assert (Hv : valid (SFrame (a / 4096))).
  { simpl. change UPAGES with 524288. unfold KERNBASE in *.
    split; [apply Z.div_pos; lia|apply Z.div_lt_upper_bound; lia]. }
  assert (Hpr : present (pte k pgdir (a / 4096)) = true).
  { simpl in Hpl. by destruct (present (pte k pgdir (a / 4096))). }
  split; [done| | | | |].
  - intros m Hm. rewrite H2 by done. unfold cleared. rewrite Hpte2 by done.
    destruct (decide (m = a / 4096)) as [->|Hne].
    + rewrite (decide_True (P := in_range a oldsz _ /\ _)); [by case_decide|]. split; [|done]. apply next_page; auto.
    + pose proof (next_page a m oldsz Hal Hao). case_decide as E; case_decide as E'; try done; tauto.
  - assert (Hr : in_range a oldsz (a / 4096)) by (apply next_page; auto).
    eapply only_trans; [eapply only_weaken; [exact Ho2|]|eapply only_weaken; [exact H3|]].
    + intros p [?| ->]; [by left|right; by exists (a / 4096)].
    + intros p [[Hp Hnf]|(n & Hn & Hrn & E)].
      * destruct (decide (p = q)) as [->|Hpq]; [right; by exists (a / 4096)|]. left. split; [by apply Hown2|].
        intros n Hn E. apply (Hnf n Hn). simpl. rewrite Hpte2 by by apply valid_upage.
        case_decide as En; [subst n; congruence|exact E].
      * right. exists n. split_and!; [done|by apply next_page; auto|]. simpl in *.
        rewrite Hpte2 in E by by apply valid_upage. by case_decide.
  - intros p Hp. apply H4. by right.
  - intros n p Hn Hr E. apply next_page in Hr as [->|Hr]; [..|done|done].
    + apply H4. rewrite elem_of_cons. left. congruence.
    + eapply H6; [done|exact Hr|]. rewrite (frame_pte k k2); [done|by apply valid_upage|].
      rewrite Hpte2 by by apply valid_upage. rewrite decide_False; [done|]. intros ->.
      unfold in_range in Hr. pose proof (Z.div_mod a 4096 ltac:(lia)). lia.
  - intros p. rewrite H5. apply Hown2.
Qed.

(** The next table starts at a multiple of 4 MB. *)
Lemma PGADDR_next a : 0 <= a < KERNBASE ->
  u32 (u32 (PGADDR (PDX a + 1) 0 0 - PGSIZE) + PGSIZE) = (a / 4096 / 1024 + 1) * 4194304.
Proof.
  intros Ha. destruct (PDX_spec a) as [E _]; [unfold KERNBASE in *; lia|]. rewrite E.
  assert (0 <= a / 4096 / 1024 < 512).
  { rewrite Z.div_div by lia. unfold KERNBASE in *. split; [apply Z.div_pos; lia|apply Z.div_lt_upper_bound; lia]. }
  rewrite u32_add_idemp_l, Z.sub_add. unfold PGADDR. rewrite u32_idemp, Z.shiftl_0_l, !Z.lor_0_r, Z.shiftl_mul_pow2 by lia.
  change (2 ^ 22) with 4194304. apply u32_small. unfold is_u32. lia.
Qed.

Lemma no_table k pgdir m : present (pde_at k pgdir (m / 1024)) = false -> present (pte k pgdir m) = false.
Proof. unfold pte. intros ->. done. Qed.

Lemma deallocuvm_from_spec fuel k free pgdir a oldsz :
  aspace k free pgdir -> 0 <= a -> a mod 4096 = 0 -> oldsz <= KERNBASE ->
  (1 <= fuel)%nat -> oldsz - a <= 4096 * (Z.of_nat fuel - 1) ->
  exists k' free', deallocuvm_from kend fuel k pgdir a oldsz = Ret k' /\ freed k k' free free' pgdir a oldsz.
Proof.
  revert k free a. induction fuel as [|fuel IH]; intros k free a Ha Ha0 Hal Hold Hf1 Hf; [lia|].
  cbn [deallocuvm_from]. destruct (Z.ltb_spec a oldsz) as [Hao|Hao].
  2: { exists k, free. split; [done|]. apply freed_none; [done|]. unfold in_range. lia. }
  pose proof (Z.div_mod a 4096 ltac:(lia)) as Hdiv. rewrite Hal in Hdiv.
  assert (H32 : 0 <= a < 2 ^ 32) by (unfold KERNBASE in *; lia).
  pose proof (va_page a H32) as Hn.
  assert (Hstep : u32 (a + PGSIZE) = a + 4096).
  { unfold PGSIZE. apply u32_small. unfold is_u32, KERNBASE in *. lia. }
  assert (Hal' : (a + 4096) mod 4096 = 0) by (rewrite Zplus_mod, Hal; done).
  destruct (present (pde_at k pgdir (a / 4096 / 1024))) eqn:Hpd.
  - rewrite walk_found by done.
    destruct (Z.eqb_spec (tab_addr k pgdir (a / 4096)) 0) as [E|_].
    { by apply (tab_addr_pos kend _ _ _ _ Ha Hn Hpd) in E. }
    assert (Hld : ld k (tab_addr k pgdir (a / 4096)) = pte k pgdir (a / 4096)) by (unfold pte; by rewrite Hpd).
    rewrite Hld. destruct (present (pte k pgdir (a / 4096))) eqn:Hpr.
    + assert (Hpl : place k pgdir (SFrame (a / 4096)) = Some (pgtab_of (pte k pgdir (a / 4096)))).
      { simpl. by rewrite Hpr. }
      assert (Hv : valid (SFrame (a / 4096))).
      { simpl. change UPAGES with 524288. unfold KERNBASE in *. lia. }
      destruct (as_page _ _ _ _ Ha _ _ Hv Hpl) as [Hq _].
      destruct (Z.eqb_spec (PTE_ADDR (pte k pgdir (a / 4096))) 0) as [E|_].
      { exfalso. unfold pgtab_of in Hq. rewrite E in Hq. destruct Hq as (_ & Hq & _).
        change (P2V 0) with KERNBASE in Hq. lia. }
      destruct (unmap_page kend k free pgdir (a / 4096) _ Ha Hv Hpl) as (k1 & Hk1 & Ha2 & _ & Hpte2 & Ho2 & Hown2).
      unfold pgtab_of in Hk1 at 1. rewrite Hk1. cbn [obind]. set (k2 := st k1 _ 0) in *.
      destruct (IH k2 (pgtab_of (pte k pgdir (a / 4096)) :: free) (a + 4096)) as (k' & free' & Hk' & Hfr); [done|lia|done|done|lia|lia|].
      rewrite Hstep, Hk'. exists k', free'. split; [done|]. by eapply freed_step.
    + destruct (IH k free (a + 4096)) as (k' & free' & Hk' & Hfr); [done|lia|done|done|lia|lia|].
      rewrite Hstep, Hk'. exists k', free'. split; [done|]. eapply freed_skip; [..|exact Hfr]; [lia|].
      intros m Hm Hin Hout. apply next_page in Hin as [->|]; done.
  - rewrite walk_missing by done. change (0 =? 0) with true. cbv iota. rewrite PGADDR_next by lia.
    set (a' := (a / 4096 / 1024 + 1) * 4194304).
    pose proof (Z.div_mod (a / 4096) 1024 ltac:(lia)) as Hd2. pose proof (Z.mod_pos_bound (a / 4096) 1024 ltac:(lia)).
    assert (Ha' : a + 4096 <= a') by (unfold a'; lia).
    destruct (IH k free a') as (k' & free' & Hk' & Hfr); [done|lia| |done|lia|lia|].
    { unfold a'. replace ((a / 4096 / 1024 + 1) * 4194304) with ((a / 4096 / 1024 + 1) * 1024 * 4096) by lia.
      by apply Z.mod_mul. }
    rewrite Hk'. exists k', free'. split; [done|]. eapply freed_skip; [..|exact Hfr]; [lia|].
    intros m Hm Hin Hout. apply no_table. replace (m / 1024) with (a / 4096 / 1024); [done|].
    unfold in_range, a' in *. apply Z.div_unique_pos with (m - 1024 * (a / 4096 / 1024)); lia.
Qed.

Lemma deallocuvm_spec k free pgdir oldsz newsz :
  aspace k free pgdir -> 0 <= newsz < oldsz -> oldsz <= KERNBASE ->
  exists k' free', deallocuvm kend k pgdir oldsz newsz = Ret (k', newsz) /\
    freed k k' free free' pgdir newsz oldsz.
Proof.
  intros Ha Hnew Hold. unfold deallocuvm. destruct (Z.leb_spec oldsz newsz); [lia|].
  destruct (PGROUNDUP_spec newsz) as [Hup Hal]; [lia|unfold PGSIZE, KERNBASE in *; lia|].
  unfold PGSIZE in Hup, Hal. unfold dealloc_fuel. pose proof (Z.div_mod (oldsz - newsz) PGSIZE ltac:(done)) as Hd.
  pose proof (Z.mod_pos_bound (oldsz - newsz) PGSIZE ltac:(done)). unfold PGSIZE in *.
  destruct (deallocuvm_from_spec (S (Z.to_nat ((oldsz - newsz) / 4096 + 1))) k free pgdir (PGROUNDUP newsz) oldsz)
    as (k' & free' & -> & Hfr); [done|lia|done|done|lia|lia|].
  exists k', free'. split; [done|]. eapply freed_skip; [..|exact Hfr]; [lia|].
  unfold in_range. intros m Hm Hin Hout. exfalso.
  pose proof (Z.div_mod (PGROUNDUP newsz) 4096 ltac:(lia)). lia.
Qed.

(** ** Growing *)

(** A zeroed page taken off the free list. *)
Lemma take_page k t free pgdir :
  aspace k (t :: free) pgdir ->
  exists k1, kalloc k = (k1, t) /\ t <> 0 /\
    let k2 := clear k1 t in
    aspace k2 free pgdir /\ spare k2 free pgdir t /\
    (forall m, upage m -> pte k2 pgdir m = pte k pgdir m) /\
    only k k2 (fun p => p = t) /\ (forall x, t <= x < t + PGSIZE -> mem k2 x = 0) /\
    (forall p, owned k (t :: free) pgdir p <-> p = t \/ owned k2 free pgdir p).
Proof.
  intros Ha. destruct (kalloc_aspace kend _ _ _ _ Ha) as (k1 & -> & Ht0 & Hm & Ha1 & Hs1 & Hpl1).
  exists k1. split; [done|]. split; [done|]. intros k2.
  assert (Ho : only k1 k2 (fun p => p = t)).
  { intros x Hx. apply clear_out. specialize (Hx t eq_refl). lia. }
  assert (Hz : forall x, t <= x < t + PGSIZE -> mem k2 x = 0) by (by intros; apply clear_in).
  destruct (fill_spare kend k1 k2 _ _ _ Ha1 Hs1 Ho eq_refl) as (Ha2 & Hs2 & Hpde & Hpte).
  pose proof (place_agree _ _ _ Hpde Hpte) as Hpl2. clearbody k2.
  split_and!; [done|done| | |done|].
  - intros m Hm'. rewrite Hpte by done. unfold pte, pde_at, ld. by rewrite Hm.
  - intros x Hx. by rewrite Ho, Hm.
  - intros p. unfold owned. rewrite elem_of_cons. split.
    + intros [[->|?]|(s & Hs & E)]; [by left|by right; left|]. right; right. exists s. by rewrite Hpl2, Hpl1.
    + intros [->|[?|(s & Hs & E)]]; [left; by left|left; by right|]. right. exists s. by rewrite Hpl2, Hpl1 in E.
Qed.

(** A spare page goes back to the free list. *)
Lemma free_spare k free pgdir p :
  aspace k free pgdir -> spare k free pgdir p ->
  exists k', kfree kend k p = Ret k' /\ aspace k' (p :: free) pgdir /\
    (forall m, upage m -> pte k' pgdir m = pte k pgdir m) /\ only k k' (fun q => q = p) /\
    (forall q, owned k' (p :: free) pgdir q <-> q = p \/ owned k free pgdir q).
Proof.
  intros Ha Hs. destruct Hs as (Hp & Hpf & Hps).
  destruct (kfree_spec kend k free p (as_free _ _ _ _ Ha) Hp Hpf) as (k' & Hk & Hf & Hout & _).
  assert (Ho : only k k' (fun q => q = p)).
  { intros x Hx. apply Hout. specialize (Hx p eq_refl). lia. }
  destruct (only_entries kend k k' free pgdir _ Ha Ho) as [Hpde Hpte].
  { intros q ->. split_and!; [done|by apply (Hps SDir)|]. intros i Hi. by apply (Hps (STab i)). }
  pose proof (place_agree _ _ _ Hpde Hpte) as Hpl.
  exists k'. split_and!; [done| |done|done|].
  - split; [done| |].
    + intros s q Hs. rewrite Hpl by done. intros E. destruct (as_page _ _ _ _ Ha s q Hs E) as [? Hqf].
      split; [done|]. rewrite elem_of_cons. intros [->|?]; [by apply (Hps s)|done].
    + intros s s' q Hs Hs'. rewrite !Hpl by done. by apply (as_inj _ _ _ _ Ha).
  - intros q. unfold owned. rewrite elem_of_cons. split.
    + intros [[->|?]|(s & Hs & E)]; [by left|by right; left|]. right; right. exists s. by rewrite <- Hpl.
    + intros [->|[?|(s & Hs & E)]]; [left; by left|left; by right|]. right. exists s. by rewrite Hpl.
Qed.

(** The pages of [[a, b)] are mapped to zeroed pages from the free list. *)
Record grown (k k' : kmem) (free free' : list Z) (pgdir a b : Z) : Prop := {
  gr_aspace : aspace k' free' pgdir;
  gr_new m : upage m -> in_range a b m ->
    exists p, p ∈ free /\ pte k' pgdir m = entry p (Z.lor PTE_W PTE_U) /\
      forall x, p <= x < p + PGSIZE -> mem k' x = 0;
  gr_old m : upage m -> ~ in_range a b m -> pte k' pgdir m = pte k pgdir m;
  gr_only : only k k' (metapage k free pgdir);
  gr_sub p : p ∈ free' -> p ∈ free;
  gr_owned p : owned k' free' pgdir p <-> owned k free pgdir p
}.

(** The pages of [[a, b)] are unmapped, whatever they were. *)
Record shrunk (k k' : kmem) (free free' : list Z) (pgdir a b : Z) : Prop := {
  sh_aspace : aspace k' free' pgdir;
  sh_gone m : upage m -> in_range a b m -> present (pte k' pgdir m) = false;
  sh_old m : upage m -> ~ in_range a b m -> pte k' pgdir m = pte k pgdir m;
  sh_only : only k k' (freeing k free pgdir a b);
  sh_owned p : owned k' free' pgdir p <-> owned k free pgdir p
}.

Lemma freed_shrunk k k' free free' pgdir a b :
  freed k k' free free' pgdir a b -> shrunk k k' free free' pgdir a b.
Proof.
  intros [H1 H2 H3 H4 _ H5]. split; [done| | |done|done].
  - intros m Hm Hr. rewrite H2 by done. unfold cleared. case_decide as E; [done|].
    destruct (present (pte k pgdir m)) eqn:Hp; [by destruct E|done].
  - intros m Hm Hr. rewrite H2 by done. unfold cleared. case_decide as E; [by destruct E|done].
Qed.

(** One turn of [allocuvm]'s loop that maps a page. *)
Record mapped1 (k k1 : kmem) (free free1 : list Z) (pgdir a p : Z) : Prop := {
  m1_aspace : aspace k1 free1 pgdir;
  m1_page : p ∈ free;
  m1_pte m : upage m -> pte k1 pgdir m = if decide (m = a / 4096) then entry p (Z.lor PTE_W PTE_U) else pte k pgdir m;
  m1_zero x : p <= x < p + PGSIZE -> mem k1 x = 0;
  m1_only : only k k1 (metapage k free pgdir);
  m1_sub q : q ∈ free1 -> q ∈ free;
  m1_owned q : owned k1 free1 pgdir q <-> owned k free pgdir q
}.

Lemma entry_frame k1 pgdir m p free :
  aspace k1 free pgdir -> page_ok kend p -> pte k1 pgdir m = entry p (Z.lor PTE_W PTE_U) ->
  place k1 pgdir (SFrame m) = Some p.
Proof.
  intros _ Hp E. simpl. destruct (entry_spec kend p (Z.lor PTE_W PTE_U) Hp) as (_ & Hpr & Htab & _); [done|].
  by rewrite E, Hpr, Htab.
Qed.

(** A page that holds no user page after the turn held none before, unless it
    is free memory. *)
Lemma mapped1_meta k k1 free free1 pgdir a p q :
  aspace k free pgdir -> valid (SFrame (a / 4096)) -> present (pte k pgdir (a / 4096)) = false ->
  mapped1 k k1 free free1 pgdir a p -> metapage k1 free1 pgdir q -> metapage k free pgdir q.
Proof.
  intros Ha Hva Habs [H1 _ H2 _ _ _ H5] [Hq Hnf]. split; [by apply H5|]. intros n Hn E. apply (Hnf n Hn).
  simpl in *. rewrite H2 by by apply valid_upage. case_decide as En; [|done]. subst n. by rewrite Habs in E.
Qed.

Lemma grown_step k k1 k' free free1 free' pgdir a b p :
  aspace k free pgdir -> valid (SFrame (a / 4096)) -> a mod 4096 = 0 -> a < b ->
  present (pte k pgdir (a / 4096)) = false ->
  mapped1 k k1 free free1 pgdir a p -> grown k1 k' free1 free' pgdir (a + 4096) b ->
  grown k k' free free' pgdir a b.
Proof.
  intros Ha Hva Hal Hab Habs Hm [G1 G2 G3 G4 G5 G6]. pose proof Hm as [H1 Hp H2 Hz H3 H4 H5].
  assert (Hu : upage (a / 4096)) by by apply valid_upage.
  assert (Hpok : page_ok kend p) by (by eapply owned_page; [exact Ha|left]).
  assert (Hfr : place k1 pgdir (SFrame (a / 4096)) = Some p).
  { eapply entry_frame; [done|done|]. rewrite H2 by done. by rewrite decide_True. }
  assert (Hnext : ~ in_range (a + 4096) b (a / 4096)).
  { unfold in_range. pose proof (Z.div_mod a 4096 ltac:(lia)). lia. }
  split; [done| | | | |].
  - intros m Hmu Hr. apply next_page in Hr as [->|Hr]; [..|done|done].
    + exists p. split_and!; [done| |].
      * rewrite G3 by done. rewrite H2 by done. by rewrite decide_True.
      * intros x Hx. rewrite G4; [by apply Hz|]. intros q [Hq Hnf].
        apply (page_apart kend p q x Hpok); [|by intros ->; apply (Hnf (a / 4096))|done].
        by eapply owned_page.
    + destruct (G2 m Hmu Hr) as (q & Hq & E & Hqz). exists q. split_and!; [by apply H4|done|done].
  - intros m Hmu Hr. rewrite G3; [|done|].
    + rewrite H2 by done. case_decide as E; [|done]. subst m. destruct Hr. apply next_page; auto.
    + intros Hr'. apply Hr. apply next_page; auto.
  - eapply only_trans; [done|]. eapply only_weaken; [done|]. intros q. by eapply mapped1_meta.
  - intros q Hq. by apply H4, G5.
  - intros q. rewrite G6. apply H5.
Qed.

Lemma shrunk_step k k1 k' free free1 free' pgdir a lo b p :
  aspace k free pgdir -> valid (SFrame (a / 4096)) -> lo <= a -> a mod 4096 = 0 -> a < b ->
  present (pte k pgdir (a / 4096)) = false ->
  mapped1 k k1 free free1 pgdir a p -> shrunk k1 k' free1 free' pgdir lo b ->
  shrunk k k' free free' pgdir lo b.
Proof.
  intros Ha Hva Hlo Hal Hab Habs Hm [G1 G2 G3 G4 G5]. pose proof Hm as [H1 Hp H2 Hz H3 H4 H5].
  assert (Hpok : page_ok kend p) by (by eapply owned_page; [exact Ha|left]).
  split; [done|done| | |].
  - intros m Hmu Hr. rewrite G3, H2 by done. case_decide as E; [|done]. subst m. destruct Hr.
    unfold in_range. pose proof (Z.div_mod a 4096 ltac:(lia)). lia.
  - eapply only_trans; [eapply only_weaken; [exact H3|by left]|]. eapply only_weaken; [exact G4|].
    intros q [Hq|(n & Hn & Hr & E)]; [left; by eapply mapped1_meta|].
    destruct (decide (n = a / 4096)) as [->|Hne].
    + left. simpl in E. rewrite H2 in E by by apply valid_upage. rewrite decide_True in E by done.
      destruct (entry_spec kend p (Z.lor PTE_W PTE_U) Hpok) as (_ & Hpr & Htab & _); [done|].
      rewrite Hpr, Htab in E. injection E as <-. by eapply meta_free.
    + right. exists n. split_and!; [done|done|]. simpl in *. rewrite H2 in E by by apply valid_upage. by case_decide.
  - intros q. rewrite G5. apply H5.
Qed.

(** Taking a page off the free list changes no user page. *)
Lemma take_meta k k2 t free pgdir q :
  (forall m, upage m -> pte k2 pgdir m = pte k pgdir m) ->
  (forall p, owned k (t :: free) pgdir p <-> p = t \/ owned k2 free pgdir p) ->
  metapage k2 free pgdir q -> metapage k (t :: free) pgdir q.
Proof.
  intros Hpte Hown [Hq Hnf]. split; [apply Hown; by right|]. intros n Hn.
  rewrite <- (frame_pte k k2); [by apply Hnf|by apply valid_upage|by apply Hpte, valid_upage].
Qed.

Lemma taken_mapped k k2 k3 t free free' pgdir a :
  aspace k (t :: free) pgdir -> aspace k2 free pgdir -> spare k2 free pgdir t ->
  (forall m, upage m -> pte k2 pgdir m = pte k pgdir m) ->
  only k k2 (fun p => p = t) -> (forall x, t <= x < t + PGSIZE -> mem k2 x = 0) ->
  (forall p, owned k (t :: free) pgdir p <-> p = t \/ owned k2 free pgdir p) ->
  aspace k3 free' pgdir ->
  (forall m, upage m -> pte k3 pgdir m = if decide (m = a / 4096) then entry t (Z.lor PTE_W PTE_U) else pte k2 pgdir m) ->
  only k2 k3 (metapage k2 free pgdir) -> (forall p, p ∈ free' -> p ∈ free) ->
  (forall p, owned k3 free' pgdir p <-> p = t \/ owned k2 free pgdir p) ->
  mapped1 k k3 (t :: free) free' pgdir a t.
Proof.
  intros Ha Ha2 Hs Hpte2 Ho2 Hz Hown2 Ha3 Hpte3 Ho3 Hsub Hown3.
  apply (spare_owned kend) in Hs as [Ht Hno]. split; [done|left| | | | |].
  - intros m Hm. rewrite Hpte3 by done. case_decide; [done|]. by apply Hpte2.
  - intros x Hx. rewrite Ho3; [by apply Hz|]. intros q [Hq _].
    apply (page_apart kend t q x Ht); [by eapply (owned_page _ k2)|by intros ->|done].
  - eapply only_trans; [eapply only_weaken; [exact Ho2|]|eapply only_weaken; [exact Ho3|]].
    + intros p ->. eapply meta_free; [exact Ha|left].
    + intros p. by apply take_meta.
  - intros q Hq. right. by apply Hsub.
  - intros q. rewrite Hown3. symmetry. apply Hown2.
Qed.

Lemma taken_back k k2 kd ks t free free' pgdir a b :
  aspace k (t :: free) pgdir ->
  (forall m, upage m -> pte k2 pgdir m = pte k pgdir m) ->
  only k k2 (fun p => p = t) ->
  (forall p, owned k (t :: free) pgdir p <-> p = t \/ owned k2 free pgdir p) ->
  freed k2 kd free free' pgdir a b ->
  aspace ks (t :: free') pgdir -> (forall m, upage m -> pte ks pgdir m = pte kd pgdir m) ->
  only kd ks (fun q => q = t) ->
  (forall q, owned ks (t :: free') pgdir q <-> q = t \/ owned kd free' pgdir q) ->
  shrunk k ks (t :: free) (t :: free') pgdir a b.
Proof.
  intros Ha Hpte2 Ho2 Hown2 Hfr Has Hptes Hos Howns. pose proof (fr_owned _ _ _ _ _ _ _ Hfr) as Hownd.
  apply freed_shrunk in Hfr. destruct Hfr as [G1 G2 G3 G4 G5].
  assert (Hmt : freeing k (t :: free) pgdir a b t) by (left; eapply meta_free; [exact Ha|left]).
  split; [done| | | |].
  - intros m Hm Hr. rewrite Hptes by done. by apply G2.
  - intros m Hm Hr. rewrite Hptes, G3 by done. by apply Hpte2.
  - eapply only_trans; [eapply only_weaken; [exact Ho2|by intros ? ->]|].
    eapply only_trans; [eapply only_weaken; [exact G4|]|eapply only_weaken; [exact Hos|by intros ? ->]].
    intros q [Hq|(n & Hn & Hr & E)]; [left; by eapply take_meta|right].
    exists n. split_and!; [done|done|]. rewrite <- (frame_pte k k2); [done|by apply valid_upage|by apply Hpte2, valid_upage].
  - intros q. rewrite Howns, Hown2, Hownd. done.
Qed.

Lemma allocuvm_from_spec fuel k free pgdir a oldsz newsz :
  aspace k free pgdir -> 0 <= oldsz <= a -> a mod 4096 = 0 -> newsz < KERNBASE ->
  (forall m, upage m -> in_range a newsz m -> present (pte k pgdir m) = false) ->
  (1 <= fuel)%nat -> newsz - a <= 4096 * (Z.of_nat fuel - 1) ->
  exists k' free' ok, allocuvm_from kend fuel k pgdir a oldsz newsz = Ret (k', ok) /\
    (if ok : bool then grown k k' free free' pgdir a newsz else shrunk k k' free free' pgdir oldsz newsz) /\
    (forall q, newsz - a <= 4096 * q -> 2 * q <= Z.of_nat (length free) -> ok = true).
Proof.
  revert k free a. induction fuel as [|fuel IH]; intros k free a Ha Ho Hal Hnew Habs Hf1 Hf; [lia|].
  cbn [allocuvm_from]. destruct (Z.ltb_spec a newsz) as [Han|Han].
  2: { exists k, free, true. split; [done|]. split; [|done]. split; [done| |done|done|done|done].
    intros m _ Hr. unfold in_range in Hr. lia. }
  pose proof (Z.div_mod a 4096 ltac:(lia)) as Hdiv. rewrite Hal in Hdiv.
  assert (Hva : valid (SFrame (a / 4096))) by (simpl; change UPAGES with 524288; unfold KERNBASE in *; lia).
  assert (Hr : in_range a newsz (a / 4096)) by (apply next_page; auto).
  assert (Habs1 : present (pte k pgdir (a / 4096)) = false) by (apply Habs; [by apply valid_upage|done]).
  destruct free as [|t free].
  { destruct (kalloc_spec _ _ _ (as_free _ _ _ _ Ha)) as [_ ->]. cbn [Z.eqb].
    destruct (deallocuvm_spec k [] pgdir newsz oldsz) as (k' & free' & -> & Hfr); [done|lia|lia|].
    exists k', free', false. split; [done|]. split; [by apply freed_shrunk|]. intros q. simpl. lia. }
  destruct (take_page _ _ _ _ Ha) as (k1 & -> & Ht0 & Ha2 & Hs2 & Hpte2 & Ho2 & Hz2 & Hown2).
  destruct (Z.eqb_spec t 0); [done|]. set (k2 := clear k1 t) in *. clearbody k2.
  destruct (mappages_page kend k2 free pgdir a t (Z.lor PTE_W PTE_U)) as (k3 & r & -> & Hm);
    [done|lia|done|done|done|by rewrite Hpte2 by by apply valid_upage|].
  cbn [obind]. destruct Hm as [(-> & -> & ->)|(-> & free' & Ha3 & Hpte3 & Ho3 & Hsub & Hown3 & Hlen)].
  - change (-1 <? 0) with true. cbv iota.
    destruct (deallocuvm_spec k2 [] pgdir newsz oldsz) as (kd & fd & -> & Hfr); [done|lia|lia|]. cbn [obind].
    assert (Hsd : spare kd fd pgdir t).
    { apply (spare_owned kend). rewrite (fr_owned _ _ _ _ _ _ _ Hfr). by apply (spare_owned kend). }
    destruct (free_spare kd fd pgdir t (fr_aspace _ _ _ _ _ _ _ Hfr) Hsd) as (ks & -> & Has & Hptes & Hos & Howns).
    exists ks, (t :: fd), false. split; [done|]. split; [by eapply taken_back|]. intros q. simpl. lia.
  - change (0 <? 0) with false. cbv iota.
    assert (Hm1 : mapped1 k k3 (t :: free) free' pgdir a t) by by eapply taken_mapped.
    assert (Hstep : u32 (a + PGSIZE) = a + 4096).
    { unfold PGSIZE. apply u32_small. unfold is_u32, KERNBASE in *. lia. }
    rewrite Hstep. destruct (IH k3 free' (a + 4096)) as (k' & f' & ok & -> & Hk' & Hq); [done|lia| |done| |lia|lia|].
    { rewrite Zplus_mod, Hal. done. }
    { intros m Hm Hrm. rewrite Hpte3 by done. case_decide as E.
      - subst m. unfold in_range in Hrm. lia.
      - rewrite Hpte2 by done. apply Habs; [done|]. apply next_page; auto. }
    exists k', f', ok. split; [done|]. split.
    + destruct ok; [by eapply grown_step|]. eapply (shrunk_step k k3); try done; lia.
    + intros q Hq1 Hq2. apply (Hq (q - 1)); simpl in *; lia.
Qed.

Lemma allocuvm_spec k free pgdir oldsz newsz :
  aspace k free pgdir -> 0 <= oldsz <= newsz -> newsz < KERNBASE ->
  (forall m, upage m -> in_range oldsz newsz m -> present (pte k pgdir m) = false) ->
  exists k' free' ok, allocuvm kend k pgdir oldsz newsz = Ret (k', if ok : bool then newsz else 0) /\
    (if ok then grown k k' free free' pgdir oldsz newsz else shrunk k k' free free' pgdir oldsz newsz) /\
    (forall q, newsz - oldsz <= 4096 * q -> 2 * q <= Z.of_nat (length free) -> ok = true).
Proof.
  intros Ha Hold Hnew Habs.
  unfold allocuvm. destruct (Z.leb_spec KERNBASE newsz); [lia|]. destruct (Z.ltb_spec newsz oldsz); [lia|].
  destruct (PGROUNDUP_spec oldsz) as [Hup Hal]; [lia|unfold PGSIZE, KERNBASE in *; lia|].
  unfold PGSIZE in Hup, Hal. set (a := PGROUNDUP oldsz) in *.
  assert (Hsame : forall m, in_range oldsz newsz m <-> in_range a newsz m).
  { intros m. unfold in_range. pose proof (Z.div_mod a 4096 ltac:(lia)). lia. }
  destruct (allocuvm_from_spec (alloc_fuel a newsz) k free pgdir a oldsz newsz)
    as (k' & free' & ok & -> & Hk' & Hq); [done|lia|done|lia| |unfold alloc_fuel; lia| |].
  { intros m Hm Hr. apply Habs; [done|]. by apply Hsame. }
  { unfold alloc_fuel, PGSIZE. pose proof (Z.div_mod (newsz - a) 4096 ltac:(lia)).
    pose proof (Z.mod_pos_bound (newsz - a) 4096 ltac:(lia)). lia. }
  cbn [obind]. exists k', free', ok. split; [done|]. split; [|intros q Hq1; apply Hq; lia]. destruct ok; [|done].
  destruct Hk' as [H1 H2 H3 H4 H5 H6]. split; [done| | |done..]; intros m Hm Hr.
  - apply H2; [done|]. by apply Hsame.
  - apply H3; [done|]. intros Hr'. apply Hr. by apply Hsame.
Qed.

End thms.

(** A user page outside the range keeps its contents. *)
Lemma frame_survives kend k k' free pgdir a b n p x :
  aspace kend k free pgdir -> only k k' (freeing k free pgdir a b) -> valid (SFrame n) ->
  ~ in_range a b n -> place k pgdir (SFrame n) = Some p -> p <= x < p + PGSIZE -> mem k' x = mem k x.
Proof.
  intros Ha Ho Hn Hr E Hx. apply Ho. intros q Hq.
  destruct (as_page _ _ _ _ Ha _ _ Hn E) as [Hp _].
  assert (page_ok kend q /\ q <> p) as [Hqok Hqp].
  { destruct Hq as [[Hq Hnf]|(m & Hm & Hrm & E')].
    - split; [by eapply owned_page|]. intros ->. by apply (Hnf n Hn).
    - split; [by apply (as_page _ _ _ _ Ha _ _ Hm E')|]. intros ->.
      by assert (SFrame m = SFrame n) as [= ->] by (by apply (as_inj _ _ _ _ Ha _ _ p)). }
  by apply (page_apart kend p q x Hp Hqok).
Qed.

(** A cleared page is an address space that maps nothing. *)
Lemma cleared_place kend k pgdir :
  page_ok kend pgdir -> (forall x, pgdir <= x < pgdir + PGSIZE -> mem k x = 0) ->
  (forall m, upage m -> pte k pgdir m = 0) /\
  forall s p, valid s -> place k pgdir s = Some p -> s = SDir /\ p = pgdir.
Proof.
  intros Hp Hz.
  assert (Hpde : forall i, 0 <= i < 1024 -> pde_at k pgdir i = 0).
  { intros i Hi. apply ld_zero. intros x Hx. apply Hz.
    destruct (word_at pgdir i (proj1 Hp) Hi) as (? & ? & _). lia. }
  assert (Hpte : forall m, upage m -> pte k pgdir m = 0).
  { intros m Hm. unfold pte. by rewrite Hpde by by apply upage_div. }
  split; [done|].
  intros [|i|m] p Hs; simpl; [by intros [= <-]|by rewrite Hpde|by rewrite Hpte by by apply valid_upage].
Qed.

Lemma empty_aspace kend k free pgdir :
  free_pages kend k free -> page_ok kend pgdir -> pgdir ∉ free ->
  (forall x, pgdir <= x < pgdir + PGSIZE -> mem k x = 0) ->
  aspace kend k free pgdir /\ forall m, upage m -> pte k pgdir m = 0.
Proof.
  intros Hf Hp Hnf Hz. destruct (cleared_place kend k pgdir Hp Hz) as [Hpte Hpl].
  split; [|done]. split; [done| |].
  - intros s p Hs E. by destruct (Hpl s p Hs E) as [-> ->].
  - intros s s' p Hs Hs' E E'. by destruct (Hpl s p Hs E) as [-> _], (Hpl s' p Hs' E') as [-> _].
Qed.

(** ** Properties *)

(** [deallocuvm] of an address space returns [newsz] and unmaps exactly
    the user pages from [newsz] up: their page frames go to the free list,
    every other entry and the contents of every other user page stay, and no
    page is lost or shared between the two. *)
Theorem deallocuvm_frees kend k free pgdir oldsz newsz
    (Hkend : KERNBASE < kend) (Ha : aspace kend k free pgdir)
    (Hnew : 0 <= newsz < oldsz) (Hold : oldsz <= KERNBASE) :
  exists k' free', deallocuvm kend k pgdir oldsz newsz = Ret (k', newsz) /\
    aspace kend k' free' pgdir /\
    (forall m, upage m -> pte k' pgdir m =
       if decide (newsz <= 4096 * m < oldsz /\ present (pte k pgdir m) = true) then 0 else pte k pgdir m) /\
    (forall n p, valid (SFrame n) -> newsz <= 4096 * n < oldsz -> place k pgdir (SFrame n) = Some p -> p ∈ free') /\
    (forall n p x, valid (SFrame n) -> ~ newsz <= 4096 * n < oldsz -> place k pgdir (SFrame n) = Some p ->
       p <= x < p + PGSIZE -> mem k' x = mem k x) /\
    (forall p, owned k' free' pgdir p <-> owned k free pgdir p).
Proof.
  destruct (deallocuvm_spec kend Hkend k free pgdir oldsz newsz Ha Hnew Hold) as (k' & free' & -> & Hfr).
  exists k', free'. destruct Hfr as [Ha' Hpte Ho _ Hfrm Hown]. split_and!; [done|done|done|exact Hfrm| |done].
  intros n p x Hn Hr E Hx. by eapply frame_survives.
Qed.

(** C4.  [allocuvm] below [KERNBASE] over pages that are not mapped never
    panics.  It returns [newsz] with every page of the range mapped writable
    and user-accessible to a zeroed page taken off the free list; or, out of
    memory, it returns 0 with the range unmapped again and every page it took
    given back (to the free list, or as a page table).  Either way every other
    entry and the contents of every user page stay, no page is lost, and no
    page plays two parts. *)
Theorem allocuvm_maps kend k free pgdir oldsz newsz
    (Hkend : KERNBASE < kend) (Ha : aspace kend k free pgdir)
    (Hold : 0 <= oldsz <= newsz) (Hnew : newsz < KERNBASE)
    (Habs : forall m, upage m -> oldsz <= 4096 * m < newsz -> present (pte k pgdir m) = false) :
  exists k' free' r, allocuvm kend k pgdir oldsz newsz = Ret (k', r) /\
    aspace kend k' free' pgdir /\
    (forall m, upage m -> ~ oldsz <= 4096 * m < newsz -> pte k' pgdir m = pte k pgdir m) /\
    (forall n p x, valid (SFrame n) -> place k pgdir (SFrame n) = Some p ->
       p <= x < p + PGSIZE -> mem k' x = mem k x) /\
    (forall p, owned k' free' pgdir p <-> owned k free pgdir p) /\
    ((r = newsz /\ forall m, upage m -> oldsz <= 4096 * m < newsz ->
        exists p, p ∈ free /\ pte k' pgdir m = entry p (Z.lor PTE_W PTE_U) /\
          forall x, p <= x < p + PGSIZE -> mem k' x = 0) \/
     (r = 0 /\ forall m, upage m -> oldsz <= 4096 * m < newsz -> present (pte k' pgdir m) = false)).
Proof.
  destruct (allocuvm_spec kend Hkend k free pgdir oldsz newsz Ha Hold Hnew Habs) as (k' & free' & ok & -> & Hk' & _).
  assert (Hnone : forall n p, valid (SFrame n) -> place k pgdir (SFrame n) = Some p -> ~ in_range oldsz newsz n).
  { intros n p Hn E Hr. simpl in E. rewrite Habs in E; [done|by apply valid_upage|done]. }
  exists k', free', (if ok then newsz else 0). split; [done|]. destruct ok.
  - destruct Hk' as [H1 H2 H3 H4 H5 H6]. split_and!; [done|done| |done|by left].
    intros n p x Hn E Hx. eapply (frame_survives kend k k' free pgdir oldsz newsz); eauto.
    eapply only_weaken; [exact H4|by left].
  - destruct Hk' as [H1 H2 H3 H4 H6]. split_and!; [done|done| |done|by right].
    intros n p x Hn E Hx. by eapply (frame_survives kend k k' free pgdir oldsz newsz); eauto.
Qed.

(** Three pages: two free ones and an empty directory. *)
Definition page (i : Z) : Z := KERNBASE + 4096 * i.
Definition three_pages : kmem :=
  {| mem := put32 (fun _ => 0) (page 2) (page 3); use_lock := true; freelist := page 2 |}.

Lemma page_page_ok i : 1 <= i < 10 -> page_ok (page 1) (page i).
Proof.
  intros Hi. unfold page_ok, page, PGSIZE, KERNBASE, PHYSTOP. split; [|lia].
  replace (2147483648 + 4096 * i) with ((524288 + i) * 4096) by lia. by apply Z.mod_mul.
Qed.

Lemma three_pages_zero x : page 4 <= x -> mem three_pages x = 0.
Proof. intros Hx. unfold three_pages. cbn [mem]. apply put32_out. unfold page in *. lia. Qed.

Lemma three_pages_ok :
  aspace (page 1) three_pages [page 2; page 3] (page 4) /\ forall m, upage m -> pte three_pages (page 4) m = 0.
Proof.
  apply empty_aspace; [|by apply page_page_ok| |].
  - split; [vm_compute; intuition congruence| |].
    + repeat constructor; by apply page_page_ok.
    + apply NoDup_cons. split; [|apply NoDup_singleton]. rewrite list_elem_of_singleton. unfold page. lia.
  - rewrite !elem_of_cons, elem_of_nil. unfold page. lia.
  - intros x Hx. apply three_pages_zero. lia.
Qed.

(** The page behind the directory is in use elsewhere. *)
Lemma three_pages_spare : spare (page 1) three_pages [page 2; page 3] (page 4) (page 5).
Proof.
  split; [by apply page_page_ok|]. split.
  - rewrite !elem_of_cons, elem_of_nil. unfold page. lia.
  - intros s Hs E. destruct (cleared_place (page 1) three_pages (page 4)) as [_ Hpl]; [by apply page_page_ok| |].
    + intros x Hx. apply three_pages_zero. lia.
    + destruct (Hpl s _ Hs E) as [_ Ep]. unfold page in Ep. lia.
Qed.

Lemma deallocuvm_frees_witness :
  exists k' free', deallocuvm (page 1) three_pages (page 4) 8192 0 = Ret (k', 0) /\
    aspace (page 1) k' free' (page 4).
Proof.
  destruct three_pages_ok as [Ha _].
  destruct (deallocuvm_frees (page 1) three_pages [page 2; page 3] (page 4) 8192 0) as (k' & free' & E & H & _);
    [unfold page; lia|exact Ha|lia|unfold KERNBASE; lia|].
  exists k', free'. split; [exact E|exact H].
Defined.

Lemma allocuvm_maps_witness :
  exists k' free' r, allocuvm (page 1) three_pages (page 4) 0 4096 = Ret (k', r) /\
    aspace (page 1) k' free' (page 4).
Proof.
  destruct three_pages_ok as [Ha Hz].
  destruct (allocuvm_maps (page 1) three_pages [page 2; page 3] (page 4) 0 4096) as (k' & free' & r & E & H & _);
    [unfold page; lia|exact Ha|lia|unfold KERNBASE; lia|intros m Hm _; by rewrite Hz|].
  exists k', free', r. split; [exact E|exact H].
Defined.

End VmThms.
