(* ===== verification/VmLife.v ===== *)
(** * The life of an address space

    [setupkvm], [clearpteu], [copyout], [loaduvm] and [freevm] on the address
    spaces of [VmSpec]: what they map, what they write, and that a freed
    address space gives every one of its pages back. *)

From S2P Require Import Prelude DfsImage Kalloc Vm VmSpec VmThms.
Import Kalloc Vm VmSpec VmThms.
Local Open Scope Z_scope.
Local Open Scope xv6_scope.

Module VmLife.

Section life.
Context (kend data : Z) (Hkend : KERNBASE < kend).
Notation page_ok := (page_ok kend).
Notation free_pages := (free_pages kend).
Notation aspace := (aspace kend).

(** The bytes of page [p]. *)
Definition inside (p x : Z) : Prop := p <= x < p + PGSIZE.

Lemma ld_same k k' p b : word_in p b -> (forall x, inside p x -> mem k' x = mem k x) -> ld k' b = ld k b.
Proof. intros (? & ? & _) Hm. apply ld_ext. intros x Hx. apply Hm. unfold inside. lia. Qed.

Lemma free_pages_same k k' free :
  free_pages k free -> freelist k' = freelist k ->
  (forall p x, p ∈ free -> inside p x -> mem k' x = mem k x) -> free_pages k' free.
Proof.
  intros [Hc Hok Hnd] Hfl Hm. split; [|done|done]. rewrite Hfl. eapply chain_ext; [done| |done]. exact Hm.
Qed.

(** Memories that agree on the directory and the tables. *)
Lemma entries_same k k' free pgdir :
  aspace k free pgdir ->
  (forall s p x, valid s -> is_frame s = false -> place k pgdir s = Some p -> inside p x -> mem k' x = mem k x) ->
  (forall i, 0 <= i < 1024 -> pde_at k' pgdir i = pde_at k pgdir i) /\
  (forall n, upage n -> pte k' pgdir n = pte k pgdir n).
Proof.
  intros Ha Hm. destruct (as_dir _ _ _ _ Ha) as [Hd _].
  assert (Hpde : forall i, 0 <= i < 1024 -> pde_at k' pgdir i = pde_at k pgdir i).
  { intros i Hi. unfold pde_at. apply (ld_same k k' pgdir); [apply word_at; [apply Hd|done]|].
    intros x. by apply (Hm SDir). }
  split; [done|]. intros n Hn. pose proof (upage_div n Hn) as Hi. unfold pte. rewrite Hpde by done.
  destruct (present (pde_at k pgdir (n / 1024))) eqn:Hp; [|done].
  destruct (as_tab _ _ _ _ _ Ha Hi Hp) as (Ht & _).
  apply (ld_same k k' (pgtab_of (pde_at k pgdir (n / 1024)))); [apply word_at; [apply Ht|apply mod1024]|].
  intros x. apply (Hm (STab (n / 1024))); [done|done|]. simpl. by rewrite Hp.
Qed.

(** An address space survives what happens outside its pages and the free
    ones, even when other pages are taken off the free list. *)
Lemma aspace_same k k' free free' pgdir :
  aspace k free pgdir -> free_pages k' free' -> (forall p, p ∈ free' -> p ∈ free \/ ~ owned k free pgdir p) ->
  (forall s p x, valid s -> is_frame s = false -> place k pgdir s = Some p -> inside p x -> mem k' x = mem k x) ->
  aspace k' free' pgdir /\
  (forall i, 0 <= i < 1024 -> pde_at k' pgdir i = pde_at k pgdir i) /\
  (forall n, upage n -> pte k' pgdir n = pte k pgdir n).
Proof.
  intros Ha Hf Hsub Hm. destruct (entries_same k k' free pgdir Ha Hm) as [Hpde Hpte].
  split; [|done]. pose proof (place_agree _ _ _ Hpde Hpte) as Hpl. split; [done| |].
  - intros s p Hs. rewrite Hpl by done. intros E. destruct (as_page _ _ _ _ Ha s p Hs E) as [Hp Hnf].
    split; [done|]. intros Hin. destruct (Hsub p Hin) as [?|Hno]; [done|]. apply Hno. right. by exists s.
  - intros s s' p Hs Hs'. rewrite !Hpl by done. by apply (as_inj _ _ _ _ Ha).
Qed.

(** The same with the same free list. *)
Lemma aspace_meta k k' free pgdir :
  aspace k free pgdir -> freelist k' = freelist k ->
  (forall p x, metapage k free pgdir p -> inside p x -> mem k' x = mem k x) ->
  aspace k' free pgdir /\
  (forall i, 0 <= i < 1024 -> pde_at k' pgdir i = pde_at k pgdir i) /\
  (forall n, upage n -> pte k' pgdir n = pte k pgdir n).
Proof.
  intros Ha Hfl Hm. apply (aspace_same k k' free); [done| |by left|].
  - apply (free_pages_same k); [apply (as_free _ _ _ _ Ha)|done|].
    intros p x Hp. apply Hm. by eapply meta_free.
  - intros s p x Hs Hf E. apply Hm. by eapply meta_place.
Qed.

Lemma owned_same k k' free pgdir p :
  (forall s, valid s -> place k' pgdir s = place k pgdir s) -> owned k' free pgdir p <-> owned k free pgdir p.
Proof.
  intros Hpl. unfold owned. split; (intros [?|(s & Hs & E)]; [by left|right; exists s; split; [done|]]).
  - by rewrite <- Hpl.
  - by rewrite Hpl.
Qed.

(** ** freevm *)

(** The table of directory entry [i], when there is one. *)
Definition table (k : kmem) (pgdir i : Z) : option Z := place k pgdir (STab i).

Lemma free_tables_spec pgdir ixs : page_ok pgdir -> forall k free,
  free_pages k free -> NoDup ixs -> Forall (fun i => 0 <= i < 1024) ixs ->
  (forall i p, i ∈ ixs -> table k pgdir i = Some p -> page_ok p /\ p ∉ free /\ p <> pgdir) ->
  (forall i j p, i ∈ ixs -> j ∈ ixs -> table k pgdir i = Some p -> table k pgdir j = Some p -> i = j) ->
  exists k' free', free_tables kend k pgdir ixs = Ret k' /\ free_pages k' free' /\
    (forall p, p ∈ free' <-> p ∈ free \/ exists i, i ∈ ixs /\ table k pgdir i = Some p) /\
    only k k' (fun p => exists i, i ∈ ixs /\ table k pgdir i = Some p).
Proof.
  intros Hd. induction ixs as [|i ixs IH]; intros k free Hf Hnd Hix Hok Hinj; cbn [free_tables].
  { exists k, free. split_and!; [done|done| |done]. intros p. split; [by left|].
    intros [?|(i & Hi & _)]; [done|]. by apply elem_of_nil in Hi. }
  apply NoDup_cons in Hnd as [Hi Hnd]. apply Forall_cons in Hix as [Hir Hix].
  change (ld k (pgdir + 4 * i)) with (pde_at k pgdir i).
  assert (Hstep : forall k1 free1, free_pages k1 free1 ->
    (forall j, j ∈ ixs -> table k1 pgdir j = table k pgdir j) ->
    (forall p, p ∈ free1 <-> p ∈ free \/ table k pgdir i = Some p) -> only k k1 (fun p => table k pgdir i = Some p) ->
    exists k' free', free_tables kend k1 pgdir ixs = Ret k' /\ free_pages k' free' /\
      (forall p, p ∈ free' <-> p ∈ free \/ exists j, j ∈ i :: ixs /\ table k pgdir j = Some p) /\
      only k k' (fun p => exists j, j ∈ i :: ixs /\ table k pgdir j = Some p)).
  { intros k1 free1 Hf1 Ht1 Hfr1 Ho1. destruct (IH k1 free1 Hf1 Hnd Hix) as (k' & free' & E & Hf' & Hfr' & Ho').
    - intros j p Hj. rewrite Ht1 by done. intros Ep. destruct (Hok j p) as (? & Hnf & ?); [by right|done|].
      split_and!; [done| |done]. rewrite Hfr1. intros [?|E]; [done|].
      apply Hi. by rewrite (Hinj i j p) by (done || by (left + right)).
    - intros j j' p Hj Hj'. rewrite !Ht1 by done. apply Hinj; by right.
    - exists k', free'. split_and!; [done|done| |].
      + intros p. rewrite Hfr', Hfr1. setoid_rewrite elem_of_cons. split.
        * intros [[?|?]|(j & Hj & Ep)]; [by left|right; exists i; by (split; [left|])|].
          right. exists j. rewrite <- Ht1 by done. by (split; [right|]).
        * intros [?|(j & [->|Hj] & Ep)]; [by left; left|by left; right|]. right. exists j. by rewrite Ht1.
      + eapply only_trans; (eapply only_weaken; [eassumption|]); cbv beta.
        * intros p Ep. exists i. by (split; [left|]).
        * intros p (j & Hj & Ep). rewrite Ht1 in Ep by done. exists j. by (split; [right|]). }
  destruct (present (pde_at k pgdir i)) eqn:Hp.
  - assert (Ep : table k pgdir i = Some (pgtab_of (pde_at k pgdir i))) by (unfold table; simpl; by rewrite Hp).
    destruct (Hok i _ ltac:(left) Ep) as (Hpg & Hnf & Hne).
    destruct (kfree_spec kend k free _ Hf Hpg Hnf) as (k1 & -> & Hf1 & Hout & _). cbn [obind].
    apply (Hstep k1 (pgtab_of (pde_at k pgdir i) :: free)); [done| | |].
    + intros j Hj. rewrite Forall_forall in Hix. unfold table. simpl. 
      assert (pde_at k1 pgdir j = pde_at k pgdir j) as ->; [|done].
      apply (ld_same k k1 pgdir); [apply word_at; [apply Hd|by apply Hix]|]. intros x Hx. apply Hout.
      destruct (pages_disjoint _ pgdir (proj1 Hpg) (proj1 Hd) Hne); unfold inside in Hx; lia.
    + intros p. rewrite elem_of_cons, Ep. split; [intros [->|?]; [by right|by left]|intros [?|[= ->]]; [by right|by left]].
    + intros x Hx. apply Hout. specialize (Hx _ Ep). lia.
  - apply (Hstep k free); [done|done| |done]. intros p. unfold table. simpl. rewrite Hp. split; [by left|by intros [?|?]].
Qed.

(** [freevm] gives back the directory, the tables and the user pages, each
    once, and writes to nothing else but free pages. *)
Lemma freevm_spec k free pgdir :
  aspace k free pgdir ->
  exists k' free', freevm kend k pgdir = Ret k' /\ free_pages k' free' /\
    (forall p, p ∈ free' <-> owned k free pgdir p) /\ only k k' (owned k free pgdir).
Proof.
  intros Ha. destruct (as_dir _ _ _ _ Ha) as [Hd Hdf]. unfold freevm.
  destruct (Z.eqb_spec pgdir 0) as [->|_]; [pose proof (page_ok_range _ _ Hd); lia|].
  destruct (deallocuvm_spec kend Hkend k free pgdir KERNBASE 0 Ha) as (k1 & free1 & -> & Hfr); [done|done|].
  destruct Hfr as [Ha1 Hpte1 Ho1 Hsub1 _ Hown1]. cbn [obind].
  destruct (as_dir _ _ _ _ Ha1) as [_ Hdf1].
  assert (Hnone : forall n p, valid (SFrame n) -> place k1 pgdir (SFrame n) <> Some p).
  { intros n p Hn. simpl. rewrite Hpte1 by by apply valid_upage. unfold cleared.
    case_decide as E; [done|]. destruct (present (pte k pgdir n)) eqn:Hp; [|done]. destruct E. split; [|done].
    unfold in_range. unfold valid, UPAGES in Hn. change (KERNBASE / PGSIZE) with 524288 in Hn. unfold KERNBASE. lia. }
  destruct (free_tables_spec pgdir (seqZ 0 NPDENTRIES) Hd k1 free1 (as_free _ _ _ _ Ha1))
    as (k2 & free2 & -> & Hf2 & Hfr2 & Ho2).
  { apply NoDup_seqZ. }
  { apply Forall_forall. intros i Hi%elem_of_seqZ. unfold NPDENTRIES in Hi. lia. }
  { intros i p Hi%elem_of_seqZ E. destruct (as_page _ _ _ _ Ha1 (STab i) p) as [? ?]; [unfold NPDENTRIES in Hi; simpl; lia|done|].
    split_and!; [done|done|]. intros ->. by assert (STab i = SDir) by (apply (as_inj _ _ _ _ Ha1 _ _ pgdir); unfold NPDENTRIES in Hi; simpl in *; lia || done). }
  { intros i j p Hi%elem_of_seqZ Hj%elem_of_seqZ E E'. unfold NPDENTRIES in *.
    by assert (STab i = STab j) as [= ->] by (apply (as_inj _ _ _ _ Ha1 _ _ p); simpl; lia || done). }
  cbn [obind]. destruct (kfree_spec kend k2 free2 pgdir Hf2 Hd) as (k3 & -> & Hf3 & Hout & _).
  { rewrite Hfr2. intros [?|(i & Hi%elem_of_seqZ & E)]; [done|]. unfold NPDENTRIES in *.
    by assert (STab i = SDir) by (apply (as_inj _ _ _ _ Ha1 _ _ pgdir); simpl; lia || done). }
  assert (Hall : forall p, owned k free pgdir p <-> p = pgdir \/ p ∈ free1 \/ exists i, i ∈ seqZ 0 NPDENTRIES /\ table k1 pgdir i = Some p).
  { intros p. rewrite <- Hown1. unfold owned. split.
    - intros [?|([|i|n] & Hs & E)]; [by right; left|injection E as <-; by left| |by destruct (Hnone n p)].
      right. right. exists i. split; [|done]. apply elem_of_seqZ. unfold NPDENTRIES. simpl in Hs. lia.
    - intros [->|[?|(i & Hi%elem_of_seqZ & E)]]; [right; by exists SDir|by left|].
      right. exists (STab i). split; [|done]. unfold NPDENTRIES in Hi. simpl. lia. }
  exists k3, (pgdir :: free2). split_and!; [done|done| |].
  - intros p. rewrite elem_of_cons, Hfr2, Hall. done.
  - eapply only_trans; [eapply only_weaken; [exact Ho1|]|eapply only_trans; [eapply only_weaken; [exact Ho2|]|]].
    + intros p [[Hp _]|(n & Hn & _ & E)]; [done|]. right. by exists (SFrame n).
    + intros p Hp. apply Hall. by right; right.
    + intros x Hx. apply Hout. specialize (Hx pgdir (proj2 (Hall pgdir) (or_introl eq_refl))). unfold inside in *. lia.
Qed.

(** ** setupkvm *)

(** An address space of kernel entries below [lo], none of which a user
    program can use. *)
Record fresh (k : kmem) (free : list Z) (pgdir lo : Z) : Prop := {
  fs_aspace : aspace k free pgdir;
  fs_user n : valid (SFrame n) -> present (pte k pgdir n) = false;
  fs_kernel n : upage n -> UPAGES <= n -> Z.land (pte k pgdir n) PTE_U = 0;
  fs_above n : upage n -> lo <= 4096 * n -> present (pte k pgdir n) = false
}.

Lemma fresh_weaken k free pgdir lo lo' : lo <= lo' -> fresh k free pgdir lo -> fresh k free pgdir lo'.
Proof. intros Hlo [H1 H2 H3 H4]. split; [done..|]. intros n Hn Hl. apply H4; [done|lia]. Qed.

Lemma kernel_entry pa perm :
  is_u32 pa -> pa mod 4096 = 0 -> perm = 0 \/ perm = PTE_W ->
  let w := Z.lor pa (Z.lor perm PTE_P) in is_u32 w /\ Z.land w PTE_U = 0.
Proof.
  intros Hpa Hal Hperm w. unfold w. split.
  - assert (0 <= Z.lor perm PTE_P < 4096) by (by destruct Hperm as [->| ->]).
    rewrite lor_page by done. unfold is_u32 in *. pose proof (Z.div_mod pa 4096 ltac:(lia)). lia.
  - rewrite Z.land_lor_distr_l. replace (Z.land (Z.lor perm PTE_P) PTE_U) with 0 by (by destruct Hperm as [->| ->]).
    rewrite Z.lor_0_r. change PTE_U with (Z.land (Z.ones 12) 4). rewrite Z.land_assoc, Z.land_ones by lia.
    change (2 ^ 12) with 4096. rewrite Hal. done.
Qed.

(** One kernel page mapped. *)
Lemma map_kernel_page k free pgdir a pa perm :
  fresh k free pgdir a -> KERNBASE <= a < 2 ^ 32 -> a mod 4096 = 0 ->
  is_u32 pa -> pa mod 4096 = 0 -> perm = 0 \/ perm = PTE_W ->
  exists k1 t, walkpgdir k pgdir a true = (k1, t) /\
    ((t = 0 /\ k1 = k /\ free = []) \/
     (t <> 0 /\ present (ld k1 t) = false /\
      exists free1, let k2 := st k1 t (Z.lor pa (Z.lor perm PTE_P)) in
        fresh k2 free1 pgdir (a + 4096) /\ only k k2 (metapage k free pgdir) /\
        (forall p, owned k2 free1 pgdir p <-> owned k free pgdir p))).
Proof.
  intros [Ha Hus Hkn Hab] Har Hal Hpa Hpal Hperm. assert (H32 : 0 <= a < 2 ^ 32) by (unfold KERNBASE in *; lia).
  destruct (walk_alloc kend _ _ _ _ Ha H32) as (k1 & t & E & Hw). exists k1, t. split; [done|].
  destruct Hw as [?|(free1 & Hk & Ht0 & -> & Hpr & _)]; [by left|]. right.
  pose proof (va_page a H32) as Hn. pose proof (kp_aspace _ _ _ _ _ _ Hk) as Ha1.
  pose proof (Z.div_mod a 4096 ltac:(lia)) as Hdiv. rewrite Hal in Hdiv.
  assert (Habs : ld k1 (tab_addr k1 pgdir (a / 4096)) = pte k pgdir (a / 4096)).
  { rewrite <- (kp_pte _ _ _ _ _ _ Hk) by done. unfold pte. by rewrite Hpr. }
  split; [done|]. split; [rewrite Habs; apply Hab; [done|lia]|]. exists free1. intros k2.
  destruct (kernel_entry pa perm Hpa Hpal Hperm) as [Hw Hu].
  assert (Hge : UPAGES <= a / 4096) by (change UPAGES with 524288; unfold KERNBASE in *; lia).
  destruct (set_pte kend k1 free1 pgdir (a / 4096) _ Ha1 Hn Hpr Hw) as (Ha2 & Hpde2 & Hpte2 & Ho2); [lia|].
  fold k2 in Ha2, Hpde2, Hpte2, Ho2. clearbody k2.
  assert (Hpte : forall m, upage m -> m <> a / 4096 -> pte k2 pgdir m = pte k pgdir m).
  { intros m Hm Hne. rewrite Hpte2 by done. rewrite decide_False by done. by apply (kp_pte _ _ _ _ _ _ Hk). }
  assert (Hpl : forall s, valid s -> place k2 pgdir s = place k1 pgdir s).
  { intros [|i|m] Hs; simpl; [done|by rewrite Hpde2|]. rewrite Hpte2 by by apply valid_upage.
    rewrite decide_False; [done|]. simpl in Hs. lia. }
  split_and!.
  - split; [done| | |].
    + intros m Hm. rewrite Hpte; [by apply Hus|by apply valid_upage|simpl in Hm; lia].
    + intros m Hm Hge'. destruct (decide (m = a / 4096)) as [->|]; [|rewrite Hpte by done; by apply Hkn].
      rewrite Hpte2 by done. by rewrite decide_True.
    + intros m Hm Hl. rewrite Hpte; [apply Hab; [done|lia]|done|lia].
  - eapply only_trans; [by eapply kept_only|]. eapply only_weaken; [exact Ho2|]. intros p ->.
    apply (kept_meta kend _ _ _ _ _ _ Ha Hk). apply (meta_place kend _ _ _ (STab (a / 4096 / 1024))); [done|by apply upage_div|done|].
    simpl. by rewrite Hpr.
  - intros p. rewrite <- (kp_owned _ _ _ _ _ _ Hk). by apply owned_same.
Qed.

Lemma metapage_owned k free pgdir p : metapage k free pgdir p -> owned k free pgdir p.
Proof. by intros [? _]. Qed.

Lemma only_owned k k1 k' free free1 pgdir :
  only k k1 (owned k free pgdir) -> only k1 k' (owned k1 free1 pgdir) ->
  (forall p, owned k1 free1 pgdir p <-> owned k free pgdir p) -> only k k' (owned k free pgdir).
Proof. intros H1 H2 Hown. eapply only_trans; [done|]. eapply only_weaken; [done|]. intros p. apply Hown. Qed.

Lemma mappages_kernel fuel pgdir last perm : perm = 0 \/ perm = PTE_W -> forall k free a pa,
  fresh k free pgdir a -> KERNBASE <= a <= last -> last + 4096 <= 2 ^ 32 -> a mod 4096 = 0 -> last mod 4096 = 0 ->
  is_u32 pa -> pa mod 4096 = 0 -> (last - a) / 4096 < Z.of_nat fuel ->
  exists k' r free', mappages_from fuel k pgdir a last pa perm = Ret (k', r) /\
    (r = -1 /\ free' = [] \/ r = 0) /\ fresh k' free' pgdir (if r =? 0 then last + 4096 else 2 ^ 32) /\
    only k k' (owned k free pgdir) /\ (forall p, owned k' free' pgdir p <-> owned k free pgdir p).
Proof.
  intros Hperm. induction fuel as [|fuel IH]; intros k free a pa Hk Ha Hl Hal Hll Hpa Hpal Hf.
  { pose proof (Z.div_pos (last - a) 4096). lia. }
  cbn [mappages_from]. destruct (map_kernel_page k free pgdir a pa perm) as (k1 & t & -> & Hw); [done|lia|done..|].
  destruct Hw as [(-> & -> & ->)|(Ht & Habs & free1 & Hw)].
  { exists k, (-1), []. split_and!; [done|by left| |done|done]. eapply fresh_weaken; [|done]. cbn. lia. }
  cbn zeta in Hw. rewrite (proj2 (Z.eqb_neq t 0)) by done. rewrite Habs.
  set (k2 := st k1 t _) in *. destruct Hw as (Hk2 & Ho2 & Hown2). clearbody k2.
  assert (Ho : only k k2 (owned k free pgdir)) by (eapply only_weaken; [done|apply metapage_owned]).
  destruct (Z.eqb_spec a last) as [->|Hne].
  { exists k2, 0, free1. split_and!; [done|by right|done|done|done]. }
  pose proof (Z.div_mod a 4096 ltac:(lia)). pose proof (Z.div_mod last 4096 ltac:(lia)).
  assert (a + 4096 <= last) by lia. unfold PGSIZE. rewrite (u32_small (a + 4096)) by (unfold is_u32, KERNBASE in *; lia).
  destruct (IH k2 free1 (a + 4096) (u32 (pa + 4096))) as (k' & r & free' & -> & Hr & Hk' & Ho' & Hown'); [done|lia|lia| |done|apply u32_range| | |].
  - rewrite Zplus_mod, Hal. done.
  - rewrite u32_mod_divides; [|lia|by exists (2 ^ 20)]. rewrite Zplus_mod, Hpal. done.
  - replace (last - a) with (last - (a + 4096) + 1 * 4096) in Hf by lia. rewrite Z.div_add in Hf by lia. lia.
  - exists k', r, free'. split_and!; [done|done|done|by eapply only_owned|]. intros p. by rewrite Hown', Hown2.
Qed.

Lemma length_omap_le {A B} (f : A -> option B) l : (length (omap f l) <= length l)%nat.
Proof. induction l as [|x l IH]; csimpl; [lia|]. destruct (f x); csimpl; lia. Qed.

(** How many pages an address space and the free list can have between them:
    those that are free, the directory, the tables, and the user pages. *)
Lemma owned_count k free pgdir b l :
  (forall n, valid (SFrame n) -> present (pte k pgdir n) = true -> n < b) -> NoDup l ->
  (forall p, p ∈ l -> owned k free pgdir p) -> (length l <= length free + 1025 + Z.to_nat b)%nat.
Proof.
  intros Hb Hnd Hl.
  set (tabs := omap (fun i => place k pgdir (STab i)) (seqZ 0 1024)).
  set (frames := omap (fun n => place k pgdir (SFrame n)) (seqZ 0 b)).
  assert (Hsub : l ⊆+ free ++ pgdir :: tabs ++ frames).
  { apply NoDup_submseteq; [done|]. intros p Hp. rewrite elem_of_app, elem_of_cons, elem_of_app. unfold tabs, frames.
    destruct (Hl p Hp) as [?|([|i|n] & Hs & E)]; [by left|right; left; by injection E|right; right; left|right; right; right];
      apply list_elem_of_omap.
    - exists i. split; [apply elem_of_seqZ; simpl in Hs; lia|done].
    - exists n. split; [|done]. assert (Hpr : present (pte k pgdir n) = true) by (simpl in E; by destruct (present _)).
      pose proof (Hb n Hs Hpr). apply elem_of_seqZ. simpl in Hs. lia. }
  apply submseteq_length in Hsub. rewrite length_app in Hsub. cbn [length] in Hsub. rewrite length_app in Hsub.
  pose proof (length_omap_le (fun i => place k pgdir (STab i)) (seqZ 0 1024)) as H1. fold tabs in H1.
  pose proof (length_omap_le (fun n => place k pgdir (SFrame n)) (seqZ 0 b)) as H2. fold frames in H2.
  rewrite length_seqZ in H1, H2. lia.
Qed.

Lemma fresh_count k free pgdir lo l : fresh k free pgdir lo -> NoDup l -> (forall p, p ∈ l -> owned k free pgdir p) ->
  (length l <= length free + 1025)%nat.
Proof.
  intros Hf Hnd Hl. pose proof (owned_count k free pgdir 0 l) as Hc. simpl in Hc. rewrite Nat.add_0_r in Hc. apply Hc; [|done|done].
  intros n Hn Hp. by rewrite (fs_user _ _ _ _ Hf) in Hp.
Qed.

(** What [kmap] needs to be mapped in order, from [lo] on. *)
Definition last_page (m : kmap_t) : Z := PGROUNDDOWN (u32 (virt m + u32 (phys_end m - phys_start m) - 1)).
Fixpoint kmap_ok (lo : Z) (ms : list kmap_t) : Prop :=
  match ms with
  | [] => lo <= 2 ^ 32
  | m :: ms =>
      lo <= virt m <= last_page m /\ KERNBASE <= virt m /\ last_page m + 4096 <= 2 ^ 32 /\
      virt m mod 4096 = 0 /\ last_page m mod 4096 = 0 /\ is_u32 (phys_start m) /\ phys_start m mod 4096 = 0 /\
      (kperm m = 0 \/ kperm m = PTE_W) /\ kmap_ok (last_page m + 4096) ms
  end.

Lemma PGROUNDDOWN_eq a : PGROUNDDOWN a = a / 4096 * 4096.
Proof. unfold PGROUNDDOWN, PGSIZE. change (Z.lnot (4096 - 1)) with (Z.lnot 4095). apply land_lnot_4095. Qed.

Lemma PGROUNDDOWN_aligned a : a mod 4096 = 0 -> PGROUNDDOWN a = a.
Proof. intros Ha. rewrite PGROUNDDOWN_eq. pose proof (Z.div_mod a 4096 ltac:(lia)). lia. Qed.

Lemma map_kernel_spec pgdir ms : forall k free lo, fresh k free pgdir lo -> kmap_ok lo ms ->
  exists k' r, map_kernel kend k pgdir ms = Ret (k', r) /\ only k k' (owned k free pgdir) /\
    ((r = 0 /\ exists free', free_pages k' free' /\ (forall p, p ∈ free' <-> owned k free pgdir p) /\ (length free' <= 1025)%nat) \/
     (r = pgdir /\ exists free', fresh k' free' pgdir (2 ^ 32) /\ forall p, owned k' free' pgdir p <-> owned k free pgdir p)).
Proof.
  induction ms as [|m ms IH]; intros k free lo Hk Hok; cbn [map_kernel].
  { exists k, pgdir. split_and!; [done|done|]. right. split; [done|]. exists free. split; [|done]. by eapply fresh_weaken. }
  destruct Hok as (Hlo & Hv & Hl & Hva & Hla & Hp & Hpa & Hperm & Hok). unfold mappages. fold (last_page m).
  rewrite (PGROUNDDOWN_aligned (virt m)) by done.
  rewrite (u32_small (last_page m - virt m)) by (unfold is_u32, KERNBASE in *; lia).
  destruct (mappages_kernel (S (Z.to_nat ((last_page m - virt m) / PGSIZE))) pgdir (last_page m) (kperm m) Hperm k free (virt m) (phys_start m))
    as (k1 & r & free1 & -> & Hr & Hk1 & Ho1 & Hown1); [by eapply fresh_weaken; [apply Hlo|]|lia|done..| |].
  { pose proof (Z.div_pos (last_page m - virt m) PGSIZE). unfold PGSIZE in *. lia. }
  cbn [obind]. destruct Hr as [(-> & ->)| ->]; cbn [Z.eqb Z.ltb Z.compare] in *.
  - destruct (freevm_spec k1 [] pgdir (fs_aspace _ _ _ _ Hk1)) as (k2 & free2 & -> & Hf2 & Hfr2 & Ho2).
    exists k2, 0. split_and!; [done|by eapply only_owned|]. left. split; [done|]. exists free2.
    split_and!; [done|intros p; by rewrite Hfr2, Hown1|].
    apply (fresh_count _ _ _ _ _ Hk1); [apply (fp_nodup _ _ _ Hf2)|]. intros p. apply Hfr2.
  - destruct (IH k1 free1 _ Hk1 Hok) as (k' & r & -> & Ho' & Hr). exists k', r.
    split_and!; [done|by eapply only_owned|]. destruct Hr as [(-> & f & Hf & Hfr & Hlen)|(-> & f & Hf & Hfr)].
    + left. split; [done|]. exists f. split_and!; [done| |done]. intros p. by rewrite Hfr.
    + right. split; [done|]. exists f. split; [done|]. intros p. by rewrite Hfr.
Qed.

(** Where the linker puts the kernel's data: on a page boundary behind its
    code, in physical memory. *)
Definition data_ok : Prop := KERNLINK < data < KERNBASE + PHYSTOP /\ data mod 4096 = 0.

Lemma kmap_ordered : data_ok -> kmap_ok KERNBASE (kmap data).
Proof.
  intros [Hd Hal]. pose proof (Z.div_mod data 4096 ltac:(lia)) as Hdiv. rewrite Hal in Hdiv.
  unfold KERNLINK, KERNBASE, EXTMEM, PHYSTOP in Hd.
  assert (Hlast : forall m, u32 (virt m + u32 (phys_end m - phys_start m) - 1) / 4096 * 4096 = last_page m)
    by (intros m; symmetry; apply PGROUNDDOWN_eq).
  assert (Hup : forall l, l mod 4096 = 0 -> (l - 1) / 4096 * 4096 = l - 4096).
  { intros l Hl. pose proof (Z.div_mod l 4096 ltac:(lia)). replace (l - 1) with (4095 + (l / 4096 - 1) * 4096) by lia.
    rewrite Z.div_add, Z.div_small by lia. lia. }
  unfold kmap, kmap_ok. rewrite <- !Hlast. cbn [virt phys_start phys_end kperm].
  unfold V2P, KERNLINK, KERNBASE, EXTMEM, PHYSTOP, DEVSPACE.
  rewrite !(u32_small (data - 2147483648)) by (unfold is_u32; lia).
  change (u32 (2147483648 + 1048576 - 2147483648)) with 1048576.
  rewrite (u32_small (data - 2147483648 - 1048576)) by (unfold is_u32; lia).
  rewrite (u32_small (234881024 - (data - 2147483648))) by (unfold is_u32; lia).
  rewrite (u32_small (2147483648 + 1048576 + (data - 2147483648 - 1048576) - 1)) by (unfold is_u32; lia).
  rewrite (u32_small (data + (234881024 - (data - 2147483648)) - 1)) by (unfold is_u32; lia).
  replace (2147483648 + 1048576 + (data - 2147483648 - 1048576) - 1) with (data - 1) by lia.
  replace (data + (234881024 - (data - 2147483648)) - 1) with (2382364672 - 1) by lia.
  rewrite !Hup by done. 
  assert ((data - 4096) mod 4096 = 0) by (rewrite Zminus_mod, Hal; done).
  assert ((data - 2147483648) mod 4096 = 0) by (rewrite Zminus_mod, Hal; done).
  split_and!; try done; try lia; try (by left); try (by right); unfold is_u32; try lia; vm_compute; intuition congruence.
Qed.

Lemma setupkvm_spec k free : free_pages k free -> data_ok ->
  exists k' r, setupkvm kend data k = Ret (k', r) /\ only k k' (fun p => p ∈ free) /\
    ((r = 0 /\ (length free <= 1025)%nat /\ exists free', free_pages k' free' /\ forall p, p ∈ free' <-> p ∈ free) \/
     (r ∈ free /\ exists free', fresh k' free' r (2 ^ 32) /\ forall p, owned k' free' r p <-> p ∈ free)).
Proof.
  intros Hf Hdata. unfold setupkvm. destruct (kalloc_spec kend k free Hf) as [Hm Hk].
  destruct free as [|d free].
  { rewrite Hk. cbn [Z.eqb]. exists k, 0. split_and!; [done|done|]. left. split_and!; [done|simpl; lia|]. by exists []. }
  destruct Hk as [Hd Hf1]. destruct (kalloc k) as [k1 d'] eqn:E. cbn [fst snd] in *. subst d'.
  pose proof (fp_ok _ _ _ Hf) as [Hdok Hok]%Forall_cons. pose proof (fp_nodup _ _ _ Hf) as [Hdf _]%NoDup_cons.
  destruct (Z.eqb_spec d 0) as [->|_]; [pose proof (page_ok_range _ _ Hdok); lia|].
  change (DEVSPACE <? P2V PHYSTOP) with false. cbv iota. set (k2 := clear k1 d).
  assert (Ho2 : forall x, ~ inside d x -> mem k2 x = mem k x).
  { intros x Hx. unfold k2. rewrite clear_out, Hm; [done|]. unfold inside in Hx. lia. }
  assert (Hf2 : free_pages k2 free).
  { apply (free_pages_same k1); [done|done|]. intros p x Hp Hx. rewrite Hm. apply Ho2.
    rewrite Forall_forall in Hok. apply (page_apart kend p d); [by apply Hok|done| |done]. by intros ->. }
  destruct (empty_aspace kend k2 free d Hf2 Hdok Hdf) as [Ha2 Hpte2]; [intros x Hx; by apply clear_in|].
  assert (Hown : forall p, owned k2 free d p <-> p ∈ d :: free).
  { intros p. unfold owned. rewrite elem_of_cons. split.
    - intros [?|([|i|n] & Hs & Ep)]; [by right|left; by injection Ep| |].
      + simpl in Ep. destruct (present (pde_at k2 d i)) eqn:Hp; [|done]. exfalso.
        assert (place k2 d (STab i) = Some p) as Et by (simpl; by rewrite Hp).
        assert (pde_at k2 d i = 0) as Hz; [|by rewrite Hz in Hp]. apply ld_zero. intros x Hx. apply clear_in.
        simpl in Hs. destruct (word_at d i (proj1 Hdok) Hs) as (? & ? & _). lia.
      + simpl in Ep. by rewrite Hpte2 in Ep by by apply valid_upage.
    - intros [->|?]; [right; by exists SDir|by left]. }
  assert (Hk2 : fresh k2 free d KERNBASE).
  { split; [done| | |]; intros n Hn; [|intros _..]; rewrite Hpte2; try done. by apply valid_upage. }
  clearbody k2. destruct (map_kernel_spec d (kmap data) k2 free KERNBASE Hk2 (kmap_ordered Hdata)) as (k' & r & -> & Ho' & Hr).
  exists k', r. split_and!; [done| |].
  - eapply (only_trans k k2).
    + intros x Hx. apply Ho2. apply (Hx d). by left.
    + eapply only_weaken; [done|]. intros p. apply Hown.
  - destruct Hr as [(-> & f & Hff & Hfr & Hlen)|(-> & f & Hff & Hfr)].
    + left. assert (Hall : forall p, p ∈ f <-> p ∈ d :: free) by (intros p; by rewrite Hfr).
      split_and!; [done| |by exists f]. etrans; [|exact Hlen]. apply submseteq_length, NoDup_submseteq; [apply (fp_nodup _ _ _ Hf)|].
      intros p. apply Hall.
    + right. split; [by left|]. exists f. split; [done|]. intros p. by rewrite Hfr.
Qed.

(** ** User memory *)

(** A process image of [sz] bytes: its pages are mapped, none above them is,
    and no entry of the kernel's lets a user program in. *)
Record uspace (k : kmem) (free : list Z) (pgdir sz : Z) : Prop := {
  us_aspace : aspace k free pgdir;
  us_mapped n : 0 <= n -> 4096 * n < sz -> present (pte k pgdir n) = true;
  us_absent n : valid (SFrame n) -> sz <= 4096 * n -> present (pte k pgdir n) = false;
  us_kernel n : upage n -> UPAGES <= n -> Z.land (pte k pgdir n) PTE_U = 0;
  us_size : 0 <= sz < KERNBASE
}.

Lemma fresh_uspace k free pgdir lo : fresh k free pgdir lo -> uspace k free pgdir 0.
Proof. intros [H1 H2 H3 H4]. split; [done|lia|by intros; apply H2|done|done]. Qed.

Lemma page_valid n sz : 0 <= n -> 4096 * n < sz -> sz < KERNBASE -> valid (SFrame n).
Proof. simpl. change UPAGES with 524288. unfold KERNBASE. lia. Qed.

(** [k'] differs from [k] in the user pages of [pgdir] at most. *)
Definition frames_only (k k' : kmem) (pgdir : Z) : Prop :=
  freelist k' = freelist k /\
  only k k' (fun p => exists n, valid (SFrame n) /\ place k pgdir (SFrame n) = Some p).

Lemma frames_only_refl k pgdir : frames_only k k pgdir.
Proof. done. Qed.

(** The entries do not change with the user pages. *)
Lemma frames_only_spec k k' free pgdir :
  aspace k free pgdir -> frames_only k k' pgdir ->
  aspace k' free pgdir /\ (forall n, upage n -> pte k' pgdir n = pte k pgdir n) /\
  (forall s, valid s -> place k' pgdir s = place k pgdir s).
Proof.
  intros Ha [Hfl Ho]. destruct (aspace_meta k k' free pgdir Ha Hfl) as (Ha' & Hpde & Hpte).
  - intros p x Hp Hx. apply Ho. intros q (n & Hn & E). apply (page_apart kend p q); [| | |done].
    + eapply owned_page; [done|apply Hp].
    + by apply (as_page _ _ _ _ Ha (SFrame n)).
    + intros ->. by apply (proj2 Hp n).
  - split_and!; [done|done|]. by apply place_agree.
Qed.

Lemma frames_only_trans k k1 k' free pgdir :
  aspace k free pgdir -> frames_only k k1 pgdir -> frames_only k1 k' pgdir -> frames_only k k' pgdir.
Proof.
  intros Ha H1 [Hfl Ho]. destruct (frames_only_spec k k1 free pgdir Ha H1) as (_ & _ & Hpl).
  destruct H1 as [Hfl1 Ho1]. split; [congruence|]. eapply only_trans; [done|]. eapply only_weaken; [done|].
  cbv beta. intros p (n & Hn & E). exists n. by rewrite <- Hpl.
Qed.

Lemma frames_only_uspace k k' free pgdir sz :
  uspace k free pgdir sz -> frames_only k k' pgdir ->
  uspace k' free pgdir sz /\ (forall p, owned k' free pgdir p <-> owned k free pgdir p).
Proof.
  intros [Ha Hm Hab Hk Hs] Ho. destruct (frames_only_spec k k' free pgdir Ha Ho) as (Ha' & Hpte & Hpl).
  split; [|intros p; by apply owned_same]. split; [done| | | |done].
  - intros n Hn Hlt. rewrite Hpte by (apply valid_upage, (page_valid n sz); lia). by apply Hm.
  - intros n Hn Hle. rewrite Hpte by by apply valid_upage. by apply Hab.
  - intros n Hn Hge. rewrite Hpte by done. by apply Hk.
Qed.

(** Writes into one user page. *)
Lemma frame_write k m free pgdir n p :
  aspace k free pgdir -> valid (SFrame n) -> place k pgdir (SFrame n) = Some p ->
  (forall x, ~ inside p x -> m x = mem k x) -> frames_only k (with_mem m k) pgdir.
Proof. intros Ha Hn E Hm. split; [done|]. intros x Hx. apply Hm. apply (Hx p). by exists n. Qed.

(** ** clearpteu *)

Lemma clear_user w : is_u32 w ->
  let w' := Z.land w (Z.lnot PTE_U) in
  is_u32 w' /\ present w' = present w /\ pgtab_of w' = pgtab_of w /\ Z.land w' PTE_U = 0.
Proof.
  intros Hw w'. unfold w'. split_and!.
  - unfold is_u32 in *. split; [apply Z.land_nonneg; lia|]. rewrite <- Z.sub_land_same_l.
    pose proof (proj2 (Z.land_nonneg w PTE_U) ltac:(lia)). lia.
  - unfold present. f_equal. f_equal. by rewrite <- Z.land_assoc.
  - unfold pgtab_of, PTE_ADDR. by rewrite <- Z.land_assoc.
  - by rewrite <- Z.land_assoc, (Z.land_comm (Z.lnot _)), Z.land_lnot_diag, Z.land_0_r.
Qed.

Lemma clearpteu_spec k free pgdir sz n :
  uspace k free pgdir sz -> 0 <= n -> 4096 * n < sz ->
  exists k', clearpteu k pgdir (4096 * n) = Ret k' /\ uspace k' free pgdir sz /\
    pte k' pgdir n = Z.land (pte k pgdir n) (Z.lnot PTE_U) /\
    (forall m, upage m -> m <> n -> pte k' pgdir m = pte k pgdir m) /\
    only k k' (metapage k free pgdir) /\ (forall s, valid s -> place k' pgdir s = place k pgdir s).
Proof.
  intros [Ha Hmp Hab Hk Hs] Hn Hlt. pose proof (page_valid n sz Hn Hlt ltac:(lia)) as Hv. pose proof (valid_upage n Hv) as Hu.
  pose proof (Hmp n Hn Hlt) as Hp.
  assert (Hpd : present (pde_at k pgdir (n / 1024)) = true).
  { unfold pte in Hp. by destruct (present (pde_at k pgdir (n / 1024))). }
  unfold clearpteu. rewrite walk_found.
  2: { unfold KERNBASE in *. lia. }
  2: { by rewrite Z.mul_comm, Z.div_mul. }
  rewrite (Z.mul_comm 4096), Z.div_mul by done.
  rewrite (proj2 (Z.eqb_neq _ 0)) by by eapply (tab_addr_pos kend).
  assert (Ept : ld k (tab_addr k pgdir n) = pte k pgdir n) by (unfold pte; by rewrite Hpd).
  rewrite Ept. assert (Hw : is_u32 (pte k pgdir n)) by (rewrite <- Ept; apply u32_range).
  destruct (clear_user _ Hw) as (Hw' & Hpr' & Htab' & Hu').
  assert (Epl : place k pgdir (SFrame n) = Some (pgtab_of (pte k pgdir n))) by (simpl; by rewrite Hp).
  destruct (set_pte kend k free pgdir n _ Ha Hu Hpd Hw') as (Ha2 & Hpde2 & Hpte2 & Ho2).
  { intros _ _. left. by rewrite Htab'. }
  set (w' := Z.land _ _) in *. set (k' := st _ _ _) in *. clearbody k' w'.
  assert (Hpl : forall s, valid s -> place k' pgdir s = place k pgdir s).
  { intros [|i|m] Hsv; simpl; [done|by rewrite Hpde2|]. rewrite Hpte2 by by apply valid_upage.
    case_decide as E; [|done]. subst m. by rewrite Hpr', Htab'. }
  exists k'. split_and!; [done| |by rewrite Hpte2, decide_True|by intros m Hm Hne; rewrite Hpte2, decide_False| |done].
  - split; [done| | | |done].
    + intros m Hm Hlm. rewrite Hpte2 by (apply valid_upage, (page_valid m sz); lia). case_decide; [by rewrite Hpr'|by apply Hmp].
    + intros m Hm Hlm. rewrite Hpte2 by by apply valid_upage. rewrite decide_False by lia. by apply Hab.
    + intros m Hm Hge. rewrite Hpte2 by done. rewrite decide_False; [by apply Hk|]. simpl in Hv. lia.
  - eapply only_weaken; [done|]. intros p ->. apply (meta_place kend _ _ _ (STab (n / 1024))); [done|by apply upage_div|done|].
    simpl. by rewrite Hpd.
Qed.

(** ** copyout *)

(** A user program can use page [n], which is at [p]. *)
Definition user_page (k : kmem) (pgdir n p : Z) : Prop :=
  valid (SFrame n) /\ place k pgdir (SFrame n) = Some p /\ Z.land (pte k pgdir n) PTE_U <> 0.

Lemma user_page_ok k free pgdir n p : aspace k free pgdir -> user_page k pgdir n p -> page_ok p.
Proof. intros Ha (Hn & E & _). by apply (as_page _ _ _ _ Ha (SFrame n)). Qed.

Lemma uva2ka_spec k free pgdir sz n :
  uspace k free pgdir sz -> upage n ->
  match uva2ka k pgdir (4096 * n) with
  | Ret p => p = 0 /\ (forall p, ~ user_page k pgdir n p) \/ user_page k pgdir n p
  | Fault => forall p, ~ user_page k pgdir n p
  | _ => False
  end.
Proof.
  intros [Ha _ _ Hk _] Hn. unfold uva2ka. assert (H32 : 0 <= 4096 * n < 2 ^ 32) by (unfold upage in Hn; lia).
  assert (Hd : 4096 * n / 4096 = n) by (by rewrite Z.mul_comm, Z.div_mul).
  destruct (present (pde_at k pgdir (n / 1024))) eqn:Hp.
  - rewrite walk_found by (rewrite ?Hd; done). rewrite Hd.
    rewrite (proj2 (Z.eqb_neq _ 0)) by by eapply (tab_addr_pos kend).
    assert (ld k (tab_addr k pgdir n) = pte k pgdir n) as -> by (unfold pte; by rewrite Hp).
    change (P2V (PTE_ADDR (pte k pgdir n))) with (pgtab_of (pte k pgdir n)).
    destruct (Z.land (pte k pgdir n) PTE_P =? 0) eqn:Hpp.
    { left. split; [done|]. intros p (_ & E & _). simpl in E. unfold present in E. by rewrite Hpp in E. }
    destruct (Z.eqb_spec (Z.land (pte k pgdir n) PTE_U) 0) as [Hu|Hu].
    { left. split; [done|]. by intros p (_ & _ & ?). }
    right. split_and!; [|simpl; unfold present; by rewrite Hpp|done].
    simpl. unfold upage in Hn. destruct (Z.lt_ge_cases n UPAGES); [lia|]. by rewrite Hk in Hu.
  - rewrite walk_missing by (rewrite ?Hd; done). cbn [Z.eqb]. intros p (_ & E & _). simpl in E.
    unfold pte in E. by rewrite Hp in E.
Qed.

(** Copying to one user page. *)
Lemma copy_page k free pgdir n p off l len :
  aspace k free pgdir -> user_page k pgdir n p -> 0 <= off -> off + Z.of_nat len <= PGSIZE -> (len <= length l)%nat ->
  exists m, memcpy_to (2 ^ 32) (mem k) (p + off) l len = Some m /\ frames_only k (with_mem m k) pgdir /\
    (forall x, x < p + off \/ p + off + Z.of_nat len <= x -> m x = mem k x) /\
    (forall i c, (i < len)%nat -> l !! i = Some c -> m (p + off + Z.of_nat i) = u8 c).
Proof.
  intros Ha Hu Ho Hlen Hl. pose proof (user_page_ok _ _ _ _ _ Ha Hu) as Hp.
  pose proof (page_ok_range _ _ Hp) as (? & ? & _).
  destruct (memcpy_to_spec (2 ^ 32) (mem k) (p + off) l len) as (m & E & Hout & Hin); [lia..|].
  exists m. split_and!; [done| |done|done]. destruct Hu as (Hn & Epl & _).
  apply (frame_write k m free pgdir n p Ha Hn Epl). intros x Hx. apply Hout. unfold inside, PGSIZE in *. lia.
Qed.

Lemma copyout_keeps fuel pgdir free sz : forall k va l k' r,
  uspace k free pgdir sz -> 0 <= va < 2 ^ 32 -> copyout fuel k pgdir va l = Ret (k', r) ->
  frames_only k k' pgdir /\ (r = 0 \/ r = -1).
Proof.
  induction fuel as [|fuel IH]; intros k va l k' r Hk Hva; cbn [copyout]; [done|].
  destruct l as [|c l0]; [by intros [= <- <-]; split; [|left]|].
  set (l := c :: l0) in *. clearbody l. rewrite PGROUNDDOWN_eq. rewrite (Z.mul_comm _ 4096).
  pose proof (va_page va Hva) as Hn. pose proof (uva2ka_spec k free pgdir sz _ Hk Hn) as Hu.
  pose proof (Z.div_mod va 4096 ltac:(lia)). pose proof (Z.mod_pos_bound va 4096 ltac:(lia)).
  destruct (uva2ka k pgdir (4096 * (va / 4096))) as [p| | |]; try done. cbn [obind].
  destruct (Z.eqb_spec p 0) as [->|Hp0]; [by intros [= <- <-]; split; [|right]|].
  destruct Hu as [[? _]|Hu]; [done|]. pose proof (us_aspace _ _ _ _ Hk) as Ha.
  set (len := Z.min _ _). assert (0 <= len <= 4096 - (va - 4096 * (va / 4096)) /\ len <= Z.of_nat (length l)) as [Hlen Hl] by (unfold len, PGSIZE; lia).
  destruct (copy_page k free pgdir _ p (va - 4096 * (va / 4096)) l (Z.to_nat len) Ha Hu) as (m & -> & Hm & _); [lia|unfold PGSIZE; lia|lia|].
  cbn [of_option obind]. intros E.
  destruct (IH (with_mem m k) (u32 (4096 * (va / 4096) + PGSIZE)) (drop (Z.to_nat len) l) k' r) as [Hk' Hr];
    [by apply (frames_only_uspace k)|apply u32_range|done|]. split; [by eapply frames_only_trans|done].
Qed.

(** What lies within one user page is copied. *)
Lemma copyout_page k free pgdir sz n p va l fuel :
  uspace k free pgdir sz -> user_page k pgdir n p -> 4096 * n <= va -> va + Z.of_nat (length l) <= 4096 * n + PGSIZE ->
  exists k', copyout (S (S fuel)) k pgdir va l = Ret (k', 0) /\ frames_only k k' pgdir /\
    forall x, mem k' x = if decide (p + (va - 4096 * n) <= x < p + (va - 4096 * n) + Z.of_nat (length l))
                         then u8 (default 0 (l !! Z.to_nat (x - (p + (va - 4096 * n))))) else mem k x.
Proof.
  intros Hk Hu Hlo Hhi. cbn [copyout]. destruct l as [|c l0].
  { exists k. split_and!; [done|done|]. intros x. rewrite decide_False by (simpl; lia). done. }
  set (l := c :: l0) in *. assert (Hpos : (0 < length l)%nat) by (simpl; lia). clearbody l.
  unfold PGSIZE in Hhi. assert (Hvn : va / 4096 = n) by (symmetry; apply Z.div_unique_pos with (va - 4096 * n); lia).
  rewrite PGROUNDDOWN_eq, Hvn, (Z.mul_comm n).
  pose proof Hu as (Hv & _ & _). pose proof (uva2ka_spec k free pgdir sz n Hk (valid_upage n Hv)) as Hka.
  pose proof (user_page_ok _ _ _ _ _ (us_aspace _ _ _ _ Hk) Hu) as Hp. pose proof (page_ok_range _ _ Hp) as (? & ? & _).
  destruct (uva2ka k pgdir (4096 * n)) as [q| | |]; try done; [|by destruct (Hka p)]. cbn [obind].
  destruct Hka as [[_ Hno]|Hq]; [by destruct (Hno p)|]. assert (q = p) as -> by (destruct Hq as (_ & E & _), Hu as (_ & E' & _); congruence).
  destruct (Z.eqb_spec p 0); [lia|]. rewrite Z.min_r by (unfold PGSIZE; lia). rewrite Nat2Z.id.
  destruct (copy_page k free pgdir n p (va - 4096 * n) l (length l) (us_aspace _ _ _ _ Hk) Hu) as (m & -> & Hm & Hout & Hin); [lia|unfold PGSIZE; lia|lia|].
  cbn [of_option obind]. rewrite drop_all. exists (with_mem m k). split_and!; [done|done|]. intros x. cbn [mem with_mem].
  case_decide as Hx; [|apply Hout; lia].
  destruct (lookup_lt_is_Some_2 l (Z.to_nat (x - (p + (va - 4096 * n))))) as [c' Ec]; [lia|]. rewrite Ec. cbn [from_option id].
  rewrite <- (Hin (Z.to_nat (x - (p + (va - 4096 * n)))) c' ltac:(lia) Ec). f_equal. lia.
Qed.

(** ** loaduvm *)

(** The page a segment byte lies in. *)
Lemma walk_mapped k free pgdir sz va :
  uspace k free pgdir sz -> 0 <= va < sz ->
  exists a, walkpgdir k pgdir va false = (k, a) /\ a <> 0 /\ ld k a = pte k pgdir (va / 4096) /\
    valid (SFrame (va / 4096)) /\ present (pte k pgdir (va / 4096)) = true.
Proof.
  intros [Ha Hmp _ _ Hs] Hva. pose proof (Z.div_pos va 4096). pose proof (Z.div_mod va 4096 ltac:(lia)).
  pose proof (Z.mod_pos_bound va 4096 ltac:(lia)).
  pose proof (page_valid (va / 4096) sz ltac:(lia) ltac:(lia) ltac:(lia)) as Hv. pose proof (Hmp (va / 4096) ltac:(lia) ltac:(lia)) as Hp.
  assert (Hpd : present (pde_at k pgdir (va / 4096 / 1024)) = true).
  { unfold pte in Hp. by destruct (present (pde_at k pgdir (va / 4096 / 1024))). }
  exists (tab_addr k pgdir (va / 4096)). split_and!; [apply walk_found; [unfold KERNBASE in *; lia|done]| | |done|done].
  - eapply (tab_addr_pos kend); [done|by apply valid_upage|done].
  - unfold pte. by rewrite Hpd.
Qed.

(** One page of a segment: [readi] writes the user page of [addr + i]. *)
Section load.
Context {F : Type} (readi : F -> bytes -> Z -> Z -> Z -> outcome (F * bytes * Z)).
Context (pgdir sz addr offset n : Z) (free : list Z).
Context (Hread : forall f m dst off len f' m' r, readi f m dst off len = Ret (f', m', r) -> 0 <= off -> 0 <= dst -> 0 <= len ->
  dst + len <= 2 ^ 32 -> forall x, ~ dst <= x < dst + len -> m' x = m x).
Context (Hal : addr mod 4096 = 0) (Hadd : 0 <= addr) (Hsz : addr + n <= sz).

Lemma load_page f k i len f' m r :
  uspace k free pgdir sz -> 0 <= i < n -> i mod 4096 = 0 -> 0 <= len <= 4096 ->
  readi f (mem k) (pgtab_of (pte k pgdir ((addr + i) / 4096))) (u32 (offset + i)) len = Ret (f', m, r) ->
  frames_only k (with_mem m k) pgdir.
Proof.
  intros Hk Hi Hil Hlen E. destruct (walk_mapped k free pgdir sz (addr + i) Hk) as (_ & _ & _ & _ & Hv & Hp); [lia|].
  pose proof (us_aspace _ _ _ _ Hk) as Ha. set (g := (addr + i) / 4096) in *.
  assert (Epl : place k pgdir (SFrame g) = Some (pgtab_of (pte k pgdir g))) by (simpl; by rewrite Hp).
  destruct (as_page _ _ _ _ Ha _ _ Hv Epl) as [Hq _]. pose proof (page_ok_range _ _ Hq) as (? & ? & _).
  apply (frame_write k m free pgdir g _ Ha Hv Epl). intros x Hx.
  eapply Hread; [exact E|apply u32_range|lia|lia|unfold PGSIZE in *; lia|]. unfold inside, PGSIZE in Hx. lia.
Qed.

Lemma loaduvm_keeps fuel : forall f k i f' k' r,
  uspace k free pgdir sz -> 0 <= i -> i mod 4096 = 0 ->
  loaduvm_from readi fuel f k pgdir addr offset n i = Ret (f', k', r) -> frames_only k k' pgdir.
Proof.
  induction fuel as [|fuel IH]; intros f k i f' k' r Hk Hi Hil; cbn [loaduvm_from]; [done|].
  destruct (Z.ltb_spec i n) as [Hin|]; [|by intros [= _ <- _]]. pose proof (us_size _ _ _ _ Hk) as Hs.
  rewrite (u32_small (addr + i)) by (unfold is_u32, KERNBASE in *; lia).
  destruct (walk_mapped k free pgdir sz (addr + i) Hk) as (a & -> & Ha0 & -> & _); [lia|].
  rewrite (proj2 (Z.eqb_neq a 0)) by done. change (P2V (PTE_ADDR ?w)) with (pgtab_of w).
  set (len := if _ <? _ then _ else _). assert (Hlen : 0 <= len <= 4096) by (unfold len, PGSIZE; destruct (Z.ltb_spec (n - i) 4096); lia).
  clearbody len. destruct (readi _ _ _ _ _) as [[[f1 m] r1]| | |] eqn:E; try done. cbn [obind].
  pose proof (load_page f k i len f1 m r1 Hk ltac:(lia) Hil Hlen E) as Hm.
  destruct (negb (r1 =? len)); [by intros [= _ <- _]|].
  rewrite u32_small by (unfold is_u32, PGSIZE, KERNBASE in *; lia). intros E'.
  eapply frames_only_trans; [apply Hk|done|]. refine (IH _ _ _ _ _ _ _ _ _ E'); [by apply (frames_only_uspace k)|unfold PGSIZE; lia|].
  unfold PGSIZE. rewrite Zplus_mod, Hil. done.
Qed.

(** A segment that lies in the file, [lim] being its size, is loaded. *)
Lemma loaduvm_returns (Inv : F -> Prop) lim fuel :
  (forall f m dst off len, Inv f -> 0 <= dst -> is_u32 off -> is_u32 len -> dst + len <= 2 ^ 32 ->
     exists f' m' r, readi f m dst off len = Ret (f', m', r) /\ Inv f' /\ (off + len <= lim -> r = len)) ->
  forall f k i, Inv f -> uspace k free pgdir sz -> 0 <= i -> i mod 4096 = 0 -> n - i <= 4096 * (Z.of_nat fuel - 1) -> (0 < fuel)%nat ->
  exists f' k' r, loaduvm_from readi fuel f k pgdir addr offset n i = Ret (f', k', r) /\ Inv f' /\
    (0 <= offset -> offset + n <= lim -> lim < 2 ^ 32 -> r = 0).
Proof.
  intros Htot. induction fuel as [|fuel IH]; intros f k i Hinv Hk Hi Hil Hf Hpos; cbn [loaduvm_from]; [lia|].
  destruct (Z.ltb_spec i n) as [Hin|]; [|by eauto 6]. pose proof (us_size _ _ _ _ Hk) as Hs.
  rewrite (u32_small (addr + i)) by (unfold is_u32, KERNBASE in *; lia).
  destruct (walk_mapped k free pgdir sz (addr + i) Hk) as (a & -> & Ha0 & -> & Hv & Hp); [lia|].
  rewrite (proj2 (Z.eqb_neq a 0)) by done. change (P2V (PTE_ADDR ?w)) with (pgtab_of w).
  set (len := if _ <? _ then _ else _). assert (Hlen : 0 <= len <= 4096 /\ i + len <= n) by (unfold len, PGSIZE; destruct (Z.ltb_spec (n - i) 4096); lia).
  clearbody len. destruct Hlen as [Hlen Hin'].
  assert (Hq : page_ok (pgtab_of (pte k pgdir ((addr + i) / 4096)))).
  { apply (as_page _ _ _ _ (us_aspace _ _ _ _ Hk) _ _ Hv). simpl. by rewrite Hp. }
  pose proof (page_ok_range _ _ Hq) as (Hq0 & Hq1 & _). unfold PGSIZE in Hq1.
  destruct (Htot f (mem k) (pgtab_of (pte k pgdir ((addr + i) / 4096))) (u32 (offset + i)) len Hinv) as (f1 & m & r1 & E & Hinv1 & Hr1);
    [lia|apply u32_range|unfold is_u32; lia|lia|].
  rewrite E. cbn [obind]. pose proof (load_page f k i len f1 m r1 Hk ltac:(lia) Hil Hlen E) as Hm.
  destruct (Z.eqb_spec r1 len) as [->|Hne]; cbn [negb].
  - rewrite u32_small by (unfold is_u32, PGSIZE, KERNBASE in *; lia).
    apply IH; [done|by apply (frames_only_uspace k)|unfold PGSIZE; lia| |unfold PGSIZE; lia|lia].
    unfold PGSIZE. rewrite Zplus_mod, Hil. done.
  - exists f1, (with_mem m k), (-1). split_and!; [done|done|]. intros Ho1 Ho2 Ho3. exfalso. apply Hne, Hr1.
    rewrite u32_small by (unfold is_u32; lia). lia.
Qed.
End load.

(** ** Growing *)

Lemma allocuvm_uspace k free pgdir sz newsz :
  uspace k free pgdir sz -> 0 <= newsz < 2 ^ 32 ->
  exists k' free' r, allocuvm kend k pgdir sz newsz = Ret (k', r) /\
    uspace k' free' pgdir (if r =? 0 then sz else r) /\ (r = 0 \/ r = Z.max sz newsz) /\
    only k k' (owned k free pgdir) /\ (forall p, owned k' free' pgdir p <-> owned k free pgdir p) /\
    (r <> 0 -> forall n, sz <= 4096 * n < r -> exists p, user_page k' pgdir n p) /\
    (forall q, 0 < Z.max sz newsz -> newsz < KERNBASE -> newsz - sz <= 4096 * q -> 2 * q <= Z.of_nat (length free) -> r <> 0).
Proof.
  intros Hk Hn. pose proof Hk as [Ha Hm Hab Hkn Hs].
  destruct (Z.le_gt_cases KERNBASE newsz) as [Hbig|Hsmall].
  { unfold allocuvm. rewrite (proj2 (Z.leb_le _ _)) by done. exists k, free, 0. split_and!; [done|done|by left|done|done|done|lia]. }
  destruct (Z.lt_ge_cases newsz sz) as [Hlt|Hge].
  { unfold allocuvm. destruct (Z.leb_spec KERNBASE newsz); [lia|]. rewrite (proj2 (Z.ltb_lt _ _)) by done.
    exists k, free, sz. split_and!; [done|by destruct (sz =? 0)|right; lia|done|done|intros _ n; lia|lia]. }
  destruct (allocuvm_spec kend Hkend k free pgdir sz newsz Ha) as (k' & free' & ok & -> & Hk' & Hq); [lia|done| |].
  { intros m Hmu [Hr Hr']. apply Hab; [|done]. apply (page_valid m newsz); [apply Hmu|done|done]. }
  exists k', free', (if ok then newsz else 0). split; [done|].
  assert (Hkern : forall m, upage m -> UPAGES <= m -> ~ in_range sz newsz m).
  { unfold in_range. change UPAGES with 524288. unfold KERNBASE in *. lia. }
  destruct ok.
  - destruct Hk' as [H1 H2 H3 H4 _ H6]. split_and!; [|right; lia|by eapply only_weaken; [exact H4|apply metapage_owned]|done| |lia].
    2: { intros _ m Hr. pose proof (page_valid m newsz ltac:(lia) ltac:(lia) Hsmall) as Hv.
      destruct (H2 m) as (p & Hp & Ep & _); [by apply valid_upage|done|]. exists p.
      destruct (entry_spec kend p (Z.lor PTE_W PTE_U)) as (_ & Hpr & Htab & Hfl);
        [by apply (owned_page kend k free pgdir); [|left]|by vm_compute|].
      split_and!; [done|simpl; by rewrite Ep, Hpr, Htab|]. rewrite Ep. unfold PTE_FLAGS in Hfl.
      change PTE_U with (Z.land 4095 PTE_U) at 2. rewrite Z.land_assoc, Hfl. done. }
    replace (if newsz =? 0 then sz else newsz) with newsz by (destruct (Z.eqb_spec newsz 0); lia).
    split; [done| | | |lia].
    + intros m Hm0 Hml. pose proof (page_valid m newsz Hm0 Hml Hsmall) as Hv. destruct (Z.lt_ge_cases (4096 * m) sz) as [Hl|Hl].
      * rewrite H3; [by apply Hm|by apply valid_upage|unfold in_range; lia].
      * destruct (H2 m) as (p & Hp & -> & _); [by apply valid_upage|done|].
        apply (entry_spec kend); [|by vm_compute]. by apply (owned_page kend k free pgdir); [|left].
    + intros m Hv Hml. rewrite H3; [apply Hab; [done|lia]|by apply valid_upage|unfold in_range; lia].
    + intros m Hmu Hge'. rewrite H3; [by apply Hkn|done|by apply Hkern].
  - destruct Hk' as [H1 H2 H3 H4 H6]. cbn [Z.eqb]. split_and!; [|by left| |done|done|intros q _ _ Hq1 Hq2; by specialize (Hq q Hq1 Hq2)].
    + split; [done| | | |done].
      * intros m Hm0 Hml. rewrite H3; [by apply Hm|by eapply valid_upage, (page_valid m sz); lia|unfold in_range; lia].
      * intros m Hv Hml. destruct (Z.lt_ge_cases (4096 * m) newsz); [apply H2; [by apply valid_upage|done]|].
        rewrite H3; [by apply Hab|by apply valid_upage|unfold in_range; lia].
      * intros m Hmu Hge'. rewrite H3; [by apply Hkn|done|by apply Hkern].
    + eapply only_weaken; [exact H4|]. intros p [[? _]|(n & Hv & _ & E)]; [done|]. right. by exists (SFrame n).
Qed.

End life.
End VmLife.
