(* ===== verification/CString.v ===== *)
(** * Memory and string routines

    [string.c] of the kernel and the string functions of p3b's [ulib.c], over
    byte memory.  Pointers are addresses, a [char] is the byte stored (the
    code only compares bytes for equality, with 0, or after a cast to
    [uchar]).  Loops bounded by a count recurse on it; scans for a NUL take
    fuel and give [None] when it runs out. *)

From S2P Require Import Prelude DfsImage.
Local Open Scope Z_scope.
Local Open Scope xv6_scope.

Module CString.

(** ** string.c *)

(** [while(n-- > 0)] of [memcmp]. *)
Fixpoint memcmp (m : bytes) (s1 s2 : Z) (n : nat) : Z :=
  match n with
  | O => 0
  | S n => if m s1 =? m s2 then memcmp m (s1 + 1) (s2 + 1) n else m s1 - m s2
  end.

(** [while(n-- > 0) *--d = *--s], from the ends of the two areas. *)
Fixpoint copy_down (m : bytes) (d s : Z) (n : nat) : bytes :=
  match n with
  | O => m
  | S n => copy_down (put8 m (d - 1) (m (s - 1))) (d - 1) (s - 1) n
  end.

(** [while(n-- > 0) *d++ = *s++]. *)
Fixpoint copy_up (m : bytes) (d s : Z) (n : nat) : bytes :=
  match n with
  | O => m
  | S n => copy_up (put8 m d (m s)) (d + 1) (s + 1) n
  end.

Definition memmove (m : bytes) (dst src : Z) (n : nat) : bytes :=
  if (src <? dst) && (dst <? src + Z.of_nat n)
  then copy_down m (dst + Z.of_nat n) (src + Z.of_nat n) n
  else copy_up m dst src n.

Definition memcpy (m : bytes) (dst src : Z) (n : nat) : bytes := memmove m dst src n.

(** [while(n > 0 && *p && *p == *q) n--, p++, q++], then the difference. *)
Fixpoint strncmp (m : bytes) (p q : Z) (n : nat) : Z :=
  match n with
  | O => 0
  | S n' => if negb (m p =? 0) && (m p =? m q) then strncmp m (p + 1) (q + 1) n' else m p - m q
  end.

(** [while(n-- > 0) *s++ = 0]. *)
Fixpoint pad (m : bytes) (s : Z) (n : nat) : bytes :=
  match n with
  | O => m
  | S n => pad (put8 m s 0) (s + 1) n
  end.

(** [while(n-- > 0 && ( *s++ = *t++) != 0)]: the memory, [s] and the count
    left once the loop has tested it for the last time. *)
Fixpoint copy_str (m : bytes) (s t : Z) (n : nat) : bytes * Z * nat :=
  match n with
  | O => (m, s, O)
  | S n =>
      let c := m t in
      let m := put8 m s c in
      if c =? 0 then (m, s + 1, n) else copy_str m (s + 1) (t + 1) n
  end.

Definition strncpy (m : bytes) (s t : Z) (n : nat) : bytes :=
  let '(m, s, n) := copy_str m s t n in pad m s n.

(** [while(--n > 0 && ( *s++ = *t++) != 0)]: the memory and [s]. *)
Fixpoint copy_safe (m : bytes) (s t : Z) (n : nat) : bytes * Z :=
  match n with
  | O => (m, s)
  | S n =>
      let c := m t in
      let m := put8 m s c in
      if c =? 0 then (m, s + 1) else copy_safe m (s + 1) (t + 1) n
  end.

Definition safestrcpy (m : bytes) (s t n : Z) : bytes :=
  if n <=? 0 then m
  else
    let '(m, s) := copy_safe m s t (Z.to_nat (n - 1)) in put8 m s 0.

Fixpoint strlen (fuel : nat) (m : bytes) (s n : Z) : option Z :=
  match fuel with
  | O => None
  | S fuel => if m (s + n) =? 0 then Some n else strlen fuel m s (n + 1)
  end.

(** ** ulib.c *)

Fixpoint strcpy (fuel : nat) (m : bytes) (s t : Z) : option bytes :=
  match fuel with
  | O => None
  | S fuel =>
      let c := m t in
      let m := put8 m s c in
      if c =? 0 then Some m else strcpy fuel m (s + 1) (t + 1)
  end.

Fixpoint strcmp (fuel : nat) (m : bytes) (p q : Z) : option Z :=
  match fuel with
  | O => None
  | S fuel => if negb (m p =? 0) && (m p =? m q) then strcmp fuel m (p + 1) (q + 1) else Some (m p - m q)
  end.

(** The address of the first [c], 0 when there is none. *)
Fixpoint strchr (fuel : nat) (m : bytes) (s c : Z) : option Z :=
  match fuel with
  | O => None
  | S fuel => if m s =? 0 then Some 0 else if m s =? c then Some s else strchr fuel m (s + 1) c
  end.

(** [while('0' <= *s && *s <= '9')], from the value read so far. *)
Fixpoint atoi_from (fuel : nat) (m : bytes) (s n : Z) : option Z :=
  match fuel with
  | O => None
  | S fuel =>
      if (48 <=? m s) && (m s <=? 57) then atoi_from fuel m (s + 1) (s32 (s32 (n * 10 + m s) - 48))
      else Some n
  end.

Definition atoi (fuel : nat) (m : bytes) (s : Z) : option Z := atoi_from fuel m s 0.

(** [gets], reading the bytes of [input] one at a time; the memory and the
    input left. *)
Fixpoint gets_from (m : bytes) (buf i max : Z) (input : list Z) : bytes * list Z :=
  if i + 1 <? max then
    match input with
    | [] => (put8 m (buf + i) 0, [])
    | c :: rest =>
        let m := put8 m (buf + i) c in
        if (c =? 10) || (c =? 13) then (put8 m (buf + (i + 1)) 0, rest)
        else gets_from m buf (i + 1) max rest
    end
  else (put8 m (buf + i) 0, input).

Definition gets (m : bytes) (buf max : Z) (input : list Z) : bytes * list Z :=
  gets_from m buf 0 max input.

(** ** Lemmas *)

Lemma put8_at m a v x : is_u8 v -> put8 m a v x = if decide (x = a) then v else m x.
Proof.
  intros Hv. case_decide as E; [subst|by apply put8_out].
  unfold put8. by rewrite Z.eqb_refl, u8_small.
Qed.

Definition bytes_ok (m : bytes) : Prop := forall x, is_u8 (m x).

Lemma put8_ok m a v : bytes_ok m -> bytes_ok (put8 m a v).
Proof. intros Hm x. unfold put8. destruct (x =? a); [apply u8_range|apply Hm]. Qed.

Lemma put8_self m a b x : bytes_ok m -> put8 m a (m b) x = if decide (x = a) then m b else m x.
Proof. intros Hm. by apply put8_at. Qed.

Lemma copy_up_spec n m d s :
  bytes_ok m -> ~ (s < d < s + Z.of_nat n) ->
  forall x, copy_up m d s n x = if decide (d <= x < d + Z.of_nat n) then m (s + (x - d)) else m x.
Proof.
  revert m d s. induction n as [|n IH]; intros m d s Hm Hov x; cbn [copy_up].
  { rewrite decide_False by lia. done. }
  rewrite IH by (by apply put8_ok || lia). rewrite !put8_self by done.
  repeat case_decide; try lia; f_equal; lia.
Qed.

Lemma copy_down_spec n m d s :
  bytes_ok m -> ~ (d < s < d + Z.of_nat n) ->
  forall x, copy_down m d s n x =
    if decide (d - Z.of_nat n <= x < d) then m (s - (d - x)) else m x.
Proof.
  revert m d s. induction n as [|n IH]; intros m d s Hm Hov x; cbn [copy_down].
  { rewrite decide_False by lia. done. }
  rewrite IH by (by apply put8_ok || lia). rewrite !put8_self by done.
  repeat case_decide; try lia; f_equal; lia.
Qed.

(** [memmove] copies the source as it was, also when the two areas overlap
    on either side, and changes no byte outside the destination. *)
Lemma memmove_at m dst src n x :
  bytes_ok m ->
  memmove m dst src n x = if decide (dst <= x < dst + Z.of_nat n) then m (src + (x - dst)) else m x.
Proof.
  intros Hm. unfold memmove. destruct (Z.ltb_spec src dst), (Z.ltb_spec dst (src + Z.of_nat n)); simpl.
  - rewrite copy_down_spec by (done || lia). repeat case_decide; try lia; f_equal; lia.
  - apply copy_up_spec; [done|lia].
  - apply copy_up_spec; [done|lia].
  - apply copy_up_spec; [done|lia].
Qed.

(** The string at [t], cut at its NUL or at [n] bytes. *)
Fixpoint cstr_take (m : bytes) (t : Z) (n : nat) : list Z :=
  match n with
  | O => []
  | S n => if m t =? 0 then [] else m t :: cstr_take m (t + 1) n
  end.

Lemma cstr_take_length m t n : (length (cstr_take m t n) <= n)%nat.
Proof. revert t. induction n; intros t; simpl; [lia|]. destruct (m t =? 0); simpl; [lia|]. specialize (IHn (t + 1)). lia. Qed.

Lemma cstr_take_ext m m' t n :
  (forall x, t <= x < t + Z.of_nat n -> m' x = m x) -> cstr_take m' t n = cstr_take m t n.
Proof.
  revert t. induction n as [|n IH]; intros t H; simpl; [done|].
  rewrite (H t) by lia. destruct (m t =? 0); [done|]. rewrite (IH (t + 1)); [done|]. intros. apply H. lia.
Qed.

(** Where two areas of [n] bytes do not meet. *)
Definition apart (s t n : Z) : Prop := s + n <= t \/ t + n <= s.

Lemma copy_safe_spec n m s t m' s' :
  bytes_ok m -> apart s t (Z.of_nat n + 1) -> copy_safe m s t n = (m', s') ->
  let str := cstr_take m t n in
  s <= s' <= s + Z.of_nat n /\ s + Z.of_nat (length str) <= s' /\
  (forall k c, str !! k = Some c -> m' (s + Z.of_nat k) = c) /\
  (s' = s + Z.of_nat (length str) \/ m' (s + Z.of_nat (length str)) = 0) /\
  (forall x, x < s \/ s' <= x -> m' x = m x).
Proof.
  revert m s t. induction n as [|n IH]; intros m s t Hm Hap; cbn [copy_safe cstr_take].
  { intros [= <- <-]. simpl. split_and!; [lia|lia|lia|by intros k c; rewrite lookup_nil|left; lia|done]. }
  assert (Hsame : forall x, x <> s -> put8 m s (m t) x = m x).
  { intros x Hx. rewrite put8_self by done. by rewrite decide_False. }
  assert (Hat : put8 m s (m t) s = m t) by (rewrite put8_self by done; by rewrite decide_True).
  destruct (Z.eqb_spec (m t) 0) as [E|E].
  { intros [= <- <-]. simpl. split_and!; [lia|lia|lia|by intros k c; rewrite lookup_nil| |].
    - right. by rewrite Z.add_0_r, Hat.
    - intros x Hx. apply Hsame. lia. }
  intros Hc. destruct (IH (put8 m s (m t)) (s + 1) (t + 1)) as (H1 & H2 & H3 & H4 & H5);
    [by apply put8_ok|unfold apart in *; lia|done|].
  assert (Hstr : cstr_take (put8 m s (m t)) (t + 1) n = cstr_take m (t + 1) n).
  { apply cstr_take_ext. intros x Hx. apply Hsame. unfold apart in Hap. lia. }
  rewrite Hstr in *. clear Hstr. set (str := cstr_take m (t + 1) n) in *. simpl length.
  split_and!; [lia|lia|lia| | |].
  - intros [|k] c; simpl.
    + intros [= <-]. rewrite Z.add_0_r, H5 by lia. done.
    + intros Hk. apply H3 in Hk. by replace (s + Z.of_nat (S k)) with (s + 1 + Z.of_nat k) by lia.
  - destruct H4 as [H4|H4]; [left; lia|right].
    by replace (s + Z.of_nat (S (length str))) with (s + 1 + Z.of_nat (length str)) by lia.
  - intros x Hx. rewrite H5 by lia. apply Hsame. lia.
Qed.

(** What lies outside the buffer is not written. *)
Lemma copy_up_out n : forall m d s x, ~ d <= x < d + Z.of_nat n -> copy_up m d s n x = m x.
Proof.
  induction n as [|n IH]; intros m d s x Hx; cbn [copy_up]; [done|]. rewrite IH by lia. apply put8_out. lia.
Qed.

Lemma copy_down_out n : forall m d s x, ~ d - Z.of_nat n <= x < d -> copy_down m d s n x = m x.
Proof.
  induction n as [|n IH]; intros m d s x Hx; cbn [copy_down]; [done|]. rewrite IH by lia. apply put8_out. lia.
Qed.

Lemma memmove_out m dst src n x : ~ dst <= x < dst + Z.of_nat n -> memmove m dst src n x = m x.
Proof. intros Hx. unfold memmove. destruct (_ && _); [apply copy_down_out; lia|by apply copy_up_out]. Qed.

Lemma safestrcpy_out m s t n x : 0 < n -> ~ s <= x < s + n -> safestrcpy m s t n x = m x.
Proof.
  intros Hn Hx. unfold safestrcpy. rewrite (proj2 (Z.leb_gt _ _)) by done.
  destruct (copy_safe m s t (Z.to_nat (n - 1))) as [m1 s1] eqn:E.
  assert (s <= s1 < s + n /\ forall x, ~ s <= x < s + n -> m1 x = m x) as [Hs Hm].
  { replace n with (Z.of_nat (Z.to_nat (n - 1)) + 1) by lia. clear Hx Hn. revert m s t E.
    induction (Z.to_nat (n - 1)) as [|i IH]; intros m s t; cbn [copy_safe]; [intros [= <- <-]; split; [lia|done]|].
    assert (Hput : forall x, x <> s -> put8 m s (m t) x = m x) by (intros; by apply put8_out).
    destruct (m t =? 0).
    - intros [= <- <-]. split; [lia|]. intros y Hy. apply Hput. lia.
    - intros E. destruct (IH _ _ _ E) as [H1 H2]. split; [lia|]. intros y Hy. rewrite H2 by lia. apply Hput. lia. }
  rewrite put8_out by lia. by apply Hm.
Qed.

(** ** Properties *)

(** [safestrcpy] into a buffer of [n > 0] bytes that does not meet the
    source: the buffer holds the longest prefix of the string that leaves room
    for a NUL, then a NUL, and nothing outside the buffer is written. *)
Theorem safestrcpy_terminates m s t n (Hm : bytes_ok m) (Hn : 0 < n) (Hap : apart s t n) :
  let m' := safestrcpy m s t n in
  let str := cstr_take m t (Z.to_nat (n - 1)) in
  (forall k c, str !! k = Some c -> m' (s + Z.of_nat k) = c) /\
  m' (s + Z.of_nat (length str)) = 0 /\ Z.of_nat (length str) < n /\
  (forall x, x < s \/ s + n <= x -> m' x = m x).
Proof.
  intros m' str. unfold m', safestrcpy. destruct (Z.leb_spec n 0); [lia|].
  destruct (copy_safe m s t (Z.to_nat (n - 1))) as [m1 s1] eqn:E.
  assert (Hap' : apart s t (Z.of_nat (Z.to_nat (n - 1)) + 1)) by (unfold apart in *; lia).
  destruct (copy_safe_spec _ _ _ _ _ _ Hm Hap' E) as (H1 & H2 & H3 & H4 & H5).
  fold str in H2, H3, H4. pose proof (cstr_take_length m t (Z.to_nat (n - 1))) as Hlen. fold str in Hlen.
  split_and!.
  - intros k c Hk. pose proof (lookup_lt_Some _ _ _ Hk). rewrite put8_out by lia. by apply H3.
  - rewrite put8_at by done. case_decide as Ed; [done|]. by destruct H4 as [->|].
  - lia.
  - intros x Hx. rewrite put8_out by lia. apply H5. lia.
Qed.

Lemma safestrcpy_terminates_witness :
  let m : bytes := fun x => if x <? 10 then u8 (65 + x) else 0 in
  safestrcpy m 100 0 4 103 = 0.
Proof.
  intros m. destruct (safestrcpy_terminates m 100 0 4) as (_ & H & _).
  - intros x. unfold m. destruct (x <? 10); [apply u8_range|done].
  - lia.
  - unfold apart. lia.
  - exact H.
Defined.

End CString.
