(* ===== verification/Proc.v ===== *)
(** * Processes and threads

    [proc.c] of p3b: the process table, [fork] and [exit], [wait] and p3b's
    [clone] and [join], [sleep] and [wakeup], [kill] and the scheduler.  Each
    function runs with [ptable.lock] held, or on a slot in state [EMBRYO] that
    no other CPU touches; [wait], [join] and [sleep] end a turn where the code
    enters [sched].  A process pointer is an index of the table; the memory
    below is reached through the interface [Vmem]. *)

From S2P Require Import Prelude DfsImage Kalloc Vm File.
Local Open Scope Z_scope.
Local Open Scope xv6_scope.

(** What the process code calls of the allocator and the page tables; a null
    page or directory is 0. *)
Class Vmem (M : Type) := {
  vm_kalloc : M -> M * Z;
  vm_kfree : M -> Z -> outcome M;
  vm_setupkvm : M -> outcome (M * Z);
  vm_inituvm : M -> Z -> Z -> Z -> outcome M;
  vm_copyuvm : M -> Z -> Z -> outcome (M * Z);
  vm_freevm : M -> Z -> outcome M;
  vm_allocuvm : M -> Z -> Z -> Z -> outcome (M * Z);
  vm_deallocuvm : M -> Z -> Z -> Z -> outcome (M * Z);
  (** a store of a word to a user address of the page directory in use *)
  vm_store : M -> Z -> Z -> Z -> outcome M
}.

(** The implementation: [Kalloc] and [Vm].  A store of the kernel to a user
    address goes through the entry of the page, which has to be present and
    writable. *)
Definition store_user (k : Kalloc.kmem) (pgdir va v : Z) : outcome Kalloc.kmem :=
  let (k, pte) := Vm.walkpgdir k pgdir va false in
  if (pte =? 0) || negb (Vm.present (Vm.ld k pte)) || (Z.land (Vm.ld k pte) Vm.PTE_W =? 0) then Fault
  else Ret (Vm.st k (Vm.P2V (Vm.PTE_ADDR (Vm.ld k pte)) + va mod Kalloc.PGSIZE) v).

#[export] Instance kmem_vmem (kend data : Z) : Vmem Kalloc.kmem := {
  vm_kalloc := Kalloc.kalloc;
  vm_kfree := Kalloc.kfree kend;
  vm_setupkvm := Vm.setupkvm kend data;
  vm_inituvm := Vm.inituvm;
  vm_copyuvm := Vm.copyuvm kend data;
  vm_freevm := Vm.freevm kend;
  vm_allocuvm := Vm.allocuvm kend;
  vm_deallocuvm := Vm.deallocuvm kend;
  vm_store := store_user
}.

Module Proc.

Definition NPROC : nat := 64.
Definition NOFILE : nat := 16.
Definition PGSIZE : Z := 4096.
Definition KSTACKSIZE : Z := 4096.

Inductive procstate := UNUSED | EMBRYO | SLEEPING | RUNNABLE | RUNNING | ZOMBIE.
#[export] Instance procstate_dec : EqDecision procstate.
Proof. solve_decision. Defined.

(** A sleep channel: the address of a table slot, or another address. *)
Inductive channel := ChProc (i : nat) | ChAddr (a : Z).
#[export] Instance channel_dec : EqDecision channel.
Proof. solve_decision. Defined.

Record trapframe := {
  eax : Z; ebp : Z; esp : Z; eip : Z;
  cs : Z; ds : Z; es : Z; ss : Z; eflags : Z;
  others : list Z
}.

(** [context] is the pair of [context->eip] and the return address above it. *)
Record proc := {
  sz : Z; pgdir : Z; kstack : Z; state : procstate; pid : Z; parent : option nat;
  tf : trapframe; context : Z * Z; chan : channel; killed : bool;
  ofile : list (option nat); cwd : Z; name : list Z; stack : Z
}.

Definition with_state (s : procstate) (p : proc) : proc :=
  {| sz := sz p; pgdir := pgdir p; kstack := kstack p; state := s; pid := pid p; parent := parent p;
     tf := tf p; context := context p; chan := chan p; killed := killed p;
     ofile := ofile p; cwd := cwd p; name := name p; stack := stack p |}.
Definition with_pid (n : Z) (p : proc) : proc :=
  {| sz := sz p; pgdir := pgdir p; kstack := kstack p; state := state p; pid := n; parent := parent p;
     tf := tf p; context := context p; chan := chan p; killed := killed p;
     ofile := ofile p; cwd := cwd p; name := name p; stack := stack p |}.
Definition with_kstack (a : Z) (p : proc) : proc :=
  {| sz := sz p; pgdir := pgdir p; kstack := a; state := state p; pid := pid p; parent := parent p;
     tf := tf p; context := context p; chan := chan p; killed := killed p;
     ofile := ofile p; cwd := cwd p; name := name p; stack := stack p |}.
Definition with_context (c : Z * Z) (p : proc) : proc :=
  {| sz := sz p; pgdir := pgdir p; kstack := kstack p; state := state p; pid := pid p; parent := parent p;
     tf := tf p; context := c; chan := chan p; killed := killed p;
     ofile := ofile p; cwd := cwd p; name := name p; stack := stack p |}.
Definition with_sz (n : Z) (p : proc) : proc :=
  {| sz := n; pgdir := pgdir p; kstack := kstack p; state := state p; pid := pid p; parent := parent p;
     tf := tf p; context := context p; chan := chan p; killed := killed p;
     ofile := ofile p; cwd := cwd p; name := name p; stack := stack p |}.
Definition with_pgdir (d : Z) (p : proc) : proc :=
  {| sz := sz p; pgdir := d; kstack := kstack p; state := state p; pid := pid p; parent := parent p;
     tf := tf p; context := context p; chan := chan p; killed := killed p;
     ofile := ofile p; cwd := cwd p; name := name p; stack := stack p |}.
Definition with_parent (q : option nat) (p : proc) : proc :=
  {| sz := sz p; pgdir := pgdir p; kstack := kstack p; state := state p; pid := pid p; parent := q;
     tf := tf p; context := context p; chan := chan p; killed := killed p;
     ofile := ofile p; cwd := cwd p; name := name p; stack := stack p |}.
Definition with_tf (t : trapframe) (p : proc) : proc :=
  {| sz := sz p; pgdir := pgdir p; kstack := kstack p; state := state p; pid := pid p; parent := parent p;
     tf := t; context := context p; chan := chan p; killed := killed p;
     ofile := ofile p; cwd := cwd p; name := name p; stack := stack p |}.
Definition with_chan (c : channel) (p : proc) : proc :=
  {| sz := sz p; pgdir := pgdir p; kstack := kstack p; state := state p; pid := pid p; parent := parent p;
     tf := tf p; context := context p; chan := c; killed := killed p;
     ofile := ofile p; cwd := cwd p; name := name p; stack := stack p |}.
Definition with_killed (b : bool) (p : proc) : proc :=
  {| sz := sz p; pgdir := pgdir p; kstack := kstack p; state := state p; pid := pid p; parent := parent p;
     tf := tf p; context := context p; chan := chan p; killed := b;
     ofile := ofile p; cwd := cwd p; name := name p; stack := stack p |}.
Definition with_files (fs : list (option nat)) (d : Z) (p : proc) : proc :=
  {| sz := sz p; pgdir := pgdir p; kstack := kstack p; state := state p; pid := pid p; parent := parent p;
     tf := tf p; context := context p; chan := chan p; killed := killed p;
     ofile := fs; cwd := d; name := name p; stack := stack p |}.
Definition with_name (n : list Z) (p : proc) : proc :=
  {| sz := sz p; pgdir := pgdir p; kstack := kstack p; state := state p; pid := pid p; parent := parent p;
     tf := tf p; context := context p; chan := chan p; killed := killed p;
     ofile := ofile p; cwd := cwd p; name := n; stack := stack p |}.
Definition with_stack (a : Z) (p : proc) : proc :=
  {| sz := sz p; pgdir := pgdir p; kstack := kstack p; state := state p; pid := pid p; parent := parent p;
     tf := tf p; context := context p; chan := chan p; killed := killed p;
     ofile := ofile p; cwd := cwd p; name := name p; stack := a |}.

(** [safestrcpy(dst, src, 16)] into [name]: the bytes up to the NUL or the
    first 15, then a NUL; the rest of the array stays. *)
Fixpoint take_str (src : list Z) (n : nat) : list Z :=
  match n, src with
  | S n, c :: src => if c =? 0 then [] else c :: take_str src n
  | _, _ => []
  end.
Definition safe_name (dst src : list Z) : list Z :=
  let s := take_str src 15 in s ++ 0 :: drop (S (length s)) dst.

Section kernel.
Context {M : Type} `{Vmem M} (forkret trapret : Z).

Record kernel := {
  ptable : list proc;
  nextpid : Z;
  initproc : option nat;
  memory : M;
  files : list File.file;
  iref : Z -> Z
}.

Definition with_ptable (t : list proc) (k : kernel) : kernel :=
  {| ptable := t; nextpid := nextpid k; initproc := initproc k; memory := memory k; files := files k; iref := iref k |}.
Definition with_nextpid (n : Z) (k : kernel) : kernel :=
  {| ptable := ptable k; nextpid := n; initproc := initproc k; memory := memory k; files := files k; iref := iref k |}.
Definition with_init (i : nat) (k : kernel) : kernel :=
  {| ptable := ptable k; nextpid := nextpid k; initproc := Some i; memory := memory k; files := files k; iref := iref k |}.
Definition with_memory (m : M) (k : kernel) : kernel :=
  {| ptable := ptable k; nextpid := nextpid k; initproc := initproc k; memory := m; files := files k; iref := iref k |}.
Definition with_ftable (f : list File.file) (k : kernel) : kernel :=
  {| ptable := ptable k; nextpid := nextpid k; initproc := initproc k; memory := memory k; files := f; iref := iref k |}.
Definition with_iref (r : Z -> Z) (k : kernel) : kernel :=
  {| ptable := ptable k; nextpid := nextpid k; initproc := initproc k; memory := memory k; files := files k; iref := r |}.

(** An update of slot [i]. *)
Definition upd (i : nat) (f : proc -> proc) (k : kernel) : kernel :=
  with_ptable (alter f i (ptable k)) k.

(** ** Allocation *)

(** The first slot from [i] on whose process satisfies [f]. *)
Fixpoint find_slot (f : proc -> bool) (t : list proc) (i : nat) : option nat :=
  match t with
  | [] => None
  | p :: t => if f p then Some i else find_slot f t (S i)
  end.

Definition is_state (s : procstate) (p : proc) : bool := bool_decide (state p = s).

Definition allocproc (k : kernel) : kernel * option nat :=
  match find_slot (is_state UNUSED) (ptable k) 0 with
  | None => (k, None)
  | Some i =>
      let k := upd i (fun p => with_pid (nextpid k) (with_state EMBRYO p)) k in
      let k := with_nextpid (s32 (nextpid k + 1)) k in
      let (m, page) := vm_kalloc (memory k) in
      let k := with_memory m k in
      let k := upd i (with_kstack page) k in
      if page =? 0 then (upd i (with_state UNUSED) k, None)
      else (upd i (with_context (forkret, trapret)) k, Some i)
  end.

(** The trap frame [userinit] builds, zero elsewhere. *)
Definition init_frame : trapframe :=
  {| eax := 0; ebp := 0; esp := PGSIZE; eip := 0; cs := 27; ds := 35; es := 35; ss := 35;
     eflags := 512; others := replicate 10 0 |}.

(** [init] and [size] place [initcode] in memory, [root] is [namei("/")]. *)
Definition userinit (k : kernel) (init size root : Z) (initcode : list Z) : outcome kernel :=
  let (k, p) := allocproc k in
  match p with
  | None => Fault
  | Some i =>
      let k := with_init i k in
      let* (m, d) := vm_setupkvm (memory k) in
      let k := upd i (with_pgdir d) (with_memory m k) in
      if d =? 0 then Panic "userinit: out of memory?"
      else
        let* m := vm_inituvm (memory k) d init size in
        let k := with_memory m k in
        let k := upd i (with_sz PGSIZE) k in
        let k := upd i (with_tf init_frame) k in
        let k := upd i (fun p => with_name (safe_name (name p) initcode) p) k in
        let k := upd i (fun p => with_files (ofile p) root p) k in
        Ret (upd i (with_state RUNNABLE) k)
  end.

Definition growproc (k : kernel) (curproc : nat) (n : Z) : outcome (kernel * Z) :=
  let* cp := of_option (ptable k !! curproc) in
  let* (m, new) :=
    if 0 <? n then
      let* (m, new) := vm_allocuvm (memory k) (pgdir cp) (sz cp) (u32 (sz cp + n)) in
      Ret (m, if new =? 0 then None else Some new)
    else if n <? 0 then
      let* (m, new) := vm_deallocuvm (memory k) (pgdir cp) (sz cp) (u32 (sz cp + n)) in
      Ret (m, if new =? 0 then None else Some new)
    else Ret (memory k, Some (sz cp)) in
  let k := with_memory m k in
  match new with
  | None => Ret (k, -1)
  | Some new =>
      let t := map (fun p => if pgdir p =? pgdir cp then with_sz new p else p) (ptable k) in
      Ret (with_ptable t k, 0)
  end.

(** [np->ofile[i] = filedup(curproc->ofile[i])] for the open files. *)
Fixpoint dup_files (t : list File.file) (src dst : list (option nat)) :
    outcome (list File.file * list (option nat)) :=
  match src, dst with
  | Some f :: src, _ :: dst =>
      let* t := File.filedup t f in
      let* (t, dst) := dup_files t src dst in
      Ret (t, Some f :: dst)
  | None :: src, d :: dst =>
      let* (t, dst) := dup_files t src dst in
      Ret (t, d :: dst)
  | _, _ => Ret (t, dst)
  end.

(** [idup]. *)
Definition idup (k : kernel) (ip : Z) : kernel :=
  with_iref (fun x => if x =? ip then iref k x + 1 else iref k x) k.

(** What [fork] and [clone] share after the memory is set up: files, current
    directory and name of [curproc] for the new process. *)
Definition copy_proc (k : kernel) (curproc np : nat) : outcome kernel :=
  let* cp := of_option (ptable k !! curproc) in
  let* p := of_option (ptable k !! np) in
  let* (t, fs) := dup_files (files k) (ofile cp) (ofile p) in
  let k := with_ftable t k in
  let k := idup k (cwd cp) in
  let k := upd np (with_files fs (cwd cp)) k in
  Ret (upd np (fun p => with_name (safe_name (name p) (name cp)) p) k).

Definition with_eax (v : Z) (t : trapframe) : trapframe :=
  {| eax := v; ebp := ebp t; esp := esp t; eip := eip t; cs := cs t; ds := ds t; es := es t; ss := ss t;
     eflags := eflags t; others := others t |}.

Definition fork (k : kernel) (curproc : nat) : outcome (kernel * Z) :=
  let* cp := of_option (ptable k !! curproc) in
  let (k, np) := allocproc k in
  match np with
  | None => Ret (k, -1)
  | Some np =>
      let* p := of_option (ptable k !! np) in
      let* (m, d) := vm_copyuvm (memory k) (pgdir cp) (sz cp) in
      let k := upd np (with_pgdir d) (with_memory m k) in
      if d =? 0 then
        let* m := vm_kfree (memory k) (kstack p) in
        let k := with_memory m k in
        let k := upd np (with_kstack 0) k in
        Ret (upd np (with_state UNUSED) k, -1)
      else
        let k := upd np (with_sz (sz cp)) k in
        let k := upd np (with_parent (Some curproc)) k in
        let k := upd np (with_tf (with_eax 0 (tf cp))) k in
        let* k := copy_proc k curproc np in
        Ret (upd np (with_state RUNNABLE) k, pid p)
  end.

(** The trap frame [clone] gives the thread. *)
Definition thread_frame (t : trapframe) (sp fcn : Z) : trapframe :=
  {| eax := 0; ebp := u32 (sp - 12); esp := u32 (sp - 12); eip := fcn; cs := cs t; ds := ds t; es := es t;
     ss := ss t; eflags := eflags t; others := others t |}.

Definition clone (k : kernel) (curproc : nat) (fcn arg1 arg2 ustack : Z) : outcome (kernel * Z) :=
  let* cp := of_option (ptable k !! curproc) in
  if negb (ustack mod PGSIZE =? 0) || (u32 (sz cp - ustack) <? PGSIZE) then Ret (k, -1)
  else
    let (k, np) := allocproc k in
    match np with
    | None => Ret (k, -1)
    | Some np =>
        let* p := of_option (ptable k !! np) in
        let k := upd np (with_pgdir (pgdir cp)) k in
        let k := upd np (with_sz (sz cp)) k in
        let k := upd np (with_parent (Some curproc)) k in
        let sp := u32 (ustack + PGSIZE) in
        let* m := vm_store (memory k) (pgdir cp) (u32 (sp - 4)) arg2 in
        let* m := vm_store m (pgdir cp) (u32 (sp - 8)) arg1 in
        let* m := vm_store m (pgdir cp) (u32 (sp - 12)) 4294967295 in
        let k := with_memory m k in
        let k := upd np (with_tf (thread_frame (tf cp) sp fcn)) k in
        let* k := copy_proc k curproc np in
        let k := upd np (with_state RUNNABLE) k in
        Ret (upd np (with_stack ustack) k, pid p)
    end.

(** ** Sleeping, waking, killing *)

Definition wakes (c : channel) (p : proc) : bool :=
  bool_decide (state p = SLEEPING) && bool_decide (chan p = c).

Definition wakeup1 (c : channel) (k : kernel) : kernel :=
  with_ptable (map (fun p => if wakes c p then with_state RUNNABLE p else p) (ptable k)) k.

Definition wakeup (k : kernel) (c : channel) : kernel := wakeup1 c k.

(** [sleep] up to [sched]; [curproc] and the lock may be null. *)
Definition sleep (k : kernel) (curproc : option nat) (c : channel) (lk_null : bool) : outcome kernel :=
  match curproc with
  | None => Panic "sleep"
  | Some p =>
      if lk_null then Panic "sleep without lk"
      else Ret (upd p (with_state SLEEPING) (upd p (with_chan c) k))
  end.

(** [sleep] once it runs again. *)
Definition sleep_return (k : kernel) (curproc : nat) : kernel := upd curproc (with_chan (ChAddr 0)) k.

Definition kill (k : kernel) (n : Z) : kernel * Z :=
  match find_slot (fun p => pid p =? n) (ptable k) 0 with
  | None => (k, -1)
  | Some i =>
      let k := upd i (with_killed true) k in
      (upd i (fun p => if is_state SLEEPING p then with_state RUNNABLE p else p) k, 0)
  end.

(** ** Leaving and collecting *)

(** The channel of a parent pointer: a null pointer is the address 0. *)
Definition parent_chan (q : option nat) : channel :=
  match q with Some i => ChProc i | None => ChAddr 0 end.

(** [for(fd = 0; fd < NOFILE; fd++)] of [exit]. *)
Fixpoint close_files (t : list File.file) (fds : list (option nat)) :
    outcome (list File.file * list File.release) :=
  match fds with
  | [] => Ret (t, [])
  | None :: fds => close_files t fds
  | Some f :: fds =>
      let* (t, r) := File.fileclose t f in
      let* (t, rs) := close_files t fds in
      Ret (t, r :: rs)
  end.

(** [for(p = ptable.proc; ...)] of [exit], from slot [i] on. *)
Fixpoint reparent (k : kernel) (curproc : nat) (n i : nat) : kernel :=
  match n with
  | O => k
  | S n =>
      let k :=
        match ptable k !! i with
        | Some p =>
            if bool_decide (parent p = Some curproc) then
              let k := upd i (with_parent (initproc k)) k in
              if is_state ZOMBIE p then wakeup1 (parent_chan (initproc k)) k else k
            else k
        | None => k
        end in
      reparent k curproc n (S i)
  end.

(** [exit] up to [sched], with what the closed files and [iput(cwd)] ask of
    the layers below, in order. *)
Definition exit (k : kernel) (curproc : nat) : outcome (kernel * list File.release) :=
  let* cp := of_option (ptable k !! curproc) in
  if bool_decide (initproc k = Some curproc) then Panic "init exiting"
  else
    let* (t, rs) := close_files (files k) (ofile cp) in
    let k := with_ftable t k in
    let k := upd curproc (with_files (map (fun _ => None) (ofile cp)) 0) k in
    let k := wakeup1 (parent_chan (parent cp)) k in
    let k := reparent k curproc (length (ptable k)) 0 in
    Ret (upd curproc (with_state ZOMBIE) k, rs ++ [File.RInode (cwd cp)]).

(** How a turn of [wait] or [join] ends. *)
Inductive turn := TRet (r : Z) | TSleep.

(** A child [wait] may collect. *)
Definition wait_child (curproc : nat) (cp p : proc) : bool :=
  bool_decide (parent p = Some curproc) && negb (pgdir p =? pgdir cp).
Definition join_child (curproc : nat) (cp p : proc) : bool :=
  bool_decide (parent p = Some curproc) && (pgdir p =? pgdir cp).

(** The fields both reset on the slot they collect. *)
Definition reap (p : proc) : proc :=
  with_state UNUSED (with_killed false (with_name (<[0%nat := 0]> (name p))
    (with_parent None (with_pid 0 (with_kstack 0 p))))).

(** One turn: scan for a zombie among the children, else fail or sleep.  The
    scan stops at the first zombie child, and [havekids] holds exactly when
    some child is found. *)
Definition wait (k : kernel) (curproc : nat) : outcome (kernel * turn) :=
  let* cp := of_option (ptable k !! curproc) in
  match find_slot (fun p => wait_child curproc cp p && is_state ZOMBIE p) (ptable k) 0 with
  | Some i =>
      let* p := of_option (ptable k !! i) in
      let* m := vm_kfree (memory k) (kstack p) in
      let* m := vm_freevm m (pgdir p) in
      Ret (upd i reap (with_memory m k), TRet (pid p))
  | None =>
      if negb (existsb (wait_child curproc cp) (ptable k)) || killed cp then Ret (k, TRet (-1))
      else
        let* k := sleep k (Some curproc) (ChProc curproc) false in Ret (k, TSleep)
  end.

(** [join] returns the user stack as well. *)
Definition join (k : kernel) (curproc : nat) : outcome (kernel * turn * option Z) :=
  let* cp := of_option (ptable k !! curproc) in
  match find_slot (fun p => join_child curproc cp p && is_state ZOMBIE p) (ptable k) 0 with
  | Some i =>
      let* p := of_option (ptable k !! i) in
      let* m := vm_kfree (memory k) (kstack p) in
      Ret (upd i reap (with_memory m k), TRet (pid p), Some (stack p))
  | None =>
      if negb (existsb (join_child curproc cp) (ptable k)) || killed cp then Ret (k, TRet (-1), None)
      else
        let* k := sleep k (Some curproc) (ChProc curproc) false in Ret (k, TSleep, None)
  end.

(** ** Scheduling *)

(** The checks of [sched]: whether [ptable.lock] is held, [ncli], the state of
    the process and the interrupt flag. *)
Definition sched (holding : bool) (ncli : Z) (p : proc) (FL_IF : bool) : outcome unit :=
  if negb holding then Panic "sched ptable.lock"
  else if negb (ncli =? 1) then Panic "sched locks"
  else if is_state RUNNING p then Panic "sched running"
  else if FL_IF then Panic "sched interruptible"
  else Ret tt.

Definition yield (k : kernel) (curproc : nat) : kernel := upd curproc (with_state RUNNABLE) k.

(** One pass of [scheduler] over the slots [ixs]: [run k i] is the state when
    process [i], switched to in state [k], has come back through [sched]; the
    pass records the processes it ran. *)
Fixpoint scheduler_pass (run : kernel -> nat -> kernel) (k : kernel) (ixs : list nat) : kernel * list nat :=
  match ixs with
  | [] => (k, [])
  | i :: ixs =>
      match ptable k !! i with
      | Some p =>
          if is_state RUNNABLE p then
            let k := upd i (with_state RUNNING) k in
            let k := run k i in
            let (k, l) := scheduler_pass run k ixs in (k, i :: l)
          else scheduler_pass run k ixs
      | None => scheduler_pass run k ixs
      end
  end.

Definition scheduler (run : kernel -> nat -> kernel) (k : kernel) : kernel * list nat :=
  scheduler_pass run k (seq 0 NPROC).

(** [mycpu] with the ids of the CPUs and the one [lapicid] reads. *)
Fixpoint find_cpu (apicids : list Z) (apicid : Z) (i : nat) : option nat :=
  match apicids with
  | [] => None
  | a :: apicids => if a =? apicid then Some i else find_cpu apicids apicid (S i)
  end.
Definition mycpu (FL_IF : bool) (apicids : list Z) (apicid : Z) : outcome nat :=
  if FL_IF then Panic "mycpu called with interrupts enabled
"
  else match find_cpu apicids apicid 0 with Some i => Ret i | None => Panic "unknown apicid
" end.

End kernel.
Arguments kernel : clear implicits.

End Proc.
