(* ===== verification/ProcThms.v ===== *)
(** * Processes and threads: theorems

    The invariant of the process table and its queues, over any memory; the
    wake-up at exit over the memory of [VmLife]; fixed runs over a small one. *)

From S2P Require Import Prelude DfsImage Kalloc Vm VmSpec VmThms VmLife File Proc.
Import Proc.
Local Open Scope Z_scope.
Local Open Scope xv6_scope.

Module ProcThms.

Section thms.
Context {M : Type} `{Vmem M} (forkret trapret : Z).
Implicit Types (k : kernel M) (t : list proc) (p q : proc) (i j c : nat).

(** ** The transitions of the process table *)

Definition running k c : Prop := exists p, ptable k !! c = Some p /\ state p = RUNNING.

(** A running process makes a call, or a process is scheduled.  Calls that
    create a process need a process number below 2^31 - 1. *)
Inductive pstep : kernel M -> kernel M -> Prop :=
| ps_fork k c k' r : running k c -> nextpid k < 2 ^ 31 - 1 -> fork forkret trapret k c = Ret (k', r) -> pstep k k'
| ps_clone k c fcn a1 a2 st k' r :
    running k c -> nextpid k < 2 ^ 31 - 1 -> clone forkret trapret k c fcn a1 a2 st = Ret (k', r) -> pstep k k'
| ps_exit k c k' rs : running k c -> exit k c = Ret (k', rs) -> pstep k k'
| ps_wait k c k' r : running k c -> wait k c = Ret (k', r) -> pstep k k'
| ps_join k c k' r s : running k c -> join k c = Ret (k', r, s) -> pstep k k'
| ps_grow k c n k' r : running k c -> growproc k c n = Ret (k', r) -> pstep k k'
| ps_sleep k c ch k' : running k c -> sleep k (Some c) ch false = Ret k' -> pstep k k'
| ps_sleep_return k c : running k c -> pstep k (sleep_return k c)
| ps_wakeup k ch : pstep k (wakeup k ch)
| ps_kill k n : pstep k (kill k n).1
| ps_yield k c : running k c -> pstep k (yield k c)
| ps_run k i p : ptable k !! i = Some p -> state p = RUNNABLE -> pstep k (upd i (with_state RUNNING) k).

(** ** The invariant *)

Definition live p : Prop := state p <> UNUSED.

(** [p] is a process a child can have as its parent. *)
Definition can_parent p : Prop := state p <> UNUSED /\ state p <> ZOMBIE.

Definition parent_at t c : Prop := exists q, t !! c = Some q /\ can_parent q.

Record table_ok t (next : Z) (init : nat) : Prop := {
  tk_init : exists p, t !! init = Some p /\ can_parent p;
  tk_pid i p : t !! i = Some p -> live p -> 0 < pid p < next;
  tk_unique i j p q : t !! i = Some p -> t !! j = Some q -> live p -> live q -> pid p = pid q -> i = j;
  tk_parent i p : t !! i = Some p -> live p -> i <> init ->
    exists j q, parent p = Some j /\ t !! j = Some q /\ can_parent q;
  tk_unused i p j : t !! i = Some p -> parent p = Some j -> live p
}.

Definition procs_ok k : Prop :=
  exists init, initproc k = Some init /\ table_ok (ptable k) (nextpid k) init.

(** ** Updates of the table *)

(** A change of fields the invariant does not look at, or a wake-up. *)
Definition benign p p' : Prop :=
  (live p -> pid p' = pid p) /\ parent p' = parent p /\ (live p' <-> live p) /\ (can_parent p' <-> can_parent p).

Definition benign_table t t' : Prop :=
  forall i, match t !! i, t' !! i with
            | Some p, Some p' => benign p p'
            | None, None => True
            | _, _ => False
            end.

Lemma benign_refl p : benign p p.
Proof. by split_and!. Qed.

Lemma table_benign t t' next init : benign_table t t' -> table_ok t next init -> table_ok t' next init.
Proof.
  intros Hb [Hi Hp Hu Hpa Hun].
  assert (Hback : forall i p', t' !! i = Some p' -> exists p, t !! i = Some p /\ benign p p').
  { intros i p' E. specialize (Hb i). rewrite E in Hb. destruct (t !! i) as [p|]; [by exists p|done]. }
  assert (Hfwd : forall i p, t !! i = Some p -> exists p', t' !! i = Some p' /\ benign p p').
  { intros i p E. specialize (Hb i). rewrite E in Hb. destruct (t' !! i) as [p'|]; [by exists p'|done]. }
  split.
  - destruct Hi as (p & E & Hc). destruct (Hfwd _ _ E) as (p' & E' & _ & _ & _ & Hb'). exists p'. split; [done|tauto].
  - intros i p' E Hl. destruct (Hback _ _ E) as (p & E0 & Hpid & _ & Hlv & _).
    rewrite Hpid by tauto. apply (Hp i); [done|tauto].
  - intros i j p' q' E1 E2 H1 H2.
    destruct (Hback _ _ E1) as (p & F1 & P1 & _ & L1 & _), (Hback _ _ E2) as (q & F2 & P2 & _ & L2 & _).
    rewrite P1, P2 by tauto. apply (Hu i j p q); tauto.
  - intros i p' E Hl Hne. destruct (Hback _ _ E) as (p & E0 & _ & -> & Hlv & _).
    destruct (Hpa i p E0) as (j & q & Hj & Eq & Hc); [tauto|done|].
    destruct (Hfwd _ _ Eq) as (q' & Eq' & _ & _ & _ & Hc'). exists j, q'. split_and!; [done|done|tauto..].
  - intros i p' j E Hj. destruct (Hback _ _ E) as (p & E0 & _ & Hpa' & Hlv & _).
    apply Hlv, (Hun i p j); [done|congruence].
Qed.

Lemma benign_map t (f : proc -> proc) : (forall p, benign p (f p)) -> benign_table t (map f t).
Proof.
  intros Hf i. rewrite list_lookup_fmap. by destruct (t !! i); simpl.
Qed.

Lemma benign_alter t (f : proc -> proc) i :
  (forall p, t !! i = Some p -> benign p (f p)) -> benign_table t (alter f i t).
Proof.
  intros Hf j. destruct (decide (i = j)) as [<-|Hne].
  - rewrite list_lookup_alter_eq. destruct (t !! i) eqn:E; simpl; auto.
  - rewrite list_lookup_alter_ne by done. destruct (t !! j); [apply benign_refl|done].
Qed.

Lemma benign_trans t1 t2 t3 : benign_table t1 t2 -> benign_table t2 t3 -> benign_table t1 t3.
Proof.
  intros H1 H2 i. specialize (H1 i). specialize (H2 i).
  destruct (t1 !! i), (t2 !! i), (t3 !! i); try done.
  destruct H1 as (P1 & E1 & L1 & C1), H2 as (P2 & E2 & L2 & C2). split_and!; [|congruence|tauto|tauto].
  intros Hl. rewrite P2, P1 by tauto. done.
Qed.

Lemma benign_table_refl t : benign_table t t.
Proof. intros i. destruct (t !! i); [apply benign_refl|done]. Qed.

Lemma benign_insert t i p p' : t !! i = Some p -> benign p p' -> benign_table t (<[i := p']> t).
Proof.
  intros E Hb j. destruct (decide (i = j)) as [<-|].
  - rewrite E, list_lookup_insert_eq; [done|by eapply lookup_lt_Some].
  - rewrite list_lookup_insert_ne by done. destruct (t !! j); [apply benign_refl|done].
Qed.

(** Fields changed on a slot that is not in use. *)
Lemma benign_unused p p' : state p = UNUSED -> state p' = UNUSED -> parent p' = parent p -> benign p p'.
Proof. intros E E' Hp. unfold benign, live, can_parent. rewrite E, E'. tauto. Qed.

Lemma wakeup1_benign ch t :
  benign_table t (map (fun p => if wakes ch p then with_state RUNNABLE p else p) t).
Proof.
  apply benign_map. intros p. unfold wakes, benign, live, can_parent.
  destruct (decide (state p = SLEEPING)) as [E|E]; destruct (decide (chan p = ch)); simpl; rewrite ?E;
    rewrite ?bool_decide_eq_true_2, ?bool_decide_eq_false_2 by done; simpl; rewrite ?E; intuition congruence.
Qed.

Lemma table_next t next next' init : next <= next' -> table_ok t next init -> table_ok t next' init.
Proof. intros Hn [H1 H2 H3 H4 H5]. split; try done. intros i p E Hl. specialize (H2 i p E Hl). lia. Qed.

(** A new process in an unused slot. *)
Lemma table_new t next init i p0 p' c :
  table_ok t next init -> 0 < next -> t !! i = Some p0 -> state p0 = UNUSED ->
  pid p' = next -> can_parent p' -> parent p' = Some c -> parent_at t c ->
  table_ok (<[i := p']> t) (next + 1) init.
Proof.
  intros [H1 H2 H3 H4 H5] Hn Ei Hun Hpid Hcan Hpar (q & Ec & Hq).
  assert (Hlt : (i < length t)%nat) by (by eapply lookup_lt_Some).
  assert (Hc : c <> i) by (intros ->; destruct Hq; congruence).
  assert (Hi : init <> i) by (intros ->; destruct H1 as (p & E & [? ?]); congruence).
  assert (Hlook : forall j p, <[i := p']> t !! j = Some p -> (j = i /\ p = p') \/ (j <> i /\ t !! j = Some p)).
  { intros j p. destruct (decide (j = i)) as [->|].
    - rewrite list_lookup_insert_eq by done. intros [= <-]. by left.
    - rewrite list_lookup_insert_ne by done. by right. }
  split.
  - destruct H1 as (p & E & ?). exists p. split; [by rewrite list_lookup_insert_ne|done].
  - intros j p E Hl. apply Hlook in E as [[-> ->]|[? E]]; [lia|]. specialize (H2 j p E Hl). lia.
  - intros j j' p p2 E E' Hl Hl' Hp. apply Hlook in E as [[-> ->]|[? E]], E' as [[-> ->]|[? E']]; try done.
    + specialize (H2 _ _ E' Hl'). lia.
    + specialize (H2 _ _ E Hl). lia.
    + by apply (H3 j j' p p2).
  - intros j p E Hl Hj. apply Hlook in E as [[-> ->]|[? E]].
    + exists c, q. split_and!; [done|by rewrite list_lookup_insert_ne|done..].
    + destruct (H4 j p E Hl Hj) as (j' & q' & ? & E' & [? ?]). exists j', q'. split_and!; [done| |done..].
      rewrite list_lookup_insert_ne; [done|]. congruence.
  - intros j p j' E Hp. apply Hlook in E as [[-> ->]|[? E]]; [apply Hcan|by apply (H5 j p j')].
Qed.

(** A process becomes a zombie, its children having been given away. *)
Lemma table_zombie t next init c p p' :
  table_ok t next init -> c <> init -> t !! c = Some p -> live p ->
  pid p' = pid p -> parent p' = parent p -> state p' = ZOMBIE ->
  (forall i q, t !! i = Some q -> parent q <> Some c) ->
  table_ok (<[c := p']> t) next init.
Proof.
  intros [H1 H2 H3 H4 H5] Hci Ec Hlive Hpid Hpar Hz Hno.
  assert (Hlt : (c < length t)%nat) by (by eapply lookup_lt_Some).
  assert (Hl' : live p') by (unfold live; by rewrite Hz).
  assert (Hlook : forall j q, <[c := p']> t !! j = Some q -> (j = c /\ q = p') \/ (j <> c /\ t !! j = Some q)).
  { intros j q. destruct (decide (j = c)) as [->|].
    - rewrite list_lookup_insert_eq by done. intros [= <-]. by left.
    - rewrite list_lookup_insert_ne by done. by right. }
  assert (Hpp : forall i q, t !! i = Some q -> live q -> i <> init ->
    exists j r, parent q = Some j /\ <[c := p']> t !! j = Some r /\ can_parent r).
  { intros i q E Hl Hi. destruct (H4 i q E Hl Hi) as (j & r & Ej & Er & Hc). exists j, r. split_and!; [done| |done..].
    rewrite list_lookup_insert_ne; [done|]. intros <-. by apply (Hno i q). }
  split.
  - destruct H1 as (q & E & ?). exists q. split; [by rewrite list_lookup_insert_ne|done].
  - intros j q E Hl. apply Hlook in E as [[-> ->]|[? E]]; [rewrite Hpid; by apply (H2 c)|by apply (H2 j)].
  - intros j j' q q' E E' Hl1 Hl2 Hp.
    apply Hlook in E as [[-> ->]|[? E]], E' as [[-> ->]|[? E']]; try done.
    + rewrite Hpid in Hp. by apply (H3 c j' p q').
    + rewrite Hpid in Hp. by apply (H3 j c q p).
    + by apply (H3 j j' q q').
  - intros j q E Hl Hi. apply Hlook in E as [[-> ->]|[? E]]; [|by eapply Hpp].
    rewrite Hpar. by eapply Hpp.
  - intros j q j' E Hp. apply Hlook in E as [[-> ->]|[? E]]; [done|by apply (H5 j q j')].
Qed.

(** A zombie's slot is freed. *)
Lemma table_reaped t next init i p :
  table_ok t next init -> t !! i = Some p -> state p = ZOMBIE -> table_ok (<[i := reap p]> t) next init.
Proof.
  intros [H1 H2 H3 H4 H5] Ei Hz.
  assert (Hlt : (i < length t)%nat) by (by eapply lookup_lt_Some).
  assert (Hlook : forall j q, <[i := reap p]> t !! j = Some q -> (j = i /\ q = reap p) \/ (j <> i /\ t !! j = Some q)).
  { intros j q. destruct (decide (j = i)) as [->|].
    - rewrite list_lookup_insert_eq by done. intros [= <-]. by left.
    - rewrite list_lookup_insert_ne by done. by right. }
  assert (Hne : forall j q, t !! j = Some q -> can_parent q -> j <> i).
  { intros j q E [_ Hc] ->. congruence. }
  split.
  - destruct H1 as (q & E & Hc). exists q. split; [|done]. rewrite list_lookup_insert_ne; [done|]. by apply not_eq_sym, (Hne _ q).
  - intros j q E Hl. apply Hlook in E as [[-> ->]|[? E]]; [done|by apply (H2 j)].
  - intros j j' q q' E E' Hl1 Hl2. apply Hlook in E as [[-> ->]|[? E]], E' as [[-> ->]|[? E']]; try done.
    by apply (H3 j j' q q').
  - intros j q E Hl Hj. apply Hlook in E as [[-> ->]|[? E]]; [done|].
    destruct (H4 j q E Hl Hj) as (j' & q' & ? & E' & Hc). exists j', q'. split_and!; [done| |apply Hc..].
    rewrite list_lookup_insert_ne; [done|]. by apply not_eq_sym, (Hne _ q').
  - intros j q j' E Hp. apply Hlook in E as [[-> ->]|[? E]]; [done|by apply (H5 j q j')].
Qed.

(** ** The operations *)

Lemma find_slot_Some (f : proc -> bool) t n i :
  find_slot f t n = Some i -> exists p, (n <= i)%nat /\ t !! (i - n)%nat = Some p /\ f p = true.
Proof.
  revert n. induction t as [|p t IH]; intros n; simpl; [done|]. destruct (f p) eqn:E.
  - intros [= <-]. exists p. rewrite Nat.sub_diag. by split_and!.
  - intros Hf. destruct (IH _ Hf) as (q & Hle & Hq & ?). exists q. split_and!; [lia| |done].
    replace (i - n)%nat with (S (i - S n)) by lia. done.
Qed.

Lemma find_slot_None (f : proc -> bool) t n : find_slot f t n = None <-> forall p, p ∈ t -> f p = false.
Proof.
  revert n. induction t as [|p t IH]; intros n; simpl.
  - split; [|done]. intros _ p Hp. by apply elem_of_nil in Hp.
  - destruct (f p) eqn:E.
    + split; [done|]. intros Hf. rewrite Hf in E; [done|left].
    + rewrite IH. split.
      * intros Hf q [->|?]%elem_of_cons; auto.
      * intros Hf q ?. apply Hf. by right.
Qed.

Lemma find_slot_0 (f : proc -> bool) t i :
  find_slot f t 0 = Some i -> exists p, t !! i = Some p /\ f p = true.
Proof. intros (p & _ & Hp & ?)%find_slot_Some. rewrite Nat.sub_0_r in Hp. by exists p. Qed.

Lemma ptable_upd k i (f : proc -> proc) p :
  ptable k !! i = Some p -> ptable (upd i f k) = <[i := f p]> (ptable k).
Proof.
  intros E. unfold upd. simpl. apply list_eq. intros j. destruct (decide (i = j)) as [<-|].
  - rewrite list_lookup_alter_eq, E. simpl. rewrite list_lookup_insert_eq; [done|by eapply lookup_lt_Some].
  - by rewrite list_lookup_alter_ne, list_lookup_insert_ne.
Qed.

(** The table is [t] except for slot [i], which holds [p]. *)
Definition at_slot t i p k : Prop := ptable k = <[i := p]> t /\ (i < length t)%nat.

Lemma at_start k i p : ptable k !! i = Some p -> at_slot (ptable k) i p k.
Proof. intros E. split; [|by eapply lookup_lt_Some]. by rewrite list_insert_id. Qed.

Lemma at_upd t i p k (f : proc -> proc) : at_slot t i p k -> at_slot t i (f p) (upd i f k).
Proof.
  intros [E Hi]. split; [|done]. rewrite (ptable_upd k i f p); [by rewrite E, list_insert_insert_eq|].
  rewrite E. by apply list_lookup_insert_eq.
Qed.

Lemma at_memory t i p k m : at_slot t i p k -> at_slot t i p (with_memory m k).
Proof. done. Qed.

Lemma at_nextpid t i p k n : at_slot t i p k -> at_slot t i p (with_nextpid n k).
Proof. done. Qed.

Lemma at_ftable t i p k ft : at_slot t i p k -> at_slot t i p (with_ftable ft k).
Proof. done. Qed.

Lemma at_iref t i p k r : at_slot t i p k -> at_slot t i p (with_iref r k).
Proof. done. Qed.

Lemma at_lookup t i p k : at_slot t i p k -> ptable k !! i = Some p.
Proof. intros [-> Hi]. by apply list_lookup_insert_eq. Qed.

(** Follows the updates of one slot down to a known state. *)
Ltac slot_updates :=
  repeat first [eassumption | apply at_upd | apply at_memory | apply at_nextpid | apply at_ftable | apply at_iref].

(** The process [allocproc] returns, apart from its stack. *)
Definition fresh (next : Z) p p1 : Prop :=
  pid p1 = next /\ state p1 = EMBRYO /\ parent p1 = parent p /\ killed p1 = killed p.

Lemma allocproc_spec k k' r :
  0 < nextpid k < 2 ^ 31 - 1 -> allocproc forkret trapret k = (k', r) ->
  initproc k' = initproc k /\ nextpid k <= nextpid k' /\
  match r with
  | Some i => nextpid k' = nextpid k + 1 /\
      exists p p1, ptable k !! i = Some p /\ state p = UNUSED /\ fresh (nextpid k) p p1 /\
        at_slot (ptable k) i p1 k' /\ kstack p1 <> 0
  | None => benign_table (ptable k) (ptable k')
  end.
Proof.
  intros Hn. unfold allocproc. destruct (find_slot _ _ _) as [i|] eqn:Ef.
  2: { intros [= <- <-]. split_and!; [done|lia|apply benign_table_refl]. }
  destruct (find_slot_0 _ _ _ Ef) as (p & Ei & Hp). apply bool_decide_eq_true in Hp.
  pose proof (at_start _ _ _ Ei) as H0.
  set (k1 := with_nextpid _ _).
  assert (Hn1 : nextpid k1 = nextpid k + 1) by (unfold k1; simpl; apply s32_small; unfold is_s32; lia).
  assert (Hi1 : initproc k1 = initproc k) by done.
  assert (H1' : at_slot (ptable k) i (with_pid (nextpid k) (with_state EMBRYO p)) k1).
  { apply at_nextpid, (at_upd _ _ _ _ (fun p => with_pid (nextpid k) (with_state EMBRYO p))), H0. }
  clearbody k1. destruct (vm_kalloc (memory k1)) as [m page].
  destruct (Z.eqb_spec page 0) as [->|Hpage]; intros [= <- <-].
  - split_and!; [done|simpl; lia|].
    destruct (at_upd _ _ _ _ (with_state UNUSED) (at_upd _ _ _ _ (with_kstack 0) (at_memory _ _ _ _ m H1'))) as [-> Hlt].
    apply benign_insert with p; [done|by apply benign_unused].
  - split_and!; [done|simpl; lia|done|]. eexists p, _. split_and!; [done|done| |slot_updates|done]. done.
Qed.

(** [copy_proc] only changes the files, the directory and the name. *)
Lemma copy_proc_spec k c np k' t p :
  copy_proc k c np = Ret k' -> at_slot t np p k ->
  initproc k' = initproc k /\ nextpid k' = nextpid k /\ memory k' = memory k /\
  exists fs d n, at_slot t np (with_name n (with_files fs d p)) k'.
Proof.
  unfold copy_proc. intros Hc Hat. rewrite (at_lookup _ _ _ _ Hat) in Hc.
  destruct (ptable k !! c) as [cp|]; [|done]. simpl in Hc.
  destruct (dup_files _ _ _) as [[ft fs]| | |]; try done. simpl in Hc. injection Hc as <-.
  split_and!; try done. exists fs, (cwd cp), (safe_name (name p) (name cp)).
  apply (at_upd _ _ (with_files fs (cwd cp) p) _ (fun p => with_name (safe_name (name p) (name cp)) p)).
  slot_updates.
Qed.

Lemma running_parent k c :
  running k c -> parent_at (ptable k) c.
Proof. intros (q & E & Hs). exists q. split; [done|]. unfold can_parent. by rewrite Hs. Qed.

Lemma procs_next k : procs_ok k -> 0 < nextpid k.
Proof. intros (init & _ & Hok). destruct (tk_init _ _ _ Hok) as (p & E & Hl & _). pose proof (tk_pid _ _ _ Hok _ _ E Hl). lia. Qed.

Lemma fork_ok k c k' r :
  procs_ok k -> running k c -> nextpid k < 2 ^ 31 - 1 -> fork forkret trapret k c = Ret (k', r) -> procs_ok k'.
Proof.
  intros Hok Hr Hn Hf. pose proof (procs_next _ Hok) as Hpos. destruct Hok as (init & Hi & Hok). pose proof (running_parent _ _ Hr) as Hpar.
  unfold fork in Hf. destruct (ptable k !! c) as [cp|]; [|done]. simpl in Hf.
  destruct (allocproc _ _ k) as [k1 [np|]] eqn:Ea; destruct (allocproc_spec _ _ _ (conj Hpos Hn) Ea) as (Hi1 & Hn1 & Hr1).
  2: { injection Hf as <- <-. exists init. split; [congruence|]. by eapply table_next, table_benign. }
  destruct Hr1 as (Hn1' & p & p1 & Ep & Hun & (Hpid & Hst & Hparp & _) & Hat & _).
  rewrite (at_lookup _ _ _ _ Hat) in Hf. simpl in Hf.
  destruct (vm_copyuvm _ _ _) as [[m d]| | |]; try done. simpl in Hf.
  destruct (Z.eqb_spec d 0) as [Hd|Hd].
  - destruct (vm_kfree _ _) as [m'| | |]; try done. simpl in Hf. injection Hf as <- _.
    exists init. split; [simpl; congruence|]. simpl nextpid. eapply table_next; [exact Hn1|].
    eapply table_benign; [|exact Hok].
    assert (Hat' : at_slot (ptable k) np (with_state UNUSED (with_kstack 0 (with_pgdir d p1)))
      (upd np (with_state UNUSED) (upd np (with_kstack 0)
         (with_memory m' (upd np (with_pgdir d) (with_memory m k1)))))) by slot_updates.
    rewrite (proj1 Hat'). apply benign_insert with p; [done|by apply benign_unused].
  - destruct (copy_proc _ _ _) as [k2| | |] eqn:Ec; try done. simpl in Hf. injection Hf as <- _.
    eapply copy_proc_spec in Ec as (Hi2 & Hn2 & _ & fs & dd & nm & Hat2); [|slot_updates].
    exists init. split; [simpl in *; congruence|].
    eapply (at_upd _ _ _ _ (with_state RUNNABLE)) in Hat2. rewrite (proj1 Hat2).
    cbn [upd with_ptable with_memory nextpid] in *. rewrite Hn2, Hn1'.
    by eapply (table_new _ _ _ _ p _ c).
Qed.

Lemma clone_ok k c fcn a1 a2 st k' r :
  procs_ok k -> running k c -> nextpid k < 2 ^ 31 - 1 -> clone forkret trapret k c fcn a1 a2 st = Ret (k', r) ->
  procs_ok k'.
Proof.
  intros Hok Hr Hn Hf. pose proof (procs_next _ Hok) as Hpos.
  pose proof (running_parent _ _ Hr) as Hpar. unfold clone in Hf.
  destruct (ptable k !! c) as [cp|]; [|done]. simpl in Hf.
  destruct (_ || _); [by injection Hf as <- _|]. destruct Hok as (init & Hi & Hok).
  destruct (allocproc _ _ k) as [k1 [np|]] eqn:Ea; destruct (allocproc_spec _ _ _ (conj Hpos Hn) Ea) as (Hi1 & Hn1 & Hr1).
  2: { injection Hf as <- <-. exists init. split; [congruence|]. by eapply table_next, table_benign. }
  destruct Hr1 as (Hn1' & p & p1 & Ep & Hun & (Hpid & Hst & Hparp & _) & Hat & _).
  rewrite (at_lookup _ _ _ _ Hat) in Hf. simpl in Hf.
  destruct (vm_store _ _ _ _) as [m1| | |]; try done. simpl in Hf.
  destruct (vm_store _ _ _ _) as [m2| | |]; try done. simpl in Hf.
  destruct (vm_store _ _ _ _) as [m3| | |]; try done. simpl in Hf.
  destruct (copy_proc _ _ _) as [k2| | |] eqn:Ec; try done. simpl in Hf. injection Hf as <- _.
  eapply copy_proc_spec in Ec as (Hi2 & Hn2 & _ & fs & dd & nm & Hat2); [|slot_updates].
  exists init. split; [simpl in *; congruence|].
  eapply (at_upd _ _ _ _ (with_state RUNNABLE)), (at_upd _ _ _ _ (with_stack st)) in Hat2. rewrite (proj1 Hat2).
  cbn [upd with_ptable with_memory nextpid] in *. rewrite Hn2, Hn1'.
  by eapply (table_new _ _ _ _ p _ c).
Qed.

(** ** Exit and collection *)

(** A process as before, or given from [c] to [init]. *)
Definition gave c (init : nat) p p' : Prop :=
  pid p' = pid p /\ (live p' <-> live p) /\ (can_parent p' <-> can_parent p) /\
  (parent p' = parent p \/ (parent p = Some c /\ parent p' = Some init)).

Definition gave_table c init t t' : Prop :=
  forall i, match t !! i, t' !! i with
            | Some p, Some p' => gave c init p p'
            | None, None => True
            | _, _ => False
            end.

Lemma gave_refl c init p : gave c init p p.
Proof. split_and!; try done. by left. Qed.

Lemma gave_table_refl c init t : gave_table c init t t.
Proof. intros i. destruct (t !! i); [apply gave_refl|done]. Qed.

Lemma gave_table_trans c init t1 t2 t3 :
  init <> c -> gave_table c init t1 t2 -> gave_table c init t2 t3 -> gave_table c init t1 t3.
Proof.
  intros Hne H1 H2 i. specialize (H1 i). specialize (H2 i).
  destruct (t1 !! i), (t2 !! i), (t3 !! i); try done.
  destruct H1 as (P1 & L1 & C1 & E1), H2 as (P2 & L2 & C2 & E2). split_and!; [congruence|tauto|tauto|].
  destruct E1 as [E1|[E1 E1']], E2 as [E2|[E2 E2']]; [left; congruence|right; split; congruence|right; split; congruence|].
  congruence.
Qed.

Lemma gave_wakeup c init ch t :
  gave_table c init t (map (fun p => if wakes ch p then with_state RUNNABLE p else p) t).
Proof.
  intros i. rewrite list_lookup_fmap. destruct (t !! i) as [p|]; [|done]. simpl.
  unfold wakes. destruct (bool_decide_reflect (state p = SLEEPING)) as [E|E]; simpl; [|apply gave_refl].
  destruct (bool_decide _); [|apply gave_refl]. unfold gave, live, can_parent. simpl. rewrite E.
  split_and!; try done. by left.
Qed.

Lemma gave_alter c init t i p p' :
  t !! i = Some p -> gave c init p p' -> gave_table c init t (<[i := p']> t).
Proof.
  intros E Hg j. destruct (decide (i = j)) as [<-|].
  - rewrite E, list_lookup_insert_eq; [done|by eapply lookup_lt_Some].
  - rewrite list_lookup_insert_ne by done. destruct (t !! j); [apply gave_refl|done].
Qed.

Lemma table_gave c t t' next init : gave_table c init t t' -> table_ok t next init -> table_ok t' next init.
Proof.
  intros Hb [Hi Hp Hu Hpa Hun].
  assert (Hback : forall i p', t' !! i = Some p' -> exists p, t !! i = Some p /\ gave c init p p').
  { intros i p' E. specialize (Hb i). rewrite E in Hb. destruct (t !! i) as [p|]; [by exists p|done]. }
  assert (Hfwd : forall i p, t !! i = Some p -> exists p', t' !! i = Some p' /\ (can_parent p' <-> can_parent p)).
  { intros i p E. specialize (Hb i). rewrite E in Hb. destruct (t' !! i) as [p'|]; [|done].
    exists p'. split; [done|apply Hb]. }
  split.
  - destruct Hi as (p & E & Hc). destruct (Hfwd _ _ E) as (p' & E' & Hb'). exists p'. split; [done|tauto].
  - intros i p' E Hl. destruct (Hback _ _ E) as (p & E0 & -> & Hlv & _). apply (Hp i); [done|tauto].
  - intros i j p' q' E1 E2 H1 H2.
    destruct (Hback _ _ E1) as (p & F1 & -> & L1 & _), (Hback _ _ E2) as (q & F2 & -> & L2 & _).
    apply (Hu i j p q); tauto.
  - intros i p' E Hl Hne. destruct (Hback _ _ E) as (p & E0 & _ & Hlv & _ & Hpar).
    destruct Hpar as [Hpar|[_ Hpar]].
    + destruct (Hpa i p E0) as (j & q & Hj & Eq & Hc); [tauto|done|].
      destruct (Hfwd _ _ Eq) as (q' & Eq' & Hc'). exists j, q'. split_and!; [congruence|done|tauto..].
    + destruct Hi as (q & Eq & Hc). destruct (Hfwd _ _ Eq) as (q' & Eq' & Hc'). exists init, q'. split_and!; [done|done|tauto..].
  - intros i p' j E Hj. destruct (Hback _ _ E) as (p & E0 & _ & Hlv & _ & Hpar).
    apply Hlv. destruct Hpar as [Hpar|[Hpar _]]; [apply (Hun i p j)|apply (Hun i p c)]; congruence.
Qed.

(** [reparent] gives the children in the slots it visits to [init]. *)
Lemma reparent_spec c init n k i :
  initproc k = Some init -> init <> c ->
  let k' := reparent k c n i in
  initproc k' = Some init /\ nextpid k' = nextpid k /\ memory k' = memory k /\
  gave_table c init (ptable k) (ptable k') /\
  (forall j q, ptable k' !! j = Some q -> (i <= j < i + n)%nat -> parent q <> Some c) /\
  (forall j q, ptable k !! j = Some q -> parent q <> Some c -> state q = ZOMBIE ->
     exists q', ptable k' !! j = Some q' /\ state q' = ZOMBIE).
Proof.
  revert k i. induction n as [|n IH]; intros k i Hi Hne k'.
  { unfold k'. simpl. split_and!; try done; [apply gave_table_refl|lia|by eauto]. }
  unfold k'. cbn [reparent]. set (k1 := match ptable k !! i with Some p => _ | None => _ end).
  assert (H1 : initproc k1 = Some init /\ nextpid k1 = nextpid k /\ memory k1 = memory k /\
               gave_table c init (ptable k) (ptable k1) /\
               (forall q, ptable k1 !! i = Some q -> parent q <> Some c) /\
               (forall j q, ptable k !! j = Some q -> parent q <> Some c -> state q = ZOMBIE ->
                  exists q', ptable k1 !! j = Some q' /\ parent q' <> Some c /\ state q' = ZOMBIE)).
  { unfold k1. destruct (ptable k !! i) as [p|] eqn:E.
    2: { split_and!; try done; [apply gave_table_refl|congruence|by eauto]. }
    destruct (bool_decide_reflect (parent p = Some c)) as [Ep|Ep].
    2: { split_and!; try done; [apply gave_table_refl|congruence|by eauto]. }
    pose proof (at_upd _ _ _ _ (with_parent (initproc k)) (at_start _ _ _ E)) as [Et Hlt].
    set (k2 := upd i _ k) in *. assert (Hi2 : initproc k2 = Some init) by done.
    assert (Hg2 : gave_table c init (ptable k) (ptable k2)).
    { rewrite Et. apply gave_alter with p; [done|]. rewrite Hi. unfold gave. simpl. split_and!; try done. by right. }
    assert (Hp2 : forall q, ptable k2 !! i = Some q -> parent q <> Some c).
    { intros q. rewrite Et, list_lookup_insert_eq by done. intros [= <-]. simpl. congruence. }
    assert (Hz2 : forall j q, ptable k !! j = Some q -> parent q <> Some c -> state q = ZOMBIE ->
                  exists q', ptable k2 !! j = Some q' /\ parent q' <> Some c /\ state q' = ZOMBIE).
    { intros j q Ej Hq Hz. exists q. split_and!; [|done..]. rewrite Et, list_lookup_insert_ne; [done|congruence]. }
    assert (Hn2 : nextpid k2 = nextpid k /\ memory k2 = memory k) by done. clearbody k2.
    destruct (is_state ZOMBIE p); [|destruct Hn2; by split_and!].
    split_and!; [done|apply Hn2|apply Hn2| | |].
    - eapply gave_table_trans; [done|exact Hg2|]. apply gave_wakeup.
    - intros q. simpl. rewrite list_lookup_fmap. destruct (ptable k2 !! i) as [q0|] eqn:E0; simpl; [|done].
      intros [= <-]. specialize (Hp2 q0 eq_refl). by destruct (wakes _ _).
    - intros j q Ej Hq Hz. destruct (Hz2 j q Ej Hq Hz) as (q' & Ej' & Hq' & Hz'). exists q'. split_and!; [|done..].
      simpl. rewrite list_lookup_fmap, Ej'. simpl. unfold wakes. by rewrite bool_decide_eq_false_2 by congruence. }
  destruct H1 as (Hi1 & Hn1 & Hm1 & Hg1 & Hp1 & Hz1). clearbody k1.
  destruct (IH k1 (S i) Hi1 Hne) as (Hi2 & Hn2 & Hm2 & Hg2 & Hp2 & Hz2).
  split_and!; [done|congruence|congruence|by eapply gave_table_trans| |].
  - intros j q E Hj. destruct (decide (j = i)) as [->|]; [|apply (Hp2 j q E); lia].
    specialize (Hg2 i). rewrite E in Hg2. destruct (ptable k1 !! i) as [q1|] eqn:E1; [|done].
    destruct Hg2 as (_ & _ & _ & [Eq|[Eq _]]); [rewrite Eq; by apply Hp1|by destruct (Hp1 q1)].
  - intros j q E Hq Hz. destruct (Hz1 j q E Hq Hz) as (q1 & E1 & Hq1 & Hz1'). by apply (Hz2 j q1).
Qed.

(** Injectivity that leaves the sides as they are. *)
Lemma Ret_pair {A B} (a a' : A) (b b' : B) : Ret (a, b) = Ret (a', b') -> a = a' /\ b = b'.
Proof. by intros [= -> ->]. Qed.

Lemma exit_ok k c k' rs : procs_ok k -> running k c -> exit k c = Ret (k', rs) -> procs_ok k'.
Proof.
  intros (init & Hi & Hok) (p & Ep & Hs). unfold exit. rewrite Ep. cbn [obind of_option].
  destruct (bool_decide_reflect (initproc k = Some c)) as [|Hne]; [done|].
  destruct (close_files _ _) as [[ft rs']| | |]; try done. cbn [obind]. intros [<- _]%Ret_pair.
  assert (Hic : init <> c) by congruence.
  set (k1 := upd c _ (with_ftable ft k)). set (k2 := wakeup1 _ k1).
  assert (Hat : at_slot (ptable k) c (with_files (map (fun _ => None) (ofile p)) 0 p) k1).
  { unfold k1. apply (at_upd _ _ p _ (with_files _ 0)), at_ftable, (at_start _ _ _ Ep). }
  assert (Hg1 : gave_table c init (ptable k) (ptable k1)).
  { rewrite (proj1 Hat). apply gave_alter with p; [done|]. unfold gave, live, can_parent. simpl. split_and!; try done. by left. }
  assert (Hi1 : initproc k1 = Some init) by done. assert (Hn1 : nextpid k1 = nextpid k) by done. 
  pose proof (gave_wakeup c init (parent_chan (parent p)) (ptable k1)) as Hg2.
  change (map _ (ptable k1)) with (ptable k2) in Hg2.
  assert (Hi2 : initproc k2 = Some init) by done. assert (Hn2 : nextpid k2 = nextpid k) by done. clearbody k2. clearbody k1.
  destruct (reparent_spec c init (length (ptable k2)) k2 0 Hi2 Hic) as (Hi3 & Hn3 & _ & Hg3 & Hp3 & _).
  set (k3 := reparent k2 c (length (ptable k2)) 0) in *. clearbody k3.
  assert (Hlen : length (ptable k3) = length (ptable k2)).
  { apply Nat.le_antisymm; apply Nat.le_ngt; intros Hlt.
    - apply lookup_lt_is_Some in Hlt as [q Eq]. specialize (Hg3 (length (ptable k2))).
      rewrite Eq in Hg3. by rewrite (proj2 (lookup_ge_None _ _)) in Hg3 by lia.
    - apply lookup_lt_is_Some in Hlt as [q Eq]. specialize (Hg3 (length (ptable k3))).
      rewrite Eq in Hg3. by rewrite (proj2 (lookup_ge_None (ptable k3) _)) in Hg3 by lia. }
  assert (Hg : gave_table c init (ptable k) (ptable k3)).
  { eapply gave_table_trans; [done|exact Hg1|]. by eapply gave_table_trans. }
  pose proof (table_gave _ _ _ _ _ Hg Hok) as Hok3.
  pose proof (Hg c) as Hc. rewrite Ep in Hc. destruct (ptable k3 !! c) as [p3|] eqn:Ep3; [|done].
  destruct (at_upd _ _ _ _ (with_state ZOMBIE) (at_start _ _ _ Ep3)) as [Et _].
  exists init. split; [done|]. rewrite Et. simpl nextpid. rewrite Hn3, Hn2.
  apply table_zombie with p3; try done.
  - apply (proj1 (proj2 Hc)). unfold live. by rewrite Hs.
  - intros i q Eq. apply (Hp3 i q Eq). apply lookup_lt_Some in Eq. lia.
Qed.

(** A sleeping process counts as before. *)
Lemma benign_running p p' :
  state p = RUNNING -> can_parent p' -> pid p' = pid p -> parent p' = parent p -> benign p p'.
Proof. unfold benign, live, can_parent. intros E [? ?] ? ?. rewrite E. intuition congruence. Qed.

Lemma procs_benign k k' :
  benign_table (ptable k) (ptable k') -> nextpid k' = nextpid k -> initproc k' = initproc k ->
  procs_ok k -> procs_ok k'.
Proof.
  intros Hb Hn Hi (init & Hin & Hok). exists init. split; [congruence|]. rewrite Hn. by eapply table_benign.
Qed.

Lemma upd_benign k c (f : proc -> proc) p :
  ptable k !! c = Some p -> benign p (f p) -> procs_ok k -> procs_ok (upd c f k).
Proof.
  intros E Hb. apply procs_benign; [|done|done]. rewrite (ptable_upd _ _ _ _ E). by apply benign_insert with p.
Qed.

Lemma sleep_ok k c ch k' : procs_ok k -> running k c -> sleep k (Some c) ch false = Ret k' -> procs_ok k'.
Proof.
  intros Hok (p & Ep & Hs) [= <-]. eapply upd_benign; [|..].
  - rewrite (ptable_upd _ _ _ _ Ep). apply list_lookup_insert_eq. by eapply lookup_lt_Some.
  - apply benign_running; [done|by split|done|done].
  - eapply upd_benign; [done| |done]. by apply benign_running; [|split; simpl; rewrite Hs|..].
Qed.

Lemma wait_ok k c k' r : procs_ok k -> running k c -> wait k c = Ret (k', r) -> procs_ok k'.
Proof.
  intros Hok Hr Hw. unfold wait in Hw. destruct (ptable k !! c) as [cp|]; [|done]. simpl in Hw.
  destruct (find_slot _ _ _) as [i|] eqn:Ef.
  - destruct (find_slot_0 _ _ _ Ef) as (p & Ep & Hp). apply andb_true_iff in Hp as [_ Hz]. apply bool_decide_eq_true in Hz.
    rewrite Ep in Hw. simpl in Hw. destruct (vm_kfree _ _) as [m1| | |]; try done. simpl in Hw.
    destruct (vm_freevm _ _) as [m2| | |]; try done. apply Ret_pair in Hw as [<- _].
    destruct Hok as (init & Hi & Hok). exists init. split; [done|].
    rewrite (ptable_upd (with_memory m2 k) i reap p Ep). by apply table_reaped.
  - destruct (_ || _); [by apply Ret_pair in Hw as [<- _]|].
    apply Ret_pair in Hw as [<- _]. by eapply (sleep_ok k c (ChProc c)).
Qed.

Lemma join_ok k c k' r s : procs_ok k -> running k c -> join k c = Ret (k', r, s) -> procs_ok k'.
Proof.
  intros Hok Hr Hw. unfold join in Hw. destruct (ptable k !! c) as [cp|]; [|done]. simpl in Hw.
  destruct (find_slot _ _ _) as [i|] eqn:Ef.
  - destruct (find_slot_0 _ _ _ Ef) as (p & Ep & Hp). apply andb_true_iff in Hp as [_ Hz]. apply bool_decide_eq_true in Hz.
    rewrite Ep in Hw. simpl in Hw. destruct (vm_kfree _ _) as [m1| | |]; try done.
    apply Ret_pair in Hw as [Hw _]. injection Hw as <- _.
    destruct Hok as (init & Hi & Hok). exists init. split; [done|].
    rewrite (ptable_upd (with_memory m1 k) i reap p Ep). by apply table_reaped.
  - destruct (_ || _); [apply Ret_pair in Hw as [Hw _]; by injection Hw as <- _|].
    apply Ret_pair in Hw as [Hw _]. injection Hw as <- _. by eapply (sleep_ok k c (ChProc c)).
Qed.

Lemma growproc_ok k c n k' r : procs_ok k -> growproc k c n = Ret (k', r) -> procs_ok k'.
Proof.
  intros Hok Hg. unfold growproc in Hg. destruct (ptable k !! c) as [cp|]; [|done]. cbn [obind of_option] in Hg.
  match type of Hg with obind ?e _ = _ => destruct e as [[m [new|]]| | |] end; try done;
    cbn [obind] in Hg; apply Ret_pair in Hg as [<- _].
  - eapply (procs_benign k); [|done|done|exact Hok]. simpl. apply benign_map. intros p.
    destruct (pgdir p =? pgdir cp); apply benign_refl || done.
  - eapply (procs_benign k); [|done|done|exact Hok]. apply benign_table_refl.
Qed.

Lemma kill_ok k n : procs_ok k -> procs_ok (kill k n).1.
Proof.
  intros Hok. unfold kill. destruct (find_slot _ _ _) as [i|] eqn:Ef; [|done]. simpl.
  destruct (find_slot_0 _ _ _ Ef) as (p & Ep & _).
  eapply upd_benign; [rewrite (ptable_upd _ _ _ _ Ep); apply list_lookup_insert_eq; by eapply lookup_lt_Some| |].
  - unfold is_state. case_bool_decide as E; [|apply benign_refl]. simpl in E. unfold benign, live, can_parent. simpl.
    rewrite E. split_and!; try done; intuition congruence.
  - by eapply upd_benign.
Qed.

Lemma pstep_ok k k' : procs_ok k -> pstep k k' -> procs_ok k'.
Proof.
  intros Hok Hs. destruct Hs as [k c k' r|k c fcn a1 a2 st k' r|k c k' rs|k c k' r|k c k' r s|k c n k' r|k c ch k'|k c Hr|k ch|k n|k c Hr|k i p Ep Hp].
  - by eapply fork_ok.
  - by eapply clone_ok.
  - by eapply exit_ok.
  - by eapply wait_ok.
  - by eapply join_ok.
  - by eapply growproc_ok.
  - by eapply sleep_ok.
  - destruct Hr as (p & Ep & Hst). eapply upd_benign; [done| |done]. done.
  - eapply (procs_benign k); [|done|done|exact Hok]. apply wakeup1_benign.
  - by apply kill_ok.
  - destruct Hr as (p & Ep & Hst). eapply upd_benign; [done| |done]. by apply benign_running; [|split|..].
  - eapply upd_benign; [done| |done]. unfold benign, live, can_parent. simpl. rewrite Hp. intuition congruence.
Qed.

(** ** Properties *)

(** The table once [userinit] has run: the first process and nothing else. *)
Definition boot_ok k : Prop :=
  exists init, initproc k = Some init /\ nextpid k = 2 /\
    (exists p, ptable k !! init = Some p /\ state p = RUNNABLE /\ pid p = 1 /\ parent p = None) /\
    forall i p, ptable k !! i = Some p -> i <> init -> state p = UNUSED /\ parent p = None.

(** C3.  In every state the process calls and the scheduler lead to, process
    numbers of live processes are distinct and below [nextpid]; every live
    process but the first has a live parent that is not a zombie, so that
    every zombie has a process that can collect it; and the first process
    never exits. *)
Theorem process_tree k0 k (Hboot : boot_ok k0) (Hreach : rtc pstep k0 k) :
  exists init, initproc k = Some init /\
    (exists p, ptable k !! init = Some p /\ can_parent p) /\
    (forall i j p q, ptable k !! i = Some p -> ptable k !! j = Some q -> live p -> live q ->
       pid p = pid q -> i = j) /\
    (forall i p, ptable k !! i = Some p -> live p -> 0 < pid p < nextpid k) /\
    (forall i p, ptable k !! i = Some p -> live p -> i <> init ->
       exists j q, parent p = Some j /\ ptable k !! j = Some q /\ can_parent q).
Proof.
  assert (Hok : procs_ok k).
  { eapply rtc_invariant; [by apply pstep_ok| |exact Hreach].
    destruct Hboot as (init & Hi & Hn & (p & Ep & Hs & Hp & Hpar) & Hrest). exists init. split; [done|].
    assert (Hone : forall i q, ptable k0 !! i = Some q -> live q -> i = init /\ q = p).
    { intros i q E Hl. destruct (decide (i = init)) as [->|Hne]; [split; congruence|].
      destruct (Hrest i q E Hne). done. }
    split.
    - exists p. split; [done|]. split; congruence.
    - intros i q E Hl. destruct (Hone i q E Hl) as [_ ->]. lia.
    - intros i j q q' E E' Hl Hl' _. destruct (Hone i q E Hl), (Hone j q' E' Hl'). congruence.
    - intros i q E Hl Hne. by destruct (Hone i q E Hl).
    - intros i q j E Hq. destruct (decide (i = init)) as [->|Hne]; [congruence|].
      destruct (Hrest i q E Hne). congruence. }
  destruct Hok as (init & Hi & [H1 H2 H3 H4 H5]). exists init. by split_and!.
Qed.

(** ** Exit and the parent *)

(** What [exit] of [c] leaves of another slot: it may be given away when its
    parent is [c], and woken when it sleeps. *)
Definition kept c p p' : Prop :=
  (pgdir p', killed p') = (pgdir p, killed p) /\ (state p <> SLEEPING -> state p' = state p) /\
  (state p = SLEEPING -> state p' = SLEEPING \/ state p' = RUNNABLE) /\
  (parent p <> Some c -> parent p' = parent p).

Definition kept_table c t t' : Prop :=
  forall i p, t !! i = Some p -> exists p', t' !! i = Some p' /\ kept c p p'.

Lemma kept_table_refl c t : kept_table c t t.
Proof. intros i p E. exists p. split; [done|]. by split_and!; auto. Qed.

Lemma kept_table_trans c t1 t2 t3 : kept_table c t1 t2 -> kept_table c t2 t3 -> kept_table c t1 t3.
Proof.
  intros H1 H2 i p E. destruct (H1 i p E) as (p1 & E1 & P1 & S1 & W1 & Q1).
  destruct (H2 i p1 E1) as (p2 & E2 & P2 & S2 & W2 & Q2). exists p2. split; [done|]. split_and!; [congruence| | |].
  - intros Hs. rewrite <- (S1 Hs). apply S2. by rewrite (S1 Hs).
  - intros Hs. destruct (W1 Hs) as [W|W]; [auto|right]. rewrite <- W. apply S2. congruence.
  - intros Hp. rewrite <- (Q1 Hp). apply Q2. by rewrite (Q1 Hp).
Qed.

Lemma kept_wakeup c ch k : kept_table c (ptable k) (ptable (wakeup1 ch k)).
Proof.
  intros i p E. simpl. rewrite list_lookup_fmap, E. eexists. split; [done|]. unfold wakes, kept.
  destruct (bool_decide_reflect (state p = SLEEPING)); simpl; [|by split_and!; auto].
  destruct (bool_decide _); simpl; split_and!; auto; congruence.
Qed.

Lemma kept_upd c k i (f : proc -> proc) :
  (forall p, ptable k !! i = Some p -> kept c p (f p)) -> kept_table c (ptable k) (ptable (upd i f k)).
Proof.
  intros Hf j p E. simpl. destruct (decide (i = j)) as [<-|Hne].
  - rewrite list_lookup_alter_eq, E. exists (f p). auto.
  - rewrite list_lookup_alter_ne by done. by apply kept_table_refl.
Qed.

Lemma kept_reparent c n k i : kept_table c (ptable k) (ptable (reparent k c n i)).
Proof.
  revert k i. induction n as [|n IH]; intros k i; [apply kept_table_refl|]. cbn [reparent].
  eapply kept_table_trans; [|apply IH]. clear IH.
  destruct (ptable k !! i) as [p|] eqn:E; [|apply kept_table_refl].
  destruct (bool_decide_reflect (parent p = Some c)) as [Ep|]; [|apply kept_table_refl].
  assert (Hk : kept_table c (ptable k) (ptable (upd i (with_parent (initproc k)) k))).
  { apply kept_upd. intros p' E'. unfold kept. simpl. split_and!; auto. congruence. }
  destruct (is_state ZOMBIE p); [|done]. eapply kept_table_trans; [exact Hk|]. apply kept_wakeup.
Qed.

Lemma exit_parent k c k' rs cp j q :
  ptable k !! c = Some cp -> state cp = RUNNING -> parent cp = Some j ->
  ptable k !! j = Some q -> state q = SLEEPING -> chan q = ChProc j ->
  exit k c = Ret (k', rs) ->
  (exists q', ptable k' !! j = Some q' /\ state q' = RUNNABLE /\ (pgdir q', killed q') = (pgdir q, killed q)) /\
  (exists z, ptable k' !! c = Some z /\ state z = ZOMBIE /\ parent z = Some j /\ pgdir z = pgdir cp).
Proof.
  intros Ec Hc Hp Ej Hj Hch. unfold exit. rewrite Ec. cbn [obind of_option].
  destruct (bool_decide _); [done|]. destruct (close_files _ _) as [[ft rs']| | |]; try done. cbn [obind].
  intros [<- _]%Ret_pair. rewrite Hp. cbn [parent_chan]. assert (Hne : c <> j) by congruence.
  set (k1 := upd c _ (with_ftable ft k)).
  assert (Ec1 : exists z, ptable k1 !! c = Some z /\ state z = RUNNING /\ parent z = Some j /\ pgdir z = pgdir cp).
  { eexists. unfold k1. simpl. rewrite list_lookup_alter_eq, Ec. split; [reflexivity|done]. }
  assert (Ej1 : ptable k1 !! j = Some q) by (unfold k1; simpl; by rewrite list_lookup_alter_ne).
  clearbody k1. set (k2 := wakeup1 _ k1).
  assert (Ej2 : ptable k2 !! j = Some (with_state RUNNABLE q)).
  { unfold k2. simpl. rewrite list_lookup_fmap, Ej1. simpl. unfold wakes.
    by rewrite !bool_decide_eq_true_2. }
  destruct Ec1 as (z1 & Ec1 & Hz1 & Hzp1 & Hzd1).
  destruct (kept_wakeup c (ChProc j) k1 c z1 Ec1) as (z2 & Ec2 & Pz & Sz & _ & Qz).
  change (ptable k2 !! c = Some z2) in Ec2. clearbody k2.
  pose proof (kept_reparent c (length (ptable k2)) k2 0) as Hk. set (k3 := reparent _ _ _ _) in *. clearbody k3.
  destruct (Hk _ _ Ej2) as (q3 & Ej3 & Pq3 & Sq3 & _ & _). destruct (Hk _ _ Ec2) as (z3 & Ec3 & Pz3 & _ & _ & Qz3).
  split.
  - exists q3. simpl. rewrite list_lookup_alter_ne by done. split_and!; [done| |done]. by apply Sq3.
  - exists (with_state ZOMBIE z3). simpl. rewrite list_lookup_alter_eq, Ec3. split_and!; [done|done| |congruence].
    assert (Hz : parent z2 = Some j) by (rewrite Qz; congruence). simpl. rewrite Qz3; congruence.
Qed.

(** The scan of [wait] and [join] finds a child when there is one. *)
Lemma find_slot_found (f : proc -> bool) t i p :
  t !! i = Some p -> f p = true ->
  exists i' p', find_slot f t 0 = Some i' /\ t !! i' = Some p' /\ f p' = true.
Proof.
  intros E Hf. destruct (find_slot f t 0) as [i'|] eqn:Ef.
  - destruct (find_slot_0 _ _ _ Ef) as (p' & ? & ?). by exists i', p'.
  - pose proof (proj1 (find_slot_None f t 0) Ef p) as Hn. rewrite Hn in Hf; [done|]. by eapply list_elem_of_lookup_2.
Qed.

(** The parent [j] after [exit], scheduled again and back from [sleep]. *)
Definition resumed k j : kernel M := sleep_return (upd j (with_state RUNNING) k) j.

Lemma resumed_lookup k j i p :
  ptable k !! i = Some p ->
  ptable (resumed k j) !! i = Some (if decide (i = j) then with_chan (ChAddr 0) (with_state RUNNING p) else p).
Proof.
  intros E. unfold resumed. simpl. case_decide as Hd.
  - subst. by rewrite !list_lookup_alter_eq, E.
  - by rewrite !list_lookup_alter_ne.
Qed.

(** *** The call the parent sleeps in *)

Inductive waiting := InWait | InJoin.

(** The children it collects: those with a page directory of their own, or the
    threads of the caller. *)
Definition collects (w : waiting) j q p : bool :=
  match w with InWait => wait_child j q p | InJoin => join_child j q p end.

(** Its next turn. *)
Definition again (w : waiting) k j : outcome (kernel M * turn) :=
  match w with
  | InWait => wait k j
  | InJoin => let* (k, r, _) := join k j in Ret (k, r)
  end.

(** What it does with the memory of a zombie. *)
Definition give_back (w : waiting) (m : M) p : outcome M :=
  let* m := vm_kfree m (kstack p) in
  match w with InWait => vm_freevm m (pgdir p) | InJoin => Ret m end.

Lemma collects_parent w j q p : collects w j q p = true -> parent p = Some j.
Proof. by destruct w; intros [?%bool_decide_eq_true _]%andb_true_iff. Qed.

Lemma collects_same w j q q' p p' :
  pgdir q' = pgdir q -> parent p' = parent p -> pgdir p' = pgdir p -> collects w j q' p' = collects w j q p.
Proof. intros E1 E2 E3. destruct w; simpl; unfold wait_child, join_child; by rewrite E1, E2, E3. Qed.

(** A turn when there is a zombie to collect. *)
Lemma again_zombie w k j q i z :
  ptable k !! j = Some q -> ptable k !! i = Some z -> state z = ZOMBIE -> collects w j q z = true ->
  exists i p, ptable k !! i = Some p /\ state p = ZOMBIE /\ collects w j q p = true /\
    again w k j = let* m := give_back w (memory k) p in Ret (upd i reap (with_memory m k), TRet (pid p)).
Proof.
  intros Ej Ei Hz Hk.
  destruct (find_slot_found (fun p => collects w j q p && is_state ZOMBIE p) (ptable k) i z Ei) as (i' & p & Ef & Ep & Hb).
  { rewrite Hk. by apply bool_decide_eq_true. }
  apply andb_true_iff in Hb as [Hp1 Hp2%bool_decide_eq_true].
  exists i', p. split_and!; [done..|]. destruct w; simpl in *.
  - unfold wait, give_back. rewrite Ej. cbn [of_option obind]. rewrite Ef, Ep. cbn [of_option obind].
    by destruct (vm_kfree _ _) as [m| | |].
  - unfold join, give_back. rewrite Ej. cbn [of_option obind]. rewrite Ef, Ep. cbn [of_option obind].
    by destruct (vm_kfree _ _) as [m| | |].
Qed.

(** A turn when there is a child but no zombie. *)
Lemma again_sleep w k j q i p :
  ptable k !! j = Some q -> killed q = false -> ptable k !! i = Some p -> collects w j q p = true ->
  (forall i p, ptable k !! i = Some p -> collects w j q p = true -> state p <> ZOMBIE) ->
  again w k j = Ret (upd j (with_state SLEEPING) (upd j (with_chan (ChProc j)) k), TSleep).
Proof.
  intros Ej Hk Ep Hp Hno.
  assert (find_slot (fun p => collects w j q p && is_state ZOMBIE p) (ptable k) 0 = None) as Ef.
  { apply find_slot_None. intros p' (i' & Hi')%list_elem_of_lookup. destruct (collects w j q p') eqn:E; [|done].
    apply bool_decide_eq_false. by apply (Hno i' p'). }
  assert (existsb (collects w j q) (ptable k) = true) as He.
  { apply existsb_exists. exists p. split; [|done]. apply list_elem_of_In. by eapply list_elem_of_lookup_2. }
  destruct w; cbn [again]; unfold wait, join; rewrite Ej; cbn [of_option obind].
  - change (collects InWait j q) with (wait_child j q) in *. by rewrite Ef, He, Hk.
  - change (collects InJoin j q) with (join_child j q) in *. by rewrite Ef, He, Hk.
Qed.

(** C35.  The scheduler starves no one: in one pass over the table every
    process that is runnable at its start is run, and none is run twice, as
    long as running one process leaves the others that are runnable so. *)
Theorem scheduler_runs_all (run : kernel M -> nat -> kernel M) k
    (Hrun : forall k i j p, j <> i -> ptable k !! j = Some p -> state p = RUNNABLE ->
              exists p', ptable (run k i) !! j = Some p' /\ state p' = RUNNABLE) :
  NoDup (scheduler run k).2 /\
  forall i p, (i < NPROC)%nat -> ptable k !! i = Some p -> state p = RUNNABLE -> i ∈ (scheduler run k).2.
Proof.
  unfold scheduler. assert (Hnd : NoDup (seq 0 NPROC)) by apply NoDup_seq.
  assert (Hin : forall i, (i < NPROC)%nat -> i ∈ seq 0 NPROC) by (intros i ?; apply elem_of_seq; lia).
  enough (Hp : forall ixs k, NoDup ixs ->
            ((scheduler_pass run k ixs).2 `sublist_of` ixs) /\
            forall i p, i ∈ ixs -> ptable k !! i = Some p -> state p = RUNNABLE -> i ∈ (scheduler_pass run k ixs).2).
  { destruct (Hp _ k Hnd) as [Hs Hall]. split; [|by eauto]. by eapply sublist_NoDup. }
  clear k Hnd Hin. induction ixs as [|i ixs IH]; intros k Hnd.
  { split; [done|]. intros i p Hi. by apply elem_of_nil in Hi. }
  apply NoDup_cons in Hnd as [Hi Hnd]. cbn [scheduler_pass].
  assert (Hskip : forall k', (scheduler_pass run k' ixs).2 `sublist_of` i :: ixs).
  { intros k'. by apply sublist_cons, IH. }
  destruct (ptable k !! i) as [pi|] eqn:Ei.
  - destruct (is_state RUNNABLE pi) eqn:Er; unfold is_state in Er.
    + apply bool_decide_eq_true in Er. set (k1 := run _ i).
      assert (Hk1 : forall j p, j <> i -> ptable k !! j = Some p -> state p = RUNNABLE ->
                exists p', ptable k1 !! j = Some p' /\ state p' = RUNNABLE).
      { intros j p Hne E Hs. apply (Hrun _ i j p); [done| |done]. simpl. by rewrite list_lookup_alter_ne. }
      clearbody k1. destruct (IH k1 Hnd) as [Hs Hall]. destruct (scheduler_pass run k1 ixs) as [k2 l]. simpl in *.
      split; [by apply sublist_skip|]. intros j p Hj E Hst. apply elem_of_cons.
      destruct (decide (j = i)) as [->|Hne]; [by left|right].
      apply elem_of_cons in Hj as [?|Hj]; [done|]. destruct (Hk1 j p Hne E Hst) as (p' & E' & Hst'). by eapply Hall.
    + apply bool_decide_eq_false in Er. split; [done|]. intros j p [->|Hj]%elem_of_cons E Hst; [congruence|].
      by eapply IH.
  - split; [done|]. intros j p [->|Hj]%elem_of_cons E Hst; [congruence|]. by eapply IH.
Qed.

End thms.

(** ** Over the memory of [Kalloc] and [Vm] *)

(** The memory of zombie [p] can be given back: its stack is a page in use,
    and for [wait] its page directory is an address space without it. *)
Definition collectable (kend : Z) (w : waiting) (m : Kalloc.kmem) (p : proc) : Prop :=
  match w with
  | InWait => exists free, VmSpec.aspace kend m free (pgdir p) /\ VmSpec.spare kend m free (pgdir p) (kstack p)
  | InJoin => exists free, Kalloc.free_pages kend m free /\ Kalloc.page_ok kend (kstack p) /\ kstack p ∉ free
  end.

Lemma give_back_ok kend data w m p :
  Kalloc.KERNBASE < kend -> collectable kend w m p ->
  exists m', give_back (H := kmem_vmem kend data) w m p = Ret m'.
Proof.
  intros Hkend Hp. unfold give_back. destruct w; cbn [vm_kfree vm_freevm kmem_vmem].
  - destruct Hp as (free & Ha & Hs).
    destruct (VmThms.free_spare kend m free (pgdir p) (kstack p) Ha Hs) as (m1 & -> & Ha1 & _). cbn [obind].
    destruct (VmLife.freevm_spec kend Hkend m1 (kstack p :: free) (pgdir p) Ha1) as (m2 & free2 & E & _).
    by exists m2.
  - destruct Hp as (free & Hf & Hk & Hn).
    destruct (Kalloc.kfree_spec kend m free (kstack p) Hf Hk Hn) as (m1 & -> & _). by exists m1.
Qed.

(** C28.  No wake-up is lost between [exit] and [wait] or [join], over the
    allocator and the page tables as they are: when [c] exits while its parent
    [j] sleeps in one of them, [c] is a zombie and [j] is runnable afterwards.
    When [j] runs again and [c] is of the kind that its call collects (one with a
    page directory of its own for [wait], a thread of [j] for [join]), it finds
    a zombie child of this kind and, if that one's stack and page directory are
    pages in use, returns its number and leaves its slot free.  When [c] is of
    the other kind, and there is no zombie to collect but still a child, [j]
    goes back to sleep on the same channel, and [c] stays a zombie. *)
Theorem exit_wakes_parent kend data (w : waiting) (k : kernel Kalloc.kmem) c k' rs cp j q
    (Hkend : Kalloc.KERNBASE < kend)
    (Hc : ptable k !! c = Some cp) (Hrun : state cp = RUNNING) (Hpar : parent cp = Some j)
    (Hj : ptable k !! j = Some q) (Hsleep : state q = SLEEPING) (Hchan : chan q = ChProc j)
    (Hexit : exit k c = Ret (k', rs)) :
  let next := again (H := kmem_vmem kend data) w (resumed k' j) j in
  (exists q', ptable k' !! j = Some q' /\ state q' = RUNNABLE) /\
  (exists z, ptable k' !! c = Some z /\ state z = ZOMBIE /\ parent z = Some j) /\
  (collects w j q cp = true ->
   (forall i p, ptable k' !! i = Some p -> state p = ZOMBIE -> collects w j q p = true ->
      collectable kend w (memory k') p) ->
   exists k3 i p, ptable k' !! i = Some p /\ state p = ZOMBIE /\ collects w j q p = true /\
     next = Ret (k3, TRet (pid p)) /\
     exists p3, ptable k3 !! i = Some p3 /\ state p3 = UNUSED /\ parent p3 = None) /\
  (collects w j q cp = false -> killed q = false ->
   (exists i p, ptable k' !! i = Some p /\ collects w j q p = true) ->
   (forall i p, ptable k' !! i = Some p -> collects w j q p = true -> state p <> ZOMBIE) ->
   exists k3, next = Ret (k3, TSleep) /\
     (exists q3, ptable k3 !! j = Some q3 /\ state q3 = SLEEPING /\ chan q3 = ChProc j) /\
     exists z, ptable k3 !! c = Some z /\ state z = ZOMBIE /\ parent z = Some j).
Proof.
  intros next.
  destruct (exit_parent k c k' rs cp j q) as [(q' & Ej & Hq' & [= Hqd Hqk]) (z & Ec & Hz & Hzp & Hzd)]; [done..|].
  assert (Hne : c <> j) by congruence.
  pose proof (resumed_lookup _ j _ _ Ej) as Ej2. rewrite decide_True in Ej2 by done. set (qr := with_chan _ _) in Ej2.
  assert (Hsame : forall i p, i <> j -> ptable k' !! i = Some p <-> ptable (resumed k' j) !! i = Some p).
  { intros i p Hi. unfold resumed, sleep_return. simpl. by rewrite !list_lookup_alter_ne. }
  assert (Hw : forall p, collects w j qr p = collects w j q p) by (intros; by apply collects_same).
  (* whatever [j] collects is not [j] itself, which is no zombie *)
  assert (Hzo : forall i p, ptable (resumed k' j) !! i = Some p -> state p = ZOMBIE -> ptable k' !! i = Some p).
  { intros i p E Hp. apply Hsame; [|done]. intros ->. rewrite Ej2 in E. injection E as <-. done. }
  split; [by exists q'|]. split; [by exists z|]. split.
  - intros Hk Hcol.
    destruct (again_zombie (H := kmem_vmem kend data) w (resumed k' j) j qr c z) as (i & p & Ei & Hp & Hpk & E);
      [done|by apply Hsame|done|rewrite Hw, <- Hk; apply collects_same; congruence|].
    rewrite Hw in Hpk. pose proof (Hzo i p Ei Hp) as Ei'.
    destruct (give_back_ok kend data w (memory k') p Hkend) as (m & Em); [by apply (Hcol i)|].
    exists (upd i reap (with_memory m (resumed k' j))), i, p. split_and!; [done..| |].
    + unfold next. rewrite E. change (memory (resumed k' j)) with (memory k'). by rewrite Em.
    + exists (reap p). split; [|done]. unfold upd at 1. simpl. rewrite list_lookup_alter_eq.
      change (alter (with_chan (ChAddr 0)) j (alter (with_state RUNNING) j (ptable k'))) with (ptable (resumed k' j)).
      by rewrite Ei.
  - intros Hk Hkl (i & p & Ei & Hpk) Hno.
    assert (Hex : exists p', ptable (resumed k' j) !! i = Some p' /\ collects w j qr p' = true).
    { destruct (decide (i = j)) as [->|Hi].
      - exists qr. split; [done|]. rewrite Ej in Ei. injection Ei as <-. rewrite Hw, <- Hpk. by apply collects_same.
      - exists p. split; [by apply Hsame|by rewrite Hw]. }
    destruct Hex as (p' & Ep' & Hpk').
    pose proof (again_sleep (H := kmem_vmem kend data) w (resumed k' j) j qr i p' Ej2 ltac:(simpl; congruence) Ep' Hpk') as E.
    eexists. split; [apply E|].
    + intros i' x Ex Hx Hs. apply (Hno i' x); [by apply Hzo|by rewrite <- Hw|done].
    + unfold upd. simpl. split.
      * exists (with_state SLEEPING (with_chan (ChProc j) qr)). split; [|done].
        change (alter (with_chan (ChAddr 0)) j (alter (with_state RUNNING) j (ptable k'))) with (ptable (resumed k' j)).
        by rewrite !list_lookup_alter_eq, Ej2.
      * exists z. split; [|done]. by rewrite !list_lookup_alter_ne.
Qed.

(** ** A machine to run the calls on

    Page directories and stacks are numbered as they are allocated; the
    directories given to [freevm] are recorded. *)
Record toy := { fresh_page : Z; freed : list Z }.

Definition toy_page (m : toy) : toy * Z := ({| fresh_page := fresh_page m + 1; freed := freed m |}, fresh_page m).

#[export] Instance toy_vmem : Vmem toy := {
  vm_kalloc := toy_page;
  vm_kfree m _ := Ret m;
  vm_setupkvm m := Ret (toy_page m);
  vm_inituvm m _ _ _ := Ret m;
  vm_copyuvm m _ _ := Ret (toy_page m);
  vm_freevm m d := Ret {| fresh_page := fresh_page m; freed := d :: freed m |};
  vm_allocuvm m _ _ n := Ret (m, n);
  vm_deallocuvm m _ _ n := Ret (m, n);
  vm_store m _ _ _ := Ret m
}.

Definition blank : proc :=
  {| sz := 0; pgdir := 0; kstack := 0; state := UNUSED; pid := 0; parent := None; tf := init_frame;
     context := (0, 0); chan := ChAddr 0; killed := false; ofile := replicate NOFILE None; cwd := 0;
     name := replicate 16 0; stack := 0 |}.

Definition empty_kernel : kernel toy :=
  {| ptable := replicate NPROC blank; nextpid := 1; initproc := None;
     memory := {| fresh_page := 1; freed := [] |}; files := []; iref := fun _ => 1 |}.

Definition outcome_or {A} (d : A) (o : outcome A) : A := match o with Ret a => a | _ => d end.

(** The kernel after [userinit]; then the first process runs, forks, and
    waits; the child runs, clones a thread and exits; the parent collects it. *)
Definition k_boot : kernel toy := outcome_or empty_kernel (userinit 7 8 empty_kernel 0 10 1 [105]).
Definition k_run0 : kernel toy := upd 0 (with_state RUNNING) k_boot.
Definition k_fork : kernel toy := (outcome_or (k_run0, 0) (fork 7 8 k_run0 0)).1.
Definition k_run1 : kernel toy := upd 1 (with_state RUNNING) k_fork.
Definition k_clone : kernel toy := (outcome_or (k_run1, 0) (clone 7 8 k_run1 1 100 1 2 0)).1.
Definition k_wait : kernel toy := (outcome_or (k_clone, TSleep) (wait k_clone 0)).1.
Definition k_exit : kernel toy := (outcome_or (k_wait, []) (exit k_wait 1)).1.
Definition k_run0' : kernel toy := upd 0 (with_state RUNNING) k_exit.
Definition k_back : kernel toy := sleep_return k_run0' 0.
Definition k_reap : kernel toy := (outcome_or (k_back, TSleep) (wait k_back 0)).1.

Lemma k_boot_ok : boot_ok k_boot.
Proof.
  exists 0%nat. split_and!; [done|done| |].
  - eexists. split; [vm_compute; reflexivity|done].
  - intros [|i] p E Hi; [done|].
    assert (Hb : ptable k_boot !! S i = replicate 63 blank !! i) by (vm_compute; reflexivity).
    rewrite Hb in E. apply lookup_replicate_1 in E as [-> _]. done.
Qed.

Lemma k_reap_steps : rtc (pstep 7 8) k_boot k_reap.
Proof.
  assert (Hr : forall k c p, ptable k !! c = Some p -> state p = RUNNING -> running (M := toy) k c) by (by intros; eexists).
  eapply rtc_l; [eapply (ps_run 7 8 k_boot 0); [vm_compute; reflexivity|done]|]. fold k_run0.
  eapply rtc_l; [eapply (ps_fork 7 8 k_run0 0 k_fork 2);
    [eapply Hr; [vm_compute; reflexivity|done]|done|vm_compute; reflexivity]|].
  eapply rtc_l; [eapply (ps_run 7 8 k_fork 1); [vm_compute; reflexivity|done]|]. fold k_run1.
  eapply rtc_l; [eapply (ps_clone 7 8 k_run1 1 100 1 2 0 k_clone 3);
    [eapply Hr; [vm_compute; reflexivity|done]|done|vm_compute; reflexivity]|].
  eapply rtc_l; [eapply (ps_wait 7 8 k_clone 0 k_wait TSleep);
    [eapply Hr; [vm_compute; reflexivity|done]|vm_compute; reflexivity]|].
  eapply rtc_l; [eapply (ps_exit 7 8 k_wait 1 k_exit);
    [eapply Hr; [vm_compute; reflexivity|done]|vm_compute; reflexivity]|].
  eapply rtc_l; [eapply (ps_run 7 8 k_exit 0); [vm_compute; reflexivity|done]|]. fold k_run0'.
  eapply rtc_l; [eapply (ps_sleep_return 7 8 k_run0' 0); eapply Hr; [vm_compute; reflexivity|done]|]. fold k_back.
  eapply rtc_l; [eapply (ps_wait 7 8 k_back 0 k_reap (TRet 2));
    [eapply Hr; [vm_compute; reflexivity|done]|vm_compute; reflexivity]|].
  apply rtc_refl.
Qed.

(** C36.  A page directory in use is freed: [exit] gives the threads of the
    exiting process to the first process while they still run in its page
    directory, and [wait] frees that directory when it collects the process.
    From boot a state is reached with a runnable process whose page directory
    has been freed. *)
Theorem wait_frees_live_pgdir :
  exists k i p, boot_ok k_boot /\ rtc (pstep 7 8) k_boot k /\
    ptable k !! i = Some p /\ state p = RUNNABLE /\ pgdir p ∈ freed (memory k).
Proof.
  exists k_reap, 2%nat. eexists. split; [apply k_boot_ok|]. split; [apply k_reap_steps|].
  split; [vm_compute; reflexivity|]. split; [done|]. vm_compute. by left.
Qed.

Lemma process_tree_witness :
  exists init, initproc k_reap = Some init /\
    (exists p, ptable k_reap !! init = Some p /\ can_parent p) /\
    (forall i j p q, ptable k_reap !! i = Some p -> ptable k_reap !! j = Some q -> live p -> live q ->
       pid p = pid q -> i = j) /\
    (forall i p, ptable k_reap !! i = Some p -> live p -> 0 < pid p < nextpid k_reap) /\
    (forall i p, ptable k_reap !! i = Some p -> live p -> i <> init ->
       exists j q, parent p = Some j /\ ptable k_reap !! j = Some q /\ can_parent q).
Proof. exact (process_tree 7 8 k_boot k_reap k_boot_ok k_reap_steps). Defined.

(** A process asleep, a child of it with a page directory of its own and a
    thread of it, both running, over the memory of [VmThms.three_pages]. *)
Definition family_proc (st : procstate) (n d : Z) (par : option nat) : proc :=
  {| sz := 0; pgdir := d; kstack := VmThms.page 5; state := st; pid := n; parent := par; tf := init_frame;
     context := (0, 0); chan := ChProc 0; killed := false; ofile := replicate NOFILE None; cwd := 1;
     name := replicate 16 0; stack := 0 |}.
Definition family : kernel Kalloc.kmem :=
  {| ptable := [family_proc SLEEPING 1 (VmThms.page 6) None;
                family_proc RUNNING 2 (VmThms.page 4) (Some 0%nat);
                family_proc RUNNING 3 (VmThms.page 6) (Some 0%nat)];
     nextpid := 4; initproc := Some 0%nat; memory := VmThms.three_pages; files := []; iref := fun _ => 1 |}.
Definition family_exit (c : nat) : kernel Kalloc.kmem * list File.release := outcome_or (family, []) (exit family c).

Lemma family_exit_ok c : (c = 1 \/ c = 2)%nat -> exit family c = Ret ((family_exit c).1, (family_exit c).2).
Proof. by intros [-> | ->]. Qed.

Lemma family_memory c : (c = 1 \/ c = 2)%nat -> memory (family_exit c).1 = VmThms.three_pages.
Proof. by intros [-> | ->]. Qed.

Lemma family_collectable w p :
  p ∈ ptable (family_exit 1).1 \/ p ∈ ptable (family_exit 2).1 -> state p = ZOMBIE ->
  collects w 0 (family_proc SLEEPING 1 (VmThms.page 6) None) p = true ->
  collectable (VmThms.page 1) w VmThms.three_pages p.
Proof.
  intros Hp Hz Hk.
  assert (kstack p = VmThms.page 5 /\ (w = InWait -> pgdir p = VmThms.page 4)) as [Hs Hd].
  { destruct Hp as [Hp|Hp]; repeat (apply elem_of_cons in Hp as [->|Hp]); try (by apply elem_of_nil in Hp);
      (split; [done|intros ->]); done. }
  pose proof VmThms.three_pages_spare as Hsp. destruct VmThms.three_pages_ok as [Ha _].
  destruct w; simpl; rewrite Hs; exists [VmThms.page 2; VmThms.page 3].
  - rewrite Hd by done. done.
  - split; [apply Ha|]. by destruct Hsp as (? & ? & _).
Qed.

Lemma family_no_zombie p :
  p ∈ ptable (family_exit 2).1 ->
  collects InWait 0 (family_proc SLEEPING 1 (VmThms.page 6) None) p = true -> state p <> ZOMBIE.
Proof. intros Hp. repeat (apply elem_of_cons in Hp as [->|Hp]); done || by apply elem_of_nil in Hp. Qed.

(** The child exits while the parent waits, and the parent collects it; the
    thread exits while the parent waits, and the parent waits on; the thread
    exits while the parent joins, and the parent collects it. *)
Lemma exit_wakes_parent_witness :
  (exists k3 p, again (H := kmem_vmem (VmThms.page 1) 0) InWait (resumed (family_exit 1).1 0) 0
     = Ret (k3, TRet (pid p)) /\
     state p = ZOMBIE) /\
  (exists k3, again (H := kmem_vmem (VmThms.page 1) 0) InWait (resumed (family_exit 2).1 0) 0 = Ret (k3, TSleep)) /\
  (exists k3 p, again (H := kmem_vmem (VmThms.page 1) 0) InJoin (resumed (family_exit 2).1 0) 0
     = Ret (k3, TRet (pid p)) /\ state p = ZOMBIE).
Proof.
  assert (Hkend : Kalloc.KERNBASE < VmThms.page 1) by reflexivity.
  split; [|split].
  - destruct (exit_wakes_parent (VmThms.page 1) 0 InWait family 1 (family_exit 1).1 (family_exit 1).2 _ 0
      (family_proc SLEEPING 1 (VmThms.page 6) None) Hkend eq_refl eq_refl eq_refl eq_refl eq_refl eq_refl
      (family_exit_ok 1 ltac:(by left))) as (_ & _ & Hw & _).
    destruct Hw as (k3 & i & p & _ & Hp & _ & E & _); [reflexivity| |exists k3, p; split; [exact E|exact Hp]].
    intros i p Ei Hp Hk. rewrite family_memory by (by left). apply list_elem_of_lookup_2 in Ei.
    apply family_collectable; [left; exact Ei|exact Hp|exact Hk].
  - destruct (exit_wakes_parent (VmThms.page 1) 0 InWait family 2 (family_exit 2).1 (family_exit 2).2 _ 0
      (family_proc SLEEPING 1 (VmThms.page 6) None) Hkend eq_refl eq_refl eq_refl eq_refl eq_refl eq_refl
      (family_exit_ok 2 ltac:(by right))) as (_ & _ & _ & Hs).
    destruct Hs as (k3 & E & _); [reflexivity|reflexivity|eexists 1%nat, _; split; [reflexivity|reflexivity]| |exists k3; exact E].
    intros i p Ei. apply family_no_zombie. by eapply list_elem_of_lookup_2.
  - destruct (exit_wakes_parent (VmThms.page 1) 0 InJoin family 2 (family_exit 2).1 (family_exit 2).2 _ 0
      (family_proc SLEEPING 1 (VmThms.page 6) None) Hkend eq_refl eq_refl eq_refl eq_refl eq_refl eq_refl
      (family_exit_ok 2 ltac:(by right))) as (_ & _ & Hw & _).
    destruct Hw as (k3 & i & p & _ & Hp & _ & E & _); [reflexivity| |exists k3, p; split; [exact E|exact Hp]].
    intros i p Ei Hp Hk. rewrite family_memory by (by right). apply list_elem_of_lookup_2 in Ei.
    apply family_collectable; [right; exact Ei|exact Hp|exact Hk].
Defined.

Lemma scheduler_runs_all_witness :
  0%nat ∈ (scheduler yield k_boot).2 /\ NoDup (scheduler yield k_fork).2.
Proof.
  assert (Hy : forall k i j p, j <> i -> ptable k !! j = Some p -> state p = RUNNABLE ->
            exists p', ptable (yield (M := toy) k i) !! j = Some p' /\ state p' = RUNNABLE).
  { intros k i j p Hne E Hs. exists p. split; [|done]. unfold yield. simpl. by rewrite list_lookup_alter_ne. }
  split.
  - apply (proj2 (scheduler_runs_all yield k_boot Hy) 0%nat (nth 0 (ptable k_boot) blank));
      [unfold NPROC; lia|vm_compute; reflexivity|vm_compute; reflexivity].
  - apply (scheduler_runs_all yield k_fork Hy).
Defined.

End ProcThms.
