(* ===== verification/Txn.v ===== *)
(** * Blocks inside a transaction

    What [fs.c] uses of the layers below between [begin_op] and [end_op]:
    [bread], the data of a buffer, [log_write] and [brelse].  The class [Txn]
    has these operations and [TxnSpec] what [fs.c] may rely on; the log over a
    buffer cache is the implementation. *)

From stdpp Require Import functions.
From S2P Require Import Prelude DfsImage Bio Log LogSpec LogThms.
Local Open Scope Z_scope.
Local Open Scope xv6_scope.

Class Txn (T : Type) := {
  tread : T -> Z -> outcome (T * nat);
  tdata : T -> nat -> block;
  tset : T -> nat -> block -> T;
  tlog : T -> nat -> outcome T;
  trelse : T -> nat -> outcome T
}.

(** [txn_ok s L D]: the state is well formed, the buffers of the blocks [L]
    are held, and those of [D] may have been changed since they were last
    logged.  [tview] is what [tread] shows of a block, [tlogged] the blocks the
    log has, [troom] how many more it can take, and [loggable] the blocks that
    may be logged.  [tlog] of a block already logged takes no room, but needs
    some. *)
Class TxnSpec (T : Type) `{Txn T} := {
  txn_ok : T -> gset Z -> gset Z -> Prop;
  tview : T -> Z -> block;
  troom : T -> nat;
  tlogged : T -> gset Z;
  loggable : T -> Z -> Prop;
  tat : T -> Z -> nat -> Prop;
  tsame s s' := (forall b, tview s' b = tview s b) /\ (troom s' = troom s /\ tlogged s' = tlogged s) /\
    (forall b, loggable s' b <-> loggable s b);
  tat_ok s L D b i : txn_ok s L D -> tat s b i -> tdata s i = tview s b;
  tread_ok s L D b :
    txn_ok s L D -> b ∉ L -> 0 <= b < FSSIZE -> (size L < 2)%nat ->
    exists s' i, tread s b = Ret (s', i) /\ txn_ok s' ({[b]} ∪ L) D /\ tat s' b i /\ tsame s s' /\
      (forall b' j, b' ∈ L -> tat s b' j -> tat s' b' j);
  tset_ok s L D b i v :
    txn_ok s L D -> b ∈ L -> tat s b i ->
    txn_ok (tset s i v) L ({[b]} ∪ D) /\ tview (tset s i v) b = v /\
    (forall b', b' <> b -> tview (tset s i v) b' = tview s b') /\
    (troom (tset s i v) = troom s /\ tlogged (tset s i v) = tlogged s) /\
    (forall b', loggable (tset s i v) b' <-> loggable s b') /\
    (forall b' j, tat s b' j -> tat (tset s i v) b' j);
  tlog_ok s L D b i :
    txn_ok s L D -> b ∈ L -> tat s b i -> loggable s b -> (1 <= troom s)%nat ->
    exists s', tlog s i = Ret s' /\ txn_ok s' L (D ∖ {[b]}) /\ (forall b', tview s' b' = tview s b') /\
      (tlogged s' = {[b]} ∪ tlogged s /\ (troom s' + size (tlogged s') = troom s + size (tlogged s))%nat) /\
      (forall b', loggable s' b' <-> loggable s b') /\
      (forall b' j, tat s b' j -> tat s' b' j);
  trelse_ok s L D b i :
    txn_ok s L D -> b ∈ L -> b ∉ D -> tat s b i ->
    exists s', trelse s i = Ret s' /\ txn_ok s' (L ∖ {[b]}) D /\ tsame s s' /\
      (forall b' j, tat s b' j -> tat s' b' j)
}.

(** ** Common patterns *)

Section patterns.
Context {T : Type} `{TxnSpec T}.
Implicit Types (s : T) (b : Z).

Lemma tsame_refl s : tsame s s.
Proof. by split_and!. Qed.

Lemma tsame_trans s1 s2 s3 : tsame s1 s2 -> tsame s2 s3 -> tsame s1 s3.
Proof.
  intros (V1 & [R1 G1] & L1) (V2 & [R2 G2] & L2). split_and!; [intros b; by rewrite V2|congruence|congruence|intros b; by rewrite L2].
Qed.

(** What the log has taken and can still take, together. *)
Definition tcap s : nat := (troom s + size (tlogged s))%nat.

Lemma tsame_cap s s' : tsame s s' -> tcap s' = tcap s.
Proof. intros (_ & [Hr Hl] & _). unfold tcap. congruence. Qed.

(** The room left after logging the blocks [X]. *)
Lemma room_after s s' (X : gset Z) :
  tcap s' = tcap s -> tlogged s' ⊆ X ∪ tlogged s -> (troom s <= troom s' + size X)%nat.
Proof.
  unfold tcap. intros Hc Hs. apply subseteq_size in Hs. pose proof (size_union_alt X (tlogged s)) as Hu.
  assert (Hd : (size (tlogged s ∖ X) <= size (tlogged s))%nat) by (apply subseteq_size; set_solver). lia.
Qed.

(** [s'] is [s] with block [b] logged and changed to [v]. *)
Definition tchanged s s' (b : Z) (v : block) : Prop :=
  tview s' b = v /\ (forall b', b' <> b -> tview s' b' = tview s b') /\
  (tlogged s' = {[b]} ∪ tlogged s /\ tcap s' = tcap s) /\ (forall b', loggable s' b' <-> loggable s b').

Lemma tchanged_room s s' b v : tchanged s s' b v -> (troom s <= S (troom s'))%nat.
Proof.
  intros (_ & _ & [Hl Hc] & _). pose proof (room_after s s' {[b]} Hc) as Hr. rewrite size_singleton in Hr.
  specialize (Hr ltac:(by rewrite Hl)). lia.
Qed.

Lemma tsame_changed s s1 s2 b v : tsame s s1 -> tchanged s1 s2 b v -> tchanged s s2 b v.
Proof.
  intros (Hv & [Hr Hg] & Hl) (C1 & C2 & [C3 C4] & C5). unfold tcap in *. split; [done|]. split; [|split; [split|]].
  - intros b' Hb'. by rewrite C2.
  - congruence.
  - unfold tcap. congruence.
  - intros b'. by rewrite C5.
Qed.

(** After logging the blocks [X] and [k] more there is room left, so each of
    these writes succeeds. *)
Definition fits s (X : gset Z) (k : nat) : Prop := (size (X ∖ tlogged s) + k < troom s)%nat.

Lemma fits_room s X k : fits s X k -> (k < troom s)%nat.
Proof. unfold fits. lia. Qed.

Lemma fits_weaken s X Y j k : X ⊆ Y -> (j <= k)%nat -> fits s Y k -> fits s X j.
Proof.
  unfold fits. intros HX Hk HY. assert (Hd : (size (X ∖ tlogged s) <= size (Y ∖ tlogged s))%nat) by (apply subseteq_size; set_solver). lia.
Qed.

Lemma fits_same s s' X k : tsame s s' -> fits s X k -> fits s' X k.
Proof. intros (_ & [Hr Hg] & _). unfold fits. by rewrite Hr, Hg. Qed.

(** Blocks not in [X] are counted. *)
Lemma fits_add s X Y j k : (size Y <= j)%nat -> fits s X (j + k) -> fits s (Y ∪ X) k.
Proof.
  unfold fits. intros HY HX. assert (Hd : (size ((Y ∪ X) ∖ tlogged s) <= size (Y ∪ X ∖ tlogged s))%nat) by (apply subseteq_size; set_solver).
  pose proof (size_union_alt Y (X ∖ tlogged s)) as Hu.
  assert (He : (size (X ∖ tlogged s ∖ Y) <= size (X ∖ tlogged s))%nat) by (apply subseteq_size; set_solver). lia.
Qed.

(** Blocks of [X] logged. *)
Lemma fits_logged s s' X Y k :
  Y ⊆ X -> tlogged s' = Y ∪ tlogged s -> tcap s' = tcap s -> fits s X k -> fits s' X k.
Proof.
  unfold fits, tcap. intros HY Hg Hc Hf. rewrite Hg in *.
  assert (Hs1 : size (Y ∪ tlogged s) = (size (Y ∖ tlogged s) + size (tlogged s))%nat).
  { replace (Y ∪ tlogged s) with (tlogged s ∪ Y) by set_solver. rewrite size_union_alt. lia. }
  assert (Hs2 : size (X ∖ tlogged s) = (size (Y ∖ tlogged s) + size (X ∖ (Y ∪ tlogged s)))%nat).
  { rewrite <- size_union by set_solver. f_equal. apply set_eq. intros x. destruct (decide (x ∈ Y)); set_solver. }
  lia.
Qed.

Lemma fits_changed s s' X b v k : b ∈ X -> tchanged s s' b v -> fits s X k -> fits s' X k.
Proof. intros Hb (_ & _ & [Hg Hc] & _). apply (fits_logged s s' X {[b]}); [|done..]. by apply singleton_subseteq_l. Qed.

(** A block read and released. *)
Lemma read_only s L D b :
  txn_ok s L D -> b ∉ L -> b ∉ D -> 0 <= b < FSSIZE -> (size L < 2)%nat ->
  exists s1 i s2, tread s b = Ret (s1, i) /\ tdata s1 i = tview s b /\ trelse s1 i = Ret s2 /\
    txn_ok s2 L D /\ tsame s s2 /\ (forall b' j, b' ∈ L -> tat s b' j -> tat s2 b' j).
Proof.
  intros Hok HbH HbD Hb Hsz. destruct (tread_ok s L D b) as (s1 & i & Er & Hok1 & Hat & Hs1 & Hk1); [done..|].
  destruct (trelse_ok s1 ({[b]} ∪ L) D b i) as (s2 & Ee & Hok2 & Hs2 & Hk2); [done|set_solver|done|done|].
  exists s1, i, s2. split_and!; [done| |done| |by eapply tsame_trans|auto].
  - rewrite (tat_ok s1 _ _ b i Hok1 Hat). apply Hs1.
  - by replace (({[b]} ∪ L) ∖ {[b]}) with L in Hok2 by set_solver.
Qed.

(** A held block changed, logged and released. *)
Lemma log_held s L D b i v :
  txn_ok s ({[b]} ∪ L) D -> b ∉ L -> b ∉ D -> tat s b i -> loggable s b -> (1 <= troom s)%nat ->
  exists s1 s2, tlog (tset s i v) i = Ret s1 /\ trelse s1 i = Ret s2 /\ txn_ok s2 L D /\ tchanged s s2 b v /\
    (forall b' j, tat s b' j -> tat s2 b' j).
Proof.
  intros Hok HbH HbD Hat Hl Hr.
  destruct (tset_ok s _ D b i v Hok) as (Hok1 & Hv1 & Hv1' & [Hr1 Hg1] & Hl1 & Ha1); [set_solver|done|].
  destruct (tlog_ok (tset s i v) _ _ b i Hok1) as (s2 & E2 & Hok2 & Hv2 & [Hg2 Hr2] & Hl2 & Ha2);
    [set_solver|by apply Ha1|by apply Hl1|lia|].
  destruct (trelse_ok s2 _ _ b i Hok2) as (s3 & E3 & Hok3 & (Hv3 & [Hr3 Hg3] & Hl3) & Ha3); [set_solver|set_solver|by apply Ha2, Ha1|].
  exists s2, s3. split_and!; [done|done| | |auto].
  - replace (({[b]} ∪ L) ∖ {[b]}) with L in Hok3 by set_solver.
    by replace (({[b]} ∪ D) ∖ {[b]}) with D in Hok3 by set_solver.
  - split; [by rewrite Hv3, Hv2|]. split; [|split; [split|]].
    + intros b' Hb'. rewrite Hv3, Hv2. by apply Hv1'.
    + by rewrite Hg3, Hg2, Hg1.
    + unfold tcap. rewrite Hr3, Hg3, Hr2, Hg1, Hr1. done.
    + intros b'. by rewrite Hl3, Hl2.
Qed.
End patterns.

(** ** The log over a buffer cache *)

Section log_txn.
Context {T : Type} `{BlockCacheSpec T}.
Import Log LogSpec.

#[export] Instance log_txn : Txn (log * T) := {
  tread s b := let* (c, i) := bread s.2 b in Ret ((s.1, c), i);
  tdata s i := bdata s.2 i;
  tset s i v := (s.1, set_data s.2 i v);
  tlog s i := let* (lg, c) := log_write s.1 s.2 i in Ret (lg, c);
  trelse s i := let* c := brelse s.2 i in Ret (s.1, c)
}.

(** Pinned buffers and the two that may be held at a time have to fit. *)
Definition log_room (lg : log) : Z := Z.min (log_size lg - 1) 27 - n (lh lg).

Record log_txn_ok (s : log * T) (L D : gset Z) : Prop := {
  lt_wf : log_wf s.1;
  lt_out : 1 <= outstanding s.1 /\ committing s.1 = false;
  lt_cache : cache_ok s.2 L (blks s.1);
  lt_room : 0 <= log_room s.1;
  lt_sub : D ⊆ L;
  lt_clean b : b ∈ L -> b ∉ D -> b ∈ blks s.1 \/ view s.2 b = home s.2 b
}.

Lemma blks_count lg : log_wf lg -> size (blks lg) = Z.to_nat (n (lh lg)).
Proof.
  intros Hwf. unfold blks. rewrite size_list_to_set.
  - rewrite length_fmap. unfold entries_of. by rewrite length_seqZ.
  - apply blks_NoDup; [done|apply NoDup_seqZ|]. intros t Ht%elem_of_seqZ. lia.
Qed.

Lemma blks_pinned lg : log_wf lg -> 0 <= log_room lg -> (size (blks lg) <= 27)%nat.
Proof.
  intros Hwf Hr. rewrite blks_count by done. unfold log_room in Hr. lia.
Qed.

Lemma log_append_blks lg bn :
  log_wf lg -> 1 <= outstanding lg -> 1 <= log_room lg -> 0 <= bn < FSSIZE -> ~ in_log lg bn ->
  exists lg', log_append lg bn = Ret lg' /\ log_wf lg' /\ (outstanding lg' = outstanding lg /\ committing lg' = committing lg) /\
    blks lg' = {[bn]} ∪ blks lg /\ log_room lg - 1 <= log_room lg' /\ start lg' = start lg /\ log_size lg' = log_size lg.
Proof.
  intros Hwf Ho Hr Hbn Hnl. pose proof Hwf as [W1 W2 W3 W4 W5 W6 W7]. unfold log_room in *.
  assert (Hroom : LogThms.room lg).
  { unfold LogThms.room, LOGSIZE, MAXOPBLOCKS in *. split_and!; lia. }
  destruct (LogThms.log_append_spec lg bn Hroom) as (lg' & E & Es & Ez & Eo & Ec & El & Hcase).
  assert (Hin : forall b, in_log lg' b <-> in_log lg b) by (intros b; unfold in_log; by rewrite Es, Ez).
  exists lg'. split; [done|].
  assert (Hset : forall lg'', (forall t, 0 <= t < n (lh lg'') -> exists u, 0 <= u < n (lh lg) /\ blk lg'' t = blk lg u \/ blk lg'' t = bn) ->
            (forall u, 0 <= u < n (lh lg) -> exists t, 0 <= t < n (lh lg'') /\ blk lg'' t = blk lg u) ->
            (exists t, 0 <= t < n (lh lg'') /\ blk lg'' t = bn) -> blks lg'' = {[bn]} ∪ blks lg).
  { intros lg'' L H2 (t0 & Ht0 & Et0). apply set_eq. intros b. rewrite elem_of_union, elem_of_singleton, !elem_of_blks. split.
    - intros (t & Ht & ->). destruct (L t Ht) as (u & [[Hu ->]| ->]); [right; by exists u|by left].
    - intros [->|(u & Hu & ->)]; [by exists t0|]. destruct (H2 u Hu) as (t & Ht & Et). by exists t. }
  destruct Hcase as [(t0 & Ht0 & Eg & En & Hsame)|(Hno & En & Eg & Hsame)].
  - assert (Hb : forall t, blk lg' t = blk lg t) by (intros t; unfold blk; by rewrite Hsame).
    split_and!; [|done|done| | |done|done].
    + split; try (rewrite ?Es, ?Ez, ?El, ?En; done).
      * intros t. rewrite En. intros Ht. rewrite Hb, Hin. by apply W6.
      * intros t t'. rewrite En, !Hb. by apply W7.
    + apply Hset; rewrite En.
      * intros t Ht. exists t. left. by rewrite Hb.
      * intros u Hu. by exists u.
      * exists t0. split; [done|]. rewrite Hb. unfold blk. by rewrite Eg.
    + rewrite En, Ez. lia.
  - assert (Hb : forall t, t <> n (lh lg) -> blk lg' t = blk lg t) by (intros t Ht; unfold blk; by rewrite Hsame).
    assert (Hbn' : blk lg' (n (lh lg)) = bn) by (unfold blk; by rewrite Eg).
    assert (Hfresh : forall t, 0 <= t < n (lh lg) -> blk lg t <> bn).
    { intros t Ht Eb. apply (Hno t Ht). by rewrite (getZ_blk lg t Hwf Ht), Eb. }
    split_and!; [|done|done| | |done|done].
    + split; try (rewrite ?Es, ?Ez, ?El; done).
      * rewrite En, Ez. lia.
      * intros t. rewrite En. intros Ht. rewrite Hin. destruct (decide (t = n (lh lg))) as [->|Hne].
        -- by rewrite Hbn'.
        -- rewrite Hb by done. apply W6. lia.
      * intros t t'. rewrite En. intros Ht Ht'.
        destruct (decide (t = n (lh lg))) as [->|Hne], (decide (t' = n (lh lg))) as [->|Hne']; [done| | |].
        -- rewrite Hbn', Hb by done. intros Eb. destruct (Hfresh t'); [lia|done].
        -- rewrite Hbn', Hb by done. intros Eb. destruct (Hfresh t); [lia|done].
        -- rewrite !Hb by done. apply W7; lia.
    + apply Hset; rewrite En.
      * intros t Ht. destruct (decide (t = n (lh lg))) as [->|Hne]; [exists 0; by right|].
        exists t. left. rewrite Hb by done. split; [lia|done].
      * intros u Hu. exists u. split; [lia|]. rewrite Hb; [done|lia].
      * exists (n (lh lg)). split; [lia|done].
    + rewrite En, Ez. lia.
Qed.

#[export] Instance log_txn_spec : TxnSpec (log * T).
Proof.
  refine {| txn_ok := log_txn_ok; tview s := view s.2; troom s := Z.to_nat (log_room s.1);
            tlogged s := blks s.1;
            loggable s b := 0 <= b < FSSIZE /\ ~ in_log s.1 b; tat s := at_buf s.2 |}.
  - intros s L D b i Hok Hat. apply (at_buf_spec s.2 L (blks s.1) b i); [apply Hok|done].
  - intros [lg c] L D b [W O C R Sb Cl] Hb Hr Hsz. simpl in *.
    destruct (bread_ok c L (blks lg) b) as (c' & i & E & C' & Hat & (Hv & Hh & Hj) & Hk); [done..| |].
    { left. pose proof (blks_pinned lg W R). pose proof (size_union_alt L (blks lg)) as Hu. rewrite Hu.
      assert (Hs : (size (blks lg ∖ L) <= size (blks lg))%nat) by (apply subseteq_size; set_solver). unfold NBUF. lia. }
    exists (lg, c'), i. rewrite E. split; [done|]. split; [|split; [done|split; [by split_and!|done]]].
    split; simpl; try done; [set_solver|]. intros b' Hb' HD. rewrite Hv, Hh.
    destruct (decide (b' ∈ L)) as [Hin|Hin]; [by apply Cl|]. assert (b' = b) as -> by set_solver.
    destruct (decide (b ∈ blks lg)); [by left|right]. by apply (view_home c L (blks lg)).
  - intros [lg c] L D b i v [W O C R Sb Cl] Hb Hat. simpl in *.
    destruct (set_data_ok c L (blks lg) b i v C Hb Hat) as (C' & Hv & Hv' & Hh & Hj & Hk).
    split; [|by split_and!]. split; simpl; try done; [set_solver|].
    intros b' Hb' HD. assert (b' <> b) by set_solver. rewrite Hv', Hh by done. apply Cl; set_solver.
  - intros [lg c] L D b i [W O C R Sb Cl] Hb Hat [Hr Hl] Hroom. simpl in *. unfold log_write. simpl.
    rewrite (proj1 (at_buf_spec c L (blks lg) b i C Hat)).
    destruct (log_append_blks lg b W (proj1 O)) as (lg' & E & W' & (O' & Oc') & B' & R' & Es & Ez); [lia|done|done|]. rewrite E. cbn [obind].
    destruct (set_dirty_ok c L (blks lg) b i C Hb Hat) as (C' & (Hv & Hh & Hj) & Hk).
    assert (Hin : forall b', in_log lg' b' <-> in_log lg b') by (intros b'; unfold in_log; by rewrite Es, Ez).
    exists (lg', set_dirty c i). split; [done|]. split; [|split; [done|split; [|split; [intros b'; simpl; by rewrite Hin|done]]]].
    2: { split; [done|]. simpl. pose proof (wf_n _ W). pose proof (wf_n _ W').
         rewrite !blks_count by done. unfold log_room in *. rewrite Ez in *. lia. }
    split; simpl; [done|by rewrite O', Oc'|by rewrite B'|lia|set_solver|].
    intros b' Hb' HD. rewrite B', Hv, Hh. destruct (decide (b' = b)) as [->|Hne]; [left; set_solver|].
    destruct (Cl b' Hb'); [set_solver|left; set_solver|by right].
  - intros [lg c] L D b i [W O C R Sb Cl] Hb HD Hat. simpl in *.
    destruct (brelse_ok c L (blks lg) b i C Hb Hat (Cl b Hb HD)) as (c' & E & C' & (Hv & Hh & Hj) & Hk).
    exists (lg, c'). rewrite E. split; [done|]. split; [|split; [by split_and!|done]]. split; simpl; try done; [set_solver|].
    intros b' Hb' HD'. rewrite Hv, Hh. apply Cl; set_solver.
Defined.

(** The start of a transaction: nothing logged, no buffer held. *)
Lemma log_txn_start lg (c : T) :
  log_wf lg -> 1 <= outstanding lg /\ committing lg = false -> 0 <= log_room lg -> n (lh lg) = 0 -> cache_ok c ∅ ∅ -> txn_ok (lg, c) ∅ ∅.
Proof.
  intros Hwf Ho Hr Hn Hc. split; simpl; try done.
  assert (Hb : blks lg = ∅); [|by rewrite Hb].
  apply set_eq. intros b. rewrite elem_of_blks, Hn. split; [intros (t & Ht & _); lia|set_solver].
Qed.

Lemma log_txn_view lg (c : T) b : cache_ok c ∅ ∅ -> tview (lg, c) b = home c b.
Proof. intros Hc. change (view c b = home c b). apply (view_home c ∅ ∅); [done|set_solver..]. Qed.

Lemma log_txn_loggable lg (c : T) b : 0 <= b < FSSIZE -> ~ in_log lg b -> loggable (lg, c) b.
Proof. by split. Qed.
End log_txn.
