(* ===== verification/Fs.v ===== *)
(** * The xv6 file system

    [fs.c] of p3b over the transaction interface of [Txn]: the block
    allocator, the inode cache, inode contents, directories and path names.
    An inode pointer is an index of the cache; strings, path names and the
    buffers of [readi] and [writei] lie in one byte memory. *)

From S2P Require Import Prelude DfsImage Kalloc Bio Txn CString.
Local Open Scope Z_scope.
Local Open Scope xv6_scope.

Module Fs.

Definition ROOTINO : Z := 1.
Definition ROOTDEV : Z := 1.
Definition BSIZE : Z := 512.
Definition NDIRECT : Z := 12.
Definition NINDIRECT : Z := BSIZE / 4.
Definition MAXFILE : Z := NDIRECT + NINDIRECT.
Definition SIZEOF_DINODE : Z := 64.
Definition IPB : Z := BSIZE / SIZEOF_DINODE.
Definition BPB : Z := BSIZE * 8.
Definition DIRSIZ : nat := 14.
Definition SIZEOF_DIRENT : Z := 16.
Definition NINODE : nat := 50.
Definition NDEV : Z := 10.
Definition T_DIR : Z := 1.
Definition T_DEV : Z := 3.

Record superblock := {
  size : Z; nblocks : Z; ninodes : Z; nlog : Z; logstart : Z; inodestart : Z; bmapstart : Z
}.

(** [short] fields. *)
Definition s16 (z : Z) : Z := (z + 2 ^ 15) mod 2 ^ 16 - 2 ^ 15.
Definition word16 (m : bytes) (a : Z) : Z := m a + 2 ^ 8 * m (a + 1).
Definition put16 (m : bytes) (a v : Z) : bytes := put8 (put8 m a v) (a + 1) (v / 2 ^ 8).
Definition uint32 (m : bytes) (a : Z) : Z := u32 (word32 m a).

(** [struct dinode] at byte [a] of a block. *)
Definition off_type (a : Z) : Z := a.
Definition off_major (a : Z) : Z := a + 2.
Definition off_minor (a : Z) : Z := a + 4.
Definition off_nlink (a : Z) : Z := a + 6.
Definition off_size (a : Z) : Z := a + 8.
Definition off_addr (a i : Z) : Z := a + 12 + 4 * i.

Record inode := {
  dev : Z; inum : Z; ref : Z; lock : Bio.sleeplock; valid : bool;
  type : Z; major : Z; minor : Z; nlink : Z; isize : Z; addrs : list Z
}.

Definition with_ref (r : Z) (ip : inode) : inode :=
  {| dev := dev ip; inum := inum ip; ref := r; lock := lock ip; valid := valid ip; type := type ip;
     major := major ip; minor := minor ip; nlink := nlink ip; isize := isize ip; addrs := addrs ip |}.
Definition with_lock (l : Bio.sleeplock) (ip : inode) : inode :=
  {| dev := dev ip; inum := inum ip; ref := ref ip; lock := l; valid := valid ip; type := type ip;
     major := major ip; minor := minor ip; nlink := nlink ip; isize := isize ip; addrs := addrs ip |}.
Definition with_valid (v : bool) (ip : inode) : inode :=
  {| dev := dev ip; inum := inum ip; ref := ref ip; lock := lock ip; valid := v; type := type ip;
     major := major ip; minor := minor ip; nlink := nlink ip; isize := isize ip; addrs := addrs ip |}.
Definition with_type (t : Z) (ip : inode) : inode :=
  {| dev := dev ip; inum := inum ip; ref := ref ip; lock := lock ip; valid := valid ip; type := t;
     major := major ip; minor := minor ip; nlink := nlink ip; isize := isize ip; addrs := addrs ip |}.
Definition with_size (n : Z) (ip : inode) : inode :=
  {| dev := dev ip; inum := inum ip; ref := ref ip; lock := lock ip; valid := valid ip; type := type ip;
     major := major ip; minor := minor ip; nlink := nlink ip; isize := n; addrs := addrs ip |}.
Definition with_addr (i : Z) (b : Z) (ip : inode) : inode :=
  {| dev := dev ip; inum := inum ip; ref := ref ip; lock := lock ip; valid := valid ip; type := type ip;
     major := major ip; minor := minor ip; nlink := nlink ip; isize := isize ip;
     addrs := <[Z.to_nat i := b]> (addrs ip) |}.

(** What [iget] writes into a recycled entry. *)
Definition recycle (d i : Z) (ip : inode) : inode :=
  {| dev := d; inum := i; ref := 1; lock := lock ip; valid := false; type := type ip;
     major := major ip; minor := minor ip; nlink := nlink ip; isize := isize ip; addrs := addrs ip |}.

(** [ip->type = dip->type; ...] of [ilock], for the inode at byte [a] of [d]. *)
Definition load_inode (d : block) (a : Z) (ip : inode) : inode :=
  {| dev := dev ip; inum := inum ip; ref := ref ip; lock := lock ip; valid := valid ip;
     type := s16 (word16 d (off_type a)); major := s16 (word16 d (off_major a));
     minor := s16 (word16 d (off_minor a)); nlink := s16 (word16 d (off_nlink a));
     isize := uint32 d (off_size a);
     addrs := map (fun i => uint32 d (off_addr a i)) (seqZ 0 (NDIRECT + 1)) |}.

(** [dip->type = ip->type; ...] of [iupdate]. *)
Fixpoint put_addrs (d : block) (a i : Z) (l : list Z) : block :=
  match l with
  | [] => d
  | b :: l => put_addrs (put32 d (off_addr a i) b) a (i + 1) l
  end.
Definition store_inode (d : block) (a : Z) (ip : inode) : block :=
  let d := put16 d (off_type a) (type ip) in
  let d := put16 d (off_major a) (major ip) in
  let d := put16 d (off_minor a) (minor ip) in
  let d := put16 d (off_nlink a) (nlink ip) in
  let d := put32 d (off_size a) (isize ip) in
  put_addrs d a 0 (addrs ip).

(** [memmove(dst, src + o, m)] from one memory into another. *)
Definition move_in (mem : bytes) (dst : Z) (src : bytes) (o m : Z) : bytes :=
  fun x => if (dst <=? x) && (x <? dst + m) then src (o + (x - dst)) else mem x.

Section fs.
Context {T : Type} `{Txn T}.
(** The superblock, and [myproc()->pid]. *)
Context (sb : superblock) (mypid : Z).

Record fs := { disk : T; icache : list inode }.

Definition with_disk (s : T) (f : fs) : fs := {| disk := s; icache := icache f |}.
Definition with_icache (t : list inode) (f : fs) : fs := {| disk := disk f; icache := t |}.
Definition upd (i : nat) (g : inode -> inode) (f : fs) : fs := with_icache (alter g i (icache f)) f.

Definition IBLOCK (i : Z) : Z := i / IPB + inodestart sb.
Definition BBLOCK (b : Z) : Z := b / BPB + bmapstart sb.
(** [(struct dinode* )bp->data + inum%IPB], in bytes. *)
Definition dinode_at (i : Z) : Z := i mod IPB * SIZEOF_DINODE.

(** ** Blocks *)

Definition readsb (s : T) : outcome (T * superblock) :=
  let* (s, bp) := tread s 1 in
  let d := tdata s bp in
  let* s := trelse s bp in
  Ret (s, {| size := uint32 d 0; nblocks := uint32 d 4; ninodes := uint32 d 8; nlog := uint32 d 12;
             logstart := uint32 d 16; inodestart := uint32 d 20; bmapstart := uint32 d 24 |}).

Definition bzero (s : T) (bno : Z) : outcome T :=
  let* (s, bp) := tread s bno in
  let s := tset s bp (Kalloc.memset (tdata s bp) 0 0 BSIZE) in
  let* s := tlog s bp in
  trelse s bp.

(** [for(bi = 0; bi < BPB && b + bi < sb.size; bi++)], [n] bits left. *)
Fixpoint free_bit (d : block) (b bi : Z) (n : nat) : option Z :=
  match n with
  | O => None
  | S n =>
      if b + bi <? size sb then
        if Z.land (d (bi / 8)) (Z.shiftl 1 (bi mod 8)) =? 0 then Some bi
        else free_bit d b (bi + 1) n
      else None
  end.

Fixpoint balloc_from (fuel : nat) (s : T) (b : Z) : outcome (T * Z) :=
  match fuel with
  | O => Fault
  | S fuel =>
      if b <? size sb then
        let* (s, bp) := tread s (BBLOCK b) in
        match free_bit (tdata s bp) b 0 (Z.to_nat BPB) with
        | Some bi =>
            let d := tdata s bp in
            let s := tset s bp (put8 d (bi / 8) (Z.lor (d (bi / 8)) (Z.shiftl 1 (bi mod 8)))) in
            let* s := tlog s bp in
            let* s := trelse s bp in
            let* s := bzero s (b + bi) in
            Ret (s, b + bi)
        | None =>
            let* s := trelse s bp in
            balloc_from fuel s (b + BPB)
        end
      else Panic "balloc: out of blocks"
  end.

Definition balloc (s : T) : outcome (T * Z) := balloc_from (S (S (Z.to_nat (size sb / BPB)))) s 0.

Definition bfree (s : T) (b : Z) : outcome T :=
  let* (s, bp) := tread s (BBLOCK b) in
  let d := tdata s bp in
  let bi := b mod BPB in
  let m := Z.shiftl 1 (bi mod 8) in
  if Z.land (d (bi / 8)) m =? 0 then Panic "freeing free block"
  else
    let s := tset s bp (put8 d (bi / 8) (Z.land (d (bi / 8)) (Z.lnot m))) in
    let* s := tlog s bp in
    trelse s bp.

(** ** Inodes *)

Definition iinit (f : fs) : outcome (fs * superblock) :=
  let f := with_icache (map (with_lock Bio.initsleeplock) (icache f)) f in
  let* (s, sb) := readsb (disk f) in
  Ret (with_disk s f, sb).

(** The loop of [iget] from entry [i] on: the entry with the inode, or else
    the first one without references. *)
Fixpoint iget_scan (t : list inode) (d n : Z) (i : nat) (empty : option nat) : nat + option nat :=
  match t with
  | [] => inr empty
  | ip :: t =>
      if (0 <? ref ip) && (dev ip =? d) && (inum ip =? n) then inl i
      else
        let empty := match empty with None => if ref ip =? 0 then Some i else None | Some e => Some e end in
        iget_scan t d n (S i) empty
  end.

Definition iget (f : fs) (d n : Z) : outcome (fs * nat) :=
  match iget_scan (icache f) d n 0 None with
  | inl i => Ret (upd i (fun ip => with_ref (ref ip + 1) ip) f, i)
  | inr None => Panic "iget: no inodes"
  | inr (Some i) => Ret (upd i (recycle d n) f, i)
  end.

(** The loop of [ialloc] over the inode numbers. *)
Fixpoint ialloc_from (f : fs) (d ty : Z) (inums : list Z) : outcome (fs * nat) :=
  match inums with
  | [] => Panic "ialloc: no inodes"
  | i :: inums =>
      let* (s, bp) := tread (disk f) (IBLOCK i) in
      let a := dinode_at i in
      if s16 (word16 (tdata s bp) (off_type a)) =? 0 then
        let v := put16 (Kalloc.memset (tdata s bp) a 0 SIZEOF_DINODE) (off_type a) ty in
        let* s := tlog (tset s bp v) bp in
        let* s := trelse s bp in
        iget (with_disk s f) d i
      else
        let* s := trelse s bp in
        ialloc_from (with_disk s f) d ty inums
  end.

Definition ialloc (f : fs) (d ty : Z) : outcome (fs * nat) :=
  ialloc_from f d ty (seqZ 1 (ninodes sb - 1)).

Definition iupdate (f : fs) (i : nat) : outcome fs :=
  let* ip := of_option (icache f !! i) in
  let* (s, bp) := tread (disk f) (IBLOCK (inum ip)) in
  let s := tset s bp (store_inode (tdata s bp) (dinode_at (inum ip)) ip) in
  let* s := tlog s bp in
  let* s := trelse s bp in
  Ret (with_disk s f).

Definition idup (f : fs) (i : nat) : fs := upd i (fun ip => with_ref (ref ip + 1) ip) f.

(** [ilock] and [iunlock] of a pointer that may be null. *)
Definition ilock (f : fs) (i : option nat) : outcome fs :=
  match i with
  | None => Panic "ilock"
  | Some i =>
      let* ip := of_option (icache f !! i) in
      if ref ip <? 1 then Panic "ilock"
      else
        let* l := Bio.acquiresleep mypid (lock ip) in
        let f := upd i (with_lock l) f in
        if negb (valid ip) then
          let* (s, bp) := tread (disk f) (IBLOCK (inum ip)) in
          let d := tdata s bp in
          let f := upd i (load_inode d (dinode_at (inum ip))) f in
          let* s := trelse s bp in
          let f := upd i (with_valid true) (with_disk s f) in
          if s16 (word16 d (off_type (dinode_at (inum ip)))) =? 0 then Panic "ilock: no type"
          else Ret f
        else Ret f
  end.

Definition iunlock (f : fs) (i : option nat) : outcome fs :=
  match i with
  | None => Panic "iunlock"
  | Some i =>
      let* ip := of_option (icache f !! i) in
      if negb (Bio.holdingsleep mypid (lock ip)) || (ref ip <? 1) then Panic "iunlock"
      else Ret (upd i (with_lock (Bio.releasesleep (lock ip))) f)
  end.

(** ** Contents *)

Definition bmap (f : fs) (i : nat) (bn : Z) : outcome (fs * Z) :=
  let* ip := of_option (icache f !! i) in
  if bn <? NDIRECT then
    let* addr := of_option (getZ (addrs ip) bn) in
    if addr =? 0 then
      let* (s, addr) := balloc (disk f) in
      Ret (upd i (with_addr bn addr) (with_disk s f), addr)
    else Ret (f, addr)
  else
    let bn := bn - NDIRECT in
    if bn <? NINDIRECT then
      let* addr := of_option (getZ (addrs ip) NDIRECT) in
      let* (f, addr) :=
        if addr =? 0 then
          let* (s, addr) := balloc (disk f) in
          Ret (upd i (with_addr NDIRECT addr) (with_disk s f), addr)
        else Ret (f, addr) in
      let* (s, bp) := tread (disk f) addr in
      let addr := uint32 (tdata s bp) (4 * bn) in
      let* (s, addr) :=
        if addr =? 0 then
          let* (s, addr) := balloc s in
          let s := tset s bp (put32 (tdata s bp) (4 * bn) addr) in
          let* s := tlog s bp in
          Ret (s, addr)
        else Ret (s, addr) in
      let* s := trelse s bp in
      Ret (with_disk s f, addr)
    else Panic "bmap: out of range".

(** [for(i = 0; i < NDIRECT; i++)] of [itrunc]. *)
Fixpoint free_direct (f : fs) (i : nat) (ns : list Z) : outcome fs :=
  match ns with
  | [] => Ret f
  | n :: ns =>
      let* ip := of_option (icache f !! i) in
      let* addr := of_option (getZ (addrs ip) n) in
      let* f :=
        if negb (addr =? 0) then
          let* s := bfree (disk f) addr in
          Ret (upd i (with_addr n 0) (with_disk s f))
        else Ret f in
      free_direct f i ns
  end.

(** [for(j = 0; j < NINDIRECT; j++)], with the indirect block in [bp]. *)
Fixpoint free_indirect (s : T) (bp : nat) (js : list Z) : outcome T :=
  match js with
  | [] => Ret s
  | j :: js =>
      let a := uint32 (tdata s bp) (4 * j) in
      let* s := if negb (a =? 0) then bfree s a else Ret s in
      free_indirect s bp js
  end.

Definition itrunc (f : fs) (i : nat) : outcome fs :=
  let* f := free_direct f i (seqZ 0 NDIRECT) in
  let* ip := of_option (icache f !! i) in
  let* addr := of_option (getZ (addrs ip) NDIRECT) in
  let* f :=
    if negb (addr =? 0) then
      let* (s, bp) := tread (disk f) addr in
      let* s := free_indirect s bp (seqZ 0 NINDIRECT) in
      let* s := trelse s bp in
      let* s := bfree s addr in
      Ret (upd i (with_addr NDIRECT 0) (with_disk s f))
    else Ret f in
  iupdate (upd i (with_size 0) f) i.

Definition iput (f : fs) (i : nat) : outcome fs :=
  let* ip := of_option (icache f !! i) in
  let* l := Bio.acquiresleep mypid (lock ip) in
  let f := upd i (with_lock l) f in
  let* f :=
    if valid ip && (nlink ip =? 0) then
      if ref ip =? 1 then
        let* f := itrunc f i in
        let f := upd i (with_type 0) f in
        let* f := iupdate f i in
        Ret (upd i (with_valid false) f)
      else Ret f
    else Ret f in
  let f := upd i (fun ip => with_lock (Bio.releasesleep (lock ip)) ip) f in
  Ret (upd i (fun ip => with_ref (ref ip - 1) ip) f).

Definition iunlockput (f : fs) (i : nat) : outcome fs :=
  let* f := iunlock f (Some i) in iput f i.

(** [struct stat]. *)
Record stat := { st_type : Z; st_dev : Z; st_ino : Z; st_nlink : Z; st_size : Z }.

Definition stati (ip : inode) : stat :=
  {| st_type := type ip; st_dev := dev ip; st_ino := inum ip; st_nlink := nlink ip; st_size := isize ip |}.

(** The device functions [devsw] holds; [None] is a null pointer. *)
Context (devsw_read devsw_write : Z -> option (fs -> bytes -> nat -> Z -> Z -> outcome (fs * bytes * Z))).

Definition device (sw : Z -> option (fs -> bytes -> nat -> Z -> Z -> outcome (fs * bytes * Z)))
    (f : fs) (mem : bytes) (i : nat) (ip : inode) (a n : Z) : outcome (fs * bytes * Z) :=
  if (major ip <? 0) || (NDEV <=? major ip) then Ret (f, mem, -1)
  else match sw (major ip) with None => Ret (f, mem, -1) | Some g => g f mem i a n end.

(** The loop of [readi]; each turn ends a block, so [n / BSIZE + 2] do. *)
Fixpoint readi_from (fuel : nat) (f : fs) (mem : bytes) (i : nat) (dst off tot n : Z) : outcome (fs * bytes) :=
  if tot <? n then
    match fuel with
    | O => Fault
    | S fuel =>
        let* (f, b) := bmap f i (off / BSIZE) in
        let* (s, bp) := tread (disk f) b in
        let m := Z.min (n - tot) (BSIZE - off mod BSIZE) in
        let mem := move_in mem dst (tdata s bp) (off mod BSIZE) m in
        let* s := trelse s bp in
        readi_from fuel (with_disk s f) mem i (u32 (dst + m)) (off + m) (tot + m) n
    end
  else Ret (f, mem).

Definition io_fuel (n : Z) : nat := S (S (Z.to_nat (n / BSIZE))).

Definition readi (f : fs) (mem : bytes) (i : nat) (dst off n : Z) : outcome (fs * bytes * Z) :=
  let* ip := of_option (icache f !! i) in
  if type ip =? T_DEV then device devsw_read f mem i ip dst n
  else if (isize ip <? off) || (u32 (off + n) <? off) then Ret (f, mem, -1)
  else
    let n := if isize ip <? u32 (off + n) then isize ip - off else n in
    let* (f, mem) := readi_from (io_fuel n) f mem i dst off 0 n in
    Ret (f, mem, s32 n).

Fixpoint writei_from (fuel : nat) (f : fs) (mem : bytes) (i : nat) (src off tot n : Z) : outcome (fs * Z) :=
  if tot <? n then
    match fuel with
    | O => Fault
    | S fuel =>
        let* (f, b) := bmap f i (off / BSIZE) in
        let* (s, bp) := tread (disk f) b in
        let m := Z.min (n - tot) (BSIZE - off mod BSIZE) in
        let s := tset s bp (move_in (tdata s bp) (off mod BSIZE) mem src m) in
        let* s := tlog s bp in
        let* s := trelse s bp in
        writei_from fuel (with_disk s f) mem i (u32 (src + m)) (off + m) (tot + m) n
    end
  else Ret (f, off).

Definition writei (f : fs) (mem : bytes) (i : nat) (src off n : Z) : outcome (fs * bytes * Z) :=
  let* ip := of_option (icache f !! i) in
  if type ip =? T_DEV then device devsw_write f mem i ip src n
  else if (isize ip <? off) || (u32 (off + n) <? off) then Ret (f, mem, -1)
  else if MAXFILE * BSIZE <? u32 (off + n) then Ret (f, mem, -1)
  else
    let* (f, off) := writei_from (io_fuel n) f mem i src off 0 n in
    let* ip := of_option (icache f !! i) in
    let* f :=
      if (0 <? n) && (isize ip <? off) then iupdate (upd i (with_size off) f) i
      else Ret f in
    Ret (f, mem, s32 n).

(** ** Directories *)

Definition namecmp (mem : bytes) (s t : Z) : Z := CString.strncmp mem s t DIRSIZ.

(** [for(off = 0; off < dp->size; off += sizeof(de))] of [dirlookup], [de]
    the address of the local; the entry's inode and its offset. *)
Fixpoint dirlookup_from (fuel : nat) (f : fs) (mem : bytes) (dp : nat) (name de off : Z) :
    outcome (fs * bytes * option (nat * Z)) :=
  let* ip := of_option (icache f !! dp) in
  if off <? isize ip then
    match fuel with
    | O => Fault
    | S fuel =>
        let* (f, mem, r) := readi f mem dp de off SIZEOF_DIRENT in
        if negb (r =? SIZEOF_DIRENT) then Panic "dirlookup read"
        else if word16 mem de =? 0 then dirlookup_from fuel f mem dp name de (off + SIZEOF_DIRENT)
        else if namecmp mem name (de + 2) =? 0 then
          let* (f, i) := iget f (dev ip) (word16 mem de) in Ret (f, mem, Some (i, off))
        else dirlookup_from fuel f mem dp name de (off + SIZEOF_DIRENT)
    end
  else Ret (f, mem, None).

Definition dir_fuel (ip : inode) : nat := S (Z.to_nat (isize ip / SIZEOF_DIRENT)).

Definition dirlookup (f : fs) (mem : bytes) (dp : nat) (name de : Z) : outcome (fs * bytes * option (nat * Z)) :=
  let* ip := of_option (icache f !! dp) in
  if negb (type ip =? T_DIR) then Panic "dirlookup not DIR"
  else dirlookup_from (dir_fuel ip) f mem dp name de 0.

(** The search of [dirlink] for an empty entry. *)
Fixpoint empty_entry (fuel : nat) (f : fs) (mem : bytes) (dp : nat) (de off : Z) : outcome (fs * bytes * Z) :=
  let* ip := of_option (icache f !! dp) in
  if off <? isize ip then
    match fuel with
    | O => Fault
    | S fuel =>
        let* (f, mem, r) := readi f mem dp de off SIZEOF_DIRENT in
        if negb (r =? SIZEOF_DIRENT) then Panic "dirlink read"
        else if word16 mem de =? 0 then Ret (f, mem, off)
        else empty_entry fuel f mem dp de (off + SIZEOF_DIRENT)
    end
  else Ret (f, mem, off).

Definition dirlink (f : fs) (mem : bytes) (dp : nat) (name inum de : Z) : outcome (fs * bytes * Z) :=
  let* (f, mem, r) := dirlookup f mem dp name de in
  match r with
  | Some (i, _) => let* f := iput f i in Ret (f, mem, -1)
  | None =>
      let* ip := of_option (icache f !! dp) in
      let* (f, mem, off) := empty_entry (dir_fuel ip) f mem dp de 0 in
      let mem := CString.strncpy mem (de + 2) name DIRSIZ in
      let mem := put16 mem de inum in
      let* (f, mem, r) := writei f mem dp de off SIZEOF_DIRENT in
      if negb (r =? SIZEOF_DIRENT) then Panic "dirlink" else Ret (f, mem, 0)
  end.

(** ** Paths *)

Definition SLASH : Z := 47.

(** [while(<test> *path) path++]; fuel bounds the length of the string. *)
Fixpoint skip_while (fuel : nat) (test : Z -> bool) (mem : bytes) (path : Z) : outcome Z :=
  match fuel with
  | O => Fault
  | S fuel => if test (mem path) then skip_while fuel test mem (path + 1) else Ret path
  end.

Definition is_slash (c : Z) : bool := c =? SLASH.
Definition in_elem (c : Z) : bool := negb (c =? SLASH) && negb (c =? 0).

Definition skipelem (fuel : nat) (mem : bytes) (path name : Z) : outcome (bytes * option Z) :=
  let* path := skip_while fuel is_slash mem path in
  if mem path =? 0 then Ret (mem, None)
  else
    let s := path in
    let* path := skip_while fuel in_elem mem path in
    let len := path - s in
    let mem :=
      if Z.of_nat DIRSIZ <=? len then CString.memmove mem name s DIRSIZ
      else put8 (CString.memmove mem name s (Z.to_nat len)) (name + len) 0 in
    let* path := skip_while fuel is_slash mem path in
    Ret (mem, Some path).

(** The loop of [namex], with inode [i] in hand. *)
Fixpoint namex_from (fuel strfuel : nat) (f : fs) (mem : bytes) (i : nat) (path : Z) (nameiparent : bool)
    (name de : Z) : outcome (fs * bytes * option nat) :=
  match fuel with
  | O => Fault
  | S fuel =>
      let* (mem, next) := skipelem strfuel mem path name in
      match next with
      | Some path =>
          let* f := ilock f (Some i) in
          let* ip := of_option (icache f !! i) in
          if negb (type ip =? T_DIR) then
            let* f := iunlockput f i in Ret (f, mem, None)
          else if nameiparent && (mem path =? 0) then
            let* f := iunlock f (Some i) in Ret (f, mem, Some i)
          else
            let* (f, mem, r) := dirlookup f mem i name de in
            let* f := iunlockput f i in
            match r with
            | None => Ret (f, mem, None)
            | Some (next, _) => namex_from fuel strfuel f mem next path nameiparent name de
            end
      | None =>
          if nameiparent then let* f := iput f i in Ret (f, mem, None)
          else Ret (f, mem, Some i)
      end
  end.

(** [cwd] is [myproc()->cwd]. *)
Definition namex (fuel : nat) (f : fs) (mem : bytes) (cwd : nat) (path : Z) (nameiparent : bool)
    (name de : Z) : outcome (fs * bytes * option nat) :=
  let* (f, i) := if mem path =? SLASH then iget f ROOTDEV ROOTINO else Ret (idup f cwd, cwd) in
  namex_from fuel fuel f mem i path nameiparent name de.

Definition namei (fuel : nat) (f : fs) (mem : bytes) (cwd : nat) (path name de : Z) :=
  namex fuel f mem cwd path false name de.
Definition nameiparent (fuel : nat) (f : fs) (mem : bytes) (cwd : nat) (path name de : Z) :=
  namex fuel f mem cwd path true name de.
End fs.
Arguments fs : clear implicits.

End Fs.
