(* ===== verification/FsThms.v ===== *)
(** * The xv6 file system: theorems

    The inode cache and its reference counts, path names, the block allocator
    and reading a file. *)

From S2P Require Import Prelude DfsImage Kalloc File Bio Log LogSpec LogThms Txn CString Fs.
Import Fs.
Local Open Scope Z_scope.
Local Open Scope xv6_scope.

Module FsThms.

(** ** The inode cache *)

Section icache.
Context {T : Type} `{Txn T} (sb : superblock) (mypid : Z).
Implicit Types (f : fs T) (t : list inode) (h : list nat) (i j : nat).

(** [h] lists the references the kernel holds, an entry as often as it is
    held: counts match, and no inode has two entries in use. *)
Record icache_ok t h : Prop := {
  ic_ref i ip : t !! i = Some ip -> ref ip = File.refs_to h i;
  ic_held i : i ∈ h -> (i < length t)%nat;
  ic_unique i j p q : t !! i = Some p -> t !! j = Some q -> 0 < ref p -> 0 < ref q ->
    dev p = dev q -> inum p = inum q -> i = j
}.

(** An entry changed without its identity or its count. *)
Definition same_id (p p' : inode) : Prop := ref p' = ref p /\ dev p' = dev p /\ inum p' = inum p.

Definition same_ids t t' : Prop :=
  forall i, match t !! i, t' !! i with
            | Some p, Some p' => same_id p p'
            | None, None => True
            | _, _ => False
            end.

Lemma same_ids_refl t : same_ids t t.
Proof. intros i. by destruct (t !! i). Qed.

Lemma same_ids_trans t1 t2 t3 : same_ids t1 t2 -> same_ids t2 t3 -> same_ids t1 t3.
Proof.
  intros H1 H2 i. specialize (H1 i). specialize (H2 i). destruct (t1 !! i), (t2 !! i), (t3 !! i); try done.
  destruct H1 as (? & ? & ?), H2 as (? & ? & ?). by split_and!; congruence.
Qed.

Lemma same_ids_alter t i g : (forall p, same_id p (g p)) -> same_ids t (alter g i t).
Proof.
  intros Hg j. destruct (decide (i = j)) as [<-|Hne].
  - rewrite list_lookup_alter_eq. destruct (t !! i); simpl; auto.
  - rewrite list_lookup_alter_ne by done. by destruct (t !! j).
Qed.

Lemma same_ids_ok t t' h : same_ids t t' -> icache_ok t h -> icache_ok t' h.
Proof.
  intros Hs [Hr Hh Hu].
  assert (Hb : forall i p', t' !! i = Some p' -> exists p, t !! i = Some p /\ same_id p p').
  { intros i p' E. specialize (Hs i). rewrite E in Hs. destruct (t !! i) as [p|]; [by exists p|done]. }
  split.
  - intros i p' E. destruct (Hb i p' E) as (p & E0 & -> & _). by apply Hr.
  - intros i Hi. apply Hh in Hi. apply lookup_lt_is_Some in Hi as [p E]. specialize (Hs i). rewrite E in Hs.
    destruct (t' !! i) eqn:E'; [by eapply lookup_lt_Some|done].
  - intros i j p' q' E1 E2. destruct (Hb i p' E1) as (p & F1 & -> & -> & ->), (Hb j q' E2) as (q & F2 & -> & -> & ->).
    by apply Hu.
Qed.

(** *** iget *)

Lemma iget_scan_spec d n t : forall i e,
  match iget_scan t d n i e with
  | inl j => (i <= j)%nat /\ exists p, t !! (j - i)%nat = Some p /\ 0 < ref p /\ dev p = d /\ inum p = n
  | inr r => (forall p, p ∈ t -> 0 < ref p -> dev p = d -> inum p = n -> False) /\
      match e, r with
      | Some a, Some b => a = b
      | Some _, None => False
      | None, Some b => (i <= b)%nat /\ exists p, t !! (b - i)%nat = Some p /\ ref p = 0
      | None, None => forall p, p ∈ t -> ref p <> 0
      end
  end.
Proof.
  induction t as [|p t IH]; intros i e; simpl.
  { split; [by intros p Hp%elem_of_nil|]. destruct e; [done|by intros p Hp%elem_of_nil]. }
  destruct ((0 <? ref p) && (dev p =? d) && (inum p =? n)) eqn:Em.
  { apply andb_true_iff in Em as [[E1%Z.ltb_lt E2%Z.eqb_eq]%andb_true_iff E3%Z.eqb_eq].
    split; [lia|]. exists p. by rewrite Nat.sub_diag. }
  assert (Hno : 0 < ref p -> dev p = d -> inum p = n -> False).
  { intros Hr Hd Hn. rewrite (proj2 (Z.ltb_lt _ _) Hr), (proj2 (Z.eqb_eq _ _) Hd), (proj2 (Z.eqb_eq _ _) Hn) in Em. done. }
  set (e' := match e with Some _ => _ | None => _ end). specialize (IH (S i) e').
  destruct (iget_scan t d n (S i) e') as [j|r].
  - destruct IH as (Hj & q & Hq & Hrest). split; [lia|]. exists q. split; [|done].
    by replace (j - i)%nat with (S (j - S i)) by lia.
  - destruct IH as (Hnone & Hr). split; [intros q [->|Hq]%elem_of_cons; [done|by eauto]|].
    subst e'. destruct e as [a|]; [done|]. destruct (Z.eqb_spec (ref p) 0) as [Hz|Hz].
    + destruct r as [b|]; [subst b|done]. split; [lia|]. exists p. by rewrite Nat.sub_diag.
    + destruct r as [b|].
      * destruct Hr as (Hb & q & Hq & Hz'). split; [lia|]. exists q. split; [|done].
        by replace (b - i)%nat with (S (b - S i)) by lia.
      * intros q [->|Hq]%elem_of_cons; auto.
Qed.

Lemma insert_alter t i (g : inode -> inode) p : t !! i = Some p -> alter g i t = <[i := g p]> t.
Proof.
  intros E. apply list_eq. intros j. destruct (decide (i = j)) as [<-|Hne].
  - rewrite list_lookup_alter_eq, E. rewrite list_lookup_insert_eq; [done|by eapply lookup_lt_Some].
  - by rewrite list_lookup_alter_ne, list_lookup_insert_ne.
Qed.

(** One more reference to an entry, its identity new or kept. *)
Lemma icache_more t h i p p' :
  icache_ok t h -> t !! i = Some p -> ref p' = ref p + 1 ->
  (dev p' = dev p /\ inum p' = inum p /\ 0 < ref p \/
   forall q, q ∈ t -> 0 < ref q -> dev q = dev p' -> inum q = inum p' -> False) ->
  icache_ok (<[i := p']> t) (i :: h).
Proof.
  intros [Hr Hh Hu] Ep Hp' Hid. assert (Hlt : (i < length t)%nat) by (by eapply lookup_lt_Some).
  assert (Hold : forall j q, <[i := p']> t !! j = Some q -> j = i /\ q = p' \/ j <> i /\ t !! j = Some q).
  { intros j q. destruct (decide (i = j)) as [<-|Hne].
    - rewrite list_lookup_insert_eq by done. intros [= <-]. by left.
    - rewrite list_lookup_insert_ne by done. auto. }
  split.
  - intros j q E. rewrite File.refs_to_cons. destruct (Hold j q E) as [[-> ->]|[Hne E']].
    + rewrite decide_True by done. rewrite Hp', (Hr i p Ep). lia.
    + rewrite decide_False by done. rewrite (Hr j q E'). lia.
  - intros j [->|Hj]%elem_of_cons; rewrite length_insert; [done|by apply Hh].
  - assert (Hnew : forall j q, j <> i -> t !! j = Some q -> 0 < ref q -> dev q = dev p' -> inum q = inum p' -> False).
    { intros j q Hne E Hq Hd Hn. destruct Hid as [(D & N & Hp)|Hid]; [|by eapply Hid; [eapply list_elem_of_lookup_2|..]].
      apply Hne, (Hu j i q p); congruence. }
    intros a b x y Ea Eb Hx Hy Hd Hn.
    destruct (Hold a x Ea) as [[-> ->]|[Ha Ea']], (Hold b y Eb) as [[-> ->]|[Hb Eb']]; [done| | |by apply (Hu a b x y)].
    + destruct (Hnew b y); auto; congruence.
    + destruct (Hnew a x); auto; congruence.
Qed.

Lemma iget_ok f h d n :
  icache_ok (icache f) h ->
  match iget f d n with
  | Ret (f', i) => disk f' = disk f /\ icache_ok (icache f') (i :: h) /\
      exists p p', icache f !! i = Some p /\ icache f' = <[i := p']> (icache f) /\ dev p' = d /\ inum p' = n /\
        (if 0 <? ref p then p' = with_ref (ref p + 1) p else p' = recycle d n p)
  | Panic _ => forall p, p ∈ icache f -> ref p <> 0 /\ (dev p = d -> inum p = n -> ref p <= 0)
  | _ => False
  end.
Proof.
  intros Hok. unfold iget. pose proof (iget_scan_spec d n (icache f) 0 None) as Hs.
  destruct (iget_scan _ _ _ _ _) as [i|[i|]].
  - destruct Hs as (_ & p & E & Hr & Hd & Hn). rewrite Nat.sub_0_r in E. cbn. rewrite (insert_alter _ _ _ p E).
    split; [done|]. split; [apply icache_more with p; [done|done|done|by left]|].
    exists p, (with_ref (ref p + 1) p). split_and!; try done. by rewrite (proj2 (Z.ltb_lt _ _) Hr).
  - destruct Hs as (Hno & _ & p & E & Hr). rewrite Nat.sub_0_r in E. cbn. rewrite (insert_alter _ _ _ p E).
    split; [done|]. split.
    + apply icache_more with p; [done|done|simpl; lia|by right].
    + exists p, (recycle d n p). split_and!; try done. by rewrite Hr.
  - destruct Hs as (Hno & Hall). intros p Hp. split; [by apply Hall|]. intros Hd Hn.
    destruct (Z.leb_spec (ref p) 0); [done|]. destruct (Hno p); auto.
Qed.

(** *** The other operations leave identities and counts *)

Lemma iupdate_ids f i f' : iupdate sb f i = Ret f' -> icache f' = icache f.
Proof.
  unfold iupdate. destruct (icache f !! i) as [ip|]; [|done]. cbn [obind of_option].
  destruct (tread _ _) as [[s bp]| | |]; try done. cbn [obind].
  destruct (tlog _ _) as [s1| | |]; try done. cbn [obind]. destruct (trelse _ _); try done. by intros [= <-].
Qed.

Lemma free_direct_ids i ns : forall f f', free_direct sb f i ns = Ret f' -> same_ids (icache f) (icache f').
Proof.
  induction ns as [|n ns IH]; intros f f'; cbn [free_direct]; [intros [= <-]; apply same_ids_refl|].
  destruct (icache f !! i) as [ip|]; [|done]. cbn [obind of_option].
  destruct (getZ (addrs ip) n) as [addr|]; [|done]. cbn [obind of_option].
  destruct (negb (addr =? 0)); cbn [obind]; [|apply IH].
  destruct (bfree _ _ _) as [s| | |]; try done. cbn [obind]. intros Hf.
  eapply same_ids_trans; [|by apply IH]. simpl. by apply same_ids_alter.
Qed.

Lemma itrunc_ids f i f' : itrunc sb f i = Ret f' -> same_ids (icache f) (icache f').
Proof.
  unfold itrunc. destruct (free_direct _ _ _ _) as [f1| | |] eqn:E1; try done. cbn [obind].
  apply free_direct_ids in E1. destruct (icache f1 !! i) as [ip|]; [|done]. cbn [obind of_option].
  destruct (getZ _ _) as [addr|]; [|done]. cbn [obind of_option]. intros Hf.
  match type of Hf with obind ?e _ = _ => destruct e as [f2| | |] eqn:E2 end; try done. cbn [obind] in Hf.
  apply iupdate_ids in Hf. rewrite Hf. eapply same_ids_trans; [exact E1|].
  eapply same_ids_trans; [|simpl; by apply same_ids_alter].
  destruct (negb _); [|injection E2 as <-; apply same_ids_refl].
  destruct (tread _ _) as [[s bp]| | |]; try done. cbn [obind] in E2.
  destruct (free_indirect _ _ _ _) as [s1| | |]; try done. cbn [obind] in E2.
  destruct (trelse _ _) as [s2| | |]; try done. cbn [obind] in E2.
  destruct (bfree _ _ _) as [s3| | |]; try done. injection E2 as <-. simpl. by apply same_ids_alter.
Qed.

Lemma ilock_ids f (o : option nat) f' : ilock sb mypid f o = Ret f' -> same_ids (icache f) (icache f').
Proof.
  destruct o as [i|]; [|done]. cbn [ilock]. destruct (icache f !! i) as [ip|]; [|done]. cbn [obind of_option].
  destruct (ref ip <? 1); [done|]. destruct (Bio.acquiresleep _ _) as [l| | |]; try done. cbn [obind].
  destruct (negb (valid ip)); [|intros [= <-]; simpl; by apply same_ids_alter].
  destruct (tread _ _) as [[s bp]| | |]; try done. cbn [obind]. destruct (trelse _ _) as [s1| | |]; try done. cbn [obind].
  destruct (_ =? 0); [done|]. intros [= <-]. simpl.
  do 2 (eapply same_ids_trans; [|by apply same_ids_alter]). by apply same_ids_alter.
Qed.

Lemma iunlock_ids f (o : option nat) f' : iunlock mypid f o = Ret f' -> same_ids (icache f) (icache f').
Proof.
  destruct o as [i|]; [|done]. cbn [iunlock]. destruct (icache f !! i) as [ip|]; [|done]. cbn [obind of_option].
  destruct (_ || _); [done|]. intros [= <-]. simpl. by apply same_ids_alter.
Qed.

(** [iput] up to its last update. *)
Lemma iput_ids f i f' :
  iput sb mypid f i = Ret f' ->
  exists t, same_ids (icache f) t /\ icache f' = alter (fun ip => with_ref (ref ip - 1) ip) i t.
Proof.
  unfold iput. destruct (icache f !! i) as [ip|]; [|done]. cbn [obind of_option].
  destruct (Bio.acquiresleep _ _) as [l| | |]; try done. cbn [obind]. intros Hf.
  match type of Hf with obind ?e _ = _ => destruct e as [f1| | |] eqn:E1 end; try done. cbn [obind] in Hf.
  injection Hf as <-. eexists. split; [|done]. simpl.
  eapply same_ids_trans; [|by apply same_ids_alter].
  eapply same_ids_trans; [apply (same_ids_alter _ i (with_lock l)); done|].
  destruct (valid ip && _); [|injection E1 as <-; apply same_ids_refl].
  destruct (ref ip =? 1); [|injection E1 as <-; apply same_ids_refl].
  destruct (itrunc _ _ _) as [f2| | |] eqn:E2; try done. cbn [obind] in E1. apply itrunc_ids in E2.
  destruct (iupdate _ _ _) as [f3| | |] eqn:E3; try done. apply iupdate_ids in E3. cbn [obind] in E1.
  injection E1 as <-. simpl in *. rewrite E3. eapply same_ids_trans; [exact E2|].
  eapply same_ids_trans; [by apply (same_ids_alter _ i (with_type 0))|]. by apply same_ids_alter.
Qed.

(** One reference less. *)
Lemma icache_less t h h' i :
  icache_ok t h -> h ≡ₚ i :: h' -> icache_ok (alter (fun ip => with_ref (ref ip - 1) ip) i t) h'.
Proof.
  intros [Hr Hh Hu] Hp.
  assert (Hold : forall j q', alter (fun ip => with_ref (ref ip - 1) ip) i t !! j = Some q' ->
            exists q, t !! j = Some q /\ dev q' = dev q /\ inum q' = inum q /\ ref q' = ref q - if decide (i = j) then 1 else 0).
  { intros j q'. destruct (decide (i = j)) as [<-|Hne].
    - rewrite list_lookup_alter_eq. destruct (t !! i) as [q|]; [|done]. intros [= <-]. by exists q.
    - rewrite list_lookup_alter_ne by done. intros E. exists q'. split_and!; try done. lia. }
  split.
  - intros j q' E. destruct (Hold j q' E) as (q & E0 & _ & _ & ->). rewrite (Hr j q E0), (File.refs_to_perm _ _ j Hp).
    rewrite File.refs_to_cons. case_decide; lia.
  - intros j Hj. rewrite length_alter. apply Hh. rewrite Hp. by right.
  - intros a b x y Ea Eb Hx Hy. destruct (Hold a x Ea) as (p & F1 & -> & -> & Rp), (Hold b y Eb) as (q & F2 & -> & -> & Rq).
    apply Hu; try done; [clear Rq; rewrite Rp in Hx|clear Rp; rewrite Rq in Hy]; repeat case_decide; lia.
Qed.

(** *** Reachable states *)

(** A call on the cache; [h] are the references held before it. *)
Inductive icache_step : fs T * list nat -> fs T * list nat -> Prop :=
| ics_iget f h d n f' i : iget f d n = Ret (f', i) -> icache_step (f, h) (f', i :: h)
| ics_idup f h i : i ∈ h -> icache_step (f, h) (idup f i, i :: h)
| ics_ilock f h i f' : i ∈ h -> ilock sb mypid f (Some i) = Ret f' -> icache_step (f, h) (f', h)
| ics_iunlock f h i f' : i ∈ h -> iunlock mypid f (Some i) = Ret f' -> icache_step (f, h) (f', h)
| ics_iupdate f h i f' : i ∈ h -> iupdate sb f i = Ret f' -> icache_step (f, h) (f', h)
| ics_iput f h h' i f' : h ≡ₚ i :: h' -> iput sb mypid f i = Ret f' -> icache_step (f, h) (f', h').

Lemma icache_step_ok s s' : icache_ok (icache s.1) s.2 -> icache_step s s' -> icache_ok (icache s'.1) s'.2.
Proof.
  intros Hok Hs. destruct Hs as [f h d n f' i E|f h i Hi|f h i f' Hi E|f h i f' Hi E|f h i f' Hi E|f h h' i f' Hp E]; cbn [fst snd] in *.
  - pose proof (iget_ok f h d n Hok) as Hg. rewrite E in Hg. apply Hg.
  - assert (Hr : 1 <= File.refs_to h i) by (by apply File.refs_to_held).
    destruct (lookup_lt_is_Some_2 _ _ (ic_held _ _ Hok i Hi)) as [p Ep]. simpl. rewrite (insert_alter _ _ _ p Ep).
    apply icache_more with p; [done|done|done|]. left. rewrite (ic_ref _ _ Hok i p Ep). split_and!; [done|done|lia].
  - eapply same_ids_ok; [by eapply ilock_ids|done].
  - eapply same_ids_ok; [by eapply iunlock_ids|done].
  - by rewrite (iupdate_ids _ _ _ E).
  - destruct (iput_ids _ _ _ E) as (t & Hs & ->). eapply icache_less; [|exact Hp]. eapply same_ids_ok; [exact Hs|done].
Qed.

(** C26.  However [iget], [idup], [ilock], [iunlock], [iupdate] and [iput] are
    called, each entry's count is the number of references held to it and no
    inode ever has two entries in use; and in every such state [iget] of an
    inode whose entry is in use returns that entry with its contents. *)
Theorem icache_consistent f0 f h (Hinit : forall ip, ip ∈ icache f0 -> ref ip = 0)
    (Hreach : rtc icache_step (f0, []) (f, h)) :
  (forall i ip, icache f !! i = Some ip -> ref ip = File.refs_to h i) /\
  (forall i j p q, icache f !! i = Some p -> icache f !! j = Some q -> 0 < ref p -> 0 < ref q ->
     dev p = dev q -> inum p = inum q -> i = j) /\
  (forall i p, icache f !! i = Some p -> i ∈ h ->
     iget f (dev p) (inum p) = Ret (with_icache (<[i := with_ref (ref p + 1) p]> (icache f)) f, i)).
Proof.
  assert (Hok : icache_ok (icache f) h).
  { apply (rtc_invariant icache_step (fun s => icache_ok (icache s.1) s.2) (f0, []) (f, h)); [by apply icache_step_ok| |done].
    split.
    - intros i ip E. rewrite (Hinit ip); [done|]. by eapply list_elem_of_lookup_2.
    - by intros i Hi%elem_of_nil.
    - intros i j p q E _ Hp. rewrite (Hinit p) in Hp; [lia|]. by eapply list_elem_of_lookup_2. }
  split; [apply Hok|]. split; [apply Hok|]. intros i p E Hi.
  assert (Hr : 0 < ref p).
  { rewrite (ic_ref _ _ Hok i p E). assert (1 <= File.refs_to h i) by (by apply File.refs_to_held). lia. }
  unfold iget. pose proof (iget_scan_spec (dev p) (inum p) (icache f) 0 None) as Hs.
  destruct (iget_scan _ _ _ _ _) as [j|r].
  - destruct Hs as (_ & q & Eq & Hq & Hd & Hn). rewrite Nat.sub_0_r in Eq.
    assert (j = i) as -> by (eapply (ic_unique _ _ Hok j i q p); done). unfold upd. by rewrite (insert_alter _ _ _ p E).
  - destruct Hs as (Hno & _). exfalso. eapply Hno; [by eapply list_elem_of_lookup_2|done..].
Qed.

End icache.
(** ** Path names *)

(** A path cut at its slashes, without the empty pieces. *)
Fixpoint split (l : list Z) : list (list Z) :=
  match l with
  | [] => [[]]
  | c :: l => if c =? SLASH then [] :: split l
              else match split l with [] => [[c]] | w :: ws => (c :: w) :: ws end
  end.
Definition elems (l : list Z) : list (list Z) := filter (fun w => w <> []) (split l).

(** The string [l] at [p], with its NUL. *)
Fixpoint str_at (mem : bytes) (p : Z) (l : list Z) : Prop :=
  match l with
  | [] => mem p = 0
  | c :: l => mem p = c /\ c <> 0 /\ str_at mem (p + 1) l
  end.

Lemma str_at_ext mem mem' p l :
  (forall x, p <= x <= p + Z.of_nat (length l) -> mem' x = mem x) -> str_at mem p l -> str_at mem' p l.
Proof.
  revert p. induction l as [|c l IH]; intros p He; cbn [str_at length].
  - intros <-. apply He. simpl. lia.
  - intros (<- & Hc & Hs). split_and!; [apply He; simpl; lia|done|]. apply IH; [|done]. intros x Hx. apply He. simpl. lia.
Qed.

Lemma str_at_drop mem p l n : (n <= length l)%nat -> str_at mem p l -> str_at mem (p + Z.of_nat n) (drop n l).
Proof.
  revert p n. induction l as [|c l IH]; intros p [|n] Hn; simpl length in *; try lia; cbn [drop].
  1, 2: by rewrite Z.add_0_r.
  intros (_ & _ & Hs). replace (p + Z.of_nat (S n)) with (p + 1 + Z.of_nat n) by lia. apply IH; [lia|done].
Qed.

Lemma str_at_lookup mem p l k c : str_at mem p l -> l !! k = Some c -> mem (p + Z.of_nat k) = c /\ c <> 0.
Proof.
  revert p k. induction l as [|d l IH]; intros p [|k]; try done; cbn [str_at lookup list_lookup].
  - intros (<- & Hd & _) [= <-]. by rewrite Z.add_0_r.
  - intros (_ & _ & Hs) E. replace (p + Z.of_nat (S k)) with (p + 1 + Z.of_nat k) by lia. by apply IH.
Qed.

(** The longest prefix whose characters satisfy [test]. *)
Fixpoint span (test : Z -> bool) (l : list Z) : nat :=
  match l with [] => 0 | c :: l => if test c then S (span test l) else 0%nat end.

Lemma span_length test l : (span test l <= length l)%nat.
Proof. induction l as [|c l IH]; simpl; [lia|]. destruct (test c); lia. Qed.

Lemma skip_while_ok test mem p l fuel :
  str_at mem p l -> test 0 = false -> (length l < fuel)%nat ->
  skip_while fuel test mem p = Ret (p + Z.of_nat (span test l)).
Proof.
  revert p fuel. induction l as [|c l IH]; intros p [|fuel]; simpl length; try lia; cbn [str_at span skip_while].
  - intros -> -> _. by rewrite Z.add_0_r.
  - intros (-> & _ & Hs) Ht Hf. destruct (test c); [|by rewrite Z.add_0_r].
    rewrite IH; [|done|done|lia]. f_equal. lia.
Qed.

(** *** Elements of a path *)

Lemma split_slashes l : elems l = elems (drop (span is_slash l) l).
Proof.
  induction l as [|c l IH]; [done|]. cbn [span]. destruct (is_slash c) eqn:Ec; [|done]. cbn [drop].
  rewrite <- IH. unfold elems. cbn [split]. unfold is_slash in Ec. by rewrite Ec.
Qed.


Lemma split_span l :
  Forall (fun c => c <> 0) l ->
  exists ws, split l = take (span in_elem l) l :: ws /\ split (drop (span in_elem l) l) = [] :: ws.
Proof.
  induction 1 as [|c l Hc _ (ws & E1 & E2)]; [by exists []|]. cbn [span split].
  assert (Hin : in_elem c = negb (c =? SLASH)).
  { unfold in_elem. rewrite (proj2 (Z.eqb_neq c 0) Hc). by rewrite andb_true_r. }
  rewrite Hin. destruct (c =? SLASH) eqn:Es; cbn [negb].
  - exists (split l). cbn [take drop]. split; [done|]. cbn [split]. by rewrite Es.
  - exists ws. cbn [take drop]. by rewrite E1.
Qed.

Lemma elems_span l :
  Forall (fun c => c <> 0) l -> span in_elem l <> 0%nat ->
  elems l = take (span in_elem l) l :: elems (drop (span in_elem l) l).
Proof.
  intros Hl Hs. destruct (split_span l Hl) as (ws & E1 & E2). unfold elems. rewrite E1, E2.
  rewrite filter_cons_True.
  - by rewrite filter_cons_False by auto.
  - destruct l; [done|]. cbn [span] in *. destruct (in_elem z); [|done]. done.
Qed.

Lemma str_at_nonzero mem p l : str_at mem p l -> Forall (fun c => c <> 0) l.
Proof. revert p. induction l as [|c l IH]; intros p; cbn [str_at]; [constructor|]. intros (_ & ? & ?). constructor; [done|by eapply IH]. Qed.

Lemma span_stop test l c : drop (span test l) l !! 0%nat = Some c -> test c = false.
Proof. induction l as [|d l IH]; [done|]. cbn [span]. destruct (test d) eqn:E; cbn [drop]; [done|]. by intros [= <-]. Qed.

(** The name buffer: the element, cut at [DIRSIZ] bytes, with a NUL when it
    is shorter. *)
Definition name_is (mem : bytes) (name : Z) (e : list Z) : Prop := CString.cstr_take mem name DIRSIZ = take DIRSIZ e.

Lemma cstr_take_is mem a (e : list Z) n :
  Forall (fun c => c <> 0) e -> (forall k c, (k < n)%nat -> e !! k = Some c -> mem (a + Z.of_nat k) = c) ->
  ((length e < n)%nat -> mem (a + Z.of_nat (length e)) = 0) ->
  CString.cstr_take mem a n = take n e.
Proof.
  revert a e. induction n as [|n IH]; intros a e He Hk H0; [done|]. cbn [CString.cstr_take].
  destruct e as [|c e]; cbn [take].
  - simpl in H0. rewrite Z.add_0_r in H0. by rewrite H0 by lia.
  - apply Forall_cons in He as [Hc He]. specialize (Hk 0%nat c ltac:(lia) eq_refl) as Hc'. rewrite Z.add_0_r in Hc'.
    rewrite Hc', (proj2 (Z.eqb_neq c 0) Hc). f_equal. apply IH; [done| |].
    + intros k d Hlt E. replace (a + 1 + Z.of_nat k) with (a + Z.of_nat (S k)) by lia. apply Hk; [lia|done].
    + intros Hl. simpl in H0. replace (a + 1 + Z.of_nat (length e)) with (a + Z.pos (Pos.of_succ_nat (length e))) by lia. apply H0. lia.
Qed.

Definition apart_name (name path : Z) (l : list Z) : Prop :=
  name + Z.of_nat DIRSIZ <= path \/ path + Z.of_nat (length l) < name.

(** The copy of the element at [s] into the buffer. *)
Lemma copy_name mem name s (e : list Z) :
  CString.bytes_ok mem -> Forall (fun c => c <> 0) e -> (forall k c, e !! k = Some c -> mem (s + Z.of_nat k) = c) ->
  (name + Z.of_nat DIRSIZ <= s \/ s + Z.of_nat (length e) <= name) ->
  let len := Z.of_nat (length e) in
  let mem' := if Z.of_nat DIRSIZ <=? len then CString.memmove mem name s DIRSIZ
              else put8 (CString.memmove mem name s (Z.to_nat len)) (name + len) 0 in
  name_is mem' name e /\ CString.bytes_ok mem' /\
  forall x, x < name \/ name + Z.of_nat DIRSIZ <= x -> mem' x = mem x.
Proof.
  intros Hm He Hk Hap len mem'. subst mem' len. rewrite Nat2Z.id.
  assert (Hmv : forall n, CString.bytes_ok (CString.memmove mem name s n)).
  { intros n x. rewrite CString.memmove_at by done. case_decide; apply Hm. }
  destruct (Z.leb_spec (Z.of_nat DIRSIZ) (Z.of_nat (length e))) as [Hle|Hlt].
  - split; [|split; [apply Hmv|]].
    + apply cstr_take_is; [done| |lia]. intros k c Hlt E. rewrite CString.memmove_at, decide_True by (done || lia).
      rewrite <- (Hk k c E). f_equal. lia.
    + intros x Hx. rewrite CString.memmove_at, decide_False by (done || lia). done.
  - split; [|split; [apply CString.put8_ok, Hmv|]].
    + apply cstr_take_is; [done| |].
      * intros k c Hk' E. pose proof (lookup_lt_Some _ _ _ E). rewrite put8_out by lia.
        rewrite CString.memmove_at, decide_True by (done || lia). rewrite <- (Hk k c E). f_equal. lia.
      * intros _. unfold put8. by rewrite Z.eqb_refl.
    + intros x Hx. rewrite put8_out by lia. rewrite CString.memmove_at, decide_False by (done || lia). done.
Qed.

Lemma skipelem_ok fuel mem path name l :
  CString.bytes_ok mem -> str_at mem path l -> apart_name name path l -> (length l < fuel)%nat ->
  match elems l with
  | [] => skipelem fuel mem path name = Ret (mem, None)
  | e :: es => exists mem' n,
      skipelem fuel mem path name = Ret (mem', Some (path + Z.of_nat n)) /\ (0 < n <= length l)%nat /\
      elems (drop n l) = es /\ (mem' (path + Z.of_nat n) = 0 <-> es = []) /\ name_is mem' name e /\
      CString.bytes_ok mem' /\ (forall x, x < name \/ name + Z.of_nat DIRSIZ <= x -> mem' x = mem x)
  end.
Proof.
  intros Hm Hstr Hap Hf. unfold skipelem. rewrite (skip_while_ok _ mem path l) by done. cbn [obind].
  set (k1 := span is_slash l). pose proof (span_length is_slash l) as Hk1. fold k1 in Hk1.
  pose proof (str_at_drop mem path l k1 Hk1 Hstr) as Hs1. rewrite (split_slashes l). fold k1.
  pose proof (span_stop is_slash l) as Hstop1. fold k1 in Hstop1.
  assert (Hlen1 : length (drop k1 l) = (length l - k1)%nat) by apply length_drop.
  remember (drop k1 l) as l1 eqn:Hl1. set (p1 := path + Z.of_nat k1) in *.
  destruct l1 as [|c l1'] eqn:El1; rewrite <- El1 in *.
  { subst l1. cbn [str_at] in Hs1. rewrite Hs1. done. }
  assert (Hc : in_elem c = true /\ mem p1 <> 0).
  { subst l1. destruct Hs1 as (<- & Hc & _). split; [|done]. unfold in_elem. rewrite (proj2 (Z.eqb_neq _ _) Hc).
    specialize (Hstop1 _ eq_refl). unfold is_slash in Hstop1. by rewrite Hstop1. }
  rewrite (proj2 (Z.eqb_neq _ _) (proj2 Hc)). rewrite (skip_while_ok _ mem p1 l1) by (done || lia). cbn [obind].
  assert (Hk2 : span in_elem l1 <> 0%nat) by (subst l1; cbn [span]; by rewrite (proj1 Hc)).
  rewrite (elems_span l1 (str_at_nonzero _ _ _ Hs1) Hk2).
  pose proof (span_length in_elem l1) as Hk2'. set (k2 := span in_elem l1) in *. clearbody k2.
  pose proof (str_at_drop mem p1 l1 k2 Hk2' Hs1) as Hs2.
  set (e := take k2 l1). assert (Hle : length e = k2) by (unfold e; rewrite length_take; lia).
  replace (p1 + Z.of_nat k2 - p1) with (Z.of_nat (length e)) by lia.
  destruct (copy_name mem name p1 e) as (Hname & Hok' & Hout); [done| | | |].
  { unfold e. apply Forall_take. by eapply str_at_nonzero. }
  { intros k d E. eapply str_at_lookup; [exact Hs1|]. unfold e in E. by apply lookup_take_Some in E as [E _]. }
  { unfold apart_name in Hap. unfold p1. lia. }
  set (mem' := if _ <=? _ then _ else _) in *. clearbody mem'.
  set (l2 := drop k2 l1) in *. assert (Hlen2 : length l2 = (length l1 - k2)%nat) by apply length_drop.
  assert (Hs2' : str_at mem' (p1 + Z.of_nat k2) l2).
  { eapply str_at_ext; [|exact Hs2]. intros x Hx. apply Hout. unfold apart_name in Hap. unfold p1 in Hx. lia. }
  rewrite (skip_while_ok _ mem' _ l2) by (done || lia). cbn [obind].
  rewrite (split_slashes l2). pose proof (span_length is_slash l2) as Hk3. pose proof (span_stop is_slash l2) as Hstop3.
  set (k3 := span is_slash l2) in *. clearbody k3.
  exists mem', (k1 + k2 + k3)%nat.
  replace (path + Z.of_nat (k1 + k2 + k3)) with (p1 + Z.of_nat k2 + Z.of_nat k3) by (unfold p1; lia).
  assert (Hd : drop (k1 + k2 + k3) l = drop k3 l2).
  { unfold l2. rewrite Hl1, !drop_drop. f_equal. lia. }
  rewrite Hd. split; [done|]. split; [lia|]. split; [done|]. split; [|done].
  pose proof (str_at_drop mem' _ l2 k3 Hk3 Hs2') as Hs3. destruct (drop k3 l2) as [|d l3].
  - cbn [str_at] in Hs3. done.
  - destruct Hs3 as (Ed & Hd0 & Hrest). rewrite Ed. split; [done|]. rewrite elems_span; [done| |].
    + constructor; [done|]. by eapply str_at_nonzero.
    + cbn [span]. unfold in_elem. rewrite (proj2 (Z.eqb_neq d 0) Hd0). specialize (Hstop3 d eq_refl). unfold is_slash in Hstop3.
      by rewrite Hstop3.
Qed.

(** The names a walk along a path finds, [skipelem] by [skipelem]. *)
Fixpoint walk (n fuel : nat) (mem : bytes) (path name : Z) : outcome (list (list Z)) :=
  match n with
  | O => Fault
  | S n =>
      let* (mem, next) := skipelem fuel mem path name in
      match next with
      | None => Ret []
      | Some path =>
          let* ws := walk n fuel mem path name in
          Ret (CString.cstr_take mem name DIRSIZ :: ws)
      end
  end.

(** Calling [skipelem] until it returns 0, as [namex] does, yields the
    elements of the path in order, empty ones left out and each cut at
    [DIRSIZ] bytes; and [*path] is NUL after a call exactly when the element
    it returned is the last one, which is what [nameiparent] tests. *)
Theorem skipelem_path mem path name l
    (Hm : CString.bytes_ok mem) (Hstr : str_at mem path l) (Hap : apart_name name path l) :
  walk (S (length l)) (S (length l)) mem path name = Ret (take DIRSIZ <$> elems l) /\
  (forall mem' path', skipelem (S (length l)) mem path name = Ret (mem', Some path') ->
     mem' path' = 0 <-> length (elems l) = 1%nat).
Proof.
  split.
  2: { intros mem' path' E. pose proof (skipelem_ok (S (length l)) mem path name l Hm Hstr Hap ltac:(lia)) as Hs.
       destruct (elems l) as [|e es]; [congruence|]. destruct Hs as (m & n & E' & _ & _ & Hz & _).
       rewrite E in E'. injection E' as -> ->. rewrite Hz. destruct es; simpl; split; congruence. }
  enough (Hw : forall n fuel mem path l, (length l < n)%nat -> (length l < fuel)%nat -> CString.bytes_ok mem ->
            str_at mem path l -> apart_name name path l -> walk n fuel mem path name = Ret (take DIRSIZ <$> elems l))
    by (apply Hw; done || lia).
  clear. induction n as [|n IH]; intros fuel mem path l Hn Hf Hm Hstr Hap; [lia|]. cbn [walk].
  pose proof (skipelem_ok fuel mem path name l Hm Hstr Hap Hf) as Hs.
  destruct (elems l) as [|e es] eqn:El; [by rewrite Hs|].
  destruct Hs as (mem' & k & -> & Hk & Hes & _ & Hname & Hm' & Hout). cbn [obind].
  rewrite (IH fuel mem' (path + Z.of_nat k) (drop k l)); [|rewrite length_drop; lia..|done| |].
  - cbn [obind]. rewrite Hname, Hes. done.
  - eapply str_at_ext; [|apply str_at_drop; [lia|exact Hstr]]. intros x. rewrite length_drop. intros Hx.
    apply Hout. unfold apart_name in Hap. lia.
  - unfold apart_name in *. rewrite length_drop. lia.
Qed.

(** "//usr/x" at address 100. *)
Definition path_mem : bytes := fun x =>
  nth (Z.to_nat (x - 100)) (if 100 <=? x then [47; 47; 117; 115; 114; 47; 120] else []) 0.

Lemma skipelem_path_witness :
  walk 8 8 path_mem 100 200 = Ret [[117; 115; 114]; [120]].
Proof.
  refine (proj1 (skipelem_path path_mem 100 200 [47; 47; 117; 115; 114; 47; 120] _ _ _)).
  - intros x. unfold path_mem. destruct (100 <=? x); [|by destruct (Z.to_nat _)].
    destruct (Z.to_nat (x - 100)) as [|[|[|[|[|[|[|n]]]]]]]; try done. by destruct n.
  - by vm_compute.
  - unfold apart_name. simpl. lia.
Defined.

(** ** The block allocator *)

Lemma land_bit x k : 0 <= k -> (Z.land x (Z.shiftl 1 k) =? 0) = negb (Z.testbit x k).
Proof.
  intros Hk. destruct (Z.testbit x k) eqn:E; simpl.
  - apply Z.eqb_neq. intros Hz. assert (Ht : Z.testbit (Z.land x (Z.shiftl 1 k)) k = false) by (rewrite Hz; apply Z.bits_0).
    rewrite Z.land_spec, E, Z.shiftl_spec, Z.sub_diag in Ht by lia. done.
  - apply Z.eqb_eq, Z.bits_inj'. intros n Hn. rewrite Z.land_spec, Z.bits_0, Z.shiftl_spec by done.
    destruct (decide (n = k)) as [->|Hne]; [by rewrite E|]. apply andb_false_iff. right.
    destruct (Z.lt_ge_cases (n - k) 0); [by apply Z.testbit_neg_r|].
    change 1 with (2 ^ 0). apply Z.pow2_bits_false. lia.
Qed.

Lemma testbit_u8 x k : 0 <= k < 8 -> Z.testbit (u8 x) k = Z.testbit x k.
Proof. intros Hk. unfold u8. change 256 with (2 ^ 8). apply Z.mod_pow2_bits_low. lia. Qed.

Lemma testbit_shiftl1 k n : 0 <= k -> 0 <= n -> Z.testbit (Z.shiftl 1 k) n = bool_decide (n = k).
Proof.
  intros Hk Hn. rewrite Z.shiftl_spec by done. case_bool_decide as E.
  - subst. by rewrite Z.sub_diag.
  - destruct (Z.lt_ge_cases (n - k) 0); [by apply Z.testbit_neg_r|]. change 1 with (2 ^ 0). apply Z.pow2_bits_false. lia.
Qed.

(** Bit [bi] of a bitmap block. *)
Definition used_bit (d : block) (bi : Z) : bool := Z.testbit (d (bi / 8)) (bi mod 8).

(** What [balloc] and [bfree] store. *)
Definition mark (d : block) (bi : Z) : block := put8 d (bi / 8) (Z.lor (d (bi / 8)) (Z.shiftl 1 (bi mod 8))).
Definition unmark (d : block) (bi : Z) : block :=
  put8 d (bi / 8) (Z.land (d (bi / 8)) (Z.lnot (Z.shiftl 1 (bi mod 8)))).

Lemma put8_bit d bi bi' v :
  0 <= bi -> 0 <= bi' -> used_bit (put8 d (bi / 8) v) bi' =
    if decide (bi' / 8 = bi / 8) then Z.testbit v (bi' mod 8) else used_bit d bi'.
Proof.
  intros Hb Hb'. unfold used_bit. case_decide as E.
  - rewrite E. unfold put8. rewrite Z.eqb_refl. apply testbit_u8, Z.mod_pos_bound. lia.
  - by rewrite put8_out.
Qed.

Lemma same_bit a b : a / 8 = b / 8 -> a mod 8 = b mod 8 -> a = b.
Proof. intros H1 H2. rewrite (Z.div_mod a 8), (Z.div_mod b 8) by lia. congruence. Qed.

Lemma used_mark d bi bi' : 0 <= bi -> 0 <= bi' -> used_bit (mark d bi) bi' = used_bit d bi' || bool_decide (bi' = bi).
Proof.
  intros Hb Hb'. unfold mark. rewrite put8_bit by done. pose proof (Z.mod_pos_bound bi 8). pose proof (Z.mod_pos_bound bi' 8).
  case_decide as E.
  - rewrite Z.lor_spec, testbit_shiftl1 by lia. unfold used_bit. rewrite E. f_equal. apply bool_decide_ext.
    split; [by apply same_bit|by intros ->].
  - rewrite bool_decide_eq_false_2 by congruence. by rewrite orb_false_r.
Qed.

Lemma used_unmark d bi bi' : 0 <= bi -> 0 <= bi' -> used_bit (unmark d bi) bi' = used_bit d bi' && negb (bool_decide (bi' = bi)).
Proof.
  intros Hb Hb'. unfold unmark. rewrite put8_bit by done. pose proof (Z.mod_pos_bound bi 8). pose proof (Z.mod_pos_bound bi' 8).
  case_decide as E.
  - rewrite Z.land_spec, Z.lnot_spec, testbit_shiftl1 by lia. unfold used_bit. rewrite E. do 2 f_equal. apply bool_decide_ext.
    split; [by apply same_bit|by intros ->].
  - rewrite bool_decide_eq_false_2 by congruence. by rewrite andb_true_r.
Qed.

Section blocks.
Context {T : Type} `{TxnSpec T} (sb : superblock).
Implicit Types (s : T) (b : Z) (L D : gset Z).

(** Block [b] is marked in use. *)
Definition used s b : bool := used_bit (tview s (BBLOCK sb b)) (b mod BPB).

Lemma free_bit_spec d b n : forall bi, 0 <= bi ->
  match free_bit sb d b bi n with
  | Some r => bi <= r < bi + Z.of_nat n /\ b + r < size sb /\ used_bit d r = false /\
      forall j, bi <= j < r -> used_bit d j = true
  | None => forall j, bi <= j < bi + Z.of_nat n -> b + j < size sb -> used_bit d j = true
  end.
Proof.
  induction n as [|n IH]; intros bi Hbi; cbn [free_bit]; [lia|].
  destruct (Z.ltb_spec (b + bi) (size sb)); [|lia].
  rewrite land_bit by (pose proof (Z.mod_pos_bound bi 8); lia). change (Z.testbit (d (bi / 8)) (bi mod 8)) with (used_bit d bi).
  destruct (used_bit d bi) eqn:E; simpl; [|split_and!; [lia..|done|lia]].
  specialize (IH (bi + 1) ltac:(lia)). destruct (free_bit _ _ _ _ _) as [r|].
  - destruct IH as (A1 & A2 & A3 & A4). split_and!; [lia..|done|]. intros j Hj.
    destruct (decide (j = bi)) as [->|]; [done|]. apply A4. lia.
  - intros j Hj Hl. destruct (decide (j = bi)) as [->|]; [done|]. apply IH; lia.
Qed.

(** The bitmap lies outside the held blocks, can be logged, and marks itself
    and every block a caller holds as in use. *)
Record bitmap_ok s L D : Prop := {
  bm_size : 0 <= size sb <= FSSIZE;
  bm_block b : 0 <= b < size sb -> 0 <= BBLOCK sb b < FSSIZE /\ loggable s (BBLOCK sb b) /\ BBLOCK sb b ∉ L ∪ D;
  bm_free b : 0 <= b < size sb -> used s b = false ->
    loggable s b /\ b ∉ L ∪ D /\ forall b', 0 <= b' < size sb -> b <> BBLOCK sb b'
}.

Lemma bitmap_ok_same s s' L D : tsame s s' -> bitmap_ok s L D -> bitmap_ok s' L D.
Proof.
  intros (Hv & _ & Hl) [B1 B2 B3]. split; [done| |].
  - intros b Hb. rewrite Hl. by apply B2.
  - intros b Hb. unfold used. rewrite Hv, Hl. by apply B3.
Qed.

(** A block of zeros is written over [b]. *)
Lemma bzero_ok s L D b :
  txn_ok s L D -> b ∉ L ∪ D -> 0 <= b < FSSIZE -> loggable s b -> (1 <= troom s)%nat -> (base.size L < 2)%nat ->
  exists s' v, bzero s b = Ret s' /\ txn_ok s' L D /\ tchanged s s' b v /\
    (forall x, 0 <= x < BSIZE -> v x = 0) /\ (forall b' j, b' ∈ L -> tat s b' j -> tat s' b' j).
Proof.
  intros Hok HbL Hb Hl Hr Hsz. unfold bzero.
  destruct (tread_ok s L D b) as (s1 & i & -> & Hok1 & Hat & Hs1 & Hk); [done|set_solver|done..|]. cbn [obind].
  pose proof Hs1 as (Hv & [Hro Hlg] & Hlo).
  set (v := Kalloc.memset (tdata s1 i) 0 0 BSIZE).
  destruct (log_held s1 L D b i v) as (s2 & s3 & E2 & E3 & Hok3 & Hc & Hk3); [done|set_solver|set_solver|done|by apply Hlo|lia|].
  rewrite E2. cbn [obind]. rewrite E3. exists s3, v. split; [done|]. split; [done|]. split; [|split].
  - by eapply tsame_changed.
  - intros x Hx. unfold v, Kalloc.memset. rewrite (proj2 (Z.leb_le _ _)), (proj2 (Z.ltb_lt _ _)) by lia. done.
  - intros b' j Hin Ha. by apply Hk3, Hk.
Qed.

(** [s'] is [s] with the lowest free block [r] taken and zeroed. *)
Record allocated s s' L D (r : Z) : Prop := {
  al_range : 0 <= r < size sb;
  al_free : used s r = false;
  al_first j : 0 <= j < r -> used s j = true;
  al_ok : txn_ok s' L D;
  al_zero x : 0 <= x < BSIZE -> tview s' r x = 0;
  al_mark : tview s' (BBLOCK sb r) = mark (tview s (BBLOCK sb r)) (r mod BPB);
  al_same b : b <> r -> b <> BBLOCK sb r -> tview s' b = tview s b;
  al_logged : tlogged s' = {[r; BBLOCK sb r]} ∪ tlogged s;
  al_cap : tcap s' = tcap s;
  al_log b : loggable s' b <-> loggable s b;
  al_at b j : b ∈ L -> tat s b j -> tat s' b j
}.

Lemma BBLOCK_add b bi : (BPB | b) -> 0 <= bi < BPB -> BBLOCK sb (b + bi) = BBLOCK sb b /\ (b + bi) mod BPB = bi.
Proof.
  intros [k ->] Hbi. unfold BBLOCK. assert (HB : BPB <> 0) by done.
  rewrite (Z.add_comm (k * BPB)), Z.div_add, Z.mod_add, Z.div_mul by done.
  rewrite Z.mod_small, Z.div_small by done. done.
Qed.

Lemma balloc_from_ok fuel : forall s L D b,
  txn_ok s L D -> bitmap_ok s L D -> (base.size L < 2)%nat -> (2 <= troom s)%nat ->
  (1 <= fuel)%nat -> (BPB | b) -> 0 <= b -> size sb <= b + (Z.of_nat fuel - 1) * BPB ->
  (forall j, 0 <= j < size sb -> j < b -> used s j = true) ->
  match balloc_from sb fuel s b with
  | Ret (s', r) => allocated s s' L D r
  | Panic _ => forall j, 0 <= j < size sb -> used s j = true
  | _ => False
  end.
Proof.
  induction fuel as [|fuel IH]; intros s L D b Hok Hbm Hsz Hr Hf Hdiv Hb Hfuel Hbelow; [lia|]. cbn [balloc_from].
  destruct (Z.ltb_spec b (size sb)) as [Hlt|]; [|intros j Hj; apply Hbelow; lia].
  destruct (bm_block _ _ _ Hbm b ltac:(lia)) as (Hbb & Hbl & Hbn).
  destruct (tread_ok s L D (BBLOCK sb b)) as (s1 & i & -> & Hok1 & Hat & Hs1 & Hk); [done|set_solver|done|done|]. cbn [obind].
  pose proof Hs1 as (Hv & [Hro _] & Hlo).
  rewrite (tat_ok _ _ _ _ _ Hok1 Hat), Hv. set (d := tview s (BBLOCK sb b)).
  assert (Hu : forall bi, 0 <= bi < BPB -> used s (b + bi) = used_bit d bi).
  { intros bi Hbi. unfold used. by destruct (BBLOCK_add b bi Hdiv Hbi) as [-> ->]. }
  pose proof (free_bit_spec d b (Z.to_nat BPB) 0 ltac:(lia)) as Hfb. rewrite Z2Nat.id in Hfb by done.
  destruct (free_bit _ _ _ _ _) as [bi|].
  - destruct Hfb as (Hbi & Hin & Hfree & Hfirst). rewrite Z.add_0_l in Hbi. destruct (BBLOCK_add b bi Hdiv ltac:(lia)) as [EB EM].
    assert (Hfr : used s (b + bi) = false) by (by rewrite Hu by lia).
    destruct (bm_free _ _ _ Hbm (b + bi) ltac:(lia) Hfr) as (Hrl & HrL & Hrb).
    destruct (log_held s1 L D (BBLOCK sb b) i (mark d bi)) as (s2 & s3 & E2 & E3 & Hok3 & Hc & Hk3);
      [done|set_solver|set_solver|done|by apply Hlo|lia|].
    apply (tsame_changed _ _ _ _ _ Hs1) in Hc. pose proof (tchanged_room _ _ _ _ Hc). destruct Hc as (Hc1 & Hc2 & [Hc3 Hc3'] & Hc4).
    fold (mark d bi). rewrite E2. cbn [obind]. rewrite E3. cbn [obind]. pose proof (bm_size _ _ _ Hbm).
    destruct (bzero_ok s3 L D (b + bi)) as (s4 & v & -> & Hok4 & (Hz1 & Hz2 & [Hz3 Hz3'] & Hz4) & Hv0 & Hk4);
      [done|done|lia|by apply Hc4|lia|done|]. cbn [obind].
    assert (Hne : BBLOCK sb b <> b + bi) by (intros Eq; apply (Hrb b ltac:(lia)); congruence).
    split; [lia|done| |done| | | | |congruence| |].
    + intros j Hj. destruct (Z.lt_ge_cases j b); [apply Hbelow; lia|]. replace j with (b + (j - b)) by lia.
      rewrite Hu by lia. apply Hfirst. lia.
    + intros x Hx. rewrite Hz1. by apply Hv0.
    + rewrite EB, EM, Hz2 by done. by rewrite Hc1.
    + intros b' Hb1 Hb2. rewrite EB in Hb2. by rewrite Hz2, Hc2.
    + rewrite Hz3, Hc3, EB. set_solver.
    + intros b'. by rewrite Hz4, Hc4.
    + intros b' j Hb' Ha. by apply Hk4, Hk3, Hk.
  - destruct (trelse_ok s1 _ D (BBLOCK sb b) i Hok1) as (s2 & -> & Hok2 & Hs2 & Hk2); [set_solver|set_solver|done|]. cbn [obind].
    pose proof (tsame_trans _ _ _ Hs1 Hs2) as Hs.
    replace (({[BBLOCK sb b]} ∪ L) ∖ {[BBLOCK sb b]}) with L in Hok2 by set_solver.
    assert (Hus : forall j, used s2 j = used s j) by (intros j; unfold used; by rewrite (proj1 Hs)).
    assert (Hdone : forall j, 0 <= j < size sb -> j < b + BPB -> used s j = true).
    { intros j Hj Hjb. destruct (Z.lt_ge_cases j b); [apply Hbelow; lia|]. replace j with (b + (j - b)) by lia.
      rewrite Hu by lia. apply Hfb; lia. }
    specialize (IH s2 L D (b + BPB) Hok2 (bitmap_ok_same _ _ _ _ Hs Hbm) Hsz).
    destruct Hs as (Hv' & [Hr' Hg'] & Hl'). specialize (IH ltac:(lia) ltac:(unfold BPB, BSIZE in *; lia)).
    specialize (IH ltac:(apply Z.divide_add_r; [done|apply Z.divide_refl]) ltac:(unfold BPB, BSIZE in *; lia)).
    specialize (IH ltac:(unfold BPB, BSIZE in *; lia)).
    destruct (balloc_from sb fuel s2 (b + BPB)) as [[s' r]|msg| |].
    + destruct IH as [I1 I2 I3 I4 I5 I6 I7 I8 I8' I9 I10]; [intros j Hj Hl; rewrite Hus; by apply Hdone|].
      split; [done|by rewrite <- Hus| |done|done|by rewrite <- Hv'| |by rewrite I8, Hg'|unfold tcap in *; congruence| |].
      * intros j Hj. rewrite <- Hus. by apply I3.
      * intros b' H1 H2. by rewrite <- Hv', I7.
      * intros b'. by rewrite I9, Hl'.
      * intros b' j Hb' Ha. by apply I10, Hk2, Hk.
    + intros j Hj. rewrite <- Hus. apply IH; [|done]. intros j' Hj' Hl. rewrite Hus. by apply Hdone.
    + apply IH. intros j' Hj' Hl. rewrite Hus. by apply Hdone.
    + apply IH. intros j' Hj' Hl. rewrite Hus. by apply Hdone.
Qed.

Lemma allocated_room s s' L D r : allocated s s' L D r -> (troom s <= troom s' + 2)%nat.
Proof.
  intros Ha. pose proof (room_after _ _ {[r; BBLOCK sb r]} (al_cap _ _ _ _ _ Ha)) as Hr.
  assert (Hsz : (base.size ({[r; BBLOCK sb r]} : gset Z) <= 2)%nat).
  { rewrite size_union_alt, size_singleton. assert (Hd : {[BBLOCK sb r]} ∖ {[r]} ⊆ ({[BBLOCK sb r]} : gset Z)) by set_solver.
    apply subseteq_size in Hd. rewrite size_singleton in Hd. lia. }
  specialize (Hr ltac:(by rewrite (al_logged _ _ _ _ _ Ha))). lia.
Qed.

Lemma balloc_ok s L D :
  txn_ok s L D -> bitmap_ok s L D -> (base.size L < 2)%nat -> (2 <= troom s)%nat ->
  match balloc sb s with
  | Ret (s', r) => allocated s s' L D r
  | Panic _ => forall j, 0 <= j < size sb -> used s j = true
  | _ => False
  end.
Proof.
  intros Hok Hbm Hsz Hr. unfold balloc. pose proof (bm_size _ _ _ Hbm). apply balloc_from_ok; [done..|lia|exists 0; lia|lia| |lia].
  pose proof (Z.div_mod (size sb) BPB ltac:(done)). pose proof (Z.mod_pos_bound (size sb) BPB ltac:(done)).
  pose proof (Z.div_pos (size sb) BPB). unfold BPB, BSIZE in *. lia.
Qed.

Lemma allocated_used s s' L D r j :
  allocated s s' L D r -> bitmap_ok s L D -> 0 <= j < size sb -> used s' j = used s j || bool_decide (j = r).
Proof.
  intros Ha Hbm Hj. pose proof (al_range _ _ _ _ _ Ha) as Hr.
  assert (Hne : BBLOCK sb j <> r).
  { intros Eq. destruct (bm_free _ _ _ Hbm r Hr (al_free _ _ _ _ _ Ha)) as (_ & _ & Hb). by apply (Hb j). }
  unfold used. destruct (decide (BBLOCK sb j = BBLOCK sb r)) as [E|E].
  - rewrite E, (al_mark _ _ _ _ _ Ha), used_mark by (apply Z.mod_pos_bound; done). f_equal. apply bool_decide_ext.
    split; [|by intros ->]. intros Em. unfold BBLOCK in E. rewrite (Z.div_mod j BPB), (Z.div_mod r BPB) by done. rewrite Em.
    f_equal. f_equal. lia.
  - rewrite (al_same _ _ _ _ _ Ha) by done. rewrite bool_decide_eq_false_2 by congruence. by rewrite orb_false_r.
Qed.

Lemma bfree_ok s L D b :
  txn_ok s L D -> bitmap_ok s L D -> (base.size L < 2)%nat -> (1 <= troom s)%nat -> 0 <= b < size sb ->
  if used s b then
    exists s', bfree sb s b = Ret s' /\ txn_ok s' L D /\
      tchanged s s' (BBLOCK sb b) (unmark (tview s (BBLOCK sb b)) (b mod BPB)) /\
      (forall b' j, b' ∈ L -> tat s b' j -> tat s' b' j)
  else bfree sb s b = Panic "freeing free block".
Proof.
  intros Hok Hbm Hsz Hr Hb. destruct (bm_block _ _ _ Hbm b Hb) as (Hbb & Hbl & Hbn). unfold bfree.
  destruct (tread_ok s L D (BBLOCK sb b)) as (s1 & i & -> & Hok1 & Hat & Hs1 & Hk); [done|set_solver|done|done|]. cbn [obind].
  pose proof Hs1 as (Hv & [Hro _] & Hlo).
  rewrite (tat_ok _ _ _ _ _ Hok1 Hat), Hv. set (d := tview s (BBLOCK sb b)).
  rewrite land_bit by (pose proof (Z.mod_pos_bound (b mod BPB) 8); lia).
  change (Z.testbit _ _) with (used s b). destruct (used s b); [|done]. cbn [negb].
  destruct (log_held s1 L D (BBLOCK sb b) i (unmark d (b mod BPB))) as (s2 & s3 & E2 & E3 & Hok3 & Hc & Hk3);
    [done|set_solver|set_solver|done|by apply Hlo|lia|].
  fold (unmark d (b mod BPB)). rewrite E2. cbn [obind]. exists s3. split; [done|]. split; [done|]. split.
  - by eapply tsame_changed.
  - intros b' j Hin Ha. by apply Hk3, Hk.
Qed.

Lemma allocated_bitmap s s' L D r : allocated s s' L D r -> bitmap_ok s L D -> bitmap_ok s' L D.
Proof.
  intros Ha Hbm. pose proof Hbm as [B1 B2 B3]. split; [done| |].
  - intros b Hb. rewrite (al_log _ _ _ _ _ Ha). by apply B2.
  - intros b Hb. rewrite (allocated_used _ _ _ _ _ _ Ha Hbm Hb), (al_log _ _ _ _ _ Ha). intros [Hu _]%orb_false_iff. by apply B3.
Qed.

Lemma freed_used s s' b j :
  0 <= b -> 0 <= j -> tchanged s s' (BBLOCK sb b) (unmark (tview s (BBLOCK sb b)) (b mod BPB)) ->
  used s' j = used s j && negb (bool_decide (j = b)).
Proof.
  intros Hb Hj (Hc1 & Hc2 & _). unfold used. destruct (decide (BBLOCK sb j = BBLOCK sb b)) as [E|E].
  - rewrite E, Hc1, used_unmark by (apply Z.mod_pos_bound; done). do 2 f_equal. apply bool_decide_ext.
    split; [|by intros ->]. intros Em. unfold BBLOCK in E. rewrite (Z.div_mod j BPB), (Z.div_mod b BPB) by done. rewrite Em.
    f_equal. f_equal. lia.
  - rewrite Hc2 by done. rewrite bool_decide_eq_false_2 by congruence. by rewrite andb_true_r.
Qed.

(** [balloc] takes the lowest free block, marks it and no other block in
    use, fills it with zeros and leaves every block that is not part of the
    bitmap as it was; it panics only when no block is free; and [bfree] of the
    block it returned restores the bitmap. *)
Theorem balloc_allocates s L D (Hok : txn_ok s L D) (Hbm : bitmap_ok s L D)
    (Hheld : (base.size L < 2)%nat) (Hroom : (3 <= troom s)%nat) :
  match balloc sb s with
  | Ret (s', r) =>
      0 <= r < size sb /\ used s r = false /\ (forall j, 0 <= j < r -> used s j = true) /\
      txn_ok s' L D /\ (forall j, 0 <= j < size sb -> used s' j = used s j || bool_decide (j = r)) /\
      (forall x, 0 <= x < BSIZE -> tview s' r x = 0) /\
      (forall b, b <> r -> (forall j, 0 <= j < size sb -> b <> BBLOCK sb j) -> tview s' b = tview s b) /\
      exists s2, bfree sb s' r = Ret s2 /\ forall j, 0 <= j < size sb -> used s2 j = used s j
  | Panic _ => forall j, 0 <= j < size sb -> used s j = true
  | _ => False
  end.
Proof.
  pose proof (balloc_ok s L D Hok Hbm Hheld ltac:(lia)) as Hb. destruct (balloc sb s) as [[s' r]|msg| |]; try done.
  pose proof Hb as [A1 A2 A3 A4 A5 A6 A7 A8 A8' A9 A10]. pose proof (allocated_room _ _ _ _ _ Hb).
  assert (Hu : forall j, 0 <= j < size sb -> used s' j = used s j || bool_decide (j = r)).
  { intros j Hj. by eapply allocated_used. }
  do 6 (split; [done|]). split; [intros b Hb1 Hb2; apply A7; auto|].
  pose proof (bfree_ok s' L D r A4 (allocated_bitmap _ _ _ _ _ Hb Hbm) Hheld ltac:(lia) A1) as Hf.
  rewrite (Hu r A1), bool_decide_eq_true_2, orb_true_r in Hf by done. destruct Hf as (s2 & E & _ & Hc & _).
  exists s2. split; [done|]. intros j Hj. rewrite (freed_used _ _ _ _ (proj1 A1) (proj1 Hj) Hc), Hu by done.
  case_bool_decide as Ej; [|by rewrite orb_false_r, andb_true_r]. subst. by rewrite A2.
Qed.

(** ** Reading a file *)

(** The block that holds byte [bn * BSIZE] of a file, without allocation. *)
Definition file_block s (ip : inode) (bn : Z) : Z :=
  if bn <? NDIRECT then default 0 (getZ (addrs ip) bn)
  else uint32 (tview s (default 0 (getZ (addrs ip) NDIRECT))) (4 * (bn - NDIRECT)).

Definition file_byte s (ip : inode) (x : Z) : Z := tview s (file_block s ip (x / BSIZE)) (x mod BSIZE).

(** Every block below the size of the file is allocated, and none is held. *)
Record file_ok s L D (ip : inode) : Prop := {
  fo_addrs : length (addrs ip) = 13%nat;
  fo_size : 0 <= isize ip <= MAXFILE * BSIZE;
  fo_block bn : 0 <= bn -> bn * BSIZE < isize ip ->
    0 < file_block s ip bn < FSSIZE /\ file_block s ip bn ∉ L ∪ D;
  fo_indirect : NDIRECT * BSIZE < isize ip ->
    let a := default 0 (getZ (addrs ip) NDIRECT) in 0 < a < FSSIZE /\ a ∉ L ∪ D
}.

Lemma file_block_same s s' ip bn : tsame s s' -> file_block s' ip bn = file_block s ip bn.
Proof. intros (Hv & _). unfold file_block. by rewrite Hv. Qed.

Lemma file_ok_same s s' L D ip : tsame s s' -> file_ok s L D ip -> file_ok s' L D ip.
Proof. intros Hs [F1 F2 F3 F4]. split; try done. intros bn. rewrite (file_block_same _ _ _ _ Hs). apply F3. Qed.

Lemma bmap_mapped (f : fs T) i ip L D bn :
  icache f !! i = Some ip -> txn_ok (disk f) L D -> file_ok (disk f) L D ip -> (base.size L < 2)%nat ->
  0 <= bn -> bn * BSIZE < isize ip ->
  exists s', bmap sb f i bn = Ret (with_disk s' f, file_block (disk f) ip bn) /\ txn_ok s' L D /\ tsame (disk f) s'.
Proof.
  intros Ei Hok [F1 F2 F3 F4] Hsz Hbn Hlt. unfold bmap. rewrite Ei. cbn [of_option obind].
  destruct (F3 bn Hbn Hlt) as [Hfb _]. unfold file_block in *. destruct (Z.ltb_spec bn NDIRECT) as [Hd|Hd].
  - destruct (getZ_is_Some (addrs ip) bn) as [a Ea]; [rewrite F1; unfold NDIRECT in Hd; lia|]. rewrite Ea in *. cbn [of_option obind default id] in *.
    rewrite (proj2 (Z.eqb_neq a 0)) by lia. exists (disk f). destruct f. by split_and!.
  - assert (Hbn2 : bn - NDIRECT < NINDIRECT) by (unfold MAXFILE, NINDIRECT, BSIZE in *; lia).
    rewrite (proj2 (Z.ltb_lt _ _) Hbn2).
    destruct (getZ_is_Some (addrs ip) NDIRECT) as [a Ea]; [rewrite F1; unfold NDIRECT; lia|]. rewrite Ea in *. cbn [of_option obind default id] in *.
    destruct F4 as [Ha HaL]; [unfold BSIZE in *; lia|]. rewrite (proj2 (Z.eqb_neq a 0)) by lia. cbn [obind].
    destruct (read_only (disk f) L D a) as (s1 & j & s2 & -> & Hdat & E2 & Hok2 & Hs & _); [done|set_solver|set_solver|lia|done|].
    cbn [obind]. rewrite Hdat, (proj2 (Z.eqb_neq _ 0)) by (unfold id in *; lia). cbn [obind]. rewrite E2. exists s2. by destruct f.
Qed.

(** One turn of the loop: the part of a file up to the end of its block. *)
Lemma block_part off m k :
  0 <= off -> 0 <= m <= BSIZE - off mod BSIZE -> 0 <= k < m ->
  (off + k) / BSIZE = off / BSIZE /\ (off + k) mod BSIZE = off mod BSIZE + k.
Proof.
  intros Ho Hm Hk. assert (HB : BSIZE <> 0) by done. pose proof (Z.div_mod off BSIZE HB). pose proof (Z.mod_pos_bound off BSIZE ltac:(done)).
  replace (off + k) with (off mod BSIZE + k + off / BSIZE * BSIZE) by lia.
  rewrite Z.div_add, Z.mod_add by done. rewrite Z.div_small, Z.mod_small by lia. lia.
Qed.

Lemma readi_from_ok fuel : forall (f : fs T) mem i ip L D dst off tot n,
  icache f !! i = Some ip -> txn_ok (disk f) L D -> file_ok (disk f) L D ip -> (base.size L < 2)%nat ->
  0 <= off -> 0 <= tot <= n -> off + (n - tot) <= isize ip -> 0 <= dst -> dst + (n - tot) <= 2 ^ 32 ->
  (tot < n -> off + (n - tot) <= (off / BSIZE + Z.of_nat fuel) * BSIZE) ->
  exists s' mem', readi_from sb fuel f mem i dst off tot n = Ret (with_disk s' f, mem') /\ txn_ok s' L D /\
    tsame (disk f) s' /\
    forall x, mem' x = if decide (dst <= x < dst + (n - tot)) then file_byte (disk f) ip (off + (x - dst)) else mem x.
Proof.
  induction fuel as [|fuel IH]; intros f mem i ip L D dst off tot n Ei Hok Hfile Hsz Ho Ht Hend Hd Hdn Hfuel;
    cbn [readi_from]; (destruct (Z.ltb_spec tot n) as [Hlt|Hge];
      [|exists (disk f), mem; split; [by destruct f|]; split; [done|]; split; [apply tsame_refl|]; intros x; by rewrite decide_False by lia]).
  { pose proof (Z.mul_div_le off BSIZE ltac:(done)). pose proof (Hfuel Hlt). lia. }
  assert (HB : BSIZE <> 0) by done.
  pose proof (Z.div_mod off BSIZE HB) as Hdm. pose proof (Z.mod_pos_bound off BSIZE ltac:(done)) as Hmb.
  assert (Hq : 0 <= off / BSIZE) by (apply Z.div_pos; done).
  destruct (bmap_mapped f i ip L D (off / BSIZE) Ei Hok Hfile Hsz Hq) as (s1 & -> & Hok1 & Hs1); [lia|]. cbn [obind].
  destruct (fo_block _ _ _ _ Hfile (off / BSIZE) Hq ltac:(lia)) as [Hbr HbL].
  destruct (read_only s1 L D (file_block (disk f) ip (off / BSIZE))) as (s2 & j & s3 & E2 & Hdat & E3 & Hok3 & Hs3 & _);
    [done|set_solver|set_solver|lia|done|].
  cbn [disk with_disk] in *. rewrite E2. cbn [obind]. set (m := Z.min (n - tot) (BSIZE - off mod BSIZE)).
  assert (Hm : 0 < m <= BSIZE - off mod BSIZE /\ m <= n - tot) by (unfold m; lia).
  rewrite E3. cbn [obind]. pose proof (tsame_trans _ _ _ Hs1 Hs3) as Hs13.
  set (mem1 := move_in mem dst (tdata s2 j) (off mod BSIZE) m).
  assert (Hmem1 : forall x, mem1 x = if decide (dst <= x < dst + m) then file_byte (disk f) ip (off + (x - dst)) else mem x).
  { intros x. unfold mem1, move_in. case_decide as Hx.
    - rewrite (proj2 (Z.leb_le _ _)), (proj2 (Z.ltb_lt _ _)) by lia. cbn [andb]. unfold file_byte.
      destruct (block_part off m (x - dst)) as [-> ->]; [lia..|]. rewrite Hdat, (proj1 Hs1). done.
    - destruct (Z.leb_spec dst x), (Z.ltb_spec x (dst + m)); simpl; try done. lia. }
  clearbody mem1. destruct (decide (m = n - tot)) as [Emn|Emn].
  { exists s3, mem1. replace (tot + m) with n by lia. split; [|split; [done|split; [done|]]].
    - destruct fuel; cbn [readi_from]; by rewrite (proj2 (Z.ltb_ge n n)) by lia.
    - intros x. by rewrite Hmem1, <- Emn. }
  rewrite (u32_small (dst + m)) by (unfold is_u32; lia).
  destruct (IH (with_disk s3 (with_disk s1 f)) mem1 i ip L D (dst + m) (off + m) (tot + m) n) as (s4 & mem4 & -> & Hok4 & Hs4 & Hmem4);
    try done; try lia.
  { by apply (file_ok_same (disk f)). }
  { intros Hlt2. assert (Hmm : m = BSIZE - off mod BSIZE) by (unfold m; lia).
    replace (off + m) with ((off / BSIZE + 1) * BSIZE) by lia. rewrite Z.div_mul by done.
    specialize (Hfuel Hlt). lia. }
  exists s4, mem4. split; [done|]. split; [done|]. split; [by eapply tsame_trans|]. intros x. rewrite Hmem4.
  assert (Hfb : forall y, file_byte s3 ip y = file_byte (disk f) ip y).
  { intros y. unfold file_byte. rewrite (file_block_same _ _ _ _ Hs13). by rewrite (proj1 Hs13). }
  cbn [disk with_disk]. repeat case_decide; rewrite ?Hfb, ?Hmem1; repeat case_decide; try lia; try done. f_equal. lia.
Qed.

(** [readi] of a file whose blocks are allocated: it fails exactly when
    the offset lies behind the end or the range wraps around; else it returns
    the number of bytes up to the end of the file, at most [n], puts those
    bytes of the file at [dst] and nothing elsewhere, and changes neither the
    inode cache nor any block. *)
Theorem readi_reads devsw_read (f : fs T) mem i ip L D dst off n
    (Hi : icache f !! i = Some ip) (Hdev : type ip <> T_DEV) (Hok : txn_ok (disk f) L D)
    (Hfile : file_ok (disk f) L D ip) (Hheld : (base.size L < 2)%nat)
    (Hoff : is_u32 off) (Hn : is_u32 n) (Hdst : 0 <= dst /\ dst + Z.min n (isize ip) <= 2 ^ 32) :
  exists f' mem' r, readi sb devsw_read f mem i dst off n = Ret (f', mem', r) /\
    icache f' = icache f /\ txn_ok (disk f') L D /\ tsame (disk f) (disk f') /\
    if decide (off <= isize ip /\ off + n < 2 ^ 32) then
      r = Z.min n (isize ip - off) /\
      forall x, mem' x = if decide (dst <= x < dst + r) then file_byte (disk f) ip (off + (x - dst)) else mem x
    else r = -1 /\ mem' = mem.
Proof.
  unfold is_u32 in *. pose proof (fo_size _ _ _ _ Hfile) as Hsize.
  assert (Hmax : MAXFILE * BSIZE = 71680) by done.
  unfold readi. rewrite Hi. cbn [of_option obind]. rewrite (proj2 (Z.eqb_neq _ _) Hdev).
  case_decide as Hc.
  - rewrite (proj2 (Z.ltb_ge _ _)) by lia. rewrite (u32_small (off + n)) by (unfold is_u32; lia).
    rewrite (proj2 (Z.ltb_ge _ _)) by lia. cbn [orb].
    set (k := if isize ip <? off + n then isize ip - off else n).
    assert (Hk : k = Z.min n (isize ip - off)) by (unfold k; destruct (Z.ltb_spec (isize ip) (off + n)); lia). clearbody k.
    destruct (readi_from_ok (io_fuel k) f mem i ip L D dst off 0 k) as (s' & mem' & -> & Hok' & Hs & Hmem); try done; try lia.
    { intros _. unfold io_fuel. assert (HB : BSIZE <> 0) by done.
      pose proof (Z.div_mod off BSIZE HB). pose proof (Z.mod_pos_bound off BSIZE ltac:(done)).
      pose proof (Z.div_mod k BSIZE HB). pose proof (Z.mod_pos_bound k BSIZE ltac:(done)).
      pose proof (Z.div_pos k BSIZE ltac:(lia) ltac:(done)). lia. }
    cbn [obind]. exists (with_disk s' f), mem', k. rewrite s32_small by (unfold is_s32; lia).
    do 4 (split; [done|]). split; [done|]. intros x. rewrite Hmem. by rewrite Z.sub_0_r.
  - assert (Hfail : (isize ip <? off) || (u32 (off + n) <? off) = true).
    { destruct (Z.ltb_spec (isize ip) off); [done|]. cbn [orb]. apply Z.ltb_lt. unfold u32.
      replace (off + n) with (off + n - 2 ^ 32 + 1 * 2 ^ 32) by lia. rewrite Z.mod_add, Z.mod_small by lia. lia. }
    rewrite Hfail. exists f, mem, (-1). do 3 (split; [done|]). split; [apply tsame_refl|done].
Qed.

End blocks.
(** ** Instances, over the log and the buffer cache of [Bio] *)

Section witness.
#[local] Instance cache1 : BlockCache Bio.bcache := Bio.bio_cache 1 true 1.
#[local] Instance spec1 : BlockCacheSpec Bio.bcache := Bio.bio_spec 1 true 1 (or_intror eq_refl).

(** An inode of a type with [z] bytes in block 59. *)
Definition small_inode (ty z : Z) : inode :=
  {| dev := 1; inum := 2; ref := 1; lock := {| Bio.locked := true; Bio.pid := 1 |}; valid := true; type := ty;
     major := 0; minor := 0; nlink := 1; isize := z; addrs := 59 :: replicate 12 0 |}.
Definition small_file : inode := small_inode 2 10.

(** A file system of 200 blocks: the bitmap in block 58 marks the first 60,
    block 59 holds the bytes 1, 2, 3, ... and block 32 the inode. *)
Definition small_sb : superblock :=
  {| size := 200; nblocks := 141; ninodes := 200; nlog := 30; logstart := 2; inodestart := 32; bmapstart := 58 |}.
Definition small_disk (ip : inode) : Z -> Z -> block := fun _ b x =>
  if b =? 58 then (if x <? 7 then 255 else if x =? 7 then 15 else 0) else if b =? 59 then u8 (x + 1)
  else if b =? 32 then store_inode (fun _ => 0) (dinode_at (inum ip)) ip x else 0.
Definition small_log : Log.log := Log.with_out 1 false (LogThms.fresh_log 2 30).
Definition small_cache (ip : inode) : Bio.bcache := Bio.binit (Bio.boot (small_disk ip)).
Definition small_state (ip : inode) : Log.log * Bio.bcache := (small_log, small_cache ip).

Lemma small_cache_ok ip : cache_ok (small_cache ip) ∅ ∅ /\ forall b, home (small_cache ip) b = (small_disk ip) 1 b.
Proof.
  destruct (Bio.binit_bio 1 1 (small_disk ip) ltac:(done)) as [Hok Hd]. split; [exact Hok|].
  intros b. change (home (small_cache ip) b) with (Bio.disk (small_cache ip) 1 b). unfold small_cache. by rewrite Hd.
Qed.

Lemma small_view ip b : tview (small_state ip) b = (small_disk ip) 1 b.
Proof. destruct (small_cache_ok ip) as [Hok Hh]. rewrite <- Hh. by apply log_txn_view. Qed.

Lemma small_ok ip : txn_ok (small_state ip) ∅ ∅.
Proof.
  apply log_txn_start; [|done|done|done|by apply small_cache_ok].
  split; cbn; unfold Log.LOGSIZE, Log.MAXOPBLOCKS, FSSIZE; try lia; done.
Qed.

Lemma small_used ip j : 0 <= j < 200 -> used small_sb (small_state ip) j = bool_decide (j < 60).
Proof.
  intros Hj. unfold used. rewrite small_view.
  assert (Hb : BBLOCK small_sb j = 58) by (unfold BBLOCK; cbn; rewrite Z.div_small; [done|unfold BPB, BSIZE; lia]).
  rewrite Hb. rewrite (Z.mod_small j) by (unfold BPB, BSIZE; lia).
  assert (Hall : forallb (fun j => Bool.eqb (used_bit ((small_disk ip) 1 58) j) (bool_decide (j < 60))) (seqZ 0 200) = true)
    by (vm_compute; reflexivity).
  rewrite forallb_forall in Hall. apply Bool.eqb_prop, Hall. apply list_elem_of_In, elem_of_seqZ. lia.
Qed.

Lemma small_bitmap ip : bitmap_ok small_sb (small_state ip) ∅ ∅.
Proof.
  assert (HB : forall b, 0 <= b < size small_sb -> BBLOCK small_sb b = 58).
  { intros b Hb. unfold BBLOCK. cbn in *. rewrite Z.div_small; [done|unfold BPB, BSIZE; lia]. }
  split.
  - cbn. unfold FSSIZE. lia.
  - intros b Hb. rewrite (HB b Hb). split; [unfold FSSIZE; lia|]. split; [|set_solver].
    apply log_txn_loggable; unfold FSSIZE, LogSpec.in_log; cbn; lia.
  - intros b Hb Hu. rewrite small_used in Hu by done. apply bool_decide_eq_false in Hu. split; [|split; [set_solver|]].
    + cbn in Hb. apply log_txn_loggable; unfold FSSIZE, LogSpec.in_log; cbn; lia.
    + intros b' Hb'. rewrite (HB b' Hb'). lia.
Qed.

Lemma balloc_allocates_witness :
  exists s', balloc small_sb (small_state small_file) = Ret (s', 60) /\ used small_sb s' 60 = true.
Proof.
  pose proof (balloc_allocates small_sb (small_state small_file) ∅ ∅ (small_ok _) (small_bitmap _)) as Hb.
  destruct (balloc small_sb (small_state small_file)) as [[s' r]|msg| |] eqn:E.
  - destruct Hb as (H1 & H2 & H3 & _ & H5 & _); [rewrite size_empty; lia|vm_compute; lia|].
    assert (Hr : r = 60).
    { rewrite small_used in H2 by done. apply bool_decide_eq_false in H2.
      destruct (decide (r = 60)); [done|]. specialize (H3 60 ltac:(lia)). rewrite small_used in H3 by lia. done. }
    exists s'. subst r. split; [done|]. rewrite H5 by (cbn; lia). by rewrite bool_decide_eq_true_2, orb_true_r.
  - exfalso. assert (Hu : used small_sb (small_state small_file) 60 = true) by (apply Hb; [rewrite size_empty; lia|vm_compute; lia|cbn; lia]).
    rewrite small_used in Hu by lia. done.
  - exfalso. apply Hb; [rewrite size_empty; lia|vm_compute; lia].
  - exfalso. apply Hb; [rewrite size_empty; lia|vm_compute; lia].
Defined.

Lemma readi_reads_witness :
  exists f' mem', readi small_sb (fun _ => None) {| disk := (small_state small_file); icache := [small_file] |} (fun _ => 0) 0 1000 4 100
    = Ret (f', mem', 6) /\ mem' 1000 = 5 /\ mem' 1005 = 10 /\ mem' 1006 = 0.
Proof.
  assert (Hfile : file_ok (small_state small_file) ∅ ∅ small_file).
  { split.
    - done.
    - vm_compute. split; congruence.
    - intros bn Hbn Hlt. cbn in Hlt. unfold BSIZE in Hlt. assert (bn = 0) as -> by lia. change (file_block (small_state small_file) small_file 0) with 59.
      unfold FSSIZE. split; [lia|set_solver].
    - unfold NDIRECT, BSIZE. cbn. lia. }
  assert (Hsz : (base.size (∅ : gset Z) < 2)%nat) by (rewrite size_empty; lia).
  assert (Hty : type small_file <> T_DEV) by done.
  assert (Hw : is_u32 4 /\ is_u32 100 /\ 0 <= 1000 /\ 1000 + Z.min 100 (isize small_file) <= 2 ^ 32) by (unfold is_u32; cbn; lia).
  destruct Hw as (Hw1 & Hw2 & Hw3).
  destruct (readi_reads small_sb (fun _ => None) {| disk := (small_state small_file); icache := [small_file] |} (fun _ => 0) 0 small_file ∅ ∅ 1000 4 100
    eq_refl Hty (small_ok _) Hfile Hsz Hw1 Hw2 Hw3) as (f' & mem' & r & E & _ & _ & _ & Hres).
  rewrite decide_True in Hres by (cbn; lia).
  destruct Hres as [Hr Hmem]. assert (r = 6) as -> by (rewrite Hr; reflexivity).
  clear Hr. exists f', mem'. split; [exact E|]. clear E.
    assert (Hfb : forall x, 0 <= x < 10 -> file_byte (small_state small_file) small_file x = u8 (x + 1)).
    { intros x Hx. unfold file_byte. rewrite Z.div_small, Z.mod_small by (unfold BSIZE; lia).
      change (file_block (small_state small_file) small_file 0) with 59. by rewrite small_view. }
    rewrite !Hmem. cbn [isize small_file]. repeat (rewrite decide_True by lia || rewrite decide_False by lia).
    cbn [disk]. rewrite !Hfb by lia. done.
Defined.

Lemma icache_consistent_witness :
  let t := {| disk := (small_state small_file); icache := replicate 2 (with_ref 0 small_file) |} in
  exists f i, iget t 1 7 = Ret (f, i) /\ iget f 1 7 = Ret (idup f i, i).
Proof.
  intros t. destruct (iget t 1 7) as [[f i]|m| |] eqn:E; try discriminate E.
  injection E as <- <-. eexists _, _. split; [reflexivity|].
  set (f := upd 0 (recycle 1 7) t). set (p := recycle 1 7 (with_ref 0 small_file)).
  refine (proj2 (proj2 (icache_consistent small_sb 1 t f [0%nat] _ _)) 0%nat p _ _).
  - intros ip [-> _]%elem_of_replicate. done.
  - eapply rtc_l; [|apply rtc_refl]. by eapply (ics_iget small_sb 1 t [] 1 7).
  - done.
  - left.
Defined.
End witness.

End FsThms.
