(* ===== verification/FsWrite.v ===== *)
(** * The xv6 file system: writing a file

    The block map of an inode as one array of slots, its allocation by
    [bmap], and what [writei] does to the bytes of the file, to the block
    allocator and to the room of the transaction. *)

From S2P Require Import Prelude DfsImage Kalloc Bio Log LogSpec LogThms Txn CString Fs FsThms.
Import Fs FsThms.
Local Open Scope Z_scope.
Local Open Scope xv6_scope.

Module FsWrite.

(** ** Words *)

Lemma uint32_put_eq d a v : is_u32 v -> uint32 (put32 d a v) a = v.
Proof.
  intros Hv. unfold uint32. rewrite word32_put32_eq, u32_s32. by apply u32_small.
Qed.

Lemma uint32_put_ne d a a' v : a + 4 <= a' \/ a' + 4 <= a -> uint32 (put32 d a v) a' = uint32 d a'.
Proof. intros Ha. unfold uint32. rewrite word32_put32_ne; [done|lia]. Qed.

Lemma uint32_zero d a : (forall k, 0 <= k < 4 -> d (a + k) = 0) -> uint32 d a = 0.
Proof.
  intros Hz. unfold uint32. rewrite (word32_ext d (fun _ => 0) a Hz). done.
Qed.

Lemma uint32_range d a : is_u32 (uint32 d a).
Proof. apply u32_range. Qed.

(** ** The free blocks *)

Section write.
Context {T : Type} `{TxnSpec T} (sb : superblock).
Implicit Types (s : T) (b k bn : Z) (ip : inode).

Definition free s : gset Z := filter (fun b => used sb s b = false) (list_to_set (seqZ 0 (size sb))).

Lemma elem_of_free s b : b ∈ free s <-> 0 <= b < size sb /\ used sb s b = false.
Proof. unfold free. rewrite elem_of_filter, elem_of_list_to_set, elem_of_seqZ. naive_solver lia. Qed.

Lemma free_same s s' : (forall b, 0 <= b < size sb -> used sb s' b = used sb s b) -> free s' = free s.
Proof.
  intros Hu. apply set_eq. intros b. rewrite !elem_of_free. split; intros [Hb E]; (split; [done|]); [by rewrite <- Hu|by rewrite Hu].
Qed.

Lemma tsame_used s s' b : tsame s s' -> used sb s' b = used sb s b.
Proof. intros (Hv & _). unfold used. by rewrite Hv. Qed.

(** While a block is free [balloc] returns one. *)
Lemma balloc_ret s L :
  txn_ok s L ∅ -> bitmap_ok sb s L ∅ -> (base.size L < 2)%nat -> (2 <= troom s)%nat -> (1 <= base.size (free s))%nat ->
  exists s' r, balloc sb s = Ret (s', r) /\ allocated sb s s' L ∅ r /\ base.size (free s) = S (base.size (free s')).
Proof.
  intros Hok Hbm HL Hr Hf. pose proof (balloc_ok sb s L ∅ Hok Hbm HL Hr) as Hb.
  destruct (balloc sb s) as [[s' r]| | |]; try done.
  - exists s', r. split; [done|]. split; [done|].
    pose proof (al_range _ _ _ _ _ _ Hb) as Hrr. pose proof (al_free _ _ _ _ _ _ Hb) as Hrf.
    assert (E : free s = {[r]} ∪ free s').
    { apply set_eq. intros b. rewrite elem_of_union, elem_of_singleton, !elem_of_free.
      destruct (decide (0 <= b < size sb)) as [Hin|Hout]; [|naive_solver].
      rewrite (allocated_used _ _ _ _ _ _ _ Hb Hbm Hin), orb_false_iff, bool_decide_eq_false.
      destruct (decide (b = r)) as [->|]; naive_solver. }
    rewrite E, size_union, size_singleton; [lia|]. rewrite disjoint_singleton_l, elem_of_free.
    rewrite (allocated_used _ _ _ _ _ _ _ Hb Hbm Hrr), bool_decide_eq_true_2, orb_true_r by done. naive_solver.
  - exfalso. assert (E : free s = ∅); [|rewrite E, size_empty in Hf; lia].
    apply set_eq. intros b. rewrite elem_of_free. split; [|set_solver]. intros [Hin E]. by rewrite Hb in E.
Qed.

Lemma fits_allocated s s' L D r X n : allocated sb s s' L D r -> fits s X (2 + n) -> fits s' ({[r; BBLOCK sb r]} ∪ X) n.
Proof.
  intros Ha Hf. apply (fits_logged s s' _ {[r; BBLOCK sb r]}); [set_solver|by apply (al_logged _ _ _ _ _ _ Ha)|by apply (al_cap _ _ _ _ _ _ Ha)|].
  apply fits_add with 2%nat; [|done]. rewrite size_union_alt, size_singleton.
  assert (Hd : {[BBLOCK sb r]} ∖ {[r]} ⊆ ({[BBLOCK sb r]} : gset Z)) by set_solver.
  apply subseteq_size in Hd. rewrite size_singleton in Hd. lia.
Qed.

(** ** Slots *)

(** The block numbers of an inode as one array: the direct ones, the indirect
    block at 12 and the entries of the indirect block. *)
Definition NSLOT : Z := MAXFILE + 1.
Definition ind_block ip : Z := default 0 (getZ (addrs ip) NDIRECT).
Definition slot s ip k : Z :=
  if k <=? NDIRECT then default 0 (getZ (addrs ip) k)
  else if ind_block ip =? 0 then 0 else uint32 (tview s (ind_block ip)) (4 * (k - (NDIRECT + 1))).
(** The slot of a block of data. *)
Definition dslot bn : Z := if bn <? NDIRECT then bn else bn + 1.

Lemma slot_ind s ip : slot s ip NDIRECT = ind_block ip.
Proof. done. Qed.

Lemma dslot_range bn : 0 <= bn < MAXFILE -> 0 <= dslot bn < NSLOT /\ dslot bn <> NDIRECT.
Proof. unfold dslot, NSLOT, MAXFILE, NINDIRECT, BSIZE, NDIRECT. intros Hb. destruct (Z.ltb_spec bn 12); lia. Qed.

Lemma dslot_inj bn bn' : dslot bn = dslot bn' -> bn = bn'.
Proof. unfold dslot, NDIRECT. destruct (Z.ltb_spec bn 12), (Z.ltb_spec bn' 12); lia. Qed.

Lemma slot_view s s' ip k : (ind_block ip <> 0 -> tview s' (ind_block ip) = tview s (ind_block ip)) -> slot s' ip k = slot s ip k.
Proof.
  intros Hv. unfold slot. destruct (k <=? NDIRECT); [done|]. destruct (Z.eqb_spec (ind_block ip) 0) as [|Hnz]; [done|]. by rewrite (Hv Hnz).
Qed.

Lemma slot_direct_same s ip k k' r :
  0 <= k <= NDIRECT -> length (addrs ip) = 13%nat -> k' <= NDIRECT -> 0 <= k' ->
  slot s (with_addr k r ip) k' = if decide (k' = k) then r else slot s ip k'.
Proof.
  intros Hk Hl Hk' H0'. unfold slot. rewrite (proj2 (Z.leb_le _ _) Hk'). unfold NDIRECT in *. unfold getZ. rewrite decide_True by lia.
  cbn [addrs with_addr]. case_decide as E.
  - subst. rewrite list_lookup_insert_eq; [done|]. rewrite Hl. lia.
  - rewrite list_lookup_insert_ne by lia. by rewrite decide_True by lia.
Qed.

(** A block a file may use. *)
Record good s b : Prop := {
  gd_range : 0 < b < size sb;
  gd_used : used sb s b = true;
  gd_log : loggable s b;
  gd_map b' : 0 <= b' < size sb -> b <> BBLOCK sb b'
}.

(** The map of an inode is well formed: its blocks are good, all different,
    and there is one for every byte of the file; block 0 is never handed out. *)
Record file_wf s ip : Prop := {
  fw_addrs : length (addrs ip) = 13%nat;
  fw_size : 0 <= isize ip <= MAXFILE * BSIZE;
  fw_good k : 0 <= k < NSLOT -> slot s ip k <> 0 -> good s (slot s ip k) /\ slot s ip k <> IBLOCK sb (inum ip);
  fw_inj k k' : 0 <= k < NSLOT -> 0 <= k' < NSLOT -> slot s ip k <> 0 -> slot s ip k = slot s ip k' -> k = k';
  fw_holes bn : 0 <= bn -> bn * BSIZE < isize ip -> slot s ip (dslot bn) <> 0;
  fw_inode : good s (IBLOCK sb (inum ip));
  fw_zero : used sb s 0 = true
}.

(** The file's bytes, zero where no block is allocated. *)
Definition content s ip (x : Z) : Z :=
  let b := slot s ip (dslot (x / BSIZE)) in if b =? 0 then 0 else tview s b (x mod BSIZE).

(** [s] and [ip] become [s'] and [ip'], of which only the block numbers may
    differ, and the file's bytes become [c]. *)
Record changed s s' ip ip' (c : Z -> Z) : Prop := {
  ch_ip : exists l, ip' = {| dev := dev ip; inum := inum ip; ref := ref ip; lock := lock ip; valid := valid ip;
    type := type ip; major := major ip; minor := minor ip; nlink := nlink ip; isize := isize ip; addrs := l |};
  ch_txn : txn_ok s' ∅ ∅;
  ch_bitmap : bitmap_ok sb s' ∅ ∅;
  ch_wf : file_wf s' ip';
  ch_slot k : 0 <= k < NSLOT -> slot s ip k <> 0 -> slot s' ip' k = slot s ip k;
  ch_content x : 0 <= x < MAXFILE * BSIZE -> content s' ip' x = c x;
  ch_frame b : (forall k, 0 <= k < NSLOT -> slot s' ip' k <> 0 -> b <> slot s' ip' k) ->
    (forall b', 0 <= b' < size sb -> b <> BBLOCK sb b') -> tview s' b = tview s b
}.

Lemma good_mono s s' b :
  (used sb s b = true -> used sb s' b = true) -> (loggable s b -> loggable s' b) -> good s b -> good s' b.
Proof. intros Hu Hl [G1 G2 G3 G4]. split; auto. Qed.

Lemma wf_frame s s' ip :
  (forall k, 0 <= k < NSLOT -> slot s' ip k = slot s ip k) -> (forall b, good s b -> good s' b) -> used sb s' 0 = true ->
  file_wf s ip -> file_wf s' ip.
Proof.
  intros Hs Hg Hz [W1 W2 W3 W4 W5 W6 W7]. split; [done|done| | | |by apply Hg|done].
  - intros k Hk. rewrite (Hs k Hk). intros Hnz. destruct (W3 k Hk Hnz) as [G1 G2]. split; [by apply Hg|done].
  - intros k k' Hk Hk'. rewrite (Hs k Hk), (Hs k' Hk'). by apply W4.
  - intros bn H1 H2. assert (Hbn : 0 <= bn < MAXFILE) by (unfold BSIZE in *; lia).
    rewrite Hs by (by apply dslot_range). by apply W5.
Qed.

Lemma wf_same s s' ip : tsame s s' -> file_wf s ip -> file_wf s' ip.
Proof.
  intros Hs Hwf. apply (wf_frame s); [| | |done].
  - intros k _. apply slot_view. intros _. apply Hs.
  - intros b. apply good_mono; [by rewrite (tsame_used _ _ _ Hs)|apply Hs].
  - rewrite (tsame_used _ _ _ Hs). apply Hwf.
Qed.

Lemma content_ext s s' ip ip' x :
  slot s' ip' (dslot (x / BSIZE)) = slot s ip (dslot (x / BSIZE)) ->
  (slot s ip (dslot (x / BSIZE)) <> 0 -> tview s' (slot s ip (dslot (x / BSIZE))) = tview s (slot s ip (dslot (x / BSIZE)))) ->
  content s' ip' x = content s ip x.
Proof.
  intros Es Hv. unfold content. rewrite Es. destruct (Z.eqb_spec (slot s ip (dslot (x / BSIZE))) 0) as [|Hnz]; [done|]. by rewrite (Hv Hnz).
Qed.

Lemma changed_same s s' ip : tsame s s' -> txn_ok s' ∅ ∅ -> bitmap_ok sb s ∅ ∅ -> file_wf s ip -> changed s s' ip ip (content s ip).
Proof.
  intros Hs Hok Hbm Hwf. assert (Hsl : forall k, slot s' ip k = slot s ip k).
  { intros k. apply slot_view. intros _. apply Hs. }
  split; [exists (addrs ip); by destruct ip|done|by apply (bitmap_ok_same sb s)|by apply (wf_same s)| | |].
  - intros k _ _. apply Hsl.
  - intros x _. apply content_ext; [apply Hsl|]. intros _. apply Hs.
  - intros b _ _. apply Hs.
Qed.

Lemma changed_trans s0 s1 s2 ip0 ip1 ip2 c1 c2 :
  changed s0 s1 ip0 ip1 c1 -> changed s1 s2 ip1 ip2 c2 -> changed s0 s2 ip0 ip2 c2.
Proof.
  intros [[l1 E1] A1 A2 A3 A4 A5 A6] [[l2 E2] B1 B2 B3 B4 B5 B6]. split; [exists l2; by rewrite E2, E1|done|done|done| |done|].
  - intros k Hk Hnz. rewrite B4; [by apply A4|done|]. by rewrite A4.
  - intros b Hb Hm. rewrite B6 by done. apply A6; [|done]. intros k Hk Hnz. rewrite <- B4 by done. apply Hb; [done|]. by rewrite B4.
Qed.

Lemma changed_content s s' ip ip' c c' :
  changed s s' ip ip' c -> (forall x, 0 <= x < MAXFILE * BSIZE -> c x = c' x) -> changed s s' ip ip' c'.
Proof. intros [A0 A1 A2 A3 A4 A5 A6] Hc. split; try done. intros x Hx. by rewrite A5, Hc. Qed.
Lemma changed_then s0 s1 s2 ip0 ip1 ip2 c :
  changed s0 s1 ip0 ip1 c -> changed s1 s2 ip1 ip2 (content s1 ip1) -> changed s0 s2 ip0 ip2 c.
Proof.
  intros H1 H2. eapply changed_content; [by eapply changed_trans|]. apply (ch_content _ _ _ _ _ H1).
Qed.

(** ** Allocation of a slot *)

Lemma good_used s b r : good s b -> used sb s r = false -> b <> r.
Proof. intros G Hf ->. rewrite (gd_used _ _ G) in Hf. done. Qed.

(** Slot [k] was empty and now holds the fresh block [r]. *)
Lemma changed_slot s s' ip ip' k r :
  file_wf s ip -> 0 <= k < NSLOT -> slot s ip k = 0 -> good s' r -> used sb s r = false ->
  (forall x, 0 <= x < BSIZE -> tview s' r x = 0) ->
  (forall j, 0 <= j < NSLOT -> slot s' ip' j = if decide (j = k) then r else slot s ip j) ->
  (exists l, ip' = {| dev := dev ip; inum := inum ip; ref := ref ip; lock := lock ip; valid := valid ip;
    type := type ip; major := major ip; minor := minor ip; nlink := nlink ip; isize := isize ip; addrs := l |}) ->
  length (addrs ip') = 13%nat -> (forall b, good s b -> good s' b) -> used sb s' 0 = true ->
  (forall b, b <> r -> (b = ind_block ip -> b = 0) -> (forall b', 0 <= b' < size sb -> b <> BBLOCK sb b') -> tview s' b = tview s b) ->
  txn_ok s' ∅ ∅ -> bitmap_ok sb s' ∅ ∅ -> changed s s' ip ip' (content s ip).
Proof.
  intros Hwf Hk Hz Gr Hfr Hzero Hsl (l & Eip) Hlen Hgood Hu0 Hview Hok Hbm. pose proof Hwf as [W1 W2 W3 W4 W5 W6 W7].
  pose proof (gd_range _ _ Gr) as Hr.
  assert (Hold : forall j, 0 <= j < NSLOT -> slot s ip j <> 0 -> j <> k /\ slot s ip j <> r).
  { intros j Hj Hnz. split; [by intros ->|]. destruct (W3 j Hj Hnz) as [G _]. by apply (good_used s). }
  assert (Hkeep : forall j, 0 <= j < NSLOT -> slot s ip j <> 0 -> slot s' ip' j = slot s ip j).
  { intros j Hj Hnz. rewrite Hsl by done. by rewrite decide_False by (by apply Hold). }
  assert (Hen : inum ip' = inum ip /\ isize ip' = isize ip) by (by rewrite Eip). destruct Hen as [En Es].
  split; [by exists l|done|done| |done| |].
  - split; [done|by rewrite Es| | | |rewrite En; by apply Hgood|done].
    + intros j Hj. rewrite (Hsl j Hj), En. case_decide as E; [intros _|intros Hnz].
      * split; [done|]. intros Eq. by apply (good_used s _ r W6).
      * destruct (W3 j Hj Hnz) as [G Hi]. split; [by apply Hgood|done].
    + intros j j' Hj Hj'. rewrite (Hsl j Hj), (Hsl j' Hj'). repeat case_decide; subst; try done; [| |by apply W4].
      * intros _ Eq. exfalso. apply (proj2 (Hold j' Hj' ltac:(lia))). done.
      * intros Hnz Eq. exfalso. by apply (proj2 (Hold j Hj Hnz)).
    + intros bn H1. rewrite Es. intros H2. assert (Hbn : 0 <= bn < MAXFILE) by (unfold BSIZE in *; lia).
      pose proof (W5 bn H1 H2) as Hnz. rewrite Hkeep; [done|by apply dslot_range|done].
  - intros x Hx. assert (Hbn : 0 <= x / BSIZE < MAXFILE).
    { split; [apply Z.div_pos; [lia|done]|apply Z.div_lt_upper_bound; [done|lia]]. }
    destruct (dslot_range _ Hbn) as [Hd Hdi]. unfold content. rewrite Hsl by done. case_decide as E.
    + rewrite E, Hz, (proj2 (Z.eqb_neq r 0)) by lia. rewrite Hzero; [done|by apply Z.mod_pos_bound].
    + destruct (Z.eqb_spec (slot s ip (dslot (x / BSIZE))) 0) as [|Hnz]; [done|].
      destruct (W3 _ Hd Hnz) as [G _]. rewrite Hview; [done|by apply Hold|intros Eq; exfalso|by apply G].
      apply Hdi. apply W4; [done|done|done|]. by rewrite slot_ind.
  - intros b Hb Hm. apply Hview; [|intros ->|done].
    + specialize (Hb k Hk). rewrite Hsl, decide_True in Hb by done. apply Hb. lia.
    + destruct (decide (ind_block ip = 0)) as [|Hnz]; [done|]. exfalso. rewrite <- (slot_ind s) in Hnz.
      assert (Hn : 0 <= NDIRECT < NSLOT) by done.
      apply (Hb NDIRECT Hn); rewrite Hkeep by done; done.
Qed.

(** What [balloc] leaves of good blocks. *)
Lemma allocated_good s s' L r b :
  allocated sb s s' L ∅ r -> bitmap_ok sb s L ∅ -> good s b -> good s' b /\ b <> r /\ tview s' b = tview s b.
Proof.
  intros Ha Hbm G. pose proof (good_used _ _ _ G (al_free _ _ _ _ _ _ Ha)) as Hne. split; [|split; [done|]].
  - pose proof (gd_range _ _ G). apply (good_mono s s'); [|apply (al_log _ _ _ _ _ _ Ha)|done].
    intros Hu. rewrite (allocated_used _ _ _ _ _ _ _ Ha Hbm) by lia. by rewrite Hu.
  - apply (al_same _ _ _ _ _ _ Ha); [done|]. apply G, Ha.
Qed.

Lemma allocated_new s s' L r : allocated sb s s' L ∅ r -> bitmap_ok sb s L ∅ -> used sb s 0 = true -> good s' r /\ used sb s' 0 = true.
Proof.
  intros Ha Hbm H0'. pose proof (al_range _ _ _ _ _ _ Ha) as Hr. pose proof (al_free _ _ _ _ _ _ Ha) as Hf.
  destruct (bm_free _ _ _ _ Hbm r Hr Hf) as (Hl & _ & Hm). assert (r <> 0) by (intros ->; congruence).
  split; [split; [lia| |by apply (al_log _ _ _ _ _ _ Ha)|done]|].
  - by rewrite (allocated_used _ _ _ _ _ _ _ Ha Hbm Hr), bool_decide_eq_true_2, orb_true_r.
  - rewrite (allocated_used _ _ _ _ _ _ _ Ha Hbm) by lia. by rewrite H0'.
Qed.

(** A block for a number kept in the inode. *)
Lemma changed_addr s s' ip k r :
  file_wf s ip -> bitmap_ok sb s ∅ ∅ -> 0 <= k <= NDIRECT -> slot s ip k = 0 -> allocated sb s s' ∅ ∅ r ->
  changed s s' ip (with_addr k r ip) (content s ip) /\ r <> 0 /\
  (forall j, 0 <= j < NSLOT -> slot s' (with_addr k r ip) j = if decide (j = k) then r else slot s ip j).
Proof.
  intros Hwf Hbm Hk Hz Ha. destruct (allocated_new _ _ _ _ Ha Hbm (fw_zero _ _ Hwf)) as [Gr Hu0].
  pose proof (al_free _ _ _ _ _ _ Ha) as Hfr. pose proof (gd_range _ _ Gr) as Hr. pose proof (fw_addrs _ _ Hwf) as Hl.
  assert (HN : NSLOT = 141 /\ NDIRECT = 12 /\ BSIZE = 512) by done. assert (HkN : 0 <= k < NSLOT) by lia.
  assert (Hind : ind_block ip <> 0 -> tview s' (ind_block ip) = tview s (ind_block ip)).
  { intros Hnz. destruct (fw_good _ _ Hwf NDIRECT ltac:(done) Hnz) as [G _]. by apply (allocated_good _ _ _ _ _ Ha Hbm G). }
  assert (Hsl : forall j, 0 <= j < NSLOT -> slot s' (with_addr k r ip) j = if decide (j = k) then r else slot s ip j).
  { intros j Hj. destruct (Z.le_gt_cases j NDIRECT) as [Hle|Hgt]; [rewrite slot_direct_same by (done || lia); case_decide; [done|by apply slot_view]|].
    rewrite decide_False by lia. unfold slot at 1. rewrite (proj2 (Z.leb_gt _ _) Hgt).
    assert (Ei : ind_block (with_addr k r ip) = if decide (NDIRECT = k) then r else ind_block ip) by (rewrite <- !(slot_ind s); by apply slot_direct_same).
    rewrite Ei. case_decide as E.
    - subst k. rewrite (proj2 (Z.eqb_neq r 0)) by lia. unfold slot. rewrite (proj2 (Z.leb_gt _ _) Hgt).
      rewrite slot_ind in Hz. rewrite Hz, Z.eqb_refl. apply uint32_zero. intros x Hx. apply (al_zero _ _ _ _ _ _ Ha). lia.
    - unfold slot. rewrite (proj2 (Z.leb_gt _ _) Hgt). destruct (Z.eqb_spec (ind_block ip) 0) as [|Hnz]; [done|]. by rewrite (Hind Hnz). }
  split; [|split; [lia|done]].
  apply changed_slot with k r; [done|done|done|done|done|by apply Ha|done|by eexists| | |done| |by apply Ha|by apply (allocated_bitmap _ _ _ _ _ _ Ha)].
  - cbn. by rewrite length_insert.
  - intros b G. by apply (allocated_good _ _ _ _ _ Ha Hbm G).
  - intros b Hb _ Hm. apply (al_same _ _ _ _ _ _ Ha); [done|]. apply Hm, Ha.
Qed.
(** ** Entries of the indirect block *)

Lemma used_changed s s' a v b :
  tchanged s s' a v -> BBLOCK sb b <> a -> used sb s' b = used sb s b.
Proof. intros (_ & Hv & _) Hb. unfold used. by rewrite Hv. Qed.

Lemma good_changed s s' a v b : tchanged s s' a v -> good s a -> good s b -> good s' b.
Proof.
  intros Hc Ga Gb. apply (good_mono s); [|apply Hc|done].
  rewrite (used_changed _ _ _ _ _ Hc); [done|]. intros E. apply (gd_map _ _ Ga b); [|done]. pose proof (gd_range _ _ Gb). lia.
Qed.

Lemma bitmap_changed s s' L a v : tchanged s s' a v -> good s a -> bitmap_ok sb s L ∅ -> bitmap_ok sb s' L ∅.
Proof.
  intros Hc Ga [B1 B2 B3]. split; [done| |].
  - intros b Hb. destruct Hc as (_ & _ & _ & Hl). rewrite Hl. by apply B2.
  - intros b Hb. rewrite (used_changed _ _ _ _ _ Hc) by (intros E; by apply (gd_map _ _ Ga b)).
    destruct Hc as (_ & _ & _ & Hl). rewrite Hl. by apply B3.
Qed.

Lemma bitmap_hold s a : good s a -> bitmap_ok sb s ∅ ∅ -> bitmap_ok sb s ({[a]} ∪ ∅) ∅.
Proof.
  intros Ga [B1 B2 B3]. split; [done| |].
  - intros b Hb. destruct (B2 b Hb) as (? & ? & ?). split; [done|]. split; [done|].
    pose proof (gd_map _ _ Ga b Hb). set_solver.
  - intros b Hb Hu. destruct (B3 b Hb Hu) as (? & ? & ?). split; [done|]. split; [|done].
    pose proof (good_used _ _ _ Ga Hu). set_solver.
Qed.

Lemma good_FSSIZE s a L : good s a -> bitmap_ok sb s L ∅ -> 0 <= a < FSSIZE.
Proof. intros Ga Hbm. pose proof (gd_range _ _ Ga). pose proof (bm_size _ _ _ _ Hbm). lia. Qed.

Lemma slot_entry s ip j : 0 <= j -> ind_block ip <> 0 -> slot s ip (NDIRECT + 1 + j) = uint32 (tview s (ind_block ip)) (4 * j).
Proof.
  intros Hj Hnz. unfold slot. rewrite (proj2 (Z.leb_gt _ _)) by lia. rewrite (proj2 (Z.eqb_neq _ _) Hnz). do 2 f_equal. lia.
Qed.

Lemma ind_good s ip : file_wf s ip -> ind_block ip <> 0 -> good s (ind_block ip).
Proof. intros Hwf Hnz. by apply (fw_good _ _ Hwf NDIRECT). Qed.

Lemma entry_read s ip j :
  txn_ok s ∅ ∅ -> bitmap_ok sb s ∅ ∅ -> file_wf s ip -> ind_block ip <> 0 -> 0 <= j ->
  exists s1 bp s2, tread s (ind_block ip) = Ret (s1, bp) /\ uint32 (tdata s1 bp) (4 * j) = slot s ip (NDIRECT + 1 + j) /\
    trelse s1 bp = Ret s2 /\ tsame s s2 /\ txn_ok s2 ∅ ∅.
Proof.
  intros Hok Hbm Hwf Hnz Hj.
  destruct (read_only s ∅ ∅ (ind_block ip) Hok) as (s1 & bp & s2 & E1 & Ed & E2 & Hok2 & Hs & _);
    [set_solver|set_solver|by eapply good_FSSIZE; [apply ind_good|]|rewrite size_empty; lia|].
  exists s1, bp, s2. rewrite Ed, slot_entry by done. done.
Qed.

(** The allocation of entry [j]. *)
Lemma entry_alloc s s1 bp ip j X n :
  txn_ok s ∅ ∅ -> bitmap_ok sb s ∅ ∅ -> file_wf s ip -> ind_block ip <> 0 -> 0 <= j < NINDIRECT ->
  slot s ip (NDIRECT + 1 + j) = 0 -> tread s (ind_block ip) = Ret (s1, bp) ->
  fits s X (2 + n) -> ind_block ip ∈ X -> (1 <= base.size (free s))%nat ->
  exists s2 r s3 s4, balloc sb s1 = Ret (s2, r) /\ tlog (tset s2 bp (put32 (tdata s2 bp) (4 * j) r)) bp = Ret s3 /\
    trelse s3 bp = Ret s4 /\ changed s s4 ip ip (content s ip) /\ slot s4 ip (NDIRECT + 1 + j) = r /\ r <> 0 /\
    fits s4 ({[r; BBLOCK sb r]} ∪ X) n /\ base.size (free s) = S (base.size (free s4)).
Proof.
  intros Hok Hbm Hwf Hnz Hj Hz Er Hfit HX Hfr. set (a := ind_block ip) in *. pose proof (ind_good _ _ Hwf Hnz) as Ga.
  destruct (tread_ok s ∅ ∅ a Hok) as (s1' & bp' & Er' & Hok1 & Hat & Hs1 & _);
    [set_solver|by eapply good_FSSIZE|rewrite size_empty; lia|].
  rewrite Er in Er'. injection Er' as <- <-.
  pose proof (bitmap_hold _ _ Ga Hbm) as HbmL. pose proof (bitmap_ok_same _ _ _ _ _ Hs1 HbmL) as Hbm1.
  pose proof (fits_same _ _ _ _ Hs1 Hfit) as Hfit1. pose proof (fits_room _ _ _ Hfit1) as Hroom1.
  assert (Ef : free s1 = free s) by (apply free_same; intros; by apply tsame_used).
  assert (HL : (base.size ({[a]} ∪ ∅ : gset Z) < 2)%nat) by (rewrite union_empty_r_L, size_singleton; lia).
  destruct (balloc_ret s1 _ Hok1 Hbm1 HL) as (s2 & r & Eb & Ha & Hfree); [lia|by rewrite Ef|].
  assert (G1 : forall b, good s b -> good s1 b) by (intros b; apply good_mono; [by rewrite (tsame_used _ _ _ Hs1)|apply Hs1]).
  destruct (allocated_good _ _ _ _ a Ha Hbm1 (G1 _ Ga)) as (Ga2 & Har & Hva).
  destruct (allocated_new _ _ _ _ Ha Hbm1) as [Gr Hu0]; [rewrite (tsame_used _ _ _ Hs1); apply Hwf|].
  pose proof (al_ok _ _ _ _ _ _ Ha) as Hok2. pose proof (al_at _ _ _ _ _ _ Ha a bp ltac:(set_solver) Hat) as Hat2.
  pose proof (fits_allocated _ _ _ _ _ _ _ Ha Hfit1) as Hfit2. pose proof (fits_room _ _ _ Hfit2) as Hroom2.
  set (v := put32 (tdata s2 bp) (4 * j) r). assert (Ev : v = put32 (tview s a) (4 * j) r).
  { unfold v. by rewrite (tat_ok _ _ _ _ _ Hok2 Hat2), Hva, (proj1 Hs1). }
  destruct (log_held s2 ∅ ∅ a bp v) as (s3 & s4 & E3 & E4 & Hok4 & Hc & _); [done|set_solver|set_solver|done|apply Ga2|lia|].
  exists s2, r, s3, s4. split; [done|]. split; [done|]. split; [done|].
  assert (Hsl : forall k, 0 <= k < NSLOT -> slot s4 ip k = if decide (k = NDIRECT + 1 + j) then r else slot s ip k).
  { intros k Hk. destruct (Z.le_gt_cases k NDIRECT) as [Hle|Hgt].
    - rewrite decide_False by lia. unfold slot. by rewrite (proj2 (Z.leb_le _ _) Hle).
    - replace k with (NDIRECT + 1 + (k - NDIRECT - 1)) by lia. rewrite !slot_entry by (done || lia).
      fold a. rewrite (proj1 Hc), Ev. case_decide as E.
      + replace (k - NDIRECT - 1) with j by lia. apply uint32_put_eq. pose proof (gd_range _ _ Gr). pose proof (bm_size _ _ _ _ Hbm).
        unfold is_u32, FSSIZE in *. lia.
      + apply uint32_put_ne. lia. }
  assert (HNk : 0 <= NDIRECT + 1 + j < NSLOT) by (unfold NSLOT, MAXFILE; lia || (unfold NDIRECT; lia)).
  split; [|split; [by rewrite Hsl, decide_True|split; [pose proof (gd_range _ _ Gr); lia|split]]].
  - apply changed_slot with (NDIRECT + 1 + j) r; try done.
    + by apply (good_changed s2 s4 a v).
    + rewrite <- (tsame_used _ _ _ Hs1). by apply Ha.
    + intros x Hx. rewrite (proj1 (proj2 Hc)) by done. by apply Ha.
    + exists (addrs ip). by destruct ip.
    + by apply Hwf.
    + intros b Gb. apply (good_changed s2 s4 a v); [done|done|]. apply (allocated_good _ _ _ _ b Ha Hbm1). by apply G1.
    + rewrite (used_changed _ _ _ _ _ Hc); [done|]. intros E. apply (gd_map _ _ Ga 0); [pose proof (gd_range _ _ Ga); lia|done].
    + intros b Hb Hba Hm. assert (b <> a) by (intros ->; by apply Hnz, Hba). rewrite (proj1 (proj2 Hc)) by done.
      rewrite (al_same _ _ _ _ _ _ Ha) by (done || apply Hm, Ha). apply Hs1.
    + apply (bitmap_changed s2 s4 ∅ a v); [done|done|]. apply allocated_bitmap in Ha; [|done]. destruct Ha as [B1 B2 B3]. split; [done| |].
      * intros b Hb. destruct (B2 b Hb) as (? & ? & ?). set_solver.
      * intros b Hb Hu. destruct (B3 b Hb Hu) as (? & ? & ?). set_solver.
  - apply (fits_changed s2 s4 _ a v); [set_solver|done|done].
  - rewrite <- Ef, Hfree. f_equal. f_equal. apply free_same. intros b Hb. symmetry. apply (used_changed _ _ _ _ _ Hc).
    intros E. by apply (gd_map _ _ Ga b).
Qed.
(** ** The block map *)

(** The room and the free blocks that a call leaves when it may still have to
    allocate the indirect block: [r] more blocks to log beside [X], [a] more
    to allocate. *)
Definition ind_cost ip : nat := if ind_block ip =? 0 then 1%nat else 0%nat.
Definition ind_set ip : gset Z := if ind_block ip =? 0 then ∅ else {[ind_block ip; BBLOCK sb (ind_block ip)]}.
Definition budget s ip (X : gset Z) (r a : nat) : Prop :=
  fits s (X ∪ ind_set ip) (2 * ind_cost ip + r) /\ (ind_cost ip + a <= base.size (free s))%nat.

(** Whether [bmap] has to allocate a block of data. *)
Definition fresh s ip bn : nat := if slot s ip (dslot bn) =? 0 then 1%nat else 0%nat.

Lemma budget_same s s' ip X r a : tsame s s' -> budget s ip X r a -> budget s' ip X r a.
Proof.
  intros Hs [Hf Ha]. split; [by apply (fits_same s)|]. rewrite (free_same s s'); [done|]. intros b _. by apply tsame_used.
Qed.

(** The indirect block exists or is allocated. *)
Lemma bmap_ind (f : fs T) i ip addr r a :
  icache f !! i = Some ip -> txn_ok (disk f) ∅ ∅ -> bitmap_ok sb (disk f) ∅ ∅ -> file_wf (disk f) ip ->
  budget (disk f) ip ∅ r a -> addr = ind_block ip ->
  exists f' ip',
    (if addr =? 0 then let* (s, addr) := balloc sb (disk f) in Ret (upd i (with_addr NDIRECT addr) (with_disk s f), addr)
     else Ret (f, addr)) = Ret (f', ind_block ip') /\
    icache f' = <[i := ip']> (icache f) /\ changed (disk f) (disk f') ip ip' (content (disk f) ip) /\
    ind_block ip' <> 0 /\ (forall k, 0 <= k < NSLOT -> k <> NDIRECT -> slot (disk f') ip' k = slot (disk f) ip k) /\
    budget (disk f') ip' ∅ r a /\ (ind_block ip <> 0 -> ip' = ip).
Proof.
  intros Ei Hok Hbm Hwf [Hfit Hfree] ->. unfold ind_cost, ind_set in *. destruct (Z.eqb_spec (ind_block ip) 0) as [Hz|Hnz].
  - rewrite union_empty_r_L in Hfit. pose proof (fits_room _ _ _ Hfit).
    destruct (balloc_ret (disk f) ∅ Hok Hbm) as (s' & b & E & Ha & Hn); [rewrite size_empty; lia|lia|lia|].
    destruct (changed_addr _ s' ip NDIRECT b Hwf Hbm) as (Hc & Hb & Hsl); [done|done|done|].
    assert (Hi : ind_block (with_addr NDIRECT b ip) = b) by (rewrite <- (slot_ind s'), Hsl by done; by rewrite decide_True).
    exists (upd i (with_addr NDIRECT b) (with_disk s' f)), (with_addr NDIRECT b ip). rewrite E. cbn [obind]. rewrite Hi.
    split; [done|]. split; [by apply insert_alter|]. split; [done|]. split; [done|]. split.
    + intros k Hk Hne. cbn. rewrite Hsl by done. by rewrite decide_False.
    + unfold budget, ind_cost, ind_set. rewrite Hi, (proj2 (Z.eqb_neq _ _) Hb). cbn [disk upd with_icache with_disk]. split; [split; [|lia]|done].
      eapply fits_weaken; [| |by apply (fits_allocated _ _ _ _ _ ∅ (0 + r) Ha)]; [set_solver|lia].
  - exists f, ip. split; [done|]. split; [by rewrite list_insert_id|]. split; [by apply changed_same|].
    split; [done|]. split; [done|]. split; [|done]. unfold budget, ind_cost, ind_set. by rewrite (proj2 (Z.eqb_neq _ _) Hnz).
Qed.

Lemma bmap_ok (f : fs T) i ip bn r a :
  icache f !! i = Some ip -> txn_ok (disk f) ∅ ∅ -> bitmap_ok sb (disk f) ∅ ∅ -> file_wf (disk f) ip -> 0 <= bn < MAXFILE ->
  let c := fresh (disk f) ip bn in budget (disk f) ip ∅ (S c + r) (c + a) ->
  exists f' b ip', bmap sb f i bn = Ret (f', b) /\ icache f' = <[i := ip']> (icache f) /\
    changed (disk f) (disk f') ip ip' (content (disk f) ip) /\ slot (disk f') ip' (dslot bn) = b /\ b <> 0 /\
    budget (disk f') ip' {[b]} r a /\ (slot (disk f) ip (dslot bn) <> 0 -> ip' = ip).
Proof.
  intros Ei Hok Hbm Hwf Hbn c Hbud. subst c. unfold bmap. rewrite Ei. cbn [of_option obind]. unfold fresh, dslot in *.
  pose proof (fw_addrs _ _ Hwf) as Hl. destruct (Z.ltb_spec bn NDIRECT) as [Hd|Hd].
  - destruct (getZ_is_Some (addrs ip) bn) as [addr Ea]; [rewrite Hl; unfold NDIRECT in *; lia|]. rewrite Ea. cbn [of_option obind].
    assert (Es : slot (disk f) ip bn = addr) by (unfold slot; rewrite (proj2 (Z.leb_le _ _)) by lia; by rewrite Ea).
    rewrite Es in Hbud. destruct (Z.eqb_spec addr 0) as [Hz|Hnz].
    + rewrite Hz in *. destruct Hbud as [Hfit Hfree]. pose proof (fits_room _ _ _ Hfit).
      destruct (balloc_ret (disk f) ∅ Hok Hbm) as (s' & b & E & Ha & Hn); [rewrite size_empty; lia|lia|lia|].
      destruct (changed_addr _ s' ip bn b Hwf Hbm) as (Hc & Hb & Hsl); [lia|done|done|].
      exists (upd i (with_addr bn b) (with_disk s' f)), b, (with_addr bn b ip). rewrite E. cbn [obind].
      split; [done|]. split; [by apply insert_alter|]. split; [done|]. cbn [disk upd with_icache with_disk].
      split; [rewrite Hsl, decide_True; [done|done|unfold NSLOT; lia]|]. split; [done|].
      assert (Hi : ind_block (with_addr bn b ip) = ind_block ip) by (rewrite <- !(slot_ind s'), slot_direct_same by (done || lia); by rewrite decide_False by lia).
      assert (Hi2 : ind_set (with_addr bn b ip) = ind_set ip /\ ind_cost (with_addr bn b ip) = ind_cost ip).
      { unfold ind_set, ind_cost. by rewrite Hi. }
      unfold budget. rewrite (proj1 Hi2), (proj2 Hi2), Es. split; [split; [|lia]|done].
      assert (Hfit2 : fits (disk f) (ind_set ip) (2 + (2 * ind_cost ip + r))) by (eapply fits_weaken; [| |exact Hfit]; [set_solver|lia]).
      eapply fits_weaken; [| |apply (fits_allocated _ _ _ _ _ _ _ Ha Hfit2)]; [set_solver|done].
    + exists f, addr, ip. split; [done|]. split; [by rewrite list_insert_id|]. split; [by apply changed_same|]. split; [done|]. split; [done|].
      destruct Hbud as [Hfit Hfree]. split; [split; [|done]|done]. apply (fits_weaken _ _ ({[addr]} ∪ ind_set ip) _ (2 * ind_cost ip + r)); [done|done|].
      apply fits_add with 1%nat; [by rewrite size_singleton|]. eapply fits_weaken; [| |exact Hfit]; [set_solver|lia].
  - assert (Hj : bn - NDIRECT < NINDIRECT) by (unfold MAXFILE in *; lia). rewrite (proj2 (Z.ltb_lt _ _) Hj).
    destruct (getZ_is_Some (addrs ip) NDIRECT) as [addr Ea]; [by rewrite Hl|]. rewrite Ea. cbn [of_option obind].
    destruct (bmap_ind f i ip addr _ _ Ei Hok Hbm Hwf Hbud) as (f1 & ip1 & E1 & Ei1 & Hc1 & Hnz1 & Hsl1 & [Hfit1 Hfree1] & Hsame);
      [unfold ind_block; by rewrite Ea|]. rewrite E1. clear E1. cbn [obind].
    assert (Ek : bn + 1 = NDIRECT + 1 + (bn - NDIRECT)) by lia. rewrite Ek in *.
    assert (HkN : 0 <= NDIRECT + 1 + (bn - NDIRECT) < NSLOT) by (unfold NSLOT; lia).
    pose proof (Hsl1 _ HkN ltac:(lia)) as Es. pose proof Hc1 as [_ Hok1 Hbm1 Hwf1 _ _ _].
    unfold ind_cost, ind_set in Hfit1, Hfree1. rewrite (proj2 (Z.eqb_neq _ _) Hnz1) in Hfit1, Hfree1.
    destruct (entry_read _ _ (bn - NDIRECT) Hok1 Hbm1 Hwf1 Hnz1) as (s1 & bp & s2 & Er & Ed & E2 & Hs & Hok2); [lia|].
    rewrite Er. cbn [obind]. rewrite Ed, Es. destruct (Z.eqb_spec (slot (disk f) ip (NDIRECT + 1 + (bn - NDIRECT))) 0) as [Hz|Hz].
    + destruct (entry_alloc _ s1 bp _ (bn - NDIRECT) {[ind_block ip1; BBLOCK sb (ind_block ip1)]} r Hok1 Hbm1 Hwf1 Hnz1) as (s3 & b & s4 & s5 & E3 & E4 & E5 & Hc & Hsb & Hb & Hfit & Hfree);
        [lia|by rewrite Es|done|eapply fits_weaken; [| |exact Hfit1]; [set_solver|lia]|set_solver|lia|].
      rewrite E3. cbn [obind]. rewrite E4. cbn [obind]. rewrite E5. cbn [obind].
      exists (with_disk s5 f1), b, ip1. split; [done|]. split; [done|]. split; [by eapply changed_then|]. split; [done|]. split; [done|].
      unfold budget, ind_cost, ind_set. rewrite (proj2 (Z.eqb_neq _ _) Hnz1). cbn [disk with_disk]. split; [split; [|lia]|done].
      eapply fits_weaken; [| |exact Hfit]; [set_solver|lia].
    + cbn [obind]. rewrite E2. cbn [obind]. eexists (with_disk s2 f1), _, ip1. split; [done|]. split; [done|]. split.
      { eapply changed_then; [exact Hc1|]. by apply changed_same. }
      split; [cbn; rewrite <- Es; apply slot_view; intros _; apply Hs|]. split; [done|].
      split; [|intros _; apply Hsame; intros Hi; apply Hz; unfold slot; rewrite Hi; by destruct (_ <=? _) eqn:El; [apply Z.leb_le in El; lia|]].
      apply (budget_same (disk f1)); [done|]. unfold budget, ind_cost, ind_set. rewrite (proj2 (Z.eqb_neq _ _) Hnz1). split; [|lia].
      apply (fits_add _ _ _ 1%nat); [by rewrite size_singleton|]. eapply fits_weaken; [| |exact Hfit1]; [set_solver|lia].
Qed.
(** ** Writing *)

Lemma budget_weaken s ip X Y r r' a a' :
  X ⊆ Y -> (r <= r')%nat -> (a <= a')%nat -> budget s ip Y r' a' -> budget s ip X r a.
Proof.
  intros HX Hr Ha [Hf Hn]. split; [|lia]. eapply fits_weaken; [| |exact Hf]; [set_solver|lia].
Qed.

(** A block of data overwritten. *)
Lemma changed_data s s' ip bn v :
  file_wf s ip -> bitmap_ok sb s ∅ ∅ -> 0 <= bn < MAXFILE -> slot s ip (dslot bn) <> 0 ->
  tchanged s s' (slot s ip (dslot bn)) v -> txn_ok s' ∅ ∅ ->
  changed s s' ip ip (fun x => if decide (x / BSIZE = bn) then v (x mod BSIZE) else content s ip x).
Proof.
  intros Hwf Hbm Hbn Hnz Hc Hok. destruct (dslot_range _ Hbn) as [Hd Hdi]. destruct (fw_good _ _ Hwf _ Hd Hnz) as [Gb _].
  set (b := slot s ip (dslot bn)) in *.
  assert (Hother : forall k, 0 <= k < NSLOT -> k <> dslot bn -> slot s ip k <> 0 -> slot s ip k <> b).
  { intros k Hk Hne Hk0 E. apply Hne. by apply (fw_inj _ _ Hwf). }
  assert (Hsl : forall k, slot s' ip k = slot s ip k).
  { intros k. apply slot_view. intros Hi. apply Hc. apply (Hother NDIRECT); [done|congruence|done]. }
  split; [exists (addrs ip); by destruct ip|done|by apply (bitmap_changed s s' ∅ b v)| | | |].
  - apply (wf_frame s); [done| | |done].
    + intros b' G. by apply (good_changed s s' b v).
    + rewrite (used_changed _ _ _ _ _ Hc); [apply Hwf|]. intros E. apply (gd_map _ _ Gb 0); [pose proof (gd_range _ _ Gb); lia|done].
  - intros k _ _. apply Hsl.
  - intros x Hx. case_decide as E.
    + unfold content. rewrite E, Hsl. fold b. destruct (Z.eqb_spec b 0) as [|_]; [done|]. by rewrite (proj1 Hc).
    + apply content_ext; [apply Hsl|]. intros Hk0. apply Hc. apply Hother; [|intros Ed; by apply E, dslot_inj|done].
      apply dslot_range. split; [apply Z.div_pos; [lia|done]|apply Z.div_lt_upper_bound; [done|lia]].
  - intros b' Hb' _. apply Hc. intros ->. by apply (Hb' (dslot bn) Hd); rewrite Hsl.
Qed.

(** One block of the loop: read, modified, logged and released. *)
Lemma write_block s ip bn o mem src m r a :
  txn_ok s ∅ ∅ -> bitmap_ok sb s ∅ ∅ -> file_wf s ip -> 0 <= bn < MAXFILE -> slot s ip (dslot bn) <> 0 ->
  budget s ip {[slot s ip (dslot bn)]} r a ->
  exists s1 bp s2 s3, tread s (slot s ip (dslot bn)) = Ret (s1, bp) /\
    tlog (tset s1 bp (move_in (tdata s1 bp) o mem src m)) bp = Ret s2 /\ trelse s2 bp = Ret s3 /\
    changed s s3 ip ip (fun x => if decide (x / BSIZE = bn) then move_in (tview s (slot s ip (dslot bn))) o mem src m (x mod BSIZE)
                                 else content s ip x) /\
    budget s3 ip ∅ r a.
Proof.
  intros Hok Hbm Hwf Hbn Hnz [Hfit Hfree]. destruct (dslot_range _ Hbn) as [Hd Hdi]. destruct (fw_good _ _ Hwf _ Hd Hnz) as [Gb _].
  set (b := slot s ip (dslot bn)) in *. pose proof (fits_room _ _ _ Hfit) as Hroom.
  destruct (tread_ok s ∅ ∅ b Hok) as (s1 & bp & E1 & Hok1 & Hat & Hs1 & _);
    [set_solver|by eapply good_FSSIZE|rewrite size_empty; lia|].
  pose proof (tat_ok _ _ _ _ _ Hok1 Hat) as Ed. rewrite (proj1 Hs1) in Ed. set (v := move_in (tview s b) o mem src m).
  destruct (log_held s1 ∅ ∅ b bp v Hok1) as (s2 & s3 & E2 & E3 & Hok3 & Hc & _);
    [set_solver|set_solver|done|apply Hs1; apply Gb|destruct Hs1 as (_ & [-> _] & _); lia|].
  apply (tsame_changed _ _ _ _ _ Hs1) in Hc. exists s1, bp, s2, s3. split; [done|]. split; [by rewrite Ed|].
  split; [done|]. split; [by apply changed_data|]. split.
  - eapply fits_weaken; [| |eapply (fits_changed s s3 _ b v); [|exact Hc|exact Hfit]]; [set_solver|done|set_solver].
  - rewrite (free_same s s3); [done|]. intros b' Hb'. apply (used_changed _ _ _ _ _ Hc). intros E. by apply (gd_map _ _ Gb b').
Qed.
(** Blocks that bytes [off .. off + m) touch, and what writing them may log
    beside the indirect block, its bitmap block and the inode: the block and
    the bitmap block of its allocation, but a write that starts inside a block
    finds that block allocated. *)
Definition touched off (m : Z) : nat := if m <=? 0 then 0%nat else Z.to_nat ((off mod BSIZE + m + BSIZE - 1) / BSIZE).
Definition write_cost off (m : Z) : nat := (2 * touched off m - if (off mod BSIZE =? 0)%Z then 0 else 1)%nat.

Lemma touched_step off m :
  0 <= off -> 0 < m -> let m1 := Z.min m (BSIZE - off mod BSIZE) in
  touched off m = S (touched (off + m1) (m - m1)) /\
  write_cost off m = ((if (off mod BSIZE =? 0)%Z then 2 else 1) + write_cost (off + m1) (m - m1))%nat.
Proof.
  intros Ho Hm m1. assert (HB : BSIZE = 512) by done. pose proof (Z.mod_pos_bound off BSIZE ltac:(done)) as Hmod.
  set (o := off mod BSIZE) in *. assert (Ht : touched off m = S (touched (off + m1) (m - m1))).
  { unfold touched. fold o. rewrite (proj2 (Z.leb_gt m 0)) by lia. destruct (Z.leb_spec (m - m1) 0) as [Hle|Hgt].
    - replace ((o + m + BSIZE - 1) / BSIZE) with 1; [done|]. apply (Z.div_unique_pos _ _ _ (o + m - 1)); lia.
    - assert (E : (off + m1) mod BSIZE = 0).
      { replace (off + m1) with ((off / BSIZE + 1) * BSIZE); [by apply Z.mod_mul|].
        pose proof (Z.div_mod off BSIZE ltac:(done)) as Hq. fold o in Hq. lia. }
      rewrite E. replace (o + m + BSIZE - 1) with (0 + (m - m1) + BSIZE - 1 + 1 * BSIZE) by lia.
      rewrite Z.div_add by done. pose proof (Z.div_pos (0 + (m - m1) + BSIZE - 1) BSIZE). lia. }
  split; [done|]. unfold write_cost. rewrite Ht. fold o. destruct (Z.leb_spec (m - m1) 0) as [Hle|Hgt].
  - assert (Et : touched (off + m1) (m - m1) = 0%nat) by (unfold touched; by rewrite (proj2 (Z.leb_le _ _) Hle)). rewrite Et.
    destruct (o =? 0), (_ =? 0); lia.
  - assert (E : (off + m1) mod BSIZE = 0).
    { replace (off + m1) with ((off / BSIZE + 1) * BSIZE); [by apply Z.mod_mul|].
      pose proof (Z.div_mod off BSIZE ltac:(done)) as Hq. fold o in Hq. lia. }
    rewrite E. destruct (o =? 0); simpl; lia.
Qed.

(** The bytes of the file after a write. *)
Definition spliced s ip (mem : bytes) (src off m x : Z) : Z :=
  if decide (off <= x < off + m) then mem (src + (x - off)) else content s ip x.

Lemma writei_from_ok fuel : forall (f : fs T) mem i ip src off tot n r a,
  icache f !! i = Some ip -> txn_ok (disk f) ∅ ∅ -> bitmap_ok sb (disk f) ∅ ∅ -> file_wf (disk f) ip ->
  0 <= off -> 0 <= tot <= n -> off + (n - tot) <= MAXFILE * BSIZE -> 0 <= src -> src + (n - tot) < 2 ^ 32 ->
  (tot < n -> off mod BSIZE <> 0 -> slot (disk f) ip (dslot (off / BSIZE)) <> 0) ->
  budget (disk f) ip ∅ (write_cost off (n - tot) + r) (touched off (n - tot) + a) ->
  (tot < n -> off + (n - tot) <= (off / BSIZE + Z.of_nat fuel) * BSIZE) ->
  exists f' ip', writei_from sb fuel f mem i src off tot n = Ret (f', off + (n - tot)) /\
    icache f' = <[i := ip']> (icache f) /\
    changed (disk f) (disk f') ip ip' (spliced (disk f) ip mem src off (n - tot)) /\
    (forall bn, off / BSIZE <= bn -> bn * BSIZE < off + (n - tot) -> tot < n -> slot (disk f') ip' (dslot bn) <> 0) /\
    budget (disk f') ip' ∅ r a /\
    ((forall bn, off / BSIZE <= bn -> bn * BSIZE < off + (n - tot) -> slot (disk f) ip (dslot bn) <> 0) -> ip' = ip).
Proof.
  induction fuel as [|fuel IH]; intros f mem i ip src off tot n r a Ei Hok Hbm Hwf Ho Ht Hend Hs0 Hs Hmap Hbud Hfuel;
    cbn [writei_from]; (destruct (Z.ltb_spec tot n) as [Hlt|Hge];
      [|exists f, ip; replace (n - tot) with 0 by lia; split; [by rewrite Z.add_0_r|]; split; [by rewrite list_insert_id|];
        split; [eapply changed_content; [by apply changed_same|]; intros x _; unfold spliced; by rewrite decide_False by lia|];
        split; [lia|]; split; [|done]; eapply budget_weaken; [| | |exact Hbud]; [done|lia|lia]]).
  { pose proof (Z.mul_div_le off BSIZE ltac:(done)). pose proof (Hfuel Hlt). lia. }
  assert (HB : BSIZE = 512) by done.
  pose proof (Z.div_mod off BSIZE ltac:(done)) as Hdm. pose proof (Z.mod_pos_bound off BSIZE ltac:(done)) as Hmb.
  assert (Hbn : 0 <= off / BSIZE < MAXFILE).
  { split; [by apply Z.div_pos|]. apply Z.div_lt_upper_bound; [done|lia]. }
  destruct (touched_step off (n - tot) Ho ltac:(lia)) as [Et Ew].
  set (m := Z.min (n - tot) (BSIZE - off mod BSIZE)) in *. rewrite Et, Ew in Hbud.
  assert (Hm : 0 < m <= BSIZE - off mod BSIZE /\ m <= n - tot) by (unfold m; lia).
  replace (n - tot - m) with (n - (tot + m)) in Hbud by lia.
  set (r1 := (write_cost (off + m) (n - (tot + m)) + r)%nat) in *. set (a1 := (touched (off + m) (n - (tot + m)) + a)%nat) in *.
  destruct (bmap_ok f i ip (off / BSIZE) r1 a1 Ei Hok Hbm Hwf Hbn) as (f1 & b & ip1 & E1 & Ei1 & Hc1 & Hb & Hb0 & Hbud1 & Hsame1).
  { eapply budget_weaken; [| | |exact Hbud]; [done| |]; subst r1 a1; unfold fresh; destruct (Z.eqb_spec (slot (disk f) ip (dslot (off / BSIZE))) 0);
      [destruct (Z.eqb_spec (off mod BSIZE) 0); [lia|by exfalso; apply Hmap]|destruct (_ =? 0); lia|lia|lia]. }
  rewrite E1. cbn [obind]. pose proof Hc1 as [_ Hok1 Hbm1 Hwf1 _ _ _]. subst b.
  destruct (write_block (disk f1) ip1 (off / BSIZE) (off mod BSIZE) mem src m r1 a1) as (s1 & bp & s2 & s3 & E2 & E3 & E4 & Hc2 & Hbud2); [done..|].
  rewrite E2. cbn [obind]. fold m. rewrite E3. cbn [obind]. rewrite E4. cbn [obind].
  rewrite (u32_small (src + m)) by (unfold is_u32; lia).
  pose proof (changed_trans _ _ _ _ _ _ _ _ Hc1 Hc2) as Hc12. pose proof Hc2 as [_ Hok2 Hbm2 Hwf2 Hsl2 _ _].
  destruct (IH (with_disk s3 f1) mem i ip1 (src + m) (off + m) (tot + m) n r a) as (f2 & ip2 & E5 & Ei2 & Hc3 & Hal & Hbud3 & Hsame3); try done; try lia.
  { cbn. rewrite Ei1. apply list_lookup_insert_eq. by eapply lookup_lt_Some. }
  { intros Hl2 Hnz. exfalso. apply Hnz. replace (off + m) with ((off / BSIZE + 1) * BSIZE) by (unfold m; lia). by apply Z.mod_mul. }
  { intros Hl2. assert (Hmm : m = BSIZE - off mod BSIZE) by (unfold m; lia).
    replace (off + m) with ((off / BSIZE + 1) * BSIZE) by lia. rewrite Z.div_mul by done. specialize (Hfuel Hlt). lia. }
  exists f2, ip2. split; [rewrite E5; do 2 f_equal; lia|]. split; [rewrite Ei2; cbn; rewrite Ei1; apply list_insert_insert_eq|].
  assert (Hnext : tot + m < n -> (off + m) / BSIZE = off / BSIZE + 1).
  { intros Hl2. replace (off + m) with ((off / BSIZE + 1) * BSIZE) by (unfold m in *; lia). by rewrite Z.div_mul by done. }
  split; [|split; [|split; [done|]]].
  - eapply changed_content; [exact (changed_trans _ _ _ _ _ _ _ _ Hc12 Hc3)|]. intros x Hx. unfold spliced. cbn [disk with_disk].
    case_decide as D1; [rewrite decide_True by lia; f_equal; lia|]. rewrite (ch_content _ _ _ _ _ Hc2) by done. unfold move_in.
    destruct (decide (off <= x < off + m)) as [D2|D2].
    + destruct (block_part off m (x - off)) as [Q1 Q2]; [lia..|]. replace (off + (x - off)) with x in Q1, Q2 by lia.
      rewrite !decide_True by lia. rewrite (proj2 (Z.leb_le _ _)), (proj2 (Z.ltb_lt _ _)) by lia. cbn [andb]. f_equal. lia.
    + rewrite (decide_False (P := off <= x < off + (n - tot))) by lia. rewrite <- (ch_content _ _ _ _ _ Hc1) by done.
      case_decide as D3; [|done]. unfold content. rewrite D3. rewrite (proj2 (Z.eqb_neq _ _) Hb0).
      destruct (Z.leb_spec (off mod BSIZE) (x mod BSIZE)), (Z.ltb_spec (x mod BSIZE) (off mod BSIZE + m)); simpl; try done.
      exfalso. apply D2. pose proof (Z.div_mod x BSIZE ltac:(done)). rewrite D3 in *. lia.
  - intros bn H1 H2 _. destruct (decide (bn = off / BSIZE)) as [->|Hne].
    + assert (Hd : 0 <= dslot (off / BSIZE) < NSLOT) by (by apply dslot_range).
      cbn [disk with_disk] in Hc3. rewrite (ch_slot _ _ _ _ _ Hc3); rewrite ?(Hsl2 _ Hd Hb0); done.
    + assert (Hl2 : tot + m < n) by (unfold m, BSIZE in *; lia). apply Hal; [rewrite Hnext by done; lia|lia|done].
  - intros Hall. assert (Eip : ip1 = ip) by (apply Hsame1, Hall; [done|lia]). subst ip1. apply Hsame3. intros bn H1 H2. cbn [disk with_disk].
    pose proof (Z.div_le_mono off (off + m) BSIZE ltac:(done) ltac:(lia)).
    assert (Hd : 0 <= dslot bn < NSLOT) by (apply dslot_range; unfold BSIZE in *; lia).
    pose proof (Hall bn ltac:(lia) ltac:(lia)) as Hnz. by rewrite (ch_slot _ _ _ _ _ Hc12 _ Hd Hnz).
Qed.
End write.
End FsWrite.
