(* ===== verification/FsWriteThms.v ===== *)
(** * The xv6 file system: the theorems about writing

    The layout of an inode on the disk, and [writei] followed by [readi]. *)

From S2P Require Import Prelude DfsImage Kalloc Bio Log LogSpec LogThms Txn CString Fs FsThms FsWrite.
Import Fs FsThms FsWrite.
Local Open Scope Z_scope.
Local Open Scope xv6_scope.

Module FsWriteThms.

(** ** The fields of [struct dinode] *)

Definition is_s16 (z : Z) : Prop := - 2 ^ 15 <= z < 2 ^ 15.

Lemma s16_range z : is_s16 (s16 z).
Proof. unfold is_s16, s16. pose proof (Z.mod_pos_bound (z + 2 ^ 15) (2 ^ 16)). lia. Qed.

(** [d'] agrees with [d] outside [a .. a + n). *)
Definition outside (d d' : block) (a n : Z) : Prop := forall x, x < a \/ a + n <= x -> d' x = d x.

Lemma put16_outside d a v : outside d (put16 d a v) a 2.
Proof. intros x Hx. unfold put16. by rewrite !put8_out by lia. Qed.

Lemma put32_outside d a v : outside d (put32 d a v) a 4.
Proof. intros x Hx. by apply put32_out. Qed.

Lemma word16_outside d d' a n b : outside d d' a n -> b + 2 <= a \/ a + n <= b -> word16 d' b = word16 d b.
Proof. intros Ho Hb. unfold word16. by rewrite !Ho by lia. Qed.

Lemma uint32_outside d d' a n b : outside d d' a n -> b + 4 <= a \/ a + n <= b -> uint32 d' b = uint32 d b.
Proof.
  intros Ho Hb. unfold uint32. rewrite (word32_ext d' d b); [done|]. intros k Hk. apply Ho. lia.
Qed.

Lemma word16_put16 d a v : is_s16 v -> s16 (word16 (put16 d a v) a) = v.
Proof.
  intros Hv. unfold word16, put16. rewrite (put8_out _ _ _ a) by lia. unfold put8. rewrite !Z.eqb_refl.
  unfold s16, u8, is_s16 in *. Z.to_euclidean_division_equations. lia.
Qed.

Lemma put_addrs_outside l : forall d a i, outside d (put_addrs d a i l) (off_addr a i) (4 * Z.of_nat (length l)).
Proof.
  induction l as [|b l IH]; intros d a i x Hx; [done|]. cbn [put_addrs length] in *.
  rewrite IH, put32_outside; [done|unfold off_addr in *; lia|unfold off_addr in *; lia].
Qed.

Lemma uint32_put_addrs l : forall d a i k b,
  Forall is_u32 l -> l !! k = Some b -> uint32 (put_addrs d a i l) (off_addr a (i + Z.of_nat k)) = b.
Proof.
  induction l as [|c l IH]; intros d a i [|k] b Hl; try done; apply Forall_cons in Hl as [Hc Hl]; cbn [put_addrs lookup list_lookup].
  - intros [= ->]. rewrite Z.add_0_r. rewrite (uint32_outside _ _ _ _ _ (put_addrs_outside l _ a (i + 1))) by (unfold off_addr; lia).
    by apply uint32_put_eq.
  - intros E. replace (i + Z.of_nat (S k)) with (i + 1 + Z.of_nat k) by lia. by apply IH.
Qed.

(** The values the fields can hold. *)
Record fits_dinode (ip : inode) : Prop := {
  fd_type : is_s16 (type ip); fd_major : is_s16 (major ip); fd_minor : is_s16 (minor ip); fd_nlink : is_s16 (nlink ip);
  fd_size : is_u32 (isize ip); fd_addrs : length (addrs ip) = 13%nat; fd_addr : Forall is_u32 (addrs ip)
}.

(** [ilock] reads back what [iupdate] wrote. *)
Lemma load_store d a ip : fits_dinode ip -> load_inode (store_inode d a ip) a ip = ip.
Proof.
  intros [F1 F2 F3 F4 F5 F6 F7]. unfold store_inode.
  set (d1 := put16 d (off_type a) (type ip)). set (d2 := put16 d1 (off_major a) (major ip)).
  set (d3 := put16 d2 (off_minor a) (minor ip)). set (d4 := put16 d3 (off_nlink a) (nlink ip)).
  set (d5 := put32 d4 (off_size a) (isize ip)).
  pose proof (put_addrs_outside (addrs ip) d5 a 0) as H6. pose proof (put32_outside d4 (off_size a) (isize ip)) as H5.
  pose proof (put16_outside d3 (off_nlink a) (nlink ip)) as H4. pose proof (put16_outside d2 (off_minor a) (minor ip)) as H3.
  pose proof (put16_outside d1 (off_major a) (major ip)) as H2.
  fold d5 in H5. fold d4 in H4. fold d3 in H3. fold d2 in H2.
  destruct ip as [i1 i2 i3 i4 i5 ty mj mn nl sz ad]. cbn [type major minor nlink isize addrs dev inum ref lock valid load_inode] in *.
  unfold load_inode. cbn [dev inum ref lock valid]. f_equal.
  - rewrite (word16_outside _ _ _ _ _ H6), (word16_outside _ _ _ _ _ H5), (word16_outside _ _ _ _ _ H4), (word16_outside _ _ _ _ _ H3),
      (word16_outside _ _ _ _ _ H2) by (unfold off_addr, off_size, off_nlink, off_minor, off_major, off_type; lia). by apply word16_put16.
  - rewrite (word16_outside _ _ _ _ _ H6), (word16_outside _ _ _ _ _ H5), (word16_outside _ _ _ _ _ H4), (word16_outside _ _ _ _ _ H3)
      by (unfold off_addr, off_size, off_nlink, off_minor, off_major, off_type; lia). by apply word16_put16.
  - rewrite (word16_outside _ _ _ _ _ H6), (word16_outside _ _ _ _ _ H5), (word16_outside _ _ _ _ _ H4)
      by (unfold off_addr, off_size, off_nlink, off_minor, off_major, off_type; lia). by apply word16_put16.
  - rewrite (word16_outside _ _ _ _ _ H6), (word16_outside _ _ _ _ _ H5)
      by (unfold off_addr, off_size, off_nlink, off_minor, off_major, off_type; lia). by apply word16_put16.
  - rewrite (uint32_outside _ _ _ _ _ H6) by (unfold off_addr, off_size; lia). by apply uint32_put_eq.
  - apply list_eq. intros k. rewrite list_lookup_fmap. destruct (decide (k < 13)%nat) as [Hk|Hk].
    + rewrite lookup_seqZ_lt by (unfold NDIRECT; lia). destruct (lookup_lt_is_Some_2 ad k ltac:(lia)) as [b Eb]. rewrite Eb. simpl.
      f_equal. by apply (uint32_put_addrs ad d5 a 0 k b).
    + rewrite lookup_seqZ_ge by (unfold NDIRECT; lia). symmetry. apply lookup_ge_None. lia.
Qed.

Lemma load_fits d a ip : fits_dinode (load_inode d a ip).
Proof.
  split; cbn; try apply s16_range; [apply uint32_range|done|].
  apply Forall_forall. intros b Hb. apply list_elem_of_fmap in Hb as (i & -> & _). apply uint32_range.
Qed.

Section write.
Context {T : Type} `{TxnSpec T} (sb : superblock).
Implicit Types (s : T) (b k bn : Z) (ip : inode).

(** The inode on the disk is the one in memory. *)
Definition synced s ip : Prop := load_inode (tview s (IBLOCK sb (inum ip))) (dinode_at (inum ip)) ip = ip.

Lemma synced_fits s ip : synced s ip -> fits_dinode ip.
Proof. intros <-. apply load_fits. Qed.

Lemma iupdate_ok (f : fs T) i ip :
  icache f !! i = Some ip -> txn_ok (disk f) ∅ ∅ -> bitmap_ok sb (disk f) ∅ ∅ -> good sb (disk f) (IBLOCK sb (inum ip)) ->
  (1 <= troom (disk f))%nat ->
  exists s', iupdate sb f i = Ret (with_disk s' f) /\ txn_ok s' ∅ ∅ /\
    tchanged (disk f) s' (IBLOCK sb (inum ip)) (store_inode (tview (disk f) (IBLOCK sb (inum ip))) (dinode_at (inum ip)) ip).
Proof.
  intros Ei Hok Hbm G Hr. unfold iupdate. rewrite Ei. cbn [of_option obind].
  destruct (tread_ok (disk f) ∅ ∅ (IBLOCK sb (inum ip)) Hok) as (s1 & bp & E1 & Hok1 & Hat & Hs1 & _);
    [set_solver|by eapply good_FSSIZE|rewrite size_empty; lia|]. rewrite E1. cbn [obind].
  rewrite (tat_ok _ _ _ _ _ Hok1 Hat), (proj1 Hs1). set (v := store_inode _ _ _).
  destruct (log_held s1 ∅ ∅ _ bp v Hok1) as (s2 & s3 & E2 & E3 & Hok3 & Hc & _);
    [set_solver|set_solver|done|apply Hs1; apply G|destruct Hs1 as (_ & [-> _] & _); lia|].
  rewrite E2. cbn [obind]. rewrite E3. exists s3. split; [done|]. split; [done|]. by apply (tsame_changed _ _ _ _ _ Hs1).
Qed.

(** ** The blocks of a well-formed file are those [readi] finds *)

Lemma file_block_slot s ip bn : slot s ip (dslot bn) <> 0 -> file_block s ip bn = slot s ip (dslot bn).
Proof.
  unfold file_block, slot, dslot. destruct (Z.ltb_spec bn NDIRECT) as [Hd|Hd].
  - by rewrite (proj2 (Z.leb_le _ _)) by lia.
  - rewrite (proj2 (Z.leb_gt (bn + 1) NDIRECT)) by lia. destruct (ind_block ip =? 0); [done|]. intros _. unfold ind_block. do 2 f_equal. lia.
Qed.

Lemma file_wf_ok s ip : file_wf sb s ip -> bitmap_ok sb s ∅ ∅ -> file_ok s ∅ ∅ ip.
Proof.
  intros Hwf Hbm. pose proof (bm_size _ _ _ _ Hbm). pose proof Hwf as [W1 W2 W3 W4 W5 W6 W7]. split; [done|done| |].
  - intros bn Hb1 Hb2. pose proof (W5 bn Hb1 Hb2) as Hnz. rewrite file_block_slot by done.
    destruct (W3 (dslot bn)) as [G _]; [apply dslot_range; unfold BSIZE in *; lia|done|]. pose proof (gd_range _ _ _ G).
    split; [lia|set_solver].
  - intros Hlt a. assert (Hi : ind_block ip <> 0).
    { intros Hi. apply (W5 NDIRECT ltac:(done) Hlt). unfold slot, dslot. cbn. by rewrite Hi. }
    destruct (W3 NDIRECT ltac:(done) Hi) as [G _]. pose proof (gd_range _ _ _ G) as Hr. rewrite slot_ind in Hr. fold (ind_block ip) in a. subst a.
    split; [lia|set_solver].
Qed.

Lemma file_byte_content s ip x : file_wf sb s ip -> 0 <= x < isize ip -> file_byte s ip x = content s ip x.
Proof.
  intros Hwf Hx. assert (Hq : 0 <= x / BSIZE) by (apply Z.div_pos; [lia|done]).
  assert (Hnz : slot s ip (dslot (x / BSIZE)) <> 0) by (apply (fw_holes _ _ _ Hwf); [done|]; pose proof (Z.mul_div_le x BSIZE ltac:(done)); lia).
  unfold file_byte, content. rewrite file_block_slot by done. destruct (Z.eqb_spec (slot s ip (dslot (x / BSIZE))) 0); done.
Qed.

(** [readi] of bytes that lie in the file. *)
Lemma readi_inside devsw_read (f : fs T) mem i ip dst off n :
  icache f !! i = Some ip -> type ip <> T_DEV -> txn_ok (disk f) ∅ ∅ -> file_ok (disk f) ∅ ∅ ip ->
  0 <= off -> 0 <= n -> off + n <= isize ip -> 0 <= dst -> dst + n < 2 ^ 32 ->
  exists s' mem', readi sb devsw_read f mem i dst off n = Ret (with_disk s' f, mem', n) /\ txn_ok s' ∅ ∅ /\ tsame (disk f) s' /\
    forall x, mem' x = if decide (dst <= x < dst + n) then file_byte (disk f) ip (off + (x - dst)) else mem x.
Proof.
  intros Ei Hty Hok Hfile Ho Hn Hend Hd Hdn. pose proof (fo_size _ _ _ _ Hfile) as Hsz. assert (Hmax : MAXFILE * BSIZE = 71680) by done.
  unfold readi. rewrite Ei. cbn [of_option obind]. rewrite (proj2 (Z.eqb_neq _ _) Hty), (proj2 (Z.ltb_ge _ _)) by lia.
  rewrite (u32_small (off + n)) by (unfold is_u32; lia). rewrite !(proj2 (Z.ltb_ge _ _)) by lia. cbn [orb].
  destruct (readi_from_ok sb (io_fuel n) f mem i ip ∅ ∅ dst off 0 n) as (s' & mem' & -> & Hok' & Hs' & Hmem); try done; try lia.
  { rewrite size_empty. lia. }
  { intros _. unfold io_fuel, BSIZE. Z.to_euclidean_division_equations. lia. }
  cbn [obind]. exists s', mem'. rewrite s32_small by (unfold is_s32; lia). do 3 (split; [done|]).
  intros x. rewrite Hmem. by rewrite Z.sub_0_r.
Qed.
(** ** writei *)

(** The last step of a write that grew the file to [z] bytes. *)
Lemma grow_ok (f : fs T) i ip z :
  icache f !! i = Some (with_size z ip) -> txn_ok (disk f) ∅ ∅ -> bitmap_ok sb (disk f) ∅ ∅ -> file_wf sb (disk f) ip ->
  fits_dinode ip -> 0 <= z <= MAXFILE * BSIZE -> (1 <= troom (disk f))%nat ->
  (forall bn, 0 <= bn -> bn * BSIZE < z -> slot (disk f) ip (dslot bn) <> 0) ->
  exists s', iupdate sb f i = Ret (with_disk s' f) /\ txn_ok s' ∅ ∅ /\ bitmap_ok sb s' ∅ ∅ /\ file_wf sb s' (with_size z ip) /\
    synced s' (with_size z ip) /\ (forall k, slot s' (with_size z ip) k = slot (disk f) ip k) /\
    (forall x, 0 <= x < MAXFILE * BSIZE -> content s' (with_size z ip) x = content (disk f) ip x) /\
    (forall b, b <> IBLOCK sb (inum ip) -> tview s' b = tview (disk f) b) /\ (troom (disk f) <= S (troom s'))%nat.
Proof.
  intros Ei Hok Hbm Hwf Hfit Hz Hr Hal. pose proof Hwf as [W1 W2 W3 W4 W5 W6 W7].
  destruct (iupdate_ok f i (with_size z ip) Ei Hok Hbm W6 Hr) as (s' & E & Hok' & Hc). cbn [inum with_size] in Hc.
  exists s'. split; [done|]. split; [done|]. split; [by apply (bitmap_changed _ _ _ ∅ _ _ Hc)|].
  assert (Hsl : forall k, slot s' (with_size z ip) k = slot (disk f) ip k).
  { intros k. change (slot s' (with_size z ip) k) with (slot s' ip k). apply slot_view. intros Hi. apply Hc.
    by apply (W3 NDIRECT). }
  split; [|split; [|split; [done|split; [|split; [|by eapply tchanged_room]]]]].
  - split; cbn [addrs isize inum with_size]; [done|done| | | |by apply (good_changed _ _ _ _ _ _ Hc)|].
    + intros k Hk. rewrite Hsl. intros Hnz. destruct (W3 k Hk Hnz) as [G Hi]. split; [by apply (good_changed _ _ _ _ _ _ Hc)|done].
    + intros k k' Hk Hk'. rewrite !Hsl. by apply W4.
    + intros bn Hb1 Hb2. rewrite Hsl. by apply Hal.
    + rewrite (used_changed _ _ _ _ _ _ Hc); [done|]. intros E0. apply (gd_map _ _ _ W6 0); [pose proof (gd_range _ _ _ W6); lia|done].
  - unfold synced. cbn [inum with_size]. rewrite (proj1 Hc). apply load_store. destruct Hfit as [F1 F2 F3 F4 F5 F6 F7].
    split; cbn; try done. assert (MAXFILE * BSIZE = 71680) by done. unfold is_u32. lia.
  - intros x Hx. unfold content. rewrite Hsl. destruct (Z.eqb_spec (slot (disk f) ip (dslot (x / BSIZE))) 0) as [|Hnz]; [done|].
    rewrite (proj1 (proj2 Hc)); [done|]. apply W3; [|done]. apply dslot_range.
    split; [apply Z.div_pos; [lia|done]|apply Z.div_lt_upper_bound; [done|lia]].
  - intros b Hb. by apply Hc.
Qed.

(** What a successful write of [n] bytes at [off] does. *)
Record wrote s s' ip ip' (mem : bytes) (src off n : Z) : Prop := {
  wr_ip : dev ip' = dev ip /\ inum ip' = inum ip /\ ref ip' = ref ip /\ lock ip' = lock ip /\ valid ip' = valid ip /\
    type ip' = type ip /\ major ip' = major ip /\ minor ip' = minor ip /\ nlink ip' = nlink ip;
  wr_size : isize ip' = Z.max (isize ip) (off + n);
  wr_txn : txn_ok s' ∅ ∅;
  wr_bitmap : bitmap_ok sb s' ∅ ∅;
  wr_wf : file_wf sb s' ip';
  wr_synced : synced s' ip';
  wr_byte x : 0 <= x < isize ip' ->
    file_byte s' ip' x = if decide (off <= x < off + n) then mem (src + (x - off)) else file_byte s ip x;
  wr_frame b : b <> IBLOCK sb (inum ip) -> (forall k, 0 <= k < NSLOT -> slot s' ip' k <> 0 -> b <> slot s' ip' k) ->
    (forall b', 0 <= b' < size sb -> b <> BBLOCK sb b') -> tview s' b = tview s b;
  wr_room : (troom s <= troom s' + (write_cost off n + 3))%nat
}.

Lemma ind_set_size ip : (base.size (ind_set sb ip) + 2 * ind_cost ip <= 2)%nat.
Proof.
  unfold ind_set, ind_cost. destruct (ind_block ip =? 0); [rewrite size_empty; lia|]. rewrite size_union_alt, size_singleton.
  assert (Hd : {[BBLOCK sb (ind_block ip)]} ∖ {[ind_block ip]} ⊆ ({[BBLOCK sb (ind_block ip)]} : gset Z)) by set_solver.
  apply subseteq_size in Hd. rewrite size_singleton in Hd. lia.
Qed.

Lemma start_budget s ip w t : (w + 3 <= troom s)%nat -> (t + 1 <= base.size (free sb s))%nat ->
  budget sb s ip ∅ (w + (troom s - (w + 3))) (t + 0).
Proof.
  intros Hr Hf. pose proof (ind_set_size ip) as Hi. split.
  - unfold fits. assert (Hd : (base.size ((∅ ∪ ind_set sb ip) ∖ tlogged s) <= base.size (ind_set sb ip))%nat) by (apply subseteq_size; set_solver). lia.
  - unfold ind_cost in *. destruct (ind_block ip =? 0); lia.
Qed.

Lemma addrs_u32 s ip : file_wf sb s ip -> bitmap_ok sb s ∅ ∅ -> Forall is_u32 (addrs ip).
Proof.
  intros Hwf Hbm. pose proof (bm_size _ _ _ _ Hbm). apply Forall_lookup. intros k b Eb. pose proof (lookup_lt_Some _ _ _ Eb) as Hk.
  rewrite (fw_addrs _ _ _ Hwf) in Hk. destruct (decide (b = 0)) as [->|Hnz]; [done|].
  assert (Es : slot s ip (Z.of_nat k) = b).
  { unfold slot. rewrite (proj2 (Z.leb_le _ _)) by (unfold NDIRECT; lia). rewrite getZ_nat. by rewrite Eb. }
  destruct (fw_good _ _ _ Hwf (Z.of_nat k)) as [G _]; [split; [lia|]; change NSLOT with 141; lia|by rewrite Es|].
  rewrite Es in G. pose proof (gd_range _ _ _ G). unfold is_u32, FSSIZE in *. lia.
Qed.
Lemma changed_fits s s' ip ip' c : changed sb s s' ip ip' c -> fits_dinode ip -> fits_dinode ip'.
Proof.
  intros Hc Hf. pose proof (addrs_u32 _ _ (ch_wf _ _ _ _ _ _ Hc) (ch_bitmap _ _ _ _ _ _ Hc)) as Hu.
  pose proof (fw_addrs _ _ _ (ch_wf _ _ _ _ _ _ Hc)) as Hl. destruct (ch_ip _ _ _ _ _ _ Hc) as [l E]. subst ip'. by destruct Hf.
Qed.

Lemma writei_ok devsw_write (f : fs T) mem i ip src off n :
  icache f !! i = Some ip -> type ip <> T_DEV -> txn_ok (disk f) ∅ ∅ -> bitmap_ok sb (disk f) ∅ ∅ -> file_wf sb (disk f) ip ->
  synced (disk f) ip -> 0 <= off <= isize ip -> 0 <= n -> off + n <= MAXFILE * BSIZE -> 0 <= src -> src + n < 2 ^ 32 ->
  (write_cost off n + 3 <= troom (disk f))%nat -> (touched off n + 1 <= base.size (free sb (disk f)))%nat ->
  exists f' ip', writei sb devsw_write f mem i src off n = Ret (f', mem, n) /\ icache f' = <[i := ip']> (icache f) /\
    wrote (disk f) (disk f') ip ip' mem src off n.
Proof.
  intros Ei Hty Hok Hbm Hwf Hsync Ho Hn Hend Hsrc Hsn Hroom Hfree. assert (Hmax : MAXFILE * BSIZE = 71680) by done.
  unfold writei. rewrite Ei. cbn [of_option obind]. rewrite (proj2 (Z.eqb_neq _ _) Hty), (proj2 (Z.ltb_ge _ _)) by lia.
  rewrite (u32_small (off + n)) by (unfold is_u32; lia). rewrite !(proj2 (Z.ltb_ge _ _)) by lia. cbn [orb].
  pose proof (start_budget (disk f) ip _ _ Hroom Hfree) as Hbud. set (r0 := (troom (disk f) - (write_cost off n + 3))%nat) in *. assert (Hr0 : r0 = (troom (disk f) - (write_cost off n + 3))%nat) by done. clearbody r0.
  destruct (writei_from_ok sb (io_fuel n) f mem i ip src off 0 n r0 0 Ei Hok Hbm Hwf (proj1 Ho))
    as (f1 & ip1 & E1 & Ei1 & Hc & Hal & Hbud1 & Hsame); rewrite ?Z.sub_0_r; try done; try lia.
  { intros _ Hmod. apply (fw_holes _ _ _ Hwf); [apply Z.div_pos; [lia|done]|].
    pose proof (Z.div_mod off BSIZE ltac:(done)). pose proof (Z.mod_pos_bound off BSIZE ltac:(done)). lia. }
  { intros _. unfold io_fuel, BSIZE. Z.to_euclidean_division_equations. lia. }
  rewrite E1. cbn [obind]. rewrite Ei1, list_lookup_insert_eq by (by eapply lookup_lt_Some). cbn [of_option obind].
  rewrite Z.sub_0_r in *. pose proof (fits_room _ _ _ (proj1 Hbud1)) as Hroom1.
  pose proof Hc as [[l El] Hok1 Hbm1 Hwf1 _ Hcont Hfr]. assert (Esz : isize ip1 = isize ip) by (by rewrite El).
  rewrite Esz. rewrite (s32_small n) by (unfold is_s32; lia).
  assert (Hold : forall x, 0 <= x < isize ip -> spliced (disk f) ip mem src off n x =
            if decide (off <= x < off + n) then mem (src + (x - off)) else file_byte (disk f) ip x).
  { intros x Hx. unfold spliced. case_decide; [done|]. by rewrite file_byte_content. }
  destruct (Z.ltb_spec (isize ip) (off + n)) as [Hgrow|Hnot].
  - rewrite (proj2 (Z.ltb_lt 0 n)) by lia. cbn [andb].
    set (f2 := upd i (with_size (off + n)) f1).
    assert (Ei2 : icache f2 = <[i := with_size (off + n) ip1]> (icache f)).
    { unfold f2. cbn. rewrite (insert_alter _ _ _ ip1), Ei1; [apply list_insert_insert_eq|]. rewrite Ei1. apply list_lookup_insert_eq. by eapply lookup_lt_Some. }
    destruct (grow_ok f2 i ip1 (off + n)) as (s' & E2 & Hok2 & Hbm2 & Hwf2 & Hsy & Hsl & Hc2 & Hv2 & Hr2); try done; try lia.
    { rewrite Ei2. apply list_lookup_insert_eq. by eapply lookup_lt_Some. }
    { eapply changed_fits; [exact Hc|]. by eapply synced_fits. }
    { change (disk f2) with (disk f1). lia. }
    { intros bn Hb1 Hb2. change (disk f2) with (disk f1). destruct (decide (bn * BSIZE < isize ip1)) as [Hlt|Hge]; [by apply Hwf1|].
      apply Hal; [|done|lia]. apply Z.div_le_upper_bound; [done|]. lia. }
    rewrite E2. cbn [obind]. exists (with_disk s' f2), (with_size (off + n) ip1). split; [done|]. split; [done|].
    change (disk (with_disk s' f2)) with s'. change (disk f2) with (disk f1) in *.
    split; [rewrite El; done|cbn; lia|done|done|done|done| | |lia].
    + cbn [isize with_size]. intros x Hx. rewrite file_byte_content by done. rewrite Hc2, Hcont by lia.
      destruct (decide (x < isize ip)); [apply Hold; lia|]. unfold spliced. by rewrite !decide_True by lia.
    + intros b Hb1 Hb2 Hb3. rewrite Hv2 by (rewrite El; done). apply Hfr; [|done]. intros k Hk. rewrite <- Hsl. by apply Hb2.
  - rewrite andb_false_r. cbn [obind]. assert (ip1 = ip) as ->.
    { apply Hsame. intros bn Hb1 Hb2. apply (fw_holes _ _ _ Hwf); [|lia]. pose proof (Z.div_pos off BSIZE ltac:(lia) ltac:(done)). lia. }
    exists f1, ip. split; [done|]. split; [done|]. split; [done|lia|done|done|done| | | |lia].
    + unfold synced. rewrite Hfr; [done| |].
      * intros k Hk Hnz Eq. by apply (fw_good _ _ _ Hwf1 k Hk Hnz).
      * intros b' Hb'. by apply (gd_map _ _ _ (fw_inode _ _ _ Hwf)).
    + intros x Hx. pose proof (fw_size _ _ _ Hwf). rewrite file_byte_content, Hcont by (done || lia). by apply Hold.
    + intros b _. apply Hfr.
Qed.

(** [filewrite] writes at most 1536 bytes in a transaction. *)
Lemma chunk_cost off n : 0 <= n <= 1536 -> (write_cost off n + 3 <= Z.to_nat Log.MAXOPBLOCKS)%nat.
Proof.
  intros Hn. pose proof (Z.mod_pos_bound off BSIZE ltac:(done)) as Hmod. change (Z.to_nat Log.MAXOPBLOCKS) with 10%nat.
  unfold write_cost, touched. destruct (Z.leb_spec n 0); [simpl; lia|].
  assert (Hq : (off mod BSIZE + n + BSIZE - 1) / BSIZE < if off mod BSIZE =? 0 then 4 else 5).
  { apply Z.div_lt_upper_bound; [done|]. destruct (Z.eqb_spec (off mod BSIZE) 0) as [->|]; unfold BSIZE in *; lia. }
  destruct (off mod BSIZE =? 0); lia.
Qed.

(** C5.  [writei] of [n] bytes to a well-formed file fails exactly when the
    offset lies behind the end of the file, or the range wraps around or
    passes the largest file; else, with a free block for each block of the
    range and the indirect block, it returns [n] and the bytes of the file are
    the old ones with those of the buffer in the range, its size and its inode
    on the disk are brought up to date, no block outside the file is touched,
    and [readi] of the range returns what was written.  It logs at most the
    blocks [write_cost] counts and three more, needs no more room in the log
    than that, and for what [filewrite] writes in one transaction this is
    within [MAXOPBLOCKS]. *)
Theorem writei_reads_back devsw_read devsw_write (f : fs T) mem i ip src off n
    (Hi : icache f !! i = Some ip) (Hdev : type ip <> T_DEV) (Hok : txn_ok (disk f) ∅ ∅)
    (Hbm : bitmap_ok sb (disk f) ∅ ∅) (Hwf : file_wf sb (disk f) ip) (Hsync : synced (disk f) ip)
    (Hoff : is_u32 off) (Hn : is_u32 n) (Hsrc : 0 <= src /\ src + n < 2 ^ 32)
    (Hroom : off + n <= MAXFILE * BSIZE -> (write_cost off n + 3 <= troom (disk f))%nat)
    (Hfree : off + n <= MAXFILE * BSIZE -> (touched off n + 1 <= base.size (free sb (disk f)))%nat) :
  (if decide (off <= isize ip /\ off + n <= MAXFILE * BSIZE) then
     exists f' ip', writei sb devsw_write f mem i src off n = Ret (f', mem, n) /\ icache f' = <[i := ip']> (icache f) /\
       wrote (disk f) (disk f') ip ip' mem src off n /\
       forall mem2 dst, 0 <= dst -> dst + n < 2 ^ 32 -> exists f2 mem3,
         readi sb devsw_read f' mem2 i dst off n = Ret (f2, mem3, n) /\
         forall x, mem3 x = if decide (dst <= x < dst + n) then mem (src + (x - dst)) else mem2 x
   else writei sb devsw_write f mem i src off n = Ret (f, mem, -1)) /\
  (n <= 1536 -> (write_cost off n + 3 <= Z.to_nat Log.MAXOPBLOCKS)%nat).
Proof.
  unfold is_u32 in *. assert (Hmax : MAXFILE * BSIZE = 71680) by done. pose proof (fw_size _ _ _ Hwf) as Hsize.
  split; [|intros; apply chunk_cost; lia]. case_decide as Hc.
  - destruct Hc as [Hc1 Hc2]. destruct (writei_ok devsw_write f mem i ip src off n) as (f' & ip' & E & Ei & Hw); try done; try lia; auto.
    exists f', ip'. do 3 (split; [done|]). intros mem2 dst Hd Hdn. pose proof Hw as [Hid Hsz Hok' Hbm' Hwf' _ Hby _ _].
    destruct (readi_inside devsw_read f' mem2 i ip' dst off n) as (s2 & mem3 & E2 & _ & _ & Hmem); try done; try lia.
    { rewrite Ei. apply list_lookup_insert_eq. by eapply lookup_lt_Some. }
    { by apply file_wf_ok. }
    exists (with_disk s2 f'), mem3. split; [done|]. intros x. rewrite Hmem. case_decide; [|done]. rewrite Hby, decide_True by lia. f_equal. lia.
  - unfold writei. rewrite Hi. cbn [of_option obind]. rewrite (proj2 (Z.eqb_neq _ _) Hdev).
    destruct (Z.ltb_spec (isize ip) off); [done|]. cbn [orb]. destruct (decide (off + n < 2 ^ 32)).
    + rewrite (u32_small (off + n)) by (unfold is_u32; lia). rewrite (proj2 (Z.ltb_ge _ _)) by lia. by rewrite (proj2 (Z.ltb_lt _ _)) by lia.
    + assert (E : u32 (off + n) = off + n - 2 ^ 32).
      { unfold u32. replace (off + n) with (off + n - 2 ^ 32 + 1 * 2 ^ 32) at 1 by lia. rewrite Z.mod_add, Z.mod_small by lia. lia. }
      rewrite E. by rewrite (proj2 (Z.ltb_lt _ _)) by lia.
Qed.
End write.
(** ** An instance *)

Section witness.
#[local] Existing Instances FsThms.cache1 FsThms.spec1.

Lemma small_slot s ty z k : 0 <= k < NSLOT -> slot s (small_inode ty z) k = if decide (k = 0) then 59 else 0.
Proof.
  intros Hk. destruct (Z.le_gt_cases k NDIRECT) as [Hle|Hgt].
  - assert (Hall : forallb (fun k => default 0 (getZ (addrs (small_inode ty z)) k) =? if decide (k = 0) then 59 else 0) (seqZ 0 13) = true)
      by (vm_compute; reflexivity).
    rewrite forallb_forall in Hall. unfold slot. rewrite (proj2 (Z.leb_le _ _) Hle). apply Z.eqb_eq, Hall.
    apply list_elem_of_In, elem_of_seqZ. unfold NDIRECT in Hle. lia.
  - unfold slot. rewrite (proj2 (Z.leb_gt _ _) Hgt), decide_False by (unfold NDIRECT in Hgt; lia). done.
Qed.

Lemma small_good ip b : 32 <= b < 60 -> b <> 58 -> good small_sb (small_state ip) b.
Proof.
  intros Hb Hne. split.
  - cbn. lia.
  - rewrite small_used by lia. apply bool_decide_eq_true. lia.
  - apply log_txn_loggable; unfold FSSIZE, LogSpec.in_log; cbn; lia.
  - intros b' Hb'. unfold BBLOCK. cbn in *. rewrite Z.div_small by (unfold BPB, BSIZE; lia). lia.
Qed.

Lemma small_wf ip ty z : 0 <= z <= 512 -> file_wf small_sb (small_state ip) (small_inode ty z).
Proof.
  intros Hz. split.
  - done.
  - cbn. change (MAXFILE * BSIZE) with 71680. lia.
  - intros k Hk. rewrite small_slot by done. case_decide; [|done]. intros _. split; [apply small_good; lia|done].
  - intros k k' Hk Hk'. rewrite !small_slot by done. repeat case_decide; congruence.
  - intros bn Hb1 Hb2. cbn in Hb2. unfold BSIZE in Hb2. assert (bn = 0) as -> by lia. done.
  - change (IBLOCK small_sb (inum (small_inode ty z))) with 32. apply small_good; lia.
  - rewrite small_used by lia. apply bool_decide_eq_true. lia.
Qed.

Lemma small_synced ty z : is_s16 ty -> is_u32 z -> synced small_sb (small_state (small_inode ty z)) (small_inode ty z).
Proof.
  intros Hty Hz. unfold synced. change (IBLOCK small_sb (inum (small_inode ty z))) with 32. rewrite small_view. apply (load_store (fun _ => 0)).
  split; try done. repeat constructor; done.
Qed.

Lemma small_free ip : (3 <= base.size (free small_sb (small_state ip)))%nat.
Proof.
  assert (Hs : list_to_set (seqZ 60 3) ⊆ free small_sb (small_state ip)).
  { intros b. rewrite elem_of_list_to_set, elem_of_seqZ, elem_of_free. intros Hb. rewrite small_used by lia.
    split; [cbn; lia|]. apply bool_decide_eq_false. lia. }
  apply subseteq_size in Hs. by rewrite size_list_to_set in Hs by apply NoDup_seqZ.
Qed.

(** 1000 bytes appended to the file of 10 bytes. *)
Lemma writei_reads_back_witness :
  let f := {| disk := (small_state small_file); icache := [small_file] |} in
  exists f' f2 mem3, writei small_sb (fun _ => None) f u8 0 300 10 1000 = Ret (f', u8, 1000) /\
    readi small_sb (fun _ => None) f' (fun _ => 0) 0 5000 10 1000 = Ret (f2, mem3, 1000) /\ mem3 5999 = 19 /\ mem3 6000 = 0.
Proof.
  intros f. assert (Hty : type small_file <> T_DEV) by done.
  assert (Hw : is_u32 10 /\ is_u32 1000 /\ 0 <= 300 /\ 300 + 1000 < 2 ^ 32) by (unfold is_u32; lia).
  destruct Hw as (Hw1 & Hw2 & Hw3).
  assert (Hz : 0 <= 10 <= 512) by lia. assert (Hs : is_s16 2 /\ is_u32 10) by (unfold is_s16, is_u32; lia). destruct Hs as [Hs Hz'].
  assert (Hr : (write_cost 10 1000 + 3 <= troom (small_state small_file))%nat) by (vm_compute; lia).
  assert (Hf : (touched 10 1000 + 1 <= base.size (free small_sb (small_state small_file)))%nat) by exact (small_free _).
  destruct (writei_reads_back small_sb (fun _ => None) (fun _ => None) f u8 0 small_file 300 10 1000 eq_refl Hty (small_ok _) (small_bitmap _)
    (small_wf _ 2 10 Hz) (small_synced 2 10 Hs Hz') Hw1 Hw2 Hw3 (fun _ => Hr) (fun _ => Hf)) as [Hres _].
  rewrite decide_True in Hres by (change (MAXFILE * BSIZE) with 71680; cbn; lia).
  destruct Hres as (f' & ip' & E & _ & _ & Hread).
  destruct (Hread (fun _ => 0) 5000 ltac:(lia) ltac:(lia)) as (f2 & mem3 & E2 & Hmem).
  exists f', f2, mem3. split; [exact E|]. split; [exact E2|]. clear - Hmem.
  split; [rewrite Hmem, decide_True by lia; reflexivity|rewrite Hmem, decide_False by lia; reflexivity].
Defined.
End witness.
End FsWriteThms.
