(* ===== verification/FsDir.v ===== *)
(** * The xv6 file system: directories

    A directory as the list of its entries; [dirlookup] and [dirlink] against
    that list. *)

From S2P Require Import Prelude DfsImage Kalloc Bio Log LogSpec LogThms Txn CString Fs FsThms FsWrite FsWriteThms.
Import Fs FsThms FsWrite FsWriteThms.
Local Open Scope Z_scope.
Local Open Scope xv6_scope.

Module FsDir.

(** ** Directories as lists *)

(** An entry: the inode number, 0 when the entry is empty, and the name. *)
Notation dent := (Z * list Z)%type.

(** The first entry with a name, by index, with its inode number. *)
Fixpoint find_entry (nm : list Z) (l : list dent) : option (nat * Z) :=
  match l with
  | [] => None
  | (i, w) :: l =>
      if decide (i <> 0 /\ w = nm) then Some (0%nat, i)
      else match find_entry nm l with Some (k, j) => Some (S k, j) | None => None end
  end.

Fixpoint free_entry (l : list dent) : nat :=
  match l with [] => 0%nat | (i, _) :: l => if decide (i = 0) then 0%nat else S (free_entry l) end.

(** A new entry in the first empty place, or at the end. *)
Definition link (nm : list Z) (i : Z) (l : list dent) : list dent :=
  if decide (free_entry l < length l)%nat then <[free_entry l := (i, nm)]> l else l ++ [(i, nm)].

Lemma free_entry_le l : (free_entry l <= length l)%nat.
Proof. induction l as [|[i w] l IH]; simpl; [lia|]. case_decide; lia. Qed.

Lemma free_entry_zero l e : l !! free_entry l = Some e -> e.1 = 0.
Proof.
  induction l as [|[i w] l IH]; simpl; [done|]. case_decide as E; simpl; [|done]. intros [= <-]. done.
Qed.

Lemma link_cons nm i e l : e.1 <> 0 -> link nm i (e :: l) = e :: link nm i l.
Proof.
  destruct e as [j w]. intros He. assert (Ef : free_entry ((j, w) :: l) = S (free_entry l)).
  { cbn. rewrite decide_False; done. }
  unfold link. rewrite Ef. cbn [length].
  destruct (decide (free_entry l < length l)%nat).
  - by rewrite decide_True by lia.
  - by rewrite decide_False by lia.
Qed.

Lemma find_entry_at nm l :
  match find_entry nm l with Some (j, i) => l !! j = Some (i, nm) /\ i <> 0 | None => True end.
Proof.
  induction l as [|[i w] l IH]; cbn [find_entry]; [done|]. case_decide as E; [by destruct E as [? ->]|].
  by destruct (find_entry nm l) as [[j i']|].
Qed.

(** Linking a new name is an insertion in the finite map of the directory. *)
Lemma link_zero nm i w l : link nm i ((0, w) :: l) = (i, nm) :: l.
Proof. unfold link. cbn [free_entry length]. rewrite (decide_True (P := 0 = 0)) by done. by rewrite decide_True by lia. Qed.

Lemma find_skip nm j w l : ~ (j <> 0 /\ w = nm) -> snd <$> find_entry nm ((j, w) :: l) = snd <$> find_entry nm l.
Proof. intros Hne. cbn [find_entry]. rewrite decide_False by done. by destruct (find_entry nm l) as [[? ?]|]. Qed.

Lemma find_here nm j w l : j <> 0 -> w = nm -> snd <$> find_entry nm ((j, w) :: l) = Some j.
Proof. intros Hj ->. cbn [find_entry]. by rewrite decide_True. Qed.

(** Linking a new name is an insertion in the finite map of the directory. *)
Lemma find_link nm i l nm' :
  i <> 0 -> find_entry nm l = None ->
  snd <$> find_entry nm' (link nm i l) = if decide (nm' = nm) then Some i else snd <$> find_entry nm' l.
Proof.
  intros Hi. induction l as [|[j w] l IH]; intros Hno.
  - change (link nm i []) with [(i, nm)]. case_decide; [by apply find_here|]. rewrite find_skip; [done|]. naive_solver.
  - destruct (decide (j = 0)) as [->|Hj].
    + rewrite link_zero. case_decide as E; [by apply find_here|]. rewrite !find_skip; naive_solver.
    + rewrite link_cons by done. assert (Hw : w <> nm) by (intros ->; cbn [find_entry] in Hno; by rewrite decide_True in Hno).
      assert (Hno' : find_entry nm l = None).
      { cbn [find_entry] in Hno. rewrite decide_False in Hno by naive_solver. by destruct (find_entry nm l) as [[? ?]|]. }
      destruct (decide (w = nm')) as [->|Hw'].
      * rewrite !find_here by done. by rewrite decide_False.
      * rewrite !find_skip by naive_solver. by apply IH.
Qed.

Lemma lookup_link nm i l k :
  link nm i l !! k = if decide (k = free_entry l) then Some (i, nm) else l !! k.
Proof.
  unfold link. pose proof (free_entry_le l). case_decide as E.
  - case_decide as Ek; [subst; by rewrite list_lookup_insert_eq|by rewrite list_lookup_insert_ne].
  - assert (Ef : free_entry l = length l) by lia. case_decide as Ek.
    + rewrite Ek, Ef, lookup_app_r, Nat.sub_diag by lia. done.
    + destruct (decide (k < length l)%nat); [by rewrite lookup_app_l|]. rewrite lookup_app_r by lia.
      rewrite !lookup_ge_None_2; [done|lia|simpl; lia].
Qed.

Lemma length_link nm i l : length (link nm i l) = Nat.max (length l) (S (free_entry l)).
Proof.
  unfold link. pose proof (free_entry_le l). case_decide; rewrite ?length_insert, ?length_app; simpl; lia.
Qed.

(** ** Strings *)

(** The two loops of [strncmp] and of [cstr_take] walk together. *)
Lemma strncmp_zero m p q n : CString.strncmp m p q n = 0 <-> CString.cstr_take m p n = CString.cstr_take m q n.
Proof.
  revert p q. induction n as [|n IH]; intros p q; simpl; [done|].
  destruct (Z.eqb_spec (m p) 0) as [Ep|Ep]; simpl.
  - destruct (Z.eqb_spec (m q) 0); split; intros; try done; lia.
  - destruct (Z.eqb_spec (m p) (m q)) as [E|E].
    + rewrite IH, <- E, (proj2 (Z.eqb_neq _ _) Ep). split; [by intros ->|by intros [= ->]].
    + destruct (Z.eqb_spec (m q) 0) as [Eq|Eq]; split; intros Hx; try done; try lia. injection Hx. lia.
Qed.

Lemma cstr_take_shift m m' a b n :
  (forall j, 0 <= j < Z.of_nat n -> m (a + j) = m' (b + j)) -> CString.cstr_take m a n = CString.cstr_take m' b n.
Proof.
  revert a b. induction n as [|n IH]; intros a b Hm; simpl; [done|].
  pose proof (Hm 0 ltac:(lia)) as H0. rewrite !Z.add_0_r in H0. rewrite H0. destruct (m' b =? 0); [done|]. f_equal.
  apply IH. intros j Hj. rewrite <- !Z.add_assoc. apply Hm. lia.
Qed.

Lemma pad_spec n : forall m s x, CString.pad m s n x = if decide (s <= x < s + Z.of_nat n) then 0 else m x.
Proof.
  induction n as [|n IH]; intros m s x; cbn [CString.pad]; [by rewrite decide_False by lia|]. rewrite IH.
  repeat case_decide; try lia; try done; unfold put8; destruct (Z.eqb_spec x s); done || lia.
Qed.

Lemma strncpy_ok n : forall m s t,
  CString.bytes_ok m -> CString.apart s t (Z.of_nat n) ->
  CString.cstr_take (CString.strncpy m s t n) s n = CString.cstr_take m t n /\
  CString.bytes_ok (CString.strncpy m s t n) /\
  forall x, x < s \/ s + Z.of_nat n <= x -> CString.strncpy m s t n x = m x.
Proof.
  induction n as [|n IH]; intros m s t Hm Hap; [done|]. unfold CString.strncpy. cbn [CString.copy_str].
  assert (Hs : forall x, put8 m s (m t) x = if decide (x = s) then m t else m x) by (intros x; by apply CString.put8_self).
  destruct (Z.eqb_spec (m t) 0) as [Et|Et].
  - split; [|split].
    + cbn [CString.cstr_take]. rewrite Et, pad_spec, decide_False by lia. rewrite <- Et. rewrite Hs, decide_True by done. by rewrite Et.
    + intros x. rewrite pad_spec. case_decide; [done|by apply CString.put8_ok].
    + intros x Hx. rewrite pad_spec, decide_False by lia. rewrite Hs. by rewrite decide_False by lia.
  - destruct (IH (put8 m s (m t)) (s + 1) (t + 1)) as (I1 & I2 & I3); [by apply CString.put8_ok|unfold CString.apart in *; lia|].
    fold (CString.strncpy (put8 m s (m t)) (s + 1) (t + 1) n). split; [|split; [done|]].
    + cbn [CString.cstr_take]. rewrite I3 by lia. rewrite Hs, decide_True by done. rewrite (proj2 (Z.eqb_neq _ _) Et). f_equal.
      rewrite I1. apply CString.cstr_take_ext. intros x Hx. rewrite Hs, decide_False; [done|]. unfold CString.apart in Hap. lia.
    + intros x Hx. rewrite I3 by lia. rewrite Hs. by rewrite decide_False by lia.
Qed.
(** ** Directories on the disk *)

Section dir.
Context {T : Type} `{TxnSpec T} (sb : superblock).
Context (devsw_read : Z -> option (fs T -> bytes -> nat -> Z -> Z -> outcome (fs T * bytes * Z))).
Implicit Types (s : T) (ip : inode) (k : Z).

(** Entry [k] of a directory, and the [n] entries from [k] on. *)
Definition ent s ip k : dent :=
  (word16 (file_byte s ip) (SIZEOF_DIRENT * k), CString.cstr_take (file_byte s ip) (SIZEOF_DIRENT * k + 2) DIRSIZ).
Definition dents s ip k (n : Z) : list dent := ent s ip <$> seqZ k n.
Definition entries s ip : list dent := dents s ip 0 (isize ip / SIZEOF_DIRENT).

Lemma dents_cons s ip k n : 0 < n -> dents s ip k n = ent s ip k :: dents s ip (k + 1) (n - 1).
Proof. intros Hn. unfold dents. rewrite seqZ_cons by done. cbn [fmap list_fmap]. by rewrite <- Z.add_1_r, <- Z.sub_1_r. Qed.

Lemma dents_same s s' ip k n : tsame s s' -> dents s' ip k n = dents s ip k n.
Proof.
  intros Hs. assert (Hb : forall x, file_byte s' ip x = file_byte s ip x).
  { intros x. unfold file_byte. by rewrite (file_block_same _ _ _ _ Hs), (proj1 Hs). }
  apply list_fmap_ext. intros _ j _. apply (f_equal2 pair); [unfold word16; by rewrite !Hb|].
  apply CString.cstr_take_ext. intros x _. apply Hb.
Qed.

(** The inode is a directory whose bytes are bytes. *)
Record dir_ok s ip : Prop := {
  do_type : type ip = T_DIR;
  do_file : file_ok s ∅ ∅ ip;
  do_size : (SIZEOF_DIRENT | isize ip);
  do_bytes x : 0 <= x < isize ip -> is_u8 (file_byte s ip x)
}.

Lemma dir_ok_same s s' ip : tsame s s' -> dir_ok s ip -> dir_ok s' ip.
Proof.
  intros Hs [D1 D2 D3 D4]. split; [done|by apply (file_ok_same s)|done|]. intros x Hx.
  unfold file_byte. rewrite (file_block_same _ _ _ _ Hs), (proj1 Hs). by apply D4.
Qed.

(** What a scan leaves: the disk as it was, and memory outside the entry [de]. *)
Definition scanned s s' (mem mem' : bytes) (de : Z) : Prop :=
  txn_ok s' ∅ ∅ /\ tsame s s' /\ (CString.bytes_ok mem -> CString.bytes_ok mem') /\
  forall x, x < de \/ de + SIZEOF_DIRENT <= x -> mem' x = mem x.

Lemma scanned_trans s0 s1 s2 m0 m1 m2 de : scanned s0 s1 m0 m1 de -> scanned s1 s2 m1 m2 de -> scanned s0 s2 m0 m2 de.
Proof.
  intros (_ & A1 & A2 & A3) (B0 & B1 & B2 & B3). split; [done|]. split; [by eapply tsame_trans|]. split; [auto|].
  intros x Hx. by rewrite B3, A3.
Qed.

Lemma read_entry (f : fs T) mem dp ip de k :
  icache f !! dp = Some ip -> txn_ok (disk f) ∅ ∅ -> dir_ok (disk f) ip -> 0 <= k -> SIZEOF_DIRENT * k < isize ip ->
  0 <= de -> de + SIZEOF_DIRENT < 2 ^ 32 ->
  exists s' mem', readi sb devsw_read f mem dp de (SIZEOF_DIRENT * k) SIZEOF_DIRENT = Ret (with_disk s' f, mem', SIZEOF_DIRENT) /\
    scanned (disk f) s' mem mem' de /\ (word16 mem' de, CString.cstr_take mem' (de + 2) DIRSIZ) = ent (disk f) ip k.
Proof.
  intros Ei Hok [D1 D2 [z D3] D4] Hk Hlt Hd Hdn. assert (HS : SIZEOF_DIRENT = 16) by done.
  destruct (readi_inside sb devsw_read f mem dp ip de (SIZEOF_DIRENT * k) SIZEOF_DIRENT) as (s' & mem' & E & Hok' & Hs & Hmem);
    try done; try lia; [by rewrite D1|].
  exists s', mem'. split; [done|]. split; [split; [done|split; [done|split]]|].
  - intros Hm x. rewrite Hmem. case_decide; [apply D4; lia|apply Hm].
  - intros x Hx. rewrite Hmem. by rewrite decide_False by lia.
  - apply (f_equal2 pair).
    + unfold word16. rewrite !Hmem, !decide_True by lia. do 3 f_equal; lia.
    + apply cstr_take_shift. intros j Hj. unfold DIRSIZ in Hj. rewrite Hmem, decide_True by lia. f_equal. lia.
Qed.

Definition clear_of (de name : Z) : Prop := name + Z.of_nat DIRSIZ <= de \/ de + SIZEOF_DIRENT <= name.

Lemma scanned_name s s' mem mem' de name :
  scanned s s' mem mem' de -> clear_of de name -> CString.cstr_take mem' name DIRSIZ = CString.cstr_take mem name DIRSIZ.
Proof. intros (_ & _ & _ & Hm) Hc. apply CString.cstr_take_ext. intros x Hx. apply Hm. unfold clear_of in Hc. lia. Qed.

Lemma dirlookup_from_ok fuel : forall (f : fs T) mem dp ip name de k,
  icache f !! dp = Some ip -> txn_ok (disk f) ∅ ∅ -> dir_ok (disk f) ip -> 0 <= k -> SIZEOF_DIRENT * k <= isize ip ->
  isize ip <= SIZEOF_DIRENT * (k + Z.of_nat fuel) -> 0 <= de -> de + SIZEOF_DIRENT < 2 ^ 32 -> clear_of de name ->
  exists s' mem', scanned (disk f) s' mem mem' de /\
    dirlookup_from sb devsw_read fuel f mem dp name de (SIZEOF_DIRENT * k) =
    match find_entry (CString.cstr_take mem name DIRSIZ) (dents (disk f) ip k (isize ip / SIZEOF_DIRENT - k)) with
    | None => Ret (with_disk s' f, mem', None)
    | Some (j, ino) =>
        let* (f, i) := iget (with_disk s' f) (dev ip) ino in Ret (f, mem', Some (i, SIZEOF_DIRENT * (k + Z.of_nat j)))
    end.
Proof.
  assert (HS : SIZEOF_DIRENT = 16) by done.
  induction fuel as [|fuel IH]; intros f mem dp ip name de k Ei Hok Hdir Hk Hle Hfuel Hd Hdn Hc; cbn [dirlookup_from];
    rewrite Ei; cbn [of_option obind]; (destruct (Z.ltb_spec (SIZEOF_DIRENT * k) (isize ip)) as [Hlt|Hge];
      [|exists (disk f), mem; split; [split; [done|split; [apply tsame_refl|done]]|];
        assert (Hz : isize ip / SIZEOF_DIRENT - k = 0) by (rewrite HS in *; Z.to_euclidean_division_equations; lia); rewrite Hz; by destruct f]).
  { lia. }
  assert (Hn : 0 < isize ip / SIZEOF_DIRENT - k).
  { destruct (do_size _ _ Hdir) as [z Ez]. rewrite Ez, HS in *. rewrite Z.div_mul by done. lia. }
  assert (Hnext : SIZEOF_DIRENT * (k + 1) <= isize ip) by (destruct (do_size _ _ Hdir) as [z Ez]; rewrite Ez, HS in *; lia).
  destruct (read_entry f mem dp ip de k Ei Hok Hdir Hk Hlt Hd Hdn) as (s1 & mem1 & -> & Hsc & He). cbn [obind].
  rewrite Z.eqb_refl. cbn [negb]. rewrite (dents_cons _ _ _ _ Hn), <- He. cbn [find_entry].
  assert (Hcmp : namecmp mem1 name (de + 2) = 0 <-> CString.cstr_take mem1 (de + 2) DIRSIZ = CString.cstr_take mem name DIRSIZ).
  { unfold namecmp. rewrite strncmp_zero, (scanned_name _ _ _ _ _ _ Hsc Hc). split; by intros ->. }
  pose proof Hsc as (Hok1 & Hs1 & _ & _).
  destruct (IH (with_disk s1 f) mem1 dp ip name de (k + 1)) as (s2 & mem2 & Hsc2 & E2); try done; try lia; try (by apply (dir_ok_same (disk f))).
  cbn [disk with_disk] in *. rewrite (dents_same _ _ _ _ _ Hs1), (scanned_name _ _ _ _ _ _ Hsc Hc) in E2.
  replace (isize ip / SIZEOF_DIRENT - (k + 1)) with (isize ip / SIZEOF_DIRENT - k - 1) in E2 by lia.
  replace (SIZEOF_DIRENT * (k + 1)) with (SIZEOF_DIRENT * k + SIZEOF_DIRENT) in E2 by lia.
  assert (Hskip : exists s' mem', scanned (disk f) s' mem mem' de /\
            dirlookup_from sb devsw_read fuel (with_disk s1 f) mem1 dp name de (SIZEOF_DIRENT * k + SIZEOF_DIRENT) =
            match match find_entry (CString.cstr_take mem name DIRSIZ) (dents (disk f) ip (k + 1) (isize ip / SIZEOF_DIRENT - k - 1)) with
                  | Some (k0, j) => Some (S k0, j) | None => None end with
            | None => Ret (with_disk s' f, mem', None)
            | Some (j, ino) => let* (f, i) := iget (with_disk s' f) (dev ip) ino in Ret (f, mem', Some (i, SIZEOF_DIRENT * (k + Z.of_nat j)))
            end).
  { exists s2, mem2. split; [by eapply scanned_trans|]. rewrite E2. destruct (find_entry _ _) as [[j ino]|]; [|done].
    replace (k + 1 + Z.of_nat j) with (k + Z.of_nat (S j)) by lia. done. }
  destruct (Z.eqb_spec (word16 mem1 de) 0) as [Ez|Ez]; [by rewrite decide_False by naive_solver|].
  destruct (Z.eqb_spec (namecmp mem1 name (de + 2)) 0) as [En|En].
  - rewrite decide_True by (split; [done|by apply Hcmp]). exists s1, mem1. split; [done|]. by rewrite Z.add_0_r.
  - rewrite decide_False by (intros [_ Eq]; by apply En, Hcmp). done.
Qed.
Lemma empty_entry_ok fuel : forall (f : fs T) mem dp ip de k,
  icache f !! dp = Some ip -> txn_ok (disk f) ∅ ∅ -> dir_ok (disk f) ip -> 0 <= k -> SIZEOF_DIRENT * k <= isize ip ->
  isize ip <= SIZEOF_DIRENT * (k + Z.of_nat fuel) -> 0 <= de -> de + SIZEOF_DIRENT < 2 ^ 32 ->
  exists s' mem', scanned (disk f) s' mem mem' de /\
    empty_entry sb devsw_read fuel f mem dp de (SIZEOF_DIRENT * k) =
    Ret (with_disk s' f, mem', SIZEOF_DIRENT * (k + Z.of_nat (free_entry (dents (disk f) ip k (isize ip / SIZEOF_DIRENT - k))))).
Proof.
  assert (HS : SIZEOF_DIRENT = 16) by done.
  induction fuel as [|fuel IH]; intros f mem dp ip de k Ei Hok Hdir Hk Hle Hfuel Hd Hdn; cbn [empty_entry];
    rewrite Ei; cbn [of_option obind]; (destruct (Z.ltb_spec (SIZEOF_DIRENT * k) (isize ip)) as [Hlt|Hge];
      [|exists (disk f), mem; split; [split; [done|split; [apply tsame_refl|done]]|];
        assert (Hz : isize ip / SIZEOF_DIRENT - k = 0) by (rewrite HS in *; Z.to_euclidean_division_equations; lia);
        rewrite Hz; cbn [dents]; rewrite Z.add_0_r; by destruct f]).
  { lia. }
  assert (Hn : 0 < isize ip / SIZEOF_DIRENT - k).
  { destruct (do_size _ _ Hdir) as [z Ez]. rewrite Ez, HS in *. rewrite Z.div_mul by done. lia. }
  assert (Hnext : SIZEOF_DIRENT * (k + 1) <= isize ip) by (destruct (do_size _ _ Hdir) as [z Ez]; rewrite Ez, HS in *; lia).
  destruct (read_entry f mem dp ip de k Ei Hok Hdir Hk Hlt Hd Hdn) as (s1 & mem1 & -> & Hsc & He). cbn [obind].
  rewrite Z.eqb_refl. cbn [negb]. rewrite (dents_cons _ _ _ _ Hn), <- He. cbn [free_entry].
  pose proof Hsc as (Hok1 & Hs1 & _ & _). destruct (Z.eqb_spec (word16 mem1 de) 0) as [Ez|Ez].
  - rewrite decide_True by done. exists s1, mem1. split; [done|]. by rewrite Z.add_0_r.
  - rewrite decide_False by done.
    destruct (IH (with_disk s1 f) mem1 dp ip de (k + 1)) as (s2 & mem2 & Hsc2 & E2); try done; try lia; try (by apply (dir_ok_same (disk f))).
    cbn [disk with_disk] in *. rewrite (dents_same _ _ _ _ _ Hs1) in E2.
    replace (isize ip / SIZEOF_DIRENT - (k + 1)) with (isize ip / SIZEOF_DIRENT - k - 1) in E2 by lia.
    replace (SIZEOF_DIRENT * (k + 1)) with (SIZEOF_DIRENT * k + SIZEOF_DIRENT) in E2 by lia.
    exists s2, mem2. split; [by eapply scanned_trans|]. rewrite E2. do 3 f_equal. lia.
Qed.

(** *** The calls *)

Lemma dirlookup_ok (f : fs T) mem dp ip name de :
  icache f !! dp = Some ip -> txn_ok (disk f) ∅ ∅ -> dir_ok (disk f) ip -> 0 <= de -> de + SIZEOF_DIRENT < 2 ^ 32 -> clear_of de name ->
  exists s' mem', scanned (disk f) s' mem mem' de /\
    dirlookup sb devsw_read f mem dp name de =
    match find_entry (CString.cstr_take mem name DIRSIZ) (entries (disk f) ip) with
    | None => Ret (with_disk s' f, mem', None)
    | Some (j, ino) => let* (f, i) := iget (with_disk s' f) (dev ip) ino in Ret (f, mem', Some (i, SIZEOF_DIRENT * Z.of_nat j))
    end.
Proof.
  intros Ei Hok Hdir Hd Hdn Hc. unfold dirlookup. rewrite Ei. cbn [of_option obind]. rewrite (do_type _ _ Hdir). cbn [negb Z.eqb T_DIR].
  pose proof (fo_size _ _ _ _ (do_file _ _ Hdir)) as Hsz.
  destruct (dirlookup_from_ok (dir_fuel ip) f mem dp ip name de 0) as (s' & mem' & Hsc & E); try done; try lia.
  { unfold dir_fuel, SIZEOF_DIRENT. Z.to_euclidean_division_equations. lia. }
  exists s', mem'. split; [done|]. rewrite Z.mul_0_r in E. rewrite Pos.eqb_refl. cbn [negb]. rewrite E, Z.sub_0_r. done.
Qed.

(** The entry [dirlink] writes. *)
Lemma new_entry mem name de ino :
  CString.bytes_ok mem -> clear_of de name -> 0 <= ino < 2 ^ 16 ->
  let mem' := put16 (CString.strncpy mem (de + 2) name DIRSIZ) de ino in
  (word16 mem' de, CString.cstr_take mem' (de + 2) DIRSIZ) = (ino, CString.cstr_take mem name DIRSIZ) /\
  CString.bytes_ok mem' /\ forall x, x < de \/ de + SIZEOF_DIRENT <= x -> mem' x = mem x.
Proof.
  intros Hm Hc Hi mem'. assert (Hap : CString.apart (de + 2) name (Z.of_nat DIRSIZ)).
  { unfold CString.apart, clear_of, SIZEOF_DIRENT, DIRSIZ in *. lia. }
  destruct (strncpy_ok DIRSIZ mem (de + 2) name Hm Hap) as (N1 & N2 & N3). set (m1 := CString.strncpy mem (de + 2) name DIRSIZ) in *.
  pose proof (put16_outside m1 de ino) as Ho. fold mem' in Ho. split; [|split].
  - apply (f_equal2 pair); [|rewrite <- N1; apply CString.cstr_take_ext; intros x Hx; apply Ho; lia].
    unfold mem', word16, put16. rewrite (put8_out _ _ _ de) by lia. unfold put8. rewrite !Z.eqb_refl. unfold u8.
    Z.to_euclidean_division_equations. lia.
  - intros x. unfold mem', put16. apply CString.put8_ok, CString.put8_ok, N2.
  - intros x Hx. unfold SIZEOF_DIRENT in *. change (Z.of_nat DIRSIZ) with 14 in N3. rewrite Ho, N3 by lia. done.
Qed.
Lemma entry_cost k : (write_cost (SIZEOF_DIRENT * k) SIZEOF_DIRENT + 3 <= 5)%nat /\ touched (SIZEOF_DIRENT * k) SIZEOF_DIRENT = 1%nat.
Proof.
  assert (Ht : touched (SIZEOF_DIRENT * k) SIZEOF_DIRENT = 1%nat).
  { unfold touched, SIZEOF_DIRENT, BSIZE. cbn [Z.leb]. change 1%nat with (Z.to_nat 1). f_equal. Z.to_euclidean_division_equations. lia. }
  split; [|done]. unfold write_cost. rewrite Ht. lia.
Qed.

Lemma synced_same s s' ip : tsame s s' -> synced sb s ip -> synced sb s' ip.
Proof. intros (Hv & _). unfold synced. by rewrite Hv. Qed.

Lemma lookup_dents s ip k n j : dents s ip k n !! j = if decide (Z.of_nat j < n) then Some (ent s ip (k + Z.of_nat j)) else None.
Proof.
  unfold dents. rewrite list_lookup_fmap. case_decide; [by rewrite lookup_seqZ_lt by lia|by rewrite lookup_seqZ_ge by lia].
Qed.

Lemma length_entries s ip : length (entries s ip) = Z.to_nat (isize ip / SIZEOF_DIRENT).
Proof. unfold entries, dents. by rewrite length_fmap, length_seqZ. Qed.

Lemma ent_ext s' ip' k (m : bytes) a :
  (forall o, 0 <= o < SIZEOF_DIRENT -> file_byte s' ip' (SIZEOF_DIRENT * k + o) = m (a + o)) ->
  ent s' ip' k = (word16 m a, CString.cstr_take m (a + 2) DIRSIZ).
Proof.
  intros Hb. apply (f_equal2 pair).
  - unfold word16. pose proof (Hb 0 ltac:(done)) as H0'. rewrite !Z.add_0_r in H0'. rewrite H0'. by rewrite Hb by done.
  - apply cstr_take_shift. intros j Hj. rewrite <- !Z.add_assoc. apply Hb. unfold DIRSIZ, SIZEOF_DIRENT in *. lia.
Qed.

(** The directory after an entry is written in its first empty place. *)
Lemma entries_wrote s s' ip ip' mem de nm ino :
  let l := entries s ip in let off := SIZEOF_DIRENT * Z.of_nat (free_entry l) in
  dir_ok s ip -> wrote sb s s' ip ip' mem de off SIZEOF_DIRENT ->
  (word16 mem de, CString.cstr_take mem (de + 2) DIRSIZ) = (ino, nm) -> CString.bytes_ok mem ->
  entries s' ip' = link nm ino l /\ dir_ok s' ip'.
Proof.
  intros l off [D1 D2 [z D3] D4] Hw He Hm. assert (HS : SIZEOF_DIRENT = 16) by done.
  pose proof (fo_size _ _ _ _ D2) as Hsz.
  assert (Hz : isize ip / SIZEOF_DIRENT = z) by (rewrite D3; by apply Z.div_mul).
  assert (Hll : length l = Z.to_nat z) by (unfold l; by rewrite length_entries, Hz).
  pose proof (free_entry_le l) as Hfe. set (fe := free_entry l) in *. destruct Hw as [W1 W2 W3 W4 W5 W6 W7 W8 W9].
  assert (Hsz' : isize ip' = SIZEOF_DIRENT * Z.max z (Z.of_nat fe + 1)) by (unfold off in W2; lia).
  assert (Hz' : isize ip' / SIZEOF_DIRENT = Z.max z (Z.of_nat fe + 1)) by (rewrite Hsz', Z.mul_comm; by apply Z.div_mul).
  split.
  - apply list_eq. intros j. rewrite lookup_link. fold fe. unfold entries. rewrite lookup_dents, Hz', Z.add_0_l.
    destruct (decide (j = fe)) as [->|Hne].
    + rewrite decide_True by lia. apply (f_equal Some). rewrite <- He. apply ent_ext. intros o Ho. rewrite W7 by lia.
      unfold off. rewrite decide_True by lia. f_equal. lia.
    + unfold l, entries. rewrite lookup_dents, Hz, Z.add_0_l. destruct (decide (Z.of_nat j < z)) as [Hj|Hj].
      * rewrite decide_True by lia. apply (f_equal Some). unfold ent at 2. apply ent_ext. intros o Ho. rewrite W7 by lia.
        by rewrite decide_False by (unfold off; lia).
      * by rewrite decide_False by lia.
  - split; [|by apply (file_wf_ok sb)|exists (Z.max z (Z.of_nat fe + 1)); lia|].
    + destruct W1 as (_ & _ & _ & _ & _ & Ht & _). by rewrite Ht.
    + intros x Hx. rewrite W7 by done. case_decide; [apply Hm|apply D4]. unfold off in *. lia.
Qed.

(** [dirlookup] of a directory finds the first entry in use with the
    name, cut at [DIRSIZ] bytes: it returns the inode [iget] gives for the
    entry's number, with the offset of the entry, and 0 exactly when no entry
    has the name; the directory stays as it was and of the memory only the
    local entry changes. *)
Theorem dirlookup_finds (f : fs T) mem dp ip name de
    (Hi : icache f !! dp = Some ip) (Hok : txn_ok (disk f) ∅ ∅) (Hdir : dir_ok (disk f) ip)
    (Hde : 0 <= de /\ de + SIZEOF_DIRENT < 2 ^ 32) (Hclear : clear_of de name) :
  exists s' mem', scanned (disk f) s' mem mem' de /\
    match find_entry (CString.cstr_take mem name DIRSIZ) (entries (disk f) ip) with
    | None => dirlookup sb devsw_read f mem dp name de = Ret (with_disk s' f, mem', None)
    | Some (j, ino) =>
        entries (disk f) ip !! j = Some (ino, CString.cstr_take mem name DIRSIZ) /\ ino <> 0 /\
        dirlookup sb devsw_read f mem dp name de =
          let* (f, i) := iget (with_disk s' f) (dev ip) ino in Ret (f, mem', Some (i, SIZEOF_DIRENT * Z.of_nat j))
    end.
Proof.
  destruct (dirlookup_ok f mem dp ip name de Hi Hok Hdir (proj1 Hde) (proj2 Hde) Hclear) as (s' & mem' & Hsc & E).
  exists s', mem'. split; [done|]. pose proof (find_entry_at (CString.cstr_take mem name DIRSIZ) (entries (disk f) ip)) as Hat.
  destruct (find_entry _ _) as [[j ino]|]; [|done]. by destruct Hat.
Qed.

Context (devsw_write : Z -> option (fs T -> bytes -> nat -> Z -> Z -> outcome (fs T * bytes * Z))).

(** C6.  [dirlink] of a name that the directory has fails with -1 and gives
    the entry's inode back; of a new name it succeeds, with room for five
    blocks in the log and two free blocks: the entries are the old ones with
    the new one in the first empty place, else at the end, so that as a map
    from names to inodes the directory has one more binding and keeps all
    others; the directory stays well formed. *)
Theorem dirlink_inserts (f : fs T) mem dp ip name ino de
    (Hi : icache f !! dp = Some ip) (Hok : txn_ok (disk f) ∅ ∅) (Hbm : bitmap_ok sb (disk f) ∅ ∅)
    (Hwf : file_wf sb (disk f) ip) (Hsync : synced sb (disk f) ip) (Hdir : dir_ok (disk f) ip)
    (Hmem : CString.bytes_ok mem) (Hino : 0 < ino < 2 ^ 16)
    (Hde : 0 <= de /\ de + SIZEOF_DIRENT < 2 ^ 32) (Hclear : clear_of de name)
    (Hmax : isize ip + SIZEOF_DIRENT <= MAXFILE * BSIZE)
    (Hroom : (5 <= troom (disk f))%nat) (Hfree : (2 <= base.size (free sb (disk f)))%nat) (mypid : Z) :
  let nm := CString.cstr_take mem name DIRSIZ in let l := entries (disk f) ip in
  match find_entry nm l with
  | Some (_, i0) => exists s' mem', scanned (disk f) s' mem mem' de /\
      dirlink sb mypid devsw_read devsw_write f mem dp name ino de =
        let* (f, i) := iget (with_disk s' f) (dev ip) i0 in let* f := iput sb mypid f i in Ret (f, mem', -1)
  | None => exists f' ip' mem',
      dirlink sb mypid devsw_read devsw_write f mem dp name ino de = Ret (f', mem', 0) /\
      icache f' = <[dp := ip']> (icache f) /\ entries (disk f') ip' = link nm ino l /\
      (forall nm', snd <$> find_entry nm' (entries (disk f') ip') = if decide (nm' = nm) then Some ino else snd <$> find_entry nm' l) /\
      dir_ok (disk f') ip' /\ file_wf sb (disk f') ip' /\ synced sb (disk f') ip' /\
      txn_ok (disk f') ∅ ∅ /\ bitmap_ok sb (disk f') ∅ ∅ /\
      forall x, x < de \/ de + SIZEOF_DIRENT <= x -> mem' x = mem x
  end.
Proof.
  intros nm l. destruct (dirlookup_ok f mem dp ip name de Hi Hok Hdir (proj1 Hde) (proj2 Hde) Hclear) as (s1 & m1 & Hsc1 & E1).
  unfold dirlink. rewrite E1. fold nm l. destruct (find_entry nm l) as [[j i0]|] eqn:Ef.
  { exists s1, m1. split; [done|]. destruct (iget _ _ _) as [[f1 i]| | |]; done. }
  cbn [obind]. change (icache (with_disk s1 f)) with (icache f). rewrite Hi. cbn [of_option obind].
  pose proof Hsc1 as (Hok1 & Hs1 & Hm1 & _). pose proof (fo_size _ _ _ _ (do_file _ _ Hdir)) as Hsz.
  destruct (empty_entry_ok (dir_fuel ip) (with_disk s1 f) m1 dp ip de 0) as (s2 & m2 & Hsc2 & E2); try done; try lia;
    try (by apply (dir_ok_same (disk f))); try (unfold dir_fuel, SIZEOF_DIRENT; Z.to_euclidean_division_equations; lia).
  cbn [disk with_disk] in *. rewrite Z.mul_0_r in E2. rewrite E2. cbn [obind]. clear E1 E2.
  rewrite (dents_same _ _ _ _ _ Hs1), Z.sub_0_r, Z.add_0_l. fold (entries (disk f) ip). fold l.
  pose proof (scanned_trans _ _ _ _ _ _ _ Hsc1 Hsc2) as Hsc. pose proof Hsc as (Hok2 & Hs2 & Hm2 & Hout).
  destruct (new_entry m2 name de ino (Hm2 Hmem) Hclear) as (Hent & Hm3 & Hout3); [lia|].
  rewrite (scanned_name _ _ _ _ _ _ Hsc Hclear) in Hent. fold nm in Hent.
  set (m3 := put16 (CString.strncpy m2 (de + 2) name DIRSIZ) de ino) in *. clearbody m3.
  assert (Hlen : Z.of_nat (free_entry l) * SIZEOF_DIRENT <= isize ip).
  { pose proof (free_entry_le l) as Hle. assert (Hll : length l = Z.to_nat (isize ip / SIZEOF_DIRENT)) by (unfold l; apply length_entries). rewrite Hll in Hle.
    destruct (do_size _ _ Hdir) as [z Ez]. rewrite Ez, Z.div_mul in Hle by done. rewrite Ez. unfold SIZEOF_DIRENT in *. lia. }
  destruct (entry_cost (Z.of_nat (free_entry l))) as [Hcost Htouch].
  assert (Hfs : free sb s2 = free sb (disk f)) by (apply free_same; intros; by apply tsame_used).
  destruct (writei_ok sb devsw_write (with_disk s2 (with_disk s1 f)) m3 dp ip de (SIZEOF_DIRENT * Z.of_nat (free_entry l)) SIZEOF_DIRENT)
    as (f' & ip' & E3 & Ei3 & Hw); try done; try lia.
  { by rewrite (do_type _ _ Hdir). }
  { by apply (bitmap_ok_same sb (disk f)). }
  { by apply (wf_same sb (disk f)). }
  { by apply (synced_same (disk f)). }
  { unfold SIZEOF_DIRENT in *. lia. }
  { cbn [disk with_disk]. destruct Hs2 as (_ & [-> _] & _). lia. }
  { cbn [disk with_disk]. rewrite Hfs, Htouch. lia. }
  rewrite E3. cbn [obind]. rewrite Z.eqb_refl. cbn [negb]. cbn [disk with_disk] in Hw.
  assert (Hls : entries s2 ip = l) by (by apply dents_same). rewrite <- Hls in Hw.
  destruct (entries_wrote s2 (disk f') ip ip' m3 de nm ino) as [Hl' Hd']; [by apply (dir_ok_same (disk f))|done|done|done|].
  rewrite Hls in Hl'. exists f', ip', m3. split; [done|]. split; [done|]. split; [done|]. split; [|split; [done|]].
  - intros nm'. rewrite Hl'. apply find_link; [lia|done].
  - destruct Hw. do 4 (split; [done|]). intros x Hx. by rewrite Hout3, Hout.
Qed.
End dir.
(** ** An instance *)

Section witness.
#[local] Existing Instances FsThms.cache1 FsThms.spec1.

(** A directory with two entries in block 59. *)
Definition small_dir : inode := small_inode 1 32.

Lemma small_byte x : 0 <= x < 32 -> file_byte (small_state small_dir) small_dir x = u8 (x + 1).
Proof.
  intros Hx. unfold file_byte. rewrite Z.div_small, Z.mod_small by (unfold BSIZE; lia).
  change (file_block (small_state small_dir) small_dir 0) with 59. by rewrite small_view.
Qed.

Lemma small_entries :
  entries (small_state small_dir) small_dir =
  [(513, [3; 4; 5; 6; 7; 8; 9; 10; 11; 12; 13; 14; 15; 16]); (4625, [19; 20; 21; 22; 23; 24; 25; 26; 27; 28; 29; 30; 31; 32])].
Proof.
  unfold entries. change (isize small_dir / SIZEOF_DIRENT) with 2. rewrite !dents_cons by lia.
  change (dents _ _ _ _) with (@nil dent). rewrite (ent_ext _ _ 0 (fun x => u8 (x + 1)) 0), (ent_ext _ _ (0 + 1) (fun x => u8 (x + 1)) 16).
  - vm_compute. reflexivity.
  - intros o Ho. unfold SIZEOF_DIRENT in Ho. by apply small_byte; unfold SIZEOF_DIRENT; lia.
  - intros o Ho. unfold SIZEOF_DIRENT in Ho. by apply small_byte; unfold SIZEOF_DIRENT; lia.
Qed.

Lemma small_dir_ok : dir_ok (small_state small_dir) small_dir.
Proof.
  split.
  - done.
  - apply (file_wf_ok small_sb); [apply small_wf; lia|apply small_bitmap].
  - by exists 2.
  - intros x Hx. cbn in Hx. rewrite small_byte by lia. apply u8_range.
Qed.

(** The name of the first entry at 200, "a" at 300, the rest zero. *)
Definition small_mem : bytes := fun x => if (200 <=? x) && (x <? 214) then x - 197 else if x =? 300 then 97 else 0.

Lemma dirlookup_finds_witness :
  let f := {| disk := small_state small_dir; icache := [small_dir; with_ref 0 small_dir] |} in
  exists f' mem', dirlookup small_sb (fun _ => None) f small_mem 0 200 1000 = Ret (f', mem', Some (1%nat, 0)).
Proof.
  intros f. assert (Hd : 0 <= 1000 /\ 1000 + SIZEOF_DIRENT < 2 ^ 32) by (unfold SIZEOF_DIRENT; lia).
  assert (Hc : clear_of 1000 200) by (unfold clear_of, DIRSIZ; lia).
  destruct (dirlookup_finds small_sb (fun _ => None) f small_mem 0 small_dir 200 1000 eq_refl (small_ok _) small_dir_ok Hd Hc)
    as (s' & mem' & _ & Hres).
  cbn [disk f] in Hres. rewrite small_entries in Hres.
  change (find_entry _ _) with (Some (0%nat, 513)) in Hres. destruct Hres as (_ & _ & E). rewrite E. clear E.
  eexists _, mem'. cbn [iget with_disk icache f]. reflexivity.
Defined.

Lemma dirlink_inserts_witness :
  let f := {| disk := small_state small_dir; icache := [small_dir] |} in
  exists f' ip' mem', dirlink small_sb 1 (fun _ => None) (fun _ => None) f small_mem 0 300 7 1000 = Ret (f', mem', 0) /\
    snd <$> find_entry [97] (entries (disk f') ip') = Some 7.
Proof.
  intros f. assert (Hd : 0 <= 1000 /\ 1000 + SIZEOF_DIRENT < 2 ^ 32) by (unfold SIZEOF_DIRENT; lia).
  assert (Hc : clear_of 1000 300) by (unfold clear_of, DIRSIZ; lia).
  assert (Hm : CString.bytes_ok small_mem).
  { intros x. unfold small_mem, is_u8. destruct (Z.leb_spec 200 x), (Z.ltb_spec x 214), (Z.eqb_spec x 300); simpl; lia. }
  assert (Hsmall : 0 <= 32 <= 512 /\ is_s16 1 /\ is_u32 32 /\ 0 < 7 < 2 ^ 16) by (unfold is_s16, is_u32; lia).
  destruct Hsmall as (Hz & Hs & Hz' & Hi).
  assert (Hmax : isize small_dir + SIZEOF_DIRENT <= MAXFILE * BSIZE) by (change (MAXFILE * BSIZE) with 71680; cbn; unfold SIZEOF_DIRENT; lia).
  assert (Hr : (5 <= troom (small_state small_dir))%nat) by (vm_compute; lia).
  assert (Hf : (2 <= base.size (free small_sb (small_state small_dir)))%nat) by (pose proof (small_free small_dir); lia).
  pose proof (dirlink_inserts small_sb (fun _ => None) (fun _ => None) f small_mem 0 small_dir 300 7 1000 eq_refl (small_ok _) (small_bitmap _)
    (small_wf _ 1 32 Hz) (small_synced 1 32 Hs Hz') small_dir_ok Hm Hi Hd Hc Hmax Hr Hf 1) as Hres.
  cbn [disk f] in Hres. rewrite small_entries in Hres.
  change (find_entry (CString.cstr_take small_mem 300 DIRSIZ) _) with (@None (nat * Z)) in Hres.
  destruct Hres as (f' & ip' & mem' & E & _ & _ & Hfind & _). exists f', ip', mem'. split; [exact E|].
  specialize (Hfind [97]). rewrite decide_True in Hfind by (vm_compute; reflexivity). exact Hfind.
Defined.
End witness.
End FsDir.
