(* ===== verification/Syscall.v ===== *)
(** * System calls

    [syscall.c] of p3b, which fetches the arguments from user memory and
    dispatches, and the calls of [sysproc.c] on top of [Proc].  User memory
    is what the MMU shows through a page directory, so it is a parameter
    [user]; a pointer argument is an address in it. *)

From S2P Require Import Prelude DfsImage File Proc.
Import Proc.
Local Open Scope Z_scope.
Local Open Scope xv6_scope.

Module Syscall.

(** ** Arguments

    [sz] is the size of the process, [mem] its memory; [None] is the return
    value -1. *)

Definition fetchint (sz : Z) (mem : bytes) (addr : Z) : option Z :=
  if (sz <=? addr) || (sz <? u32 (addr + 4)) then None else Some (word32 mem addr).

(** [for(s = *pp; s < ep; s++)], [n] bytes left: the length of the string. *)
Fixpoint str_len (mem : bytes) (s len : Z) (n : nat) : option Z :=
  match n with
  | O => None
  | S n => if mem s =? 0 then Some len else str_len mem (s + 1) (len + 1) n
  end.

Definition fetchstr (sz : Z) (mem : bytes) (addr : Z) : option (Z * Z) :=
  if sz <=? addr then None
  else let? len := str_len mem addr 0 (Z.to_nat (sz - addr)) in Some (addr, len).

Definition argint (sz : Z) (mem : bytes) (esp n : Z) : option Z := fetchint sz mem (u32 (esp + 4 + 4 * n)).

Definition argptr (sz : Z) (mem : bytes) (esp n size : Z) : option Z :=
  let? i := argint sz mem esp n in
  if (size <? 0) || (sz <=? u32 i) || (sz <? u32 (u32 i + size)) then None else Some (u32 i).

Definition argstr (sz : Z) (mem : bytes) (esp n : Z) : option (Z * Z) :=
  let? addr := argint sz mem esp n in fetchstr sz mem (u32 addr).

Section calls.
Context {M : Type} `{Vmem M} (forkret trapret : Z).
Context (user : M -> Z -> bytes).
(** The tick counter when the call runs, and the address it sleeps on. *)
Context (ticks ticks_addr : Z).

Definition handler : Type := kernel M -> nat -> outcome (kernel M * turn).

(** A call that never sleeps. *)
Definition returns (o : outcome (kernel M * Z)) : outcome (kernel M * turn) :=
  let* (k, r) := o in Ret (k, TRet r).

Definition int_arg (k : kernel M) (p : proc) (n : Z) : option Z :=
  argint (sz p) (user (memory k) (pgdir p)) (esp (tf p)) n.
Definition ptr_arg (k : kernel M) (p : proc) (n size : Z) : option Z :=
  argptr (sz p) (user (memory k) (pgdir p)) (esp (tf p)) n size.

Definition sys_fork : handler := fun k c => returns (fork forkret trapret k c).

(** [exit] ends in [sched]; what the files release is left to their layers. *)
Definition sys_exit : handler := fun k c => let* (k, _) := exit k c in Ret (k, TSleep).

Definition sys_wait : handler := fun k c => wait k c.

Definition sys_kill : handler := fun k c =>
  let* p := of_option (ptable k !! c) in
  match int_arg k p 0 with None => Ret (k, TRet (-1)) | Some n => returns (Ret (kill k n)) end.

Definition sys_getpid : handler := fun k c =>
  let* p := of_option (ptable k !! c) in Ret (k, TRet (pid p)).

Definition sys_sbrk : handler := fun k c =>
  let* p := of_option (ptable k !! c) in
  match int_arg k p 0 with
  | None => Ret (k, TRet (-1))
  | Some n =>
      let addr := s32 (sz p) in
      let* (k, r) := growproc k c n in
      if r <? 0 then Ret (k, TRet (-1)) else Ret (k, TRet addr)
  end.

(** A turn of [while(ticks - ticks0 < n)]; the comparison is unsigned. *)
Definition sleep_turn (ticks0 n : Z) : handler := fun k c =>
  let* p := of_option (ptable k !! c) in
  if u32 (ticks - ticks0) <? u32 n then
    if killed p then Ret (k, TRet (-1))
    else let* k := sleep k (Some c) (ChAddr ticks_addr) false in Ret (k, TSleep)
  else Ret (k, TRet 0).

Definition sys_sleep : handler := fun k c =>
  let* p := of_option (ptable k !! c) in
  match int_arg k p 0 with None => Ret (k, TRet (-1)) | Some n => sleep_turn ticks n k c end.

Definition sys_uptime : handler := fun k c => Ret (k, TRet (s32 ticks)).

Definition sys_clone : handler := fun k c =>
  let* p := of_option (ptable k !! c) in
  match ptr_arg k p 0 1, ptr_arg k p 1 1, ptr_arg k p 2 1, ptr_arg k p 3 1 with
  | Some fcn, Some arg1, Some arg2, Some stack => returns (clone forkret trapret k c fcn arg1 arg2 stack)
  | _, _, _, _ => Ret (k, TRet (-1))
  end.

(** [*stack = p->stack] of [join] goes to user memory. *)
Definition sys_join : handler := fun k c =>
  let* p := of_option (ptable k !! c) in
  match ptr_arg k p 0 4 with
  | None => Ret (k, TRet (-1))
  | Some stack =>
      let* (k, t, st) := join k c in
      match st with
      | None => Ret (k, t)
      | Some v => let* m := vm_store (memory k) (pgdir p) stack v in Ret (with_memory m k, t)
      end
  end.

(** ** Dispatch *)

Definition set_eax (r : Z) (p : proc) : proc := with_tf (with_eax (u32 r) (tf p)) p.

Definition syscall (syscalls : list (option handler)) : handler := fun k c =>
  let* p := of_option (ptable k !! c) in
  let num := s32 (eax (tf p)) in
  match (if (0 <? num) && (num <? Z.of_nat (length syscalls)) then mjoin (getZ syscalls num) else None) with
  | Some f =>
      let* (k, t) := f k c in
      match t with
      | TRet r => Ret (upd c (set_eax r) k, TRet r)
      | TSleep => Ret (k, TSleep)
      end
  | None => Ret (upd c (set_eax (-1)) k, TRet (-1))
  end.
End calls.

(** ** Theorems *)

Lemma fetchint_Some sz mem addr v :
  0 <= sz <= 2 ^ 31 -> 0 <= addr -> fetchint sz mem addr = Some v <-> addr + 4 <= sz /\ v = word32 mem addr.
Proof.
  intros Hsz Ha. unfold fetchint. destruct (Z.leb_spec sz addr) as [H1|H1]; cbn [orb].
  - split; [done|lia].
  - rewrite (u32_small (addr + 4)) by (unfold is_u32; lia). destruct (Z.ltb_spec sz (addr + 4)).
    + split; [done|lia].
    + split; [intros [= <-]; split; [lia|done]|by intros [_ ->]].
Qed.

Lemma str_len_spec mem n s len :
  match str_len mem s len n with
  | Some l => len <= l < len + Z.of_nat n /\ mem (s + (l - len)) = 0 /\ forall x, s <= x < s + (l - len) -> mem x <> 0
  | None => forall x, s <= x < s + Z.of_nat n -> mem x <> 0
  end.
Proof.
  revert s len. induction n as [|n IH]; intros s len; cbn [str_len]; [lia|].
  destruct (Z.eqb_spec (mem s) 0) as [E|E].
  - split; [lia|]. split; [by rewrite Z.sub_diag, Z.add_0_r|lia].
  - specialize (IH (s + 1) (len + 1)). destruct (str_len _ _ _ _) as [l|].
    + destruct IH as (H1 & H2 & H3). split; [lia|]. split; [by replace (s + (l - len)) with (s + 1 + (l - (len + 1))) by lia|].
      intros x Hx. destruct (decide (x = s)) as [->|]; [done|]. apply H3. lia.
    + intros x Hx. destruct (decide (x = s)) as [->|]; [done|]. apply IH. lia.
Qed.

(** C37.  For a process of at most 2 GB, as [KERNBASE] makes every process: an
    integer argument is read only from inside the process; [argptr] succeeds
    exactly when the argument word lies inside and the whole area does, with
    no wrap-around, and returns its address; [argstr] succeeds exactly when a
    NUL ends the string inside the process, and returns its length. *)
Theorem arguments_in_bounds sz mem esp n size
    (Hsz : 0 <= sz <= 2 ^ 31) (Hsize : is_s32 size) :
  let a := u32 (esp + 4 + 4 * n) in
  let p := u32 (word32 mem a) in
  (forall v, argint sz mem esp n = Some v <-> a + 4 <= sz /\ v = word32 mem a) /\
  (forall q, argptr sz mem esp n size = Some q <-> a + 4 <= sz /\ 0 <= size /\ p < sz /\ p + size <= sz /\ q = p) /\
  (forall q len, argstr sz mem esp n = Some (q, len) <->
     a + 4 <= sz /\ q = p /\ 0 <= len /\ p + len < sz /\ mem (p + len) = 0 /\ forall x, p <= x < p + len -> mem x <> 0).
Proof.
  intros a p. pose proof (u32_range (esp + 4 + 4 * n)) as Ha. pose proof (u32_range (word32 mem a)) as Hp.
  unfold is_u32, is_s32 in *. fold a in Ha. fold p in Hp.
  assert (Hint : forall v, argint sz mem esp n = Some v <-> a + 4 <= sz /\ v = word32 mem a).
  { intros v. apply fetchint_Some; lia. }
  split; [done|]. split.
  - intros q. unfold argptr. destruct (argint sz mem esp n) as [i|].
    + destruct (proj1 (Hint i) eq_refl) as [Hle ->]. fold p. destruct (Z.ltb_spec size 0); cbn [orb]; [split; [done|lia]|].
      destruct (Z.leb_spec sz p); cbn [orb]; [split; [done|lia]|].
      rewrite (u32_small (p + size)) by (unfold is_u32; lia). destruct (Z.ltb_spec sz (p + size)); [split; [done|lia]|].
      split; [intros [= <-]; split_and!; lia|by intros (_ & _ & _ & _ & ->)].
    + split; [done|]. intros (Hle & _). assert (None = Some (word32 mem a)) by (apply Hint; done). done.
  - intros q len. unfold argstr. destruct (argint sz mem esp n) as [i|].
    + destruct (proj1 (Hint i) eq_refl) as [Hle ->]. fold p. unfold fetchstr. destruct (Z.leb_spec sz p); [split; [done|lia]|].
      pose proof (str_len_spec mem (Z.to_nat (sz - p)) p 0) as Hs. rewrite Z2Nat.id in Hs by lia.
      destruct (str_len _ _ _ _) as [l|].
      * rewrite Z.sub_0_r in Hs. destruct Hs as (H1 & H2 & H3). split.
        -- intros [= <- <-]. split_and!; try done; lia.
        -- intros (_ & -> & Hl & Hlt & Hz & Hnz). f_equal. f_equal.
           destruct (Z.lt_trichotomy l len) as [Hc|[Hc|Hc]]; [|done|].
           ++ destruct (Hnz (p + l)); [lia|done].
           ++ destruct (H3 (p + len)); [lia|done].
      * split; [done|]. intros (_ & _ & Hl & Hlt & Hz & _). destruct (Hs (p + len)); [lia|done].
    + split; [done|]. intros (Hle & _). assert (None = Some (word32 mem a)) by (apply Hint; done). done.
Qed.

(** A stack at 4000 whose first argument is 4090, in a process of one page. *)
Lemma arguments_in_bounds_witness :
  let mem := put32 (fun _ => 1) 4004 4090 in
  argptr 4096 mem 4000 0 6 = Some 4090 /\ argptr 4096 mem 4000 0 7 <> Some 4090.
Proof.
  intros mem. assert (Hw : u32 (word32 mem (u32 (4000 + 4 + 4 * 0))) = 4090) by (vm_compute; reflexivity).
  assert (Hb : 0 <= 4096 <= 2 ^ 31) by lia. assert (H6 : is_s32 6) by (unfold is_s32; lia). assert (H7 : is_s32 7) by (unfold is_s32; lia).
  split.
  - apply (proj1 (proj2 (arguments_in_bounds 4096 mem 4000 0 6 Hb H6))). rewrite Hw. split_and!; try lia.
    all: by vm_compute.
  - intros E. apply (proj1 (proj2 (arguments_in_bounds 4096 mem 4000 0 7 Hb H7))) in E. lia.
Defined.

End Syscall.
