(* ===== verification/Tickets.v ===== *)
(** * The ticket scheduler of p2b

    [scheduler], [settickets] and [getpinfo] over the fields of [struct proc]
    they use. *)

From S2P Require Import Prelude DfsImage Proc Syscall.
Local Open Scope Z_scope.
Local Open Scope xv6_scope.

Module Tickets.

#[local] Existing Instance Proc.procstate_dec.

(** ** The process table *)

Record proc := { state : Proc.procstate; pid : Z; tickets : Z; ticks : Z }.

Definition with_state (s : Proc.procstate) (p : proc) : proc :=
  {| state := s; pid := pid p; tickets := tickets p; ticks := ticks p |}.
Definition with_tickets (n : Z) (p : proc) : proc :=
  {| state := state p; pid := pid p; tickets := n; ticks := ticks p |}.
Definition tick (p : proc) : proc :=
  {| state := state p; pid := pid p; tickets := tickets p; ticks := s32 (ticks p + 1) |}.

(** [p->tickets = 1; p->ticks = 0] of [allocproc], and what [fork] sets. *)
Definition fresh_tickets (p : proc) : proc := {| state := state p; pid := pid p; tickets := 1; ticks := 0 |}.
Definition inherit_tickets (curproc np : proc) : proc :=
  {| state := Proc.RUNNABLE; pid := pid np; tickets := tickets curproc; ticks := 0 |}.

Definition is_runnable (p : proc) : bool := bool_decide (state p = Proc.RUNNABLE).

(** The first loop of a pass, from the value [m] on. *)
Fixpoint max_tickets (m : Z) (t : list proc) : Z :=
  match t with
  | [] => m
  | p :: t => max_tickets (if is_runnable p && (m <? tickets p) then tickets p else m) t
  end.

(** The second loop; [run] is what happens from [swtch] to the process until
    it comes back.  The table and the slots that ran, in order. *)
Fixpoint pass_from (run : nat -> list proc -> list proc) (m : Z) (t : list proc) (ixs : list nat) : list proc * list nat :=
  match ixs with
  | [] => (t, [])
  | i :: ixs =>
      match t !! i with
      | None => pass_from run m t ixs
      | Some p =>
          if negb (is_runnable p) then pass_from run m t ixs
          else if tickets p =? m then
            let t := alter tick i (run i (alter (with_state Proc.RUNNING) i t)) in
            let (t, l) := pass_from run m t ixs in (t, i :: l)
          else pass_from run m t ixs
      end
  end.

Definition scheduler_pass (run : nat -> list proc -> list proc) (t : list proc) : list proc * list nat :=
  pass_from run (max_tickets (-1) t) t (seq 0 (length t)).

Definition settickets (t : list proc) (cur : nat) (number : Z) : list proc * Z :=
  if negb (number =? 1) && negb (number =? 0) then (t, -1)
  else (alter (with_tickets number) cur t, 0).

(** [struct pstat] at [ps]: four arrays of [NPROC] integers. *)
Definition off_inuse (ps i : Z) : Z := ps + 4 * i.
Definition off_tickets (ps i : Z) : Z := ps + 256 + 4 * i.
Definition off_pid (ps i : Z) : Z := ps + 512 + 4 * i.
Definition off_ticks (ps i : Z) : Z := ps + 768 + 4 * i.
Definition SIZEOF_PSTAT : Z := 1024.

(** The loop of [getpinfo], with [i] entries written. *)
Fixpoint pinfo_from (t : list proc) (ps i : Z) (mem : bytes) : bytes :=
  match t with
  | [] => mem
  | p :: t =>
      if bool_decide (state p = Proc.UNUSED) then pinfo_from t ps i mem
      else
        let mem := put32 mem (off_inuse ps i) 1 in
        let mem := put32 mem (off_tickets ps i) (tickets p) in
        let mem := put32 mem (off_pid ps i) (pid p) in
        let mem := put32 mem (off_ticks ps i) (ticks p) in
        pinfo_from t ps (i + 1) mem
  end.

Definition getpinfo (t : list proc) (mem : bytes) (p : Z) : bytes * Z :=
  if p =? 0 then (mem, -1) else (pinfo_from t p 0 mem, 0).

(** The system calls; [sz], [mem] and [esp] are the process's size, memory
    and stack pointer, and [cur] its slot. *)
Definition sys_settickets (sz : Z) (mem : bytes) (esp : Z) (t : list proc) (cur : nat) : list proc * Z :=
  match Syscall.argint sz mem esp 0 with
  | None => (t, -1)
  | Some n => settickets t cur n
  end.

Definition sys_getpinfo (sz : Z) (mem : bytes) (esp : Z) (t : list proc) : bytes * Z :=
  match Syscall.argptr sz mem esp 0 SIZEOF_PSTAT with
  | None => (mem, -1)
  | Some ps => getpinfo t mem ps
  end.

(** *** The scheduler *)

Lemma max_tickets_spec t : forall m,
  m <= max_tickets m t /\
  (forall p, p ∈ t -> is_runnable p = true -> tickets p <= max_tickets m t) /\
  (max_tickets m t = m \/ exists p, p ∈ t /\ is_runnable p = true /\ tickets p = max_tickets m t).
Proof.
  induction t as [|p t IH]; intros m; cbn [max_tickets].
  - split; [lia|]. split; [by intros p Hp%elem_of_nil|by left].
  - set (m' := if is_runnable p && (m <? tickets p) then tickets p else m). destruct (IH m') as (I1 & I2 & I3).
    assert (Hm : m <= m' /\ (is_runnable p = true -> tickets p <= m') /\ (m' = m \/ is_runnable p = true /\ tickets p = m')).
    { unfold m'. destruct (is_runnable p), (Z.ltb_spec m (tickets p)); simpl; (split; [lia|split; [lia|auto]]). }
    split; [lia|]. split.
    + intros q [->|Hq]%elem_of_cons Hr; [destruct Hm as (_ & Hm & _); specialize (Hm Hr); lia|by apply I2].
    + destruct I3 as [E|(q & Hq & Hr & E)]; [|right; exists q; split; [by right|done]].
      destruct Hm as (_ & _ & [Hm|[Hr Hm]]); [left; lia|right; exists p; split; [by left|]; split; [done|lia]].
Qed.

(** Running a process leaves the others that are runnable so, with their tickets. *)
Definition keeps (run : nat -> list proc -> list proc) : Prop :=
  forall t i j p, j <> i -> t !! j = Some p -> state p = Proc.RUNNABLE ->
    exists p', run i t !! j = Some p' /\ state p' = Proc.RUNNABLE /\ tickets p' = tickets p.

Lemma pass_from_spec run m (Hrun : keeps run) ixs : forall t,
  NoDup ixs ->
  ((pass_from run m t ixs).2 `sublist_of` ixs) /\
  forall i p, i ∈ ixs -> t !! i = Some p -> state p = Proc.RUNNABLE -> (i ∈ (pass_from run m t ixs).2 <-> tickets p = m).
Proof.
  induction ixs as [|i ixs IH]; intros t Hnd; [split; [done|by intros i p Hi%elem_of_nil]|].
  apply NoDup_cons in Hnd as [Hi Hnd]. cbn [pass_from].
  assert (Hskip : forall j p, t !! j = Some p -> state p = Proc.RUNNABLE -> (j = i -> tickets p <> m) -> j ∈ i :: ixs ->
            (j ∈ (pass_from run m t ixs).2 <-> tickets p = m)).
  { intros j p E Hs Hj [->|Hin]%elem_of_cons; [|by apply IH]. split; [|by intros ?%Hj].
    intros Hin. exfalso. apply Hi. by eapply elem_of_submseteq; [|apply sublist_submseteq, IH]. }
  destruct (t !! i) as [q|] eqn:Ei.
  2: { split; [by apply sublist_cons, IH|]. intros j p Hj E Hs. apply Hskip; [done|done|congruence|done]. }
  unfold is_runnable. case_bool_decide as Hq; cbn [negb].
  2: { split; [by apply sublist_cons, IH|]. intros j p Hj E Hs. apply Hskip; [done|done|congruence|done]. }
  destruct (Z.eqb_spec (tickets q) m) as [Em|Em].
  2: { split; [by apply sublist_cons, IH|]. intros j p Hj E Hs. apply Hskip; [done|done|congruence|done]. }
  set (t' := alter tick i _). destruct (IH t' Hnd) as [IH1 IH2].
  assert (Ht' : forall j p, j <> i -> t !! j = Some p -> state p = Proc.RUNNABLE ->
            exists p', t' !! j = Some p' /\ state p' = Proc.RUNNABLE /\ tickets p' = tickets p).
  { intros j p Hne E Hs. unfold t'. rewrite list_lookup_alter_ne by done.
    apply Hrun; [done|by rewrite list_lookup_alter_ne|done]. }
  destruct (pass_from run m t' ixs) as [t2 l] eqn:E2. cbn [snd] in *. split; [by apply sublist_skip|].
  intros j p Hj E Hs. rewrite elem_of_cons. destruct (decide (j = i)) as [->|Hne]; [naive_solver congruence|].
  apply elem_of_cons in Hj as [?|Hj]; [done|]. destruct (Ht' j p Hne E Hs) as (p' & E' & Hs' & <-).
  rewrite <- (IH2 j p' Hj E' Hs'). naive_solver.
Qed.

(** C38.  The ticket scheduler: as long as running one process leaves the
    others that are runnable so and with their tickets, one pass over the
    table runs every process that is runnable at its start and has the most
    tickets, none of them twice, and no runnable process with fewer; so while
    a process with one ticket is runnable those with none do not run, and
    some process runs whenever one is runnable. *)
Theorem scheduler_priority run t (Hrun : keeps run) (Ht : forall p, p ∈ t -> 0 <= tickets p) :
  let ran := (scheduler_pass run t).2 in
  NoDup ran /\
  (forall i p, t !! i = Some p -> state p = Proc.RUNNABLE ->
     (i ∈ ran <-> forall j q, t !! j = Some q -> state q = Proc.RUNNABLE -> tickets q <= tickets p)) /\
  ((exists i p, t !! i = Some p /\ state p = Proc.RUNNABLE) -> ran <> []).
Proof.
  intros ran. destruct (pass_from_spec run (max_tickets (-1) t) Hrun (seq 0 (length t)) t ltac:(apply NoDup_seq)) as [P1 P2].
  destruct (max_tickets_spec t (-1)) as (M1 & M2 & M3). fold (scheduler_pass run t) in P1, P2. fold ran in P1, P2.
  assert (Hran : forall i p, t !! i = Some p -> state p = Proc.RUNNABLE -> (i ∈ ran <-> tickets p = max_tickets (-1) t)).
  { intros i p E Hs. apply P2; [|done|done]. apply elem_of_seq. apply lookup_lt_Some in E. lia. }
  assert (Hr : forall i p, t !! i = Some p -> state p = Proc.RUNNABLE -> p ∈ t /\ is_runnable p = true).
  { intros i p E Hs. split; [by eapply list_elem_of_lookup_2|by apply bool_decide_eq_true]. }
  assert (Hmax : forall i p, t !! i = Some p -> state p = Proc.RUNNABLE ->
            exists j q, t !! j = Some q /\ state q = Proc.RUNNABLE /\ tickets q = max_tickets (-1) t).
  { intros i p E Hs. destruct (Hr i p E Hs) as [Hin Hp]. destruct M3 as [E0|(q & Hq & Hrq & Eq)].
    - specialize (M2 p Hin Hp). specialize (Ht p Hin). lia.
    - apply list_elem_of_lookup_1 in Hq as [j Ej]. exists j, q. split; [done|]. split; [by apply bool_decide_eq_true in Hrq|done]. }
  split; [eapply sublist_NoDup; [apply NoDup_seq|exact P1]|]. split.
  - intros i p E Hs. rewrite (Hran i p E Hs). split.
    + intros -> j q Ej Hq. by destruct (Hr j q Ej Hq) as [? ?%M2].
    + intros Hall. destruct (Hmax i p E Hs) as (j & q & Ej & Hq & Et). specialize (Hall j q Ej Hq).
      destruct (Hr i p E Hs) as [Hin Hp]. specialize (M2 p Hin Hp). lia.
  - intros (i & p & E & Hs). destruct (Hmax i p E Hs) as (j & q & Ej & Hq & Et).
    intros En. apply (Hran j q Ej Hq) in Et. rewrite En in Et. by apply elem_of_nil in Et.
Qed.

(** *** getpinfo *)

Definition in_use (t : list proc) : list proc := filter (fun p => state p <> Proc.UNUSED) t.

Section pinfo.
Context (ps : Z).

(** Byte [x] lies in one of the entries [i .. i + n). *)
Definition in_entries (i n x : Z) : Prop :=
  exists j, i <= j < i + n /\
    (off_inuse ps j <= x < off_inuse ps j + 4 \/ off_tickets ps j <= x < off_tickets ps j + 4 \/
     off_pid ps j <= x < off_pid ps j + 4 \/ off_ticks ps j <= x < off_ticks ps j + 4).

(** Entry [j] holds the process [p]. *)
Definition reports (mem : bytes) (j : Z) (p : proc) : Prop :=
  word32 mem (off_inuse ps j) = 1 /\ word32 mem (off_tickets ps j) = s32 (tickets p) /\
  word32 mem (off_pid ps j) = s32 (pid p) /\ word32 mem (off_ticks ps j) = s32 (ticks p).

Lemma reports_ext mem mem' i n j p :
  0 <= j < i -> i + n <= 64 -> (forall x, ~ in_entries i n x -> mem' x = mem x) -> reports mem j p -> reports mem' j p.
Proof.
  intros Hj Hn Hm (R1 & R2 & R3 & R4).
  assert (Hout : forall a k, a = off_inuse ps j \/ a = off_tickets ps j \/ a = off_pid ps j \/ a = off_ticks ps j ->
            0 <= k < 4 -> mem' (a + k) = mem (a + k)).
  { intros a k Ha Hk. apply Hm. intros (l & Hl & Hx). unfold off_inuse, off_tickets, off_pid, off_ticks in *. lia. }
  split; [|split; [|split]]; rewrite (word32_ext mem' mem) by (intros k Hk; apply Hout; auto); done.
Qed.

Lemma pinfo_from_spec t : forall i mem,
  0 <= i -> i + Z.of_nat (length (in_use t)) <= 64 ->
  (forall x, ~ in_entries i (Z.of_nat (length (in_use t))) x -> pinfo_from t ps i mem x = mem x) /\
  forall j p, in_use t !! j = Some p -> reports (pinfo_from t ps i mem) (i + Z.of_nat j) p.
Proof.
  induction t as [|p t IH]; intros i mem Hi Hn; cbn [pinfo_from]; [done|]. unfold in_use in *. case_bool_decide as Hp.
  { rewrite filter_cons_False in * by naive_solver. by apply IH. }
  rewrite filter_cons_True in * by done. cbn [length] in *. set (n := length (filter _ t)) in *.
  set (m1 := put32 (put32 _ _ _) _ _). destruct (IH (i + 1) m1) as [I1 I2]; [lia|lia|].
  assert (Hout : forall x, ~ in_entries i 1 x -> m1 x = mem x).
  { intros x Hx. unfold m1. rewrite !put32_out; [done|..]; apply dec_stable; intros Hc; apply Hx; exists i; lia. }
  assert (Hrep : reports m1 i p).
  { unfold reports, m1, off_inuse, off_tickets, off_pid, off_ticks.
    split; [|split; [|split]]; repeat (rewrite word32_put32_eq || rewrite word32_put32_ne by lia); done. }
  split.
  - intros x Hx. rewrite I1, Hout; [done| |].
    + intros (j & Hj & Hx'). apply Hx. exists j. split; [lia|done].
    + intros (j & Hj & Hx'). apply Hx. exists j. split; [lia|done].
  - intros [|j] q; cbn [lookup list_lookup].
    + intros [= <-]. rewrite Z.add_0_r. apply (reports_ext m1 _ (i + 1) (Z.of_nat n)); [lia|lia|done|done].
    + intros E. replace (i + Z.of_nat (S j)) with (i + 1 + Z.of_nat j) by lia. by apply I2.
Qed.

(** [getpinfo] fails for a null pointer; else it reports the processes of
    the table that are in use, in table order and without gaps, in the first
    entries of the four arrays.  No other byte changes: the entries behind
    them stay as the caller had them, their [inuse] too. *)
Theorem getpinfo_reports t mem (Ht : (length t <= Proc.NPROC)%nat) (Hps : ps <> 0) :
  exists mem', getpinfo t mem ps = (mem', 0) /\
    (forall j p, in_use t !! j = Some p -> reports mem' (Z.of_nat j) p) /\
    (forall x, ~ in_entries 0 (Z.of_nat (length (in_use t))) x -> mem' x = mem x) /\
    getpinfo t mem 0 = (mem, -1).
Proof.
  assert (Hn : (length (in_use t) <= length t)%nat) by (apply length_filter). unfold Proc.NPROC in Ht.
  unfold getpinfo. rewrite (proj2 (Z.eqb_neq _ _) Hps). destruct (pinfo_from_spec t 0 mem) as [P1 P2]; [lia|lia|].
  eexists. split; [reflexivity|]. by split.
Qed.
End pinfo.

(** ** An instance *)

Definition three : list proc :=
  [{| state := Proc.RUNNABLE; pid := 1; tickets := 0; ticks := 0 |}; {| state := Proc.RUNNABLE; pid := 2; tickets := 1; ticks := 0 |};
   {| state := Proc.UNUSED; pid := 0; tickets := 0; ticks := 0 |}; {| state := Proc.RUNNABLE; pid := 4; tickets := 1; ticks := 0 |}].

(** A process that gives up the processor. *)
Definition yields (i : nat) (t : list proc) : list proc := alter (with_state Proc.RUNNABLE) i t.

Lemma scheduler_priority_witness :
  NoDup (scheduler_pass yields three).2 /\ 1%nat ∈ (scheduler_pass yields three).2 /\ 0%nat ∉ (scheduler_pass yields three).2.
Proof.
  assert (Hk : keeps yields).
  { intros t i j p Hne E Hs. exists p. unfold yields. by rewrite list_lookup_alter_ne. }
  assert (Ht : forall p, p ∈ three -> 0 <= tickets p).
  { intros p Hp. unfold three in Hp. rewrite !elem_of_cons, elem_of_nil in Hp. destruct Hp as [->|[->|[->|[->|[]]]]]; simpl; lia. }
  destruct (scheduler_priority yields three Hk Ht) as (H1 & H2 & _). split; [exact H1|]. split.
  - apply (H2 1%nat (nth 1 three {| state := Proc.UNUSED; pid := 0; tickets := 0; ticks := 0 |})); [done|done|].
    intros j q Ej _. destruct j as [|[|[|[|j]]]]; try done; injection Ej as <-; simpl; lia.
  - intros Hin. pose proof (proj1 (H2 0%nat (nth 0 three {| state := Proc.UNUSED; pid := 0; tickets := 0; ticks := 0 |}) eq_refl eq_refl) Hin) as Hall.
    specialize (Hall 1%nat _ eq_refl eq_refl). simpl in Hall. lia.
Defined.

Lemma getpinfo_reports_witness :
  exists mem', getpinfo three (fun _ => 7) 4096 = (mem', 0) /\ word32 mem' (off_pid 4096 2) = 4 /\ mem' (off_inuse 4096 3) = 7.
Proof.
  assert (Hn : (length three <= Proc.NPROC)%nat) by (simpl; unfold Proc.NPROC; lia).
  destruct (getpinfo_reports 4096 three (fun _ => 7) Hn ltac:(done)) as (mem' & E & Hin & Hout & _).
  exists mem'. split; [exact E|]. split.
  - refine (proj1 (proj2 (proj2 (Hin 2%nat {| state := Proc.RUNNABLE; pid := 4; tickets := 1; ticks := 0 |} _)))). vm_compute. reflexivity.
  - apply Hout. change (length (in_use three)) with 3%nat. intros (k & Hk & Hx). unfold off_inuse, off_tickets, off_pid, off_ticks in *. lia.
Defined.
End Tickets.
