(* ===== verification/Protect.v ===== *)
(** * Page protection in p2b

    [mprotect] and [munprotect] over the page tables of [Vm], whose
    [walkpgdir] is the function p2b calls [cpwalkpgdir]. *)

From S2P Require Import Prelude DfsImage Kalloc Vm VmSpec VmThms Syscall.
Import Kalloc Vm VmSpec VmThms.
Local Open Scope Z_scope.
Local Open Scope xv6_scope.

Module Protect.

Definition cpwalkpgdir (k : kmem) (pgdir va : Z) (alloc : bool) : kmem * Z := walkpgdir k pgdir va alloc.

(** [for(i = 0; i < len; i ++)] with [n] turns left; [f] is what happens to an
    entry and [sz] is [myproc()->sz]. *)
Fixpoint protect_from (f : Z -> Z) (n : nat) (k : kmem) (pgdir sz a i : Z) : kmem * Z :=
  match n with
  | O => (k, 0)
  | S n =>
      let va := u32 (a + u32 (i * PGSIZE)) in
      if sz <? va then (k, -1)
      else
        let (k, pte) := cpwalkpgdir k pgdir va false in
        if pte =? 0 then (k, -1)
        else protect_from f n (st k pte (f (ld k pte))) pgdir sz a (i + 1)
  end.

Definition change (f : Z -> Z) (k : kmem) (pgdir sz addr len : Z) : kmem * Z :=
  if negb (addr mod PGSIZE =? 0) || (len <=? 0) then (k, -1)
  else protect_from f (Z.to_nat len) k pgdir sz addr 0.

Definition mprotect : kmem -> Z -> Z -> Z -> Z -> kmem * Z := change (fun pte => Z.land pte (Z.lnot PTE_W)).
Definition munprotect : kmem -> Z -> Z -> Z -> Z -> kmem * Z := change (fun pte => Z.lor pte PTE_W).

(** The system calls; [psz], [mem] and [esp] are the process's size, memory as
    the MMU shows it and stack pointer. *)
Definition protect_args (psz : Z) (mem : bytes) (esp : Z) : option (Z * Z) :=
  let? addr := Syscall.argptr psz mem esp 0 1 in
  let? len := Syscall.argint psz mem esp 1 in
  Some (addr, len).

Definition sys_mprotect (psz : Z) (mem : bytes) (esp : Z) (k : kmem) (pgdir : Z) : kmem * Z :=
  match protect_args psz mem esp with None => (k, -1) | Some (addr, len) => mprotect k pgdir psz addr len end.

Definition sys_munprotect (psz : Z) (mem : bytes) (esp : Z) (k : kmem) (pgdir : Z) : kmem * Z :=
  match protect_args psz mem esp with None => (k, -1) | Some (addr, len) => munprotect k pgdir psz addr len end.

(** ** Changes of the writable bit *)

Record flag_only (f : Z -> Z) : Prop := {
  fo_range w : is_u32 w -> is_u32 (f w);
  fo_present w : is_u32 w -> present (f w) = present w;
  fo_frame w : is_u32 w -> pgtab_of (f w) = pgtab_of w
}.

Lemma land_u32 w m : is_u32 w -> 0 <= w -> is_u32 (Z.land w m).
Proof.
  intros [H0 H1] _. assert (Hn : 0 <= Z.land w m) by (apply Z.land_nonneg; by left). split; [done|].
  destruct (decide (Z.land w m = 0)) as [->|Hne]; [done|]. apply Z.log2_lt_pow2; [lia|].
  destruct (Z.le_gt_cases (2 ^ 32) (Z.land w m)) as [Hge|]; [|by apply Z.log2_lt_pow2; lia]. exfalso.
  assert (Hb : Z.testbit (Z.land w m) (Z.log2 (Z.land w m)) = true) by (apply Z.bit_log2; lia).
  rewrite Z.land_spec in Hb. apply andb_true_iff in Hb as [Hb _].
  assert (Hl : 32 <= Z.log2 (Z.land w m)) by (apply Z.log2_le_pow2; lia).
  destruct (decide (w = 0)) as [->|]; [by rewrite Z.bits_0 in Hb|].
  rewrite Z.bits_above_log2 in Hb; [done|done|]. apply Z.lt_le_trans with 32; [|done]. apply Z.log2_lt_pow2; lia.
Qed.

Lemma lor_u32 w m : is_u32 w -> is_u32 m -> is_u32 (Z.lor w m).
Proof.
  unfold is_u32. intros [H0 H1] [H2 H3]. split; [by apply Z.lor_nonneg|].
  destruct (decide (Z.lor w m = 0)) as [->|Hne]; [done|]. pose proof (proj2 (Z.lor_nonneg w m) (conj H0 H2)).
  apply Z.log2_lt_pow2; [lia|]. rewrite Z.log2_lor by done.
  assert (Hlog : forall x, 0 <= x < 2 ^ 32 -> Z.log2 x < 32).
  { intros x Hx. destruct (decide (x = 0)) as [->|]; [done|]. apply Z.log2_lt_pow2; lia. }
  apply Z.max_lub_lt; by apply Hlog.
Qed.

Lemma clear_flag : flag_only (fun pte => Z.land pte (Z.lnot PTE_W)).
Proof.
  split; intros w Hw; [by apply land_u32; [|apply Hw]|..].
  - unfold present. rewrite <- Z.land_assoc. by change (Z.land (Z.lnot PTE_W) PTE_P) with PTE_P.
  - unfold pgtab_of, PTE_ADDR. rewrite <- Z.land_assoc. by change (Z.land (Z.lnot PTE_W) (Z.lnot 4095)) with (Z.lnot 4095).
Qed.

Lemma set_flag : flag_only (fun pte => Z.lor pte PTE_W).
Proof.
  split; intros w Hw; [by apply lor_u32|..].
  - unfold present. rewrite Z.land_lor_distr_l. change (Z.land PTE_W PTE_P) with 0. by rewrite Z.lor_0_r.
  - unfold pgtab_of, PTE_ADDR. rewrite Z.land_lor_distr_l. change (Z.land PTE_W (Z.lnot 4095)) with 0. by rewrite Z.lor_0_r.
Qed.

Lemma clear_set_flag w : Z.testbit w 1 = true -> Z.lor (Z.land w (Z.lnot PTE_W)) PTE_W = w.
Proof.
  intros Hw. apply Z.bits_inj'. intros i Hi. rewrite Z.lor_spec, Z.land_spec, Z.lnot_spec by done.
  change PTE_W with (2 ^ 1). rewrite Z.pow2_bits_eqb by done. destruct (Z.eqb_spec 1 i) as [<-|Hne].
  - by rewrite Hw, orb_true_r.
  - by rewrite andb_true_r, orb_false_r.
Qed.

Section protect.
Context (kend : Z).

(** Page number [n] may be changed: it does not start behind [sz], and the
    directory has a table for it. *)
Definition changeable (k : kmem) (pgdir sz n : Z) : bool := (n * PGSIZE <=? sz) && present (pde_at k pgdir (n / 1024)).

Lemma protect_step f k free pgdir n :
  flag_only f -> aspace kend k free pgdir -> upage n -> present (pde_at k pgdir (n / 1024)) = true ->
  let k' := st k (tab_addr k pgdir n) (f (ld k (tab_addr k pgdir n))) in
  aspace kend k' free pgdir /\ (forall i, 0 <= i < 1024 -> pde_at k' pgdir i = pde_at k pgdir i) /\
  (forall m, upage m -> pte k' pgdir m = if decide (m = n) then f (pte k pgdir m) else pte k pgdir m).
Proof.
  intros Hf Ha Hn Hp k'. assert (Hw : ld k (tab_addr k pgdir n) = pte k pgdir n) by (unfold pte, tab_addr; by rewrite Hp).
  assert (Hu : is_u32 (pte k pgdir n)) by (rewrite <- Hw; apply u32_range).
  destruct (set_pte kend k free pgdir n (f (pte k pgdir n))) as (H1 & H2 & H3 & _); [done|done|done|by apply Hf| |].
  { intros _. rewrite (fo_present _ Hf), (fo_frame _ Hf) by done. intros Hpr. left. simpl. by rewrite Hpr. }
  subst k'. rewrite Hw. split; [done|]. split; [done|]. intros m Hm. rewrite H3 by done. case_decide; by subst.
Qed.

(** The loop changes the pages from [a] on up to the first that it may not. *)
Lemma protect_from_ok f free pgdir sz a : flag_only f -> a mod PGSIZE = 0 -> 0 <= a -> 0 <= sz < KERNBASE ->
  forall n k i, aspace kend k free pgdir -> 0 <= i -> (i = 0 -> a < 2 ^ 32) -> (0 < i -> a + (i - 1) * PGSIZE <= sz) ->
  exists k' r j, protect_from f n k pgdir sz a i = (k', r) /\ (j <= n)%nat /\
    aspace kend k' free pgdir /\ (forall x, 0 <= x < 1024 -> pde_at k' pgdir x = pde_at k pgdir x) /\
    (forall m, upage m -> pte k' pgdir m = if decide (a / PGSIZE + i <= m < a / PGSIZE + i + Z.of_nat j) then f (pte k pgdir m) else pte k pgdir m) /\
    (forall m, a / PGSIZE + i <= m < a / PGSIZE + i + Z.of_nat j -> changeable k pgdir sz m = true) /\
    (r = 0 /\ j = n \/ r = -1 /\ (j < n)%nat /\ changeable k pgdir sz (a / PGSIZE + i + Z.of_nat j) = false).
Proof.
  intros Hf Hal Ha0 Hsz. assert (HP : PGSIZE = 4096 /\ KERNBASE = 2147483648) by done. destruct HP as [HP HK].
  assert (Ea : a = a / PGSIZE * PGSIZE) by (pose proof (Z.div_mod a PGSIZE ltac:(done)); lia). set (p := a / PGSIZE) in *.
  induction n as [|n IH]; intros k i Ha Hi Hi0 Hi1; cbn [protect_from].
  { exists k, 0, 0%nat. split; [done|]. split; [done|]. split; [done|]. split; [done|].
    split; [intros m _; by rewrite decide_False by lia|]. split; [lia|by left]. }
  assert (Hstop : forall k', k' = k -> changeable k pgdir sz (p + i) = false -> exists k'0 r j, (k', -1) = (k'0, r) /\ (j <= S n)%nat /\
    aspace kend k'0 free pgdir /\ (forall x, 0 <= x < 1024 -> pde_at k'0 pgdir x = pde_at k pgdir x) /\
    (forall m, upage m -> pte k'0 pgdir m = if decide (p + i <= m < p + i + Z.of_nat j) then f (pte k pgdir m) else pte k pgdir m) /\
    (forall m, p + i <= m < p + i + Z.of_nat j -> changeable k pgdir sz m = true) /\
    (r = 0 /\ j = S n \/ r = -1 /\ (j < S n)%nat /\ changeable k pgdir sz (p + i + Z.of_nat j) = false)).
  { intros k' -> Hc. exists k, (-1), 0%nat. split; [done|]. split; [lia|]. split; [done|]. split; [done|].
    split; [intros m _; by rewrite decide_False by lia|]. split; [lia|]. right. rewrite Z.add_0_r. split; [done|]. split; [lia|done]. }
  assert (Hva : u32 (a + u32 (i * PGSIZE)) = (p + i) * PGSIZE).
  { destruct (decide (i = 0)) as [->|Hne]; [rewrite Z.mul_0_l; change (u32 0) with 0; rewrite u32_small; [lia|unfold is_u32; lia]|].
    rewrite (u32_small (i * PGSIZE)) by (unfold is_u32; lia). rewrite u32_small; [lia|unfold is_u32; lia]. }
  rewrite Hva. destruct (Z.ltb_spec sz ((p + i) * PGSIZE)) as [Hlt|Hle].
  { apply Hstop; [done|]. unfold changeable. by rewrite (proj2 (Z.leb_gt _ _) Hlt). }
  assert (Hr : 0 <= (p + i) * PGSIZE < 2 ^ 32) by lia. assert (Hq : (p + i) * PGSIZE / 4096 = p + i) by (rewrite HP; by apply Z.div_mul).
  pose proof (va_page _ Hr) as Hup. rewrite Hq in Hup. unfold cpwalkpgdir.
  destruct (present (pde_at k pgdir ((p + i) / 1024))) eqn:Hp.
  2: { rewrite walk_missing by (rewrite ?Hq; done). rewrite Z.eqb_refl. apply Hstop; [done|]. unfold changeable. by rewrite Hp, andb_false_r. }
  rewrite walk_found by (rewrite ?Hq; done). rewrite Hq.
  pose proof (tab_addr_pos kend k free pgdir (p + i) Ha Hup Hp) as Htab. rewrite (proj2 (Z.eqb_neq _ _) Htab).
  destruct (protect_step f k free pgdir (p + i) Hf Ha Hup Hp) as (Ha1 & Hd1 & Hp1). set (k1 := st _ _ _) in *. clearbody k1.
  destruct (IH k1 (i + 1) Ha1) as (k2 & r & j & -> & Hj & Ha2 & Hd2 & Hp2 & Hc2 & Hr2); [lia|lia|lia|].
  assert (Hc : forall m, upage m -> changeable k1 pgdir sz m = changeable k pgdir sz m).
  { intros m Hm. unfold changeable. rewrite Hd1; [done|]. by apply upage_div. }
  assert (Hcm : forall m, p + i <= m -> (m <= p + i \/ changeable k1 pgdir sz m = true) -> changeable k pgdir sz m = true).
  { intros m Hm [Hle'|Hcm]; [assert (m = p + i) as -> by lia; unfold changeable; by rewrite Hp, (proj2 (Z.leb_le _ _) Hle)|].
    rewrite <- Hc; [done|]. unfold changeable in Hcm. apply andb_true_iff in Hcm as [Hcm%Z.leb_le _]. unfold upage in *. lia. }
  exists k2, r, (S j). split; [done|]. split; [lia|]. split; [done|]. split; [intros x Hx; by rewrite Hd2, Hd1|]. split; [|split].
  - intros m Hm. rewrite Hp2, Hp1 by done. repeat case_decide; try lia; done.
  - intros m Hm. apply Hcm; [lia|]. destruct (decide (m = p + i)); [left; lia|right; apply Hc2; lia].
  - destruct Hr2 as [[-> ->]|(-> & Hjn & Hcf)]; [by left|right]. split; [done|]. split; [lia|].
    replace (p + i + Z.of_nat (S j)) with (p + (i + 1) + Z.of_nat j) by lia.
    destruct (changeable k pgdir sz (p + (i + 1) + Z.of_nat j)) eqn:E; [|done]. rewrite <- Hcf. symmetry. rewrite Hc; [done|].
    unfold changeable in E. apply andb_true_iff in E as [E%Z.leb_le _]. unfold upage in *. lia.
Qed.
Lemma change_ok f k free pgdir sz addr len :
  flag_only f -> aspace kend k free pgdir -> is_u32 addr -> is_s32 len -> 0 <= sz < KERNBASE ->
  addr mod PGSIZE = 0 -> 0 < len ->
  exists k' r j, change f k pgdir sz addr len = (k', r) /\ 0 <= j <= len /\ aspace kend k' free pgdir /\
    (forall x, 0 <= x < 1024 -> pde_at k' pgdir x = pde_at k pgdir x) /\
    (forall m, upage m -> pte k' pgdir m = if decide (addr / PGSIZE <= m < addr / PGSIZE + j) then f (pte k pgdir m) else pte k pgdir m) /\
    (forall m, addr / PGSIZE <= m < addr / PGSIZE + j -> changeable k pgdir sz m = true) /\
    (r = 0 /\ j = len \/ r = -1 /\ j < len /\ changeable k pgdir sz (addr / PGSIZE + j) = false).
Proof.
  intros Hf Ha [Ha0 Ha1] Hl Hsz Hal Hlen. unfold change. rewrite Hal, (proj2 (Z.leb_gt _ _) Hlen). cbn [negb orb Z.eqb].
  destruct (protect_from_ok f free pgdir sz addr Hf Hal Ha0 Hsz (Z.to_nat len) k 0 Ha) as (k' & r & j & E & Hj & R1 & R2 & R3 & R4 & R5);
    [lia|done|lia|]. exists k', r, (Z.of_nat j). rewrite Z.add_0_r in *. split; [done|]. split; [lia|]. do 4 (split; [done|]).
  destruct R5 as [[-> ->]|(-> & Hjn & Hc)]; [left; lia|right]. split; [done|]. split; [lia|done].
Qed.

(** C39.  [mprotect] of [len] pages from an aligned address goes through the
    pages in order, clears the writable bit of each and changes nothing else;
    it stops with -1 at the first page that starts behind [sz] or has no page
    table, the pages before it staying changed; it returns 0 when it finds
    none, and -1 without any change when the address is not aligned or [len]
    not positive.  After a success, [munprotect] of the same range succeeds
    and restores the page table if the pages were writable.  Physical memory
    stays partitioned throughout. *)
Theorem mprotect_pages k free pgdir sz addr len
    (Ha : aspace kend k free pgdir) (Haddr : is_u32 addr) (Hlen : is_s32 len) (Hsz : 0 <= sz < KERNBASE) :
  exists k' r j, mprotect k pgdir sz addr len = (k', r) /\ aspace kend k' free pgdir /\
    (forall m, upage m -> pte k' pgdir m =
       if decide (addr / PGSIZE <= m < addr / PGSIZE + j) then Z.land (pte k pgdir m) (Z.lnot PTE_W) else pte k pgdir m) /\
    (if decide (addr mod PGSIZE = 0 /\ 0 < len) then
       (forall m, addr / PGSIZE <= m < addr / PGSIZE + j -> changeable k pgdir sz m = true) /\
       (r = 0 /\ j = len \/ r = -1 /\ 0 <= j < len /\ changeable k pgdir sz (addr / PGSIZE + j) = false)
     else r = -1 /\ j = 0) /\
    (r = 0 -> (forall m, addr / PGSIZE <= m < addr / PGSIZE + len -> Z.testbit (pte k pgdir m) 1 = true) ->
       exists k2, munprotect k' pgdir sz addr len = (k2, 0) /\ aspace kend k2 free pgdir /\
         forall m, upage m -> pte k2 pgdir m = pte k pgdir m).
Proof.
  case_decide as Hc.
  2: { exists k, (-1), 0. split; [|split; [done|split; [intros m _; by rewrite decide_False by lia|split; [done|done]]]].
       unfold mprotect, change. destruct (Z.eqb_spec (addr mod PGSIZE) 0), (Z.leb_spec len 0); simpl; done || lia. }
  destruct Hc as [Hal Hpos]. destruct (change_ok _ k free pgdir sz addr len clear_flag Ha Haddr Hlen Hsz Hal Hpos)
    as (k' & r & j & E & Hj & R1 & R2 & R3 & R4 & R5).
  exists k', r, j. split; [done|]. split; [done|]. split; [done|]. split.
  { split; [done|]. destruct R5 as [?|(? & ? & ?)]; [by left|right]. split; [done|]. split; [lia|done]. }
  intros -> Hw. destruct R5 as [[_ ->]|[? _]]; [|done].
  destruct (change_ok _ k' free pgdir sz addr len set_flag R1 Haddr Hlen Hsz Hal Hpos) as (k2 & r2 & j2 & E2 & Hj2 & Q1 & Q2 & Q3 & Q4 & Q5).
  assert (Hch : forall m, upage m -> changeable k' pgdir sz m = changeable k pgdir sz m).
  { intros m Hm. unfold changeable. by rewrite R2 by by apply upage_div. }
  assert (Hp0 : 0 <= addr / PGSIZE) by (apply Z.div_pos; [apply Haddr|done]).
  destruct Q5 as [[-> ->]|(_ & Hlt & Hcf)].
  2: { exfalso. pose proof (R4 (addr / PGSIZE + j2) ltac:(lia)) as Hct. rewrite <- Hch in Hct; [congruence|].
       unfold changeable in Hct. apply andb_true_iff in Hct as [Hct%Z.leb_le _]. unfold upage.
       assert (HP : PGSIZE = 4096 /\ KERNBASE = 2147483648) by done. lia. }
  exists k2. split; [done|]. split; [done|]. intros m Hm. rewrite Q3, R3 by done. case_decide; [|done]. apply clear_set_flag. by apply Hw.
Qed.

(** The end of the process itself passes the test. *)
Lemma mprotect_past_end k free pgdir sz
    (Ha : aspace kend k free pgdir) (Hsz : 0 <= sz < KERNBASE) (Hal : sz mod PGSIZE = 0)
    (Htab : present (pde_at k pgdir (sz / PGSIZE / 1024)) = true) :
  exists k', mprotect k pgdir sz sz 1 = (k', 0).
Proof.
  assert (HK : KERNBASE = 2147483648) by done.
  destruct (change_ok _ k free pgdir sz sz 1 clear_flag Ha) as (k' & r & j & E & Hj & _ & _ & _ & _ & R5);
    [unfold is_u32; lia|unfold is_s32; lia|done|done|lia|].
  exists k'. unfold mprotect. rewrite E. destruct R5 as [[-> _]|(_ & Hj0 & Hc)]; [done|]. exfalso. assert (j = 0) as -> by lia.
  rewrite Z.add_0_r in Hc. unfold changeable in Hc. rewrite Htab, andb_true_r in Hc. apply Z.leb_gt in Hc.
  pose proof (Z.div_mod sz PGSIZE ltac:(done)). lia.
Qed.
End protect.

(** ** An instance: the page of a process of one page *)

Lemma one_page : exists k free, aspace (page 1) k free (page 4) /\ Z.testbit (pte k (page 4) 0) 1 = true.
Proof.
  destruct three_pages_ok as [Ha Hz].
  assert (Hk : KERNBASE < page 1) by (unfold page; lia).
  destruct (allocuvm_from_spec (page 1) Hk (alloc_fuel 0 4096) three_pages [page 2; page 3] (page 4) 0 0 4096)
    as (k' & free' & ok & E & Hok & _); [exact Ha|lia|done|unfold KERNBASE; lia|intros m Hm _; by rewrite Hz|vm_compute; lia|vm_compute; congruence|].
  assert (Eok : match allocuvm_from (page 1) (alloc_fuel 0 4096) three_pages (page 4) 0 0 4096 with Ret (_, b) => b | _ => false end = true)
    by (vm_compute; reflexivity).
  rewrite E in Eok. subst ok. destruct Hok as [G1 G2 _ _ _ _].
  destruct (G2 0) as (q & Hq & Ep & _); [unfold upage; lia|unfold in_range; lia|].
  exists k', free'. split; [exact G1|]. rewrite Ep. unfold entry. rewrite !Z.lor_spec. by rewrite orb_true_r.
Qed.

Lemma mprotect_pages_witness :
  exists k k1 k2, mprotect k (page 4) 4096 0 1 = (k1, 0) /\ Z.testbit (pte k1 (page 4) 0) 1 = false /\
    munprotect k1 (page 4) 4096 0 1 = (k2, 0).
Proof.
  destruct one_page as (k & free & Ha & Hw).
  assert (Hu : is_u32 0 /\ is_s32 1 /\ 0 <= 4096 < KERNBASE) by (unfold is_u32, is_s32, KERNBASE; lia). destruct Hu as (Hu1 & Hu2 & Hu3).
  destruct (mprotect_pages (page 1) k free (page 4) 4096 0 1 Ha Hu1 Hu2 Hu3) as (k1 & r & j & E & Ha1 & Hp & Hr & Hback).
  rewrite decide_True in Hr by (split; [done|lia]). destruct Hr as [_ [[-> ->]|(_ & Hj & Hc)]].
  - destruct (Hback eq_refl) as (k2 & E2 & _).
    { intros m Hm. assert (m = 0) as -> by (change (0 / PGSIZE) with 0 in Hm; lia). exact Hw. }
    exists k, k1, k2. split; [exact E|]. split; [|exact E2]. rewrite Hp by (unfold upage; lia).
    rewrite decide_True by (change (0 / PGSIZE) with 0; lia). rewrite Z.land_spec. by rewrite andb_false_r.
  - exfalso. assert (j = 0) as -> by lia. unfold changeable in Hc. change (0 / PGSIZE + 0) with 0 in Hc. change (0 * PGSIZE <=? 4096) with true in Hc. cbn [andb] in Hc.
    unfold pte in Hw. rewrite Hc in Hw. by rewrite Z.bits_0 in Hw.
Defined.
End Protect.
