(* ===== verification/Sysfile.v ===== *)
(** * The file system calls

    [sysfile.c] of p3b and the reading and writing half of [file.c]: file
    descriptors over the open-file table, the file system, the log and the
    pipes, as one process runs them.  Path names and the locals of the calls
    ([name], [de], the literals "." and "..") lie in one byte memory. *)

From S2P Require Import Prelude DfsImage Kalloc Bio Log Txn CString Fs File Pipe Proc Syscall.
Local Open Scope Z_scope.
Local Open Scope xv6_scope.

Module Sysfile.

Definition NOFILE : Z := 16.
Definition O_RDONLY : Z := 0.
Definition O_WRONLY : Z := 1.
Definition O_RDWR : Z := 2.
Definition O_CREATE : Z := 512.
Definition T_FILE : Z := 2.
Definition SIZEOF_STAT : Z := 20.

Definition with_nlink (n : Z) (ip : Fs.inode) : Fs.inode :=
  {| Fs.dev := Fs.dev ip; Fs.inum := Fs.inum ip; Fs.ref := Fs.ref ip; Fs.lock := Fs.lock ip; Fs.valid := Fs.valid ip;
     Fs.type := Fs.type ip; Fs.major := Fs.major ip; Fs.minor := Fs.minor ip; Fs.nlink := n;
     Fs.isize := Fs.isize ip; Fs.addrs := Fs.addrs ip |}.
Definition with_device (major minor : Z) (ip : Fs.inode) : Fs.inode :=
  {| Fs.dev := Fs.dev ip; Fs.inum := Fs.inum ip; Fs.ref := Fs.ref ip; Fs.lock := Fs.lock ip; Fs.valid := Fs.valid ip;
     Fs.type := Fs.type ip; Fs.major := major; Fs.minor := minor; Fs.nlink := Fs.nlink ip;
     Fs.isize := Fs.isize ip; Fs.addrs := Fs.addrs ip |}.

Definition with_off (o : Z) (f : File.file) : File.file :=
  {| File.type := File.type f; File.ref := File.ref f; File.readable := File.readable f; File.writable := File.writable f;
     File.fpipe := File.fpipe f; File.ip := File.ip f; File.off := o |}.

(** [struct stat] in memory. *)
Definition put_stat (mem : bytes) (a : Z) (st : Fs.stat) : bytes :=
  let mem := Fs.put16 mem a (Fs.st_type st) in
  let mem := put32 mem (a + 4) (Fs.st_dev st) in
  let mem := put32 mem (a + 8) (Fs.st_ino st) in
  let mem := Fs.put16 mem (a + 12) (Fs.st_nlink st) in
  put32 mem (a + 16) (Fs.st_size st).

Fixpoint put_bytes (mem : bytes) (a : Z) (l : list Z) : bytes :=
  match l with [] => mem | c :: l => put_bytes (put8 mem a c) (a + 1) l end.

(** How a turn of a call ends: it returns, or sleeps in a pipe with bytes
    still to write. *)
Inductive io := Done (r : Z) | Sleeps (rest : list Z).

Section sysfile.
Context {T : Type} `{BlockCache T}.
Abbreviation fs := (Fs.fs (Log.log * T)).
Context (sb : Fs.superblock) (mypid : Z) (killed : bool).
Context (devsw_read devsw_write : Z -> option (fs -> bytes -> nat -> Z -> Z -> outcome (fs * bytes * Z))).
(** The size and the stack pointer of the process; the locals [name] and
    [de] of the call, and those of what it calls; the two literals; a bound on
    the length of path names. *)
Context (sz esp : Z) (name name' de de' dot dotdot : Z) (fuel : nat).

Record sys := {
  fsys : fs; ftable : list File.file; pipes : Z -> Pipe.pipe; mem : bytes;
  ofile : list (option nat); cwd : nat
}.

Definition with_fsys (f : fs) (s : sys) : sys :=
  {| fsys := f; ftable := ftable s; pipes := pipes s; mem := mem s; ofile := ofile s; cwd := cwd s |}.
Definition with_ftable (t : list File.file) (s : sys) : sys :=
  {| fsys := fsys s; ftable := t; pipes := pipes s; mem := mem s; ofile := ofile s; cwd := cwd s |}.
Definition with_pipe (p : Z) (q : Pipe.pipe) (s : sys) : sys :=
  {| fsys := fsys s; ftable := ftable s; pipes := fun x => if x =? p then q else pipes s x; mem := mem s;
     ofile := ofile s; cwd := cwd s |}.
Definition with_mem (m : bytes) (s : sys) : sys :=
  {| fsys := fsys s; ftable := ftable s; pipes := pipes s; mem := m; ofile := ofile s; cwd := cwd s |}.
Definition with_ofile (l : list (option nat)) (s : sys) : sys :=
  {| fsys := fsys s; ftable := ftable s; pipes := pipes s; mem := mem s; ofile := l; cwd := cwd s |}.
Definition with_cwd (i : nat) (s : sys) : sys :=
  {| fsys := fsys s; ftable := ftable s; pipes := pipes s; mem := mem s; ofile := ofile s; cwd := i |}.

Definition begin_op (f : fs) : outcome fs :=
  let* lg := Log.begin_op (Fs.disk f).1 in Ret (Fs.with_disk (lg, (Fs.disk f).2) f).
Definition end_op (f : fs) : outcome fs :=
  let* d := Log.end_op (Fs.disk f).1 (Fs.disk f).2 in Ret (Fs.with_disk d f).

(** ** file.c *)

(** What [fileclose] does with the last reference. *)
Definition release (s : sys) (r : File.release) : outcome sys :=
  match r with
  | File.RNone => Ret s
  | File.RPipe p w => Ret (with_pipe p (Pipe.pipeclose (pipes s p) w).1 s)
  | File.RInode ip =>
      let* f := begin_op (fsys s) in
      let* f := Fs.iput sb mypid f (Z.to_nat ip) in
      let* f := end_op f in
      Ret (with_fsys f s)
  end.

Definition fileclose (s : sys) (i : nat) : outcome sys :=
  let* (t, r) := File.fileclose (ftable s) i in release (with_ftable t s) r.

Definition filestat (s : sys) (i : nat) (st : Z) : outcome (sys * Z) :=
  let* f := of_option (ftable s !! i) in
  match File.type f with
  | File.FD_INODE =>
      let ip := Z.to_nat (File.ip f) in
      let* g := Fs.ilock sb mypid (fsys s) (Some ip) in
      let* n := of_option (Fs.icache g !! ip) in
      let m := put_stat (mem s) st (Fs.stati n) in
      let* g := Fs.iunlock mypid g (Some ip) in
      Ret (with_mem m (with_fsys g s), 0)
  | _ => Ret (s, -1)
  end.

(** [f->off += r] when [r] is positive. *)
Definition advance (s : sys) (i : nat) (r : Z) : sys :=
  if 0 <? r then with_ftable (alter (fun f => with_off (u32 (File.off f + r)) f) i (ftable s)) s else s.

Definition fileread (s : sys) (i : nat) (addr n : Z) : outcome (sys * io) :=
  let* f := of_option (ftable s !! i) in
  if negb (File.readable f) then Ret (s, Done (-1))
  else
    match File.type f with
    | File.FD_PIPE =>
        let* (q, t) := of_option (Pipe.piperead (pipes s (File.fpipe f)) killed n) in
        let s := with_pipe (File.fpipe f) q s in
        match t with
        | Pipe.RRet r l => Ret (with_mem (put_bytes (mem s) addr l) s, Done r)
        | Pipe.RSleep => Ret (s, Sleeps [])
        end
    | File.FD_INODE =>
        let ip := Z.to_nat (File.ip f) in
        let* g := Fs.ilock sb mypid (fsys s) (Some ip) in
        let* (g, m, r) := Fs.readi sb devsw_read g (mem s) ip addr (File.off f) (u32 n) in
        let s := advance (with_mem m s) i r in
        let* g := Fs.iunlock mypid g (Some ip) in
        Ret (with_fsys g s, Done r)
    | File.FD_NONE => Panic "fileread"
    end.

(** [((MAXOPBLOCKS-1-1-2) / 2) * 512]. *)
Definition max_write : Z := (Log.MAXOPBLOCKS - 1 - 1 - 2) / 2 * 512.

(** [while(i < n)] of [filewrite]; each turn writes at least a byte. *)
Fixpoint filewrite_from (k : nat) (s : sys) (fi : nat) (addr n i : Z) : outcome (sys * Z) :=
  if i <? n then
    match k with
    | O => Fault
    | S k =>
        let n1 := if max_write <? n - i then max_write else n - i in
        let* f := of_option (ftable s !! fi) in
        let ip := Z.to_nat (File.ip f) in
        let* g := begin_op (fsys s) in
        let* g := Fs.ilock sb mypid g (Some ip) in
        let* (g, m, r) := Fs.writei sb devsw_write g (mem s) ip (u32 (addr + i)) (File.off f) n1 in
        let s := advance (with_mem m s) fi r in
        let* g := Fs.iunlock mypid g (Some ip) in
        let* g := end_op g in
        let s := with_fsys g s in
        if r <? 0 then Ret (s, i)
        else if negb (r =? n1) then Panic "short filewrite"
        else filewrite_from k s fi addr n (i + r)
    end
  else Ret (s, i).

Definition filewrite (s : sys) (i : nat) (addr n : Z) : outcome (sys * io) :=
  let* f := of_option (ftable s !! i) in
  if negb (File.writable f) then Ret (s, Done (-1))
  else
    match File.type f with
    | File.FD_PIPE =>
        let l := map (fun j => mem s (addr + j)) (seqZ 0 n) in
        let* (q, t) := of_option (Pipe.pipewrite (pipes s (File.fpipe f)) killed l n) in
        let s := with_pipe (File.fpipe f) q s in
        match t with Pipe.WRet r => Ret (s, Done r) | Pipe.WSleep rest => Ret (s, Sleeps rest) end
    | File.FD_INODE =>
        let* (s, j) := filewrite_from (Z.to_nat n) s i addr n 0 in
        Ret (s, Done (if j =? n then n else -1))
    | File.FD_NONE => Panic "filewrite"
    end.

(** ** File descriptors *)

Definition argfd (s : sys) (n : Z) : option (Z * nat) :=
  let? fd := Syscall.argint sz (mem s) esp n in
  if (fd <? 0) || (NOFILE <=? fd) then None
  else let? f := mjoin (getZ (ofile s) fd) in Some (fd, f).

(** The loop of [fdalloc] over the free descriptors. *)
Fixpoint free_fd (l : list (option nat)) : option nat :=
  match l with [] => None | None :: _ => Some 0%nat | Some _ :: l => S <$> free_fd l end.

Definition fdalloc (s : sys) (f : nat) : sys * Z :=
  match free_fd (ofile s) with
  | Some fd => (with_ofile (<[fd := Some f]> (ofile s)) s, Z.of_nat fd)
  | None => (s, -1)
  end.

Definition sys_dup (s : sys) : outcome (sys * Z) :=
  match argfd s 0 with
  | None => Ret (s, -1)
  | Some (_, f) =>
      let (s, fd) := fdalloc s f in
      if fd <? 0 then Ret (s, -1)
      else let* t := File.filedup (ftable s) f in Ret (with_ftable t s, fd)
  end.

(** [argfd(0, 0, &f) < 0 || argint(2, &n) < 0 || argptr(1, &p, n) < 0]. *)
Definition io_args (s : sys) : option (nat * Z * Z) :=
  let? (_, f) := argfd s 0 in
  let? n := Syscall.argint sz (mem s) esp 2 in
  let? p := Syscall.argptr sz (mem s) esp 1 n in
  Some (f, p, n).

Definition sys_read (s : sys) : outcome (sys * io) :=
  match io_args s with None => Ret (s, Done (-1)) | Some (f, p, n) => fileread s f p n end.

Definition sys_write (s : sys) : outcome (sys * io) :=
  match io_args s with None => Ret (s, Done (-1)) | Some (f, p, n) => filewrite s f p n end.

Definition sys_close (s : sys) : outcome (sys * Z) :=
  match argfd s 0 with
  | None => Ret (s, -1)
  | Some (fd, f) =>
      let s := with_ofile (<[Z.to_nat fd := None]> (ofile s)) s in
      let* s := fileclose s f in
      Ret (s, 0)
  end.

Definition sys_fstat (s : sys) : outcome (sys * Z) :=
  match argfd s 0, Syscall.argptr sz (mem s) esp 1 SIZEOF_STAT with
  | Some (_, f), Some st => filestat s f st
  | _, _ => Ret (s, -1)
  end.

(** [page] is what [kalloc] returns for the pipe, [contents] what it holds. *)
Definition sys_pipe (s : sys) (page : Z) (contents : list Z) : outcome (sys * Z) :=
  match Syscall.argptr sz (mem s) esp 0 8 with
  | None => Ret (s, -1)
  | Some fd =>
      let* (t, r, _) := File.pipealloc (ftable s) page in
      let s := with_ftable t s in
      match r with
      | None => Ret (s, -1)
      | Some (rf, wf) =>
          let s := with_pipe page (Pipe.pipeinit contents) s in
          let (s, fd0) := fdalloc s rf in
          let (s, fd1) := if fd0 <? 0 then (s, -1) else fdalloc s wf in
          if fd1 <? 0 then
            let s := if 0 <=? fd0 then with_ofile (<[Z.to_nat fd0 := None]> (ofile s)) s else s in
            let* s := fileclose s rf in
            let* s := fileclose s wf in
            Ret (s, -1)
          else Ret (with_mem (put32 (put32 (mem s) fd fd0) (fd + 4) fd1) s, 0)
      end
  end.
(** ** Paths *)

Abbreviation namei := (Fs.namei sb mypid devsw_read fuel).
Abbreviation nameiparent := (Fs.nameiparent sb mypid devsw_read fuel).

(** A change of the inode in hand and [iupdate]. *)
Definition update_inode (f : fs) (i : nat) (g : Fs.inode -> Fs.inode) : outcome fs :=
  Fs.iupdate sb (Fs.upd i g f) i.

Definition add_link (d : Z) (ip : Fs.inode) : Fs.inode := with_nlink (Fs.s16 (Fs.nlink ip + d)) ip.

(** [iunlockput(ip); end_op(); return -1]. *)
Definition fail_put (s : sys) (f : fs) (m : bytes) (i : nat) : outcome (sys * Z) :=
  let* f := Fs.iunlockput sb mypid f i in
  let* f := end_op f in
  Ret (with_mem m (with_fsys f s), -1).

(** [end_op(); return -1]. *)
Definition fail (s : sys) (f : fs) (m : bytes) : outcome (sys * Z) :=
  let* f := end_op f in Ret (with_mem m (with_fsys f s), -1).

(** The [bad] path of [sys_link]. *)
Definition link_bad (s : sys) (f : fs) (m : bytes) (ip : nat) : outcome (sys * Z) :=
  let* f := Fs.ilock sb mypid f (Some ip) in
  let* f := update_inode f ip (add_link (-1)) in
  fail_put s f m ip.

Definition sys_link (s : sys) : outcome (sys * Z) :=
  match Syscall.argstr sz (mem s) esp 0, Syscall.argstr sz (mem s) esp 1 with
  | Some (old, _), Some (new, _) =>
      let* f := begin_op (fsys s) in
      let* (f, m, r) := namei f (mem s) (cwd s) old name' de' in
      match r with
      | None => fail s f m
      | Some ip =>
          let* f := Fs.ilock sb mypid f (Some ip) in
          let* n := of_option (Fs.icache f !! ip) in
          if Fs.type n =? Fs.T_DIR then fail_put s f m ip
          else
            let* f := update_inode f ip (add_link 1) in
            let* f := Fs.iunlock mypid f (Some ip) in
            let* (f, m, r) := nameiparent f m (cwd s) new name de' in
            match r with
            | None => link_bad s f m ip
            | Some dp =>
                let* f := Fs.ilock sb mypid f (Some dp) in
                let* d := of_option (Fs.icache f !! dp) in
                let* n := of_option (Fs.icache f !! ip) in
                let* (f, m, bad) :=
                  if negb (Fs.dev d =? Fs.dev n) then Ret (f, m, true)
                  else
                    let* (f, m, r) := Fs.dirlink sb mypid devsw_read devsw_write f m dp name (Fs.inum n) de' in
                    Ret (f, m, r <? 0) in
                let* f := Fs.iunlockput sb mypid f dp in
                if (bad : bool) then link_bad s f m ip
                else
                  let* f := Fs.iput sb mypid f ip in
                  let* f := end_op f in
                  Ret (with_mem m (with_fsys f s), 0)
            end
      end
  | _, _ => Ret (s, -1)
  end.

(** [for(off=2*sizeof(de); off<dp->size; off+=sizeof(de))]. *)
Fixpoint isdirempty_from (k : nat) (f : fs) (m : bytes) (dp : nat) (off : Z) : outcome (fs * bytes * bool) :=
  let* d := of_option (Fs.icache f !! dp) in
  if off <? Fs.isize d then
    match k with
    | O => Fault
    | S k =>
        let* (f, m, r) := Fs.readi sb devsw_read f m dp de' off Fs.SIZEOF_DIRENT in
        if negb (r =? Fs.SIZEOF_DIRENT) then Panic "isdirempty: readi"
        else if negb (Fs.word16 m de' =? 0) then Ret (f, m, false)
        else isdirempty_from k f m dp (off + Fs.SIZEOF_DIRENT)
    end
  else Ret (f, m, true).

Definition isdirempty (f : fs) (m : bytes) (dp : nat) : outcome (fs * bytes * bool) :=
  let* d := of_option (Fs.icache f !! dp) in
  isdirempty_from (Fs.dir_fuel d) f m dp (2 * Fs.SIZEOF_DIRENT).

Definition sys_unlink (s : sys) : outcome (sys * Z) :=
  match Syscall.argstr sz (mem s) esp 0 with
  | None => Ret (s, -1)
  | Some (path, _) =>
      let* f := begin_op (fsys s) in
      let* (f, m, r) := nameiparent f (mem s) (cwd s) path name de' in
      match r with
      | None => fail s f m
      | Some dp =>
          let* f := Fs.ilock sb mypid f (Some dp) in
          if (Fs.namecmp m name dot =? 0) || (Fs.namecmp m name dotdot =? 0) then fail_put s f m dp
          else
            let* (f, m, r) := Fs.dirlookup sb devsw_read f m dp name de' in
            match r with
            | None => fail_put s f m dp
            | Some (ip, off) =>
                let* f := Fs.ilock sb mypid f (Some ip) in
                let* n := of_option (Fs.icache f !! ip) in
                if Fs.nlink n <? 1 then Panic "unlink: nlink < 1"
                else
                  let* (f, m, empty) := if Fs.type n =? Fs.T_DIR then isdirempty f m ip else Ret (f, m, true) in
                  if negb empty then
                    let* f := Fs.iunlockput sb mypid f ip in fail_put s f m dp
                  else
                    let m := Kalloc.memset m de 0 Fs.SIZEOF_DIRENT in
                    let* (f, m, r) := Fs.writei sb devsw_write f m dp de off Fs.SIZEOF_DIRENT in
                    if negb (r =? Fs.SIZEOF_DIRENT) then Panic "unlink: writei"
                    else
                      let* f := if Fs.type n =? Fs.T_DIR then update_inode f dp (add_link (-1)) else Ret f in
                      let* f := Fs.iunlockput sb mypid f dp in
                      let* f := update_inode f ip (add_link (-1)) in
                      let* f := Fs.iunlockput sb mypid f ip in
                      let* f := end_op f in
                      Ret (with_mem m (with_fsys f s), 0)
            end
      end
  end.

(** [create]: the inode locked, or the null pointer. *)
Definition create (f : fs) (m : bytes) (cwd : nat) (path type major minor : Z) : outcome (fs * bytes * option nat) :=
  let* (f, m, r) := nameiparent f m cwd path name de' in
  match r with
  | None => Ret (f, m, None)
  | Some dp =>
      let* f := Fs.ilock sb mypid f (Some dp) in
      let* (f, m, r) := Fs.dirlookup sb devsw_read f m dp name de' in
      match r with
      | Some (ip, _) =>
          let* f := Fs.iunlockput sb mypid f dp in
          let* f := Fs.ilock sb mypid f (Some ip) in
          let* n := of_option (Fs.icache f !! ip) in
          if (type =? T_FILE) && (Fs.type n =? T_FILE) then Ret (f, m, Some ip)
          else let* f := Fs.iunlockput sb mypid f ip in Ret (f, m, None)
      | None =>
          let* d := of_option (Fs.icache f !! dp) in
          let* (f, ip) := Fs.ialloc sb f (Fs.dev d) type in
          let* f := Fs.ilock sb mypid f (Some ip) in
          let* f := update_inode f ip (fun n => with_nlink 1 (with_device major minor n)) in
          let* n := of_option (Fs.icache f !! ip) in
          let* (f, m) :=
            if type =? Fs.T_DIR then
              let* f := update_inode f dp (add_link 1) in
              let* (f, m, r) := Fs.dirlink sb mypid devsw_read devsw_write f m ip dot (Fs.inum n) de' in
              if r <? 0 then Panic "create dots"
              else
                let* (f, m, r) := Fs.dirlink sb mypid devsw_read devsw_write f m ip dotdot (Fs.inum d) de' in
                if r <? 0 then Panic "create dots" else Ret (f, m)
            else Ret (f, m) in
          let* (f, m, r) := Fs.dirlink sb mypid devsw_read devsw_write f m dp name (Fs.inum n) de' in
          if r <? 0 then Panic "create: dirlink"
          else let* f := Fs.iunlockput sb mypid f dp in Ret (f, m, Some ip)
      end
  end.

(** The fields [sys_open] sets in the file it allocated. *)
Definition open_file (ip : nat) (omode : Z) (f : File.file) : File.file :=
  {| File.type := File.FD_INODE; File.ref := File.ref f;
     File.readable := Z.land omode O_WRONLY =? 0;
     File.writable := negb (Z.land omode O_WRONLY =? 0) || negb (Z.land omode O_RDWR =? 0);
     File.fpipe := File.fpipe f; File.ip := Z.of_nat ip; File.off := 0 |}.

(** [sys_open] once it has the inode locked. *)
Definition open_inode (s : sys) (f : fs) (m : bytes) (ip : nat) (omode : Z) : outcome (sys * Z) :=
  let (t, fi) := File.filealloc (ftable s) in
  let s := with_mem m (with_ftable t (with_fsys f s)) in
  let (s, fd) := match fi with Some i => fdalloc s i | None => (s, -1) end in
  match fi with
  | Some i =>
      if fd <? 0 then
        let* s := fileclose s i in
        fail_put s (fsys s) (mem s) ip
      else
        let* f := Fs.iunlock mypid (fsys s) (Some ip) in
        let* f := end_op f in
        Ret (with_ftable (alter (open_file ip omode) i (ftable s)) (with_fsys f s), fd)
  | None => fail_put s (fsys s) (mem s) ip
  end.

Definition sys_open (s : sys) : outcome (sys * Z) :=
  match Syscall.argstr sz (mem s) esp 0, Syscall.argint sz (mem s) esp 1 with
  | Some (path, _), Some omode =>
      let* f := begin_op (fsys s) in
      if negb (Z.land omode O_CREATE =? 0) then
        let* (f, m, r) := create f (mem s) (cwd s) path T_FILE 0 0 in
        match r with None => fail s f m | Some ip => open_inode s f m ip omode end
      else
        let* (f, m, r) := namei f (mem s) (cwd s) path name' de' in
        match r with
        | None => fail s f m
        | Some ip =>
            let* f := Fs.ilock sb mypid f (Some ip) in
            let* n := of_option (Fs.icache f !! ip) in
            if (Fs.type n =? Fs.T_DIR) && negb (omode =? O_RDONLY) then fail_put s f m ip
            else open_inode s f m ip omode
        end
  | _, _ => Ret (s, -1)
  end.

(** What [sys_mkdir] and [sys_mknod] share. *)
Definition make (s : sys) (f : fs) (path type major minor : Z) : outcome (sys * Z) :=
  let* (f, m, r) := create f (mem s) (cwd s) path type major minor in
  match r with
  | None => fail s f m
  | Some ip =>
      let* f := Fs.iunlockput sb mypid f ip in
      let* f := end_op f in
      Ret (with_mem m (with_fsys f s), 0)
  end.

Definition sys_mkdir (s : sys) : outcome (sys * Z) :=
  let* f := begin_op (fsys s) in
  match Syscall.argstr sz (mem s) esp 0 with
  | None => fail s f (mem s)
  | Some (path, _) => make s f path Fs.T_DIR 0 0
  end.

Definition sys_mknod (s : sys) : outcome (sys * Z) :=
  let* f := begin_op (fsys s) in
  match Syscall.argstr sz (mem s) esp 0, Syscall.argint sz (mem s) esp 1, Syscall.argint sz (mem s) esp 2 with
  | Some (path, _), Some major, Some minor => make s f path Fs.T_DEV (Fs.s16 major) (Fs.s16 minor)
  | _, _, _ => fail s f (mem s)
  end.

Definition sys_chdir (s : sys) : outcome (sys * Z) :=
  let* f := begin_op (fsys s) in
  match Syscall.argstr sz (mem s) esp 0 with
  | None => fail s f (mem s)
  | Some (path, _) =>
      let* (f, m, r) := namei f (mem s) (cwd s) path name' de' in
      match r with
      | None => fail s f m
      | Some ip =>
          let* f := Fs.ilock sb mypid f (Some ip) in
          let* n := of_option (Fs.icache f !! ip) in
          if negb (Fs.type n =? Fs.T_DIR) then fail_put s f m ip
          else
            let* f := Fs.iunlock mypid f (Some ip) in
            let* f := Fs.iput sb mypid f (cwd s) in
            let* f := end_op f in
            Ret (with_cwd ip (with_mem m (with_fsys f s)), 0)
      end
  end.
End sysfile.
Arguments sys : clear implicits.

End Sysfile.
