(* ===== verification/SysfileThms.v ===== *)
(** * The file system calls: theorems

    The references of the open-file table are exactly the open descriptors,
    whatever calls are made. *)

From S2P Require Import Prelude DfsImage Kalloc Bio Log Txn CString Fs File Pipe Proc Syscall Sysfile.
Import Sysfile.
Local Open Scope Z_scope.
Local Open Scope xv6_scope.

Module SysfileThms.

(** ** Descriptors *)

(** The files the descriptors of a process refer to. *)
Definition fds (l : list (option nat)) : list nat := omap id l.

Lemma fds_insert l k f : l !! k = Some None -> fds (<[k := Some f]> l) ≡ₚ f :: fds l.
Proof.
  intros E. pose proof (lookup_lt_Some _ _ _ E). rewrite <- (take_drop_middle l k None E) at 2.
  rewrite insert_take_drop by done. unfold fds. rewrite !omap_app. simpl. by rewrite Permutation_middle.
Qed.

Lemma fds_remove l k f : l !! k = Some (Some f) -> fds l ≡ₚ f :: fds (<[k := None]> l).
Proof.
  intros E. pose proof (lookup_lt_Some _ _ _ E). rewrite <- (take_drop_middle l k _ E) at 1.
  rewrite insert_take_drop by done. unfold fds. rewrite !omap_app. simpl. by rewrite Permutation_middle.
Qed.

Lemma fds_held l k f : l !! k = Some (Some f) -> f ∈ fds l.
Proof. intros E. rewrite (fds_remove l k f E). left. Qed.

Lemma free_fd_spec l : match free_fd l with Some k => l !! k = Some None | None => True end.
Proof.
  induction l as [|[f|] l IH]; cbn [free_fd]; [done| |done]. by destruct (free_fd l).
Qed.

Lemma table_ok_perm t h h' : h ≡ₚ h' -> File.table_ok t h -> File.table_ok t h'.
Proof.
  intros Hp [H1 H2 H3]. split; [|done|].
  - intros i f E. rewrite <- (File.refs_to_perm _ _ i Hp). by apply H1.
  - intros i Hi. apply H3. by rewrite Hp.
Qed.

#[export] Instance table_ok_proper t : Proper (Permutation ==> iff) (File.table_ok t).
Proof. intros h h' Hp. split; by apply table_ok_perm. Qed.

(** A file changed in a field the counts do not look at. *)
Lemma table_ok_alter t h i (g : File.file -> File.file) :
  File.table_ok t h -> (forall f, File.ref (g f) = File.ref f) -> (i ∈ h \/ forall f, File.type (g f) = File.type f) ->
  File.table_ok (alter g i t) h.
Proof.
  intros [H1 H2 H3] Hr Ht.
  assert (Hold : forall j f', alter g i t !! j = Some f' -> exists f, t !! j = Some f /\ (f' = g f /\ j = i \/ f' = f)).
  { intros j f'. destruct (decide (i = j)) as [<-|Hne].
    - rewrite list_lookup_alter_eq. destruct (t !! i) as [f|]; [|done]. intros [= <-]. exists f. auto.
    - rewrite list_lookup_alter_ne by done. intros E. exists f'. auto. }
  split.
  - intros j f' E. destruct (Hold j f' E) as (f & E0 & [[-> _]| ->]); rewrite ?Hr; by apply H1.
  - intros j f' E. destruct (Hold j f' E) as (f & E0 & [[-> ->]| ->]); [|by apply (H2 j)].
    rewrite Hr. intros Hz. destruct Ht as [Ht| ->]; [|by apply (H2 i)].
    apply File.refs_to_held in Ht. rewrite (H1 i f E0) in Hz. lia.
  - intros j Hj. rewrite length_alter. by apply H3.
Qed.

(** Takes the result of a call apart. *)
Ltac inv_step H :=
  match type of H with
  | obind _ _ = Ret _ => let x := fresh "x" in let E := fresh "E" in apply obind_ret in H; destruct H as (x & E & H)
  | Ret (_, _) = Ret (_, _) => injection H as <- <-
  | Panic _ = Ret _ => discriminate H
  | Fault = Ret _ => discriminate H
  | Blocked = Ret _ => discriminate H
  | (let (_, _) := ?x in _) = _ => destruct x eqn:?
  | (if ?b then _ else _) = _ => destruct b eqn:?
  | match ?x with _ => _ end = _ => destruct x eqn:?
  end.
Ltac inv_steps H := repeat inv_step H.

Section calls.
Context {T : Type} `{BlockCache T} (sb : Fs.superblock) (mypid : Z) (killed : bool).
Context (devr devw : Z -> option (Fs.fs (Log.log * T) -> bytes -> nat -> Z -> Z -> outcome (Fs.fs (Log.log * T) * bytes * Z))).
Context (sz esp : Z) (name name' de de' dot dotdot : Z) (fuel : nat).
Implicit Types (s : sys T) (h : list nat).

(** [h] are the references of other processes. *)
Definition fd_ok s h : Prop := File.table_ok (ftable s) (fds (ofile s) ++ h).

Definition same_fds s s' : Prop := ftable s' = ftable s /\ ofile s' = ofile s.

Lemma same_fds_ok s s' h : same_fds s s' -> fd_ok s h -> fd_ok s' h.
Proof. unfold fd_ok. by intros [-> ->]. Qed.

Lemma release_fds s r s' : release sb mypid s r = Ret s' -> same_fds s s'.
Proof. destruct r; cbn [release]; intros E; inv_steps E; try (injection E as <-); done. Qed.

Lemma fileclose_ok s i s' h h' :
  File.table_ok (ftable s) h -> h ≡ₚ i :: h' -> fileclose sb mypid s i = Ret s' ->
  File.table_ok (ftable s') h' /\ ofile s' = ofile s.
Proof.
  intros Hok Hp E. assert (Hi : i ∈ h) by (rewrite Hp; left).
  destruct (lookup_lt_is_Some_2 _ _ (File.to_held _ _ Hok i Hi)) as [f Ef].
  destruct (File.fileclose_spec _ _ _ _ _ Hok Hp Ef) as (t & f' & Ec & Hok' & _). unfold fileclose in E.
  rewrite Ec in E. cbn [obind] in E. apply release_fds in E as [Et Eo]. by rewrite Et, Eo.
Qed.

(** A new descriptor for a file that is held once more. *)
Lemma fdalloc_ok s f s' fd h :
  fdalloc s f = (s', fd) -> File.table_ok (ftable s) (f :: fds (ofile s) ++ h) ->
  ftable s' = ftable s /\ (if fd <? 0 then s' = s else File.table_ok (ftable s') (fds (ofile s') ++ h)).
Proof.
  unfold fdalloc. pose proof (free_fd_spec (ofile s)) as Hf. destruct (free_fd (ofile s)) as [k|]; intros [= <- <-] Hok; split; try done.
  rewrite (proj2 (Z.ltb_ge _ _)) by lia. simpl. eapply table_ok_perm; [|exact Hok]. by rewrite (fds_insert _ _ f Hf).
Qed.

Lemma argfd_held s n fd f : argfd sz esp s n = Some (fd, f) -> 0 <= fd /\ ofile s !! Z.to_nat fd = Some (Some f).
Proof.
  unfold argfd. destruct (Syscall.argint _ _ _ _) as [d|]; [|done]. destruct (Z.ltb_spec d 0); [done|].
  destruct (NOFILE <=? d); [done|]. cbn [orb]. unfold getZ. rewrite decide_True by done.
  destruct (ofile s !! Z.to_nat d) as [[g|]|] eqn:E; simpl; [|done..]. by intros [= <- <-].
Qed.

(** ** The calls on descriptors *)

Lemma sys_dup_ok s s' r h : fd_ok s h -> sys_dup sz esp s = Ret (s', r) -> fd_ok s' h.
Proof.
  intros Hok E. unfold sys_dup in E. destruct (argfd sz esp s 0) as [[d f]|] eqn:Ea; [|by inv_steps E].
  apply argfd_held in Ea as [_ Ea].
  destruct (File.filedup_spec (ftable s) (fds (ofile s) ++ h) f Hok) as (t & Ed & Hok').
  { apply elem_of_app. left. by eapply fds_held. }
  destruct (fdalloc s f) as [s1 fd] eqn:Efd.
  assert (Hs1 : ftable s1 = ftable s).
  { unfold fdalloc in Efd. by destruct (free_fd _); injection Efd as <- _. }
  destruct (fdalloc_ok (with_ftable t s) f (with_ftable t s1) fd h) as [_ Hfd]; [|done|].
  { unfold fdalloc in *. cbn [ofile with_ftable] in *. by destruct (free_fd _); injection Efd as <- <-. }
  destruct (fd <? 0) eqn:En; [|rewrite Hs1, Ed in E; cbn [obind] in E; inv_steps E; exact Hfd].
  injection E as <- <-. unfold fdalloc in Efd. destruct (free_fd _); injection Efd as <- <-; [|done].
  apply Z.ltb_lt in En. lia.
Qed.

Lemma sys_close_ok s s' r h : fd_ok s h -> sys_close sb mypid sz esp s = Ret (s', r) -> fd_ok s' h.
Proof.
  intros Hok E. unfold sys_close in E. destruct (argfd sz esp s 0) as [[d f]|] eqn:Ea; [|by inv_steps E].
  apply argfd_held in Ea as [_ Ea]. inv_step E. inv_steps E.
  eapply fileclose_ok in E0 as [Ht Ho]; [| |].
  - unfold fd_ok. rewrite Ho. exact Ht.
  - exact Hok.
  - simpl. by rewrite (fds_remove _ _ f Ea).
Qed.

Lemma advance_ok s i r h : fd_ok s h -> fd_ok (advance s i r) h.
Proof.
  intros Hok. unfold advance. destruct (0 <? r); [|done]. apply table_ok_alter; [done|done|]. by right.
Qed.

Lemma fileread_ok s i a n s' r h : fd_ok s h -> fileread sb mypid killed devr s i a n = Ret (s', r) -> fd_ok s' h.
Proof.
  intros Hok E. unfold fileread in E. inv_steps E; try done. by apply (advance_ok (with_mem _ s)).
Qed.

Lemma filewrite_from_ok k : forall s i a n j s' r h,
  fd_ok s h -> filewrite_from sb mypid devw k s i a n j = Ret (s', r) -> fd_ok s' h.
Proof.
  induction k as [|k IH]; intros s i a n j s' r h Hok E; cbn [filewrite_from] in E; [by inv_steps E|].
  inv_steps E; try done.
  - by apply (advance_ok (with_mem _ s)).
  - eapply IH; [|exact E]. by apply (advance_ok (with_mem _ s)).
Qed.

Lemma filewrite_ok s i a n s' r h : fd_ok s h -> filewrite sb mypid killed devw s i a n = Ret (s', r) -> fd_ok s' h.
Proof.
  intros Hok E. unfold filewrite in E. inv_steps E; try done; by eapply filewrite_from_ok.
Qed.

Lemma sys_fstat_ok s s' r h : fd_ok s h -> sys_fstat sb mypid sz esp s = Ret (s', r) -> fd_ok s' h.
Proof. intros Hok E. unfold sys_fstat, filestat in E. inv_steps E; done. Qed.

Lemma sys_pipe_ok s s' r page l h : fd_ok s h -> sys_pipe sb mypid sz esp s page l = Ret (s', r) -> fd_ok s' h.
Proof.
  intros Hok E. unfold sys_pipe in E. destruct (Syscall.argptr _ _ _ _ _) as [a|]; [|by inv_steps E].
  destruct (File.pipealloc_spec (ftable s) (fds (ofile s) ++ h) page Hok) as (t & o & rel & Ep & Ho).
  rewrite Ep in E. cbn [obind] in E. destruct o as [[rf wf]|].
  2: { inv_steps E. apply Ho. }
  destruct Ho as (_ & Hne & _ & _ & Ht & _).
  set (s1 := with_pipe _ _ _) in E. assert (Ht1 : File.table_ok (ftable s1) (rf :: fds (ofile s1) ++ wf :: h)).
  { eapply table_ok_perm; [|exact Ht]. simpl. rewrite Permutation_swap. f_equiv. by rewrite Permutation_middle. }
  clearbody s1. destruct (fdalloc s1 rf) as [s2 fd0] eqn:E0. destruct (fdalloc_ok _ _ _ _ (wf :: h) E0 Ht1) as [Hf2 Ht2].
  destruct (fd0 <? 0) eqn:En0.
  - subst s2. cbn [Z.ltb Z.compare] in E. rewrite (proj2 (Z.leb_gt _ _)) in E by (by apply Z.ltb_lt).
    inv_steps E. eapply fileclose_ok in E1 as [H1 Ho1]; [|exact Ht1|done].
    eapply fileclose_ok in E2 as [H2 Ho2]; [|exact H1|by rewrite Permutation_middle].
    unfold fd_ok. by rewrite Ho2, Ho1.
  - destruct (fdalloc s2 wf) as [s3 fd1] eqn:E1.
    destruct (fdalloc_ok _ _ _ _ h E1) as [Hf3 Ht3]; [by rewrite Permutation_middle|].
    destruct (fd1 <? 0) eqn:En1.
    + subst s3. rewrite (proj2 (Z.leb_le _ _)) in E by (by apply Z.ltb_ge).
      assert (Hk : ofile s2 !! Z.to_nat fd0 = Some (Some rf)).
      { unfold fdalloc in E0. pose proof (free_fd_spec (ofile s1)) as Hf. destruct (free_fd (ofile s1)) as [k|]; injection E0 as <- <-.
        - simpl. rewrite Nat2Z.id. apply list_lookup_insert_eq. by eapply lookup_lt_Some.
        - by apply Z.ltb_ge in En0. }
      inv_steps E. eapply fileclose_ok in E2 as [H1 Ho1]; [| |].
      * eapply fileclose_ok in E3 as [H2 Ho2]; [|exact H1|].
        -- unfold fd_ok. rewrite Ho2, Ho1. exact H2.
        -- simpl. by rewrite Permutation_middle.
      * exact Ht2.
      * simpl. by rewrite (fds_remove _ _ rf Hk).
    + inv_steps E. exact Ht3.
Qed.

(** ** The calls on paths *)

Lemma sys_link_fds s s' r : sys_link sb mypid devr devw sz esp name name' de' fuel s = Ret (s', r) -> same_fds s s'.
Proof. intros E. unfold sys_link, link_bad, fail_put, fail in E. inv_steps E; done. Qed.

Lemma sys_unlink_fds s s' r : sys_unlink sb mypid devr devw sz esp name de de' dot dotdot fuel s = Ret (s', r) -> same_fds s s'.
Proof. intros E. unfold sys_unlink, fail_put, fail in E. inv_steps E; done. Qed.

Lemma make_fds s f path ty ma mi s' r :
  make sb mypid devr devw name de' dot dotdot fuel s f path ty ma mi = Ret (s', r) -> same_fds s s'.
Proof. intros E. unfold make, fail in E. inv_steps E; done. Qed.

Lemma sys_mkdir_fds s s' r : sys_mkdir sb mypid devr devw sz esp name de' dot dotdot fuel s = Ret (s', r) -> same_fds s s'.
Proof.
  intros E. unfold sys_mkdir, fail in E. inv_step E. destruct (Syscall.argstr _ _ _ _) as [[p l]|]; [by eapply make_fds|].
  inv_steps E; done.
Qed.

Lemma sys_mknod_fds s s' r : sys_mknod sb mypid devr devw sz esp name de' dot dotdot fuel s = Ret (s', r) -> same_fds s s'.
Proof.
  intros E. unfold sys_mknod, fail in E. inv_steps E; try done. by eapply make_fds.
Qed.

Lemma sys_chdir_fds s s' r : sys_chdir sb mypid devr sz esp name' de' fuel s = Ret (s', r) -> same_fds s s'.
Proof. intros E. unfold sys_chdir, fail_put, fail in E. inv_steps E; done. Qed.

Lemma fail_put_fds s f m i s' r : fail_put sb mypid s f m i = Ret (s', r) -> same_fds s s'.
Proof. intros E. unfold fail_put in E. inv_steps E; done. Qed.

Lemma open_inode_ok s f m ip om s' r h :
  fd_ok s h -> open_inode sb mypid s f m ip om = Ret (s', r) -> fd_ok s' h.
Proof.
  intros Hok E. unfold open_inode in E. pose proof (File.filealloc_spec _ _ Hok) as Ha.
  destruct (File.filealloc (ftable s)) as [t [i|]].
  2: { destruct Ha as [-> _]. eapply same_fds_ok; [by eapply fail_put_fds|]. exact Hok. }
  destruct Ha as (_ & Ht & _). set (s1 := with_mem _ _) in E.
  assert (Ht1 : File.table_ok (ftable s1) (i :: fds (ofile s1) ++ h)) by exact Ht. clearbody s1.
  destruct (fdalloc s1 i) as [s2 fd] eqn:Ef. destruct (fdalloc_ok _ _ _ _ h Ef Ht1) as [Hf2 Ht2].
  assert (Hin : fd <? 0 = false -> i ∈ fds (ofile s2)).
  { intros En. unfold fdalloc in Ef. pose proof (free_fd_spec (ofile s1)) as Hf. destruct (free_fd (ofile s1)) as [k|]; injection Ef as <- <-; [|done].
    simpl. rewrite (fds_insert _ _ i Hf). left. }
  destruct (fd <? 0) eqn:En.
  - subst s2. inv_step E. eapply same_fds_ok; [by eapply fail_put_fds|].
    eapply fileclose_ok in E0 as [H1 Ho1]; [|exact Ht1|done]. unfold fd_ok. by rewrite Ho1.
  - inv_steps E. unfold fd_ok. simpl. apply table_ok_alter; [exact Ht2|done|]. left. apply elem_of_app. left. by apply Hin.
Qed.

Lemma sys_open_ok s s' r h :
  fd_ok s h -> sys_open sb mypid devr devw sz esp name name' de' dot dotdot fuel s = Ret (s', r) -> fd_ok s' h.
Proof.
  intros Hok E. unfold sys_open, fail in E. inv_steps E; try done.
  all: try (eapply open_inode_ok; [|exact E]; done).
  all: eapply same_fds_ok; [by eapply fail_put_fds|done].
Qed.

(** A file call of the process. *)
Inductive fcall : sys T -> sys T -> Prop :=
| fc_dup s s' r : sys_dup sz esp s = Ret (s', r) -> fcall s s'
| fc_read s s' r : sys_read sb mypid killed devr sz esp s = Ret (s', r) -> fcall s s'
| fc_write s s' r : sys_write sb mypid killed devw sz esp s = Ret (s', r) -> fcall s s'
| fc_close s s' r : sys_close sb mypid sz esp s = Ret (s', r) -> fcall s s'
| fc_fstat s s' r : sys_fstat sb mypid sz esp s = Ret (s', r) -> fcall s s'
| fc_pipe s s' page l r : sys_pipe sb mypid sz esp s page l = Ret (s', r) -> fcall s s'
| fc_link s s' r : sys_link sb mypid devr devw sz esp name name' de' fuel s = Ret (s', r) -> fcall s s'
| fc_unlink s s' r : sys_unlink sb mypid devr devw sz esp name de de' dot dotdot fuel s = Ret (s', r) -> fcall s s'
| fc_open s s' r : sys_open sb mypid devr devw sz esp name name' de' dot dotdot fuel s = Ret (s', r) -> fcall s s'
| fc_mkdir s s' r : sys_mkdir sb mypid devr devw sz esp name de' dot dotdot fuel s = Ret (s', r) -> fcall s s'
| fc_mknod s s' r : sys_mknod sb mypid devr devw sz esp name de' dot dotdot fuel s = Ret (s', r) -> fcall s s'
| fc_chdir s s' r : sys_chdir sb mypid devr sz esp name' de' fuel s = Ret (s', r) -> fcall s s'
(** User code runs between the calls. *)
| fc_user s m : fcall s (with_mem m s).

Lemma fcall_ok s s' h : fd_ok s h -> fcall s s' -> fd_ok s' h.
Proof.
  intros Hok Hc. destruct Hc as [s s' r E|s s' r E|s s' r E|s s' r E|s s' r E|s s' page l r E|s s' r E|s s' r E|s s' r E|s s' r E|s s' r E|s s' r E|s m].
  - by eapply sys_dup_ok.
  - unfold sys_read in E. inv_steps E; [by eapply fileread_ok|done].
  - unfold sys_write in E. inv_steps E; [by eapply filewrite_ok|done].
  - by eapply sys_close_ok.
  - by eapply sys_fstat_ok.
  - by eapply sys_pipe_ok.
  - eapply same_fds_ok; [by eapply sys_link_fds|done].
  - eapply same_fds_ok; [by eapply sys_unlink_fds|done].
  - by eapply sys_open_ok.
  - eapply same_fds_ok; [by eapply sys_mkdir_fds|done].
  - eapply same_fds_ok; [by eapply sys_mknod_fds|done].
  - eapply same_fds_ok; [by eapply sys_chdir_fds|done].
  - done.
Qed.

End calls.
(** ** Properties *)

(** A file call with any arguments, wherever its locals lie. *)
Definition fstep {T} `{BlockCache T} sb mypid devr devw (s s' : sys T) : Prop :=
  exists killed sz esp name name' de de' dot dotdot fuel,
    fcall sb mypid killed devr devw sz esp name name' de de' dot dotdot fuel s s'.

(** C27.  Whatever file calls a process makes, failing ones included, the count
    of every open file is the number of descriptors that refer to it, its own
    and those of other processes ([h]); no descriptor refers to a free file;
    and a file without references has no type. *)
Theorem fds_counted {T} `{BlockCache T} sb mypid devr devw (s0 s : sys T) h
    (Hinit : fd_ok s0 h) (Hreach : rtc (fstep sb mypid devr devw) s0 s) :
  (forall i f, ftable s !! i = Some f -> File.ref f = File.refs_to (fds (ofile s) ++ h) i) /\
  (forall fd i, ofile s !! fd = Some (Some i) -> exists f, ftable s !! i = Some f /\ 1 <= File.ref f) /\
  (forall i f, ftable s !! i = Some f -> File.ref f = 0 -> File.type f = File.FD_NONE).
Proof.
  assert (Hok : fd_ok s h).
  { apply (rtc_invariant (fstep sb mypid devr devw) (fun s => fd_ok s h) s0 s); [|done|done].
    intros x y Hx (killed & sz & esp & n & n' & d & d' & o1 & o2 & k & Hc). by eapply fcall_ok. }
  split; [apply Hok|]. split; [|apply Hok]. intros fd i E.
  assert (Hi : i ∈ fds (ofile s) ++ h) by (apply elem_of_app; left; by eapply fds_held).
  destruct (lookup_lt_is_Some_2 _ _ (File.to_held _ _ Hok i Hi)) as [f Ef]. exists f. split; [done|].
  rewrite (File.to_ref _ _ Hok i f Ef). by apply File.refs_to_held.
Qed.

(** A process without open files makes a pipe: descriptors 0 and 1. *)
Section witness.
#[local] Instance cache1 : BlockCache Bio.bcache := Bio.bio_cache 1 true 1.

Definition no_device : Z -> option (Fs.fs (Log.log * Bio.bcache) -> bytes -> nat -> Z -> Z ->
    outcome (Fs.fs (Log.log * Bio.bcache) * bytes * Z)) := fun _ => None.
Definition no_sb : Fs.superblock :=
  {| Fs.size := 0; Fs.nblocks := 0; Fs.ninodes := 0; Fs.nlog := 0; Fs.logstart := 0; Fs.inodestart := 0; Fs.bmapstart := 0 |}.
Definition sys0 : sys Bio.bcache :=
  {| fsys := {| Fs.disk := ({| Log.start := 2; Log.log_size := 30; Log.outstanding := 0; Log.committing := false;
                               Log.lh := {| Log.n := 0; Log.lblock := [] |} |}, Bio.boot (fun _ _ _ => 0)); Fs.icache := [] |};
     ftable := File.table0; pipes := fun _ => Pipe.pipeinit []; mem := put32 (fun _ => 0) 4004 64;
     ofile := replicate 16 None; cwd := 0 |}.
Definition sys1 : sys Bio.bcache :=
  match sys_pipe no_sb 1 4096 4000 sys0 8192 [] with Ret (s, _) => s | _ => sys0 end.

Lemma sys1_pipe : sys_pipe no_sb 1 4096 4000 sys0 8192 [] = Ret (sys1, 0).
Proof. reflexivity. Qed.

Lemma fds_counted_witness :
  ofile sys1 !! 1%nat = Some (Some 1%nat) /\ exists f, ftable sys1 !! 1%nat = Some f /\ 1 <= File.ref f.
Proof.
  assert (E : ofile sys1 !! 1%nat = Some (Some 1%nat)) by (vm_compute; reflexivity). split; [exact E|].
  refine (proj1 (proj2 (fds_counted no_sb 1 no_device no_device sys0 sys1 [] _ _)) 1%nat 1%nat E).
  - exact File.table0_ok.
  - eapply rtc_l; [|apply rtc_refl]. exists false, 4096, 4000, 0, 0, 0, 0, 0, 0, 0%nat. by eapply fc_pipe, sys1_pipe.
Defined.
End witness.

End SysfileThms.
