(* ===== verification/McNumber.v ===== *)
(** * Numbers in memcached's text protocol (p1a)

    [safe_strtoull] of [util.c], [itoa_u64] of [itoa_ljust.c] and the
    arithmetic of the [incr], [decr], [mult] and [div] commands in
    [do_add_delta] of [memcached.c], the last two being the repository's own
    additions.  A string that is read is the list of the bytes from the pointer
    on, [Fault] a read past them; a string that is written goes to byte memory.
    The two loops of the commands take fuel: they count to the operand, or to
    the quotient, and one of them need not end. *)

From S2P Require Import Prelude DfsImage.
Local Open Scope Z_scope.
Local Open Scope xv6_scope.

Create HintDb decimal.

Module McNumber.

(** ** util.c *)

Definition isspace (c : Z) : bool := (c =? 32) || (9 <=? c) && (c <=? 13).
Definition isdigit (c : Z) : bool := (48 <=? c) && (c <=? 57).

Fixpoint skip_space (str : list Z) : outcome (list Z) :=
  match str with
  | [] => Fault
  | c :: rest => if isspace c then skip_space rest else Ret str
  end.

Fixpoint take_digits (str : list Z) (acc : Z) : outcome (Z * list Z) :=
  match str with
  | [] => Fault
  | c :: rest => if isdigit c then take_digits rest (acc * 10 + (c - 48)) else Ret (acc, str)
  end.

(** The C library's [strtoull(str, &endptr, 10)]: the value, whether [errno]
    is [ERANGE], and [endptr] (a suffix of [str], [str] itself when nothing
    could be converted). *)
Definition strtoull (str : list Z) : outcome (Z * bool * list Z) :=
  let* s := skip_space str in
  let '(neg, d) :=
    match s with
    | c :: rest => if c =? 45 then (true, rest) else if c =? 43 then (false, rest) else (false, s)
    | [] => (false, s)
    end in
  let* (v, endptr) := take_digits d 0 in
  if decide (length endptr = length d) then Ret (0, false, str)
  else if 2 ^ 64 <=? v then Ret (2 ^ 64 - 1, true, endptr)
  else Ret (if neg then u64 (- v) else v, false, endptr).

(** [strchr(str, c) != NULL] for a [c] other than NUL. *)
Fixpoint strchr (str : list Z) (c : Z) : outcome bool :=
  match str with
  | [] => Fault
  | x :: rest => if x =? c then Ret true else if x =? 0 then Ret false else strchr rest c
  end.

(** [*out], or [None] where the function returns false. *)
Definition safe_strtoull (str : list Z) : outcome (option Z) :=
  let* (ull, erange, endptr) := strtoull str in
  if erange || bool_decide (length str = length endptr) then Ret None
  else
    match endptr with
    | [] => Fault
    | e :: _ =>
        if isspace e || (e =? 0) then
          if s64 ull <? 0 then
            let* minus := strchr str 45 in
            if minus then Ret None else Ret (Some ull)
          else Ret (Some ull)
        else Ret None
    end.

(** ** itoa_ljust.c *)

Definition lut : list Z :=
  Eval vm_compute in
    (fun c => Z.of_N (Ascii.N_of_ascii c)) <$>
    String.list_ascii_of_string
    ("0001020304050607080910111213141516171819" ++
     "2021222324252627282930313233343536373839" ++
     "4041424344454647484950515253545556575859" ++
     "6061626364656667686970717273747576777879" ++
     "8081828384858687888990919293949596979899")%string.

Definition out2 (m : bytes) (d p : Z) : option (bytes * Z) :=
  let? hi := getZ lut (2 * d) in
  let? lo := getZ lut (2 * d + 1) in
  Some (put8 (put8 m p hi) (p + 1) lo, p + 2).

Definition out1 (m : bytes) (c p : Z) : bytes * Z := (put8 m p c, p + 1).

(** Memory, [d], [p] and the value returned. *)
Definition digits (m : bytes) (u k d p n : Z) : bytes * Z * Z * Z :=
  if u <? u32 (k * 10) then
    let d := u / k in
    let '(m, p) := out1 m (48 + d) p in
    (m, d, p, n - 1)
  else (m, d, p, n).

(** [switch (n)] enters at [case n] and falls through to the cases below. *)
Definition enters (k n : Z) : bool := (k <=? n) && (n <=? 10).

(** An even case: [d = u / k; p = out2(d, p)]. *)
Definition case_out (m : bytes) (u d p n k j : Z) : option (bytes * Z * Z) :=
  if enters j n then
    let d := u / k in
    let? (m, p) := out2 m d p in
    Some (m, d, p)
  else Some (m, d, p).

(** An odd case: [u -= d * k]. *)
Definition case_sub (u d n k j : Z) : Z := if enters j n then u32 (u - d * k) else u.

Definition itoa (m : bytes) (u p d n : Z) : option (bytes * Z) :=
  let? (m, d, p) := case_out m u d p n 100000000 10 in
  let u := case_sub u d n 100000000 9 in
  let? (m, d, p) := case_out m u d p n 1000000 8 in
  let u := case_sub u d n 1000000 7 in
  let? (m, d, p) := case_out m u d p n 10000 6 in
  let u := case_sub u d n 10000 5 in
  let? (m, d, p) := case_out m u d p n 100 4 in
  let u := case_sub u d n 100 3 in
  let? (m, d, p) := case_out m u d p n 1 2 in
  Some (put8 m p 0, p).

Definition itoa_u32 (m : bytes) (u p : Z) : option (bytes * Z) :=
  let '(m, d, p, n) :=
    if 100000000 <=? u then digits m u 100000000 0 p 10
    else if u <? 100 then digits m u 1 0 p 2
    else if u <? 10000 then digits m u 100 0 p 4
    else if u <? 1000000 then digits m u 10000 0 p 6
    else digits m u 1000000 0 p 8 in
  itoa m u p d n.

Definition itoa_32 (m : bytes) (i p : Z) : option (bytes * Z) :=
  let u := u32 i in
  if i <? 0 then itoa_u32 (put8 m p 45) (u32 (- u)) (p + 1) else itoa_u32 m u p.

(** [fuel] bounds the recursion: three levels are enough. *)
Fixpoint itoa_u64 (fuel : nat) (m : bytes) (u p : Z) : option (bytes * Z) :=
  match fuel with
  | O => None
  | S fuel =>
      let lower := u32 u in
      if lower =? u then itoa_u32 m lower p
      else
        let upper := u / 1000000000 in
        let? (m, p) := itoa_u64 fuel m upper p in
        let lower := u32 (u - upper * 1000000000) in
        let d := lower / 100000000 in
        let '(m, p) := out1 m (48 + d) p in
        itoa m lower p d 9
  end.

(** ** The commands *)

(** [for (i = 0; i < delta; i++) multres += value]; [delta] as compared, an
    [uint64_t]. *)
Fixpoint mult_loop (fuel : nat) (i delta value multres : Z) : option Z :=
  match fuel with
  | O => None
  | S fuel =>
      if i <? delta then mult_loop fuel (u64 (i + 1)) delta value (u64 (multres + value))
      else Some multres
  end.

(** [while (temp <= value) { temp += delta; divres++; }]. *)
Fixpoint div_loop (fuel : nat) (delta value temp divres : Z) : option Z :=
  match fuel with
  | O => None
  | S fuel =>
      if temp <=? value then div_loop fuel delta value (u64 (temp + delta)) (u64 (divres + 1))
      else Some divres
  end.

(** [switch (incr)] of [do_add_delta]; [delta] is an [int64_t], which [+=] and
    the comparisons convert to [uint64_t]. *)
Definition apply_delta (fuel : nat) (incr delta value : Z) : option Z :=
  match incr with
  | 1 => Some (u64 (value + delta))
  | 0 => Some (if value <? u64 delta then 0 else u64 (value - delta))
  | 2 => if 0 <=? delta then mult_loop fuel 0 (u64 delta) value 0 else Some value
  | 3 => if delta =? 0 then Some value else div_loop fuel delta value (u64 (0 + delta)) 0
  | _ => Some value
  end.

(** What a command is to make of the value, where it makes sense of it: [mult]
    leaves the value alone when the operand has the top bit set, and [div] is
    given only where no multiple of the operand it forms passes 64 bits. *)
Definition delta_spec (incr delta value : Z) : option Z :=
  match incr with
  | 1 => Some ((value + delta) mod 2 ^ 64)
  | 0 => Some (Z.max 0 (value - delta))
  | 2 => Some (if delta <? 2 ^ 63 then (value * delta) mod 2 ^ 64 else value)
  | 3 =>
      if delta =? 0 then Some value
      else if (value / delta + 1) * delta <? 2 ^ 64 then Some (value / delta) else None
  | _ => Some value
  end.

Lemma delta_spec_u64 incr delta value v :
  is_u64 delta -> is_u64 value -> delta_spec incr delta value = Some v -> is_u64 v.
Proof.
  unfold is_u64. intros Hd Hv. pose proof (Z.mod_pos_bound (value * delta) (2 ^ 64)).
  pose proof (Z.mod_pos_bound (value + delta) (2 ^ 64)).
  assert (delta <> 0 -> 0 <= value / delta <= value).
  { intros. split; [apply Z.div_pos; lia|]. apply Z.div_le_upper_bound; nia. }
  destruct incr as [|[[q|q|]|[q|q|]|]|q]; cbn [delta_spec]; repeat case_match; intros [= <-]; try lia.
  all: match goal with H : _ -> 0 <= value / _ <= _ |- _ => specialize (H ltac:(lia)); lia end.
Qed.

(** The [n] decimal digits of [w]. *)
Definition decimal (n w : Z) : list Z :=
  (fun i => 48 + w / 10 ^ (n - 1 - i) mod 10) <$> seqZ 0 n.

(** The memory [m'] holds the [n] digits of [w] from [p] on and otherwise
    differs from [m] at most in the byte behind them. *)
Definition emits (m m' : bytes) (p n w : Z) : Prop :=
  m' <$> seqZ p n = decimal n w /\ forall x, x < p \/ p + n < x -> m' x = m x.

(** [r] is the result of writing [n] digits of [w] and a NUL. *)
Definition writes (m : bytes) (p n w : Z) (r : option (bytes * Z)) : Prop :=
  exists m', r = Some (m', p + n) /\ emits m m' p n w /\ m' (p + n) = 0.

(** ** Decimal digits *)

Lemma pow10_pos n : 0 < 10 ^ Z.of_nat n.
Proof. apply Z.pow_pos_nonneg; lia. Qed.

Lemma decimal_length n w : Z.of_nat (length (decimal n w)) = Z.max 0 n.
Proof. unfold decimal. rewrite length_map, length_seqZ. lia. Qed.

Lemma decimal_app a b w :
  0 <= a -> 0 <= b ->
  decimal (a + b) w = decimal a (w / 10 ^ b) ++ decimal b (w mod 10 ^ b).
Proof.
  intros Ha Hb. unfold decimal. rewrite seqZ_app, fmap_app by lia. f_equal.
  - apply list_fmap_ext. intros i x Hx%lookup_seqZ. do 2 f_equal.
    rewrite Z.div_div by (try apply Z.pow_nonzero; try apply Z.pow_pos_nonneg; lia).
    f_equal. rewrite <- Z.pow_add_r by lia. f_equal. lia.
  - replace (0 + a) with (a + 0) by lia.
    rewrite <- (fmap_add_seqZ a 0). rewrite <- list_fmap_compose.
    apply list_fmap_ext. intros i x Hx%lookup_seqZ. simpl.
    set (e := b - 1 - x). replace (a + b - 1 - (a + x)) with e by (unfold e; lia).
    f_equal. pose proof (Z.pow_pos_nonneg 10 e ltac:(lia) ltac:(unfold e; lia)).
    assert (10 ^ b = 10 ^ (b - e - 1) * 10 * 10 ^ e) as Hb'.
    { replace b with (b - e - 1 + 1 + e) at 1 by lia.
      rewrite !Z.pow_add_r by (unfold e; lia). by rewrite Z.pow_1_r. }
    rewrite (Z.div_mod w (10 ^ b)) at 1 by (apply Z.pow_nonzero; lia).
    rewrite Hb' at 1.
    replace (10 ^ (b - e - 1) * 10 * 10 ^ e * (w / 10 ^ b) + w mod 10 ^ b)
      with ((10 ^ (b - e - 1) * (w / 10 ^ b) * 10) * 10 ^ e + w mod 10 ^ b) by ring.
    rewrite Z.div_add_l by lia. rewrite Z.add_comm. apply Z_mod_plus_full.
Qed.

Lemma decimal_0 w : decimal 0 w = [].
Proof. reflexivity. Qed.

Lemma decimal_1 w : 0 <= w < 10 -> decimal 1 w = [48 + w].
Proof. intros. unfold decimal. simpl. by rewrite Z.div_1_r, Z.mod_small. Qed.

Lemma decimal_digits n w : Forall (fun c => isdigit c = true) (decimal n w).
Proof.
  apply Forall_fmap, Forall_true. intros i. unfold compose, isdigit.
  pose proof (Z.mod_pos_bound (w / 10 ^ (n - 1 - i)) 10). lia.
Qed.

Lemma emits_app m m1 m2 p a b w :
  0 <= a -> 0 <= b ->
  emits m m1 p a (w / 10 ^ b) -> emits m1 m2 (p + a) b (w mod 10 ^ b) ->
  emits m m2 p (a + b) w.
Proof.
  intros Ha Hb [Hd1 Hf1] [Hd2 Hf2]. split.
  - rewrite seqZ_app, fmap_app, Hd2, decimal_app, <- Hd1 by lia. f_equal.
    apply list_fmap_ext. intros i x Hx%lookup_seqZ. apply Hf2. lia.
  - intros x Hx. rewrite Hf2 by lia. apply Hf1. lia.
Qed.

Lemma lut_pair d :
  0 <= d < 100 -> getZ lut (2 * d) = Some (48 + d / 10) /\ getZ lut (2 * d + 1) = Some (48 + d mod 10).
Proof.
  intros Hd.
  assert (forallb (fun d => bool_decide (getZ lut (2 * d) = Some (48 + d / 10)
                              /\ getZ lut (2 * d + 1) = Some (48 + d mod 10))) (seqZ 0 100) = true)
    as HF by (vm_compute; reflexivity).
  rewrite forallb_forall in HF.
  apply (bool_decide_unpack _), Is_true_true, HF, list_elem_of_In, elem_of_seqZ. lia.
Qed.

Lemma out2_emits m d p :
  0 <= d < 100 -> exists m', out2 m d p = Some (m', p + 2) /\ emits m m' p 2 d.
Proof.
  intros Hd. destruct (lut_pair d Hd) as [Hhi Hlo]. unfold out2. rewrite Hhi, Hlo.
  eexists. split; [done|].
  assert (0 <= d / 10 < 10 /\ 0 <= d mod 10 < 10) as [] by (Z.to_euclidean_division_equations; lia).
  apply (emits_app _ (put8 m p (48 + d / 10)) _ p 1 1 d); [lia..| |].
  - rewrite Z.pow_1_r. split; [|intros; unfold put8; case_match; lia].
    rewrite decimal_1 by lia. simpl. unfold put8. rewrite Z.eqb_refl. by unwrap.
  - rewrite Z.pow_1_r. split; [|intros; unfold put8; case_match; lia].
    rewrite decimal_1 by lia. simpl. unfold put8. rewrite Z.eqb_refl. by unwrap.
Qed.

(** ** itoa *)

(** What is left of [itoa] at the five even cases. *)
Definition from2 (m : bytes) (u d p n : Z) : option (bytes * Z) :=
  let? (m, d, p) := case_out m u d p n 1 2 in Some (put8 m p 0, p).

Definition level (k j : Z) (rest : bytes -> Z -> Z -> Z -> Z -> option (bytes * Z))
    (m : bytes) (u d p n : Z) : option (bytes * Z) :=
  let? (m, d, p) := case_out m u d p n k j in
  rest m (case_sub u d n k (j - 1)) d p n.

Definition from4 := level 100 4 from2.
Definition from6 := level 10000 6 from4.
Definition from8 := level 1000000 8 from6.
Definition from10 := level 100000000 10 from8.

Lemma itoa_from m u p d n : itoa m u p d n = from10 m u d p n.
Proof. reflexivity. Qed.

(** [rest] writes the [b] digits left whenever its cases are entered. *)
Definition writes_rest (b : Z) (rest : bytes -> Z -> Z -> Z -> Z -> option (bytes * Z)) : Prop :=
  forall m u d p n, 0 <= u < 10 ^ b -> u < 2 ^ 32 -> b <= n <= 10 ->
    writes m p b u (rest m u d p n).

Lemma case_out_emits m u d p n k j :
  0 < k -> 0 <= u < 100 * k -> j <= n <= 10 ->
  exists m', case_out m u d p n k j = Some (m', u / k, p + 2) /\ emits m m' p 2 (u / k).
Proof.
  intros Hk Hu Hn. unfold case_out, enters.
  rewrite (proj2 (Z.leb_le j n)), (proj2 (Z.leb_le n 10)) by lia. simpl.
  destruct (out2_emits m (u / k) p) as (m' & -> & He); [|by eauto].
  split; [apply Z.div_pos; lia|apply Z.div_lt_upper_bound; lia].
Qed.

Lemma case_sub_mod u n k j :
  0 < k -> 0 <= u < 2 ^ 32 -> j <= n <= 10 -> case_sub u (u / k) n k j = u mod k.
Proof.
  intros Hk Hu Hn. unfold case_sub, enters.
  rewrite (proj2 (Z.leb_le j n)), (proj2 (Z.leb_le n 10)) by lia. simpl.
  pose proof (Z.mod_pos_bound u k Hk). pose proof (Z.div_pos u k).
  rewrite (Z.mod_eq u k) in * by lia. rewrite u32_small by (unfold is_u32; nia). lia.
Qed.

Lemma writes_after m m1 p b w r :
  0 <= b -> emits m m1 p 2 (w / 10 ^ b) -> writes m1 (p + 2) b (w mod 10 ^ b) r ->
  writes m p (b + 2) w r.
Proof.
  intros Hb He (m' & -> & He' & H0). rewrite <- Z.add_assoc, (Z.add_comm 2) in *.
  exists m'. split_and!; [done| |done]. rewrite Z.add_comm. by apply (emits_app _ m1).
Qed.

Lemma from2_ok : writes_rest 2 from2.
Proof.
  intros m u d p n Hu _ Hn. unfold from2.
  destruct (case_out_emits m u d p n 1 2) as (m1 & -> & He1 & He2); [lia..|].
  rewrite Z.div_1_r in He1. eexists. split; [done|]. split; [split|].
  - rewrite <- He1. apply list_fmap_ext. intros i x Hx%lookup_seqZ. unfold put8. case_match; lia.
  - intros x Hx. unfold put8. case_match; [lia|]. by apply He2.
  - unfold put8. by rewrite Z.eqb_refl.
Qed.

Lemma level_ok b rest :
  0 <= b <= 8 -> writes_rest b rest -> writes_rest (b + 2) (level (10 ^ b) (b + 2) rest).
Proof.
  intros Hb Hrest m u d p n Hu Hu32 Hn. unfold level.
  assert (0 < 10 ^ b) by (apply Z.pow_pos_nonneg; lia).
  assert (10 ^ b <= 10 ^ 8) by (apply Z.pow_le_mono_r; lia).
  rewrite Z.pow_add_r in Hu by lia. change (10 ^ 2) with 100 in Hu.
  destruct (case_out_emits m u d p n (10 ^ b) (b + 2)) as (m1 & -> & He); [lia..|].
  rewrite case_sub_mod by lia.
  pose proof (Z.mod_pos_bound u (10 ^ b)).
  apply (writes_after _ m1); [lia|done|]. apply Hrest; lia.
Qed.

Lemma from4_ok : writes_rest 4 from4.
Proof. apply (level_ok 2), from2_ok. lia. Qed.
Lemma from6_ok : writes_rest 6 from6.
Proof. apply (level_ok 4), from4_ok. lia. Qed.
Lemma from8_ok : writes_rest 8 from8.
Proof. apply (level_ok 6), from6_ok. lia. Qed.
Lemma from10_ok : writes_rest 10 from10.
Proof. apply (level_ok 8), from8_ok. lia. Qed.

(** The cases above the one [switch] enters are skipped. *)
Lemma level_skip k j rest m u d p n :
  n < j - 1 -> level k j rest m u d p n = rest m u d p n.
Proof.
  intros. unfold level, case_out, case_sub, enters.
  by rewrite (proj2 (Z.leb_gt j n)), (proj2 (Z.leb_gt (j - 1) n)) by lia.
Qed.

Lemma level_odd k j rest m u d p n :
  n = j - 1 -> n <= 10 -> level k j rest m u d p n = rest m (u32 (u - d * k)) d p n.
Proof.
  intros Hj Hn. unfold level, case_out, case_sub, enters.
  by rewrite (proj2 (Z.leb_gt j n)), (proj2 (Z.leb_le (j - 1) n)), (proj2 (Z.leb_le n 10)) by lia.
Qed.

Definition upto (b : Z) : bytes -> Z -> Z -> Z -> Z -> option (bytes * Z) :=
  match b with 2 => from2 | 4 => from4 | 6 => from6 | 8 => from8 | _ => from10 end.

Lemma itoa_even b m u p d :
  b = 2 \/ b = 4 \/ b = 6 \/ b = 8 \/ b = 10 -> 0 <= u < 10 ^ b -> u < 2 ^ 32 ->
  writes m p b u (itoa m u p d b).
Proof.
  intros Hb Hu Hu32. rewrite itoa_from.
  destruct Hb as [->|[->|[->|[->| ->]]]]; unfold from10, from8, from6, from4;
    rewrite ?(level_skip 100000000 10), ?(level_skip 1000000 8), ?(level_skip 10000 6),
      ?(level_skip 100 4) by lia;
    [apply from2_ok|apply from4_ok|apply from6_ok|apply from8_ok|apply from10_ok]; lia.
Qed.

(** An odd count: the leading digit [d] has been written already. *)
Lemma itoa_odd b m u p :
  b = 2 \/ b = 4 \/ b = 6 \/ b = 8 -> 0 <= u < 2 ^ 32 ->
  writes m p b (u mod 10 ^ b) (itoa m u p (u / 10 ^ b) (b + 1)).
Proof.
  intros Hb Hu. rewrite itoa_from.
  assert (u32 (u - u / 10 ^ b * 10 ^ b) = u mod 10 ^ b /\ 0 <= u mod 10 ^ b < 10 ^ b) as [Hm ?].
  { destruct Hb as [->|[->|[->| ->]]]; unfold u32; Z.to_euclidean_division_equations; lia. }
  destruct Hb as [->|[->|[->| ->]]]; unfold from10, from8, from6, from4;
    rewrite ?(level_skip 100000000 10), ?(level_skip 1000000 8), ?(level_skip 10000 6) by lia.
  - rewrite (level_odd 100 4) by lia. change 100 with (10 ^ 2). rewrite Hm. apply from2_ok; lia.
  - rewrite (level_odd 10000 6) by lia. change 10000 with (10 ^ 4). rewrite Hm. apply from4_ok; lia.
  - rewrite (level_odd 1000000 8) by lia. change 1000000 with (10 ^ 6).
    rewrite Hm. apply from6_ok; lia.
  - rewrite (level_odd 100000000 10) by lia. change 100000000 with (10 ^ 8).
    rewrite Hm. apply from8_ok; lia.
Qed.

Lemma out1_emits m d p : 0 <= d < 10 -> emits m (put8 m p (48 + d)) p 1 d.
Proof.
  intros Hd. split.
  - rewrite decimal_1 by done. simpl. unfold put8. rewrite Z.eqb_refl. by unwrap.
  - intros x Hx. unfold put8. case_match; lia.
Qed.

(** [n] is the number of digits of [u]. *)
Definition width (u n : Z) : Prop := 1 <= n /\ u < 10 ^ n /\ (n = 1 \/ 10 ^ (n - 1) <= u).

Lemma itoa_one m u p d : itoa m u p d 1 = Some (put8 m p 0, p).
Proof. reflexivity. Qed.

(** One digit first, then the [b] behind it. *)
Lemma lead_digit b m u p :
  b = 0 \/ b = 2 \/ b = 4 \/ b = 6 \/ b = 8 -> 0 <= u < 10 * 10 ^ b -> u < 2 ^ 32 ->
  writes m p (b + 1) u (itoa (put8 m p (48 + u / 10 ^ b)) u (p + 1) (u / 10 ^ b) (b + 1)).
Proof.
  intros Hb Hu Hu32. assert (0 < 10 ^ b) by (apply Z.pow_pos_nonneg; lia).
  assert (emits m (put8 m p (48 + u / 10 ^ b)) p 1 (u / 10 ^ b)) as He.
  { apply out1_emits. split; [apply Z.div_pos; lia|apply Z.div_lt_upper_bound; lia]. }
  destruct (decide (b = 0)) as [->|Hb0].
  - simpl. rewrite itoa_one. eexists. split; [done|]. destruct He as [He1 He2].
    change (10 ^ 0) with 1 in *. change (0 + 1) with 1. rewrite Z.div_1_r in *.
    split; [split|].
    + rewrite <- He1. apply list_fmap_ext. intros i x Hx%lookup_seqZ.
      unfold put8. by rewrite (proj2 (Z.eqb_neq x (p + 1))) by lia.
    + intros x Hx. unfold put8. repeat case_match; lia.
    + unfold put8. by rewrite Z.eqb_refl.
  - destruct (itoa_odd b (put8 m p (48 + u / 10 ^ b)) u (p + 1)) as (m' & -> & He' & H0); [lia..|].
    rewrite <- Z.add_assoc, (Z.add_comm 1) in *. exists m'. split_and!; [done| |done].
    rewrite Z.add_comm. apply (emits_app _ (put8 m p (48 + u / 10 ^ b))); [lia..|done|done].
Qed.

Lemma digits_ok b m u p :
  b = 0 \/ b = 2 \/ b = 4 \/ b = 6 \/ b = 8 -> 0 <= u < 10 ^ (b + 2) -> u < 2 ^ 32 ->
  b = 0 \/ 10 ^ b <= u ->
  exists n, n <= b + 2 /\ width u n /\
    writes m p n u (let '(m, d, p, n) := digits m u (10 ^ b) 0 p (b + 2) in itoa m u p d n).
Proof.
  intros Hb Hu Hu32 Hlow. assert (0 < 10 ^ b) by (apply Z.pow_pos_nonneg; lia).
  assert (u32 (10 ^ b * 10) = 10 ^ b * 10) as E.
  { destruct Hb as [->|[->|[->|[->| ->]]]]; reflexivity. }
  assert (10 ^ (b + 1) = 10 ^ b * 10) as E1 by (rewrite Z.pow_add_r by lia; lia).
  unfold digits, out1. rewrite E. destruct (Z.ltb_spec u (10 ^ b * 10)) as [Ht|Ht].
  - exists (b + 1). replace (b + 2 - 1) with (b + 1) by lia. split_and!; [lia| |].
    + split_and!; [lia..|]. replace (b + 1 - 1) with b by lia. lia.
    + apply lead_digit; lia.
  - exists (b + 2). split_and!; [lia| |].
    + split_and!; [lia..|]. replace (b + 2 - 1) with (b + 1) by lia. lia.
    + apply itoa_even; lia.
Qed.

Lemma itoa_u32_ok m u p :
  0 <= u < 2 ^ 32 -> exists n, n <= 10 /\ width u n /\ writes m p n u (itoa_u32 m u p).
Proof.
  intros Hu. unfold itoa_u32.
  assert (forall b, b = 0 \/ b = 2 \/ b = 4 \/ b = 6 \/ b = 8 -> u < 10 ^ (b + 2) -> b = 0 \/ 10 ^ b <= u ->
    exists n, n <= 10 /\ width u n /\
      writes m p n u (let '(m, d, p, n) := digits m u (10 ^ b) 0 p (b + 2) in itoa m u p d n)) as Hd.
  { intros b Hb Hlt Hlow. destruct (digits_ok b m u p) as (n & ? & ? & ?); [lia..|].
    exists n. split_and!; [lia|done..]. }
  destruct (Z.leb_spec 100000000 u); [exact (Hd 8 ltac:(lia) ltac:(lia) ltac:(lia))|].
  destruct (Z.ltb_spec u 100); [exact (Hd 0 ltac:(lia) ltac:(lia) ltac:(lia))|].
  destruct (Z.ltb_spec u 10000); [exact (Hd 2 ltac:(lia) ltac:(lia) ltac:(lia))|].
  destruct (Z.ltb_spec u 1000000); [exact (Hd 4 ltac:(lia) ltac:(lia) ltac:(lia))|].
  exact (Hd 6 ltac:(lia) ltac:(lia) ltac:(lia)).
Qed.


Lemma width_more q w n : 0 < q -> 0 <= w < 10 ^ 9 -> width q n -> width (q * 10 ^ 9 + w) (n + 9).
Proof.
  intros Hq Hw (Hn & Hlt & Hlow). split; [lia|].
  replace (n + 9 - 1) with (n - 1 + 9) by lia. rewrite !Z.pow_add_r by lia.
  pose proof (Z.pow_pos_nonneg 10 (n - 1) ltac:(lia) ltac:(lia)). split; [nia|right].
  destruct Hlow as [->|]; [simpl Z.sub in *|]; nia.
Qed.

Lemma itoa_u64_ok fuel m u p :
  0 <= u < 2 ^ 32 * (10 ^ 9) ^ Z.of_nat fuel ->
  exists n, width u n /\ writes m p n u (itoa_u64 (S fuel) m u p).
Proof.
  revert u. induction fuel as [|fuel IH]; intros u Hu.
  { destruct (itoa_u32_ok m u p) as (n & _ & ? & ?); [lia|]. exists n. split; [done|].
    simpl. rewrite u32_small by (unfold is_u32; lia). by rewrite Z.eqb_refl. }
  rewrite Nat2Z.inj_succ, Z.pow_succ_r in Hu by lia.
  remember (S fuel) as f eqn:Hf. cbn [itoa_u64]. clear Hf.
  destruct (Z.eqb_spec (u32 u) u) as [E|Hbig].
  { pose proof (u32_range u) as Hr. rewrite E in *.
    destruct (itoa_u32_ok m u p) as (n & _ & ? & ?); [done|]. by exists n. }
  change 1000000000 with (10 ^ 9). change 100000000 with (10 ^ 8).
  assert (2 ^ 32 <= u) by (destruct (decide (u < 2 ^ 32)); [|lia]; exfalso; apply Hbig, u32_small; unfold is_u32; lia).
  destruct (IH (u / 10 ^ 9)) as (n & Hw & m1 & -> & He1 & _).
  { split; [apply Z.div_pos; lia|apply Z.div_lt_upper_bound; lia]. }
  assert (u32 (u - u / 10 ^ 9 * 10 ^ 9) = u mod 10 ^ 9) as ->.
  { rewrite (Z.mod_eq u) by lia. rewrite <- (Z.mul_comm (10 ^ 9)). apply u32_small.
    unfold is_u32. Z.to_euclidean_division_equations; lia. }
  pose proof (Z.mod_pos_bound u (10 ^ 9) ltac:(lia)).
  exists (n + 9). split.
  { rewrite (Z.div_mod u (10 ^ 9)), (Z.mul_comm (10 ^ 9)) by lia. apply width_more; [|lia|done].
    Z.to_euclidean_division_equations; lia. }
  cbn [out1].
  destruct (lead_digit 8 m1 (u mod 10 ^ 9) (p + n)) as (m2 & Hr & He2 & Hnul); [lia..|].
  change (8 + 1) with 9 in *. unfold out1. rewrite Hr. exists m2.
  rewrite <- Z.add_assoc in *. split; [done|]. split; [|done].
  destruct Hw as (? & _). apply (emits_app _ m1); [lia..|done|done].
Qed.

Lemma take_digits_decimal n w acc e rest :
  0 <= n -> 0 <= w < 10 ^ n -> isdigit e = false ->
  take_digits (decimal n w ++ e :: rest) acc = Ret (acc * 10 ^ n + w, e :: rest).
Proof.
  intros Hn. revert w acc. pattern n. apply natlike_ind; [| |done]; clear n Hn.
  - intros w acc Hw He. rewrite decimal_0. cbn [app take_digits]. rewrite He. do 2 f_equal. lia.
  - intros n Hn IH w acc Hw He. rewrite Z.pow_succ_r in * by lia.
    pose proof (Z.pow_pos_nonneg 10 n ltac:(lia) ltac:(lia)).
    replace (Z.succ n) with (1 + n) by lia. rewrite decimal_app by lia.
    assert (0 <= w / 10 ^ n < 10) by (split; [apply Z.div_pos; lia|apply Z.div_lt_upper_bound; lia]).
    rewrite decimal_1 by done. cbn [app take_digits].
    assert (isdigit (48 + w / 10 ^ n) = true) as -> by (unfold isdigit; lia).
    rewrite IH by (try apply Z.mod_pos_bound; lia || done). do 2 f_equal.
    rewrite (Z.mod_eq w (10 ^ n)) by lia. ring.
Qed.

(** ** The two loops *)

Lemma mult_loop_ok fuel i delta value acc :
  0 <= i <= delta -> delta < 2 ^ 63 -> delta - i < Z.of_nat fuel ->
  mult_loop fuel i delta value (u64 acc) = Some (u64 (acc + (delta - i) * value)).
Proof.
  intros Hi Hd. revert i acc Hi. induction fuel as [|fuel IH]; intros i acc Hi Hf; [lia|].
  simpl. destruct (Z.ltb_spec i delta).
  - rewrite u64_add_idemp_l. unwrap. rewrite IH by lia. do 2 f_equal. lia.
  - replace (delta - i) with 0 by lia. do 2 f_equal. lia.
Qed.

(** [k] multiples have been counted and the next one is compared. *)
Lemma div_loop_ok fuel delta value k :
  0 < delta -> 0 <= value -> (value / delta + 1) * delta < 2 ^ 64 ->
  0 <= k <= value / delta -> value / delta - k + 1 < Z.of_nat fuel ->
  div_loop fuel delta value ((k + 1) * delta) k = Some (value / delta).
Proof.
  intros Hd Hv Hno. revert k. induction fuel as [|fuel IH]; intros k Hk Hf; [lia|].
  cbn [div_loop]. destruct (Z.leb_spec ((k + 1) * delta) value) as [Hle|Hgt].
  - assert (k + 1 <= value / delta) by (apply Z.div_le_lower_bound; lia).
    assert (value / delta < 2 ^ 64) by nia.
    rewrite (u64_small (_ + _)) by (unfold is_u64; nia). rewrite (u64_small (k + 1)) by (unfold is_u64; lia).
    replace ((k + 1) * delta + delta) with ((k + 1 + 1) * delta) by ring. apply IH; lia.
  - f_equal. assert (value / delta < k + 1) by (apply Z.div_lt_upper_bound; lia). lia.
Qed.

(** Only the operand modulo [2 ^ 64] matters. *)
Lemma div_loop_s64 fuel delta delta' value temp divres :
  u64 delta' = delta ->
  div_loop fuel delta' value temp divres = div_loop fuel delta value temp divres.
Proof.
  intros <-. revert temp divres. induction fuel as [|fuel IH]; intros temp divres; [done|].
  cbn [div_loop]. by rewrite u64_add_idemp_r, IH.
Qed.

Lemma u64_sub_s64 x z : u64 (x - s64 z) = u64 (x - z).
Proof.
  unfold u64. rewrite Zminus_mod. change (s64 z mod 2 ^ 64) with (u64 (s64 z)).
  rewrite u64_s64. unfold u64. by rewrite <- Zminus_mod.
Qed.

(** The largest value is never passed. *)
Lemma div_loop_max fuel delta temp divres :
  is_u64 temp -> div_loop fuel delta (2 ^ 64 - 1) temp divres = None.
Proof.
  revert temp divres. induction fuel as [|fuel IH]; intros temp divres Ht; [done|].
  cbn [div_loop]. rewrite (proj2 (Z.leb_le _ _)) by (unfold is_u64 in Ht; lia).
  apply IH, u64_range.
Qed.

(** ** Reading a number back *)

Lemma width_bound v n : 0 <= v < 2 ^ 64 -> width v n -> n <= 20.
Proof.
  intros Hv (Hn & _ & [->|Hlow]); [lia|]. destruct (decide (n <= 20)); [done|].
  assert (10 ^ 20 <= 10 ^ (n - 1)) by (apply Z.pow_le_mono_r; lia). lia.
Qed.

Lemma decimal_first n v :
  width v n -> 0 <= v -> exists c cs, decimal n v = c :: cs /\ isdigit c = true.
Proof.
  intros (Hn & _) Hv. pose proof (decimal_length n v). pose proof (decimal_digits n v) as HF.
  destruct (decimal n v) as [|c cs]; [simpl in *; lia|]. inversion HF; subst. by eauto.
Qed.

Lemma strchr_digits ds rest :
  Forall (fun c => isdigit c = true) ds -> strchr (ds ++ rest) 45 = strchr rest 45.
Proof.
  induction 1 as [|c ds Hc _ IH]; [done|]. simpl. unfold isdigit in Hc.
  repeat case_match; try lia. done.
Qed.

Lemma strtoull_decimal n v e rest :
  is_u64 v -> width v n -> isdigit e = false ->
  strtoull (decimal n v ++ e :: rest) = Ret (v, false, e :: rest).
Proof.
  intros Hv Hw He. unfold strtoull.
  destruct (decimal_first n v) as (c & cs & Hds & Hc); [done|unfold is_u64 in Hv; lia|].
  assert (skip_space (decimal n v ++ e :: rest) = Ret (decimal n v ++ e :: rest)) as ->.
  { rewrite Hds. simpl. unfold isdigit, isspace in *. case_match; [lia|done]. }
  cbn [obind].
  assert ((match decimal n v ++ e :: rest with
    | c :: rest0 =>
        if c =? 45 then (true, rest0)
        else if c =? 43 then (false, rest0) else (false, decimal n v ++ e :: rest)
    | [] => (false, decimal n v ++ e :: rest)
    end) = (false, decimal n v ++ e :: rest)) as ->.
  { rewrite Hds. simpl. unfold isdigit in Hc. repeat case_match; try lia. done. }
  destruct Hw as (Hn & Hlt & _). rewrite take_digits_decimal by (unfold is_u64 in Hv; lia || done).
  cbn [obind]. rewrite decide_False.
  - rewrite (proj2 (Z.leb_gt _ _)) by (unfold is_u64 in Hv; lia). done.
  - rewrite length_app. pose proof (decimal_length n v). lia.
Qed.

Lemma safe_strtoull_decimal n v e rest :
  is_u64 v -> width v n -> isspace e = true \/ e = 0 ->
  v < 2 ^ 63 \/ strchr (e :: rest) 45 = Ret false ->
  safe_strtoull (decimal n v ++ e :: rest) = Ret (Some v).
Proof.
  intros Hv Hw He Hmin. unfold safe_strtoull. pose proof (decimal_length n v).
  rewrite strtoull_decimal; [|done..|].
  2: { unfold isdigit, isspace in *. destruct (48 <=? e) eqn:?; simpl; lia. }
  cbn [obind]. destruct Hw as (Hn & _).
  rewrite bool_decide_false by (rewrite length_app; lia). cbn [orb].
  assert (isspace e || (e =? 0) = true) as ->.
  { apply orb_true_iff. rewrite Z.eqb_eq. tauto. }
  destruct (Z.ltb_spec (s64 v) 0) as [Hneg|]; [|done].
  destruct Hmin as [Hlt|Hmin]; [apply s64_nonneg in Hlt; [lia|done]|].
  rewrite strchr_digits, Hmin by apply decimal_digits. done.
Qed.

(** What [strtoull] returns fits. *)
Lemma take_digits_nonneg str acc v e : 0 <= acc -> take_digits str acc = Ret (v, e) -> 0 <= v.
Proof.
  revert acc. induction str as [|c str IH]; intros acc Hacc; simpl; [done|].
  destruct (isdigit c) eqn:Hc; [|by intros [= <- _]]. apply IH. unfold isdigit in Hc. lia.
Qed.

Lemma safe_strtoull_u64 str v : safe_strtoull str = Ret (Some v) -> is_u64 v.
Proof.
  unfold safe_strtoull. destruct (strtoull str) as [[[ull er] endp]| | |] eqn:E; cbn [obind]; try done.
  intros H. assert (v = ull) as ->.
  { destruct (er || _); [done|]. destruct endp as [|e rest]; [done|]. destruct (isspace e || _); [|done].
    destruct (s64 ull <? 0); [|by injection H]. destruct (strchr str 45) as [[]| | |]; simpl in H; try done.
    by injection H. }
  clear H. unfold strtoull in E. destruct (skip_space str) as [s| | |]; try done. cbn [obind] in E.
  destruct (match s with [] => _ | _ => _ end) as [neg d].
  destruct (take_digits d 0) as [[w e]| | |] eqn:Hd; try done. cbn [obind] in E.
  apply take_digits_nonneg in Hd; [|done]. case_decide; [injection E as <- _ _; split; lia|].
  destruct (Z.leb_spec (2 ^ 64) w); [injection E as <- _ _; split; lia|].
  injection E as <- _ _. destruct neg; [apply u64_range|split; lia].
Qed.

(** ** Properties *)

(** [itoa_u64] writes the decimal digits of its argument, at most twenty
    of them, and a NUL, and no byte outside; [safe_strtoull] of the digits
    followed by a blank or a NUL gives the number back.  From [2 ^ 63] on it
    also searches the text behind for a minus sign. *)
Theorem itoa_u64_roundtrip m v p :
  is_u64 v ->
  exists m' n, itoa_u64 3 m v p = Some (m', p + n) /\ 1 <= n <= 20 /\ m' (p + n) = 0 /\
    (forall x, x < p \/ p + n < x -> m' x = m x) /\
    forall e rest, isspace e = true \/ e = 0 ->
      v < 2 ^ 63 \/ strchr (e :: rest) 45 = Ret false ->
      safe_strtoull ((m' <$> seqZ p n) ++ e :: rest) = Ret (Some v).
Proof.
  intros Hv. destruct (itoa_u64_ok 2 m v p) as (n & Hw & m' & Hr & [Hd Hf] & Hnul).
  { unfold is_u64 in Hv. change ((10 ^ 9) ^ Z.of_nat 2) with (10 ^ 18). lia. }
  exists m', n. split_and!; [done|by destruct Hw|by apply (width_bound v)|done|done|].
  intros e rest He Hmin. rewrite Hd. by apply safe_strtoull_decimal.
Qed.

(** With enough fuel, [incr] adds modulo [2 ^ 64], [decr] stops at zero,
    [mult] multiplies modulo [2 ^ 64] (and leaves the value alone for an
    operand with the top bit set), and [div] is the quotient, by zero the value
    itself, as long as the first multiple of the operand above the value is
    below [2 ^ 64]. *)
Theorem apply_delta_value fuel incr delta value v :
  is_u64 delta -> is_u64 value -> delta_spec incr delta value = Some v ->
  Z.max delta value + 2 < Z.of_nat fuel ->
  apply_delta fuel incr (s64 delta) value = Some v.
Proof.
  intros Hd Hv Hs Hf.
  assert (u64 (s64 delta) = delta) as Eu by (rewrite u64_s64; by apply u64_small).
  assert (forall x, u64 (x + s64 delta) = u64 (x + delta)) as Ea.
  { intros x. by rewrite <- u64_add_idemp_r, Eu. }
  pose proof (s64_nonneg delta Hd) as Hsg. unfold is_u64 in *.
  destruct incr as [|[[q|q|]|[q|q|]|]|q]; cbn [delta_spec apply_delta] in *; simplify_eq; try done.
  - rewrite Eu. f_equal. destruct (Z.ltb_spec value delta); [lia|].
    rewrite u64_sub_s64, u64_small by (unfold is_u64; lia). lia.
  - destruct (Z.eqb_spec delta 0) as [->|Hnz]; [done|].
    rewrite (proj2 (Z.eqb_neq (s64 delta) 0)) by (intros E; rewrite E in Eu; done).
    rewrite Ea, (u64_small (0 + delta)) by (unfold is_u64; lia).
    case_match eqn:Hno; [|done]. apply Z.ltb_lt in Hno. simplify_eq.
    assert (value / delta <= value) by (apply Z.div_le_upper_bound; nia).
    assert (0 <= value / delta) by (apply Z.div_pos; lia).
    rewrite <- (div_loop_ok fuel delta value 0); [|lia..].
    replace ((0 + 1) * delta) with (0 + delta) by ring. apply div_loop_s64, Eu.
  - destruct (Z.ltb_spec delta (2 ^ 63)); case_match eqn:Hc; simplify_eq; try lia; [|done].
    rewrite Eu. change 0 with (u64 0) at 2. rewrite mult_loop_ok by lia. f_equal.
    unfold u64. f_equal. lia.
  - by rewrite Ea.
Qed.

(** [div] of the largest value never returns, whatever the operand. *)
Lemma div_max_hangs fuel delta :
  delta <> 0 -> apply_delta fuel 3 delta (2 ^ 64 - 1) = None.
Proof.
  intros Hd. cbn [apply_delta]. rewrite (proj2 (Z.eqb_neq _ _)) by done.
  apply div_loop_max, u64_range.
Qed.

(** ** Witnesses *)

Lemma itoa_u64_roundtrip_witness :
  exists m' n, itoa_u64 3 (fun _ => 7) 18446744073709551615 0 = Some (m', 0 + n) /\
    safe_strtoull ((m' <$> seqZ 0 n) ++ 32 :: [0]) = Ret (Some 18446744073709551615).
Proof.
  destruct (itoa_u64_roundtrip (fun _ => 7) 18446744073709551615 0) as (m' & n & Hr & _ & _ & _ & Hs).
  { split; vm_compute; done. }
  exists m', n. split; [exact Hr|]. apply Hs; [left; reflexivity|right; reflexivity].
Defined.
Lemma apply_delta_value_witness : apply_delta 60 3 (s64 7) 50 = Some 7.
Proof. apply apply_delta_value; [split; vm_compute; done|split; vm_compute; done|reflexivity|vm_compute; reflexivity]. Defined.


End McNumber.
