(* ===== verification/Assoc.v ===== *)
(** * memcached's hash table ([assoc.c], p1a)

    Items live in a store [items], a pointer being its key there and 0 the null
    pointer; a bucket holds the first item of a chain through [h_next].  While
    the table doubles, buckets move one by one from [old_hashtable] to
    [primary_hashtable]; the steps of the maintenance thread interleave with
    the other operations.  Chains are followed with fuel, one more than there
    are items.  The hash function is chosen when memcached starts
    ([hash_func hash]), so it is any function here. *)

From S2P Require Import Prelude.
Local Open Scope Z_scope.
Local Open Scope xv6_scope.

Create HintDb assoc.

Module Assoc.

(** [struct _stritem]; [data] of the structure as the parts its macros find
    there: [cas], [key] (of [nkey] bytes), [suffix] (the client flags) and
    [data], the [nbytes] bytes of [ITEM_data]. *)
Record item := {
  next : Z; prev : Z; h_next : Z;
  time : Z; exptime : Z; nbytes : Z; refcount : Z; it_flags : Z; slabs_clsid : Z;
  cas : Z; key : list Z; suffix : Z; data : list Z
}.

Definition with_h_next (it : item) (p : Z) : item :=
  {| next := next it; prev := prev it; h_next := p; time := time it; exptime := exptime it;
     nbytes := nbytes it; refcount := refcount it; it_flags := it_flags it;
     slabs_clsid := slabs_clsid it; cas := cas it; key := key it; suffix := suffix it;
     data := data it |}.

(** The static variables of [assoc.c]. *)
Record table := {
  hashpower : Z;
  primary_hashtable : list Z;
  old_hashtable : list Z;
  expanding : bool;
  expand_bucket : Z
}.

Record heap := { items : gmap Z item; tab : table }.

(** A variable that holds a pointer to an item. *)
Inductive link :=
| Primary (b : Z)
| Old (b : Z)
| Next (it : Z).

#[global] Instance link_eq_dec : EqDecision link.
Proof. solve_decision. Defined.

Definition HASHPOWER_DEFAULT : Z := 16.
Definition HASHPOWER_MAX : Z := 32.

Definition hashsize (n : Z) : Z := u64 (Z.shiftl 1 n).
Definition hashmask (n : Z) : Z := hashsize n - 1.

Definition set_primary (t : table) (l : list Z) : table :=
  {| hashpower := hashpower t; primary_hashtable := l; old_hashtable := old_hashtable t;
     expanding := expanding t; expand_bucket := expand_bucket t |}.

Definition set_old (t : table) (l : list Z) : table :=
  {| hashpower := hashpower t; primary_hashtable := primary_hashtable t; old_hashtable := l;
     expanding := expanding t; expand_bucket := expand_bucket t |}.

Definition set_tab (h : heap) (t : table) : heap := {| items := items h; tab := t |}.
Definition set_items (h : heap) (its : gmap Z item) : heap := {| items := its; tab := tab h |}.

Definition load (h : heap) (l : link) : outcome Z :=
  match l with
  | Primary b => of_option (getZ (primary_hashtable (tab h)) b)
  | Old b => of_option (getZ (old_hashtable (tab h)) b)
  | Next p => of_option (h_next <$> items h !! p)
  end.

Definition store (h : heap) (l : link) (p : Z) : outcome heap :=
  match l with
  | Primary b =>
      let* l := of_option (setZ (primary_hashtable (tab h)) b p) in
      Ret (set_tab h (set_primary (tab h) l))
  | Old b =>
      let* l := of_option (setZ (old_hashtable (tab h)) b p) in
      Ret (set_tab h (set_old (tab h) l))
  | Next q =>
      let* it := of_option (items h !! q) in
      Ret (set_items h (<[q := with_h_next it p]> (items h)))
  end.

Definition assoc_init (hashtable_init : Z) : table :=
  let hp := if hashtable_init =? 0 then HASHPOWER_DEFAULT else hashtable_init in
  {| hashpower := hp; primary_hashtable := replicate (Z.to_nat (hashsize hp)) 0;
     old_hashtable := []; expanding := false; expand_bucket := 0 |}.

(** The bucket a hash value belongs to. *)
Definition bucket (t : table) (hv : Z) : link :=
  let oldbucket := Z.land hv (hashmask (hashpower t - 1)) in
  if expanding t && (expand_bucket t <=? oldbucket) then Old oldbucket
  else Primary (Z.land hv (hashmask (hashpower t))).

Fixpoint find_from (fuel : nat) (h : heap) (it : Z) (k : list Z) : outcome Z :=
  match fuel with
  | O => Fault
  | S fuel =>
      if it =? 0 then Ret 0
      else
        let* i := of_option (items h !! it) in
        if bool_decide (k = key i) then Ret it else find_from fuel h (h_next i) k
  end.

Definition chain_fuel (h : heap) : nat := S (base.size (items h)).

Definition assoc_find (h : heap) (k : list Z) (hv : Z) : outcome Z :=
  let* it := load h (bucket (tab h) hv) in
  find_from (chain_fuel h) h it k.

Fixpoint before_from (fuel : nat) (h : heap) (pos : link) (k : list Z) : outcome link :=
  match fuel with
  | O => Fault
  | S fuel =>
      let* p := load h pos in
      if p =? 0 then Ret pos
      else
        let* i := of_option (items h !! p) in
        if bool_decide (k = key i) then Ret pos else before_from fuel h (Next p) k
  end.

Definition hashitem_before (h : heap) (k : list Z) (hv : Z) : outcome link :=
  before_from (chain_fuel h) h (bucket (tab h) hv) k.

Definition assoc_insert (h : heap) (it hv : Z) : outcome heap :=
  let b := bucket (tab h) hv in
  let* head := load h b in
  let* h := store h (Next it) head in
  store h b it.

Definition assoc_delete (h : heap) (k : list Z) (hv : Z) : outcome heap :=
  let* before := hashitem_before h k hv in
  let* p := load h before in
  if p =? 0 then Panic "assert"
  else
    let* nxt := load h (Next p) in
    let* h := store h (Next p) 0 in
    store h before nxt.

(** [calloc_ok]: whether [calloc] gave the table of twice the size. *)
Definition assoc_expand (calloc_ok : bool) (h : heap) : heap :=
  let t := tab h in
  if calloc_ok then
    set_tab h
      {| hashpower := hashpower t + 1;
         primary_hashtable := replicate (Z.to_nat (hashsize (hashpower t + 1))) 0;
         old_hashtable := primary_hashtable t;
         expanding := true; expand_bucket := 0 |}
  else set_tab h (set_old t (primary_hashtable t)).

(** Whether [assoc_start_expand] wakes the maintenance thread. *)
Definition assoc_start_expand (h : heap) (curr_items : Z) : bool :=
  (hashsize (hashpower (tab h)) * 3 / 2 <? curr_items) && (hashpower (tab h) <? HASHPOWER_MAX).

(** ** Chains *)

(** Following the field [f] from [p] leads through the items of [l] to [e]. *)
Fixpoint links (f : item -> Z) (its : gmap Z item) (p : Z) (l : list Z) (e : Z) : Prop :=
  match l with
  | [] => p = e
  | q :: l => p = q /\ q <> 0 /\ exists it, its !! q = Some it /\ links f its (f it) l e
  end.

#[local] Abbreviation seg := (links h_next).

Section hash.
Context (hash : list Z -> Z).

(** The loop over a bucket in [assoc_maintenance_thread]. *)
Fixpoint move_items (fuel : nat) (h : heap) (it : Z) : outcome heap :=
  match fuel with
  | O => Fault
  | S fuel =>
      if it =? 0 then Ret h
      else
        let* i := of_option (items h !! it) in
        let b := Primary (Z.land (hash (key i)) (hashmask (hashpower (tab h)))) in
        let* head := load h b in
        let* h := store h (Next it) head in
        let* h := store h b it in
        move_items fuel h (h_next i)
  end.

Definition move_bucket (h : heap) : outcome heap :=
  let b := expand_bucket (tab h) in
  let* it := load h (Old b) in
  let* h := move_items (chain_fuel h) h it in
  let* h := store h (Old b) 0 in
  let t := tab h in
  let last := b + 1 =? hashsize (hashpower t - 1) in
  Ret (set_tab h
    {| hashpower := hashpower t; primary_hashtable := primary_hashtable t;
       old_hashtable := if last then [] else old_hashtable t;
       expanding := negb last; expand_bucket := b + 1 |}).

(** [for (ii = 0; ii < hash_bulk_move && expanding; ++ii)]: one entry of
    [locks] per turn, whether [item_trylock] succeeded. *)
Fixpoint bulk_move (h : heap) (locks : list bool) : outcome heap :=
  match locks with
  | [] => Ret h
  | locked :: locks =>
      if expanding (tab h) then
        let* h := if locked then move_bucket h else Ret h in
        bulk_move h locks
      else Ret h
  end.

(** ** What the table stands for *)

Definition key_at (its : gmap Z item) (q : Z) : option (list Z) := key <$> its !! q.

(** The buckets in use. *)
Definition live (t : table) (b : link) : Prop :=
  match b with
  | Primary b => 0 <= b < hashsize (hashpower t)
  | Old b => expanding t = true /\ expand_bucket t <= b < hashsize (hashpower t - 1)
  | Next _ => False
  end.

Record table_ok (t : table) : Prop := {
  to_power : 0 <= hashpower t <= HASHPOWER_MAX;
  to_primary : Z.of_nat (length (primary_hashtable t)) = hashsize (hashpower t);
  to_old : expanding t = true ->
    1 <= hashpower t /\ 0 <= expand_bucket t < hashsize (hashpower t - 1) /\
    Z.of_nat (length (old_hashtable t)) = hashsize (hashpower t - 1)
}.

(** [own b] are the items of bucket [b], first to last. *)
Record owned (h : heap) (own : link -> list Z) : Prop := {
  ow_table : table_ok (tab h);
  ow_live : forall b, live (tab h) b -> exists p, load h b = Ret p /\ seg (items h) p (own b) 0;
  ow_dead : forall b, ~ live (tab h) b -> own b = [];
  ow_place : forall b q, q ∈ own b ->
    exists it, items h !! q = Some it /\ bucket (tab h) (hash (key it)) = b;
  ow_keys : forall b, NoDup (key_at (items h) <$> own b)
}.

(** The table holds exactly the bindings of [m], from keys to items. *)
Definition binds (h : heap) (own : link -> list Z) (m : gmap (list Z) Z) : Prop :=
  forall k q, m !! k = Some q <->
    q ∈ own (bucket (tab h) (hash k)) /\ key_at (items h) q = Some k.

Definition refines (h : heap) (m : gmap (list Z) Z) : Prop :=
  exists own, owned h own /\ binds h own m.

(** Operations on the table change no item but for its [h_next]. *)
Definition same_items (its its' : gmap Z item) : Prop :=
  forall q, (fun it => with_h_next it 0) <$> its' !! q = (fun it => with_h_next it 0) <$> its !! q.

(** The operations, as the callers of [assoc.c] make them, and the items they
    allocate and free meanwhile; next to the map they are to implement. *)
Inductive astep : heap * gmap (list Z) Z -> heap * gmap (list Z) Z -> Prop :=
| A_alloc h m q it : items h !! q = None -> q <> 0 ->
    astep (h, m) (set_items h (<[q := it]> (items h)), m)
| A_free h m q : (forall k, m !! k <> Some q) ->
    astep (h, m) (set_items h (delete q (items h)), m)
| A_insert h m q it h' : items h !! q = Some it -> q <> 0 -> (forall k, m !! k <> Some q) ->
    m !! key it = None -> assoc_insert h q (hash (key it)) = Ret h' ->
    astep (h, m) (h', <[key it := q]> m)
| A_delete h m k h' : m !! k <> None -> assoc_delete h k (hash k) = Ret h' ->
    astep (h, m) (h', delete k m)
| A_expand h m ok : expanding (tab h) = false -> hashpower (tab h) < HASHPOWER_MAX ->
    astep (h, m) (assoc_expand ok h, m)
| A_move h m locks h' : bulk_move h locks = Ret h' -> astep (h, m) (h', m).
End hash.

Section chains.
Context (f : item -> Z).
Implicit Types (its : gmap Z item) (l : list Z).

Lemma links_app its p l1 l2 e :
  links f its p (l1 ++ l2) e <-> exists p2, links f its p l1 p2 /\ links f its p2 l2 e.
Proof.
  revert p. induction l1 as [|q l1 IH]; intros p; simpl; [split; [by eauto|by intros (? & -> & ?)]|].
  split.
  - intros (-> & Hq & it & Hit & (p2 & ? & ?)%IH). by eauto 10.
  - intros (p2 & (-> & Hq & it & Hit & ?) & ?). split_and!; [done..|]. exists it. rewrite IH. by eauto.
Qed.

Lemma links_ext its its' p l e :
  (forall q, q ∈ l -> f <$> its' !! q = f <$> its !! q) -> links f its p l e -> links f its' p l e.
Proof.
  revert p. induction l as [|q l IH]; intros p Hext; simpl; [done|].
  intros (-> & Hq & it & Hit & Hs). split_and!; [done..|].
  specialize (Hext q ltac:(set_solver)) as He. rewrite Hit in He. simpl in He.
  destruct (its' !! q) as [it'|]; [|done]. apply (inj Some) in He. exists it'. split; [done|].
  rewrite He. apply IH; [|done]. intros. apply Hext. set_solver.
Qed.

Lemma links_insert its p l e q it :
  q ∉ l -> links f its p l e -> links f (<[q := it]> its) p l e.
Proof.
  intros Hq. apply links_ext. intros x Hx. by rewrite lookup_insert_ne by set_solver.
Qed.

Lemma links_delete its p l e q : q ∉ l -> links f its p l e -> links f (delete q its) p l e.
Proof.
  intros Hq. apply links_ext. intros x Hx. by rewrite lookup_delete_ne by set_solver.
Qed.

Lemma links_size its p l e : links f its p l e -> NoDup l -> (length l <= base.size its)%nat.
Proof.
  revert its p. induction l as [|q l IH]; intros its p; simpl; [lia|].
  intros (-> & Hq & it & Hit & Hs) [Hni Hnd]%NoDup_cons.
  apply (links_delete _ _ _ _ q Hni) in Hs. apply IH in Hs; [|done].
  rewrite map_size_delete_Some in Hs by eauto.
  assert (base.size its <> 0%nat) by (rewrite map_size_non_empty_iff; intros ->; done). lia.
Qed.

Lemma keys_NoDup its l : NoDup (key_at its <$> l) -> NoDup l.
Proof. apply NoDup_fmap_1. Qed.

Lemma keys_inj its l q q' :
  NoDup (key_at its <$> l) -> q ∈ l -> q' ∈ l -> key_at its q = key_at its q' -> q = q'.
Proof.
  induction l as [|x l IH]; intros Hnd Hq Hq' Hk; [by apply not_elem_of_nil in Hq|].
  rewrite fmap_cons in Hnd. apply NoDup_cons in Hnd as [Hni Hnd].
  apply elem_of_cons in Hq as [->|Hq], Hq' as [->|Hq']; try done.
  - destruct Hni. rewrite Hk. by apply list_elem_of_fmap_2.
  - destruct Hni. rewrite <- Hk. by apply list_elem_of_fmap_2.
  - by apply IH.
Qed.
End chains.

(** ** Items up to their links *)

Lemma same_items_refl its : same_items its its.
Proof. done. Qed.

Lemma same_items_trans its1 its2 its3 :
  same_items its1 its2 -> same_items its2 its3 -> same_items its1 its3.
Proof. intros H1 H2 q. by rewrite H2, H1. Qed.

Lemma same_items_next its q it p :
  its !! q = Some it -> same_items its (<[q := with_h_next it p]> its).
Proof.
  intros Hq x. destruct (decide (x = q)) as [->|].
  - rewrite lookup_insert_eq, Hq. by destruct it.
  - by rewrite lookup_insert_ne.
Qed.

Lemma same_items_key its its' q : same_items its its' -> key_at its' q = key_at its q.
Proof.
  intros Hs. specialize (Hs q). unfold key_at.
  destruct (its' !! q), (its !! q); try done. simpl in *.
  injection Hs. intros. by f_equal.
Qed.

Lemma same_items_lookup its its' q it :
  same_items its its' -> its !! q = Some it ->
  exists it', its' !! q = Some it' /\ key it' = key it.
Proof.
  intros Hs Hq. apply (same_items_key _ _ q) in Hs. unfold key_at in Hs. rewrite Hq in Hs.
  destruct (its' !! q) as [it'|]; [|done]. exists it'. split; [done|].
  by injection Hs.
Qed.

Lemma same_items_keys its its' (l : list Z) : same_items its its' -> key_at its' <$> l = key_at its <$> l.
Proof. intros Hs. apply list_fmap_ext. intros i x _. by apply same_items_key. Qed.

#[local] Hint Resolve same_items_refl same_items_next same_items_trans : assoc.

(** ** Buckets *)

Lemma hashsize_pow n : 0 <= n <= 63 -> hashsize n = 2 ^ n.
Proof.
  intros. unfold hashsize. rewrite Z.shiftl_1_l. apply u64_small. unfold is_u64.
  split; [apply Z.pow_nonneg; lia|apply Z.pow_lt_mono_r; lia].
Qed.

Lemma hashsize_pos n : 0 <= n <= 63 -> 0 < hashsize n.
Proof. intros. rewrite hashsize_pow by done. apply Z.pow_pos_nonneg; lia. Qed.

Lemma mask_mod n hv : 0 <= n <= 63 -> Z.land hv (hashmask n) = hv mod hashsize n.
Proof.
  intros. unfold hashmask. rewrite hashsize_pow by done.
  replace (2 ^ n - 1) with (Z.ones n) by (rewrite Z.ones_equiv; lia).
  by rewrite Z.land_ones by lia.
Qed.

Lemma bucket_live t hv : table_ok t -> live t (bucket t hv).
Proof.
  intros [Hp _ Ho]. unfold bucket, HASHPOWER_MAX in *.
  destruct (expanding t) eqn:He; simpl.
  - destruct (Ho eq_refl) as (H1 & H2 & _). rewrite !mask_mod by lia.
    pose proof (hashsize_pos (hashpower t) ltac:(lia)).
    pose proof (hashsize_pos (hashpower t - 1) ltac:(lia)).
    destruct (Z.leb_spec (expand_bucket t) (hv mod hashsize (hashpower t - 1))); simpl.
    + split; [done|]. split; [done|]. apply Z.mod_pos_bound. lia.
    + apply Z.mod_pos_bound. lia.
  - rewrite mask_mod by lia. apply Z.mod_pos_bound, hashsize_pos. lia.
Qed.

(** Two tables that differ in the heads of their chains only. *)
Definition same_shape (t t' : table) : Prop :=
  hashpower t' = hashpower t /\ expanding t' = expanding t /\ expand_bucket t' = expand_bucket t /\
  length (primary_hashtable t') = length (primary_hashtable t) /\
  length (old_hashtable t') = length (old_hashtable t).

Lemma same_shape_ok t t' : same_shape t t' -> table_ok t -> table_ok t'.
Proof.
  intros (Hp & He & Hb & Hl1 & Hl2) [H1 H2 H3]. split; rewrite ?Hp, ?He, ?Hb, ?Hl1, ?Hl2; done.
Qed.

Lemma same_shape_bucket t t' hv : same_shape t t' -> bucket t' hv = bucket t hv.
Proof. intros (Hp & He & Hb & _). unfold bucket. by rewrite Hp, He, Hb. Qed.

Lemma same_shape_live t t' b : same_shape t t' -> live t' b <-> live t b.
Proof. intros (Hp & He & Hb & _). destruct b; simpl; by rewrite ?Hp, ?He, ?Hb. Qed.

Lemma same_shape_trans t1 t2 t3 : same_shape t1 t2 -> same_shape t2 t3 -> same_shape t1 t3.
Proof. intros (? & ? & ? & ? & ?) (? & ? & ? & ? & ?). repeat split; congruence. Qed.

Lemma store_live h b p :
  table_ok (tab h) -> live (tab h) b ->
  exists h', store h b p = Ret h' /\ items h' = items h /\ same_shape (tab h) (tab h') /\
    load h' b = Ret p /\ forall b', b' <> b -> load h' b' = load h b'.
Proof.
  intros Hok Hl. destruct b as [b|b|]; [| |done]; simpl in *.
  - destruct Hok as [_ Hlen _].
    rewrite setZ_Some by lia. cbn [of_option obind]. eexists. split; [done|].
    split; [done|]. split; [unfold same_shape; simpl; by rewrite length_insert|]. split.
    + simpl. erewrite setZ_get by (apply setZ_Some; lia). done.
    + intros [b'|b'|] Hne; simpl; [|done..].
      by erewrite setZ_get_ne by (try (apply setZ_Some; lia); congruence).
  - destruct Hl as [He Hl]. destruct Hok as [_ _ Ho]. destruct (Ho He) as (_ & ? & ?).
    rewrite setZ_Some by lia. cbn [of_option obind]. eexists. split; [done|].
    split; [done|]. split; [unfold same_shape; simpl; by rewrite length_insert|]. split.
    + simpl. erewrite setZ_get by (apply setZ_Some; lia). done.
    + intros [b'|b'|] Hne; simpl; [done| |done].
      by erewrite setZ_get_ne by (try (apply setZ_Some; lia); congruence).
Qed.

Lemma store_next h q it p :
  items h !! q = Some it ->
  store h (Next q) p = Ret (set_items h (<[q := with_h_next it p]> (items h))).
Proof. intros Hq. simpl. by rewrite Hq. Qed.

(** ** Searching a chain *)

Lemma find_from_here fuel h p l1 q l2 k e :
  seg (items h) p (l1 ++ q :: l2) e -> (length l1 < fuel)%nat ->
  (forall x, x ∈ l1 -> key_at (items h) x <> Some k) -> key_at (items h) q = Some k ->
  find_from fuel h p k = Ret q.
Proof.
  revert fuel p. induction l1 as [|x l1 IH]; intros fuel p Hs Hf Hno Hq;
    (destruct fuel as [|fuel]; [simpl in *; lia|]); simpl in Hs;
    destruct Hs as (-> & Hnz & it & Hit & Hs); cbn [find_from];
    rewrite (proj2 (Z.eqb_neq _ _)) by done; rewrite Hit; cbn [of_option obind].
  - unfold key_at in Hq. rewrite Hit in Hq. simplify_eq/=. by rewrite bool_decide_true.
  - rewrite bool_decide_false.
    + apply IH; [done|simpl in Hf; lia| |done]. intros y Hy. apply Hno. set_solver.
    + intros ->. apply (Hno x); [set_solver|]. unfold key_at. by rewrite Hit.
Qed.

Lemma find_from_none fuel h p l k :
  seg (items h) p l 0 -> (length l < fuel)%nat ->
  (forall x, x ∈ l -> key_at (items h) x <> Some k) -> find_from fuel h p k = Ret 0.
Proof.
  revert fuel p. induction l as [|x l IH]; intros fuel p Hs Hf Hno;
    (destruct fuel as [|fuel]; [simpl in *; lia|]); simpl in Hs; [by subst|].
  destruct Hs as (-> & Hnz & it & Hit & Hs). cbn [find_from].
  rewrite (proj2 (Z.eqb_neq _ _)) by done. rewrite Hit. cbn [of_option obind].
  rewrite bool_decide_false.
  - apply IH; [done|simpl in Hf; lia|]. intros y Hy. apply Hno. set_solver.
  - intros ->. apply (Hno x); [set_solver|]. unfold key_at. by rewrite Hit.
Qed.

(** The variable that points to the item behind [l1]. *)
Definition before (b : link) (l1 : list Z) : link :=
  match last l1 with Some r => Next r | None => b end.

Lemma before_cons b x l1 : before b (x :: l1) = before (Next x) l1.
Proof.
  destruct l1 as [|y l]; [done|]. unfold before. rewrite last_cons_cons.
  by destruct (last (y :: l)) eqn:E; [|apply last_None in E].
Qed.

Lemma before_from_here fuel h b p l1 q l2 k e :
  load h b = Ret p -> seg (items h) p (l1 ++ q :: l2) e -> (length l1 < fuel)%nat ->
  (forall x, x ∈ l1 -> key_at (items h) x <> Some k) -> key_at (items h) q = Some k ->
  before_from fuel h b k = Ret (before b l1) /\ load h (before b l1) = Ret q.
Proof.
  revert fuel b p. induction l1 as [|x l1 IH]; intros fuel b p Hb Hs Hf Hno Hq;
    (destruct fuel as [|fuel]; [simpl in *; lia|]); simpl in Hs;
    destruct Hs as (-> & Hnz & it & Hit & Hs); cbn [before_from]; rewrite Hb; cbn [obind];
    rewrite (proj2 (Z.eqb_neq _ _)) by done; rewrite Hit; cbn [of_option obind].
  - unfold key_at in Hq. rewrite Hit in Hq. simplify_eq/=. by rewrite bool_decide_true.
  - rewrite before_cons, bool_decide_false.
    + apply (IH _ _ (h_next it)); [simpl; by rewrite Hit|done|simpl in Hf; lia| |done].
      intros y Hy. apply Hno. set_solver.
    + intros ->. apply (Hno x); [set_solver|]. unfold key_at. by rewrite Hit.
Qed.

(** Redirecting the last item of a chain. *)
Lemma links_redirect f its p l r it e e' :
  links f its p (l ++ [r]) e -> r ∉ l -> is_Some (its !! r) -> f it = e' ->
  links f (<[r := it]> its) p (l ++ [r]) e'.
Proof.
  intros Hs Hr [ir Hir] Hf. apply links_app in Hs as (p2 & Hs1 & -> & Hnz & it' & Hit' & _).
  apply links_app. exists r. split; [by apply links_insert|]. split_and!; [done..|].
  rewrite lookup_insert_eq. by eexists.
Qed.

Section operations.
Context (hash : list Z -> Z).

(** A bucket's chain fits the fuel. *)
Lemma owned_fuel h own b p :
  owned hash h own -> seg (items h) p (own b) 0 -> (length (own b) < chain_fuel h)%nat.
Proof.
  intros Ho Hs. apply links_size in Hs; [unfold chain_fuel; lia|].
  eapply keys_NoDup, (ow_keys hash h own Ho).
Qed.

Lemma refines_in h own m k q :
  owned hash h own -> binds hash h own m -> forall b, q ∈ own b -> key_at (items h) q = Some k -> m !! k = Some q.
Proof.
  intros Ho Hm b Hq Hk. apply Hm. split; [|done].
  destruct (ow_place hash h own Ho b q Hq) as (it & Hit & <-).
  unfold key_at in Hk. rewrite Hit in Hk. simplify_eq/=. done.
Qed.

Lemma find_ok h m k :
  refines hash h m -> assoc_find h k (hash k) = Ret (default 0 (m !! k)).
Proof.
  intros (own & Ho & Hm). unfold assoc_find. set (b := bucket (tab h) (hash k)) in *.
  destruct (ow_live hash h own Ho b) as (p & -> & Hs); [apply bucket_live, Ho|]. cbn [obind].
  pose proof (owned_fuel h own b p Ho Hs) as Hf.
  destruct (m !! k) as [q|] eqn:Hk.
  - apply Hm in Hk as [Hq Hk]. apply list_elem_of_split in Hq as (l1 & l2 & Hl).
    fold b in Hl. pose proof (ow_keys hash h own Ho b) as Hnd. rewrite Hl in *.
    rewrite length_app in Hf. eapply find_from_here; [done|lia| |done].
    intros x Hx Hk'. rewrite fmap_app in Hnd. apply NoDup_app in Hnd as (_ & Hnd & _).
    apply (Hnd (Some k)); [rewrite <- Hk'; by apply list_elem_of_fmap_2|].
    rewrite <- Hk. apply list_elem_of_fmap_2. set_solver.
  - eapply find_from_none; [done..|]. intros x Hx Hk'.
    rewrite (refines_in h own m k x Ho Hm b) in Hk by done. done.
Qed.

Definition at_bucket (own : link -> list Z) (b : link) (l : list Z) : link -> list Z :=
  fun b' => if decide (b' = b) then l else own b'.

(** An item is in one bucket only. *)
Lemma owned_apart h own b b' q : owned hash h own -> q ∈ own b -> q ∈ own b' -> b = b'.
Proof.
  intros Ho Hq Hq'. destruct (ow_place hash h own Ho b q Hq) as (it & Hit & <-).
  destruct (ow_place hash h own Ho b' q Hq') as (it' & Hit' & <-). by simplify_eq.
Qed.

(** One bucket changes, and no link of an item of another one. *)
Lemma owned_update h h' own b l' :
  owned hash h own -> live (tab h) b ->
  same_items (items h) (items h') -> same_shape (tab h) (tab h') ->
  (forall b', b' <> b -> (live (tab h) b' -> load h' b' = load h b') /\
     forall q, q ∈ own b' -> h_next <$> items h' !! q = h_next <$> items h !! q) ->
  (exists p, load h' b = Ret p /\ seg (items h') p l' 0) ->
  (forall q, q ∈ l' -> exists it, items h !! q = Some it /\ bucket (tab h) (hash (key it)) = b) ->
  NoDup (key_at (items h) <$> l') ->
  owned hash h' (at_bucket own b l').
Proof.
  intros Ho Hl Hi Ht Hother Hhere Hplace Hnd. unfold at_bucket.
  split; intros; try case_decide; simplify_eq.
  - eapply same_shape_ok, Ho. done.
  - done.
  - rewrite (same_shape_live _ _ _ Ht) in H. destruct (Hother b0) as [Hload Hn]; [done|].
    destruct (ow_live hash h own Ho b0) as (p & Hp & Hs); [done|].
    exists p. rewrite Hload by done. split; [done|]. by eapply links_ext.
  - by rewrite same_shape_live in H.
  - apply (ow_dead hash h own Ho). by rewrite <- (same_shape_live _ _ b0 Ht).
  - destruct (Hplace q) as (it & Hit & Hb); [done|].
    destruct (same_items_lookup _ _ _ _ Hi Hit) as (it' & Hit' & Hk).
    exists it'. by rewrite Hk, (same_shape_bucket _ _ _ Ht).
  - destruct (ow_place hash h own Ho b0 q) as (it & Hit & Hb); [done|].
    destruct (same_items_lookup _ _ _ _ Hi Hit) as (it' & Hit' & Hk).
    exists it'. by rewrite Hk, (same_shape_bucket _ _ _ Ht).
  - by rewrite (same_items_keys _ _ _ Hi).
  - rewrite (same_items_keys _ _ _ Hi). apply Ho.
Qed.

Lemma insert_ok h m q it :
  refines hash h m -> items h !! q = Some it -> q <> 0 -> (forall k, m !! k <> Some q) ->
  m !! key it = None ->
  exists h', assoc_insert h q (hash (key it)) = Ret h' /\
    refines hash h' (<[key it := q]> m) /\ same_items (items h) (items h') /\
    dom (items h') = dom (items h).
Proof.
  intros (own & Ho & Hm) Hq Hnz Hfresh Hnew. unfold assoc_insert.
  set (b := bucket (tab h) (hash (key it))).
  assert (live (tab h) b) as Hlive by apply bucket_live, Ho.
  destruct (ow_live hash h own Ho b Hlive) as (p & Hp & Hs). rewrite Hp. cbn [obind].
  rewrite (store_next h q it) by done. cbn [obind].
  set (h1 := set_items h _).
  destruct (store_live h1 b q) as (h' & -> & Hi & Ht & Hhere & Hother); [apply Ho|done|].
  assert (forall b', q ∉ own b') as Hout.
  { intros b' Hb'. destruct (ow_place hash h own Ho b' q Hb') as (it' & Hit' & Hb).
    simplify_eq. eapply (Hfresh (key it)), (refines_in h own); [done..|].
    unfold key_at. by rewrite Hq. }
  assert (same_items (items h) (items h')) as Hsame by (rewrite Hi; by apply same_items_next).
  exists h'. split; [done|]. split_and!; [|done|].
  2: { rewrite Hi. simpl. apply dom_insert_lookup_L. by eexists. }
  exists (at_bucket own b (q :: own b)). split.
  - apply (owned_update h h'); [done..| | | |].
    + intros b' Hne. split; [intros; rewrite Hother by done; by destruct b'|].
      intros x Hx. rewrite Hi. simpl. rewrite lookup_insert_ne; [done|].
      intros ->. by apply (Hout b').
    + exists q. split; [done|]. rewrite Hi. simpl. split_and!; [done..|].
      rewrite lookup_insert_eq. eexists. split; [done|]. simpl. apply links_insert; [apply Hout|done].
    + intros x [->|Hx]%elem_of_cons; [by exists it|]. by apply (ow_place hash h own Ho).
    + rewrite fmap_cons. apply NoDup_cons. split; [|apply Ho].
      intros (x & Hk & Hx)%list_elem_of_fmap. unfold key_at in Hk at 1. rewrite Hq in Hk.
      simpl in Hk. rewrite (refines_in h own m (key it) x Ho Hm b) in Hnew by done. done.
  - intros k x. rewrite (same_shape_bucket _ _ _ Ht), (same_items_key _ _ _ Hsame).
    change (bucket (tab h1) (hash k)) with (bucket (tab h) (hash k)).
    unfold at_bucket. destruct (decide (k = key it)) as [->|Hk].
    + rewrite lookup_insert_eq. fold b. rewrite decide_True by done. split.
      * intros [= ->]. split; [set_solver|]. unfold key_at. by rewrite Hq.
      * intros [[->|Hx]%elem_of_cons Hkx]; [done|].
        rewrite (refines_in h own m (key it) x Ho Hm b) in Hnew by done. done.
    + rewrite lookup_insert_ne by done. rewrite (Hm k x). case_decide as Hb; [|done].
      rewrite Hb, elem_of_cons. split; [tauto|]. intros [[->|Hx] Hkx]; [|done].
      unfold key_at in Hkx. rewrite Hq in Hkx. simplify_eq/=.
Qed.

(** Cutting [q] out of its chain. *)
Lemma unlink_ok h b p l1 q l2 it :
  table_ok (tab h) -> live (tab h) b -> load h b = Ret p -> items h !! q = Some it ->
  seg (items h) p (l1 ++ q :: l2) 0 -> NoDup (l1 ++ q :: l2) ->
  exists h' p',
    (let* h1 := store h (Next q) 0 in store h1 (before b l1) (h_next it)) = Ret h' /\
    same_items (items h) (items h') /\ same_shape (tab h) (tab h') /\
    dom (items h') = dom (items h) /\
    (forall b', b' <> b -> live (tab h) b' -> load h' b' = load h b') /\
    (forall x, x ∉ l1 ++ q :: l2 -> items h' !! x = items h !! x) /\
    load h' b = Ret p' /\ seg (items h') p' (l1 ++ l2) 0.
Proof.
  intros Hok Hlive Hp Hq Hs Hnd. apply links_app in Hs as (q' & Hs1 & -> & Hnz & it' & Hq' & Hs2).
  rewrite Hq in Hq'. injection Hq' as <-.
  apply NoDup_app in Hnd as (Hnd1 & Hdis & [Hq2 Hnd2]%NoDup_cons).
  rewrite (store_next h q it) by done. cbn [obind]. set (h1 := set_items h _).
  assert (same_items (items h) (items h1)) as Hsame1 by by apply same_items_next.
  destruct (decide (l1 = [])) as [->|Hne].
  - destruct (store_live h1 b (h_next it)) as (h' & Hst & Hi & Ht & Hhere & Hother); [done..|].
    exists h', (h_next it). split_and!; [done| | | | | |done|]; rewrite ?Hi; try done.
    + simpl. apply dom_insert_lookup_L. by eexists.
    + intros b' Hne Hl. rewrite Hother by done. by destruct b'.
    + intros x Hx. simpl. rewrite lookup_insert_ne by set_solver. done.
    + simpl. by apply links_insert.
  - destruct (exists_last Hne) as (l & r & ->). unfold before. rewrite last_snoc.
    assert (r <> q) as Hrq by (intros ->; apply (Hdis q); set_solver).
    pose proof Hs1 as (p2 & Hs1' & -> & Hrz & ir & Hr & Hn)%links_app.
    rewrite (store_next h1 r ir) by (simpl; by rewrite lookup_insert_ne).
    eexists _, p. split_and!; [done|..]; simpl.
    + eapply same_items_trans; [done|]. apply same_items_next. simpl. by rewrite lookup_insert_ne.
    + done.
    + rewrite !dom_insert_lookup_L; [done|by eexists|]. rewrite lookup_insert_ne by done. by eexists.
    + intros b' _ Hl. by destruct b'.
    + intros x Hx. rewrite !lookup_insert_ne by set_solver. done.
    + destruct b; [done|done|done].
    + apply links_app. exists (h_next it). apply NoDup_app in Hnd1 as (_ & Hlr & _). split.
      * apply (links_redirect _ _ _ _ _ _ q); [|set_solver|by rewrite lookup_insert_ne|done].
        apply links_insert; [intros Hin; apply (Hdis q Hin); set_solver|done].
      * apply links_insert; [|by apply links_insert]. intros Hin. apply (Hdis r); set_solver.
Qed.

Lemma delete_ok h m k q :
  refines hash h m -> m !! k = Some q ->
  exists h', assoc_delete h k (hash k) = Ret h' /\ refines hash h' (delete k m) /\
    same_items (items h) (items h') /\ dom (items h') = dom (items h).
Proof.
  intros (own & Ho & Hm) Hk. pose proof Hk as [Hq Hkq]%Hm.
  set (b := bucket (tab h) (hash k)) in *.
  assert (live (tab h) b) as Hlive by apply bucket_live, Ho.
  destruct (ow_live hash h own Ho b Hlive) as (p & Hp & Hs).
  pose proof (owned_fuel h own b p Ho Hs) as Hf.
  pose proof (ow_keys hash h own Ho b) as Hkeys.
  assert (exists it, items h !! q = Some it /\ key it = k) as (it & Hit & Hkit).
  { unfold key_at in Hkq. destruct (items h !! q); simplify_eq/=. by eexists. }
  apply list_elem_of_split in Hq as (l1 & l2 & Hl). rewrite Hl in Hs, Hf, Hkeys.
  assert (forall x, x ∈ l1 -> key_at (items h) x <> Some k) as Hno.
  { intros x Hx Hk'. pose proof (keys_NoDup _ _ Hkeys) as Hnd.
    assert (x = q) as -> by (apply (keys_inj _ _ _ _ Hkeys); [set_solver|set_solver|congruence]).
    apply NoDup_app in Hnd as (_ & Hnd & _). apply (Hnd q); set_solver. }
  unfold assoc_delete, hashitem_before. rewrite length_app in Hf. fold b.
  destruct (before_from_here (chain_fuel h) h b p l1 q l2 k 0) as [-> Hlq]; [done|done|lia|done|done|].
  cbn [obind]. rewrite Hlq. cbn [obind].
  assert (q <> 0) as Hnz by (apply links_app in Hs as (? & _ & _ & ? & _); done).
  rewrite (proj2 (Z.eqb_neq _ _)) by done. simpl load. rewrite Hit. cbn [of_option fmap option_fmap option_map obind].
  destruct (unlink_ok h b p l1 q l2 it) as (h' & p' & Hr & Hsame & Ht & Hdom & Hother & Hkeep & Hp' & Hs');
    [apply Ho|done..|by eapply keys_NoDup|].
  exists h'. split; [exact Hr|]. split; [|done].
  exists (at_bucket own b (l1 ++ l2)). split.
  - apply (owned_update h h'); [done..| | | |].
    + intros b' Hne. split; [by apply Hother|]. intros x Hx. rewrite Hkeep; [done|].
      rewrite <- Hl. intros Hx'. apply Hne. by apply (owned_apart h own b' b x Ho).
    + by exists p'.
    + intros x Hx. apply (ow_place hash h own Ho). fold b in Hl. rewrite Hl. set_solver.
    + rewrite fmap_app in *. rewrite fmap_cons in Hkeys.
      apply NoDup_app in Hkeys as (? & Hd & [? ?]%NoDup_cons). apply NoDup_app. split_and!; [done| |done].
      intros x Hx Hx'. apply (Hd x Hx). set_solver.
  - intros k' x. rewrite (same_shape_bucket _ _ _ Ht), (same_items_key _ _ _ Hsame).
    unfold at_bucket. destruct (decide (k' = k)) as [->|Hk'].
    + rewrite lookup_delete_eq. split; [done|]. fold b. rewrite decide_True by done.
      intros [Hx Hkx]. exfalso. pose proof (keys_NoDup _ _ Hkeys) as Hnd.
      assert (x = q) as -> by (apply (keys_inj _ _ _ _ Hkeys); [set_solver..|congruence]).
      apply NoDup_app in Hnd as (_ & Hd & [Hn _]%NoDup_cons).
      apply elem_of_app in Hx as [Hx|Hx]; [apply (Hd q Hx); set_solver|done].
    + rewrite lookup_delete_ne by done. rewrite (Hm k' x). case_decide as Hb; [|done].
      rewrite Hb. fold b in Hl. rewrite Hl, !elem_of_app, elem_of_cons.
      split; [|tauto]. intros [[Hx|[->|Hx]] Hkx]; [by auto| |by auto].
      rewrite Hkq in Hkx. simplify_eq.
Qed.

(** ** Growing the table *)

Lemma expand_ok h m ok :
  refines hash h m -> expanding (tab h) = false -> hashpower (tab h) < HASHPOWER_MAX ->
  refines hash (assoc_expand ok h) m.
Proof.
  intros (own & Ho & Hm) He Hp. pose proof (ow_table hash h own Ho) as [Hp0 Hlen _].
  unfold HASHPOWER_MAX in *. destruct ok; simpl.
  2: { exists own. destruct Ho as [[] Hlive Hdead Hplace Hkeys]. split; [split|]; try done.
    - split; simpl; [done..|congruence].
    - intros b Hb. destruct (Hlive b Hb) as (p & Hp' & Hs). exists p. split; [|done].
      destruct b; simpl in *; [done| |done]. destruct Hb. congruence. }
  set (h' := set_tab h _).
  assert (forall hv, exists i, bucket (tab h) hv = Primary i /\ bucket (tab h') hv = Old i) as Hb.
  { intros hv. unfold bucket. simpl. rewrite He. simpl.
    replace (hashpower (tab h) + 1 - 1) with (hashpower (tab h)) by lia.
    eexists. split; [done|]. rewrite mask_mod by lia.
    pose proof (Z.mod_pos_bound hv (hashsize (hashpower (tab h))) ltac:(apply hashsize_pos; lia)).
    by rewrite (proj2 (Z.leb_le _ _)) by lia. }
  exists (fun b => match b with Old i => own (Primary i) | _ => [] end). split.
  - split; simpl.
    + split; simpl; [unfold HASHPOWER_MAX; lia| |].
      * rewrite length_replicate. rewrite Z2Nat.id; [done|]. apply Z.lt_le_incl, hashsize_pos. lia.
      * intros _. replace (hashpower (tab h) + 1 - 1) with (hashpower (tab h)) by lia.
        split_and!; [lia|lia|apply hashsize_pos; lia|done].
    + intros [i|i|]; simpl; [| |done].
      * intros Hi. exists 0. split; [|done]. unfold getZ. rewrite decide_True by lia.
        rewrite lookup_replicate_2 by lia. done.
      * replace (hashpower (tab h) + 1 - 1) with (hashpower (tab h)) by lia. intros [_ Hi].
        apply (ow_live hash h own Ho (Primary i)). done.
    + intros [i|i|] Hd; simpl in *; [done| |done]. apply (ow_dead hash h own Ho). simpl.
      replace (hashpower (tab h) + 1 - 1) with (hashpower (tab h)) in Hd by lia. tauto.
    + intros [i|i|] q Hq; [set_solver| |set_solver].
      destruct (ow_place hash h own Ho _ _ Hq) as (it & Hit & Hbq). exists it. split; [done|].
      destruct (Hb (hash (key it))) as (j & Hj & Hj'). rewrite Hj in Hbq. injection Hbq as <-. exact Hj'.
    + intros [i|i|]; [by apply NoDup_nil_2|apply Ho|by apply NoDup_nil_2].
  - intros k q. rewrite (Hm k q). destruct (Hb (hash k)) as (j & -> & ->). done.
Qed.

(** [l] is what is left to move of bucket [Old e]; it starts at [p]. *)
Record moving (h : heap) (e : Z) (own : link -> list Z) (l : list Z) (p : Z) : Prop := {
  mv_table : table_ok (tab h);
  mv_chain : seg (items h) p l 0;
  mv_left : NoDup (key_at (items h) <$> l);
  mv_live : forall b, live (tab h) b -> b <> Old e ->
    exists p, load h b = Ret p /\ seg (items h) p (own b) 0;
  mv_keys : forall b, b <> Old e -> NoDup (key_at (items h) <$> own b);
  mv_apart : forall b x y, b <> Old e -> x ∈ own b -> y ∈ l ->
    key_at (items h) x <> key_at (items h) y
}.

(** Where item [x] goes. *)
Definition target (h : heap) (x : Z) : link :=
  Primary (Z.land (hash (default [] (key_at (items h) x))) (hashmask (hashpower (tab h)))).

Lemma target_live h x : table_ok (tab h) -> live (tab h) (target h x).
Proof.
  intros [Hp _ _]. unfold HASHPOWER_MAX in *. simpl. rewrite mask_mod by lia.
  apply Z.mod_pos_bound, hashsize_pos. lia.
Qed.

Lemma move_one h e own q l p it :
  moving h e own (q :: l) p -> items h !! q = Some it ->
  exists h1 h2 head,
    load h (target h q) = Ret head /\ store h (Next q) head = Ret h1 /\
    store h1 (target h q) q = Ret h2 /\
    moving h2 e (at_bucket own (target h q) (q :: own (target h q))) l (h_next it) /\
    same_items (items h) (items h2) /\ same_shape (tab h) (tab h2) /\
    dom (items h2) = dom (items h) /\ old_hashtable (tab h2) = old_hashtable (tab h).
Proof.
  intros [Hok Hs Hnd Hlive Hkeys Hapart] Hit. set (b := target h q).
  destruct Hs as (-> & Hnz & it' & Hit' & Hs). rewrite Hit in Hit'. injection Hit' as <-.
  assert (b <> Old e) as Hbe by done. assert (live (tab h) b) as Hb by by apply target_live.
  destruct (Hlive b Hb Hbe) as (head & Hhead & Hsb).
  rewrite fmap_cons in Hnd. apply NoDup_cons in Hnd as [Hq Hnd].
  assert (q ∉ l) as Hql by (intros Hin; apply Hq; by apply list_elem_of_fmap_2).
  assert (forall b', b' <> Old e -> q ∉ own b') as Hout.
  { intros b' Hne Hin. by apply (Hapart b' q q Hne Hin); [set_solver|]. }
  set (h1 := set_items h (<[q := with_h_next it head]> (items h))).
  destruct (store_live h1 b q) as (h2 & Hst & Hi & Ht & Hhere & Hother); [done..|].
  exists h1, h2, head. split; [done|]. split; [by apply store_next|]. split; [done|].
  assert (same_items (items h) (items h2)) as Hsame by (rewrite Hi; by apply same_items_next).
  split_and!; [|done|done|rewrite Hi; apply dom_insert_lookup_L; by eexists|].
  2: { unfold b, target in Hst. simpl in Hst.
       destruct (setZ _ _ _); [|done]. by injection Hst as <-. }
  split.
  - by eapply same_shape_ok.
  - rewrite Hi. by apply links_insert.
  - by rewrite (same_items_keys _ _ _ Hsame).
  - intros b' Hl Hne. unfold at_bucket. case_decide as Hd.
    + subst b'. exists q. split; [done|]. rewrite Hi. simpl. split_and!; [done..|].
      rewrite lookup_insert_eq. eexists. split; [done|]. simpl. apply links_insert; [by apply Hout|done].
    + rewrite (same_shape_live _ _ _ Ht) in Hl. destruct (Hlive b' Hl Hne) as (p' & Hp' & Hs').
      exists p'. rewrite Hother by done. split; [by destruct b'|]. rewrite Hi.
      apply links_insert; [by apply Hout|done].
  - intros b' Hne. rewrite (same_items_keys _ _ _ Hsame). unfold at_bucket. case_decide; [|by apply Hkeys].
    rewrite fmap_cons. apply NoDup_cons. split; [|by apply Hkeys].
    intros (x & Hk & Hx)%list_elem_of_fmap. apply (Hapart b x q Hbe Hx); [set_solver|done].
  - intros b' x y Hne Hx Hy. rewrite !(same_items_key _ _ _ Hsame).
    unfold at_bucket in Hx. case_decide as Hd; [apply elem_of_cons in Hx as [->|Hx]|].
    + intros Hk. apply Hq. rewrite Hk. by apply list_elem_of_fmap_2.
    + apply (Hapart b x y); [done..|set_solver].
    + apply (Hapart b' x y); [done..|set_solver].
Qed.

Lemma target_same h h' x :
  same_items (items h) (items h') -> same_shape (tab h) (tab h') -> target h' x = target h x.
Proof.
  intros Hi (Hp & _). unfold target. by rewrite (same_items_key _ _ _ Hi), Hp.
Qed.

Lemma move_items_ok h e own l p fuel :
  moving h e own l p -> (length l < fuel)%nat ->
  exists h' own', move_items hash fuel h p = Ret h' /\ moving h' e own' [] 0 /\
    same_items (items h) (items h') /\ same_shape (tab h) (tab h') /\
    dom (items h') = dom (items h) /\ old_hashtable (tab h') = old_hashtable (tab h) /\
    forall b x, b <> Old e -> x ∈ own' b <-> x ∈ own b \/ x ∈ l /\ b = target h x.
Proof.
  revert h own p fuel. induction l as [|q l IH]; intros h own p fuel Hm Hf;
    (destruct fuel as [|fuel]; [simpl in Hf; lia|]); cbn [move_items].
  { pose proof (mv_chain _ _ _ _ _ Hm) as Hp. simpl in Hp. subst p. exists h, own.
    split_and!; try done. intros b x _. split; [by left|]. by intros [?|[?%elem_of_nil _]]. }
  pose proof (mv_chain _ _ _ _ _ Hm) as (-> & Hnz & it & Hit & _).
  rewrite (proj2 (Z.eqb_neq _ _)) by done. rewrite Hit. cbn [of_option obind].
  destruct (move_one h e own q l q it) as (h1 & h2 & head & Hl & Hs1 & Hs2 & Hm2 & Hi & Ht & Hd & Hold);
    [done..|].
  assert (target h q = Primary (Z.land (hash (key it)) (hashmask (hashpower (tab h))))) as Hq.
  { unfold target, key_at. by rewrite Hit. }
  rewrite <- Hq, Hl. cbn [obind]. rewrite Hs1. cbn [obind].
  rewrite Hs2. cbn [obind].
  destruct (IH h2 _ _ fuel Hm2) as (h' & own' & Hr & Hm' & Hi' & Ht' & Hd' & Hold' & Hown);
    [simpl in Hf; lia|].
  exists h', own'. split_and!; [done|done|by eapply same_items_trans| |by rewrite Hd'|by rewrite Hold'|].
  { by eapply same_shape_trans. }
  intros b x Hb. rewrite (Hown b x Hb). unfold at_bucket. rewrite (target_same h h2) by done.
  rewrite elem_of_cons. case_decide as Hbq; [subst b; rewrite elem_of_cons|]; split.
  - intros [[->|?]|[? ?]]; auto.
  - intros [?|[[->|?] ?]]; auto.
  - intros [?|[? ?]]; auto.
  - intros [?|[[->|?] ?]]; [auto|congruence|auto].
Qed.

(** What finishing with bucket [e] does to the buckets. *)
Definition moved_tab (t : table) : table :=
  let b := expand_bucket t in
  let last := b + 1 =? hashsize (hashpower t - 1) in
  {| hashpower := hashpower t; primary_hashtable := primary_hashtable t;
     old_hashtable := if last then [] else old_hashtable t;
     expanding := negb last; expand_bucket := b + 1 |}.

Lemma moved_ok t : table_ok t -> expanding t = true -> table_ok (moved_tab t).
Proof.
  intros [Hp Hlen Ho] He. destruct (Ho He) as (? & ? & ?). split; simpl; [done|done|].
  destruct (Z.eqb_spec (expand_bucket t + 1) (hashsize (hashpower t - 1))); simpl; [done|].
  intros _. split_and!; lia || done.
Qed.

Lemma moved_bucket t hv :
  table_ok t -> expanding t = true ->
  bucket (moved_tab t) hv =
    if decide (bucket t hv = Old (expand_bucket t))
    then Primary (Z.land hv (hashmask (hashpower t))) else bucket t hv.
Proof.
  intros [Hp _ Ho] He. destruct (Ho He) as (Hp1 & Hb & _). unfold HASHPOWER_MAX in *.
  unfold bucket. rewrite He. simpl. rewrite !(mask_mod (hashpower t - 1)) by lia.
  pose proof (Z.mod_pos_bound hv (hashsize (hashpower t - 1)) ltac:(lia)).
  set (o := hv mod hashsize (hashpower t - 1)) in *. clearbody o.
  destruct (Z.leb_spec (expand_bucket t) o), (Z.leb_spec (expand_bucket t + 1) o),
    (Z.eqb_spec (expand_bucket t + 1) (hashsize (hashpower t - 1))); simpl; try lia;
    repeat case_decide; simplify_eq; try done; try lia.
  all: exfalso; match goal with H : Old _ <> Old _ |- _ => apply H end; f_equal; lia.
Qed.

Lemma moved_live t b :
  table_ok t -> expanding t = true ->
  live (moved_tab t) b <-> live t b /\ b <> Old (expand_bucket t).
Proof.
  intros [Hp _ Ho] He. destruct (Ho He) as (Hp1 & Hb & _).
  destruct b as [b|b|]; simpl; [split; [by intros|by intros []]| |tauto].
  destruct (Z.eqb_spec (expand_bucket t + 1) (hashsize (hashpower t - 1))) as [E|E]; simpl; split.
  - by intros [].
  - intros [[_ ?] Hne]. destruct Hne. f_equal. lia.
  - intros [_ ?]. split; [split; [done|lia]|]. intros [= ->]. lia.
  - intros [[_ ?] Hne]. split; [done|]. assert (b <> expand_bucket t) by congruence. lia.
Qed.

Lemma set_old_live h e :
  table_ok (tab h) -> live (tab h) (Old e) ->
  exists h', store h (Old e) 0 = Ret h' /\ items h' = items h /\ same_shape (tab h) (tab h') /\
    forall b, b <> Old e -> load h' b = load h b.
Proof. intros Hok Hl. destruct (store_live h (Old e) 0) as (h' & ? & ? & ? & _ & ?); eauto 10. Qed.

Lemma load_moved t its b :
  live (moved_tab t) b -> load {| items := its; tab := moved_tab t |} b = load {| items := its; tab := t |} b.
Proof.
  destruct b; simpl; [done| |done].
  by destruct (expand_bucket t + 1 =? hashsize (hashpower t - 1)); intros [].
Qed.

Lemma move_bucket_ok h m :
  refines hash h m -> expanding (tab h) = true ->
  exists h', move_bucket hash h = Ret h' /\ refines hash h' m /\
    same_items (items h) (items h') /\ dom (items h') = dom (items h).
Proof.
  intros (own & Ho & Hm) He. pose proof (ow_table hash h own Ho) as Hok.
  set (e := expand_bucket (tab h)). pose proof (to_old _ Hok He) as (_ & Heb & _).
  assert (live (tab h) (Old e)) as Hle by (simpl; split; [done|unfold e; lia]).
  destruct (ow_live hash h own Ho (Old e) Hle) as (p & Hp & Hs).
  unfold move_bucket. fold e. rewrite Hp. cbn [obind].
  assert (moving h e own (own (Old e)) p) as Hmv.
  { split; [done|done|apply Ho|intros b ? _; by apply (ow_live hash h own Ho)
      |intros b _; apply Ho|].
    intros b x y Hb Hx Hy Hk. apply Hb.
    destruct (ow_place hash h own Ho b x Hx) as (it & Hit & <-).
    destruct (ow_place hash h own Ho _ y Hy) as (it' & Hit' & <-).
    unfold key_at in Hk. rewrite Hit, Hit' in Hk. simpl in Hk. congruence. }
  destruct (move_items_ok h e own (own (Old e)) p (chain_fuel h)) as
    (h1 & own1 & -> & Hmv1 & Hi1 & Ht1 & Hd1 & _ & Hown); [done|by apply (owned_fuel h own _ p)|].
  cbn [obind].
  destruct (set_old_live h1 e) as (h2 & -> & Hi2 & Ht2 & Hl2);
    [apply Hmv1|by apply (same_shape_live _ _ _ Ht1)|]. cbn [obind].
  assert (same_shape (tab h) (tab h2)) as Ht by by eapply same_shape_trans.
  set (t2 := tab h2) in *. set (h' := set_tab h2 _).
  assert (h' = {| items := items h2; tab := moved_tab t2 |}) as ->.
  { destruct Ht as (_ & _ & Hb2 & _). unfold h', moved_tab. by rewrite Hb2. }
  assert (same_items (items h) (items h2)) as Hi by by rewrite Hi2.
  assert (table_ok t2) as Hok2 by by eapply same_shape_ok.
  assert (expanding t2 = true) as He2 by (destruct Ht as (_ & -> & _); done).
  assert (expand_bucket t2 = e) as Hb2 by (by destruct Ht as (_ & _ & -> & _)).
  assert (hashpower t2 = hashpower (tab h)) as Hp2 by (by destruct Ht as (-> & _)).
  eexists. split; [done|]. split; [|by rewrite Hi2].
  exists (at_bucket own1 (Old e) []). split; [split|]; cbn [items tab].
  - by apply moved_ok.
  - intros b Hl. rewrite load_moved by done. apply moved_live in Hl as [Hl Hne]; [|done..].
    rewrite Hb2 in Hne. unfold at_bucket. rewrite decide_False by done.
    destruct (mv_live _ _ _ _ _ Hmv1 b) as (p1 & Hp1 & Hs1); [by apply (same_shape_live _ _ _ Ht2)|done|].
    exists p1. rewrite Hi2. split; [|done]. rewrite <- Hp1, <- Hl2 by done. by destruct h2, b.
  - intros b Hd. unfold at_bucket. case_decide as Hne; [done|].
    apply list_elem_of_nil_inv || apply elem_of_nil_inv. intros x Hx. apply (Hown b x Hne) in Hx.
    rewrite moved_live, Hb2, (same_shape_live _ _ _ Ht) in Hd by done.
    destruct Hx as [Hx|[_ ->]]; [|apply Hd; split; [by apply target_live|done]].
    destruct (ow_place hash h own Ho b x Hx) as (it & _ & <-).
    apply Hd. split; [by apply bucket_live|done].
  - intros b x Hx. unfold at_bucket in Hx. case_decide as Hne; [by apply elem_of_nil in Hx|].
    assert (exists it, items h !! x = Some it /\ bucket (moved_tab t2) (hash (key it)) = b)
      as (it & Hit & Hb).
    { apply (Hown b x Hne) in Hx as [Hx|[Hx ->]];
        destruct (ow_place hash h own Ho _ x Hx) as (it & Hit & Hb); exists it; (split; [done|]);
        rewrite moved_bucket, Hb2, (same_shape_bucket _ _ _ Ht), Hb, Hp2 by done.
      - by rewrite decide_False.
      - rewrite decide_True by done. unfold target, key_at. by rewrite Hit. }
    destruct (same_items_lookup _ _ _ _ Hi Hit) as (it' & Hit' & Hk). exists it'. by rewrite Hk.
  - intros b. unfold at_bucket. case_decide as Hne; [by apply NoDup_nil_2|].
    rewrite Hi2. by apply (mv_keys _ _ _ _ _ Hmv1).
  - intros k x. rewrite (Hm k x), (same_items_key _ _ _ Hi). cbn [items tab].
    rewrite moved_bucket, Hb2, (same_shape_bucket _ _ _ Ht), Hp2 by done.
    unfold at_bucket. destruct (decide (bucket (tab h) (hash k) = Old e)) as [Hbk|Hbk].
    + rewrite Hbk. rewrite decide_False by done. rewrite (Hown _ x) by done. split.
      * intros [Hx Hk]. split; [|done]. right. split; [done|]. unfold target. by rewrite Hk.
      * intros [[Hx|[Hx _]] Hk]; [|done]. exfalso.
        destruct (ow_place hash h own Ho _ x Hx) as (it & Hit & Hb).
        unfold key_at in Hk. rewrite Hit in Hk. simplify_eq/=. congruence.
    + rewrite decide_False by done. rewrite (Hown _ x) by done. split; [tauto|].
      intros [[Hx|[Hx _]] Hk]; [done|]. exfalso. apply Hbk.
      destruct (ow_place hash h own Ho _ x Hx) as (it & Hit & Hb).
      unfold key_at in Hk. rewrite Hit in Hk. by simplify_eq/=.
Qed.

Lemma bulk_move_ok locks h m :
  refines hash h m ->
  exists h', bulk_move hash h locks = Ret h' /\ refines hash h' m /\
    same_items (items h) (items h') /\ dom (items h') = dom (items h).
Proof.
  revert h. induction locks as [|locked locks IH]; intros h Hr; simpl; [by exists h|].
  destruct (expanding (tab h)) eqn:He; [|by exists h]. destruct locked; [|by apply IH].
  destruct (move_bucket_ok h m Hr He) as (h1 & -> & Hr1 & Hi1 & Hd1). cbn [obind].
  destruct (IH h1 Hr1) as (h2 & -> & Hr2 & Hi2 & Hd2). exists h2. split_and!; [done|done| |congruence].
  by eapply same_items_trans.
Qed.

(** What the table reads of an item. *)
Definition hfields (it : item) : list Z * Z := (key it, h_next it).

(** Changes to items that are in no bucket, or to other fields. *)
Lemma refines_items h m its :
  refines hash h m ->
  (forall q, (exists k, m !! k = Some q) -> hfields <$> its !! q = hfields <$> items h !! q) ->
  refines hash (set_items h its) m.
Proof.
  intros (own & Ho & Hm) Hits.
  assert (forall b q it, q ∈ own b -> items h !! q = Some it ->
    exists it', its !! q = Some it' /\ hfields it' = hfields it) as Hin.
  { intros b q it Hq Hit. specialize (Hits q). rewrite Hit in Hits.
    destruct (its !! q) as [it'|]; simpl in Hits.
    - exists it'. split; [done|]. apply (inj Some), Hits. exists (key it).
      apply (refines_in h own m _ _ Ho Hm b Hq). unfold key_at. by rewrite Hit.
    - assert (None = Some (hfields it)) as E; [|done]. apply Hits. exists (key it).
      apply (refines_in h own m _ _ Ho Hm b Hq). unfold key_at. by rewrite Hit. }
  assert (forall b q, q ∈ own b -> key_at its q = key_at (items h) q) as Hkey.
  { intros b q Hq. destruct (ow_place hash h own Ho b q Hq) as (it & Hit & _).
    destruct (Hin b q it Hq Hit) as (it' & Hit' & [= Hk _]). unfold key_at. rewrite Hit, Hit'. simpl. by f_equal. }
  exists own. split; [split|]; simpl.
  - apply Ho.
  - intros b Hl. destruct (ow_live hash h own Ho b Hl) as (p & Hp & Hs). exists p. split; [by destruct b|].
    eapply links_ext; [|done]. intros q Hq.
    destruct (ow_place hash h own Ho b q Hq) as (it & Hit & _).
    destruct (Hin b q it Hq Hit) as (it' & Hit' & [= _ Hn]). rewrite Hit, Hit'. simpl. by f_equal.
  - apply Ho.
  - intros b q Hq. destruct (ow_place hash h own Ho b q Hq) as (it & Hit & Hb).
    destruct (Hin b q it Hq Hit) as (it' & Hit' & [= Hk _]). exists it'. by rewrite Hk.
  - intros b. rewrite (list_fmap_ext (key_at its) (key_at (items h)) (own b)); [apply Ho|].
    intros i q Hq%list_elem_of_lookup_2. by apply (Hkey b).
  - intros k q. rewrite (Hm k q). split; intros [Hq Hk]; (split; [done|]).
    + change (key_at its q = Some k). by rewrite (Hkey _ _ Hq).
    + change (key_at its q = Some k) in Hk. by rewrite (Hkey _ _ Hq) in Hk.
Qed.

Lemma init_refines n :
  0 <= n <= HASHPOWER_MAX -> refines hash {| items := ∅; tab := assoc_init n |} ∅.
Proof.
  intros Hn. unfold HASHPOWER_MAX in *. set (hp := if n =? 0 then HASHPOWER_DEFAULT else n).
  assert (0 <= hp <= 32) as Hhp by (unfold hp, HASHPOWER_DEFAULT; destruct (n =? 0); lia).
  pose proof (hashsize_pos hp ltac:(lia)).
  exists (fun _ => []). split; [split|]; simpl; fold hp.
  - split; simpl; fold hp; [done| |done]. rewrite length_replicate. lia.
  - intros [b|b|]; simpl; fold hp; [|by intros []|done]. intros Hb. exists 0. split; [|done].
    unfold getZ. rewrite decide_True by lia. rewrite lookup_replicate_2 by lia. done.
  - done.
  - intros b q Hq. by apply elem_of_nil in Hq.
  - intros b. apply NoDup_nil_2.
  - intros k q. rewrite lookup_empty. split; [done|]. intros [Hq _]. by apply elem_of_nil in Hq.
Qed.

Lemma astep_ok s s' : astep hash s s' -> refines hash s.1 s.2 -> refines hash s'.1 s'.2.
Proof.
  intros Hs Hr. destruct Hs as [h m q it Hq Hnz|h m q Hq|h m q it h' Hq Hnz Hun Hk Hi|h m k h' Hk Hd
    |h m ok He Hp|h m locks h' Hb]; simpl in *.
  - apply refines_items; [done|]. intros x [k Hk]. rewrite lookup_insert_ne; [done|]. intros <-.
    destruct Hr as (own & Ho & Hm). apply Hm in Hk as [_ Hk]. unfold key_at in Hk. by rewrite Hq in Hk.
  - apply refines_items; [done|]. intros x [k Hk]. rewrite lookup_delete_ne; [done|]. intros <-. by apply (Hq k).
  - destruct (insert_ok h m q it) as (h1 & Hi1 & Hr1 & _); [done..|]. rewrite Hi in Hi1. by injection Hi1 as <-.
  - destruct (m !! k) as [q|] eqn:Hq; [|done].
    destruct (delete_ok h m k q) as (h1 & Hd1 & Hr1 & _); [done..|]. rewrite Hd in Hd1. by injection Hd1 as <-.
  - by apply expand_ok.
  - destruct (bulk_move_ok locks h m Hr) as (h1 & Hb1 & Hr1 & _). rewrite Hb in Hb1. by injection Hb1 as <-.
Qed.

(** C12.  However the table is used and grows meanwhile, a bucket at a time or
    not at all, it implements a finite map: every key is found exactly where
    the map has it, and inserting a new item, deleting a bound key and moving
    buckets never fail. *)
Theorem assoc_refines n h m :
  0 <= n <= HASHPOWER_MAX ->
  rtc (astep hash) ({| items := ∅; tab := assoc_init n |}, ∅) (h, m) ->
  (forall k, assoc_find h k (hash k) = Ret (default 0 (m !! k))) /\
  (forall q it, items h !! q = Some it -> q <> 0 -> (forall k, m !! k <> Some q) ->
     m !! key it = None -> exists h', assoc_insert h q (hash (key it)) = Ret h') /\
  (forall k, m !! k <> None -> exists h', assoc_delete h k (hash k) = Ret h') /\
  (forall locks, exists h', bulk_move hash h locks = Ret h').
Proof.
  intros Hn Hrun. assert (refines hash h m) as Hr.
  { apply (rtc_invariant _ (fun s => refines hash s.1 s.2) _ (h, m)) in Hrun; [done| |by apply init_refines].
    intros s s' ? ?. by eapply astep_ok. }
  split_and!.
  - intros k. by apply find_ok.
  - intros q it Hq Hnz Hun Hk. destruct (insert_ok h m q it) as (h' & ? & _); eauto.
  - intros k Hk. destruct (m !! k) as [q|] eqn:Hq; [|done].
    destruct (delete_ok h m k q) as (h' & ? & _); eauto.
  - intros locks. destruct (bulk_move_ok locks h m Hr) as (h' & ? & _); eauto.
Qed.
End operations.

(** ** A witness: two keys of one bucket, parted by growing the table *)

Definition first_byte (k : list Z) : Z := match k with c :: _ => c | [] => 0 end.

Definition small_item (c : Z) : item :=
  {| next := 0; prev := 0; h_next := 0; time := 0; exptime := 0; nbytes := 2; refcount := 1;
     it_flags := 0; slabs_clsid := 1; cas := 0; key := [c]; suffix := 0; data := [13; 10] |}.

Definition small_heap0 : heap :=
  Eval vm_compute in
    {| items := <[11 := small_item 99]> (<[10 := small_item 97]> ∅); tab := assoc_init 1 |}.
Definition small_heap1 : heap :=
  Eval vm_compute in
    match assoc_insert small_heap0 10 97 with Ret h => h | _ => small_heap0 end.
Definition small_heap2 : heap :=
  Eval vm_compute in
    match assoc_insert small_heap1 11 99 with Ret h => h | _ => small_heap0 end.
Definition small_heap3 : heap :=
  Eval vm_compute in
    match bulk_move first_byte (assoc_expand true small_heap2) [false; true] with
    | Ret h => h | _ => small_heap0 end.

Definition small_map1 : gmap (list Z) Z := {[ [97] := 10 ]}.
Definition small_map : gmap (list Z) Z := {[ [99] := 11; [97] := 10 ]}.

Lemma small_run :
  rtc (astep first_byte) ({| items := ∅; tab := assoc_init 1 |}, ∅) (small_heap3, small_map).
Proof.
  eapply rtc_l. { apply (A_alloc _ _ _ 10 (small_item 97)); done. }
  eapply rtc_l. { apply (A_alloc _ _ _ 11 (small_item 99)); done. }
  eapply (rtc_l _ _ (small_heap1, small_map1)).
  { apply (A_insert first_byte small_heap0 ∅ 10 (small_item 97)); done. }
  eapply (rtc_l _ _ (small_heap2, small_map)).
  { apply (A_insert first_byte small_heap1 small_map1 11 (small_item 99)); try done.
    intros k Hk. unfold small_map1 in Hk. by apply lookup_singleton_Some in Hk as [_ ?]. }
  eapply rtc_l. { apply (A_expand _ small_heap2 small_map true); done. }
  apply rtc_once. apply (A_move _ _ _ [false; true]). reflexivity.
Qed.

Lemma assoc_refines_witness :
  0 <= 1 <= HASHPOWER_MAX /\ assoc_find small_heap3 [99] 99 = Ret (default 0 (small_map !! [99])).
Proof.
  split; [vm_compute; split; discriminate|].
  destruct (assoc_refines first_byte 1 small_heap3 small_map) as (Hf & _).
  - vm_compute. split; discriminate.
  - exact small_run.
  - exact (Hf [99]).
Defined.

End Assoc.
