(* ===== verification/Items.v ===== *)
(** * memcached's items ([items.c], p1a)

    Reference counts, the LRU queues and the life of an item, over the hash
    table of [Assoc].  An item whose count reaches zero leaves the store, so a
    later access to it is a [Fault].  A call runs with the item lock of its
    hash value, hence alone as far as its item is concerned.  The slab
    allocator is a parameter, as is whether a bump buffer has room: each
    allocation is given the slot it gets and the items evicted for it, which
    the code chooses from the tails of the queues.  Counters that only feed the [stats] command are left out. *)

From S2P Require Import Prelude Assoc.
Local Open Scope Z_scope.
Local Open Scope xv6_scope.

Create HintDb mcitems.

Module Items.
Import Assoc.

Definition ITEM_LINKED : Z := 1.
Definition ITEM_CAS : Z := 2.
Definition ITEM_SLABBED : Z := 4.
Definition ITEM_FETCHED : Z := 8.
Definition ITEM_ACTIVE : Z := 16.
Definition ITEM_CHUNKED : Z := 32.
Definition ITEM_HDR : Z := 128.
Definition ITEM_CFLAGS : Z := 256.

Definition HOT_LRU : Z := 0.
Definition WARM_LRU : Z := 64.
Definition COLD_LRU : Z := 128.
Definition TEMP_LRU : Z := 192.

Definition ITEM_UPDATE_INTERVAL : Z := 60.

(** [(it->it_flags & f) != 0]. *)
Definition has (it : item) (f : Z) : bool := negb (Z.land (it_flags it) f =? 0).

Definition ITEM_clsid (it : item) : Z := Z.land (slabs_clsid it) 63.
Definition ITEM_lruid (it : item) : Z := Z.land (slabs_clsid it) 192.

Definition sizeof_item : Z := 48.
Definition sizeof_item_hdr : Z := 12.
Definition sizeof_item_chunk : Z := 48.

Definition nkey (it : item) : Z := Z.of_nat (length (key it)).

Definition ITEM_ntotal (it : item) : Z :=
  sizeof_item + nkey it + 1 + nbytes it
  + (if has it ITEM_CFLAGS then 4 else 0) + (if has it ITEM_CAS then 8 else 0).

Definition ITEM_get_cas (it : item) : Z := if has it ITEM_CAS then cas it else 0.

(** The assignments to an item: its queue, its state, its contents. *)
Definition with_links (it : item) (n p : Z) : item :=
  {| next := n; prev := p; h_next := h_next it; time := time it; exptime := exptime it;
     nbytes := nbytes it; refcount := refcount it; it_flags := it_flags it;
     slabs_clsid := slabs_clsid it; cas := cas it; key := key it; suffix := suffix it;
     data := data it |}.

Definition with_state (it : item) (t r f c : Z) : item :=
  {| next := next it; prev := prev it; h_next := h_next it; time := t; exptime := exptime it;
     nbytes := nbytes it; refcount := r; it_flags := f; slabs_clsid := c; cas := cas it;
     key := key it; suffix := suffix it; data := data it |}.

Definition with_contents (it : item) (c : Z) (d : list Z) : item :=
  {| next := next it; prev := prev it; h_next := h_next it; time := time it; exptime := exptime it;
     nbytes := nbytes it; refcount := refcount it; it_flags := it_flags it;
     slabs_clsid := slabs_clsid it; cas := c; key := key it; suffix := suffix it; data := d |}.

Definition with_time (t : Z) (it : item) : item :=
  with_state it t (refcount it) (it_flags it) (slabs_clsid it).
Definition with_refcount (r : Z) (it : item) : item :=
  with_state it (time it) r (it_flags it) (slabs_clsid it).
Definition with_flags (f : Z) (it : item) : item :=
  with_state it (time it) (refcount it) f (slabs_clsid it).
Definition with_clsid (c : Z) (it : item) : item :=
  with_state it (time it) (refcount it) (it_flags it) c.
Definition with_next (n : Z) (it : item) : item := with_links it n (prev it).
Definition with_prev (p : Z) (it : item) : item := with_links it (next it) p.
Definition with_data (d : list Z) (it : item) : item := with_contents it (cas it) d.
Definition ITEM_set_cas (v : Z) (it : item) : item :=
  if has it ITEM_CAS then with_contents it v (data it) else it.

(** [flags &= ~f] and [flags |= f] of the 16-bit field. *)
Definition clear_flag (f : Z) (it : item) : item :=
  with_flags (Z.ldiff (it_flags it) f) it.
Definition set_flag (f : Z) (it : item) : item := with_flags (Z.lor (it_flags it) f) it.

(** ** The caches *)

(** The static variables of [items.c], the hash table and the bump buffers of
    the worker threads: [bump_buf] has the items of their entries that the LRU
    maintainer has yet to see to (an entry's [hv] names the item lock).
    [heads], [tails],
    [sizes] and [sizes_bytes] are arrays of zeros at first, indexed by the
    8-bit [slabs_clsid]. *)
Record cache := {
  mem : heap;
  heads : gmap Z Z;
  tails : gmap Z Z;
  sizes : gmap Z Z;
  sizes_bytes : gmap Z Z;
  cas_id : Z;
  curr_bytes : Z;
  curr_items : Z;
  total_items : Z;
  bump_buf : list Z
}.

Record settings_t := {
  use_cas : bool;
  lru_segmented : bool;
  temp_lru : bool;
  temporary_ttl : Z;
  oldest_live : Z;
  oldest_cas : Z;
  slab_chunk_size_max : Z;
  item_size_max : Z;
  (** [slabclass[i].size] for [POWER_SMALLEST <= i <= power_largest] *)
  slab_sizes : list Z
}.

Definition at0 (a : gmap Z Z) (i : Z) : Z := default 0 (a !! i).

Definition set_mem (c : cache) (h : heap) : cache :=
  {| mem := h; heads := heads c; tails := tails c; sizes := sizes c;
     sizes_bytes := sizes_bytes c; cas_id := cas_id c; curr_bytes := curr_bytes c;
     curr_items := curr_items c; total_items := total_items c; bump_buf := bump_buf c |}.

Definition set_queue (c : cache) (id head tail : Z) : cache :=
  {| mem := mem c; heads := <[id := head]> (heads c); tails := <[id := tail]> (tails c);
     sizes := sizes c; sizes_bytes := sizes_bytes c; cas_id := cas_id c;
     curr_bytes := curr_bytes c; curr_items := curr_items c; total_items := total_items c; bump_buf := bump_buf c |}.

(** [sizes[id] += n; sizes_bytes[id] += b]. *)
Definition count_queue (c : cache) (id n b : Z) : cache :=
  {| mem := mem c; heads := heads c; tails := tails c;
     sizes := <[id := u32 (at0 (sizes c) id + n)]> (sizes c);
     sizes_bytes := <[id := u64 (at0 (sizes_bytes c) id + b)]> (sizes_bytes c);
     cas_id := cas_id c; curr_bytes := curr_bytes c; curr_items := curr_items c;
     total_items := total_items c; bump_buf := bump_buf c |}.

Definition count_items (c : cache) (b n total : Z) : cache :=
  {| mem := mem c; heads := heads c; tails := tails c; sizes := sizes c;
     sizes_bytes := sizes_bytes c; cas_id := cas_id c;
     curr_bytes := u64 (curr_bytes c + b); curr_items := u64 (curr_items c + n);
     total_items := u64 (total_items c + total); bump_buf := bump_buf c |}.

Definition get_cas_id (c : cache) : cache * Z :=
  let next_id := u64 (cas_id c + 1) in
  ({| mem := mem c; heads := heads c; tails := tails c; sizes := sizes c;
      sizes_bytes := sizes_bytes c; cas_id := next_id; curr_bytes := curr_bytes c;
      curr_items := curr_items c; total_items := total_items c; bump_buf := bump_buf c |}, next_id).

Definition set_bumps (c : cache) (l : list Z) : cache :=
  {| mem := mem c; heads := heads c; tails := tails c; sizes := sizes c;
     sizes_bytes := sizes_bytes c; cas_id := cas_id c; curr_bytes := curr_bytes c;
     curr_items := curr_items c; total_items := total_items c; bump_buf := l |}.

Definition getit (c : cache) (p : Z) : outcome item := of_option (items (mem c) !! p).

Definition upd (c : cache) (p : Z) (f : item -> item) : outcome cache :=
  let* it := getit c p in
  Ret (set_mem c (set_items (mem c) (<[p := f it]> (items (mem c))))).

Definition assert (b : bool) : outcome unit := if b then Ret () else Panic "assert".

(** ** The LRU queues *)

(** What an item weighs in [sizes_bytes]. *)
Definition queue_bytes (it : item) : Z :=
  if has it ITEM_HDR then ITEM_ntotal it - nbytes it + sizeof_item_hdr else ITEM_ntotal it.

Definition do_item_link_q (c : cache) (p : Z) : outcome cache :=
  let* it := getit c p in
  let* _ := assert (negb (has it ITEM_SLABBED)) in
  let id := slabs_clsid it in
  let head := at0 (heads c) id in
  let tail := at0 (tails c) id in
  let* _ := assert (negb (p =? head)) in
  let* _ := assert (bool_decide (head = 0 <-> tail = 0)) in
  let* c := upd c p (fun it => with_links it head 0) in
  let* c := if head =? 0 then Ret c else upd c head (with_prev p) in
  let c := set_queue c id p (if tail =? 0 then p else tail) in
  let* it := getit c p in
  Ret (count_queue c id 1 (queue_bytes it)).

Definition do_item_unlink_q (c : cache) (p : Z) : outcome cache :=
  let* it := getit c p in
  let id := slabs_clsid it in
  let head := at0 (heads c) id in
  let tail := at0 (tails c) id in
  let* _ := assert (negb (head =? p) || (prev it =? 0)) in
  let* _ := assert (negb (tail =? p) || (next it =? 0)) in
  let c := set_queue c id (if head =? p then next it else head) (if tail =? p then prev it else tail) in
  let* _ := assert (negb (next it =? p)) in
  let* _ := assert (negb (prev it =? p)) in
  let* c := if next it =? 0 then Ret c else upd c (next it) (with_prev (prev it)) in
  let* c := if prev it =? 0 then Ret c else upd c (prev it) (with_next (next it)) in
  Ret (count_queue c id (-1) (- queue_bytes it)).

(** ** References *)

Definition refcount_incr (c : cache) (p : Z) : outcome cache :=
  upd c p (fun it => with_refcount ((refcount it + 1) mod 2 ^ 16) it).

Definition refcount_decr (c : cache) (p : Z) : outcome cache :=
  upd c p (fun it => with_refcount ((refcount it - 1) mod 2 ^ 16) it).

(** [slabs_free] puts the item on the free list of its slab class. *)
Definition item_free (c : cache) (p : Z) : outcome cache :=
  let* it := getit c p in
  let* _ := assert (negb (has it ITEM_LINKED)) in
  let* _ := assert (negb (p =? at0 (heads c) (slabs_clsid it))) in
  let* _ := assert (negb (p =? at0 (tails c) (slabs_clsid it))) in
  let* _ := assert (refcount it =? 0) in
  Ret (set_mem c (set_items (mem c) (delete p (items (mem c))))).

Definition do_item_remove (c : cache) (p : Z) : outcome cache :=
  let* it := getit c p in
  let* _ := assert (negb (has it ITEM_SLABBED)) in
  let* _ := assert (0 <? refcount it) in
  let* c := upd c p (with_refcount (refcount it - 1)) in
  if refcount it - 1 =? 0 then item_free c p else Ret c.

Section items.
(** The hash function in use, [settings] and [current_time]. *)
Context (hash : list Z -> Z) (settings : settings_t) (current_time : Z).

Definition on_table (c : cache) (r : outcome heap) : outcome cache :=
  let* h := r in Ret (set_mem c h).

Definition do_item_link (c : cache) (p hv : Z) : outcome cache :=
  let* it := getit c p in
  let* _ := assert (negb (has it (Z.lor ITEM_LINKED ITEM_SLABBED))) in
  let* c := upd c p (set_flag ITEM_LINKED) in
  let* c := upd c p (with_time current_time) in
  let c := count_items c (ITEM_ntotal it) 1 1 in
  let (c, id) := if has it ITEM_CAS && use_cas settings then get_cas_id c else (c, 0) in
  let* c := upd c p (ITEM_set_cas id) in
  let* c := on_table c (assoc_insert (mem c) p hv) in
  let* c := do_item_link_q c p in
  refcount_incr c p.

Definition do_item_unlink (c : cache) (p hv : Z) : outcome cache :=
  let* it := getit c p in
  if has it ITEM_LINKED then
    let* c := upd c p (clear_flag ITEM_LINKED) in
    let c := count_items c (- ITEM_ntotal it) (-1) 0 in
    let* c := on_table c (assoc_delete (mem c) (key it) hv) in
    let* c := do_item_unlink_q c p in
    do_item_remove c p
  else Ret c.

(** Moves the item to the front of a queue. *)
Definition item_requeue (c : cache) (p : Z) (f : item -> item) : outcome cache :=
  let* c := do_item_unlink_q c p in
  let* c := upd c p f in
  do_item_link_q c p.

Definition do_item_update (c : cache) (p : Z) : outcome cache :=
  let* it := getit c p in
  if lru_segmented settings then
    let* _ := assert (negb (has it ITEM_SLABBED)) in
    if has it ITEM_LINKED then
      let* c := upd c p (with_time current_time) in
      if (ITEM_lruid it =? COLD_LRU) && has it ITEM_ACTIVE then
        item_requeue c p (fun it =>
          clear_flag ITEM_ACTIVE (with_clsid (Z.lor (ITEM_clsid it) WARM_LRU) it))
      else Ret c
    else Ret c
  else if time it <? u32 (current_time - ITEM_UPDATE_INTERVAL) then
    let* _ := assert (negb (has it ITEM_SLABBED)) in
    if has it ITEM_LINKED then
      let* c := upd c p (with_time current_time) in
      item_requeue c p id
    else Ret c
  else Ret c.

Definition do_item_replace (c : cache) (p new_p hv : Z) : outcome cache :=
  let* it := getit c p in
  let* _ := assert (negb (has it ITEM_SLABBED)) in
  let* c := do_item_unlink c p hv in
  do_item_link c new_p hv.

Definition item_is_flushed (it : item) : bool :=
  let oldest_live := oldest_live settings in
  let oldest_cas := oldest_cas settings in
  if (oldest_live =? 0) || (current_time <? oldest_live) then false
  else
    (time it <=? oldest_live)
    || negb (oldest_cas =? 0) && negb (ITEM_get_cas it =? 0) && (ITEM_get_cas it <? oldest_cas).

(** The entry keeps the reference; [room]: whether the thread's buffer has any. *)
Definition lru_bump_async (c : cache) (p : Z) (room : bool) : outcome (cache * bool) :=
  let* c := refcount_incr c p in
  if room then Ret (set_bumps c (bump_buf c ++ [p]), true)
  else
    let* c := refcount_decr c p in
    Ret (c, false).

(** The [i]th entry is seen to, and its reference given back. *)
Definition lru_maintainer_bump (c : cache) (i : nat) : outcome cache :=
  match bump_buf c !! i with
  | None => Ret c
  | Some p =>
      let* c := do_item_update c p in
      let* c := do_item_remove c p in
      Ret (set_bumps c (delete i (bump_buf c)))
  end.

(** [todo] entries, from the front. *)
Fixpoint lru_maintainer_bumps (c : cache) (todo : nat) : outcome cache :=
  match todo with
  | O => Ret c
  | S todo =>
      let* c := lru_maintainer_bump c 0 in
      lru_maintainer_bumps c todo
  end.

Definition do_item_bump (c : cache) (p : Z) (room : bool) : outcome cache :=
  let* it := getit c p in
  if lru_segmented settings then
    if has it ITEM_ACTIVE then Ret c
    else if negb (has it ITEM_FETCHED) then upd c p (set_flag ITEM_FETCHED)
    else
      let* c := upd c p (set_flag ITEM_ACTIVE) in
      if negb (ITEM_lruid it =? COLD_LRU) then upd c p (with_time current_time)
      else
        let* (c, queued) := lru_bump_async c p room in
        if queued then Ret c else upd c p (clear_flag ITEM_ACTIVE)
  else
    let* c := upd c p (set_flag ITEM_FETCHED) in
    do_item_update c p.

(** The item and one reference to it, or 0. *)
Definition do_item_get (c : cache) (k : list Z) (hv : Z) (do_update room : bool)
  : outcome (cache * Z) :=
  let* p := assoc_find (mem c) k hv in
  if p =? 0 then Ret (c, 0)
  else
    let* c := refcount_incr c p in
    let* it := getit c p in
    if item_is_flushed it || negb (exptime it =? 0) && (exptime it <=? current_time) then
      let* c := do_item_unlink c p hv in
      let* c := do_item_remove c p in
      Ret (c, 0)
    else
      let* c := if do_update then do_item_bump c p room else Ret c in
      Ret (c, p).

Definition do_item_touch (c : cache) (k : list Z) (exp hv : Z) (room : bool)
  : outcome (cache * Z) :=
  let* (c, p) := do_item_get c k hv true room in
  if p =? 0 then Ret (c, 0)
  else
    let* c := upd c p (fun it =>
      {| next := next it; prev := prev it; h_next := h_next it; time := time it; exptime := exp;
         nbytes := nbytes it; refcount := refcount it; it_flags := it_flags it;
         slabs_clsid := slabs_clsid it; cas := cas it; key := key it; suffix := suffix it;
         data := data it |}) in
    Ret (c, p).

(** ** Allocation *)

(** The class of the smallest slots that hold [size] bytes, from class [res] on. *)
Fixpoint slabs_clsid_from (classes : list Z) (res size : Z) : Z :=
  match classes with
  | [] => res
  | s :: rest =>
      if s <? size then match rest with [] => res | _ => slabs_clsid_from rest (res + 1) size end
      else res
  end.

Definition slabs_clsid_of (size : Z) : Z :=
  if (size =? 0) || (item_size_max settings <? size) then 0
  else slabs_clsid_from (slab_sizes settings) 1 size.

Definition item_make_header (nkey flags nbytes : Z) : Z * Z :=
  let nsuffix := if flags =? 0 then 0 else 4 in
  (sizeof_item + nkey + nsuffix + nbytes, nsuffix).

Definition item_size_ok (nkey flags nbytes : Z) : bool :=
  if nbytes <? 2 then false
  else
    let (ntotal, _) := item_make_header (nkey + 1) flags nbytes in
    let ntotal := if use_cas settings then ntotal + 8 else ntotal in
    negb (slabs_clsid_of ntotal =? 0).

(** The COLD_LRU turn of [lru_pull_tail] with [LRU_PULL_EVICT], for an item
    whose item lock was free. *)
Definition evict (c : cache) (p : Z) : outcome cache :=
  let* it := getit c p in
  let* c := refcount_incr c p in
  let* c := do_item_unlink c p (hash (key it)) in
  do_item_remove c p.

(** The items [do_item_alloc_pull] evicts before [slabs_alloc] succeeds or it
    gives up, the slot, 0 for none, and what an earlier item left in it. *)
Record slot := { evicted : list Z; address : Z; garbage : item }.

Definition do_item_alloc_pull (c : cache) (s : slot) : outcome (cache * Z) :=
  let* c := foldl (fun r p => let* c := r in evict c p) (Ret c) (evicted s) in
  Ret (c, address s).

(** [memcpy] into an item leaves the rest of its slot alone. *)
Definition do_item_alloc (c : cache) (k : list Z) (flags exp nbytes : Z) (s : slot)
  : outcome (cache * Z) :=
  if nbytes <? 2 then Ret (c, 0)
  else
    let nk := Z.of_nat (length k) in
    let (ntotal, nsuffix) := item_make_header (nk + 1) flags nbytes in
    let ntotal := if use_cas settings then ntotal + 8 else ntotal in
    let id := slabs_clsid_of ntotal in
    if id =? 0 then Ret (c, 0)
    else
      let chunked := slab_chunk_size_max settings <? ntotal in
      let* (c, p) := do_item_alloc_pull c s in
      if p =? 0 then Ret (c, 0)
      else
        let id :=
          if temp_lru settings && (u32 (exp - current_time) <=? temporary_ttl settings)
          then Z.lor id TEMP_LRU
          else if lru_segmented settings then Z.lor id HOT_LRU else Z.lor id COLD_LRU in
        let flg := Z.lor (if chunked then ITEM_CHUNKED else 0)
                     (Z.lor (if use_cas settings then ITEM_CAS else 0)
                            (if nsuffix =? 0 then 0 else ITEM_CFLAGS)) in
        let it :=
          {| next := 0; prev := 0; h_next := 0; time := time (garbage s); exptime := exp; nbytes := nbytes;
             refcount := 1; it_flags := flg; slabs_clsid := u8 id; cas := cas (garbage s);
             key := k;
             suffix := flags; data := take (Z.to_nat nbytes) (data (garbage s)) |} in
        Ret (set_mem c (set_items (mem c) (<[p := it]> (items (mem c)))), p).
End items.

End Items.
