(* ===== verification/ItemsSpec.v ===== *)
(** * memcached's items: what the pointers stand for

    [rep] relates the pointer structure to what it stands for: the hash table
    to a map, the LRU queues to lists, the items to their fields other than
    links.  Every operation of [Items] has an exact effect on these. *)

From S2P Require Import Prelude Assoc Items.
Local Open Scope Z_scope.
Local Open Scope xv6_scope.

Module ItemsSpec.
Import Assoc Items.

(** An item but for its links. *)
Definition strip (it : item) : item := with_links (with_h_next it 0) 0 0.

(** [L id]: the items of queue [id], front to back. *)
Record queues (c : cache) (L : Z -> list Z) : Prop := {
  qu_next : forall id, links next (items (mem c)) (at0 (heads c) id) (L id) 0;
  qu_prev : forall id, links prev (items (mem c)) (at0 (tails c) id) (reverse (L id)) 0;
  qu_nodup : forall id, NoDup (L id);
  qu_id : forall id q, q ∈ L id ->
    exists it, items (mem c) !! q = Some it /\ slabs_clsid it = id
}.

(** An assignment to a field that no link depends on. *)
Definition plain (f : item -> item) : Prop :=
  forall it, hfields (f it) = hfields it /\ next (f it) = next it /\ prev (f it) = prev it /\
    slabs_clsid (f it) = slabs_clsid it /\ strip (f it) = f (strip it).

Lemma plain_time t : plain (with_time t).
Proof. by intros []. Qed.
Lemma plain_refcount g : plain (fun it => with_refcount (g (refcount it)) it).
Proof. by intros []. Qed.
Lemma plain_set_flag f : plain (set_flag f).
Proof. by intros []. Qed.
Lemma plain_clear_flag f : plain (clear_flag f).
Proof. by intros []. Qed.
Lemma plain_contents d : plain (with_data d).
Proof. by intros []. Qed.
Lemma plain_cas v : plain (ITEM_set_cas v).
Proof.
  intros it. unfold ITEM_set_cas. change (has (strip it) ITEM_CAS) with (has it ITEM_CAS).
  by destruct (has it ITEM_CAS), it.
Qed.

#[export] Hint Resolve plain_time plain_refcount plain_set_flag plain_clear_flag plain_contents
  plain_cas : mcitems.

Section rep.
Context (hash : list Z -> Z).

Record rep (c : cache) (m : gmap (list Z) Z) (L : Z -> list Z) (B : gmap Z item) (n : Z) : Prop := {
  rp_table : refines hash (mem c) m;
  rp_queues : queues c L;
  rp_bodies : strip <$> items (mem c) = B;
  rp_cas : cas_id c = n
}.

Definition at_queue (L : Z -> list Z) (id : Z) (l : list Z) : Z -> list Z :=
  fun id' => if decide (id' = id) then l else L id'.

Lemma rep_item c m L B n p b :
  rep c m L B n -> B !! p = Some b ->
  exists it, items (mem c) !! p = Some it /\ getit c p = Ret it /\ b = strip it.
Proof.
  intros [_ _ <- _] Hb. rewrite lookup_fmap in Hb. unfold getit.
  destruct (items (mem c) !! p) as [it|]; simplify_eq/=. eauto.
Qed.

Lemma rep_lookup c m L B n p it :
  rep c m L B n -> items (mem c) !! p = Some it -> B !! p = Some (strip it).
Proof. intros [_ _ <- _] Hit. by rewrite lookup_fmap, Hit. Qed.

Lemma at0_insert_eq a id v : at0 (<[id := v]> a) id = v.
Proof. unfold at0. by rewrite lookup_insert_eq. Qed.

Lemma at0_insert_ne a id id' v : id <> id' -> at0 (<[id := v]> a) id' = at0 a id'.
Proof. intros. unfold at0. by rewrite lookup_insert_ne. Qed.

(** Changes to items that keep the queue fields. *)
Lemma queues_items c c' L :
  queues c L -> heads c' = heads c -> tails c' = tails c ->
  (forall id q it, q ∈ L id -> items (mem c) !! q = Some it ->
    exists it', items (mem c') !! q = Some it' /\ next it' = next it /\ prev it' = prev it /\
      slabs_clsid it' = slabs_clsid it) ->
  queues c' L.
Proof.
  intros [Hn Hp Hd Hi] Eh Et Hits. split; rewrite ?Eh, ?Et; [| |done|].
  - intros id. eapply links_ext; [|apply Hn]. intros q Hq.
    destruct (Hi id q Hq) as (it & Hit & _).
    destruct (Hits id q it Hq Hit) as (it' & Hit' & Hx & _). rewrite Hit, Hit'. simpl. by f_equal.
  - intros id. eapply links_ext; [|apply Hp]. intros q Hq. rewrite elem_of_reverse in Hq.
    destruct (Hi id q Hq) as (it & Hit & _).
    destruct (Hits id q it Hq Hit) as (it' & Hit' & _ & Hx & _). rewrite Hit, Hit'. simpl. by f_equal.
  - intros id q Hq. destruct (Hi id q Hq) as (it & Hit & <-).
    destruct (Hits _ q it Hq Hit) as (it' & Hit' & _ & _ & Hx). by exists it'.
Qed.

Lemma upd_rep c m L B n p b f :
  plain f -> rep c m L B n -> B !! p = Some b ->
  exists c', upd c p f = Ret c' /\ rep c' m L (<[p := f b]> B) n.
Proof.
  intros Hf Hr Hb. destruct (rep_item _ _ _ _ _ _ _ Hr Hb) as (it & Hit & Hg & ->).
  unfold upd. rewrite Hg. cbn [obind]. eexists. split; [done|].
  destruct (Hf it) as (Hh & Hn & Hp & Hc & Hs). destruct Hr as [Hr1 Hr2 Hr3 Hr4]. split; simpl.
  - apply refines_items; [done|]. intros q _. destruct (decide (q = p)) as [->|].
    + rewrite lookup_insert_eq, Hit. simpl. by f_equal.
    + by rewrite lookup_insert_ne.
  - eapply queues_items; [done..|]. simpl. intros id q i _ Hi. destruct (decide (q = p)) as [->|].
    + rewrite lookup_insert_eq. simplify_eq. eauto.
    + rewrite lookup_insert_ne by done. eauto.
  - rewrite fmap_insert, Hr3, Hs. done.
  - done.
Qed.

(** ** Queue operations *)

(** Items that differ in their queue links only. *)
Definition relinked (its its' : gmap Z item) : Prop :=
  forall q, (fun it => (hfields it, strip it)) <$> its' !! q
          = (fun it => (hfields it, strip it)) <$> its !! q.

Lemma relinked_refl its : relinked its its.
Proof. done. Qed.

Lemma relinked_insert its its' p it a b :
  relinked its its' -> its' !! p = Some it -> relinked its (<[p := with_links it a b]> its').
Proof.
  intros Hr Hp q. rewrite <- (Hr q). destruct (decide (q = p)) as [->|].
  - by rewrite lookup_insert_eq, Hp.
  - by rewrite lookup_insert_ne.
Qed.

Lemma relinked_rep c c' m L L' B n :
  rep c m L B n -> relinked (items (mem c)) (items (mem c')) -> tab (mem c') = tab (mem c) ->
  cas_id c' = cas_id c -> queues c' L' -> rep c' m L' B n.
Proof.
  intros [H1 H2 H3 H4] Hr Ht Hc Hq. split; [|done| |congruence].
  - destruct c'. destruct mem0 as [its' t']. simpl in *. subst t'. apply (refines_items hash _ m its') in H1.
    + exact H1.
    + intros q _. specialize (Hr q). destruct (its' !! q), (items (mem c) !! q); try done.
      apply (inj Some), (f_equal fst) in Hr. simpl in *. by rewrite Hr.
  - rewrite <- H3. apply map_eq. intros q. rewrite !lookup_fmap. specialize (Hr q).
    destruct (items (mem c') !! q), (items (mem c) !! q); try done.
    apply (inj Some), (f_equal snd) in Hr. simpl in *. by rewrite Hr.
Qed.

Lemma links_first f its p l : links f its p l 0 -> p = hd 0 l /\ 0 ∉ l.
Proof.
  revert p. induction l as [|q l IH]; intros p; simpl; [intros ->; split; [done|by intros ?%elem_of_nil]|].
  intros (-> & Hq & it & Hit & Hs). apply IH in Hs as [_ Hs]. split; [done|].
  rewrite elem_of_cons. intros [?|?]; congruence.
Qed.

Lemma queue_apart c L id id' q : queues c L -> q ∈ L id -> q ∈ L id' -> id = id'.
Proof.
  intros Hq (it & Hit & <-)%(qu_id _ _ Hq) (it' & Hit' & <-)%(qu_id _ _ Hq). by simplify_eq.
Qed.

Lemma queue_empty c L id : queues c L -> at0 (heads c) id = 0 <-> at0 (tails c) id = 0.
Proof.
  intros Hq. destruct (links_first _ _ _ _ (qu_next _ _ Hq id)) as [-> Hz].
  destruct (links_first _ _ _ _ (qu_prev _ _ Hq id)) as [-> _].
  destruct (L id) as [|x l]; [done|]. rewrite reverse_cons. simpl.
  split; [intros ->; destruct Hz; set_solver|].
  intros E. destruct Hz. destruct (reverse l) as [|y r] eqn:Er; simpl in E; subst; [set_solver|].
  assert (0 ∈ reverse l) as H0 by (rewrite Er; set_solver). rewrite elem_of_reverse in H0. set_solver.
Qed.

Lemma links_field f its its' p l e :
  (forall q it, q ∈ l -> its !! q = Some it -> exists it', its' !! q = Some it' /\ f it' = f it) ->
  links f its p l e -> links f its' p l e.
Proof.
  intros Hf Hl. assert (forall q, q ∈ l -> is_Some (its !! q)) as Hin.
  { clear Hf. revert p Hl. induction l as [|x l IH]; intros p Hl q; [by intros ?%elem_of_nil|].
    destruct Hl as (-> & _ & it & Hit & Hs). rewrite elem_of_cons. intros [->|Hq]; [by eexists|by eapply IH]. }
  eapply links_ext; [|done]. intros q Hq. destruct (Hin q Hq) as [it Hit].
  destruct (Hf q it Hq Hit) as (it' & -> & E). rewrite Hit. simpl. by f_equal.
Qed.

(** The links after an item has been put in front of a queue. *)
Lemma push_links its its' L head tail p it :
  links next its head L 0 -> links prev its tail (reverse L) 0 -> NoDup L -> p ∉ L -> p <> 0 ->
  its' !! p = Some (with_links it head 0) ->
  (forall q, q <> p -> q <> head -> its' !! q = its !! q) ->
  (head <> 0 -> forall i, its !! head = Some i -> its' !! head = Some (with_prev p i)) ->
  links next its' p (p :: L) 0 /\
  links prev its' (if tail =? 0 then p else tail) (reverse (p :: L)) 0.
Proof.
  intros Hn Hp Hnd Hout Hnz Hpi Hrest Hhead.
  assert (forall q i, q ∈ L -> its !! q = Some i -> exists i', its' !! q = Some i' /\ next i' = next i) as Hnext.
  { intros q i Hq Hi. destruct (links_first _ _ _ _ Hn) as [_ Hz]. destruct (decide (q = head)) as [->|].
    - rewrite (Hhead ltac:(by intros ->) i) by done. eauto.
    - rewrite Hrest by (done || by intros ->). eauto. }
  split.
  { split_and!; [done..|]. exists (with_links it head 0). split; [done|]. by eapply links_field. }
  rewrite reverse_cons. destruct L as [|h L].
  - simpl in *. subst. simpl. split_and!; [done..|]. by exists (with_links it 0 0).
  - destruct Hn as (-> & Hhz & i & Hi & _). apply NoDup_cons in Hnd as [HhL _].
    rewrite reverse_cons in *. apply links_app. exists p. split.
    2: { split_and!; [done..|]. by exists (with_links it h 0). }
    destruct (links_first _ _ _ _ Hp) as [Et Hz].
    assert (tail <> 0) as Ht.
    { rewrite Et. intros E. destruct Hz. destruct (reverse L); simpl in *; subst; set_solver. }
    rewrite (proj2 (Z.eqb_neq _ _)) by done.
    assert (links prev (<[h := with_prev p i]> its) tail (reverse L ++ [h]) p) as Hl.
    { apply (links_redirect _ _ _ _ _ _ 0); [done|by rewrite elem_of_reverse|by eexists|done]. }
    eapply links_field; [|exact Hl]. intros q x Hq Hx.
    destruct (decide (q = h)) as [->|Hqh].
    + rewrite lookup_insert_eq in Hx. simplify_eq. rewrite (Hhead Hhz i) by done. eauto.
    + rewrite lookup_insert_ne in Hx by done. rewrite Hrest; [eauto| |done].
      intros ->. rewrite elem_of_app, elem_of_reverse in Hq. set_solver.
Qed.

Lemma link_q_rep c m L B n p b :
  rep c m L B n -> B !! p = Some b -> p <> 0 -> has b ITEM_SLABBED = false ->
  (forall id, p ∉ L id) ->
  exists c', do_item_link_q c p = Ret c' /\
    rep c' m (at_queue L (slabs_clsid b) (p :: L (slabs_clsid b))) B n.
Proof.
  intros Hr Hb Hnz Hslab Hout.
  destruct (rep_item _ _ _ _ _ _ _ Hr Hb) as (it & Hit & Hg & ->).
  pose proof (rp_queues _ _ _ _ _ Hr) as Hq. change (slabs_clsid (strip it)) with (slabs_clsid it).
  change (has (strip it) ITEM_SLABBED) with (has it ITEM_SLABBED) in Hslab.
  set (id := slabs_clsid it). unfold do_item_link_q. rewrite Hg. cbn [obind].
  rewrite Hslab. cbn [negb assert obind]. fold id.
  destruct (links_first _ _ _ _ (qu_next _ _ Hq id)) as [Ehd Hz].
  set (head := at0 (heads c) id) in *. set (tail := at0 (tails c) id).
  assert (head ≠ 0 -> head ∈ L id) as Hin by (rewrite Ehd; destruct (L id); [done|set_solver]).
  assert (p <> head) as Hph.
  { intros ->. apply (Hout id), Hin. done. }
  rewrite (proj2 (Z.eqb_neq p head)) by done. cbn [negb assert obind].
  rewrite bool_decide_true by (by eapply queue_empty). cbn [assert obind].
  unfold upd at 1. rewrite Hg. cbn [obind].
  set (its1 := <[p := with_links it head 0]> (items (mem c))).
  assert (exists its2, (if head =? 0 then Ret (set_mem c (set_items (mem c) its1))
      else upd (set_mem c (set_items (mem c) its1)) head (with_prev p))
      = Ret (set_mem c (set_items (mem c) its2)) /\ relinked (items (mem c)) its2 /\
      its2 !! p = Some (with_links it head 0) /\
      (forall q, q <> p -> q <> head -> its2 !! q = items (mem c) !! q) /\
      (head <> 0 -> forall i, items (mem c) !! head = Some i -> its2 !! head = Some (with_prev p i)))
    as (its2 & -> & Hrel & Hp2 & Hrest & Hh2).
  { destruct (Z.eqb_spec head 0) as [E|E].
    - exists its1. split; [done|]. split; [by apply relinked_insert|].
      split; [apply lookup_insert_eq|]. split; [intros; by apply lookup_insert_ne|].
      done.
    - destruct (qu_id _ _ Hq id head (Hin E)) as (hit & Hhit & _).
      assert (its1 !! head = Some hit) as H1 by (unfold its1; by rewrite lookup_insert_ne).
      exists (<[head := with_prev p hit]> its1). split.
      + unfold upd, getit. simpl. by rewrite H1.
      + split; [apply relinked_insert; [by apply relinked_insert|done]|].
        split; [rewrite lookup_insert_ne by done; apply lookup_insert_eq|]. split.
        * intros q Hqp Hqh. unfold its1. by rewrite !lookup_insert_ne.
        * intros _ i Hi. rewrite lookup_insert_eq. congruence. }
  cbn [obind]. unfold getit. cbn [mem set_mem set_queue set_items items]. rewrite Hp2. cbn [of_option obind].
  eexists. split; [done|]. apply (relinked_rep c _ m L); [done..|].
  assert (forall id' q i, id' <> id -> items (mem c) !! q = Some i -> q <> p -> q ∈ L id' -> its2 !! q = Some i) as Hoth.
  { intros id' q i Hne Hi Hqp Hqi. rewrite Hrest; [done|done|]. intros ->.
    destruct (decide (head = 0)) as [E|E].
    - rewrite E in Hqi. destruct (links_first _ _ _ _ (qu_next _ _ Hq id')) as [_ Hz']. done.
    - apply Hne. eapply queue_apart; [done|done|by apply Hin]. }
  destruct (push_links (items (mem c)) its2 (L id) head tail p it) as [Hn' Hp'];
    [apply Hq|apply Hq|apply Hq|apply Hout|done..|].
  split; cbn [heads tails mem set_mem set_queue count_queue set_items items]; unfold at_queue.
  - intros id'. case_decide as Hd; [subst id'; by rewrite at0_insert_eq|].
    rewrite at0_insert_ne by done. eapply links_field; [|apply Hq]. intros q i Hqi Hi.
    exists i. split; [|done]. eapply Hoth; [exact Hd|done|by intros ->; by apply (Hout id')|done].
  - intros id'. case_decide as Hd; [subst id'; by rewrite at0_insert_eq|].
    rewrite at0_insert_ne by done. eapply links_field; [|apply Hq]. intros q i Hqi Hi.
    rewrite elem_of_reverse in Hqi.
    exists i. split; [|done]. eapply Hoth; [exact Hd|done|by intros ->; by apply (Hout id')|done].
  - intros id'. case_decide; [|apply Hq]. apply NoDup_cons. split; [apply Hout|apply Hq].
  - intros id' q Hqi. assert (exists i, items (mem c) !! q = Some i /\ slabs_clsid i = id') as (i & Hi & Hc).
    { case_decide; [subst id'; apply elem_of_cons in Hqi as [->|Hqi]; [by eauto|]|]; by apply (qu_id _ _ Hq). }
    specialize (Hrel q). rewrite Hi in Hrel. destruct (its2 !! q) as [i2|]; [|done].
    apply (inj Some), (f_equal snd), (f_equal slabs_clsid) in Hrel. simpl in Hrel.
    exists i2. split; [done|congruence].
Qed.
(** Cutting [q] out of the chain of a field. *)
Lemma cut_links f its its' p l1 q l2 it :
  links f its p (l1 ++ q :: l2) 0 -> NoDup (l1 ++ q :: l2) -> its !! q = Some it ->
  (forall x i, x ∈ l1 ++ l2 -> its !! x = Some i ->
     exists i', its' !! x = Some i' /\ f i' = if decide (last l1 = Some x) then f it else f i) ->
  links f its' (if decide (l1 = []) then f it else p) (l1 ++ l2) 0.
Proof.
  intros Hl Hnd Hq Hx. apply links_app in Hl as (q' & H1 & -> & Hnz & it' & Hq' & H2).
  rewrite Hq in Hq'. injection Hq' as <-.
  apply NoDup_app in Hnd as (Hnd1 & Hdis & [Hq2 Hnd2]%NoDup_cons).
  assert (links f its' (f it) l2 0) as H2'.
  { eapply links_field; [|exact H2]. intros x i Hin Hi.
    destruct (Hx x i) as (i' & Hi' & E); [set_solver|done|]. exists i'. split; [done|].
    rewrite E, decide_False; [done|]. intros Hlast. apply last_Some_elem_of in Hlast.
    apply (Hdis x Hlast). set_solver. }
  case_decide as Hl1; [by subst|]. destruct (exists_last Hl1) as (l & r & ->).
  apply links_app. exists (f it). split; [|done].
  apply NoDup_app in Hnd1 as (_ & Hlr & _).
  assert (is_Some (its !! r)) as Hr by (apply links_app in H1 as (? & _ & _ & _ & ir & ? & _); by eexists).
  assert (r ∉ l) as Hrl by (intros ?; apply (Hlr r); set_solver).
  eapply links_field; [|apply (links_redirect _ _ _ _ r it q (f it) H1 Hrl Hr eq_refl)].
  intros x i Hin Hi. rewrite last_snoc in Hx. destruct (decide (x = r)) as [->|Hxr].
  - rewrite lookup_insert_eq in Hi. simplify_eq. destruct Hr as [ir Hr].
    destruct (Hx r ir) as (i' & Hi' & E); [set_solver|done|]. rewrite decide_True in E by done. eauto.
  - rewrite lookup_insert_ne in Hi by done.
    destruct (Hx x i) as (i' & Hi' & E); [set_solver|done|]. rewrite decide_False in E by congruence. eauto.
Qed.

(** The neighbours of an item in a queue. *)
Lemma neighbours c L id l1 p l2 it :
  queues c L -> L id = l1 ++ p :: l2 -> items (mem c) !! p = Some it ->
  next it = hd 0 l2 /\ prev it = hd 0 (reverse l1) /\
  (at0 (heads c) id = p <-> l1 = []) /\ (at0 (tails c) id = p <-> l2 = []) /\
  0 ∉ l1 /\ 0 ∉ l2 /\ p <> 0.
Proof.
  intros Hq HL Hp. pose proof (qu_nodup _ _ Hq id) as Hnd. rewrite HL in Hnd.
  pose proof (qu_next _ _ Hq id) as Hn. pose proof (qu_prev _ _ Hq id) as Hv. rewrite HL in Hn, Hv.
  destruct (links_first _ _ _ _ Hn) as [Eh Hz].
  rewrite reverse_app, reverse_cons in Hv. destruct (links_first _ _ _ _ Hv) as [Et _].
  apply links_app in Hn as (? & _ & -> & Hpz & i & Hi & Hn2). rewrite Hp in Hi. injection Hi as <-.
  rewrite <- app_assoc in Hv. apply links_app in Hv as (? & _ & -> & _ & i & Hi & Hv2).
  rewrite Hp in Hi. injection Hi as <-.
  apply NoDup_app in Hnd as (_ & Hd & [Hp2 _]%NoDup_cons).
  split_and!; [by apply links_first in Hn2 as [-> _]|by apply links_first in Hv2 as [-> _]
              | | |set_solver|set_solver|done].
  - rewrite Eh. destruct l1 as [|x l1]; simpl; [done|]. split; [|done]. intros ->. exfalso.
    apply (Hd p); set_solver.
  - rewrite Et. destruct (reverse l2) as [|x r] eqn:Er; simpl.
    + apply (f_equal reverse) in Er. rewrite reverse_involutive in Er. by subst.
    + split; [|by intros ->]. intros ->. exfalso. apply Hp2. rewrite <- elem_of_reverse, Er. set_solver.
Qed.

(** The two assignments to the neighbours, where they exist. *)
Lemma close_gap c nx pr :
  nx <> pr \/ nx = 0 -> (nx <> 0 -> is_Some (items (mem c) !! nx)) ->
  (pr <> 0 -> is_Some (items (mem c) !! pr)) ->
  exists its', (let* c := if nx =? 0 then Ret c else upd c nx (with_prev pr) in
      if pr =? 0 then Ret c else upd c pr (with_next nx)) = Ret (set_mem c (set_items (mem c) its')) /\
    relinked (items (mem c)) its' /\
    forall x i, items (mem c) !! x = Some i -> exists i', its' !! x = Some i' /\
      (next i' = if decide (x = pr /\ pr <> 0) then nx else next i) /\
      (prev i' = if decide (x = nx /\ nx <> 0) then pr else prev i).
Proof.
  intros Hne Hnx Hpr. set (its := items (mem c)).
  set (its1 := if nx =? 0 then its else alter (with_prev pr) nx its).
  assert ((if nx =? 0 then Ret c else upd c nx (with_prev pr)) = Ret (set_mem c (set_items (mem c) its1)))
    as ->.
  { unfold its1. destruct (Z.eqb_spec nx 0) as [|E]; [by destruct c as [[]]|].
    destruct (Hnx E) as [i Hi]. unfold upd, getit. rewrite Hi. cbn [of_option obind].
    do 3 f_equal. apply map_eq. intros q. destruct (decide (q = nx)) as [->|].
    - rewrite lookup_insert_eq, lookup_alter_eq. unfold its. by rewrite Hi.
    - by rewrite lookup_insert_ne, lookup_alter_ne. }
  cbn [obind]. set (its2 := if pr =? 0 then its1 else alter (with_next nx) pr its1).
  exists its2.
  assert (forall q i, its !! q = Some i ->
    its1 !! q = Some (if decide (q = nx /\ nx <> 0) then with_prev pr i else i)) as H1.
  { intros q i Hi. unfold its1. destruct (Z.eqb_spec nx 0); [rewrite decide_False by tauto; done|].
    destruct (decide (q = nx)) as [->|]; [rewrite lookup_alter_eq, decide_True by done; by rewrite Hi|].
    rewrite lookup_alter_ne by done. by rewrite decide_False by tauto. }
  assert (forall q i, its !! q = Some i ->
    its2 !! q = Some ((if decide (q = pr /\ pr <> 0) then with_next nx else id)
      (if decide (q = nx /\ nx <> 0) then with_prev pr i else i))) as H2.
  { intros q i Hi. unfold its2. apply H1 in Hi.
    destruct (Z.eqb_spec pr 0); [rewrite (decide_False (P := q = pr /\ pr <> 0)) by tauto; done|].
    destruct (decide (q = pr)) as [->|].
    - rewrite lookup_alter_eq, (decide_True (P := pr = pr /\ pr <> 0)) by done. by rewrite Hi.
    - rewrite lookup_alter_ne by done. by rewrite (decide_False (P := q = pr /\ pr <> 0)) by tauto. }
  split_and!.
  - unfold its2. destruct (Z.eqb_spec pr 0) as [|E]; [done|].
    destruct (Hpr E) as [i Hi]. apply H1 in Hi. unfold upd, getit. cbn [mem set_mem set_items items].
    rewrite Hi. cbn [of_option obind]. unfold set_mem, set_items. cbn. do 3 f_equal.
    apply map_eq. intros q. destruct (decide (q = pr)) as [->|].
    + by rewrite lookup_insert_eq, lookup_alter_eq, Hi.
    + by rewrite lookup_insert_ne, lookup_alter_ne.
  - intros q. destruct (its !! q) as [i|] eqn:Hi.
    + rewrite (H2 q i Hi). simpl. by repeat case_decide.
    + replace (its2 !! q) with (@None item); [done|]. unfold its2, its1. symmetry.
      destruct (pr =? 0), (nx =? 0); rewrite ?lookup_alter_None; done.
  - intros x i Hi. eexists. split; [by apply H2|]. repeat case_decide; done.
Qed.

Lemma last_first (l : list Z) x :
  0 ∉ l -> (x = hd 0 l /\ hd 0 l <> 0) <-> last (reverse l) = Some x.
Proof.
  intros Hz. destruct l as [|y r]; simpl; [naive_solver|].
  rewrite reverse_cons, last_snoc. split; [by intros [-> _]|]. intros [= ->]. split; [done|].
  intros ->. set_solver.
Qed.

Lemma unlink_q_rep c m L B n p b l1 l2 :
  rep c m L B n -> B !! p = Some b -> L (slabs_clsid b) = l1 ++ p :: l2 ->
  exists c', do_item_unlink_q c p = Ret c' /\
    rep c' m (at_queue L (slabs_clsid b) (l1 ++ l2)) B n.
Proof.
  intros Hr Hb HL. destruct (rep_item _ _ _ _ _ _ _ Hr Hb) as (it & Hit & Hg & ->).
  pose proof (rp_queues _ _ _ _ _ Hr) as Hq. change (slabs_clsid (strip it)) with (slabs_clsid it) in *.
  set (id := slabs_clsid it) in *.
  destruct (neighbours c L id l1 p l2 it Hq HL Hit) as (Hnx & Hpr & Hhd & Htl & Hz1 & Hz2 & Hpz).
  pose proof (qu_nodup _ _ Hq id) as Hnd. rewrite HL in Hnd.
  pose proof Hnd as (_ & Hdis & [Hp2 _]%NoDup_cons)%NoDup_app.
  unfold do_item_unlink_q. rewrite Hg. cbn [obind]. fold id.
  set (head := at0 (heads c) id) in *. set (tail := at0 (tails c) id) in *.
  set (nx := next it) in *. set (pr := prev it) in *.
  assert (nx <> 0 -> nx ∈ l2) as Hnx2 by (rewrite Hnx; destruct l2; [done|set_solver]).
  assert (pr <> 0 -> pr ∈ l1) as Hpr1.
  { rewrite Hpr, <- elem_of_reverse. destruct (reverse l1); [done|set_solver]. }
  assert (negb (head =? p) || (pr =? 0) = true) as ->.
  { destruct (Z.eqb_spec head p) as [E|]; [|done]. apply Hhd in E as ->. by rewrite Hpr. }
  assert (negb (tail =? p) || (nx =? 0) = true) as ->.
  { destruct (Z.eqb_spec tail p) as [E|]; [|done]. apply Htl in E as ->. by rewrite Hnx. }
  assert (nx <> p) as Hnp by (intros E; apply Hp2; rewrite <- E; apply Hnx2; congruence).
  assert (pr <> p) as Hpp by (intros E; apply (Hdis p); [rewrite <- E; apply Hpr1; congruence|set_solver]).
  rewrite (proj2 (Z.eqb_neq nx p)), (proj2 (Z.eqb_neq pr p)) by done. cbn [negb assert obind].
  set (c1 := set_queue c id _ _).
  assert (forall q, q ∈ l1 ++ p :: l2 -> is_Some (items (mem c) !! q)) as Hin.
  { intros q Hql. rewrite <- HL in Hql. destruct (qu_id _ _ Hq id q Hql) as (i & ? & _). by eexists. }
  destruct (close_gap c1 nx pr) as (its' & Hgap & Hrel & Hits).
  { destruct (decide (nx = 0)); [by right|left]. intros E. apply (Hdis nx); [rewrite E; apply Hpr1; congruence|set_solver]. }
  { intros E. apply Hin. set_solver. }
  { intros E. apply Hin. set_solver. }
  rewrite <- (obind_assoc _ (fun c => if pr =? 0 then Ret c else upd c pr (with_next nx))), Hgap.
  cbn [obind]. eexists. split; [done|]. apply (relinked_rep c _ m L); [done..|].
  unfold c1 in Hits. cbn [mem set_queue] in Hits.
  split; cbn [heads tails mem set_mem c1 set_queue count_queue set_items items]; unfold at_queue.
  - intros id'. destruct (decide (id' = id)) as [->|Hd].
    + rewrite at0_insert_eq.
      assert ((if head =? p then nx else head) = if decide (l1 = []) then next it else head) as ->.
      { destruct (decide (l1 = [])) as [Hl|Hl]; [apply Hhd in Hl; by rewrite Hl, Z.eqb_refl|].
        by rewrite (proj2 (Z.eqb_neq _ _)) by tauto. }
      apply (cut_links _ (items (mem c)) _ _ _ p _ it); [rewrite <- HL; apply Hq|done|done|].
      intros x i Hx Hi. destruct (Hits x i Hi) as (i' & Hi' & E & _). exists i'. split; [done|].
      rewrite E. apply decide_ext. rewrite Hpr.
      rewrite last_first, reverse_involutive by (by rewrite elem_of_reverse). done.
    + rewrite at0_insert_ne by done. eapply links_field; [|apply Hq]. intros q i Hqi Hi.
      destruct (Hits q i Hi) as (i' & Hi' & E & _). exists i'. split; [done|].
      rewrite E, decide_False; [done|]. intros [-> Hz]. apply Hd.
      apply (queue_apart c L _ _ pr Hq Hqi). rewrite HL. set_solver.
  - intros id'. destruct (decide (id' = id)) as [->|Hd].
    + rewrite at0_insert_eq, reverse_app.
      assert ((if tail =? p then pr else tail) = if decide (reverse l2 = []) then prev it else tail) as ->.
      { destruct (decide (reverse l2 = [])) as [Hl|Hl].
        - apply (f_equal reverse) in Hl. rewrite reverse_involutive in Hl. apply Htl in Hl.
          by rewrite Hl, Z.eqb_refl.
        - rewrite (proj2 (Z.eqb_neq _ _)); [done|]. rewrite Htl. by intros ->. }
      apply (cut_links _ (items (mem c)) _ _ _ p _ it).
      * replace (reverse l2 ++ p :: reverse l1) with (reverse (L id))
          by (rewrite HL, reverse_app, reverse_cons, <- app_assoc; done). apply Hq.
      * replace (reverse l2 ++ p :: reverse l1) with (reverse (l1 ++ p :: l2))
          by (rewrite reverse_app, reverse_cons, <- app_assoc; done). by rewrite reverse_Permutation.
      * done.
      * intros x i Hx Hi. destruct (Hits x i Hi) as (i' & Hi' & _ & E). exists i'. split; [done|].
        rewrite E. apply decide_ext. rewrite Hnx. by apply last_first.
    + rewrite at0_insert_ne by done. eapply links_field; [|apply Hq]. intros q i Hqi Hi.
      rewrite elem_of_reverse in Hqi.
      destruct (Hits q i Hi) as (i' & Hi' & _ & E). exists i'. split; [done|].
      rewrite E, decide_False; [done|]. intros [-> Hz]. apply Hd.
      apply (queue_apart c L _ _ nx Hq Hqi). rewrite HL. set_solver.
  - intros id'. destruct (decide (id' = id)); [|apply Hq]. apply NoDup_app in Hnd as (? & _ & [_ ?]%NoDup_cons).
    apply NoDup_app. split_and!; [done| |done]. intros x Hx Hx2. apply (Hdis x Hx). set_solver.
  - intros id' q Hqi. assert (q ∈ L id') as Hql.
    { destruct (decide (id' = id)) as [->|]; [rewrite HL; set_solver|done]. }
    destruct (qu_id _ _ Hq id' q Hql) as (i & Hi & Hc).
    specialize (Hrel q). cbn [mem set_queue c1] in Hrel. rewrite Hi in Hrel.
    destruct (its' !! q) as [i2|]; [|done].
    apply (inj Some), (f_equal snd), (f_equal slabs_clsid) in Hrel. simpl in Hrel.
    exists i2. split; [done|congruence].
Qed.
(** ** The hash table under [rep] *)

Lemma table_rep c h' m m' L B n :
  rep c m L B n -> refines hash h' m' -> same_items (items (mem c)) (items h') ->
  rep (set_mem c h') m' L B n.
Proof.
  intros [H1 H2 H3 H4] Hr Hs.
  assert (forall q it, items (mem c) !! q = Some it ->
    exists it', items h' !! q = Some it' /\ with_h_next it' 0 = with_h_next it 0) as Hit.
  { intros q it Hq. specialize (Hs q). rewrite Hq in Hs.
    destruct (items h' !! q) as [it'|]; [|done]. exists it'. split; [done|]. by apply (inj Some). }
  split; [done| | |done].
  - eapply queues_items; [done..|]. intros id q it _ Hq. destruct (Hit q it Hq) as (it' & Hq' & E).
    exists it'. split; [done|]. destruct it, it'. injection E. intros. by subst.
  - rewrite <- H3. apply map_eq. intros q. rewrite !lookup_fmap. specialize (Hs q). simpl.
    destruct (items h' !! q) as [a|], (items (mem c) !! q) as [b|]; try done.
    apply (inj Some) in Hs. simpl. f_equal. unfold strip. by rewrite Hs.
Qed.

Lemma insert_rep c m L B n p b :
  rep c m L B n -> B !! p = Some b -> p <> 0 -> (forall k, m !! k <> Some p) -> m !! key b = None ->
  exists c', on_table c (assoc_insert (mem c) p (hash (key b))) = Ret c' /\
    rep c' (<[key b := p]> m) L B n.
Proof.
  intros Hr Hb Hz Hm Hk. destruct (rep_item _ _ _ _ _ _ _ Hr Hb) as (it & Hit & _ & ->).
  destruct (insert_ok hash (mem c) m p it) as (h' & Hi & Hr' & Hs & _); [apply Hr|done..|].
  change (key (strip it)) with (key it). unfold on_table. rewrite Hi. eexists. split; [done|].
  by eapply table_rep.
Qed.

Lemma delete_rep c m L B n k p :
  rep c m L B n -> m !! k = Some p ->
  exists c', on_table c (assoc_delete (mem c) k (hash k)) = Ret c' /\ rep c' (delete k m) L B n.
Proof.
  intros Hr Hk. destruct (delete_ok hash (mem c) m k p) as (h' & Hd & Hr' & Hs & _); [apply Hr|done|].
  unfold on_table. rewrite Hd. eexists. split; [done|]. by eapply table_rep.
Qed.

(** A bound key belongs to its item. *)
Lemma bound_key c m L B n k p :
  rep c m L B n -> m !! k = Some p -> exists b, B !! p = Some b /\ key b = k.
Proof.
  intros [(own & Ho & Hm) _ <- _] Hk. apply Hm in Hk as [_ Hk]. unfold key_at in Hk.
  rewrite lookup_fmap. destruct (items (mem c) !! p) as [it|]; simplify_eq/=. by eexists.
Qed.

Lemma queued_body c m L B n id p :
  rep c m L B n -> p ∈ L id -> exists b, B !! p = Some b /\ slabs_clsid b = id.
Proof.
  intros [_ Hq <- _] Hp. destruct (qu_id _ _ Hq id p Hp) as (it & Hit & Hc).
  rewrite lookup_fmap, Hit. by eexists.
Qed.

Lemma count_items_rep c m L B n x y z : rep c m L B n -> rep (count_items c x y z) m L B n.
Proof. intros [H1 H2 H3 H4]. split; try done. by eapply queues_items; eauto 10. Qed.

Lemma get_cas_id_rep c m L B n :
  rep c m L B n -> rep (get_cas_id c).1 m L B (u64 (n + 1)) /\ (get_cas_id c).2 = u64 (n + 1).
Proof.
  intros [H1 H2 H3 <-]. split; [|done]. split; try done. by eapply queues_items; eauto 10.
Qed.

Lemma free_rep c m L B n p :
  rep c m L B n -> (forall k, m !! k <> Some p) -> (forall id, p ∉ L id) ->
  rep (set_mem c (set_items (mem c) (delete p (items (mem c))))) m L (delete p B) n.
Proof.
  intros [H1 H2 H3 H4] Hm HL. split; simpl.
  - apply refines_items; [done|]. intros q [k Hk]. rewrite lookup_delete_ne; [done|]. intros <-.
    by apply (Hm k).
  - eapply queues_items; [done..|]. intros id q it Hq Hi. simpl. rewrite lookup_delete_ne; [eauto|].
    intros <-. by apply (HL id).
  - by rewrite fmap_delete, H3.
  - done.
Qed.

Lemma new_rep c m L B n p it :
  rep c m L B n -> B !! p = None -> strip it = it ->
  rep (set_mem c (set_items (mem c) (<[p := it]> (items (mem c))))) m L (<[p := it]> B) n.
Proof.
  intros Hr HB Hit. pose proof Hr as [H1 H2 H3 H4]. split; simpl.
  - apply refines_items; [done|]. intros q [k Hk]. rewrite lookup_insert_ne; [done|]. intros <-.
    destruct (bound_key _ _ _ _ _ _ _ Hr Hk) as (b & Hb & _). congruence.
  - eapply queues_items; [done..|]. intros id q i Hq Hi. simpl. rewrite lookup_insert_ne; [eauto|].
    intros <-. destruct (queued_body _ _ _ _ _ _ _ Hr Hq) as (b & Hb & _). congruence.
  - by rewrite fmap_insert, H3, Hit.
  - done.
Qed.
(** ** References *)

Lemma refcount_incr_rep c m L B n p b :
  rep c m L B n -> B !! p = Some b ->
  exists c', refcount_incr c p = Ret c' /\
    rep c' m L (<[p := with_refcount ((refcount b + 1) mod 2 ^ 16) b]> B) n.
Proof.
  intros Hr Hb. apply (upd_rep c m L B n p b (fun it => with_refcount ((refcount it + 1) mod 2 ^ 16) it));
    [|done..]. apply (plain_refcount (fun r => (r + 1) mod 2 ^ 16)).
Qed.

(** Dropping a reference that is not the last one. *)
Lemma remove_rep c m L B n p b :
  rep c m L B n -> B !! p = Some b -> has b ITEM_SLABBED = false -> 1 < refcount b ->
  exists c', do_item_remove c p = Ret c' /\ rep c' m L (<[p := with_refcount (refcount b - 1) b]> B) n.
Proof.
  intros Hr Hb Hs Hn. destruct (rep_item _ _ _ _ _ _ _ Hr Hb) as (it & Hit & Hg & ->).
  change (has (strip it) ITEM_SLABBED) with (has it ITEM_SLABBED) in Hs.
  change (refcount (strip it)) with (refcount it) in *.
  unfold do_item_remove. rewrite Hg. cbn [obind]. rewrite Hs. cbn [negb assert obind].
  rewrite (proj2 (Z.ltb_lt _ _)) by lia. cbn [assert obind].
  destruct (upd_rep c m L B n p (strip it) (with_refcount (refcount it - 1))) as (c' & -> & Hr');
    [apply (plain_refcount (fun _ => refcount it - 1))|done..|].
  cbn [obind]. rewrite (proj2 (Z.eqb_neq _ _)) by lia. by exists c'.
Qed.

(** Dropping the last one: the item is in no table and no queue. *)
Lemma remove_last_rep c m L B n p b :
  rep c m L B n -> B !! p = Some b -> has b ITEM_SLABBED = false -> has b ITEM_LINKED = false ->
  refcount b = 1 -> p <> 0 -> (forall k, m !! k <> Some p) -> (forall id, p ∉ L id) ->
  exists c', do_item_remove c p = Ret c' /\ rep c' m L (delete p B) n.
Proof.
  intros Hr Hb Hs Hl Hn Hz Hm HL. destruct (rep_item _ _ _ _ _ _ _ Hr Hb) as (it & Hit & Hg & ->).
  change (has (strip it)) with (has it) in *. change (refcount (strip it)) with (refcount it) in *.
  unfold do_item_remove. rewrite Hg. cbn [obind]. rewrite Hs, Hn. cbn [negb assert obind Z.ltb Z.compare].
  destruct (upd_rep c m L B n p (strip it) (with_refcount (1 - 1))) as (c' & -> & Hr');
    [apply (plain_refcount (fun _ => 1 - 1))|done..|].
  cbn [obind]. change (1 - 1 =? 0) with true. cbn iota. unfold item_free.
  destruct (rep_item _ _ _ _ _ p _ Hr' (lookup_insert_eq _ _ _)) as (it' & Hit' & -> & E). cbn [obind].
  assert (has it' ITEM_LINKED = false) as ->.
  { change (has (strip it') ITEM_LINKED = false). rewrite <- E. exact Hl. }
  assert (refcount it' = 0) as ->.
  { change (refcount (strip it') = 0). rewrite <- E. done. }
  pose proof (rp_queues _ _ _ _ _ Hr') as Hq. cbn [negb assert obind].
  destruct (links_first _ _ _ _ (qu_next _ _ Hq (slabs_clsid it'))) as [Eh _].
  destruct (links_first _ _ _ _ (qu_prev _ _ Hq (slabs_clsid it'))) as [Et _].
  assert (p <> at0 (heads c') (slabs_clsid it')) as Hph.
  { rewrite Eh. specialize (HL (slabs_clsid it')). destruct (L _); [done|]. set_solver. }
  assert (p <> at0 (tails c') (slabs_clsid it')) as Hpt.
  { rewrite Et. specialize (HL (slabs_clsid it')). rewrite <- elem_of_reverse in HL.
    destruct (reverse _); [done|]. set_solver. }
  rewrite (proj2 (Z.eqb_neq _ _) Hph), (proj2 (Z.eqb_neq _ _) Hpt). cbn [negb assert obind Z.eqb].
  eexists. split; [done|]. rewrite <- (delete_insert_eq B p (with_refcount (1 - 1) (strip it))).
  by apply free_rep.
Qed.
(** ** Linking and unlinking *)

Section linking.
Context (settings : settings_t) (now : Z).

(** The CAS counter after an item like [b] has been linked, and what it gets. *)
Definition next_cas (b : item) (n : Z) : Z :=
  if has b ITEM_CAS && use_cas settings then u64 (n + 1) else n.
Definition new_cas (b : item) (n : Z) : Z :=
  if has b ITEM_CAS && use_cas settings then u64 (n + 1) else 0.

Definition linked_body (n : Z) (b : item) : item :=
  with_refcount ((refcount b + 1) mod 2 ^ 16)
    (ITEM_set_cas (new_cas b n) (with_time now (set_flag ITEM_LINKED b))).

Definition unlinked_body (b : item) : item :=
  with_refcount (refcount b - 1) (clear_flag ITEM_LINKED b).

Lemma has_lor b f g : has b (Z.lor f g) = has b f || has b g.
Proof.
  unfold has. rewrite Z.land_lor_distr_r.
  destruct (Z.eqb_spec (Z.land (it_flags b) f) 0) as [E|E], (Z.eqb_spec (Z.land (it_flags b) g) 0) as [E'|E'];
    rewrite ?E, ?E'; simpl; try done.
  - by rewrite (proj2 (Z.eqb_neq _ _)).
  - rewrite Z.lor_0_r. by rewrite (proj2 (Z.eqb_neq _ _)).
  - rewrite (proj2 (Z.eqb_neq _ _)); [done|]. rewrite Z.lor_eq_0_iff. tauto.
Qed.

Lemma has_set_flag b f g : Z.land f g = 0 -> has (set_flag f b) g = has b g.
Proof. intros E. unfold has. simpl. by rewrite Z.land_lor_distr_l, E, Z.lor_0_r. Qed.

Lemma has_set_same b f : f <> 0 -> has (set_flag f b) f = true.
Proof.
  intros Hf. unfold has. simpl. rewrite Z.land_lor_distr_l, Z.land_diag.
  rewrite (proj2 (Z.eqb_neq _ _)); [done|]. rewrite Z.lor_eq_0_iff. tauto.
Qed.

Lemma has_clear_flag b f g : Z.land f g = 0 -> has (clear_flag f b) g = has b g.
Proof.
  intros E. unfold has. simpl. f_equal. f_equal. apply Z.bits_inj'. intros i Hi.
  apply (f_equal (fun z => Z.testbit z i)) in E. rewrite Z.land_spec, Z.bits_0 in E.
  rewrite !Z.land_spec, Z.ldiff_spec. by destruct (Z.testbit (it_flags b) i), (Z.testbit f i), (Z.testbit g i).
Qed.

Lemma has_clear_same b f : has (clear_flag f b) f = false.
Proof.
  unfold has. simpl. rewrite Z.land_ldiff. done.
Qed.

Lemma link_rep c m L B n p b :
  rep c m L B n -> B !! p = Some b -> p <> 0 ->
  has b ITEM_LINKED = false -> has b ITEM_SLABBED = false ->
  (forall k, m !! k <> Some p) -> m !! key b = None -> (forall id, p ∉ L id) ->
  exists c', do_item_link settings now c p (hash (key b)) = Ret c' /\
    rep c' (<[key b := p]> m) (at_queue L (slabs_clsid b) (p :: L (slabs_clsid b)))
      (<[p := linked_body n b]> B) (next_cas b n).
Proof.
  intros Hr Hb Hz Hl Hs Hm Hk HL. destruct (rep_item _ _ _ _ _ _ _ Hr Hb) as (it & Hit & Hg & ->).
  unfold do_item_link. rewrite Hg. cbn [obind]. rewrite has_lor.
  change (has it) with (has (strip it)). rewrite Hl, Hs. cbn [orb negb assert obind].
  destruct (upd_rep c m L B n p (strip it) (set_flag ITEM_LINKED)) as (c1 & -> & Hr1); [auto with mcitems|done..|].
  cbn [obind].
  destruct (upd_rep c1 _ _ _ _ p _ (with_time now) ltac:(auto with mcitems) Hr1 (lookup_insert_eq _ _ _))
    as (c2 & -> & Hr2). cbn [obind]. rewrite insert_insert_eq in Hr2.
  apply (count_items_rep _ _ _ _ _ (ITEM_ntotal it) 1 1) in Hr2.
  set (c3 := count_items c2 _ _ _) in *.
  assert (exists c4 id, (if has (strip it) ITEM_CAS && use_cas settings then get_cas_id c3 else (c3, 0)) = (c4, id)
    /\ id = new_cas (strip it) n /\ rep c4 m L (<[p := with_time now (set_flag ITEM_LINKED (strip it))]> B)
              (next_cas (strip it) n)) as (c4 & id & -> & -> & Hr4).
  { unfold new_cas, next_cas. destruct (has (strip it) ITEM_CAS && use_cas settings); [|by eauto].
    destruct (get_cas_id_rep _ _ _ _ _ Hr2) as [Hr4 Hid]. destruct (get_cas_id c3) as [c4 id]. eauto. }
  destruct (upd_rep c4 _ _ _ _ p _ (ITEM_set_cas (new_cas (strip it) n)) ltac:(auto with mcitems) Hr4
    (lookup_insert_eq _ _ _)) as (c5 & -> & Hr5). cbn [obind]. rewrite insert_insert_eq in Hr5.
  set (b5 := ITEM_set_cas _ _) in *.
  assert (key b5 = key it /\ slabs_clsid b5 = slabs_clsid it /\ has b5 ITEM_SLABBED = false /\
    refcount b5 = refcount it) as (Ek & Ec & Es & En).
  { unfold b5, ITEM_set_cas. rewrite <- Hs, <- (has_set_flag (strip it) ITEM_LINKED ITEM_SLABBED eq_refl).
    by destruct (has _ ITEM_CAS). }
  destruct (insert_rep c5 m L _ _ p b5 Hr5 (lookup_insert_eq _ _ _)) as (c6 & Hi & Hr6);
    [done|done|by rewrite Ek|]. rewrite Ek in Hi. change (key (strip it)) with (key it).
  rewrite Hi. cbn [obind].
  destruct (link_q_rep c6 _ L _ _ p b5 Hr6 (lookup_insert_eq _ _ _)) as (c7 & -> & Hr7); [done..|].
  cbn [obind].
  destruct (refcount_incr_rep c7 _ _ _ _ p b5 Hr7 (lookup_insert_eq _ _ _)) as (c8 & -> & Hr8).
  exists c8. split; [done|]. rewrite insert_insert_eq, Ek, Ec, En in Hr8. exact Hr8.
Qed.

Lemma unlink_rep c m L B n p b l1 l2 :
  rep c m L B n -> B !! p = Some b -> has b ITEM_LINKED = true -> has b ITEM_SLABBED = false ->
  m !! key b = Some p -> L (slabs_clsid b) = l1 ++ p :: l2 -> 1 < refcount b ->
  exists c', do_item_unlink c p (hash (key b)) = Ret c' /\
    rep c' (delete (key b) m) (at_queue L (slabs_clsid b) (l1 ++ l2)) (<[p := unlinked_body b]> B) n.
Proof.
  intros Hr Hb Hl Hs Hk HL Hn. destruct (rep_item _ _ _ _ _ _ _ Hr Hb) as (it & Hit & Hg & ->).
  unfold do_item_unlink. rewrite Hg. cbn [obind]. change (has it) with (has (strip it)). rewrite Hl.
  change (key (strip it)) with (key it) in *.
  destruct (upd_rep c m L B n p (strip it) (clear_flag ITEM_LINKED)) as (c1 & -> & Hr1); [auto with mcitems|done..|].
  cbn [obind]. apply (count_items_rep _ _ _ _ _ (- ITEM_ntotal it) (-1) 0) in Hr1.
  destruct (delete_rep _ _ _ _ _ (key it) p Hr1 Hk) as (c2 & -> & Hr2). cbn [obind].
  destruct (unlink_q_rep c2 _ _ _ _ p _ l1 l2 Hr2 (lookup_insert_eq _ _ _) HL) as (c3 & -> & Hr3).
  cbn [obind].
  destruct (remove_rep c3 _ _ _ _ p _ Hr3 (lookup_insert_eq _ _ _)) as (c4 & -> & Hr4);
    [by rewrite has_clear_flag|done|].
  exists c4. split; [done|]. rewrite insert_insert_eq in Hr4. exact Hr4.
Qed.
End linking.
End rep.

Arguments rp_table {hash}.
Arguments rp_queues {hash}.
Arguments rp_bodies {hash}.
Arguments rp_cas {hash}.
Arguments rep_item {hash}.
Arguments rep_lookup {hash}.
Arguments upd_rep {hash}.
Arguments relinked_rep {hash}.
Arguments link_q_rep {hash}.
Arguments unlink_q_rep {hash}.
Arguments table_rep {hash}.
Arguments insert_rep {hash}.
Arguments delete_rep {hash}.
Arguments bound_key {hash}.
Arguments queued_body {hash}.
Arguments count_items_rep {hash}.
Arguments get_cas_id_rep {hash}.
Arguments free_rep {hash}.
Arguments new_rep {hash}.
Arguments refcount_incr_rep {hash}.
Arguments remove_rep {hash}.
Arguments remove_last_rep {hash}.
Arguments link_rep {hash}.
Arguments unlink_rep {hash}.

End ItemsSpec.
