(* ===== verification/ItemsThms.v ===== *)
(** * memcached's items: any sequence of calls

    The invariant that ties reference counts, hash table and queues, and every
    call of [Items] on states that satisfy it. *)

From S2P Require Import Prelude Assoc Items ItemsSpec.
Local Open Scope Z_scope.
Local Open Scope xv6_scope.

Module ItemsThms.
Import Assoc Items ItemsSpec.

(** ** The invariant *)

(** [held p] counts the references callers hold to item [p]. *)
Record item_ok (m : gmap (list Z) Z) (L : Z -> list Z) (held : Z -> Z) (p : Z) (b : item) : Prop := {
  io_addr : p <> 0;
  io_slab : has b ITEM_SLABBED = false;
  io_held : 0 <= held p;
  io_ref : refcount b = (if has b ITEM_LINKED then 1 else 0) + held p;
  io_pos : 1 <= refcount b;
  io_table : has b ITEM_LINKED = true <-> m !! key b = Some p;
  io_queue : has b ITEM_LINKED = true -> p ∈ L (slabs_clsid b)
}.

(** An item is in the table and in the queue of its class exactly when it is
    linked, and its count is that of the references to it. *)
Record inv (m : gmap (list Z) Z) (L : Z -> list Z) (B : gmap Z item) (held : Z -> Z) : Prop := {
  in_item : forall p b, B !! p = Some b -> item_ok m L held p b;
  in_queue : forall id p, p ∈ L id -> exists b, B !! p = Some b /\ has b ITEM_LINKED = true;
  in_none : forall p, B !! p = None -> held p = 0
}.

Definition held_add (held : Z -> Z) (p d : Z) : Z -> Z :=
  fun q => if decide (q = p) then held q + d else held q.

Section rep.
Context (hash : list Z -> Z).

#[local] Abbreviation rep := (rep hash).

(** ** Steps keep the invariant *)

Lemma item_ok_other m m' L L' held held' p b :
  item_ok m L held p b -> held' p = held p ->
  (m' !! key b = Some p <-> m !! key b = Some p) ->
  (p ∈ L (slabs_clsid b) -> p ∈ L' (slabs_clsid b)) -> item_ok m' L' held' p b.
Proof. intros [H1 H2 H3 H4 H5 H6 H7] Hh Hm HL. split; rewrite ?Hh, ?Hm; auto. Qed.

Lemma held_add_eq held p d : held_add held p d p = held p + d.
Proof. unfold held_add. by rewrite decide_True. Qed.

Lemma held_add_ne held p d q : q <> p -> held_add held p d q = held q.
Proof. intros. unfold held_add. by rewrite decide_False. Qed.

(** A change to the count, or to fields the invariant does not mention. *)
Lemma inv_update m L B held p b b' d :
  inv m L B held -> B !! p = Some b ->
  key b' = key b -> slabs_clsid b' = slabs_clsid b ->
  has b' ITEM_LINKED = has b ITEM_LINKED -> has b' ITEM_SLABBED = has b ITEM_SLABBED ->
  refcount b' = refcount b + d -> 1 <= refcount b' -> 0 <= held p + d ->
  inv m L (<[p := b']> B) (held_add held p d).
Proof.
  intros [Hi Hq Hn] Hb Hk Hc Hl Hs Hr Hpos Hh. split.
  - intros q x Hx. destruct (decide (q = p)) as [->|Hne].
    + rewrite lookup_insert_eq in Hx. injection Hx as <-. destruct (Hi p b Hb).
      split; rewrite ?Hk, ?Hc, ?Hl, ?Hs, ?held_add_eq; try done. rewrite Hr, io_ref0. lia.
    + rewrite lookup_insert_ne in Hx by done. specialize (Hi q x Hx).
      eapply item_ok_other; [done|by apply held_add_ne|done|done].
  - intros id q Hq'. destruct (Hq id q Hq') as (x & Hx & Hlx). destruct (decide (q = p)) as [->|Hne].
    + exists b'. rewrite lookup_insert_eq. split; [done|]. simplify_eq. by rewrite Hl.
    + exists x. by rewrite lookup_insert_ne.
  - intros q Hqn. rewrite lookup_insert_None in Hqn. destruct Hqn as [Hqn Hne].
    rewrite held_add_ne by done. by apply Hn.
Qed.

(** An item nobody refers to goes. *)
Lemma inv_free m L B held p b :
  inv m L B held -> B !! p = Some b -> has b ITEM_LINKED = false -> refcount b = 1 ->
  inv m L (delete p B) (held_add held p (-1)).
Proof.
  intros [Hi Hq Hn] Hb Hl Hr. split.
  - intros q x Hx. apply lookup_delete_Some in Hx as [Hne Hx].
    eapply item_ok_other; [by apply Hi|by apply held_add_ne|done|done].
  - intros id q Hq'. destruct (Hq id q Hq') as (x & Hx & Hlx). exists x.
    rewrite lookup_delete_ne; [done|]. intros ->. simplify_eq. congruence.
  - intros q Hqn. destruct (decide (q = p)) as [->|Hne].
    + destruct (Hi p b Hb). rewrite held_add_eq. rewrite Hl in *. lia.
    + rewrite held_add_ne by done. apply Hn. by rewrite lookup_delete_ne in Hqn.
Qed.

Lemma inv_new m L B held p b :
  inv m L B held -> B !! p = None -> p <> 0 -> has b ITEM_SLABBED = false ->
  has b ITEM_LINKED = false -> refcount b = 1 -> (forall k, m !! k <> Some p) ->
  inv m L (<[p := b]> B) (held_add held p 1).
Proof.
  intros [Hi Hq Hn] Hb Hz Hs Hl Hr Hm. split.
  - intros q x Hx. destruct (decide (q = p)) as [->|Hne].
    + rewrite lookup_insert_eq in Hx. injection Hx as <-.
      split; rewrite ?held_add_eq, ?(Hn p Hb), ?Hl, ?Hr; try done; try lia.
      split; [done|]. intros E. by apply Hm in E.
    + rewrite lookup_insert_ne in Hx by done.
      eapply item_ok_other; [by apply Hi|by apply held_add_ne|done|done].
  - intros id q Hq'. destruct (Hq id q Hq') as (x & Hx & Hlx). exists x.
    rewrite lookup_insert_ne; [done|]. intros ->. congruence.
  - intros q Hqn. rewrite lookup_insert_None in Hqn. destruct Hqn as [Hqn Hne].
    rewrite held_add_ne by done. by apply Hn.
Qed.

Lemma inv_link m L B held p b b' :
  inv m L B held -> B !! p = Some b -> has b ITEM_LINKED = false -> m !! key b = None ->
  key b' = key b -> slabs_clsid b' = slabs_clsid b -> has b' ITEM_LINKED = true ->
  has b' ITEM_SLABBED = false -> refcount b' = refcount b + 1 ->
  inv (<[key b := p]> m) (at_queue L (slabs_clsid b) (p :: L (slabs_clsid b))) (<[p := b']> B) held.
Proof.
  intros [Hi Hq Hn] Hb Hl Hm Hk Hc Hl' Hs' Hr. pose proof (Hi p b Hb) as [H1 H2 H3 H4 H5 H6 H7].
  split.
  - intros q x Hx. destruct (decide (q = p)) as [->|Hne].
    + rewrite lookup_insert_eq in Hx. injection Hx as <-.
      split; rewrite ?Hk, ?Hc, ?Hl'; try done; rewrite ?Hl in *; try lia.
      * by rewrite lookup_insert_eq.
      * intros _. unfold at_queue. rewrite decide_True by done. set_solver.
    + rewrite lookup_insert_ne in Hx by done. eapply item_ok_other; [by apply Hi|done| |].
      * destruct (decide (key x = key b)) as [E|E]; [|by rewrite lookup_insert_ne].
        rewrite E, lookup_insert_eq, Hm. split; [by intros [= ->]|done].
      * unfold at_queue. case_decide as E; [rewrite E; set_solver|done].
  - intros id q Hq'. destruct (decide (q = p)) as [->|Hne].
    + exists b'. by rewrite lookup_insert_eq.
    + unfold at_queue in Hq'. destruct (Hq id q) as (x & Hx & Hlx).
      { case_decide as E; [rewrite E; set_solver|done]. }
      exists x. by rewrite lookup_insert_ne.
  - intros q Hqn. rewrite lookup_insert_None in Hqn. destruct Hqn as [Hqn Hne]. by apply Hn.
Qed.

Lemma inv_unlink m L B held p b b' l1 l2 :
  inv m L B held -> B !! p = Some b -> has b ITEM_LINKED = true ->
  L (slabs_clsid b) = l1 ++ p :: l2 -> (forall id, id <> slabs_clsid b -> p ∉ L id) -> p ∉ l1 ++ l2 ->
  key b' = key b -> has b' ITEM_LINKED = false -> has b' ITEM_SLABBED = false ->
  refcount b' = refcount b - 1 -> 1 <= refcount b' ->
  inv (delete (key b) m) (at_queue L (slabs_clsid b) (l1 ++ l2)) (<[p := b']> B) held.
Proof.
  intros [Hi Hq Hn] Hb Hl HL Hapart Hout Hk Hl' Hs' Hr Hpos.
  pose proof (Hi p b Hb) as [H1 H2 H3 H4 H5 H6 H7]. split.
  - intros q x Hx. destruct (decide (q = p)) as [->|Hne].
    + rewrite lookup_insert_eq in Hx. injection Hx as <-.
      split; rewrite ?Hk, ?Hl'; try done; rewrite ?Hl in *; try lia.
      by rewrite lookup_delete_eq.
    + rewrite lookup_insert_ne in Hx by done. eapply item_ok_other; [by apply Hi|done| |].
      * destruct (decide (key x = key b)) as [E|E]; [|by rewrite lookup_delete_ne].
        rewrite E, lookup_delete_eq. apply H6 in Hl. split; [done|congruence].
      * unfold at_queue. case_decide as E; [rewrite E, HL; set_solver|done].
  - intros id q Hq'. unfold at_queue in Hq'. destruct (decide (q = p)) as [->|Hne].
    + exfalso. case_decide as E; [done|by apply (Hapart id)].
    + destruct (Hq id q) as (x & Hx & Hlx).
      { case_decide as E; [rewrite E, HL; set_solver|done]. }
      exists x. by rewrite lookup_insert_ne.
  - intros q Hqn. rewrite lookup_insert_None in Hqn. destruct Hqn as [Hqn Hne]. by apply Hn.
Qed.
(** ** The operations, on states that satisfy the invariant *)

Record cst (c : cache) (m : gmap (list Z) Z) (L : Z -> list Z) (B : gmap Z item) (held : Z -> Z)
  : Prop := { cs_rep : rep c m L B (cas_id c); cs_inv : inv m L B held }.

Lemma rep_cst c m L B n held : rep c m L B n -> inv m L B held -> cst c m L B held /\ cas_id c = n.
Proof. intros Hr Hi. pose proof (rp_cas _ _ _ _ _ Hr) as <-. by split. Qed.

Lemma unlinked_out c m L B held p b :
  cst c m L B held -> B !! p = Some b -> has b ITEM_LINKED = false ->
  (forall k, m !! k <> Some p) /\ (forall id, p ∉ L id).
Proof.
  intros [Hr Hi] Hb Hl. split.
  - intros k Hk. destruct (bound_key _ _ _ _ _ _ _ Hr Hk) as (x & Hx & <-).
    apply (io_table _ _ _ _ _ (in_item _ _ _ _ Hi p x Hx)) in Hk. congruence.
  - intros id Hp. destruct (in_queue _ _ _ _ Hi id p Hp) as (x & Hx & Hlx). congruence.
Qed.

Lemma linked_in c m L B held p b :
  cst c m L B held -> B !! p = Some b -> has b ITEM_LINKED = true ->
  m !! key b = Some p /\ exists l1 l2, L (slabs_clsid b) = l1 ++ p :: l2 /\ p ∉ l1 ++ l2 /\
    forall id, id <> slabs_clsid b -> p ∉ L id.
Proof.
  intros [Hr Hi] Hb Hl. pose proof (in_item _ _ _ _ Hi p b Hb) as Hio.
  split; [by apply (io_table _ _ _ _ _ Hio)|].
  pose proof (io_queue _ _ _ _ _ Hio Hl) as Hq. pose proof Hq as (l1 & l2 & HL)%list_elem_of_split.
  exists l1, l2. split; [done|]. split.
  - pose proof (qu_nodup _ _ (rp_queues _ _ _ _ _ Hr) (slabs_clsid b)) as Hnd. rewrite HL in Hnd.
    apply NoDup_app in Hnd as (_ & Hd & [Hp _]%NoDup_cons). rewrite elem_of_app.
    intros [H1|H2]; [|done]. apply (Hd p H1). set_solver.
  - intros id Hne Hp. apply Hne. symmetry. by eapply queue_apart; [apply Hr| |].
Qed.

Lemma op_incr c m L B held p b :
  cst c m L B held -> B !! p = Some b -> refcount b + 1 < 2 ^ 16 ->
  exists c', refcount_incr c p = Ret c' /\ cas_id c' = cas_id c /\
    cst c' m L (<[p := with_refcount (refcount b + 1) b]> B) (held_add held p 1).
Proof.
  intros [Hr Hi] Hb Hn. pose proof (in_item _ _ _ _ Hi p b Hb) as [].
  destruct (refcount_incr_rep c m L B _ p b Hr Hb) as (c' & Hc & Hr'). exists c'.
  rewrite Z.mod_small in Hr' by lia. apply (rep_cst _ _ _ _ _ (held_add held p 1)) in Hr' as [? ?]; [done|].
  eapply inv_update; try done; simpl; lia.
Qed.

Definition dropped (B : gmap Z item) (p : Z) (b : item) : gmap Z item :=
  if decide (refcount b = 1) then delete p B else <[p := with_refcount (refcount b - 1) b]> B.

Lemma op_remove c m L B held p b :
  cst c m L B held -> B !! p = Some b -> 0 < held p ->
  exists c', do_item_remove c p = Ret c' /\ cas_id c' = cas_id c /\
    cst c' m L (dropped B p b) (held_add held p (-1)).
Proof.
  intros Hc Hb Hh. pose proof Hc as [Hr Hi]. pose proof (in_item _ _ _ _ Hi p b Hb) as [].
  unfold dropped. case_decide as Hn.
  - assert (has b ITEM_LINKED = false) as Hl by (destruct (has b ITEM_LINKED); [lia|done]).
    destruct (unlinked_out _ _ _ _ _ _ _ Hc Hb Hl) as [Hm HL].
    destruct (remove_last_rep c m L B _ p b Hr Hb) as (c' & E & Hr'); [done..|].
    exists c'. split; [done|].
    apply (rep_cst _ _ _ _ _ (held_add held p (-1))) in Hr' as [? ?]; [done|by eapply inv_free].
  - destruct (remove_rep c m L B _ p b Hr Hb) as (c' & E & Hr'); [done|lia|]. exists c'. split; [done|].
    apply (rep_cst _ _ _ _ _ (held_add held p (-1))) in Hr' as [? ?]; [done|].
    eapply inv_update; try done; simpl; lia.
Qed.

Lemma op_unlink c m L B held p b :
  cst c m L B held -> B !! p = Some b -> 0 < held p ->
  exists c' L', do_item_unlink c p (hash (key b)) = Ret c' /\ cas_id c' = cas_id c /\
    cst c' (if has b ITEM_LINKED then delete (key b) m else m) L'
      (if has b ITEM_LINKED then <[p := unlinked_body b]> B else B) held.
Proof.
  intros Hc Hb Hh. pose proof Hc as [Hr Hi]. pose proof (in_item _ _ _ _ Hi p b Hb) as [].
  destruct (has b ITEM_LINKED) eqn:Hl.
  - destruct (linked_in _ _ _ _ _ _ _ Hc Hb Hl) as (Hm & l1 & l2 & HL & Hout & Hap).
    destruct (unlink_rep c m L B _ p b l1 l2 Hr Hb) as (c' & E & Hr'); [done..|lia|].
    exists c', (at_queue L (slabs_clsid b) (l1 ++ l2)). split; [done|].
    apply (rep_cst _ _ _ _ _ held) in Hr' as [? ?]; [done|].
    eapply inv_unlink; try done; [apply has_clear_same| |simpl; lia].
    change (has (clear_flag ITEM_LINKED b) ITEM_SLABBED = false). by rewrite has_clear_flag.
  - exists c, L. split; [|done]. destruct (rep_item _ _ _ _ _ _ _ Hr Hb) as (it & Hit & Hg & ->).
    unfold do_item_unlink. rewrite Hg. cbn [obind]. change (has it) with (has (strip it)). by rewrite Hl.
Qed.

Lemma op_link settings now c m L B held p b :
  cst c m L B held -> B !! p = Some b -> has b ITEM_LINKED = false -> m !! key b = None ->
  refcount b + 1 < 2 ^ 16 ->
  exists c', do_item_link settings now c p (hash (key b)) = Ret c' /\
    cas_id c' = next_cas settings b (cas_id c) /\
    cst c' (<[key b := p]> m) (at_queue L (slabs_clsid b) (p :: L (slabs_clsid b)))
      (<[p := linked_body settings now (cas_id c) b]> B) held.
Proof.
  intros Hc Hb Hl Hm Hn. pose proof Hc as [Hr Hi]. pose proof (in_item _ _ _ _ Hi p b Hb) as [].
  destruct (unlinked_out _ _ _ _ _ _ _ Hc Hb Hl) as [Hout HL].
  destruct (link_rep settings now c m L B _ p b Hr Hb) as (c' & E & Hr'); [done..|].
  exists c'. split; [done|]. apply (rep_cst _ _ _ _ _ held) in Hr' as [? ?]; [done|].
  set (b5 := with_time now (set_flag ITEM_LINKED b)).
  assert (forall v, key (ITEM_set_cas v b5) = key b /\ slabs_clsid (ITEM_set_cas v b5) = slabs_clsid b /\
    it_flags (ITEM_set_cas v b5) = it_flags b5) as Hcas.
  { intros v. unfold ITEM_set_cas. by destruct (has b5 ITEM_CAS). }
  destruct (Hcas (new_cas settings b (cas_id c))) as (Ek & Ec & Ef).
  eapply inv_link; try done.
  - unfold has. simpl. fold b5. rewrite Ef. apply (has_set_same b ITEM_LINKED). done.
  - unfold has. simpl. fold b5. rewrite Ef. rewrite <- (has_set_flag b ITEM_LINKED ITEM_SLABBED eq_refl) in io_slab0.
    exact io_slab0.
  - simpl. by rewrite Z.mod_small by lia.
Qed.
(** ** Looking up *)

(** [b'] differs from [b] in its time, its queue and its activity marks. *)
Record touched (b b' : item) : Prop := {
  to_key : key b' = key b;
  to_ref : refcount b' = refcount b;
  to_exp : exptime b' = exptime b;
  to_nbytes : nbytes b' = nbytes b;
  to_data : data b' = data b;
  to_cas : cas b' = cas b;
  to_suffix : suffix b' = suffix b;
  to_flags : forall f, Z.land ITEM_ACTIVE f = 0 -> Z.land ITEM_FETCHED f = 0 -> has b' f = has b f
}.

Lemma touched_refl b : touched b b.
Proof. by split. Qed.

Lemma touched_trans b1 b2 b3 : touched b1 b2 -> touched b2 b3 -> touched b1 b3.
Proof.
  intros [] []. split; try congruence. intros f H1 H2. rewrite to_flags1, to_flags0; done.
Qed.

Lemma touched_time b t : touched b (with_time t b).
Proof. by split. Qed.
Lemma touched_set_flag b f : f = ITEM_ACTIVE \/ f = ITEM_FETCHED -> touched b (set_flag f b).
Proof. intros Hf. split; try done. intros g H1 H2. apply has_set_flag. by destruct Hf as [->| ->]. Qed.
Lemma touched_clear_flag b f : f = ITEM_ACTIVE \/ f = ITEM_FETCHED -> touched b (clear_flag f b).
Proof. intros Hf. split; try done. intros g H1 H2. apply has_clear_flag. by destruct Hf as [->| ->]. Qed.
Lemma touched_clsid b id : touched b (with_clsid id b).
Proof. by split. Qed.

#[local] Hint Resolve touched_refl touched_time touched_set_flag touched_clear_flag touched_clsid : mcitems.

Lemma inv_ext m L B held held' :
  (forall q, held' q = held q) -> inv m L B held -> inv m L B held'.
Proof.
  intros E [H1 H2 H3]. split; [|done|].
  - intros q x Hx. eapply item_ok_other; [by apply H1|by rewrite E|done|done].
  - intros q Hq. rewrite E. by apply H3.
Qed.

(** A reference taken and given back. *)
Lemma cst_back c m L B held p :
  cst c m L B (held_add (held_add held p 1) p (-1)) -> cst c m L B held.
Proof.
  intros [Hr Hi]. split; [done|]. eapply inv_ext; [|done].
  intros q. unfold held_add. repeat case_decide; lia.
Qed.

(** What the invariant reads of an item. *)
Definition kept (b b' : item) : Prop :=
  key b' = key b /\ refcount b' = refcount b /\ slabs_clsid b' = slabs_clsid b /\
  has b' ITEM_LINKED = has b ITEM_LINKED /\ has b' ITEM_SLABBED = has b ITEM_SLABBED.

Lemma touched_kept b b' : touched b b' -> slabs_clsid b' = slabs_clsid b -> kept b b'.
Proof. intros [] Hc. unfold kept. by rewrite !to_flags0. Qed.

Lemma inv_kept m L B held p b b' :
  inv m L B held -> B !! p = Some b -> kept b b' -> inv m L (<[p := b']> B) held.
Proof.
  intros Hi Hb (Hk & Hr & Hc & Hl & Hs). pose proof (in_item _ _ _ _ Hi p b Hb) as [].
  apply (inv_ext _ _ _ (held_add held p 0)); [intros q; unfold held_add; case_decide; lia|].
  eapply inv_update; try done; lia.
Qed.

Lemma op_kept c m L B held p b f :
  cst c m L B held -> B !! p = Some b -> plain f -> kept b (f b) ->
  exists c', upd c p f = Ret c' /\ cas_id c' = cas_id c /\ cst c' m L (<[p := f b]> B) held.
Proof.
  intros [Hr Hi] Hb Hf Hk. destruct (upd_rep c m L B _ p b f Hf Hr Hb) as (c' & E & Hr').
  exists c'. split; [done|]. apply (rep_cst _ _ _ _ _ held) in Hr' as [? ?]; [done|by eapply inv_kept].
Qed.

Lemma op_touched c m L B held p b f :
  cst c m L B held -> B !! p = Some b -> plain f -> touched b (f b) -> slabs_clsid (f b) = slabs_clsid b ->
  exists c', upd c p f = Ret c' /\ cas_id c' = cas_id c /\ cst c' m L (<[p := f b]> B) held.
Proof. intros Hc Hb Hf Ht Hcl. eapply op_kept; [done..|]. by apply touched_kept. Qed.

(** An item that is in no queue may change its class. *)
Lemma upd_off_rep c m L B n p b f :
  (forall it, hfields (f it) = hfields it /\ strip (f it) = f (strip it)) ->
  rep c m L B n -> B !! p = Some b -> (forall id, p ∉ L id) ->
  exists c', upd c p f = Ret c' /\ rep c' m L (<[p := f b]> B) n.
Proof.
  intros Hf Hr Hb HL. destruct (rep_item _ _ _ _ _ _ _ Hr Hb) as (it & Hit & Hg & ->).
  unfold upd. rewrite Hg. cbn [obind]. eexists. split; [done|].
  destruct (Hf it) as (Hh & Hs). destruct Hr as [Hr1 Hr2 Hr3 Hr4]. split; simpl.
  - apply refines_items; [done|]. intros q _. destruct (decide (q = p)) as [->|].
    + rewrite lookup_insert_eq, Hit. simpl. by f_equal.
    + by rewrite lookup_insert_ne.
  - eapply queues_items; [done..|]. simpl. intros id q i Hq Hi. rewrite lookup_insert_ne; [eauto|].
    intros <-. by apply (HL id).
  - by rewrite fmap_insert, Hr3, Hs.
  - done.
Qed.

Lemma op_requeue c m L B held p b f :
  cst c m L B held -> B !! p = Some b -> has b ITEM_LINKED = true ->
  (forall it, hfields (f it) = hfields it /\ strip (f it) = f (strip it)) -> touched b (f b) ->
  exists c' L', item_requeue c p f = Ret c' /\ cas_id c' = cas_id c /\ cst c' m L' (<[p := f b]> B) held.
Proof.
  intros Hc Hb Hl Hf Ht. pose proof Hc as [Hr Hi]. pose proof (in_item _ _ _ _ Hi p b Hb) as [].
  destruct (linked_in _ _ _ _ _ _ _ Hc Hb Hl) as (Hm & l1 & l2 & HL & Hout & Hap).
  unfold item_requeue.
  destruct (unlink_q_rep c m L B _ p b l1 l2 Hr Hb HL) as (c1 & -> & Hr1). cbn [obind].
  set (L1 := at_queue L (slabs_clsid b) (l1 ++ l2)) in *.
  assert (forall id, p ∉ L1 id) as HL1.
  { intros id. unfold L1, at_queue. case_decide; [done|by apply Hap]. }
  destruct (upd_off_rep c1 m L1 B _ p b f Hf Hr1 Hb HL1) as (c2 & -> & Hr2). cbn [obind].
  destruct (link_q_rep c2 m L1 _ _ p (f b) Hr2 (lookup_insert_eq _ _ _)) as (c3 & -> & Hr3); [done| |done|].
  { by rewrite (to_flags _ _ Ht). }
  eexists _, _. split; [done|]. apply (rep_cst _ _ _ _ _ held) in Hr3 as [? ?]; [done|].
  destruct Ht. destruct Hi as [Hi Hq Hn]. split.
  - intros q x Hx. destruct (decide (q = p)) as [->|Hne].
    + rewrite lookup_insert_eq in Hx. injection Hx as <-.
      split; rewrite ?to_ref0, ?to_key0, ?to_flags0 by done; try done.
      intros _. unfold at_queue. rewrite decide_True by done. set_solver.
    + rewrite lookup_insert_ne in Hx by done. eapply item_ok_other; [by apply Hi|done|done|].
      intros Hin. assert (q ∈ L1 (slabs_clsid x)) as Hin1.
      { unfold L1, at_queue. case_decide as E; [|done]. rewrite E, HL in Hin. set_solver. }
      unfold at_queue. case_decide as E; [rewrite <- E; set_solver|done].
  - intros id q Hq'. destruct (decide (q = p)) as [->|Hne].
    + exists (f b). rewrite lookup_insert_eq. split; [done|]. by rewrite to_flags0.
    + destruct (Hq id q) as (x & Hx & Hlx); [|exists x; by rewrite lookup_insert_ne].
      assert (q ∈ L1 id) as Hin1.
      { unfold at_queue in Hq'. case_decide as E; [rewrite E; set_solver|done]. }
      unfold L1, at_queue in Hin1. case_decide as E; [rewrite E, HL; set_solver|done].
  - intros q Hqn. rewrite lookup_insert_None in Hqn. destruct Hqn as [Hqn Hne]. by apply Hn.
Qed.
(** ** The bump buffers *)

Lemma cst_bumps c m L B held l : cst c m L B held -> cst (set_bumps c l) m L B held.
Proof.
  intros [Hr Hi]. split; [|done]. destruct Hr as [H1 H2 H3 H4]. split; try done.
  by eapply queues_items; eauto 10.
Qed.

(** The other calls leave the buffers alone. *)
Definition frame (c : cache) (r : outcome cache) : Prop := forall c', r = Ret c' -> bump_buf c' = bump_buf c.

Lemma frame_ret c : frame c (Ret c).
Proof. by intros c' [= <-]. Qed.

Lemma frame_bind {A} c (r : outcome A) k : (forall a, r = Ret a -> frame c (k a)) -> frame c (let* a := r in k a).
Proof. intros Hk c' (a & Ha & E)%obind_ret. by apply (Hk a). Qed.

Lemma frame_then c r k :
  frame c r -> (forall c1, bump_buf c1 = bump_buf c -> frame c1 (k c1)) -> frame c (let* c := r in k c).
Proof. intros Hr Hk c' (c1 & H1 & E)%obind_ret. rewrite <- (Hr c1) by done. by apply (Hk c1); auto. Qed.

Lemma frame_same c c1 r : bump_buf c1 = bump_buf c -> frame c1 r -> frame c r.
Proof. intros E Hr c' H. rewrite <- E. by apply Hr. Qed.

Lemma frame_upd c p f : frame c (upd c p f).
Proof. unfold upd. apply frame_bind. by intros it _ c' [= <-]. Qed.

Lemma frame_table c r : frame c (on_table c r).
Proof. unfold on_table. apply frame_bind. by intros it _ c' [= <-]. Qed.

#[local] Hint Resolve frame_ret frame_upd frame_table : mcitems.

(** Follows the text of an operation. *)
Ltac frame_step :=
  first
    [ solve [auto with mcitems]
    | match goal with
      | |- frame _ (obind (assert _) _) => apply frame_bind; intros ? _
      | |- frame _ (obind (getit _ _) _) => apply frame_bind; intros ? _
      | |- frame _ (obind _ _) => apply frame_then; [|intros ? ?]
      | |- frame _ (match ?b with _ => _ end) => destruct b
      | |- frame ?c (Ret ?c1) => apply (frame_same c c1); [|apply frame_ret]
      | |- frame ?c _ => eapply (frame_same c); [|solve [auto with mcitems]]
      end ].

Lemma frame_link_q c p : frame c (do_item_link_q c p).
Proof. unfold do_item_link_q. by repeat frame_step. Qed.

Lemma frame_unlink_q c p : frame c (do_item_unlink_q c p).
Proof. unfold do_item_unlink_q. by repeat frame_step. Qed.

Lemma frame_incr c p : frame c (refcount_incr c p).
Proof. apply frame_upd. Qed.

Lemma frame_remove c p : frame c (do_item_remove c p).
Proof. unfold do_item_remove, item_free. by repeat frame_step. Qed.
#[local] Hint Resolve frame_link_q frame_unlink_q frame_incr frame_remove : mcitems.

Lemma frame_requeue c p f : frame c (item_requeue c p f).
Proof. unfold item_requeue. by repeat frame_step. Qed.

Lemma frame_unlink c p hv : frame c (do_item_unlink c p hv).
Proof.
  unfold do_item_unlink. by repeat frame_step.
Qed.
#[local] Hint Resolve frame_requeue frame_unlink : mcitems.

Lemma frame_evict c p : frame c (evict hash c p).
Proof. unfold evict. by repeat frame_step. Qed.

Lemma frame_pull c ps : frame c (foldl (fun r p => let* c := r in evict hash c p) (Ret c) ps).
Proof.
  induction ps as [|p ps IH] using rev_ind; [apply frame_ret|]. rewrite foldl_app. simpl.
  apply frame_then; [done|]. intros c1 _. apply frame_evict.
Qed.
Section reading.
Context (settings : settings_t) (now : Z).

Lemma frame_link c p hv : frame c (do_item_link settings now c p hv).
Proof.
  unfold do_item_link. do 2 (apply frame_bind; intros ? _). do 2 (apply frame_then; [apply frame_upd|]; intros ? _).
  assert (forall c0 c2 id, bump_buf c2 = bump_buf c0 -> frame c0
    (let* c := upd c2 p (ITEM_set_cas id) in
     let* c := on_table c (assoc_insert (mem c) p hv) in
     let* c := do_item_link_q c p in refcount_incr c p)) as Hrest.
  { intros ? ? id E. eapply frame_same; [exact E|]. by repeat frame_step. }
  destruct (has _ _ && _); by apply Hrest.
Qed.

Lemma update_frame c p : frame c (do_item_update settings now c p).
Proof. unfold do_item_update. by repeat frame_step. Qed.
#[local] Hint Resolve frame_link update_frame : mcitems.

Lemma frame_replace c p q hv : frame c (do_item_replace settings now c p q hv).
Proof. unfold do_item_replace. by repeat frame_step. Qed.

Lemma frame_alloc c k flags exp nb s c' p :
  do_item_alloc hash settings now c k flags exp nb s = Ret (c', p) -> bump_buf c' = bump_buf c.
Proof.
  unfold do_item_alloc. case_match; [by intros [= <- <-]|]. case_match. case_match; [by intros [= <- <-]|].
  intros ([c1 q] & Hp & E)%obind_ret.
  unfold do_item_alloc_pull in Hp. apply obind_ret in Hp as (c2 & H2 & [= -> <-]). apply frame_pull in H2.
  destruct (address s =? 0); injection E as <- _; done.
Qed.

(** [c'] is [c] after item [p] has been touched. *)
Definition touches (c : cache) (m : gmap (list Z) Z) (B : gmap Z item) (held : Z -> Z) (p : Z) (b : item)
    (r : outcome cache) : Prop :=
  exists c' L' b', r = Ret c' /\ cas_id c' = cas_id c /\ touched b b' /\ cst c' m L' (<[p := b']> B) held.

Lemma touches_none c m L B held p b :
  cst c m L B held -> B !! p = Some b -> touches c m B held p b (Ret c).
Proof.
  intros Hc Hb. exists c, L, b. rewrite insert_id by done. auto with mcitems.
Qed.

Lemma touches_then c c1 m B held p b b1 r :
  cas_id c1 = cas_id c -> touched b b1 ->
  touches c1 m (<[p := b1]> B) held p b1 r -> touches c m B held p b r.
Proof.
  intros Hcas Ht (c2 & L2 & b2 & -> & Hcas2 & Ht2 & Hc2). rewrite insert_insert_eq in Hc2.
  exists c2, L2, b2. split_and!; [done|congruence|by eapply touched_trans|done].
Qed.

Lemma touches_upd c m L B held p b f :
  cst c m L B held -> B !! p = Some b -> plain f -> touched b (f b) -> slabs_clsid (f b) = slabs_clsid b ->
  touches c m B held p b (upd c p f).
Proof.
  intros Hc Hb Hf Ht Hcl. destruct (op_touched c m L B held p b f) as (c' & -> & ? & ?); [done..|].
  by exists c', L, (f b).
Qed.

Lemma op_update c m L B held p b :
  cst c m L B held -> B !! p = Some b ->
  touches c m B held p b (do_item_update settings now c p).
Proof.
  intros Hc Hb. pose proof Hc as [Hr Hi]. pose proof (in_item _ _ _ _ Hi p b Hb) as [].
  destruct (rep_item _ _ _ _ _ _ _ Hr Hb) as (it & Hit & Hg & Eb).
  assert (forall f, has it f = has b f) as Hhas by (intros f; by rewrite Eb).
  destruct (op_touched c m L B held p b (with_time now)) as (c1 & Hu & Hcas & Hc1); [done|done|auto with mcitems..|].
  assert (forall f, (forall it, hfields (f it) = hfields it /\ strip (f it) = f (strip it)) ->
    touched (with_time now b) (f (with_time now b)) -> has b ITEM_LINKED = true ->
    touches c m B held p b (item_requeue c1 p f)) as Hrq.
  { intros f Hf Ht Hl.
    destruct (op_requeue c1 m L _ held p _ f Hc1 (lookup_insert_eq _ _ _)) as (c2 & L2 & -> & Hcas2 & Hc2);
      [done..|].
    eapply (touches_then c c1); [done|apply (touched_time b now)|]. by eexists _, _, _. }
  unfold do_item_update. rewrite Hg. cbn [obind]. rewrite !Hhas, io_slab0. cbn [negb assert obind].
  destruct (lru_segmented settings); [|destruct (_ <? _); [|by eapply touches_none]];
    (destruct (has b ITEM_LINKED) eqn:Hl; [|by eapply touches_none]); rewrite Hu; cbn [obind].
  - destruct (_ && _); [|eexists _, _, _; split_and!; [done|done|apply (touched_time b now)|done]].
    apply Hrq; [by intros []| |done].
    eapply touched_trans; [apply (touched_clsid _ (Z.lor (ITEM_clsid (with_time now b)) WARM_LRU))|].
    apply touched_clear_flag. by left.
  - apply Hrq; [by intros []|apply touched_refl|done].
Qed.

(** Handing an item to the maintainer: the entry holds a reference. *)
Lemma op_async c m L B held p b (room : bool) :
  cst c m L B held -> B !! p = Some b -> refcount b + 1 < 2 ^ 16 ->
  exists c', lru_bump_async c p room = Ret (c', room) /\ cas_id c' = cas_id c /\
    bump_buf c' = bump_buf c ++ (if room then [p] else []) /\
    cst c' m L (<[p := with_refcount (refcount b + if room then 1 else 0) b]> B)
      (held_add held p (if room then 1 else 0)).
Proof.
  intros Hc Hb Hn. destruct (op_incr c m L B held p b) as (c1 & E1 & Hcas & Hc1); [done..|].
  pose proof (frame_incr c p c1 E1) as Hbuf. unfold lru_bump_async. rewrite E1. cbn [obind]. destruct room.
  { eexists. split; [done|]. split; [done|]. split; [by simpl; rewrite Hbuf|]. by apply cst_bumps. }
  pose proof (in_item _ _ _ _ (cs_inv _ _ _ _ _ Hc) p b Hb) as [].
  destruct Hc1 as [Hr1 Hi1].
  destruct (upd_rep c1 m L _ _ p _ (fun it => with_refcount ((refcount it - 1) mod 2 ^ 16) it)
    ltac:(apply (plain_refcount (fun r => (r - 1) mod 2 ^ 16))) Hr1 (lookup_insert_eq _ _ _)) as (c2 & E2 & Hr2).
  unfold refcount_decr. rewrite E2. cbn [obind]. exists c2.
  pose proof (frame_upd _ _ _ _ E2) as Hbuf2. rewrite insert_insert_eq in Hr2.
  replace (with_refcount _ _) with (with_refcount (refcount b + 0) b) in Hr2.
  2: { unfold with_refcount, with_state. simpl. f_equal. rewrite Z.mod_small by lia. lia. }
  apply (rep_cst _ _ _ _ _ (held_add held p 0)) in Hr2 as [Hc2 Hcas2].
  2: { eapply inv_update; try done; [apply Hc|simpl; lia..]. }
  split; [done|]. split; [congruence|]. split; [by rewrite app_nil_r, Hbuf2|exact Hc2].
Qed.

(** [c'] is [c] after item [p] has been touched, and maybe handed to the
    maintainer ([q]). *)
Definition bumps (c : cache) (m : gmap (list Z) Z) (B : gmap Z item) (held : Z -> Z) (p : Z) (b : item)
    (r : outcome cache) : Prop :=
  exists c' L' b' (q : bool), r = Ret c' /\ cas_id c' = cas_id c /\
    bump_buf c' = bump_buf c ++ (if q then [p] else []) /\
    touched (with_refcount (refcount b + if q then 1 else 0) b) b' /\
    cst c' m L' (<[p := b']> B) (held_add held p (if q then 1 else 0)).

Lemma touched_count b b' d : touched b b' -> touched (with_refcount (refcount b + d) b) (with_refcount (refcount b' + d) b').
Proof. intros []. split; try done. simpl. by rewrite to_ref0. Qed.

Lemma cst_zero c m L B held p : cst c m L B held -> cst c m L B (held_add held p 0).
Proof.
  intros [Hr Hi]. split; [done|]. eapply inv_ext; [|done]. intros q. unfold held_add. case_decide; lia.
Qed.

Lemma count_zero b : with_refcount (refcount b + 0) b = b.
Proof. rewrite Z.add_0_r. by destruct b. Qed.

Lemma touches_bumps c m B held p b r : touches c m B held p b r -> frame c r -> bumps c m B held p b r.
Proof.
  intros (c' & L' & b' & E & Hcas & Ht & Hc) Hf. exists c', L', b', false.
  split; [done|]. split; [done|]. split; [by rewrite app_nil_r, (Hf c')|].
  split; [by rewrite count_zero|by apply cst_zero].
Qed.

Lemma op_bump c m L B held p b room :
  cst c m L B held -> B !! p = Some b -> refcount b + 1 < 2 ^ 16 ->
  bumps c m B held p b (do_item_bump settings now c p room).
Proof.
  intros Hc Hb Hn. pose proof Hc as [Hr Hi].
  destruct (rep_item _ _ _ _ _ _ _ Hr Hb) as (it & Hit & Hg & Eb).
  unfold do_item_bump. rewrite Hg. cbn [obind].
  assert (forall f, f = ITEM_ACTIVE \/ f = ITEM_FETCHED -> exists c1, upd c p (set_flag f) = Ret c1 /\
    cas_id c1 = cas_id c /\ bump_buf c1 = bump_buf c /\ cst c1 m L (<[p := set_flag f b]> B) held) as Hset.
  { intros f Hf. destruct (op_touched c m L B held p b (set_flag f)) as (c1 & E & ? & ?); [done|done|auto with mcitems..|].
    exists c1. split_and!; [done|done| |done]. exact (frame_upd _ _ _ _ E). }
  destruct (lru_segmented settings).
  2: { destruct (Hset ITEM_FETCHED) as (c1 & -> & Hcas & Hbuf & Hc1); [by right|]. cbn [obind].
    apply touches_bumps; [|by eapply frame_same, update_frame].
    apply (touches_then c c1 m B held p b (set_flag ITEM_FETCHED b)); [done|auto with mcitems|].
    by eapply op_update; [|apply lookup_insert_eq]. }
  destruct (has it ITEM_ACTIVE); [apply touches_bumps; [by eapply touches_none|apply frame_ret]|].
  destruct (has it ITEM_FETCHED); simpl negb; cbn iota.
  2: { apply touches_bumps; [|apply frame_upd]. eapply touches_upd; [done|done|auto with mcitems..]. }
  destruct (Hset ITEM_ACTIVE) as (c1 & -> & Hcas & Hbuf & Hc1); [by left|]. cbn [obind].
  pose proof (lookup_insert_eq B p (set_flag ITEM_ACTIVE b)) as Hb1.
  destruct (ITEM_lruid it =? COLD_LRU); simpl negb; cbn iota.
  2: { apply touches_bumps; [|by eapply frame_same, frame_upd].
    apply (touches_then c c1 m B held p b (set_flag ITEM_ACTIVE b)); [done|auto with mcitems|].
    eapply touches_upd; [done|done|auto with mcitems..]. }
  destruct (op_async c1 m L _ held p _ room Hc1 Hb1 Hn) as (c2 & -> & Hcas2 & Hbuf2 & Hc2). cbn [obind].
  rewrite insert_insert_eq in Hc2. destruct room.
  - eexists c2, L, _, true. split_and!; [done|congruence|congruence| |exact Hc2].
    apply (touched_count b (set_flag ITEM_ACTIVE b) 1). apply touched_set_flag. by left.
  - destruct (op_touched c2 m L _ _ p _ (clear_flag ITEM_ACTIVE) Hc2 (lookup_insert_eq _ _ _)) as (c3 & E3 & Hcas3 & Hc3);
      [auto with mcitems..|]. rewrite E3. rewrite insert_insert_eq in Hc3.
    eexists c3, L, _, false. split_and!; [done|congruence| | |exact Hc3].
    + rewrite (frame_upd _ _ _ _ E3). congruence.
    + eapply touched_trans; [|apply touched_clear_flag; by left].
      apply (touched_count b (set_flag ITEM_ACTIVE b) 0). apply touched_set_flag. by left.
Qed.
(** Whether [do_item_get] throws the item away. *)
Definition is_stale (b : item) : bool :=
  item_is_flushed settings now b || negb (exptime b =? 0) && (exptime b <=? now).

(** A lookup of an unbound key, of an item that is out of date, and of one
    that is not. *)
Lemma get_none c m L B held k upd queued :
  cst c m L B held -> m !! k = None ->
  do_item_get settings now c k (hash k) upd queued = Ret (c, 0).
Proof.
  intros [Hr _] Hk. unfold do_item_get. rewrite (find_ok hash (mem c) m k) by apply Hr. by rewrite Hk.
Qed.

Lemma get_start c m L B held k p b :
  cst c m L B held -> m !! k = Some p -> B !! p = Some b -> refcount b + 1 < 2 ^ 16 ->
  exists c1, refcount_incr c p = Ret c1 /\ cas_id c1 = cas_id c /\ p <> 0 /\
    cst c1 m L (<[p := with_refcount (refcount b + 1) b]> B) (held_add held p 1) /\
    key b = k /\ assoc_find (mem c) k (hash k) = Ret p /\
    exists it, getit c1 p = Ret it /\ with_refcount (refcount b + 1) b = strip it.
Proof.
  intros Hc Hk Hb Hn. pose proof Hc as [Hr Hi]. pose proof (in_item _ _ _ _ Hi p b Hb) as [].
  destruct (op_incr c m L B held p b) as (c1 & Hinc & Hcas & Hc1); [done..|].
  exists c1. split_and!; [done..| | |].
  - destruct (bound_key _ _ _ _ _ _ _ Hr Hk) as (x & Hx & <-). congruence.
  - rewrite (find_ok hash (mem c) m k) by apply Hr. by rewrite Hk.
  - destruct (rep_item _ _ _ _ _ p _ (cs_rep _ _ _ _ _ Hc1) (lookup_insert_eq _ _ _)) as (it & _ & Hg & E).
    by exists it.
Qed.

Lemma get_stale c m L B held k p b upd queued :
  cst c m L B held -> m !! k = Some p -> B !! p = Some b -> refcount b + 1 < 2 ^ 16 -> is_stale b = true ->
  exists c' L' B', do_item_get settings now c k (hash k) upd queued = Ret (c', 0) /\
    cas_id c' = cas_id c /\ bump_buf c' = bump_buf c /\ cst c' (delete k m) L' B' held /\
    forall q, q <> p -> B' !! q = B !! q.
Proof.
  intros Hc Hk Hb Hn Hst.
  destruct (get_start c m L B held k p b) as (c1 & Hinc & Hcas & Hpz & Hc1 & Hkey & Hf & it & Hg & Eb); [done|done|done|lia|].
  pose proof (frame_incr c p c1 Hinc) as Hbuf.
  unfold do_item_get. rewrite Hf. cbn [obind]. rewrite (proj2 (Z.eqb_neq _ _)) by done.
  rewrite Hinc. cbn [obind]. rewrite Hg. cbn [obind].
  assert (item_is_flushed settings now it || negb (exptime it =? 0) && (exptime it <=? now) = true) as ->.
  { rewrite <- Hst. change (is_stale (strip it) = is_stale b). by rewrite <- Eb. }
  set (b1 := with_refcount (refcount b + 1) b) in *.
  pose proof (in_item _ _ _ _ (cs_inv _ _ _ _ _ Hc) p b Hb) as Hio.
  assert (0 <= held p) as Hh by apply Hio.
  assert (has b1 ITEM_LINKED = true) as Hl by (apply Hio; by rewrite Hkey).
  destruct (op_unlink c1 m L _ _ p b1 Hc1 (lookup_insert_eq _ _ _)) as (c2 & L2 & Hu & Hcas2 & Hc2);
    [rewrite held_add_eq; lia|]. change (key b1) with (key b) in *.
  rewrite Hl, Hkey in *. rewrite Hu. cbn [obind]. rewrite insert_insert_eq in Hc2.
  destruct (op_remove c2 _ _ _ _ p _ Hc2 (lookup_insert_eq _ _ _)) as (c3 & E3 & Hcas3 & Hc3);
    [rewrite held_add_eq; lia|].
  pose proof (frame_unlink c1 p _ c2 Hu) as Hbuf2. pose proof (frame_remove c2 p c3 E3) as Hbuf3.
  rewrite E3. cbn [obind]. eexists _, _, _. split; [done|]. split; [congruence|]. split; [congruence|]. split.
  - by apply cst_back in Hc3.
  - intros q Hq. unfold dropped. case_decide.
    + by rewrite lookup_delete_ne, lookup_insert_ne.
    + by rewrite !lookup_insert_ne.
Qed.

Lemma get_fresh c m L B held k p b upd queued :
  cst c m L B held -> m !! k = Some p -> B !! p = Some b -> refcount b + 2 < 2 ^ 16 -> is_stale b = false ->
  exists c' L' b' (q : bool), do_item_get settings now c k (hash k) upd queued = Ret (c', p) /\
    cas_id c' = cas_id c /\ bump_buf c' = bump_buf c ++ (if q then [p] else []) /\
    touched (with_refcount (refcount b + 1 + if q then 1 else 0) b) b' /\
    (upd = false -> q = false /\ b' = with_refcount (refcount b + 1) b) /\
    cst c' m L' (<[p := b']> B) (held_add (held_add held p 1) p (if q then 1 else 0)).
Proof.
  intros Hc Hk Hb Hn Hst.
  destruct (get_start c m L B held k p b) as (c1 & Hinc & Hcas & Hpz & Hc1 & Hkey & Hf & it & Hg & Eb); [done|done|done|lia|].
  pose proof (frame_incr c p c1 Hinc) as Hbuf.
  unfold do_item_get. rewrite Hf. cbn [obind]. rewrite (proj2 (Z.eqb_neq _ _)) by done.
  rewrite Hinc. cbn [obind]. rewrite Hg. cbn [obind].
  assert (item_is_flushed settings now it || negb (exptime it =? 0) && (exptime it <=? now) = false) as ->.
  { rewrite <- Hst. change (is_stale (strip it) = is_stale b). by rewrite <- Eb. }
  destruct upd.
  - destruct (op_bump c1 m L _ _ p _ queued Hc1 (lookup_insert_eq _ _ _)) as (c2 & L2 & b2 & q & -> & Hcas2 & Hbuf2 & Ht & Hc2);
      [simpl; lia|].
    cbn [obind]. rewrite insert_insert_eq in Hc2. exists c2, L2, b2, q. split_and!; try done; congruence.
  - cbn [obind]. eexists _, _, _, false. split; [done|]. split; [done|]. split; [by rewrite app_nil_r|].
    split; [rewrite Z.add_0_r; apply touched_refl|]. split; [done|by apply cst_zero].
Qed.

(** Looking without bumping. *)
Lemma get_peek c m L B held k p b :
  cst c m L B held -> m !! k = Some p -> B !! p = Some b -> refcount b + 2 < 2 ^ 16 -> is_stale b = false ->
  exists c' L', do_item_get settings now c k (hash k) false false = Ret (c', p) /\
    cst c' m L' (<[p := with_refcount (refcount b + 1) b]> B) (held_add held p 1).
Proof.
  intros Hc Hk Hb Hn Hst.
  destruct (get_fresh c m L B held k p b false false) as (c1 & L1 & b1 & q & E & _ & _ & _ & Hq & Hc1); [done..|].
  destruct (Hq eq_refl) as [-> ->]. exists c1, L1. split; [done|]. destruct Hc1 as [Hr Hi]. split; [done|].
  eapply inv_ext; [|exact Hi]. intros x. unfold held_add. repeat case_decide; lia.
Qed.

(** ** Replacing and allocating *)

Lemma op_replace c m L B held p q b b' :
  cst c m L B held -> B !! p = Some b -> B !! q = Some b' -> p <> q ->
  has b ITEM_LINKED = true -> has b' ITEM_LINKED = false -> key b' = key b ->
  0 < held p -> refcount b' + 1 < 2 ^ 16 ->
  exists c' L', do_item_replace settings now c p q (hash (key b)) = Ret c' /\
    cas_id c' = next_cas settings b' (cas_id c) /\
    cst c' (<[key b := q]> (delete (key b) m)) L'
      (<[q := linked_body settings now (cas_id c) b']> (<[p := unlinked_body b]> B)) held.
Proof.
  intros Hc Hb Hb' Hne Hl Hl' Hk Hh Hn. pose proof Hc as [Hr Hi].
  pose proof (in_item _ _ _ _ Hi p b Hb) as [].
  destruct (rep_item _ _ _ _ _ _ _ Hr Hb) as (it & Hit & Hg & Eb).
  unfold do_item_replace. rewrite Hg. cbn [obind]. change (has it) with (has (strip it)).
  rewrite <- Eb, io_slab0. cbn [negb assert obind].
  destruct (op_unlink c m L B held p b Hc Hb Hh) as (c1 & L1 & -> & Hcas1 & Hc1). cbn [obind].
  rewrite Hl in Hc1.
  destruct (op_link settings now c1 _ L1 _ held q b' Hc1) as (c2 & Hlk & Hcas2 & Hc2);
    [by rewrite lookup_insert_ne|done|by rewrite Hk, lookup_delete_eq|done|].
  rewrite Hk in *. rewrite Hcas1 in *. exists c2. eexists. split; [exact Hlk|]. split; [done|exact Hc2].
Qed.

Lemma op_evict c m L B held p b :
  cst c m L B held -> B !! p = Some b -> has b ITEM_LINKED = true -> refcount b + 1 < 2 ^ 16 ->
  exists c' L' B', evict hash c p = Ret c' /\ cas_id c' = cas_id c /\
    cst c' (delete (key b) m) L' B' held /\ forall q, q <> p -> B' !! q = B !! q.
Proof.
  intros Hc Hb Hl Hn. pose proof Hc as [Hr Hi]. pose proof (in_item _ _ _ _ Hi p b Hb) as [].
  destruct (rep_item _ _ _ _ _ _ _ Hr Hb) as (it & Hit & Hg & Eb).
  unfold evict. rewrite Hg. cbn [obind].
  destruct (op_incr c m L B held p b) as (c1 & -> & Hcas1 & Hc1); [done..|]. cbn [obind].
  destruct (op_unlink c1 m L _ _ p _ Hc1 (lookup_insert_eq _ _ _)) as (c2 & L2 & Hu & Hcas2 & Hc2);
    [rewrite held_add_eq; lia|].
  change (key (with_refcount (refcount b + 1) b)) with (key b) in *.
  change (has (with_refcount (refcount b + 1) b)) with (has b) in *.
  rewrite Hl in Hc2. replace (key it) with (key b) by by rewrite Eb. rewrite Hu. cbn [obind].
  rewrite insert_insert_eq in Hc2.
  destruct (op_remove c2 _ _ _ _ p _ Hc2 (lookup_insert_eq _ _ _)) as (c3 & -> & Hcas3 & Hc3);
    [rewrite held_add_eq; lia|].
  eexists _, _, _. split; [done|]. split; [congruence|]. split.
  - by apply cst_back in Hc3.
  - intros q Hq. unfold dropped. case_decide.
    + by rewrite lookup_delete_ne, lookup_insert_ne.
    + by rewrite !lookup_insert_ne.
Qed.

(** The items that may be evicted while the item lock of key [k] is held. *)
Definition evictable (k : list Z) (B : gmap Z item) (p : Z) : Prop :=
  exists b, B !! p = Some b /\ has b ITEM_LINKED = true /\ key b <> k /\ refcount b + 1 < 2 ^ 16.

Lemma op_pull ps k c m L B held :
  cst c m L B held -> NoDup ps -> Forall (evictable k B) ps ->
  exists c' m' L' B',
    foldl (fun r p => let* c := r in evict hash c p) (Ret c) ps = Ret c' /\
    cas_id c' = cas_id c /\ cst c' m' L' B' held /\ m' ⊆ m /\ m' !! k = m !! k /\
    forall q, q ∉ ps -> B' !! q = B !! q.
Proof.
  revert c m L B. induction ps as [|p ps IH]; intros c m L B Hc Hnd Hev; simpl.
  { exists c, m, L, B. by split_and!. }
  apply NoDup_cons in Hnd as [Hp Hnd]. apply Forall_cons in Hev as [(b & Hb & Hl & Hk & Hn) Hev].
  destruct (op_evict c m L B held p b) as (c1 & L1 & B1 & -> & Hcas1 & Hc1 & HB1); [done..|].
  destruct (IH c1 _ L1 B1 Hc1 Hnd) as (c2 & m2 & L2 & B2 & -> & Hcas2 & Hc2 & Hsub & Hk2 & HB2).
  { apply Forall_forall. intros q Hq. rewrite Forall_forall in Hev.
    destruct (Hev q Hq) as (x & Hx & ?). exists x. rewrite HB1; [done|]. by intros ->. }
  exists c2, m2, L2, B2. split_and!; [done|congruence|done| | |].
  - etrans; [done|apply delete_subseteq].
  - by rewrite Hk2, lookup_delete_ne.
  - intros q [Hqp Hq]%not_elem_of_cons. by rewrite HB2, HB1.
Qed.
(** What [do_item_alloc] hands out. *)
Record new_item (k : list Z) (flags exp nb : Z) (b : item) : Prop := {
  nw_key : key b = k;
  nw_suffix : suffix b = flags;
  nw_exptime : exptime b = exp;
  nw_nbytes : nbytes b = nb;
  nw_ref : refcount b = 1;
  nw_linked : has b ITEM_LINKED = false;
  nw_slabbed : has b ITEM_SLABBED = false;
  nw_cas : has b ITEM_CAS = use_cas settings;
  nw_cflags : has b ITEM_CFLAGS = negb (flags =? 0);
  nw_strip : strip b = b
}.

(** [r] is the result of an allocation on behalf of key [k]: no item, or a new
    one with a reference to it; other keys may have lost theirs. *)
Definition allocates (c : cache) (m : gmap (list Z) Z) (B : gmap Z item) (held : Z -> Z)
    (k : list Z) (flags exp nb : Z) (s : slot) (r : outcome (cache * Z)) : Prop :=
  exists c' p m' L' B', r = Ret (c', p) /\ cas_id c' = cas_id c /\ m' ⊆ m /\ m' !! k = m !! k /\
    (forall q, q ∉ evicted s -> q <> p \/ p = 0 -> B' !! q = B !! q) /\
    ((p = 0 /\ cst c' m' L' B' held) \/
     (p = address s /\ p <> 0 /\ (forall k, m' !! k <> Some p) /\
      exists b, B' !! p = Some b /\ new_item k flags exp nb b /\
        length (data b) = Nat.min (Z.to_nat nb) (length (data (garbage s))) /\
        cst c' m' L' B' (held_add held p 1))).

(** The slot is not an item's, once the evicted ones are gone. *)
Definition slot_ok (k : list Z) (c : cache) (B : gmap Z item) (s : slot) : Prop :=
  NoDup (evicted s) /\ Forall (evictable k B) (evicted s) /\
  forall c', foldl (fun r p => let* c := r in evict hash c p) (Ret c) (evicted s) = Ret c' ->
    items (mem c') !! address s = None.

Lemma op_alloc c m L B held k flags exp nb s :
  cst c m L B held -> slot_ok k c B s ->
  allocates c m B held k flags exp nb s (do_item_alloc hash settings now c k flags exp nb s).
Proof.
  intros Hc (Hnd & Hev & Hfree). unfold do_item_alloc.
  assert (allocates c m B held k flags exp nb s (Ret (c, 0))) as Hno.
  { exists c, 0, m, L, B. split_and!; try done. by left. }
  case_match; [done|]. case_match eqn:Hh. case_match; [done|].
  unfold do_item_alloc_pull.
  destruct (op_pull (evicted s) k c m L B held Hc Hnd Hev) as (c' & m' & L' & B' & E & Hcas & Hc' & Hsub & Hk & HB).
  rewrite E. cbn [obind]. destruct (Z.eqb_spec (address s) 0) as [Hz|Hz].
  { exists c', 0, m', L', B'. split_and!; try done; [by intros; apply HB|by left]. }
  specialize (Hfree c' E).
  match goal with |- context [<[address s := ?x]> _] => set (b := x) end.
  assert (B' !! address s = None) as Hb0.
  { destruct Hc' as [[_ _ <- _] _]. by rewrite lookup_fmap, Hfree. }
  assert (forall k, m' !! k <> Some (address s)) as Hun.
  { intros k' Hk'. destruct (bound_key _ _ _ _ _ _ _ (cs_rep _ _ _ _ _ Hc') Hk') as (x & Hx & _). congruence. }
  assert (new_item k flags exp nb b) as Hnew.
  { injection Hh as <- <-. split; try done; unfold has, b; simpl;
      destruct (slab_chunk_size_max settings <? _), (use_cas settings), (flags =? 0); done. }
  eexists _, (address s), m', L', (<[address s := b]> B'). split; [done|]. split; [done|]. split; [done|].
  split; [done|]. split.
  { intros q Hq [Hne|Hz']; [|done]. rewrite lookup_insert_ne by done. by apply HB. }
  right. split; [done|]. split; [done|]. split; [done|]. exists b. split; [apply lookup_insert_eq|].
  split; [done|]. split; [unfold b; simpl; by rewrite length_take|]. destruct Hc' as [Hr Hi]. destruct Hnew. split.
  - apply new_rep; [exact Hr|done|done].
  - apply inv_new; done.
Qed.
End reading.

(** ** Any sequence of calls *)

(** The caches when memcached starts. *)
Definition boot (n : Z) : cache :=
  {| mem := {| items := ∅; tab := assoc_init n |}; heads := ∅; tails := ∅; sizes := ∅;
     sizes_bytes := ∅; cas_id := 0; curr_bytes := 0; curr_items := 0; total_items := 0;
     bump_buf := [] |}.

Definition item_at (c : cache) (p : Z) (it : item) : Prop := items (mem c) !! p = Some it.

(** The entries of the bump buffers that refer to item [p], and all references
    to it: the callers' and these. *)
Definition bumped (c : cache) (p : Z) : Z := Z.of_nat (length (filter (fun q => q = p) (bump_buf c))).
Definition total (c : cache) (held : Z -> Z) (p : Z) : Z := held p + bumped c p.

(** The calls, and the LRU maintainer's turns on the bump buffers, with the
    references they give to the caller and take from it.  The settings and the
    time may be others at each.  Few enough references are held that no 16-bit
    count wraps. *)
Inductive icall : cache * (Z -> Z) -> cache * (Z -> Z) -> Prop :=
| I_get settings now c held k upd room c' p :
    (forall p, total c held p < 2 ^ 16 - 3) ->
    do_item_get settings now c k (hash k) upd room = Ret (c', p) ->
    icall (c, held) (c', if p =? 0 then held else held_add held p 1)
| I_alloc settings now c held k flags exp nb s c' p :
    slot_ok k c (strip <$> items (mem c)) s ->
    do_item_alloc hash settings now c k flags exp nb s = Ret (c', p) ->
    icall (c, held) (c', if p =? 0 then held else held_add held p 1)
| I_remove c held p c' :
    0 < held p -> do_item_remove c p = Ret c' -> icall (c, held) (c', held_add held p (-1))
| I_link settings now c held p it c' :
    0 < held p -> total c held p < 2 ^ 16 - 3 -> item_at c p it -> has it ITEM_LINKED = false ->
    assoc_find (mem c) (key it) (hash (key it)) = Ret 0 ->
    do_item_link settings now c p (hash (key it)) = Ret c' -> icall (c, held) (c', held)
| I_unlink c held p it c' :
    0 < held p -> item_at c p it -> do_item_unlink c p (hash (key it)) = Ret c' ->
    icall (c, held) (c', held)
| I_replace settings now c held p q it it' c' :
    0 < held p -> total c held q < 2 ^ 16 - 3 -> p <> q -> item_at c p it -> item_at c q it' ->
    has it ITEM_LINKED = true -> has it' ITEM_LINKED = false -> key it' = key it ->
    do_item_replace settings now c p q (hash (key it)) = Ret c' -> icall (c, held) (c', held)
| I_update settings now c held p it c' :
    item_at c p it -> do_item_update settings now c p = Ret c' -> icall (c, held) (c', held)
| I_bump settings now c held i c' :
    lru_maintainer_bump settings now c i = Ret c' -> icall (c, held) (c', held).

Definition consistent (c : cache) (held : Z -> Z) : Prop := exists m L B, cst c m L B held.

Lemma boot_consistent n : 0 <= n <= HASHPOWER_MAX -> consistent (boot n) (fun _ => 0).
Proof.
  intros Hn. exists ∅, (fun _ => []), ∅. split; [split; [by apply init_refines| |done|done]|].
  - split; simpl; try done; [intros; apply NoDup_nil_2|]. by intros id q ?%elem_of_nil.
  - split; [done| |done]. by intros id p ?%elem_of_nil.
Qed.

Lemma consistent_ext c held held' : (forall p, held' p = held p) -> consistent c held -> consistent c held'.
Proof. intros E (m & L & B & Hr & Hi). exists m, L, B. split; [done|by eapply inv_ext]. Qed.

(** How the references add up. *)
Lemma bumped_pos c p : 0 <= bumped c p.
Proof. unfold bumped. lia. Qed.

Lemma bumped_same c c' p : bump_buf c' = bump_buf c -> bumped c' p = bumped c p.
Proof. unfold bumped. by intros ->. Qed.

Lemma total_same c c' held p : bump_buf c' = bump_buf c -> total c' held p = total c held p.
Proof. intros E. unfold total. by rewrite (bumped_same c c'). Qed.

Lemma total_add c held p d q : total c (held_add held p d) q = held_add (total c held) p d q.
Proof. unfold total, held_add. case_decide; lia. Qed.

Lemma total_push c c' held p (b : bool) q :
  bump_buf c' = bump_buf c ++ (if b then [p] else []) ->
  total c' held q = held_add (total c held) p (if b then 1 else 0) q.
Proof.
  intros E. unfold total, bumped, held_add. rewrite E, filter_app, length_app.
  destruct b; simpl; [|case_decide; lia]. rewrite filter_cons, filter_nil.
  repeat case_decide; simpl; try congruence; lia.
Qed.

Lemma bumped_delete c i p q :
  bump_buf c !! i = Some p -> bumped (set_bumps c (delete i (bump_buf c))) q = held_add (bumped c) p (-1) q.
Proof.
  intros Hi. unfold bumped, held_add. cbn [bump_buf set_bumps].
  assert (forall x, length (filter (fun q => q = x) (bump_buf c))
    = length (filter (fun q => q = x) (take i (bump_buf c) ++ p :: drop (S i) (bump_buf c)))) as ->
    by (intros x; by rewrite take_drop_middle).
  rewrite delete_take_drop, !filter_app, !length_app, filter_cons.
  repeat case_decide; simpl; try congruence; lia.
Qed.

Lemma refcount_few c m L B held p b :
  cst c m L B held -> B !! p = Some b -> held p < 2 ^ 16 - 3 -> refcount b + 2 < 2 ^ 16.
Proof.
  intros [_ Hi] Hb Hh. rewrite (io_ref _ _ _ _ _ (in_item _ _ _ _ Hi p b Hb)). case_match; lia.
Qed.

Lemma item_at_body c m L B held p it :
  cst c m L B held -> item_at c p it -> B !! p = Some (strip it).
Proof. intros [Hr _] Hit. by apply (rep_lookup _ _ _ _ _ _ _ Hr). Qed.

(** A lookup in a consistent state. *)
Lemma get_consistent settings now c m L B held k upd room :
  cst c m L B (total c held) -> (forall p, total c held p < 2 ^ 16 - 3) ->
  exists c' p, do_item_get settings now c k (hash k) upd room = Ret (c', p) /\
    consistent c' (total c' (if p =? 0 then held else held_add held p 1)).
Proof.
  intros Hc Hfew. destruct (m !! k) as [p|] eqn:Hk.
  - destruct (bound_key _ _ _ _ _ _ _ (cs_rep _ _ _ _ _ Hc) Hk) as (b & Hb & _).
    assert (p <> 0) as Hpz by apply (in_item _ _ _ _ (cs_inv _ _ _ _ _ Hc) p b Hb).
    pose proof (refcount_few _ _ _ _ _ _ _ Hc Hb (Hfew p)) as Hn.
    destruct (is_stale settings now b) eqn:Hst.
    + destruct (get_stale settings now c m L B (total c held) k p b upd room) as (c1 & L1 & B1 & -> & _ & Hbuf & Hc1 & _); [done..|lia|done|].
      eexists _, _. split; [done|]. eapply consistent_ext; [|by eexists _, _, _].
      intros q. by apply total_same.
    + destruct (get_fresh settings now c m L B (total c held) k p b upd room)
        as (c1 & L1 & b1 & q & -> & _ & Hbuf & _ & _ & Hc1); [done..|].
      eexists _, _. split; [done|]. rewrite (proj2 (Z.eqb_neq _ _)) by done.
      eapply consistent_ext; [|by eexists _, _, _]. intros x. rewrite (total_push c c1 _ p q) by done.
      unfold held_add at 1 3. case_decide; by rewrite total_add.
  - rewrite (get_none settings now c m L B (total c held) k upd room) by done. eexists _, _. split; [done|].
    by eexists _, _, _.
Qed.

(** The maintainer's turn on an entry. *)
Lemma bump_consistent settings now c m L B held i :
  cst c m L B (total c held) -> (forall p, 0 <= held p) ->
  exists c', lru_maintainer_bump settings now c i = Ret c' /\ consistent c' (total c' held) /\
    bump_buf c' = delete i (bump_buf c).
Proof.
  intros Hc Hh. unfold lru_maintainer_bump. destruct (bump_buf c !! i) as [p|] eqn:Hi.
  2: { exists c. split; [done|]. split; [by eexists _, _, _|]. apply lookup_ge_None in Hi.
    by rewrite delete_take_drop, take_ge, drop_ge, app_nil_r by lia. }
  assert (0 < total c held p) as Hp.
  { unfold total. specialize (Hh p).
    pose proof (bumped_delete c i p p Hi) as E. rewrite held_add_eq in E.
    pose proof (bumped_pos (set_bumps c (delete i (bump_buf c))) p). lia. }
  destruct (B !! p) as [b|] eqn:Hb; [|apply (in_none _ _ _ _ (cs_inv _ _ _ _ _ Hc)) in Hb; lia].
  destruct (op_update settings now c m L B (total c held) p b Hc Hb) as (c1 & L1 & b1 & E1 & _ & _ & Hc1).
  rewrite E1. cbn [obind].
  destruct (op_remove c1 m L1 _ _ p b1 Hc1 (lookup_insert_eq _ _ _) Hp) as (c2 & E2 & _ & Hc2).
  rewrite E2. cbn [obind]. eexists. split; [done|].
  assert (bump_buf c2 = bump_buf c) as Hbuf
    by (rewrite (frame_remove c1 p c2), (update_frame settings now c p c1); done).
  split; [|simpl; by rewrite Hbuf].
  eapply consistent_ext; [|eexists _, _, _; by apply cst_bumps]. intros q. unfold total.
  rewrite bumped_delete with (p := p) by (by rewrite Hbuf). unfold held_add, total.
  rewrite (bumped_same c c2) by done. case_decide; lia.
Qed.

(** All of them: the buffers are empty again, every reference in them given back. *)
Lemma bumps_consistent settings now c m L B held n :
  cst c m L B (total c held) -> (forall p, 0 <= held p) ->
  exists c', lru_maintainer_bumps settings now c n = Ret c' /\ consistent c' (total c' held) /\
    bump_buf c' = drop n (bump_buf c).
Proof.
  revert c m L B. induction n as [|n IH]; intros c m L B Hc Hh; cbn [lru_maintainer_bumps].
  { exists c. split; [done|]. split; [by eexists _, _, _|done]. }
  destruct (bump_consistent settings now c m L B held 0 Hc Hh) as (c1 & -> & (m1 & L1 & B1 & Hc1) & Hbuf).
  cbn [obind]. destruct (IH c1 m1 L1 B1 Hc1 Hh) as (c2 & -> & Hc2 & Hbuf2). exists c2. split_and!; [done..|].
  rewrite Hbuf2, Hbuf. destruct (bump_buf c); [exact (drop_nil n)|done].
Qed.

(** A reachable state: the counts are right, and callers owe nothing. *)
Definition sound (s : cache * (Z -> Z)) : Prop :=
  consistent s.1 (total s.1 s.2) /\ forall p, 0 <= s.2 p.

Lemma icall_held s s' : icall s s' -> (forall p, 0 <= s.2 p) -> forall p, 0 <= s'.2 p.
Proof.
  intros Hs Hh q. specialize (Hh q). destruct Hs; simpl in *; unfold held_add; repeat case_match; try case_decide; subst; lia.
Qed.

(** A call that leaves the buffers alone. *)
Lemma total_consistent c c' held held' :
  consistent c' held' -> (forall p, held' p = total c held p) -> bump_buf c' = bump_buf c -> consistent c' (total c' held).
Proof. intros Hc E Hbuf. eapply consistent_ext; [|done]. intros p. by rewrite E, (total_same c c'). Qed.

Lemma icall_consistent s s' : icall s s' -> sound s -> sound s'.
Proof.
  intros Hs [(m & L & B & Hc) Hh]. split; [|by eapply icall_held].
  destruct Hs as [settings now c held k u room c' p Hfew E|settings now c held k flags exp nb s c' p Hslot E
    |c held p c' Hp E|settings now c held p it c' Hp Hfew Hat Hl Hf E|c held p it c' Hp Hat E
    |settings now c held p q it it' c' Hp Hfew Hne Hat Hat' Hl Hl' Hk E
    |settings now c held p it c' Hat E|settings now c held i c' E]; simpl in *;
    try pose proof (item_at_body _ _ _ _ _ _ _ Hc Hat) as Hb;
    try change (key it) with (key (strip it)) in E;
    try assert (0 < total c held p) as Htp by (unfold total; pose proof (bumped_pos c p); lia).
  - destruct (get_consistent settings now c m L B held k u room Hc) as (c1 & p1 & E1 & Hc1); [done|].
    rewrite E in E1. by simplify_eq.
  - rewrite (rp_bodies _ _ _ _ _ (cs_rep _ _ _ _ _ Hc)) in Hslot. pose proof (frame_alloc _ _ _ _ _ _ _ _ _ _ E) as Hbuf.
    destruct (op_alloc settings now c m L B _ k flags exp nb s Hc Hslot) as
      (c1 & p1 & m1 & L1 & B1 & E1 & _ & _ & _ & _ & Hp); rewrite E in E1; simplify_eq.
    destruct Hp as [[-> Hc1]|(_ & Hz & _ & b & _ & _ & _ & Hc1)].
    + eapply total_consistent; [by eexists _, _, _|done|done].
    + rewrite (proj2 (Z.eqb_neq _ _)) by done. eapply total_consistent; [by eexists _, _, _| |done].
      intros q. by rewrite total_add.
  - destruct (B !! p) as [b|] eqn:Hb; [|apply (in_none _ _ _ _ (cs_inv _ _ _ _ _ Hc)) in Hb; lia].
    destruct (op_remove c m L B (total c held) p b) as (c1 & E1 & _ & Hc1); [done..|]. pose proof (frame_remove _ _ _ E).
    rewrite E in E1. simplify_eq. eapply total_consistent; [by eexists _, _, _| |done].
    intros q. by rewrite total_add.
  - pose proof (frame_link _ _ _ _ _ _ E) as Hbuf.
    destruct (op_link settings now c m L B _ p (strip it) Hc Hb) as (c1 & E1 & _ & Hc1); [done| | |].
    + rewrite (find_ok hash (mem c) m) in Hf by apply Hc. injection Hf as Hf.
      change (key (strip it)) with (key it). destruct (m !! key it) as [q|] eqn:Hq; [|done].
      simpl in Hf. subst q. exfalso.
      destruct (bound_key _ _ _ _ _ _ _ (cs_rep _ _ _ _ _ Hc) Hq) as (x & Hx & _).
      by apply (in_item _ _ _ _ (cs_inv _ _ _ _ _ Hc) 0 x Hx).
    + pose proof (refcount_few _ _ _ _ _ _ _ Hc Hb Hfew). lia.
    + rewrite E in E1. simplify_eq. eapply total_consistent; [by eexists _, _, _|done|done].
  - pose proof (frame_unlink _ _ _ _ E) as Hbuf.
    destruct (op_unlink c m L B _ p (strip it) Hc Hb Htp) as (c1 & L1 & E1 & _ & Hc1).
    rewrite E in E1. simplify_eq. eapply total_consistent; [by eexists _, _, _|done|done].
  - pose proof (item_at_body _ _ _ _ _ _ _ Hc Hat') as Hb'. pose proof (frame_replace _ _ _ _ _ _ _ E) as Hbuf.
    destruct (op_replace settings now c m L B _ p q (strip it) (strip it') Hc Hb Hb') as (c1 & L1 & E1 & _ & Hc1);
      [done..|pose proof (refcount_few _ _ _ _ _ _ _ Hc Hb' Hfew); lia|].
    rewrite E in E1. simplify_eq. eapply total_consistent; [by eexists _, _, _|done|done].
  - pose proof (update_frame _ _ _ _ _ E) as Hbuf.
    destruct (op_update settings now c m L B _ p (strip it) Hc Hb) as (c1 & L1 & b1 & E1 & _ & _ & Hc1).
    rewrite E in E1. simplify_eq. eapply total_consistent; [by eexists _, _, _|done|done].
  - destruct (bump_consistent settings now c m L B held i Hc Hh) as (c1 & E1 & Hc1 & _).
    rewrite E in E1. by simplify_eq.
Qed.

Lemma calls_consistent n c held :
  0 <= n <= HASHPOWER_MAX -> rtc icall (boot n, fun _ => 0) (c, held) -> sound (c, held).
Proof.
  intros Hn Hrun. apply (rtc_invariant _ sound _ (c, held)) in Hrun; [done| |].
  - intros s s' ? ?. by eapply icall_consistent.
  - split; [|done]. by apply boot_consistent.
Qed.

(** C11.  Whatever calls are made, whatever the settings and the time are at
    each, an item is in the hash table under its key and in the LRU queue of
    its class exactly when it is linked; its count is the number of references
    to it, the table's, the callers' and those of the entries in the bump
    buffers, and nothing is freed while one is left.  No call fails an assertion
    or follows a stale pointer: in particular no later lookup, no release of a
    reference that is held, and no round of the LRU maintainer over the
    buffers, which leaves them empty of the entries it saw to. *)
Theorem items_consistent n c held :
  0 <= n <= HASHPOWER_MAX -> rtc icall (boot n, fun _ => 0) (c, held) ->
  exists m L, refines hash (mem c) m /\ queues c L /\
    (forall p it, item_at c p it ->
       refcount it = (if has it ITEM_LINKED then 1 else 0) + held p + bumped c p /\ 1 <= refcount it /\
       (has it ITEM_LINKED = true <-> m !! key it = Some p) /\
       (has it ITEM_LINKED = true <-> p ∈ L (slabs_clsid it))) /\
    (forall p, p ∈ bump_buf c -> exists it, item_at c p it) /\
    (forall p, 0 < held p -> (exists it, item_at c p it) /\ exists c', do_item_remove c p = Ret c') /\
    (forall settings now todo, exists c', lru_maintainer_bumps settings now c todo = Ret c' /\
       bump_buf c' = drop todo (bump_buf c)) /\
    ((forall p, total c held p < 2 ^ 16 - 3) ->
       forall settings now k upd room, exists r, do_item_get settings now c k (hash k) upd room = Ret r).
Proof.
  intros Hn Hrun. destruct (calls_consistent n c held Hn Hrun) as [(m & L & B & Hc) Hh]. simpl in *.
  pose proof Hc as [Hr Hi]. exists m, L. split; [apply Hr|]. split; [apply Hr|].
  assert (forall p, 0 < total c held p -> exists b, B !! p = Some b /\ exists it, item_at c p it) as Hin.
  { intros p Hp. destruct (B !! p) as [b|] eqn:Hb; [|apply (in_none _ _ _ _ Hi) in Hb; lia].
    exists b. split; [done|]. destruct (rep_item _ _ _ _ _ _ _ Hr Hb) as (it & Hit & _). by exists it. }
  split_and!.
  - intros p it Hat. pose proof (item_at_body _ _ _ _ _ _ _ Hc Hat) as Hb.
    destruct (in_item _ _ _ _ Hi p _ Hb) as [? ? ? Href Hpos Ht Hq].
    split_and!; [rewrite <- Z.add_assoc; exact Href|done|done|]. split; [done|].
    intros (x & Hx & Hl)%(in_queue _ _ _ _ Hi). change (has it) with (has (strip it)). congruence.
  - intros p Hp. destruct (Hin p) as (_ & _ & Hit); [|exact Hit]. unfold total, bumped. specialize (Hh p).
    assert (p ∈ filter (fun q => q = p) (bump_buf c)) as Hf by (by apply list_elem_of_filter).
    destruct (filter _ _); [by apply elem_of_nil in Hf|]. simpl. lia.
  - intros p Hp. assert (0 < total c held p) as Htp by (unfold total; pose proof (bumped_pos c p); lia).
    destruct (Hin p Htp) as (b & Hb & Hit). split; [done|].
    destruct (op_remove c m L B (total c held) p b) as (c1 & E1 & _); [done..|by exists c1].
  - intros settings now todo.
    destruct (bumps_consistent settings now c m L B held todo Hc Hh) as (c' & E & _ & Hb). by exists c'.
  - intros Hfew settings now k u room.
    destruct (get_consistent settings now c m L B held k u room) as (c1 & p & E & _); [done..|]. by exists (c1, p).
Qed.
End rep.

(** ** A witness: an item is stored, looked up twice and handed to the maintainer *)

Definition small_settings : settings_t :=
  {| use_cas := true; lru_segmented := true; temp_lru := false; temporary_ttl := 0;
     oldest_live := 0; oldest_cas := 0; slab_chunk_size_max := 512; item_size_max := 1024;
     slab_sizes := [64; 128; 1024] |}.

(** The same with one queue per class: items start in [COLD_LRU]. *)
Definition flat_settings : settings_t :=
  {| use_cas := true; lru_segmented := false; temp_lru := false; temporary_ttl := 0;
     oldest_live := 0; oldest_cas := 0; slab_chunk_size_max := 512; item_size_max := 1024;
     slab_sizes := [64; 128; 1024] |}.

Definition stale_slot (n : nat) : item :=
  {| next := 0; prev := 0; h_next := 0; time := 0; exptime := 0; nbytes := 0; refcount := 1;
     it_flags := 0; slabs_clsid := 0; cas := 0; key := []; suffix := 0; data := replicate n 0 |}.

Definition small_slot (p : Z) : slot := {| evicted := []; address := p; garbage := stale_slot 64 |}.

Definition from_ret {A} (d : A) (r : outcome A) : A := match r with Ret a => a | _ => d end.

Definition small_cache0 : cache := Eval vm_compute in boot 1.
Definition small_cache1 : cache :=
  Eval vm_compute in
    (from_ret (small_cache0, 0)
       (do_item_alloc first_byte flat_settings 100 small_cache0 [97] 0 0 4 (small_slot 10))).1.
Definition small_cache2 : cache :=
  Eval vm_compute in from_ret small_cache0 (do_item_link flat_settings 100 small_cache1 10 97).
Definition small_cache3 : cache :=
  Eval vm_compute in
    (from_ret (small_cache0, 0) (do_item_get small_settings 200 small_cache2 [97] 97 true true)).1.
Definition small_cache4 : cache :=
  Eval vm_compute in
    (from_ret (small_cache0, 0) (do_item_get small_settings 300 small_cache3 [97] 97 true true)).1.

Definition held1 : Z -> Z := held_add (fun _ => 0) 10 1.
Definition held2 : Z -> Z := held_add held1 10 1.
Definition held3 : Z -> Z := held_add held2 10 1.

Lemma small_calls : rtc (icall first_byte) (boot 1, fun _ => 0) (small_cache4, held3).
Proof.
  eapply rtc_l.
  { apply (I_alloc first_byte flat_settings 100 small_cache0 (fun _ => 0) [97] 0 0 4 (small_slot 10) small_cache1 10).
    - split; [apply NoDup_nil_2|]. split; [done|]. intros c' [= <-]. reflexivity.
    - reflexivity. }
  eapply (rtc_l _ _ (small_cache2, held1)).
  { eapply (I_link first_byte flat_settings 100 small_cache1 held1 10 _ small_cache2);
      [reflexivity|vm_compute; reflexivity|reflexivity|reflexivity|reflexivity|reflexivity]. }
  eapply (rtc_l _ _ (small_cache3, held2)).
  { apply (I_get first_byte small_settings 200 small_cache2 held1 [97] true true small_cache3 10); [|reflexivity].
    intros p. unfold total, bumped, held1, held_add. simpl. case_decide; lia. }
  apply rtc_once.
  apply (I_get first_byte small_settings 300 small_cache3 held2 [97] true true small_cache4 10); [|reflexivity].
  intros p. unfold total, bumped, held2, held1, held_add. simpl. repeat case_decide; lia.
Qed.

(** Five references: the table's, three callers' and the maintainer's, which
    gives its one back. *)
Lemma items_consistent_witness :
  0 <= 1 <= HASHPOWER_MAX /\
  (exists it, item_at small_cache4 10 it /\ refcount it = (if has it ITEM_LINKED then 1 else 0) + 3 + 1) /\
  exists c', lru_maintainer_bumps small_settings 400 small_cache4 1 = Ret c' /\ bump_buf c' = [].
Proof.
  split; [vm_compute; split; discriminate|].
  destruct (items_consistent first_byte 1 small_cache4 held3)
    as (m & L & _ & _ & Hit & _ & Hheld & Hbumps & _).
  - vm_compute. split; discriminate.
  - exact small_calls.
  - split.
    + destruct (Hheld 10) as [(it & Hat) _]; [reflexivity|].
      exists it. split; [exact Hat|]. exact (proj1 (Hit 10 it Hat)).
    + exact (Hbumps small_settings 400 1%nat).
Defined.

End ItemsThms.
