(* ===== verification/Slabs.v ===== *)
(** * memcached's slab allocator ([slabs.c], p1a)

    Pages of memory are cut into chunks of one size per class, the free chunks
    of a class forming a list through their headers.  A header is the part
    that [item] and [item_chunk] have in common; memory maps addresses to
    headers, an address never written holding zeros (the code wipes a page
    before it is cut), and an access outside the memory that [malloc] gave is a
    [Fault].  Headers at different addresses do not overlap, which
    [SlabsThms] shows of those the allocator uses.  All functions run under
    [slabs_lock].  [malloc] and [realloc] are arguments; the growth factor is a
    double of [SpecFloat].  Output and the trace macros are left out. *)

From Stdlib Require Import Floats.SpecFloat.
From S2P Require Import Prelude.
Local Open Scope Z_scope.
Local Open Scope xv6_scope.

Create HintDb slabs.

Module Slabs.

Definition POWER_SMALLEST : Z := 1.
Definition SLAB_GLOBAL_PAGE_POOL : Z := 0.
Definition CHUNK_ALIGN_BYTES : Z := 8.
Definition MAX_NUMBER_OF_SLAB_CLASSES : Z := 64.
Definition SLABS_ALLOC_NO_NEWPAGE : Z := 1.

Definition ITEM_CAS : Z := 2.
Definition ITEM_SLABBED : Z := 4.
Definition ITEM_FETCHED : Z := 8.
Definition ITEM_CHUNKED : Z := 32.
Definition ITEM_CHUNK : Z := 64.
Definition ITEM_CFLAGS : Z := 256.

Definition sizeof_item : Z := 48.
(** Where the fields of both structures end. *)
Definition header_end : Z := 42.

(** [last] is the byte that is [nkey] of an item and [orig_clsid] of a chunk. *)
Record header := {
  next : Z; prev : Z; refcount : Z; it_flags : Z; slabs_clsid : Z; last : Z
}.

Definition zeros : header :=
  {| next := 0; prev := 0; refcount := 0; it_flags := 0; slabs_clsid := 0; last := 0 |}.

Definition with_next (v : Z) (h : header) : header :=
  {| next := v; prev := prev h; refcount := refcount h; it_flags := it_flags h;
     slabs_clsid := slabs_clsid h; last := last h |}.
Definition with_prev (v : Z) (h : header) : header :=
  {| next := next h; prev := v; refcount := refcount h; it_flags := it_flags h;
     slabs_clsid := slabs_clsid h; last := last h |}.
Definition with_state (r f : Z) (h : header) : header :=
  {| next := next h; prev := prev h; refcount := r; it_flags := f;
     slabs_clsid := slabs_clsid h; last := last h |}.
Definition with_flags (f : Z) (h : header) : header := with_state (refcount h) f h.
Definition with_clsid (c : Z) (h : header) : header :=
  {| next := next h; prev := prev h; refcount := refcount h; it_flags := it_flags h;
     slabs_clsid := c; last := last h |}.

Definition has (h : header) (f : Z) : bool := negb (Z.land (it_flags h) f =? 0).

(** [slabclass_t]; [slab_list] is an array of [list_size] pointers. *)
Record slabclass_t := {
  size : Z; perslab : Z; slots : Z; sl_curr : Z; slabs : Z; slab_list : list Z; list_size : Z
}.

Definition empty_class : slabclass_t :=
  {| size := 0; perslab := 0; slots := 0; sl_curr := 0; slabs := 0; slab_list := []; list_size := 0 |}.

Definition with_chunks (n m : Z) (c : slabclass_t) : slabclass_t :=
  {| size := n; perslab := m; slots := slots c; sl_curr := sl_curr c; slabs := slabs c;
     slab_list := slab_list c; list_size := list_size c |}.
Definition with_free (p n : Z) (c : slabclass_t) : slabclass_t :=
  {| size := size c; perslab := perslab c; slots := p; sl_curr := n; slabs := slabs c;
     slab_list := slab_list c; list_size := list_size c |}.
Definition with_pages (n : Z) (l : list Z) (sz : Z) (c : slabclass_t) : slabclass_t :=
  {| size := size c; perslab := perslab c; slots := slots c; sl_curr := sl_curr c; slabs := n;
     slab_list := l; list_size := sz |}.

(** The static variables, the headers in memory, and the blocks of memory,
    each with its length, that [malloc] gave and [free] did not take back. *)
Record state := {
  slabclass : list slabclass_t;
  power_largest : Z;
  mem_limit : Z;
  mem_malloced : Z;
  mem_limit_reached : bool;
  mem_base : Z;
  mem_current : Z;
  mem_avail : Z;
  headers : gmap Z header;
  blocks : list (Z * Z)
}.

Definition set_slabclass (s : state) (l : list slabclass_t) : state :=
  {| slabclass := l; power_largest := power_largest s; mem_limit := mem_limit s;
     mem_malloced := mem_malloced s; mem_limit_reached := mem_limit_reached s;
     mem_base := mem_base s; mem_current := mem_current s; mem_avail := mem_avail s;
     headers := headers s; blocks := blocks s |}.
Definition set_headers (s : state) (m : gmap Z header) : state :=
  {| slabclass := slabclass s; power_largest := power_largest s; mem_limit := mem_limit s;
     mem_malloced := mem_malloced s; mem_limit_reached := mem_limit_reached s;
     mem_base := mem_base s; mem_current := mem_current s; mem_avail := mem_avail s;
     headers := m; blocks := blocks s |}.
Definition set_blocks (s : state) (l : list (Z * Z)) : state :=
  {| slabclass := slabclass s; power_largest := power_largest s; mem_limit := mem_limit s;
     mem_malloced := mem_malloced s; mem_limit_reached := mem_limit_reached s;
     mem_base := mem_base s; mem_current := mem_current s; mem_avail := mem_avail s;
     headers := headers s; blocks := l |}.
Definition set_arena (s : state) (cur avail : Z) : state :=
  {| slabclass := slabclass s; power_largest := power_largest s; mem_limit := mem_limit s;
     mem_malloced := mem_malloced s; mem_limit_reached := mem_limit_reached s;
     mem_base := mem_base s; mem_current := cur; mem_avail := avail;
     headers := headers s; blocks := blocks s |}.
Definition set_limit (s : state) (limit malloced : Z) (reached : bool) : state :=
  {| slabclass := slabclass s; power_largest := power_largest s; mem_limit := limit;
     mem_malloced := malloced; mem_limit_reached := reached;
     mem_base := mem_base s; mem_current := mem_current s; mem_avail := mem_avail s;
     headers := headers s; blocks := blocks s |}.

Definition set_base (s : state) (base cur avail : Z) : state :=
  {| slabclass := slabclass s; power_largest := power_largest s; mem_limit := mem_limit s;
     mem_malloced := mem_malloced s; mem_limit_reached := mem_limit_reached s;
     mem_base := base; mem_current := cur; mem_avail := avail;
     headers := headers s; blocks := blocks s |}.
Definition set_largest (s : state) (i : Z) : state :=
  {| slabclass := slabclass s; power_largest := i; mem_limit := mem_limit s;
     mem_malloced := mem_malloced s; mem_limit_reached := mem_limit_reached s;
     mem_base := mem_base s; mem_current := mem_current s; mem_avail := mem_avail s;
     headers := headers s; blocks := blocks s |}.

(** [mem_malloced += n]. *)
Definition add_malloced (s : state) (n : Z) : state :=
  set_limit s (mem_limit s) (u64 (mem_malloced s + n)) (mem_limit_reached s).

(** Whether the [n] bytes at [p] are inside one block. *)
Definition mapped (l : list (Z * Z)) (p n : Z) : bool :=
  existsb (fun b => (fst b <=? p) && (p + n <=? fst b + snd b)) l.

Definition hdr (s : state) (p : Z) : header := default zeros (headers s !! p).

Definition get (s : state) (p : Z) : outcome header :=
  if mapped (blocks s) p header_end then Ret (hdr s p) else Fault.

Definition upd (s : state) (p : Z) (f : header -> header) : outcome state :=
  let* h := get s p in Ret (set_headers s (<[p := f h]> (headers s))).

(** [memset(p, 0, n)]. *)
Definition wipe (s : state) (p n : Z) : outcome state :=
  if mapped (blocks s) p n
  then Ret (set_headers s (filter (fun e => ~ (p <= fst e < p + n)) (headers s)))
  else Fault.

Definition cls (s : state) (id : Z) : outcome slabclass_t := of_option (getZ (slabclass s) id).

Definition upd_cls (s : state) (id : Z) (f : slabclass_t -> slabclass_t) : outcome state :=
  let* c := cls s id in
  let* l := of_option (setZ (slabclass s) id (f c)) in
  Ret (set_slabclass s l).

Definition assert (b : bool) : outcome unit := if b then Ret () else Panic "assert".

(** The part of [settings] the allocator reads. *)
Record settings_t := {
  chunk_size : Z;
  item_size_max : Z;
  slab_chunk_size_max : Z;
  slab_page_size : Z;
  slab_reassign : bool
}.

(** ** Classes *)

(** The loop of [slabs_clsid]. *)
Fixpoint clsid_from (fuel : nat) (s : state) (n res : Z) : outcome Z :=
  match fuel with
  | O => Fault
  | S fuel =>
      let* c := cls s res in
      if size c <? n then
        if res =? power_largest s then Ret (power_largest s) else clsid_from fuel s n (res + 1)
      else Ret res
  end.

Definition slabs_clsid_of (settings : settings_t) (s : state) (n : Z) : outcome Z :=
  if (n =? 0) || (item_size_max settings <? n) then Ret 0
  else clsid_from (Z.to_nat (power_largest s)) s n POWER_SMALLEST.

Definition slabs_size (s : state) (clsid : Z) : outcome Z :=
  let* c := cls s clsid in Ret (size c).

(** ** Doubles *)

Definition double_of (z : Z) : spec_float := binary_normalize 53 1024 z 0 false.
Definition double_mul : spec_float -> spec_float -> spec_float := SFmul 53 1024.
Definition double_div : spec_float -> spec_float -> spec_float := SFdiv 53 1024.

(** The conversion to [unsigned int], which C defines in its range only. *)
Definition trunc_u32 (x : spec_float) : option Z :=
  match x with
  | S754_zero _ => Some 0
  | S754_finite sg m e =>
      let v := if 0 <=? e then Z.pos m * 2 ^ e else Z.pos m / 2 ^ (- e) in
      let v := if sg then - v else v in
      if (0 <=? v) && (v <? 2 ^ 32) then Some v else None
  | _ => None
  end.

(** ** Memory *)

Section slabs.
Context (settings : settings_t).
(** [malloc l n]: the block of [n] bytes it gives beside the blocks [l], or 0;
    [realloc id]: whether the list of class [id] can be moved to a longer one. *)
Context (malloc : list (Z * Z) -> Z -> Z) (realloc : Z -> bool).

Definition memory_allocate (s : state) (n : Z) : state * Z :=
  if mem_base s =? 0 then
    let ret := malloc (blocks s) n in
    let s := if ret =? 0 then s else set_blocks s ((ret, n) :: blocks s) in
    (add_malloced s n, ret)
  else
    let ret := mem_current s in
    if mem_avail s <? n then (s, 0)
    else
      let n := if n mod CHUNK_ALIGN_BYTES =? 0 then n
               else n + (CHUNK_ALIGN_BYTES - n mod CHUNK_ALIGN_BYTES) in
      let s := set_arena s (mem_current s + n) (if n <? mem_avail s then mem_avail s - n else 0) in
      (add_malloced s n, ret).

(** False when there is no room; [realloc] keeps what the list holds. *)
Definition grow_slab_list (s : state) (id : Z) : outcome (state * bool) :=
  let* p := cls s id in
  if slabs p =? list_size p then
    let new_size := if list_size p =? 0 then 16 else list_size p * 2 in
    if realloc id then
      let room := replicate (Z.to_nat (new_size - list_size p)) 0 in
      let* s := upd_cls s id (with_pages (slabs p) (slab_list p ++ room) (u32 new_size)) in
      Ret (s, true)
    else Ret (s, false)
  else Ret (s, true).

(** [p->slab_list[p->slabs++] = ptr]. *)
Definition add_slab (s : state) (id ptr : Z) : outcome state :=
  let* p := cls s id in
  let* l := of_option (setZ (slab_list p) (slabs p) ptr) in
  upd_cls s id (with_pages (u32 (slabs p + 1)) l (list_size p)).

Definition get_page_from_global_pool (s : state) : outcome (state * Z) :=
  let* p := cls s SLAB_GLOBAL_PAGE_POOL in
  if slabs p <? 1 then Ret (s, 0)
  else
    let* ret := of_option (getZ (slab_list p) (slabs p - 1)) in
    let* s := upd_cls s SLAB_GLOBAL_PAGE_POOL
                (with_pages (slabs p - 1) (slab_list p) (list_size p)) in
    Ret (s, ret).

(** ** Free lists *)

(** The lines every function repeats to put a chunk in front of a free list. *)
Definition push_free (s : state) (id it : Z) : outcome state :=
  let* s := upd s it (with_prev 0) in
  let* p := cls s id in
  let* s := upd s it (with_next (slots p)) in
  let* s := if slots p =? 0 then Ret s else upd s (slots p) (with_prev it) in
  upd_cls s id (with_free it (u32 (sl_curr p + 1))).

(** The chunk header behind the key of the item. *)
Definition ITEM_schunk (p : Z) (h : header) : Z :=
  p + sizeof_item + last h + 1
  + (if has h ITEM_CFLAGS then 4 else 0) + (if has h ITEM_CAS then 8 else 0).

Fixpoint free_chunks (fuel : nat) (s : state) (chunk : Z) : outcome state :=
  match fuel with
  | O => Fault
  | S fuel =>
      if chunk =? 0 then Ret s
      else
        let* ch := get s chunk in
        let* _ := assert (it_flags ch =? ITEM_CHUNK) in
        let* s := upd s chunk (with_flags ITEM_SLABBED) in
        let* s := push_free s (slabs_clsid ch) chunk in
        free_chunks fuel s (next ch)
  end.

Definition do_slabs_free_chunked (s : state) (it : Z) : outcome state :=
  let* h := get s it in
  let* chunk := get s (ITEM_schunk it h) in
  let* s := upd s it (fun h => with_prev 0 (with_flags ITEM_SLABBED h)) in
  let* s := upd s it (with_clsid (last chunk)) in
  let* s := if next chunk =? 0 then Ret s else upd s (next chunk) (with_prev 0) in
  let* s := push_free s (last chunk) it in
  free_chunks (S (base.size (headers s))) s (next chunk).

Definition do_slabs_free (s : state) (ptr id : Z) : outcome state :=
  let* _ := assert ((POWER_SMALLEST <=? id) && (id <=? power_largest s)) in
  let* h := get s ptr in
  if has h ITEM_CHUNKED then do_slabs_free_chunked s ptr
  else
    let* s := upd s ptr (fun h => with_clsid (u8 id) (with_flags ITEM_SLABBED h)) in
    push_free s id ptr.

Fixpoint split_from (x : nat) (s : state) (ptr sz id : Z) : outcome state :=
  match x with
  | O => Ret s
  | S x =>
      let* s := do_slabs_free s ptr id in
      split_from x s (ptr + sz) sz id
  end.

Definition split_slab_page_into_freelist (s : state) (ptr id : Z) : outcome state :=
  let* p := cls s id in
  split_from (Z.to_nat (perslab p)) s ptr (size p) id.

(** ** Allocation *)

(** The length of a page of class [id]. *)
Definition page_len (p : slabclass_t) : Z :=
  if slab_reassign settings || negb (slab_chunk_size_max settings =? slab_page_size settings)
  then slab_page_size settings else s32 (size p * perslab p).

Definition do_slabs_newslab (s : state) (id : Z) : outcome (state * bool) :=
  let* p := cls s id in
  let* g := cls s SLAB_GLOBAL_PAGE_POOL in
  let len := page_len p in
  if negb (mem_limit s =? 0) && (mem_limit s <? u64 (mem_malloced s + len))
     && (0 <? slabs p) && (slabs g =? 0)
  then Ret (set_limit s (mem_limit s) (mem_malloced s) true, false)
  else
    let* (s, ok) := grow_slab_list s id in
    if negb ok then Ret (s, false)
    else
      let* (s, ptr) := get_page_from_global_pool s in
      let (s, ptr) := if ptr =? 0 then memory_allocate s len else (s, ptr) in
      if ptr =? 0 then Ret (s, false)
      else
        let* s := wipe s ptr len in
        let* s := split_slab_page_into_freelist s ptr id in
        let* s := add_slab s id ptr in
        Ret (s, true).

(** The first chunk of a free list that is not empty leaves it. *)
Definition pop_free (s : state) (id : Z) : outcome (state * Z) :=
  let* p := cls s id in
  let it := slots p in
  let* h := get s it in
  let* s := upd_cls s id (with_free (next h) (sl_curr p)) in
  let* s := if next h =? 0 then Ret s else upd s (next h) (with_prev 0) in
  let* s := upd s it (fun h => with_state 1 (Z.ldiff (it_flags h) ITEM_SLABBED) h) in
  let* s := upd_cls s id (with_free (next h) (sl_curr p - 1)) in
  Ret (s, it).

Definition do_slabs_alloc (s : state) (n id flags : Z) : outcome (state * Z) :=
  if (id <? POWER_SMALLEST) || (power_largest s <? id) then Ret (s, 0)
  else
    let* p := cls s id in
    let* _ := if sl_curr p =? 0 then Ret ()
              else let* h := get s (slots p) in assert (has h ITEM_SLABBED) in
    let* _ := assert (n <=? size p) in
    let* s := if (sl_curr p =? 0) && negb (flags =? SLABS_ALLOC_NO_NEWPAGE)
              then let* (s, _) := do_slabs_newslab s id in Ret s
              else Ret s in
    let* p := cls s id in
    if sl_curr p =? 0 then Ret (s, 0) else pop_free s id.

(** ** Start *)

(** The loop of [slabs_init] over the classes, [i] being already incremented:
    the classes, and [i] when the loop ends. *)
Fixpoint init_classes (fuel : nat) (factor : spec_float) (slab_sizes : option (list Z))
    (l : list slabclass_t) (i sz : Z) : outcome (list slabclass_t * Z) :=
  match fuel with
  | O => Ret (l, i)
  | S fuel =>
      let* sz := match slab_sizes with
                 | Some sizes =>
                     let* n := of_option (getZ sizes (i - 1)) in
                     Ret (if n =? 0 then None else Some n)
                 | None =>
                     let max := double_div (double_of (slab_chunk_size_max settings)) factor in
                     Ret (if SFleb max (double_of sz) then None else Some sz)
                 end in
      match sz with
      | None => Ret (l, i)
      | Some sz =>
          let sz := if sz mod CHUNK_ALIGN_BYTES =? 0 then sz
                    else u32 (sz + (CHUNK_ALIGN_BYTES - sz mod CHUNK_ALIGN_BYTES)) in
          let* p := of_option (getZ l i) in
          let* _ := if sz =? 0 then Fault else Ret () in
          let* l := of_option (setZ l i (with_chunks sz (slab_page_size settings / sz) p)) in
          let* sz := match slab_sizes with
                     | Some _ => Ret sz
                     | None => of_option (trunc_u32 (double_mul (double_of sz) factor))
                     end in
          init_classes fuel factor slab_sizes l (i + 1) sz
      end
  end.

(** [exit(1)] is a [Panic]. *)
Fixpoint preallocate_from (fuel : nat) (s : state) (i prealloc maxslabs : Z) : outcome state :=
  match fuel with
  | O => Ret s
  | S fuel =>
      if maxslabs <? prealloc + 1 then Ret s
      else
        let* (s, ok) := do_slabs_newslab s i in
        if ok then preallocate_from fuel s (i + 1) (prealloc + 1) maxslabs else Panic "exit"
  end.

Definition slabs_preallocate (s : state) (maxslabs : Z) : outcome state :=
  preallocate_from (Z.to_nat (MAX_NUMBER_OF_SLAB_CLASSES - POWER_SMALLEST)) s POWER_SMALLEST 0
    maxslabs.

(** [slabs_init] up to the pages it may take; the flag is [do_slab_prealloc].
    [s] has the static variables; [large] is what [alloc_large_chunk] gives,
    [initial_malloc] the number in [T_MEMD_INITIAL_MALLOC].  The block behind
    [mem_base_external] is in [blocks]. *)
Definition slabs_configure (s : state) (limit : Z) (factor : spec_float) (prealloc : bool)
    (slab_sizes : option (list Z)) (mem_base_external : Z) (reuse_mem : bool)
    (large : Z) (initial_malloc : option Z) : outcome (state * bool) :=
  let sz := u32 (sizeof_item + chunk_size settings) in
  let s := set_limit s limit (mem_malloced s) (mem_limit_reached s) in
  let (s, do_slab_prealloc) :=
    if prealloc && (mem_base_external =? 0) then
      if large =? 0 then (set_base s 0 (mem_current s) (mem_avail s), false)
      else (set_base (set_blocks s ((large, limit) :: blocks s)) large large limit, true)
    else if prealloc then
      (if reuse_mem then set_base s mem_base_external (mem_base_external + limit) 0
       else set_base s mem_base_external mem_base_external limit, true)
    else (s, false) in
  let empty := replicate (Z.to_nat MAX_NUMBER_OF_SLAB_CLASSES) empty_class in
  let* (l, i) := init_classes (Z.to_nat (MAX_NUMBER_OF_SLAB_CLASSES - 1 - POWER_SMALLEST)) factor
                   slab_sizes empty POWER_SMALLEST sz in
  let max := slab_chunk_size_max settings in
  let s := set_largest (set_slabclass s l) i in
  let* _ := if max =? 0 then Fault else Ret () in
  let* s := upd_cls s i (with_chunks max (slab_page_size settings / max)) in
  let s := match initial_malloc with
           | Some n => set_limit s (mem_limit s) (u64 n) (mem_limit_reached s)
           | None => s
           end in
  Ret (s, do_slab_prealloc).

Definition slabs_init (s : state) (limit : Z) (factor : spec_float) (prealloc : bool)
    (slab_sizes : option (list Z)) (mem_base_external : Z) (reuse_mem : bool)
    (large : Z) (initial_malloc : option Z) : outcome state :=
  let* (s, do_slab_prealloc) :=
    slabs_configure s limit factor prealloc slab_sizes mem_base_external reuse_mem large
      initial_malloc in
  if do_slab_prealloc && negb reuse_mem then slabs_preallocate s (power_largest s) else Ret s.

(** The loop of [slabs_prefill_global]; every page it takes counts for its
    length in [mem_malloced]. *)
Fixpoint prefill_from (fuel : nat) (s : state) : outcome state :=
  match fuel with
  | O => Fault
  | S fuel =>
      if mem_limit s <=? mem_malloced s then Ret s
      else
        let (s, ptr) := memory_allocate s (slab_page_size settings) in
        if ptr =? 0 then Ret s
        else
          let* (s, _) := grow_slab_list s SLAB_GLOBAL_PAGE_POOL in
          let* s := wipe s ptr sizeof_item in
          let* s := add_slab s SLAB_GLOBAL_PAGE_POOL ptr in
          prefill_from fuel s
  end.

Definition slabs_prefill_global (s : state) : outcome state :=
  let fuel := S (Z.to_nat (mem_limit s)) in
  let* s := prefill_from fuel s in
  Ret (set_limit s (mem_limit s) (mem_malloced s) true).

(** One chunk of memory that was kept over a restart; [border] is its offset
    in its page. *)
Definition slabs_fixup (s : state) (chunk border : Z) : outcome (state * Z) :=
  let* h := get s chunk in
  let id := Z.land (slabs_clsid h) 63 in
  if id =? 0 then
    let* (s, _) := grow_slab_list s 0 in
    let* s := add_slab s 0 chunk in
    Ret (s, u32 (-1))
  else
    let* s := if border =? 0 then
                let* (s, _) := grow_slab_list s id in add_slab s id chunk
              else Ret s in
    let* s := if it_flags h =? ITEM_SLABBED then push_free s id chunk else Ret s in
    let* p := cls s id in
    Ret (s, size p).

(** ** The limit *)

(** [free(p)]. *)
Definition mem_free (s : state) (p : Z) : outcome state :=
  if bool_decide (p ∈ (blocks s).*1)
  then Ret (set_blocks s (filter (fun b => fst b <> p) (blocks s)))
  else Fault.

Fixpoint release_from (fuel : nat) (s : state) : outcome state :=
  match fuel with
  | O => Fault
  | S fuel =>
      if mem_malloced s <=? mem_limit s then Ret s
      else
        let* (s, p) := get_page_from_global_pool s in
        if p =? 0 then Ret s
        else
          let* s := mem_free s p in
          release_from fuel (add_malloced s (- slab_page_size settings))
  end.

Definition memory_release (s : state) : outcome state :=
  if negb (mem_base s =? 0) || negb (slab_reassign settings) then Ret s
  else
    let* g := cls s SLAB_GLOBAL_PAGE_POOL in
    release_from (S (Z.to_nat (slabs g))) s.

Definition do_slabs_adjust_mem_limit (s : state) (new_mem_limit : Z) : outcome (state * bool) :=
  if negb (mem_base s =? 0) then Ret (s, false)
  else
    let s := set_limit s new_mem_limit (mem_malloced s) false in
    let* s := memory_release s in
    Ret (s, true).

(** ** What other modules ask *)

(** The number of free chunks, whether the limit is reached, [perslab]. *)
Definition slabs_available_chunks (s : state) (id : Z) : outcome (Z * bool * Z) :=
  let* p := cls s id in
  Ret (sl_curr p, mem_limit s <=? mem_malloced s, perslab p).

Definition global_page_pool_size (s : state) : outcome (Z * bool) :=
  let* p := cls s SLAB_GLOBAL_PAGE_POOL in
  Ret (slabs p, mem_limit s <=? mem_malloced s).

Record slab_stats_automove := {
  chunks_per_page : Z; free_chunks_of : Z; total_pages : Z; chunk_size_of : Z
}.

Definition fill_slab_stats_automove (s : state) : list slab_stats_automove :=
  (fun p => {| chunks_per_page := perslab p; free_chunks_of := sl_curr p;
               total_pages := slabs p; chunk_size_of := size p |}) <$> slabclass s.
End slabs.

End Slabs.
