(* ===== verification/SlabsSpec.v ===== *)
(** * What the slab allocator keeps (p1a, [slabs.c])

    [lists]: every class has a list of free chunks, linked both ways;
    [pages_ok]: the pages it has, apart from each other and inside memory;
    [rep]: the chunks of these pages are the free ones and those in use.
    Each function of [Slabs] up to [do_slabs_newslab] has a lemma that says
    what it does to these. *)

From S2P Require Import Prelude Slabs.
Local Open Scope Z_scope.
Local Open Scope xv6_scope.

Module SlabsSpec.
Import Slabs.

(** ** Families of lists *)

Definition at_id {A} (f : Z -> A) (id : Z) (v : A) : Z -> A :=
  fun i => if decide (i = id) then v else f i.

Lemma at_id_eq {A} (f : Z -> A) id v : at_id f id v id = v.
Proof. unfold at_id. by rewrite decide_True. Qed.
Lemma at_id_ne {A} (f : Z -> A) id v i : i <> id -> at_id f id v i = f i.
Proof. intros. unfold at_id. by rewrite decide_False. Qed.

Hint Rewrite @at_id_eq : slabs.
Hint Rewrite @at_id_ne using done : slabs.

(** No element occurs twice, in one list or in two. *)
Definition apart (f : Z -> list Z) : Prop :=
  forall i j a b x, f i !! a = Some x -> f j !! b = Some x -> i = j /\ a = b.

Lemma apart_NoDup f i : apart f -> NoDup (f i).
Proof. intros H. apply NoDup_alt. intros a b x Ha Hb. by destruct (H i i a b x Ha Hb). Qed.

Lemma apart_elem f i j x : apart f -> x ∈ f i -> x ∈ f j -> i = j.
Proof.
  intros H [a Ha]%list_elem_of_lookup [b Hb]%list_elem_of_lookup. by destruct (H i j a b x Ha Hb).
Qed.

Lemma apart_intro f :
  (forall i, NoDup (f i)) -> (forall i j x, x ∈ f i -> x ∈ f j -> i = j) -> apart f.
Proof.
  intros Hn He i j a b x Ha Hb.
  assert (i = j) as <- by (eapply He; by eapply list_elem_of_lookup_2).
  split; [done|]. by eapply NoDup_lookup.
Qed.

Lemma apart_push f i x : apart f -> (forall j, x ∉ f j) -> apart (at_id f i (x :: f i)).
Proof.
  intros H Hx. apply apart_intro.
  - intros j. unfold at_id. case_decide; [subst; apply NoDup_cons; split; [by apply Hx|]|];
      by apply apart_NoDup.
  - intros j k y. unfold at_id. do 2 case_decide; subst; try done; intros Hj Hk.
    + apply elem_of_cons in Hj as [->|Hj]; [by destruct (Hx k)|by eapply apart_elem].
    + apply elem_of_cons in Hk as [->|Hk]; [by destruct (Hx j)|by eapply apart_elem].
    + by eapply apart_elem.
Qed.

Lemma apart_pop f i x l : apart f -> f i = x :: l -> apart (at_id f i l).
Proof.
  intros H E. pose proof (apart_NoDup f i H) as Hn. rewrite E in Hn.
  apply NoDup_cons in Hn as [_ Hn].
  assert (forall j y, y ∈ at_id f i l j -> y ∈ f j) as Hin.
  { intros j y. unfold at_id. case_decide; [subst; rewrite E; set_solver|done]. }
  apply apart_intro.
  - intros j. unfold at_id. case_decide; [done|]. by apply apart_NoDup.
  - intros j k y Hj%Hin Hk%Hin. by eapply apart_elem.
Qed.

#[local] Arguments mapped : simpl never.

(** ** Memory *)

Lemma hdr_insert s p h q :
  hdr (set_headers s (<[p := h]> (headers s))) q = if decide (p = q) then h else hdr s q.
Proof.
  unfold hdr. simpl. case_decide as E; [subst; by rewrite lookup_insert_eq|].
  by rewrite lookup_insert_ne.
Qed.

Lemma mapped_sub l p n q k : mapped l p n = true -> p <= q -> q + k <= p + n -> mapped l q k = true.
Proof.
  unfold mapped. rewrite !existsb_exists. intros ([a len] & Hin & Hb) ??. exists (a, len).
  split; [done|]. simpl in *. lia.
Qed.

Lemma mapped_cons b l p n : mapped l p n = true -> mapped (b :: l) p n = true.
Proof. unfold mapped. simpl. intros ->. apply orb_true_r. Qed.

Lemma mapped_here p n m l : m <= n -> mapped ((p, n) :: l) p m = true.
Proof. intros. unfold mapped. simpl. apply orb_true_iff. left. lia. Qed.

Lemma get_mapped s p : mapped (blocks s) p header_end = true -> get s p = Ret (hdr s p).
Proof. unfold get. by intros ->. Qed.

Lemma upd_mapped s p f :
  mapped (blocks s) p header_end = true ->
  upd s p f = Ret (set_headers s (<[p := f (hdr s p)]> (headers s))).
Proof. intros H. unfold upd. by rewrite get_mapped. Qed.

(** What [wipe] leaves. *)
Lemma wipe_mapped s p n :
  mapped (blocks s) p n = true ->
  exists m, wipe s p n = Ret (set_headers s m) /\
    (forall q, p <= q < p + n -> hdr (set_headers s m) q = zeros) /\
    (forall q, ~ (p <= q < p + n) -> hdr (set_headers s m) q = hdr s q).
Proof.
  intros H. unfold wipe. rewrite H. eexists. split; [done|]. unfold hdr. simpl.
  split; intros q Hq.
  - rewrite map_lookup_filter_None_2; [done|]. right. intros x _. simpl. tauto.
  - f_equal. destruct (headers s !! q) as [x|] eqn:E.
    + by apply map_lookup_filter_Some_2.
    + apply map_lookup_filter_None_2. by left.
Qed.

(** ** Doubly linked lists *)

Fixpoint dll (m : Z -> header) (p : Z) (l : list Z) : Prop :=
  match l with
  | [] => True
  | q :: r => prev (m q) = p /\ next (m q) = hd 0 r /\ dll m q r
  end.

Lemma dll_ext m m' p l :
  (forall q, q ∈ l -> next (m' q) = next (m q) /\ prev (m' q) = prev (m q)) ->
  dll m p l -> dll m' p l.
Proof.
  revert p. induction l as [|q r IH]; intros p Heq; [done|]. simpl. intros (H1 & H2 & H3).
  destruct (Heq q) as [-> ->]; [by left|]. split_and!; [done..|]. apply IH; [|done].
  intros x Hx. apply Heq. by right.
Qed.

(** The head may get another predecessor. *)
Lemma dll_rehead m m' p p' l :
  (forall q, q ∈ l -> next (m' q) = next (m q)) ->
  (forall q, q ∈ tail l -> prev (m' q) = prev (m q)) ->
  (forall q, head l = Some q -> prev (m' q) = p') ->
  dll m p l -> dll m' p' l.
Proof.
  destruct l as [|q r]; [done|]. simpl. intros Hn Hp Hh (H1 & H2 & H3).
  rewrite Hn by by left. split_and!; [by apply Hh|done|].
  eapply dll_ext; [|done]. intros x Hx. split; [apply Hn; by right|by apply Hp].
Qed.

(** ** Classes *)

Lemma upd_cls_ok s id f c :
  cls s id = Ret c ->
  upd_cls s id f = Ret (set_slabclass s (<[Z.to_nat id := f c]> (slabclass s))).
Proof.
  unfold upd_cls. intros H. rewrite H. simpl. unfold cls, of_option in H.
  destruct (getZ (slabclass s) id) as [c'|] eqn:E; [|done].
  rewrite setZ_Some by (by eapply getZ_Some_range). done.
Qed.

Lemma cls_insert s id c0 c i :
  cls s id = Ret c0 ->
  cls (set_slabclass s (<[Z.to_nat id := c]> (slabclass s))) i
  = if decide (i = id) then Ret c else cls s i.
Proof.
  unfold cls. intros H. assert (0 <= id < Z.of_nat (length (slabclass s))) as Hr.
  { destruct (getZ (slabclass s) id) eqn:E; [|done]. by eapply getZ_Some_range. }
  simpl. pose proof (setZ_Some _ _ c Hr) as E. case_decide as Hi.
  - subst. by rewrite (setZ_get _ _ _ _ E).
  - by rewrite (setZ_get_ne _ _ i _ _ E) by done.
Qed.

(** What a class has besides its free list, and besides its pages. *)
Definition pages_view (c : slabclass_t) := (size c, perslab c, slabs c, slab_list c, list_size c).
Definition free_view (c : slabclass_t) := (size c, perslab c, slots c, sl_curr c).

(** Only free lists changed. *)
Record same_pages (s s' : state) : Prop := {
  sp_blocks : blocks s' = blocks s;
  sp_n : power_largest s' = power_largest s;
  sp_limit : mem_limit s' = mem_limit s;
  sp_malloced : mem_malloced s' = mem_malloced s;
  sp_base : mem_base s' = mem_base s;
  sp_current : mem_current s' = mem_current s;
  sp_avail : mem_avail s' = mem_avail s;
  sp_len : length (slabclass s') = length (slabclass s);
  sp_cls id c : cls s id = Ret c -> exists c', cls s' id = Ret c' /\ pages_view c' = pages_view c
}.

#[global] Instance same_pages_preorder : PreOrder same_pages.
Proof.
  split.
  - intros s. split; eauto.
  - intros s1 s2 s3 H1 H2.
    split; try (etransitivity; [eapply H2|eapply H1]).
    intros id c Hc. destruct (sp_cls _ _ H1 id c Hc) as (c1 & H & E).
    destruct (sp_cls _ _ H2 id c1 H) as (c2 & ? & E2). exists c2. split; [done|congruence].
Qed.

Lemma same_pages_headers s m : same_pages s (set_headers s m).
Proof. split; try done. eauto. Qed.

Lemma same_pages_free s id c p n :
  cls s id = Ret c ->
  same_pages s (set_slabclass s (<[Z.to_nat id := with_free p n c]> (slabclass s))).
Proof.
  intros Hc. split; try done; simpl; [apply length_insert|].
  intros i c0 Hi. rewrite (cls_insert s id c) by done. case_decide; [|eauto].
  subst. replace c0 with c by congruence. eauto.
Qed.

Section spec.
Context (N : Z) (sz per : Z -> Z).

(** The free lists of the classes [1] to [N] ([F id] is empty for others). *)
Record lists (s : state) (F : Z -> list Z) : Prop := {
  li_n : power_largest s = N;
  li_cls id : 0 <= id <= N ->
    exists c, cls s id = Ret c /\
      free_view c = (sz id, per id, hd 0 (F id), Z.of_nat (length (F id)));
  li_dll id : dll (hdr s) 0 (F id);
  li_elem id p : p ∈ F id ->
    1 <= id <= N /\ it_flags (hdr s p) = ITEM_SLABBED /\ slabs_clsid (hdr s p) = id /\
    0 < p /\ mapped (blocks s) p header_end = true;
  li_apart : apart F
}.

Lemma lists_move s s' F :
  lists s F -> power_largest s' = power_largest s ->
  (forall id p, p ∈ F id -> mapped (blocks s') p header_end = true) ->
  (forall id c, cls s id = Ret c -> exists c', cls s' id = Ret c' /\ free_view c' = free_view c) ->
  (forall id q, q ∈ F id -> hdr s' q = hdr s q) ->
  lists s' F.
Proof.
  intros [Hn Hc Hd He Ha] En Eb Ec Eh. split.
  - congruence.
  - intros id Hid. destruct (Hc id Hid) as (c & H & E). destruct (Ec _ _ H) as (c' & ? & E').
    exists c'. split; [done|congruence].
  - intros id. eapply dll_ext; [|apply Hd]. intros q Hq. by rewrite (Eh id q Hq).
  - intros id p Hp. rewrite (Eh id p Hp). destruct (He id p Hp) as (? & ? & ? & ? & ?). eauto 10.
  - done.
Qed.

Lemma lists_frame s s' F :
  lists s F -> power_largest s' = power_largest s ->
  (forall p n, mapped (blocks s) p n = true -> mapped (blocks s') p n = true) ->
  (forall id c, cls s id = Ret c -> exists c', cls s' id = Ret c' /\ free_view c' = free_view c) ->
  (forall id q, q ∈ F id -> hdr s' q = hdr s q) ->
  lists s' F.
Proof.
  intros Hl En Eb Ec Eh. eapply lists_move; [done..| |done|done].
  intros id p Hp. by apply Eb, (li_elem _ _ Hl id p).
Qed.

Lemma lists_upd s F q h :
  lists s F -> (forall j, q ∉ F j) -> lists (set_headers s (<[q := h]> (headers s))) F.
Proof.
  intros H Hq. eapply lists_frame; [done|done|done|eauto|].
  intros id p Hp. rewrite hdr_insert, decide_False; [done|]. intros ->. by eapply Hq.
Qed.

Lemma head_in {A} (l : list A) x : head l = Some x -> x ∈ l.
Proof. destruct l; [done|]. intros [= ->]. by left. Qed.

(** The free lists after [it] is put in front of one. *)
Lemma lists_push s s' F id it c :
  lists s F -> 1 <= id <= N -> 0 < it -> mapped (blocks s) it header_end = true ->
  (forall j, it ∉ F j) -> it_flags (hdr s it) = ITEM_SLABBED -> slabs_clsid (hdr s it) = id ->
  cls s id = Ret c -> power_largest s' = power_largest s -> blocks s' = blocks s ->
  (forall i, cls s' i = if decide (i = id) then Ret (with_free it (sl_curr c + 1) c) else cls s i) ->
  (forall q, hdr s' q = if decide (it = q) then with_next (hd 0 (F id)) (with_prev 0 (hdr s it))
                        else if decide (head (F id) = Some q) then with_prev it (hdr s q) else hdr s q) ->
  lists s' (at_id F id (it :: F id)).
Proof.
  intros Hl Hid Hp Hm Hout Hf Hc Hg En Eb Ecls Eh. pose proof Hl as [Hn Hcls Hd He Ha].
  assert (hdr s' it = with_next (hd 0 (F id)) (with_prev 0 (hdr s it))) as Hit by by rewrite Eh, decide_True.
  assert (forall q j, q ∈ F j -> hdr s' q = if decide (head (F id) = Some q) then with_prev it (hdr s q)
                                            else hdr s q) as Hold.
  { intros q j Hq. rewrite Eh, decide_False; [done|]. intros ->. by destruct (Hout j). }
  split.
  - congruence.
  - intros i Hi. rewrite Ecls. case_decide as Ei; [subst i|by rewrite at_id_ne; [apply Hcls|]].
    destruct (Hcls id Hi) as (c' & Hc' & Ev). replace c' with c in * by congruence.
    injection Ev as E1 E2 E3 E4. rewrite at_id_eq. eexists. split; [done|].
    unfold free_view. simpl. rewrite E1, E2, E4. f_equal. lia.
  - intros i. unfold at_id. case_decide as Ei.
    + subst i. simpl. rewrite Hit. split_and!; [done..|].
      eapply (dll_rehead (hdr s) _ 0); [| | |apply Hd].
      * intros q Hq. rewrite (Hold q id Hq). by case_decide.
      * intros q Hq. assert (q ∈ F id) as Hq' by (destruct (F id); [done|by right]).
        rewrite (Hold q id Hq'), decide_False; [done|].
        pose proof (apart_NoDup F id Ha) as Hnd. destruct (F id); [done|].
        apply NoDup_cons in Hnd as [Hnd _]. simpl in *. congruence.
      * intros q Hq. by rewrite (Hold q id), decide_True by (done || by apply head_in).
    + eapply dll_ext; [|apply Hd]. intros q Hq. rewrite (Hold q i Hq), decide_False; [done|].
      intros Hh%head_in. by apply Ei, (apart_elem F i id q).
  - intros i q Hq. rewrite Eb.
    assert (q = it /\ i = id \/ q ∈ F i) as [[-> ->]|Hq'].
    { unfold at_id in Hq. case_decide; [|by right]. subst. apply elem_of_cons in Hq. tauto. }
    + by rewrite Hit.
    + rewrite (Hold q i Hq'). case_decide; by apply He.
  - by apply apart_push.
Qed.

Lemma push_free_spec s F id it :
  lists s F -> 1 <= id <= N -> 0 < it -> mapped (blocks s) it header_end = true ->
  (forall j, it ∉ F j) ->
  it_flags (hdr s it) = ITEM_SLABBED -> slabs_clsid (hdr s it) = id ->
  Z.of_nat (length (F id)) + 1 < 2 ^ 32 ->
  exists s', push_free s id it = Ret s' /\ lists s' (at_id F id (it :: F id)) /\
    same_pages s s' /\ (forall q, q <> it -> (forall j, q ∉ F j) -> hdr s' q = hdr s q).
Proof.
  intros Hl Hid Hp Hm Hout Hf Hc Hlen. pose proof Hl as [Hn Hcls Hd He Ha].
  destruct (Hcls id) as (c & Hg & Ev); [lia|]. injection Ev as E1 E2 E3 E4.
  unfold push_free. rewrite upd_mapped by done. cbn [obind]. unfold cls at 1. simpl.
  fold (cls s id). rewrite Hg. cbn [obind]. rewrite upd_mapped by done. cbn [obind].
  set (s2 := set_headers (set_headers s _) _).
  assert (forall q, hdr s2 q = if decide (it = q) then with_next (hd 0 (F id)) (with_prev 0 (hdr s it))
                               else hdr s q) as Hs2.
  { intros q. unfold s2. rewrite hdr_insert. case_decide; [|by rewrite hdr_insert, decide_False].
    by rewrite hdr_insert, decide_True, E3 by done. }
  assert (exists s3, (if slots c =? 0 then Ret s2 else upd s2 (slots c) (with_prev it)) = Ret s3 /\
            same_pages s s3 /\ slabclass s3 = slabclass s /\
            forall q, hdr s3 q = if decide (head (F id) = Some q) then with_prev it (hdr s q)
                                 else hdr s2 q) as (s3 & -> & Hsp & Hsc & Hs3).
  { rewrite E3. destruct (F id) as [|a r] eqn:EF.
    - exists s2. split_and!; [done|by split; eauto|done|]. intros q. by rewrite decide_False.
    - assert (a ∈ F id) as Hain by (rewrite EF; by left).
      destruct (He id a Hain) as (_ & _ & _ & Ha0 & Ham). simpl.
      replace (a =? 0) with false by lia. rewrite upd_mapped by done.
      eexists. split; [done|]. split_and!; [by split; eauto|done|].
      intros q. rewrite hdr_insert. case_decide as Eq.
      + rewrite <- Eq, decide_True by done. rewrite Hs2, decide_False; [done|].
        intros <-. by eapply Hout.
      + rewrite decide_False; [done|]. congruence. }
  cbn [obind].
  assert (cls s3 id = Ret c) as Hg3 by (unfold cls; by rewrite Hsc).
  rewrite (upd_cls_ok _ _ _ c Hg3). eexists. split; [done|].
  rewrite u32_small by (unfold is_u32; lia).
  assert (forall q, hdr s3 q = if decide (it = q) then with_next (hd 0 (F id)) (with_prev 0 (hdr s it))
            else if decide (head (F id) = Some q) then with_prev it (hdr s q) else hdr s q) as Hs4.
  { intros q. rewrite Hs3, Hs2. do 2 case_decide; try done. subst. exfalso. eapply Hout. by apply head_in. }
  split_and!.
  - eapply lists_push; try done; [apply (sp_n _ _ Hsp)|apply (sp_blocks _ _ Hsp)|].
    intros i. rewrite (cls_insert s3 id c) by done. case_decide; [done|]. unfold cls. by rewrite Hsc.
  - etransitivity; [exact Hsp|]. by apply same_pages_free.
  - intros q Hq Hnq. change (hdr s3 q = hdr s q). rewrite Hs4, decide_False by done.
    rewrite decide_False; [done|]. intros ?%head_in. by eapply Hnq.
Qed.

Lemma lists_ext s F F' : (forall i, F' i = F i) -> lists s F -> lists s F'.
Proof.
  intros E [Hn Hc Hd He Ha]. split; [done|..].
  - intros id Hid. rewrite E. by apply Hc.
  - intros id. rewrite E. done.
  - intros id p. rewrite E. apply He.
  - intros i j a b x. rewrite !E. apply Ha.
Qed.

(** ** Pages *)

Context (settings : settings_t).

Definition plen (id : Z) : Z :=
  if decide (id = 0) then slab_page_size settings
  else if slab_reassign settings || negb (slab_chunk_size_max settings =? slab_page_size settings)
  then slab_page_size settings else sz id * per id.

Record config_ok : Prop := {
  co_n : 1 <= N <= 63;
  co_page : 0 < slab_page_size settings < 2 ^ 31;
  co_pool : sz 0 = 0 /\ per 0 = 0;
  co_class id : 1 <= id <= N ->
    header_end <= sz id /\ 1 <= per id /\ sz id * per id <= slab_page_size settings
}.

(** The chunks of a page. *)
Fixpoint chunks (n : nat) (p w : Z) : list Z :=
  match n with O => [] | S n => p :: chunks n (p + w) w end.

Lemma elem_chunks n p w x : x ∈ chunks n p w -> exists i : nat, (i < n)%nat /\ x = p + w * Z.of_nat i.
Proof.
  revert p. induction n as [|n IH]; intros p; simpl; [by intros ?%elem_of_nil|].
  intros [->|(i & Hi & ->)%IH]%elem_of_cons; [exists 0%nat; lia|]. exists (S i). lia.
Qed.

Lemma chunks_elem n p w x : (exists i : nat, (i < n)%nat /\ x = p + w * Z.of_nat i) -> x ∈ chunks n p w.
Proof.
  revert p. induction n as [|n IH]; intros p (i & Hi & ->); [lia|]. simpl. apply elem_of_cons.
  destruct i as [|i]; [left; lia|]. right. apply IH. exists i. split; [lia|lia].
Qed.

Lemma chunks_NoDup n p w : 0 < w -> NoDup (chunks n p w).
Proof.
  intros Hw. revert p. induction n as [|n IH]; intros p; simpl; constructor; [|apply IH].
  intros (i & _ & E)%elem_chunks. lia.
Qed.

Lemma chunks_length n p w : length (chunks n p w) = n.
Proof. revert p. induction n as [|n IH]; intros p; simpl; [done|by rewrite IH]. Qed.

Definition page_chunks (id p : Z) : list Z := chunks (Z.to_nat (per id)) p (sz id).

(** No two blocks of memory overlap. *)
Fixpoint blocks_apart (l : list (Z * Z)) : Prop :=
  match l with
  | [] => True
  | x :: l => Forall (fun y => fst x + snd x <= fst y \/ fst y + snd y <= fst x) l /\ blocks_apart l
  end.

Lemma blocks_apart_filter (Q : Z * Z -> Prop) `{forall x, Decision (Q x)} l :
  blocks_apart l -> blocks_apart (filter Q l).
Proof.
  induction l as [|x l IH]; [done|]. intros [Hx Hl]. rewrite filter_cons. case_decide; [|by apply IH].
  split; [|by apply IH]. apply Forall_forall. intros y Hy%list_elem_of_filter.
  rewrite Forall_forall in Hx. apply Hx, Hy.
Qed.

(** Where the pages are. *)
Record layout (s : state) (P : Z -> list Z) : Prop := {
  la_elem id p : p ∈ P id -> 0 <= id <= N /\ 0 < p /\ mapped (blocks s) p (plen id) = true;
  la_apart i j a b p q : P i !! a = Some p -> P j !! b = Some q -> (i, a) <> (j, b) ->
    p + plen i <= q \/ q + plen j <= p;
  la_blocks : blocks_apart (blocks s);
  la_owner id p : mem_base s = 0 -> p ∈ P id ->
    exists n, (p, n) ∈ blocks s /\ plen id <= n;
  la_arena : mem_base s <> 0 ->
    0 < mem_current s /\ (0 < mem_avail s -> mapped (blocks s) (mem_current s) (mem_avail s) = true) /\
    forall id p, p ∈ P id -> p + plen id <= mem_current s
}.

Record page_lists (s : state) (P : Z -> list Z) : Prop := {
  pl_cls id : 0 <= id <= N ->
    exists c rest, cls s id = Ret c /\ slabs c = Z.of_nat (length (P id)) /\
      slab_list c = P id ++ rest /\ list_size c = Z.of_nat (length (slab_list c))
}.

(** Every chunk of a page is free or in use: [F id] are the free chunks of
    class [id], [U id] those in use, [P id] its pages. *)
Record rep (s : state) (F U P : Z -> list Z) : Prop := {
  rp_lists : lists s F;
  rp_pages : page_lists s P;
  rp_layout : layout s P;
  rp_chunks id : F id ++ U id ≡ₚ (P id ≫= page_chunks id);
  rp_count id : Z.of_nat (length (P id)) * Z.max 0 (per id) < 2 ^ 32
}.

Lemma page_lists_frame s s' P : same_pages s s' -> page_lists s P -> page_lists s' P.
Proof.
  intros Hs [H]. split. intros id Hid. destruct (H id Hid) as (c & r & Hc & E1 & E2 & E3).
  destruct (sp_cls _ _ Hs id c Hc) as (c' & Hc' & Ev). injection Ev as _ _ ? ? ?.
  exists c', r. split_and!; congruence.
Qed.

Lemma layout_frame s s' P :
  blocks s' = blocks s -> mem_base s' = mem_base s -> mem_current s' = mem_current s ->
  mem_avail s' = mem_avail s -> layout s P -> layout s' P.
Proof. intros E1 E2 E3 E4 []. split; rewrite ?E1, ?E2, ?E3, ?E4; done. Qed.

Lemma layout_same_pages s s' P : same_pages s s' -> layout s P -> layout s' P.
Proof. intros []. by apply layout_frame. Qed.

Lemma layout_sub s P P' :
  (forall i, P' i `prefix_of` P i) -> layout s P -> layout s P'.
Proof.
  intros Hsub [He Ha Hb Ho Hr].
  assert (forall i p, p ∈ P' i -> p ∈ P i) as Hin.
  { intros i p Hp. destruct (Hsub i) as [k ->]. set_solver. }
  split; [by eauto| |done|by eauto|].
  - intros i j a b p q Hp Hq. apply Ha; by eapply prefix_lookup_Some.
  - intros Hm. destruct (Hr Hm) as (? & ? & ?). eauto.
Qed.

Lemma layout_add s P id q :
  layout s P -> 0 <= id <= N -> 0 < q -> mapped (blocks s) q (plen id) = true ->
  (forall j p, p ∈ P j -> p + plen j <= q \/ q + plen id <= p) ->
  (mem_base s = 0 -> exists n, (q, n) ∈ blocks s /\ plen id <= n) ->
  (mem_base s <> 0 -> q + plen id <= mem_current s) ->
  layout s (at_id P id (P id ++ [q])).
Proof.
  intros [He Ha Hb Ho Hr] Hid Hq Hm Hd Hn Hc.
  assert (forall i p, p ∈ at_id P id (P id ++ [q]) i -> p ∈ P i \/ i = id /\ p = q) as Hin.
  { intros i p. unfold at_id. case_decide; [subst; set_solver|tauto]. }
  assert (forall i a p, at_id P id (P id ++ [q]) i !! a = Some p ->
            P i !! a = Some p \/ i = id /\ p = q /\ a = length (P id)) as Hlk.
  { intros i a p. unfold at_id. case_decide; [subst|tauto].
    intros [?|[Hge Hs]]%lookup_app_Some; [tauto|].
    apply list_lookup_singleton_Some in Hs as [? ->]. right. split_and!; [done..|lia]. }
  split.
  - intros i p [Hp|[-> ->]]%Hin; [by apply He|done].
  - intros i j a b p r Hp Hr' Hne.
    destruct (Hlk _ _ _ Hp) as [Hp'|(-> & -> & ->)], (Hlk _ _ _ Hr') as [Hr2|(-> & -> & ->)].
    + by eapply Ha.
    + apply Hd. by eapply list_elem_of_lookup_2.
    + destruct (Hd j r); [by eapply list_elem_of_lookup_2|by right|by left].
    + done.
  - done.
  - intros i p Hb0 [Hp|[-> ->]]%Hin; eauto.
  - intros Hb0. destruct (Hr Hb0) as (? & ? & H3). split_and!; [done..|].
    intros i p [Hp|[-> ->]]%Hin; eauto.
Qed.

(** ** Chunks *)

Section config.
Hypothesis Hco : config_ok.

Lemma plen_bounds id : 0 <= id <= N -> 0 < plen id <= slab_page_size settings /\ sz id * per id <= plen id.
Proof.
  intros Hid. destruct Hco as [HN Hp [Hz Hz'] Hc]. unfold plen, header_end in *. case_decide.
  - subst. rewrite Hz. lia.
  - destruct (Hc id) as (? & ? & ?); [lia|]. destruct (_ || _); [lia|]. nia.
Qed.

Lemma page_chunk_inside id p x :
  x ∈ page_chunks id p -> 1 <= id <= N -> p <= x /\ x + sz id <= p + plen id.
Proof.
  intros (i & Hi & ->)%elem_chunks Hid. destruct (plen_bounds id) as [_ Hl]; [lia|].
  destruct (co_class Hco id Hid) as (H1 & H2 & _). unfold header_end in H1. split; [nia|].
  assert (sz id * Z.of_nat i + sz id <= sz id * per id) by nia. lia.
Qed.

Lemma page_chunks_pool p : page_chunks 0 p = [].
Proof. unfold page_chunks. by rewrite (proj2 (co_pool Hco)). Qed.

Lemma pool_chunks l : (l ≫= page_chunks 0) = [].
Proof. induction l as [|p l IH]; [done|]. csimpl. by rewrite page_chunks_pool, IH. Qed.

(** The chunk [x] of a page of class [id]. *)
Lemma elem_pages_chunks s P id x :
  layout s P -> x ∈ (P id ≫= page_chunks id) ->
  1 <= id <= N /\ exists a p, P id !! a = Some p /\ x ∈ page_chunks id p.
Proof.
  intros Hl (p & Hx & Hp)%list_elem_of_bind. destruct (la_elem _ _ Hl id p Hp) as (Hid & _).
  destruct (decide (id = 0)) as [->|]; [by rewrite page_chunks_pool in Hx; apply elem_of_nil in Hx|].
  split; [lia|]. apply list_elem_of_lookup in Hp as [a Ha]. eauto.
Qed.

Lemma chunks_disjoint s P i j x y :
  layout s P -> x ∈ (P i ≫= page_chunks i) -> y ∈ (P j ≫= page_chunks j) -> (i, x) <> (j, y) ->
  x + sz i <= y \/ y + sz j <= x.
Proof.
  intros Hl Hx Hy Hne.
  destruct (elem_pages_chunks _ _ _ _ Hl Hx) as (Hi & a & p & Hp & Hx').
  destruct (elem_pages_chunks _ _ _ _ Hl Hy) as (Hj & b & q & Hq & Hy').
  pose proof (page_chunk_inside _ _ _ Hx' Hi). pose proof (page_chunk_inside _ _ _ Hy' Hj).
  destruct (decide ((i, a) = (j, b))) as [[= <- <-]|Hab].
  - replace q with p in * by congruence.
    apply elem_chunks in Hx' as (n & _ & ->), Hy' as (m & _ & ->).
    assert (n <> m) by congruence. destruct (co_class Hco i Hi) as (Hsz & _). unfold header_end in Hsz.
    destruct (decide (n < m)%nat); [left|right]; nia.
  - destruct (la_apart _ _ Hl i j a b p q Hp Hq Hab); [left|right]; lia.
Qed.

Lemma chunks_mapped s P id x :
  layout s P -> x ∈ (P id ≫= page_chunks id) ->
  1 <= id <= N /\ 0 < x /\ mapped (blocks s) x (sz id) = true.
Proof.
  intros Hl Hx. destruct (elem_pages_chunks _ _ _ _ Hl Hx) as (Hid & a & p & Hp & Hx').
  destruct (page_chunk_inside _ _ _ Hx' Hid).
  destruct (la_elem _ _ Hl id p) as (_ & ? & Hm); [by eapply list_elem_of_lookup_2|].
  split; [done|]. split; [lia|]. eapply mapped_sub; [done|lia..].
Qed.

Lemma chunks_pages_NoDup s P id : layout s P -> NoDup (P id ≫= page_chunks id).
Proof.
  intros Hl. destruct (decide (P id = [])) as [->|Hne]; [constructor|].
  assert (0 <= id <= N) as Hid.
  { destruct (P id) as [|p l] eqn:E; [done|]. apply (la_elem _ _ Hl id p). rewrite E. by left. }
  destruct (decide (id = 0)) as [->|].
  { rewrite pool_chunks. constructor. }
  pose proof (plen_bounds id Hid) as [Hpl _].
  apply NoDup_bind.
  - intros p q x Hp Hq Hxp Hxq. apply list_elem_of_lookup in Hp as [a Ha], Hq as [b Hb].
    pose proof (page_chunk_inside _ _ _ Hxp ltac:(lia)).
    pose proof (page_chunk_inside _ _ _ Hxq ltac:(lia)).
    destruct (co_class Hco id) as (Hs & _); [lia|]. unfold header_end in Hs.
    destruct (decide (a = b)) as [<-|Hab]; [congruence|].
    destruct (la_apart _ _ Hl id id a b p q Ha Hb); [congruence|lia..].
  - intros p _. apply chunks_NoDup. destruct (co_class Hco id) as (Hs & _); [lia|].
    unfold header_end in Hs. lia.
  - apply NoDup_alt. intros a b p Ha Hb. destruct (decide (a = b)); [done|].
    destruct (la_apart _ _ Hl id id a b p p Ha Hb); [congruence|lia..].
Qed.

(** *** Free or in use *)

Section represented.
Context (s : state) (F U P : Z -> list Z) (Hrep : rep s F U P).

Lemma owned id x : x ∈ F id ++ U id <-> x ∈ (P id ≫= page_chunks id).
Proof. by rewrite (rp_chunks _ _ _ _ Hrep id). Qed.

Lemma owned_mapped id x :
  x ∈ F id ++ U id -> 1 <= id <= N /\ 0 < x /\ mapped (blocks s) x (sz id) = true.
Proof. rewrite owned. apply chunks_mapped, Hrep. Qed.

Lemma owned_disjoint i j x y :
  x ∈ F i ++ U i -> y ∈ F j ++ U j -> (i, x) <> (j, y) -> x + sz i <= y \/ y + sz j <= x.
Proof. rewrite !owned. apply (chunks_disjoint s), Hrep. Qed.

Lemma owned_NoDup id : NoDup (F id ++ U id).
Proof. rewrite (rp_chunks _ _ _ _ Hrep id). apply (chunks_pages_NoDup s), Hrep. Qed.

(** Chunks in use, and what is inside them, are on no free list. *)
Lemma used_not_free id x q j :
  x ∈ U id -> x <= q < x + sz id -> q ∉ F j.
Proof.
  intros Hx Hq Hf. destruct (owned_mapped j q) as (Hj & _); [set_solver|].
  destruct (co_class Hco j Hj) as (Hs & _). unfold header_end in Hs.
  destruct (decide ((id, x) = (j, q))) as [[= <- <-]|Hne].
  - pose proof (owned_NoDup id) as Hn. apply NoDup_app in Hn as (_ & Hn & _). by apply (Hn x).
  - destruct (owned_disjoint id j x q); [set_solver..|done|lia|lia].
Qed.
End represented.

(** ** Freeing chunks *)

Lemma do_slabs_free_spec s F id p :
  lists s F -> 1 <= id <= N -> 0 < p -> mapped (blocks s) p header_end = true ->
  (forall j, p ∉ F j) -> has (hdr s p) ITEM_CHUNKED = false ->
  Z.of_nat (length (F id)) + 1 < 2 ^ 32 ->
  exists s', do_slabs_free s p id = Ret s' /\ lists s' (at_id F id (p :: F id)) /\
    same_pages s s' /\ (forall q, q <> p -> (forall j, q ∉ F j) -> hdr s' q = hdr s q).
Proof.
  intros Hl Hid Hp Hm Hout Hc Hlen. unfold do_slabs_free, POWER_SMALLEST.
  rewrite (li_n _ _ Hl). replace ((1 <=? id) && (id <=? N)) with true by lia. cbn [assert obind].
  rewrite get_mapped by done. cbn [obind]. rewrite Hc, upd_mapped by done. cbn [obind].
  set (h := with_clsid _ _). set (s1 := set_headers s _).
  destruct (push_free_spec s1 F id p) as (s' & E & Hl' & Hsp & Hfr); try done.
  - by apply lists_upd.
  - unfold s1. by rewrite hdr_insert, decide_True.
  - unfold s1. rewrite hdr_insert, decide_True by done. simpl. apply u8_small.
    pose proof (co_n Hco). unfold is_u8. lia.
  - exists s'. split_and!; [done..| |].
    + etransitivity; [|done]. apply same_pages_headers.
    + intros q Hq Hn. rewrite Hfr by done. unfold s1. by rewrite hdr_insert, decide_False.
Qed.

Lemma split_from_spec n s F id p :
  lists s F -> 1 <= id <= N -> 0 < p ->
  (forall x, x ∈ chunks n p (sz id) ->
    mapped (blocks s) x header_end = true /\ (forall j, x ∉ F j) /\
    has (hdr s x) ITEM_CHUNKED = false) ->
  Z.of_nat (length (F id)) + Z.of_nat n < 2 ^ 32 ->
  exists s', split_from n s p (sz id) id = Ret s' /\
    lists s' (at_id F id (reverse (chunks n p (sz id)) ++ F id)) /\ same_pages s s' /\
    (forall q, q ∉ chunks n p (sz id) -> (forall j, q ∉ F j) -> hdr s' q = hdr s q).
Proof.
  intros Hl Hid. destruct (co_class Hco id Hid) as (Hsz & _). unfold header_end in Hsz.
  revert s F p Hl. induction n as [|n IH]; intros s F p Hl Hp Hx Hlen.
  - exists s. split_and!; [done| |done|done]. eapply lists_ext; [|done].
    intros i. unfold at_id. by case_decide; subst.
  - simpl in Hx |- *. destruct (Hx p) as (Hm & Hout & Hc); [by left|].
    destruct (do_slabs_free_spec s F id p) as (s1 & -> & Hl1 & Hsp1 & Hfr1); try done; [lia|].
    cbn [obind]. pose proof (chunks_NoDup (S n) p (sz id) ltac:(lia)) as Hn. simpl in Hn.
    apply NoDup_cons in Hn as [Hn _].
    assert (forall x, x ∈ chunks n (p + sz id) (sz id) -> x <> p) as Hne by (intros x ? ->; done).
    destruct (IH s1 (at_id F id (p :: F id)) (p + sz id)) as (s' & E & Hl' & Hsp & Hfr); [done|lia| | |].
    + intros x Hin. destruct (Hx x) as (H1 & H2 & H3); [by right|]. split_and!.
      * by rewrite (sp_blocks _ _ Hsp1).
      * intros j. unfold at_id. case_decide; [subst|apply H2]. apply not_elem_of_cons. auto.
      * rewrite Hfr1; auto.
    + rewrite at_id_eq. simpl. lia.
    + exists s'. split_and!; [done| |by etransitivity|].
      * eapply lists_ext; [|exact Hl']. intros i. rewrite at_id_eq, reverse_cons, <- (assoc_L (++)).
        unfold at_id. by case_decide.
      * intros q Hq Hnq. apply not_elem_of_cons in Hq as [Hq1 Hq2]. rewrite Hfr; [by apply Hfr1|done|].
        intros j. unfold at_id. case_decide; [|apply Hnq]. apply not_elem_of_cons. auto.
Qed.

Lemma split_slab_page_spec s F id p :
  lists s F -> 1 <= id <= N -> 0 < p ->
  (forall x, x ∈ page_chunks id p ->
    mapped (blocks s) x header_end = true /\ (forall j, x ∉ F j) /\
    has (hdr s x) ITEM_CHUNKED = false) ->
  Z.of_nat (length (F id)) + per id < 2 ^ 32 ->
  exists s', split_slab_page_into_freelist s p id = Ret s' /\
    lists s' (at_id F id (reverse (page_chunks id p) ++ F id)) /\ same_pages s s' /\
    (forall q, q ∉ page_chunks id p -> (forall j, q ∉ F j) -> hdr s' q = hdr s q).
Proof.
  intros Hl Hid Hp Hx Hlen. destruct (li_cls _ _ Hl id) as (c & Hc & Ev); [lia|].
  injection Ev as E1 E2 _ _. unfold split_slab_page_into_freelist. rewrite Hc. cbn [obind].
  rewrite E1, E2. pose proof (co_class Hco id Hid).
  by apply split_from_spec; try done; lia.
Qed.

(** ** Pages *)

(** A change to the pages of a class. *)
Lemma set_pages_spec s F P id c n l rest k :
  lists s F -> page_lists s P -> 0 <= id <= N -> cls s id = Ret c ->
  n = Z.of_nat (length l) -> k = Z.of_nat (length (l ++ rest)) ->
  let s' := set_slabclass s (<[Z.to_nat id := with_pages n (l ++ rest) k c]> (slabclass s)) in
  lists s' F /\ page_lists s' (at_id P id l).
Proof.
  intros Hl [Hp] Hid Hc -> ->. split.
  - eapply lists_frame; [done..| |done]. intros i c0 Hi. rewrite (cls_insert s id c) by done.
    case_decide; [|eauto]. subst. replace c0 with c by congruence. eauto.
  - split. intros i Hi. rewrite (cls_insert s id c) by done. unfold at_id. case_decide; [|by apply Hp].
    subst. eexists _, rest. split_and!; try done.
Qed.

Lemma page_lists_ext s P P' : (forall i, P' i = P i) -> page_lists s P -> page_lists s P'.
Proof. intros E [H]. split. intros id Hid. rewrite E. by apply H. Qed.

Section memory.
Context (malloc : list (Z * Z) -> Z -> Z) (realloc : Z -> bool).

(** What [malloc] gives lies outside the blocks in use. *)
Definition malloc_ok : Prop :=
  forall l n, 0 < n -> malloc l n = 0 \/
    0 < malloc l n /\ forall b, b ∈ l -> fst b + snd b <= malloc l n \/ malloc l n + n <= fst b.

Lemma grow_slab_list_spec s F P id :
  lists s F -> page_lists s P -> 0 <= id <= N -> Z.of_nat (length (P id)) < 2 ^ 31 ->
  exists s' ok, grow_slab_list realloc s id = Ret (s', ok) /\ lists s' F /\ page_lists s' P /\
    headers s' = headers s /\ (exists l, s' = set_slabclass s l) /\
    (ok = true -> exists c x r, cls s' id = Ret c /\ slabs c = Z.of_nat (length (P id)) /\
      slab_list c = P id ++ x :: r).
Proof.
  intros Hl Hp Hid Hlen. destruct (pl_cls _ _ Hp id Hid) as (c & rest & Hc & E1 & E2 & E3).
  assert (exists l, s = set_slabclass s l) as Hself by (exists (slabclass s); by destruct s).
  unfold grow_slab_list. rewrite Hc. cbn [obind].
  assert (length (slab_list c) = length (P id) + length rest)%nat as Elen
    by (by rewrite E2, length_app).
  destruct (Z.eqb_spec (slabs c) (list_size c)) as [Eq|Hne]; [destruct (realloc id)|].
  - rewrite (upd_cls_ok _ _ _ c Hc). cbn [obind]. destruct rest as [|x r]; [|simpl in *; lia].
    rewrite app_nil_r in E2. set (new := if list_size c =? 0 then 16 else list_size c * 2).
    assert (list_size c < new < 2 ^ 32) as Hnew by (unfold new; case_match; lia).
    rewrite u32_small by (unfold is_u32; lia). rewrite E2.
    destruct (set_pages_spec s F P id c (slabs c) (P id)
                (replicate (Z.to_nat (new - list_size c)) 0) new) as [H1 H2]; try done.
    { rewrite length_app, length_replicate. lia. }
    eexists _, true. split; [done|]. split; [done|]. split_and!; [|done|by eexists|].
    + eapply page_lists_ext; [|exact H2]. intros i. unfold at_id. by case_decide; subst.
    + intros _. destruct (Z.to_nat (new - list_size c)) as [|m] eqn:Em; [lia|].
      eexists _, 0, (replicate m 0). rewrite (cls_insert s id c), decide_True by done. done.
  - exists s, false. done.
  - exists s, true. split_and!; try done. intros _. destruct rest as [|x r]; [|eauto 10].
    simpl in *. lia.
Qed.

Lemma get_page_spec s F P :
  lists s F -> page_lists s P ->
  exists s' q, get_page_from_global_pool s = Ret (s', q) /\ headers s' = headers s /\
    (exists l, s' = set_slabclass s l) /\ (forall i, i <> 0 -> cls s' i = cls s i) /\
    (P 0 = [] /\ s' = s /\ q = 0 \/
     exists l, P 0 = l ++ [q] /\ lists s' F /\ page_lists s' (at_id P 0 l)).
Proof.
  intros Hl Hp. assert (0 <= 0 <= N) as H0 by (pose proof (co_n Hco); lia).
  destruct (pl_cls _ _ Hp 0 H0) as (c & rest & Hc & E1 & E2 & E3).
  assert (s = set_slabclass s (slabclass s)) as Hself by (by destruct s).
  unfold get_page_from_global_pool, SLAB_GLOBAL_PAGE_POOL. rewrite Hc. cbn [obind].
  destruct (P 0) as [|q l _] eqn:EP using rev_ind.
  - rewrite E1. simpl. exists s, 0. split_and!; eauto.
  - assert (slabs c = Z.of_nat (length l) + 1) as -> by (rewrite E1, length_app; simpl; lia).
    destruct (Z.ltb_spec (Z.of_nat (length l) + 1) 1) as [?|_]; [lia|].
    replace (Z.of_nat (length l) + 1 - 1) with (Z.of_nat (length l)) by lia.
    rewrite E2, <- (assoc_L (++)). simpl. rewrite getZ_app_at. cbn [of_option obind].
    rewrite (upd_cls_ok _ _ _ c Hc). cbn [obind].
    destruct (set_pages_spec s F P 0 c (Z.of_nat (length l)) l (q :: rest) (list_size c))
      as [H1 H2]; try done.
    { rewrite E3, E2, <- (assoc_L (++)). done. }
    eexists _, q. split; [done|]. split; [done|]. split; [by eexists|]. split; [|by eauto].
    intros i Hi. by rewrite (cls_insert s 0 c), decide_False.
Qed.

Definition up8 (n : Z) : Z :=
  if n mod CHUNK_ALIGN_BYTES =? 0 then n else n + (CHUNK_ALIGN_BYTES - n mod CHUNK_ALIGN_BYTES).

Lemma up8_le n : 0 < n -> n <= up8 n.
Proof.
  intros. unfold up8, CHUNK_ALIGN_BYTES. case_match; [lia|].
  pose proof (Z.mod_pos_bound n 8). lia.
Qed.

(** How memory grows by at most [n] bytes; [mem_malloced] also counts what
    [malloc] did not give. *)
Record growth (s s' : state) (n : Z) : Prop := {
  gr_limit : mem_limit s' = mem_limit s;
  gr_base : mem_base s' = mem_base s;
  gr_blocks : mem_base s = 0 ->
    mem_malloced s' = mem_malloced s /\ blocks s' = blocks s \/
    mem_malloced s' = u64 (mem_malloced s + n) /\
    (blocks s' = blocks s \/ exists q, blocks s' = (q, n) :: blocks s)
}.

Lemma growth_same s s' n :
  mem_limit s' = mem_limit s -> mem_base s' = mem_base s -> mem_malloced s' = mem_malloced s ->
  blocks s' = blocks s -> growth s s' n.
Proof. intros. split; auto. Qed.

Lemma growth_then s1 s2 s3 n :
  growth s1 s2 n -> mem_limit s3 = mem_limit s2 -> mem_base s3 = mem_base s2 ->
  mem_malloced s3 = mem_malloced s2 -> blocks s3 = blocks s2 -> growth s1 s3 n.
Proof. intros [H1 H2 H3] E1 E2 E3 E4. split; rewrite ?E1, ?E2, ?E3, ?E4; done. Qed.

Lemma growth_after s1 s2 s3 n :
  growth s2 s3 n -> mem_limit s2 = mem_limit s1 -> mem_base s2 = mem_base s1 ->
  mem_malloced s2 = mem_malloced s1 -> blocks s2 = blocks s1 -> growth s1 s3 n.
Proof. intros [H1 H2 H3] E1 E2 E3 E4. split; rewrite <- ?E1, <- ?E2, <- ?E3, <- ?E4; done. Qed.

(** A block of [malloc] becomes a page. *)
Lemma layout_malloc s P id q :
  layout s P -> 0 <= id <= N -> mem_base s = 0 -> 0 < q ->
  (forall b, b ∈ blocks s -> fst b + snd b <= q \/ q + plen id <= fst b) ->
  layout (add_malloced (set_blocks s ((q, plen id) :: blocks s)) (plen id))
    (at_id P id (P id ++ [q])).
Proof.
  intros [He Ha Hbl Ho Hr] Hid Hb Hq Hd. apply layout_add; simpl; try done.
  - split; simpl; try done.
    + intros i x Hx. destruct (He i x Hx) as (? & ? & ?). split_and!; try done; try lia.
      by apply mapped_cons.
    + split; [|done]. apply Forall_forall. intros y Hy%Hd. simpl. lia.
    + intros i x _ Hx. destruct (Ho i x Hb Hx) as (n & ? & ?). exists n. split; [by right|done].
  - apply mapped_here. lia.
  - intros j x Hx. destruct (Ho j x Hb Hx) as (n & Hn & Hle). apply Hd in Hn. simpl in Hn. lia.
  - intros _. exists (plen id). split; [by left|lia].
Qed.

(** A page of class [id] is found, or there is none. *)
Lemma memory_allocate_spec s P id s' q :
  malloc_ok -> layout s P -> 0 <= id <= N -> memory_allocate malloc s (plen id) = (s', q) ->
  slabclass s' = slabclass s /\ headers s' = headers s /\ power_largest s' = power_largest s /\
  growth s s' (plen id) /\ (q = 0 -> blocks s' = blocks s) /\
  (forall p n, mapped (blocks s) p n = true -> mapped (blocks s') p n = true) /\
  layout s' (if decide (q = 0) then P else at_id P id (P id ++ [q])).
Proof.
  intros Hm Hl Hid. destruct (plen_bounds id Hid) as [[Hpos _] _].
  unfold memory_allocate. destruct (Z.eqb_spec (mem_base s) 0) as [Hb|Hb].
  - destruct (Hm (blocks s) (plen id) Hpos) as [->|[Hq Hd]].
    + intros [= <- <-]. split_and!; try done; [by split; auto|]. by eapply (layout_frame s).
    + replace (_ =? 0) with false by lia. intros [= <- <-].
      split_and!; try done; [split; eauto|lia|intros; by apply mapped_cons|].
      rewrite decide_False by lia. by apply layout_malloc.
  - destruct (Z.ltb_spec (mem_avail s) (plen id)) as [Hlt|Hge].
    + intros [= <- <-]. by split_and!.
    + fold (up8 (plen id)). pose proof (up8_le (plen id) Hpos) as Hup.
      intros [= <- <-]. simpl. destruct (la_arena _ _ Hl Hb) as (Hcur & Hmap & Hbelow).
      split_and!; try done. rewrite decide_False by lia.
      apply layout_add; simpl; try done.
      * destruct Hl as [He Ha Hbl Ho _]. split; simpl; try done. intros _. split; [lia|]. split.
        -- case_match; [|lia]. intros _. eapply mapped_sub; [apply Hmap|..]; lia.
        -- intros i x Hx. specialize (Hbelow i x Hx). lia.
      * eapply mapped_sub; [apply Hmap|..]; lia.
      * intros j x Hx. specialize (Hbelow j x Hx). lia.
      * intros _. lia.
Qed.

(** A page of the pool becomes one of class [id]. *)
Lemma layout_move s P id l q :
  layout s P -> 1 <= id <= N -> P 0 = l ++ [q] ->
  layout s (at_id (at_id P 0 l) id (P id ++ [q])).
Proof.
  intros Hl Hid E. destruct (plen_bounds id) as [[Hpos Hle] _]; [lia|].
  assert (plen 0 = slab_page_size settings) as E0 by (unfold plen; by rewrite decide_True).
  destruct (la_elem _ _ Hl 0 q) as (_ & Hq & Hm); [rewrite E; set_solver|].
  assert (layout s (at_id P 0 l)) as Hl'.
  { eapply layout_sub; [|done]. intros i. unfold at_id. case_decide; [|done]. subst. rewrite E.
    by eexists. }
  assert (P 0 !! length l = Some q) as Hqi by (rewrite E; by apply list_lookup_middle).
  replace (P id) with (at_id P 0 l id) by (rewrite at_id_ne; [done|lia]).
  apply layout_add; try done; [lia|..].
  - eapply mapped_sub; [done|lia..].
  - intros j p Hp. assert (exists a, P j !! a = Some p /\ (j, a) <> (0, length l)) as (a & Ha & Hne).
    { unfold at_id in Hp. case_decide as Ej.
      - subst. apply list_elem_of_lookup in Hp as [a Ha]. pose proof (lookup_lt_Some _ _ _ Ha).
        exists a. rewrite E. split; [by apply lookup_app_l_Some|]. intros [= ->]. lia.
      - apply list_elem_of_lookup in Hp as [a Ha]. exists a. split; [done|]. congruence. }
    destruct (la_apart _ _ Hl _ _ _ _ _ _ Ha Hqi Hne); lia.
  - intros Hb. destruct (la_owner _ _ Hl 0 q Hb) as (n & ? & ?); [rewrite E; set_solver|].
    exists n. split; [done|lia].
  - intros Hb. destruct (la_arena _ _ Hl Hb) as (_ & _ & H). specialize (H 0 q).
    rewrite E in H. assert (q + plen 0 <= mem_current s) by (apply H; set_solver). lia.
Qed.

(** ** New pages *)

(** Counters stay in range: the class has fewer than [2 ^ 32] chunks, also
    with one more page. *)
Definition room (P : Z -> list Z) (id : Z) : Prop :=
  (Z.of_nat (length (P id)) + 1) * per id < 2 ^ 32 /\ Z.of_nat (length (P id)) + 1 < 2 ^ 31.

(** The memory of chunks in use is as it was. *)
Definition used_kept (U : Z -> list Z) (s s' : state) : Prop :=
  (forall i x q, x ∈ U i -> x <= q < x + sz i -> hdr s' q = hdr s q) /\
  (forall p n, mapped (blocks s) p n = true -> mapped (blocks s') p n = true).

Lemma page_len_plen c id :
  1 <= id <= N -> size c = sz id -> perslab c = per id -> page_len settings c = plen id.
Proof.
  intros Hid E1 E2. unfold page_len, plen. rewrite decide_False by lia. destruct (_ || _); [done|].
  rewrite E1, E2. destruct (co_class Hco id Hid) as (? & ? & ?). pose proof (co_page Hco).
  apply s32_small. unfold is_s32, header_end in *. nia.
Qed.

Lemma pages_length id l : length (l ≫= page_chunks id) = (length l * Z.to_nat (per id))%nat.
Proof.
  induction l as [|p l IH]; [done|]. csimpl. rewrite length_app, IH.
  unfold page_chunks. by rewrite chunks_length.
Qed.

Lemma free_length s F U P id :
  rep s F U P -> Z.of_nat (length (F id)) <= Z.of_nat (length (P id)) * Z.max 0 (per id).
Proof.
  intros H. pose proof (Permutation_length (rp_chunks _ _ _ _ H id)) as Hl.
  rewrite length_app, pages_length in Hl. nia.
Qed.

(** A page in hand lies apart from what is free or in use. *)
Lemma owned_away s0 s F U P P0 id q i x :
  rep s0 F U P -> layout s (at_id P0 id (P0 id ++ [q])) -> (forall i, i <> 0 -> P0 i = P i) ->
  x ∈ F i ++ U i -> x + sz i <= q \/ q + plen id <= x.
Proof.
  intros Hr Hla Ene Hx. set (P' := at_id P0 id (P0 id ++ [q])) in *.
  assert (P' id !! length (P0 id) = Some q) as Hq.
  { unfold P'. rewrite at_id_eq. by apply list_lookup_middle. }
  rewrite (rp_chunks _ _ _ _ Hr) in Hx. apply list_elem_of_bind in Hx as (p & Hx & Hpi).
  destruct (decide (i = 0)) as [->|Hi0]; [rewrite page_chunks_pool in Hx; by apply elem_of_nil in Hx|].
  rewrite <- Ene in Hpi by done.
  assert (exists a, P' i !! a = Some p /\ (i, a) <> (id, length (P0 id))) as (a & Ha & Hne).
  { apply list_elem_of_lookup in Hpi as [a Ha]. exists a. unfold P', at_id. case_decide; subst.
    - split; [by apply lookup_app_l_Some|]. apply lookup_lt_Some in Ha. intros [= ->]. lia.
    - split; [done|congruence]. }
  destruct (la_elem _ _ Hla i p) as (Hi & _); [by eapply list_elem_of_lookup_2|].
  destruct (page_chunk_inside i p x Hx); [lia|].
  destruct (la_apart _ _ Hla _ _ _ _ _ _ Ha Hq Hne); lia.
Qed.

(** A page apart from the free chunks is wiped and cut. *)
Lemma wipe_split_spec s F id q :
  lists s F -> 1 <= id <= N -> 0 < q -> mapped (blocks s) q (plen id) = true ->
  (forall i x, x ∈ F i -> x + sz i <= q \/ q + plen id <= x) ->
  Z.of_nat (length (F id)) + per id < 2 ^ 32 ->
  exists s1 s2, wipe s q (plen id) = Ret s1 /\ split_slab_page_into_freelist s1 q id = Ret s2 /\
    lists s2 (at_id F id (reverse (page_chunks id q) ++ F id)) /\ same_pages s s2 /\
    (forall z, ~ (q <= z < q + plen id) -> (forall j, z ∉ F j) -> hdr s2 z = hdr s z).
Proof.
  intros Hl Hid Hq0 Hm Haway Hlen. destruct (wipe_mapped s q (plen id) Hm) as (m & -> & Hin & Hout).
  assert (forall i x, x ∈ F i -> header_end <= sz i) as Hsz.
  { intros i x Hx. destruct (li_elem _ _ Hl i x Hx) as (Hi & _). apply (co_class Hco i Hi). }
  assert (lists (set_headers s m) F) as Hl1.
  { eapply lists_frame; eauto. intros i x Hx. apply Hout.
    specialize (Hsz i x Hx). specialize (Haway i x Hx). unfold header_end in Hsz. lia. }
  assert (forall x, x ∈ page_chunks id q -> q <= x < q + plen id /\ x + sz id <= q + plen id) as Hpc.
  { intros x Hx. destruct (page_chunk_inside id q x Hx Hid). destruct (co_class Hco id Hid) as (Hs & _).
    unfold header_end in Hs. lia. }
  destruct (split_slab_page_spec (set_headers s m) F id q) as (s2 & Es & Hl2 & Hsp & Hfr); try done.
  { intros x Hx. destruct (Hpc x Hx). destruct (co_class Hco id Hid) as (Hs & _). split_and!.
    - simpl. eapply mapped_sub; [done|lia..].
    - intros j Hj. specialize (Hsz j x Hj). specialize (Haway j x Hj). unfold header_end in Hsz. lia.
    - by rewrite Hin. }
  exists (set_headers s m), s2. split_and!; try done.
  - etransitivity; [apply same_pages_headers|done].
  - intros z Hz Hnz. rewrite Hfr; [by apply Hout| |done]. intros Hzp. destruct (Hpc z Hzp). lia.
Qed.

Lemma add_slab_spec s F P id q c x r :
  lists s F -> page_lists s P -> 0 <= id <= N -> Z.of_nat (length (P id)) + 1 < 2 ^ 31 ->
  cls s id = Ret c -> slab_list c = P id ++ x :: r ->
  exists s', add_slab s id q = Ret s' /\ lists s' F /\ page_lists s' (at_id P id (P id ++ [q])) /\
    (exists l, s' = set_slabclass s l).
Proof.
  intros Hl Hp Hid Hlen Hc Ell. destruct (pl_cls _ _ Hp id Hid) as (c' & r' & Hc' & E1 & _ & E3).
  replace c' with c in * by congruence. unfold add_slab. rewrite Hc. cbn [obind]. rewrite E1, Ell.
  rewrite (setZ_app_at _ _ _ _ _ eq_refl). cbn [of_option obind]. rewrite (upd_cls_ok _ _ _ c Hc).
  rewrite u32_small by (unfold is_u32; lia).
  destruct (set_pages_spec s F P id c (Z.of_nat (length (P id)) + 1) (P id ++ [q]) r (list_size c) Hl Hp)
    as [Hl' Hp']; [lia|done|by rewrite length_app; simpl; lia| |].
  { rewrite <- (assoc_L (++)). simpl. rewrite E3, Ell, !length_app. simpl. lia. }
  rewrite <- (assoc_L (++)) in Hl', Hp'. simpl in Hl', Hp'. eexists. split_and!; [done..|by eexists].
Qed.

(** The chunks of a class and its counters with one more page. *)
Lemma chunks_added s F U P P0 id q :
  rep s F U P -> 1 <= id <= N -> (forall i, i <> 0 -> P0 i = P i) -> room P id ->
  let F' := at_id F id (reverse (page_chunks id q) ++ F id) in
  let P' := at_id P0 id (P0 id ++ [q]) in
  (forall i, F' i ++ U i ≡ₚ (P' i ≫= page_chunks i)) /\
  (forall i, Z.of_nat (length (P' i)) * Z.max 0 (per i) < 2 ^ 32).
Proof.
  intros Hr Hid Ene Hroom. pose proof (rp_chunks _ _ _ _ Hr) as Hch. simpl.
  split; intros i; unfold at_id; (case_decide; [subst i|destruct (decide (i = 0)) as [->|]]).
  - rewrite Ene, bind_app, bind_singleton, reverse_Permutation, <- Hch by lia.
    rewrite <- (assoc_L (++)). by rewrite (comm (++)).
  - rewrite Hch, !pool_chunks. done.
  - by rewrite Hch, Ene.
  - rewrite Ene, length_app by lia. simpl. destruct Hroom. pose proof (co_class Hco id Hid). lia.
  - rewrite (proj2 (co_pool Hco)). lia.
  - rewrite Ene by done. apply Hr.
Qed.

(** A page in hand is wiped, cut and added to the class. *)
Lemma cut_page_spec s0 s F U P P0 id q :
  rep s0 F U P -> lists s F -> page_lists s P0 -> layout s (at_id P0 id (P0 id ++ [q])) ->
  1 <= id <= N -> (forall i, i <> 0 -> P0 i = P i) -> room P id ->
  (exists c x r, cls s id = Ret c /\ slabs c = Z.of_nat (length (P id)) /\ slab_list c = P id ++ x :: r) ->
  exists s1 s2 s', wipe s q (plen id) = Ret s1 /\ split_slab_page_into_freelist s1 q id = Ret s2 /\
    add_slab s2 id q = Ret s' /\
    rep s' (at_id F id (reverse (page_chunks id q) ++ F id)) U (at_id P0 id (P0 id ++ [q])) /\
    used_kept U s s' /\ same_pages s s2 /\ (exists l, s' = set_slabclass s2 l).
Proof.
  intros Hr Hl Hp Hla Hid Ene Hroom (c & x & r & Hc & _ & Ell).
  pose proof (free_length _ _ _ _ id Hr) as Hlen. pose proof (Ene id ltac:(lia)) as E0.
  pose proof (owned_away s0 s F U P P0 id q) as Haway.
  assert (q ∈ at_id P0 id (P0 id ++ [q]) id) as Hq by (rewrite at_id_eq; set_solver).
  destruct (la_elem _ _ Hla id q Hq) as (_ & Hq0 & Hm).
  destruct (wipe_split_spec s F id q) as (s1 & s2 & Ew & Es & Hl2 & Hsp & Hfr); try done.
  { intros i y Hy. by apply (Haway i y Hr Hla Ene), elem_of_app; left. }
  { destruct Hroom. pose proof (co_class Hco id Hid). nia. }
  destruct (sp_cls _ _ Hsp id c Hc) as (c2 & Hc2 & Ev). injection Ev as _ _ V1 V2 V3.
  assert (page_lists s2 P0) as Hp2 by by eapply page_lists_frame.
  destruct (add_slab_spec s2 _ P0 id q c2 x r Hl2 Hp2) as (s' & Ea & Hl' & Hp' & [l Es']);
    [lia|rewrite E0; apply Hroom|done|by rewrite V2, E0|].
  destruct (chunks_added s0 F U P P0 id q Hr Hid Ene Hroom) as [Hch' Hct'].
  exists s1, s2, s'. split; [done|]. split; [done|]. split; [done|]. split; [|split; [|by split; eauto]].
  - split; try done. eapply layout_frame; [..|exact Hla]; rewrite Es'; simpl; apply Hsp.
  - split; [|by rewrite Es'; simpl; rewrite (sp_blocks _ _ Hsp)]. intros i y z Hy Hz.
    transitivity (hdr s2 z); [by rewrite Es'|]. apply Hfr; [|intros j; by eapply used_not_free].
    destruct (Haway i y Hr Hla Ene); [by apply elem_of_app; right|lia..].
Qed.

Lemma used_kept_headers U s s' :
  headers s' = headers s -> blocks s' = blocks s -> used_kept U s s'.
Proof. intros E1 E2. unfold used_kept, hdr. by rewrite E1, E2. Qed.

(** A page of length [plen id], from the pool or from [memory_allocate]. *)
Lemma find_page_spec s F P id :
  malloc_ok -> lists s F -> page_lists s P -> layout s P -> 1 <= id <= N ->
  exists s1 q1 s2 q P', get_page_from_global_pool s = Ret (s1, q1) /\
    (if q1 =? 0 then memory_allocate malloc s1 (plen id) else (s1, q1)) = (s2, q) /\
    lists s2 F /\ page_lists s2 P' /\ (forall i, i <> 0 -> P' i = P i) /\
    layout s2 (if decide (q = 0) then P' else at_id P' id (P' id ++ [q])) /\
    headers s2 = headers s /\ (forall i, i <> 0 -> cls s2 i = cls s i) /\
    (forall p n, mapped (blocks s) p n = true -> mapped (blocks s2) p n = true) /\
    growth s s2 (plen id) /\ (q = 0 -> blocks s2 = blocks s) /\ (P 0 = [] -> P' 0 = []).
Proof.
  intros Hm Hl Hp Hla Hid. destruct (get_page_spec s F P Hl Hp) as (s1 & q1 & E1 & Eh & [l Es] & Ec & H).
  exists s1, q1. destruct H as [(EP & -> & ->)|(l' & EP & Hl1 & Hp1)].
  - simpl. destruct (memory_allocate malloc s (plen id)) as [s2 q] eqn:Em. exists s2, q, P.
    destruct (memory_allocate_spec s P id s2 q) as (E2 & E3 & E4 & E5 & E6 & E7 & E8); [done..|lia|done|].
    split_and!; try done.
    + eapply lists_frame; [done..| |]; unfold cls, hdr; rewrite ?E2, ?E3; eauto.
    + split. unfold cls. rewrite E2. apply Hp.
    + intros i _. unfold cls. by rewrite E2.
  - destruct (la_elem _ _ Hla 0 q1) as (_ & Hq & _); [rewrite EP; set_solver|].
    replace (q1 =? 0) with false by lia. exists s1, q1, (at_id P 0 l').
    split_and!; try done; [| |subst s1; try done..]; [| |by apply growth_same|].
    + intros i Hi. by rewrite at_id_ne.
    + rewrite decide_False by lia. rewrite (at_id_ne P) by lia. eapply layout_frame; [..|by apply layout_move]; by subst.
    + intros E0. by rewrite E0 in EP; destruct l'.
Qed.

(** Only the limit and the counter of memory changed. *)
Lemma rep_frame s s' F U P :
  rep s F U P -> slabclass s' = slabclass s -> power_largest s' = power_largest s ->
  headers s' = headers s -> blocks s' = blocks s -> mem_base s' = mem_base s ->
  mem_current s' = mem_current s -> mem_avail s' = mem_avail s -> rep s' F U P.
Proof.
  intros [Hl Hp Hla Hch Hct] E1 E2 E3 E4 E5 E6 E7. split; [| | |done..].
  - eapply lists_frame; [done|done|by rewrite E4|unfold cls; rewrite E1; eauto|].
    unfold hdr. by rewrite E3.
  - split. unfold cls. rewrite E1. apply Hp.
  - by eapply layout_frame.
Qed.

(** A page may be asked for: the limit is not reached, or it is the first of
    its class. *)
Definition allowed (s : state) (P : Z -> list Z) (id : Z) : Prop :=
  mem_limit s = 0 \/ u64 (mem_malloced s + plen id) <= mem_limit s \/ P id = [] \/ P 0 <> [].

(** What changes when class [id] gets a page, if [ok], and memory grows at
    most by it. *)
Record took_page (s s' : state) (P P' : Z -> list Z) (id : Z) (ok : bool) : Prop := {
  tp_growth : growth s s' (plen id);
  tp_others i : i <> 0 -> i <> id -> P' i = P i;
  tp_pool : P 0 = [] -> P' 0 = [];
  tp_page : if ok then exists q, P' id = P id ++ [q] else P' id = P id;
  tp_blocks : blocks s' = blocks s \/ ok = true /\ allowed s P id
}.

Lemma took_none s s' P P' id :
  growth s s' (plen id) -> blocks s' = blocks s -> (forall i, i <> 0 -> P' i = P i) ->
  (P 0 = [] -> P' 0 = []) -> 1 <= id -> took_page s s' P P' id false.
Proof. intros H1 H2 H3 H4 H5. split; auto. apply H3. lia. Qed.

Lemma took_same s s' P id :
  mem_limit s' = mem_limit s -> mem_base s' = mem_base s -> mem_malloced s' = mem_malloced s ->
  blocks s' = blocks s -> 1 <= id -> took_page s s' P P id false.
Proof. intros. apply took_none; auto. by apply growth_same. Qed.

Lemma do_slabs_newslab_spec s F U P id :
  malloc_ok -> rep s F U P -> 1 <= id <= N -> room P id ->
  exists s' ok F' P', do_slabs_newslab settings malloc realloc s id = Ret (s', ok) /\
    rep s' F' U P' /\ used_kept U s s' /\ took_page s s' P P' id ok.
Proof.
  intros Hm Hr Hid Hroom. pose proof Hr as [Hl Hp Hla Hch Hct].
  destruct (li_cls _ _ Hl id) as (c & Hc & Ev); [lia|]. injection Ev as V1 V2 _ _.
  destruct (li_cls _ _ Hl 0) as (g & Hg & _); [lia|].
  unfold do_slabs_newslab, SLAB_GLOBAL_PAGE_POOL. rewrite Hc, Hg. cbn [obind].
  rewrite (page_len_plen c id) by done.
  destruct (_ && _) eqn:Elim.
  { eexists _, false, F, P. split; [done|]. split; [by eapply rep_frame|].
    split; [by apply used_kept_headers|]. apply took_same; try done; lia. }
  assert (allowed s P id) as Hall.
  { destruct (pl_cls _ _ Hp id) as (c' & r & Hc' & Ec & _); [lia|].
    destruct (pl_cls _ _ Hp 0) as (g' & r' & Hg' & Eg & _); [lia|].
    replace c' with c in * by congruence. replace g' with g in * by congruence.
    rewrite Ec, Eg in Elim. unfold allowed.
    destruct (P id) eqn:E1; [auto|]. destruct (P 0) eqn:E2; [|by auto].
    apply andb_false_iff in Elim as [Elim|Elim]; [|done].
    apply andb_false_iff in Elim as [Elim|Elim]; [|apply Z.ltb_ge in Elim; cbn [length] in Elim; lia]. lia. }
  destruct (grow_slab_list_spec s F P id) as (s1 & ok & -> & Hl1 & Hp1 & Eh1 & [l1 Es1] & Hc1);
    [done|done|lia|destruct Hroom; lia|]. cbn [obind].
  assert (blocks s1 = blocks s /\ layout s1 P) as [Eb1 Hla1]
    by (rewrite Es1; split; [done|by eapply (layout_frame s)]).
  assert (mem_limit s1 = mem_limit s /\ mem_base s1 = mem_base s /\ mem_malloced s1 = mem_malloced s)
    as (El1 & Ebase1 & Em1) by by rewrite Es1.
  destruct ok; simpl; [|].
  2:{ exists s1, false, F, P. split; [done|]. split; [by split|]. split; [by apply used_kept_headers|].
      apply took_same; try done; lia. }
  destruct (find_page_spec s1 F P id) as (s2 & q1 & s3 & q & P' & -> & E2 & Hl3 & Hp3 & Ene & Hla3 & Eh3
    & Ec3 & Hm3 & Hg3 & Hq3 & Hpool); [done..|]. cbn [obind]. rewrite E2.
  assert (growth s s3 (plen id)) as Hgr by by eapply growth_after.
  destruct (Z.eqb_spec q 0) as [->|Hq].
  { exists s3, false, F, P'. split; [done|]. split; [|split; [split|]].
    - split; [done..| |]; intros i; destruct (decide (i = 0)) as [->|].
      + rewrite Hch, !pool_chunks. done.
      + by rewrite Hch, Ene.
      + rewrite (proj2 (co_pool Hco)). lia.
      + by rewrite Ene.
    - intros. unfold hdr. by rewrite Eh3, Eh1.
    - by rewrite <- Eb1.
    - apply took_none; [done|by rewrite Hq3, Eb1|done|done|lia]. }
  rewrite decide_False in Hla3 by done.
  destruct (cut_page_spec s s3 F U P P' id q) as (s4 & s5 & s' & -> & E5 & E6 & Hr' & Hk & Hsp & [l Es']); try done.
  { rewrite Ec3 by lia. by apply Hc1. }
  cbn [obind]. rewrite E5. cbn [obind]. rewrite E6. cbn [obind]. eexists s', true, _, _. split; [done|].
  split; [exact Hr'|]. split; [|split].
  - destruct Hk as [Hk1 Hk2]. split.
    + intros i x z Hx Hz. rewrite (Hk1 i x z Hx Hz). unfold hdr. by rewrite Eh3, Eh1.
    + intros p n Hp0. by apply Hk2, Hm3; rewrite Eb1.
  - eapply growth_then; [done|..]; rewrite Es'; simpl; apply Hsp.
  - intros i Hi Hii. by rewrite at_id_ne, Ene.
  - intros H0. rewrite at_id_ne by lia. auto.
  - exists q. rewrite at_id_eq, Ene by lia. done.
  - by right.
Qed.

(** ** Allocation *)

(** The free lists after the first chunk of one is taken. *)
Lemma lists_pop s s' F id p l c :
  lists s F -> F id = p :: l -> cls s id = Ret c ->
  power_largest s' = power_largest s -> blocks s' = blocks s ->
  (forall i, cls s' i = if decide (i = id) then Ret (with_free (hd 0 l) (sl_curr c - 1) c) else cls s i) ->
  (forall q, hdr s' q = if decide (p = q) then with_state 1 0 (hdr s p)
                        else if decide (head l = Some q) then with_prev 0 (hdr s q) else hdr s q) ->
  lists s' (at_id F id l).
Proof.
  intros Hl EF Hc En Eb Ecls Eh. pose proof Hl as [Hn Hcls Hd He Ha].
  pose proof (Hd id) as Hdl. rewrite EF in Hdl. destruct Hdl as (_ & Hnx & Hdl).
  pose proof (apart_NoDup F id Ha) as Hnd. rewrite EF in Hnd. apply NoDup_cons in Hnd as [Hpl Hnd].
  assert (forall i q, q ∈ at_id F id l i -> q ∈ F i /\ p <> q) as Hin.
  { intros i q Hq. unfold at_id in Hq. case_decide as Ei; [subst; rewrite EF|].
    - split; [by right|]. by intros ->.
    - split; [done|]. intros ->. by apply Ei, (apart_elem F i id q); [..|rewrite EF; left]. }
  split.
  - congruence.
  - intros i Hi. rewrite Ecls. case_decide as Ei; [subst i|by rewrite at_id_ne; [apply Hcls|]].
    destruct (Hcls id Hi) as (c' & Hc' & Ev). replace c' with c in * by congruence.
    injection Ev as E1 E2 E3 E4. rewrite at_id_eq. eexists. split; [done|].
    rewrite EF in E4. simpl in E4. unfold free_view. simpl. rewrite E1, E2. f_equal. lia.
  - intros i. unfold at_id. case_decide as Ei.
    + eapply (dll_rehead (hdr s) _ p); [| | |exact Hdl].
      * intros q Hq. rewrite Eh, decide_False by (by intros ->). by case_decide.
      * intros q Hq. assert (q ∈ l) as Hq' by (destruct l; [done|by right]).
        rewrite Eh, decide_False by (by intros ->). rewrite decide_False; [done|].
        destruct l; [done|]. apply NoDup_cons in Hnd as [Hnd _]. simpl in *. congruence.
      * intros q Hq. rewrite Eh, decide_False, decide_True; [done..|].
        intros ->. by apply Hpl, head_in.
    + eapply dll_ext; [|apply Hd]. intros q Hq.
      destruct (Hin i q) as [_ Hpq]; [by rewrite at_id_ne|].
      rewrite Eh, decide_False, decide_False; [done| |done]. intros Hh%head_in.
      apply Ei, (apart_elem F i id q); [done..|]. rewrite EF. by right.
  - intros i q Hq. destruct (Hin i q Hq) as [Hq' Hpq]. rewrite Eh, decide_False, Eb by done.
    case_decide; by apply He.
  - by eapply apart_pop.
Qed.

Lemma pop_lists_spec s F id p l :
  lists s F -> F id = p :: l ->
  exists s', pop_free s id = Ret (s', p) /\ lists s' (at_id F id l) /\ same_pages s s' /\
    hdr s' p = with_state 1 0 (hdr s p) /\
    (forall q, (forall j, q ∉ F j) -> hdr s' q = hdr s q).
Proof.
  intros Hl EF. pose proof Hl as [Hn Hcls Hd He Ha].
  destruct (He id p) as (Hid & Hf & Hcl & Hp & Hm); [rewrite EF; by left|].
  destruct (Hcls id) as (c & Hc & Ev); [lia|]. injection Ev as V1 V2 V3 V4.
  pose proof (Hd id) as Hdl. rewrite EF in V3, Hdl. simpl in V3. destruct Hdl as (_ & Hnx & _).
  pose proof (apart_NoDup F id Ha) as Hnd. rewrite EF in Hnd. apply NoDup_cons in Hnd as [Hpl _].
  unfold pop_free. rewrite Hc. cbn [obind]. rewrite V3, get_mapped by done. cbn [obind].
  rewrite (upd_cls_ok _ _ _ c Hc), Hnx. cbn [obind]. set (s1 := set_slabclass s _).
  assert (exists s2, (if hd 0 l =? 0 then Ret s1 else upd s1 (hd 0 l) (with_prev 0)) = Ret s2 /\
            blocks s2 = blocks s /\ same_pages s1 s2 /\ slabclass s2 = slabclass s1 /\
            forall q, hdr s2 q = if decide (head l = Some q) then with_prev 0 (hdr s q) else hdr s q)
    as (s2 & -> & Eb & Hsp & Esc & Hs2).
  { destruct l as [|a r].
    - exists s1. by split_and!.
    - destruct (He id a) as (_ & _ & _ & Ha0 & Ham); [rewrite EF; by right; left|]. simpl.
      replace (a =? 0) with false by lia. rewrite upd_mapped by done. eexists. split; [done|].
      split_and!; [done|apply same_pages_headers|done|].
      intros q. rewrite hdr_insert. case_decide; [subst; by rewrite decide_True|].
      rewrite decide_False; [done|]. congruence. }
  cbn [obind]. rewrite upd_mapped by (by rewrite Eb). cbn [obind]. set (s3 := set_headers s2 _).
  assert (forall i, cls s3 i = if decide (i = id) then Ret (with_free (hd 0 l) (sl_curr c) c) else cls s i)
    as Hc3.
  { intros i. unfold cls. simpl. rewrite Esc. fold (cls s1 i). unfold s1. by rewrite (cls_insert s id c). }
  assert (cls s3 id = Ret (with_free (hd 0 l) (sl_curr c) c)) as Hc3' by by rewrite Hc3, decide_True.
  rewrite (upd_cls_ok _ _ _ _ Hc3'). cbn [obind]. set (s' := set_slabclass s3 _).
  assert (head l <> Some p) as Hhp by (intros E%head_in; done).
  assert (forall q, hdr s' q = if decide (p = q) then with_state 1 0 (hdr s p)
            else if decide (head l = Some q) then with_prev 0 (hdr s q) else hdr s q) as Hsq.
  { intros q. change (hdr s' q) with (hdr s3 q). unfold s3. rewrite hdr_insert. case_decide; [|done].
    by rewrite Hs2, decide_False, Hf. }
  assert (same_pages s s') as Hsp'.
  { etransitivity; [apply same_pages_free, Hc|]. etransitivity; [exact Hsp|].
    etransitivity; [apply same_pages_headers|]. by apply same_pages_free. }
  exists s'. split_and!; [done| |done|by rewrite Hsq, decide_True|].
  - eapply lists_pop; [exact Hl|exact EF|exact Hc|apply Hsp'|apply Hsp'| |exact Hsq].
    intros i. unfold s'. rewrite (cls_insert s3 id _ _ i Hc3'), Hc3. by case_decide.
  - intros q Hq. rewrite Hsq, decide_False by (intros <-; apply (Hq id); rewrite EF; by left).
    rewrite decide_False; [done|]. intros Hh%head_in. apply (Hq id). rewrite EF. by right.
Qed.

Lemma used_kept_refl U s : used_kept U s s.
Proof. by split. Qed.

Lemma used_kept_trans U s1 s2 s3 : used_kept U s1 s2 -> used_kept U s2 s3 -> used_kept U s1 s3.
Proof. intros [H1 H2] [H3 H4]. split; [|eauto]. intros i x q Hx Hq. by rewrite (H3 i x), (H1 i x). Qed.

(** Chunks in use have changed, or moved between being free and in use. *)
Lemma rep_lists s s' F U P F' U' :
  rep s F U P -> lists s' F' -> same_pages s s' ->
  (forall i, F' i ++ U' i ≡ₚ F i ++ U i) -> rep s' F' U' P.
Proof.
  intros [_ Hp Hla Hch Hct] Hl Hsp Hpm.
  split; [done|by eapply page_lists_frame|by eapply layout_same_pages| |done].
  intros i. by rewrite Hpm.
Qed.

Lemma pop_free_spec s F U P id p l :
  rep s F U P -> F id = p :: l ->
  exists s', pop_free s id = Ret (s', p) /\ rep s' (at_id F id l) (at_id U id (p :: U id)) P /\
    used_kept U s s' /\ same_pages s s' /\ refcount (hdr s' p) = 1 /\ it_flags (hdr s' p) = 0.
Proof.
  intros Hr EF. destruct (pop_lists_spec s F id p l (rp_lists _ _ _ _ Hr) EF) as (s' & E & Hl & Hsp & Hh & Hk).
  exists s'. rewrite Hh. split; [done|]. split; [|split; [split|done]].
  - eapply rep_lists; [done..|]. intros i. unfold at_id. case_decide; [subst|done].
    rewrite EF. simpl. by rewrite Permutation_middle.
  - intros i x q Hx Hq. apply Hk. intros j. by eapply used_not_free.
  - intros q n. by rewrite (sp_blocks _ _ Hsp).
Qed.

(** A chunk of the class, or 0 when it has none left and gets no page. *)
Lemma do_slabs_alloc_spec s F U P n id flags :
  malloc_ok -> rep s F U P -> 1 <= id <= N -> n <= sz id -> room P id ->
  exists s' p F' P' ok, do_slabs_alloc settings malloc realloc s n id flags = Ret (s', p) /\
    used_kept U s s' /\ took_page s s' P P' id ok /\
    (p = 0 /\ F' id = [] /\ rep s' F' U P' \/
     p <> 0 /\ rep s' F' (at_id U id (p :: U id)) P' /\
     refcount (hdr s' p) = 1 /\ it_flags (hdr s' p) = 0).
Proof.
  intros Hm Hr Hid Hn Hroom. pose proof (rp_lists _ _ _ _ Hr) as Hl.
  destruct (li_cls _ _ Hl id) as (c & Hc & Ev); [lia|]. injection Ev as V1 _ V3 V4.
  unfold do_slabs_alloc, POWER_SMALLEST. rewrite (li_n _ _ Hl).
  replace ((id <? 1) || (N <? id)) with false by lia. rewrite Hc. cbn [obind].
  rewrite V1. replace (n <=? sz id) with true by lia. cbn [assert].
  assert ((if sl_curr c =? 0 then Ret tt
           else let* h := get s (slots c) in assert (has h ITEM_SLABBED)) = Ret tt) as ->.
  { destruct (Z.eqb_spec (sl_curr c) 0); [done|]. rewrite V3. destruct (F id) as [|p l] eqn:EF; [done|].
    destruct (li_elem _ _ Hl id p) as (_ & Hf & _ & _ & Hmp); [rewrite EF; by left|].
    simpl. rewrite get_mapped by done. cbn [obind]. unfold has. by rewrite Hf. }
  cbn [obind].
  assert (exists s1 F1 P1 ok,
    (if (sl_curr c =? 0) && negb (flags =? SLABS_ALLOC_NO_NEWPAGE)
     then let* (s0, _) := do_slabs_newslab settings malloc realloc s id in Ret s0 else Ret s) = Ret s1 /\
    rep s1 F1 U P1 /\ used_kept U s s1 /\ took_page s s1 P P1 id ok)
    as (s1 & F1 & P1 & ok & -> & Hr1 & Hk1 & Htp).
  { destruct (_ && _).
    - destruct (do_slabs_newslab_spec s F U P id Hm Hr Hid Hroom) as (s1 & ok & F1 & P1 & -> & ?).
      by exists s1, F1, P1, ok.
    - exists s, F, P, false. split; [done|]. split; [done|]. split; [apply used_kept_refl|].
      apply took_same; try done; lia. }
  cbn [obind]. destruct (li_cls _ _ (rp_lists _ _ _ _ Hr1) id) as (c1 & -> & Ev1); [lia|].
  injection Ev1 as _ _ _ V5. cbn [obind]. rewrite V5.
  destruct (F1 id) as [|p l] eqn:EF; simpl.
  - exists s1, 0, F1, P1, ok. split_and!; auto.
  - destruct (pop_free_spec s1 F1 U P1 id p l Hr1 EF) as (s' & -> & Hr' & Hk & Hsp & H1 & H2).
    exists s', p, (at_id F1 id l), P1, ok. split; [done|]. split; [by eapply used_kept_trans|].
    split.
    { destruct Htp. split; try done; [by eapply growth_then; [done|apply Hsp..]|].
      by rewrite (sp_blocks _ _ Hsp). }
    right. split_and!; try done.
    destruct (owned_mapped _ _ _ _ Hr1 id p) as (_ & ? & _); [rewrite EF; set_solver|lia].
Qed.

End memory.

(** The client writes to a chunk it has. *)
Lemma write_used_spec s F U P id x q f :
  rep s F U P -> x ∈ U id -> x <= q -> q + header_end <= x + sz id ->
  exists s', upd s q f = Ret s' /\ rep s' F U P /\ same_pages s s' /\
    hdr s' q = f (hdr s q) /\ (forall z, z <> q -> hdr s' z = hdr s z).
Proof.
  intros Hr Hx Hq Hqe. destruct (owned_mapped _ _ _ _ Hr id x) as (_ & _ & Hm); [set_solver|].
  rewrite upd_mapped by (eapply mapped_sub; [done|lia..]).
  eexists. split; [done|]. assert (forall j, q ∉ F j) as Hout.
  { intros j. apply (used_not_free _ _ _ _ Hr id x); [done|]. unfold header_end in Hqe. lia. }
  split_and!.
  - eapply rep_lists; [done|apply lists_upd; [apply Hr|done]|apply same_pages_headers|done].
  - apply same_pages_headers.
  - by rewrite hdr_insert, decide_True.
  - intros z Hz. by rewrite hdr_insert, decide_False.
Qed.

Lemma owned_length s F U P id :
  rep s F U P -> Z.of_nat (length (F id)) + Z.of_nat (length (U id)) < 2 ^ 32.
Proof.
  intros H. pose proof (rp_count _ _ _ _ H id) as Hct.
  pose proof (Permutation_length (rp_chunks _ _ _ _ H id)) as Hl. rewrite length_app, pages_length in Hl. nia.
Qed.

(** The chunks in use besides one of them. *)
Lemma used_others s F U P id p V i x z :
  rep s F U P -> U id ≡ₚ p :: V -> x ∈ at_id U id V i -> x <= z < x + sz i ->
  x ∈ U i /\ ~ (p <= z < p + sz id).
Proof.
  intros Hr HU Hx Hz. assert (p ∈ U id) as Hp by (rewrite HU; by left).
  assert (x ∈ U i) as Hx' by (unfold at_id in Hx; case_decide; [subst; rewrite HU; by right|done]).
  split; [done|]. intros Hzp.
  destruct (owned_disjoint _ _ _ _ Hr i id x p); [set_solver..| |lia|lia].
  intros [= -> ->]. rewrite at_id_eq in Hx. pose proof (owned_NoDup _ _ _ _ Hr id) as Hn.
  rewrite HU in Hn. apply NoDup_app in Hn as (_ & _ & Hn). by apply NoDup_cons in Hn as [Hn _].
Qed.

(** A chunk in use, marked free, goes back to its class. *)
Lemma push_used_spec s F U P id p V :
  rep s F U P -> U id ≡ₚ p :: V ->
  it_flags (hdr s p) = ITEM_SLABBED -> slabs_clsid (hdr s p) = id ->
  exists s', push_free s id p = Ret s' /\ rep s' (at_id F id (p :: F id)) (at_id U id V) P /\
    used_kept (at_id U id V) s s' /\ same_pages s s'.
Proof.
  intros Hr HU Hf Hc. assert (p ∈ U id) as Hp by (rewrite HU; by left).
  destruct (owned_mapped _ _ _ _ Hr id p) as (Hid & Hp0 & Hm); [set_solver|].
  destruct (co_class Hco id Hid) as (Hsz & _). unfold header_end in Hsz.
  pose proof (owned_length _ _ _ _ id Hr) as Hlen.
  pose proof (Permutation_length HU) as HlU. simpl in HlU.
  destruct (push_free_spec s F id p) as (s' & E & Hl & Hsp & Hfr); try done.
  - apply Hr.
  - unfold header_end. eapply mapped_sub; [done|lia..].
  - intros j. apply (used_not_free _ _ _ _ Hr id p); [done|lia].
  - lia.
  - exists s'. split; [done|]. split.
    + eapply rep_lists; [done..|]. intros i. unfold at_id. case_decide; [subst|done].
      rewrite HU. simpl. by rewrite Permutation_middle.
    + split; [|done]. split; [|by rewrite (sp_blocks _ _ Hsp)]. intros i x q Hx Hq.
      destruct (used_others _ _ _ _ _ _ _ _ _ _ Hr HU Hx Hq) as [Hx' Hn].
      apply Hfr; [lia|]. intros j. by eapply used_not_free.
Qed.

Lemma write_used_kept s s' F U P id p V q :
  rep s F U P -> U id ≡ₚ p :: V -> p <= q < p + sz id ->
  same_pages s s' -> (forall z, z <> q -> hdr s' z = hdr s z) -> used_kept (at_id U id V) s s'.
Proof.
  intros Hr HU Hq Hsp Hw. split; [|by rewrite (sp_blocks _ _ Hsp)]. intros i x z Hx Hz. apply Hw.
  intros ->. by destruct (used_others _ _ _ _ _ _ _ _ _ _ Hr HU Hx Hz).
Qed.

(** A chunk in use that is not the head of a chain goes back. *)
Lemma free_used_spec s F U P id p V :
  rep s F U P -> U id ≡ₚ p :: V -> has (hdr s p) ITEM_CHUNKED = false ->
  exists s', do_slabs_free s p id = Ret s' /\ rep s' (at_id F id (p :: F id)) (at_id U id V) P /\
    used_kept (at_id U id V) s s' /\ same_pages s s'.
Proof.
  intros Hr HU Hc. assert (p ∈ U id) as Hp by (rewrite HU; by left).
  destruct (owned_mapped _ _ _ _ Hr id p) as (Hid & Hp0 & Hm); [set_solver|].
  destruct (co_class Hco id Hid) as (Hsz & _).
  unfold do_slabs_free, POWER_SMALLEST. rewrite (li_n _ _ (rp_lists _ _ _ _ Hr)).
  replace ((1 <=? id) && (id <=? N)) with true by lia. cbn [assert obind].
  rewrite get_mapped by (eapply mapped_sub; [done|lia..]). cbn [obind]. rewrite Hc.
  destruct (write_used_spec s F U P id p p (fun h => with_clsid (u8 id) (with_flags ITEM_SLABBED h)))
    as (s1 & -> & Hr1 & Hsp1 & Eh & Hw); [done..|lia|lia|]. cbn [obind].
  destruct (push_used_spec s1 F U P id p V) as (s' & E & Hr' & Hk & Hsp); [done..| | |].
  - by rewrite Eh.
  - rewrite Eh. simpl. apply u8_small. pose proof (co_n Hco). unfold is_u8. lia.
  - exists s'. split; [done|]. split; [done|]. split; [|by etransitivity].
    eapply used_kept_trans; [|done].
    unfold header_end in Hsz. eapply write_used_kept; [done..| |done|done]. lia.
Qed.

(** ** Chains of chunks *)

(** The chunks [l], each with its class, are in use and linked by [next]. *)
Fixpoint chain (s : state) (U : Z -> list Z) (l : list (Z * Z)) : Prop :=
  match l with
  | [] => True
  | (q, id) :: r => q ∈ U id /\ slabs_clsid (hdr s q) = id /\ it_flags (hdr s q) = ITEM_CHUNK /\
                    next (hdr s q) = hd 0 (r.*1) /\ chain s U r
  end.

(** [V] is what is left of [U] without the chunks [l]. *)
Definition without (U : Z -> list Z) (l : list (Z * Z)) (V : Z -> list Z) : Prop :=
  forall i, U i ≡ₚ (filter (fun e => snd e = i) l).*1 ++ V i.

Lemma without_cons U l V q id W :
  U id ≡ₚ q :: W -> without (at_id U id W) l V -> without U ((q, id) :: l) V.
Proof.
  intros HU H i. specialize (H i). destruct (decide (i = id)) as [->|Hi].
  - rewrite at_id_eq in H. rewrite filter_cons_True by done. simpl. by rewrite HU, H.
  - rewrite at_id_ne in H by done. by rewrite filter_cons_False by (simpl; congruence).
Qed.

Lemma without_sub U l V i x : without U l V -> x ∈ V i -> x ∈ U i.
Proof. intros H Hx. rewrite (H i). set_solver. Qed.

Lemma without_out U l V q i : without U l V -> NoDup (U i) -> (q, i) ∈ l -> q ∉ V i.
Proof.
  intros H Hn Hq. rewrite (H i) in Hn. apply NoDup_app in Hn as (_ & Hn & _). apply Hn.
  apply (list_elem_of_fmap_2' fst _ (q, i)); [|done]. by apply list_elem_of_filter.
Qed.

Lemma used_kept_sub U V s s' : (forall i x, x ∈ V i -> x ∈ U i) -> used_kept U s s' -> used_kept V s s'.
Proof. intros Hs [H1 H2]. split; [|done]. intros i x q Hx. apply H1. by apply Hs. Qed.

Lemma chain_elem s U l q id :
  chain s U l -> (q, id) ∈ l -> q ∈ U id /\ it_flags (hdr s q) = ITEM_CHUNK.
Proof.
  induction l as [|[x i] r IH]; simpl; [by intros _ ?%elem_of_nil|].
  intros (H1 & H2 & H3 & H4 & H5) [[= -> ->]|Hq]%elem_of_cons; [done|by apply IH].
Qed.

Lemma chain_kept s s' U V l :
  chain s U l -> (forall q id, (q, id) ∈ l -> hdr s' q = hdr s q /\ q ∈ V id) -> chain s' V l.
Proof.
  induction l as [|[q id] r IH]; [done|]. simpl. intros (H1 & H2 & H3 & H4 & H5) Hk.
  destruct (Hk q id) as [-> Hq]; [by left|]. split_and!; [done..|]. apply IH; [done|].
  intros x i Hx. apply Hk. by right.
Qed.

(** The chain behind a chunk that was freed. *)
Lemma chain_rest s s' F U P q id V r :
  rep s F U P -> U id ≡ₚ q :: V -> used_kept (at_id U id V) s s' ->
  chain s U r -> q ∉ r.*1 -> chain s' (at_id U id V) r.
Proof.
  intros Hr HU Hk Hch Hq. eapply chain_kept; [done|]. intros x i Hx.
  destruct (chain_elem _ _ _ _ _ Hch Hx) as [HxU _].
  assert (x ∈ at_id U id V i) as Hx'.
  { unfold at_id. case_decide as Ei; [|done]. subst. rewrite HU in HxU.
    apply elem_of_cons in HxU as [->|?]; [|done]. exfalso. apply Hq.
    by apply (list_elem_of_fmap_2' fst _ _ _ Hx). }
  split; [|done]. eapply Hk; [exact Hx'|].
  destruct (owned_mapped _ _ _ _ Hr i x) as (Hi & _); [by apply elem_of_app; right|].
  destruct (co_class Hco i Hi) as (Hszx & _). unfold header_end in Hszx. lia.
Qed.

Lemma free_chunks_spec l fuel s F U P :
  rep s F U P -> chain s U l -> NoDup l.*1 -> (length l < fuel)%nat ->
  exists s' F' V, free_chunks fuel s (hd 0 l.*1) = Ret s' /\ rep s' F' V P /\ without U l V /\
    used_kept V s s' /\ same_pages s s'.
Proof.
  revert fuel s F U. induction l as [|[q id] r IH]; intros [|fuel] s F U Hr Hch Hnd Hfuel;
    [simpl in Hfuel; lia| |simpl in Hfuel; lia|].
  - exists s, F, U. split; [done|]. split; [done|]. split; [by intros i|].
    by split; [apply used_kept_refl|].
  - simpl in Hnd. apply NoDup_cons in Hnd as [Hqr Hnd].
    destruct Hch as (Hq & Hid' & Hfl & Hnx & Hch).
    destruct (owned_mapped _ _ _ _ Hr id q) as (Hid & Hq0 & Hm); [set_solver|].
    destruct (co_class Hco id Hid) as (Hsz & _). simpl.
    replace (q =? 0) with false by lia.
    rewrite get_mapped by (eapply mapped_sub; [done|lia..]). cbn [obind].
    rewrite Hfl. cbn [assert obind Z.eqb ITEM_CHUNK Pos.eqb].
    destruct (write_used_spec s F U P id q q (with_flags ITEM_SLABBED))
      as (s1 & -> & Hr1 & Hsp1 & Eh & Hw); [done..|lia|lia|]. cbn [obind]. rewrite Hid'.
    apply list_elem_of_split in Hq as (l1 & l2 & HU).
    assert (U id ≡ₚ q :: l1 ++ l2) as HU' by (rewrite HU; by rewrite Permutation_middle).
    destruct (push_used_spec s1 F U P id q (l1 ++ l2)) as (s2 & -> & Hr2 & Hk2 & Hsp2); [done..| | |];
      [by rewrite Eh..|]. cbn [obind]. rewrite Hnx.
    assert (used_kept (at_id U id (l1 ++ l2)) s s2) as Hk.
    { unfold header_end in Hsz. eapply used_kept_trans; [|done].
      eapply write_used_kept; [done..| |done|done]. lia. }
    destruct (IH fuel s2 _ _ Hr2) as (s' & F' & V & E & Hr' & Hwo & Hk' & Hsp'); [|done|simpl in Hfuel; lia|].
    { by eapply (chain_rest s). }
    exists s', F', V. split; [done|]. split; [done|]. split; [by eapply without_cons|].
    split; [|by do 2 (etransitivity; [done|])].
    eapply used_kept_trans; [|done]. eapply used_kept_sub; [|done]. intros i x. by apply without_sub with r.
Qed.

(** A large item: the chunk [it] of class [id] holds a chunk header behind the
    key, from which the chunks [l] hang. *)
Record chunked_item (s : state) (U : Z -> list Z) (it id : Z) (l : list (Z * Z)) : Prop := {
  ci_flags : has (hdr s it) ITEM_CHUNKED = true;
  ci_inside : it < ITEM_schunk it (hdr s it) /\
              ITEM_schunk it (hdr s it) + header_end <= it + sz id;
  ci_used : it ∈ U id;
  ci_class : last (hdr s (ITEM_schunk it (hdr s it))) = id;
  ci_next : next (hdr s (ITEM_schunk it (hdr s it))) = hd 0 l.*1;
  ci_chain : chain s U l;
  ci_NoDup : NoDup (it :: l.*1)
}.

Lemma chain_headers s U l q : chain s U l -> q ∈ l.*1 -> q ∈ dom (headers s).
Proof.
  intros Hch ([x id] & -> & Hq)%list_elem_of_fmap. destruct (chain_elem _ _ _ _ _ Hch Hq) as [_ Hf].
  simpl. apply elem_of_dom. unfold hdr in Hf. destruct (headers s !! x); [done|]. done.
Qed.

Lemma chain_length s U l : chain s U l -> NoDup l.*1 -> (length l <= base.size (headers s))%nat.
Proof.
  intros Hch Hnd. rewrite <- (length_fmap fst l), <- size_dom.
  rewrite <- (size_list_to_set (C := gset Z) l.*1) by done. apply subseteq_size.
  intros q Hq%elem_of_list_to_set. by eapply chain_headers.
Qed.

(** The first chunk of the chain loses its way back. *)
Lemma chain_unlink s F U P l :
  rep s F U P -> chain s U l -> NoDup l.*1 ->
  exists s', (if hd 0 l.*1 =? 0 then Ret s else upd s (hd 0 l.*1) (with_prev 0)) = Ret s' /\
    rep s' F U P /\ same_pages s s' /\ chain s' U l /\
    (forall z, z ∉ l.*1 -> hdr s' z = hdr s z).
Proof.
  intros Hr Hch Hnd. destruct l as [|[q id] r]; [exists s; by split_and!|].
  simpl in Hnd. apply NoDup_cons in Hnd as [Hqr _]. pose proof Hch as (Hq & H2 & H3 & H4 & H5).
  destruct (owned_mapped _ _ _ _ Hr id q) as (Hid & Hq0 & Hm); [set_solver|].
  destruct (co_class Hco id Hid) as (Hsz & _). simpl. replace (q =? 0) with false by lia.
  destruct (write_used_spec s F U P id q q (with_prev 0)) as (s1 & -> & Hr1 & Hsp1 & Eh & Hw);
    [done..|lia|lia|]. exists s1. split; [done|]. split; [done|]. split; [done|]. split.
  - rewrite Eh. split_and!; try done. eapply chain_kept; [done|]. intros x i Hx. split.
    + apply Hw. intros ->. apply Hqr. by apply (list_elem_of_fmap_2' fst _ _ _ Hx).
    + by apply (chain_elem _ _ _ _ _ H5 Hx).
  - intros z Hz. apply Hw. intros ->. apply Hz. by left.
Qed.

Lemma free_chunked_spec s F U P it id id0 l :
  rep s F U P -> chunked_item s U it id l -> 1 <= id0 <= N ->
  exists s' F' V, do_slabs_free s it id0 = Ret s' /\ rep s' F' V P /\
    without U ((it, id) :: l) V /\ used_kept V s s' /\ same_pages s s'.
Proof.
  intros Hr [Hfl [Hlt Hin] Hit Hcl Hnx Hch Hnd] Hid0. apply NoDup_cons in Hnd as [Hitl Hnd].
  destruct (owned_mapped _ _ _ _ Hr id it) as (Hid & Hit0 & Hm); [set_solver|].
  destruct (co_class Hco id Hid) as (Hsz & _).
  unfold do_slabs_free, POWER_SMALLEST. rewrite (li_n _ _ (rp_lists _ _ _ _ Hr)).
  replace ((1 <=? id0) && (id0 <=? N)) with true by lia. cbn [assert obind].
  rewrite get_mapped by (eapply mapped_sub; [done|lia..]). cbn [obind]. rewrite Hfl.
  unfold do_slabs_free_chunked.
  rewrite get_mapped by (eapply mapped_sub; [done|lia..]). cbn [obind].
  rewrite get_mapped by (eapply mapped_sub; [done|lia..]). cbn [obind].
  set (e := ITEM_schunk it (hdr s it)) in *.
  destruct (write_used_spec s F U P id it it (fun h => with_prev 0 (with_flags ITEM_SLABBED h)))
    as (s1 & -> & Hr1 & Hsp1 & Eh1 & Hw1); [done..|lia|lia|]. cbn [obind].
  destruct (write_used_spec s1 F U P id it it (with_clsid (last (hdr s e))))
    as (s2 & -> & Hr2 & Hsp2 & Eh2 & Hw2); [done..|lia|lia|]. cbn [obind].
  assert (chain s2 U l) as Hch2.
  { eapply chain_kept; [done|]. intros q i Hq.
    assert (q <> it) by (intros ->; apply Hitl; by apply (list_elem_of_fmap_2' fst _ _ _ Hq)).
    rewrite Hw2, Hw1 by done. split; [done|]. by apply (chain_elem _ _ _ _ _ Hch Hq). }
  rewrite Hnx. destruct (chain_unlink s2 F U P l) as (s3 & -> & Hr3 & Hsp3 & Hch3 & Hw3); [done..|].
  cbn [obind]. rewrite Hcl.
  apply list_elem_of_split in Hit as (l1 & l2 & HU).
  assert (U id ≡ₚ it :: l1 ++ l2) as HU' by (rewrite HU; by rewrite Permutation_middle).
  destruct (push_used_spec s3 F U P id it (l1 ++ l2)) as (s4 & -> & Hr4 & Hk4 & Hsp4); [done..| | |].
  { rewrite Hw3, Eh2, Eh1 by done. done. }
  { rewrite Hw3, Eh2 by done. done. }
  cbn [obind].
  assert (chain s4 (at_id U id (l1 ++ l2)) l) as Hch4 by by eapply (chain_rest s3).
  destruct (free_chunks_spec l (S (base.size (headers s4))) s4 _ _ P Hr4 Hch4 Hnd) as
    (s' & F' & V & -> & Hr' & Hwo & Hk' & Hsp').
  { pose proof (chain_length _ _ _ Hch4 Hnd). lia. }
  exists s', F', V. split; [done|]. split; [done|]. split; [by eapply without_cons|].
  assert (same_pages s s3) as Hsp by (etransitivity; [done|]; by etransitivity).
  split; [|by do 2 (etransitivity; [done|])].
  eapply used_kept_trans; [|exact Hk'].
  split.
  - intros i x z Hx Hz. assert (x ∈ at_id U id (l1 ++ l2) i) as Hx' by by apply (without_sub _ l V).
    destruct (used_others _ _ _ _ _ _ _ _ _ _ Hr HU' Hx' Hz) as [Hxu Hni].
    transitivity (hdr s3 z); [by eapply Hk4|].
    assert (z <> it) as Hzi by (unfold header_end in Hsz; lia).
    rewrite Hw3, Hw2, Hw1; [done..|]. intros ([q j] & -> & Hq)%list_elem_of_fmap.
    destruct (chain_elem _ _ _ _ _ Hch Hq) as [Hqu _]. simpl in Hz.
    pose proof (owned_NoDup _ _ _ _ Hr i) as Hn. apply NoDup_app in Hn as (_ & _ & Hn).
    destruct (owned_mapped _ _ _ _ Hr j q) as (Hj & _); [by apply elem_of_app; right|].
    destruct (co_class Hco j Hj) as (Hszj & _). unfold header_end in Hszj.
    destruct (owned_disjoint _ _ _ _ Hr i j x q); [by apply elem_of_app; right..| |lia|lia].
    intros [= -> ->]. eapply (without_out U ((it, id) :: l)); [by eapply without_cons|done| |exact Hx].
    by right.
  - intros p n Hp. apply Hk4. by rewrite (sp_blocks _ _ Hsp).
Qed.
End config.
End spec.
End SlabsSpec.
