(* ===== verification/SlabsThms.v ===== *)
(** * The slab allocator: no chunk is handed out twice (p1a, [slabs.c])

    A program that takes chunks, writes to them and gives them back, in any
    order, and changes the limit in between: the chunks it has never overlap,
    every chunk is free or in use, and memory stays near the limit. *)

From Stdlib Require Import Floats.SpecFloat.
From S2P Require Import Prelude Items Slabs SlabsSpec.
Local Open Scope Z_scope.
Local Open Scope xv6_scope.

Module SlabsThms.
Import Slabs SlabsSpec.

(** ** Start *)

Section init.
Context (settings : settings_t).

(** A class without pages; [perslab] chunks fill a page. *)
Definition fresh_class (c : slabclass_t) : Prop :=
  perslab c = slab_page_size settings / size c /\ slots c = 0 /\ sl_curr c = 0 /\
  slabs c = 0 /\ slab_list c = [] /\ list_size c = 0.

Definition fresh (l : list slabclass_t) : Prop :=
  length l = 64%nat /\ Forall fresh_class l /\ getZ l 0 = Some empty_class.

Lemma fresh_insert l i n c l' :
  fresh l -> 0 < i -> getZ l i = Some c ->
  setZ l i (with_chunks n (slab_page_size settings / n) c) = Some l' -> fresh l'.
Proof.
  intros (Hlen & Hf & H0) Hi Hc E. split_and!.
  - by rewrite (setZ_length _ _ _ _ E).
  - apply getZ_Some_range in Hc as Hr. rewrite setZ_Some in E by done. injection E as <-.
    apply Forall_insert; [done|]. rewrite Forall_forall in Hf.
    assert (fresh_class c) as (_ & H); [|by split].
    apply Hf. unfold getZ in Hc. case_decide; [|done]. by eapply list_elem_of_lookup_2.
  - rewrite (setZ_get_ne _ _ _ _ _ E); [done|lia].
Qed.

Lemma init_classes_fresh fuel factor sizes l i n l' i' :
  fresh l -> 0 < i -> init_classes settings fuel factor sizes l i n = Ret (l', i') ->
  fresh l' /\ i <= i' <= i + Z.of_nat fuel.
Proof.
  revert l i n. induction fuel as [|fuel IH]; intros l i n Hf Hi; [intros [= <- <-]; split; [done|lia]|].
  cbn [init_classes]. intros (o & Ho & E)%obind_ret. destruct o as [m|]; [|injection E as <- <-; split; [done|lia]].
  apply obind_ret in E as (c & Hc & E). apply obind_ret in E as (_ & _ & E).
  apply obind_ret in E as (l1 & Hl1 & E). apply obind_ret in E as (k & _ & E).
  destruct (getZ l i) as [c'|] eqn:Eg; [|done]. injection Hc as ->.
  destruct (setZ l i _) as [l2|] eqn:Es; [|done]. injection Hl1 as ->.
  apply IH in E as [? ?]; [split; [done|lia]|by eapply fresh_insert|lia].
Qed.

(** The chunk size and the chunks per page of a class. *)
Definition size_of (s : state) (id : Z) : Z := match cls s id with Ret c => size c | _ => 0 end.
Definition per_of (s : state) (id : Z) : Z := match cls s id with Ret c => perslab c | _ => 0 end.

(** Memory that is not yet cut into pages. *)
Definition arena_ok (s : state) : Prop :=
  blocks_apart (blocks s) /\
  (mem_base s <> 0 ->
   0 < mem_current s /\ (0 < mem_avail s -> mapped (blocks s) (mem_current s) (mem_avail s) = true)).

(** Every class can hold a header and fits a page. *)
Definition classes_fit (s : state) : Prop :=
  forall id c, 1 <= id <= power_largest s -> cls s id = Ret c ->
    header_end <= size c <= slab_page_size settings.

Lemma fresh_config s :
  fresh (slabclass s) -> 1 <= power_largest s <= 63 -> 0 < slab_page_size settings < 2 ^ 31 ->
  classes_fit s -> config_ok (power_largest s) (size_of s) (per_of s) settings.
Proof.
  intros (Hlen & Hf & H0) HN Hp Hfit. split; [done|done| |].
  - unfold size_of, per_of, cls. by rewrite H0.
  - intros id Hid. destruct (getZ_is_Some (slabclass s) id) as [c Hc]; [lia|].
    assert (cls s id = Ret c) as Ec by (unfold cls; by rewrite Hc).
    destruct (Hfit id c Hid Ec) as [H1 H2]. unfold size_of, per_of. rewrite Ec.
    assert (fresh_class c) as [-> _].
    { rewrite Forall_forall in Hf. apply Hf. unfold getZ in Hc. case_decide; [|done].
      by eapply list_elem_of_lookup_2. }
    unfold header_end in *. split; [done|]. split; [apply Z.div_le_lower_bound; lia|].
    apply Z.mul_div_le. lia.
Qed.

Definition none : Z -> list Z := fun _ => [].

Lemma fresh_rep s :
  fresh (slabclass s) -> 1 <= power_largest s <= 63 -> arena_ok s ->
  rep (power_largest s) (size_of s) (per_of s) settings s none none none.
Proof.
  intros (Hlen & Hf & H0) HN [Hb Ha].
  assert (forall id, 0 <= id <= power_largest s -> exists c, cls s id = Ret c /\ fresh_class c) as Hc.
  { intros id Hid. destruct (getZ_is_Some (slabclass s) id) as [c Hc]; [lia|]. exists c.
    unfold cls. rewrite Hc. split; [done|]. rewrite Forall_forall in Hf. apply Hf.
    unfold getZ in Hc. case_decide; [|done]. by eapply list_elem_of_lookup_2. }
  split; [| | |done|simpl; lia].
  - split; [done| |done|by intros id p ?%elem_of_nil|by intros i j a b x].
    intros id Hid. destruct (Hc id Hid) as (c & E & _ & E1 & E2 & _). exists c. split; [done|].
    unfold size_of, per_of, free_view. by rewrite E, E1, E2.
  - split. intros id Hid. destruct (Hc id Hid) as (c & E & _ & _ & _ & E1 & E2 & E3).
    exists c, []. by rewrite E1, E2, E3.
  - split; try done; try by intros id p ?%elem_of_nil.
    + by intros id p _ ?%elem_of_nil.
    + intros Hne. destruct (Ha Hne) as [? ?]. split; [done|]. split; [done|].
      by intros id p ?%elem_of_nil.
Qed.
End init.

Section thms.
Context (settings : settings_t).
Context (N : Z) (sz per : Z -> Z).
Hypothesis Hco : config_ok N sz per settings.

Notation rep := (rep N sz per settings).
Notation layout := (layout N sz per settings).

(** ** The limit *)

Lemma mapped_block l p n m : (p, n) ∈ l -> m <= n -> mapped l p m = true.
Proof.
  intros Hin Hle. unfold mapped. apply existsb_exists. exists (p, n).
  split; [by apply list_elem_of_In|]. simpl. lia.
Qed.

(** The last page of the pool goes back to [malloc]. *)
Lemma layout_free s P l p :
  layout s P -> mem_base s = 0 -> P 0 = l ++ [p] ->
  p ∈ (blocks s).*1 /\
  layout (set_blocks s (filter (fun b => fst b <> p) (blocks s))) (at_id P 0 l).
Proof.
  intros Hl Hb E. destruct (la_owner _ _ _ _ _ _ Hl 0 p Hb) as (n & Hn & _); [rewrite E; set_solver|].
  split; [by apply (list_elem_of_fmap_2' fst _ _ _ Hn)|].
  assert (layout s (at_id P 0 l)) as Hl'.
  { eapply layout_sub; [|done]. intros i. unfold at_id. case_decide; [|done]. subst. rewrite E. by eexists. }
  pose proof (la_elem _ _ _ _ _ _ Hl) as He.
  assert (forall i q, q ∈ at_id P 0 l i -> exists m, (q, m) ∈ filter (fun b => fst b <> p) (blocks s) /\ plen sz per settings i <= m) as Hown.
  { intros i q Hq. destruct (la_owner _ _ _ _ _ _ Hl' i q Hb Hq) as (m & Hm & Hle). exists m.
    split; [|done]. apply list_elem_of_filter. split; [|done]. simpl. intros ->.
    assert (P 0 !! length l = Some p) as Hp by (rewrite E; by apply list_lookup_middle).
    assert (exists a, P i !! a = Some p /\ (i, a) <> (0, length l)) as (a & Ha & Hne).
    { apply list_elem_of_lookup in Hq as [a Ha]. exists a. unfold at_id in Ha. case_decide; [subst|].
      - split; [rewrite E; by apply lookup_app_l_Some|]. apply lookup_lt_Some in Ha. intros [= ->]. lia.
      - split; [done|congruence]. }
    assert (0 <= i <= N) as Hi by (apply (He i p); by eapply list_elem_of_lookup_2).
    destruct (plen_bounds _ _ _ _ Hco i Hi). destruct (plen_bounds _ _ _ _ Hco 0) as [? _].
    { pose proof (co_n _ _ _ _ Hco). lia. }
    destruct (la_apart _ _ _ _ _ _ Hl _ _ _ _ _ _ Ha Hp Hne); lia. }
  destruct Hl' as [He' Ha' Hb' _ _]. split; simpl.
  - intros i q Hq. destruct (He' i q Hq) as (? & ? & _). split; [done|]. split; [done|].
    destruct (Hown i q Hq) as (m & ? & ?). by eapply mapped_block.
  - done.
  - by apply blocks_apart_filter.
  - eauto.
  - done.
Qed.

Lemma release_page_spec s F U P l p :
  rep s F U P -> mem_base s = 0 -> P 0 = l ++ [p] ->
  exists s1 s2, get_page_from_global_pool s = Ret (s1, p) /\ mem_free s1 p = Ret s2 /\ p <> 0 /\
    rep s2 F U (at_id P 0 l) /\ headers s2 = headers s /\
    mem_base s2 = 0 /\ mem_malloced s2 = mem_malloced s /\ mem_limit s2 = mem_limit s.
Proof.
  intros Hr Hb E. pose proof Hr as [Hl Hp Hla Hch Hct].
  destruct (get_page_spec _ _ _ _ Hco s F P Hl Hp) as (s1 & q & Eg & Eh & [k Es] & _ & H).
  destruct H as [(EP & _)|(l' & EP & Hl1 & Hp1)]; [by rewrite EP in E; destruct l|].
  rewrite E in EP. apply app_inj_tail in EP as [<- <-].
  destruct (layout_free s P l p Hla Hb E) as [Hpb Hla2].
  destruct (la_elem _ _ _ _ _ _ Hla 0 p) as (_ & Hp0 & _); [rewrite E; set_solver|].
  exists s1. eexists. split; [done|].
  assert (blocks s1 = blocks s) as Eb by by rewrite Es.
  split. { unfold mem_free. rewrite Eb, bool_decide_eq_true_2 by done. done. }
  split; [lia|]. set (s2 := set_blocks s1 _).
  assert (layout s2 (at_id P 0 l)) as Hla2'.
  { eapply (layout_frame _ _ _ _ (set_blocks s (filter (fun b => fst b <> p) (blocks s)))); [..|exact Hla2];
      unfold s2; rewrite Es; done. }
  split; [|unfold s2; rewrite Es; by split_and!]. split; [| |done| |].
  - eapply lists_move; [exact Hl1|done| |eauto|done]. intros id x Hx.
    assert (x ∈ (at_id P 0 l id ≫= page_chunks sz per id)) as Hxc.
    { destruct (decide (id = 0)) as [->|].
      - destruct (li_elem _ _ _ _ _ Hl1 0 x Hx). lia.
      - rewrite at_id_ne by done. rewrite <- Hch. by apply elem_of_app; left. }
    destruct (chunks_mapped _ _ _ _ Hco s2 _ id x Hla2' Hxc) as (Hid & _ & Hm).
    destruct (co_class _ _ _ _ Hco id Hid) as (Hs & _). eapply mapped_sub; [exact Hm|lia..].
  - destruct Hp1 as [Hp1]. split. exact Hp1.
  - intros i. destruct (decide (i = 0)) as [->|]; [|by rewrite at_id_ne].
    by rewrite Hch, !(pool_chunks _ _ _ _ Hco).
  - intros i. destruct (decide (i = 0)) as [->|]; [|by rewrite at_id_ne].
    rewrite (proj2 (co_pool _ _ _ _ Hco)). lia.
Qed.

Lemma release_from_spec (fuel : nat) s F U P :
  rep s F U P -> mem_base s = 0 -> (length (P 0%Z) < fuel)%nat ->
  exists s' P', release_from settings fuel s = Ret s' /\ rep s' F U P' /\ headers s' = headers s /\
    mem_base s' = 0 /\ mem_limit s' = mem_limit s /\
    (mem_malloced s' <= mem_limit s \/ P' 0 = []) /\ (P 0 = [] -> s' = s /\ P' = P).
Proof.
  revert s P. induction fuel as [|fuel IH]; intros s P Hr Hb Hlen; [lia|]. simpl.
  destruct (Z.leb_spec (mem_malloced s) (mem_limit s)); [exists s, P; by split_and!; auto|].
  destruct (P 0) as [|p l _] eqn:EP using rev_ind.
  - destruct (get_page_spec _ _ _ _ Hco s F P) as (s1 & q & -> & _ & _ & _ & H1); [apply Hr..|].
    destruct H1 as [(_ & -> & ->)|(l' & EP' & _)]; [|by rewrite EP in EP'; destruct l'].
    exists s, P. by split_and!; auto.
  - destruct (release_page_spec s F U P l p Hr Hb EP) as (s1 & s2 & -> & Ef & Hp & Hr2 & Eh & Hb2 & Em & El).
    cbn [obind]. replace (p =? 0) with false by lia. rewrite Ef. cbn [obind].
    destruct (IH (add_malloced s2 (- slab_page_size settings)) (at_id P 0 l))
      as (s' & P' & -> & Hr' & Eh' & Hb' & El' & Hend).
    + by eapply rep_frame.
    + done.
    + rewrite at_id_eq. rewrite length_app in Hlen. simpl in Hlen. lia.
    + exists s', P'. split; [done|]. split; [done|]. simpl in *.
      split_and!; [congruence|done|congruence| |intros E0; by rewrite E0 in EP; destruct l].
      rewrite <- El. apply Hend.
Qed.

(** The limit changes when memory comes from [malloc]; the chunks are as before. *)
Lemma do_slabs_adjust_mem_limit_spec s F U P limit :
  rep s F U P ->
  exists s' b P', do_slabs_adjust_mem_limit settings s limit = Ret (s', b) /\ rep s' F U P' /\
    headers s' = headers s /\
    (P 0 = [] -> P' = P /\ blocks s' = blocks s /\ mem_malloced s' = mem_malloced s /\
                 mem_base s' = mem_base s).
Proof.
  intros Hr. unfold do_slabs_adjust_mem_limit.
  destruct (Z.eqb_spec (mem_base s) 0) as [Hb|Hb]; simpl; [|by exists s, false, P].
  set (s1 := set_limit s _ _ _). assert (rep s1 F U P) as Hr1 by by eapply rep_frame.
  unfold memory_release. change (mem_base s1) with (mem_base s). rewrite Hb. cbn [Z.eqb negb orb].
  destruct (slab_reassign settings); cbn [negb obind]; [|by exists s1, true, P].
  destruct (pl_cls _ _ _ (rp_pages _ _ _ _ _ _ _ _ Hr1) 0) as (g & rest & Hg & Eg & _).
  { pose proof (co_n _ _ _ _ Hco). lia. }
  destruct (release_from_spec (S (Z.to_nat (slabs g))) s1 F U P Hr1 Hb) as (s' & P' & E & Hr' & Eh & _ & _ & _ & H0).
  { rewrite Eg. lia. }
  unfold SLAB_GLOBAL_PAGE_POOL. rewrite Hg. cbn [obind]. rewrite E. exists s', true, P'.
  split; [done|]. split; [done|]. split; [done|]. by intros [-> ->]%H0.
Qed.

(** ** Pages taken at the start *)

Context (malloc : list (Z * Z) -> Z -> Z) (realloc : Z -> bool).

Lemma preallocate_spec fuel s F P i :
  malloc_ok malloc -> rep s F none P -> 1 <= i -> (forall j, i <= j -> P j = []) ->
  preallocate_from settings malloc realloc fuel s i (i - 1) N = Panic "exit" \/
  exists s' F' P', preallocate_from settings malloc realloc fuel s i (i - 1) N = Ret s' /\
    rep s' F' none P'.
Proof.
  intros Hm. revert s F P i. induction fuel as [|fuel IH]; intros s F P i Hr Hi HP; [right; by exists s, F, P|].
  simpl. replace (i - 1 + 1) with i by lia.
  destruct (Z.ltb_spec N i); [right; by exists s, F, P|].
  assert (room per P i) as Hroom.
  { unfold room. rewrite HP by lia. simpl. destruct (co_class _ _ _ _ Hco i) as (H1 & H2 & H3); [lia|].
    pose proof (co_page _ _ _ _ Hco). unfold header_end in H1. nia. }
  destruct (do_slabs_newslab_spec _ _ _ _ Hco malloc realloc s F none P i Hm Hr)
    as (s1 & ok & F1 & P1 & -> & Hr1 & _ & Htp); [lia|done|]. cbn [obind].
  destruct ok; [|by left]. specialize (IH s1 F1 P1 (i + 1)).
  replace (i + 1 - 1) with i in IH by lia. apply IH; [done|lia|]. intros j Hj. rewrite (tp_others _ _ _ _ _ _ _ _ _ Htp j) by lia. apply HP. lia.
Qed.
End thms.

(** ** From the start *)

Section boot.
Context (settings : settings_t) (malloc : list (Z * Z) -> Z -> Z) (realloc : Z -> bool).

Lemma configure_spec s limit factor prealloc sizes ext reuse large initial s1 b :
  0 < slab_page_size settings < 2 ^ 31 -> 0 <= limit -> blocks_apart (blocks s) -> mem_base s = 0 ->
  (large = 0 \/ 0 < large /\ Forall (fun y => large + limit <= fst y \/ fst y + snd y <= large) (blocks s)) ->
  (ext = 0 \/ 0 < ext /\ mapped (blocks s) ext limit = true) ->
  slabs_configure settings s limit factor prealloc sizes ext reuse large initial = Ret (s1, b) ->
  fresh settings (slabclass s1) /\ 1 <= power_largest s1 <= 63 /\ arena_ok s1.
Proof.
  intros Hp Hlim Hb Hbase Hlg Hext. unfold slabs_configure.
  set (s' := set_limit s _ _ _).
  destruct (if prealloc && (ext =? 0) then _ else _) as [s2 do] eqn:E2.
  assert (arena_ok s2) as Ha.
  { revert E2. destruct prealloc; simpl; [|by intros [= <- <-]; split].
    destruct (Z.eqb_spec ext 0) as [->|He].
    - destruct (Z.eqb_spec large 0); intros [= <- <-]; [by split|].
      destruct Hlg as [?|[H0 Hf]]; [lia|]. split; [by split|]. intros _. simpl. split; [lia|].
      intros _. by apply mapped_here.
    - destruct Hext as [?|[H0 Hm]]; [lia|]. destruct reuse; intros [= <- <-]; (split; [done|]); simpl;
        intros _; (split; [lia|]); first [done|lia]. }
  intros (x & Hx & E)%obind_ret. destruct x as [l i].
  apply (init_classes_fresh settings) in Hx as [Hf Hi]; [|split_and!; [done| |done]|done].
  2:{ apply Forall_replicate. unfold fresh_class. simpl. by rewrite Zdiv_0_r. }
  assert (1 <= i <= 63) as Hi' by (unfold POWER_SMALLEST, MAX_NUMBER_OF_SLAB_CLASSES in Hi; lia).
  apply obind_ret in E as (_ & _ & E). apply obind_ret in E as (s3 & E3 & E).
  unfold upd_cls, cls in E3. simpl in E3.
  destruct (getZ l i) as [c|] eqn:Ec; [|done]. simpl in E3.
  destruct (setZ l i _) as [l'|] eqn:El; [|done]. injection E3 as <-.
  assert (fresh settings l') as Hf' by (eapply fresh_insert; [done| |done..]; lia).
  destruct initial; injection E as <- _; (split; [exact Hf'|]); (split; [exact Hi'|exact Ha]).
Qed.

(** The allocator after [slabs_init]; [s1] is its state before it takes pages. *)
Inductive booted (s1 s : state) : Prop :=
| booted_intro s0 limit factor prealloc sizes ext reuse large initial b :
    0 <= limit -> blocks_apart (blocks s0) -> mem_base s0 = 0 ->
    (large = 0 \/
     0 < large /\ Forall (fun y => large + limit <= fst y \/ fst y + snd y <= large) (blocks s0)) ->
    (ext = 0 \/ 0 < ext /\ mapped (blocks s0) ext limit = true) ->
    slabs_configure settings s0 limit factor prealloc sizes ext reuse large initial = Ret (s1, b) ->
    slabs_init settings malloc realloc s0 limit factor prealloc sizes ext reuse large initial = Ret s ->
    booted s1 s.

Definition reasonable (s1 : state) : Prop :=
  0 < slab_page_size settings < 2 ^ 31 /\ classes_fit settings s1.

Lemma booted_rep s1 s :
  malloc_ok malloc -> reasonable s1 -> booted s1 s ->
  config_ok (power_largest s1) (size_of s1) (per_of s1) settings /\
  exists F P, rep (power_largest s1) (size_of s1) (per_of s1) settings s F none P.
Proof.
  intros Hm [Hp Hfit] [s0 limit factor prealloc sizes ext reuse large initial b H1 H2 H3 H4 H5 Hc Hi].
  destruct (configure_spec _ _ _ _ _ _ _ _ _ _ _ Hp H1 H2 H3 H4 H5 Hc) as (Hf & HN & Ha).
  pose proof (fresh_config settings s1 Hf HN Hp Hfit) as Hco. split; [done|].
  pose proof (fresh_rep settings s1 Hf HN Ha) as Hr.
  unfold slabs_init in Hi. rewrite Hc in Hi. cbn [obind] in Hi.
  destruct (b && negb reuse); [|injection Hi as <-; by exists none, none].
  destruct (preallocate_spec settings _ _ _ Hco malloc realloc
              (Z.to_nat (MAX_NUMBER_OF_SLAB_CLASSES - POWER_SMALLEST)) s1 none none 1 Hm Hr)
    as [E|(s' & F & P & E & Hr')]; [done|done| |];
    unfold slabs_preallocate in Hi; change (1 - 1) with 0 in E; unfold POWER_SMALLEST in *; rewrite E in Hi.
  - done.
  - injection Hi as <-. eauto.
Qed.
End boot.

(** ** A program and its allocator *)

Section run.
Context (settings : settings_t) (malloc : list (Z * Z) -> Z -> Z) (realloc : Z -> bool).
(** The classes: their number, chunk sizes, chunks per page. *)
Context (s1 : state).
Notation N := (power_largest s1).
Notation sz := (size_of s1).
Notation rep := (SlabsSpec.rep N sz (per_of s1) settings).

(** Counters stay in range: 2 ^ 32 chunks of a class take hundreds of gigabytes. *)
Definition roomy (s : state) (id : Z) : Prop :=
  forall c, cls s id = Ret c -> (slabs c + 1) * perslab c < 2 ^ 32 /\ slabs c + 1 < 2 ^ 31.

(** What is done under [slabs_lock], with the chunks the program has of each
    class. *)
Inductive step : state * (Z -> list Z) -> state * (Z -> list Z) -> Prop :=
| step_alloc s U n id flags s' p :
    1 <= id <= N -> n <= sz id -> roomy s id ->
    do_slabs_alloc settings malloc realloc s n id flags = Ret (s', p) ->
    step (s, U) (s', if decide (p = 0) then U else at_id U id (p :: U id))
| step_write s U id x q f s' :
    x ∈ U id -> x <= q -> q + header_end <= x + sz id -> upd s q f = Ret s' ->
    step (s, U) (s', U)
| step_free s U id p V s' :
    U id ≡ₚ p :: V -> has (hdr s p) ITEM_CHUNKED = false ->
    do_slabs_free s p id = Ret s' -> step (s, U) (s', at_id U id V)
| step_free_chunked s U it id id0 l V s' :
    chunked_item sz s U it id l -> 1 <= id0 <= N -> do_slabs_free s it id0 = Ret s' ->
    without U ((it, id) :: l) V -> step (s, U) (s', V)
| step_limit s U limit s' b :
    do_slabs_adjust_mem_limit settings s limit = Ret (s', b) -> step (s, U) (s', U).

Definition reachable (s : state) (U : Z -> list Z) : Prop :=
  exists s0, booted settings malloc realloc s1 s0 /\ rtc step (s0, none) (s, U).

Lemma rep_used s F U V P : rep s F U P -> (forall i, V i ≡ₚ U i) -> rep s F V P.
Proof. intros [] E. split; try done. intros i. by rewrite E. Qed.

Lemma roomy_room s F U P id : rep s F U P -> 1 <= id <= N -> roomy s id -> room (per_of s1) P id.
Proof.
  intros Hr Hid H. destruct (pl_cls _ _ _ (rp_pages _ _ _ _ _ _ _ _ Hr) id) as (c & r & Hc & E & _); [lia|].
  destruct (li_cls _ _ _ _ _ (rp_lists _ _ _ _ _ _ _ _ Hr) id) as (c' & Hc' & Ev); [lia|].
  replace c' with c in * by congruence. injection Ev as _ E2 _ _.
  unfold room. rewrite <- E, <- E2. by apply H.
Qed.

Hypothesis Hm : malloc_ok malloc.
Hypothesis Hs1 : reasonable settings s1.

Lemma step_rep s U s' U' :
  config_ok N sz (per_of s1) settings -> step (s, U) (s', U') ->
  (exists F P, rep s F U P) -> exists F P, rep s' F U' P.
Proof.
  intros Hco Hst (F & P & Hr). inversion Hst as
    [s2 U2 n id flags s2' p Hid Hn Hroom E|s2 U2 id x q f s2' Hx Hq Hqe E|s2 U2 id p V s2' HU Hc E|
     s2 U2 it id id0 l V s2' Hci Hid0 E Hwo|s2 U2 limit s2' b E]; subst.
  - destruct (do_slabs_alloc_spec _ _ _ _ Hco malloc realloc s F U P n id flags Hm Hr Hid Hn)
      as (s2 & q & F' & P' & ok & E2 & _ & _ & H); [by eapply roomy_room|].
    rewrite E2 in E. injection E as -> ->.
    destruct H as [(-> & _ & Hr')|(Hp & Hr' & _)].
    + simpl. eauto.
    + rewrite decide_False by done. eauto.
  - destruct (write_used_spec _ _ _ _ Hco s F U' P id x q f Hr Hx Hq Hqe) as (s2 & E2 & Hr' & _).
    rewrite E2 in E. injection E as ->. eauto.
  - destruct (free_used_spec _ _ _ _ Hco s F U P id p V Hr HU Hc) as (s2 & E2 & Hr' & _).
    rewrite E2 in E. injection E as ->. eauto.
  - destruct (free_chunked_spec _ _ _ _ Hco s F U P it id id0 l Hr Hci Hid0)
      as (s2 & F' & V & E2 & Hr' & Hw & _). rewrite E2 in E. injection E as ->.
    exists F', P. eapply rep_used; [done|]. intros i. specialize (Hw i). specialize (Hwo i).
    rewrite Hw in Hwo. by apply Permutation_app_inv_l in Hwo.
  - destruct (do_slabs_adjust_mem_limit_spec settings _ _ _ Hco s F U' P limit Hr)
      as (s2 & b2 & P' & E2 & Hr' & _). rewrite E2 in E. injection E as -> _. eauto.
Qed.

Lemma reachable_rep s U :
  reachable s U -> config_ok N sz (per_of s1) settings /\ exists F P, rep s F U P.
Proof.
  intros (s0 & Hb & Hs). destruct (booted_rep _ _ _ _ _ Hm Hs1 Hb) as [Hco Hr]. split; [done|].
  apply (rtc_invariant step (fun x => exists F P, rep x.1 F x.2 P) (s0, none) (s, U)); [|done|done].
  intros [x V] [y W] HI Hst. by eapply step_rep.
Qed.

(** ** Chunks are handed out once *)

(** C9. From start-up on, whatever was taken, written and given back, a call
    for memory returns, leaves the chunks in use alone, and gives nothing or a
    chunk of its class, inside memory and apart from every chunk in use. *)
Theorem slabs_alloc_exclusive s U n id flags :
  reachable s U -> 1 <= id <= N -> n <= sz id -> roomy s id ->
  exists s' p, do_slabs_alloc settings malloc realloc s n id flags = Ret (s', p) /\
    (forall i x q, x ∈ U i -> x <= q < x + sz i -> hdr s' q = hdr s q) /\
    (p <> 0 -> mapped (blocks s') p (sz id) = true /\ n <= sz id /\
               refcount (hdr s' p) = 1 /\ it_flags (hdr s' p) = 0 /\
               forall i x, x ∈ U i -> x + sz i <= p \/ p + sz id <= x).
Proof.
  intros Hreach Hid Hn Hroom. destruct (reachable_rep s U Hreach) as (Hco & F & P & Hr).
  destruct (do_slabs_alloc_spec _ _ _ _ Hco malloc realloc s F U P n id flags Hm Hr Hid Hn)
    as (s' & p & F' & P' & ok & E & [Hk _] & _ & H); [by eapply roomy_room|].
  exists s', p. split; [done|]. split; [exact Hk|]. intros Hp.
  destruct H as [[? _]|(_ & Hr' & Hrc & Hfl)]; [done|].
  assert (p ∈ at_id U id (p :: U id) id) as Hpu by (rewrite at_id_eq; by left).
  destruct (owned_mapped _ _ _ _ Hco _ _ _ _ Hr' id p) as (_ & _ & Hmap); [by apply elem_of_app; right|].
  split; [done|]. split; [done|]. split; [done|]. split; [done|]. intros i x Hx.
  apply (owned_disjoint _ _ _ _ Hco _ _ _ _ Hr' i id x p); [|by apply elem_of_app; right|].
  - apply elem_of_app. right. unfold at_id. case_decide; [subst; by right|done].
  - intros [= -> ->]. pose proof (owned_NoDup _ _ _ _ Hco _ _ _ _ Hr' id) as Hnd.
    rewrite at_id_eq in Hnd. apply NoDup_app in Hnd as (_ & _ & Hnd). by apply NoDup_cons in Hnd as [? _].
Qed.

(** C10. In every reachable state each class has a doubly linked free list of
    [sl_curr] chunks, all marked free, and the free chunks and those in use are
    together, each once, the chunks of the pages in its [slab_list]. *)
Theorem slabs_account s U id :
  reachable s U -> 1 <= id <= N ->
  exists c l, cls s id = Ret c /\ size c = sz id /\
    slots c = hd 0 l /\ sl_curr c = Z.of_nat (length l) /\ dll (hdr s) 0 l /\
    (forall p, p ∈ l -> it_flags (hdr s p) = ITEM_SLABBED /\ slabs_clsid (hdr s p) = id) /\
    NoDup (l ++ U id) /\
    sl_curr c + Z.of_nat (length (U id)) = slabs c * perslab c /\
    (forall x, x ∈ l ++ U id <-> exists k i page, 0 <= k < slabs c /\ getZ (slab_list c) k = Some page /\
                                   0 <= i < perslab c /\ x = page + size c * i).
Proof.
  intros Hreach Hid. destruct (reachable_rep s U Hreach) as (Hco & F & P & Hr).
  destruct (li_cls _ _ _ _ _ (rp_lists _ _ _ _ _ _ _ _ Hr) id) as (c & Hc & Ev); [lia|].
  injection Ev as E1 E2 E3 E4.
  destruct (pl_cls _ _ _ (rp_pages _ _ _ _ _ _ _ _ Hr) id) as (c' & r & Hc' & E5 & E6 & _); [lia|].
  replace c' with c in * by congruence. clear Hc'. destruct (co_class _ _ _ _ Hco id Hid) as (Hs & Hp & _).
  exists c, (F id). split; [done|]. split; [done|]. split; [done|]. split; [done|].
  split; [apply Hr|]. split; [|split; [by apply (owned_NoDup _ _ _ _ Hco _ _ _ _ Hr)|split]].
  - intros p Hpf. destruct (li_elem _ _ _ _ _ (rp_lists _ _ _ _ _ _ _ _ Hr) id p Hpf) as (_ & ? & ? & _). done.
  - pose proof (Permutation_length (rp_chunks _ _ _ _ _ _ _ _ Hr id)) as Hl.
    rewrite length_app, pages_length in Hl. rewrite E2, E4, E5. nia.
  - intros x. rewrite (rp_chunks _ _ _ _ _ _ _ _ Hr id), list_elem_of_bind, E1, E2, E5, E6. split.
    + intros (p & Hx & Hpp). apply elem_chunks in Hx as (i & Hi & ->).
      apply list_elem_of_lookup in Hpp as [k Hk]. pose proof (lookup_lt_Some _ _ _ Hk).
      exists (Z.of_nat k), (Z.of_nat i), p. split; [lia|]. split; [|split; [lia|done]].
      rewrite getZ_nat. by apply lookup_app_l_Some.
    + intros (k & i & p & Hk & Hp' & Hi & ->). exists p. split.
      * apply chunks_elem. exists (Z.to_nat i). split; [lia|]. rewrite Z2Nat.id by lia. done.
      * unfold getZ in Hp'. rewrite decide_True in Hp' by lia. rewrite lookup_app_l in Hp' by lia.
        by eapply list_elem_of_lookup_2.
Qed.

(** ** The limit *)

(** The classes that have a page. *)
Definition classes_used (P : Z -> list Z) : Z :=
  Z.of_nat (length (filter (fun i => P i <> []) (seqZ 1 N))).

Definition total (s : state) : Z := foldr Z.add 0 (blocks s).*2.

(** No limit above [L], and the counter of memory in range. *)
Definition within (L : Z) (s : state) : Prop :=
  0 < mem_limit s <= L /\ mem_malloced s + slab_page_size settings < 2 ^ 64.

Definition step_within (L : Z) (x y : state * (Z -> list Z)) : Prop := step x y /\ within L x.1.

Definition bounded (L : Z) (s : state) (U : Z -> list Z) : Prop :=
  exists F P, rep s F U P /\ P 0 = [] /\ mem_base s = 0 /\ 0 <= total s <= mem_malloced s /\
    total s <= L + slab_page_size settings * classes_used P.

Lemma classes_used_le P : 1 <= N -> 0 <= classes_used P <= N.
Proof.
  intros. unfold classes_used. pose proof (length_filter (fun i => P i <> []) (seqZ 1 N)) as Hl.
  rewrite length_seqZ in Hl. lia.
Qed.

Lemma filter_length_mono (Q R : Z -> Prop) `{forall x, Decision (Q x)} `{forall x, Decision (R x)} l :
  (forall x, Q x -> R x) -> (length (filter Q l) <= length (filter R l))%nat.
Proof.
  intros Hi. induction l as [|x l IH]; [done|]. rewrite !filter_cons.
  destruct (decide (Q x)) as [Hq|]; [rewrite decide_True by auto; simpl; lia|].
  destruct (decide (R x)); simpl; lia.
Qed.

Lemma filter_length_strict (Q R : Z -> Prop) `{forall x, Decision (Q x)} `{forall x, Decision (R x)} l y :
  (forall x, Q x -> R x) -> y ∈ l -> ~ Q y -> R y -> (length (filter Q l) < length (filter R l))%nat.
Proof.
  intros Hi Hy Hq Hr. apply list_elem_of_split in Hy as (l1 & l2 & ->). rewrite !filter_app, !filter_cons.
  rewrite decide_False, decide_True by done. rewrite !length_app. simpl.
  pose proof (filter_length_mono Q R l1 Hi). pose proof (filter_length_mono Q R l2 Hi). lia.
Qed.

Lemma classes_used_mono P P' :
  (forall i, P i <> [] -> P' i <> []) -> classes_used P <= classes_used P'.
Proof.
  intros H. unfold classes_used. pose proof (filter_length_mono (fun i => P i <> []) (fun i => P' i <> []) (seqZ 1 N) H). lia.
Qed.

Lemma classes_used_first P P' id :
  (forall i, P i <> [] -> P' i <> []) -> 1 <= id <= N -> P id = [] -> P' id <> [] ->
  classes_used P + 1 <= classes_used P'.
Proof.
  intros H Hid E E'. unfold classes_used.
  pose proof (filter_length_strict (fun i => P i <> []) (fun i => P' i <> []) (seqZ 1 N) id H) as Hl.
  assert (id ∈ seqZ 1 N) as Hin by (apply elem_of_seqZ; lia). specialize (Hl Hin ltac:(tauto) E'). lia.
Qed.

(** A page taken while the pool is empty. *)
Lemma bounded_page L s s' P P' id ok :
  config_ok N sz (per_of s1) settings -> 1 <= id <= N ->
  took_page sz (per_of s1) settings s s' P P' id ok -> P 0 = [] -> mem_base s = 0 -> within L s ->
  0 <= total s <= mem_malloced s -> total s <= L + slab_page_size settings * classes_used P ->
  P' 0 = [] /\ mem_base s' = 0 /\ 0 <= total s' <= mem_malloced s' /\
  total s' <= L + slab_page_size settings * classes_used P'.
Proof.
  intros Hco Hid [[_ Hb Hg] Ho Hpool Hpg Hbl] HP0 Hbase [Hlim Hmal] Htot Hbd.
  destruct (plen_bounds _ _ _ _ Hco id) as [Hpl _]; [lia|].
  assert (forall i, P i <> [] -> P' i <> []) as Hmono.
  { intros i Hi. destruct (decide (i = id)) as [->|]; [|rewrite Ho; [done| |done]; by intros ->].
    destruct ok; [|by rewrite Hpg]. destruct Hpg as [q ->]. by destruct (P id). }
  pose proof (classes_used_mono P P' Hmono) as Hcu.
  pose proof (classes_used_le P' ltac:(lia)) as Hcu'. pose proof (co_page _ _ _ _ Hco) as Hpage.
  assert (slab_page_size settings * classes_used P <= slab_page_size settings * classes_used P')
    by (apply Z.mul_le_mono_nonneg_l; lia).
  assert (0 <= slab_page_size settings * classes_used P') by (apply Z.mul_nonneg_nonneg; lia).
  split; [auto|]. split; [congruence|].
  destruct (Hg Hbase) as [[Em Eb]|[Em Hbs]]; unfold total in *; [rewrite Em, Eb; split; lia|].
  rewrite u64_small in Em by (unfold is_u64; lia).
  destruct Hbs as [Eb|[q Eb]]; [rewrite Em, Eb; split; lia|].
  rewrite Em, Eb. cbn [fmap list_fmap foldr snd]. split; [lia|].
  destruct Hbl as [Eb'|[Hok Hall]]; [rewrite Eb' in Eb; apply (f_equal length) in Eb; simpl in Eb; lia|].
  destruct Hall as [?|[Hle|[E|?]]]; [lia| | |done].
  - rewrite u64_small in Hle by (unfold is_u64; lia). lia.
  - rewrite Hok in Hpg. destruct Hpg as [x Ex].
    pose proof (classes_used_first P P' id Hmono Hid E) as Hf. rewrite Ex, E in Hf.
    specialize (Hf ltac:(done)).
    assert (slab_page_size settings * (classes_used P + 1) <= slab_page_size settings * classes_used P')
      by (apply Z.mul_le_mono_nonneg_l; lia). lia.
Qed.

Lemma bounded_step L x y :
  config_ok N sz (per_of s1) settings -> bounded L x.1 x.2 -> step_within L x y -> bounded L y.1 y.2.
Proof.
  intros Hco (F & P & Hr & HP0 & Hb & Ht & Hbd) [Hst Hw].
  assert (forall s' F' U', rep s' F' U' P -> same_pages x.1 s' -> bounded L s' U') as Hsame.
  { intros s' F' U' Hr' Hsp. exists F', P. unfold total. rewrite (sp_blocks _ _ Hsp), (sp_malloced _ _ Hsp),
      (sp_base _ _ Hsp). done. }
  destruct Hst as [s U n id flags s' p Hid Hn Hroom E|s U id z q f s' Hx Hq Hqe E|s U id p V s' HU Hc E|
     s U it id id0 l V s' Hci Hid0 E Hwo|s U limit s' b E]; simpl in *.
  - destruct (do_slabs_alloc_spec _ _ _ _ Hco malloc realloc s F U P n id flags Hm Hr Hid Hn)
      as (s2 & q & F' & P' & ok & E2 & _ & Htp & H); [by eapply roomy_room|].
    rewrite E2 in E. injection E as -> ->.
    pose proof (bounded_page L s s' P P' id ok Hco Hid Htp HP0 Hb Hw Ht Hbd).
    destruct H as [(-> & _ & Hr')|(Hp & Hr' & _)].
    + simpl. by exists F', P'.
    + rewrite decide_False by done. by exists F', P'.
  - destruct (write_used_spec _ _ _ _ Hco s F U P id z q f Hr Hx Hq Hqe) as (s2 & E2 & Hr' & Hsp & _).
    rewrite E2 in E. injection E as ->. eauto.
  - destruct (free_used_spec _ _ _ _ Hco s F U P id p V Hr HU Hc) as (s2 & E2 & Hr' & _ & Hsp).
    rewrite E2 in E. injection E as ->. eauto.
  - destruct (free_chunked_spec _ _ _ _ Hco s F U P it id id0 l Hr Hci Hid0)
      as (s2 & F' & W & E2 & Hr' & Hw' & _ & Hsp). rewrite E2 in E. injection E as ->.
    apply (Hsame s' F'); [|done]. eapply rep_used; [done|]. intros i. specialize (Hw' i). specialize (Hwo i).
    rewrite Hw' in Hwo. by apply Permutation_app_inv_l in Hwo.
  - destruct (do_slabs_adjust_mem_limit_spec settings _ _ _ Hco s F U P limit Hr)
      as (s2 & b2 & P' & E2 & Hr' & _ & H0). rewrite E2 in E. injection E as -> _.
    destruct (H0 HP0) as (-> & Eb & Em & Ebase). exists F, P. split; [done|]. split; [done|].
    split; [congruence|]. unfold total. by rewrite Eb, Em.
Qed.

(** C14. Without a preallocated arena, and whatever is taken and given back
    while no limit above [L] is set, the pages never take more than [L] bytes
    and one page for every class. *)
Theorem memory_within_limit L s0 s U :
  booted settings malloc realloc s1 s0 -> blocks s0 = [] -> mem_base s0 = 0 -> 0 <= mem_malloced s0 ->
  0 <= L -> rtc (step_within L) (s0, none) (s, U) ->
  total s <= mem_malloced s /\ total s <= L + slab_page_size settings * N.
Proof.
  intros Hb Eb Ebase Hmal HL Hs. destruct (booted_rep _ _ _ _ _ Hm Hs1 Hb) as (Hco & F & P & Hr).
  assert (bounded L s U) as (F' & P' & Hr' & _ & _ & Ht & Hbd).
  { apply (rtc_invariant (step_within L) (fun x => bounded L x.1 x.2) (s0, none) (s, U)); [|simpl|done].
    - intros x y HI Hst. by eapply bounded_step.
    - assert (P 0 = []) as HP0.
      { destruct (P 0) as [|p l] eqn:E; [done|].
        destruct (la_owner _ _ _ _ _ _ (rp_layout _ _ _ _ _ _ _ _ Hr) 0 p Ebase) as (n & Hn & _);
          [rewrite E; by left|]. rewrite Eb in Hn. by apply elem_of_nil in Hn. }
      exists F, P. split; [done|]. split; [done|]. split; [done|]. unfold total. rewrite Eb. simpl.
      pose proof (classes_used_le P ltac:(pose proof (co_n _ _ _ _ Hco); lia)).
      pose proof (co_page _ _ _ _ Hco). split; [lia|]. nia. }
  split; [lia|]. pose proof (classes_used_le P' ltac:(pose proof (co_n _ _ _ _ Hco); lia)).
  pose proof (co_page _ _ _ _ Hco). nia.
Qed.
End run.

(** ** The class of a size *)

Lemma clsid_from_spec (fuel : nat) s n res :
  length (slabclass s) = 64%nat -> power_largest s <= 63 -> 1 <= res <= power_largest s ->
  power_largest s - res < Z.of_nat fuel ->
  exists id, clsid_from fuel s n res = Ret id /\ res <= id <= power_largest s /\
    (forall j, res <= j < id -> size_of s j < n) /\
    (n <= size_of s id \/ id = power_largest s /\ size_of s id < n).
Proof.
  intros Hlen HN. revert res. induction fuel as [|fuel IH]; intros res Hres Hf; [lia|].
  cbn [clsid_from]. assert (exists c, cls s res = Ret c) as [c Hc].
  { unfold cls. destruct (getZ_is_Some (slabclass s) res) as [c ->]; [lia|]. by exists c. }
  assert (size_of s res = size c) as Es by (unfold size_of; by rewrite Hc). rewrite Hc. cbn [obind].
  destruct (Z.ltb_spec (size c) n) as [Hlt|Hge].
  - destruct (Z.eqb_spec res (power_largest s)) as [->|Hne].
    + exists (power_largest s). split; [done|]. split; [lia|]. split; [lia|]. right. by rewrite Es.
    + destruct (IH (res + 1)) as (id & E & Hid & Hj & H); [lia|lia|]. exists id. split; [done|].
      split; [lia|]. split; [|done]. intros j Hjr. destruct (decide (j = res)) as [->|]; [by rewrite Es|].
      apply Hj. lia.
  - exists res. split; [done|]. split; [lia|]. split; [lia|]. left. by rewrite Es.
Qed.

(** [slabs_clsid] gives 0 to the sizes no item has; to any other size it
    gives the first class whose chunks are long enough, and the last one when
    there is none (an item that will be cut into chunks). *)
Theorem slabs_clsid_first_fit settings s n :
  length (slabclass s) = 64%nat -> 1 <= power_largest s <= 63 ->
  if (n =? 0) || (item_size_max settings <? n) then slabs_clsid_of settings s n = Ret 0
  else exists id, slabs_clsid_of settings s n = Ret id /\ 1 <= id <= power_largest s /\
         (forall j, 1 <= j < id -> size_of s j < n) /\
         (n <= size_of s id \/ id = power_largest s /\ size_of s id < n).
Proof.
  intros Hlen HN. unfold slabs_clsid_of. destruct (_ || _); [done|].
  apply clsid_from_spec; unfold POWER_SMALLEST; lia || done.
Qed.

(** The items are given the class that [Items] computes from the sizes alone. *)
Lemma clsid_from_items (fuel : nat) s n res :
  length (slabclass s) = 64%nat -> power_largest s <= 63 -> 1 <= res ->
  res + Z.of_nat fuel = power_largest s ->
  clsid_from (S fuel) s n res
  = Ret (Items.slabs_clsid_from (size_of s <$> seqZ res (Z.of_nat (S fuel))) res n).
Proof.
  intros Hlen HN. revert res. induction fuel as [|fuel IH]; intros res Hres Hf;
    rewrite seqZ_cons, fmap_cons by lia; cbn [Items.slabs_clsid_from];
    (assert (exists c, cls s res = Ret c) as [c Hc]
       by (unfold cls; destruct (getZ_is_Some (slabclass s) res) as [c ->]; [lia|by exists c]));
    assert (size_of s res = size c) as -> by (unfold size_of; by rewrite Hc).
  - simpl. rewrite Hc. simpl. destruct (size c <? n); [|done].
    rewrite (proj2 (Z.eqb_eq res (power_largest s))) by lia. f_equal. lia.
  - specialize (IH (Z.succ res) ltac:(lia) ltac:(lia)). set (m := S fuel) in *. cbn [clsid_from].
    rewrite Hc. cbn [obind]. destruct (size c <? n); [|done].
    rewrite (proj2 (Z.eqb_neq res (power_largest s))) by lia.
    replace (Z.pred (Z.of_nat (S m))) with (Z.of_nat m) by lia.
    replace (res + 1) with (Z.succ res) by lia. rewrite IH. unfold m. by rewrite seqZ_cons by lia.
Qed.

Lemma slabs_clsid_items settings (st : Items.settings_t) s n :
  length (slabclass s) = 64%nat -> 1 <= power_largest s <= 63 ->
  Items.item_size_max st = item_size_max settings ->
  Items.slab_sizes st = size_of s <$> seqZ 1 (power_largest s) ->
  slabs_clsid_of settings s n = Ret (Items.slabs_clsid_of st n).
Proof.
  intros Hlen HN Em Es. unfold slabs_clsid_of, Items.slabs_clsid_of. rewrite Em, Es.
  destruct (_ || _); [done|]. replace (Z.to_nat (power_largest s)) with (S (Z.to_nat (power_largest s - 1))) by lia.
  unfold POWER_SMALLEST. rewrite clsid_from_items by lia. do 4 f_equal. lia.
Qed.

(** ** A small machine *)

Module Small.

Definition settings : settings_t :=
  {| chunk_size := 48; item_size_max := 1024; slab_chunk_size_max := 512; slab_page_size := 1024;
     slab_reassign := true |}.

(** Memory above everything in use. *)
Definition malloc (l : list (Z * Z)) (n : Z) : Z := foldr (fun b m => Z.max m (fst b + snd b)) 4096 l.
Definition realloc (_ : Z) : bool := true.

Lemma malloc_small : malloc_ok malloc.
Proof.
  intros l n Hn. right. unfold malloc. induction l as [|b l [IH1 IH2]]; simpl.
  - split; [lia|]. by intros b ?%elem_of_nil.
  - split; [lia|]. intros b' [->|Hb]%elem_of_cons; [lia|]. specialize (IH2 b' Hb).
    assert (b'.1 + b'.2 <= foldr (fun b m => Z.max m (fst b + snd b)) 4096 l); [|lia].
    clear -Hb. induction l as [|x l IH]; [by apply elem_of_nil in Hb|].
    apply elem_of_cons in Hb as [->|Hb]; simpl; [lia|]. specialize (IH Hb). lia.
Qed.

(** The static variables, and the factor 1.25. *)
Definition zero : state :=
  {| slabclass := []; power_largest := 0; mem_limit := 0; mem_malloced := 0;
     mem_limit_reached := false; mem_base := 0; mem_current := 0; mem_avail := 0;
     headers := ∅; blocks := [] |}.
Definition factor : spec_float := S754_finite false 5629499534213120 (-52).

Definition start : state :=
  match slabs_configure settings zero 2048 factor false None 0 false 0 None with
  | Ret (s, _) => s | _ => zero
  end.

(** The classes of memcached for this page size. *)
Example start_classes :
  power_largest start = 8 /\
  (fun c => (size c, perslab c)) <$> take 9 (slabclass start)
  = [(0, 0); (96, 10); (120, 8); (152, 6); (192, 5); (240, 4); (304, 3); (384, 2); (512, 2)].
Proof. by vm_compute. Qed.

Lemma start_reasonable : reasonable settings start.
Proof.
  split; [done|]. intros id c Hid Hc. assert (power_largest start = 8) as E by by vm_compute.
  rewrite E in Hid.
  assert (id = 1 \/ id = 2 \/ id = 3 \/ id = 4 \/ id = 5 \/ id = 6 \/ id = 7 \/ id = 8) as H by lia.
  destruct H as [->|[->|[->|[->|[->|[->|[->| ->]]]]]]]; vm_compute in Hc; injection Hc as <-;
    vm_compute; by split.
Qed.

Lemma start_booted : booted settings malloc realloc start start.
Proof.
  apply (booted_intro settings malloc realloc start start zero 2048 factor false None 0 false 0 None false);
    try done; try by left. all: by vm_compute.
Qed.

(** One chunk of the first class is taken. *)
Definition taken : state :=
  match do_slabs_alloc settings malloc realloc start 90 1 0 with Ret (s, _) => s | _ => zero end.

Lemma taken_step : step settings malloc realloc start (start, none) (taken, at_id none 1 [4960]).
Proof.
  change (at_id none 1 [4960]) with (if decide (4960 = 0) then none else at_id none 1 (4960 :: none 1)).
  apply (step_alloc settings malloc realloc start start none 90 1 0 taken 4960).
  - by vm_compute.
  - by vm_compute.
  - intros c Hc. vm_compute in Hc. injection Hc as <-. by vm_compute.
  - by vm_compute.
Qed.

Lemma taken_reachable : reachable settings malloc realloc start taken (at_id none 1 [4960]).
Proof. exists start. split; [apply start_booted|]. eapply rtc_once, taken_step. Qed.

Lemma taken_roomy : roomy taken 1.
Proof. intros c Hc. vm_compute in Hc. injection Hc as <-. by vm_compute. Qed.

(** Another chunk of the class. *)
Lemma slabs_alloc_exclusive_witness :
  exists s' p, do_slabs_alloc settings malloc realloc taken 96 1 0 = Ret (s', p) /\
    (forall i x q, x ∈ at_id none 1 [4960] i -> x <= q < x + size_of start i -> hdr s' q = hdr taken q) /\
    (p <> 0 -> mapped (blocks s') p (size_of start 1) = true /\ 96 <= size_of start 1 /\
               refcount (hdr s' p) = 1 /\ it_flags (hdr s' p) = 0 /\
               forall i x, x ∈ at_id none 1 [4960] i ->
                 x + size_of start i <= p \/ p + size_of start 1 <= x).
Proof.
  apply (slabs_alloc_exclusive settings malloc realloc start malloc_small start_reasonable taken).
  - exact taken_reachable.
  - by vm_compute.
  - by vm_compute.
  - exact taken_roomy.
Defined.

Lemma slabs_account_witness :
  exists c l, cls taken 1 = Ret c /\ size c = size_of start 1 /\
    slots c = hd 0 l /\ sl_curr c = Z.of_nat (length l) /\ dll (hdr taken) 0 l /\
    (forall p, p ∈ l -> it_flags (hdr taken p) = ITEM_SLABBED /\ slabs_clsid (hdr taken p) = 1) /\
    NoDup (l ++ at_id none 1 [4960] 1) /\
    sl_curr c + Z.of_nat (length (at_id none 1 [4960] 1)) = slabs c * perslab c /\
    (forall x, x ∈ l ++ at_id none 1 [4960] 1 <->
       exists k i page, 0 <= k < slabs c /\ getZ (slab_list c) k = Some page /\
                        0 <= i < perslab c /\ x = page + size c * i).
Proof.
  apply (slabs_account settings malloc realloc start malloc_small start_reasonable taken).
  - exact taken_reachable.
  - by vm_compute.
Defined.

Lemma memory_within_limit_witness :
  total taken <= mem_malloced taken /\
  total taken <= 2048 + slab_page_size settings * power_largest start.
Proof.
  apply (memory_within_limit settings malloc realloc start malloc_small start_reasonable 2048 start taken
           (at_id none 1 [4960])).
  - exact start_booted.
  - by vm_compute.
  - by vm_compute.
  - by vm_compute.
  - done.
  - eapply rtc_once. split; [exact taken_step|]. by vm_compute.
Defined.

Lemma slabs_clsid_first_fit_witness :
  exists id, slabs_clsid_of settings start 300 = Ret id /\ 1 <= id <= power_largest start /\
    (forall j, 1 <= j < id -> size_of start j < 300) /\
    (300 <= size_of start id \/ id = power_largest start /\ size_of start id < 300).
Proof. apply (slabs_clsid_first_fit settings start 300); by vm_compute. Defined.

(** A [malloc] that fails is counted as memory in use. *)
Lemma malloc_failure_counted :
  let (s, p) := memory_allocate (fun _ _ => 0) start 1024 in
  p = 0 /\ blocks s = blocks start /\ mem_malloced s = mem_malloced start + 1024.
Proof. by vm_compute. Qed.
End Small.
End SlabsThms.
