(* ===== verification/McCommand.v ===== *)
(** * memcached's arithmetic commands (p1a)

    [do_add_delta] of [memcached.c] with the [mult] and [div] cases the
    repository adds, [add_delta] of [thread.c], and the commands of
    [proto_text.c] that reach it.  [buf] is in byte memory; the bytes an item's
    value is followed by in its slab page are [behind], because parsing a large
    value may look at them.  The thread's statistics are left out, and so is
    the suppression of replies by [noreply]. *)

From S2P Require Import Prelude DfsImage CString McNumber Assoc Items ItemsSpec ItemsThms.
Local Open Scope Z_scope.
Local Open Scope xv6_scope.

Module McCommand.
Import McNumber Assoc Items ItemsSpec ItemsThms.

Inductive delta_result_type :=
| OK
| NON_NUMERIC
| EOM
| DELTA_ITEM_NOT_FOUND
| DELTA_ITEM_CAS_MISMATCH.

Definition INCR_MAX_STORAGE_LEN : Z := 24.
Definition KEY_MAX_LENGTH : Z := 250.

(** [memcpy(d + off, src, n)] into the value of an item. *)
Definition copy_in (d : list Z) (off : Z) (src : list Z) : outcome (list Z) :=
  if decide (0 <= off /\ off + Z.of_nat (length src) <= Z.of_nat (length d))
  then Ret (take (Z.to_nat off) d ++ src ++ drop (Z.to_nat off + length src) d)
  else Fault.

Section command.
Context (hash : list Z -> Z) (settings : settings_t) (current_time : Z).

(** What the call leaves behind: the result, the caches, [buf], [*cas] and
    [*it_ret]. *)
Record delta_out := {
  result : delta_result_type;
  caches : cache;
  memory : bytes;
  cas_out : option Z;
  it_ret : Z
}.

(** [ITEM_set_cas(it, settings.use_cas ? get_cas_id() : 0)]: the macro
    evaluates its argument only for an item with a CAS value. *)
Definition new_cas_id (c : cache) (p : Z) : outcome cache :=
  let* it := getit c p in
  let (c, id) := if has it ITEM_CAS && use_cas settings then get_cas_id c else (c, 0) in
  upd c p (ITEM_set_cas id).

(** Drops the reference and gives up. *)
Definition abandon (c : cache) (p : Z) (m : bytes) (cas : option Z) (r : delta_result_type)
  : outcome delta_out :=
  let* c := do_item_remove c p in
  Ret {| result := r; caches := c; memory := m; cas_out := cas; it_ret := 0 |}.

(** The value is overwritten in its item. *)
Definition replace_in_place (c : cache) (p : Z) (it : item) (digits : list Z) : outcome cache :=
  let res := Z.of_nat (length digits) in
  let* c := new_cas_id c p in
  let* d := copy_in (data it) 0 digits in
  let* d := copy_in d res (replicate (Z.to_nat (nbytes it - res - 2)) 32) in
  let* c := upd c p (with_data d) in
  do_item_update settings current_time c p.

(** A new item takes the place of the old one; [None] is out of memory. *)
Definition replace_by_copy (c : cache) (p hv : Z) (it : item) (digits : list Z) (s : slot)
  : outcome (cache * option Z) :=
  let res := Z.of_nat (length digits) in
  let flags := if has it ITEM_CFLAGS then suffix it else 0 in
  let* (c, new_it) :=
    do_item_alloc hash settings current_time c (key it) flags (exptime it) (res + 2) s in
  if new_it =? 0 then Ret (c, None)
  else
    let* n := getit c new_it in
    let* d := copy_in (data n) 0 digits in
    let* d := copy_in d res [13; 10] in
    let* c := upd c new_it (with_data d) in
    let* c := do_item_replace settings current_time c p new_it hv in
    let* n := getit c new_it in
    let* c := upd c p (ITEM_set_cas (if use_cas settings then ITEM_get_cas n else 0)) in
    let* c := do_item_remove c new_it in
    Ret (c, Some new_it).

(** The end of a call that succeeded. *)
Definition finish (c : cache) (p : Z) (m : bytes) (cas : option Z) (keep : bool) : outcome delta_out :=
  let* it := getit c p in
  let cas := match cas with Some _ => Some (ITEM_get_cas it) | None => None end in
  if keep then
    Ret {| result := OK; caches := c; memory := m; cas_out := cas; it_ret := p |}
  else
    let* c := do_item_remove c p in
    Ret {| result := OK; caches := c; memory := m; cas_out := cas; it_ret := 0 |}.

(** From [itoa_u64(value, buf)] on. *)
Definition store_value (c : cache) (p hv : Z) (it : item) (value : Z) (m : bytes) (buf : Z)
    (cas : option Z) (keep : bool) (s : slot) : outcome delta_out :=
  let* (m, _) := of_option (itoa_u64 3 m value buf) in
  let* res := of_option (CString.strlen (Z.to_nat INCR_MAX_STORAGE_LEN) m buf 0) in
  let digits := m <$> seqZ buf res in
  if (res + 2 <=? nbytes it) && (refcount it =? 2) then
    let* c := replace_in_place c p it digits in
    finish c p m cas keep
  else if 1 <? refcount it then
    let* (c, copied) := replace_by_copy c p hv it digits s in
    match copied with
    | None => abandon c p m cas EOM
    | Some _ => finish c p m cas keep
    end
  else
    let* c := if refcount it =? 1 then do_item_remove c p else Ret c in
    Ret {| result := DELTA_ITEM_NOT_FOUND; caches := c; memory := m; cas_out := cas; it_ret := 0 |}.

(** [cas] is [*cas], [None] when the pointer is NULL; [keep] is
    [it_ret != NULL]; [s] the slot of an allocation. *)
Definition do_add_delta (fuel : nat) (behind : list Z) (c : cache) (k : list Z) (hv incr delta : Z)
    (m : bytes) (buf : Z) (cas : option Z) (keep : bool) (s : slot) : outcome delta_out :=
  let* (c, p) := do_item_get settings current_time c k hv false false in
  if p =? 0 then
    Ret {| result := DELTA_ITEM_NOT_FOUND; caches := c; memory := m; cas_out := cas; it_ret := 0 |}
  else
    let* it := getit c p in
    if (nbytes it <=? 2) || has it (Z.lor ITEM_CHUNKED ITEM_HDR) then abandon c p m cas NON_NUMERIC
    else if match cas with
            | Some v => negb (v =? 0) && negb (ITEM_get_cas it =? v)
            | None => false
            end then abandon c p m cas DELTA_ITEM_CAS_MISMATCH
    else
      let* parsed := safe_strtoull (data it ++ behind) in
      match parsed with
      | None => abandon c p m cas NON_NUMERIC
      | Some value =>
          let* value := of_option (apply_delta fuel incr delta value) in
          store_value c p hv it value m buf cas keep s
      end.

Definition add_delta (fuel : nat) (behind : list Z) (c : cache) (k : list Z) (incr delta : Z)
    (m : bytes) (buf : Z) (cas : option Z) (s : slot) : outcome delta_out :=
  do_add_delta fuel behind c k (hash k) incr delta m buf cas false s.

(** ** proto_text.c *)

Inductive reply :=
| Line (s : string)
| Number (digits : list Z)
| NoReply.

(** [tokens[KEY_TOKEN]] is [k], [tokens[2].value] the string [delta] with its
    NUL; [temp] is the buffer on the stack. *)
Definition process_arithmetic_command (fuel : nat) (behind : list Z) (c : cache) (k delta : list Z)
    (incr : Z) (m : bytes) (temp : Z) (s : slot) : outcome (cache * reply) :=
  if KEY_MAX_LENGTH <? Z.of_nat (length k) then
    Ret (c, Line "CLIENT_ERROR bad command line format")
  else
    let* d := safe_strtoull delta in
    match d with
    | None => Ret (c, Line "CLIENT_ERROR invalid numeric delta argument")
    | Some d =>
        let* out := add_delta fuel behind c k incr (s64 d) m temp None s in
        match result out with
        | OK =>
            let* n := of_option (CString.strlen (Z.to_nat INCR_MAX_STORAGE_LEN) (memory out) temp 0) in
            Ret (caches out, Number (memory out <$> seqZ temp n))
        | NON_NUMERIC =>
            Ret (caches out, Line "CLIENT_ERROR cannot increment or decrement non-numeric value")
        | EOM => Ret (caches out, Line "SERVER_ERROR out of memory")
        | DELTA_ITEM_NOT_FOUND => Ret (caches out, Line "NOT_FOUND")
        | DELTA_ITEM_CAS_MISMATCH => Ret (caches out, NoReply)
        end
    end.

(** The [incr] argument of a command word. *)
Definition arithmetic_word (w : string) : option Z :=
  if String.eqb w "incr" then Some 1
  else if String.eqb w "mult" then Some 2
  else if String.eqb w "div" then Some 3
  else if String.eqb w "decr" then Some 0
  else None.

(** The dispatch of the four words; [ntokens] counts the empty last token. *)
Definition process_command_arithmetic (fuel : nat) (behind : list Z) (c : cache) (word : string)
    (ntokens : Z) (k delta : list Z) (m : bytes) (temp : Z) (s : slot) : option (outcome (cache * reply)) :=
  let? incr := arithmetic_word word in
  Some
    (if (ntokens =? 4) || (ntokens =? 5)
     then process_arithmetic_command fuel behind c k delta incr m temp s
     else Ret (c, Line "ERROR")).
(** ** What the value of an item is *)

(** The value of an item that holds text: not chunked, [nbytes] long, with the
    line end the protocol stores behind it. *)
Record text_item (it : item) : Prop := {
  tx_flags : has it (Z.lor ITEM_CHUNKED ITEM_HDR) = false;
  tx_size : 2 < nbytes it;
  tx_length : Z.of_nat (length (data it)) = nbytes it;
  tx_end : drop (Z.to_nat (nbytes it - 2)) (data it) = [13; 10]
}.

Definition client_flags (it : item) : Z := if has it ITEM_CFLAGS then suffix it else 0.

Lemma copy_in_ok d off src :
  0 <= off -> off + Z.of_nat (length src) <= Z.of_nat (length d) ->
  copy_in d off src = Ret (take (Z.to_nat off) d ++ src ++ drop (Z.to_nat off + length src) d).
Proof. intros. unfold copy_in. by rewrite decide_True. Qed.

(** The two copies that write the digits and what follows them. *)
Lemma copies_ok d digits tail :
  (length digits + length tail <= length d)%nat ->
  (let* d := copy_in d 0 digits in copy_in d (Z.of_nat (length digits)) tail)
  = Ret (digits ++ tail ++ drop (length digits + length tail) d).
Proof.
  intros Hl. rewrite copy_in_ok by lia. cbn [obind]. simpl take. rewrite app_nil_l, Nat.add_0_l.
  rewrite copy_in_ok by (rewrite ?length_app, ?length_drop; lia).
  rewrite Nat2Z.id, take_app_length, drop_app_ge by lia. rewrite drop_drop. do 4 f_equal. lia.
Qed.

Lemma strlen_ok fuel m p i n :
  (forall j, 0 <= j < n -> m (p + j) <> 0) -> m (p + n) = 0 -> 0 <= i <= n -> n - i < Z.of_nat fuel ->
  CString.strlen fuel m p i = Some n.
Proof.
  intros Hnz H0. revert i. induction fuel as [|fuel IH]; intros i Hi Hf; [lia|]. simpl.
  destruct (decide (i = n)) as [->|Hne]; [by rewrite H0|].
  rewrite (proj2 (Z.eqb_neq _ _)) by (apply Hnz; lia). apply IH; lia.
Qed.

(** Printing into the buffer. *)
Lemma print_ok m buf w :
  is_u64 w ->
  exists m' n, itoa_u64 3 m w buf = Some (m', buf + n) /\ width w n /\ n <= 20 /\
    CString.strlen (Z.to_nat INCR_MAX_STORAGE_LEN) m' buf 0 = Some n /\
    m' <$> seqZ buf n = decimal n w.
Proof.
  intros Hw. destruct (itoa_u64_ok 2 m w buf) as (n & Hn & m' & Hr & [Hd Hf] & Hnul).
  { unfold is_u64 in Hw. change ((10 ^ 9) ^ Z.of_nat 2) with (10 ^ 18). lia. }
  pose proof (width_bound w n Hw Hn) as Hn20. pose proof Hn as (Hn1 & _).
  exists m', n. split_and!; [done..| |done].
  apply strlen_ok; [|done|lia|unfold INCR_MAX_STORAGE_LEN; lia].
  intros j Hj E. pose proof (decimal_digits n w) as HF. rewrite <- Hd, Forall_fmap, Forall_forall in HF.
  specialize (HF (buf + j)). unfold compose in HF. rewrite E in HF.
  assert (isdigit 0 = true) as Hbad by (apply HF, elem_of_seqZ; lia). done.
Qed.

Lemma decimal_nat n w : 0 <= n -> length (decimal n w) = Z.to_nat n.
Proof. intros. pose proof (decimal_length n w). lia. Qed.
(** [b'] may stand in for [b]: the value apart. *)
Record revalued (b b' : item) : Prop := {
  rv_key : key b' = key b;
  rv_ref : refcount b' = refcount b;
  rv_exp : exptime b' = exptime b;
  rv_client : client_flags b' = client_flags b;
  rv_linked : has b' ITEM_LINKED = has b ITEM_LINKED
}.

Lemma set_cas_fields b v :
  let b' := ITEM_set_cas v b in
  kept b b' /\ revalued b b' /\ nbytes b' = nbytes b /\ data b' = data b.
Proof. unfold ITEM_set_cas. destruct (has b ITEM_CAS); by repeat split. Qed.

Lemma new_cas_id_ok c m L B held p b :
  cst hash c m L B held -> B !! p = Some b ->
  exists c' v, new_cas_id c p = Ret c' /\ cst hash c' m L (<[p := ITEM_set_cas v b]> B) held.
Proof.
  intros Hc Hb. pose proof Hc as [Hr Hi].
  destruct (rep_item _ _ _ _ _ _ _ Hr Hb) as (it & Hit & Hg & Eb).
  unfold new_cas_id. rewrite Hg. cbn [obind].
  assert (exists c1 v, (if has it ITEM_CAS && use_cas settings then get_cas_id c else (c, 0)) = (c1, v) /\
    cst hash c1 m L B held) as (c1 & v & -> & Hc1).
  { destruct (_ && _); [|by eauto]. destruct (get_cas_id_rep _ _ _ _ _ Hr) as [Hr1 _].
    destruct (get_cas_id c) as [c1 v]. exists c1, v. split; [done|]. by destruct (rep_cst _ _ _ _ _ _ held Hr1 Hi). }
  destruct (set_cas_fields b v) as (Hk & _).
  destruct (op_kept hash c1 m L B held p b (ITEM_set_cas v)) as (c2 & -> & _ & Hc2);
    [done|done|auto with mcitems|done|]. eauto.
Qed.

Lemma replace_in_place_ok c m L B held p it digits :
  cst hash c m L B held -> B !! p = Some (strip it) -> text_item it ->
  Z.of_nat (length digits) + 2 <= nbytes it ->
  exists c' L' b', replace_in_place c p it digits = Ret c' /\
    cst hash c' m L' (<[p := b']> B) held /\ revalued (strip it) b' /\
    data b' = digits ++ replicate (Z.to_nat (nbytes it - 2) - length digits) 32 ++ [13; 10].
Proof.
  intros Hc Hb [_ _ Hlen Hend] Hd. unfold replace_in_place.
  destruct (new_cas_id_ok c m L B held p (strip it) Hc Hb) as (c1 & v & -> & Hc1). cbn [obind].
  rewrite <- (obind_assoc _ (fun d => copy_in d (Z.of_nat (length digits)) _)).
  rewrite copies_ok by (rewrite length_replicate; lia). cbn [obind].
  rewrite length_replicate.
  replace (length digits + Z.to_nat (nbytes it - Z.of_nat (length digits) - 2))%nat
    with (Z.to_nat (nbytes it - 2)) by lia.
  rewrite Hend. set (d := digits ++ _).
  set (b1 := ITEM_set_cas v (strip it)) in *. destruct (set_cas_fields (strip it) v) as (_ & Hrv & _).
  destruct (op_kept hash c1 m L _ held p b1 (with_data d) Hc1 (lookup_insert_eq _ _ _)) as (c2 & -> & _ & Hc2);
    [auto with mcitems|by repeat split|]. cbn [obind]. rewrite insert_insert_eq in Hc2.
  destruct (op_update hash settings current_time c2 m L _ held p _ Hc2 (lookup_insert_eq _ _ _))
    as (c3 & L3 & b3 & -> & _ & Ht & Hc3). rewrite insert_insert_eq in Hc3.
  exists c3, L3, b3. split; [done|]. split; [done|]. destruct Ht, Hrv. split.
  - split; rewrite ?to_key0, ?to_ref0, ?to_exp0; [done..| |].
    + unfold client_flags in *. rewrite to_flags0, to_suffix0 by done. exact rv_client0.
    + rewrite to_flags0 by done. exact rv_linked0.
  - rewrite to_data0. unfold d. simpl. do 3 f_equal. lia.
Qed.
Lemma linked_fields n b :
  let b' := linked_body settings current_time n b in
  key b' = key b /\ exptime b' = exptime b /\ data b' = data b /\ client_flags b' = client_flags b /\
  has b' ITEM_LINKED = true.
Proof.
  intros b'. set (b1 := with_time current_time (set_flag ITEM_LINKED b)).
  destruct (set_cas_fields b1 (new_cas settings b n)) as (_ & [Hk _ He Hc Hl] & _ & Hd).
  change (key b') with (key (ITEM_set_cas (new_cas settings b n) b1)).
  change (exptime b') with (exptime (ITEM_set_cas (new_cas settings b n) b1)).
  change (data b') with (data (ITEM_set_cas (new_cas settings b n) b1)).
  change (client_flags b') with (client_flags (ITEM_set_cas (new_cas settings b n) b1)).
  change (has b' ITEM_LINKED) with (has (ITEM_set_cas (new_cas settings b n) b1) ITEM_LINKED).
  rewrite Hk, He, Hd, Hc, Hl. split_and!; try done.
  - unfold client_flags. change (suffix b1) with (suffix b).
    by rewrite (has_set_flag b ITEM_LINKED ITEM_CFLAGS eq_refl : has b1 ITEM_CFLAGS = _).
  - by apply (has_set_same b ITEM_LINKED).
Qed.

(** The copy: no memory, or the key now belongs to a new item. *)
Lemma replace_by_copy_ok c m L B held p it digits s :
  cst hash c m L B held -> B !! p = Some (strip it) -> has it ITEM_LINKED = true -> 0 < held p ->
  m !! key it = Some p -> slot_ok hash (key it) c B s ->
  (length digits + 2 <= length (data (garbage s)))%nat ->
  exists c' r m' L' B', replace_by_copy c p (hash (key it)) it digits s = Ret (c', r) /\
    cst hash c' m' L' B' held /\ (forall k, k <> key it -> m' !! k = m !! k \/ m' !! k = None) /\
    match r with
    | None => m' !! key it = Some p /\ B' !! p = Some (strip it)
    | Some q => p <> q /\ m' !! key it = Some q /\ (exists b, B' !! p = Some b) /\
        exists b, B' !! q = Some b /\ data b = digits ++ [13; 10] /\ exptime b = exptime it /\
          client_flags b = client_flags it
    end.
Proof.
  intros Hc Hb Hl Hh Hm Hslot Hroom. unfold replace_by_copy.
  set (res := Z.of_nat (length digits)). change (if has it ITEM_CFLAGS then suffix it else 0) with (client_flags it).
  destruct (op_alloc hash settings current_time c m L B held (key it) (client_flags it) (exptime it) (res + 2) s Hc Hslot)
    as (c1 & q & m1 & L1 & B1 & -> & _ & Hsub & Hk & HB & Hq).
  cbn [obind].
  assert (forall k, m1 !! k = m !! k \/ m1 !! k = None) as Hsub'.
  { intros k. destruct (m1 !! k) as [x|] eqn:E; [|by right]. left. symmetry.
    by apply (lookup_weaken m1 m). }
  assert (p ∉ evicted s) as Hpe.
  { intros Hin. destruct Hslot as (_ & Hev & _). rewrite Forall_forall in Hev.
    destruct (Hev p Hin) as (x & Hx & _ & Hne & _). rewrite Hb in Hx. by simplify_eq. }
  destruct Hq as [[-> Hc1]|(-> & Hqz & Hqm & b1 & Hb1 & Hnew & Hlen & Hc1)].
  { exists c1, None, m1, L1, B1. split_and!; try done.
    - by rewrite Hk.
    - rewrite HB; [done|done|by right]. }
  rewrite (proj2 (Z.eqb_neq _ _)) by done. set (q := address s) in *.
  assert (p <> q) as Hpq by (intros E; apply (Hqm (key it)); by rewrite Hk, Hm, E).
  assert (B1 !! p = Some (strip it)) as Hbp by (rewrite HB; [done|done|by left]).
  destruct (rep_item _ _ _ _ _ _ _ (cs_rep _ _ _ _ _ _ Hc1) Hb1) as (n & _ & -> & En). cbn [obind].
  assert (length (data n) = length digits + 2)%nat as Hdn.
  { change (data n) with (data (strip n)). rewrite <- En, Hlen. unfold res. lia. }
  rewrite <- (obind_assoc _ (fun d => copy_in d res [13; 10])). unfold res at 1.
  rewrite (copies_ok (data n) digits [13; 10]) by (simpl; lia). cbn [obind].
  rewrite (drop_ge (data n)) by (simpl; lia). rewrite app_nil_r. set (d := digits ++ [13; 10]).
  destruct Hnew as [Nk Ns Ne Nn Nr Nl Nsl Nc Ncf Nst].
  destruct (op_kept hash c1 m1 L1 B1 _ q b1 (with_data d) Hc1 Hb1) as (c2 & -> & _ & Hc2);
    [auto with mcitems|by repeat split|]. cbn [obind].
  destruct (op_replace hash settings current_time c2 m1 L1 _ _ p q (strip it) (with_data d b1) Hc2)
    as (c3 & L3 & Hr & _ & Hc3); [by rewrite lookup_insert_ne|apply lookup_insert_eq|done|done|done
      |exact Nk|by rewrite held_add_ne|simpl; lia|].
  change (key (strip it)) with (key it) in *. rewrite Hr. cbn [obind].
  set (bq := linked_body settings current_time (cas_id c2) (with_data d b1)) in *.
  destruct (rep_item _ _ _ _ _ q bq (cs_rep _ _ _ _ _ _ Hc3) (lookup_insert_eq _ _ _)) as (n3 & _ & -> & _).
  cbn [obind]. set (v := if use_cas settings then _ else 0).
  destruct (set_cas_fields (unlinked_body (strip it)) v) as (Hkeep & _).
  destruct (op_kept hash c3 _ L3 _ _ p (unlinked_body (strip it)) (ITEM_set_cas v) Hc3)
    as (c4 & -> & _ & Hc4); [by rewrite lookup_insert_ne, lookup_insert_eq|auto with mcitems|done|].
  cbn [obind].
  destruct (op_remove hash c4 _ L3 _ _ q bq Hc4) as (c5 & -> & _ & Hc5);
    [by rewrite lookup_insert_ne, lookup_insert_eq| |].
  { rewrite held_add_eq. pose proof (io_held _ _ _ _ _ (in_item _ _ _ _ (cs_inv _ _ _ _ _ _ Hc1) q b1 Hb1)).
    pose proof (in_item _ _ _ _ (cs_inv _ _ _ _ _ _ Hc1) q b1 Hb1) as [].
    rewrite Nl, Nr in *. rewrite held_add_eq in *. lia. }
  cbn [obind]. apply cst_back in Hc5.
  eexists _, (Some q), _, _, _. split; [done|]. split; [exact Hc5|]. unfold dropped.
  assert (refcount bq = 2) as Hbq.
  { change (refcount bq) with ((refcount b1 + 1) mod 2 ^ 16). by rewrite Nr. }
  rewrite decide_False by lia. split_and!.
  - intros k Hk'. rewrite lookup_insert_ne, lookup_delete_ne by done. apply Hsub'.
  - done.
  - apply lookup_insert_eq.
  - rewrite lookup_insert_ne by done. rewrite lookup_insert_eq. by eexists.
  - eexists. split; [apply lookup_insert_eq|].
    destruct (linked_fields (cas_id c2) (with_data d b1)) as (_ & He & Hd & Hcl & _).
    fold bq in He, Hd, Hcl. split_and!; [exact Hd|transitivity (exptime b1); [exact He|exact Ne]|].
    change (client_flags (with_refcount (refcount bq - 1) bq)) with (client_flags bq). rewrite Hcl.
    unfold client_flags at 1. change (has (with_data d b1)) with (has b1).
    change (suffix (with_data d b1)) with (suffix b1). rewrite Ncf, Ns.
    by destruct (Z.eqb_spec (client_flags it) 0) as [->|].
Qed.
Lemma strchr_blanks j behind :
  strchr (replicate j 32 ++ [13; 10] ++ behind) 45 = strchr behind 45.
Proof. induction j as [|j IH]; [done|]. exact IH. Qed.

(** The new value, as it is stored, reads back as the number. *)
Lemma stored_number n w j behind :
  is_u64 w -> width w n -> w < 2 ^ 63 \/ strchr behind 45 = Ret false ->
  safe_strtoull ((decimal n w ++ replicate j 32 ++ [13; 10]) ++ behind) = Ret (Some w).
Proof.
  intros Hw Hn Hb. rewrite <- !app_assoc.
  destruct j as [|j]; [|change (replicate (S j) 32) with (32 :: replicate j 32)]; simpl app;
    (apply safe_strtoull_decimal; [done|done|by left|]); [change (13 :: 10 :: behind) with (replicate 0 32 ++ [13; 10] ++ behind)
      |change (32 :: replicate j 32 ++ 13 :: 10 :: behind) with (replicate (S j) 32 ++ [13; 10] ++ behind)];
    by rewrite strchr_blanks.
Qed.

(** The bindings of the keys other than [k] are kept or gone. *)
Definition others_kept (c c' : cache) (k : list Z) : Prop :=
  forall k', k' <> k -> assoc_find (mem c') k' (hash k') = assoc_find (mem c) k' (hash k') \/
    assoc_find (mem c') k' (hash k') = Ret 0.

Lemma others_kept_map c c' m m' L L' B B' held held' k :
  cst hash c m L B held -> cst hash c' m' L' B' held' ->
  (forall k', k' <> k -> m' !! k' = m !! k' \/ m' !! k' = None) -> others_kept c c' k.
Proof.
  intros [[Hr _ _ _] _] [[Hr' _ _ _] _] Hm k' Hk. rewrite (find_ok hash (mem c') m' k') by apply Hr'.
  rewrite (find_ok hash (mem c) m k') by apply Hr.
  destruct (Hm k' Hk) as [-> | ->]; auto.
Qed.

(** The value [w] is stored under [k], the client's flags and the expiry being
    those of [it]. *)
Definition holds_number (behind : list Z) (c : cache) (k : list Z) (it : item) (w : Z) : Prop :=
  exists p it', assoc_find (mem c) k (hash k) = Ret p /\ item_at c p it' /\
    safe_strtoull (data it' ++ behind) = Ret (Some w) /\
    exptime it' = exptime it /\ client_flags it' = client_flags it.

Lemma holds_number_body behind c m L B held k p b it w :
  cst hash c m L B held -> m !! k = Some p -> B !! p = Some b ->
  safe_strtoull (data b ++ behind) = Ret (Some w) -> exptime b = exptime it ->
  client_flags b = client_flags it -> holds_number behind c k it w.
Proof.
  intros [Hr _] Hk Hb Hs He Hc. destruct (rep_item _ _ _ _ _ _ _ Hr Hb) as (it' & Hat & _ & ->).
  exists p, it'. split_and!; try done. rewrite (find_ok hash _ m k) by apply Hr. by rewrite Hk.
Qed.
(** The reference goes with either end of a call. *)
Lemma drop_ok c m L B held p b :
  cst hash c m L B (held_add held p 1) -> B !! p = Some b -> 0 <= held p ->
  exists c' B', do_item_remove c p = Ret c' /\ cst hash c' m L B' held /\
    (forall q, q <> p -> B' !! q = B !! q) /\
    (refcount b <> 1 -> B' !! p = Some (with_refcount (refcount b - 1) b)).
Proof.
  intros Hc Hb Hh. destruct (op_remove hash c m L B _ p b Hc Hb) as (c' & -> & _ & Hc');
    [rewrite held_add_eq; lia|].
  apply cst_back in Hc'. eexists _, _. split; [done|]. split; [exact Hc'|]. unfold dropped. split.
  - intros q Hq. case_decide; [by rewrite lookup_delete_ne|by rewrite lookup_insert_ne].
  - intros Hne. rewrite decide_False by done. apply lookup_insert_eq.
Qed.

Lemma finish_ok c m L B held p b memory cas :
  cst hash c m L B (held_add held p 1) -> B !! p = Some b -> 0 <= held p ->
  exists c' B' cas', finish c p memory cas false
    = Ret {| result := OK; caches := c'; memory := memory; cas_out := cas'; it_ret := 0 |} /\
    cst hash c' m L B' held /\ (forall q, q <> p -> B' !! q = B !! q) /\
    (refcount b <> 1 -> B' !! p = Some (with_refcount (refcount b - 1) b)).
Proof.
  intros Hc Hb Hh. destruct (rep_item _ _ _ _ _ _ _ (cs_rep _ _ _ _ _ _ Hc) Hb) as (it & _ & Hg & _).
  destruct (drop_ok c m L B held p b Hc Hb Hh) as (c' & B' & Hr & ?).
  unfold finish. rewrite Hg. cbn [obind]. rewrite Hr. cbn [obind]. eauto 10.
Qed.

(** What a command does to the value of a key: the number is stored and comes
    back as the reply, or memory has run out and nothing has happened to it. *)
Definition stores (behind : list Z) (c : cache) (held : Z -> Z) (k : list Z) (it : item) (w buf : Z)
    (out : delta_out) : Prop :=
  consistent hash (caches out) held /\ others_kept c (caches out) k /\
  ((result out = OK /\ holds_number behind (caches out) k it w /\
    exists n, width w n /\ memory out <$> seqZ buf n = decimal n w /\
      CString.strlen (Z.to_nat INCR_MAX_STORAGE_LEN) (memory out) buf 0 = Some n) \/
   (result out = EOM /\ exists p it', assoc_find (mem (caches out)) k (hash k) = Ret p /\
      item_at (caches out) p it' /\ data it' = data it)).

Lemma store_value_ok behind c c0 mm L B held k p it it0 w m buf s :
  cst hash c mm L B (held_add held p 1) -> B !! p = Some (strip it) -> key it = k ->
  (forall q, 0 <= held q) -> mm !! k = Some p -> text_item it -> 2 <= refcount it ->
  is_u64 w -> w < 2 ^ 63 \/ strchr behind 45 = Ret false ->
  slot_ok hash k c B s -> (22 <= length (data (garbage s)))%nat ->
  (forall k', assoc_find (mem c) k' (hash k') = assoc_find (mem c0) k' (hash k')) ->
  exptime it = exptime it0 -> client_flags it = client_flags it0 -> data it = data it0 ->
  exists out, store_value c p (hash k) it w m buf None false s = Ret out /\
    stores behind c0 held k it0 w buf out.
Proof.
  intros Hc Hb <- Hh Hk Htext Href Hw Hbehind Hslot Hroom Hfind Hexp Hcl Hdata.
  destruct (print_ok m buf w Hw) as (mb & n & Hr & Hn & Hn20 & Hlen & Hdig).
  pose proof Hn as (Hn1 & _). unfold store_value. rewrite Hr. cbn [of_option obind].
  rewrite Hlen. cbn [of_option obind]. rewrite Hdig. set (digits := decimal n w) in *.
  assert (Z.of_nat (length digits) = n) as Hln by (unfold digits; rewrite decimal_length; lia).
  assert (forall c' m' L' B' held', cst hash c' m' L' B' held' ->
    (forall k', k' <> key it -> m' !! k' = mm !! k' \/ m' !! k' = None) -> others_kept c0 c' (key it)) as Hothers.
  { intros c' m' L' B' held' Hc' Hm' k' Hk'. rewrite <- Hfind.
    by eapply (others_kept_map c c'); [apply Hc|apply Hc'| |]. }
  destruct ((n + 2 <=? nbytes it) && (refcount it =? 2)) eqn:Hplace.
  - apply andb_true_iff in Hplace as [Hfits%Z.leb_le Hr2%Z.eqb_eq].
    destruct (replace_in_place_ok c mm L B _ p it digits Hc Hb Htext) as (c1 & L1 & b1 & -> & Hc1 & Hrv & Hd1); [lia|].
    cbn [obind]. destruct Hrv as [Rk Rr Re Rc _].
    destruct (finish_ok c1 mm L1 _ held p b1 mb None Hc1 (lookup_insert_eq _ _ _) (Hh p))
      as (c2 & B2 & cas & -> & Hc2 & _ & Hp2).
    eexists. split; [done|]. split; [by exists mm, L1, B2|]. split; [eapply Hothers; [exact Hc2|by left]|].
    left. split; [done|]. split; [|by exists n].
    eapply (holds_number_body behind c2 mm L1 B2 held (key it) p); [exact Hc2|done|apply Hp2| | |].
    + rewrite Rr. change (refcount (strip it)) with (refcount it). lia.
    + change (data (with_refcount (refcount b1 - 1) b1)) with (data b1). rewrite Hd1. by apply stored_number.
    + by rewrite <- Hexp, <- (eq_refl : exptime (strip it) = exptime it), <- Re.
    + by rewrite <- Hcl, <- (eq_refl : client_flags (strip it) = client_flags it), <- Rc.
  - rewrite (proj2 (Z.ltb_lt _ _)) by lia.
    assert (has it ITEM_LINKED = true) as Hl.
    { by apply (in_item _ _ _ _ (cs_inv _ _ _ _ _ _ Hc) p (strip it) Hb). }
    destruct (replace_by_copy_ok c mm L B _ p it digits s Hc Hb Hl) as
      (c1 & r & m1 & L1 & B1 & -> & Hc1 & Hm1 & Hcopy); [rewrite held_add_eq; specialize (Hh p); lia|done|done|lia|].
    cbn [obind]. destruct r as [q|].
    + destruct Hcopy as (Hpq & Hkq & [b1 Hb1] & bq & Hbq & Hdq & Heq & Hcq).
      destruct (finish_ok c1 m1 L1 B1 held p b1 mb None Hc1 Hb1 (Hh p)) as (c2 & B2 & cas & -> & Hc2 & HB2 & _).
      eexists. split; [done|]. split; [by exists m1, L1, B2|]. split; [by eapply Hothers|].
      left. split; [done|]. split; [|by exists n].
      eapply (holds_number_body behind c2 m1 L1 B2 held (key it) q);
        [exact Hc2|done|by rewrite HB2| |congruence|congruence].
      rewrite Hdq. by apply (stored_number n w 0).
    + destruct Hcopy as [Hkp Hbp].
      destruct (drop_ok c1 m1 L1 B1 held p _ Hc1 Hbp (Hh p)) as (c2 & B2 & Hrem & Hc2 & _ & Hp2).
      unfold abandon. rewrite Hrem. cbn [obind].
      eexists. split; [done|]. split; [by exists m1, L1, B2|]. split; [by eapply Hothers|].
      right. split; [done|]. specialize (Hp2 ltac:(change (refcount (strip it)) with (refcount it); lia)).
      destruct (rep_item _ _ _ _ _ _ _ (cs_rep _ _ _ _ _ _ Hc2) Hp2) as (it2 & Hat2 & _ & E2).
      exists p, it2. split_and!; [|done|].
      * rewrite (find_ok hash _ m1 (key it)) by apply Hc2. by rewrite Hkp.
      * transitivity (data (strip it2)); [done|]. by rewrite <- E2.
Qed.

(** C13.  On a key whose value is a number, an arithmetic command either
    stores the new number, in the item or in a copy of it, with the client
    flags and expiry of the old one, and returns its digits, or finds no memory
    and leaves the value alone; it keeps the caches consistent, drops its
    references, and changes no other key except by evicting it. *)
Theorem add_delta_stores fuel behind c held k p it incr delta v w m buf s :
  consistent hash c held -> (forall p, 0 <= held p < 2 ^ 16 - 3) ->
  assoc_find (mem c) k (hash k) = Ret p -> p <> 0 -> item_at c p it ->
  is_stale settings current_time it = false -> text_item it ->
  safe_strtoull (data it ++ behind) = Ret (Some v) ->
  is_u64 delta -> delta_spec incr delta v = Some w -> Z.max delta v + 2 < Z.of_nat fuel ->
  w < 2 ^ 63 \/ strchr behind 45 = Ret false ->
  (forall c1, do_item_get settings current_time c k (hash k) false false = Ret (c1, p) ->
     slot_ok hash k c1 (strip <$> items (mem c1)) s) ->
  (22 <= length (data (garbage s)))%nat ->
  exists out, add_delta fuel behind c k incr (s64 delta) m buf None s = Ret out /\
    stores behind c held k it w buf out.
Proof.
  intros (mm & L & B & Hc) Hfew Hfind Hpz Hat Hfresh Htext Hnum Hdelta Hspec Hfuel Hbehind Hslot Hroom.
  pose proof (safe_strtoull_u64 _ _ Hnum) as Hv.
  assert (mm !! k = Some p) as Hk.
  { rewrite (find_ok hash (mem c) mm k) in Hfind by apply Hc. injection Hfind as Hfind.
    destruct (mm !! k); simpl in Hfind; by subst. }
  pose proof (item_at_body hash c mm L B held p it Hc Hat) as Hb.
  unfold add_delta, do_add_delta.
  destruct (get_peek hash settings current_time c mm L B held k p (strip it)) as (c1 & L1 & Hget & Hc1);
    [done..|by apply (refcount_few hash _ _ _ _ _ _ _ Hc Hb), Hfew|done|].
  specialize (Hslot c1 Hget). rewrite Hget. cbn [obind]. rewrite (proj2 (Z.eqb_neq _ _)) by done.
  rewrite (rp_bodies _ _ _ _ _ (cs_rep _ _ _ _ _ _ Hc1)) in Hslot.
  destruct (rep_item _ _ _ _ _ p _ (cs_rep _ _ _ _ _ _ Hc1) (lookup_insert_eq _ _ _)) as (it1 & Hat1 & -> & E1).
  cbn [obind].
  assert (refcount it1 = refcount it + 1 /\ data it1 = data it /\ nbytes it1 = nbytes it /\
    exptime it1 = exptime it /\ it_flags it1 = it_flags it /\ suffix it1 = suffix it /\ key it1 = k) as
    (Er & Ed & En & Ee & Ef & Es & Ek).
  { split_and!; first
      [change (refcount (strip it1) = refcount it + 1)|change (data (strip it1) = data it)
      |change (nbytes (strip it1) = nbytes it)|change (exptime (strip it1) = exptime it)
      |change (it_flags (strip it1) = it_flags it)|change (suffix (strip it1) = suffix it)
      |change (key (strip it1) = k)]; rewrite <- E1; try done.
    destruct (bound_key _ _ _ _ _ _ _ (cs_rep _ _ _ _ _ _ Hc) Hk) as (x & Hx & <-). by simplify_eq. }
  assert (forall f, has it1 f = has it f) as Hhas by (intros f; unfold has; by rewrite Ef).
  assert (text_item it1) as Htext1.
  { destruct Htext. split; rewrite ?Hhas, ?En, ?Ed; done. }
  rewrite (proj2 (Z.leb_gt _ _)) by apply Htext1. rewrite (tx_flags _ Htext1). cbn [orb].
  rewrite Ed, Hnum. cbn [obind].
  rewrite (apply_delta_value fuel incr delta v w Hdelta Hv Hspec Hfuel). cbn [of_option obind].
  rewrite E1 in Hc1, Hslot.
  eapply (store_value_ok behind c1 c mm L1 _ held k p it1 it w m buf s Hc1 (lookup_insert_eq _ _ _));
    try done.
  - intros q. apply Hfew.
  - pose proof (in_item _ _ _ _ (cs_inv _ _ _ _ _ _ Hc) p _ Hb) as Hio.
    pose proof (io_pos _ _ _ _ _ Hio) as Hpos. change (1 <= refcount it) in Hpos. lia.
  - exact (delta_spec_u64 incr delta v w Hdelta Hv Hspec).
  - intros k'. rewrite (find_ok hash (mem c1) mm k') by apply Hc1.
    by rewrite (find_ok hash (mem c) mm k') by apply Hc.
  - unfold client_flags. by rewrite Hhas, Es.
Qed.
End command.

(** ** A witness: "10" is stored and multiplied by three *)

Definition ten_slot : slot :=
  {| evicted := []; address := 10;
     garbage := with_data ([49; 48; 13; 10] ++ replicate 60 0) (stale_slot 0) |}.

Definition ten_cache1 : cache :=
  Eval vm_compute in
    (from_ret (small_cache0, 0)
       (do_item_alloc first_byte small_settings 100 small_cache0 [97] 0 0 4 ten_slot)).1.
Definition ten_cache2 : cache :=
  Eval vm_compute in from_ret small_cache0 (do_item_link small_settings 100 ten_cache1 10 97).
Definition ten_cache : cache := Eval vm_compute in from_ret small_cache0 (do_item_remove ten_cache2 10).
Definition ten_item : item := Eval vm_compute in default (stale_slot 0) (items (mem ten_cache) !! 10).
Definition held_none : Z -> Z := held_add (held_add (fun _ => 0) 10 1) 10 (-1).

Lemma held_none_few p : 0 <= held_none p < 2 ^ 16 - 3.
Proof. unfold held_none, held_add. case_decide; lia. Qed.

Lemma ten_calls :
  rtc (icall first_byte) (boot 1, fun _ => 0) (ten_cache, held_none).
Proof.
  eapply rtc_l.
  { apply (I_alloc first_byte small_settings 100 small_cache0 (fun _ => 0) [97] 0 0 4 ten_slot ten_cache1 10).
    - split; [apply NoDup_nil_2|]. split; [done|]. intros c' [= <-]. reflexivity.
    - reflexivity. }
  eapply (rtc_l _ _ (ten_cache2, held_add (fun _ => 0) 10 1)).
  { eapply (I_link first_byte small_settings 100 ten_cache1 _ 10 _ ten_cache2);
      [reflexivity|vm_compute; reflexivity|reflexivity|reflexivity|reflexivity|reflexivity]. }
  apply rtc_once. apply (I_remove first_byte); reflexivity.
Qed.

Lemma add_delta_stores_witness :
  exists out,
    add_delta first_byte small_settings 100 20 [0] ten_cache [97] 2 (s64 3) (fun _ => 7) 0 None
      (small_slot 11) = Ret out /\
    stores first_byte [0] ten_cache held_none [97] ten_item 30 0 out.
Proof.
  apply (add_delta_stores first_byte small_settings 100 20 [0] ten_cache held_none [97] 10 ten_item 2 3 10 30).
  - apply (consistent_ext first_byte ten_cache (total ten_cache held_none)); [intros p; symmetry; apply Z.add_0_r|].
    apply (calls_consistent first_byte 1 ten_cache held_none); [vm_compute; split; discriminate|exact ten_calls].
  - exact held_none_few.
  - reflexivity.
  - discriminate.
  - reflexivity.
  - reflexivity.
  - split; reflexivity.
  - reflexivity.
  - split; vm_compute; [discriminate|reflexivity].
  - reflexivity.
  - reflexivity.
  - left. reflexivity.
  - intros c1 Hget. vm_compute in Hget. injection Hget as <-.
    split; [apply NoDup_nil_2|]. split; [done|]. intros c' [= <-]. reflexivity.
  - vm_compute. repeat constructor.
Defined.

End McCommand.
