(* ===== verification/Wish.v ===== *)
(** * The shell (p2a, [wish.c])

    A [char *] array is a list of slots: a null pointer, a pointer to a string,
    or one whose string was freed.  [malloc] is taken to succeed.  The program
    asks it for [strlen] bytes for most of its copies, one short of the NUL: a
    copy that needs more than the block has is [Stuck], as is a call that reads
    a null or freed pointer, frees one twice or overruns an array.  How many
    bytes a block has is the allocator's, a parameter ([room]).  Processes, files and the standard streams belong to the host
    system, also a parameter; what the child does between [fork] and [execv] is
    modelled. *)

From S2P Require Import Prelude.
From Stdlib Require Import Ascii String.
From stdpp Require Import pretty.
Local Open Scope Z_scope.

Module Wish.

Definition str := list Z.
Definition lit (s : string) : str := Prelude.lit s.

Inductive slot :=
| Null
| Live (t : str)
| Dangling.

Definition MaxCommandLen : nat := 1000.
Definition MaxTokenLen : nat := 100.
Definition MaxFileNameLen : nat := 50.
Definition MaxPathLen : nat := 50.

Inductive stream := Stdout | Stderr | Named (file : str).

(** How a child ended: [WIFEXITED] with its status, or a signal. *)
Inductive status :=
| Exit_status (n : Z)
| Signaled.

(** The host system in a state of type [W].  [room n] is how many bytes of a
    block of [malloc(n)] can be written: [n] at least, and more where the
    allocator rounds up.  [execv w path argv out] is [None]
    when it returns; [out] is the file descriptor 1 was made to refer to. *)
Record host (W : Type) := {
  room : nat -> nat;
  chdir : W -> str -> W * bool;
  access : W -> str -> bool;
  fork : W -> W * bool;
  open : W -> str -> W * bool;
  execv : W -> str -> list str -> option str -> W * option status;
  strerror : W -> str;
  emit : W -> stream -> str -> W;
  getline : W -> W * option str;
  fopen : W -> str -> option (list str)
}.
Arguments room {W}. Arguments chdir {W}. Arguments access {W}. Arguments fork {W}. Arguments open {W}.
Arguments execv {W}. Arguments strerror {W}. Arguments emit {W}. Arguments getline {W}.
Arguments fopen {W}.

Record shell (W : Type) := {
  world : W;
  CommandLines : list slot;
  LineNum : nat;
  Tokens : list slot;
  TokenNum : nat;
  PATH : list slot;
  PathNum : nat
}.
Arguments world {W}. Arguments CommandLines {W}. Arguments LineNum {W}. Arguments Tokens {W}.
Arguments TokenNum {W}. Arguments PATH {W}. Arguments PathNum {W}.

(** How a piece of the program ends: normally, in [exit], or in undefined
    behaviour. *)
Inductive run (W A : Type) :=
| Val (a : A) (s : shell W)
| Exited (code : Z) (w : W)
| Stuck.
Arguments Val {W A}. Arguments Exited {W A}. Arguments Stuck {W A}.

Definition M (W A : Type) := shell W -> run W A.

Definition ret {W A} (a : A) : M W A := fun s => Val a s.
Definition bind {W A B} (m : M W A) (k : A -> M W B) : M W B := fun s =>
  match m s with
  | Val a s => k a s
  | Exited code w => Exited code w
  | Stuck => Stuck
  end.

Declare Scope wish_scope.
Delimit Scope wish_scope with wish.
Notation "'let!' x := c 'in' k" := (bind c (fun x => k))
  (at level 10, x pattern, c at level 100, k at level 200) : wish_scope.
Local Open Scope wish_scope.

(** [strsep]: up to the first delimiter, and what follows it. *)
Fixpoint strsep (s : str) (delims : list Z) : str * option str :=
  match s with
  | [] => ([], None)
  | c :: s =>
      if existsb (Z.eqb c) delims then ([], Some s)
      else let (t, rest) := strsep s delims in (c :: t, rest)
  end.

Definition isdigit (c : Z) : bool := (48 <=? c) && (c <=? 57).

Fixpoint Have_from (s : str) (c i ret : Z) : Z :=
  match s with
  | [] => ret
  | x :: s =>
      if x =? c then if ret =? -1 then Have_from s c (i + 1) i else -2
      else Have_from s c (i + 1) ret
  end.

Definition Have (s : str) (c : Z) : Z := Have_from s c 0 (-1).

Definition free (x : slot) : option slot :=
  match x with
  | Null => Some Null
  | Live _ => Some Dangling
  | Dangling => None
  end.

Section wish.
Context {W : Type} (h : host W).
Local Notation M := (M W).
Local Notation shell := (shell W).

Definition stuck {A} : M A := fun _ => Stuck.
Definition of_opt {A} (o : option A) : M A := match o with Some a => ret a | None => stuck end.
Definition get {A} (f : shell -> A) : M A := fun s => Val (f s) s.
Definition exit {A} (code : Z) : M A := fun s => Exited code (world s).

(** A call of the host. *)
Definition call {A} (f : W -> W * A) : M A := fun s =>
  let (w, a) := f (world s) in
  Val a {| world := w; CommandLines := CommandLines s; LineNum := LineNum s; Tokens := Tokens s;
           TokenNum := TokenNum s; PATH := PATH s; PathNum := PathNum s |}.

Definition set_lines (l : list slot) (n : nat) : M unit := fun s =>
  Val () {| world := world s; CommandLines := l; LineNum := n; Tokens := Tokens s;
            TokenNum := TokenNum s; PATH := PATH s; PathNum := PathNum s |}.
Definition set_tokens (l : list slot) (n : nat) : M unit := fun s =>
  Val () {| world := world s; CommandLines := CommandLines s; LineNum := LineNum s; Tokens := l;
            TokenNum := n; PATH := PATH s; PathNum := PathNum s |}.
Definition set_path (l : list slot) (n : nat) : M unit := fun s =>
  Val () {| world := world s; CommandLines := CommandLines s; LineNum := LineNum s;
            Tokens := Tokens s; TokenNum := TokenNum s; PATH := l; PathNum := n |}.

Definition print (out : stream) (t : str) : M unit := call (fun w => (emit h w out t, ())).

(** The string [arr[i]] points to. *)
Definition token (arr : list slot) (i : nat) : M str :=
  match arr !! i with Some (Live t) => ret t | _ => stuck end.

(** [malloc(strlen(t))] and [strcpy] of [t] with its NUL into the block. *)
Definition dup (t : str) : M str :=
  if decide (length t < room h (length t))%nat then ret t else stuck.

(** [arr[i]] is made to point to [t]. *)
Definition put (arr : list slot) (i : nat) (t : str) : M (list slot) :=
  if decide (i < length arr)%nat then ret (<[i := Live t]> arr) else stuck.

Definition Free (arr : list slot) (len : nat) : M (list slot) :=
  if decide (len <= length arr)%nat then
    let! l := of_opt (mapM free (take len arr)) in ret (l ++ drop len arr)
  else stuck.

Definition Error : M Z :=
  let! _ := print Stderr (lit "An error has occurred" ++ [10]) in ret 0.

Fixpoint SubTokensCpy (src : list slot) (start n : nat) : M (list slot) :=
  match n with
  | O => ret []
  | S n =>
      let! t := token src start in
      let! t := dup t in
      let! dest := SubTokensCpy src (S start) n in
      ret (Live t :: dest)
  end.

Definition Exit {A} : M A :=
  let! s := get id in
  let! _ := Free (Tokens s) (TokenNum s) in
  let! _ := Free (CommandLines s) (LineNum s) in
  let! _ := Free (PATH s) (PathNum s) in
  exit 0.

(** [getline]'s buffer has room for the line and its NUL, and as much is asked
    for here and in [GetBatchCommands]. *)
Definition GetCommands : M unit :=
  let! line := call (getline h) in
  match line with
  | None => exit 0
  | Some line =>
      let! lines := get CommandLines in
      let! lines := Free lines 1 in
      let! lines := put lines 0 line in
      set_lines lines 1
  end.

Fixpoint read_lines (lines : list str) : M unit :=
  match lines with
  | [] => ret ()
  | line :: rest =>
      let! s := get id in
      let! arr := put (CommandLines s) (LineNum s) line in
      let! _ := set_lines arr (S (LineNum s)) in
      read_lines rest
  end.

Definition GetBatchCommands (Name : str) : M unit :=
  if decide (MaxFileNameLen <= length Name)%nat then stuck
  else
    let! w := get world in
    match fopen h w Name with
    | None => let! _ := Error in exit 1
    | Some lines => read_lines lines
    end.

Definition AddtoTokens (t : str) : M unit :=
  let! t := dup t in
  let! s := get id in
  let! arr := put (Tokens s) (TokenNum s) t in
  set_tokens arr (S (TokenNum s)).

Definition Cd (tokens : list slot) : M Z :=
  let! t := token tokens 1 in
  let! ok := call (fun w => chdir h w t) in
  if ok then ret 0
  else
    let! w := get world in
    let! _ := print Stdout (strerror h w ++ [10]) in
    ret 0.

(** The first directory of [PATH] that has the program; [path] has 40 bytes. *)
Fixpoint AddtoPath_from (Name : str) (i n : nat) : M (option str) :=
  match n with
  | O => ret None
  | S n =>
      let! arr := get PATH in
      let! dir := token arr i in
      let path := dir ++ [47] ++ Name in
      if decide (40 <= length path)%nat then stuck
      else
        let! w := get world in
        if access h w path then let! res := dup path in ret (Some res)
        else AddtoPath_from Name (S i) n
  end.

Definition AddtoPath (Name : str) : M (option str) :=
  let! n := get PathNum in AddtoPath_from Name 0 n.

Fixpoint Path_from (tokens : list slot) (i n : nat) (arr : list slot) : M (list slot) :=
  match n with
  | O => ret arr
  | S n =>
      let! t := token tokens i in
      let! t := dup t in
      let! arr := put arr (i - 1) t in
      Path_from tokens (S i) n arr
  end.

Definition Path (tokens : list slot) (len : nat) : M Z :=
  let! s := get id in
  let! arr := Free (PATH s) (PathNum s) in
  let! arr := Path_from tokens 1 (len - 1) arr in
  let! _ := set_path arr (len - 1) in
  ret 0.

(** The counts of [if], comparisons, [fi] and [then]. *)
Fixpoint CountIf_from (tokens : list slot) (i n : nat) (IF opr fi thn : nat) : M bool :=
  match n with
  | O => ret (bool_decide (IF = opr /\ opr = thn /\ thn = fi))
  | S n =>
      let! t := token tokens i in
      if bool_decide (t = lit "if") then CountIf_from tokens (S i) n (S IF) opr fi thn
      else if bool_decide (t = lit "==") then CountIf_from tokens (S i) n IF (S opr) fi thn
      else if bool_decide (t = lit "!=") then CountIf_from tokens (S i) n IF (S opr) fi thn
      else if bool_decide (t = lit "fi") then CountIf_from tokens (S i) n IF opr (S fi) thn
      else if bool_decide (t = lit "then") then CountIf_from tokens (S i) n IF opr fi (S thn)
      else CountIf_from tokens (S i) n IF opr fi thn
  end.

Definition CountIf (tokens : list slot) (len : nat) : M bool := CountIf_from tokens 0 len 0 0 0 0.

(** The search for the comparison: [i], [isequal] and [maxi] at its end; [n]
    tokens are left. *)
Fixpoint find_operator (tokens : list slot) (isleft : bool) (i n : nat) (isequal : Z) (maxi : nat)
  : M (nat * Z * nat) :=
  match n with
  | O => ret (i, isequal, maxi)
  | S n =>
      let! t := token tokens i in
      if bool_decide (t = lit "!=") then
        if isleft then find_operator tokens isleft (S i) n 0 (Nat.max maxi i) else ret (i, 0, maxi)
      else if bool_decide (t = lit "==") then
        if isleft then find_operator tokens isleft (S i) n 1 (Nat.max maxi i) else ret (i, 1, maxi)
      else find_operator tokens isleft (S i) n isequal maxi
  end.
(** [If] from the first command on, with [DoCmd] as it calls it; [strvalue] has
    room for any value a command has. *)
Definition If_commands (DoCmd : list slot -> nat -> M Z) (tokens : list slot) (len : nat)
    (isequal : Z) (i : nat) : M Z :=
  let sublen := (i - 1)%nat in
  let! subtokens := if decide (i = 0)%nat then stuck else SubTokensCpy tokens 1 sublen in
  let! value := DoCmd subtokens sublen in
  let strvalue := lit (pretty value) in
  if decide (len - 1 - i < 3)%nat then let! _ := Free subtokens sublen in Error
  else
    let! constant := token tokens (i + 1) in
    if negb (forallb isdigit constant) then let! _ := Free subtokens sublen in Error
    else
      let! thn := token tokens (i + 2) in
      if negb (bool_decide (thn = lit "then")) then let! _ := Free subtokens sublen in Error
      else
        let i := (i + 3)%nat in
        let! empty := if decide (i = len - 1)%nat
                      then let! t := token tokens i in ret (bool_decide (t = lit "fi"))
                      else ret false in
        if empty then ret 0
        else
          let! constant := token tokens (sublen + 2) in
          if (isequal =? 1) && bool_decide (strvalue = constant)
             || (isequal =? 0) && negb (bool_decide (strvalue = constant)) then
            let sublen2 := (len - i - 1)%nat in
            let! subtokens2 := SubTokensCpy tokens i sublen2 in
            let! ret' := DoCmd subtokens2 sublen2 in
            let! _ := Free subtokens sublen in
            let! _ := Free subtokens2 sublen2 in
            ret ret'
          else
            let! _ := Free subtokens sublen in
            ret 0.

Definition If (DoCmd : list slot -> nat -> M Z) (tokens : list slot) (len : nat) : M Z :=
  if decide (len < 6)%nat then Error
  else
    let! last := token tokens (len - 1) in
    if negb (bool_decide (last = lit "fi")) then Error
    else
      let! legal := CountIf tokens len in
      if negb legal then Error
      else
        let! t1 := token tokens 1 in
        let! isleft := if bool_decide (t1 = lit "if") then ret true
                       else let! t := token tokens (len - 2) in ret (negb (bool_decide (t = lit "fi"))) in
        let! (i, isequal, maxi) := find_operator tokens isleft 1 (len - 1) 10086 0 in
        If_commands DoCmd tokens len isequal (if isleft then maxi else i).

(** The index of the first [>] among the [n] tokens from [i] on. *)
Fixpoint find_redirect (tokens : list slot) (i n : nat) : M nat :=
  match n with
  | O => ret i
  | S n =>
      let! t := token tokens i in
      if bool_decide (t = lit ">") then ret i else find_redirect tokens (S i) n
  end.

Definition strings (l : list slot) : option (list str) :=
  mapM (fun x => match x with Live t => Some t | _ => None end) l.

(** The child, until it ends. *)
Definition child (tokens : list slot) (len : nat) : M status :=
  let! name := token tokens 0 in
  let! path := AddtoPath name in
  match path with
  | None => let! _ := Error in Exit
  | Some path =>
      let! i := find_redirect tokens 0 len in
      let! cmd := SubTokensCpy tokens 0 i in
      let! argv := of_opt (strings cmd) in
      let! out :=
        if decide (i = len) then ret None
        else
          let! bad := if decide (i + 2 <> len)%nat then ret true
                      else let! t := token tokens (i + 1) in ret (bool_decide (t = lit ">")) in
          if bad then let! _ := Free cmd i in let! _ := Error in Exit
          else
            let! file := token tokens (i + 1) in
            let! ok := call (fun w => open h w file) in
            ret (if ok then Some file else None) in
      let! r := call (fun w => execv h w path argv out) in
      match r with
      | Some st => ret st
      | None =>
          let! _ := Free cmd i in
          let! w := get world in
          let! _ := print (match out with Some file => Named file | None => Stdout end)
                     (strerror h w ++ [10]) in
          Exit
      end
  end.

(** [fork], the child and [wait]: of what the child does, the parent sees what
    happened in the world. *)
Definition run_program (tokens : list slot) (len : nat) : M Z :=
  let! ok := call (fork h) in
  if ok then
    fun s =>
      let back (w : W) (st : status) : run W Z :=
        call (fun _ => (w, match st with Exit_status n => n mod 256 | Signaled => -1 end)) s in
      match child tokens len s with
      | Val st s' => back (world s') st
      | Exited code w => back w (Exit_status code)
      | Stuck => Stuck
      end
  else let! _ := Error in exit 1.

Fixpoint DoCmd (fuel : nat) (tokens : list slot) (len : nat) : M Z :=
  match fuel with
  | O => stuck
  | S fuel =>
      if decide (len = 0)%nat then ret 0
      else
        let! name := token tokens 0 in
        if bool_decide (name = lit "exit") then if decide (1 < len)%nat then Error else Exit
        else if bool_decide (name = lit "cd") then if decide (len <> 2)%nat then Error else Cd tokens
        else if bool_decide (name = lit "path") then Path tokens len
        else if bool_decide (name = lit "if") then If (DoCmd fuel) tokens len
        else run_program tokens len
  end.

(** ** Lines *)

Definition blanks : list Z := [32; 9; 10].

(** A word with one [>] in it. *)
Definition split_redirect (t : str) (i : Z) : M unit :=
  let (t_token, dup_token) := strsep t [62] in
  if i =? 0 then
    let! rest := of_opt dup_token in
    let! _ := AddtoTokens (lit ">") in
    AddtoTokens (strsep rest [62]).1
  else if i =? Z.of_nat (length t) - 1 then
    let! _ := AddtoTokens t_token in
    AddtoTokens (lit ">")
  else
    let! _ := AddtoTokens t_token in
    let! _ := AddtoTokens (lit ">") in
    let! rest := of_opt dup_token in
    AddtoTokens (strsep rest [62]).1.

(** The end of a line.  [DoCmd] gets the tokens there are: were it to look
    behind them, it would be [Stuck]. *)
Definition end_command : M unit :=
  let! s := get id in
  if decide (TokenNum s = 0)%nat then ret ()
  else
    let! _ := DoCmd (S (TokenNum s)) (take (TokenNum s) (Tokens s)) (TokenNum s) in
    let! s := get id in
    let! arr := Free (Tokens s) (TokenNum s) in
    set_tokens arr 0.

Fixpoint words (fuel : nat) (command : option str) : M unit :=
  match fuel with
  | O => stuck
  | S fuel =>
      match command with
      | None => end_command
      | Some c =>
          let (t, command) := strsep c blanks in
          if bool_decide (t = []) then words fuel command
          else if negb (bool_decide (t = lit ">")) && negb (Have t 62 =? -1) then
            let i := Have t 62 in
            if i =? -2 then
              let! s := get id in
              let! arr := Free (Tokens s) (TokenNum s) in
              let! _ := set_tokens arr (TokenNum s) in
              let! _ := Error in
              ret ()
            else
              let! _ := split_redirect t i in
              words fuel command
          else
            let! _ := AddtoTokens t in
            words fuel command
      end
  end.

Fixpoint Parsing_from (i n : nat) : M unit :=
  match n with
  | O => ret ()
  | S n =>
      let! lines := get CommandLines in
      let! line := token lines i in
      let! _ := words (2 + length line) (Some line) in
      Parsing_from (S i) n
  end.

Definition Parsing : M unit := let! n := get LineNum in Parsing_from 0 n.

(** The end of [main]. *)
Definition finish : M Z :=
  let! s := get id in
  let! _ := Free (CommandLines s) (LineNum s) in
  let! _ := Free (PATH s) (LineNum s) in
  exit 0.

Fixpoint interactive (fuel : nat) : M Z :=
  match fuel with
  | O => stuck
  | S fuel =>
      let! _ := print Stdout (lit "wish> ") in
      let! _ := GetCommands in
      let! _ := Parsing in
      interactive fuel
  end.

(** [argv] without the program's name. *)
Definition main (fuel : nat) (argv : list str) : M Z :=
  let! arr := get PATH in
  let! bin := dup (lit "/bin") in
  let! arr := put arr 0 bin in
  let! _ := set_path arr 1 in
  match argv with
  | [] => interactive fuel
  | [name] =>
      let! _ := GetBatchCommands name in
      let! _ := Parsing in
      finish
  | _ => let! _ := Error in exit 1
  end.

Definition start (w : W) : shell :=
  {| world := w; CommandLines := replicate MaxCommandLen Null; LineNum := 0;
     Tokens := replicate MaxTokenLen Null; TokenNum := 0;
     PATH := replicate MaxPathLen Null; PathNum := 0 |}.
End wish.
End Wish.
