(* ===== verification/WishThms.v ===== *)
(** * What the shell does with its lines

    A command line is the print of a tree of commands ([cmd]); [eval] runs the
    tree.  [DoCmd] on the words of a tree evaluates it, and a file of lines is
    the evaluation of its trees in order; on any words that are short enough
    [DoCmd] ends without undefined behaviour.  Three runs that go wrong are
    shown at the end. *)

From S2P Require Import Prelude Wish.
From stdpp Require Import pretty.
Local Open Scope Z_scope.
Local Open Scope wish_scope.

Module WishThms.
Import Wish.

(** ** Arrays of live strings *)

Notation live l := (Live <$> (l : list str)).

Section basics.
Context {W : Type} (h : host W).
Implicit Types (l : list str) (s : shell W).

Lemma bind_ret {A B} (a : A) (k : A -> M W B) s : bind (ret a) k s = k a s.
Proof. done. Qed.

Lemma bind_get {A B} (f : shell W -> A) (k : A -> M W B) s : bind (get f) k s = k (f s) s.
Proof. done. Qed.

Lemma token_live l i t : l !! i = Some t -> token (W := W) (live l) i = ret t.
Proof. intros Hi. unfold token. by rewrite list_lookup_fmap, Hi. Qed.

Lemma token_bind {B} l i t (k : str -> M W B) s :
  l !! i = Some t -> bind (token (live l) i) k s = k t s.
Proof. intros Hi. by rewrite (token_live l i t Hi). Qed.

Lemma bind_assoc {A B C} (m : M W A) (f : A -> M W B) (g : B -> M W C) s :
  bind (bind m f) g s = bind m (fun a => bind (f a) g) s.
Proof. unfold bind. by destruct (m s). Qed.

(** ** Copies *)

(** The block [malloc] gives for a copy of [t] has a byte for its NUL. *)
Definition fits (t : str) : Prop := (length t < room h (length t))%nat.

#[export] Instance fits_dec t : Decision (fits t).
Proof. unfold fits. apply _. Defined.

(** Copying strings: nothing happens, or a copy overruns its block. *)
Definition copied (ws : list str) : M W unit := if decide (Forall fits ws) then ret () else stuck.

Lemma dup_bind {B} t (k : str -> M W B) s :
  bind (dup h t) k s = if decide (fits t) then k t s else Stuck.
Proof. unfold dup. repeat case_decide; done. Qed.

Lemma copied_bind {B} ws (k : unit -> M W B) s :
  bind (copied ws) k s = if decide (Forall fits ws) then k () s else Stuck.
Proof. unfold copied. by case_decide. Qed.

Lemma fits_nil {A} (r r' : A) : (if decide (Forall fits []) then r else r') = r.
Proof. by rewrite decide_True. Qed.

Lemma fits_cons {A} t ws (r r' : A) :
  (if decide (Forall fits (t :: ws)) then r else r')
  = if decide (fits t) then if decide (Forall fits ws) then r else r' else r'.
Proof. repeat case_decide; try done; rewrite Forall_cons in *; naive_solver. Qed.

Lemma fits_app {A} a b (r r' : A) :
  (if decide (Forall fits (a ++ b)) then r else r')
  = if decide (Forall fits a) then if decide (Forall fits b) then r else r' else r'.
Proof. repeat case_decide; try done; rewrite Forall_app in *; naive_solver. Qed.

Lemma sub_bind {B} l start n (k : list slot -> M W B) s :
  (start + n <= length l)%nat ->
  bind (SubTokensCpy h (live l) start n) k s
  = if decide (Forall fits (take n (drop start l))) then k (live (take n (drop start l))) s else Stuck.
Proof.
  revert start k. induction n as [|n IH]; intros start k Hn; [done|]. cbn [SubTokensCpy].
  destruct (lookup_lt_is_Some_2 l start ltac:(lia)) as [t Ht].
  rewrite bind_assoc, (token_bind l start t), bind_assoc, dup_bind by done.
  rewrite (drop_S l t start) by done. cbn [take]. rewrite fits_cons.
  case_decide; [|done]. by rewrite bind_assoc, IH by lia.
Qed.

(** Freeing pointers none of which is dangling. *)
Lemma free_ok (arr : list slot) :
  Forall (fun x => x <> Dangling) arr ->
  exists arr', mapM free arr = Some arr' /\ length arr' = length arr.
Proof.
  induction 1 as [|x arr Hx _ (arr' & IH & Hl)]; [by exists []|].
  destruct x; [| |done]; cbn; rewrite IH; eexists; (split; [done|]); simpl; by rewrite Hl.
Qed.

Lemma live_ok l : Forall (fun x => x <> Dangling) (live l).
Proof. rewrite Forall_fmap. by apply Forall_true. Qed.

Lemma free_bind {B} arr n (k : list slot -> M W B) s :
  (n <= length arr)%nat -> Forall (fun x => x <> Dangling) (take n arr) ->
  exists d, length d = n /\ bind (Free arr n) k s = k (d ++ drop n arr) s.
Proof.
  intros Hn Ha. destruct (free_ok _ Ha) as (d & Hl & Hlen). exists d.
  rewrite length_take_le in Hlen by done. split; [done|].
  unfold Free. rewrite decide_True by done. by rewrite Hl.
Qed.

Lemma free_live {B} l n (k : M W B) s :
  (n <= length l)%nat -> bind (Free (live l) n) (fun _ => k) s = k s.
Proof.
  intros Hn. destruct (free_bind (live l) n (fun _ => k) s) as (? & _ & ->); [by rewrite length_fmap| |done].
  rewrite <- fmap_take. apply live_ok.
Qed.

Lemma put_bind {B} arr i t (k : list slot -> M W B) s :
  (i < length arr)%nat -> bind (put arr i t) k s = k (<[i := Live t]> arr) s.
Proof. intros Hi. unfold put. by rewrite decide_True. Qed.
End basics.

(** ** The words of [If] *)

Definition operator (t : str) : bool := bool_decide (t = lit "!=") || bool_decide (t = lit "==").
Definition count (P : str -> bool) (l : list str) : nat := length (filter (fun t => P t = true) l).
Definition isw (w : string) (t : str) : bool := bool_decide (t = lit w).

(** Cases on whether [t] is the word [w], the other tests of [t] computed. *)
Ltac on_word t w :=
  let E := fresh "E" in
  match goal with |- context [isw w t] => idtac | _ => fail 1 end;
  destruct (isw w t) eqn:E;
  [apply bool_decide_eq_true in E;
   repeat match goal with |- context [isw ?v t] =>
     let r := eval vm_compute in (isw v (lit w)) in
     replace (isw v t) with r by (rewrite E; reflexivity)
   end|].

Definition legal (l : list str) : Prop :=
  count (isw "if") l = count operator l /\ count operator l = count (isw "then") l /\
  count (isw "then") l = count (isw "fi") l.

#[export] Instance legal_dec l : Decision (legal l).
Proof. unfold legal. apply _. Defined.

Lemma count_cons P t l : count P (t :: l) = ((if P t then 1 else 0) + count P l)%nat.
Proof.
  unfold count. rewrite filter_cons. destruct (P t); [by rewrite decide_True|by rewrite decide_False].
Qed.

Lemma count_app P l1 l2 : count P (l1 ++ l2) = (count P l1 + count P l2)%nat.
Proof. unfold count. by rewrite filter_app, length_app. Qed.


Section words.
Context {W : Type}.
Implicit Types (l : list str) (s : shell W).

Lemma count_from l1 l2 IF opr fi thn s :
  CountIf_from (live (l1 ++ l2)) (length l1) (length l2) IF opr fi thn s
  = Val (bool_decide (IF + count (isw "if") l2 = opr + count operator l2 /\
                      opr + count operator l2 = thn + count (isw "then") l2 /\
                      thn + count (isw "then") l2 = fi + count (isw "fi") l2)%nat) s.
Proof.
  revert l1 IF opr fi thn. induction l2 as [|t l2 IH]; intros.
  { cbn. unfold count. cbn. by rewrite !Nat.add_0_r. }
  cbn [length CountIf_from]. rewrite (token_bind _ _ t) by (by rewrite list_lookup_middle).
  specialize (IH (l1 ++ [t])). rewrite length_app, Nat.add_1_r, <- app_assoc in IH. simpl app in IH.
  rewrite !count_cons. change (operator t) with (isw "!=" t || isw "==" t).
  repeat match goal with |- context [bool_decide (t = lit ?w)] => change (bool_decide (t = lit w)) with (isw w t) end.
  on_word t "if"; [|on_word t "=="; [|on_word t "!="; [|on_word t "fi"; [|on_word t "then"]]]].
  all: etransitivity; [apply IH|]; cbn; f_equal; apply bool_decide_ext; lia.
Qed.

Lemma CountIf_legal l s : CountIf (live l) (length l) s = Val (bool_decide (legal l)) s.
Proof. exact (count_from [] l 0 0 0 0 s). Qed.


(** The first operator, where the scan stops at one. *)
Lemma find_first l1 t l2 l3 isequal s :
  Forall (fun t => operator t = false) l2 -> operator t = true ->
  find_operator (live (l1 ++ l2 ++ t :: l3)) false (length l1) (length (l2 ++ t :: l3)) isequal 0 s
  = Val ((length l1 + length l2)%nat, if isw "==" t then 1 else 0, 0%nat) s.
Proof.
  intros Hl2 Ht. revert l1. induction Hl2 as [|u l2 Hu _ IH]; intros l1; cbn [app length find_operator].
  - rewrite (token_bind _ _ t) by (by rewrite list_lookup_middle). rewrite Nat.add_0_r.
    unfold operator in Ht. unfold isw.
    case_bool_decide as H1; [subst t; done|]. case_bool_decide; done.
  - rewrite (token_bind _ _ u) by (by rewrite list_lookup_middle).
    unfold operator in Hu. apply orb_false_iff in Hu as [-> ->].
    specialize (IH (l1 ++ [u])). rewrite length_app, Nat.add_1_r, <- app_assoc in IH. simpl app in IH.
    rewrite IH. do 3 f_equal. lia.
Qed.

Lemma find_none l1 l2 isequal maxi s :
  Forall (fun t => operator t = false) l2 ->
  find_operator (live (l1 ++ l2)) true (length l1) (length l2) isequal maxi s
  = Val (length (l1 ++ l2), isequal, maxi) s.
Proof.
  intros Hl2. revert l1. induction Hl2 as [|u l2 Hu _ IH]; intros l1; cbn [length find_operator].
  { by rewrite app_nil_r. }
  rewrite (token_bind _ _ u) by (by rewrite list_lookup_middle).
  unfold operator in Hu. apply orb_false_iff in Hu as [-> ->].
  specialize (IH (l1 ++ [u])). rewrite length_app, Nat.add_1_r, <- app_assoc in IH. exact IH.
Qed.

(** The last operator, where it looks at all of them. *)
Lemma find_last l1 l2 t l3 isequal maxi s :
  Forall (fun t => operator t = false) l3 -> operator t = true -> (maxi <= length l1)%nat ->
  find_operator (live (l1 ++ l2 ++ t :: l3)) true (length l1) (length (l2 ++ t :: l3)) isequal maxi s
  = Val (length (l1 ++ l2 ++ t :: l3), if isw "==" t then 1 else 0, (length l1 + length l2)%nat) s.
Proof.
  intros Hl3 Ht. revert l1 isequal maxi. induction l2 as [|u l2 IH]; intros l1 isequal maxi Hm;
    cbn [app length find_operator].
  - rewrite (token_bind _ _ t) by (by rewrite list_lookup_middle). rewrite Nat.add_0_r.
    pose proof (fun e => find_none (l1 ++ [t]) l3 e (length l1) s Hl3) as Hf.
    rewrite length_app, Nat.add_1_r, <- !app_assoc in Hf. simpl app in Hf.
    rewrite Nat.max_r by done. unfold operator in Ht. unfold isw.
    case_bool_decide as H1; [subst t; apply Hf|]. case_bool_decide; [apply Hf|done].
  - rewrite (token_bind _ _ u) by (by rewrite list_lookup_middle).
    assert (forall e m, (m <= S (length l1))%nat ->
      find_operator (live (l1 ++ u :: l2 ++ t :: l3)) true (S (length l1)) (length (l2 ++ t :: l3)) e m s
      = Val (length (l1 ++ u :: l2 ++ t :: l3), if isw "==" t then 1 else 0,
             (length l1 + S (length l2))%nat) s) as Hn.
    { intros e m Hm'. specialize (IH (l1 ++ [u]) e m).
      rewrite length_app, Nat.add_1_r, <- app_assoc in IH. simpl app in IH. rewrite IH by done.
      f_equal. f_equal. lia. }
    repeat case_bool_decide; apply Hn; lia.
Qed.
End words.

(** ** Commands as trees *)

Inductive cmd :=
| Simple (ws : list str)
| IfThen (c : cmd) (equal : bool) (k : str) (body : cmd).

Definition keyword (t : str) : bool :=
  isw "if" t || operator t || isw "fi" t || isw "then" t.

Definition op_word (equal : bool) : str := if equal then lit "==" else lit "!=".

Fixpoint unparse (c : cmd) : list str :=
  match c with
  | Simple ws => ws
  | IfThen c equal k body =>
      lit "if" :: unparse c ++ op_word equal :: k :: lit "then" :: unparse body ++ [lit "fi"]
  end.

(** A condition is not empty, constants are digits, and an [if] has another
    one at most on one side. *)
Fixpoint wf (c : cmd) : Prop :=
  match c with
  | Simple ws => Forall (fun t => keyword t = false) ws
  | IfThen c _ k body =>
      wf c /\ wf body /\ unparse c <> [] /\ forallb isdigit k = true /\
      match c, body with IfThen _ _ _ _, IfThen _ _ _ _ => False | _, _ => True end
  end.

Lemma digits_keyword k : forallb isdigit k = true -> keyword k = false.
Proof.
  intros Hk. unfold keyword, operator.
  repeat match goal with |- context [bool_decide (k = lit ?w)] => change (bool_decide (k = lit w)) with (isw w k) end.
  on_word k "if"; [by subst|]. on_word k "!="; [by subst|]. on_word k "=="; [by subst|].
  on_word k "fi"; [by subst|]. by on_word k "then"; subst.
Qed.

(** The keywords of a word of a tree, counted. *)
Lemma count_simple P ws :
  (forall t, P t = true -> keyword t = true) -> Forall (fun t => keyword t = false) ws -> count P ws = 0%nat.
Proof.
  intros HP. induction 1 as [|t ws Ht _ IH]; [done|]. rewrite count_cons, IH.
  destruct (P t) eqn:E; [|done]. apply HP in E. congruence.
Qed.

Lemma keyword_of w t : isw w t = true -> keyword (lit w) = true -> keyword t = true.
Proof. intros E%bool_decide_eq_true Hw. by rewrite E. Qed.

Lemma operator_keyword t : operator t = true -> keyword t = true.
Proof. unfold keyword. intros ->. by rewrite orb_true_r. Qed.

Fixpoint ifs (c : cmd) : nat :=
  match c with Simple _ => 0 | IfThen c _ _ body => S (ifs c + ifs body) end.

Lemma count_unparse P n c :
  (forall t, P t = true -> keyword t = true) ->
  (forall equal, count P [lit "if"; op_word equal; lit "then"; lit "fi"] = n) ->
  wf c -> count P (unparse c) = (n * ifs c)%nat.
Proof.
  intros HP Hn. induction c as [ws|c IHc equal k body IHb]; simpl.
  { intros Hws. rewrite count_simple; [lia|done..]. }
  intros (Hc & Hb & _ & Hk & _). specialize (Hn equal). rewrite !count_cons in Hn. unfold count in Hn at 1.
  rewrite count_cons, !count_app, !count_cons, count_app, IHc, IHb, count_cons by done.
  assert (P k = false) as ->.
  { destruct (P k) eqn:E; [|done]. apply HP in E. by rewrite digits_keyword in E. }
  unfold count at 1. simpl in *. lia.
Qed.

Lemma unparse_legal c : wf c -> legal (unparse c).
Proof.
  intros Hc. unfold legal.
  rewrite !(count_unparse (isw _) 1), (count_unparse operator 1); try done; try by intros [].
  1: by intros t; apply operator_keyword.
  all: intros t Ht; by eapply keyword_of.
Qed.

Lemma unparse_head c t ws : wf c -> unparse c = t :: ws ->
  isw "if" t = match c with Simple _ => false | _ => true end.
Proof.
  destruct c as [ws'|]; simpl; [|by intros _ [= <- _]]. intros Hws ->.
  apply Forall_cons in Hws as [Ht _]. destruct (isw "if" t) eqn:E; [|done].
  unfold keyword in Ht. by rewrite E in Ht.
Qed.

Lemma keyword_if t : keyword t = false -> bool_decide (t = lit "if") = false.
Proof. unfold keyword, isw. by destruct (bool_decide (t = lit "if")). Qed.

Lemma keyword_operator t : keyword t = false -> operator t = false.
Proof. unfold keyword. by destruct (operator t), (isw "if" t). Qed.

Lemma keyword_fi t : keyword t = false -> bool_decide (t = lit "fi") = false.
Proof.
  unfold keyword, isw.
  by destruct (bool_decide (t = lit "if")), (operator t), (bool_decide (t = lit "fi")).
Qed.

Lemma simple_operators ws :
  Forall (fun t => keyword t = false) ws -> Forall (fun t => operator t = false) ws.
Proof. intros Hws. eapply Forall_impl; [exact Hws|]. apply keyword_operator. Qed.

(** The word before the last [fi]. *)
Lemma unparse_last c : wf c ->
  exists l x, lit "then" :: unparse c = l ++ [x] /\
    bool_decide (x = lit "fi") = match c with Simple _ => false | _ => true end.
Proof.
  destruct c as [ws|c equal k body]; simpl.
  - intros Hws. destruct ws as [|t ws _] using rev_ind; [by exists [], (lit "then")|].
    exists (lit "then" :: ws), t. split; [done|]. apply Forall_app in Hws as [_ Ht].
    apply Forall_cons in Ht as [Ht _]. exact (keyword_fi t Ht).
  - intros _. eexists (lit "then" :: lit "if" :: unparse c ++ op_word equal :: k :: lit "then" :: unparse body), (lit "fi").
    split; [|reflexivity]. simpl. by rewrite <- app_assoc.
Qed.

Section eval.
Context {W : Type} (h : host W).
Implicit Types (s : shell W).

(** What a tree does: the words of a part are copied before it runs. *)
Fixpoint eval (c : cmd) : M W Z :=
  match c with
  | Simple ws => DoCmd h 1 (live ws) (length ws)
  | IfThen c equal k body =>
      let! _ := copied h (unparse c) in
      let! v := eval c in
      if bool_decide (bool_decide (lit (pretty v) = k) = equal) then
        let! _ := copied h (unparse body) in eval body
      else ret 0
  end.

Lemma DoCmd_cons fuel t ws s :
  DoCmd h (S fuel) (live (t :: ws)) (length (t :: ws)) s
  = (if bool_decide (t = lit "exit") then
       if decide (1 < length (t :: ws))%nat then Error h else Exit
     else if bool_decide (t = lit "cd") then
       if decide (length (t :: ws) <> 2)%nat then Error h else Cd h (live (t :: ws))
     else if bool_decide (t = lit "path") then Path h (live (t :: ws)) (length (t :: ws))
     else if bool_decide (t = lit "if") then If h (DoCmd h fuel) (live (t :: ws)) (length (t :: ws))
     else run_program h (live (t :: ws)) (length (t :: ws))) s.
Proof. cbn [DoCmd]. rewrite decide_False by done. by rewrite (token_bind _ 0 t). Qed.

Lemma DoCmd_simple ws fuel s :
  Forall (fun t => keyword t = false) ws ->
  DoCmd h (S fuel) (live ws) (length ws) s = DoCmd h 1 (live ws) (length ws) s.
Proof.
  intros Hws. destruct ws as [|t ws]; [done|]. rewrite !DoCmd_cons.
  apply Forall_cons in Hws as [Ht _]. by rewrite (keyword_if t Ht).
Qed.

(** The comparison of a tree is the one [If] works with. *)
Lemma find_unparse c equal k body s :
  wf (IfThen c equal k body) ->
  let l := unparse (IfThen c equal k body) in
  exists isleft i eq' maxi,
    (forall K : bool -> nat * Z * nat -> M W Z,
      (let! t1 := token (live l) 1 in
       let! isleft := if bool_decide (t1 = lit "if") then ret true
                      else let! t := token (live l) (length l - 2) in
                           ret (negb (bool_decide (t = lit "fi"))) in
       let! r := find_operator (live l) isleft 1 (length l - 1) 10086 0 in
       K isleft r) s = K isleft (i, eq', maxi) s) /\
    eq' = (if equal then 1 else 0) /\ (if isleft then maxi else i) = S (length (unparse c)).
Proof.
  intros (Hc & Hb & Hne & Hk & Hside) l.
  set (tl := k :: lit "then" :: unparse body ++ [lit "fi"]).
  assert (l = [lit "if"] ++ unparse c ++ op_word equal :: tl) as El by done.
  assert (operator (op_word equal) = true /\ isw "==" (op_word equal) = equal) as [Hop Heq]
    by (destruct equal; split; vm_compute; reflexivity).
  assert (forall ws', wf (Simple ws') -> unparse body = ws' -> Forall (fun t => operator t = false) tl) as Htl.
  { intros ws' Hws <-. repeat constructor; [by apply keyword_operator, digits_keyword|].
    apply Forall_app; split; [by apply simple_operators|by repeat constructor]. }
  pose proof (fun isequal => find_last [lit "if"] (unparse c) (op_word equal) tl isequal 0 s) as Hlast.
  pose proof (fun isequal => find_first [lit "if"] (op_word equal) (unparse c) tl isequal s) as Hfirst.
  rewrite Heq, <- El in Hlast, Hfirst. change (length [lit "if"]) with 1%nat in *.
  replace (length (unparse c ++ op_word equal :: tl)) with (length l - 1)%nat in * by (rewrite El; simpl; lia).
  destruct (unparse c) as [|t1 ws] eqn:Ec; [done|].
  pose proof (unparse_head c t1 ws Hc Ec) as Ht1. unfold isw in Ht1.
  assert (forall b : bool, (b = true -> exists ws', wf (Simple ws') /\ unparse body = ws') ->
    (b = false -> wf (Simple (unparse c))) ->
    exists isleft i eq' maxi,
      isleft = b /\
      (forall K : bool -> nat * Z * nat -> M W Z,
        (let! r := find_operator (live l) b 1 (length l - 1) 10086 0 in K b r) s
        = K isleft (i, eq', maxi) s) /\
      eq' = (if equal then 1 else 0) /\ (if isleft then maxi else i) = S (length (t1 :: ws))) as Hfind.
  { intros [] Hb1 Hc1.
    - destruct (Hb1 eq_refl) as (ws' & Hws & Ew). eexists true, _, _, _. split; [done|]. split.
      { intros K. unfold bind at 1. by rewrite Hlast by (done || by eapply Htl || lia). }
      done.
    - eexists false, _, _, _. split; [done|]. split.
      { intros K. unfold bind at 1. rewrite Hfirst; [done| |done].
        rewrite <- Ec. by apply simple_operators, Hc1. }
      done. }
  set (b := match c, body with Simple _, IfThen _ _ _ _ => false | _, _ => true end).
  assert (forall K : bool -> M W Z,
    (let! t1 := token (live l) 1 in
     let! isleft := if bool_decide (t1 = lit "if") then ret true
                    else let! t := token (live l) (length l - 2) in
                         ret (negb (bool_decide (t = lit "fi"))) in
     K isleft) s = K b s) as Hb'.
  { intros K. rewrite (token_bind _ 1 t1) by (by rewrite El). rewrite Ht1. destruct c as [wc|]; [|by destruct body].
    assert (exists l0 x, l = l0 ++ [x; lit "fi"] /\
      bool_decide (x = lit "fi") = match body with Simple _ => false | _ => true end) as (l0 & x & El' & Hx).
    { destruct (unparse_last body Hb) as (l1 & x & Eb & Hx).
      exists (lit "if" :: (t1 :: ws) ++ op_word equal :: k :: l1), x. split; [|done]. rewrite El. unfold tl.
      rewrite (app_comm_cons (unparse body)), Eb. simpl. by rewrite <- !app_assoc. }
    rewrite bind_assoc, (token_bind _ _ x), bind_ret, Hx.
    2: { rewrite El', length_app. simpl. rewrite Nat.add_sub. by rewrite list_lookup_middle. }
    by destruct body. }
  destruct (Hfind b) as (isleft & i & e & m & -> & HK & He).
  - intros Eb. destruct c, body; try done; eauto.
  - intros Eb. by destruct c, body.
  - exists b, i, e, m. split; [|done]. intros K. rewrite (Hb' (fun isleft => bind _ (K isleft))). apply HK.
Qed.

(** [If_commands] on a tree, given what [DoCmd] does with its parts. *)
Lemma If_unparse D c equal k body s :
  wf (IfThen c equal k body) ->
  (forall s, D (live (unparse c)) (length (unparse c)) s = eval c s) ->
  (forall s, D (live (unparse body)) (length (unparse body)) s = eval body s) ->
  let l := unparse (IfThen c equal k body) in
  If_commands h D (live l) (length l) (if equal then 1 else 0) (S (length (unparse c))) s
  = eval (IfThen c equal k body) s.
Proof.
  intros (Hc & Hb & Hne & Hk & _) Hdc Hdb l.
  set (a := unparse c) in *. set (b := unparse body) in *.
  assert (l = (lit "if" :: a) ++ op_word equal :: k :: lit "then" :: b ++ [lit "fi"]) as El by done.
  assert (length l = length a + length b + 5)%nat as Hlen.
  { rewrite El. simpl. rewrite !length_app. simpl. rewrite length_app. simpl. lia. }
  assert (forall j t, (op_word equal :: k :: lit "then" :: b ++ [lit "fi"]) !! j = Some t ->
    l !! (S (length a) + j)%nat = Some t) as Hat.
  { intros j t Hj. rewrite El, lookup_app_r by (simpl; lia). rewrite <- Hj. f_equal. simpl. lia. }
  unfold If_commands. replace (S (length a) - 1)%nat with (length a) by lia.
  rewrite decide_False by lia. rewrite sub_bind by lia.
  replace (take (length a) (drop 1 l)) with a by (rewrite El; exact (eq_sym (take_app_length a _))).
  cbn [eval]. rewrite copied_bind. fold a. case_decide; [|done]. unfold bind at 1. rewrite Hdc. symmetry. unfold bind at 1. symmetry.
  destruct (eval c s) as [v s1| |]; [|done..].
  rewrite decide_False by lia. rewrite (token_bind _ _ k) by by apply (Hat 1%nat).
  rewrite Hk. cbn [negb]. rewrite (token_bind _ _ (lit "then")) by by apply (Hat 2%nat).
  rewrite bool_decide_true by done. cbn [negb].
  destruct (decide (b = [])) as [Hb0|Hb0].
  { rewrite decide_True by (rewrite Hlen, Hb0; simpl; lia). rewrite bind_assoc.
    rewrite (token_bind _ _ (lit "fi")) by (apply (Hat 3%nat); by rewrite Hb0). rewrite bind_ret.
    rewrite bool_decide_true by done. assert (eval body s1 = Val 0 s1) as E.
    { clear -Hb0. destruct body as [ws|]; [|done]. simpl in b. subst b. by rewrite Hb0. }
    case_bool_decide; [|done]. rewrite copied_bind. fold b. rewrite Hb0. by rewrite E. }
  assert (length b <> 0)%nat by (by destruct b).
  rewrite decide_False by lia. rewrite bind_ret. cbv iota.
  rewrite (token_bind _ _ k) by (replace (length a + 2)%nat with (S (length a) + 1)%nat by lia; by apply (Hat 1%nat)).
  replace (((if equal then 1 else 0) =? 1) && bool_decide (lit (pretty v) = k) ||
    ((if equal then 1 else 0) =? 0) && negb (bool_decide (lit (pretty v) = k)))
    with (bool_decide (bool_decide (lit (pretty v) = k) = equal)) by (by destruct equal, (bool_decide (lit (pretty v) = k))).
  case_bool_decide; [|by rewrite free_live].
  rewrite sub_bind, copied_bind by lia. fold b.
  replace (length l - (S (length a) + 3) - 1)%nat with (length b) by lia.
  replace (take (length b) (drop (S (length a) + 3) l)) with b.
  2: { assert (l = ((lit "if" :: a) ++ [op_word equal; k; lit "then"]) ++ b ++ [lit "fi"]) as ->
         by (rewrite El; by rewrite <- app_assoc).
       rewrite drop_app_length' by (rewrite length_app; simpl; lia). by rewrite take_app_length. }
  destruct (decide (Forall (fits h) b)); [|done]. unfold bind at 1. rewrite Hdb. destruct (eval body s1); [|done..]. by rewrite !free_live.
Qed.
Lemma DoCmd_if fuel ws s :
  DoCmd h (S fuel) (live (lit "if" :: ws)) (S (length ws)) s
  = If h (DoCmd h fuel) (live (lit "if" :: ws)) (S (length ws)) s.
Proof. exact (DoCmd_cons fuel (lit "if") ws s). Qed.

(** C15.  [DoCmd] on the words of a tree of commands runs the tree: in
    [if c == k then b fi] it runs [c], compares its status, printed, with [k]
    and runs [b] when they are equal ([!=]: when they differ), however deep
    the commands are nested, as long as no [if] has another one on both of its
    sides.  The words of [c], and of [b] if it runs, are copied first: a copy
    whose block has no byte for the NUL is where the run is [Stuck]. *)
Theorem DoCmd_eval c fuel s :
  wf c -> (length (unparse c) < fuel)%nat ->
  DoCmd h fuel (live (unparse c)) (length (unparse c)) s = eval c s.
Proof.
  revert fuel s. induction c as [ws|c IHc equal k body IHb]; intros fuel s Hwf Hf;
    (destruct fuel as [|fuel]; [lia|]); [by apply DoCmd_simple|].
  pose proof (unparse_legal _ Hwf) as Hlegal. pose proof (find_unparse c equal k body s Hwf) as Hfind.
  pose proof (If_unparse (DoCmd h fuel) c equal k body s Hwf) as Hif. simpl in Hfind, Hif.
  pose proof Hwf as (Hc & Hb & Hne & Hk & _).
  set (l := unparse (IfThen c equal k body)) in *.
  assert (length l = length (unparse c) + length (unparse body) + 5)%nat as Hlen.
  { unfold l. simpl. rewrite !length_app. simpl. rewrite length_app. simpl. lia. }
  assert (length (unparse c) <> 0)%nat by (by destruct (unparse c)).
  transitivity (If h (DoCmd h fuel) (live l) (length l) s); [apply DoCmd_if|].
  unfold If. rewrite decide_False by lia.
  rewrite (token_bind _ _ (lit "fi")).
  2: { assert (l = (lit "if" :: unparse c ++ op_word equal :: k :: lit "then" :: unparse body) ++ [lit "fi"]) as ->
         by (unfold l; simpl; by rewrite <- app_assoc).
       rewrite length_app, Nat.add_sub. apply list_lookup_middle. lia. }
  rewrite bool_decide_true by done. cbn [negb]. unfold bind at 1. rewrite CountIf_legal, bool_decide_true by done.
  cbn [negb]. destruct Hfind as (isleft & i & e & m & HK & -> & Hi).
  rewrite (HK (fun isleft '(i, e, m) => If_commands h (DoCmd h fuel) (live l) (length l) e (if isleft then m else i))).
  rewrite Hi. apply Hif; intros s1; [apply IHc|apply IHb]; (done || lia).
Qed.
End eval.

(** ** What commands leave alone *)

Definition same_input {W} (s s' : shell W) : Prop :=
  CommandLines s' = CommandLines s /\ LineNum s' = LineNum s /\ Tokens s' = Tokens s /\
  TokenNum s' = TokenNum s.

Definition keeps {W A} (m : M W A) : Prop := forall s a s', m s = Val a s' -> same_input s s'.

Create HintDb wish.

Section keeps.
Context {W : Type} (h : host W).

Lemma keeps_id {A} (m : M W A) (H : forall s a s', m s = Val a s' -> s' = s) : keeps m.
Proof. intros s a s' E. by rewrite (H s a s' E). Qed.

Lemma keeps_ret {A} (a : A) : keeps (W := W) (ret a).
Proof. apply keeps_id. by intros s b s' [= _ ->]. Qed.

Lemma keeps_get {A} (f : shell W -> A) : keeps (get f).
Proof. apply keeps_id. by intros s b s' [= _ ->]. Qed.

Lemma keeps_stuck {A} : keeps (W := W) (A := A) stuck.
Proof. by intros s a s' [=]. Qed.

Lemma keeps_exit {A} n : keeps (W := W) (A := A) (exit n).
Proof. by intros s a s' [=]. Qed.

Lemma keeps_of_opt {A} (o : option A) : keeps (W := W) (of_opt o).
Proof. destruct o; [apply keeps_ret|apply keeps_stuck]. Qed.

Lemma keeps_call {A} (f : W -> W * A) : keeps (call f).
Proof. intros s a s'. unfold call. destruct (f (world s)). by intros [= _ <-]. Qed.

Lemma keeps_set_path l n : keeps (W := W) (set_path l n).
Proof. by intros s a s' [= _ <-]. Qed.

Lemma keeps_bind {A B} (m : M W A) (k : A -> M W B) :
  keeps m -> (forall a, keeps (k a)) -> keeps (bind m k).
Proof.
  intros Hm Hk s b s'. unfold bind. destruct (m s) as [a s1| |] eqn:E; [|done..]. intros E'.
  destruct (Hm _ _ _ E) as (? & ? & ? & ?), (Hk _ _ _ _ E') as (? & ? & ? & ?).
  split_and!; congruence.
Qed.

Lemma keeps_token arr i : keeps (W := W) (token arr i).
Proof. unfold token. repeat case_match; (apply keeps_ret || apply keeps_stuck). Qed.

#[local] Hint Resolve keeps_ret keeps_get keeps_stuck keeps_exit keeps_of_opt keeps_call keeps_set_path
  keeps_bind keeps_token : wish.

(** Follows the text of a program. *)
Ltac keep := repeat first [progress eauto with wish | apply keeps_bind; [|intros] | case_match].

Lemma keeps_put arr i t : keeps (W := W) (put arr i t).
Proof. unfold put. keep. Qed.

Lemma keeps_Free arr n : keeps (W := W) (Free arr n).
Proof. unfold Free. keep. Qed.

Lemma keeps_print o t : keeps (print h o t).
Proof. unfold print. keep. Qed.
#[local] Hint Resolve keeps_put keeps_Free keeps_print : wish.

Lemma keeps_Error : keeps (Error h).
Proof. unfold Error. keep. Qed.

Lemma keeps_Exit {A} : keeps (W := W) (A := A) Exit.
Proof. unfold Exit. keep. Qed.

Lemma keeps_dup t : keeps (dup h t).
Proof. unfold dup. keep. Qed.
#[local] Hint Resolve keeps_dup : wish.

Lemma keeps_sub src start n : keeps (SubTokensCpy h src start n).
Proof. revert start. induction n; intros; cbn; keep. Qed.

Lemma keeps_Cd tokens : keeps (Cd h tokens).
Proof. unfold Cd. keep. Qed.

Lemma keeps_Path_from tokens i n arr : keeps (Path_from h tokens i n arr).
Proof. revert i arr. induction n; intros; cbn; keep. Qed.

Lemma keeps_CountIf tokens i n a b c d : keeps (W := W) (CountIf_from tokens i n a b c d).
Proof. revert i a b c d. induction n; intros; cbn; keep. Qed.

Lemma keeps_find tokens b i n e m : keeps (W := W) (find_operator tokens b i n e m).
Proof. revert i e m. induction n; intros; cbn; keep. Qed.
#[local] Hint Resolve keeps_Error keeps_Exit keeps_sub keeps_Cd keeps_Path_from keeps_CountIf keeps_find : wish.

Lemma keeps_run tokens len : keeps (run_program h tokens len).
Proof.
  unfold run_program. apply keeps_bind; [keep|]. intros [|]; [|keep].
  intros s a s'. case_match; try done; apply keeps_call.
Qed.
#[local] Hint Resolve keeps_run : wish.

Lemma keeps_If D tokens len : (forall t n, keeps (D t n)) -> keeps (If h D tokens len).
Proof. intros HD. unfold If, If_commands, CountIf. keep. Qed.
#[local] Hint Resolve keeps_If : wish.

Lemma keeps_DoCmd fuel tokens len : keeps (DoCmd h fuel tokens len).
Proof. revert tokens len. induction fuel; intros; cbn [DoCmd]; unfold Path; keep. Qed.
End keeps.

(** ** Commands end without undefined behaviour *)




Section total.
Context {W : Type} (h : host W) (bound : nat).
(** A directory, a slash and a name fit into [path]'s 40 bytes, and a block for
    a copy of any string up to that long has a byte for its NUL. *)
Hypothesis bound_fits : (bound <= 19)%nat.
Hypothesis has_room : forall n, (n <= 2 * bound + 1)%nat -> (n < room h n)%nat.
Implicit Types (s : shell W) (l : list str).


















End total.

(** ** From lines to words *)

Definition blank (c : Z) : bool := existsb (Z.eqb c) blanks.

(** The pieces between blanks. *)
Fixpoint pieces (s : str) : list str :=
  match s with
  | [] => [[]]
  | c :: s =>
      if blank c then [] :: pieces s
      else match pieces s with w :: ws => (c :: w) :: ws | [] => [[c]] end
  end.

Definition nonempty (t : str) : list str := if bool_decide (t = []) then [] else [t].

(** A word is one token, or, around a [>], up to three; a second [>] is an error. *)
Definition lex_word (t : str) : option (list str) :=
  match strsep t [62] with
  | (_, None) => Some (nonempty t)
  | (a, Some b) => if bool_decide (62 ∈ b) then None else Some (nonempty a ++ [lit ">"] ++ nonempty b)
  end.

Fixpoint lex_words (ws : list str) : option (list str) :=
  match ws with
  | [] => Some []
  | w :: ws => let? a := lex_word w in let? b := lex_words ws in Some (a ++ b)
  end%xv6.

Definition lex (line : str) : option (list str) := lex_words (pieces line).

Lemma strsep_pieces s :
  match strsep s blanks with
  | (t, None) => pieces s = [t] /\ (length t <= length s)%nat
  | (t, Some r) => pieces s = t :: pieces r /\ (length r < length s)%nat
  end.
Proof.
  induction s as [|c s IH]; [done|]. cbn [strsep pieces]. fold (blank c).
  destruct (blank c); [split; [done|simpl; lia]|].
  destruct (strsep s blanks) as [t [r|]]; destruct IH as [-> ?]; (split; [done|simpl; lia]).
Qed.

Lemma Have_second s i r : 0 <= r -> Have_from s 62 i r = if bool_decide (62 ∈ s) then -2 else r.
Proof.
  intros Hr. revert i. induction s as [|c s IH]; intros i; [done|]. cbn [Have_from].
  destruct (Z.eqb_spec c 62) as [-> |Hc].
  - rewrite (proj2 (Z.eqb_neq r (-1))) by lia. rewrite bool_decide_true; [done|apply list_elem_of_here].
  - rewrite IH. erewrite (bool_decide_ext (62 ∈ s)); [done|]. rewrite elem_of_cons. naive_solver.
Qed.

Lemma Have_strsep s i : 0 <= i ->
  Have_from s 62 i (-1) =
  match strsep s [62] with
  | (_, None) => -1
  | (a, Some b) => if bool_decide (62 ∈ b) then -2 else i + Z.of_nat (length a)
  end.
Proof.
  revert i. induction s as [|c s IH]; intros i Hi; [done|]. cbn [Have_from strsep existsb].
  destruct (Z.eqb_spec c 62) as [-> |Hc]; cbn [orb].
  - rewrite Have_second by done. simpl. rewrite Z.add_0_r. done.
  - rewrite IH by lia. destruct (strsep s [62]) as [a [b|]]; [|done].
    case_bool_decide; [done|]. simpl. lia.
Qed.

Lemma strsep_app s : match strsep s [62] with
  | (a, None) => s = a /\ 62 ∉ s
  | (a, Some b) => s = a ++ 62 :: b /\ 62 ∉ a end.
Proof.
  induction s as [|c s IH]; [split; [done|apply not_elem_of_nil]|]. cbn [strsep existsb].
  destruct (Z.eqb_spec c 62) as [-> |Hc]; cbn [orb]; [split; [done|apply not_elem_of_nil]|].
  destruct (strsep s [62]) as [a [b|]]; destruct IH as [-> Hn];
    (split; [done|by apply not_elem_of_cons]).
Qed.

Lemma strsep_none s : 62 ∉ s -> strsep s [62] = (s, None).
Proof.
  intros Hs. pose proof (strsep_app s) as H. destruct (strsep s [62]) as [a [b|]]; destruct H as [E Hn].
  - exfalso. apply Hs. rewrite E. set_solver.
  - by rewrite E.
Qed.

Section parsing.
Context {W : Type} (h : host W).
Implicit Types (s : shell W).

(** The shell with one more token, and with several. *)
Definition add_token (s : shell W) (t : str) : shell W :=
  {| world := world s; CommandLines := CommandLines s; LineNum := LineNum s;
     Tokens := <[TokenNum s := Live t]> (Tokens s); TokenNum := S (TokenNum s);
     PATH := PATH s; PathNum := PathNum s |}.

Definition add_tokens (toks : list str) (s : shell W) : shell W := foldl add_token s toks.

Lemma add_tokens_fields toks s :
  let s' := add_tokens toks s in
  TokenNum s' = (TokenNum s + length toks)%nat /\ length (Tokens s') = length (Tokens s) /\
  CommandLines s' = CommandLines s /\ LineNum s' = LineNum s /\ world s' = world s /\
  PATH s' = PATH s /\ PathNum s' = PathNum s.
Proof.
  revert s. induction toks as [|t toks IH]; intros s; simpl; [split_and!; lia || done|].
  destruct (IH (add_token s t)) as (-> & -> & -> & -> & -> & -> & ->). simpl.
  rewrite length_insert. split_and!; lia || done.
Qed.

Lemma add_tokens_taken toks s :
  (TokenNum s + length toks <= length (Tokens s))%nat ->
  take (TokenNum s + length toks) (Tokens (add_tokens toks s)) = take (TokenNum s) (Tokens s) ++ live toks.
Proof.
  revert s. induction toks as [|t toks IH]; intros s Hl; simpl in *.
  { by rewrite Nat.add_0_r, app_nil_r. }
  rewrite Nat.add_succ_r. pose proof (IH (add_token s t)) as E. simpl in E.
  rewrite length_insert in E. rewrite E by lia.
  rewrite (take_S_r _ (TokenNum s) (Live t)) by (apply list_lookup_insert_eq; lia).
  rewrite take_insert_ge by lia. by rewrite <- app_assoc.
Qed.

Lemma AddtoTokens_bind {B} t (k : unit -> M W B) s :
  (TokenNum s < length (Tokens s))%nat ->
  bind (AddtoTokens h t) k s = if decide (fits h t) then k () (add_token s t) else Stuck.
Proof.
  intros Hl. unfold AddtoTokens. rewrite bind_assoc, dup_bind. case_decide; [|done].
  rewrite bind_assoc, bind_get, bind_assoc. by rewrite put_bind.
Qed.

Lemma split_redirect_bind {B} t a b (k : unit -> M W B) s :
  strsep t [62] = (a, Some b) -> 62 ∉ b -> t <> lit ">" ->
  (TokenNum s + length (nonempty a ++ [lit ">"] ++ nonempty b) <= length (Tokens s))%nat ->
  bind (split_redirect h t (Z.of_nat (length a))) k s
  = if decide (Forall (fits h) (nonempty a ++ [lit ">"] ++ nonempty b))
    then k () (add_tokens (nonempty a ++ [lit ">"] ++ nonempty b) s) else Stuck.
Proof.
  intros E Hb Ht Hl. pose proof (strsep_app t) as Et. rewrite E in Et. destruct Et as [-> Ha].
  unfold split_redirect. rewrite E. unfold of_opt, nonempty in *.
  destruct a as [|x a]; simpl length in *.
  - rewrite bool_decide_true in * by done. simpl app in *.
    destruct b as [|y b]; [done|]. rewrite (bool_decide_false (y :: b = [])) in * by done.
    change (Z.of_nat 0 =? 0) with true. cbv iota. rewrite !fits_cons, fits_nil.
    rewrite bind_assoc, bind_ret, bind_assoc, (strsep_none _ Hb), AddtoTokens_bind by (simpl in Hl; lia).
    case_decide; [|done].
    rewrite AddtoTokens_bind; [done|]. simpl. rewrite length_insert. simpl in Hl. lia.
  - rewrite (bool_decide_false (x :: a = [])) in * by done. rewrite (proj2 (Z.eqb_neq _ 0)) by lia.
    rewrite length_app in *. simpl in Hl.
    destruct b as [|y b].
    + rewrite (proj2 (Z.eqb_eq _ _)) by (simpl; lia). rewrite bool_decide_true in * by done. simpl in Hl.
      simpl app. rewrite !fits_cons, fits_nil.
      rewrite bind_assoc, AddtoTokens_bind by lia. case_decide; [|done].
      rewrite AddtoTokens_bind; [done|]. simpl. rewrite length_insert. lia.
    + rewrite (proj2 (Z.eqb_neq _ _)) by (simpl; lia).
      rewrite (bool_decide_false (y :: b = [])) in * by done. simpl in Hl.
      simpl app. rewrite !fits_cons, fits_nil.
      rewrite bind_assoc, AddtoTokens_bind by lia. case_decide; [|done].
      rewrite bind_assoc, AddtoTokens_bind by (simpl; rewrite length_insert; lia). case_decide; [|done].
      rewrite bind_assoc, bind_ret, (strsep_none _ Hb).
      rewrite AddtoTokens_bind; [done|]. simpl. rewrite !length_insert. lia.
Qed.

(** The words of a line become tokens, each a copy. *)
Lemma words_lex fuel c toks s :
  (length c + 1 < fuel)%nat -> lex c = Some toks ->
  (TokenNum s + length toks <= length (Tokens s))%nat ->
  words h fuel (Some c) s
  = if decide (Forall (fits h) toks) then end_command h (add_tokens toks s) else Stuck.
Proof.
  revert c toks s. induction fuel as [|fuel IH]; intros c toks s Hf Hlex Hl; [lia|]. cbn [words].
  pose proof (strsep_pieces c) as Hp. unfold lex in Hlex. destruct (strsep c blanks) as [t rest].
  assert (exists a b, lex_word t = Some a /\ toks = a ++ b /\
    forall s, (TokenNum s + length b <= length (Tokens s))%nat -> words h fuel rest s
      = if decide (Forall (fits h) b) then end_command h (add_tokens b s) else Stuck)
    as (a & b & Ha & -> & Hrest).
  { destruct rest as [r|]; destruct Hp as [Hp Hlen]; rewrite Hp in Hlex; simpl in Hlex.
    - destruct (lex_word t) as [a|]; [|done]. destruct (lex_words (pieces r)) as [b|] eqn:Eb; [|done].
      exists a, b. injection Hlex as <-. split_and!; [done..|]. intros s1 Hs1. apply IH; [lia|done|done].
    - destruct (lex_word t) as [a|]; [|done]. exists a, []. injection Hlex as <-. split_and!; [done..|].
      intros s1 Hs1. rewrite fits_nil. destruct fuel; [lia|done]. }
  rewrite length_app in Hl. clear Hp.
  assert (forall s, (TokenNum s + length (a ++ b) <= length (Tokens s))%nat ->
    (if decide (Forall (fits h) a) then words h fuel rest (add_tokens a s) else Stuck)
    = if decide (Forall (fits h) (a ++ b)) then end_command h (add_tokens (a ++ b) s) else Stuck) as Hadd.
  { intros s1 Hs1. rewrite length_app in Hs1. rewrite fits_app.
    destruct (decide (Forall (fits h) a)); [|done]. unfold add_tokens at 2. rewrite foldl_app. apply Hrest.
    destruct (add_tokens_fields a s1) as (-> & -> & _). lia. }
  unfold lex_word in Ha. unfold Have. rewrite Have_strsep by lia.
  pose proof (strsep_app t) as Ht. destruct (strsep t [62]) as [x [y|]] eqn:E.
  - destruct (bool_decide (62 ∈ y)) eqn:Ey; [done|]. apply bool_decide_eq_false in Ey.
    assert (nonempty x ++ [lit ">"] ++ nonempty y = a) as Ha' by congruence. clear Ha. rename Ha' into Ha.
    destruct Ht as [Et Hx].
    rewrite (bool_decide_false (t = [])) by (rewrite Et; by destruct x).
    destruct (decide (t = lit ">")) as [Egt|Hgt].
    + rewrite bool_decide_true by done. cbn [negb andb].
      assert (x = [] /\ y = []) as [-> ->].
      { rewrite Egt in Et. destruct x as [|z x]; [by injection Et|]. injection Et as _ Et. by destruct x. }
      assert (a = [lit ">"]) as Ea by by rewrite <- Ha. rewrite Ea in *. simpl length in Hl.
      rewrite AddtoTokens_bind by lia. rewrite Egt. rewrite <- (Hadd s) by (simpl; lia).
      by rewrite fits_cons, fits_nil.
    + rewrite bool_decide_false by done. rewrite (proj2 (Z.eqb_neq _ (-1))) by lia. cbn [negb andb].
      rewrite (proj2 (Z.eqb_neq _ (-2))) by lia. rewrite Z.add_0_l.
      rewrite (split_redirect_bind t x y) by (done || (rewrite Ha; lia)). rewrite Ha.
      apply Hadd. rewrite length_app. lia.
  - injection Ha as <-. unfold nonempty in *.
    case_bool_decide as Hnil; [rewrite <- (Hadd s) by done; by rewrite fits_nil|].
    cbn [negb andb Z.eqb]. rewrite andb_false_r.
    rewrite AddtoTokens_bind by (simpl in Hl; lia). rewrite <- (Hadd s) by (rewrite length_app; lia).
    by rewrite fits_cons, fits_nil.
Qed.

(** A command line that holds the tree [c]: its words are copied to [Tokens]. *)
Definition command (c : cmd) : M W unit := fun s =>
  if bool_decide (unparse c = []) then Val () s
  else
    (let! _ := copied h (unparse c) in
     let! _ := eval h c in
     let! s := get id in
     let! arr := Free (Tokens s) (TokenNum s) in
     set_tokens arr 0) (add_tokens (unparse c) s).

Fixpoint commands (cs : list cmd) : M W unit :=
  match cs with
  | [] => ret ()
  | c :: cs => let! _ := command c in commands cs
  end.

Definition line_of (n : nat) (line : str) (c : cmd) : Prop :=
  wf c /\ lex line = Some (unparse c) /\ (length (unparse c) <= n)%nat.

Lemma end_command_tree c s :
  TokenNum s = 0%nat -> wf c -> (length (unparse c) <= length (Tokens s))%nat ->
  (if decide (Forall (fits h) (unparse c)) then end_command h (add_tokens (unparse c) s) else Stuck)
  = command c s.
Proof.
  intros H0 Hc Hl. unfold end_command, command. rewrite bind_get, copied_bind. cbn [id].
  pose proof (add_tokens_taken (unparse c) s) as Ht. rewrite H0 in Ht. simpl in Ht. specialize (Ht Hl).
  destruct (add_tokens_fields (unparse c) s) as (Hn & _). rewrite H0 in Hn. simpl in Hn. rewrite !Hn.
  destruct (decide (length (unparse c) = 0)%nat) as [Hd|Hd].
  - rewrite bool_decide_true by (by apply nil_length_inv). apply nil_length_inv in Hd. by rewrite Hd, fits_nil.
  - rewrite bool_decide_false by (intros E; by rewrite E in Hd). case_decide; [|done].
    unfold bind at 1. rewrite Ht, DoCmd_eval by (done || lia). done.
Qed.

(** What a command does to the shell's input. *)
Lemma command_input c s s' :
  TokenNum s = 0%nat -> wf c -> command c s = Val () s' ->
  TokenNum s' = 0%nat /\ length (Tokens s') = length (Tokens s) /\ CommandLines s' = CommandLines s /\
  LineNum s' = LineNum s.
Proof.
  intros H0 Hc. unfold command. case_match; [by intros [= <-]|]. rewrite copied_bind. case_decide; [|done].
  destruct (add_tokens_fields (unparse c) s) as (Hn & Hl & Hcl & Hln & _).
  unfold bind at 1. destruct (eval h c (add_tokens (unparse c) s)) as [v s1| |] eqn:E; [|done..].
  rewrite <- (DoCmd_eval h c (S (length (unparse c)))) in E by (done || lia).
  apply keeps_DoCmd in E as (E1 & E2 & E3 & E4). rewrite bind_get. cbn [id].
  unfold Free. case_decide; [|done]. unfold of_opt. case_match eqn:Em; [|done].
  intros [= <-]. simpl. pose proof (length_mapM _ _ _ Em) as Hlen.
  split_and!; [done| |congruence..]. rewrite <- Hl, <- E3, length_app, length_drop.
  rewrite length_take in Hlen. lia.
Qed.

Lemma Parsing_from_runs n i lines cs s :
  TokenNum s = 0%nat -> length lines = n -> take n (drop i (CommandLines s)) = live lines ->
  Forall2 (line_of (length (Tokens s))) lines cs ->
  Parsing_from h i n s = commands cs s.
Proof.
  revert i lines cs s. induction n as [|n IH]; intros i lines cs s H0 Hn Hlines Hcs; cbn [Parsing_from].
  { apply nil_length_inv in Hn as ->. apply Forall2_nil_inv_l in Hcs as ->. done. }
  destruct lines as [|line lines]; [done|]. apply Forall2_cons_inv_l in Hcs as (c & cs' & (Hc & Hlex & Hl) & Hcs & ->).
  rewrite bind_get. destruct (drop i (CommandLines s)) as [|x rest] eqn:Ed; [done|].
  rewrite fmap_cons in Hlines. injection Hlines as -> Hlines. injection Hn as Hn.
  assert (CommandLines s !! i = Some (Live line)) as Hi by by rewrite <- (Nat.add_0_r i), <- lookup_drop, Ed.
  unfold token at 1. rewrite Hi, bind_ret. cbn [commands]. unfold bind.
  rewrite (words_lex _ line (unparse c)) by (done || lia). rewrite end_command_tree by done.
  destruct (command c s) as [[] s'| |] eqn:E; [|done..].
  destruct (command_input c s s') as (H0' & HT & HC & HN); [done..|].
  apply (IH (S i) lines); [done|done| |by rewrite HT].
  rewrite HC, <- Hlines. f_equal. by rewrite <- (Nat.add_1_r i), <- drop_drop, Ed.
Qed.

Lemma read_lines_ok lines s :
  (LineNum s + length lines <= length (CommandLines s))%nat ->
  read_lines lines s =
  Val () {| world := world s;
            CommandLines := take (LineNum s) (CommandLines s) ++ live lines ++
              drop (LineNum s + length lines) (CommandLines s);
            LineNum := LineNum s + length lines; Tokens := Tokens s; TokenNum := TokenNum s;
            PATH := PATH s; PathNum := PathNum s |}.
Proof.
  revert s. induction lines as [|line lines IH]; intros s Hl; simpl in *.
  { unfold ret. f_equal. rewrite Nat.add_0_r, take_drop. by destruct s. }
  rewrite bind_get; cbn [id]; rewrite put_bind by lia. unfold bind, set_lines.
  rewrite IH by (simpl; rewrite length_insert; lia). cbn [world LineNum CommandLines Tokens TokenNum PATH PathNum].
  rewrite Nat.add_succ_comm. f_equal. f_equal.
  assert (length (take (LineNum s) (CommandLines s)) = LineNum s) as Hj by (rewrite length_take; lia).
  rewrite insert_take_drop by lia. rewrite take_app_ge, drop_app_ge, Hj by lia.
  replace (S (LineNum s) - LineNum s)%nat with 1%nat by lia.
  replace (LineNum s + S (length lines) - LineNum s)%nat with (S (length lines)) by lia.
  simpl. rewrite take_0, drop_drop, <- app_assoc. simpl. do 4 f_equal. lia.
Qed.

(** The shell when a file of lines is read. *)
Definition loaded (w : W) (lines : list str) : shell W :=
  {| world := w;
     CommandLines := live lines ++ replicate (MaxCommandLen - length lines) Null;
     LineNum := length lines; Tokens := replicate MaxTokenLen Null; TokenNum := 0;
     PATH := Live (lit "/bin") :: replicate 49 Null; PathNum := 1 |}.

(** C17.  A file of up to 1000 lines, each of which holds the words of a
    command of at most 100 tokens, is the evaluation of these commands in
    order, and then the end of [main]; [/bin] and every word are copied, and a
    copy whose block has no byte for its NUL is where the run is [Stuck]. *)
Theorem batch_runs fuel w name lines cs :
  (length name < 50)%nat -> fopen h w name = Some lines -> (length lines <= 1000)%nat ->
  Forall2 (line_of MaxTokenLen) lines cs ->
  main h fuel [name] (start w)
  = (let! _ := copied h [lit "/bin"] in let! _ := commands cs in finish) (loaded w lines).
Proof.
  intros Hname Hopen Hn Hcs. unfold main. rewrite bind_get, dup_bind, copied_bind, fits_cons, fits_nil.
  case_decide; [|done]. rewrite put_bind by (simpl; lia).
  unfold set_path. unfold bind at 1. unfold GetBatchCommands. rewrite decide_False by (unfold MaxFileNameLen; lia).
  rewrite bind_assoc, bind_get. cbn [world start]. rewrite Hopen.
  unfold bind at 1. rewrite read_lines_ok by (simpl; lia).
  cbn [world LineNum CommandLines Tokens TokenNum PATH PathNum start].
  rewrite take_0, Nat.add_0_l, drop_replicate. simpl app.
  change (<[0%nat:=Live (lit "/bin")]> (replicate MaxPathLen Null)) with (Live (lit "/bin") :: replicate 49 Null).
  change (bind (Parsing h) (fun _ => finish) (loaded w lines) = bind (commands cs) (fun _ => finish) (loaded w lines)).
  unfold bind at 1. unfold Parsing. rewrite bind_get. rewrite (Parsing_from_runs _ _ lines cs); [done..| |].
  - simpl. rewrite drop_0. apply take_app_length'. by rewrite length_fmap.
  - exact Hcs.
Qed.
End parsing.

(** ** Writing a line *)

(** A token that is a word of a line by itself. *)
Definition token_ok (t : str) : Prop :=
  t <> [] /\ Forall (fun c => blank c = false) t /\ (t = lit ">" \/ 62 ∉ t).

#[export] Instance token_ok_dec t : Decision (token_ok t).
Proof. unfold token_ok. apply _. Defined.

Definition print_line (toks : list str) : str := concat ((fun t => t ++ [32]) <$> toks) ++ [10].

Lemma pieces_app t c s :
  Forall (fun c => blank c = false) t -> blank c = true -> pieces (t ++ c :: s) = t :: pieces s.
Proof.
  intros Ht Hc. induction Ht as [|x t Hx _ IH]; cbn [app pieces]; [by rewrite Hc|]. by rewrite Hx, IH.
Qed.

Lemma lex_word_ok t : token_ok t -> lex_word t = Some [t].
Proof.
  intros (Hne & _ & [-> |Ht]); [done|]. unfold lex_word. rewrite strsep_none by done.
  unfold nonempty. by rewrite bool_decide_false.
Qed.

(** A [>] inside a word parts it. *)
Lemma lex_word_redirect a b :
  62 ∉ a -> 62 ∉ b -> lex_word (a ++ 62 :: b) = Some (nonempty a ++ [lit ">"] ++ nonempty b).
Proof.
  intros Ha Hb. unfold lex_word.
  assert (strsep (a ++ 62 :: b) [62] = (a, Some b)) as ->.
  { induction a as [|x a IH]; [done|]. apply not_elem_of_cons in Ha as [Hx Ha]. cbn [app strsep existsb].
    rewrite (proj2 (Z.eqb_neq x 62)) by done. cbn [orb]. by rewrite IH. }
  by rewrite bool_decide_false.
Qed.

(** Tokens written with blanks between them are read back as they are. *)
Lemma lex_print toks : Forall token_ok toks -> lex (print_line toks) = Some toks.
Proof.
  unfold lex, print_line. induction 1 as [|t toks Ht _ IH]; [done|]. pose proof Ht as (_ & Hb & _).
  rewrite fmap_cons. simpl concat. rewrite <- !app_assoc. simpl app. rewrite pieces_app by done.
  cbn [lex_words]. rewrite lex_word_ok by done. by rewrite IH.
Qed.

(** Tokens written on a line with blanks between them come out of it as
    they are: reading the line adds copies of exactly these to the tokens there
    are and then runs the command. *)
Theorem words_print {W} (h : host W) toks s :
  Forall token_ok toks -> (TokenNum s + length toks <= length (Tokens s))%nat ->
  words h (2 + length (print_line toks)) (Some (print_line toks)) s
  = (let! _ := copied h toks in end_command h) (add_tokens toks s).
Proof. intros Ht Hl. rewrite copied_bind. apply words_lex; [lia|by apply lex_print|done]. Qed.

(** ** Runs that go wrong *)

(** The bytes of a block of [malloc(n)] that can be written, on a 64-bit machine
    with the GNU C library: chunks are multiples of 16 bytes, 8 of which are its
    own, and have 24 for the program at least. *)
Definition glibc_room (n : nat) : nat := Nat.max 24 ((n + 23) / 16 * 16 - 8).

Definition on_glibc {W} (h : host W) : host W :=
  {| room := glibc_room; chdir := chdir h; access := access h; fork := fork h; open := open h;
     execv := execv h; strerror := strerror h; emit := emit h; getline := getline h;
     fopen := fopen h |}.

Section faults.
Context {W : Type} (h : host W).

(** Where a block is no longer than what was asked for, the program overruns
    its first one. *)
Lemma exact_room_stuck fuel argv w : (forall n, room h n = n) -> main h fuel argv (start w) = Stuck.
Proof.
  intros Hroom. unfold main. rewrite bind_get, dup_bind, decide_False; [done|].
  unfold fits. rewrite Hroom. lia.
Qed.

(** On the GNU C library it is the words of 24, 40, 56, ... bytes. *)
Lemma word_of_24_stuck w : Parsing (on_glibc h) (loaded w [replicate 24 97]) = Stuck.
Proof. reflexivity. Qed.

(** After a word with two [>] the tokens are freed but still counted: the next
    command looks at them. *)
Lemma double_redirect_stuck w : Parsing (on_glibc h) (loaded w [lit "ls a>>b"; lit "ls"]) = Stuck.
Proof. reflexivity. Qed.

(** The end of [main] frees as many entries of [PATH] as there were lines. *)
Lemma path_freed_twice w :
  (let! _ := Parsing (on_glibc h) in finish) (loaded w [lit "path a b"; lit "path c"]) = Stuck.
Proof. vm_compute. reflexivity. Qed.

(** With another [if] on either side, the comparison of the right one is taken
    for that of the whole: nothing runs. *)
Lemma two_sided_if s :
  let l := unparse (IfThen (IfThen (Simple [lit "a"]) true (lit "1") (Simple [lit "b"])) true (lit "2")
                           (IfThen (Simple [lit "c"]) true (lit "3") (Simple [lit "d"]))) in
  DoCmd (on_glibc h) 20 (live l) (length l) s = Error (on_glibc h) s.
Proof. reflexivity. Qed.

(** The path of a program has 40 bytes. *)
Lemma long_name_stuck w : child (on_glibc h) (live [replicate 36 97]) 1 (loaded w []) = Stuck.
Proof. reflexivity. Qed.
End faults.

(** ** Witnesses *)

Definition quiet : host unit :=
  {| room := glibc_room; chdir := fun _ _ => ((), true); access := fun _ _ => true; fork := fun _ => ((), true);
     open := fun _ _ => ((), true);
     execv := fun _ _ argv _ => ((), Some (Exit_status (Z.of_nat (length argv))));
     strerror := fun _ => []; emit := fun _ _ _ => (); getline := fun _ => ((), None);
     fopen := fun _ _ => Some [lit "ls -l>out"; lit "if if a == 1 then b fi == 1 then path /x fi"] |}.

Definition small_tree : cmd :=
  IfThen (IfThen (Simple [lit "a"]) true (lit "1") (Simple [lit "b"])) true (lit "1")
         (Simple [lit "path"; lit "/x"]).

Definition small_words : list str := Eval vm_compute in unparse small_tree.

Lemma small_tree_wf : wf small_tree.
Proof. repeat split; try (repeat constructor; reflexivity); discriminate. Qed.

Lemma DoCmd_eval_witness :
  DoCmd quiet 20 (live small_words) 14 (loaded () []) = eval quiet small_tree (loaded () []).
Proof. exact (DoCmd_eval quiet small_tree 20 (loaded () []) small_tree_wf ltac:(vm_compute; lia)). Defined.




Lemma batch_runs_witness :
  main quiet 1 [lit "f"] (start ())
  = (let! _ := copied quiet [lit "/bin"] in
     let! _ := commands quiet [Simple [lit "ls"; lit "-l"; lit ">"; lit "out"]; small_tree] in finish)
      (loaded () [lit "ls -l>out"; lit "if if a == 1 then b fi == 1 then path /x fi"]).
Proof.
  apply (batch_runs quiet 1 () (lit "f")); [vm_compute; lia|reflexivity|vm_compute; lia|].
  apply Forall2_cons; split; [|apply Forall2_cons; split; [|by apply Forall2_nil]].
  - split; [repeat constructor|]. split; [vm_compute; reflexivity|vm_compute; lia].
  - split; [exact small_tree_wf|]. split; [vm_compute; reflexivity|vm_compute; lia].
Defined.

Lemma words_print_witness :
  words quiet (2 + length (print_line small_words)) (Some (print_line small_words)) (loaded () [])
  = (let! _ := copied quiet small_words in end_command quiet) (add_tokens small_words (loaded () [])).
Proof.
  apply (words_print quiet small_words); [|vm_compute; lia].
  apply (bool_decide_unpack _). vm_compute. exact I.
Defined.

End WishThms.
