(* ===== verification/Umalloc.v ===== *)
(** * The user-level allocator (p3b, [umalloc.c])

    The heap is the byte memory of a process: a block starts with a header of
    eight bytes, a pointer and a size in units of eight bytes.  [base] is the
    address of the static header.  [sbrk] is the system call as the process
    sees it ([sys_sbrk] and [growproc]); whether the kernel has the memory is an
    argument.  The loops take fuel: nothing in the code bounds them but the
    shape of the list. *)

From S2P Require Import Prelude DfsImage.
From Stdlib Require Import Sorting.Sorted.
Local Open Scope Z_scope.
Local Open Scope xv6_scope.

Module Umalloc.

(** The two static variables, the memory, and the end of the process as the
    kernel has it ([sz]). *)
Record heap := { mem : bytes; freep : Z; brk : Z }.

Definition KERNBASE : Z := 2 ^ 31.

Definition ptr (m : bytes) (p : Z) : Z := u32 (word32 m p).
Definition size (m : bytes) (p : Z) : Z := u32 (word32 m (p + 4)).
Definition set_ptr (m : bytes) (p v : Z) : bytes := put32 m p v.
Definition set_size (m : bytes) (p v : Z) : bytes := put32 m (p + 4) v.

Definition sizeof_Header : Z := 8.

(** [p + n] for a [Header *p]. *)
Definition plus (p n : Z) : Z := u32 (p + sizeof_Header * n).

Lemma elem_mid {A} (x : A) l1 l2 : x ∈ l1 ++ x :: l2.
Proof. apply elem_of_app. right. apply list_elem_of_here. Qed.

Section umalloc.
Context (base : Z).

(** The search of [free] for the block before [bp]. *)
Fixpoint find_place (fuel : nat) (m : bytes) (bp p : Z) : outcome Z :=
  match fuel with
  | O => Fault
  | S fuel =>
      let nxt := ptr m p in
      if (p <? bp) && (bp <? nxt) then Ret p
      else if (nxt <=? p) && ((p <? bp) || (bp <? nxt)) then Ret p
      else find_place fuel m bp nxt
  end.

(** The two tests that join neighbours. *)
Definition join_next (m : bytes) (bp p : Z) : bytes :=
  let nxt := ptr m p in
  if plus bp (size m bp) =? nxt then
    let m := set_size m bp (size m bp + size m nxt) in
    set_ptr m bp (ptr m (ptr m p))
  else set_ptr m bp nxt.

Definition join_prev (m : bytes) (bp p : Z) : bytes :=
  if plus p (size m p) =? bp then
    let m := set_size m p (size m p + size m bp) in
    set_ptr m p (ptr m bp)
  else set_ptr m p bp.

Definition free (fuel : nat) (h : heap) (ap : Z) : outcome heap :=
  let bp := plus ap (-1) in
  let* p := find_place fuel (mem h) bp (freep h) in
  let m := join_next (mem h) bp p in
  let m := join_prev m bp p in
  Ret {| mem := m; freep := p; brk := brk h |}.

(** The old end of the process, or -1. *)
Definition sbrk (avail : bool) (h : heap) (n : Z) : heap * Z :=
  let newsz := u32 (brk h + n) in
  if 0 <? n then
    if (KERNBASE <=? newsz) || negb avail then (h, 2 ^ 32 - 1)
    else ({| mem := mem h; freep := freep h; brk := newsz |}, brk h)
  else if n <? 0 then
    let newsz := if brk h <=? newsz then brk h else newsz in
    if newsz =? 0 then (h, 2 ^ 32 - 1)
    else ({| mem := mem h; freep := freep h; brk := newsz |}, brk h)
  else (h, brk h).

(** [freep] when memory was given, else 0. *)
Definition morecore (avail : bool) (fuel : nat) (h : heap) (nu : Z) : outcome (heap * Z) :=
  let nu := if nu <? 4096 then 4096 else nu in
  let (h, p) := sbrk avail h (s32 (u32 (nu * sizeof_Header))) in
  if p =? 2 ^ 32 - 1 then Ret (h, 0)
  else
    let h := {| mem := set_size (mem h) p nu; freep := freep h; brk := brk h |} in
    let* h := free fuel h (plus p 1) in
    Ret (h, freep h).

(** What [malloc] does with a block that is large enough. *)
Definition take_block (m : bytes) (prevp p nunits : Z) : bytes * Z :=
  if size m p =? nunits then (set_ptr m prevp (ptr m p), p)
  else
    let m := set_size m p (size m p - nunits) in
    let p := plus p (size m p) in
    (set_size m p nunits, p).

Fixpoint search (avail : bool) (fuel : nat) (h : heap) (nunits prevp p : Z) : outcome (heap * Z) :=
  match fuel with
  | O => Fault
  | S fuel' =>
      if nunits <=? size (mem h) p then
        let (m, p) := take_block (mem h) prevp p nunits in
        Ret ({| mem := m; freep := prevp; brk := brk h |}, plus p 1)
      else if p =? freep h then
        let* (h, p) := morecore avail fuel h nunits in
        if p =? 0 then Ret (h, 0) else search avail fuel' h nunits p (ptr (mem h) p)
      else search avail fuel' h nunits p (ptr (mem h) p)
  end.

Definition units (nbytes : Z) : Z :=
  u32 (u32 (nbytes + sizeof_Header - 1) / sizeof_Header + 1).

Definition malloc (avail : bool) (fuel : nat) (h : heap) (nbytes : Z) : outcome (heap * Z) :=
  let nunits := units nbytes in
  let h := if freep h =? 0 then
             {| mem := set_size (set_ptr (mem h) base base) base 0; freep := base; brk := brk h |}
           else h in
  search avail fuel h nunits (freep h) (ptr (mem h) (freep h)).

(** ** The shape of the heap *)

(** The blocks of the heap by address: header, size in units, and whether the
    block is free. *)
Implicit Types (B : list (Z * Z * bool)) (h : heap) (m : bytes).

Definition addr (b : Z * Z * bool) : Z := b.1.1.
Definition len (b : Z * Z * bool) : Z := b.1.2.
Definition is_free (b : Z * Z * bool) : bool := b.2.

(** The blocks lie in order between [lo] and [hi]. *)
Fixpoint layout (lo : Z) B (hi : Z) : Prop :=
  match B with
  | [] => lo <= hi
  | (a, n, _) :: B => lo <= a /\ 1 <= n /\ layout (a + 8 * n) B hi
  end.

Definition frees B : list Z := addr <$> filter (fun b => is_free b = true) B.

(** The pointers lead through the blocks of [l] in order, and then to [e]. *)
Fixpoint linked m (l : list Z) (e : Z) : Prop :=
  match l with
  | [] => True
  | p :: l => ptr m p = hd e l /\ linked m l e
  end.

Record inv h B : Prop := {
  iv_base : 0 < base;
  iv_layout : layout (base + 8) B (brk h);
  iv_brk : brk h <= KERNBASE;
  iv_size : forall b, b ∈ B -> size (mem h) (addr b) = len b;
  iv_base_size : size (mem h) base = 0;
  iv_chain : linked (mem h) (base :: frees B) base;
  iv_freep : freep h ∈ base :: frees B
}.

Lemma layout_app lo B1 B2 hi :
  layout lo (B1 ++ B2) hi <-> exists mid, layout lo B1 mid /\ layout mid B2 hi.
Proof.
  revert lo. induction B1 as [|[[a n] f] B1 IH]; intros lo; simpl.
  - split; [intros; by exists lo|]. intros (mid & ? & H). revert H. generalize dependent mid.
    intros mid Hm. destruct B2 as [|[[a n] f] B2]; simpl; [lia|]. intros (? & ? & ?). split_and!; [lia|lia|done].
  - rewrite IH. split; [intros (? & ? & mid & ? & ?)|intros (mid & (? & ? & ?) & ?)]; eauto 10.
Qed.

Lemma layout_le lo B hi : layout lo B hi -> lo <= hi.
Proof.
  revert lo. induction B as [|[[a n] f] B IH]; simpl; [done|]. intros lo (? & ? & ?%IH). lia.
Qed.

Lemma layout_weaken lo lo' B hi hi' : lo' <= lo -> hi <= hi' -> layout lo B hi -> layout lo' B hi'.
Proof.
  revert lo lo'. induction B as [|[[a n] f] B IH]; simpl; intros lo lo' ? ?; [lia|].
  intros (? & ? & HB). split_and!; [lia|lia|]. by eapply IH; [| |exact HB].
Qed.

Lemma layout_in lo B hi b : layout lo B hi -> b ∈ B -> lo <= addr b /\ 1 <= len b /\ addr b + 8 * len b <= hi.
Proof.
  intros HB Hb. apply list_elem_of_split in Hb as (B1 & B2 & ->).
  apply layout_app in HB as (mid & H1 & H2). destruct b as [[a n] f]. simpl in *.
  destruct H2 as (? & ? & H2). apply layout_le in H1, H2. unfold addr, len. simpl. lia.
Qed.

(** Different blocks do not overlap. *)
Lemma layout_disjoint lo B hi b1 b2 :
  layout lo B hi -> b1 ∈ B -> b2 ∈ B -> b1 <> b2 ->
  addr b1 + 8 * len b1 <= addr b2 \/ addr b2 + 8 * len b2 <= addr b1.
Proof.
  revert lo. induction B as [|[[a n] f] B IH]; intros lo HB H1 H2 Hne; [by apply elem_of_nil in H1|].
  simpl in HB. destruct HB as (_ & _ & HB).
  apply elem_of_cons in H1 as [->|H1], H2 as [->|H2]; [done| | |by apply (IH (a + 8 * n))].
  - left. apply (layout_in _ _ _ b2 HB) in H2 as (? & _). unfold addr, len in *. simpl. lia.
  - right. apply (layout_in _ _ _ b1 HB) in H1 as (? & _). unfold addr, len in *. simpl. lia.
Qed.

Lemma frees_app B1 B2 : frees (B1 ++ B2) = frees B1 ++ frees B2.
Proof. unfold frees. by rewrite filter_app, fmap_app. Qed.

Lemma frees_in B q : q ∈ frees B <-> exists n, (q, n, true) ∈ B.
Proof.
  unfold frees. rewrite list_elem_of_fmap. setoid_rewrite list_elem_of_filter. split.
  - intros ([[a n] f] & -> & Hf & Hb). exists n. unfold is_free in Hf. simpl in *. by subst.
  - intros (n & Hb). by exists (q, n, true).
Qed.

Lemma linked_app m l1 l2 e : linked m (l1 ++ l2) e <-> linked m l1 (hd e l2) /\ linked m l2 e.
Proof.
  induction l1 as [|p l1 IH]; simpl; [tauto|]. rewrite IH.
  replace (hd e (l1 ++ l2)) with (hd (hd e l2) l1) by by destruct l1. tauto.
Qed.

Lemma linked_ext m m' l e : (forall q, q ∈ l -> ptr m' q = ptr m q) -> linked m l e -> linked m' l e.
Proof.
  induction l as [|p l IH]; simpl; [done|]. intros Hq [H1 H2].
  rewrite Hq by apply list_elem_of_here. split; [done|]. apply IH; [|done]. intros q Hin. apply Hq. by right.
Qed.

(** Headers are words in memory. *)
Lemma ptr_set_ptr m p v : is_u32 v -> ptr (set_ptr m p v) p = v.
Proof. intros. unfold ptr, set_ptr. rewrite word32_put32_eq, u32_s32. by apply u32_small. Qed.

Lemma size_set_size m p v : is_u32 v -> size (set_size m p v) p = v.
Proof. intros. unfold size, set_size. rewrite word32_put32_eq, u32_s32. by apply u32_small. Qed.

Lemma ptr_set_ptr_ne m p q v : q + 4 <= p \/ p + 4 <= q -> ptr (set_ptr m p v) q = ptr m q.
Proof. intros. unfold ptr, set_ptr. by rewrite word32_put32_ne by lia. Qed.

Lemma ptr_set_size m p q v : q <= p \/ p + 8 <= q -> ptr (set_size m p v) q = ptr m q.
Proof. intros. unfold ptr, set_size. by rewrite word32_put32_ne by lia. Qed.

Lemma size_set_ptr m p q v : q + 8 <= p \/ p <= q -> size (set_ptr m p v) q = size m q.
Proof. intros. unfold size, set_ptr. by rewrite word32_put32_ne by lia. Qed.

Lemma size_set_size_ne m p q v : q + 4 <= p \/ p + 4 <= q -> size (set_size m p v) q = size m q.
Proof. intros. unfold size, set_size. by rewrite word32_put32_ne by lia. Qed.

Lemma ptr_range m p : is_u32 (ptr m p).
Proof. apply u32_range. Qed.

(** Two memories with the same bytes in the headers' places have the same headers. *)
Lemma same_header m m' p :
  (forall x, p <= x < p + 8 -> m' x = m x) -> ptr m' p = ptr m p /\ size m' p = size m p.
Proof.
  intros Hx. unfold ptr, size. split; f_equal; apply word32_ext; intros; apply Hx; lia.
Qed.

(** ** The search of [free] *)

(** The list before [bp] and behind it. *)
Lemma find_up m bp F2 F1 p fuel :
  linked m (p :: F1 ++ F2) base -> base < bp -> base <= p < bp -> StronglySorted Z.lt (p :: F1) ->
  Forall (fun q => q < bp) F1 -> Forall (fun q => bp < q) F2 -> (length F1 < fuel)%nat ->
  find_place fuel m bp p = Ret (List.last (p :: F1) 0).
Proof.
  intros Hp Hbase. revert p fuel Hp. induction F1 as [|x F1 IH]; intros p fuel [Hp Hl] Hpb Hs H1 H2 Hf;
    (destruct fuel as [|fuel]; [simpl in Hf; lia|]); cbn [find_place]; simpl app in *; rewrite Hp.
  - simpl List.last. destruct F2 as [|y F2]; simpl hd.
    + destruct (Z.ltb_spec p bp); [|lia]. destruct (Z.ltb_spec bp base); [lia|].
      by destruct (Z.leb_spec base p); [|lia].
    + apply Forall_cons in H2 as [Hy _]. destruct (Z.ltb_spec p bp); [|lia].
      by destruct (Z.ltb_spec bp y); [|lia].
  - simpl hd. apply Forall_cons in H1 as [Hxb H1]. apply StronglySorted_inv in Hs as [Hs Hx].
    apply Forall_cons in Hx as [Hx _].
    destruct (Z.ltb_spec bp x); [lia|]. rewrite andb_false_r.
    destruct (Z.leb_spec x p); [lia|]. cbn [andb].
    rewrite IH; [done|done|lia|done..|simpl in Hf; lia].
Qed.

Lemma find_down m bp F p fuel :
  linked m (p :: F) base -> base < bp < p -> StronglySorted Z.lt (p :: F) ->
  find_place (length F + S fuel) m bp p = find_place fuel m bp base.
Proof.
  revert p. induction F as [|x F IH]; intros p [Hp Hl] Hb Hs; cbn [length Nat.add find_place]; rewrite Hp;
    simpl hd; (destruct (Z.ltb_spec p bp); [lia|]); cbn [andb orb].
  - destruct (Z.ltb_spec bp base); [lia|]. by rewrite andb_false_r.
  - apply StronglySorted_inv in Hs as [Hs Hx]. apply Forall_cons in Hx as [Hx _].
    destruct (Z.leb_spec x p); [lia|]. cbn [andb]. apply IH; [done|lia|done].
Qed.

Lemma layout_frees lo B hi : layout lo B hi -> StronglySorted Z.lt (frees B) /\ Forall (fun q => lo <= q < hi) (frees B).
Proof.
  revert lo. induction B as [|[[a n] f] B IH]; intros lo; simpl.
  { intros _. split; constructor. }
  intros (Ha & Hn & HB). apply layout_le in HB as Hle. apply IH in HB as [Hs Hf].
  assert (Forall (fun q => lo <= q < hi) (frees B)) as Hf'
    by (eapply Forall_impl; [exact Hf|]; simpl; lia).
  unfold frees in *. rewrite filter_cons. case_decide; [|done]. simpl. split.
  - constructor; [done|]. eapply Forall_impl; [exact Hf|]. unfold addr. simpl. lia.
  - constructor; [unfold addr; simpl; lia|done].
Qed.

Lemma sorted_app_r (l1 l2 : list Z) : StronglySorted Z.lt (l1 ++ l2) -> StronglySorted Z.lt l2.
Proof. induction l1 as [|x l1 IH]; [done|]. intros [Hs _]%StronglySorted_inv. auto. Qed.

Lemma last_app_cons (l1 : list Z) x l2 : List.last (l1 ++ x :: l2) 0 = List.last (x :: l2) 0.
Proof. induction l1 as [|y l1 IH]; [done|]. rewrite <- IH. simpl. by destruct (l1 ++ x :: l2) eqn:E; [destruct l1|]. Qed.

(** The free block before a block that is in use. *)
Definition pred (A : list (Z * Z * bool)) : Z := List.last (base :: frees A) 0.

Lemma place_ok h A bp n C fuel :
  inv h (A ++ (bp, n, false) :: C) -> (2 * length (A ++ C) + 2 < fuel)%nat ->
  find_place fuel (mem h) bp (freep h) = Ret (pred A).
Proof.
  intros [Hb Hlay Hhi _ _ Hch Hfp] Hf. apply layout_app in Hlay as (mid & HA & HC). simpl in HC.
  destruct HC as (Hmid & Hn & HC). apply layout_le in HA as HleA.
  apply layout_frees in HA as [HsA HfA], HC as [HsC HfC].
  rewrite frees_app in Hch, Hfp. change (frees ((bp, n, false) :: C)) with (frees C) in Hch, Hfp.
  assert (length (frees A) <= length A /\ length (frees C) <= length C)%nat as [Hla Hlc].
  { unfold frees. rewrite !length_fmap. split; apply length_filter. }
  rewrite length_app in Hf.
  assert (StronglySorted Z.lt (base :: frees A)) as HsbA.
  { constructor; [done|]. eapply Forall_impl; [exact HfA|]. simpl. lia. }
  assert (Forall (fun q => q < bp) (frees A)) as HA' by (eapply Forall_impl; [exact HfA|]; simpl; lia).
  assert (Forall (fun q => bp < q) (frees C)) as HC' by (eapply Forall_impl; [exact HfC|]; simpl; lia).
  assert (forall fuel, (length (frees A) < fuel)%nat -> find_place fuel (mem h) bp base = Ret (pred A)) as Hbase.
  { intros fuel' Hf'. apply (find_up _ _ (frees C)); [done|lia|lia|done|done|done|lia]. }
  apply elem_of_cons in Hfp as [-> |Hfp]; [apply Hbase; lia|].
  apply elem_of_app in Hfp as [Hin|Hin]; apply list_elem_of_split in Hin as (X & Y & E).
  - rewrite E in *. rewrite <- app_assoc in Hch. change (base :: X ++ (freep h :: Y) ++ frees C) with
      ((base :: X) ++ freep h :: Y ++ frees C) in Hch. apply linked_app in Hch as [_ Hch].
    unfold pred. rewrite E. change (base :: X ++ freep h :: Y) with ((base :: X) ++ freep h :: Y).
    apply Forall_app in HA' as [_ HA']. apply Forall_cons in HA' as [Hfb HA'].
    apply Forall_app in HfA as [_ HfA]. apply Forall_cons in HfA as [Hfa HfA].
    rewrite (find_up _ _ (frees C) Y); [|done|lia|lia| |done|done|rewrite length_app in Hla; simpl in Hla; lia].
    + by rewrite last_app_cons.
    + by apply (sorted_app_r (base :: X)).
  - rewrite E in *. rewrite app_assoc in Hch. change (base :: (frees A ++ X) ++ freep h :: Y) with
      ((base :: frees A ++ X) ++ freep h :: Y) in Hch. apply linked_app in Hch as [_ Hch].
    apply Forall_app in HC' as [_ HC']. apply Forall_cons in HC' as [Hfb HC'].
    rewrite length_app in Hlc. simpl in Hlc.
    replace fuel with (length Y + S (fuel - length Y - 1))%nat by lia.
    rewrite (find_down _ _ Y); [apply Hbase; lia|done|lia|by apply (sorted_app_r X)].
Qed.
(** ** What [free] does *)

Definition live B : list (Z * Z * bool) := filter (fun b => is_free b = false) B.

Lemma live_app B1 B2 : live (B1 ++ B2) = live B1 ++ live B2.
Proof. apply filter_app. Qed.

(** The bytes of the blocks in use are those of [m]. *)
Definition untouched B m m' : Prop :=
  forall b x, b ∈ live B -> addr b <= x < addr b + 8 * len b -> m' x = m x.

Lemma live_in b B : b ∈ live B <-> b ∈ B /\ is_free b = false.
Proof. unfold live. rewrite list_elem_of_filter. tauto. Qed.

(** [m'] has the bytes of [m] but for the headers at the addresses of [l]. *)
Definition only (l : list Z) m m' : Prop := forall x, (forall p, p ∈ l -> x < p \/ p + 8 <= x) -> m' x = m x.

Lemma only_refl l m : only l m m.
Proof. by intros x _. Qed.

Lemma only_compose l m1 m2 m3 : only l m1 m2 -> only l m2 m3 -> only l m1 m3.
Proof. intros H1 H2 x Hx. by rewrite H2, H1. Qed.

Lemma only_set_ptr p l m v : p ∈ l -> only l m (set_ptr m p v).
Proof. intros Hp x Hx. specialize (Hx p Hp). apply put32_out. lia. Qed.

Lemma only_set_size p l m v : p ∈ l -> only l m (set_size m p v).
Proof. intros Hp x Hx. specialize (Hx p Hp). apply put32_out. lia. Qed.

Lemma only_header l m m' q : only l m m' -> (forall p, p ∈ l -> q + 8 <= p \/ p + 8 <= q) ->
  ptr m' q = ptr m q /\ size m' q = size m q.
Proof.
  intros Ho Hq. apply same_header. intros x Hx. apply Ho. intros p Hp. specialize (Hq p Hp). lia.
Qed.

Lemma plus_small p n : 0 <= p + 8 * n < 2 ^ 32 -> plus p n = p + 8 * n.
Proof. intros. unfold plus, sizeof_Header. by apply u32_small. Qed.

(** The first free block that starts right behind [bp] is the next block. *)
Lemma adjacent lo C hi : layout lo C hi -> hd base (frees C) = lo -> base < lo ->
  exists n C', C = (lo, n, true) :: C'.
Proof.
  intros HC Hhd Hb. destruct C as [|[[a n] f] C]; simpl in *; [unfold frees in Hhd; simpl in Hhd; lia|].
  destruct HC as (Ha & Hn & HC). destruct f.
  - change (a = lo) in Hhd. subst a. by exists n, C.
  - change (hd base (frees C) = lo) in Hhd. apply layout_frees in HC as [_ HC].
    destruct (frees C) as [|y F]; simpl in Hhd; [lia|]. apply Forall_cons in HC as [HC _]. lia.
Qed.

Lemma join_next_ok m bp n C hi p :
  layout (bp + 8 * n) C hi -> 1 <= n -> hi < 2 ^ 32 -> 0 < base -> base + 8 <= bp -> 0 <= p ->
  p + 8 <= bp -> size m bp = n -> ptr m p = hd base (frees C) -> linked m (frees C) base ->
  (forall b, b ∈ C -> size m (addr b) = len b) ->
  let m1 := join_next m bp p in
  exists n1 C1, n <= n1 /\ (length C1 <= length C)%nat /\ layout (bp + 8 * n1) C1 hi /\ live C1 = live C /\ only [bp] m m1 /\
    size m1 bp = n1 /\ linked m1 (bp :: frees C1) base /\ (forall b, b ∈ C1 -> size m1 (addr b) = len b).
Proof.
  intros HC Hn Hhi Hb0 Hb Hp0 Hp Hsz Hptr Hl Hs m1. pose proof (layout_le _ _ _ HC) as Hle.
  assert (forall l' m', only [bp] m m' -> Forall (fun q => bp + 8 <= q) l' -> linked m l' base -> linked m' l' base)
    as Hkeep.
  { intros l' m' Ho Hf. apply linked_ext. intros q Hq. rewrite Forall_forall in Hf. specialize (Hf q Hq).
    apply (only_header [bp] m m' q Ho). intros x ->%list_elem_of_singleton. lia. }
  assert (forall C' m', only [bp] m m' -> layout (bp + 8 * n) C' hi -> (forall b, b ∈ C' -> b ∈ C) ->
    forall b, b ∈ C' -> size m' (addr b) = len b) as Hsizes.
  { intros C' m' Ho HC' Hsub b Hbin. rewrite <- (Hs b) by auto.
    apply (only_header [bp] m m' (addr b) Ho). intros x ->%list_elem_of_singleton.
    pose proof (layout_in _ _ _ _ HC' Hbin). lia. }
  assert (bp ∈ [bp]) as Hin by by apply list_elem_of_singleton.
  unfold m1, join_next. rewrite Hsz, Hptr, plus_small by lia.
  destruct (Z.eqb_spec (bp + 8 * n) (hd base (frees C))) as [E|E].
  - destruct (adjacent _ _ _ HC (eq_sym E)) as (n0 & C' & ->); [lia|].
    simpl in HC. destruct HC as (_ & Hn0 & HC).
    pose proof (layout_le _ _ _ HC). pose proof (layout_frees _ _ _ HC) as [_ HfC].
    change (frees ((bp + 8 * n, n0, true) :: C')) with ((bp + 8 * n) :: frees C') in *. simpl hd in *.
    destruct Hl as [Hpn Hl].
    assert (size m (bp + 8 * n) = n0) as Hsn by (apply (Hs (bp + 8 * n, n0, true)), list_elem_of_here).
    rewrite Hsn.
    rewrite (ptr_set_size m bp p) by lia. rewrite Hptr, ptr_set_size, Hpn by lia.
    set (m' := set_ptr _ _ _).
    assert (only [bp] m m') as Ho.
    { unfold m'. eapply only_compose; [by apply only_set_size|by apply only_set_ptr]. }
    exists (n + n0), C'. split_and!.
    + lia.
    + simpl. lia.
    + by replace (bp + 8 * (n + n0)) with (bp + 8 * n + 8 * n0) by lia.
    + done.
    + done.
    + unfold m'. rewrite size_set_ptr by lia. apply size_set_size. unfold is_u32. lia.
    + split; [unfold m'; rewrite ptr_set_ptr; [done|]; rewrite <- Hpn; apply ptr_range|].
      apply Hkeep; [done| |done]. eapply Forall_impl; [exact HfC|]. simpl. lia.
    + apply Hsizes; [done| |by intros b Hbin; right].
      eapply layout_weaken; [| |exact HC]; lia.
  - assert (only [bp] m (set_ptr m bp (hd base (frees C)))) as Ho by by apply only_set_ptr.
    exists n, C. split_and!; [done || lia..| | |].
    + by rewrite size_set_ptr by lia.
    + split; [rewrite ptr_set_ptr; [done|]; rewrite <- Hptr; apply ptr_range|].
      apply Hkeep; [done| |done]. pose proof (layout_frees _ _ _ HC) as [_ HfC].
      eapply Forall_impl; [exact HfC|]. simpl. lia.
    + by apply Hsizes.
Qed.
(** The free block before [bp], in the list and in the layout. *)
Lemma pred_cases A :
  (frees A = [] /\ pred A = base) \/
  exists A1 k A2, A = A1 ++ (pred A, k, true) :: A2 /\ frees A2 = [].
Proof.
  unfold pred. induction A as [|[[a n] f] A IH] using rev_ind; [by left|].
  rewrite frees_app. destruct f.
  - right. exists A, n, []. split; [|done]. change (frees [(a, n, true)]) with [a].
    rewrite app_comm_cons, List.last_last. done.
  - change (frees [(a, n, false)]) with (@nil Z). rewrite app_nil_r.
    destruct IH as [IH|(A1 & k & A2 & E & H2)]; [by left|]. right.
    exists A1, k, (A2 ++ [(a, n, false)]). rewrite frees_app, H2. split; [|done].
    rewrite E at 1. by rewrite <- app_assoc.
Qed.

Lemma pred_in A C : pred A ∈ base :: frees (A ++ C).
Proof.
  rewrite frees_app, app_comm_cons. apply elem_of_app. left. unfold pred.
  destruct (exists_last (l := base :: frees A)) as (X & y & ->); [done|].
  rewrite List.last_last. apply elem_of_app. right. by apply list_elem_of_singleton.
Qed.

Lemma live_cons b B : live (b :: B) = (if is_free b then [] else [b]) ++ live B.
Proof. unfold live. rewrite filter_cons. by destruct (is_free b). Qed.

Lemma frees_cons b B : frees (b :: B) = (if is_free b then [addr b] else []) ++ frees B.
Proof. unfold frees. rewrite filter_cons. by destruct (is_free b). Qed.

Lemma only_untouched B hi l m m' :
  layout (base + 8) B hi -> only l m m' -> (forall p, p ∈ l -> p ∈ base :: frees B) -> untouched B m m'.
Proof.
  intros HB Ho Hl b x [Hb Hf]%live_in Hx. apply Ho. intros p Hp.
  pose proof (layout_in _ _ _ _ HB Hb).
  apply Hl, elem_of_cons in Hp as [->|(n & Hp)%frees_in]; [lia|].
  assert ((p, n, true) <> b) as Hne by (by intros <-).
  pose proof (layout_in _ _ _ _ HB Hp) as Hpn.
  destruct (layout_disjoint _ _ _ _ _ HB Hp Hb Hne) as [Hd|Hd]; cbv [addr len fst snd] in *; lia.
Qed.

(** Seen from [free], the block it is given is free. *)
Lemma layout_flag lo A a n f f' C hi :
  layout lo (A ++ (a, n, f) :: C) hi -> layout lo (A ++ (a, n, f') :: C) hi.
Proof. rewrite !layout_app. done. Qed.

(** What lies before the place of a block in the list. *)
Lemma pred_split A mid :
  layout (base + 8) A mid -> 0 < base ->
  exists X, base :: frees A = X ++ [pred A] /\ (pred A = base \/ base + 8 <= pred A) /\ pred A + 8 <= mid /\
    (forall q, q ∈ X -> q + 8 <= pred A) /\
    (forall b, b ∈ A -> addr b <> pred A -> addr b + 8 <= pred A \/ pred A + 8 <= addr b).
Proof.
  intros HA Hb. pose proof (layout_le _ _ _ HA).
  destruct (pred_cases A) as [[E0 Ep]|(A1 & k & A2 & EA & HA2)].
  - exists []. rewrite E0, Ep. split_and!; [done|lia|lia|by intros q ?%elem_of_nil|].
    intros b Hbin _. right. pose proof (layout_in _ _ _ _ HA Hbin). lia.
  - set (p := pred A) in *. exists (base :: frees A1).
    rewrite EA in HA. apply layout_app in HA as (mid' & HA1 & HAp). simpl in HAp.
    destruct HAp as (Hp & Hk & HA2'). pose proof (layout_le _ _ _ HA1). pose proof (layout_le _ _ _ HA2').
    split_and!; [|lia|lia| |].
    + rewrite EA, frees_app, frees_cons, HA2. done.
    + intros q [->|(k' & Hin)%frees_in]%elem_of_cons; [lia|].
      pose proof (layout_in _ _ _ _ HA1 Hin) as Hi. cbv [addr len fst snd] in Hi. lia.
    + intros b Hbin Hne. rewrite EA in Hbin. apply elem_of_app in Hbin as [Hbin|[->|Hbin]%elem_of_cons]; [|done|].
      * pose proof (layout_in _ _ _ _ HA1 Hbin). lia.
      * pose proof (layout_in _ _ _ _ HA2' Hbin). lia.
Qed.

(** Between the two joins: the blocks below [bp] and above it, with [bp] not yet
    in the list of those below. *)
Record halves m A (mid bp n : Z) C (hi : Z) : Prop := {
  hv_base : 0 < base;
  hv_hi : hi < 2 ^ 32;
  hv_low : layout (base + 8) A mid;
  hv_mid : mid <= bp;
  hv_len : 1 <= n;
  hv_high : layout (bp + 8 * n) C hi;
  hv_size_low : forall b, b ∈ A -> size m (addr b) = len b;
  hv_size_base : size m base = 0;
  hv_size : size m bp = n;
  hv_size_high : forall b, b ∈ C -> size m (addr b) = len b;
  hv_chain_low : linked m (List.removelast (base :: frees A)) (pred A);
  hv_chain_high : linked m (bp :: frees C) base
}.

Definition joined m A (n : Z) C (hi : Z) m' B : Prop :=
  layout (base + 8) B hi /\ (forall b, b ∈ B -> size m' (addr b) = len b) /\ size m' base = 0 /\
  linked m' (base :: frees B) base /\ pred A ∈ base :: frees B /\ live B = live A ++ live C /\
  only [pred A] m m' /\ (length B <= S (length (A ++ C)))%nat /\ exists q k, (q, k, true) ∈ B /\ n <= k.

Lemma low_kept m m' A mid bp n C hi :
  halves m A mid bp n C hi -> only [pred A] m m' ->
  linked m' (List.removelast (base :: frees A)) (pred A) /\
  (forall b, b ∈ A -> addr b <> pred A -> size m' (addr b) = len b) /\ (pred A <> base -> size m' base = 0).
Proof.
  intros [Hb _ HA _ _ _ HsA Hsb _ _ Hl _] Ho.
  destruct (pred_split A mid HA Hb) as (X & EX & Hp & _ & HX & HAd).
  rewrite EX, List.removelast_last in *.
  assert (forall q, q + 8 <= pred A \/ pred A + 8 <= q -> ptr m' q = ptr m q /\ size m' q = size m q) as Hq.
  { intros q Hq. apply (only_header [pred A]); [done|]. by intros x ->%list_elem_of_singleton. }
  split_and!.
  - eapply linked_ext; [|exact Hl]. intros q Hin%HX. apply Hq. by left.
  - intros b Hbin Hne. rewrite <- (HsA b Hbin). by apply Hq, HAd.
  - intros Hne. rewrite <- Hsb. apply Hq. lia.
Qed.

Lemma high_kept m m' A mid bp n C hi :
  halves m A mid bp n C hi -> only [pred A] m m' ->
  linked m' (bp :: frees C) base /\ size m' bp = n /\ (forall b, b ∈ C -> size m' (addr b) = len b).
Proof.
  intros [Hb _ HA Hmid Hn HC _ _ Hs HsC _ Hl] Ho.
  destruct (pred_split A mid HA Hb) as (X & _ & _ & Hp & _).
  assert (forall q, bp <= q -> ptr m' q = ptr m q /\ size m' q = size m q) as Hq.
  { intros q Hq. apply (only_header [pred A]); [done|]. intros x ->%list_elem_of_singleton. lia. }
  pose proof (layout_frees _ _ _ HC) as [_ HfC]. rewrite Forall_forall in HfC. split_and!.
  - eapply linked_ext; [|exact Hl]. intros q [->|Hin%HfC]%elem_of_cons; apply Hq; lia.
  - rewrite <- Hs. apply Hq. lia.
  - intros b Hbin. rewrite <- (HsC b Hbin). apply Hq. pose proof (layout_in _ _ _ _ HC Hbin). lia.
Qed.

(** The block below ends elsewhere: [bp] becomes a block of the list. *)
Lemma join_apart m A mid bp n C hi :
  halves m A mid bp n C hi ->
  joined m A n C hi (set_ptr m (pred A) bp) (A ++ (bp, n, true) :: C).
Proof.
  intros H. pose proof H as [Hb Hhi HA Hmid Hn HC HsA Hsb _ _ _ _].
  destruct (pred_split A mid HA Hb) as (X & EX & Hp & Hpm & _).
  pose proof (layout_le _ _ _ HC). pose proof (layout_le _ _ _ HA).
  assert (only [pred A] m (set_ptr m (pred A) bp)) as Ho by (apply only_set_ptr; by apply list_elem_of_singleton).
  destruct (low_kept _ _ _ _ _ _ _ _ H Ho) as (HlA & HsA' & Hsb').
  destruct (high_kept _ _ _ _ _ _ _ _ H Ho) as (HlC & Hs & HsC).
  assert (size (set_ptr m (pred A) bp) (pred A) = size m (pred A)) as Hsp by (apply size_set_ptr; lia).
  rewrite EX, List.removelast_last in HlA. split_and!.
  - apply layout_app. exists mid. split; [done|]. simpl. split_and!; [done|lia|done].
  - intros b [Hbin|[->|Hbin]%elem_of_cons]%elem_of_app; [|done|by apply HsC].
    destruct (decide (addr b = pred A)) as [E|]; [|by apply HsA']. rewrite E, Hsp, <- E. by apply HsA.
  - destruct (decide (pred A = base)) as [E|]; [|by apply Hsb']. rewrite <- E at 1. by rewrite Hsp, E.
  - rewrite frees_app, frees_cons, app_comm_cons, EX. apply linked_app. split; [|exact HlC].
    apply linked_app. split; [done|]. split; [|done]. apply ptr_set_ptr. simpl; cbv [is_u32 addr fst]. lia.
  - apply pred_in.
  - by rewrite live_app, live_cons.
  - done.
  - rewrite !length_app. simpl. lia.
  - exists bp, n. split; [apply elem_mid|done].
Qed.

(** The block below ends at [bp]: it grows. *)
Lemma join_grown m A mid bp n C hi :
  halves m A mid bp n C hi -> plus (pred A) (size m (pred A)) = bp ->
  exists B, joined m A n C hi (join_prev m bp (pred A)) B.
Proof.
  intros H E. pose proof H as [Hb Hhi HA Hmid Hn HC HsA Hsb Hs _ _ [Hlbp _]].
  pose proof (layout_le _ _ _ HC). pose proof (layout_le _ _ _ HA).
  unfold join_prev. rewrite E, Z.eqb_refl, Hs. set (m' := set_ptr _ _ _).
  assert (pred A ∈ [pred A]) as Hin by by apply list_elem_of_singleton.
  assert (only [pred A] m m') as Ho by (eapply only_compose; [by apply only_set_size|by apply only_set_ptr]).
  destruct (low_kept _ _ _ _ _ _ _ _ H Ho) as (HlA & HsA' & Hsb').
  destruct (high_kept _ _ _ _ _ _ _ _ H Ho) as (HlC & _ & HsC).
  destruct (pred_split A mid HA Hb) as (X & EX & Hp & Hpm & _).
  destruct (pred_cases A) as [[_ Ep]|(A1 & k & A2 & EA & _)]; [rewrite Ep, Hsb, plus_small in E; lia|].
  unfold joined. set (p := pred A) in *. rewrite EX, List.removelast_last in HlA. rewrite EA in HA, HsA, HsA', EX |- *. clearbody p.
  assert (size m p = k) as Hk by (apply (HsA (p, k, true)), elem_mid).
  apply layout_app in HA as (mid' & HA1 & Hk1 & Hk2 & HA2). pose proof (layout_le _ _ _ HA1). pose proof (layout_le _ _ _ HA2).
  rewrite Hk, plus_small in E by lia.
  assert (A2 = []) as -> by (destruct A2 as [|[[a n'] f] A2]; [done|]; destruct HA2 as (? & ? & ?%layout_le); lia).
  rewrite frees_app, app_comm_cons in EX. apply app_inj_tail in EX as [EX _]. rewrite <- EX in HlA.
  exists (A1 ++ (p, k + n, true) :: C). split_and!.
  - apply layout_app. exists mid'. split; [done|]. simpl. split_and!; [done|lia|].
    by replace (p + 8 * (k + n)) with (bp + 8 * n) by lia.
  - intros b [Hbin|[->|Hbin]%elem_of_cons]%elem_of_app; [|  |by apply HsC].
    + apply HsA'; [apply elem_of_app; by left|]. pose proof (layout_in _ _ _ _ HA1 Hbin). lia.
    + cbv [addr len fst snd]. unfold m'. rewrite size_set_ptr by lia. rewrite Hk. apply size_set_size. unfold is_u32. lia.
  - apply Hsb'. lia.
  - rewrite frees_app, frees_cons, app_comm_cons. apply linked_app. split; [done|]. destruct HlC as [Hlm HlC].
    split; [|done]. unfold m'. rewrite ptr_set_ptr by apply ptr_range. rewrite ptr_set_size by lia. exact Hlbp.
  - rewrite frees_app, frees_cons. right. apply elem_mid.
  - rewrite !live_app, !live_cons. cbn [is_free snd app]. by rewrite app_nil_r.
  - done.
  - rewrite !length_app. simpl. lia.
  - exists p, (k + n). split; [apply elem_mid|lia].
Qed.

Lemma join_prev_ok m A mid bp n C hi :
  halves m A mid bp n C hi -> exists B, joined m A n C hi (join_prev m bp (pred A)) B.
Proof.
  intros H. destruct (decide (plus (pred A) (size m (pred A)) = bp)) as [E|E].
  - by apply join_grown with mid.
  - exists (A ++ (bp, n, true) :: C). unfold join_prev. rewrite (proj2 (Z.eqb_neq _ _)) by done.
    by apply join_apart with mid.
Qed.

(** After the join with the block above. *)
Lemma join_next_halves h A bp n C :
  inv h (A ++ (bp, n, false) :: C) -> let m := join_next (mem h) bp (pred A) in
  exists mid n1 C1, halves m A mid bp n1 C1 (brk h) /\ only [bp] (mem h) m /\ n <= n1 /\
    live C1 = live C /\ (length C1 <= length C)%nat.
Proof.
  intros [Hb Hlay Hbrk Hs Hsb Hch _] m. unfold KERNBASE in Hbrk.
  apply layout_app in Hlay as (mid & HA & HC). simpl in HC. destruct HC as (Hmid & Hn & HC).
  pose proof (layout_le _ _ _ HA). pose proof (layout_le _ _ _ HC).
  destruct (pred_split A mid HA Hb) as (X & EX & Hp & Hpm & HX & _).
  rewrite frees_app, frees_cons, app_comm_cons, EX in Hch. cbn [is_free snd app] in Hch.
  apply linked_app in Hch as [HchA HchC]. apply linked_app in HchA as [HX1 [Hpp _]]. simpl in HX1, Hpp.
  destruct (join_next_ok (mem h) bp n C (brk h) (pred A)) as (n1 & C1 & Hn1 & HlenC & HC1 & HlC & Ho1 & Hs1 & Hl1 & HsC1);
    try done; try lia.
  { apply (Hs (bp, n, false)), elem_mid. }
  { intros b Hbin. apply Hs, elem_of_app. by right; right. }
  assert (forall q, q + 8 <= bp -> ptr m q = ptr (mem h) q /\ size m q = size (mem h) q) as Hq.
  { intros q Hq. apply (only_header [bp]); [done|]. intros x ->%list_elem_of_singleton. lia. }
  exists mid, n1, C1. split_and!; try done. split; try done; [lia|lia| | |].
  - intros b Hbin. rewrite <- (Hs b) by (apply elem_of_app; by left). pose proof (layout_in _ _ _ _ HA Hbin). apply Hq. lia.
  - rewrite <- Hsb. apply Hq. lia.
  - rewrite EX, List.removelast_last. eapply linked_ext; [|exact HX1]. intros q Hin%HX. apply Hq. lia.
Qed.

Lemma free_inv h A bp n C fuel :
  inv h (A ++ (bp, n, false) :: C) -> (2 * length (A ++ C) + 2 < fuel)%nat ->
  exists h' B', free fuel h (bp + 8) = Ret h' /\ inv h' B' /\ brk h' = brk h /\ live B' = live A ++ live C /\
    untouched (A ++ C) (mem h) (mem h') /\ freep h' <> 0 /\
    (length B' <= S (length (A ++ C)))%nat /\ exists q k, (q, k, true) ∈ B' /\ n <= k.
Proof.
  intros Hinv Hf. pose proof (place_ok _ _ _ _ _ _ Hinv Hf) as Hplace.
  destruct (join_next_halves _ _ _ _ _ Hinv) as (mid & n1 & C1 & Hh & Ho1 & Hn1 & HlC & Hlen).
  destruct (join_prev_ok _ _ _ _ _ _ _ Hh) as (B' & HB' & HsB & Hsb & Hl & Hp & Hlive & Ho2 & HlenB & q & k & Hq & Hk).
  destruct Hinv as [Hb Hlay Hbrk _ _ _ _]. pose proof Hbrk as Hbrk'. unfold KERNBASE in Hbrk'.
  assert (base + 8 <= bp /\ 1 <= n /\ bp + 8 * n <= brk h) as Hbp by (apply (layout_in _ _ _ (bp, n, false) Hlay), elem_mid).
  unfold free. rewrite (plus_small (bp + 8)) by lia. replace (bp + 8 + 8 * -1) with bp by lia.
  rewrite Hplace. cbn [obind]. eexists _, B'. split; [done|]. split_and!; cbn [mem freep brk].
  - by split.
  - done.
  - by rewrite Hlive, HlC.
  - intros b x Hbin Hx.
    apply (only_untouched (A ++ (bp, n, true) :: C) (brk h) [pred A; bp]) with b; [by apply layout_flag with false| | | |done].
    + intros y Hy. rewrite Ho2, Ho1; [done| |]; intros z ->%list_elem_of_singleton; apply Hy; set_solver.
    + intros z Hz. pose proof (proj1 (elem_of_cons _ _ _) Hp) as Hp'. rewrite frees_app, frees_cons.
      assert (pred A ∈ base :: frees A) as HpA.
      { destruct (pred_split A mid (hv_low _ _ _ _ _ _ _ Hh) Hb) as (X & -> & _). set_solver. }
      cbn [is_free snd addr fst app]. set_solver.
    + rewrite live_app, live_cons. by rewrite live_app in Hbin.
  - apply elem_of_cons in Hp as [->|(k' & Hin)%frees_in]; [lia|].
    pose proof (layout_in _ _ _ _ HB' Hin) as Hi. cbv [addr fst] in Hi. lia.
  - rewrite length_app in HlenB |- *. lia.
  - exists q, k. split; [done|lia].
Qed.

(** ** What [malloc] does *)

(** The block behind a place in the list. *)
Lemma list_next m L p0 prevp :
  linked m (p0 :: L) base -> prevp ∈ p0 :: L -> ptr m prevp <> base ->
  exists L1 L2, L = L1 ++ ptr m prevp :: L2 /\ List.last (p0 :: L1) 0 = prevp.
Proof.
  revert p0. induction L as [|q L IH]; intros p0 [Hp HL] Hin Hne.
  { apply list_elem_of_singleton in Hin as ->. done. }
  simpl in Hp. apply elem_of_cons in Hin as [->|Hin].
  - rewrite Hp. by exists [], L.
  - destruct (IH q HL Hin Hne) as (L1 & L2 & E & Hl). exists (q :: L1), L2. by rewrite E.
Qed.

Lemma frees_split B L1 q L2 :
  frees B = L1 ++ q :: L2 -> exists A n C, B = A ++ (q, n, true) :: C /\ frees A = L1 /\ frees C = L2.
Proof.
  revert L1. induction B as [|[[a n] f] B IH]; intros L1; rewrite ?frees_cons.
  { by destruct L1. }
  destruct f; cbn [is_free snd addr fst app].
  - destruct L1 as [|x L1]; intros [= -> E]; [by exists [], n, B|].
    destruct (IH _ E) as (A & n' & C & -> & <- & <-). exists ((x, n, true) :: A), n', C. done.
  - intros E. destruct (IH _ E) as (A & n' & C & -> & <- & <-). by exists ((a, n, false) :: A), n', C.
Qed.

Lemma next_block h B prevp :
  inv h B -> prevp ∈ base :: frees B -> ptr (mem h) prevp <> base ->
  exists A n C, B = A ++ (ptr (mem h) prevp, n, true) :: C /\ pred A = prevp.
Proof.
  intros Hinv Hin Hne. destruct (list_next _ _ _ _ (iv_chain _ _ Hinv) Hin Hne) as (L1 & L2 & E & Hl).
  destruct (frees_split _ _ _ _ E) as (A & n & C & -> & <- & _). by exists A, n, C.
Qed.

(** A block of [k] units has been taken: [a] is its header. *)
Definition taken (h : heap) B (k : Z) (h' : heap) (a : Z) : Prop :=
  exists B', inv h' B' /\ brk h' = brk h /\ live B' ≡ₚ (a, k, false) :: live B /\
    untouched B (mem h) (mem h') /\ base + 8 <= a < KERNBASE.

(** A block of the size asked for leaves the list. *)
Lemma take_whole_ok h A p k C :
  let B := A ++ (p, k, true) :: C in
  inv h B ->
  taken h B k {| mem := set_ptr (mem h) (pred A) (ptr (mem h) p); freep := pred A; brk := brk h |} p.
Proof.
  intros B [Hb Hlay Hbrk Hs Hsb Hch _].
  assert (brk h < 2 ^ 32) as Hhi by (unfold KERNBASE in Hbrk; lia).
  pose proof Hlay as Hlay'. unfold B in Hlay'. apply layout_app in Hlay' as (mid & HA & HC). simpl in HC.
  destruct HC as (Hmid & Hn & HC). pose proof (layout_le _ _ _ HA). pose proof (layout_le _ _ _ HC).
  set (pv := pred A) in *.
  destruct (pred_split A mid HA Hb) as (X & EX & Hpv1 & Hpv2 & HX & HAd). fold pv in EX, Hpv1, Hpv2, HX, HAd.
  unfold B in Hch. rewrite frees_app, frees_cons in Hch. cbn [is_free snd addr fst app] in Hch.
  rewrite app_comm_cons, EX in Hch. apply linked_app in Hch as [Hch1 [Hch2 HchC]].
  apply linked_app in Hch1 as [HchX [Hpv _]]. simpl in HchX, Hpv.
  pose proof (layout_frees _ _ _ HC) as [_ HfC].
  set (m' := set_ptr (mem h) pv (ptr (mem h) p)).
  assert (only [pv] (mem h) m') as Ho by (apply only_set_ptr; by apply list_elem_of_singleton).
  assert (forall q, q + 8 <= pv \/ pv + 8 <= q -> ptr m' q = ptr (mem h) q /\ size m' q = size (mem h) q) as Hq.
  { intros q Hq. apply (only_header [pv]); [done|]. by intros x ->%list_elem_of_singleton. }
  assert (layout (base + 8) (A ++ (p, k, false) :: C) (brk h)) as HB' by by apply layout_flag with true.
  exists (A ++ (p, k, false) :: C). split_and!; [split; cbn [mem freep brk]; try done| done | | |lia|lia].
  - intros b Hbin. assert (size (mem h) (addr b) = len b) as Hsb'.
    { apply elem_of_app in Hbin as [Hbin|[->|Hbin]%elem_of_cons]; [apply Hs, elem_of_app; by left|by apply (Hs (p, k, true)), elem_mid|].
      apply Hs, elem_of_app. by right; right. }
    destruct (decide (addr b = pv)) as [E|Hne].
    { rewrite E. unfold m'. rewrite size_set_ptr by lia. by rewrite <- E. }
    transitivity (size (mem h) (addr b)); [apply Hq|done]. apply elem_of_app in Hbin as [Hbin|[->|Hbin]%elem_of_cons].
    + by apply HAd.
    + right. cbv [addr fst]. lia.
    + right. pose proof (layout_in _ _ _ _ HC Hbin). lia.
  - unfold m'. by rewrite size_set_ptr by lia.
  - rewrite frees_app, frees_cons. change (linked m' ((base :: frees A) ++ frees C) base). rewrite EX.
    apply linked_app. split; [apply linked_app; split; [|split; [|done]]|].
    + eapply linked_ext; [|exact HchX]. intros q Hin%HX. apply Hq. by left.
    + simpl. unfold m'. rewrite ptr_set_ptr by apply ptr_range. exact Hch2.
    + eapply linked_ext; [|exact HchC]. intros q Hin. apply Hq. right.
      rewrite Forall_forall in HfC. specialize (HfC q Hin). lia.
  - apply pred_in.
  - unfold B. rewrite !live_app, !live_cons. cbn [is_free snd app]. by rewrite Permutation_middle.
  - apply (only_untouched B (brk h) [pv]); [done|done|]. intros q ->%list_elem_of_singleton. apply pred_in.
Qed.

(** Of a larger one the end is cut off. *)
Lemma take_end_ok h A p n C k :
  let B := A ++ (p, n, true) :: C in
  inv h B -> 1 <= k < n -> let a := p + 8 * (n - k) in
  taken h B k {| mem := set_size (set_size (mem h) p (n - k)) a k; freep := pred A; brk := brk h |} a.
Proof.
  intros B [Hb Hlay Hbrk Hs Hsb Hch _] Hk a.
  assert (brk h < 2 ^ 32) as Hhi by (unfold KERNBASE in Hbrk; lia).
  pose proof Hlay as Hlay'. unfold B in Hlay'. apply layout_app in Hlay' as (mid & HA & HC). simpl in HC.
  destruct HC as (Hmid & Hn & HC). pose proof (layout_le _ _ _ HA). pose proof (layout_le _ _ _ HC).
  set (m1 := set_size (mem h) p (n - k)).
  assert (size m1 p = n - k) as Hs1 by (apply size_set_size; unfold is_u32; lia).
  set (m2 := set_size m1 a k).
  assert (forall q, q <= p \/ p + 8 * n <= q -> ptr m2 q = ptr (mem h) q) as Hptr.
  { intros q Hq. unfold m2, m1. by rewrite !ptr_set_size by lia. }
  assert (forall q, q + 8 <= p \/ p + 8 * n <= q -> size m2 q = size (mem h) q) as Hsize.
  { intros q Hq. unfold m2, m1. by rewrite !size_set_size_ne by lia. }
  set (B' := A ++ (p, n - k, true) :: (a, k, false) :: C).
  assert (frees B' = frees B) as EF by by unfold B, B'; rewrite !frees_app, !frees_cons.
  exists B'. split_and!; [split; cbn [mem freep brk]; try done| done | | |lia|lia].
  - apply layout_app. exists mid. split; [done|]. simpl. split_and!; [lia|lia|lia|lia|].
    by replace (a + 8 * k) with (p + 8 * n) by lia.
  - intros b [Hbin|[->|[->|Hbin]%elem_of_cons]%elem_of_cons]%elem_of_app.
    + pose proof (layout_in _ _ _ _ HA Hbin). rewrite Hsize by lia. apply Hs, elem_of_app. by left.
    + unfold m2. cbv [addr len fst snd]. by rewrite size_set_size_ne by lia.
    + unfold m2. cbv [addr len fst snd]. apply size_set_size. unfold is_u32. lia.
    + pose proof (layout_in _ _ _ _ HC Hbin). rewrite Hsize by lia. apply Hs, elem_of_app. by right; right.
  - rewrite Hsize by lia. done.
  - rewrite EF. eapply linked_ext; [|exact Hch]. intros q [->|Hin]%elem_of_cons; apply Hptr; [lia|].
    unfold B in Hin. rewrite frees_app, frees_cons in Hin. cbn [is_free snd addr fst app] in Hin.
    apply layout_frees in HA as [_ HfA]. apply layout_frees in HC as [_ HfC].
    rewrite Forall_forall in HfA, HfC.
    apply elem_of_app in Hin as [Hin|[->|Hin]%elem_of_cons]; [|lia|].
    + specialize (HfA q Hin). lia.
    + specialize (HfC q Hin). lia.
  - rewrite EF. apply pred_in.
  - unfold B, B'. rewrite !live_app, !live_cons. cbn [is_free snd app]. by rewrite Permutation_middle.
  - intros b x [Hbin Hf]%live_in Hx. assert (x < p \/ p + 8 * n <= x) as Hout.
    { apply elem_of_app in Hbin as [Hbin|[->|Hbin]%elem_of_cons]; [|done|].
      - pose proof (layout_in _ _ _ _ HA Hbin). lia.
      - pose proof (layout_in _ _ _ _ HC Hbin). lia. }
    transitivity (m1 x); apply put32_out; lia.
Qed.

Lemma take_ok h A p n C k :
  let B := A ++ (p, n, true) :: C in
  inv h B -> 1 <= k <= n ->
  let r := take_block (mem h) (pred A) p k in
  taken h B k {| mem := r.1; freep := pred A; brk := brk h |} r.2.
Proof.
  intros B Hinv Hk r. assert (size (mem h) p = n) as Hsp by (apply (iv_size _ _ Hinv (p, n, true)), elem_mid).
  unfold r, take_block. rewrite Hsp. destruct (Z.eqb_spec n k) as [->|Hne]; cbn [fst snd]; [by apply take_whole_ok|].
  pose proof (layout_in _ _ _ (p, n, true) (iv_layout _ _ Hinv) (elem_mid _ _ _)) as Hi. cbv [addr len fst snd] in Hi.
  pose proof (iv_base _ _ Hinv). pose proof (iv_brk _ _ Hinv) as Hbrk. unfold KERNBASE in Hbrk.
  rewrite size_set_size by (unfold is_u32; lia). rewrite plus_small by lia. apply take_end_ok; [done|lia].
Qed.

Lemma linked_size h B q : inv h B -> q ∈ base :: frees B -> 1 <= size (mem h) q ->
  exists n, (q, n, true) ∈ B /\ size (mem h) q = n.
Proof.
  intros Hinv Hq Hs. apply elem_of_cons in Hq as [->|(n & Hq)%frees_in]; [rewrite (iv_base_size _ _ Hinv) in Hs; lia|].
  exists n. split; [done|]. exact (iv_size _ _ Hinv _ Hq).
Qed.

(** A block that is large enough ends the search. *)
Lemma search_fits avail h B k prevp fuel :
  inv h B -> 1 <= k -> prevp ∈ base :: frees B -> k <= size (mem h) (ptr (mem h) prevp) ->
  exists h' a, search avail (S fuel) h k prevp (ptr (mem h) prevp) = Ret (h', a + 8) /\ taken h B k h' a.
Proof.
  intros Hinv Hk Hin Hfit. cbn [search]. rewrite (proj2 (Z.leb_le _ _)) by done.
  destruct (next_block h B prevp Hinv Hin) as (A & n & C & EB & Epv).
  { intros E. rewrite E, (iv_base_size _ _ Hinv) in Hfit. lia. }
  assert (size (mem h) (ptr (mem h) prevp) = n) as Hn.
  { apply (iv_size _ _ Hinv (ptr (mem h) prevp, n, true)). rewrite EB. apply elem_of_app. right.
    apply list_elem_of_here. }
  rewrite EB in Hinv. pose proof (take_ok h A _ n C k Hinv ltac:(lia)) as Ht. cbv zeta in Ht.
  rewrite Epv, <- EB in Ht. destruct (take_block (mem h) prevp (ptr (mem h) prevp) k) as [m a].
  cbn [fst snd] in Ht. exists {| mem := m; freep := prevp; brk := brk h |}, a. split; [|done].
  destruct Ht as (? & _ & _ & _ & _ & Ha). unfold KERNBASE in Ha. pose proof (iv_base _ _ Hinv). rewrite plus_small by lia.
  repeat f_equal; lia.
Qed.

(** The walk of [malloc] along [W] to [freep]: it takes a block, or arrives
    having found none. *)
Lemma search_walk avail h B k W prevp fuel :
  inv h B -> 1 <= k -> prevp ∈ base :: frees B -> linked (mem h) (prevp :: W) (freep h) ->
  Forall (fun q => q <> freep h) W -> (forall q, q ∈ W -> q ∈ base :: frees B) -> (length W < fuel)%nat ->
  (exists h' a, search avail fuel h k prevp (ptr (mem h) prevp) = Ret (h', a + 8) /\ taken h B k h' a) \/
  (Forall (fun q => size (mem h) q < k) (freep h :: W) /\
   exists fuel', (fuel' + length W)%nat = fuel /\
   search avail fuel h k prevp (ptr (mem h) prevp)
   = search avail fuel' h k (List.last (prevp :: W) 0) (freep h)).
Proof.
  intros Hinv Hk. revert prevp fuel. induction W as [|q W IH]; intros prevp fuel Hin [Hp Hl] Hne HW Hf;
    simpl in Hp; (destruct fuel as [|fuel]; [simpl in Hf; lia|]).
  all: destruct (decide (k <= size (mem h) (ptr (mem h) prevp))) as [Hfit|Hfit]; [left; by eapply search_fits|].
  - right. rewrite Hp in Hfit |- *. split; [constructor; [lia|constructor]|]. exists (S fuel). split; [simpl; lia|done].
  - apply Forall_cons in Hne as [Hqne Hne]. rewrite Hp in Hfit |- *.
    cbn [search]. rewrite (proj2 (Z.leb_gt _ _)) by lia. rewrite (proj2 (Z.eqb_neq _ _)) by done.
    destruct (IH q fuel) as [IHl|(Hall & fuel' & Hfuel & E)];
      [apply HW, list_elem_of_here|done|done|by intros; apply HW; right|simpl in Hf; lia|by left|].
    right. apply Forall_cons in Hall as [Hfp Hall]. split; [repeat constructor; (done || lia)|].
    exists fuel'. split; [simpl; lia|]. exact E.
Qed.

(** From [freep] once around the list. *)
Lemma circle h B :
  inv h B -> exists W, linked (mem h) (freep h :: W) (freep h) /\ Forall (fun q => q <> freep h) W /\
    (forall q, q ∈ W -> q ∈ base :: frees B) /\ (forall q, q ∈ base :: frees B -> q ∈ freep h :: W) /\
    (length W <= length B)%nat.
Proof.
  intros [Hb Hlay _ _ _ Hch Hfp].
  assert (StronglySorted Z.lt (base :: frees B)) as Hs.
  { apply layout_frees in Hlay as [Hs Hf]. constructor; [done|]. eapply Forall_impl; [exact Hf|]. simpl. lia. }
  assert (length (frees B) <= length B)%nat as Hlen by (unfold frees; rewrite length_fmap; apply length_filter).
  assert (hd 0 (base :: frees B) = base) as Hhd by done.
  assert (length (base :: frees B) = S (length (frees B))) as Hl by done.
  apply list_elem_of_split in Hfp as (R1 & R2 & E). rewrite E in *. clear E. exists (R2 ++ R1).
  apply linked_app in Hch as [H1 H2]. simpl hd in H1.
  assert (Forall (fun q => q <> freep h) (R2 ++ R1)) as Hne.
  { assert (NoDup (R1 ++ freep h :: R2)) as Hnd.
    { clear -Hs. induction Hs as [|x l Hs IH Hx]; [constructor|]. constructor; [|done].
      intros Hin. rewrite Forall_forall in Hx. specialize (Hx x Hin). lia. }
    apply NoDup_app in Hnd as (_ & Hd & Hnd). apply NoDup_cons in Hnd as [Hn _].
    apply Forall_app. split; apply Forall_forall; intros q Hq ->; [done|]. apply (Hd (freep h) Hq), list_elem_of_here. }
  split_and!.
  - rewrite app_comm_cons. apply linked_app. split; [|done].
    destruct R1 as [|r R1]; simpl in Hhd |- *; subst; [exact H2|exact H2].
  - done.
  - intros q. set_solver.
  - intros q. set_solver.
  - rewrite length_app in *. simpl in Hl. lia.
Qed.

(** More memory makes a block that is large enough. *)
Lemma morecore_ok avail fuel h B k :
  inv h B -> 1 <= k -> 8 * k < 2 ^ 31 -> (2 * length B + 2 < fuel)%nat ->
  morecore avail fuel h k = Ret (h, 0) \/
  exists h' B', morecore avail fuel h k = Ret (h', freep h') /\ freep h' <> 0 /\ inv h' B' /\
    live B' = live B /\ untouched B (mem h) (mem h') /\ brk h <= brk h' /\ (length B' <= S (length B))%nat /\
    exists q n, (q, n, true) ∈ B' /\ k <= n.
Proof.
  intros Hinv Hk Hk8 Hf. unfold morecore. set (nu := if k <? 4096 then 4096 else k).
  assert (k <= nu /\ 8 * nu < 2 ^ 31 /\ 1 <= nu) as (Hnu & Hnu8 & Hnu1)
    by (unfold nu; destruct (Z.ltb_spec k 4096); lia).
  unfold sizeof_Header. rewrite u32_small, s32_small by (unfold is_s32, is_u32; lia).
  pose proof Hinv as [Hb Hlay Hbrk Hs Hsb Hch Hfp]. pose proof (layout_le _ _ _ Hlay). unfold KERNBASE in *.
  unfold sbrk. rewrite u32_small by (unfold is_u32; lia). rewrite (proj2 (Z.ltb_lt 0 _)) by lia.
  unfold KERNBASE. destruct (Z.leb_spec (2 ^ 31) (brk h + nu * 8)) as [Hbig|Hsmall]; [by left|].
  destruct avail; [|by left]. cbn [negb orb]. rewrite (proj2 (Z.eqb_neq _ _)) by lia. cbn [mem freep brk].
  set (h1 := {| mem := set_size (mem h) (brk h) nu; freep := freep h; brk := brk h + nu * 8 |}).
  assert (inv h1 (B ++ (brk h, nu, false) :: [])) as Hinv1.
  { assert (forall q, q + 8 <= brk h -> ptr (mem h1) q = ptr (mem h) q /\ size (mem h1) q = size (mem h) q) as Hq.
    { intros q Hq. apply (only_header [brk h]); [apply only_set_size; by apply list_elem_of_singleton|].
      intros x ->%list_elem_of_singleton. lia. }
    assert (forall b, b ∈ B -> addr b + 8 <= brk h) as HBin.
    { intros b Hbin. pose proof (layout_in _ _ _ _ Hlay Hbin). lia. }
    assert (frees (B ++ [(brk h, nu, false)]) = frees B) as EF by by rewrite frees_app, app_nil_r.
    split; cbn [brk freep]; [done| |unfold KERNBASE; simpl; lia| | | |].
    - apply layout_app. exists (brk h). split; [done|]. simpl. lia.
    - intros b [Hbin| ->%list_elem_of_singleton]%elem_of_app.
      + rewrite (proj2 (Hq (addr b) (HBin b Hbin))). by apply Hs.
      + apply size_set_size. cbv [is_u32 len fst snd]. lia.
    - by rewrite (proj2 (Hq base ltac:(lia))).
    - rewrite EF. eapply linked_ext; [|exact Hch]. intros q [->|(n & Hin)%frees_in]%elem_of_cons.
      + apply Hq. lia.
      + apply Hq. apply (HBin _ Hin).
    - by rewrite EF. }
  destruct (free_inv h1 B (brk h) nu [] fuel Hinv1) as (h2 & B2 & E & Hinv2 & Hbrk2 & Hlive & Hun & Hfp2 & Hlen & q & n & Hq & Hn);
    [by rewrite app_nil_r|].
  right. exists h2, B2. rewrite plus_small by lia. replace (brk h + 8 * 1) with (brk h + 8) by lia.
  rewrite E. cbn [obind]. rewrite app_nil_r in *. split_and!; [done|done|done|done| |rewrite Hbrk2; simpl; lia|lia|].
  - intros b x Hbin Hx. rewrite (Hun b x Hbin Hx). apply put32_out.
    apply live_in in Hbin as [Hbin _]. pose proof (layout_in _ _ _ _ Hlay Hbin). lia.
  - exists q, n. split; [done|lia].
Qed.
(** ** Any sequence of calls *)

(** The heap with blocks [B]; before the first call of [malloc] there is no list. *)
Definition ok h B : Prop :=
  (freep h = 0 /\ B = [] /\ 0 < base /\ base + 8 <= brk h <= KERNBASE) \/ (freep h <> 0 /\ inv h B).

Lemma inv_freep h B : inv h B -> freep h <> 0.
Proof.
  intros [Hb Hlay _ _ _ _ Hfp]. apply elem_of_cons in Hfp as [->|(n & Hin)%frees_in]; [lia|].
  pose proof (layout_in _ _ _ _ Hlay Hin) as Hi. cbv [addr fst] in Hi. lia.
Qed.

(** The first call makes the list. *)
Lemma first_call h B :
  ok h B -> exists h', inv h' B /\ brk h' = brk h /\ untouched B (mem h) (mem h') /\
    (if freep h =? 0 then {| mem := set_size (set_ptr (mem h) base base) base 0; freep := base; brk := brk h |} else h) = h'.
Proof.
  intros [(-> & -> & Hb & Hbrk)|[Hne Hinv]].
  - exists {| mem := set_size (set_ptr (mem h) base base) base 0; freep := base; brk := brk h |}.
    split; [|split; [done|split; [|done]]].
    + unfold KERNBASE in *. split; cbn [mem freep brk]; [done|simpl; lia|unfold KERNBASE; lia|by intros b ?%elem_of_nil| | |].
      * apply size_set_size. unfold is_u32. lia.
      * split; [|done]. rewrite ptr_set_size by lia. apply ptr_set_ptr. unfold is_u32. simpl. lia.
      * apply list_elem_of_here.
    + by intros b x ?%elem_of_nil.
  - exists h. split; [done|]. split; [done|]. split; [by intros b x|]. by rewrite (proj2 (Z.eqb_neq _ _)).
Qed.

Lemma untouched_trans B B' m1 m2 m3 :
  live B' = live B -> untouched B m1 m2 -> untouched B' m2 m3 -> untouched B m1 m3.
Proof. intros E H1 H2 b x Hb Hx. rewrite (H2 b x), (H1 b x); [done..|by rewrite E|done]. Qed.

Lemma units_ok nbytes :
  0 <= nbytes < 2 ^ 31 - 16 -> let k := units nbytes in
  1 <= k /\ nbytes + 8 <= 8 * k /\ 8 * k < 2 ^ 31.
Proof.
  intros Hn. unfold units, sizeof_Header. rewrite (u32_small (nbytes + 8 - 1)) by (unfold is_u32; lia).
  pose proof (Z.div_mod (nbytes + 8 - 1) 8 ltac:(lia)). pose proof (Z.mod_pos_bound (nbytes + 8 - 1) 8 ltac:(lia)).
  rewrite u32_small by (unfold is_u32; lia). lia.
Qed.

(** What a call of [malloc] comes to. *)
Definition mallocs (h : heap) B (nbytes : Z) (r : outcome (heap * Z)) : Prop :=
  exists h' B' p, r = Ret (h', p) /\ ok h' B' /\ untouched B (mem h) (mem h') /\
    ((p = 0 /\ live B' = live B) \/
     (exists a, p = a + 8 /\ base + 8 <= a /\ live B' ≡ₚ (a, units nbytes, false) :: live B)).

Lemma malloc_ok avail fuel h B nbytes :
  ok h B -> 0 <= nbytes < 2 ^ 31 - 16 -> (5 * length B + 10 < fuel)%nat ->
  mallocs h B nbytes (malloc avail fuel h nbytes).
Proof.
  intros Hok Hn Hf. destruct (first_call h B Hok) as (h1 & Hinv & _ & Hun1 & E1).
  destruct (units_ok nbytes Hn) as (Hk1 & _ & Hk8). unfold malloc. rewrite E1. set (k := units nbytes) in *.
  assert (forall h2 B2 h' a r, inv h2 B2 -> live B2 = live B -> untouched B (mem h) (mem h2) ->
    r = Ret (h', a + 8) -> taken h2 B2 k h' a -> mallocs h B nbytes r) as Hdone.
  { intros h2 B2 h' a r Hinv2 Hl Hun -> (B' & Hinv' & _ & Hlive & Hun' & Ha).
    exists h', B', (a + 8). split; [done|]. split; [right; split; [by apply (inv_freep h' B')|done]|].
    split; [by eapply untouched_trans|]. right. exists a. rewrite <- Hl. split_and!; [done|lia|done]. }
  destruct (circle h1 B Hinv) as (W & HW & Hne & Hin & Hall & Hlen).
  destruct (search_walk avail h1 B k W (freep h1) fuel) as [(h' & a & E & Ht)|(Hno & fuel' & Hfuel & E)];
    [done|done|apply Hinv|done|done|done|lia| |].
  { by apply (Hdone h1 B h' a). }
  rewrite E. destruct fuel' as [|fuel']; [lia|]. cbn [search].
  pose proof (Forall_inv Hno) as Hfit. cbv beta in Hfit.
  rewrite (proj2 (Z.leb_gt _ _)) by done. rewrite Z.eqb_refl.
  destruct (morecore_ok avail (S fuel') h1 B k) as [E2|(h2 & B2 & E2 & Hfp & Hinv2 & Hl2 & Hun2 & _ & Hlen2 & q & n & Hq & Hqn)];
    [done|done|done|lia| |].
  { rewrite E2. cbn [obind Z.eqb]. exists h1, B, 0. split; [done|].
    split; [right; split; [by apply (inv_freep h1 B)|done]|]. split; [done|]. by left. }
  rewrite E2. cbn [obind]. rewrite (proj2 (Z.eqb_neq _ _)) by done.
  destruct (circle h2 B2 Hinv2) as (W2 & HW2 & Hne2 & Hin2 & Hall2 & Hlen2').
  destruct (search_walk avail h2 B2 k W2 (freep h2) fuel') as [(h' & a & E' & Ht)|(Hno2 & _)];
    [done|done|apply Hinv2|done|done|done|lia| |].
  { apply (Hdone h2 B2 h' a); [done|done| |done|done]. eapply untouched_trans; [|exact Hun1|exact Hun2]. done. }
  exfalso. rewrite Forall_forall in Hno2. specialize (Hno2 q). cbv beta in Hno2.
  rewrite (iv_size _ _ Hinv2 _ Hq : size (mem h2) q = n) in Hno2.
  assert (q ∈ base :: frees B2) as Hqr by (right; apply frees_in; by exists n).
  specialize (Hno2 (Hall2 q Hqr)). lia.
Qed.

(** ** Fuel *)

Lemma find_place_mono fuel fuel' m bp p r :
  find_place fuel m bp p = Ret r -> (fuel <= fuel')%nat -> find_place fuel' m bp p = Ret r.
Proof.
  revert fuel' p. induction fuel as [|fuel IH]; intros fuel' p; [done|]. destruct fuel' as [|fuel']; [lia|].
  cbn [find_place]. repeat case_match; try done. intros E Hf. apply IH; [done|lia].
Qed.

Lemma free_mono fuel fuel' h ap r : free fuel h ap = Ret r -> (fuel <= fuel')%nat -> free fuel' h ap = Ret r.
Proof.
  unfold free. intros E Hf. apply obind_ret in E as (p & Ep & E).
  by rewrite (find_place_mono _ _ _ _ _ _ Ep Hf).
Qed.

Lemma morecore_mono avail fuel fuel' h nu r :
  morecore avail fuel h nu = Ret r -> (fuel <= fuel')%nat -> morecore avail fuel' h nu = Ret r.
Proof.
  unfold morecore. intros E Hf. destruct (sbrk _ _ _) as [h1 p]. case_match; [done|].
  apply obind_ret in E as (h2 & E2 & E). by rewrite (free_mono _ _ _ _ _ E2 Hf).
Qed.

Lemma search_mono avail fuel fuel' h k prevp p r :
  search avail fuel h k prevp p = Ret r -> (fuel <= fuel')%nat -> search avail fuel' h k prevp p = Ret r.
Proof.
  revert fuel' h prevp p. induction fuel as [|fuel IH]; intros fuel' h prevp p; [done|].
  destruct fuel' as [|fuel']; [lia|]. intros E Hf. cbn [search] in E |- *.
  case_match; [done|]. case_match; [|apply IH; [done|lia]].
  apply obind_ret in E as ([h2 p2] & E2 & E). rewrite (morecore_mono _ _ _ _ _ _ E2 Hf). cbn [obind].
  case_match; [done|]. apply IH; [done|lia].
Qed.

(** The heap, and the blocks the program has got from [malloc] and not freed. *)
Inductive ucall : heap * list (Z * Z * bool) -> heap * list (Z * Z * bool) -> Prop :=
| U_malloc h L avail fuel n h' p :
    0 <= n < 2 ^ 31 - 16 -> malloc avail fuel h n = Ret (h', p) ->
    ucall (h, L) (h', if p =? 0 then L else (p - 8, units n, false) :: L)
| U_free h L1 b L2 fuel h' :
    free fuel h (addr b + 8) = Ret h' -> ucall (h, L1 ++ b :: L2) (h', L1 ++ L2)
| U_write h L b x v :
    b ∈ L -> addr b + 8 <= x < addr b + 8 * len b ->
    ucall (h, L) ({| mem := put8 (mem h) x v; freep := freep h; brk := brk h |}, L)
| U_sbrk h L n :
    brk h <= n <= KERNBASE -> ucall (h, L) ({| mem := mem h; freep := freep h; brk := n |}, L).

Definition good (s : heap * list (Z * Z * bool)) : Prop := exists B, ok s.1 B /\ live B ≡ₚ s.2.

Lemma ok_layout h B : ok h B -> layout (base + 8) B (brk h).
Proof. by intros [(_ & -> & _ & ? & _)|[_ []]]. Qed.

Lemma live_split B b L1 L2 : live B ≡ₚ L1 ++ b :: L2 -> exists A C, B = A ++ b :: C /\ live A ++ live C ≡ₚ L1 ++ L2 /\ is_free b = false.
Proof.
  intros HL. assert (b ∈ live B) as [Hb Hf]%live_in by (rewrite HL; apply elem_mid).
  apply list_elem_of_split in Hb as (A & C & ->). exists A, C. split; [done|]. split; [|done].
  rewrite live_app, live_cons, Hf in HL. cbn [app] in HL. by rewrite <- !Permutation_middle in HL; apply Permutation_cons_inv in HL.
Qed.

Lemma live_disjoint lo B hi L1 b1 L2 b2 L3 :
  layout lo B hi -> live B ≡ₚ L1 ++ b1 :: L2 ++ b2 :: L3 ->
  addr b1 + 8 * len b1 <= addr b2 \/ addr b2 + 8 * len b2 <= addr b1.
Proof.
  intros Hlay HL. destruct (live_split B b1 L1 _ HL) as (A & C & -> & HL' & _).
  assert (b2 ∈ live A ++ live C) as Hin.
  { rewrite HL'. apply elem_of_app. right. apply elem_mid. }
  apply layout_app in Hlay as (mid & HA & HC). destruct b1 as [[a n] f]. simpl in HC. destruct HC as (? & ? & HC).
  change (a + 8 * n <= addr b2 \/ addr b2 + 8 * len b2 <= a).
  apply elem_of_app in Hin as [[Hin _]%live_in|[Hin _]%live_in].
  - pose proof (layout_in _ _ _ _ HA Hin). lia.
  - pose proof (layout_in _ _ _ _ HC Hin). lia.
Qed.

Lemma frees_ok h L1 b L2 :
  good (h, L1 ++ b :: L2) -> exists f h', good (h', L1 ++ L2) /\
    (forall fuel, (f < fuel)%nat -> free fuel h (addr b + 8) = Ret h') /\
    forall b' x, b' ∈ L1 ++ L2 -> addr b' <= x < addr b' + 8 * len b' -> mem h' x = mem h x.
Proof.
  intros (B & Hok & HL). apply live_split in HL as (A & C & -> & HL & Hbf).
  destruct b as [[bp n] f]. unfold is_free in Hbf. simpl in Hbf. subst f.
  destruct Hok as [(_ & E & _)|[_ Hinv]]; [by destruct A|].
  set (f := (2 * length (A ++ C) + 3)%nat).
  destruct (free_inv h A bp n C f Hinv) as (h' & B' & E & Hinv' & _ & Hlive & Hun & Hfp & _); [lia|].
  exists f, h'. split; [exists B'; split; [by right|by rewrite Hlive]|]. split.
  - intros fuel Hf. apply (free_mono f); [done|lia].
  - intros b' x Hb'. apply Hun. by rewrite live_app, HL.
Qed.

Lemma mallocs_ok h L avail n :
  good (h, L) -> 0 <= n < 2 ^ 31 - 16 -> exists f h' p,
    (forall fuel, (f < fuel)%nat -> malloc avail fuel h n = Ret (h', p)) /\
    good (h', if p =? 0 then L else (p - 8, units n, false) :: L) /\
    forall b x, b ∈ L -> addr b <= x < addr b + 8 * len b -> mem h' x = mem h x.
Proof.
  intros (B & Hok & HL) Hn. set (f := (5 * length B + 11)%nat).
  destruct (malloc_ok avail f h B n Hok Hn) as (h' & B' & p & E & Hok' & Hun & Hp); [lia|].
  exists f, h', p. split; [intros fuel Hf; apply (search_mono avail f); [exact E|lia]|]. split.
  - exists B'. split; [done|]. destruct Hp as [[-> ->]|(a & -> & Ha & Hl)]; [done|].
    pose proof (ok_layout _ _ Hok). assert (0 < base) by (destruct Hok as [(_ & _ & ? & _)|[_ []]]; done).
    rewrite (proj2 (Z.eqb_neq _ _)) by lia. replace (a + 8 - 8) with a by lia. by rewrite Hl, HL.
  - intros b x Hb. apply Hun. by rewrite HL.
Qed.

(** A header lies outside what the program may write. *)
Lemma write_ok h B b x v :
  ok h B -> b ∈ live B -> addr b + 8 <= x < addr b + 8 * len b ->
  ok {| mem := put8 (mem h) x v; freep := freep h; brk := brk h |} B.
Proof.
  intros Hok Hb Hx. pose proof (ok_layout _ _ Hok) as Hlay.
  apply live_in in Hb as [Hb Hf]. pose proof (layout_in _ _ _ _ Hlay Hb).
  destruct Hok as [?|[Hne Hinv]]; [by left|]. right. split; [done|]. destruct Hinv as [Hb0 _ Hbrk Hs Hsb Hch Hfp].
  assert (forall q, q + 8 <= x \/ x < q -> ptr (put8 (mem h) x v) q = ptr (mem h) q /\
    size (put8 (mem h) x v) q = size (mem h) q) as Hq.
  { intros q Hq. apply same_header. intros y Hy. apply put8_out. lia. }
  assert (forall b', b' ∈ B -> addr b' + 8 <= x \/ x < addr b') as Hout.
  { intros b' Hb'. destruct (decide (b' = b)) as [->|Hnb]; [lia|].
    pose proof (layout_in _ _ _ _ Hlay Hb').
    destruct (layout_disjoint _ _ _ _ _ Hlay Hb' Hb Hnb); lia. }
  split; cbn [mem freep brk]; try done.
  - intros b' Hb'. rewrite (proj2 (Hq (addr b') (Hout b' Hb'))). by apply Hs.
  - by rewrite (proj2 (Hq base ltac:(lia))).
  - eapply linked_ext; [|exact Hch]. intros q [->|(n & Hin)%frees_in]%elem_of_cons; apply Hq; [lia|].
    exact (Hout _ Hin).
Qed.

Lemma ucall_good s s' : ucall s s' -> good s -> good s'.
Proof.
  intros Hs Hg. destruct Hs as [h L avail fuel n h' p Hn E|h L1 b L2 fuel h' E|h L b x v Hb Hx|h L n Hn].
  - destruct (mallocs_ok h L avail n Hg Hn) as (f & h2 & p2 & Hret & Hg' & _).
    apply (search_mono _ _ (Nat.max fuel (S f))) in E; [|lia].
    change (malloc avail (Nat.max fuel (S f)) h n = Ret (h', p)) in E.
    rewrite Hret in E by lia. by injection E as <- <-.
  - destruct (frees_ok h L1 b L2 Hg) as (f & h2 & Hg' & Hret & _).
    apply (free_mono _ (Nat.max fuel (S f))) in E; [|lia]. rewrite Hret in E by lia. by injection E as <-.
  - destruct Hg as (B & Hok & HL). exists B. split; [|done]. eapply write_ok; [done|by rewrite HL|done].
  - destruct Hg as (B & Hok & HL). exists B. split; [|done]. simpl in *.
    destruct Hok as [(? & ? & ? & ?)|[? []]]; [left; split_and!; (done || simpl; lia)|].
    right. split; [done|]. split; try done; simpl; [|lia]. eapply layout_weaken; [| |done]; lia.
Qed.

(** C18.  Whatever the program does - [malloc] below 2 GB, [free] of what it
    got, any writes inside its blocks, [sbrk] - the blocks it holds lie inside
    the process, behind the static data, and do not overlap; every further
    [malloc] and [free] comes to an end, leaves the contents of the blocks
    alone, and gives a block of at least the size asked for that overlaps none,
    or 0. *)
Theorem heap_blocks h L m e :
  0 < base -> base + 8 <= e <= KERNBASE ->
  rtc ucall ({| mem := m; freep := 0; brk := e |}, []) (h, L) ->
  (forall b, b ∈ L -> base + 8 <= addr b /\ addr b + 8 * len b <= brk h) /\
  (forall L1 b1 L2 b2 L3, L = L1 ++ b1 :: L2 ++ b2 :: L3 ->
     addr b1 + 8 * len b1 <= addr b2 \/ addr b2 + 8 * len b2 <= addr b1) /\
  (forall avail n, 0 <= n < 2 ^ 31 - 16 -> exists f h' p,
     (forall fuel, (f < fuel)%nat -> malloc avail fuel h n = Ret (h', p)) /\
     (p = 0 \/ (base + 16 <= p /\ p + n <= brk h' /\
       forall b, b ∈ L -> p + n <= addr b \/ addr b + 8 * len b <= p)) /\
     forall b x, b ∈ L -> addr b <= x < addr b + 8 * len b -> mem h' x = mem h x) /\
  (forall L1 b L2, L = L1 ++ b :: L2 -> exists f h',
     (forall fuel, (f < fuel)%nat -> free fuel h (addr b + 8) = Ret h') /\
     forall b' x, b' ∈ L1 ++ L2 -> addr b' <= x < addr b' + 8 * len b' -> mem h' x = mem h x).
Proof.
  intros Hb He Hrun.
  assert (good (h, L)) as Hg.
  { apply (rtc_invariant _ good) in Hrun; [done| |].
    - intros s s' ? ?. by eapply ucall_good.
    - exists []. split; [by left|done]. }
  pose proof Hg as (B & Hok & HL). pose proof (ok_layout _ _ Hok) as Hlay. simpl in HL, Hlay.
  assert (forall h B, layout (base + 8) B (brk h) -> forall b, b ∈ live B -> base + 8 <= addr b /\ addr b + 8 * len b <= brk h)
    as Hbounds.
  { intros h0 B0 H0 b [Hin _]%live_in. pose proof (layout_in _ _ _ _ H0 Hin). lia. }
  split_and!.
  - intros b Hin. apply (Hbounds h B Hlay). by rewrite HL.
  - intros L1 b1 L2 b2 L3 ->. by eapply live_disjoint.
  - intros avail n Hn. destruct (mallocs_ok h L avail n Hg Hn) as (f & h' & p & Hret & (B' & Hok' & HL') & Hun).
    exists f, h', p. split; [done|]. split; [|done]. destruct (Z.eqb_spec p 0) as [->|Hp]; [by left|]. right.
    simpl in HL', Hok'. pose proof (ok_layout _ _ Hok') as Hlay'. destruct (units_ok n Hn) as (_ & Hk & _).
    assert ((p - 8, units n, false) ∈ live B') as Hin by (rewrite HL'; apply list_elem_of_here).
    pose proof (Hbounds h' B' Hlay' _ Hin) as Hpb. cbv [addr len fst snd] in Hpb. split; [lia|]. split; [lia|].
    intros b Hbin. apply list_elem_of_split in Hbin as (L1 & L2 & ->).
    pose proof (live_disjoint (base + 8) B' (brk h') [] (p - 8, units n, false) L1 b L2 Hlay' HL') as Hd.
    cbv [addr len fst snd] in Hd |- *. lia.
  - intros L1 b L2 ->. destruct (frees_ok h L1 b L2 Hg) as (f & h' & _ & Hret & Hun). by exists f, h'.
Qed.

(** ** Threads (ulib.c) *)

Definition PGSIZE : Z := 4096.

(** [clone] is the system call: what it leaves of the heap and its result. *)
Definition thread_create (avail : bool) (fuel : nat) (clone : heap -> Z -> outcome (heap * Z)) (h : heap)
  : outcome (heap * Z) :=
  let* (h, stack) := malloc avail fuel h (2 * PGSIZE) in
  if stack =? 0 then Ret (h, -1)
  else
    let stack := if negb (stack mod PGSIZE =? 0) then u32 (stack + (PGSIZE - stack mod PGSIZE)) else stack in
    clone h stack.

(** [join] stores the stack it is given back, or leaves what the local variable
    held; its result is the last. *)
Definition thread_join (fuel : nat) (join : heap -> heap * Z * Z) (h : heap) : outcome (heap * Z) :=
  let '(h, stack, pid) := join h in
  let* h := free fuel h stack in
  Ret (h, pid).

(** [thread_create] gives [clone] a stack page that starts at a page
    boundary and lies in a block of its own, or fails for want of memory. *)
Theorem thread_create_stack avail clone h L :
  good (h, L) -> exists f, forall fuel, (f < fuel)%nat ->
    (exists h', thread_create avail fuel clone h = Ret (h', -1) /\ good (h', L)) \/
    (exists h' stack a, thread_create avail fuel clone h = clone h' stack /\
       stack mod PGSIZE = 0 /\ a + 8 <= stack /\ stack + PGSIZE <= a + 8 * units (2 * PGSIZE) /\
       good (h', (a, units (2 * PGSIZE), false) :: L)).
Proof.
  intros Hg. unfold PGSIZE in *.
  destruct (mallocs_ok h L avail (2 * 4096) Hg ltac:(lia)) as (f & h' & p & Hret & Hg' & _).
  exists f. intros fuel Hf. unfold thread_create, PGSIZE. rewrite Hret by done. cbn [obind].
  destruct (Z.eqb_spec p 0) as [->|Hp]; [left; by exists h'|]. right.
  destruct (units_ok (2 * 4096) ltac:(lia)) as (_ & Hk & _).
  pose proof Hg' as (B & Hok & HL). simpl in HL, Hok. pose proof (ok_layout _ _ Hok) as Hlay.
  assert ((p - 8, units (2 * 4096), false) ∈ live B) as [Hin _]%live_in by (rewrite HL; apply list_elem_of_here).
  pose proof (layout_in _ _ _ _ Hlay Hin) as Hpb. cbv [addr len fst snd] in Hpb.
  assert (0 < base /\ brk h' <= KERNBASE) as [Hb0 Hbrk] by (destruct Hok as [(_ & _ & ? & ? & ?)|[_ []]]; done).
  unfold KERNBASE in Hbrk. pose proof (Z.mod_pos_bound p 4096 ltac:(lia)).
  exists h', (if negb (p mod 4096 =? 0) then u32 (p + (4096 - p mod 4096)) else p), (p - 8).
  destruct (Z.eqb_spec (p mod 4096) 0) as [E|E]; cbn [negb].
  - split_and!; [done|done|lia|lia|done].
  - pose proof (Z.div_mod p 4096 ltac:(lia)). rewrite u32_small by (unfold is_u32; lia).
    split_and!; [done| |lia|lia|done].
    replace (p + (4096 - p mod 4096)) with ((p / 4096 + 1) * 4096) by lia. by apply Z_mod_mult.
Qed.
(** A request the unit count wraps at gets a header and no room behind it. *)
Lemma units_wrap : units (2 ^ 32 - 1) = 1.
Proof. reflexivity. Qed.

(** A request of 2 GB asks [sbrk] for less than nothing: the process gets no
    memory, and [morecore] takes what lies behind its end. *)
Lemma units_negative avail h :
  0 < brk h < 2 ^ 31 - 8 -> sbrk avail h (s32 (u32 (units (2 ^ 31) * sizeof_Header))) = (h, brk h).
Proof.
  intros Hb. replace (s32 _) with (8 - 2 ^ 31) by reflexivity. unfold sbrk.
  change (0 <? 8 - 2 ^ 31) with false. change (8 - 2 ^ 31 <? 0) with true. cbv iota.
  replace (u32 (brk h + (8 - 2 ^ 31))) with (brk h + 8 + 2 ^ 31).
  - rewrite (proj2 (Z.leb_le _ _)) by lia. rewrite (proj2 (Z.eqb_neq _ _)) by lia. by destruct h.
  - unfold u32. apply (Z.mod_unique _ _ (-1)); lia.
Qed.
End umalloc.

(** ** Witnesses *)

Definition small_heap0 : heap := {| mem := fun _ => 0; freep := 0; brk := 4096 |}.
Definition small_heap : heap :=
  match malloc 100 true 50 small_heap0 24 with Ret (h, _) => h | _ => small_heap0 end.

Lemma small_result : malloc 100 true 50 small_heap0 24 = Ret (small_heap, 36840).
Proof.
  assert (match malloc 100 true 50 small_heap0 24 with Ret (_, p) => Some p | _ => None end = Some 36840) as Hp
    by (vm_compute; reflexivity).
  unfold small_heap. destruct (malloc 100 true 50 small_heap0 24) as [[h p]| | |]; [|done..]. by injection Hp as ->.
Qed.

Lemma small_call : rtc (ucall 100) (small_heap0, []) (small_heap, [(36832, 4, false)]).
Proof.
  apply rtc_once. apply (U_malloc 100 small_heap0 [] true 50 24 small_heap 36840); [lia|].
  exact small_result.
Qed.

Lemma heap_blocks_witness : 108 <= 36832 /\ exists f h',
  forall fuel, (f < fuel)%nat -> free fuel small_heap 36840 = Ret h'.
Proof.
  destruct (heap_blocks 100 small_heap [(36832, 4, false)] (fun _ => 0) 4096) as (Hin & _ & _ & Hfree);
    [lia|unfold KERNBASE; lia|exact small_call|].
  split; [exact (proj1 (Hin (36832, 4, false) (list_elem_of_here _ _)))|].
  destruct (Hfree [] (36832, 4, false) [] eq_refl) as (f & h' & Hf & _). exists f, h'. exact Hf.
Defined.

Lemma thread_create_stack_witness : exists f, forall fuel, (f < fuel)%nat ->
  exists h' stack, thread_create 100 true fuel (fun h s => Ret (h, s)) small_heap0 = Ret (h', stack).
Proof.
  destruct (thread_create_stack 100 true (fun h s => Ret (h, s)) small_heap0 []) as (f & Hf).
  { exists []. split; [left; cbn; unfold KERNBASE; repeat split; lia|reflexivity]. }
  exists f. intros fuel Hfuel. destruct (Hf fuel Hfuel) as [(h' & E & _)|(h' & stack & a & E & _)].
  - exists h', (-1). exact E.
  - exists h', stack. exact E.
Defined.

End Umalloc.
