(* ===== verification/Trace.v ===== *)
(** * Counting the opens of a path (p1b)

    What p1b adds to [sysfile.c]: [trace] remembers a path, [sys_open] counts
    the opens of it, [getcount] reads the counter.  The rest of the file is
    that of p3b ([Sysfile]).  The remembered path is the array it is in the
    code, copied to without a look at its length. *)

From S2P Require Import Prelude DfsImage Kalloc Bio Log Txn CString Fs File Pipe Proc Syscall Sysfile.
Local Open Scope Z_scope.
Local Open Scope xv6_scope.

Module Trace.

(** [while(( *s++ = *t++) != 0)], [s] being what is left of the array. *)
Fixpoint strcpy (s : list Z) (m : bytes) (t : Z) : outcome (list Z) :=
  match s with
  | [] => Fault
  | _ :: s => if m t =? 0 then Ret (0 :: s) else let* s := strcpy s m (t + 1) in Ret (m t :: s)
  end.

Fixpoint strcmp (m : bytes) (p : Z) (q : list Z) : outcome Z :=
  match q with
  | [] => Fault
  | c :: q => if negb (m p =? 0) && (m p =? c) then strcmp m (p + 1) q else Ret (m p - c)
  end.

Section trace.
Context {T : Type} `{BlockCache T}.

Record tracer := { sys : Sysfile.sys T; trace_pathname : list Z; trace_enabled : Z; trace_counter : Z }.

Definition with_sys (s : Sysfile.sys T) (t : tracer) : tracer :=
  {| sys := s; trace_pathname := trace_pathname t; trace_enabled := trace_enabled t; trace_counter := trace_counter t |}.
Definition with_counter (n : Z) (t : tracer) : tracer :=
  {| sys := sys t; trace_pathname := trace_pathname t; trace_enabled := trace_enabled t; trace_counter := n |}.

Definition boot (s : Sysfile.sys T) : tracer :=
  {| sys := s; trace_pathname := replicate 256 0; trace_enabled := 0; trace_counter := 0 |}.

Definition trace (pathname : Z) (t : tracer) : outcome tracer :=
  let* name := strcpy (trace_pathname t) (Sysfile.mem (sys t)) pathname in
  Ret {| sys := sys t; trace_pathname := name; trace_enabled := 1; trace_counter := 0 |}.

Definition getcount (t : tracer) : Z := if trace_enabled t =? 0 then 0 else trace_counter t.

Definition sys_trace (sz esp : Z) (t : tracer) : outcome (tracer * Z) :=
  match Syscall.argstr sz (Sysfile.mem (sys t)) esp 0 with
  | None => Ret (t, -1)
  | Some (path, _) => let* t := trace path t in Ret (t, 0)
  end.

Definition sys_getcount (t : tracer) : outcome (tracer * Z) := Ret (t, getcount t).

(** [open] is the rest of [sys_open], the one of p3b. *)
Definition counted_open (open : Sysfile.sys T -> outcome (Sysfile.sys T * Z)) (sz esp : Z) (t : tracer)
  : outcome (tracer * Z) :=
  match Syscall.argstr sz (Sysfile.mem (sys t)) esp 0, Syscall.argint sz (Sysfile.mem (sys t)) esp 1 with
  | Some (path, _), Some _ =>
      let* c := strcmp (Sysfile.mem (sys t)) path (trace_pathname t) in
      let t := if c =? 0 then with_counter (s32 (trace_counter t + 1)) t else t in
      let* (s, r) := open (sys t) in
      Ret (with_sys s t, r)
  | _, _ => Ret (t, -1)
  end.

Definition sys_open sb mypid devr devw (sz esp name name' de' dot dotdot : Z) (fuel : nat)
  : tracer -> outcome (tracer * Z) :=
  counted_open (Sysfile.sys_open sb mypid devr devw sz esp name name' de' dot dotdot fuel) sz esp.

(** ** What is counted *)

(** The string at [a], and the one an argument of the call points to. *)
Definition string_at (m : bytes) (a len : Z) : list Z := (fun i => m (a + i)) <$> seqZ 0 len.
Definition path_arg (sz : Z) (m : bytes) (esp : Z) : option (list Z) :=
  let? (a, len) := Syscall.argstr sz m esp 0 in Some (string_at m a len).

(** What happens on the machine: a path is traced, a path is opened, anything
    else. *)
Inductive event := ETrace (l : list Z) | EOpen (l : list Z) | EOther.

Inductive step : tracer -> event -> tracer -> Prop :=
| S_trace t sz esp l t' r :
    path_arg sz (Sysfile.mem (sys t)) esp = Some l -> sys_trace sz esp t = Ret (t', r) -> step t (ETrace l) t'
| S_open t sb mypid devr devw sz esp name name' de' dot dotdot fuel l omode t' r :
    path_arg sz (Sysfile.mem (sys t)) esp = Some l -> Syscall.argint sz (Sysfile.mem (sys t)) esp 1 = Some omode ->
    sys_open sb mypid devr devw sz esp name name' de' dot dotdot fuel t = Ret (t', r) -> step t (EOpen l) t'
| S_other t s : step t EOther (with_sys s t).

Inductive steps : tracer -> list event -> tracer -> Prop :=
| Steps_nil t : steps t [] t
| Steps_snoc t l t' e t'' : steps t l t' -> step t' e t'' -> steps t (l ++ [e]) t''.

(** The path traced last, and its opens since. *)
Definition tally1 (a : option (list Z) * Z) (e : event) : option (list Z) * Z :=
  match e with
  | ETrace l => (Some l, 0)
  | EOpen l => (a.1, if decide (a.1 = Some l) then a.2 + 1 else a.2)
  | EOther => a
  end.
Definition tally (evs : list event) : option (list Z) * Z := foldl tally1 (None, 0) evs.

(** ** The array *)

Definition holds (buf l : list Z) : Prop :=
  length buf = 256%nat /\ Forall (fun c => c <> 0) l /\ exists rest, buf = l ++ 0 :: rest.

Lemma string_at_0 m a : string_at m a 0 = [].
Proof. done. Qed.

Lemma string_at_S m a len : 0 <= len -> string_at m a (len + 1) = m a :: string_at m (a + 1) len.
Proof.
  intros Hl. unfold string_at. rewrite (seqZ_cons 0) by lia. cbn [fmap list_fmap]. rewrite Z.add_0_r. f_equal.
  replace (Z.succ 0) with (0 + 1) by done. rewrite <- (fmap_add_seqZ 1 0), <- list_fmap_compose.
  replace (Z.pred (len + 1)) with len by lia. apply list_fmap_ext. intros _ i _. cbn. f_equal. lia.
Qed.

Lemma strcpy_into_array m len : 0 <= len -> forall (s : list Z) t, m (t + len) = 0 -> (forall x, t <= x < t + len -> m x <> 0) ->
  strcpy s m t = if len <? Z.of_nat (length s)
                 then Ret (string_at m t len ++ 0 :: drop (S (Z.to_nat len)) s) else Fault.
Proof.
  intros Hl. pattern len. revert len Hl. apply natlike_ind.
  - intros [|x s] t Hz _; [done|]. rewrite Z.add_0_r in Hz. cbn [strcpy]. by rewrite Hz.
  - intros len Hl IH [|x s] t Hz Hnz; cbn [strcpy length].
    { by destruct (Z.ltb_spec (Z.succ len) (Z.of_nat 0)); [lia|]. }
    rewrite (proj2 (Z.eqb_neq _ _)) by (apply Hnz; lia).
    rewrite (IH s (t + 1)) by first [intros; apply Hnz; lia|by replace (t + 1 + len) with (t + Z.succ len) by lia].
    destruct (Z.ltb_spec len (Z.of_nat (length s))), (Z.ltb_spec (Z.succ len) (Z.of_nat (S (length s)))); try lia; [|done].
    cbn [obind]. rewrite Z2Nat.inj_succ by done. unfold Z.succ. by rewrite string_at_S by done.
Qed.

Lemma strcmp_array m q rest : Forall (fun c => c <> 0) q -> forall len p, 0 <= len -> m (p + len) = 0 ->
  (forall x, p <= x < p + len -> m x <> 0) ->
  exists c, strcmp m p (q ++ 0 :: rest) = Ret c /\ (c = 0 <-> string_at m p len = q).
Proof.
  induction 1 as [|c q Hc Hq IH]; intros len p Hl Hz Hnz; cbn [strcmp app].
  - destruct (decide (len = 0)) as [->|Hne].
    + rewrite Z.add_0_r in Hz. rewrite Hz. by exists 0.
    + exists (m p - 0). assert (m p <> 0) as Hp by (apply Hnz; lia). rewrite (proj2 (Z.eqb_neq _ _)) by done.
      split; [done|]. replace len with (len - 1 + 1) by lia. rewrite string_at_S by lia. split; [lia|done].
  - destruct (decide (len = 0)) as [->|Hne].
    + rewrite Z.add_0_r in Hz. rewrite Hz. cbn [Z.eqb negb andb]. exists (0 - c). split; [done|]. rewrite string_at_0. split; [lia|done].
    + assert (m p <> 0) as Hp by (apply Hnz; lia). rewrite (proj2 (Z.eqb_neq _ _)) by done. cbn [negb andb].
      replace len with (len - 1 + 1) by lia. rewrite string_at_S by lia. destruct (Z.eqb_spec (m p) c) as [->|Hpc].
      * destruct (IH (len - 1) (p + 1)) as (d & -> & Hd);
          [lia|by replace (p + 1 + (len - 1)) with (p + len) by lia|intros; apply Hnz; lia|].
        exists d. split; [done|]. rewrite Hd. split; [by intros ->|by intros [= ->]].
      * exists (m p - c). split; [done|]. split; [lia|]. by intros [= ? _].
Qed.

Lemma argstr_string sz m esp a len :
  Syscall.argstr sz m esp 0 = Some (a, len) ->
  0 <= len /\ m (a + len) = 0 /\ forall x, a <= x < a + len -> m x <> 0.
Proof.
  unfold Syscall.argstr. destruct (Syscall.argint _ _ _ _) as [i|]; [|done]. cbn. unfold Syscall.fetchstr.
  destruct (sz <=? u32 i); [done|]. pose proof (Syscall.str_len_spec m (Z.to_nat (sz - u32 i)) (u32 i) 0) as Hs.
  destruct (Syscall.str_len _ _ _ _) as [l|]; [|done]. intros [= <- <-]. rewrite Z.sub_0_r in Hs.
  destruct Hs as (? & ? & ?). split_and!; [lia|done|done].
Qed.

(** ** The count *)

Lemma s32_add_1 n : s32 (s32 n + 1) = s32 (n + 1).
Proof. rewrite <- (s32_u32 (s32 n + 1)), <- u32_add_idemp_l, u32_s32, u32_add_idemp_l. apply s32_u32. Qed.

Implicit Types t : tracer.

(** The array holds the path traced last, and the counter its opens. *)
Definition counts t (a : option (list Z) * Z) : Prop :=
  holds (trace_pathname t) (from_option id [] a.1) /\
  match a.1 with
  | Some _ => trace_enabled t = 1 /\ trace_counter t = s32 a.2
  | None => trace_enabled t = 0
  end.

Lemma counts_with_sys t s a : counts (with_sys s t) a <-> counts t a.
Proof. done. Qed.

(** [trace] of a path that fits, and of one that does not. *)
Lemma sys_trace_spec t sz esp l a :
  counts t a -> path_arg sz (Sysfile.mem (sys t)) esp = Some l ->
  if (length l <? 256)%nat
  then exists t', sys_trace sz esp t = Ret (t', 0) /\ sys t' = sys t /\ counts t' (Some l, 0)
  else sys_trace sz esp t = Fault.
Proof.
  intros [(Hlen & _ & _) _] Hl. unfold path_arg in Hl. unfold sys_trace, trace.
  destruct (Syscall.argstr _ _ _ _) as [[p len]|] eqn:E; [|done]. injection Hl as <-.
  destruct (argstr_string _ _ _ _ _ E) as (Hl & Hz & Hnz). rewrite (strcpy_into_array _ _ Hl) by done.
  unfold string_at at 1. rewrite length_fmap, length_seqZ, Hlen.
  destruct (Nat.ltb_spec (Z.to_nat len) 256), (Z.ltb_spec len (Z.of_nat 256)); try lia; [|done].
  eexists. split; [done|]. split; [done|]. split; [|done]. cbn [trace_pathname from_option fst id]. split_and!.
  - rewrite length_app. unfold string_at. rewrite length_fmap, length_seqZ. cbn [length]. rewrite length_drop, Hlen. lia.
  - unfold string_at. apply Forall_fmap, Forall_forall. intros i Hi%elem_of_seqZ. apply Hnz. lia.
  - by eexists.
Qed.

(** [sys_open] counts, and is the open of p3b in everything else. *)
Lemma counted_open_spec open t sz esp l omode a :
  counts t a -> path_arg sz (Sysfile.mem (sys t)) esp = Some l ->
  Syscall.argint sz (Sysfile.mem (sys t)) esp 1 = Some omode ->
  exists t', counts t' (tally1 a (EOpen l)) /\
    counted_open open sz esp t = let* (s, r) := open (sys t) in Ret (with_sys s t', r).
Proof.
  intros [(Hlen & Hnz & rest & Hbuf) Hc] Hl Ho. unfold path_arg in Hl. unfold counted_open. rewrite Ho.
  destruct (Syscall.argstr _ _ _ _) as [[p len]|] eqn:E; [|done]. injection Hl as <-.
  destruct (argstr_string _ _ _ _ _ E) as (Hl & Hz & Hs). rewrite Hbuf.
  destruct (strcmp_array _ _ rest Hnz _ _ Hl Hz Hs) as (c & -> & Hcmp). cbn [obind].
  exists (if c =? 0 then with_counter (s32 (trace_counter t + 1)) t else t). split; [|by destruct (c =? 0)].
  destruct a as [[l|] n]; cbn [fst snd tally1 from_option id] in *.
  - destruct Hc as [He Hn]. destruct (Z.eqb_spec c 0) as [Ec|Ec].
    + rewrite decide_True by (f_equal; symmetry; by apply Hcmp). split; [by split; [|eauto]|]. split; [done|].
      cbn. rewrite Hn. apply s32_add_1.
    + rewrite decide_False by (intros [= E']; by apply Ec, Hcmp). by split; [split; [|eauto]|].
  - destruct (decide _) as [[=]|]. destruct (c =? 0); (split; [by split; [|eauto]|done]).
Qed.

Lemma boot_counts s : counts (boot s) (None, 0).
Proof. split; [|done]. split; [done|]. split; [constructor|]. by exists (replicate 255 0). Qed.

Lemma steps_count t evs t' : steps t evs t' -> forall s, t = boot s -> counts t' (tally evs).
Proof.
  induction 1 as [t|t evs t1 e t2 _ IH Hstep]; intros s ->; [apply boot_counts|]. specialize (IH s eq_refl).
  unfold tally in *. rewrite foldl_app. cbn [foldl]. set (a := foldl _ _ _) in *. clearbody a.
  destruct Hstep as [t sz esp l t' r Hl E|t sb mypid devr devw sz esp name name' de' dot dotdot fuel l omode t' r Hl Ho E|t s']; [..|done].
  - pose proof (sys_trace_spec t sz esp l a IH Hl) as Ht. destruct (_ <? _)%nat; [|by rewrite Ht in E].
    destruct Ht as (t2 & Ht & _ & Hc). rewrite Ht in E. by injection E as <- _.
  - unfold sys_open in E.
    destruct (counted_open_spec (Sysfile.sys_open sb mypid devr devw sz esp name name' de' dot dotdot fuel) t sz esp l omode a IH Hl Ho)
      as (t2 & Hc & Et). rewrite Et in E. apply obind_ret in E as ([s1 r1] & _ & [= <- _]). done.
Qed.

(** C40.  After any history of traces, opens and whatever else the machine
    does, [getcount] is the number of opens of the path traced last, modulo the
    width of an [int]; 0 when none was traced.  Opening a file is what it is in
    p3b, tracing succeeds for a path of up to 255 bytes, and runs past the array
    for a longer one. *)
Theorem getcount_counts s0 evs t :
  steps (boot s0) evs t ->
  getcount t = s32 (tally evs).2 /\
  forall sz esp l, path_arg sz (Sysfile.mem (sys t)) esp = Some l ->
    (sys_trace sz esp t = Fault <-> (256 <= length l)%nat) /\
    ((length l < 256)%nat -> exists t', sys_trace sz esp t = Ret (t', 0) /\ sys t' = sys t) /\
    forall sb mypid devr devw name name' de' dot dotdot fuel omode,
      Syscall.argint sz (Sysfile.mem (sys t)) esp 1 = Some omode ->
      exists t', sys_open sb mypid devr devw sz esp name name' de' dot dotdot fuel t =
        let* (s, r) := Sysfile.sys_open sb mypid devr devw sz esp name name' de' dot dotdot fuel (sys t) in
        Ret (with_sys s t', r).
Proof.
  intros Hs. pose proof (steps_count _ _ _ Hs s0 eq_refl) as Hc. split.
  - destruct Hc as [_ Hc]. unfold getcount. assert (Hn : (tally evs).1 = None -> (tally evs).2 = 0).
    { clear. unfold tally. induction evs as [|e evs IH] using rev_ind; [done|]. rewrite foldl_app. cbn [foldl].
      set (a := foldl _ _ _) in *. clearbody a. destruct e as [l|l|]; cbn [tally1 fst snd]; [done| |done].
      intros Hn. rewrite decide_False by (by rewrite Hn). by apply IH. }
    destruct (tally evs) as [[l|] n]; cbn [fst snd] in *; [by destruct Hc as [-> ->]|]. by rewrite Hc, (Hn eq_refl).
  - intros sz esp l Hl. pose proof (sys_trace_spec t sz esp l _ Hc Hl) as Ht.
    destruct (Nat.ltb_spec (length l) 256) as [Hlt|Hge]; split_and!.
    + destruct Ht as (t' & -> & _). split; [done|lia].
    + intros _. destruct Ht as (t' & ? & ? & _). by exists t'.
    + intros. destruct (counted_open_spec (Sysfile.sys_open sb mypid devr devw sz esp name name' de' dot dotdot fuel) t sz esp l omode _ Hc Hl)
        as (t' & _ & E); [done|]. by exists t'.
    + by rewrite Ht.
    + lia.
    + intros. destruct (counted_open_spec (Sysfile.sys_open sb mypid devr devw sz esp name name' de' dot dotdot fuel) t sz esp l omode _ Hc Hl)
        as (t' & _ & E); [done|]. by exists t'.
Qed.

End trace.

(** ** Witness *)

(** A process at an empty root directory traces "a" and opens it. *)
Section witness.
#[local] Instance cache1 : BlockCache Bio.bcache := Bio.bio_cache 1 true 1.

Definition no_device : Z -> option (Fs.fs (Log.log * Bio.bcache) -> bytes -> nat -> Z -> Z ->
    outcome (Fs.fs (Log.log * Bio.bcache) * bytes * Z)) := fun _ => None.
Definition no_sb : Fs.superblock :=
  {| Fs.size := 0; Fs.nblocks := 0; Fs.ninodes := 0; Fs.nlog := 0; Fs.logstart := 0; Fs.inodestart := 0; Fs.bmapstart := 0 |}.
Definition root : Fs.inode :=
  {| Fs.dev := 1; Fs.inum := 1; Fs.ref := 1; Fs.lock := {| Bio.locked := false; Bio.pid := 0 |}; Fs.valid := true; Fs.type := Fs.T_DIR; Fs.major := 0;
     Fs.minor := 0; Fs.nlink := 1; Fs.isize := 0; Fs.addrs := replicate 13 0 |}.
Definition sys0 : Sysfile.sys Bio.bcache :=
  {| Sysfile.fsys := {| Fs.disk := ({| Log.start := 2; Log.log_size := 30; Log.outstanding := 0; Log.committing := false;
                               Log.lh := {| Log.n := 0; Log.lblock := [] |} |}, Bio.boot (fun _ _ _ => 0)); Fs.icache := [root] |};
     Sysfile.ftable := File.table0; Sysfile.pipes := fun _ => Pipe.pipeinit [];
     Sysfile.mem := put8 (put32 (fun _ => 0) 4004 4090) 4090 97;
     Sysfile.ofile := replicate 16 None; Sysfile.cwd := 0 |}.

Definition call_open := sys_open no_sb 1 no_device no_device 4096 4000 5000 5100 5200 5300 5400 20.
Definition t1 : tracer := match sys_trace 4096 4000 (boot sys0) with Ret (t, _) => t | _ => boot sys0 end.
Definition t2 : tracer := match call_open t1 with Ret (t, _) => t | _ => boot sys0 end.

Lemma t1_traced : sys_trace 4096 4000 (boot sys0) = Ret (t1, 0).
Proof. reflexivity. Qed.

Lemma t2_opened : call_open t1 = Ret (t2, -1).
Proof.
  assert (match call_open t1 with Ret (_, r) => Some r | _ => None end = Some (-1)) as Hr by (vm_compute; reflexivity).
  unfold t2. destruct (call_open t1) as [[t r]| | |]; [|done..]. by injection Hr as ->.
Qed.

Lemma getcount_counts_witness : getcount t2 = 1.
Proof.
  refine (eq_trans (proj1 (getcount_counts sys0 [ETrace [97]; EOpen [97]] t2 _)) eq_refl).
  apply (Steps_snoc _ [ETrace [97]] t1); [apply (Steps_snoc _ [] (boot sys0)); [constructor|]|].
  - apply (S_trace _ 4096 4000 [97] t1 0); [vm_compute; reflexivity|exact t1_traced].
  - apply (S_open _ no_sb 1 no_device no_device 4096 4000 5000 5100 5200 5300 5400 20 [97] 0 t2 (-1));
      [vm_compute; reflexivity|vm_compute; reflexivity|exact t2_opened].
Defined.
End witness.

End Trace.
