(* ===== verification/Sh.v ===== *)
(** * The shell of xv6 (p3b, [sh.c])

    Commands are nodes on a heap that only grows, a pointer being the index of
    a node; [parseexec] fills the node of a command while redirections are
    wrapped around it.  The text lies in byte memory and tokens are pairs of
    pointers into it until [nulterminate] ends them.  [panic] ends the process:
    it is [Panic] here.  Memory for the nodes is taken to be there.  A process is
    the system calls it has still to make, with what it does after each; the
    kernel lets any process go on, and may refuse [fork], [exec], [open], [pipe]
    and [chdir]. *)

From S2P Require Import Prelude DfsImage CString.
From Stdlib Require Import Ascii.
Local Open Scope Z_scope.
Local Open Scope xv6_scope.

Module Sh.

Definition MAXARGS : nat := 10.

(** The arguments of [EXEC] are the pairs of [argv] and [eargv] before the
    first null pointer. *)
Inductive node :=
| EXEC (argv : list (Z * Z))
| REDIR (cmd : nat) (file efile mode fd : Z)
| PIPE (left right : nat)
| LIST (left right : nat)
| BACK (cmd : nat).

Notation heap := (list node).

Definition O_RDONLY : Z := 0.
Definition O_WRONLY : Z := 1.
Definition O_RDWR : Z := 2.
Definition O_CREATE : Z := 512.

(** ** Constructors *)

Definition new (h : heap) (n : node) : heap * nat := (h ++ [n], length h).
Definition execcmd (h : heap) : heap * nat := new h (EXEC []).
Definition redircmd (h : heap) (subcmd : nat) (file efile mode fd : Z) : heap * nat :=
  new h (REDIR subcmd file efile mode fd).
Definition pipecmd (h : heap) (left right : nat) : heap * nat := new h (PIPE left right).
Definition listcmd (h : heap) (left right : nat) : heap * nat := new h (LIST left right).
Definition backcmd (h : heap) (subcmd : nat) : heap * nat := new h (BACK subcmd).

(** ** Tokens *)

Definition whitespace : list Z := [32; 9; 13; 10; 11].
Definition symbols : list Z := chr <$> ["<"; "|"; ">"; "&"; ";"; "("; ")"]%char.

(** [strchr] of the user library finds no NUL. *)
Definition strchr (s : list Z) (c : Z) : bool := existsb (Z.eqb c) s.

Section parse.
Context (m : bytes) (es : Z).

(** [while(s < es && strchr(whitespace, *s)) s++], [n] being what is left. *)
Fixpoint skip_from (n : nat) (s : Z) : Z :=
  match n with
  | O => s
  | S n => if strchr whitespace (m s) then skip_from n (s + 1) else s
  end.
Definition skip (s : Z) : Z := skip_from (Z.to_nat (es - s)) s.

Fixpoint word_from (n : nat) (s : Z) : Z :=
  match n with
  | O => s
  | S n => if negb (strchr whitespace (m s)) && negb (strchr symbols (m s)) then word_from n (s + 1) else s
  end.

(** The token's code, its ends, and where the next one is looked for. *)
Definition gettoken (s : Z) : Z * Z * Z * Z :=
  let q := skip s in
  let c := m q in
  let '(ret, eq) :=
    if c =? 0 then (c, q)
    else if strchr (chr <$> ["|"; "("; ")"; ";"; "&"; "<"]%char) c then (c, q + 1)
    else if c =? chr ">" then if m (q + 1) =? chr ">" then (chr "+", q + 2) else (c, q + 1)
    else (chr "a", word_from (Z.to_nat (es - q)) q) in
  (ret, q, eq, skip eq).

Definition peek (s : Z) (toks : list Z) : bool * Z :=
  let s := skip s in (negb (m s =? 0) && strchr toks (m s), s).

(** ** The parser *)

Definition result : Type := outcome (heap * nat * Z).

Fixpoint parseredirs (fuel : nat) (h : heap) (cmd : nat) (s : Z) : result :=
  match fuel with
  | O => Fault
  | S fuel =>
      let (b, s) := peek s (chr <$> ["<"; ">"]%char) in
      if b then
        let '(tok, _, _, s) := gettoken s in
        let '(tok2, q, eq, s) := gettoken s in
        if negb (tok2 =? chr "a") then Panic "missing file for redirection"
        else
          let (h, cmd) :=
            if tok =? chr "<" then redircmd h cmd q eq O_RDONLY 0
            else if tok =? chr ">" then redircmd h cmd q eq (Z.lor O_WRONLY O_CREATE) 1
            else if tok =? chr "+" then redircmd h cmd q eq (Z.lor O_WRONLY O_CREATE) 1
            else (h, cmd) in
          parseredirs fuel h cmd s
      else Ret (h, cmd, s)
  end.

(** [argv[argc] = q] in the node [p]. *)
Definition add_arg (h : heap) (p : nat) (q eq : Z) : outcome (heap * nat) :=
  match h !! p with
  | Some (EXEC argv) => Ret (<[p := EXEC (argv ++ [(q, eq)])]> h, S (length argv))
  | _ => Fault
  end.

Fixpoint parseargs (fuel : nat) (h : heap) (cmd ret : nat) (s : Z) : result :=
  match fuel with
  | O => Fault
  | S fuel' =>
      let (b, s) := peek s (chr <$> ["|"; ")"; "&"; ";"]%char) in
      if b then Ret (h, ret, s)
      else
        let '(tok, q, eq, s) := gettoken s in
        if tok =? 0 then Ret (h, ret, s)
        else if negb (tok =? chr "a") then Panic "syntax"
        else
          let* (h, argc) := add_arg h cmd q eq in
          if (MAXARGS <=? argc)%nat then Panic "too many args"
          else
            let* (h, ret, s) := parseredirs fuel h ret s in
            parseargs fuel' h cmd ret s
  end.

Section line.
Context (parseline : heap -> Z -> result).

Definition parseblock (fuel : nat) (h : heap) (s : Z) : result :=
  let (b, s) := peek s [chr "("] in
  if negb b then Panic "parseblock"
  else
    let '(_, _, _, s) := gettoken s in
    let* (h, cmd, s) := parseline h s in
    let (b, s) := peek s [chr ")"] in
    if negb b then Panic "syntax - missing )"
    else
      let '(_, _, _, s) := gettoken s in
      parseredirs fuel h cmd s.

Definition parseexec (fuel : nat) (h : heap) (s : Z) : result :=
  let (b, s) := peek s [chr "("] in
  if b then parseblock fuel h s
  else
    let (h, cmd) := execcmd h in
    let* (h, ret, s) := parseredirs fuel h cmd s in
    parseargs fuel h cmd ret s.

Fixpoint parsepipe (fuel : nat) (h : heap) (s : Z) : result :=
  match fuel with
  | O => Fault
  | S fuel' =>
      let* (h, cmd, s) := parseexec fuel h s in
      let (b, s) := peek s [chr "|"] in
      if b then
        let '(_, _, _, s) := gettoken s in
        let* (h, rcmd, s) := parsepipe fuel' h s in
        let (h, cmd) := pipecmd h cmd rcmd in
        Ret (h, cmd, s)
      else Ret (h, cmd, s)
  end.
End line.

(** [while(peek(ps, es, "&"))] *)
Fixpoint parseback (fuel : nat) (h : heap) (cmd : nat) (s : Z) : result :=
  match fuel with
  | O => Fault
  | S fuel =>
      let (b, s) := peek s [chr "&"] in
      if b then
        let '(_, _, _, s) := gettoken s in
        let (h, cmd) := backcmd h cmd in
        parseback fuel h cmd s
      else Ret (h, cmd, s)
  end.

Fixpoint parseline (fuel : nat) (h : heap) (s : Z) : result :=
  match fuel with
  | O => Fault
  | S fuel' =>
      let* (h, cmd, s) := parsepipe (parseline fuel') fuel h s in
      let* (h, cmd, s) := parseback fuel h cmd s in
      let (b, s) := peek s [chr ";"] in
      if b then
        let '(_, _, _, s) := gettoken s in
        let* (h, rcmd, s) := parseline fuel' h s in
        let (h, cmd) := listcmd h cmd rcmd in
        Ret (h, cmd, s)
      else Ret (h, cmd, s)
  end.

End parse.

Fixpoint nulterminate (fuel : nat) (h : heap) (m : bytes) (cmd : nat) : outcome bytes :=
  match fuel with
  | O => Fault
  | S fuel =>
      match h !! cmd with
      | None => Fault
      | Some (EXEC argv) => Ret (foldl (fun m a => put8 m a.2 0) m argv)
      | Some (REDIR c _ efile _ _) => let* m := nulterminate fuel h m c in Ret (put8 m efile 0)
      | Some (PIPE l r) | Some (LIST l r) =>
          let* m := nulterminate fuel h m l in nulterminate fuel h m r
      | Some (BACK c) => nulterminate fuel h m c
      end
  end.

(** The nodes, the root, and the text with its strings ended. *)
Definition parsecmd (fuel : nat) (m : bytes) (s : Z) : outcome (heap * nat * bytes) :=
  let* len := of_option (CString.strlen fuel m s 0) in
  let es := s + len in
  let* (h, cmd, s) := parseline m es fuel [] s in
  let (_, s) := peek m es s [] in
  if negb (s =? es) then Panic "syntax"
  else
    let* m := nulterminate (length h) h m cmd in
    Ret (h, cmd, m).

(** ** Running *)

(** What a descriptor refers to; pipes are told apart by a number. *)
Inductive obj := Console | File (path : list Z) (mode : Z) | PipeR (k : nat) | PipeW (k : nat).
Notation fdtable := (list (option obj)).

(** What a process does: a system call, and what follows for each result. *)
Inductive prog :=
| Exit
| Exec (argv : list (list Z)) (failed : prog)
| Fork (child parent failed : prog)
| Wait (next : prog)
| Open (path : list Z) (mode : Z) (next : Z -> prog)
| Close (fd : Z) (next : prog)
| Dup (fd : Z) (next : prog)
| Pipe (next : option (Z * Z) -> prog)
| Chdir (path : list Z) (next : Z -> prog)
| Printf (fmt : string) (arg : list Z) (next : prog)
| Stuck.

Definition panic (msg : string) : prog := Printf msg [] Exit.
Definition fork1 (child parent : prog) : prog := Fork child parent (panic "fork").

(** The string at [a]. *)
Fixpoint str (fuel : nat) (m : bytes) (a : Z) : option (list Z) :=
  match fuel with
  | O => None
  | S fuel => if m a =? 0 then Some [] else let? l := str fuel m (a + 1) in Some (m a :: l)
  end.

Section run.
Context (width : nat).

Fixpoint runcmd (fuel : nat) (h : heap) (m : bytes) (cmd : nat) : prog :=
  match fuel with
  | O => Stuck
  | S fuel =>
      match h !! cmd with
      | None => Stuck
      | Some (EXEC argv) =>
          match mapM (fun a => str width m a.1) argv with
          | None => Stuck
          | Some [] => Exit
          | Some ((arg0 :: _) as args) => Exec args (Printf "exec %s failed" arg0 Exit)
          end
      | Some (REDIR c file _ mode fd) =>
          match str width m file with
          | None => Stuck
          | Some path =>
              Close fd (Open path mode (fun r =>
                if r <? 0 then Printf "open %s failed" path Exit else runcmd fuel h m c))
          end
      | Some (LIST l r) => fork1 (runcmd fuel h m l) (Wait (runcmd fuel h m r))
      | Some (PIPE l r) =>
          Pipe (fun p =>
            match p with
            | None => panic "pipe"
            | Some (p0, p1) =>
                fork1 (Close 1 (Dup p1 (Close p0 (Close p1 (runcmd fuel h m l)))))
                  (fork1 (Close 0 (Dup p0 (Close p0 (Close p1 (runcmd fuel h m r)))))
                    (Close p0 (Close p1 (Wait (Wait Exit)))))
            end)
      | Some (BACK c) => fork1 (runcmd fuel h m c) Exit
      end
  end.

Definition nbuf : nat := 100.

(** [getcmd] after its prompt. *)
Definition getcmd (m : bytes) (buf : Z) (input : list Z) : bytes * list Z * Z :=
  let m := CString.pad m buf nbuf in
  let (m, input) := CString.gets m buf (Z.of_nat nbuf) input in
  (m, input, if m buf =? 0 then -1 else 0).

(** [runcmd(parsecmd(buf))] *)
Definition run_line (m : bytes) (buf : Z) : prog :=
  match parsecmd width m buf with
  | Ret (h, cmd, m) => runcmd (length h) h m cmd
  | Panic msg => panic msg
  | _ => Stuck
  end.

(** The loop of [main]; [input] is what its reads give. *)
Fixpoint main_loop (fuel : nat) (m : bytes) (buf : Z) (input : list Z) : prog :=
  match fuel with
  | O => Stuck
  | S fuel =>
      Printf "$ " [] (
        let '(m, input, r) := getcmd m buf input in
        if r <? 0 then Exit
        else if (m buf =? chr "c") && (m (buf + 1) =? chr "d") && (m (buf + 2) =? 32) then
          match CString.strlen nbuf m buf 0 with
          | None => Stuck
          | Some len =>
              let m := put8 m (buf + (len - 1)) 0 in
              match str nbuf m (buf + 3) with
              | None => Stuck
              | Some path =>
                  Chdir path (fun r =>
                    if r <? 0 then Printf "cannot cd %s" path (main_loop fuel m buf input)
                    else main_loop fuel m buf input)
              end
          end
        else fork1 (run_line m buf) (Wait (main_loop fuel m buf input)))
  end.

(** [while((fd = open("console", O_RDWR)) >= 0)]; the fourth descriptor is 3
    at least. *)
Fixpoint open_console (fuel : nat) (next : prog) : prog :=
  match fuel with
  | O => Stuck
  | S fuel =>
      Open (lit "console") O_RDWR (fun fd =>
        if fd <? 0 then next else if 3 <=? fd then Close fd next else open_console fuel next)
  end.

Definition main (fuel : nat) (m : bytes) (buf : Z) (input : list Z) : prog :=
  open_console 4 (main_loop fuel m buf input).

End run.

(** ** Processes *)

(** A process runs the shell's code, or a program that [exec] has started, or
    waits to be collected. *)
Inductive status := Runs (p : prog) | Program (argv : list (list Z)) | Zombie.
Inductive proc := Proc (st : status) (fds : fdtable) (children : list proc).

(** What is seen of them: programs that start and end, changes of directory,
    and what the shell prints. *)
Inductive event :=
| Started (argv : list (list Z)) (fds : fdtable)
| Ended (argv : list (list Z)) (fds : fdtable)
| Moved (path : list Z)
| Said (fmt : string) (arg : list Z).

(** The calls on the descriptor table. *)
Fixpoint lowest (fds : fdtable) : option nat :=
  match fds with [] => None | None :: _ => Some 0%nat | Some _ :: fds => S <$> lowest fds end.

Definition close (fds : fdtable) (fd : Z) : fdtable := <[Z.to_nat fd := None]> fds.
Definition put (fds : fdtable) (o : obj) : option (fdtable * Z) :=
  let? k := lowest fds in Some (<[k := Some o]> fds, Z.of_nat k).
(** The result of [dup] is not looked at. *)
Definition dup (fds : fdtable) (fd : Z) : fdtable :=
  match fds !! Z.to_nat fd with
  | Some (Some o) => match put fds o with Some (fds, _) => fds | None => fds end
  | _ => fds
  end.
Definition pipe (fds : fdtable) (n : nat) : option (fdtable * Z * Z) :=
  let? (fds, p0) := put fds (PipeR n) in
  let? (fds, p1) := put fds (PipeW n) in Some (fds, p0, p1).

(** A step of a process or of one of its descendants.  [n] counts the pipes;
    the last component is the processes that have lost their parent. *)
Inductive step : nat -> proc -> list event -> nat -> proc -> list proc -> Prop :=
| step_exit n fds cs : step n (Proc (Runs Exit) fds cs) [] n (Proc Zombie [] []) cs
| step_exec n argv f fds cs :
    step n (Proc (Runs (Exec argv f)) fds cs) [Started argv fds] n (Proc (Program argv) fds cs) []
| step_exec_failed n argv f fds cs : step n (Proc (Runs (Exec argv f)) fds cs) [] n (Proc (Runs f) fds cs) []
| step_program n argv fds cs : step n (Proc (Program argv) fds cs) [Ended argv fds] n (Proc Zombie [] []) cs
| step_fork n c p f fds cs :
    step n (Proc (Runs (Fork c p f)) fds cs) [] n (Proc (Runs p) fds (cs ++ [Proc (Runs c) fds []])) []
| step_fork_failed n c p f fds cs : step n (Proc (Runs (Fork c p f)) fds cs) [] n (Proc (Runs f) fds cs) []
| step_wait n p fds cs1 fds' cs2 :
    step n (Proc (Runs (Wait p)) fds (cs1 ++ Proc Zombie fds' [] :: cs2)) [] n (Proc (Runs p) fds (cs1 ++ cs2)) []
| step_wait_none n p fds : step n (Proc (Runs (Wait p)) fds []) [] n (Proc (Runs p) fds []) []
| step_open n path mode p fds cs fds' fd :
    put fds (File path mode) = Some (fds', fd) ->
    step n (Proc (Runs (Open path mode p)) fds cs) [] n (Proc (Runs (p fd)) fds' cs) []
| step_open_failed n path mode p fds cs :
    step n (Proc (Runs (Open path mode p)) fds cs) [] n (Proc (Runs (p (-1))) fds cs) []
| step_close n fd p fds cs : step n (Proc (Runs (Close fd p)) fds cs) [] n (Proc (Runs p) (close fds fd) cs) []
| step_dup n fd p fds cs : step n (Proc (Runs (Dup fd p)) fds cs) [] n (Proc (Runs p) (dup fds fd) cs) []
| step_pipe n p fds cs fds' p0 p1 :
    pipe fds n = Some (fds', p0, p1) ->
    step n (Proc (Runs (Pipe p)) fds cs) [] (S n) (Proc (Runs (p (Some (p0, p1)))) fds' cs) []
| step_pipe_failed n p fds cs : step n (Proc (Runs (Pipe p)) fds cs) [] n (Proc (Runs (p None)) fds cs) []
| step_chdir n path p fds cs :
    step n (Proc (Runs (Chdir path p)) fds cs) [Moved path] n (Proc (Runs (p 0)) fds cs) []
| step_chdir_failed n path p fds cs :
    step n (Proc (Runs (Chdir path p)) fds cs) [] n (Proc (Runs (p (-1))) fds cs) []
| step_printf n fmt arg p fds cs :
    step n (Proc (Runs (Printf fmt arg p)) fds cs) [Said fmt arg] n (Proc (Runs p) fds cs) []
| step_child n st fds cs1 c cs2 e n' c' orphans :
    step n c e n' c' orphans ->
    step n (Proc st fds (cs1 ++ c :: cs2)) e n' (Proc st fds (cs1 ++ c' :: cs2)) orphans.

(** The shell and the processes [init] has taken over, which it collects. *)
Definition world : Type := nat * proc * list proc.

Inductive kstep : world -> list event -> world -> Prop :=
| k_shell n p e n' p' orphans ps : step n p e n' p' orphans -> kstep (n, p, ps) e (n', p', ps ++ orphans)
| k_other n p ps1 q e n' q' orphans ps2 :
    step n q e n' q' orphans -> kstep (n, p, ps1 ++ q :: ps2) e (n', p, ps1 ++ q' :: ps2 ++ orphans)
| k_init n p ps1 fds ps2 : kstep (n, p, ps1 ++ Proc Zombie fds [] :: ps2) [] (n, p, ps1 ++ ps2).

(** Histories of [len] steps. *)
Inductive history {W} (next : W -> list event -> W -> Prop) : nat -> W -> list event -> W -> Prop :=
| history_now w : history next 0 w [] w
| history_step len w e w' e' w'' : next w e w' -> history next len w' e' w'' -> history next (S len) w (e ++ e') w''.

End Sh.
