(* ===== verification/ShLex.v ===== *)
(** * The shell of xv6: its grammar

    What a line is made of: tokens in the text ([lexed]), the trees the grammar
    of [parseline] gives them to ([line]), the commands these stand for
    ([cmd]), and when nodes on the heap are such a command ([den]); then what
    [gettoken] and [peek] do on tokens. *)

From S2P Require Import Prelude DfsImage CString Sh.
From Stdlib Require Import Ascii.
Import Sh.
Local Open Scope Z_scope.
Local Open Scope xv6_scope.

Module ShLex.

(** ** Tokens *)

Inductive token := Sym (c : Z) | Gt | GtGt | Word (w : list Z).

Definition wordc (c : Z) : bool := negb (c =? 0) && negb (strchr whitespace c) && negb (strchr symbols c).

Definition tok_text (t : token) : list Z :=
  match t with Sym c => [c] | Gt => [chr ">"] | GtGt => [chr ">"; chr ">"] | Word w => w end.
Definition good_tok (t : token) : Prop :=
  match t with
  | Sym c => c ∈ chr <$> ["|"; "("; ")"; ";"; "&"; "<"]%char
  | Word w => w <> [] /\ Forall (fun c => wordc c = true) w
  | _ => True
  end.
(** The code [gettoken] returns. *)
Definition code (t : token) : Z :=
  match t with Sym c => c | Gt => chr ">" | GtGt => chr "+" | Word _ => chr "a" end.

(** The character the next token starts with; NUL at the end. *)
Definition first (ts : list token) : Z := match ts with [] => 0 | t :: _ => hd 0 (tok_text t) end.

Section lex.
Context (m : bytes) (lo es : Z).

Fixpoint reads (a : Z) (l : list Z) : Prop :=
  match l with [] => True | c :: l => m a = c /\ reads (a + 1) l end.
Definition blanks (s q : Z) : Prop := forall x, s <= x < q -> strchr whitespace (m x) = true.

(** Where a token may end. *)
Definition ends (t : token) (c : Z) : Prop :=
  match t with Word _ => wordc c = false | Gt => c <> chr ">" | _ => True end.

(** The text from [s] on is the tokens [ts], with blanks between them. *)
Inductive lexed : Z -> list token -> Prop :=
| lex_end s : s <= es -> blanks s es -> lexed s []
| lex_tok s q t ts :
    s <= q -> blanks s q -> good_tok t -> reads q (tok_text t) ->
    q + Z.of_nat (length (tok_text t)) <= es -> ends t (m (q + Z.of_nat (length (tok_text t)))) ->
    lexed (q + Z.of_nat (length (tok_text t))) ts -> lexed s (t :: ts).

(** A line of text: no NUL before its end. *)
Record text : Prop := { tx_le : lo <= es; tx_end : m es = 0; tx_in : forall x, lo <= x < es -> m x <> 0 }.

(** A word lies at [q] and ends before [eq]. *)
Definition word_at (q eq : Z) (w : list Z) : Prop :=
  lo <= q /\ eq = q + Z.of_nat (length w) /\ eq <= es /\ reads q w /\ good_tok (Word w) /\ wordc (m eq) = false.

Lemma skip_from_spec n s q :
  blanks s q -> s <= q <= s + Z.of_nat n -> (q < s + Z.of_nat n -> strchr whitespace (m q) = false) -> skip_from m n s = q.
Proof.
  revert s. induction n as [|n IH]; intros s Hb Hq Hend; cbn [skip_from]; [lia|].
  destruct (decide (s = q)) as [->|Hne]; [rewrite Hend by lia; done|].
  rewrite (Hb s) by lia. apply IH; [intros x ?; apply Hb; lia|lia|intros; apply Hend; lia].
Qed.

Lemma skip_spec s q :
  blanks s q -> s <= q <= es -> (q < es -> strchr whitespace (m q) = false) -> skip m es s = q.
Proof. intros. apply skip_from_spec; [done|lia|intros; apply H1; lia]. Qed.

Lemma wordc_blank c : wordc c = true -> strchr whitespace c = false.
Proof. unfold wordc. by destruct (c =? 0), (strchr whitespace c). Qed.

Lemma sym_facts c : c ∈ chr <$> ["|"; "("; ")"; ";"; "&"; "<"]%char ->
  strchr whitespace c = false /\ c <> 0 /\ strchr (chr <$> ["|"; "("; ")"; ";"; "&"; "<"]%char) c = true.
Proof. cbn [fmap list_fmap]. rewrite !elem_of_cons. intros [->|[->|[->|[->|[->|[->|[]%elem_of_nil]]]]]]; done. Qed.

Lemma tok_start t : good_tok t -> strchr whitespace (hd 0 (tok_text t)) = false /\ hd 0 (tok_text t) <> 0 /\ tok_text t <> [].
Proof.
  destruct t as [c| | |w]; cbn [good_tok tok_text hd]; [by intros (? & ? & _)%sym_facts|done|done|].
  intros [Hw Hf]. destruct w as [|c w]; [done|]. apply Forall_cons in Hf as [Hc _]. cbn [hd].
  split; [by apply wordc_blank|]. split; [|done]. intros ->. done.
Qed.

Lemma lexed_le s ts : lexed s ts -> s <= es.
Proof. induction 1; lia. Qed.

(** Skipping blanks finds the next token. *)
Lemma lexed_skip s ts : text -> lexed s ts ->
  lexed (skip m es s) ts /\ m (skip m es s) = first ts /\ s <= skip m es s <= es /\ skip m es (skip m es s) = skip m es s.
Proof.
  intros Ht Hl. assert (Hb0 : forall q, blanks q q) by (intros q x ?; lia).
  destruct Hl as [s Hs Hb|s q t ts Hs Hb Hg Hr Hle He Hl].
  - rewrite (skip_spec s es) by (done || lia). rewrite (skip_spec es es) by (done || lia).
    split_and!; [by constructor|by apply tx_end|lia|lia|done].
  - destruct (tok_start t Hg) as (Hw & _ & Hne).
    assert (m q = hd 0 (tok_text t)) as Hq by (destruct (tok_text t); [done|by destruct Hr]).
    rewrite (skip_spec s q) by (first [done|lia|by rewrite Hq]). rewrite (skip_spec q q) by (first [done|lia|by rewrite Hq]).
    split_and!; [by apply lex_tok with q|done|lia|lia|done].
Qed.

Lemma word_from_spec n q w :
  reads q w -> Forall (fun c => wordc c = true) w -> Z.of_nat (length w) <= Z.of_nat n ->
  (Z.of_nat (length w) < Z.of_nat n -> wordc (m (q + Z.of_nat (length w))) = false /\ m (q + Z.of_nat (length w)) <> 0) ->
  word_from m n q = q + Z.of_nat (length w).
Proof.
  revert q w. induction n as [|n IH]; intros q w Hr Hw Hn He; [destruct w; [cbn; lia|simpl in Hn; lia]|].
  destruct w as [|c w]; cbn [word_from length] in *.
  - destruct He as [He Hz]; [lia|]. rewrite Z.add_0_r in He, Hz |- *. unfold wordc in He.
    rewrite (proj2 (Z.eqb_neq _ _) Hz) in He. cbn [negb andb] in He. by rewrite He.
  - destruct Hr as [-> Hr]. apply Forall_cons in Hw as [Hc Hw]. pose proof Hc as Hc'. unfold wordc in Hc'.
    apply andb_true_iff in Hc' as [[_ ->]%andb_true_iff ->]. cbn [andb].
    rewrite (IH (q + 1) w Hr Hw); [lia|lia|]. intros. replace (q + 1 + Z.of_nat (length w)) with (q + Z.of_nat (S (length w))) by lia.
    apply He. lia.
Qed.

(** [gettoken] takes the next token. *)
Lemma gettoken_lexed s t ts : text -> lo <= s -> lexed s (t :: ts) ->
  exists q eq s', gettoken m es s = (code t, q, eq, s') /\ lexed s' ts /\ s < s' /\
    match t with Word w => word_at q eq w | _ => True end.
Proof.
  intros Ht Hlo Hl. inversion Hl as [|? q ? ? Hs Hb Hg Hr Hle He Hl']; subst.
  destruct (tok_start t Hg) as (Hw & Hnz & Hne).
  assert (m q = hd 0 (tok_text t)) as Hq by (destruct (tok_text t); [done|by destruct Hr]).
  assert (skip m es s = q) as Hskip.
  { apply skip_spec; [done|destruct (tok_text t); [done|simpl in Hle; lia]|by rewrite Hq]. }
  set (eq := q + Z.of_nat (length (tok_text t))) in *.
  destruct (lexed_skip eq ts Ht Hl') as (Hl2 & _ & Hsk & _).
  assert (q < eq) by (unfold eq; destruct (tok_text t); [done|simpl; lia]).
  exists q, eq, (skip m es eq). split; [|split; [done|split; [lia|]]].
  - unfold gettoken. rewrite Hskip, Hq, (proj2 (Z.eqb_neq _ _) Hnz).
    destruct t as [c| | |w]; cbn [good_tok tok_text hd code] in *.
    + destruct (sym_facts c Hg) as (_ & _ & ->). done.
    + change (strchr _ (chr ">")) with false. cbv iota. rewrite Z.eqb_refl.
      change (q + 1) with eq. by rewrite (proj2 (Z.eqb_neq (m eq) (chr ">"))) by exact He.
    + change (strchr _ (chr ">")) with false. cbv iota. rewrite Z.eqb_refl.
      destruct Hr as (_ & Hr & _). by rewrite Hr, Z.eqb_refl.
    + destruct Hg as [Hwn Hf]. destruct w as [|c w]; [done|]. cbn [hd] in *.
      assert (wordc c = true) as Hc by by apply Forall_cons in Hf as [? _].
      assert (strchr (chr <$> ["|"; "("; ")"; ";"; "&"; "<"]%char) c = false /\ (c =? chr ">") = false) as [-> ->].
      { unfold wordc in Hc. apply andb_true_iff in Hc as [_ Hc]. clear -Hc.
        unfold symbols, strchr in *. cbn [fmap list_fmap existsb] in *.
        apply negb_true_iff in Hc. rewrite !orb_false_iff in Hc. destruct_and!.
        split; [rewrite !orb_false_iff; by split_and!|done]. }
      rewrite (word_from_spec (Z.to_nat (es - q)) q (c :: w)); [done|done|done|lia|].
      intros Hlt. split; [exact He|]. apply (tx_in Ht). lia.
  - destruct t as [| | |w]; try done. cbn [tok_text ends] in *. split_and!; try done. lia.
Qed.

Lemma gettoken_end s : text -> lexed s [] -> gettoken m es s = (0, es, es, es).
Proof.
  intros Ht Hl. inversion Hl as [? Hs Hb|]; subst. unfold gettoken.
  rewrite (skip_spec s es) by (done || lia). rewrite (tx_end Ht). cbn. f_equal. apply skip_spec; [intros x ?; lia|lia|lia].
Qed.

(** Every text is a sequence of tokens. *)
Lemma blank_run n s : exists q, s <= q <= s + Z.of_nat n /\ blanks s q /\
  (q < s + Z.of_nat n -> strchr whitespace (m q) = false).
Proof.
  revert s. induction n as [|n IH]; intros s.
  { exists s. split; [lia|]. split; [intros x ?; lia|lia]. }
  destruct (strchr whitespace (m s)) eqn:E.
  - destruct (IH (s + 1)) as (q & Hq & Hb & He). exists q. split; [lia|]. split; [|intros; apply He; lia].
    intros x Hx. destruct (decide (x = s)) as [->|]; [done|]. apply Hb. lia.
  - exists s. split; [lia|]. split; [intros x ?; lia|done].
Qed.

Lemma word_run n s : exists w, reads s w /\ Forall (fun c => wordc c = true) w /\ Z.of_nat (length w) <= Z.of_nat n /\
  (Z.of_nat (length w) < Z.of_nat n -> wordc (m (s + Z.of_nat (length w))) = false).
Proof.
  revert s. induction n as [|n IH]; intros s.
  { exists []. split_and!; [done|constructor|done|simpl; lia]. }
  destruct (wordc (m s)) eqn:E.
  - destruct (IH (s + 1)) as (w & Hr & Hw & Hn & He). exists (m s :: w). split; [done|]. split; [by constructor|]. split; [simpl; lia|].
    intros Hlt. simpl in Hlt. replace (s + Z.of_nat (length (m s :: w))) with (s + 1 + Z.of_nat (length w)) by (simpl; lia).
    apply He. lia.
  - exists []. split_and!; [done|constructor|simpl; lia|]. intros. simpl. by rewrite Z.add_0_r.
Qed.

Lemma lexable s : text -> lo <= s <= es -> exists ts, lexed s ts.
Proof.
  intros Ht. remember (Z.to_nat (es - s)) as n eqn:En. revert s En.
  induction n as [n IH] using lt_wf_ind. intros s -> Hs.
  destruct (blank_run (Z.to_nat (es - s)) s) as (q & Hq & Hb & He). rewrite Z2Nat.id in Hq, He by lia.
  destruct (decide (q = es)) as [->|Hne]; [exists []; constructor; [lia|done]|]. specialize (He ltac:(lia)).
  assert (forall t, good_tok t -> reads q (tok_text t) -> q + Z.of_nat (length (tok_text t)) <= es ->
    ends t (m (q + Z.of_nat (length (tok_text t)))) -> exists ts, lexed s ts) as Hstep.
  { intros t Hg Hr Hle Hend. destruct (tok_start t Hg) as (_ & _ & Hnn).
    assert (0 < Z.of_nat (length (tok_text t))) as Hpos by (destruct (tok_text t); [done|simpl; lia]).
    destruct (IH (Z.to_nat (es - (q + Z.of_nat (length (tok_text t))))) ltac:(lia) _ eq_refl ltac:(lia)) as (ts & Hts).
    exists (t :: ts). apply lex_tok with q; (done || lia). }
  assert (m q <> 0) as Hz by (apply (tx_in Ht); lia).
  destruct (decide (m q ∈ chr <$> ["|"; "("; ")"; ";"; "&"; "<"]%char)) as [Hsym|Hsym].
  { apply (Hstep (Sym (m q))); [done|done|cbn [tok_text length]; lia|done]. }
  destruct (decide (m q = chr ">")) as [Hgt|Hgt].
  { destruct (decide (m (q + 1) = chr ">")) as [Hgt2|Hgt2]; [|by apply (Hstep Gt); [done|done|cbn; lia|done]].
    apply (Hstep GtGt); [done|done| |done]. cbn.
    destruct (decide (q + 1 = es)) as [E|]; [|lia]. rewrite E, (tx_end Ht) in Hgt2. done. }
  destruct (word_run (Z.to_nat (es - q)) q) as (w & Hr & Hw & Hn & Hend). rewrite Z2Nat.id in Hn, Hend by lia.
  apply (Hstep (Word w)); [|done|cbn; lia|].
  - split; [|done]. intros ->. cbn in Hend. rewrite Z.add_0_r in Hend. specialize (Hend ltac:(lia)).
    unfold wordc in Hend. rewrite (proj2 (Z.eqb_neq _ _) Hz), He in Hend. cbn [negb andb] in Hend.
    apply negb_false_iff in Hend. unfold symbols, strchr in Hend. cbn [fmap list_fmap] in *.
    apply existsb_exists in Hend as (c & Hc & E%Z.eqb_eq). apply list_elem_of_In in Hc.
    rewrite E in Hsym, Hgt. clear -Hc Hsym Hgt. set_solver.
  - cbn. destruct (decide (Z.of_nat (length w) = es - q)) as [E|]; [|apply Hend; lia].
    replace (q + Z.of_nat (length w)) with es by lia. by rewrite (tx_end Ht).
Qed.

End lex.

(** ** Lines *)

(** [<], [>] or [>>] with a file. *)
Inductive redir := RIn (f : list Z) | ROut (f : list Z) | RApp (f : list Z).

(** What [parseline], [parsepipe] and [parseexec] read: a pipeline, [&]s and
    perhaps another line behind a semicolon; commands with [|] between them; a
    line in parentheses, or words with redirections anywhere. *)
Inductive line :=
| LEnd (p : pipes) (amps : nat)
| LSeq (p : pipes) (amps : nat) (l : line)
with pipes :=
| PEnd (e : ex)
| PBar (e : ex) (p : pipes)
with ex :=
| XBlock (l : line) (rs : list redir)
| XWords (rs : list redir) (ws : list (list Z * list redir)).

Scheme line_mind := Induction for line Sort Prop
  with pipes_mind := Induction for pipes Sort Prop
  with ex_mind := Induction for ex Sort Prop.
Combined Scheme line_pipes_ex_ind from line_mind, pipes_mind, ex_mind.

Definition toks_redir (r : redir) : list token :=
  match r with RIn f => [Sym (chr "<"); Word f] | ROut f => [Gt; Word f] | RApp f => [GtGt; Word f] end.
Definition toks_redirs (rs : list redir) : list token := rs ≫= toks_redir.
Definition toks_arg (a : list Z * list redir) : list token := Word a.1 :: toks_redirs a.2.

Fixpoint toks_line (l : line) : list token :=
  match l with
  | LEnd p k => toks_pipes p ++ replicate k (Sym (chr "&"))
  | LSeq p k l => toks_pipes p ++ replicate k (Sym (chr "&")) ++ Sym (chr ";") :: toks_line l
  end
with toks_pipes (p : pipes) : list token :=
  match p with
  | PEnd e => toks_ex e
  | PBar e p => toks_ex e ++ Sym (chr "|") :: toks_pipes p
  end
with toks_ex (e : ex) : list token :=
  match e with
  | XBlock l rs => Sym (chr "(") :: toks_line l ++ Sym (chr ")") :: toks_redirs rs
  | XWords rs ws => toks_redirs rs ++ ws ≫= toks_arg
  end.

(** At most nine words. *)
Fixpoint ok_line (l : line) : Prop :=
  match l with LEnd p _ => ok_pipes p | LSeq p _ l => ok_pipes p /\ ok_line l end
with ok_pipes (p : pipes) : Prop :=
  match p with PEnd e => ok_ex e | PBar e p => ok_ex e /\ ok_pipes p end
with ok_ex (e : ex) : Prop :=
  match e with XBlock l _ => ok_line l | XWords _ ws => (length ws < MAXARGS)%nat end.

(** ** Commands *)

Inductive cmd :=
| CExec (args : list (list Z))
| CRedir (c : cmd) (file : list Z) (mode fd : Z)
| CPipe (l r : cmd)
| CList (l r : cmd)
| CBack (c : cmd).

(** Redirections are wrapped around a command in the order they come. *)
Definition tree_redir (c : cmd) (r : redir) : cmd :=
  match r with
  | RIn f => CRedir c f O_RDONLY 0
  | ROut f | RApp f => CRedir c f (Z.lor O_WRONLY O_CREATE) 1
  end.
Definition tree_redirs (c : cmd) (rs : list redir) : cmd := foldl tree_redir c rs.

Fixpoint tree_line (l : line) : cmd :=
  match l with
  | LEnd p k => Nat.iter k CBack (tree_pipes p)
  | LSeq p k l => CList (Nat.iter k CBack (tree_pipes p)) (tree_line l)
  end
with tree_pipes (p : pipes) : cmd :=
  match p with
  | PEnd e => tree_ex e
  | PBar e p => CPipe (tree_ex e) (tree_pipes p)
  end
with tree_ex (e : ex) : cmd :=
  match e with
  | XBlock l rs => tree_redirs (tree_line l) rs
  | XWords rs ws => tree_redirs (CExec ws.*1) (rs ++ ws ≫= snd)
  end.

(** ** Commands on the heap *)

Ltac parts := repeat match goal with |- _ /\ _ => split end; first [done|by apply lookup_app_l_Some|by auto].

Section denotes.
Implicit Types (h : list node) (P : Z -> Z -> list Z -> Prop).

(** The node [p] and what it points to are the command [c]; [P] says when two
    pointers are a word. *)
Fixpoint denotes P h (p : nat) (c : cmd) : Prop :=
  match c with
  | CExec args => exists argv, h !! p = Some (EXEC argv) /\ Forall2 (fun a w => P a.1 a.2 w) argv args
  | CRedir c f mode fd => exists p' q eq, h !! p = Some (REDIR p' q eq mode fd) /\ (p' < p)%nat /\
      P q eq f /\ denotes P h p' c
  | CPipe l r => exists a b, h !! p = Some (PIPE a b) /\ (a < p)%nat /\ (b < p)%nat /\ denotes P h a l /\ denotes P h b r
  | CList l r => exists a b, h !! p = Some (LIST a b) /\ (a < p)%nat /\ (b < p)%nat /\ denotes P h a l /\ denotes P h b r
  | CBack c => exists a, h !! p = Some (BACK a) /\ (a < p)%nat /\ denotes P h a c
  end.

Lemma den_grow P h h' p c : denotes P h p c -> denotes P (h ++ h') p c.
Proof.
  revert p. induction c as [args|c IH f mode fd|l IHl r IHr|l IHl r IHr|c IH]; intros p; cbn [denotes].
  - intros (argv & ? & ?). exists argv. split; [by apply lookup_app_l_Some|done].
  - intros (p' & q & eq & ? & ? & ? & ?). exists p', q, eq. parts.
  - intros (a & b & ? & ? & ? & ? & ?). exists a, b. parts.
  - intros (a & b & ? & ? & ? & ? & ?). exists a, b. parts.
  - intros (a & ? & ? & ?). exists a. parts.
Qed.

Lemma den_lt P h p c : denotes P h p c -> (p < length h)%nat.
Proof.
  destruct c; cbn [denotes]; intros; repeat match goal with H : exists _, _ |- _ => destruct H end;
    destruct_and!; by eapply lookup_lt_Some.
Qed.

Lemma den_impl P Q h p c : (forall q eq w, P q eq w -> Q q eq w) -> denotes P h p c -> denotes Q h p c.
Proof.
  intros HPQ. revert p. induction c as [args|c IH f mode fd|l IHl r IHr|l IHl r IHr|c IH]; intros p; cbn [denotes].
  - intros (argv & ? & HF). exists argv. split; [done|]. eapply Forall2_impl; [exact HF|]. intros. by apply HPQ.
  - intros (p' & q & eq & ? & ? & ? & ?). exists p', q, eq. parts.
  - intros (a & b & ? & ? & ? & ? & ?). exists a, b. parts.
  - intros (a & b & ? & ? & ? & ? & ?). exists a, b. parts.
  - intros (a & ? & ? & ?). exists a. parts.
Qed.

End denotes.

(** With the words where they were read, and with strings that end. *)
Notation den m lo es := (denotes (word_at m lo es)).
Definition cstring (m : bytes) (a : Z) (w : list Z) : Prop :=
  reads m a w /\ Forall (fun c => c <> 0) w /\ m (a + Z.of_nat (length w)) = 0.
Notation command m k := (denotes (fun q _ w => cstring m q w /\ (length w <= k)%nat)).

(** The text [txt], wherever it lies, is the tokens [ts]. *)
Definition spells (txt : list Z) (ts : list token) : Prop :=
  forall m s, cstring m s txt -> lexed m (s + Z.of_nat (length txt)) s ts.

(** Tokens written with a blank behind each. *)
Definition show (ts : list token) : list Z := ts ≫= fun t => tok_text t ++ [32].

Lemma reads_app m a l1 l2 : reads m a (l1 ++ l2) <-> reads m a l1 /\ reads m (a + Z.of_nat (length l1)) l2.
Proof.
  revert a. induction l1 as [|c l1 IH]; intros a; cbn [app reads length].
  - rewrite Z.add_0_r. tauto.
  - rewrite IH. replace (a + 1 + Z.of_nat (length l1)) with (a + Z.of_nat (S (length l1))) by lia. tauto.
Qed.

Lemma cstring_text m s txt : cstring m s txt -> text m s (s + Z.of_nat (length txt)).
Proof.
  intros (Hr & Hn & Hz). split; [lia|done|]. intros x Hx. clear Hz. revert s Hr Hx.
  induction Hn as [|c txt Hc Hn IH]; intros s Hr Hx; [simpl in Hx; lia|]. destruct Hr as [Hs Hr].
  destruct (decide (x = s)) as [->|]; [by rewrite Hs|]. apply (IH (s + 1) Hr). simpl in Hx. lia.
Qed.

Lemma show_lexed ts m s : Forall good_tok ts -> reads m s (show ts) -> lexed m (s + Z.of_nat (length (show ts))) s ts.
Proof.
  intros Hg. revert s. induction Hg as [|t ts Hg Hts IH]; intros s Hr.
  { cbn. constructor; [lia|intros x ?; lia]. }
  unfold show in *. cbn [mbind list_bind] in *. rewrite <- app_assoc in *. cbn [app] in *.
  apply reads_app in Hr as [Hr [Hb Hr2]]. rewrite length_app. cbn [length].
  set (rest := ts ≫= (fun t => tok_text t ++ [32])) in *. clearbody rest.
  apply lex_tok with s; [lia|intros x ?; lia|done|done|lia| |].
  - rewrite Hb. by destruct t.
  - specialize (IH _ Hr2). set (e := s + Z.of_nat (length (tok_text t) + S (length rest))).
    replace (s + Z.of_nat (length (tok_text t)) + 1 + Z.of_nat (length rest)) with e in IH by lia.
    assert (forall q x, blanks m (q + 1) x -> m q = 32 -> blanks m q x) as Hbl.
    { intros q x Hx Hq y Hy. destruct (decide (y = q)) as [->|]; [by rewrite Hq|apply Hx; lia]. }
    inversion IH; subst; [constructor; [lia|by apply Hbl]|]. eapply lex_tok; [|apply Hbl; [eassumption|done]|..]; try done. lia.
Qed.

Lemma lexed_blanks m es es' s ts : lexed m es s ts -> es <= es' -> blanks m es es' -> lexed m es' s ts.
Proof.
  intros Hl He Hb. induction Hl as [s Hs Hbs|s q t ts Hs Hbs Hg Hr Hle Hend Hl IH].
  - constructor; [lia|]. intros x Hx. destruct (decide (x < es)); [apply Hbs|apply Hb]; lia.
  - apply lex_tok with q; (done || lia).
Qed.

Lemma show_spells ts : Forall good_tok ts -> spells (show ts) ts.
Proof. intros Hg m s (Hr & _ & _). by apply show_lexed. Qed.

(** A line as it is typed. *)
Lemma show_line_spells ts : Forall good_tok ts -> spells (show ts ++ [10]) ts.
Proof.
  intros Hg m s (Hr & _ & _). apply reads_app in Hr as [Hr [Hn _]]. rewrite length_app. cbn [length].
  apply (lexed_blanks m (s + Z.of_nat (length (show ts)))); [by apply show_lexed|lia|].
  intros x Hx. assert (x = s + Z.of_nat (length (show ts))) as -> by lia. by rewrite Hn.
Qed.

End ShLex.
