(* ===== verification/ShThms.v ===== *)
(** * The shell of xv6: theorems

    [parsecmd] takes exactly the lines of the grammar, panics on the others and
    ends on all; a printed line parses to the tree it was printed from; and the
    processes of a command run its programs with the descriptors its tree says. *)

From S2P Require Import Prelude DfsImage CString Sh ShLex.
From Stdlib Require Import Ascii.
Import Sh ShLex.
Local Open Scope Z_scope.
Local Open Scope xv6_scope.

Module ShThms.

Notation ends_words := (chr <$> ["|"; ")"; "&"; ";"]%char).
Notation redir_signs := (chr <$> ["<"; ">"]%char).

Lemma ends_words_sym : forallb (strchr symbols) ends_words = true.
Proof. reflexivity. Qed.

Definition sees (ts : list token) (toks : list Z) : bool := negb (first ts =? 0) && strchr toks (first ts).
(** The tokens end, or go on with one of [toks]. *)
Definition stops (toks : list Z) (ts : list token) : Prop := ts = [] \/ sees ts toks = true.

#[export] Instance stops_dec toks ts : Decision (stops toks ts).
Proof. unfold stops. destruct ts; [left; by left|]. destruct (sees _ _) eqn:E; [left; by right|right; by intros [|]]. Defined.

Lemma strchr_elem toks c : strchr toks c = true <-> c ∈ toks.
Proof.
  unfold strchr. rewrite existsb_exists. setoid_rewrite Z.eqb_eq. setoid_rewrite <- list_elem_of_In.
  split; [by intros (x & ? & ->)|by exists c].
Qed.

Lemma stops_not toks toks' ts :
  forallb (fun c => negb (strchr toks' c)) toks = true -> stops toks ts -> sees ts toks' = false.
Proof.
  unfold stops, sees. intros Hf [->|Hs]; [done|]. apply andb_true_iff in Hs as [-> Hs].
  rewrite forallb_forall in Hf. apply strchr_elem, list_elem_of_In, Hf in Hs. by apply negb_true_iff in Hs.
Qed.

Lemma stops_weaken toks toks' ts :
  forallb (strchr toks') toks = true -> stops toks ts -> stops toks' ts.
Proof.
  unfold stops, sees. intros Hf [->|Hs]; [by left|right]. apply andb_true_iff in Hs as [-> Hs].
  rewrite forallb_forall in Hf. apply strchr_elem, list_elem_of_In, Hf in Hs. done.
Qed.

Lemma word_hd w : good_tok (Word w) -> hd 0 w <> 0 /\ strchr symbols (hd 0 w) = false.
Proof.
  intros [Hw Hf]. destruct w as [|c w]; [done|]. apply Forall_cons in Hf as [Hc _]. unfold wordc in Hc. cbn [hd].
  apply andb_true_iff in Hc as [[Hc _]%andb_true_iff Hs].
  split; [by apply Z.eqb_neq, negb_true_iff|by apply negb_true_iff].
Qed.

Lemma sees_word w ts toks : good_tok (Word w) -> forallb (strchr symbols) toks = true -> sees (Word w :: ts) toks = false.
Proof.
  intros (_ & Hs)%word_hd Hf. unfold sees. apply andb_false_iff. right. cbn [first tok_text].
  apply not_true_is_false. intros Hc%strchr_elem%list_elem_of_In. rewrite forallb_forall in Hf. apply Hf in Hc. congruence.
Qed.

Section parse.
Context (m : bytes) (lo es : Z) (Ht : text m lo es).
Implicit Types (h R : list node) (ts rest : list token) (rs : list redir).
Notation lexed := (lexed m es).

Lemma lexed_good s t ts : lexed s (t :: ts) -> good_tok t.
Proof. by inversion 1. Qed.

Lemma peek_at s ts toks : lexed s ts -> exists s1, peek m es s toks = (sees ts toks, s1) /\ lexed s1 ts /\ s <= s1 <= es.
Proof.
  intros Hl. destruct (lexed_skip m lo es s ts Ht Hl) as (H1 & H2 & H3 & _).
  exists (skip m es s). unfold peek. rewrite H2. by split.
Qed.

(** A character seen is a token of its own. *)
Lemma sees_sym s ts toks :
  lexed s ts -> sees ts toks = true -> forallb (strchr symbols) toks = true ->
  exists t ts', ts = t :: ts' /\ hd 0 (tok_text t) ∈ toks /\ match t with Word _ => False | _ => True end.
Proof.
  intros Hl Hs Hf. destruct ts as [|t ts]; [done|]. exists t, ts. split; [done|].
  pose proof Hs as Hc. unfold sees in Hc. apply andb_true_iff in Hc as [_ Hc%strchr_elem]. split; [done|].
  destruct t as [| | |w]; try done. by rewrite (sees_word w ts toks (lexed_good _ _ _ Hl) Hf) in Hs.
Qed.

(** ** Redirections *)

Definition rfile (r : redir) : list Z := match r with RIn f | ROut f | RApp f => f end.
Definition rmode (r : redir) : Z := match r with RIn _ => O_RDONLY | _ => Z.lor O_WRONLY O_CREATE end.
Definition rfd (r : redir) : Z := match r with RIn _ => 0 | _ => 1 end.

Lemma tree_redir_eq c r : tree_redir c r = CRedir c (rfile r) (rmode r) (rfd r).
Proof. by destruct r. Qed.

(** The nodes of the redirections [rs] lead from [p'] in to [p]. *)
Fixpoint wraps h (p : nat) rs (p' : nat) : Prop :=
  match rs with
  | [] => p' = p
  | r :: rs => exists p1 q eq, h !! p1 = Some (REDIR p q eq (rmode r) (rfd r)) /\ (p < p1)%nat /\
      word_at m lo es q eq (rfile r) /\ wraps h p1 rs p'
  end.

Lemma wraps_grow h R p rs p' : wraps h p rs p' -> wraps (h ++ R) p rs p'.
Proof.
  revert p. induction rs as [|r rs IH]; intros p; cbn [wraps]; [done|].
  intros (p1 & q & eq & ? & ? & ? & ?). exists p1, q, eq. parts.
Qed.

Lemma wraps_app h p rs1 p1 rs2 p2 : wraps h p rs1 p1 -> wraps h p1 rs2 p2 -> wraps h p (rs1 ++ rs2) p2.
Proof.
  revert p. induction rs1 as [|r rs1 IH]; intros p; cbn [wraps app]; [by intros ->|].
  intros (p' & q & eq & ? & ? & ? & ?) ?. exists p', q, eq. parts.
Qed.

Lemma wraps_exec h i argv argv' p rs p' :
  h !! i = Some (EXEC argv) -> wraps h p rs p' -> wraps (<[i := EXEC argv']> h) p rs p'.
Proof.
  intros Hi. revert p. induction rs as [|r rs IH]; intros p; cbn [wraps]; [done|].
  intros (p1 & q & eq & Hp & ? & ? & ?). exists p1, q, eq.
  rewrite list_lookup_insert_ne by (intros ->; congruence). parts.
Qed.

Lemma wraps_den h p rs p' c : den m lo es h p c -> wraps h p rs p' -> den m lo es h p' (tree_redirs c rs).
Proof.
  unfold tree_redirs. revert p c. induction rs as [|r rs IH]; intros p c Hc; cbn [wraps foldl]; [by intros ->|].
  intros (p1 & q & eq & ? & ? & ? & Hw). apply (IH p1); [|done]. rewrite tree_redir_eq. exists p, q, eq. parts.
Qed.

(** One turn of the loop of [parseredirs]. *)
Lemma redir_turn fuel h p s r ts :
  lo <= s -> lexed s (toks_redir r ++ ts) ->
  exists q eq s', word_at m lo es q eq (rfile r) /\ lexed s' ts /\ s < s' <= es /\
    parseredirs m es (S fuel) h p s
    = parseredirs m es fuel (h ++ [REDIR p q eq (rmode r) (rfd r)]) (length h) s'.
Proof.
  intros Hlo Hl. destruct (peek_at s _ redir_signs Hl) as (s1 & Hp & Hl1 & Hs1).
  assert (exists t, toks_redir r = [t; Word (rfile r)] /\ sees (toks_redir r ++ ts) redir_signs = true /\
    (if code t =? chr "<" then redircmd h p else if code t =? chr ">" then redircmd h p
     else if code t =? chr "+" then redircmd h p else redircmd h p) = redircmd h p /\ True) as (t & Et & Hsee & _ & _).
  { destruct r; eexists; (split; [reflexivity|split; [reflexivity|split; [reflexivity|done]]]). }
  rewrite Et in Hl1. cbn [app] in Hl1.
  destruct (gettoken_lexed m lo es s1 t _ Ht ltac:(lia) Hl1) as (q0 & eq0 & s2 & Hg & Hl2 & Hs2 & _).
  destruct (gettoken_lexed m lo es s2 (Word (rfile r)) ts Ht ltac:(lia) Hl2) as (q & eq & s3 & Hg2 & Hl3 & Hs3 & Hw).
  exists q, eq, s3. pose proof (lexed_le _ _ _ _ Hl3). split; [done|]. split; [done|]. split; [lia|].
  cbn [parseredirs]. rewrite Hp, Hsee, Hg, Hg2. cbn [code]. rewrite Z.eqb_refl. cbn [negb].
  destruct r; cbn in Et; injection Et as <-; reflexivity.
Qed.

Lemma redirs_end fuel h p s ts :
  lexed s ts -> sees ts redir_signs = false -> exists s', parseredirs m es (S fuel) h p s = Ret (h, p, s') /\
    lexed s' ts /\ s <= s' <= es.
Proof.
  intros Hl Hs. destruct (peek_at s _ redir_signs Hl) as (s1 & Hp & Hl1 & Hs1).
  exists s1. cbn [parseredirs]. by rewrite Hp, Hs.
Qed.

Definition redirected (r : result) h p rs s rest : Prop :=
  exists R p' s', r = Ret (h ++ R, p', s') /\ lexed s' rest /\ s <= s' <= es /\ wraps (h ++ R) p rs p' /\
    sees rest redir_signs = false.

Lemma redirected_more r h p s s1 q eq (x : redir) rs rest :
  (p < length h)%nat -> word_at m lo es q eq (rfile x) -> s <= s1 ->
  redirected r (h ++ [REDIR p q eq (rmode x) (rfd x)]) (length h) rs s1 rest -> redirected r h p (x :: rs) s rest.
Proof.
  intros Hp Hw Hs (R & p' & s' & -> & Hl & Hs' & Hwr & Hno). rewrite <- app_assoc in *. cbn [app] in *.
  exists (REDIR p q eq (rmode x) (rfd x) :: R), p', s'.
  split_and!; [done|done|lia|lia| |done]. exists (length h), q, eq.
  rewrite list_lookup_middle by done. parts.
Qed.

Lemma redirs_complete rs : forall fuel h p s rest,
  lo <= s -> lexed s (toks_redirs rs ++ rest) -> sees rest redir_signs = false ->
  es - s < Z.of_nat fuel -> (p < length h)%nat ->
  redirected (parseredirs m es fuel h p s) h p rs s rest.
Proof.
  induction rs as [|r rs IH]; intros fuel h p s rest Hlo Hl Hno Hf Hp;
    pose proof (lexed_le _ _ _ _ Hl); (destruct fuel as [|fuel]; [lia|]).
  - destruct (redirs_end fuel h p s rest Hl Hno) as (s' & -> & Hl' & Hs'). exists [], p, s'. by rewrite app_nil_r.
  - unfold toks_redirs in Hl. cbn [mbind list_bind] in Hl. rewrite <- app_assoc in Hl.
    destruct (redir_turn fuel h p s r _ Hlo Hl) as (q & eq & s1 & Hw & Hl1 & Hs1 & ->).
    eapply redirected_more; [done|exact Hw| |apply IH; [lia|done|done|lia|rewrite length_app; simpl; lia]]. lia.
Qed.

Lemma code_word t : good_tok t -> code t = chr "a" -> exists w, t = Word w.
Proof.
  destruct t as [c| | |w]; cbn [good_tok code]; [|done..|by exists w].
  intros Hc%strchr_elem ->. discriminate Hc.
Qed.

Lemma redir_tokens t t2 :
  good_tok t -> hd 0 (tok_text t) ∈ chr <$> ["<"; ">"]%char -> good_tok t2 -> code t2 = chr "a" ->
  exists r, [t; t2] = toks_redir r.
Proof.
  intros Hg Hc Hg2 (f & ->)%code_word; [|done]. destruct t as [c| | |w].
  - cbn in Hc. assert (c = chr "<") as -> by (cbn in Hg; set_solver). by exists (RIn f).
  - by exists (ROut f).
  - by exists (RApp f).
  - apply word_hd in Hg as [_ Hs]. cbn [tok_text] in Hc. apply list_elem_of_fmap in Hc as (a & E & Ha).
    rewrite E in Hs. apply elem_of_cons in Ha as [->|[->|[]%elem_of_nil]%elem_of_cons]; done.
Qed.

Lemma redirs_sound fuel : forall h p s ts,
  lo <= s -> lexed s ts -> es - s < Z.of_nat fuel -> (p < length h)%nat ->
  (exists msg, parseredirs m es fuel h p s = Panic msg) \/
  exists rs rest, ts = toks_redirs rs ++ rest /\ redirected (parseredirs m es fuel h p s) h p rs s rest.
Proof.
  induction fuel as [|fuel IH]; intros h p s ts Hlo Hl Hf Hp; pose proof (lexed_le _ _ _ _ Hl); [lia|].
  destruct (sees ts redir_signs) eqn:Hsee.
  2: { right. exists [], ts. split; [done|].
       destruct (redirs_end fuel h p s ts Hl Hsee) as (s' & -> & Hl' & Hs'). exists [], p, s'. by rewrite app_nil_r. }
  destruct (sees_sym s ts _ Hl Hsee eq_refl) as (t & ts1 & -> & Hc & _).
  destruct ts1 as [|t2 ts'].
  { left. destruct (peek_at s _ redir_signs Hl) as (s1 & Hpk & Hl1 & Hs1).
    destruct (gettoken_lexed m lo es s1 t _ Ht ltac:(lia) Hl1) as (q0 & eq0 & s2 & Hg & Hl2 & _).
    cbn [parseredirs]. rewrite Hpk, Hsee, Hg, (gettoken_end m lo es s2 Ht Hl2). by eexists. }
  destruct (decide (code t2 = chr "a")) as [Ea|Ea].
  - destruct (redir_tokens t t2 (lexed_good _ _ _ Hl) Hc) as (r & Er); [|done|].
    { inversion Hl; subst. by eapply lexed_good. }
    change (t :: t2 :: ts') with ([t; t2] ++ ts') in *. rewrite Er in *.
    destruct (redir_turn fuel h p s r _ Hlo Hl) as (q & eq & s1 & Hw & Hl1 & Hs1 & E).
    destruct (IH (h ++ [REDIR p q eq (rmode r) (rfd r)]) (length h) s1 ts') as [[msg Hm]|(rs & rest & -> & Hr)];
      [lia|done|lia|rewrite length_app; simpl; lia|left; exists msg; by rewrite E|right].
    exists (r :: rs), rest. split; [unfold toks_redirs; cbn [mbind list_bind]; by rewrite <- app_assoc|].
    rewrite E. eapply redirected_more; [done|exact Hw| |exact Hr]. lia.
  - left. destruct (peek_at s _ redir_signs Hl) as (s1 & Hpk & Hl1 & Hs1).
    destruct (gettoken_lexed m lo es s1 t _ Ht ltac:(lia) Hl1) as (q0 & eq0 & s2 & Hg & Hl2 & Hs2 & _).
    destruct (gettoken_lexed m lo es s2 t2 _ Ht ltac:(lia) Hl2) as (q & eq & s3 & Hg2 & _).
    cbn [parseredirs]. rewrite Hpk, Hsee, Hg, Hg2, (proj2 (Z.eqb_neq _ _) Ea). by eexists.
Qed.

(** ** Words *)

Notation words := (Forall2 (fun (a : Z * Z) w => word_at m lo es a.1 a.2 w)).

Lemma wraps_lt h p rs p' : (p < length h)%nat -> wraps h p rs p' -> (p' < length h)%nat.
Proof.
  revert p. induction rs as [|r rs IH]; intros p Hp; cbn [wraps]; [by intros ->|].
  intros (p1 & q & eq & Hl%lookup_lt_Some & ? & ? & ?). by apply (IH p1).
Qed.

(** The node of the command lies between older nodes and its redirections. *)
Definition filled (r : result) h args rs s rest : Prop :=
  exists argv R ret s', r = Ret (h ++ EXEC argv :: R, ret, s') /\ lexed s' rest /\ s <= s' <= es /\
    words argv args /\ wraps (h ++ EXEC argv :: R) (length h) rs ret.

(** The state of the loop of [parseexec]. *)
Record filling h argv R (ret : nat) args rs : Prop := {
  fl_words : words argv args;
  fl_few : (length args < MAXARGS)%nat;
  fl_wraps : wraps (h ++ EXEC argv :: R) (length h) rs ret
}.

Lemma code_nonzero t : good_tok t -> code t <> 0.
Proof. destruct t as [c| | |w]; cbn; [|done..]. intros Hc%strchr_elem ->. discriminate Hc. Qed.

Lemma args_turn fuel h argv R ret s w ts :
  lo <= s -> lexed s (Word w :: ts) ->
  exists q eq s', word_at m lo es q eq w /\ lexed s' ts /\ s < s' <= es /\
    parseargs m es (S fuel) (h ++ EXEC argv :: R) (length h) ret s
    = if (MAXARGS <=? S (length argv))%nat then Panic "too many args"
      else let* (h', ret, s) := parseredirs m es (S fuel) (h ++ EXEC (argv ++ [(q, eq)]) :: R) ret s' in
           parseargs m es fuel h' (length h) ret s.
Proof.
  intros Hlo Hl. destruct (peek_at s _ ends_words Hl) as (s1 & Hp & Hl1 & Hs1).
  destruct (gettoken_lexed m lo es s1 (Word w) ts Ht ltac:(lia) Hl1) as (q & eq & s2 & Hg & Hl2 & Hs2 & Hw).
  exists q, eq, s2. pose proof (lexed_le _ _ _ _ Hl2). split; [done|]. split; [done|]. split; [lia|].
  cbn [parseargs]. rewrite Hp, (sees_word w ts ends_words (lexed_good _ _ _ Hl) ends_words_sym), Hg. cbn [code].
  change (chr "a" =? 0) with false. rewrite Z.eqb_refl. cbn [negb]. unfold add_arg. rewrite list_lookup_middle by done.
  cbn [obind]. by rewrite insert_app_r_alt, Nat.sub_diag by lia.
Qed.

Lemma args_end fuel h argv R ret s args rs rest :
  lo <= s -> lexed s rest -> filling h argv R ret args rs -> stops ends_words rest ->
  filled (parseargs m es (S fuel) (h ++ EXEC argv :: R) (length h) ret s) h args rs s rest.
Proof.
  intros Hlo Hl [Hw _ Hwr] Hs. destruct (peek_at s _ ends_words Hl) as (s1 & Hp & Hl1 & Hs1).
  cbn [parseargs]. rewrite Hp. destruct Hs as [->|Hs].
  - change (sees [] _) with false. cbv iota. rewrite (gettoken_end m lo es s1 Ht Hl1). cbn [Z.eqb].
    exists argv, R, ret, es. inversion Hl1; subst. split_and!; try done; [|lia]. constructor; [lia|intros x ?; lia].
  - rewrite Hs. by exists argv, R, ret, s1.
Qed.

(** A word and the redirections behind it. *)
Lemma filling_more h argv R ret args rs q eq w R' ret' rs' :
  filling h argv R ret args rs -> word_at m lo es q eq w -> (S (length args) < MAXARGS)%nat ->
  wraps ((h ++ EXEC (argv ++ [(q, eq)]) :: R) ++ R') ret rs' ret' ->
  filling h (argv ++ [(q, eq)]) (R ++ R') ret' (args ++ [w]) (rs ++ rs').
Proof.
  intros [Hw Hf Hwr] Hq Hm Hwr'. split.
  - apply Forall2_app; [done|]. constructor; [exact Hq|constructor].
  - rewrite length_app. simpl. lia.
  - rewrite app_comm_cons, app_assoc. eapply wraps_app; [|exact Hwr']. apply wraps_grow.
    apply (wraps_exec _ (length h) argv (argv ++ [(q, eq)])) in Hwr; [|by rewrite list_lookup_middle].
    by rewrite insert_app_r_alt, Nat.sub_diag in Hwr by lia.
Qed.

Lemma filling_ret h argv R ret args rs argv' R' : filling h argv R ret args rs ->
  length R' = length R -> (ret < length (h ++ EXEC argv' :: R'))%nat.
Proof.
  intros [_ _ Hw] HR. apply wraps_lt in Hw; rewrite !length_app in *; simpl in *; lia.
Qed.

Lemma args_complete ws : forall fuel h argv R ret args rs s rest,
  lo <= s -> lexed s ((ws ≫= toks_arg) ++ rest) -> stops ends_words rest ->
  es - s < Z.of_nat fuel -> filling h argv R ret args rs -> (length args + length ws < MAXARGS)%nat ->
  filled (parseargs m es fuel (h ++ EXEC argv :: R) (length h) ret s) h (args ++ ws.*1) (rs ++ ws ≫= snd) s rest.
Proof.
  induction ws as [|[w rs'] ws IH]; intros fuel h argv R ret args rs s rest Hlo Hl Hstop Hf Hfl Hlen;
    pose proof (lexed_le _ _ _ _ Hl); (destruct fuel as [|fuel]; [lia|]).
  - cbn [fmap list_fmap mbind list_bind]. rewrite !app_nil_r. by apply args_end.
  - cbn [mbind list_bind] in Hl. unfold toks_arg at 1 in Hl. cbn [fst snd app] in Hl. rewrite <- app_assoc in Hl.
    destruct (args_turn fuel h argv R ret s w _ Hlo Hl) as (q & eq & s1 & Hw & Hl1 & Hs1 & ->).
    pose proof (Forall2_length _ _ _ (fl_words _ _ _ _ _ _ Hfl)) as Hargs. simpl in Hlen.
    rewrite (proj2 (Nat.leb_gt _ _)) by lia.
    destruct (redirs_complete rs' (S fuel) (h ++ EXEC (argv ++ [(q, eq)]) :: R) ret s1 ((ws ≫= toks_arg) ++ rest))
      as (R' & ret' & s2 & -> & Hl2 & Hs2 & Hwr & _); [lia|done| |lia|by eapply filling_ret|].
    { destruct ws as [|[w2 rs2] ws]; [by eapply stops_not; [|exact Hstop]|].
      apply sees_word; [|done]. clear -Hl1. induction (toks_redirs rs') as [|t l IH] in s1, Hl1 |- *; inversion Hl1; subst; [done|by eapply IH]. }
    cbn [obind]. rewrite <- app_assoc, <- app_comm_cons in Hwr |- *.
    assert (Hfl' : filling h (argv ++ [(q, eq)]) (R ++ R') ret' (args ++ [w]) (rs ++ rs')).
    { eapply filling_more; [done|exact Hw|lia|]. by rewrite <- app_assoc, <- app_comm_cons. }
    destruct (IH fuel h _ _ _ _ _ s2 rest ltac:(lia) Hl2 Hstop ltac:(lia) Hfl' ltac:(rewrite length_app; simpl; lia))
      as (argv' & R2 & ret2 & s3 & E & Hl3 & Hs3 & Hw3 & Hwr3).
    exists argv', R2, ret2, s3. rewrite <- !app_assoc in Hw3, Hwr3. split_and!; [done|done|lia|lia|done|done].
Qed.

Lemma args_sound fuel : forall h argv R ret args rs s ts,
  lo <= s -> lexed s ts -> es - s < Z.of_nat fuel -> filling h argv R ret args rs ->
  (exists msg, parseargs m es fuel (h ++ EXEC argv :: R) (length h) ret s = Panic msg) \/
  exists ws rest, ts = (ws ≫= toks_arg) ++ rest /\ (length args + length ws < MAXARGS)%nat /\
    filled (parseargs m es fuel (h ++ EXEC argv :: R) (length h) ret s) h (args ++ ws.*1) (rs ++ ws ≫= snd) s rest.
Proof.
  induction fuel as [|fuel IH]; intros h argv R ret args rs s ts Hlo Hl Hf Hfl; pose proof (lexed_le _ _ _ _ Hl); [lia|].
  destruct (decide (stops ends_words ts)) as [Hs|Hs].
  { right. exists [], ts. cbn [fmap list_fmap mbind list_bind length]. rewrite !app_nil_r, Nat.add_0_r.
    split; [done|]. split; [apply Hfl|by apply args_end]. }
  destruct ts as [|t ts]; [destruct Hs; by left|]. destruct (decide (code t = chr "a")) as [Ea|Ea].
  - destruct (code_word t (lexed_good _ _ _ Hl) Ea) as (w & ->).
    destruct (args_turn fuel h argv R ret s w _ Hlo Hl) as (q & eq & s1 & Hw & Hl1 & Hs1 & E). rewrite E.
    pose proof (Forall2_length _ _ _ (fl_words _ _ _ _ _ _ Hfl)) as Hargs.
    destruct (Nat.leb_spec MAXARGS (S (length argv))) as [|Hfew]; [left; by eexists|].
    destruct (redirs_sound (S fuel) (h ++ EXEC (argv ++ [(q, eq)]) :: R) ret s1 ts)
      as [[msg Hm]|(rs' & rest & -> & R' & ret' & s2 & E2 & Hl2 & Hs2 & Hwr & _)];
      [lia|done|lia|by eapply filling_ret|left; exists msg; by rewrite Hm|].
    rewrite E2. cbn [obind]. rewrite <- app_assoc, <- app_comm_cons in Hwr |- *.
    assert (Hfl' : filling h (argv ++ [(q, eq)]) (R ++ R') ret' (args ++ [w]) (rs ++ rs')).
    { eapply filling_more; [done|exact Hw|lia|]. by rewrite <- app_assoc, <- app_comm_cons. }
    destruct (IH h _ _ _ _ _ s2 rest ltac:(lia) Hl2 ltac:(lia) Hfl') as [?|(ws & rest' & -> & Hlen & Hfd)]; [by left|right].
    exists ((w, rs') :: ws), rest'. cbn [mbind list_bind]. unfold toks_arg at 2. cbn [fst snd app fmap list_fmap].
    rewrite <- app_assoc. split; [done|]. rewrite length_app in Hlen. simpl in Hlen |- *. split; [lia|].
    destruct Hfd as (argv' & R2 & ret2 & s3 & E' & Hl3 & Hs3 & Hw3 & Hwr3).
    exists argv', R2, ret2, s3. rewrite <- !app_assoc in Hw3, Hwr3. split_and!; [done|done|lia|lia|done|done].
  - left. destruct (peek_at s _ ends_words Hl) as (s1 & Hp & Hl1 & Hs1).
    destruct (gettoken_lexed m lo es s1 t _ Ht ltac:(lia) Hl1) as (q & eq & s2 & Hg & _).
    cbn [parseargs]. rewrite Hp, Hg.
    rewrite (proj2 (Z.eqb_neq _ _) (code_nonzero t (lexed_good _ _ _ Hl))), (proj2 (Z.eqb_neq _ _) Ea).
    destruct (sees (t :: ts) _) eqn:E; [destruct Hs; by right|by eexists].
Qed.

(** ** Commands, pipelines, lines *)

Definition parses (r : result) h (c : cmd) s rest : Prop :=
  exists R p s', r = Ret (h ++ R, p, s') /\ lexed s' rest /\ s <= s' <= es /\ den m lo es (h ++ R) p c.

(** A symbol seen by [peek] is what [gettoken] takes. *)
Lemma sym_turn s c ts toks :
  lo <= s -> lexed s (Sym c :: ts) -> exists s1 q eq s2,
    peek m es s toks = (sees (Sym c :: ts) toks, s1) /\ gettoken m es s1 = (c, q, eq, s2) /\ lexed s2 ts /\
    lo <= s1 /\ s < s2 <= es.
Proof.
  intros Hlo Hl. destruct (peek_at s _ toks Hl) as (s1 & Hp & Hl1 & Hs1).
  destruct (gettoken_lexed m lo es s1 _ ts Ht ltac:(lia) Hl1) as (q & eq & s2 & Hg & Hl2 & Hs2 & _).
  pose proof (lexed_le _ _ _ _ Hl2). exists s1, q, eq, s2. split_and!; try done; lia.
Qed.

(** The only symbol of a one-character set. *)
Lemma sees_one s ts c : lexed s ts -> sees ts [c] = true -> strchr symbols c = true -> c <> chr ">" ->
  exists ts', ts = Sym c :: ts'.
Proof.
  intros Hl Hs Hc Hgt. destruct (sees_sym s ts [c] Hl Hs) as (t & ts' & -> & Hh & Ht'); [cbn [forallb]; by rewrite Hc|].
  apply list_elem_of_singleton in Hh. exists ts'. destruct t as [c'| | |w]; cbn in Hh; [by subst|congruence..|done].
Qed.

(** Two commands are put together in a new node. *)
Lemma parses_two (mk : nat -> nat -> node) (mkc : cmd -> cmd -> cmd) h R p c1 r c2 s0 s rest :
  (forall H q a b, H !! q = Some (mk a b) -> (a < q)%nat -> (b < q)%nat -> den m lo es H a c1 -> den m lo es H b c2 ->
     den m lo es H q (mkc c1 c2)) ->
  den m lo es (h ++ R) p c1 -> parses r (h ++ R) c2 s rest -> s0 <= s ->
  parses (let* (h', q, s) := r in Ret (h' ++ [mk p q], length h', s)) h (mkc c1 c2) s0 rest.
Proof.
  intros Hmk Hd (R2 & q & s' & -> & Hl & Hs & Hd2) Hs0. cbn [obind].
  exists (R ++ R2 ++ [mk p q]), (length ((h ++ R) ++ R2)), s'. rewrite <- !app_assoc. split_and!; [done|done|lia|lia|].
  assert (Hd1 : den m lo es (((h ++ R) ++ R2) ++ [mk p q]) p c1) by by do 2 apply den_grow.
  apply (Hmk _ _ p q); rewrite !app_assoc; [by rewrite list_lookup_middle|..|done|by apply den_grow].
  - apply den_lt in Hd. rewrite length_app. lia.
  - by apply den_lt in Hd2.
Qed.

(** The loop over [&]. *)
Lemma parseback_spec fuel : forall h p c s ts,
  lo <= s -> lexed s ts -> es - s < Z.of_nat fuel -> den m lo es h p c ->
  exists k rest, ts = replicate k (Sym (chr "&")) ++ rest /\ sees rest [chr "&"] = false /\
    parses (parseback m es fuel h p s) h (Nat.iter k CBack c) s rest.
Proof.
  induction fuel as [|fuel IH]; intros h p c s ts Hlo Hl Hf Hd; pose proof (lexed_le _ _ _ _ Hl); [lia|].
  cbn [parseback]. destruct (sees ts [chr "&"]) eqn:Hs.
  - destruct (sees_one s ts _ Hl Hs eq_refl) as (ts' & ->); [done|].
    destruct (sym_turn s _ ts' [chr "&"] Hlo Hl) as (s1 & q & eq & s2 & -> & Hg & Hl2 & Hs1 & Hs2). rewrite Hs, Hg.
    destruct (IH (h ++ [BACK p]) (length h) (CBack c) s2 ts') as (k & rest & -> & Hno & R & p' & s3 & E & Hl3 & Hs3 & Hd3);
      [lia|done|lia| |].
    { exists p. pose proof (den_lt _ _ _ _ Hd). rewrite list_lookup_middle by done.
      split; [done|]. split; [done|by apply den_grow]. }
    exists (S k), rest. split; [done|]. split; [done|]. unfold backcmd, new. rewrite E, <- app_assoc in *. cbn [app] in *.
    exists (BACK p :: R), p', s3. rewrite <- Nat.iter_succ_r in Hd3. split_and!; [done|done|lia|lia|done].
  - destruct (peek_at s ts [chr "&"] Hl) as (s1 & -> & Hl1 & Hs1). rewrite Hs.
    exists 0%nat, ts. split; [done|]. split; [done|]. exists [], p, s1. by rewrite app_nil_r.
Qed.

Lemma amps_inj k k' rest rest' :
  replicate k (Sym (chr "&")) ++ rest = replicate k' (Sym (chr "&")) ++ rest' ->
  sees rest [chr "&"] = false -> sees rest' [chr "&"] = false -> k = k' /\ rest = rest'.
Proof.
  revert k'. induction k as [|k IH]; intros [|k'] E H1 H2; cbn [replicate app] in E; [done| | |].
  - by subst rest.
  - by subst rest'.
  - injection E as E. by destruct (IH k' E H1 H2) as [-> ->].
Qed.

Section rec.
Context (rec : heap -> Z -> result).

(** A command of words. *)
Lemma words_exec fuel h s ts :
  lo <= s -> lexed s ts -> sees ts [chr "("] = false ->
  exists s1, lexed s1 ts /\ s <= s1 <= es /\
    parseexec m es rec fuel h s
    = let* (h', ret, s) := parseredirs m es fuel (h ++ [EXEC []]) (length h) s1 in
      parseargs m es fuel h' (length h) ret s.
Proof.
  intros Hlo Hl Hs. destruct (peek_at s ts [chr "("] Hl) as (s1 & Hp & Hl1 & Hs1). exists s1.
  split; [done|]. split; [done|]. unfold parseexec. by rewrite Hp, Hs.
Qed.

Lemma filled_parses r h args rs s rest :
  filled r h args rs s rest -> parses r h (tree_redirs (CExec args) rs) s rest.
Proof.
  intros (argv & R & ret & s' & -> & Hl & Hs & Hw & Hwr). exists (EXEC argv :: R), ret, s'. split_and!; [done|done|lia|lia|].
  eapply wraps_den; [|exact Hwr]. exists argv. split; [by apply list_lookup_middle|done].
Qed.

Lemma redirected_filling h rs ret R :
  wraps ((h ++ [EXEC []]) ++ R) (length h) rs ret -> filling h [] R ret [] rs.
Proof. rewrite <- app_assoc. intros Hw. split; [constructor|unfold MAXARGS; simpl; lia|done]. Qed.

Lemma words_complete fuel h s rs ws rest :
  lo <= s -> lexed s (toks_ex (XWords rs ws) ++ rest) -> stops ends_words rest -> (length ws < MAXARGS)%nat ->
  es - s < Z.of_nat fuel ->
  parses (parseexec m es rec fuel h s) h (tree_ex (XWords rs ws)) s rest.
Proof.
  intros Hlo Hl Hstop Hlen Hf. cbn [toks_ex tree_ex] in *. rewrite <- app_assoc in Hl.
  assert (Hrest : sees ((ws ≫= toks_arg) ++ rest) redir_signs = false /\ sees ((ws ≫= toks_arg) ++ rest) [chr "("] = false).
  { destruct ws as [|[w rs2] ws]; [split; by eapply stops_not; [|exact Hstop]|].
    assert (good_tok (Word w)) as Hg.
    { clear -Hl. induction (toks_redirs rs) as [|t l IH] in s, Hl |- *; inversion Hl; subst; [done|by eapply IH]. }
    split; by apply sees_word. }
  destruct Hrest as [Hr1 Hr2].
  destruct (words_exec fuel h s _ Hlo Hl) as (s1 & Hl1 & Hs1 & ->); [by destruct rs as [|[] ?]|].
  destruct (redirs_complete rs fuel (h ++ [EXEC []]) (length h) s1 _ ltac:(lia) Hl1 Hr1 ltac:(lia))
    as (R & ret & s2 & -> & Hl2 & Hs2 & Hwr & _); [rewrite length_app; simpl; lia|].
  cbn [obind]. apply redirected_filling in Hwr. rewrite <- app_assoc. cbn [app].
  destruct (args_complete ws fuel h [] R ret [] rs s2 rest ltac:(lia) Hl2 Hstop ltac:(lia) Hwr Hlen)
    as (argv & R' & ret' & s3 & E & Hl3 & Hs3 & Hw3 & Hwr3).
  apply filled_parses. exists argv, R', ret', s3. split_and!; [done|done|lia|lia|done|done].
Qed.

Lemma words_sound fuel h s ts :
  lo <= s -> lexed s ts -> sees ts [chr "("] = false -> es - s < Z.of_nat fuel ->
  (exists msg, parseexec m es rec fuel h s = Panic msg) \/
  exists e rest, ok_ex e /\ ts = toks_ex e ++ rest /\ parses (parseexec m es rec fuel h s) h (tree_ex e) s rest.
Proof.
  intros Hlo Hl Hs Hf. destruct (words_exec fuel h s ts Hlo Hl Hs) as (s1 & Hl1 & Hs1 & ->).
  destruct (redirs_sound fuel (h ++ [EXEC []]) (length h) s1 ts ltac:(lia) Hl1 ltac:(lia))
    as [[msg Hm]|(rs & rest & -> & R & ret & s2 & E & Hl2 & Hs2 & Hwr & _)];
    [rewrite length_app; simpl; lia|left; exists msg; by rewrite Hm|].
  rewrite E. cbn [obind]. apply redirected_filling in Hwr. rewrite <- app_assoc. cbn [app].
  destruct (args_sound fuel h [] R ret [] rs s2 rest ltac:(lia) Hl2 ltac:(lia) Hwr) as [?|(ws & rest' & -> & Hlen & Hfd)]; [by left|].
  right. exists (XWords rs ws), rest'. cbn [toks_ex tree_ex ok_ex]. rewrite <- app_assoc. split; [exact Hlen|]. split; [done|].
  destruct Hfd as (argv & R' & ret' & s3 & E' & Hl3 & Hs3 & Hw3 & Hwr3).
  apply filled_parses. exists argv, R', ret', s3. split_and!; [done|done|lia|lia|done|done].
Qed.

End rec.
(** *** Every line of the grammar is taken *)

Lemma block_turn rec fuel h s ts :
  lo <= s -> lexed s (Sym (chr "(") :: ts) -> exists s1, lexed s1 ts /\ s < s1 <= es /\
    parseexec m es rec fuel h s =
    let* (h, cmd, s) := rec h s1 in
    let (b, s) := peek m es s [chr ")"] in
    if negb b then Panic "syntax - missing )"
    else let '(_, _, _, s) := gettoken m es s in parseredirs m es fuel h cmd s.
Proof.
  intros Hlo Hl. destruct (peek_at s _ [chr "("] Hl) as (s0 & Hp & Hl0 & Hs0).
  destruct (sym_turn s0 _ ts [chr "("] ltac:(lia) Hl0) as (s1 & q & eq & s2 & Hp1 & Hg & Hl2 & Hs1 & Hs2).
  exists s2. split; [done|]. split; [lia|]. unfold parseexec. rewrite Hp. unfold parseblock. rewrite Hp1.
  change (sees _ _) with true. cbn [negb]. by rewrite Hg.
Qed.

Lemma block_complete rec l fuel h s rs rest :
  (forall h s1 rest', s < s1 -> lexed s1 (toks_line l ++ rest') -> stops [chr ")"] rest' ->
     parses (rec h s1) h (tree_line l) s1 rest') ->
  lo <= s -> lexed s (toks_ex (XBlock l rs) ++ rest) -> stops ends_words rest -> es - s < Z.of_nat fuel ->
  parses (parseexec m es rec fuel h s) h (tree_ex (XBlock l rs)) s rest.
Proof.
  intros Hrec Hlo Hl Hstop Hf. cbn [toks_ex tree_ex app] in *. rewrite <- app_assoc in Hl. cbn [app] in Hl.
  destruct (block_turn rec fuel h s _ Hlo Hl) as (s1 & Hl1 & Hs1 & ->).
  destruct (Hrec h s1 _ ltac:(lia) Hl1) as (R & p & s2 & -> & Hl2 & Hs2 & Hd); [by right|]. cbn [obind].
  destruct (sym_turn s2 _ _ [chr ")"] ltac:(lia) Hl2) as (s3 & q & eq & s4 & -> & -> & Hl4 & Hs3 & Hs4).
  change (sees _ _) with true. cbn [negb].
  destruct (redirs_complete rs fuel (h ++ R) p s4 rest ltac:(lia) Hl4) as (R' & p' & s5 & -> & Hl5 & Hs5 & Hwr & _);
    [by eapply stops_not; [|exact Hstop]|lia|by eapply den_lt|].
  rewrite <- app_assoc in *. exists (R ++ R'), p', s5. split_and!; [done|done|lia|lia|].
  eapply wraps_den; [|exact Hwr]. rewrite app_assoc. by apply den_grow.
Qed.

Definition line_taken l : Prop := forall fuel h s rest,
  lo <= s -> lexed s (toks_line l ++ rest) -> stops [chr ")"] rest -> es - s < Z.of_nat fuel -> ok_line l ->
  parses (parseline m es fuel h s) h (tree_line l) s rest.
Definition pipes_taken p : Prop := forall k fuel h s rest,
  lo <= s -> lexed s (toks_pipes p ++ rest) -> stops (chr <$> [")"; "&"; ";"]%char) rest -> es - s < Z.of_nat fuel ->
  es - s <= Z.of_nat k -> ok_pipes p -> parses (parsepipe m es (parseline m es k) fuel h s) h (tree_pipes p) s rest.
Definition ex_taken e : Prop := forall k fuel h s rest,
  lo <= s -> lexed s (toks_ex e ++ rest) -> stops ends_words rest -> es - s < Z.of_nat fuel ->
  es - s <= Z.of_nat k -> ok_ex e -> parses (parseexec m es (parseline m es k) fuel h s) h (tree_ex e) s rest.

(** The pipeline and the [&]s a line starts with; then the line ends or goes on. *)
Definition line_rest k h (cmd : nat) s : result :=
  let (b, s) := peek m es s [chr ";"] in
  if b then
    let '(_, _, _, s) := gettoken m es s in
    let* (h, rcmd, s) := parseline m es k h s in
    let (h, cmd) := listcmd h cmd rcmd in Ret (h, cmd, s)
  else Ret (h, cmd, s).

Lemma line_start p amps : pipes_taken p -> ok_pipes p -> forall k h s rest,
  lo <= s -> lexed s (toks_pipes p ++ replicate amps (Sym (chr "&")) ++ rest) ->
  stops (chr <$> [")"; ";"]%char) rest -> es - s < Z.of_nat (S k) ->
  exists R q s1, lexed s1 rest /\ s <= s1 <= es /\ den m lo es (h ++ R) q (Nat.iter amps CBack (tree_pipes p)) /\
    parseline m es (S k) h s = line_rest k (h ++ R) q s1.
Proof.
  intros Hp Hok k h s rest Hlo Hl Hstop Hf.
  destruct (Hp k (S k) h s _ Hlo Hl) as (R & q & s1 & E1 & Hl1 & Hs1 & Hd); [|lia|lia|done|].
  { destruct amps; [|by right]. by eapply stops_weaken; [|exact Hstop]. }
  destruct (parseback_spec (S k) (h ++ R) q _ s1 _ ltac:(lia) Hl1 ltac:(lia) Hd)
    as (k' & rest' & E & Hno & R' & q' & s2 & E2 & Hl2 & Hs2 & Hd2).
  apply amps_inj in E as [<- <-]; [|by eapply stops_not; [|exact Hstop]|done].
  exists (R ++ R'), q', s2. rewrite <- app_assoc in *. split; [done|]. split; [lia|]. split; [done|].
  cbn [parseline]. rewrite E1. cbn [obind]. rewrite E2. done.
Qed.

Lemma line_ends k h R q c s0 s rest :
  lexed s rest -> s0 <= s -> sees rest [chr ";"] = false -> den m lo es (h ++ R) q c ->
  parses (line_rest k (h ++ R) q s) h c s0 rest.
Proof.
  intros Hl Hs Hno Hd. destruct (peek_at s _ [chr ";"] Hl) as (s1 & Hp & Hl1 & Hs1). unfold line_rest. rewrite Hp, Hno.
  exists R, q, s1. split_and!; [done|done|lia|lia|done].
Qed.

Lemma line_goes_on k h R q c s ts :
  lo <= s -> lexed s (Sym (chr ";") :: ts) -> den m lo es (h ++ R) q c -> exists s1, lexed s1 ts /\ s < s1 <= es /\
  (forall msg, parseline m es k (h ++ R) s1 = Panic msg -> line_rest k (h ++ R) q s = Panic msg) /\
  forall c2 rest s0, s0 <= s1 -> parses (parseline m es k (h ++ R) s1) (h ++ R) c2 s1 rest ->
    parses (line_rest k (h ++ R) q s) h (CList c c2) s0 rest.
Proof.
  intros Hlo Hl Hd. destruct (sym_turn s _ ts [chr ";"] Hlo Hl) as (s1 & q1 & eq & s2 & Hp & Hg & Hl2 & Hs1 & Hs2).
  exists s2. split; [done|]. split; [lia|]. unfold line_rest. rewrite Hp. change (sees _ _) with true. cbv iota. rewrite Hg.
  split; [by intros msg ->|]. intros c2 rest s0 Hs0 Hr.
  apply (parses_two LIST CList h R q c _ c2 s0 s2 rest); [|done|done|done]. intros H' p a b ? ? ? ? ?. by exists a, b.
Qed.

Lemma all_taken : (forall l, line_taken l) /\ (forall p, pipes_taken p) /\ (forall e, ex_taken e).
Proof.
  apply line_pipes_ex_ind.
  - intros p Hp amps [|k] h s rest Hlo Hl Hstop Hf Hok; [apply lexed_le in Hl; lia|]. cbn [toks_line] in Hl.
    rewrite <- app_assoc in Hl.
    destruct (line_start p amps Hp Hok k h s rest Hlo Hl ltac:(by eapply stops_weaken; [|exact Hstop]) Hf)
      as (R & q & s1 & Hl1 & Hs1 & Hd & ->).
    apply line_ends; [done|lia|by eapply stops_not; [|exact Hstop]|done].
  - intros p Hp amps l IHl [|k] h s rest Hlo Hl Hstop Hf [Hok Hokl]; [apply lexed_le in Hl; lia|]. cbn [toks_line] in Hl.
    rewrite <- !app_assoc in Hl.
    destruct (line_start p amps Hp Hok k h s (Sym (chr ";") :: toks_line l ++ rest) Hlo Hl ltac:(by right) Hf)
      as (R & q & s1 & Hl1 & Hs1 & Hd & ->).
    destruct (line_goes_on k h R q _ s1 _ ltac:(lia) Hl1 Hd) as (s2 & Hl2 & Hs2 & _ & Hc).
    apply Hc; [lia|]. apply IHl; [lia|done|done|lia|done].
  - intros e He k [|fuel] h s rest Hlo Hl Hstop Hf Hk Hok; [apply lexed_le in Hl; lia|].
    destruct (He k (S fuel) h s rest Hlo Hl ltac:(by eapply stops_weaken; [|exact Hstop]) Hf Hk Hok)
      as (R & q & s1 & E & Hl1 & Hs1 & Hd).
    destruct (peek_at s1 _ [chr "|"] Hl1) as (s2 & Hp & Hl2 & Hs2).
    cbn [parsepipe]. rewrite E. cbn [obind]. rewrite Hp.
    assert (sees rest [chr "|"] = false) as -> by (by eapply stops_not; [|exact Hstop]).
    exists R, q, s2. split_and!; [done|done|lia|lia|done].
  - intros e He p IHp k [|fuel] h s rest Hlo Hl Hstop Hf Hk [Hok Hokp]; [apply lexed_le in Hl; lia|].
    cbn [toks_pipes] in Hl. rewrite <- app_assoc in Hl.
    destruct (He k (S fuel) h s _ Hlo Hl ltac:(by right) Hf Hk Hok) as (R & q & s1 & E & Hl1 & Hs1 & Hd).
    destruct (sym_turn s1 _ _ [chr "|"] ltac:(lia) Hl1) as (s2 & q1 & eq & s3 & Hp & Hg & Hl3 & Hs2 & Hs3).
    cbn [parsepipe]. rewrite E. cbn [obind]. rewrite Hp. change (sees _ _) with true. cbv iota. rewrite Hg.
    apply (parses_two PIPE CPipe h R q (tree_ex e) _ (tree_pipes p) s s3 rest); [|done| |lia].
    + intros H' p' a b ? ? ? ? ?. by exists a, b.
    + apply IHp; [lia|done|done|lia|lia|done].
  - intros l IHl rs k fuel h s rest Hlo Hl Hstop Hf Hk Hok.
    apply block_complete; try done. intros h' s1 rest' Hs1 Hl1 Hstop'. apply IHl; [lia|done|done|lia|done].
  - intros rs ws k fuel h s rest Hlo Hl Hstop Hf Hk Hok. by apply words_complete.
Qed.

(** *** Everything else is a panic *)

(** The call panics, or it has read a [X]. *)
Definition judged {X} (ok : X -> Prop) (toks : X -> list token) (tree : X -> cmd) (r : result) h s ts : Prop :=
  (exists msg, r = Panic msg) \/ exists x rest, ok x /\ ts = toks x ++ rest /\ parses r h (tree x) s rest.
Notation line_judged := (judged ok_line toks_line tree_line).
Notation pipes_judged := (judged ok_pipes toks_pipes tree_pipes).
Notation ex_judged := (judged ok_ex toks_ex tree_ex).

Definition line_sound k : Prop := forall h s ts,
  lo <= s -> lexed s ts -> es - s < Z.of_nat k -> line_judged (parseline m es k h s) h s ts.

Lemma ex_sound k fuel h s ts :
  line_sound k -> lo <= s -> lexed s ts -> es - s < Z.of_nat fuel -> es - s <= Z.of_nat k ->
  ex_judged (parseexec m es (parseline m es k) fuel h s) h s ts.
Proof.
  intros Hk Hlo Hl Hf Hfk. destruct (sees ts [chr "("]) eqn:Hs; [|by apply words_sound].
  destruct (sees_one s ts _ Hl Hs eq_refl) as (ts1 & ->); [done|].
  destruct (block_turn (parseline m es k) fuel h s ts1 Hlo Hl) as (s1 & Hl1 & Hs1 & E). unfold judged. rewrite E.
  destruct (Hk h s1 ts1 ltac:(lia) Hl1 ltac:(lia)) as [[msg ->]|(l & rest & Hok & -> & R & p & s2 & -> & Hl2 & Hs2 & Hd)];
    [left; by exists msg|]. cbn [obind].
  destruct (sees rest [chr ")"]) eqn:Hr.
  2: { left. destruct (peek_at s2 rest [chr ")"] Hl2) as (s3 & -> & _). rewrite Hr. by eexists. }
  destruct (sees_one s2 rest _ Hl2 Hr eq_refl) as (rest1 & ->); [done|].
  destruct (sym_turn s2 _ _ [chr ")"] ltac:(lia) Hl2) as (s3 & q & eq & s4 & -> & -> & Hl4 & Hs3 & Hs4). rewrite Hr. cbn [negb].
  destruct (redirs_sound fuel (h ++ R) p s4 rest1 ltac:(lia) Hl4 ltac:(lia) (den_lt _ _ _ _ Hd))
    as [?|(rs & rest2 & -> & R' & p' & s5 & -> & Hl5 & Hs5 & Hwr & _)]; [by left|].
  right. exists (XBlock l rs), rest2. cbn [toks_ex ok_ex tree_ex app]. rewrite <- !app_assoc in *. split; [done|]. split; [done|].
  exists (R ++ R'), p', s5. split_and!; [done|done|lia|lia|].
  eapply wraps_den; [|exact Hwr]. rewrite app_assoc. by apply den_grow.
Qed.

Lemma pipes_sound k fuel : forall h s ts,
  line_sound k -> lo <= s -> lexed s ts -> es - s < Z.of_nat fuel -> es - s <= Z.of_nat k ->
  pipes_judged (parsepipe m es (parseline m es k) fuel h s) h s ts.
Proof.
  induction fuel as [|fuel IH]; intros h s ts Hk Hlo Hl Hf Hfk; pose proof (lexed_le _ _ _ _ Hl); [lia|].
  unfold judged. cbn [parsepipe].
  destruct (ex_sound k (S fuel) h s ts Hk Hlo Hl Hf Hfk) as [[msg ->]|(e & rest & Hok & -> & R & q & s1 & -> & Hl1 & Hs1 & Hd)];
    [left; by exists msg|]. cbn [obind].
  destruct (sees rest [chr "|"]) eqn:Hr.
  - destruct (sees_one s1 rest _ Hl1 Hr eq_refl) as (rest1 & ->); [done|].
    destruct (sym_turn s1 _ _ [chr "|"] ltac:(lia) Hl1) as (s2 & q1 & eq & s3 & -> & Hg & Hl3 & Hs2 & Hs3). rewrite Hr, Hg.
    destruct (IH (h ++ R) s3 rest1 Hk ltac:(lia) Hl3 ltac:(lia) ltac:(lia)) as [[msg ->]|(p & rest2 & Hokp & -> & Hp)];
      [left; by exists msg|right].
    exists (PBar e p), rest2. cbn [toks_pipes ok_pipes tree_pipes]. rewrite <- app_assoc. split; [done|]. split; [done|].
    apply (parses_two PIPE CPipe h R q (tree_ex e) _ (tree_pipes p) s s3 rest2); [|done|done|lia].
    intros H' p' a b ? ? ? ? ?. by exists a, b.
  - right. destruct (peek_at s1 _ [chr "|"] Hl1) as (s2 & -> & Hl2 & Hs2). rewrite Hr.
    exists (PEnd e), rest. split; [done|]. split; [done|]. exists R, q, s2. split_and!; [done|done|lia|lia|done].
Qed.

Lemma all_sound k : line_sound k.
Proof.
  induction k as [|k IH]; intros h s ts Hlo Hl Hf; pose proof (lexed_le _ _ _ _ Hl); [lia|]. unfold judged. cbn [parseline].
  destruct (pipes_sound k (S k) h s ts IH Hlo Hl Hf ltac:(lia))
    as [[msg ->]|(p & rest & Hok & -> & R & q & s1 & -> & Hl1 & Hs1 & Hd)]; [left; by exists msg|]. cbn [obind].
  destruct (parseback_spec (S k) (h ++ R) q _ s1 rest ltac:(lia) Hl1 ltac:(lia) Hd)
    as (amps & rest1 & -> & _ & R' & q' & s2 & -> & Hl2 & Hs2 & Hd2). cbn [obind]. rewrite <- app_assoc in *.
  fold (line_rest k (h ++ R ++ R') q' s2). destruct (sees rest1 [chr ";"]) eqn:Hr.
  - destruct (sees_one s2 rest1 _ Hl2 Hr eq_refl) as (rest2 & ->); [done|].
    destruct (line_goes_on k h (R ++ R') q' _ s2 rest2 ltac:(lia) Hl2 Hd2) as (s3 & Hl3 & Hs3 & Hpan & Hc).
    destruct (IH (h ++ R ++ R') s3 rest2 ltac:(lia) Hl3 ltac:(lia)) as [[msg Hm]|(l & rest3 & Hokl & -> & Hp)];
      [left; exists msg; by apply Hpan|right].
    exists (LSeq p amps l), rest3. cbn [toks_line ok_line tree_line]. rewrite <- !app_assoc. split; [done|]. split; [done|].
    apply Hc; [lia|done].
  - right. exists (LEnd p amps), rest1. cbn [toks_line ok_line tree_line]. rewrite <- app_assoc. split; [done|]. split; [done|].
    by apply line_ends; [|lia| |].
Qed.

(** ** The strings are ended *)

Definition keeps (m' : bytes) : Prop := forall x, wordc (m x) = true -> m' x = m x.
(** What [nulterminate] writes: zeros inside the text that hit no word. *)
Definition zeroed (m0 m' : bytes) : Prop :=
  keeps m' /\ (forall x, m0 x = 0 -> m' x = 0) /\ forall x, x < lo \/ es < x -> m' x = m0 x.
Definition ended (m' : bytes) (q eq : Z) (w : list Z) : Prop := word_at m lo es q eq w /\ m' eq = 0.

Lemma zeroed_refl m0 : keeps m0 -> zeroed m0 m0.
Proof. by split. Qed.

Lemma zeroed_trans m0 m1 m2 : zeroed m0 m1 -> zeroed m1 m2 -> zeroed m0 m2.
Proof.
  intros (_ & H1 & H2) (Hk & H3 & H4). split; [done|]. split; [auto|]. intros x Hx. rewrite H4 by done. by apply H2.
Qed.

Lemma zeroed_put m0 q eq w : keeps m0 -> word_at m lo es q eq w -> zeroed m0 (put8 m0 eq 0).
Proof.
  intros Hk (Hq & He & Hle & _ & _ & Hw). unfold put8. split; [|split].
  - intros x Hx. destruct (Z.eqb_spec x eq) as [->|]; [congruence|by apply Hk].
  - intros x Hx. by destruct (x =? eq).
  - intros x Hx. destruct (Z.eqb_spec x eq) as [->|]; [lia|done].
Qed.

Lemma ended_later m0 m1 h p c : zeroed m0 m1 -> denotes (ended m0) h p c -> denotes (ended m1) h p c.
Proof. intros (_ & Hz & _). apply den_impl. intros q eq w [Hw H0]. split; [done|by apply Hz]. Qed.

Lemma argv_ended argv args m0 : keeps m0 -> words argv args ->
  let m' := foldl (fun m a => put8 m a.2 0) m0 argv in
  zeroed m0 m' /\ Forall2 (fun a w => ended m' a.1 a.2 w) argv args.
Proof.
  intros Hk Hw. cbv zeta. revert m0 Hk. induction Hw as [|[q eq] w argv args Ha Hw IH]; intros m0 Hk; cbn [foldl].
  { split; [by apply zeroed_refl|constructor]. }
  cbn [fst snd] in *. pose proof (zeroed_put m0 q eq w Hk Ha) as Hz.
  destruct (IH (put8 m0 eq 0) (proj1 Hz)) as [Hz' HF]. split; [by eapply zeroed_trans|]. constructor; [|done].
  split; [done|]. apply (proj1 (proj2 Hz')). cbn [snd]. unfold put8. by rewrite Z.eqb_refl.
Qed.

Lemma nulterminate_ends h c : forall fuel p m0, den m lo es h p c -> (p < fuel)%nat -> keeps m0 ->
  exists m', nulterminate fuel h m0 p = Ret m' /\ zeroed m0 m' /\ denotes (ended m') h p c.
Proof.
  induction c as [args|c IH f mode fd|l IHl r IHr|l IHl r IHr|c IH]; intros [|fuel] p m0 Hd Hf Hk; try lia;
    cbn [denotes nulterminate] in *.
  - destruct Hd as (argv & -> & HF). destruct (argv_ended argv args m0 Hk HF) as [Hz HF'].
    eexists. split; [done|]. split; [done|]. by exists argv.
  - destruct Hd as (p' & q & eq & -> & Hp & Hw & Hd). destruct (IH fuel p' m0 Hd ltac:(lia) Hk) as (m1 & -> & Hz & Hd1).
    cbn [obind]. pose proof (zeroed_put m1 q eq f (proj1 Hz) Hw) as Hz2. eexists. split; [done|].
    split; [by eapply zeroed_trans|]. exists p', q, eq. split; [done|]. split; [done|].
    split; [split; [done|unfold put8; by rewrite Z.eqb_refl]|by eapply ended_later].
  - destruct Hd as (a & b & -> & Ha & Hb & Hda & Hdb). destruct (IHl fuel a m0 Hda ltac:(lia) Hk) as (m1 & -> & Hz & Hd1).
    cbn [obind]. destruct (IHr fuel b m1 Hdb ltac:(lia) (proj1 Hz)) as (m2 & -> & Hz2 & Hd2).
    eexists. split; [done|]. split; [by eapply zeroed_trans|]. exists a, b.
    split_and!; [done|done|done|by eapply ended_later|done].
  - destruct Hd as (a & b & -> & Ha & Hb & Hda & Hdb). destruct (IHl fuel a m0 Hda ltac:(lia) Hk) as (m1 & -> & Hz & Hd1).
    cbn [obind]. destruct (IHr fuel b m1 Hdb ltac:(lia) (proj1 Hz)) as (m2 & -> & Hz2 & Hd2).
    eexists. split; [done|]. split; [by eapply zeroed_trans|]. exists a, b.
    split_and!; [done|done|done|by eapply ended_later|done].
  - destruct Hd as (a & -> & Ha & Hd). destruct (IH fuel a m0 Hd ltac:(lia) Hk) as (m1 & -> & Hz & Hd1).
    eexists. split; [done|]. split; [done|]. by exists a.
Qed.

End parse.
(** ** The parser as a whole *)

Lemma keeps_reads m m' q w : keeps m m' -> Forall (fun c => wordc c = true) w -> reads m q w -> reads m' q w.
Proof.
  intros Hk Hw. revert q. induction Hw as [|c w Hc Hw IH]; intros q; [done|]. intros [Hq Hr].
  split; [|by apply IH]. rewrite Hk; [done|]. by rewrite Hq.
Qed.

Lemma ended_cstring m lo es m' q eq w : keeps m m' -> ended m lo es m' q eq w ->
  cstring m' q w /\ (length w <= Z.to_nat (es - lo))%nat.
Proof.
  intros Hk [(Hq & -> & Hle & Hr & [_ Hw] & _) H0]. split; [|lia]. split; [by eapply keeps_reads|]. split; [|done].
  eapply Forall_impl; [exact Hw|]. by intros c Hc ->.
Qed.

Lemma strlen_text fuel m s len n :
  text m s (s + len) -> 0 <= n <= len -> len - n < Z.of_nat fuel -> CString.strlen fuel m s n = Some len.
Proof.
  intros [_ He Hi]. revert n. induction fuel as [|fuel IH]; intros n Hn Hf; [lia|]. cbn [CString.strlen].
  destruct (decide (n = len)) as [->|Hne]; [by rewrite He|].
  rewrite (proj2 (Z.eqb_neq _ _)) by (apply Hi; lia). apply IH; lia.
Qed.

(** Blanks to the end, exactly when no token is left. *)
Lemma rest_empty m lo es s rest : text m lo es -> lo <= s -> lexed m es s rest ->
  exists s1, peek m es s [] = (false, s1) /\ (s1 = es <-> rest = []).
Proof.
  intros Ht Hlo Hl. destruct (lexed_skip m lo es s rest Ht Hl) as (Hl1 & Hm & Hs & _).
  exists (skip m es s). split; [unfold peek; cbn [strchr existsb]; by rewrite andb_false_r|]. split.
  - intros E. rewrite E, (tx_end _ _ _ Ht) in Hm. destruct rest as [|t rest]; [done|].
    exfalso. apply lexed_good in Hl as (_ & Hnz & _)%tok_start. by cbn in Hm.
  - intros ->. destruct (decide (skip m es s = es)) as [|Hne]; [done|].
    exfalso. apply (tx_in _ _ _ Ht (skip m es s)); [lia|done].
Qed.

(** What [parsecmd] does with the result of [parseline]. *)
Lemma parsecmd_ends fuel m s txt l rest :
  cstring m s txt -> (length txt < fuel)%nat -> let es := s + Z.of_nat (length txt) in
  parses m s es (parseline m es fuel [] s) [] (tree_line l) s rest ->
  if decide (rest = []) then
    exists h p m', parsecmd fuel m s = Ret (h, p, m') /\ command m' (length txt) h p (tree_line l) /\
      forall x, x < s \/ es < x -> m' x = m x
  else parsecmd fuel m s = Panic "syntax".
Proof.
  intros Hc Hf es (R & p & s' & E & Hl & Hs & Hd). cbn [app] in *. pose proof (cstring_text _ _ _ Hc) as Ht.
  assert (parsecmd fuel m s = let (_, s1) := peek m es s' [] in
    if negb (s1 =? es) then Panic "syntax" else let* m := nulterminate (length R) R m p in Ret (R, p, m)) as ->.
  { unfold parsecmd. rewrite (strlen_text fuel m s (Z.of_nat (length txt))) by (done || lia).
    cbn [of_option obind]. fold es. by rewrite E. }
  destruct (rest_empty m s es s' rest Ht ltac:(lia) Hl) as (s1 & -> & Hs1). destruct (decide (rest = [])) as [Hr|Hr].
  - rewrite (proj2 (Z.eqb_eq s1 es) (proj2 Hs1 Hr)). cbn [negb].
    destruct (nulterminate_ends m s es R (tree_line l) (length R) p m Hd (den_lt _ _ _ _ Hd)) as (m' & -> & (Hk & _ & Ho) & Hd');
      [by intros x|].
    exists R, p, m'. split; [done|]. split; [|done]. eapply den_impl; [|exact Hd'].
    intros q eq w (Hw & Hlen)%ended_cstring; [|done]. split; [done|]. unfold es in Hlen. lia.
  - rewrite (proj2 (Z.eqb_neq s1 es)) by (by rewrite Hs1). done.
Qed.

(** C19.  [parsecmd] takes a text exactly when its tokens are a line of the
    grammar; then the nodes it makes are the command of the line, with strings
    that end, and only the text was written to.  Any other text ends in a
    panic. *)
Theorem parsecmd_grammar m s txt fuel :
  cstring m s txt -> (length txt < fuel)%nat -> let es := s + Z.of_nat (length txt) in
  (exists ts, lexed m es s ts) /\
  forall ts, lexed m es s ts ->
    (exists l h p m', ok_line l /\ ts = toks_line l /\ parsecmd fuel m s = Ret (h, p, m') /\
       command m' (length txt) h p (tree_line l) /\ forall x, x < s \/ es < x -> m' x = m x) \/
    ((forall l, ok_line l -> ts <> toks_line l) /\ exists msg, parsecmd fuel m s = Panic msg).
Proof.
  intros Hc Hf es. pose proof (cstring_text _ _ _ Hc) as Ht. split; [apply (lexable m s es s Ht); lia|].
  intros ts Hl. destruct (all_taken m s es Ht) as (Htaken & _ & _).
  assert (Hyes : forall l, ok_line l -> ts = toks_line l -> parses m s es (parseline m es fuel [] s) [] (tree_line l) s []).
  { intros l Hok ->. apply Htaken; [lia|by rewrite app_nil_r|by left|lia|done]. }
  destruct (all_sound m s es Ht fuel [] s ts ltac:(lia) Hl ltac:(lia)) as [[msg E]|(l & rest & Hok & -> & Hp)].
  - right. split.
    + intros l Hok Hts. destruct (Hyes l Hok Hts) as (R & p & s' & E' & _). congruence.
    + exists msg. unfold parsecmd. rewrite (strlen_text fuel m s (Z.of_nat (length txt))) by (done || lia).
      cbn [of_option obind]. fold es. by rewrite E.
  - pose proof (parsecmd_ends fuel m s txt l rest Hc Hf Hp) as He. destruct (decide (rest = [])) as [->|Hr].
    + left. destruct He as (h & p & m' & ? & ? & ?). exists l, h, p, m'. by rewrite app_nil_r.
    + right. split; [|by eexists]. intros l' Hok' Hts. pose proof (Hyes l' Hok' Hts) as Hp'.
      pose proof (parsecmd_ends fuel m s txt l' [] Hc Hf Hp') as He'. destruct He' as (h & p & m' & E & _). congruence.
Qed.

(** A line whose tokens are written with blanks between them parses to
    the command it was written from. *)
Theorem parsecmd_show l m s fuel :
  ok_line l -> Forall good_tok (toks_line l) -> let txt := show (toks_line l) in
  cstring m s txt -> (length txt < fuel)%nat ->
  exists h p m', parsecmd fuel m s = Ret (h, p, m') /\ command m' (length txt) h p (tree_line l).
Proof.
  intros Hok Hg txt Hc Hf. destruct (all_taken m s _ (cstring_text _ _ _ Hc)) as (Htaken & _ & _).
  assert (Hp : parses m s (s + Z.of_nat (length txt)) (parseline m (s + Z.of_nat (length txt)) fuel [] s) [] (tree_line l) s []).
  { apply Htaken; [lia|rewrite app_nil_r; by apply show_spells|by left|lia|done]. }
  destruct (parsecmd_ends fuel m s txt l [] Hc Hf Hp) as (h & p & m' & E & Hd & _). by exists h, p, m'.
Qed.

(** ** Witnesses *)

(** [a | b > c], at address 1000. *)
Definition demo : line :=
  LEnd (PBar (XWords [] [([97], [])]) (PEnd (XWords [] [([98], [ROut [99]])]))) 0.
Definition demo_text : list Z := show (toks_line demo).
Definition demo_mem : bytes := fun x => default 0 (getZ demo_text (x - 1000)).

Lemma demo_cstring : cstring demo_mem 1000 demo_text.
Proof. split; [repeat split|]. split; [repeat (constructor; [done|]); constructor|done]. Qed.

Lemma demo_ok : ok_line demo /\ Forall good_tok (toks_line demo).
Proof.
  split; [repeat split; cbn; unfold MAXARGS; lia|].
  assert (forall c, wordc c = true -> good_tok (Word [c])) as Hw by (intros; split; [done|by constructor]).
  cbn. repeat (constructor; [first [by apply Hw|done|by apply strchr_elem]|]). constructor.
Qed.

Lemma parsecmd_grammar_witness : exists ts, lexed demo_mem 1010 1000 ts /\
  (forall h p m', parsecmd 40 demo_mem 1000 = Ret (h, p, m') -> exists l, ok_line l /\ ts = toks_line l).
Proof.
  destruct (parsecmd_grammar demo_mem 1000 demo_text 40 demo_cstring ltac:(vm_compute; lia)) as [[ts Hts] Hall].
  exists ts. split; [exact Hts|]. intros h p m' E.
  destruct (Hall ts Hts) as [(l' & _ & _ & _ & Hok & Heq & _)|(_ & msg & E')]; [exists l'; split; assumption|].
  rewrite E in E'. discriminate E'.
Defined.

Lemma parsecmd_show_witness : exists h p m', parsecmd 40 demo_mem 1000 = Ret (h, p, m') /\
  command m' 10 h p (CPipe (CExec [[97]]) (CRedir (CExec [[98]]) [99] 513 1)).
Proof.
  exact (parsecmd_show demo demo_mem 1000 40 (proj1 demo_ok) (proj2 demo_ok) demo_cstring ltac:(vm_compute; lia)).
Defined.

End ShThms.
