(* ===== verification/ShRun.v ===== *)
(** * The shell of xv6: running commands

    The jobs of a command, and that the processes of the shell do them: what
    stands after [;] starts when what stands before it is over, the next line is
    read when the last one is over, the sides of a pipe run side by side and so
    does what stands before [&].  The order comes from the calls of [wait]. *)

From S2P Require Import Prelude DfsImage CString Sh ShLex ShThms.
From Stdlib Require Import Ascii.
Import Sh ShLex ShThms.
Local Open Scope Z_scope.
Local Open Scope xv6_scope.

Module ShRun.

(** ** Jobs *)

(** What is left of a command: it has not begun, a program runs, one part runs
    before another, two side by side, or one is left to run in the background;
    and what a refused call leaves to say. *)
Inductive job :=
| Todo (c : cmd) (fds : fdtable)
| Running (argv : list (list Z)) (fds : fdtable)
| Then (j : job) (c : cmd) (fds : fdtable)
| Both (j1 j2 : job)
| Leaves (j : job)
| Fails (fmt : string) (arg : list Z)
| Quits (msg : string) (j : job)
| Over.

(** A step of a job; the last component goes on in the background. *)
Inductive jstep : nat -> job -> list event -> nat -> job -> list job -> Prop :=
| js_exec n a args fds : jstep n (Todo (CExec (a :: args)) fds) [Started (a :: args) fds] n (Running (a :: args) fds) []
| js_exec_failed n a args fds : jstep n (Todo (CExec (a :: args)) fds) [] n (Fails "exec %s failed" a) []
| js_exec_nothing n fds : jstep n (Todo (CExec []) fds) [] n Over []
| js_program n argv fds : jstep n (Running argv fds) [Ended argv fds] n Over []
| js_redir n c f mode fd fds :
    jstep n (Todo (CRedir c f mode fd) fds) [] n (Todo c (<[Z.to_nat fd := Some (File f mode)]> fds)) []
| js_redir_failed n c f mode fd fds : jstep n (Todo (CRedir c f mode fd) fds) [] n (Fails "open %s failed" f) []
| js_list n l r fds : jstep n (Todo (CList l r) fds) [] n (Then (Todo l fds) r fds) []
| js_list_failed n l r fds : jstep n (Todo (CList l r) fds) [] n (Fails "fork" []) []
| js_pipe n l r fds :
    jstep n (Todo (CPipe l r) fds) [] (S n)
      (Both (Todo l (<[1%nat := Some (PipeW n)]> fds)) (Todo r (<[0%nat := Some (PipeR n)]> fds))) []
| js_pipe_failed n l r fds : jstep n (Todo (CPipe l r) fds) [] n (Fails "pipe" []) []
| js_left_failed n l r fds1 fds2 : jstep n (Both (Todo l fds1) (Todo r fds2)) [] n (Fails "fork" []) []
| js_right_failed n j r fds : jstep n (Both j (Todo r fds)) [] n (Quits "fork" j) []
| js_back n c fds : jstep n (Todo (CBack c) fds) [] n (Leaves (Todo c fds)) []
| js_back_failed n c fds : jstep n (Todo (CBack c) fds) [] n (Fails "fork" []) []
| js_fails n fmt arg : jstep n (Fails fmt arg) [Said fmt arg] n Over []
| js_quits n msg j : jstep n (Quits msg j) [Said msg []] n (Leaves j) []
| js_leaves n j : jstep n (Leaves j) [] n Over [j]
| js_next n c fds : jstep n (Then Over c fds) [] n (Todo c fds) []
| js_left_over n j : jstep n (Both Over j) [] n j []
| js_right_over n j : jstep n (Both j Over) [] n j []
| js_in_then n j e n' j' bg c fds : jstep n j e n' j' bg -> jstep n (Then j c fds) e n' (Then j' c fds) bg
| js_in_left n j e n' j' bg j2 : jstep n j e n' j' bg -> jstep n (Both j j2) e n' (Both j' j2) bg
| js_in_right n j e n' j' bg j1 : jstep n j e n' j' bg -> jstep n (Both j1 j) e n' (Both j1 j') bg
| js_in_leaves n j e n' j' bg : jstep n j e n' j' bg -> jstep n (Leaves j) e n' (Leaves j') bg
| js_in_quits n msg j e n' j' bg : jstep n j e n' j' bg -> jstep n (Quits msg j) e n' (Quits msg j') bg.

(** *** Lines *)

(** What can stand on a line of at most 98 bytes. *)
Definition plain (txt : list Z) : Prop :=
  Forall (fun c => is_u8 c /\ c <> 0 /\ c <> 10 /\ c <> 13) txt /\ (length txt <= 98)%nat.

(** A line that starts with "cd " is for the shell itself. *)
Definition is_cd (txt : list Z) : bool :=
  match txt with a :: b :: c :: _ => (a =? chr "c") && (b =? chr "d") && (c =? 32) | _ => false end.

Inductive item := Cmd (txt : list Z) (l : line) | Cd (path : list Z).

Definition item_text (i : item) : list Z :=
  match i with Cmd txt _ => txt | Cd path => chr "c" :: chr "d" :: 32 :: path end ++ [10].
Definition ok_item (i : item) : Prop :=
  match i with
  | Cmd txt l => plain txt /\ is_cd txt = false /\ ok_line l /\ spells (txt ++ [10]) (toks_line l)
  | Cd path => plain (chr "c" :: chr "d" :: 32 :: path)
  end.

(** *** Sessions *)

(** What is left of a session: the prompt, the next line, a line whose job is
    under way, something to say, nothing. *)
Inductive shell :=
| Idle (its : list item)
| Ready (its : list item)
| Busy (j : job) (its : list item)
| Says (fmt : string) (arg : list Z) (s : shell)
| Gone.

Inductive sstep (fds : fdtable) : nat -> shell -> list event -> nat -> shell -> list job -> Prop :=
| ss_prompt n its : sstep fds n (Idle its) [Said "$ " []] n (Ready its) []
| ss_end n : sstep fds n (Ready []) [] n Gone []
| ss_line n txt l its : sstep fds n (Ready (Cmd txt l :: its)) [] n (Busy (Todo (tree_line l) fds) its) []
| ss_line_failed n txt l its : sstep fds n (Ready (Cmd txt l :: its)) [] n (Says "fork" [] Gone) []
| ss_cd n path its : sstep fds n (Ready (Cd path :: its)) [Moved path] n (Idle its) []
| ss_cd_failed n path its : sstep fds n (Ready (Cd path :: its)) [] n (Says "cannot cd %s" path (Idle its)) []
| ss_busy n j e n' j' bg its : jstep n j e n' j' bg -> sstep fds n (Busy j its) e n' (Busy j' its) bg
| ss_over n its : sstep fds n (Busy Over its) [] n (Idle its) []
| ss_says n fmt arg s : sstep fds n (Says fmt arg s) [Said fmt arg] n s [].

(** The session and the jobs in the background. *)
Definition jobs : Type := nat * shell * list job.

Inductive wstep (fds : fdtable) : jobs -> list event -> jobs -> Prop :=
| w_shell n s e n' s' bg js : sstep fds n s e n' s' bg -> wstep fds (n, s, js) e (n', s', js ++ bg)
| w_back n s js1 j e n' j' bg js2 :
    jstep n j e n' j' bg -> wstep fds (n, s, js1 ++ j :: js2) e (n', s, js1 ++ j' :: js2 ++ bg)
| w_over n s js1 js2 : wstep fds (n, s, js1 ++ Over :: js2) [] (n, s, js1 ++ js2).

(** ** Descriptor tables *)

(** The first three descriptors are open, and two are free. *)
Record std (fds : list (option obj)) : Prop := {
  sd_in : exists o, fds !! 0%nat = Some (Some o);
  sd_out : exists o, fds !! 1%nat = Some (Some o);
  sd_err : exists o, fds !! 2%nat = Some (Some o);
  sd_free : exists i j, (i < j)%nat /\ fds !! i = Some None /\ fds !! j = Some None
}.

Lemma lowest_spec fds k :
  fds !! k = Some None -> (forall j, (j < k)%nat -> exists o, fds !! j = Some (Some o)) -> lowest fds = Some k.
Proof.
  revert k. induction fds as [|[o|] fds IH]; intros k Hk Hj; [done|..].
  - destruct k as [|k]; [done|]. cbn [lowest]. rewrite (IH k); [done|done|]. intros j Hlt. apply (Hj (S j)). lia.
  - destruct k as [|k]; [done|]. destruct (Hj 0%nat) as (o & [=]). lia.
Qed.

Lemma lowest_free fds j : fds !! j = Some None -> exists k, (k <= j)%nat /\ lowest fds = Some k /\ fds !! k = Some None.
Proof.
  revert j. induction fds as [|[o|] fds IH]; intros j Hj; [done|..].
  - destruct j as [|j]; [done|]. destruct (IH j Hj) as (k & ? & E & ?). exists (S k). cbn [lowest]. rewrite E.
    split; [lia|done].
  - exists 0%nat. split; [lia|done].
Qed.

Lemma std_lowest fds k : std fds -> fds !! k = Some None -> (3 <= k)%nat.
Proof.
  intros [(o & E0) (o' & E1) (o'' & E2) _] Hk. destruct k as [|[|[|k]]]; [congruence..|lia].
Qed.

Lemma std_insert fds k o : std fds -> (k < 2)%nat -> std (<[k := Some o]> fds).
Proof.
  intros Hs Hk. pose proof Hs as [(o0 & E0) (o1 & E1) (o2 & E2) (i & j & Hij & Ei & Ej)].
  pose proof (std_lowest _ _ Hs Ei). pose proof (std_lowest _ _ Hs Ej). split.
  - destruct k as [|k]; [|exists o0; by rewrite list_lookup_insert_ne].
    exists o. apply list_lookup_insert_eq. by eapply lookup_lt_Some.
  - destruct (decide (k = 1%nat)) as [->|]; [|exists o1; by rewrite list_lookup_insert_ne].
    exists o. apply list_lookup_insert_eq. by eapply lookup_lt_Some.
  - exists o2. by rewrite list_lookup_insert_ne by lia.
  - exists i, j. by rewrite !list_lookup_insert_ne by lia.
Qed.

(** [close] and then [open]: the file gets the descriptor that was closed. *)
Lemma close_put fds k o : std fds -> (k < 2)%nat -> put (close fds (Z.of_nat k)) o = Some (<[k := Some o]> fds, Z.of_nat k).
Proof.
  intros [(o0 & E0) (o1 & E1) _ _] Hk. unfold put, close. rewrite Nat2Z.id.
  rewrite (lowest_spec _ k); [by rewrite list_insert_insert_eq| |].
  - apply list_lookup_insert_eq. destruct k as [|[|k]]; [by eapply lookup_lt_Some..|lia].
  - intros j Hj. assert (j = 0%nat /\ k = 1%nat) as [-> ->] by lia. exists o0. by rewrite list_lookup_insert_ne.
Qed.

(** [pipe]: two descriptors that were free. *)
Lemma pipe_put fds n : std fds -> exists i j, i <> j /\ (2 <= i)%nat /\ (2 <= j)%nat /\
  fds !! i = Some None /\ fds !! j = Some None /\
  pipe fds n = Some (<[j := Some (PipeW n)]> (<[i := Some (PipeR n)]> fds), Z.of_nat i, Z.of_nat j).
Proof.
  intros Hs. pose proof Hs as [_ _ _ (a & b & Hab & Ea & Eb)].
  destruct (lowest_free fds a Ea) as (i & Hi & E1 & Ei).
  assert (<[i := Some (PipeR n)]> fds !! b = Some None) as Eb' by by rewrite list_lookup_insert_ne by lia.
  destruct (lowest_free _ b Eb') as (j & Hj & E2 & Ej).
  assert (i <> j) as Hne.
  { intros ->. rewrite list_lookup_insert_eq in Ej by (by eapply lookup_lt_Some). done. }
  rewrite list_lookup_insert_ne in Ej by done.
  exists i, j. split; [done|]. pose proof (std_lowest _ _ Hs Ei). pose proof (std_lowest _ _ Hs Ej). split_and!; [lia|lia|done|done|].
  unfold pipe, put at 1. rewrite E1. cbv beta iota. unfold put. by rewrite E2.
Qed.

(** A child of a pipeline: one end becomes [k], and both are closed. *)
Lemma pipe_end fds i j r w k kz d o : std fds -> kz = Z.of_nat k -> i <> j -> (2 <= i)%nat -> (2 <= j)%nat ->
  fds !! i = Some None -> fds !! j = Some None -> (k < 2)%nat -> d = i /\ o = r \/ d = j /\ o = w ->
  close (close (dup (close (<[j := Some w]> (<[i := Some r]> fds)) kz) (Z.of_nat d)) (Z.of_nat i)) (Z.of_nat j)
  = <[k := Some o]> fds.
Proof.
  intros Hs -> Hij Hi Hj Ei Ej Hk Hd. pose proof (lookup_lt_Some _ _ _ Ei) as Hli. pose proof (lookup_lt_Some _ _ _ Ej) as Hlj.
  set (fds' := <[j := Some w]> (<[i := Some r]> fds)).
  assert (close fds' (Z.of_nat k) !! Z.to_nat (Z.of_nat d) = Some (Some o)) as Ed.
  { unfold close, fds'. rewrite !Nat2Z.id, list_lookup_insert_ne by lia.
    destruct Hd as [[-> ->]|[-> ->]]; [rewrite list_lookup_insert_ne by done|]; by rewrite list_lookup_insert_eq by (rewrite ?length_insert; done). }
  unfold dup. rewrite Ed. unfold put, close. rewrite !Nat2Z.id. destruct Hs as [(o0 & E0) (o1 & E1) _ _].
  rewrite (lowest_spec _ k).
  - rewrite list_insert_insert_eq. unfold fds'. apply list_eq. intros x.
    destruct (decide (x = j)) as [->|]; [rewrite list_lookup_insert_eq, list_lookup_insert_ne by (rewrite ?length_insert; lia); done|].
    rewrite list_lookup_insert_ne by done.
    destruct (decide (x = i)) as [->|]; [rewrite list_lookup_insert_eq, list_lookup_insert_ne by (rewrite ?length_insert; lia); done|].
    rewrite list_lookup_insert_ne by done.
    destruct (decide (x = k)) as [->|]; [by rewrite !list_lookup_insert_eq by (rewrite ?length_insert; lia)|].
    by rewrite !list_lookup_insert_ne by done.
  - apply list_lookup_insert_eq. unfold fds'. rewrite !length_insert. lia.
  - intros x Hx. assert (x = 0%nat) as -> by lia. exists o0. unfold fds'. by rewrite !list_lookup_insert_ne by lia.
Qed.

(** ** Code *)

(** Redirections concern input and output. *)
Fixpoint std_redirs (c : cmd) : Prop :=
  match c with
  | CExec _ => True
  | CRedir c _ _ fd => (fd = 0 \/ fd = 1) /\ std_redirs c
  | CPipe l r | CList l r => std_redirs l /\ std_redirs r
  | CBack c => std_redirs c
  end.

Lemma str_spec fuel m a w : cstring m a w -> (length w < fuel)%nat -> str fuel m a = Some w.
Proof.
  intros (Hr & Hn & Hz). revert a fuel Hr Hz. induction Hn as [|c w Hc Hn IH]; intros a [|fuel] Hr Hz Hf; cbn [str length] in *; try lia.
  - rewrite Z.add_0_r in Hz. by rewrite Hz.
  - destruct Hr as [Ha Hr]. rewrite Ha, (proj2 (Z.eqb_neq _ _) Hc), (IH (a + 1)); [done|done| |lia].
    by replace (a + 1 + Z.of_nat (length w)) with (a + Z.of_nat (S (length w))) by lia.
Qed.

Lemma strs_spec width k m (argv : list (Z * Z)) args : (k < width)%nat ->
  Forall2 (fun (a : Z * Z) w => cstring m a.1 w /\ (length w <= k)%nat) argv args ->
  mapM (fun a : Z * Z => str width m a.1) argv = Some args.
Proof.
  intros Hk. induction 1 as [|a w argv args [Hw Hl] HF IH]; [done|]. cbn. rewrite (str_spec width m a.1 w) by (done || lia).
  cbn. change (mapM (fun a : Z * Z => str width m a.1) argv) with (mapM (fun a : Z * Z => str width m a.1) argv) in IH. by rewrite IH.
Qed.

(** A command's tree as code: what [runcmd] does for it. *)
Fixpoint implements (c : cmd) (p : prog) : Prop :=
  match c with
  | CExec [] => p = Exit
  | CExec (a :: args) => p = Exec (a :: args) (Printf "exec %s failed" a Exit)
  | CRedir c f mode fd =>
      exists k, p = Close fd (Open f mode k) /\ k (-1) = Printf "open %s failed" f Exit /\ forall r, 0 <= r -> implements c (k r)
  | CList l r => exists pl pr, p = fork1 pl (Wait pr) /\ implements l pl /\ implements r pr
  | CPipe l r =>
      exists k, p = Pipe k /\ k None = panic "pipe" /\ forall p0 p1, exists pl pr, implements l pl /\ implements r pr /\
        k (Some (p0, p1)) = fork1 (Close 1 (Dup p1 (Close p0 (Close p1 pl))))
          (fork1 (Close 0 (Dup p0 (Close p0 (Close p1 pr)))) (Close p0 (Close p1 (Wait (Wait Exit)))))
  | CBack c => exists pc, p = fork1 pc Exit /\ implements c pc
  end.

Lemma runcmd_implements width h m k c : (k < width)%nat -> forall fuel p,
  command m k h p c -> (p < fuel)%nat -> implements c (runcmd width fuel h m p).
Proof.
  intros Hk. induction c as [args|c IH f mode fd|l IHl r IHr|l IHl r IHr|c IH]; intros [|fuel] p Hd Hf; try lia;
    cbn [denotes runcmd implements] in *.
  - destruct Hd as (argv & -> & HF). rewrite (strs_spec width k m argv args Hk HF). by destruct args.
  - destruct Hd as (p' & q & eq & -> & Hp & [Hw Hlen] & Hd). rewrite (str_spec width m q f) by (done || lia).
    eexists. split; [done|]. split; [done|]. intros r Hr. cbv beta. rewrite (proj2 (Z.ltb_ge r 0)) by done. apply IH; [done|lia].
  - destruct Hd as (a & b & -> & Ha & Hb & Hda & Hdb). eexists. split; [done|]. split; [done|]. intros p0 p1.
    eexists _, _. split; [exact (IHl fuel a Hda ltac:(lia))|]. split; [exact (IHr fuel b Hdb ltac:(lia))|done].
  - destruct Hd as (a & b & -> & Ha & Hb & Hda & Hdb). eexists _, _. split; [done|]. split; [apply IHl; [done|lia]|apply IHr; [done|lia]].
  - destruct Hd as (a & -> & Ha & Hd). eexists. split; [done|]. apply IH; [done|lia].
Qed.

(** Calls on the descriptor table, up to [q] with the table [fds']. *)
Inductive straight : prog -> fdtable -> prog -> fdtable -> nat -> Prop :=
| straight_end p fds : straight p fds p fds 0
| straight_close fd p fds q fds' i : straight p (close fds fd) q fds' i -> straight (Close fd p) fds q fds' (S i)
| straight_dup fd p fds q fds' i : straight p (dup fds fd) q fds' i -> straight (Dup fd p) fds q fds' (S i).

(** Code that waits for [w] children and exits. *)
Inductive waits : nat -> prog -> nat -> Prop :=
| waits_exit : waits 0 Exit 1
| waits_wait w p i : waits w p i -> waits (S w) (Wait p) (S i)
| waits_close w fd p i : waits w p i -> waits w (Close fd p) (S i).

(** The steps of a command, at most. *)
Fixpoint steps (c : cmd) : nat :=
  match c with
  | CExec _ => 3
  | CRedir c _ _ _ => 4 + steps c
  | CPipe l r => 16 + steps l + steps r
  | CList l r => 3 + steps l + steps r
  | CBack c => 3 + steps c
  end.

(** ** The processes of a job *)

(** The process that does a job, and the steps it can still make. *)
Inductive does : proc -> job -> nat -> Prop :=
| does_todo p fds q fds' i c :
    straight p fds q fds' i -> implements c q -> std fds' -> std_redirs c ->
    does (Proc (Runs p) fds []) (Todo c fds') (i + steps c)
| does_opening f mode k c fd fds :
    implements (CRedir c f mode fd) (Close fd (Open f mode k)) -> std fds -> std_redirs (CRedir c f mode fd) ->
    does (Proc (Runs (Open f mode k)) (close fds fd) []) (Todo (CRedir c f mode fd) fds) (3 + steps c)
| does_running argv fds : does (Proc (Program argv) fds []) (Running argv fds) 1
| does_fails fmt arg fds : does (Proc (Runs (Printf fmt arg Exit)) fds []) (Fails fmt arg) 2
| does_then child j i p c fds :
    does child j i -> implements c p -> std fds -> std_redirs c ->
    does (Proc (Runs (Wait p)) fds [child]) (Then j c fds) (i + (1 + steps c))
| does_forks pl fdsl ql fds1 il l pr fdsr qr fds2 ir r k ik fds :
    straight pl fds ql fds1 il -> implements l ql -> std fds1 -> std_redirs l -> fdsl = fds ->
    straight pr fds qr fds2 ir -> implements r qr -> std fds2 -> std_redirs r -> fdsr = fds ->
    waits 2 k ik ->
    does (Proc (Runs (fork1 pl (fork1 pr k))) fds []) (Both (Todo l fds1) (Todo r fds2)) (2 + (il + steps l) + (ir + steps r) + ik)
| does_fork child j i pr fds qr fds2 ir r k ik :
    does child j i -> straight pr fds qr fds2 ir -> implements r qr -> std fds2 -> std_redirs r -> waits 2 k ik ->
    does (Proc (Runs (fork1 pr k)) fds [child]) (Both j (Todo r fds2)) (1 + i + (ir + steps r) + ik)
| does_both cl jl il cr jr ir k ik fds :
    does cl jl il -> does cr jr ir -> waits 2 k ik ->
    does (Proc (Runs k) fds [cl; cr]) (Both jl jr) (il + ir + ik)
| does_one child j i k ik fds : does child j i -> waits 1 k ik -> does (Proc (Runs k) fds [child]) j (i + ik)
| does_leaves child j i fds : does child j i -> does (Proc (Runs Exit) fds [child]) (Leaves j) (i + 2)
| does_quits msg child j i fds : does child j i -> does (Proc (Runs (panic msg)) fds [child]) (Quits msg j) (i + 3)
| does_exit k ik fds : waits 0 k ik -> does (Proc (Runs k) fds []) Over ik
| does_zombie fds : does (Proc Zombie fds []) Over 0.

(** Processes without a parent; [init] collects each. *)
Inductive do_all : list proc -> list job -> nat -> Prop :=
| do_nil : do_all [] [] 0
| do_cons p j i ps js i' : does p j i -> do_all ps js i' -> do_all (p :: ps) (j :: js) (S i + i').

(** A step, or none. *)
Definition moves (n : nat) (j : job) (e : list event) (n' : nat) (j' : job) (bg : list job) : Prop :=
  jstep n j e n' j' bg \/ (e = [] /\ n' = n /\ j' = j /\ bg = []).

Lemma moves_in n j e n' j' bg (C : job -> job) :
  (jstep n j e n' j' bg -> jstep n (C j) e n' (C j') bg) -> moves n j e n' j' bg -> moves n (C j) e n' (C j') bg.
Proof. intros HC [Hs|(-> & -> & -> & ->)]; [left; by apply HC|by right]. Qed.

Lemma do_one p j i : does p j i -> do_all [p] [j] (S i).
Proof. intros Hd. replace (S i) with (S i + 0)%nat by lia. by constructor; [|constructor]. Qed.

(** The one child, or one of two, that makes a step. *)
Lemma split_one {A} (cs1 cs2 : list A) c x : cs1 ++ c :: cs2 = [x] -> cs1 = [] /\ c = x /\ cs2 = [].
Proof. destruct cs1 as [|y [|]]; [intros [= -> ->]; done|done..]. Qed.

Lemma split_two {A} (cs1 cs2 : list A) c x y : cs1 ++ c :: cs2 = [x; y] ->
  cs1 = [] /\ c = x /\ cs2 = [y] \/ cs1 = [x] /\ c = y /\ cs2 = [].
Proof. destruct cs1 as [|z [|z' [|]]]; intros [= -> ->]; [by left|by subst; right|done..]. Qed.

Lemma does_zombie_inv fds cs j i : does (Proc Zombie fds cs) j i -> j = Over /\ cs = [].
Proof. intros Hd. by inversion Hd. Qed.

(** ** Every step of a process is one of its job *)

Definition follows (n : nat) (j : job) (i : nat) (e : list event) (n' : nat) (P' : proc) (orphans : list proc) : Prop :=
  exists j' i' bg i2, moves n j e n' j' bg /\ does P' j' i' /\ do_all orphans bg i2 /\ (i' + i2 < i)%nat.

Definition simulates (P : proc) (j : job) (i : nat) : Prop :=
  forall n e n' P' orphans, step n P e n' P' orphans -> follows n j i e n' P' orphans.

Lemma follows_step n j i e n' P' j' i' :
  jstep n j e n' j' [] -> does P' j' i' -> (i' < i)%nat -> follows n j i e n' P' [].
Proof. intros Hs Hd Hi. exists j', i', [], 0%nat. split_and!; [by left|done|constructor|lia]. Qed.

Lemma follows_still n j i P' i' : does P' j i' -> (i' < i)%nat -> follows n j i [] n P' [].
Proof. intros Hd Hi. exists j, i', [], 0%nat. split_and!; [by right|done|constructor|lia]. Qed.

(** A step of a child, under what its parent makes of the job. *)
Lemma follows_child (C : job -> job) (a : nat) (P : proc -> proc) n c j i e n' c' orphans :
  simulates c j i -> step n c e n' c' orphans ->
  (forall e n' j' bg, jstep n j e n' j' bg -> jstep n (C j) e n' (C j') bg) ->
  (forall c' j' i', does c' j' i' -> does (P c') (C j') (i' + a)) ->
  follows n (C j) (i + a) e n' (P c') orphans.
Proof.
  intros Hsim Hs HC HP. destruct (Hsim _ _ _ _ _ Hs) as (j' & i' & bg & i2 & Hm & Hd & Hb & Hi).
  exists (C j'), (i' + a)%nat, bg, i2. split_and!; [by apply moves_in; [apply HC|]|by apply HP|done|lia].
Qed.

(** What is printed before the end. *)
Lemma fails_does fmt arg fds : does (Proc (Runs (Printf fmt arg Exit)) fds []) (Fails fmt arg) 2.
Proof. constructor. Qed.

Lemma todo_does p c fds : implements c p -> std fds -> std_redirs c -> does (Proc (Runs p) fds []) (Todo c fds) (steps c).
Proof. intros Hi Hs Hr. apply (does_todo p fds p fds 0); [constructor|done..]. Qed.

(** The two sides of a pipe, each after its calls on the descriptors. *)
Lemma sides_does pl pr l r fds n i j : std fds -> implements l pl -> implements r pr -> std_redirs l -> std_redirs r ->
  i <> j -> (2 <= i)%nat -> (2 <= j)%nat -> fds !! i = Some None -> fds !! j = Some None ->
  let p0 := Z.of_nat i in let p1 := Z.of_nat j in
  does (Proc (Runs (fork1 (Close 1 (Dup p1 (Close p0 (Close p1 pl))))
                   (fork1 (Close 0 (Dup p0 (Close p0 (Close p1 pr)))) (Close p0 (Close p1 (Wait (Wait Exit))))))) 
         (<[j := Some (PipeW n)]> (<[i := Some (PipeR n)]> fds)) [])
    (Both (Todo l (<[1%nat := Some (PipeW n)]> fds)) (Todo r (<[0%nat := Some (PipeR n)]> fds)))
    (2 + (4 + steps l) + (4 + steps r) + 5).
Proof.
  intros Hs Hl Hr Hsl Hsr Hij Hi Hj Ei Ej p0 p1.
  eapply does_forks; [|exact Hl| |exact Hsl|done| |exact Hr| |exact Hsr|done|repeat constructor];
    [|by apply std_insert; [|lia]| |by apply std_insert; [|lia]].
  - rewrite <- (pipe_end fds i j (PipeR n) (PipeW n) 1 1 j (PipeW n)) by (try done; try lia; by right). repeat constructor.
  - rewrite <- (pipe_end fds i j (PipeR n) (PipeW n) 0 0 i (PipeR n)) by (try done; try lia; by left). repeat constructor.
Qed.

(** No children: no step of a child, nothing to wait for. *)
Lemma no_child {A} (cs1 : list A) c cs2 : cs1 ++ c :: cs2 <> [].
Proof. by destruct cs1. Qed.

Ltac step_cases H :=
  inversion H; clear H; subst; simplify_eq;
  try match goal with E : _ ++ _ :: _ = [] |- _ => by apply no_child in E
                    | E : [] = _ ++ _ :: _ |- _ => by symmetry in E; apply no_child in E end.

Lemma todo_simulates c p fds : implements c p -> std fds -> std_redirs c -> simulates (Proc (Runs p) fds []) (Todo c fds) (steps c).
Proof.
  intros Hi Hs Hr n e n' P' orphans Hstep.
  destruct c as [[|a args]|c f mode fd|l r|l r|c]; cbn [implements std_redirs steps] in *.
  - subst p. step_cases Hstep. eapply follows_step; [apply js_exec_nothing|constructor|lia].
  - subst p. step_cases Hstep.
    + eapply follows_step; [apply js_exec|constructor|lia].
    + eapply follows_step; [apply js_exec_failed|apply fails_does|lia].
  - pose proof Hi as (k & -> & _). step_cases Hstep. eapply follows_still; [by constructor|lia].
  - destruct Hi as (k & -> & Hn & Hk). destruct Hr as [Hrl Hrr]. step_cases Hstep.
    + destruct (pipe_put fds n Hs) as (i & j & Hij & Hi & Hj & Ei & Ej & E). simplify_eq.
      destruct (Hk (Z.of_nat i) (Z.of_nat j)) as (pl & pr & Hl & Hr & ->).
      eapply follows_step; [apply js_pipe|by apply sides_does|lia].
    + rewrite Hn. eapply follows_step; [apply js_pipe_failed|apply fails_does|lia].
  - destruct Hi as (pl & pr & -> & Hl & Hr'). destruct Hr as [Hrl Hrr]. step_cases Hstep.
    + eapply follows_step; [apply js_list|apply does_then; [by apply todo_does|done..]|lia].
    + eapply follows_step; [apply js_list_failed|apply fails_does|lia].
  - destruct Hi as (pc & -> & Hc). step_cases Hstep.
    + eapply follows_step; [apply js_back|apply does_leaves; by apply todo_does|lia].
    + eapply follows_step; [apply js_back_failed|apply fails_does|lia].
Qed.

Lemma opening_simulates f mode k c fd fds :
  implements (CRedir c f mode fd) (Close fd (Open f mode k)) -> std fds -> std_redirs (CRedir c f mode fd) ->
  simulates (Proc (Runs (Open f mode k)) (close fds fd) []) (Todo (CRedir c f mode fd) fds) (3 + steps c).
Proof.
  intros (k' & [= <-] & Hn & Hk) Hs [Hfd Hr] n e n' P' orphans Hstep. step_cases Hstep.
  - assert (Efd : Z.of_nat (Z.to_nat fd) = fd) by lia. assert (Hfd2 : (Z.to_nat fd < 2)%nat) by lia.
    pose proof (close_put fds (Z.to_nat fd) (File f mode) Hs Hfd2) as E. rewrite Efd in E. simplify_eq.
    eapply follows_step; [apply js_redir|apply todo_does; [apply Hk; lia|by apply std_insert|done]|lia].
  - rewrite Hn. eapply follows_step; [apply js_redir_failed|apply fails_does|lia].
Qed.

Lemma exit_simulates k ik fds : waits 0 k ik -> simulates (Proc (Runs k) fds []) Over ik.
Proof.
  intros Hw n e n' P' orphans Hstep. inversion Hw as [| |w fd p i Hw' E1 E2 E3]; subst; step_cases Hstep.
  - eapply follows_still; [apply does_zombie|lia].
  - eapply follows_still; [by apply does_exit|lia].
Qed.

Lemma one_simulates child j i k ik fds :
  does child j i -> simulates child j i -> waits 1 k ik -> simulates (Proc (Runs k) fds [child]) j (i + ik).
Proof.
  intros Hd Hsim Hw n e n' P' orphans Hstep.
  inversion Hstep; subst; inversion Hw; subst.
  all: try match goal with E : _ ++ _ :: _ = [_] |- _ => apply split_one in E as (-> & <- & ->) end.
  all: try (eapply (follows_child (fun j => j) _ (fun c => Proc _ _ [c])); [done..|]; intros; by apply does_one).
  - apply does_zombie_inv in Hd as [-> _]. eapply follows_still; [by apply does_exit|lia].
  - eapply follows_still; [by apply does_one|lia].
Qed.

Lemma steps_some c : (3 <= steps c)%nat.
Proof. destruct c; cbn [steps]; lia. Qed.

Lemma both_simulates cl jl il cr jr ir k ik fds :
  does cl jl il -> simulates cl jl il -> does cr jr ir -> simulates cr jr ir -> waits 2 k ik ->
  simulates (Proc (Runs k) fds [cl; cr]) (Both jl jr) (il + ir + ik).
Proof.
  intros Hdl Hsl Hdr Hsr Hw n e n' P' orphans Hstep.
  inversion Hstep; subst; inversion Hw; subst.
  all: try match goal with E : _ ++ _ :: _ = [_; _] |- _ => apply split_two in E as [(-> & Ec & ->)|(-> & Ec & ->)];
    (match type of Ec with ?c = _ => is_var c; subst c | _ => subst end); cbn [app] end.
  all: try match goal with Hc : simulates ?c ?jl ?x, Hs : step _ ?c _ _ _ _ |- follows _ (Both ?jl ?jr) (?x + ?y + ?a) _ _ (Proc _ _ [_; ?d]) _ =>
    replace (x + y + a)%nat with (x + (y + a))%nat by lia;
    eapply (follows_child (fun j => Both j jr) _ (fun c => Proc _ _ [c; d])); [exact Hc|exact Hs|by constructor|];
    intros c'' j'' i'' ?; replace (i'' + (y + a))%nat with (i'' + y + a)%nat by lia; by apply does_both end.
  all: try match goal with Hc : simulates ?c ?jr ?y, Hs : step _ ?c _ _ _ _ |- follows _ (Both ?jl ?jr) (?x + ?y + ?a) _ _ (Proc _ _ [?d; _]) _ =>
    replace (x + y + a)%nat with (y + (x + a))%nat by lia;
    eapply (follows_child (fun j => Both jl j) _ (fun c => Proc _ _ [d; c])); [exact Hc|exact Hs|by constructor|];
    intros c'' j'' i'' ?; replace (i'' + (x + a))%nat with (x + i'' + a)%nat by lia; by apply does_both end.
  - apply does_zombie_inv in Hdl as [-> _]. eapply follows_step; [apply js_left_over|by apply does_one|lia].
  - apply does_zombie_inv in Hdr as [-> _]. eapply follows_step; [apply js_right_over|by apply does_one|lia].
  - eapply follows_still; [by apply does_both|lia].
Qed.

Lemma fork_simulates child j i pr fds qr fds2 ir r k ik :
  does child j i -> simulates child j i -> straight pr fds qr fds2 ir -> implements r qr -> std fds2 -> std_redirs r ->
  waits 2 k ik ->
  simulates (Proc (Runs (fork1 pr k)) fds [child]) (Both j (Todo r fds2)) (1 + i + (ir + steps r) + ik).
Proof.
  intros Hd Hsim Hst Hi Hs Hr Hw n e n' P' orphans Hstep. inversion Hstep; subst.
  - eapply follows_still; [apply does_both; [done|by eapply does_todo|done]|lia].
  - pose proof (steps_some r). eapply follows_step; [apply js_right_failed|by apply does_quits|lia].
  - match goal with E : _ ++ _ :: _ = [_] |- _ => apply split_one in E as (-> & <- & ->) end. cbn [app].
    replace (1 + i + (ir + steps r) + ik)%nat with (i + (1 + (ir + steps r) + ik))%nat by lia.
    eapply (follows_child (fun j => Both j (Todo r fds2)) _ (fun c => Proc _ _ [c])); [exact Hsim|done|by constructor|].
    intros c'' j'' i'' Hd''. replace (i'' + (1 + (ir + steps r) + ik))%nat with (1 + i'' + (ir + steps r) + ik)%nat by lia.
    by eapply does_fork.
Qed.

Lemma then_simulates child j i p c fds :
  does child j i -> simulates child j i -> implements c p -> std fds -> std_redirs c ->
  simulates (Proc (Runs (Wait p)) fds [child]) (Then j c fds) (i + (1 + steps c)).
Proof.
  intros Hd Hsim Hi Hs Hr n e n' P' orphans Hstep. inversion Hstep; subst;
    match goal with E : _ ++ _ :: _ = [_] |- _ => apply split_one in E as (-> & <- & ->) end; cbn [app].
  - apply does_zombie_inv in Hd as [-> _]. eapply follows_step; [apply js_next|by apply todo_does|lia].
  - eapply (follows_child (fun j => Then j c fds) _ (fun c => Proc _ _ [c])); [exact Hsim|done|by constructor|].
    intros. by apply does_then.
Qed.

Lemma leaves_simulates child j i fds :
  does child j i -> simulates child j i -> simulates (Proc (Runs Exit) fds [child]) (Leaves j) (i + 2).
Proof.
  intros Hd Hsim n e n' P' orphans Hstep. inversion Hstep; subst.
  - exists Over, 0%nat, [j], (S i). split_and!; [left; constructor|constructor|by apply do_one|lia].
  - match goal with E : _ ++ _ :: _ = [_] |- _ => apply split_one in E as (-> & <- & ->) end. cbn [app].
    eapply (follows_child Leaves _ (fun c => Proc _ _ [c])); [exact Hsim|done|by constructor|]. intros. by apply does_leaves.
Qed.

Lemma quits_simulates msg child j i fds :
  does child j i -> simulates child j i -> simulates (Proc (Runs (panic msg)) fds [child]) (Quits msg j) (i + 3).
Proof.
  intros Hd Hsim n e n' P' orphans Hstep. inversion Hstep; subst.
  - eapply follows_step; [apply js_quits|by apply does_leaves|lia].
  - match goal with E : _ ++ _ :: _ = [_] |- _ => apply split_one in E as (-> & <- & ->) end. cbn [app].
    eapply (follows_child (Quits msg) _ (fun c => Proc _ _ [c])); [exact Hsim|done|by constructor|]. intros. by apply does_quits.
Qed.

Theorem does_simulates P j i : does P j i -> simulates P j i.
Proof.
  induction 1.
  - inversion H as [| |]; subst; [by apply todo_simulates|..]; intros n e n' P' orphans Hstep; step_cases Hstep;
      (eapply follows_still; [by eapply does_todo|lia]).
  - by apply opening_simulates.
  - intros n e n' P' orphans Hstep. step_cases Hstep. eapply follows_step; [constructor|constructor|lia].
  - intros n e n' P' orphans Hstep. step_cases Hstep. eapply follows_step; [constructor|by apply does_exit, waits_exit|lia].
  - by apply then_simulates.
  - subst. intros n e n' P' orphans Hstep. step_cases Hstep.
    + eapply follows_still; [eapply does_fork; [by eapply does_todo|done..]|lia].
    + pose proof (steps_some l). eapply follows_step; [apply js_left_failed|apply fails_does|lia].
  - by eapply fork_simulates.
  - by apply both_simulates.
  - by apply one_simulates.
  - by apply leaves_simulates.
  - by apply quits_simulates.
  - by apply exit_simulates.
  - intros n e n' P' orphans Hstep. step_cases Hstep.
Qed.

(** ** No process is stuck *)

Definition goes_on (P : proc) : Prop := forall n, exists e n' P' orphans, step n P e n' P' orphans.

Lemma child_goes_on st fds cs1 c cs2 : goes_on c -> goes_on (Proc st fds (cs1 ++ c :: cs2)).
Proof. intros Hc n. destruct (Hc n) as (e & n' & c' & orphans & Hs). eexists _, _, _, _. by apply step_child. Qed.

Definition zombie (P : proc) : Prop := exists fds, P = Proc Zombie fds [].

(** A call that is always answered. *)
Definition ready_call (p : prog) : Prop := match p with Wait _ | Stuck => False | _ => True end.

Lemma call_goes_on p fds cs : ready_call p -> goes_on (Proc (Runs p) fds cs).
Proof. intros Hp n. destruct p; try done; eexists _, _, _, _; by constructor. Qed.

Lemma wait_goes_on p fds c cs : zombie c \/ goes_on c -> goes_on (Proc (Runs (Wait p)) fds (c :: cs)).
Proof.
  intros [[fds' ->]|Hc]; [|by apply (child_goes_on _ _ [])]. intros n. eexists _, _, _, _. by apply (step_wait n p fds []).
Qed.

Lemma waits_goes_on w k ik fds cs :
  waits w k ik -> (w = 0%nat \/ exists c cs', cs = c :: cs' /\ (zombie c \/ goes_on c)) -> goes_on (Proc (Runs k) fds cs).
Proof.
  intros [|w' p i _|w' fd p i _] Hw; [by apply call_goes_on| |by apply call_goes_on].
  destruct Hw as [?|(c & cs' & -> & Hc)]; [done|]. by apply wait_goes_on.
Qed.

Lemma implements_ready c p : implements c p -> ready_call p.
Proof.
  destruct c as [[|]| | | |]; cbn [implements]; try (by intros ->).
  - by intros (k & -> & _).
  - by intros (k & -> & _).
  - by intros (pl & pr & -> & _).
  - by intros (pc & -> & _).
Qed.

Lemma does_goes_on P j i : does P j i -> zombie P \/ goes_on P.
Proof.
  induction 1; try (right; by apply call_goes_on).
  - right. apply call_goes_on. destruct H; [by eapply implements_ready|done..].
  - right. intros n. eexists _, _, _, _. apply step_program.
  - right. by apply wait_goes_on.
  - right. eapply waits_goes_on; [done|]. right. by eexists _, _.
  - right. eapply waits_goes_on; [done|]. right. by eexists _, _.
  - right. eapply waits_goes_on; [done|by left].
  - left. by exists fds.
Qed.
(** ** Lines *)

Lemma redirs_std rs c : std_redirs c -> std_redirs (tree_redirs c rs).
Proof.
  unfold tree_redirs. revert c. induction rs as [|r rs IH]; intros c Hc; [done|]. cbn [foldl]. apply IH.
  rewrite tree_redir_eq. cbn. split; [destruct r; cbn; lia|done].
Qed.

Lemma amps_std k c : std_redirs c -> std_redirs (Nat.iter k CBack c).
Proof. intros. by induction k. Qed.

Lemma tree_std : (forall l, std_redirs (tree_line l)) /\ (forall p, std_redirs (tree_pipes p)) /\
  (forall e, std_redirs (tree_ex e)).
Proof.
  apply line_pipes_ex_ind; intros; cbn [tree_line tree_pipes tree_ex std_redirs]; try split;
    try apply amps_std; try apply redirs_std; done.
Qed.

(** ** The bytes the shell reads *)

Lemma gets_line txt : forall m buf i max rest,
  Forall (fun c => is_u8 c /\ c <> 10 /\ c <> 13) txt -> i + Z.of_nat (length txt) + 1 < max ->
  exists m', CString.gets_from m buf i max (txt ++ 10 :: rest) = (m', rest) /\ reads m' (buf + i) (txt ++ [10]) /\
    m' (buf + i + Z.of_nat (length txt) + 1) = 0 /\ forall x, x < buf + i -> m' x = m x.
Proof.
  induction txt as [|c txt IH]; intros m buf i max rest Ht Hmax; cbn [CString.gets_from app length] in *;
    rewrite (proj2 (Z.ltb_lt _ _)) by lia.
  - change ((10 =? 10) || (10 =? 13)) with true. cbv iota. eexists. split; [done|]. unfold put8. split; [|split].
    + cbn [reads]. split; [|done]. rewrite (proj2 (Z.eqb_neq _ _)) by lia. by rewrite Z.eqb_refl.
    + rewrite (proj2 (Z.eqb_eq _ _)) by lia. done.
    + intros x Hx. by rewrite !(proj2 (Z.eqb_neq _ _)) by lia.
  - apply Forall_cons in Ht as [(Hu & H10 & H13) Ht]. rewrite (proj2 (Z.eqb_neq _ _) H10), (proj2 (Z.eqb_neq _ _) H13).
    cbn [orb]. destruct (IH (put8 m (buf + i) c) buf (i + 1) max rest Ht ltac:(lia)) as (m' & -> & Hr & Hz & Hx).
    exists m'. split; [done|]. rewrite Z.add_assoc in Hr, Hz, Hx. split; [|split].
    + cbn [reads app]. split; [|done]. rewrite Hx by lia. unfold put8. rewrite Z.eqb_refl. by apply u8_small.
    + rewrite <- Hz. f_equal. lia.
    + intros x Hlt. rewrite Hx by lia. unfold put8. by rewrite (proj2 (Z.eqb_neq _ _)) by lia.
Qed.

Lemma getcmd_line m buf txt rest : plain txt -> exists m', getcmd m buf (txt ++ 10 :: rest) = (m', rest, 0) /\
  cstring m' buf (txt ++ [10]).
Proof.
  intros [Ht Hlen]. unfold getcmd, CString.gets.
  destruct (gets_line txt (CString.pad m buf nbuf) buf 0 (Z.of_nat nbuf) rest) as (m' & -> & Hr & Hz & _).
  { eapply Forall_impl; [exact Ht|]. naive_solver. }
  { unfold nbuf. lia. }
  rewrite Z.add_0_r in Hr, Hz. exists m'. assert (Forall (fun c => c <> 0) (txt ++ [10])) as Hn.
  { apply Forall_app. split; [eapply Forall_impl; [exact Ht|]; naive_solver|]. by constructor. }
  split.
  - assert (m' buf <> 0) as Hb.
    { destruct (txt ++ [10]) as [|c l] eqn:E; [by destruct txt|]. destruct Hr as [-> _]. by apply Forall_cons in Hn as [? _]. }
    by rewrite (proj2 (Z.eqb_neq _ _) Hb).
  - split; [done|]. split; [done|]. rewrite length_app. cbn [length]. rewrite <- Hz. f_equal. lia.
Qed.

Lemma getcmd_end m buf : exists m', getcmd m buf [] = (m', [], -1).
Proof.
  unfold getcmd, CString.gets. generalize (CString.pad m buf nbuf). intros m0. exists (put8 m0 (buf + 0) 0).
  cbn [CString.gets_from Z.add Z.ltb]. change (0 + 1 <? Z.of_nat nbuf) with true. cbv iota.
  unfold put8 at 2. by rewrite Z.add_0_r, Z.eqb_refl.
Qed.

Lemma is_cd_line m buf txt : cstring m buf (txt ++ [10]) ->
  (m buf =? chr "c") && (m (buf + 1) =? chr "d") && (m (buf + 2) =? 32) = is_cd txt.
Proof.
  intros (Hr & _ & _). destruct txt as [|a [|b [|c txt]]]; cbn [app reads is_cd] in *;
    try replace (buf + 2) with (buf + 1 + 1) by lia.
  - by destruct Hr as [-> _].
  - destruct Hr as (-> & -> & _). change (10 =? chr "d") with false. by rewrite andb_false_r.
  - destruct Hr as (-> & -> & -> & _). change (10 =? 32) with false. by rewrite andb_false_r.
  - by destruct Hr as (-> & -> & -> & _).
Qed.

Lemma chop_line m buf txt : cstring m buf (txt ++ [10]) ->
  cstring (put8 m (buf + Z.of_nat (length txt)) 0) buf txt.
Proof.
  intros (Hr & Hn & _). apply reads_app in Hr as [Hr _]. apply Forall_app in Hn as [Hn _].
  split; [|split; [done|unfold put8; by rewrite Z.eqb_refl]].
  assert (forall a l, a + Z.of_nat (length l) <= buf + Z.of_nat (length txt) -> reads m a l ->
    reads (put8 m (buf + Z.of_nat (length txt)) 0) a l) as Hk; [|by apply Hk].
  intros a l. revert a. induction l as [|c l IH]; intros a Hle Hra; [done|]. destruct Hra as [Ha Hra]. simpl in Hle.
  split; [unfold put8; rewrite (proj2 (Z.eqb_neq _ _)) by lia; done|apply IH; [lia|done]].
Qed.

Lemma cd_path m buf path : cstring m buf (chr "c" :: chr "d" :: 32 :: path) -> cstring m (buf + 3) path.
Proof.
  intros ((_ & _ & _ & Hr) & Hn & Hz). replace (buf + 1 + 1 + 1) with (buf + 3) in Hr by lia. split; [done|].
  do 3 apply Forall_cons in Hn as [_ Hn]. split; [done|]. rewrite <- Hz. f_equal. simpl. lia.
Qed.


(** ** Sessions *)

(** Code that takes the next line of a session; the code of the loop of [main]
    prints the prompt before. *)
Fixpoint takes (its : list item) (p : prog) : Prop :=
  match its with
  | [] => p = Exit
  | Cmd _ l :: its => exists pl pn, p = fork1 pl (Wait (Printf "$ " [] pn)) /\ implements (tree_line l) pl /\ takes its pn
  | Cd path :: its =>
      exists pn, takes its pn /\
        p = Chdir path (fun r => if r <? 0 then Printf "cannot cd %s" path (Printf "$ " [] pn) else Printf "$ " [] pn)
  end.

Fixpoint limit (its : list item) : nat :=
  match its with
  | [] => 1
  | Cmd _ l :: its => 3 + steps (tree_line l) + limit its
  | Cd _ :: its => 3 + limit its
  end.

(** The shell's own process. *)
Inductive leads (fds : fdtable) : proc -> shell -> nat -> Prop :=
| leads_open p its fuel : takes its p -> leads fds (Proc (Runs (open_console (S fuel) (Printf "$ " [] p))) fds []) (Idle its) (3 + limit its)
| leads_close p its fd fds' :
    takes its p -> close fds' fd = fds -> leads fds (Proc (Runs (Close fd (Printf "$ " [] p))) fds' []) (Idle its) (2 + limit its)
| leads_idle p its : takes its p -> leads fds (Proc (Runs (Printf "$ " [] p)) fds []) (Idle its) (1 + limit its)
| leads_ready p its : takes its p -> leads fds (Proc (Runs p) fds []) (Ready its) (limit its)
| leads_busy child j i p its :
    does child j i -> takes its p ->
    leads fds (Proc (Runs (Wait (Printf "$ " [] p))) fds [child]) (Busy j its) (i + (2 + limit its))
| leads_fails fmt arg : leads fds (Proc (Runs (Printf fmt arg Exit)) fds []) (Says fmt arg Gone) 2
| leads_cannot fmt arg p its :
    takes its p -> leads fds (Proc (Runs (Printf fmt arg (Printf "$ " [] p))) fds []) (Says fmt arg (Idle its)) (2 + limit its)
| leads_exit : leads fds (Proc (Runs Exit) fds []) Gone 1
| leads_zombie fds' : leads fds (Proc Zombie fds' []) Gone 0.

Section session.
Context (fds : fdtable) (Hfds : std fds).

Lemma line_std l : std_redirs (tree_line l).
Proof. apply tree_std. Qed.

(** The fourth descriptor that [open] gives is the one that is closed. *)
Lemma put_close o fds' fd : put fds o = Some (fds', fd) -> 3 <= fd /\ close fds' fd = fds.
Proof.
  pose proof Hfds as [_ _ _ (i & j & _ & Ei & _)]. destruct (lowest_free fds i Ei) as (k & _ & E & Ek).
  unfold put. rewrite E. intros [= <- <-]. pose proof (std_lowest _ _ Hfds Ek). split; [lia|].
  unfold close. rewrite Nat2Z.id, list_insert_insert_eq. by apply list_insert_id.
Qed.

Definition leads_on (n : nat) (s : shell) (i : nat) (e : list event) (n' : nat) (P' : proc) (orphans : list proc) : Prop :=
  exists s' i' bg i2, (sstep fds n s e n' s' bg \/ (e = [] /\ n' = n /\ s' = s /\ bg = [])) /\ leads fds P' s' i' /\
    do_all orphans bg i2 /\ (i' + i2 < i)%nat.

Lemma leads_step n s i e n' P' s' i' :
  sstep fds n s e n' s' [] -> leads fds P' s' i' -> (i' < i)%nat -> leads_on n s i e n' P' [].
Proof. intros Hs Hd Hi. exists s', i', [], 0%nat. split_and!; [by left|done|constructor|lia]. Qed.

Lemma leads_still n s i P' i' : leads fds P' s i' -> (i' < i)%nat -> leads_on n s i [] n P' [].
Proof. intros Hd Hi. exists s, i', [], 0%nat. split_and!; [by right|done|constructor|lia]. Qed.

Lemma ready_simulates p its n e n' P' orphans :
  takes its p -> step n (Proc (Runs p) fds []) e n' P' orphans -> leads_on n (Ready its) (limit its) e n' P' orphans.
Proof.
  intros Hp Hstep. destruct its as [|[txt l|path] its]; cbn [takes limit] in *.
  - subst p. step_cases Hstep. eapply leads_step; [constructor|apply leads_zombie|lia].
  - destruct Hp as (pl & pn & -> & Hl & Hn). step_cases Hstep.
    + eapply leads_step; [apply ss_line|apply leads_busy; [by apply todo_does, line_std|done]|lia].
    + pose proof (steps_some (tree_line l)). eapply leads_step; [apply ss_line_failed|apply leads_fails|lia].
  - destruct Hp as (pn & Hn & ->). step_cases Hstep.
    + eapply leads_step; [apply ss_cd|by apply leads_idle|lia].
    + eapply leads_step; [apply ss_cd_failed|by apply leads_cannot|lia].
Qed.

Lemma leads_simulates P s i : leads fds P s i ->
  forall n e n' P' orphans, step n P e n' P' orphans -> leads_on n s i e n' P' orphans.
Proof.
  intros Hl n e n' P' orphans Hstep. destruct Hl as [p its fuel Hp|p its fd fds' Hp Hc|p its Hp|p its Hp|child j i p its Hd Hp|fmt arg|fmt arg p its Hp| |fds'].
  - cbn [open_console] in Hstep. step_cases Hstep.
    + match goal with E : put _ _ = Some (_, ?fd) |- _ => destruct (put_close _ _ _ E) as [H3 Hc] end.
      rewrite (proj2 (Z.ltb_ge _ 0)), (proj2 (Z.leb_le 3 _)) by lia. eapply leads_still; [by apply leads_close|lia].
    + cbn [Z.ltb Z.compare]. eapply leads_still; [by apply leads_idle|lia].
  - step_cases Hstep. rewrite Hc. eapply leads_still; [by apply leads_idle|lia].
  - step_cases Hstep. eapply leads_step; [constructor|by apply leads_ready|lia].
  - by eapply ready_simulates.
  - inversion Hstep; subst; match goal with E : _ ++ _ :: _ = [_] |- _ => apply split_one in E as (-> & <- & ->) end; cbn [app].
    + apply does_zombie_inv in Hd as [-> _]. eapply leads_step; [apply ss_over|by apply leads_idle|lia].
    + match goal with Hs : step _ ?c _ _ _ _ |- _ => destruct (does_simulates c _ _ Hd _ _ _ _ _ Hs) as (j' & i' & bg & i2 & Hm & Hd' & Hb & Hi) end.
      exists (Busy j' its), (i' + (2 + limit its))%nat, bg, i2. split_and!; [|by apply leads_busy|done|lia].
      destruct Hm as [Hm|(-> & -> & -> & ->)]; [left; by apply ss_busy|by right].
  - step_cases Hstep. eapply leads_step; [constructor|apply leads_exit|lia].
  - step_cases Hstep. eapply leads_step; [constructor|by apply leads_idle|lia].
  - step_cases Hstep. eapply leads_still; [apply leads_zombie|lia].
  - step_cases Hstep.
Qed.

Lemma leads_goes_on P s i : leads fds P s i -> (zombie P /\ s = Gone) \/ goes_on P.
Proof.
  intros [p its fuel Hp|p its fd fds' Hp Hc|p its Hp|p its Hp|child j i' p its Hd Hp|fmt arg|fmt arg p its Hp| |fds'];
    try (right; by apply call_goes_on).
  - right. apply call_goes_on. destruct its as [|[] its]; cbn [takes] in Hp; [by subst|by destruct Hp as (? & ? & -> & _)|by destruct Hp as (? & _ & ->)].
  - right. apply wait_goes_on. by eapply does_goes_on.
  - left. split; [by exists fds'|done].
Qed.

(** ** Histories *)

Lemma do_all_app ps js i ps' js' i' : do_all ps js i -> do_all ps' js' i' -> do_all (ps ++ ps') (js ++ js') (i + i').
Proof.
  induction 1 as [|p j ip ps js i Hd Ha IH]; intros Ha'; [done|]. cbn [app].
  replace (S ip + i + i')%nat with (S ip + (i + i'))%nat by lia. constructor; [done|by apply IH].
Qed.

Lemma do_all_split ps1 p ps2 js i : do_all (ps1 ++ p :: ps2) js i ->
  exists js1 j js2 i1 ip i2, js = js1 ++ j :: js2 /\ do_all ps1 js1 i1 /\ does p j ip /\ do_all ps2 js2 i2 /\ i = (i1 + (S ip + i2))%nat.
Proof.
  revert js i. induction ps1 as [|q ps1 IH]; intros js i Ha; inversion Ha as [|? j ip ? js' i' Hd Ha']; subst.
  - exists [], j, js', 0%nat, ip, i'. split_and!; [done|constructor|done|done|lia].
  - destruct (IH _ _ Ha') as (js1 & j' & js2 & i1 & ip' & i2 & -> & H1 & H2 & H3 & ->).
    exists (j :: js1), j', js2, (S ip + i1)%nat, ip', i2. split_and!; [done|by constructor|done|done|lia].
Qed.

(** The processes and the jobs they do. *)
Definition tied (w : world) (t : jobs) (i : nat) : Prop :=
  let '(n, P, ps) := w in let '(n', s, js) := t in
  exists i1 i2, n' = n /\ leads fds P s i1 /\ do_all ps js i2 /\ i = (i1 + i2)%nat.

Lemma tied_step w t i e w' : tied w t i -> kstep w e w' ->
  exists t' i', (wstep fds t e t' \/ (e = [] /\ t' = t)) /\ tied w' t' i' /\ (i' < i)%nat.
Proof.
  destruct w as [[n P] ps], t as [[n0 s] js]. intros (i1 & i2 & -> & Hl & Ha & ->) Hstep. inversion Hstep; subst.
  - match goal with Hs : step _ _ _ _ _ _ |- _ => destruct (leads_simulates _ _ _ Hl _ _ _ _ _ Hs) as (s' & i1' & bg & i3 & Hm & Hl' & Hb & Hi) end.
    exists (n', s', js ++ bg), (i1' + (i2 + i3))%nat. split_and!; [| |lia].
    + destruct Hm as [Hm|(-> & -> & -> & ->)]; [left; by constructor|right; by rewrite app_nil_r].
    + exists i1', (i2 + i3)%nat. split_and!; [done|done|by apply do_all_app|done].
  - apply do_all_split in Ha as (js1 & j & js2 & j1 & ip & j2 & -> & H1 & Hd & H2 & ->).
    match goal with Hs : step _ _ _ _ _ _ |- _ => destruct (does_simulates _ _ _ Hd _ _ _ _ _ Hs) as (j' & ip' & bg & i3 & Hm & Hd' & Hb & Hi) end.
    exists (n', s, js1 ++ j' :: js2 ++ bg), (i1 + (j1 + (S ip' + (j2 + i3))))%nat. split_and!; [| |lia].
    + destruct Hm as [Hm|(-> & -> & -> & ->)]; [left; by constructor|right; by rewrite app_nil_r].
    + eexists i1, _. split_and!; [done|done| |reflexivity]. apply do_all_app; [done|]. constructor; [done|by apply do_all_app].
  - apply do_all_split in Ha as (js1 & j & js2 & j1 & ip & j2 & -> & H1 & Hd & H2 & ->).
    apply does_zombie_inv in Hd as [-> _]. exists (n, s, js1 ++ js2), (i1 + (j1 + j2))%nat.
    split_and!; [left; constructor| |lia]. eexists i1, _. split_and!; [done|done|by apply do_all_app|done].
Qed.

Lemma tied_history len w e w' : history kstep len w e w' -> forall t i, tied w t i ->
  exists len' t' i', history (wstep fds) len' t e t' /\ tied w' t' i' /\ (len + i' <= i)%nat.
Proof.
  induction 1 as [w|len w e w' e' w'' Hs Hh IH]; intros t i Ht.
  - exists 0%nat, t, i. split_and!; [constructor|done|lia].
  - destruct (tied_step _ _ _ _ _ Ht Hs) as (t1 & i1 & Hm & Ht1 & Hi). destruct (IH _ _ Ht1) as (len' & t' & i' & Hh' & Ht' & Hi').
    destruct Hm as [Hm|(-> & ->)]; [exists (S len')|exists len']; exists t', i'; (split_and!; [|done|lia]); [|done].
    by econstructor.
Qed.

(** Every process but a collected one can go on. *)
Lemma tied_goes_on n P ps t i : tied (n, P, ps) t i ->
  (exists e w', kstep (n, P, ps) e w') \/ (zombie P /\ ps = [] /\ t = (n, Gone, [])).
Proof.
  destruct t as [[n0 s] js]. intros (i1 & i2 & -> & Hl & Ha & _).
  destruct (leads_goes_on _ _ _ Hl) as [[Hz ->]|Hg].
  - destruct Ha as [|q j iq ps js i2 Hd Ha]; [by right|left].
    destruct (does_goes_on _ _ _ Hd) as [[fds' ->]|Hg]; [eexists _, _; by apply (k_init n P [])|].
    destruct (Hg n) as (e & n' & q' & orphans & Hs). eexists _, _. by apply (k_other n P []).
  - left. destruct (Hg n) as (e & n' & P' & orphans & Hs). eexists _, _. by constructor.
Qed.
End session.

(** ** The code of a session *)

Lemma run_line_implements width m s txt l :
  cstring m s txt -> (length txt < width)%nat -> lexed m (s + Z.of_nat (length txt)) s (toks_line l) -> ok_line l ->
  implements (tree_line l) (run_line width m s).
Proof.
  intros Hc Hw Hl Hok. destruct (all_taken m s _ (cstring_text _ _ _ Hc)) as (Htaken & _ & _).
  assert (Hp : parses m s (s + Z.of_nat (length txt)) (parseline m (s + Z.of_nat (length txt)) width [] s) [] (tree_line l) s []).
  { apply Htaken; [lia|by rewrite app_nil_r|by left|lia|done]. }
  destruct (parsecmd_ends width m s txt l [] Hc Hw Hp) as (h & p & m' & E & Hd & _). unfold run_line. rewrite E.
  apply (runcmd_implements width h m' (length txt)); [done|exact Hd|by eapply den_lt].
Qed.

Lemma main_loop_takes width its : (99 < width)%nat -> forall fuel m buf, Forall ok_item its -> (length its < fuel)%nat ->
  exists p, main_loop width fuel m buf (its ≫= item_text) = Printf "$ " [] p /\ takes its p.
Proof.
  intros Hw. induction its as [|i its IH]; intros [|fuel] m buf Hok Hf; cbn [length] in Hf; try lia.
  { cbn [mbind list_bind main_loop]. eexists. split; [done|]. by destruct (getcmd_end m buf) as (m' & ->). }
  apply Forall_cons in Hok as [Hi Hok]. cbn [mbind list_bind main_loop].
  destruct i as [txt l|path]; cbn [ok_item] in *;
    [change (item_text (Cmd txt l)) with (txt ++ [10])
    |change (item_text (Cd path)) with ((chr "c" :: chr "d" :: 32 :: path) ++ [10])]; rewrite <- app_assoc; cbn [app].
  - destruct Hi as (Hp & Hcd & Hl & Hsp). destruct (getcmd_line m buf txt (its ≫= item_text) Hp) as (m' & -> & Hc).
    eexists. split; [done|]. cbn [Z.ltb Z.compare]. rewrite (is_cd_line m' buf txt Hc), Hcd. cbn [takes].
    destruct (IH fuel m' buf Hok ltac:(lia)) as (pn & E & Hn). unfold lit in *. rewrite E. eexists _, pn. split; [done|]. split; [|done].
    apply (run_line_implements width m' buf (txt ++ [10])); [done| |by apply Hsp|done].
    rewrite length_app. destruct Hp as [_ Hlen]. simpl. lia.
  - pose proof (getcmd_line m buf _ (its ≫= item_text) Hi) as (m' & E & Hc). cbn [app] in E. rewrite E.
    eexists. split; [done|]. cbn [Z.ltb Z.compare]. rewrite (is_cd_line m' buf _ Hc). cbn [is_cd]. rewrite !Z.eqb_refl. cbn [andb].
    destruct Hi as [Hpl Hlen].
    rewrite (strlen_text nbuf m' buf (Z.of_nat (length ((chr "c" :: chr "d" :: 32 :: path) ++ [10]))));
      [|by apply cstring_text|lia|rewrite length_app; unfold nbuf; simpl in *; lia].
    apply chop_line in Hc.
    replace (buf + (Z.of_nat (length ((chr "c" :: chr "d" :: 32 :: path) ++ [10])) - 1))
      with (buf + Z.of_nat (length (chr "c" :: chr "d" :: 32 :: path))) by (rewrite length_app; simpl; lia).
    rewrite (str_spec nbuf _ _ path (cd_path _ _ _ Hc)) by (unfold nbuf; simpl in Hlen; lia).
    match goal with |- takes _ (Chdir _ (fun r => if _ then _ else main_loop _ _ ?m2 _ _)) =>
      destruct (IH fuel m2 buf Hok ltac:(lia)) as (pn & En & Hn) end.
    cbn [takes]. exists pn. split; [done|]. by rewrite En.
Qed.

(** The shell when [init] has started it, and the session it has to do. *)
Definition started (p : prog) (fds : fdtable) : world := (0%nat, Proc (Runs p) fds [], []).
Definition to_do (its : list item) : jobs := (0%nat, Idle its, []).
Definition all_steps (its : list item) : nat := 3 + limit its.

Lemma main_tied width fuel m buf its fds : std fds -> (99 < width)%nat -> Forall ok_item its -> (length its < fuel)%nat ->
  tied fds (started (main width fuel m buf (its ≫= item_text)) fds) (to_do its) (all_steps its).
Proof.
  intros Hs Hw Hok Hf. destruct (main_loop_takes width its Hw fuel m buf Hok Hf) as (p & E & Hp).
  unfold main. rewrite E. exists (all_steps its), 0%nat. split_and!; [done|by apply (leads_open fds p its 3)|constructor|lia].
Qed.

(** C20.  The shell is fed the bytes of a session, lines of at most 98 bytes,
    each a line of the grammar or a [cd].  Whatever the kernel runs first and
    whatever calls it refuses, the history of the shell and its descendants is
    one of the session's jobs: the next line is taken when the job of the last
    one is over, the command behind [;] begins when the one before it is over,
    the sides of a pipe run side by side and what stands before [&] in the
    background, each program with the arguments and descriptors its tree says.
    No process is ever stuck, histories are bounded, and at the end the whole
    session is done and every process collected. *)
Theorem main_session width fuel m buf its fds len e n P ps :
  std fds -> (99 < width)%nat -> Forall ok_item its -> (length its < fuel)%nat ->
  history kstep len (started (main width fuel m buf (its ≫= item_text)) fds) e (n, P, ps) ->
  (len <= all_steps its)%nat /\
  exists len' t, history (wstep fds) len' (to_do its) e t /\
    ((exists e' w, kstep (n, P, ps) e' w) \/ (zombie P /\ ps = [] /\ t = (n, Gone, []))).
Proof.
  intros Hs Hw Hok Hf Hh. destruct (tied_history fds Hs _ _ _ _ Hh _ _ (main_tied width fuel m buf its fds Hs Hw Hok Hf))
    as (len' & t & i' & Hh' & Ht & Hi). split; [lia|]. exists len', t. split; [done|]. by eapply tied_goes_on.
Qed.

(** ** A run *)

(** The process at [path] makes a step, its call being granted. *)
Fixpoint collect (cs : list proc) : option (list proc) :=
  match cs with
  | [] => None
  | Proc Zombie _ [] :: cs => Some cs
  | c :: cs => let? cs := collect cs in Some (c :: cs)
  end.

Definition own_step (n : nat) (P : proc) : option (list event * nat * proc * list proc) :=
  match P with
  | Proc (Runs Exit) _ cs => Some ([], n, Proc Zombie [] [], cs)
  | Proc (Runs (Exec argv _)) fds cs => Some ([Started argv fds], n, Proc (Program argv) fds cs, [])
  | Proc (Program argv) fds cs => Some ([Ended argv fds], n, Proc Zombie [] [], cs)
  | Proc (Runs (Fork c p _)) fds cs => Some ([], n, Proc (Runs p) fds (cs ++ [Proc (Runs c) fds []]), [])
  | Proc (Runs (Wait p)) fds cs => let? cs := collect cs in Some ([], n, Proc (Runs p) fds cs, [])
  | Proc (Runs (Open path mode p)) fds cs =>
      let? (fds, fd) := put fds (File path mode) in Some ([], n, Proc (Runs (p fd)) fds cs, [])
  | Proc (Runs (Close fd p)) fds cs => Some ([], n, Proc (Runs p) (close fds fd) cs, [])
  | Proc (Runs (Dup fd p)) fds cs => Some ([], n, Proc (Runs p) (dup fds fd) cs, [])
  | Proc (Runs (Pipe p)) fds cs =>
      let? (fds, p0, p1) := pipe fds n in Some ([], S n, Proc (Runs (p (Some (p0, p1)))) fds cs, [])
  | Proc (Runs (Chdir path p)) fds cs => Some ([Moved path], n, Proc (Runs (p 0)) fds cs, [])
  | Proc (Runs (Printf fmt arg p)) fds cs => Some ([Said fmt arg], n, Proc (Runs p) fds cs, [])
  | _ => None
  end.

Fixpoint step_at (path : list nat) (n : nat) (P : proc) : option (list event * nat * proc * list proc) :=
  match path with
  | [] => own_step n P
  | k :: path =>
      let '(Proc st fds cs) := P in
      let? c := cs !! k in
      let? (e, n, c, orphans) := step_at path n c in Some (e, n, Proc st fds (<[k := c]> cs), orphans)
  end.

(** The processes that go on, one after the other; the shell is on its own. *)
Fixpoint schedule (paths : list (list nat)) (n : nat) (P : proc) : option (list event * nat * proc) :=
  match paths with
  | [] => Some ([], n, P)
  | path :: paths =>
      let? (e, n, P, orphans) := step_at path n P in
      match orphans with
      | [] => let? (e', n, P) := schedule paths n P in Some (e ++ e', n, P)
      | _ => None
      end
  end.

Lemma collect_zombie cs cs' : collect cs = Some cs' -> exists cs1 fds cs2, cs = cs1 ++ Proc Zombie fds [] :: cs2 /\ cs' = cs1 ++ cs2.
Proof.
  revert cs'. induction cs as [|c cs IH]; intros cs'; [done|]. cbn [collect].
  assert (Hr : (let? cs := collect cs in Some (c :: cs)) = Some cs' ->
    exists cs1 fds cs2, c :: cs = cs1 ++ Proc Zombie fds [] :: cs2 /\ cs' = cs1 ++ cs2).
  { destruct (collect cs) as [l|]; [|done]. intros [= <-]. destruct (IH l eq_refl) as (cs1 & fds & cs2 & -> & ->).
    by exists (c :: cs1), fds, cs2. }
  destruct c as [[p|argv|] fds [|c' cs'']]; try exact Hr. intros [= <-]. by exists [], fds, cs.
Qed.

Lemma own_step_step n P e n' P' orphans : own_step n P = Some (e, n', P', orphans) -> step n P e n' P' orphans.
Proof.
  destruct P as [[[]| |] fds cs]; cbn [own_step]; try (intros [= <- <- <- <-]; constructor); try done.
  - destruct (collect cs) as [cs'|] eqn:E; [|done]. intros [= <- <- <- <-].
    destruct (collect_zombie _ _ E) as (cs1 & fds' & cs2 & -> & ->). constructor.
  - destruct (put fds _) as [[fds' fd]|] eqn:E; [|done]. intros [= <- <- <- <-]. by constructor.
  - destruct (pipe fds n) as [[[fds' p0] p1]|] eqn:E; [|done]. intros [= <- <- <- <-]. by constructor.
Qed.

Lemma step_at_step path : forall n P e n' P' orphans, step_at path n P = Some (e, n', P', orphans) -> step n P e n' P' orphans.
Proof.
  induction path as [|k path IH]; intros n P e n' P' orphans; cbn [step_at]; [apply own_step_step|].
  destruct P as [st fds cs]. destruct (cs !! k) as [c|] eqn:Ek; [|done].
  destruct (step_at path n c) as [[[[e1 n1] c1] o1]|] eqn:E; [|done]. intros [= <- <- <- <-].
  rewrite (insert_take_drop cs k c1) by (by eapply lookup_lt_Some). rewrite <- (take_drop_middle cs k c Ek) at 1.
  apply step_child. by apply IH.
Qed.

Lemma schedule_history paths : forall n P e n' P', schedule paths n P = Some (e, n', P') ->
  history kstep (length paths) (n, P, []) e (n', P', []).
Proof.
  induction paths as [|path paths IH]; intros n P e n' P'; cbn [schedule length]; [intros [= <- <- <-]; constructor|].
  destruct (step_at path n P) as [[[[e1 n1] P1] o1]|] eqn:E; [|done]. destruct o1 as [|]; [|done].
  destruct (schedule paths n1 P1) as [[[e2 n2] P2]|] eqn:E2; [|done]. intros [= <- <- <-].
  econstructor; [|by apply IH]. exact (k_shell n P e1 n1 P1 [] [] (step_at_step _ _ _ _ _ _ _ E)).
Qed.

(** ** Witnesses *)

Definition table : fdtable := replicate 3 (Some Console) ++ replicate 13 None.

Lemma table_std : std table.
Proof. split; [by exists Console..|]. exists 3%nat, 4%nat. split; [lia|done]. Qed.

Definition demo_session : list item := [Cmd demo_text demo; Cd [100]].

Lemma demo_session_ok : Forall ok_item demo_session.
Proof.
  assert (forall l, forallb (fun c => (0 <=? c) && (c <? 256) && negb (c =? 0) && negb (c =? 10) && negb (c =? 13)) l = true ->
    (length l <= 98)%nat -> plain l) as Hp.
  { intros l Hl Hlen. split; [|done]. apply Forall_forall. intros c Hc%list_elem_of_In.
    rewrite forallb_forall in Hl. specialize (Hl c Hc). unfold is_u8. lia. }
  constructor; [|constructor; [|constructor]].
  - split; [apply Hp; [reflexivity|vm_compute; lia]|]. split; [reflexivity|]. split; [exact (proj1 demo_ok)|].
    exact (show_line_spells _ (proj2 demo_ok)).
  - apply Hp; [reflexivity|vm_compute; lia].
Qed.

(** [a | b > c], the right side first, and then [cd d]. *)
Definition demo_shell : proc := Proc (Runs (main 100 5 (fun _ => 0) 1000 (demo_session ≫= item_text))) table [].
Definition demo_paths : list (list nat) :=
  replicate 4 [] ++ replicate 3 [0%nat] ++ replicate 7 [0%nat; 1%nat] ++ replicate 5 [0%nat; 0%nat] ++
  [[0%nat; 1%nat]; [0%nat; 0%nat]] ++ replicate 5 [0%nat] ++ replicate 5 [].
Definition demo_history : list event :=
  [Said "$ " [];
   Started [[98]] (<[1%nat := Some (File [99] 513)]> (<[0%nat := Some (PipeR 0)]> table));
   Started [[97]] (<[1%nat := Some (PipeW 0)]> table);
   Ended [[98]] (<[1%nat := Some (File [99] 513)]> (<[0%nat := Some (PipeR 0)]> table));
   Ended [[97]] (<[1%nat := Some (PipeW 0)]> table);
   Said "$ " []; Moved [100]; Said "$ " []].

Lemma demo_runs : schedule demo_paths 0 demo_shell = Some (demo_history, 1%nat, Proc Zombie [] []).
Proof. vm_compute. reflexivity. Qed.

Lemma main_session_witness :
  history kstep 31 (0%nat, demo_shell, []) demo_history (1%nat, Proc Zombie [] [], []) /\
  (31 <= all_steps demo_session)%nat /\
  exists len' t, history (wstep table) len' (to_do demo_session) demo_history t /\
    ((exists e' w, kstep (1%nat, Proc Zombie [] [], []) e' w) \/
     (zombie (Proc Zombie [] []) /\ @nil proc = [] /\ t = (1%nat, Gone, []))).
Proof.
  split; [exact (schedule_history _ _ _ _ _ _ demo_runs)|].
  exact (main_session 100 5 (fun _ => 0) 1000 demo_session table 31 demo_history 1 (Proc Zombie [] []) [] table_std ltac:(lia)
    demo_session_ok ltac:(simpl; lia) (schedule_history _ _ _ _ _ _ demo_runs)).
Defined.
End ShRun.
