(* ===== verification/ShTyped.v ===== *)
(** * The shell of xv6: the nodes of a command

    Every node the parser leaves on the heap is well formed, on any text. *)

From S2P Require Import Prelude DfsImage CString Sh ShLex ShThms.
From Stdlib Require Import Ascii.
Import Sh ShLex ShThms.
Local Open Scope Z_scope.
Local Open Scope xv6_scope.

Module ShTyped.

(** Two pointers into the text, around at least one byte. *)
Definition span (lo es q eq : Z) : Prop := lo <= q < eq /\ eq <= es.

(** What a node at index [i] may be: its children are older, an [EXEC] has room
    for the null pointer, a [REDIR] is one of the two kinds there are. *)
Definition node_ok (lo es : Z) (i : nat) (n : node) : Prop :=
  match n with
  | EXEC argv => (length argv < MAXARGS)%nat /\ Forall (fun a => span lo es a.1 a.2) argv
  | REDIR c q eq mode fd => (c < i)%nat /\ span lo es q eq /\
      (mode = O_RDONLY /\ fd = 0 \/ mode = Z.lor O_WRONLY O_CREATE /\ fd = 1)
  | PIPE a b | LIST a b => (a < i)%nat /\ (b < i)%nat
  | BACK a => (a < i)%nat
  end.
Definition heap_ok (lo es : Z) (h : list node) : Prop := forall i n, h !! i = Some n -> node_ok lo es i n.

Section typed.
Context (m : bytes) (lo es : Z) (Ht : text m lo es).
Implicit Types (h : list node) (r : result).
Notation ok := (heap_ok lo es).

Lemma ok_new h n : ok h -> node_ok lo es (length h) n -> ok (h ++ [n]).
Proof.
  intros Hh Hn i n' [Hi|[Hi E]]%lookup_app_Some; [by apply Hh|].
  apply list_lookup_singleton_Some in E as [Hz <-]. by replace i with (length h) by lia.
Qed.

Lemma ok_update h p n n' : ok h -> h !! p = Some n -> node_ok lo es p n' -> ok (<[p := n']> h).
Proof.
  intros Hh Hp Hn i x [(-> & -> & _)|[_ E]]%list_lookup_insert_Some; [done|by apply Hh].
Qed.

(** What a parsing function returns when it is given [h] and [s]. *)
Definition typed h s r : Prop :=
  match r with
  | Ret (h', p, s') => ok h' /\ (length h <= length h')%nat /\ (p < length h')%nat /\ s <= s' <= es
  | _ => True
  end.

Lemma typed_bind h s r (f : heap * nat * Z -> result) :
  typed h s r ->
  (forall h' p s', ok h' -> (length h <= length h')%nat -> (p < length h')%nat -> s <= s' <= es -> typed h s (f (h', p, s'))) ->
  typed h s (obind r f).
Proof. destruct r as [[[h' p] s']| | |]; [|done..]. intros (? & ? & ? & ?) Hf. by apply Hf. Qed.

Lemma typed_from h h1 s s1 r : (length h <= length h1)%nat -> s <= s1 -> typed h1 s1 r -> typed h s r.
Proof. destruct r as [[[h' p] s']| | |]; [|done..]. cbn. intros ? ? (? & ? & ? & ?). split_and!; (done || lia). Qed.

Lemma peek_range s toks : lo <= s <= es -> exists b s1, peek m es s toks = (b, s1) /\ s <= s1 <= es.
Proof.
  intros Hs. destruct (lexable m lo es s Ht Hs) as [ts Hl]. destruct (peek_at m lo es Ht s ts toks Hl) as (s1 & -> & _ & ?).
  by exists (sees ts toks), s1.
Qed.

Lemma gettoken_range s : lo <= s <= es -> exists tok q eq s1, gettoken m es s = (tok, q, eq, s1) /\ s <= s1 <= es /\
  (tok = chr "a" -> span lo es q eq).
Proof.
  intros Hs. destruct (lexable m lo es s Ht Hs) as [[|t ts] Hl].
  - exists 0, es, es, es. split; [by eapply gettoken_end|]. split; [lia|done].
  - destruct (gettoken_lexed m lo es s t ts Ht ltac:(lia) Hl) as (q & eq & s1 & -> & Hl1 & Hs1 & Hw).
    pose proof (lexed_le _ _ _ _ Hl1). exists (code t), q, eq, s1. split; [done|]. split; [lia|].
    intros (w & ->)%code_word; [|by eapply lexed_good]. destruct Hw as (? & -> & ? & _ & [Hw _] & _).
    unfold span. destruct w; [done|simpl in *; lia].
Qed.

(** The steps every function makes. *)
Ltac peeks := match goal with |- context [peek m es ?s ?t] =>
  let b := fresh "b" in let s1 := fresh "s" in
  destruct (peek_range s t) as (b & s1 & -> & ?); [lia|]; destruct b; cbn [negb] end.
Ltac takes := match goal with |- context [gettoken m es ?s] =>
  let t := fresh "tok" in let q := fresh "q" in let e := fresh "eq" in let s1 := fresh "s" in
  let Hsp := fresh "Hsp" in destruct (gettoken_range s) as (t & q & e & s1 & -> & ? & Hsp); [lia|] end.
Ltac returns := cbn; split_and!; (done || lia).

Lemma parseredirs_typed fuel : forall h p s, ok h -> (p < length h)%nat -> lo <= s <= es ->
  typed h s (parseredirs m es fuel h p s).
Proof.
  induction fuel as [|fuel IH]; intros h p s Hh Hp Hs; [done|]. cbn [parseredirs]. peeks; [|returns]. takes. takes.
  destruct (Z.eqb_spec tok0 (chr "a")) as [Ea|]; [|done]. specialize (Hsp0 Ea). cbn [negb].
  assert (Hnew : forall mode fd, mode = O_RDONLY /\ fd = 0 \/ mode = Z.lor O_WRONLY O_CREATE /\ fd = 1 ->
    typed h s (let (h', p') := redircmd h p q0 eq0 mode fd in parseredirs m es fuel h' p' s2)).
  { intros mode fd Hm. cbn. apply (typed_from _ (h ++ [REDIR p q0 eq0 mode fd]) _ s2); [rewrite length_app; lia|lia|].
    apply IH; [by apply ok_new|rewrite length_app; simpl; lia|lia]. }
  destruct (tok =? chr "<"); [by apply Hnew; left|]. destruct (tok =? chr ">"); [by apply Hnew; right|].
  destruct (tok =? chr "+"); [by apply Hnew; right|].
  apply (typed_from _ h _ s2); [lia|lia|]. apply IH; (done || lia).
Qed.

Lemma parseargs_typed fuel : forall h c ret s, ok h -> (ret < length h)%nat -> lo <= s <= es ->
  typed h s (parseargs m es fuel h c ret s).
Proof.
  induction fuel as [|fuel IH]; intros h c ret s Hh Hr Hs; [done|]. cbn [parseargs]. peeks; [returns|]. takes.
  destruct (tok =? 0); [returns|]. destruct (Z.eqb_spec tok (chr "a")) as [Ea|]; [|done]. specialize (Hsp Ea). cbn [negb].
  unfold add_arg. destruct (h !! c) as [[argv| | | |]|] eqn:Ec; try done. cbn [obind].
  destruct (Nat.leb_spec MAXARGS (S (length argv))) as [|Hfew]; [done|].
  assert (ok (<[c := EXEC (argv ++ [(q, eq)])]> h)) as Hh'.
  { eapply ok_update; [done|done|]. destruct (Hh _ _ Ec) as [_ HF]. split; [rewrite length_app; simpl; lia|].
    apply Forall_app. split; [done|constructor; [exact Hsp|constructor]]. }
  apply (typed_from _ (<[c := EXEC (argv ++ [(q, eq)])]> h) _ s1); [by rewrite length_insert|lia|].
  apply typed_bind; [apply parseredirs_typed; [done|by rewrite length_insert|lia]|].
  intros h' p' s' ? ? ? ?. eapply typed_from; [| |apply IH]; (done || lia).
Qed.

Section rec.
Context (rec : heap -> Z -> result).
Hypothesis Hrec : forall h s, ok h -> lo <= s <= es -> typed h s (rec h s).

Lemma parseexec_typed fuel h s : ok h -> lo <= s <= es -> typed h s (parseexec m es rec fuel h s).
Proof using Ht Hrec.
  intros Hh Hs. unfold parseexec. peeks.
  - unfold parseblock. peeks; [|done]. takes. eapply typed_from; [| |apply typed_bind; [by apply Hrec; [|lia]|]]; [lia|lia|].
    intros h' p' s' ? ? ? ?. peeks; [|done]. takes.
    eapply typed_from; [| |apply parseredirs_typed]; (done || lia).
  - cbn [execcmd new]. apply (typed_from _ (h ++ [EXEC []]) _ s0); [rewrite length_app; lia|lia|].
    apply typed_bind.
    + apply parseredirs_typed; [|rewrite length_app; simpl; lia|lia]. apply ok_new; [done|]. by split; [unfold MAXARGS; simpl; lia|].
    + intros h' p' s' ? ? ? ?. eapply typed_from; [| |apply parseargs_typed]; (done || lia).
Qed.

Lemma parsepipe_typed fuel : forall h s, ok h -> lo <= s <= es -> typed h s (parsepipe m es rec fuel h s).
Proof using Ht Hrec.
  induction fuel as [|fuel IH]; intros h s Hh Hs; [done|]. cbn [parsepipe]. apply typed_bind; [by apply parseexec_typed|].
  intros h1 p1 s1 ? ? ? ?. peeks; [|returns]. takes.
  eapply typed_from; [| |apply typed_bind; [apply (IH h1); [done|lia]|]]; [lia|lia|]. intros h2 p2 s4 ? ? ? ?. cbn.
  split; [apply ok_new; [done|cbn; lia]|]. rewrite length_app. simpl. lia.
Qed.
End rec.

Lemma parseback_typed fuel : forall h p s, ok h -> (p < length h)%nat -> lo <= s <= es ->
  typed h s (parseback m es fuel h p s).
Proof.
  induction fuel as [|fuel IH]; intros h p s Hh Hp Hs; [done|]. cbn [parseback]. peeks; [|returns]. takes.
  cbn [backcmd new]. apply (typed_from _ (h ++ [BACK p]) _ s1); [rewrite length_app; lia|lia|].
  apply IH; [by apply ok_new|rewrite length_app; simpl; lia|lia].
Qed.

Lemma parseline_typed fuel : forall h s, ok h -> lo <= s <= es -> typed h s (parseline m es fuel h s).
Proof.
  induction fuel as [|fuel IH]; intros h s Hh Hs; [done|]. cbn [parseline].
  apply typed_bind; [by apply parsepipe_typed|]. intros h1 p1 s1 ? ? ? ?.
  eapply typed_from; [| |apply typed_bind; [apply parseback_typed; [done|done|lia]|]]; [lia|lia|].
  intros h2 p2 s2 ? ? ? ?. peeks; [|returns]. takes.
  eapply typed_from; [| |apply typed_bind; [apply (IH h2); [done|lia]|]]; [lia|lia|]. intros h3 p3 s5 ? ? ? ?. cbn.
  split; [apply ok_new; [done|cbn; lia]|]. rewrite length_app. simpl. lia.
Qed.

End typed.

(** C23.  Whatever the text, every node [parsecmd] leaves on the heap is well
    formed: its children are older nodes, so nothing is cyclic; an [EXEC] has
    at most nine words, which leaves its array room for the null pointer; the
    words lie inside the text; and a redirection either reads descriptor 0 or
    writes descriptor 1. *)
Theorem parsecmd_typed m s txt fuel h p m' :
  cstring m s txt -> (length txt < fuel)%nat -> parsecmd fuel m s = Ret (h, p, m') ->
  heap_ok s (s + Z.of_nat (length txt)) h /\ (p < length h)%nat.
Proof.
  intros Hc Hf E. pose proof (cstring_text _ _ _ Hc) as Ht. unfold parsecmd in E.
  rewrite (strlen_text fuel m s (Z.of_nat (length txt))) in E by (done || lia). cbn [of_option obind] in E.
  pose proof (parseline_typed m s _ Ht fuel [] s ltac:(intros i n; rewrite lookup_nil; done) ltac:(lia)) as Hp.
  apply obind_ret in E as ([[h1 p1] s1] & E1 & E). rewrite E1 in Hp. destruct Hp as (Hok & _ & Hlt & _).
  destruct (peek _ _ _ _) as [b s2]. destruct (negb _); [done|].
  apply obind_ret in E as (m1 & _ & [= <- <- <-]). done.
Qed.

Lemma parsecmd_typed_witness : exists h p m', parsecmd 40 demo_mem 1000 = Ret (h, p, m') /\ heap_ok 1000 1010 h.
Proof.
  destruct (parsecmd_show demo demo_mem 1000 40 (proj1 demo_ok) (proj2 demo_ok) demo_cstring ltac:(vm_compute; lia))
    as (h & p & m' & E & _).
  exists h, p, m'. split; [exact E|].
  exact (proj1 (parsecmd_typed demo_mem 1000 demo_text 40 h p m' demo_cstring ltac:(vm_compute; lia) E)).
Defined.

End ShTyped.
