(* ===== verification/Grep.v ===== *)
(** * grep and wc (p3b, [grep.c], [wc.c])

    A C string is the list of its bytes before the NUL and a pointer into one a
    suffix.  The buffer of [grep] is the list of the bytes it holds.  [read]
    returns at most what is asked for and what the host has at hand: the [k]th
    call has [avail k] bytes. *)

From S2P Require Import Prelude.
From Stdlib Require Import Ascii.
Local Open Scope Z_scope.

Module Grep.

Implicit Types re text : list Z.

(** ** The matcher *)

(** [do{ if(matchhere(re, text)) return 1; } while( *text!='\0' && ( *text++==c || c=='.'))],
    [here] being [matchhere(re, _)]. *)
Fixpoint matchstar (here : list Z -> bool) (c : Z) text : bool :=
  if here text then true
  else
    match text with
    | [] => false
    | x :: text => if (x =? c) || (c =? chr ".") then matchstar here c text else false
    end.

Fixpoint matchhere re text {struct re} : bool :=
  match re with
  | [] => true
  | c :: re1 =>
      let here1 :=
        match text with
        | x :: text1 => if (c =? chr ".") || (c =? x) then matchhere re1 text1 else false
        | [] => false
        end in
      match re1 with
      | [] => if c =? chr "$" then match text with [] => true | _ => false end else here1
      | s :: re2 => if s =? chr "*" then matchstar (matchhere re2) c text else here1
      end
  end.

(** [do{ ... } while( *text++ != '\0')] of [match]. *)
Fixpoint match_from re text : bool :=
  if matchhere re text then true else match text with [] => false | _ :: text => match_from re text end.

Definition match_ re text : bool :=
  match re with
  | c :: re1 => if c =? chr "^" then matchhere re1 text else match_from re text
  | [] => match_from re text
  end.

(** ** grep *)

Definition bufsize : nat := 1024.
Definition newline : Z := 10.

(** [strchr(p, '\n')]: the bytes before the newline and behind it. *)
Fixpoint line_end (p : list Z) : option (list Z * list Z) :=
  match p with
  | [] => None
  | x :: p => if x =? 0 then None else if x =? newline then Some ([], p)
              else let? (line, rest) := line_end p in Some (x :: line, rest)
  end%xv6.

(** The inner loop: what is written, and [p] at its end. *)
Fixpoint lines (fuel : nat) (pattern p : list Z) : option (list Z * list Z) :=
  match fuel with
  | O => None
  | S fuel =>
      match line_end p with
      | None => Some ([], p)
      | Some (line, rest) =>
          let? (out, p) := lines fuel pattern rest in
          Some ((if match_ pattern line then line ++ [newline] else []) ++ out, p)
      end
  end%xv6.

Section grep.
Context (avail : nat -> nat) (pattern : list Z).

Definition read (k count : nat) (data : list Z) : list Z * list Z :=
  let n := Nat.min count (avail k) in (take n data, drop n data).

(** [held] are the [m] bytes of the buffer, [data] what is left of the file;
    the result is what is written. *)
Fixpoint grep_from (fuel k : nat) (held data : list Z) : option (list Z) :=
  match fuel with
  | O => None
  | S fuel =>
      let (got, data) := read k (bufsize - length held - 1) data in
      match got with
      | [] => Some []
      | _ =>
          let buf := held ++ got in
          let? (out, p) := lines (S (length buf)) pattern buf in
          let held := if (length p =? length buf)%nat then [] else p in
          let? out2 := grep_from fuel (S k) held data in
          Some (out ++ out2)
      end
  end%xv6.

Definition grep (data : list Z) : option (list Z) := grep_from (S (length data)) 0 [] data.
End grep.

(** ** wc *)

Definition spaces : list Z := [32; 13; 9; 10; 11].
Definition is_space (c : Z) : bool := existsb (Z.eqb c) spaces.

Record counts := { nl : Z; nw : Z; nc : Z; inword : bool }.

(** The body of the loop, for one byte. *)
Definition wc_byte (s : counts) (b : Z) : counts :=
  let c := s32 (nc s + 1) in
  let l := if b =? newline then s32 (nl s + 1) else nl s in
  if is_space b then {| nl := l; nw := nw s; nc := c; inword := false |}
  else if inword s then {| nl := l; nw := nw s; nc := c; inword := true |}
  else {| nl := l; nw := s32 (nw s + 1); nc := c; inword := true |}.

(** The chunks [read] returns. *)
Definition wc (chunks : list (list Z)) : Z * Z * Z :=
  let s := foldl (fun s chunk => foldl wc_byte s chunk) {| nl := 0; nw := 0; nc := 0; inword := false |} chunks in
  (nl s, nw s, nc s).

(** ** What patterns mean *)

(** A character class: [.] stands for any byte. *)
Definition atom (c x : Z) : Prop := c = chr "." \/ c = x.

Inductive piece := One (c : Z) | Star (c : Z).

(** The pieces of a pattern, and whether it ends in [$]. *)
Fixpoint pieces re : list piece * bool :=
  match re with
  | [] => ([], false)
  | c :: re1 =>
      match re1 with
      | [] => if c =? chr "$" then ([], true) else ([One c], false)
      | s :: re2 =>
          if s =? chr "*" then let (ps, e) := pieces re2 in (Star c :: ps, e)
          else let (ps, e) := pieces re1 in (One c :: ps, e)
      end
  end.

(** The words of a sequence of pieces. *)
Fixpoint lang (ps : list piece) (w : list Z) : Prop :=
  match ps with
  | [] => w = []
  | One c :: ps => exists x w', w = x :: w' /\ atom c x /\ lang ps w'
  | Star c :: ps => exists w1 w2, w = w1 ++ w2 /\ Forall (atom c) w1 /\ lang ps w2
  end.

(** A word of the pattern starts the text, and is all of it when the pattern
    ends in [$]. *)
Definition starts re text : Prop :=
  exists w rest, text = w ++ rest /\ lang (pieces re).1 w /\ ((pieces re).2 = true -> rest = []).

(** [^] ties the pattern to the start of the text. *)
Definition occurs re text : Prop :=
  match re with
  | c :: re1 => if c =? chr "^" then starts re1 text else exists pre text1, text = pre ++ text1 /\ starts re text1
  | [] => exists pre text1, text = pre ++ text1 /\ starts [] text1
  end.

Lemma atom_eq c x : (c =? chr ".") || (c =? x) = true <-> atom c x.
Proof. unfold atom. rewrite orb_true_iff, !Z.eqb_eq. done. Qed.

Lemma matchstar_spec here c text :
  matchstar here c text = true <-> exists w rest, text = w ++ rest /\ Forall (atom c) w /\ here rest = true.
Proof.
  induction text as [|x text IH]; cbn [matchstar].
  - destruct (here []) eqn:E; split; try done.
    + intros _. by exists [], [].
    + intros (w & rest & Ew & _ & Hr). symmetry in Ew. apply app_nil in Ew as [-> ->]. congruence.
  - destruct (here (x :: text)) eqn:E.
    { split; [|done]. intros _. by exists [], (x :: text). }
    replace ((x =? c) || (c =? chr ".")) with ((c =? chr ".") || (c =? x)) by (rewrite orb_comm, (Z.eqb_sym x); done).
    destruct ((c =? chr ".") || (c =? x)) eqn:Ha.
    + rewrite IH. split.
      * intros (w & rest & -> & Hw & Hr). exists (x :: w), rest. split; [done|]. split; [|done]. constructor; [by apply atom_eq|done].
      * intros (w & rest & Ew & Hw & Hr). destruct w as [|y w]; [cbn in Ew; subst rest; congruence|].
        injection Ew as -> ->. apply Forall_cons in Hw as [_ Hw]. by exists w, rest.
    + split; [done|]. intros (w & rest & Ew & Hw & Hr). destruct w as [|y w]; [cbn in Ew; subst rest; congruence|].
      injection Ew as -> ->. apply Forall_cons in Hw as [Hy%atom_eq _]. congruence.
Qed.

Lemma starts_one c re text :
  (pieces (c :: re)).1 = One c :: (pieces re).1 -> (pieces (c :: re)).2 = (pieces re).2 ->
  starts (c :: re) text <-> exists x text1, text = x :: text1 /\ atom c x /\ starts re text1.
Proof.
  intros E1 E2. unfold starts. rewrite E1, E2. cbn [lang]. split.
  - intros (w & rest & -> & (x & w' & -> & Ha & Hl) & He). exists x, (w' ++ rest). split; [done|]. split; [done|]. by exists w', rest.
  - intros (x & text1 & -> & Ha & w & rest & -> & Hl & He). exists (x :: w), rest. split; [done|]. split; [by exists x, w|done].
Qed.

Lemma matchhere_spec re : forall text, matchhere re text = true <-> starts re text.
Proof.
  induction re as [re IH] using (induction_ltof1 _ (@length Z)). unfold ltof in IH. intros text.
  destruct re as [|c re1]; [split; [intros _; by exists [], text|done]|].
  assert (Hone : forall text, (match text with x :: text1 => if (c =? chr ".") || (c =? x) then matchhere re1 text1 else false | [] => false end) = true
    <-> exists x text1, text = x :: text1 /\ atom c x /\ starts re1 text1).
  { intros [|x text1]; [split; [done|by intros (? & ? & ? & _)]|].
    destruct ((c =? chr ".") || (c =? x)) eqn:Ha.
    - rewrite (IH re1) by (simpl; lia). apply atom_eq in Ha. split; [intros; by exists x, text1|by intros (? & ? & [= <- <-] & _ & ?)].
    - split; [done|]. intros (? & ? & [= <- <-] & Ha'%atom_eq & _). congruence. }
  destruct re1 as [|s re2]; cbn [matchhere].
  - destruct (c =? chr "$") eqn:Ed.
    + unfold starts. cbn [pieces]. rewrite Ed. cbn [fst snd lang]. destruct text as [|x text].
      * split; [intros _; by exists [], []|done].
      * split; [done|]. intros (w & rest & E & -> & Hr). by rewrite Hr in E.
    + rewrite starts_one; [apply Hone|cbn [pieces]; by rewrite Ed..].
  - destruct (s =? chr "*") eqn:Es.
    + rewrite matchstar_spec. unfold starts. cbn [pieces]. rewrite Es. destruct (pieces re2) as [ps e] eqn:Ep. cbn [fst snd lang].
      assert (Hre2 : forall t, matchhere re2 t = true <-> exists w rest, t = w ++ rest /\ lang ps w /\ (e = true -> rest = [])).
      { intros t. rewrite (IH re2) by (simpl; lia). unfold starts. by rewrite Ep. }
      setoid_rewrite Hre2. split.
      * intros (w1 & t & -> & Hw & w2 & rest & -> & Hl & He). exists (w1 ++ w2), rest. rewrite <- app_assoc. split; [done|]. split; [by exists w1, w2|done].
      * intros (w & rest & -> & (w1 & w2 & -> & Hw & Hl) & He). exists w1, (w2 ++ rest). rewrite <- app_assoc. split; [done|]. split; [done|]. by exists w2, rest.
    + assert (pieces (c :: s :: re2) = let (ps, e) := pieces (s :: re2) in (One c :: ps, e)) as Ep.
      { change (pieces (c :: s :: re2)) with (if s =? chr "*" then let (ps, e) := pieces re2 in (Star c :: ps, e)
          else let (ps, e) := pieces (s :: re2) in (One c :: ps, e)). by rewrite Es. }
      rewrite starts_one; [apply Hone|rewrite Ep; by destruct (pieces (s :: re2))..].
Qed.

Lemma match_from_spec re text : match_from re text = true <-> exists pre text1, text = pre ++ text1 /\ starts re text1.
Proof.
  induction text as [|x text IH]; cbn [match_from].
  - destruct (matchhere re []) eqn:E.
    + split; [|done]. intros _. exists [], []. split; [done|by apply matchhere_spec].
    + split; [done|]. intros (pre & t & Ep & Hs%matchhere_spec). symmetry in Ep. apply app_nil in Ep as [-> ->]. congruence.
  - destruct (matchhere re (x :: text)) eqn:E.
    + split; [|done]. intros _. exists [], (x :: text). split; [done|by apply matchhere_spec].
    + rewrite IH. split.
      * intros (pre & t & -> & Hs). by exists (x :: pre), t.
      * intros (pre & t & Ep & Hs). destruct pre as [|y pre]; [|injection Ep as -> ->; by exists pre, t].
        cbn in Ep. subst t. apply matchhere_spec in Hs. congruence.
Qed.

(** C22.  [match] finds a pattern in a text exactly when a word the pattern
    stands for occurs there: [.] is any byte, [x*] any number of [x]s, [^] ties
    the word to the start and [$] to the end. *)
Theorem match_occurs re text : match_ re text = true <-> occurs re text.
Proof.
  unfold match_, occurs. destruct re as [|c re1]; [apply match_from_spec|].
  destruct (c =? chr "^"); [apply matchhere_spec|apply match_from_spec].
Qed.

(** ** Lines *)

Definition unlines (ls : list (list Z)) : list Z := ls ≫= fun l => l ++ [newline].
(** A line of the file: no newline and no NUL. *)
Definition is_line (l : list Z) : Prop := newline ∉ l /\ 0 ∉ l.
(** What [grep] prints of complete lines. *)
Definition matching pattern (ls : list (list Z)) : list Z :=
  ls ≫= fun l => if match_ pattern l then l ++ [newline] else [].

Lemma cut_unique (x : Z) a b c d : x ∉ a -> x ∉ b -> a ++ x :: c = b ++ x :: d -> a = b /\ c = d.
Proof.
  revert b. induction a as [|y a IH]; intros [|z b] Ha Hb E; cbn in E; simplify_eq; try done.
  - destruct Hb. left.
  - destruct Ha. left.
  - destruct (IH b) as [-> ->]; [set_solver..|done|done].
Qed.

Lemma line_end_spec p : 0 ∉ p ->
  match line_end p with
  | Some (l, rest) => p = l ++ newline :: rest /\ is_line l
  | None => newline ∉ p
  end.
Proof.
  induction p as [|x p IH]; intros H0; cbn [line_end]; [set_solver|].
  apply not_elem_of_cons in H0 as [Hx H0]. rewrite (proj2 (Z.eqb_neq x 0)) by congruence.
  destruct (Z.eqb_spec x newline) as [->|Hn]; [split; [done|split; set_solver]|].
  specialize (IH H0). destruct (line_end p) as [[l rest]|].
  - destruct IH as [-> [H1 H2]]. split; [done|]. split; set_solver.
  - set_solver.
Qed.

Lemma lines_spec pattern fuel : forall p, 0 ∉ p -> (length p < fuel)%nat ->
  exists ls rest, p = unlines ls ++ rest /\ newline ∉ rest /\ Forall is_line ls /\
    lines fuel pattern p = Some (matching pattern ls, rest).
Proof.
  induction fuel as [|fuel IH]; intros p H0 Hf; [lia|]. cbn [lines]. pose proof (line_end_spec p H0) as Hl.
  destruct (line_end p) as [[l rest]|].
  - destruct Hl as [-> Hl]. rewrite length_app in Hf. simpl in Hf.
    destruct (IH rest ltac:(set_solver) ltac:(lia)) as (ls & rest' & -> & Hn & Hls & ->).
    exists (l :: ls), rest'. split; [cbn; by rewrite <- !app_assoc|]. split; [done|]. by split; [constructor|].
  - exists [], p. split; [done|]. split; [done|]. by split; [constructor|].
Qed.

(** Lines at the start of a text that is made of lines. *)
Lemma unlines_prefix ls1 : forall ls rest tail, Forall is_line ls1 -> Forall is_line ls -> newline ∉ tail ->
  unlines ls1 ++ rest = unlines ls ++ tail -> exists ls2, ls = ls1 ++ ls2 /\ rest = unlines ls2 ++ tail.
Proof.
  induction ls1 as [|l1 ls1 IH]; intros ls rest tail H1 H2 Ht E; [by exists ls|].
  apply Forall_cons in H1 as [[Hl1 _] H1]. cbn in E. rewrite <- !app_assoc in E. cbn in E. fold (unlines ls1) in E.
  destruct ls as [|l ls]; cbn in E; [destruct Ht; rewrite <- E; set_solver|].
  apply Forall_cons in H2 as [[Hl _] H2]. rewrite <- !app_assoc in E. cbn in E. fold (unlines ls) in E.
  apply cut_unique in E as [-> E]; [|done|done]. destruct (IH ls rest tail H1 H2 Ht E) as (ls2 & -> & ->). by exists ls2.
Qed.

Lemma no_lines ls tail p : newline ∉ p -> p = unlines ls ++ tail -> ls = [].
Proof. intros Hn ->. destruct ls as [|l ls]; [done|]. destruct Hn. cbn. set_solver. Qed.

Lemma grep_from_spec avail pattern : (forall k, 1023 <= avail k)%nat -> forall fuel k held data ls tail,
  held ++ data = unlines ls ++ tail -> newline ∉ held -> newline ∉ tail -> 0 ∉ held ++ data ->
  Forall is_line ls -> Forall (fun l => length l <= 1022)%nat ls -> (length held <= 1022)%nat ->
  (length data < fuel)%nat ->
  grep_from avail pattern fuel k held data = Some (matching pattern ls).
Proof.
  intros Hav. induction fuel as [|fuel IH]; intros k held data ls tail E Hh Ht H0 Hls Hlen Hhl Hf; [lia|].
  cbn [grep_from]. unfold read. set (n := Nat.min (bufsize - length held - 1) (avail k)).
  assert (n = (1023 - length held)%nat) as En by (specialize (Hav k); unfold n, bufsize; lia).
  pose proof (take_drop n data) as Htd. destruct (take n data) as [|g got] eqn:Eg.
  - assert (data = []) as -> by (destruct data; [done|by destruct n; [lia|]]).
    rewrite app_nil_r in E. by rewrite (no_lines _ _ _ Hh E).
  - assert (Hgl : (length (held ++ g :: got) <= 1023)%nat).
    { rewrite length_app, <- Eg, length_take. lia. }
    set (buf := held ++ g :: got) in *.
    assert (Ebuf : buf ++ drop n data = unlines ls ++ tail) by (unfold buf; rewrite <- app_assoc, Htd; done).
    assert (H0' : 0 ∉ buf ++ drop n data) by (unfold buf; rewrite <- app_assoc, Htd; done).
    assert (Hdrop : (length (drop n data) < length data)%nat).
    { rewrite <- Htd at 2. rewrite length_app. simpl. lia. }
    destruct (lines_spec pattern (S (length buf)) buf ltac:(set_solver) ltac:(lia)) as (ls1 & p & Ep & Hp & Hls1 & ->).
    pose proof Ebuf as E'. rewrite Ep, <- app_assoc in E'.
    destruct (unlines_prefix ls1 ls _ tail Hls1 Hls Ht E') as (ls2 & -> & E2).
    apply Forall_app in Hls as [_ Hls2]. apply Forall_app in Hlen as [Hlen1 Hlen2].
    unfold matching at 2. rewrite bind_app. fold (matching pattern ls1) (matching pattern ls2).
    assert (0 ∉ p ++ drop n data) as H0p by (rewrite Ep in H0'; set_solver).
    destruct (Nat.eqb_spec (length p) (length buf)) as [El|Hne].
    + assert (ls1 = []) as ->.
      { destruct ls1 as [|l ls1]; [done|]. rewrite Ep in El. cbn in El. rewrite !length_app in El. simpl in El. lia. }
      cbn [unlines mbind list_bind app] in Ep. subst p.
      assert (ls2 = []) as ->.
      { destruct ls2 as [|l ls2]; [done|]. exfalso. apply Forall_cons in Hlen2 as [Hl _].
        assert (Hcut : (length (held ++ g :: got) <= length l)%nat).
        { destruct (Nat.le_gt_cases (length buf) (length l)) as [|Hgt]; [done|]. destruct Hp. fold buf.
          pose proof (f_equal (take (length buf)) Ebuf) as Etk. rewrite take_app_length in Etk. cbn in Etk.
          rewrite <- !app_assoc in Etk. cbn in Etk. rewrite Etk, take_app_ge by lia.
          destruct (length buf - length l)%nat eqn:Ed; [lia|]. cbn. set_solver. }
        assert (drop n data = []) as Edr.
        { apply drop_ge. fold buf in Hcut. assert (Hlt : (length (take n data) < n)%nat).
          { rewrite Eg. unfold buf in Hcut. rewrite length_app in Hcut. lia. }
          rewrite length_take in Hlt. lia. }
        rewrite Edr, app_nil_r in Ebuf. by apply no_lines in Ebuf. }
      rewrite (IH (S k) [] (drop n data) [] (drop n data)); [done|done|set_solver| |set_solver|constructor|constructor|simpl; lia|lia].
      cbn in E2. clear -E2 Ht. set_solver.
    + rewrite (IH (S k) p (drop n data) ls2 tail); [done|done|done|done|done|done|done| |lia].
      assert (length p <= length buf)%nat by (rewrite Ep, length_app; lia). lia.
Qed.

(** On a file without NULs whose lines have at most 1022 bytes, [grep]
    prints the complete lines that match, in order, and nothing else, wherever
    its reads fall. *)
Theorem grep_lines avail pattern ls tail :
  (forall k, 1023 <= avail k)%nat -> Forall is_line ls -> Forall (fun l => length l <= 1022)%nat ls ->
  newline ∉ tail -> 0 ∉ tail ->
  grep avail pattern (unlines ls ++ tail) = Some (matching pattern ls).
Proof.
  intros Hav Hls Hlen Ht H0. apply (grep_from_spec avail pattern Hav _ _ _ _ ls tail); try done; [set_solver| |simpl; lia|lia].
  cbn. apply not_elem_of_app. split; [|done]. clear -Hls. induction Hls as [|l ls [_ Hl] Hls IH]; [set_solver|].
  cbn. fold (unlines ls). assert (0 <> newline) by done. set_solver.
Qed.

(** When a read brings no newline, what is held is forgotten: read two bytes at
    a time, the only line loses its start, and is not found by it. *)
Lemma grep_short_reads :
  grep (fun _ => 2%nat) [98] [98; 98; 99; 10] = Some [] /\ matching [98] [[98; 98; 99]] = [98; 98; 99; 10].
Proof. split; reflexivity. Qed.

(** ** Words *)

(** The text cut at the blanks, and its words. *)
Fixpoint split (l : list Z) : list (list Z) :=
  match l with
  | [] => [[]]
  | x :: l =>
      if is_space x then [] :: split l
      else match split l with w :: ws => (x :: w) :: ws | [] => [[x]] end
  end.
Definition words (l : list Z) : list (list Z) := filter (fun w => w <> []) (split l).
Definition newlines (l : list Z) : list Z := filter (fun x => x = newline) l.


Lemma split_cons l : exists w ws, split l = w :: ws.
Proof. induction l as [|x l (w & ws & E)]; cbn [split]; [by eexists _, _|]. rewrite E. destruct (is_space x); by eexists _, _. Qed.

(** The words of the rest of a text: one that goes on is not counted again. *)
Definition new_words (inw : bool) (l : list Z) : Z :=
  Z.of_nat (length (words l)) - (if inw then match split l with [] :: _ => 0 | _ => 1 end else 0).

Lemma new_words_cons inw x l :
  new_words inw (x :: l) = (if is_space x then 0 else if inw then 0 else 1) + new_words (negb (is_space x)) l.
Proof.
  unfold new_words, words. cbn [split]. destruct (split_cons l) as (w & ws & ->). destruct (is_space x); cbn [negb].
  - rewrite filter_cons_False by (intros E; by apply E). destruct inw; lia.
  - rewrite filter_cons_True by done. cbn [length]. destruct w as [|y w].
    + rewrite filter_cons_False by (intros E; by apply E). destruct inw; lia.
    + rewrite filter_cons_True by done. cbn [length]. destruct inw; lia.
Qed.

Lemma s32_count a b : s32 (s32 a + b) = s32 (a + b).
Proof. rewrite <- (s32_u32 (s32 a + b)), <- u32_add_idemp_l, u32_s32, u32_add_idemp_l. apply s32_u32. Qed.

Lemma wc_bytes l : forall s, is_s32 (nl s) -> is_s32 (nw s) -> is_s32 (nc s) ->
  let s' := foldl wc_byte s l in
  nl s' = s32 (nl s + Z.of_nat (length (newlines l))) /\ nw s' = s32 (nw s + new_words (inword s) l) /\
  nc s' = s32 (nc s + Z.of_nat (length l)).
Proof.
  induction l as [|x l IH]; intros s Hl Hw Hc; cbv zeta; cbn [foldl].
  { replace (new_words (inword s) []) with 0 by (by destruct (inword s)). cbn. rewrite !Z.add_0_r, !s32_small by done. done. }
  destruct (IH (wc_byte s x)) as (-> & -> & ->).
  1-3: unfold wc_byte; destruct (is_space x), (inword s), (x =? newline); cbn; auto using s32_range.
  rewrite new_words_cons. unfold newlines. rewrite filter_cons.
  assert (inword (wc_byte s x) = negb (is_space x)) as -> by (unfold wc_byte; by destruct (is_space x), (inword s)).
  split_and!.
  - assert (nl (wc_byte s x) = if x =? newline then s32 (nl s + 1) else nl s) as -> by
      (unfold wc_byte; by destruct (is_space x), (inword s)).
    destruct (Z.eqb_spec x newline); case_decide; try done. rewrite s32_count. f_equal. simpl. lia.
  - assert (nw (wc_byte s x) = if is_space x then nw s else if inword s then nw s else s32 (nw s + 1)) as -> by
      (unfold wc_byte; by destruct (is_space x), (inword s)).
    destruct (is_space x), (inword s); rewrite ?s32_count; f_equal; lia.
  - assert (nc (wc_byte s x) = s32 (nc s + 1)) as -> by (unfold wc_byte; by destruct (is_space x), (inword s)).
    rewrite s32_count. f_equal. simpl. lia.
Qed.

(** [wc] counts the newlines, the words and the bytes, however the file comes in
    pieces, modulo the width of an [int]. *)
Theorem wc_counts chunks :
  let text := concat chunks in
  wc chunks = (s32 (Z.of_nat (length (newlines text))), s32 (Z.of_nat (length (words text))), s32 (Z.of_nat (length text))).
Proof.
  cbv zeta. unfold wc. set (s0 := {| nl := 0; nw := 0; nc := 0; inword := false |}).
  assert (forall s, foldl (fun s chunk => foldl wc_byte s chunk) s chunks = foldl wc_byte s (concat chunks)) as ->.
  { induction chunks as [|c chunks IH]; intros s; [done|]. cbn [foldl concat]. by rewrite foldl_app, IH. }
  destruct (wc_bytes (concat chunks) s0) as (-> & -> & ->); [unfold is_s32; cbn; lia..|].
  unfold new_words. cbn. by rewrite Z.sub_0_r.
Qed.

(** ** Witness *)

Lemma grep_lines_witness :
  grep (fun _ => 4096%nat) [97] (unlines [[98; 97]; [98]] ++ [97]) = Some [98; 97; 10].
Proof.
  apply (grep_lines (fun _ => 4096%nat) [97] [[98; 97]; [98]] [97]).
  - lia.
  - repeat constructor; intros H; repeat (apply elem_of_cons in H as [H|H]; [discriminate H|]); by apply elem_of_nil in H.
  - repeat constructor; simpl; lia.
  - intros [H|H]%elem_of_cons; [discriminate H|by apply elem_of_nil in H].
  - intros [H|H]%elem_of_cons; [discriminate H|by apply elem_of_nil in H].
Defined.

End Grep.
