(* ===== verification/Console.v ===== *)
(** * The console (p3b, [console.c], [printf.c])

    Formatted output, and the input buffer with its three indices: bytes are
    edited between [w] and [e] and read between [r] and [w], all three counting
    on modulo [2 ^ 32].  [consputc] appends to what the console has shown.  A
    call of [consoleread] is the code between two points where the lock is
    given up. *)

From S2P Require Import Prelude.
From Stdlib Require Import Ascii.
Local Open Scope Z_scope.
Local Open Scope xv6_scope.

Module Console.

(** ** Numbers *)

Definition lower : list Z := lit "0123456789abcdef".
Definition upper : list Z := lit "0123456789ABCDEF".

(** [do{ buf[i++] = digits[x % base]; }while((x /= base) != 0)], [i] bytes
    being in [buf] already. *)
Fixpoint put_digits (fuel : nat) (digits buf : list Z) (x base : Z) : outcome (list Z) :=
  match fuel with
  | O => Fault
  | S fuel =>
      let* d := of_option (getZ digits (x mod base)) in
      let buf := buf ++ [d] in
      let x := x / base in
      if x =? 0 then Ret buf else put_digits fuel digits buf x base
  end.

(** [buf] has room for 16 bytes; what is printed is read from its end. *)
Definition print_number (digits : list Z) (xx base : Z) (sgn : bool) : outcome (list Z) :=
  let neg := sgn && (xx <? 0) in
  let x := if neg then u32 (- xx) else u32 xx in
  let* buf := put_digits 17 digits [] x base in
  let buf := if neg then buf ++ [chr "-"] else buf in
  if (16 <? Z.of_nat (length buf)) then Fault else Ret (rev buf).

Definition printint : Z -> Z -> bool -> outcome (list Z) := print_number lower.
Definition user_printint : Z -> Z -> bool -> outcome (list Z) := print_number upper.

Section formats.
(** The string at an address. *)
Context (str : Z -> outcome (list Z)).

Definition string_arg (a : Z) : outcome (list Z) := if a =? 0 then Ret (lit "(null)") else str a.

(** What [cprintf] prints of the words [args] behind [fmt] on the stack. *)
Fixpoint cprintf (fmt args : list Z) : outcome (list Z) :=
  match fmt with
  | [] => Ret []
  | c :: fmt =>
      if negb (c =? chr "%") then let* rest := cprintf fmt args in Ret (c :: rest)
      else
        match fmt with
        | [] => Ret []
        | c :: fmt =>
            let arg (print : Z -> outcome (list Z)) : outcome (list Z) :=
              match args with
              | [] => Fault
              | a :: args => let* s := print a in let* rest := cprintf fmt args in Ret (s ++ rest)
              end in
            if c =? chr "d" then arg (fun a => printint (s32 a) 10 true)
            else if (c =? chr "x") || (c =? chr "p") then arg (fun a => printint (s32 a) 16 false)
            else if c =? chr "s" then arg string_arg
            else if c =? chr "%" then let* rest := cprintf fmt args in Ret (c :: rest)
            else let* rest := cprintf fmt args in Ret (chr "%" :: c :: rest)
        end
  end.

(** [printf] of the user library, [state] being whether a [%] came before. *)
Fixpoint printf (state : bool) (fmt args : list Z) : outcome (list Z) :=
  match fmt with
  | [] => Ret []
  | c :: fmt =>
      if negb state then
        if c =? chr "%" then printf true fmt args else let* rest := printf false fmt args in Ret (c :: rest)
      else
        let arg (print : Z -> outcome (list Z)) : outcome (list Z) :=
          match args with
          | [] => Fault
          | a :: args => let* s := print a in let* rest := printf false fmt args in Ret (s ++ rest)
          end in
        if c =? chr "d" then arg (fun a => user_printint (s32 a) 10 true)
        else if (c =? chr "x") || (c =? chr "p") then arg (fun a => user_printint (s32 a) 16 false)
        else if c =? chr "s" then arg string_arg
        else if c =? chr "c" then arg (fun a => Ret [u8 a])
        else if c =? chr "%" then let* rest := printf false fmt args in Ret (c :: rest)
        else let* rest := printf false fmt args in Ret (chr "%" :: c :: rest)
  end.
End formats.

(** ** Input *)

Definition BACKSPACE : Z := 256.
Definition INPUT_BUF : Z := 128.
(** [C(x)], control and a key. *)
Definition C (x : ascii) : Z := chr x - chr "@".

Record input := { buf : list Z; r : Z; w : Z; e : Z }.
(** [woken] counts the calls of [wakeup(&input.r)]. *)
Record cons := { inp : input; out : list Z; woken : nat }.

Definition at_ (i : input) (k : Z) : outcome Z := of_option (getZ (buf i) (k mod INPUT_BUF)).
Definition with_e (x : Z) (i : input) : input := {| buf := buf i; r := r i; w := w i; e := x |}.
Definition with_w (x : Z) (i : input) : input := {| buf := buf i; r := r i; w := x; e := e i |}.
Definition with_r (x : Z) (i : input) : input := {| buf := buf i; r := x; w := w i; e := e i |}.
Definition with_inp (i : input) (s : cons) : cons := {| inp := i; out := out s; woken := woken s |}.
Definition consputc (c : Z) (s : cons) : cons := {| inp := inp s; out := out s ++ [c]; woken := woken s |}.
Definition wakeup (s : cons) : cons := {| inp := inp s; out := out s; woken := S (woken s) |}.

Definition erase (s : cons) : cons := consputc BACKSPACE (with_inp (with_e (u32 (e (inp s) - 1)) (inp s)) s).

(** The loop of [C('U')]. *)
Fixpoint kill_line (fuel : nat) (s : cons) : outcome cons :=
  match fuel with
  | O => Fault
  | S fuel =>
      if e (inp s) =? w (inp s) then Ret s
      else
        let* c := at_ (inp s) (u32 (e (inp s) - 1)) in
        if c =? 10 then Ret s else kill_line fuel (erase s)
  end.

(** One turn of [while((c = getc()) >= 0)]; whether a process listing is due. *)
Definition key (s : cons) (c : Z) : outcome (cons * bool) :=
  if c =? C "P" then Ret (s, true)
  else if c =? C "U" then let* s := kill_line 129 s in Ret (s, false)
  else if (c =? C "H") || (c =? 127) then Ret (if negb (e (inp s) =? w (inp s)) then erase s else s, false)
  else if negb (c =? 0) && (u32 (e (inp s) - r (inp s)) <? INPUT_BUF) then
    let c := if c =? 13 then 10 else c in
    let i := inp s in
    let* b := of_option (setZ (buf i) (e i mod INPUT_BUF) (u8 c)) in
    let i := {| buf := b; r := r i; w := w i; e := u32 (e i + 1) |} in
    let s := consputc c (with_inp i s) in
    if (c =? 10) || (c =? C "D") || (e i =? u32 (r i + INPUT_BUF)) then
      Ret (wakeup (with_inp (with_w (e i) i) s), false)
    else Ret (s, false)
  else Ret (s, false).

Fixpoint consoleintr (s : cons) (keys : list Z) : outcome (cons * bool) :=
  match keys with
  | [] => Ret (s, false)
  | c :: keys =>
      let* (s, dump1) := key s c in
      let* (s, dump2) := consoleintr s keys in
      Ret (s, dump1 || dump2)
  end.

(** How [consoleread] goes on: it returns the bytes at [dst], or -1; or it
    sleeps with [n] bytes to go. *)
Inductive turn := RRet (bytes : list Z) | RKilled | RSleep (bytes : list Z) (n : nat).

Fixpoint consoleread (killed : bool) (target n : nat) (i : input) (dst : list Z) : outcome (input * turn) :=
  match n with
  | O => Ret (i, RRet dst)
  | S n' =>
      if r i =? w i then Ret (i, if killed then RKilled else RSleep dst n)
      else
        let* c := at_ i (r i) in
        let i := with_r (u32 (r i + 1)) i in
        if c =? C "D" then Ret (if (n <? target)%nat then with_r (u32 (r i - 1)) i else i, RRet dst)
        else if c =? 10 then Ret (i, RRet (dst ++ [c]))
        else consoleread killed target n' i (dst ++ [c])
  end.

Definition consolewrite (s : cons) (l : list Z) : cons * Z :=
  (foldl (fun s c => consputc (u8 c) s) s l, Z.of_nat (length l)).

(** ** Numbers read back *)

(** The numerals of [x], the last first. *)
Fixpoint numerals (fuel : nat) (x base : Z) : list Z :=
  match fuel with
  | O => []
  | S fuel => x mod base :: if x / base =? 0 then [] else numerals fuel (x / base) base
  end.

Definition value (base : Z) (ns : list Z) : Z := foldl (fun a n => a * base + n) 0 ns.

Lemma value_snoc base ns n : value base (ns ++ [n]) = value base ns * base + n.
Proof. unfold value. by rewrite foldl_app. Qed.

Lemma numerals_value fuel x base : 1 < base -> 0 <= x < base ^ Z.of_nat fuel -> value base (rev (numerals fuel x base)) = x.
Proof.
  intros Hb. revert x. induction fuel as [|fuel IH]; intros x Hx; [cbn in *; lia|].
  cbn [numerals rev]. rewrite value_snoc. pose proof (Z.div_mod x base ltac:(lia)).
  destruct (Z.eqb_spec (x / base) 0) as [E|E]; [cbn; lia|]. rewrite IH; [lia|].
  split; [apply Z.div_pos; lia|]. apply Z.div_lt_upper_bound; [lia|].
  rewrite <- Z.pow_succ_r by lia. rewrite <- Nat2Z.inj_succ. lia.
Qed.

Lemma numerals_range fuel x base : 1 < base -> Forall (fun n => 0 <= n < base) (numerals fuel x base).
Proof.
  intros Hb. revert x. induction fuel as [|fuel IH]; intros x; cbn [numerals]; constructor; [apply Z.mod_pos_bound; lia|].
  destruct (x / base =? 0); [constructor|apply IH].
Qed.

Lemma numerals_length fuel x base k : 1 < base -> 0 <= x < base ^ k -> 0 < k -> Z.of_nat (length (numerals fuel x base)) <= k.
Proof.
  intros Hb. revert x k. induction fuel as [|fuel IH]; intros x k Hx Hk; cbn [numerals length]; [lia|].
  destruct (Z.eqb_spec (x / base) 0) as [E|E]; cbn [length]; [lia|].
  destruct (decide (k = 1)) as [->|Hk1]; [rewrite Z.pow_1_r in Hx; rewrite Z.div_small in E by lia; done|].
  enough (Z.of_nat (length (numerals fuel (x / base) base)) <= k - 1) by lia.
  apply IH; [|lia]. split; [apply Z.div_pos; lia|]. apply Z.div_lt_upper_bound; [lia|].
  rewrite <- Z.pow_succ_r by lia. replace (Z.succ (k - 1)) with k by lia. lia.
Qed.

(** The first numeral of a number is not zero, unless it is the only one. *)
Lemma numerals_first fuel x base : 1 < base -> 0 <= x < base ^ Z.of_nat fuel -> 0 < x ->
  List.last (numerals fuel x base) 0 <> 0.
Proof.
  intros Hb. revert x. induction fuel as [|fuel IH]; intros x Hx Hpos; [cbn in *; lia|]. cbn [numerals].
  pose proof (Z.div_mod x base ltac:(lia)). destruct (Z.eqb_spec (x / base) 0) as [E|E]; [simpl; lia|].
  assert (0 <= x / base) by (apply Z.div_pos; lia).
  assert (x / base < base ^ Z.of_nat fuel) as Hlt.
  { apply Z.div_lt_upper_bound; [lia|]. rewrite <- Z.pow_succ_r by lia. rewrite <- Nat2Z.inj_succ. lia. }
  specialize (IH (x / base) ltac:(lia) ltac:(lia)). destruct (numerals fuel (x / base) base) eqn:En; [done|]. exact IH.
Qed.

Lemma put_digits_spec digits base fuel : 1 < base <= Z.of_nat (length digits) ->
  forall buf x, 0 <= x < base ^ Z.of_nat (S fuel) ->
  put_digits (S fuel) digits buf x base
  = Ret (buf ++ ((fun n => default 0 (getZ digits n)) <$> numerals (S fuel) x base)).
Proof.
  intros Hb. assert (forall x, exists d, getZ digits (x mod base) = Some d) as Hd.
  { intros x. pose proof (Z.mod_pos_bound x base ltac:(lia)) as Hm. generalize dependent (x mod base). intros y Hy.
    unfold getZ. rewrite decide_True by lia. apply lookup_lt_is_Some_2. lia. }
  induction fuel as [|fuel IH]; intros buf x Hx; destruct (Hd x) as (d & Ed);
    cbn [put_digits numerals fmap list_fmap]; rewrite Ed; cbn [of_option obind from_option].
  - rewrite Z.div_small by (rewrite Z.pow_1_r in Hx; lia). done.
  - destruct (Z.eqb_spec (x / base) 0) as [E|E]; [done|]. cbn [put_digits numerals] in IH.
    rewrite IH; [by rewrite <- app_assoc|]. split; [apply Z.div_pos; lia|]. apply Z.div_lt_upper_bound; [lia|].
    rewrite <- Z.pow_succ_r by lia. rewrite <- Nat2Z.inj_succ. lia.
Qed.

(** A number is printed as a minus sign where it is negative and signed,
    and numerals that read as its absolute value, or as the unsigned word: no
    leading zeros, and never more than the 16 bytes there is room for. *)
Theorem print_number_reads digits xx base sgn :
  is_s32 xx -> base = 10 \/ base = 16 -> (16 <= length digits)%nat ->
  let neg := sgn && (xx <? 0) in
  exists ns, print_number digits xx base sgn
             = Ret ((if neg then [chr "-"] else []) ++ ((fun n => default 0 (getZ digits n)) <$> ns)) /\
    Forall (fun n => 0 <= n < base) ns /\ (1 <= length ns <= 10)%nat /\
    value base ns = (if neg then - xx else u32 xx) /\ (hd 0 ns = 0 -> ns = [0]).
Proof.
  intros Hx Hbase Hd neg. set (x := if neg then - xx else u32 xx).
  assert (0 <= x < 2 ^ 32) as Hxr.
  { unfold x, neg. unfold is_s32 in Hx. pose proof (u32_range xx) as Hu. unfold is_u32 in Hu.
    destruct sgn; cbn [andb]; [destruct (Z.ltb_spec xx 0); lia|lia]. }
  assert ((if neg then u32 (- xx) else u32 xx) = x) as Ex.
  { unfold x, neg in *. destruct (sgn && (xx <? 0)); [apply u32_small; unfold is_u32; lia|done]. }
  assert (Hpow : 0 <= x < base ^ Z.of_nat 17 /\ 0 <= x < base ^ 10) by (destruct Hbase as [->| ->]; lia).
  assert (Hb : 1 < base <= Z.of_nat (length digits)) by lia.
  exists (rev (numerals 17 x base)). unfold print_number. fold neg. rewrite Ex, (put_digits_spec digits base 16 Hb) by lia.
  cbn [obind app]. pose proof (numerals_length 17 x base 10 ltac:(lia) ltac:(lia) ltac:(lia)) as Hlen.
  assert (1 <= length (numerals 17 x base))%nat as Hpos by (cbn [numerals length]; lia).
  split; [|split; [|split; [|split]]].
  - rewrite (proj2 (Z.ltb_ge _ _)); [|destruct neg; rewrite ?length_app, length_fmap; cbn [length]; lia].
    destruct neg; [rewrite rev_app_distr; cbn [rev app]|]; by rewrite <- map_rev.
  - apply Forall_rev, numerals_range. lia.
  - rewrite length_rev. lia.
  - apply numerals_value; lia.
  - intros H0. destruct (decide (x = 0)) as [->|Hne]; [reflexivity|].
    pose proof (numerals_first 17 x base ltac:(lia) ltac:(lia) ltac:(lia)) as Hl.
    destruct (exists_last (l := numerals 17 x base)) as (l & y & El); [by intros E; rewrite E in Hpos; simpl in Hpos; lia|].
    rewrite El in Hl, H0. rewrite List.last_last in Hl. rewrite rev_app_distr in H0. done.
Qed.

Lemma print_number_reads_witness :
  is_s32 (- 2 ^ 31) /\ printint (- 2 ^ 31) 10 true = Ret (lit "-2147483648") /\
  exists ns, value 10 ns = 2 ^ 31.
Proof.
  assert (is_s32 (- 2 ^ 31)) as Hx by (unfold is_s32; lia). split; [done|]. split; [by vm_compute|].
  destruct (print_number_reads lower (- 2 ^ 31) 10 true Hx (or_introl eq_refl) ltac:(cbn; lia)) as (ns & _ & _ & _ & Hv & _).
  exists ns. exact Hv.
Defined.

End Console.
