(* ===== verification/ConsoleThms.v ===== *)
(** * The console's input as a line being edited

    The three indices of the ring buffer stand for two lists: the bytes that
    are [ready] to be read, and the [line] that can still be edited.  Keys and
    reads on the buffer do what they do to those two lists. *)

From S2P Require Import Prelude Console.
From Stdlib Require Import Ascii.
Import Console.
Local Open Scope Z_scope.
Local Open Scope xv6_scope.

Module Tty.

(** ** The specification *)

Record tty := { ready : list Z; line : list Z; shown : list Z; wakes : nat }.

Definition content (t : tty) : list Z := ready t ++ line t.
Definition edit (l shows : list Z) (t : tty) : tty :=
  {| ready := ready t; line := l; shown := shown t ++ shows; wakes := wakes t |}.
(** The line is finished and can be read. *)
Definition commit (t : tty) : tty :=
  {| ready := content t; line := []; shown := shown t; wakes := S (wakes t) |}.
Definition leave (l : list Z) (t : tty) : tty :=
  {| ready := l; line := line t; shown := shown t; wakes := wakes t |}.

Definition ends_line (c : Z) (t : tty) : bool :=
  (c =? 10) || (c =? C "D") || (Z.of_nat (length (content t)) =? INPUT_BUF).

Definition type_key (t : tty) (c : Z) : tty :=
  if c =? C "P" then t
  else if c =? C "U" then edit [] (replicate (length (line t)) BACKSPACE) t
  else if (c =? C "H") || (c =? 127) then
    if bool_decide (line t = []) then t else edit (removelast (line t)) [BACKSPACE] t
  else if (c =? 0) || (INPUT_BUF <=? Z.of_nat (length (content t))) then t
  else
    let c := if c =? 13 then 10 else c in
    let t := edit (line t ++ [c]) [c] t in
    if ends_line c t then commit t else t.

(** What a reader takes of the bytes that are ready, [first] telling whether it
    holds none yet: it stops after a newline and before an end of file, which
    only a reader that holds nothing takes. *)
Fixpoint take_line (killed first : bool) (n : nat) (l got : list Z) : list Z * turn :=
  match n, l with
  | O, _ => (l, RRet got)
  | _, [] => ([], if killed then RKilled else RSleep got n)
  | S n, c :: rest =>
      if c =? C "D" then (if first then rest else l, RRet got)
      else if c =? 10 then (rest, RRet (got ++ [c]))
      else take_line killed false n rest (got ++ [c])
  end.

(** ** Events *)

(** An interrupt with its keys; a call of [consoleread] that is given the lock
    with [n] of its [target] bytes to go. *)
Inductive event := Keys (keys : list Z) | Read (killed : bool) (target n : nat).

Definition event_ok (ev : event) : Prop :=
  match ev with
  | Keys keys => Forall (fun c => 0 <= c < 256) keys
  | Read _ target n => (n <= target)%nat
  end.

Fixpoint run (s : cons) (evs : list event) : outcome (cons * list turn) :=
  match evs with
  | [] => Ret (s, [])
  | Keys keys :: evs => let* (s, _) := consoleintr s keys in run s evs
  | Read killed target n :: evs =>
      let* (i, x) := consoleread killed target n (inp s) [] in
      let* (s, xs) := run (with_inp i s) evs in
      Ret (s, x :: xs)
  end.

Fixpoint run_lines (t : tty) (evs : list event) : tty * list turn :=
  match evs with
  | [] => (t, [])
  | Keys keys :: evs => run_lines (foldl type_key t keys) evs
  | Read killed target n :: evs =>
      let '(l, x) := take_line killed (n =? target)%nat n (ready t) [] in
      let '(t, xs) := run_lines (leave l t) evs in
      (t, x :: xs)
  end.

Definition boot : cons := {| inp := {| buf := replicate 128 0; r := 0; w := 0; e := 0 |}; out := []; woken := 0 |}.
Definition blank : tty := {| ready := []; line := []; shown := []; wakes := 0 |}.

(** ** The buffer stands for the lists *)

Record holds (i : input) (t : tty) : Prop := {
  holds_len : length (buf i) = 128%nat;
  holds_r : is_u32 (r i);
  holds_w : w i = u32 (r i + Z.of_nat (length (ready t)));
  holds_e : e i = u32 (r i + Z.of_nat (length (content t)));
  holds_room : (length (content t) <= 128)%nat;
  holds_bytes : forall k c, content t !! k = Some c -> getZ (buf i) ((r i + Z.of_nat k) mod INPUT_BUF) = Some c;
  holds_line : 10 ∉ line t;
}.

Definition stands (s : cons) (t : tty) : Prop := holds (inp s) t /\ out s = shown t /\ woken s = wakes t.

Lemma slot_mod z : u32 z mod INPUT_BUF = z mod INPUT_BUF.
Proof. apply u32_mod_divides; [done|]. exists (2 ^ 25). done. Qed.

Lemma ahead_eqb r a b : 0 <= a <= 128 -> 0 <= b <= 128 -> (u32 (r + a) =? u32 (r + b)) = (a =? b).
Proof.
  intros Ha Hb. destruct (Z.eqb_spec a b) as [->|Hne]; [apply Z.eqb_refl|]. apply Z.eqb_neq. intros Heq.
  assert (u32 (u32 (r + a) - u32 (r + b)) = 0) as Hd by (rewrite Heq; f_equal; rewrite Z.sub_diag; done).
  rewrite u32_sub_idemp in Hd. replace (r + a - (r + b)) with (a - b) in Hd by lia.
  unfold u32 in Hd. apply Z.mod_divide in Hd as [k Hk]; lia.
Qed.

Lemma slots_apart r a b : 0 <= a < 128 -> 0 <= b < 128 -> a <> b -> (r + a) mod INPUT_BUF <> (r + b) mod INPUT_BUF.
Proof.
  unfold INPUT_BUF. intros Ha Hb Hne Heq. assert ((r + a - (r + b)) mod 128 = 0) as Hd by (rewrite Zminus_mod, Heq, Z.sub_diag; done).
  replace (r + a - (r + b)) with (a - b) in Hd by lia. apply Z.mod_divide in Hd as [k Hk]; lia.
Qed.

Section held.
Context (i : input) (t : tty) (H : holds i t).

Lemma content_length : length (content t) = (length (ready t) + length (line t))%nat.
Proof. apply length_app. Qed.

Lemma held_count : u32 (e i - r i) = Z.of_nat (length (content t)).
Proof.
  rewrite (holds_e i t H). rewrite <- (u32_small (r i) (holds_r i t H)) at 2. rewrite u32_sub_idemp.
  replace (r i + _ - r i) with (Z.of_nat (length (content t))) by lia. apply u32_small.
  pose proof (holds_room i t H). unfold is_u32. lia.
Qed.

Lemma held_empty_line : (e i =? w i) = bool_decide (line t = []).
Proof.
  pose proof (holds_room i t H) as Hr. rewrite content_length in Hr.
  rewrite (holds_e i t H), (holds_w i t H), ahead_eqb; rewrite ?content_length; [|lia..].
  destruct (line t) as [|c l]; cbn [length]; [by apply Z.eqb_eq; lia|by apply Z.eqb_neq; lia].
Qed.

Lemma held_none_ready : (r i =? w i) = bool_decide (ready t = []).
Proof.
  pose proof (holds_room i t H) as Hr. rewrite content_length in Hr.
  rewrite (holds_w i t H). rewrite <- (u32_small (r i) (holds_r i t H)) at 1. rewrite <- (Z.add_0_r (r i)) at 1.
  rewrite ahead_eqb by lia. destruct (ready t) as [|c l]; cbn [length]; [done|by apply Z.eqb_neq; lia].
Qed.

Lemma held_last l c : line t = l ++ [c] -> at_ i (u32 (e i - 1)) = Ret c.
Proof.
  intros El. unfold at_. rewrite slot_mod, (holds_e i t H), content_length, El, length_app. cbn [length].
  rewrite <- slot_mod. unfold Z.sub. rewrite u32_add_idemp_l, slot_mod.
  replace (r i + Z.of_nat (length (ready t) + (length l + 1)) + - (1)) with (r i + Z.of_nat (length (ready t) + length l)) by lia.
  rewrite (holds_bytes i t H _ c); [done|]. unfold content. rewrite El, app_assoc.
  rewrite <- length_app. by apply list_lookup_middle.
Qed.

Lemma held_first c l : ready t = c :: l -> at_ i (r i) = Ret c.
Proof.
  intros El. unfold at_. replace (r i mod INPUT_BUF) with ((r i + Z.of_nat 0) mod INPUT_BUF) by (f_equal; lia). rewrite (holds_bytes i t H 0%nat c); [done|].
  unfold content. by rewrite El.
Qed.

Lemma holds_shorter l c shows :
  line t = l ++ [c] -> holds (with_e (u32 (e i - 1)) i) (edit l shows t).
Proof.
  intros El. pose proof (holds_room i t H) as Hr. destruct H. split; cbn [with_e edit buf r w e ready line]; try done.
  - rewrite holds_e0. unfold Z.sub. rewrite u32_add_idemp_l. f_equal.
    unfold content. cbn [edit ready line]. rewrite El, !length_app. cbn [length]. lia.
  - unfold content in *. cbn [edit ready line]. rewrite El, !length_app in Hr. rewrite length_app. lia.
  - intros k x Hk. apply holds_bytes0. unfold content in *. cbn [edit ready line] in Hk.
    rewrite El, app_assoc. by apply lookup_app_l_Some.
  - rewrite El in holds_line0. set_solver.
Qed.

Lemma holds_longer c shows :
  (length (content t) < 128)%nat -> 0 <= c < 256 ->
  exists b, setZ (buf i) (e i mod INPUT_BUF) (u8 c) = Some b /\
    let i' := {| buf := b; r := r i; w := w i; e := u32 (e i + 1) |} in
    let t' := edit (line t ++ [c]) shows t in
    holds (with_w (e i') i') (commit t') /\ (c <> 10 -> holds i' t').
Proof.
  intros Hroom Hc. pose proof (holds_len i t H) as Hl.
  pose proof (Z.mod_pos_bound (e i) INPUT_BUF eq_refl) as Hm. unfold INPUT_BUF in Hm.
  rewrite (setZ_Some (buf i) (e i mod INPUT_BUF) (u8 c)) by (unfold INPUT_BUF; lia). eexists. split; [done|].
  destruct H. set (b := <[Z.to_nat (e i mod INPUT_BUF):=u8 c]> (buf i)).
  assert (Hset : setZ (buf i) (e i mod INPUT_BUF) (u8 c) = Some b) by (apply setZ_Some; unfold INPUT_BUF; lia).
  assert (Hb : forall k x, (content t ++ [c]) !! k = Some x -> getZ b ((r i + Z.of_nat k) mod INPUT_BUF) = Some x).
  { intros k x [Hk|(Hk & Hx)]%lookup_app_Some.
    - rewrite (setZ_get_ne _ _ _ _ _ Hset); [by apply holds_bytes0|]. apply lookup_lt_Some in Hk.
      rewrite holds_e0, slot_mod. apply slots_apart; lia.
    - apply list_lookup_singleton_Some in Hx as [Hk0 <-]. replace k with (length (content t)) by lia.
      rewrite <- slot_mod, <- holds_e0, (setZ_get _ _ _ _ Hset). f_equal. unfold u8. apply Z.mod_small. lia. }
  assert (He : u32 (e i + 1) = u32 (r i + Z.of_nat (length (content t ++ [c])))).
  { rewrite holds_e0, u32_add_idemp_l, length_app. cbn [length]. f_equal. lia. }
  assert (Hlen : (length (content t ++ [c]) <= 128)%nat) by (rewrite length_app; cbn [length]; lia).
  assert (Hlb : length b = 128%nat) by (rewrite (setZ_length _ _ _ _ Hset); done).
  cbn zeta. split; [|intros Hne]; split; unfold commit, content in *;
    cbn [with_w edit buf r w e ready line]; rewrite ?app_nil_r, ?app_assoc; try done; set_solver.
Qed.

Lemma holds_taken c l : ready t = c :: l -> holds (with_r (u32 (r i + 1)) i) (leave l t).
Proof.
  intros El. destruct H. unfold content in *. rewrite El in *. split; unfold content; cbn [with_r leave buf r w e ready line].
  - done.
  - apply u32_range.
  - rewrite holds_w0, u32_add_idemp_l. f_equal. cbn [length]. lia.
  - rewrite holds_e0, u32_add_idemp_l. f_equal. cbn [length app]. lia.
  - cbn [length app] in holds_room0. lia.
  - intros k x Hk. rewrite <- slot_mod, u32_add_idemp_l, slot_mod.
    replace (r i + 1 + Z.of_nat k) with (r i + Z.of_nat (S k)) by lia. by apply holds_bytes0.
  - done.
Qed.

Lemma with_r_back : with_r (u32 (u32 (r i + 1) - 1)) i = i.
Proof.
  unfold Z.sub. rewrite u32_add_idemp_l. replace (r i + 1 + - (1)) with (r i) by lia.
  rewrite u32_small by apply (holds_r i t H). by destruct i.
Qed.
End held.

(** ** Keys *)

Lemma leave_ready t : leave (ready t) t = t.
Proof. by destruct t. Qed.

Lemma edit_edit l l' shows shows' t : edit l' shows' (edit l shows t) = edit l' (shows ++ shows') t.
Proof. unfold edit. cbn. by rewrite app_assoc. Qed.

Lemma erases s t l c : stands s t -> line t = l ++ [c] -> stands (erase s) (edit l [BACKSPACE] t).
Proof.
  intros (Hi & Ho & Hw) El. split; [by apply (holds_shorter _ t Hi l c)|]. split; [|done]. cbn. by rewrite Ho.
Qed.

Lemma kills fuel s t :
  stands s t -> (length (line t) < fuel)%nat ->
  exists s', kill_line fuel s = Ret s' /\ stands s' (edit [] (replicate (length (line t)) BACKSPACE) t).
Proof.
  revert s t. induction fuel as [|fuel IH]; intros s t Hst Hf; [lia|]. cbn [kill_line].
  destruct Hst as (Hi & Ho & Hw). rewrite (held_empty_line _ t Hi).
  destruct (line t) as [|c l _] eqn:El using rev_ind.
  - exists s. split; [done|]. replace (edit _ _ t) with t; [done|]. destruct t. unfold edit. cbn in *. subst. by rewrite app_nil_r.
  - rewrite bool_decide_false by (by destruct l). rewrite (held_last _ t Hi l c El). cbn [obind].
    pose proof (holds_line _ t Hi) as Hn. rewrite El in Hn. rewrite (proj2 (Z.eqb_neq c 10)) by set_solver.
    rewrite length_app in *. cbn [length] in *.
    destruct (IH (erase s) (edit l [BACKSPACE] t)) as (s' & E & Hst');
      [by apply (erases s t l c)|cbn; lia|]. exists s'. split; [done|].
    rewrite edit_edit in Hst'. cbn [edit line] in Hst'. by rewrite Nat.add_comm.
Qed.

Lemma key_typed s t c :
  stands s t -> 0 <= c < 256 -> exists s' dump, key s c = Ret (s', dump) /\ stands s' (type_key t c).
Proof.
  intros Hst Hc. pose proof Hst as (Hi & Ho & Hw). unfold key, type_key.
  destruct (c =? C "P"); [by eauto|]. destruct (c =? C "U").
  { pose proof (holds_room _ t Hi) as Hr. rewrite content_length in Hr.
    destruct (kills 129 s t Hst ltac:(lia)) as (s' & -> & Hst'). cbn [obind]. eauto. }
  destruct ((c =? C "H") || (c =? 127)).
  { rewrite (held_empty_line _ t Hi). do 2 eexists. split; [done|]. case_bool_decide as El; [done|].
    destruct (exists_last El) as (l & x & E). cbn [negb]. rewrite E, removelast_last. by apply (erases s t l x). }
  rewrite (held_count _ t Hi), (Z.leb_antisym _ INPUT_BUF).
  destruct (c =? 0); [by eauto|]. destruct (Z.ltb_spec (Z.of_nat (length (content t))) INPUT_BUF) as [Hroom|]; [|by eauto].
  cbn [negb andb orb]. unfold INPUT_BUF in Hroom. set (c' := if c =? 13 then 10 else c).
  assert (Hc' : 0 <= c' < 256) by (unfold c'; case_match; lia).
  destruct (holds_longer _ t Hi c' [c'] ltac:(lia) Hc') as (b & -> & Hcommit & Hedit). cbn [of_option obind].
  cbn zeta in Hcommit, Hedit. set (i' := {| buf := b; r := r (inp s); w := w (inp s); e := u32 (e (inp s) + 1) |}) in *.
  assert (Hend : ((c' =? 10) || (c' =? C "D") || (e i' =? u32 (r i' + INPUT_BUF))) = ends_line c' (edit (line t ++ [c']) [c'] t)).
  { unfold ends_line. f_equal. pose proof (holds_e _ _ Hcommit) as He. cbn [with_w e r i' commit] in He |- *.
    unfold content in He |- *. cbn [commit ready line edit] in He |- *. rewrite app_nil_r in He. unfold content in He. cbn [edit ready line] in He.
    rewrite He. apply ahead_eqb; [|unfold INPUT_BUF; lia]. rewrite app_assoc, length_app. fold (content t). cbn [length]. lia. }
  rewrite Hend. destruct (ends_line c' _) eqn:E; do 2 eexists; (split; [done|]).
  - split; [exact Hcommit|]. cbn. by rewrite Ho, Hw.
  - split; [apply Hedit|cbn; by rewrite Ho]. intros ->. done.
Qed.

(** ** Reads *)

Lemma line_read killed target n dst i t :
  holds i t -> (n <= target)%nat ->
  let '(l, x) := take_line killed (n =? target)%nat n (ready t) dst in
  exists i', consoleread killed target n i dst = Ret (i', x) /\ holds i' (leave l t).
Proof.
  revert dst i t. induction n as [|n IH]; intros dst i t Hi Hn; cbn [consoleread].
  { replace (take_line killed (0 =? target)%nat 0 (ready t) dst) with (ready t, RRet dst) by (by destruct (ready t)).
    exists i. by rewrite leave_ready. }
  cbn [take_line]. rewrite (held_none_ready i t Hi). pose proof (leave_ready t) as Hl. destruct (ready t) as [|c l] eqn:El; cbn [bool_decide].
  { exists i. by rewrite Hl. }
  rewrite bool_decide_false by done. rewrite (held_first i t Hi c l El). cbn [obind].
  pose proof (holds_taken i t Hi c l El) as Ht. destruct (c =? C "D").
  - eexists. split; [done|]. cbn [with_r r]. destruct (Nat.ltb_spec (S n) target); destruct (Nat.eqb_spec (S n) target); try lia; [|done].
    rewrite Hl. pose proof (with_r_back i t Hi) as Hb. unfold with_r in Hb |- *. cbn [buf w e] in *. by rewrite Hb.
  - destruct (c =? 10); [by eauto|]. specialize (IH (dst ++ [c]) _ _ Ht ltac:(lia)). cbn [leave ready] in IH.
    rewrite (proj2 (Nat.eqb_neq n target)) in IH by lia. destruct (take_line _ _ _ _ _) as [l' x].
    destruct IH as (i' & E & Hi'). by exists i'.
Qed.

(** ** The buffer refines the lists *)

Lemma keys_typed keys s t :
  stands s t -> Forall (fun c => 0 <= c < 256) keys ->
  exists s' dump, consoleintr s keys = Ret (s', dump) /\ stands s' (foldl type_key t keys).
Proof.
  intros Hst Hk. revert s t Hst. induction Hk as [|c keys Hc _ IH]; intros s t Hst; cbn [consoleintr foldl]; [by eauto|].
  destruct (key_typed s t c Hst Hc) as (s1 & d1 & -> & H1). cbn [obind].
  destruct (IH s1 _ H1) as (s2 & d2 & -> & H2). cbn [obind]. eauto.
Qed.

Lemma run_stands evs s t :
  stands s t -> Forall event_ok evs ->
  exists s', run s evs = Ret (s', (run_lines t evs).2) /\ stands s' (run_lines t evs).1.
Proof.
  intros Hst Hevs. revert s t Hst. induction Hevs as [|ev evs Hev _ IH]; intros s t Hst; [by exists s|].
  destruct ev as [keys|killed target n]; cbn [run run_lines].
  - destruct (keys_typed keys s t Hst Hev) as (s1 & d & -> & H1). cbn [obind]. by apply IH.
  - destruct Hst as (Hi & Ho & Hw). pose proof (line_read killed target n [] _ t Hi Hev) as Hr.
    destruct (take_line _ _ _ _ _) as [l x]. destruct Hr as (i' & -> & Hi'). cbn [obind].
    destruct (IH (with_inp i' s) (leave l t) ltac:(done)) as (s' & -> & Hs').
    destruct (run_lines (leave l t) evs) as [t' xs]. exists s'. done.
Qed.

(** C21.  From an empty buffer on, whatever is typed and whoever reads, the
    console is a line that is edited and the bytes of finished lines: readers
    get what the two lists say, the screen shows the echo of the keys, and the
    ring buffer, whose indices count on modulo [2 ^ 32], never faults. *)
Theorem console_refines evs :
  Forall event_ok evs ->
  exists s, run boot evs = Ret (s, (run_lines blank evs).2) /\ stands s (run_lines blank evs).1.
Proof.
  apply run_stands. split; [|done]. split; cbn; try done; try lia; set_solver.
Qed.

Definition session : list event :=
  [Keys (lit "lx" ++ [8] ++ lit "s" ++ [13]); Read false 10 10; Keys (lit "oops" ++ [21; 4]); Read false 5 5; Read false 5 5].

Lemma console_refines_witness :
  Forall event_ok session /\ (run_lines blank session).2 = [RRet (lit "ls" ++ [10]); RRet []; RSleep [] 5] /\
  exists s, run boot session = Ret (s, [RRet (lit "ls" ++ [10]); RRet []; RSleep [] 5]).
Proof.
  assert (Forall event_ok session) as Hs
    by (repeat apply Forall_cons_2; try apply Forall_nil_2; cbn [event_ok]; try done; by apply (bool_decide_unpack _)).
  split; [done|]. split; [done|]. destruct (console_refines session Hs) as (s & E & _). by exists s.
Defined.

End Tty.
