(* ===== verification/Exec.v ===== *)
(** * exec (p3b, [exec.c] and [sys_exec] of [sysfile.c])

    [exec] over the page tables of [Vm] and any file system with the interface
    [Files], which [Fs] over the log implements.  Memory below [KERNBASE] is
    that of the calling process, as its page table shows it.  [elf] and [ph]
    are the addresses of the locals of that name, [pname] that of
    [curproc->name]; [strfuel] bounds the length of strings. *)

From S2P Require Import Prelude DfsImage Bio Log Kalloc Vm CString Txn Fs Syscall Sysfile.
Import Bio Kalloc Vm Txn.
Local Open Scope Z_scope.
Local Open Scope xv6_scope.

Module Exec.

(** What [exec] calls of the file system, [F] being its state. *)
Class Files (F : Type) := {
  f_begin_op : F -> outcome F;
  f_namei : F -> bytes -> Z -> outcome (F * bytes * option nat);
  f_ilock : F -> nat -> outcome F;
  f_readi : F -> bytes -> nat -> Z -> Z -> Z -> outcome (F * bytes * Z);
  f_iunlockput : F -> nat -> outcome F;
  f_end_op : F -> outcome F
}.

Definition MAXARG : Z := 32.
Definition ELF_MAGIC : Z := 1179403647.
Definition ELF_PROG_LOAD : Z := 1.
Definition SIZEOF_ELFHDR : Z := 52.
Definition SIZEOF_PROGHDR : Z := 32.

(** The fields of [curproc] that [exec] sets; [curproc->name] is in memory. *)
Record image := { pgdir : Z; sz : Z; eip : Z; esp : Z }.

Section exec.
Context {F : Type} `{Files F} (kend data : Z) (elf ph pname : Z) (strfuel : nat).

(** ** The program headers *)

Definition elf_magic (k : kmem) : Z := ld k elf.
Definition elf_entry (k : kmem) : Z := ld k (elf + 24).
Definition elf_phoff (k : kmem) : Z := ld k (elf + 28).
Definition elf_phnum (k : kmem) : Z := Fs.word16 (mem k) (elf + 44).

Definition ph_type (k : kmem) : Z := ld k ph.
Definition ph_off (k : kmem) : Z := ld k (ph + 4).
Definition ph_vaddr (k : kmem) : Z := ld k (ph + 8).
Definition ph_filesz (k : kmem) : Z := ld k (ph + 16).
Definition ph_memsz (k : kmem) : Z := ld k (ph + 20).

(** The body of the loop once [ph] is a segment to load; [None] is
    [goto bad]. *)
Definition load_segment (f : F) (k : kmem) (ip : nat) (pgdir sz : Z) : outcome (F * kmem * option Z) :=
  if ph_memsz k <? ph_filesz k then Ret (f, k, None)
  else if u32 (ph_vaddr k + ph_memsz k) <? ph_vaddr k then Ret (f, k, None)
  else
    let vaddr := ph_vaddr k in let off := ph_off k in let filesz := ph_filesz k in
    let* (k, sz) := allocuvm kend k pgdir sz (u32 (vaddr + ph_memsz k)) in
    if sz =? 0 then Ret (f, k, None)
    else if negb (vaddr mod PGSIZE =? 0) then Ret (f, k, None)
    else
      let* (f, k, r) := loaduvm (fun f m a o n => f_readi f m ip a o n) f k pgdir vaddr off filesz in
      Ret (f, k, if r <? 0 then None else Some sz).

(** The loop over the program headers, [n] of them to go. *)
Fixpoint load_program (n : nat) (f : F) (k : kmem) (ip : nat) (pgdir off sz : Z) : outcome (F * kmem * option Z) :=
  match n with
  | O => Ret (f, k, Some sz)
  | S n =>
      let* (f, m, r) := f_readi f (mem k) ip ph off SIZEOF_PROGHDR in
      let k := with_mem m k in
      if negb (r =? SIZEOF_PROGHDR) then Ret (f, k, None)
      else if negb (ph_type k =? ELF_PROG_LOAD) then load_program n f k ip pgdir (u32 (off + SIZEOF_PROGHDR)) sz
      else
        let* (f, k, r) := load_segment f k ip pgdir sz in
        match r with
        | None => Ret (f, k, None)
        | Some sz => load_program n f k ip pgdir (u32 (off + SIZEOF_PROGHDR)) sz
        end
  end.

(** ** The stack *)

Definition bytes_at (m : bytes) (a n : Z) : list Z := (fun i => m (a + i)) <$> seqZ 0 n.
Definition word_bytes (v : Z) : list Z := (fun i => u8 (u32 v / 2 ^ (8 * i))) <$> [0; 1; 2; 3].

(** [copyout(pgdir, va, p, len)] with the fuel its loop needs. *)
Definition copy_to (k : kmem) (pgdir va : Z) (p : list Z) : outcome (kmem * Z) :=
  copyout (S (S (length p))) k pgdir va p.

(** [sp] below the string; where a string of [len] bytes goes. *)
Definition push (sp len : Z) : Z := Z.land (u32 (sp - (len + 1))) (Z.lnot 3).

(** The loop over [argv]; [ptrs] is [ustack[3..3+argc]]. *)
Fixpoint push_args (k : kmem) (pgdir sp : Z) (ptrs argv : list Z) : outcome (kmem * option (Z * list Z)) :=
  match argv with
  | [] => Ret (k, Some (sp, ptrs))
  | a :: argv =>
      if MAXARG <=? Z.of_nat (length ptrs) then Ret (k, None)
      else
        let* len := of_option (CString.strlen strfuel (mem k) a 0) in
        let sp := push sp len in
        let* (k, r) := copy_to k pgdir sp (bytes_at (mem k) a (len + 1)) in
        if r <? 0 then Ret (k, None) else push_args k pgdir sp (ptrs ++ [sp]) argv
  end.

(** [ustack] when the arguments are on the stack. *)
Definition ustack (sp : Z) (ptrs : list Z) : list Z :=
  let argc := Z.of_nat (length ptrs) in
  [2 ^ 32 - 1; argc; u32 (sp - (argc + 1) * 4)] ++ ptrs ++ [0].

Definition build_stack (k : kmem) (pgdir sp : Z) (argv : list Z) : outcome (kmem * option Z) :=
  let* (k, r) := push_args k pgdir sp [] argv in
  match r with
  | None => Ret (k, None)
  | Some (sp, ptrs) =>
      let words := ustack sp ptrs in
      let sp := u32 (sp - 4 * Z.of_nat (length words)) in
      let* (k, r) := copy_to k pgdir sp (words ≫= word_bytes) in
      Ret (k, if r <? 0 then None else Some sp)
  end.

(** ** exec *)

(** [for(last=s=path; *s; s++) if( *s == '/') last = s+1]. *)
Fixpoint last_elem (fuel : nat) (m : bytes) (s last : Z) : option Z :=
  match fuel with
  | O => None
  | S fuel =>
      if m s =? 0 then Some last
      else last_elem fuel m (s + 1) (if m s =? Fs.SLASH then s + 1 else last)
  end.

(** [bad:], with the new page directory and the inode, if any. *)
Definition bad (f : F) (k : kmem) (cur : image) (pgdir : Z) (ip : option nat) : outcome (F * kmem * image * Z) :=
  let* k := if pgdir =? 0 then Ret k else freevm kend k pgdir in
  match ip with
  | None => Ret (f, k, cur, -1)
  | Some ip =>
      let* f := f_iunlockput f ip in
      let* f := f_end_op f in
      Ret (f, k, cur, -1)
  end.

(** From [sz = PGROUNDUP(sz)] on. *)
Definition start (f : F) (k : kmem) (cur : image) (path : Z) (argv : list Z) (pgdir sz : Z) :
    outcome (F * kmem * image * Z) :=
  let sz := PGROUNDUP sz in
  let* (k, sz) := allocuvm kend k pgdir sz (u32 (sz + 2 * PGSIZE)) in
  if sz =? 0 then bad f k cur pgdir None
  else
    let* k := clearpteu k pgdir (u32 (sz - 2 * PGSIZE)) in
    let* (k, r) := build_stack k pgdir sz argv in
    match r with
    | None => bad f k cur pgdir None
    | Some sp =>
        let* last := of_option (last_elem strfuel (mem k) path path) in
        let k := with_mem (CString.safestrcpy (mem k) pname last 16) k in
        let oldpgdir := Exec.pgdir cur in
        let cur := {| Exec.pgdir := pgdir; Exec.sz := sz; eip := elf_entry k; esp := sp |} in
        let* k := freevm kend k oldpgdir in
        Ret (f, k, cur, 0)
    end.

(** [path] and the pointers of [argv], up to the null pointer that ends it. *)
Definition exec (f : F) (k : kmem) (cur : image) (path : Z) (argv : list Z) : outcome (F * kmem * image * Z) :=
  let* f := f_begin_op f in
  let* (f, m, r) := f_namei f (mem k) path in
  let k := with_mem m k in
  match r with
  | None => let* f := f_end_op f in Ret (f, k, cur, -1)
  | Some ip =>
      let* f := f_ilock f ip in
      let* (f, m, r) := f_readi f (mem k) ip elf 0 SIZEOF_ELFHDR in
      let k := with_mem m k in
      if negb (r =? SIZEOF_ELFHDR) then bad f k cur 0 (Some ip)
      else if negb (elf_magic k =? ELF_MAGIC) then bad f k cur 0 (Some ip)
      else
        let* (k, pgdir) := setupkvm kend data k in
        if pgdir =? 0 then bad f k cur 0 (Some ip)
        else
          let* (f, k, r) := load_program (Z.to_nat (elf_phnum k)) f k ip pgdir (elf_phoff k) 0 in
          match r with
          | None => bad f k cur pgdir (Some ip)
          | Some sz =>
              let* f := f_iunlockput f ip in
              let* f := f_end_op f in
              start f k cur path argv pgdir sz
          end
  end.

(** ** The system call *)

(** The loop of [sys_exec] from index [i] on, [n] entries of [argv] left. *)
Fixpoint fetch_argv (n : nat) (m : bytes) (psz uargv i : Z) : option (list Z) :=
  match n with
  | O => None
  | S n =>
      let? uarg := Syscall.fetchint psz m (u32 (uargv + 4 * i)) in
      if uarg =? 0 then Some []
      else
        let? (a, _) := Syscall.fetchstr psz m (u32 uarg) in
        let? argv := fetch_argv n m psz uargv (i + 1) in
        Some (a :: argv)
  end.

Definition sys_exec (f : F) (k : kmem) (cur : image) : outcome (F * kmem * image * Z) :=
  match Syscall.argstr (sz cur) (mem k) (esp cur) 0, Syscall.argint (sz cur) (mem k) (esp cur) 1 with
  | Some (path, _), Some uargv =>
      match fetch_argv (Z.to_nat MAXARG) (mem k) (sz cur) (u32 uargv) 0 with
      | None => Ret (f, k, cur, -1)
      | Some argv => exec f k cur path argv
      end
  | _, _ => Ret (f, k, cur, -1)
  end.
End exec.

(** ** The file system of [Fs] *)

Section files.
Context {T : Type} `{BlockCache T}.
Abbreviation fs := (Fs.fs (Log.log * T)).
Context (sb : Fs.superblock) (mypid : Z).
Context (devsw_read : Z -> option (fs -> bytes -> nat -> Z -> Z -> outcome (fs * bytes * Z))).
Context (strfuel cwd : nat) (name de : Z).

Definition fs_files : Files fs := {|
  f_begin_op := Sysfile.begin_op;
  f_namei f m path := Fs.namei sb mypid devsw_read strfuel f m cwd path name de;
  f_ilock f ip := Fs.ilock sb mypid f (Some ip);
  f_readi f m ip dst off n := Fs.readi sb devsw_read f m ip dst off n;
  f_iunlockput f ip := Fs.iunlockput sb mypid f ip;
  f_end_op := Sysfile.end_op
|}.
End files.

End Exec.
