(* ===== verification/ExecThms.v ===== *)
(** * exec: pages

    What [exec] relies on of a file system, and that each step of it leaves
    every page accounted for, whatever the file holds and wherever it fails. *)

From S2P Require Import Prelude DfsImage Kalloc Vm VmSpec VmThms VmLife CString Exec.
Import Kalloc Vm VmSpec VmThms VmLife Exec.
Local Open Scope Z_scope.
Local Open Scope xv6_scope.

Module ExecThms.

(** What [exec] relies on of the file system: it writes only to the buffers it
    is given and to its own locals, [scratch]. *)
Class FilesSpec (F : Type) `{Files F} (scratch : Z -> Prop) := {
  namei_writes f m path f' m' r :
    f_namei f m path = Ret (f', m', r) -> forall x, ~ scratch x -> m' x = m x;
  readi_writes f m ip dst off n f' m' r :
    f_readi f m ip dst off n = Ret (f', m', r) -> 0 <= off -> 0 <= dst -> 0 <= n -> dst + n <= 2 ^ 32 ->
    forall x, ~ dst <= x < dst + n -> m' x = m x
}.

Section accounts.
Context {F : Type} `{Files F} (kend data : Z) (Hkend : KERNBASE < kend) (Hdata : data_ok data).
Context (elf ph pname : Z) (strfuel : nat).
(** The bytes [exec] and what it calls write besides pages: locals, and the
    name of the process. *)
Context (locals : Z -> Prop) {HF : FilesSpec F locals}.
Context (Helf : forall x, elf <= x < elf + SIZEOF_ELFHDR -> locals x) (Helf32 : 0 <= elf <= 2 ^ 32 - SIZEOF_ELFHDR).
Context (Hph : forall x, ph <= x < ph + SIZEOF_PROGHDR -> locals x) (Hph32 : 0 <= ph <= 2 ^ 32 - SIZEOF_PROGHDR).
Context (Hname : forall x, pname <= x < pname + 16 -> locals x).
(** The memory and the free pages when [exec] is called. *)
Context (k0 : kmem) (free0 : list Z) (Hfree0 : free_pages kend k0 free0).
Context (Hlocals : forall p x, p ∈ free0 -> inside p x -> ~ locals x).
Notation page_ok := (page_ok kend).
Notation uspace := (uspace kend).

(** Nothing but locals and pages that were free has been written. *)
Definition outside (k : kmem) : Prop :=
  forall x, ~ locals x -> (forall p, p ∈ free0 -> ~ inside p x) -> mem k x = mem k0 x.

Lemma outside_only k k' ps : outside k -> only k k' ps -> (forall p, ps p -> p ∈ free0) -> outside k'.
Proof. intros Hk Ho Hps x Hl Hx. rewrite <- Hk by done. apply Ho. intros p Hp. by apply Hx, Hps. Qed.

Lemma outside_local k m : outside k -> (forall x, ~ locals x -> m x = mem k x) -> outside (with_mem m k).
Proof. intros Hk Hm x Hl Hx. simpl. rewrite Hm by done. by apply Hk. Qed.

(** No new page directory: the free pages are those of the start. *)
Definition at_rest (k : kmem) : Prop :=
  outside k /\ exists free, free_pages kend k free /\ forall p, p ∈ free <-> p ∈ free0.

(** A new address space of [sz] bytes and the free pages are those that were
    free at the start. *)
Definition loading (k : kmem) (free : list Z) (pgdir sz : Z) : Prop :=
  outside k /\ uspace k free pgdir sz /\ forall p, owned k free pgdir p <-> p ∈ free0.

Lemma at_rest_local k m : at_rest k -> (forall x, ~ locals x -> m x = mem k x) -> at_rest (with_mem m k).
Proof.
  intros (Ho & free & Hf & Hfr) Hm. split; [by apply outside_local|]. exists free. split; [|done].
  apply (free_pages_same kend k); [done|done|]. intros p x Hp Hx. apply Hm. eapply Hlocals; [by apply Hfr|done].
Qed.

Lemma loading_local k free pgdir sz m :
  loading k free pgdir sz -> (forall x, ~ locals x -> m x = mem k x) -> loading (with_mem m k) free pgdir sz.
Proof.
  intros (Ho & [Ha H2 H3 H4 H5] & Hown) Hm. split; [by apply outside_local|].
  destruct (aspace_meta kend k (with_mem m k) free pgdir Ha eq_refl) as (Ha' & Hpde & Hpte).
  { intros p x Hp Hx. apply Hm. eapply Hlocals; [apply Hown, Hp|done]. }
  split; [|intros p; rewrite <- Hown; by apply owned_same, place_agree].
  split; [done| | | |done]; intros n Hn Hl.
  - rewrite Hpte; [by apply H2|apply valid_upage, (page_valid n sz); lia].
  - rewrite Hpte; [by apply H3|by apply valid_upage].
  - rewrite Hpte by done. by apply H4.
Qed.

Lemma loading_frames k k' free pgdir sz : loading k free pgdir sz -> frames_only k k' pgdir -> loading k' free pgdir sz.
Proof.
  intros (Ho & Hu & Hown) Hfr. destruct (frames_only_uspace kend k k' free pgdir sz Hu Hfr) as [Hu' Hown'].
  split; [|split; [done|intros p; by rewrite Hown']]. eapply outside_only; [done|apply Hfr|].
  cbv beta. intros p (n & Hn & E). apply Hown. right. by exists (SFrame n).
Qed.

Lemma loading_owned k k' free free' pgdir sz sz' :
  loading k free pgdir sz -> only k k' (owned k free pgdir) -> uspace k' free' pgdir sz' ->
  (forall p, owned k' free' pgdir p <-> owned k free pgdir p) -> loading k' free' pgdir sz'.
Proof.
  intros (Ho & Hu & Hown) Honly Hu' Hown'. split; [|split; [done|intros p; by rewrite Hown']].
  eapply outside_only; [done..|]. intros p. apply Hown.
Qed.

Lemma loading_freevm k free pgdir sz :
  loading k free pgdir sz -> exists k', freevm kend k pgdir = Ret k' /\ at_rest k'.
Proof.
  intros (Ho & Hu & Hown). destruct (freevm_spec kend Hkend k free pgdir (us_aspace _ _ _ _ _ Hu)) as (k' & free' & E & Hf & Hfr & Honly).
  exists k'. split; [done|]. split.
  - eapply outside_only; [done..|]. intros p. apply Hown.
  - exists free'. split; [done|]. intros p. by rewrite Hfr.
Qed.

(** The free pages there are beside the new image. *)
Lemma loading_count k free pgdir sz b :
  loading k free pgdir sz -> sz <= 4096 * b -> 0 <= b -> Z.of_nat (length free0) <= Z.of_nat (length free) + 1025 + b.
Proof.
  intros (_ & [_ _ Hab _ _] & Hown) Hb Hb0.
  pose proof (owned_count k free pgdir b free0) as Hc. rewrite (Nat2Z.inj_le (length free0)) in Hc.
  rewrite !Nat2Z.inj_add, Z2Nat.id in Hc by done. apply Hc; [|apply (fp_nodup _ _ _ Hfree0)|].
  - intros n Hn Hp. destruct (Z.lt_ge_cases n b); [done|]. by rewrite Hab in Hp by (done || lia).
  - intros p Hp. by apply Hown.
Qed.

(** Pages enough for an image of [top] bytes, its tables and its directory. *)
Definition enough (top : Z) : Prop := 2 * (top / 4096) + 1030 <= Z.of_nat (length free0).

Lemma loading_grows k free pgdir sz newsz :
  loading k free pgdir sz -> 0 <= newsz < 2 ^ 32 ->
  exists k' free' r, allocuvm kend k pgdir sz newsz = Ret (k', r) /\
    loading k' free' pgdir (if r =? 0 then sz else r) /\ (r = 0 \/ r = Z.max sz newsz) /\
    (r <> 0 -> forall n, sz <= 4096 * n < r -> exists p, user_page k' pgdir n p) /\
    (forall top, enough top -> top < KERNBASE -> sz <= top -> newsz <= top -> 0 < Z.max sz newsz -> r <> 0).
Proof.
  intros Hl Hn. pose proof Hl as (_ & Hu & _).
  destruct (allocuvm_uspace kend Hkend k free pgdir sz newsz Hu Hn) as (k' & free' & r & E & Hu' & Hr & Ho & Hown & Hus & Hq).
  exists k', free', r. split_and!; [done|by eapply loading_owned|done|done|]. intros top He Htop Hs Hn' Hmax.
  pose proof (us_size _ _ _ _ _ Hu) as Hsz. pose proof (Z.div_mod (sz + 4095) 4096 ltac:(lia)). pose proof (Z.mod_pos_bound (sz + 4095) 4096 ltac:(lia)).
  pose proof (Z.div_mod (newsz - sz + 4095) 4096 ltac:(lia)). pose proof (Z.mod_pos_bound (newsz - sz + 4095) 4096 ltac:(lia)).
  pose proof (Z.div_mod top 4096 ltac:(lia)). pose proof (Z.mod_pos_bound top 4096 ltac:(lia)). unfold enough in He.
  pose proof (loading_count k free pgdir sz ((sz + 4095) / 4096) Hl ltac:(lia) ltac:(lia)).
  apply (Hq (Z.max 0 ((newsz - sz + 4095) / 4096))); lia.
Qed.

Lemma start_loading k : at_rest k ->
  exists k' r, setupkvm kend data k = Ret (k', r) /\
    ((r = 0 /\ (length free0 <= 1025)%nat /\ at_rest k') \/ (r <> 0 /\ exists free, loading k' free r 0)) /\
    (forall x, locals x -> mem k' x = mem k x).
Proof.
  intros (Ho & free & Hf & Hfr). destruct (setupkvm_spec kend data Hkend k free Hf Hdata) as (k' & r & E & Honly & Hr).
  exists k', r. split; [done|]. assert (Ho' : outside k') by (eapply outside_only; [done..|]; intros p; apply Hfr).
  split; [|intros x Hx; apply Honly; intros p Hp Hin; apply (Hlocals p x); [by apply Hfr|done|done]].
  destruct Hr as [(-> & Hlen & free' & Hf' & Hfr')|(Hin & free' & Hf' & Hown)].
  - left. split; [done|]. split.
    { etrans; [|exact Hlen]. apply submseteq_length, NoDup_submseteq; [apply (fp_nodup _ _ _ Hfree0)|]. intros p. apply Hfr. }
    split; [done|]. exists free'. split; [done|]. intros p. by rewrite Hfr'.
  - right. split.
    + pose proof (fp_ok _ _ _ Hf) as Hok. rewrite Forall_forall in Hok. pose proof (page_ok_range _ _ (Hok r Hin)). lia.
    + exists free'. split; [done|]. split; [by eapply fresh_uspace|]. intros p. by rewrite Hown.
Qed.

(** ** Loading *)

(** A segment is refused, or read into the pages it has been given. *)
Lemma load_segment_cases f k ip free pgdir sz :
  loading k free pgdir sz ->
  let vaddr := ph_vaddr ph k in let filesz := ph_filesz ph k in let memsz := ph_memsz ph k in
  let sz1 := Z.max sz (vaddr + memsz) in
  (exists k' free' sz', load_segment kend ph f k ip pgdir sz = Ret (f, k', None) /\ loading k' free' pgdir sz' /\
     forall top, enough top -> top < KERNBASE -> sz1 <= top -> 0 < sz1 -> filesz <= memsz -> vaddr mod 4096 = 0 -> False) \/
  (exists k' free',
     load_segment kend ph f k ip pgdir sz =
       (let* (f, k, r) := loaduvm_from (fun f m a o n => f_readi f m ip a o n) (alloc_fuel 0 filesz) f k' pgdir vaddr (ph_off ph k) filesz 0 in
        Ret (f, k, if r <? 0 then None else Some sz1)) /\
     loading k' free' pgdir sz1 /\ 0 <= vaddr /\ vaddr mod 4096 = 0 /\ 0 <= filesz /\ vaddr + filesz <= sz1).
Proof.
  intros Hl vaddr filesz memsz sz1. unfold load_segment. subst vaddr filesz memsz.
  pose proof (us_size _ _ _ _ _ (proj1 (proj2 Hl))) as Hsz0. pose proof (u32_range (word32 (mem k) (ph + 8))) as Hva.
  pose proof (u32_range (word32 (mem k) (ph + 20))) as Hms. pose proof (u32_range (word32 (mem k) (ph + 16))) as Hfz.
  fold (ld k (ph + 8)) (ph_vaddr ph k) in Hva. fold (ld k (ph + 20)) (ph_memsz ph k) in Hms. fold (ld k (ph + 16)) (ph_filesz ph k) in Hfz.
  pose proof (u32_range (ph_vaddr ph k + ph_memsz ph k)) as Hsum. unfold is_u32 in *.
  destruct (Z.ltb_spec (ph_memsz ph k) (ph_filesz ph k)) as [|Hfs]; [left; exists k, free, sz; split_and!; [done|done|lia]|].
  destruct (Z.ltb_spec (u32 (ph_vaddr ph k + ph_memsz ph k)) (ph_vaddr ph k)) as [Hov|Hov].
  { left. exists k, free, sz. split_and!; [done|done|]. intros top _ Ht Hs1 _ _ _. rewrite u32_small in Hov by (unfold is_u32, KERNBASE in *; lia). lia. }
  assert (Hno : u32 (ph_vaddr ph k + ph_memsz ph k) = ph_vaddr ph k + ph_memsz ph k).
  { unfold u32 in *. destruct (Z.lt_ge_cases (ph_vaddr ph k + ph_memsz ph k) (2 ^ 32)); [apply Z.mod_small; lia|].
    exfalso. rewrite <- (Z.mod_unique_pos (ph_vaddr ph k + ph_memsz ph k) (2 ^ 32) 1 (ph_vaddr ph k + ph_memsz ph k - 2 ^ 32)) in Hov; lia. }
  destruct (loading_grows k free pgdir sz _ Hl Hsum) as (k1 & free1 & r1 & -> & Hl1 & Hr1 & _ & Hroom). cbn [obind].
  destruct (Z.eqb_spec r1 0) as [Er0|Hr0].
  { left. exists k1, free1, sz. split_and!; [done|done|]. intros top He Ht Hs1 Hs0 _ _. apply (Hroom top He Ht); lia. }
  destruct Hr1 as [?|Hr1]; [done|]. destruct (Z.eqb_spec (ph_vaddr ph k mod PGSIZE) 0) as [Hal|]; cbn [negb];
    [|left; exists k1, free1, r1; split_and!; [done|done|done]]. unfold loaduvm. rewrite Hal. cbn [Z.eqb negb].
  right. exists k1, free1. rewrite Hno in Hr1. subst r1. split_and!; [done|done|lia|done|lia|lia].
Qed.

Lemma readi_frames f m ip dst off len f' m' r :
  f_readi f m ip dst off len = Ret (f', m', r) -> 0 <= off -> 0 <= dst -> 0 <= len -> dst + len <= 2 ^ 32 ->
  forall x, ~ dst <= x < dst + len -> m' x = m x.
Proof. apply readi_writes. Qed.

Lemma load_segment_accounts f k ip free pgdir sz f' k' r :
  loading k free pgdir sz -> load_segment kend ph f k ip pgdir sz = Ret (f', k', r) ->
  exists free' sz', loading k' free' pgdir sz' /\ forall s, r = Some s -> s = sz'.
Proof.
  intros Hl. destruct (load_segment_cases f k ip free pgdir sz Hl)
    as [(k1 & free1 & sz1 & -> & Hl1 & _)|(k1 & free1 & -> & Hl1 & Hva & Hal & Hfz & Hsz)].
  { intros [= <- <- <-]. by exists free1, sz1. }
  set (va := ph_vaddr ph k) in *. set (fz := ph_filesz ph k) in *. set (off := ph_off ph k) in *. set (sz1 := Z.max _ _) in *.
  destruct (loaduvm_from _ _ _ _ _ _ _ _ _) as [[[f2 k2] r2]| | |] eqn:E; try done. cbn [obind]. intros [= <- <- <-].
  exists free1, sz1. split; [|by destruct (r2 <? 0); [|intros s [= <-]]]. eapply loading_frames; [done|].
  refine (loaduvm_keeps kend _ pgdir sz1 va off fz free1 _ Hva Hsz _ _ _ _ _ _ _ (proj1 (proj2 Hl1)) _ _ E); [|done|done].
  intros ? ? ? ? ? ? ? ?. apply readi_frames.
Qed.

Lemma read_local f k ip dst off n f' m' r :
  f_readi f (mem k) ip dst off n = Ret (f', m', r) -> 0 <= off -> 0 <= n -> 0 <= dst <= 2 ^ 32 - n ->
  (forall x, dst <= x < dst + n -> locals x) -> forall x, ~ locals x -> m' x = mem k x.
Proof. intros E Ho Hn Hd Hl x Hx. eapply readi_writes; [exact E|lia..|]. intros Hin. by apply Hx, Hl. Qed.

Lemma load_program_accounts n : forall f k ip free pgdir off sz f' k' r,
  loading k free pgdir sz -> 0 <= off -> load_program kend ph n f k ip pgdir off sz = Ret (f', k', r) ->
  exists free' sz', loading k' free' pgdir sz' /\ forall s, r = Some s -> s = sz'.
Proof.
  induction n as [|n IH]; intros f k ip free pgdir off sz f' k' r Hl Ho; cbn [load_program].
  { intros [= <- <- <-]. exists free, sz. split; [done|]. by intros s [= <-]. }
  destruct (f_readi _ _ _ _ _ _) as [[[f1 m1] r1]| | |] eqn:E1; try done. cbn [obind].
  pose proof (loading_local k free pgdir sz m1 Hl (read_local _ _ _ _ _ _ _ _ _ E1 Ho ltac:(done) Hph32 Hph)) as Hl1.
  assert (0 <= u32 (off + SIZEOF_PROGHDR)) as Ho' by apply u32_range.
  destruct (negb (r1 =? SIZEOF_PROGHDR)); [intros [= <- <- <-]; by exists free, sz|].
  destruct (negb _); [by eapply IH|]. destruct (load_segment _ _ _ _ _ _ _) as [[[f2 k2] r2]| | |] eqn:E2; try done. cbn [obind].
  destruct (load_segment_accounts _ _ _ _ _ _ _ _ _ Hl1 E2) as (free2 & sz2 & Hl2 & Hr2).
  destruct r2 as [s2|]; [|intros [= <- <- <-]; by exists free2, sz2]. rewrite (Hr2 s2 eq_refl). by eapply IH.
Qed.

(** ** The stack *)

Lemma push_range sp len : 0 <= push sp len < 2 ^ 32.
Proof.
  unfold push. pose proof (u32_range (sp - (len + 1))) as Hr. unfold is_u32 in Hr. rewrite <- Z.sub_land_same_l.
  pose proof (proj2 (Z.land_nonneg (u32 (sp - (len + 1))) 3) ltac:(lia)).
  pose proof (proj2 (Z.land_nonneg (u32 (sp - (len + 1))) (Z.lnot 3)) ltac:(lia)).
  rewrite <- Z.sub_land_same_l in *. lia.
Qed.

Lemma push_args_accounts argv : forall k free pgdir sz sp ptrs k' r,
  loading k free pgdir sz -> 0 <= sp < 2 ^ 32 -> push_args strfuel k pgdir sp ptrs argv = Ret (k', r) ->
  loading k' free pgdir sz /\ forall s l, r = Some (s, l) -> 0 <= s < 2 ^ 32.
Proof.
  induction argv as [|a argv IH]; intros k free pgdir sz sp ptrs k' r Hl Hsp; cbn [push_args].
  { intros [= <- <-]. split; [done|]. by intros s l [= <- _]. }
  destruct (MAXARG <=? _); [by intros [= <- <-]|]. destruct (CString.strlen _ _ _ _) as [len|]; [|done]. cbn [of_option obind].
  destruct (copy_to _ _ _ _) as [[k1 r1]| | |] eqn:E; try done. cbn [obind].
  destruct (copyout_keeps kend _ _ _ _ _ _ _ _ _ (proj1 (proj2 Hl)) (push_range sp len) E) as [Hfr _].
  pose proof (loading_frames _ _ _ _ _ Hl Hfr) as Hl1. destruct (r1 <? 0); [by intros [= <- <-]|].
  eapply IH; [done|apply push_range].
Qed.

Lemma build_stack_accounts k free pgdir sz sp argv k' r :
  loading k free pgdir sz -> 0 <= sp < 2 ^ 32 -> build_stack strfuel k pgdir sp argv = Ret (k', r) -> loading k' free pgdir sz.
Proof.
  intros Hl Hsp. unfold build_stack. destruct (push_args _ _ _ _ _ _) as [[k1 r1]| | |] eqn:E; try done. cbn [obind].
  destruct (push_args_accounts _ _ _ _ _ _ _ _ _ Hl Hsp E) as [Hl1 _]. destruct r1 as [[s l]|]; [|by intros [= <- <-]].
  destruct (copy_to _ _ _ _) as [[k2 r2]| | |] eqn:E2; try done. cbn [obind]. intros [= <- <-].
  eapply loading_frames; [done|]. eapply (copyout_keeps kend); [apply Hl1|apply u32_range|exact E2].
Qed.

(** ** The new image *)

Context (old : Z) (Hold : aspace kend k0 free0 old) (Hold_locals : forall p x, owned k0 free0 old p -> inside p x -> ~ locals x).

Lemma old_same k free pgdir sz :
  loading k free pgdir sz ->
  aspace kend k free old /\ (forall s, valid s -> place k old s = place k0 old s).
Proof.
  intros (Ho & [Ha _ _ _ _] & Hown).
  destruct (aspace_same kend k0 k free0 free old Hold (as_free _ _ _ _ Ha)) as (Ha' & Hpde & Hpte).
  - intros p Hp. left. apply Hown. by left.
  - intros s p x Hs _ E Hx. apply Ho.
    + eapply Hold_locals; [right; by exists s|done].
    + intros q Hq Hxq. destruct (as_page _ _ _ _ Hold s p Hs E) as [Hp Hnf].
      pose proof (fp_ok _ _ _ Hfree0) as Hok. rewrite Forall_forall in Hok.
      apply (page_apart kend p q x Hp (Hok q Hq)); [by intros ->|done|done].
  - split; [done|]. by apply place_agree.
Qed.

(** Freeing the old address space leaves the new one as it is. *)
Lemma replace_image k free pgdir sz :
  loading k free pgdir sz ->
  exists k' free', freevm kend k old = Ret k' /\ uspace k' free' pgdir sz /\
    (forall p, owned k' free' pgdir p <-> owned k0 free0 old p) /\
    (forall n, upage n -> pte k' pgdir n = pte k pgdir n) /\
    (forall s p x, valid s -> place k pgdir s = Some p -> inside p x -> mem k' x = mem k x) /\
    (forall x, (forall p, owned k0 free0 old p -> ~ inside p x) -> ~ locals x -> mem k' x = mem k0 x).
Proof.
  intros Hl. destruct (old_same _ _ _ _ Hl) as [Ho Hplo]. destruct Hl as (Hout & [Ha H2 H3 H4 H5] & Hown).
  destruct (freevm_spec kend Hkend k free old Ho) as (k' & free' & E & Hf & Hfr & Honly).
  assert (Hsub : forall p, p ∈ free -> p ∈ free0) by (intros p Hp; apply Hown; by left).
  assert (Hmine : forall s p, valid s -> place k pgdir s = Some p -> p ∈ free0 /\ p ∉ free /\ page_ok p).
  { intros s p Hs Ep. destruct (as_page _ _ _ _ Ha s p Hs Ep). split_and!; [|done|done]. apply Hown. right. by exists s. }
  assert (Hnot : forall s p, valid s -> place k pgdir s = Some p -> ~ owned k free old p).
  { intros s p Hs Ep [?|(s' & Hs' & Ep')]; destruct (Hmine s p Hs Ep) as (? & ? & _); [done|].
    rewrite Hplo in Ep' by done. by destruct (as_page _ _ _ _ Hold s' p Hs' Ep'). }
  assert (Hkeep : forall s p x, valid s -> place k pgdir s = Some p -> inside p x -> mem k' x = mem k x).
  { intros s p x Hs Ep Hx. apply Honly. intros q Hq. destruct (Hmine s p Hs Ep) as (_ & _ & Hp).
    apply (page_apart kend p q x Hp); [by eapply owned_page|by intros ->; eapply Hnot|done]. }
  destruct (aspace_same kend k k' free free' pgdir Ha Hf) as (Ha' & Hpde & Hpte).
  { intros p Hp%Hfr. destruct Hp as [?|(s & Hs & Ep)]; [by left|right]. rewrite Hplo in Ep by done.
    rewrite Hown. by destruct (as_page _ _ _ _ Hold s p Hs Ep). }
  { intros s p x Hs _ Ep. by apply (Hkeep s). }
  exists k', free'. split_and!; [done| | |done|done|].
  - split; [done| | | |done]; intros n Hn Hle; rewrite Hpte.
    + by apply H2.
    + apply valid_upage, (page_valid n sz); lia.
    + by apply H3.
    + by apply valid_upage.
    + by apply H4.
    + done.
  - pose proof (place_agree _ _ _ Hpde Hpte) as Hpl. intros p. split.
    + intros [Hp%Hfr|(s & Hs & Ep)].
      * destruct Hp as [?|(s & Hs & Ep)]; [left; by apply Hsub|]. right. exists s. by rewrite <- Hplo.
      * left. rewrite Hpl in Ep by done. by apply (Hmine s).
    + intros [Hp|(s & Hs & Ep)].
      * apply Hown in Hp as [?|(s & Hs & Ep)]; [left; apply Hfr; by left|]. right. exists s. by rewrite Hpl.
      * left. apply Hfr. right. exists s. by rewrite Hplo.
  - intros x Hx Hlx. rewrite Honly.
    + apply Hout; [done|]. intros p Hp. apply Hx. by left.
    + intros p [Hp|(s & Hs & Ep)]; apply Hx; [left; by apply Hsub|]. right. exists s. by rewrite <- Hplo.
Qed.

(** ** exec *)

(** How a call ends: as it began, or with the new image and its pages in the
    place of the old one's. *)
Definition settled (k : kmem) (cur cur' : image) (r : Z) : Prop :=
  (r = -1 /\ cur' = cur /\ at_rest k) \/
  (r = 0 /\ exists free, uspace k free (Exec.pgdir cur') (sz cur') /\
     (forall p, owned k free (Exec.pgdir cur') p <-> owned k0 free0 old p) /\
     (forall x, (forall p, owned k0 free0 old p -> ~ inside p x) -> ~ locals x -> mem k x = mem k0 x)).

Lemma bad_settles f k cur pgdir ip f' k' cur' r :
  (if pgdir =? 0 then at_rest k else exists free sz, loading k free pgdir sz) ->
  bad kend f k cur pgdir ip = Ret (f', k', cur', r) -> settled k' cur cur' r.
Proof.
  intros Hk. unfold bad.
  assert (exists k1, (if pgdir =? 0 then Ret k else freevm kend k pgdir) = Ret k1 /\ at_rest k1) as (k1 & -> & Hr1).
  { destruct (pgdir =? 0); [by exists k|]. destruct Hk as (free & sz & Hl). by eapply loading_freevm. }
  cbn [obind]. destruct ip as [ip|]; [|intros [= _ <- <- <-]; by left].
  destruct (f_iunlockput f ip); try done. cbn [obind]. destruct (f_end_op _); try done. cbn [obind]. intros [= _ <- <- <-]. by left.
Qed.

Lemma loading_dir k free pgdir sz : loading k free pgdir sz -> pgdir <> 0.
Proof.
  intros (_ & Hu & _). destruct (as_dir _ _ _ _ (us_aspace _ _ _ _ _ Hu)) as [Hp _]. pose proof (page_ok_range _ _ Hp). lia.
Qed.

Lemma bad_loading f k cur free pgdir sz ip f' k' cur' r :
  loading k free pgdir sz -> bad kend f k cur pgdir ip = Ret (f', k', cur', r) -> settled k' cur cur' r.
Proof.
  intros Hl. apply bad_settles. rewrite (proj2 (Z.eqb_neq _ 0)) by by eapply loading_dir. by exists free, sz.
Qed.

(** The two pages above the program. *)
Lemma stack_pages k free pgdir sz :
  loading k free pgdir sz -> let top := PGROUNDUP sz + 2 * PGSIZE in
  exists k1 free1 r, allocuvm kend k pgdir (PGROUNDUP sz) (u32 top) = Ret (k1, r) /\
    ((r = 0 /\ (exists sz1, loading k1 free1 pgdir sz1) /\ (top < KERNBASE -> ~ enough top)) \/
     (r = top /\ loading k1 free1 pgdir top /\ top mod 4096 = 0 /\ 8192 <= top < KERNBASE /\
      exists p, user_page k1 pgdir (top / 4096 - 1) p)).
Proof.
  intros Hl top. pose proof Hl as (_ & Hu & _). pose proof (us_size _ _ _ _ _ Hu) as Hs.
  destruct (PGROUNDUP_spec sz) as [Hup Hal]; [lia|unfold PGSIZE, KERNBASE in *; lia|].
  unfold PGSIZE in Hup, Hal, top. assert (Htop : u32 top = top) by (apply u32_small; unfold is_u32, top, KERNBASE in *; lia).
  rewrite Htop. destruct (Z.le_gt_cases KERNBASE (PGROUNDUP sz)) as [Hbig|Hsmall].
  { unfold allocuvm. rewrite (proj2 (Z.leb_le KERNBASE top)) by (unfold top; lia). exists k, free, 0. split; [done|]. left.
    split_and!; [done|by exists sz|unfold top; lia]. }
  assert (Hl' : loading k free pgdir (PGROUNDUP sz)).
  { destruct Hl as (Ho & [Ha H2 H3 H4 H5] & Hown). split_and!; [done| |done].
    pose proof (Z.div_mod (PGROUNDUP sz) 4096 ltac:(lia)). split; [done| | |done|lia].
    - intros n Hn Hlt. apply H2; [done|]. lia.
    - intros n Hn Hle. apply H3; [done|lia]. }
  destruct (loading_grows k free pgdir (PGROUNDUP sz) top Hl') as (k1 & free1 & r & E & Hl1 & Hr & Hus & Hroom); [unfold top, KERNBASE in *; lia|].
  exists k1, free1, r. split; [done|]. destruct (Z.eqb_spec r 0) as [->|Hr0].
  - left. split_and!; [done|by exists (PGROUNDUP sz)|]. intros Ht He. apply (Hroom top He Ht); unfold top; lia.
  - right. destruct Hr as [?|Hr]; [done|]. rewrite Z.max_r in Hr by (unfold top; lia). subst r.
    assert (Htal : top mod 4096 = 0) by (unfold top; rewrite Zplus_mod, Hal; done).
    split_and!; [done|done|done|unfold top; lia|by apply (us_size _ _ _ _ _ (proj1 (proj2 Hl1)))|].
    apply Hus; [done|]. pose proof (Z.div_mod top 4096 ltac:(lia)). unfold top in *. lia.
Qed.

(** The lower of the two is taken from the user program. *)
Lemma guard_page k free pgdir top :
  loading k free pgdir top -> top mod 4096 = 0 -> 8192 <= top < KERNBASE ->
  exists k1, clearpteu k pgdir (u32 (top - 2 * PGSIZE)) = Ret k1 /\ loading k1 free pgdir top /\
    forall m, upage m -> m <> top / 4096 - 2 -> pte k1 pgdir m = pte k pgdir m.
Proof.
  intros Hl Hal Ht. pose proof Hl as (_ & Hu & _). pose proof (Z.div_mod top 4096 ltac:(lia)) as Hd. rewrite Hal in Hd.
  destruct (clearpteu_spec kend k free pgdir top (top / 4096 - 2) Hu) as (k1 & E & Hu1 & _ & Hpte & Ho & Hpl); [lia|lia|].
  exists k1. replace (u32 (top - 2 * PGSIZE)) with (4096 * (top / 4096 - 2)).
  2: { unfold PGSIZE. rewrite u32_small; [lia|unfold is_u32, KERNBASE in *; lia]. }
  split_and!; [done| |done]. eapply loading_owned; [done| |done|].
  - eapply only_weaken; [exact Ho|apply metapage_owned].
  - intros p. by apply owned_same.
Qed.

Lemma start_settles f k cur path argv free pgdir sz0 f' k' cur' r :
  loading k free pgdir sz0 -> Exec.pgdir cur = old ->
  start kend elf pname strfuel f k cur path argv pgdir sz0 = Ret (f', k', cur', r) -> settled k' cur cur' r.
Proof.
  intros Hl Hcur. unfold start. destruct (stack_pages k free pgdir sz0 Hl) as (k1 & free1 & r1 & -> & Hr1). cbn [obind].
  destruct Hr1 as [(-> & (sz1 & Hl1) & _)|(-> & Hl1 & Hal & Htop & _)]; [cbn [Z.eqb]; by eapply bad_loading|].
  set (top := PGROUNDUP sz0 + 2 * PGSIZE) in *. rewrite (proj2 (Z.eqb_neq top 0)) by lia.
  destruct (guard_page k1 free1 pgdir top Hl1 Hal Htop) as (k2 & -> & Hl2 & _). cbn [obind].
  destruct (build_stack _ _ _ _ _) as [[k3 r3]| | |] eqn:E3; try done. cbn [obind].
  assert (0 <= top < 2 ^ 32) as H32 by (unfold KERNBASE in *; lia).
  pose proof (build_stack_accounts _ _ _ _ _ _ _ _ Hl2 H32 E3) as Hl3.
  destruct r3 as [sp|]; [|by eapply bad_loading]. destruct (last_elem _ _ _ _) as [last|]; [|done]. cbn [of_option obind].
  set (m4 := CString.safestrcpy _ _ _ _).
  assert (Hl4 : loading (with_mem m4 k3) free1 pgdir top).
  { apply loading_local; [done|]. intros x Hx. apply CString.safestrcpy_out; [lia|]. intros Hin. by apply Hx, Hname. }
  rewrite Hcur. destruct (replace_image _ _ _ _ Hl4) as (k5 & free5 & -> & Hu5 & Hown5 & _ & _ & Hmem5). cbn [obind].
  intros [= _ <- <- <-]. right. split; [done|]. by exists free5.
Qed.

Lemma exec_settles f cur path argv f' k' cur' r :
  Exec.pgdir cur = old -> exec kend data elf ph pname strfuel f k0 cur path argv = Ret (f', k', cur', r) -> settled k' cur cur' r.
Proof.
  intros Hcur. unfold exec. destruct (f_begin_op f) as [f1| | |]; try done. cbn [obind].
  destruct (f_namei f1 (mem k0) path) as [[[f2 m2] r2]| | |] eqn:E2; try done. cbn [obind].
  assert (H0 : at_rest k0) by (split; [done|by exists free0]).
  pose proof (at_rest_local _ _ H0 (namei_writes _ _ _ _ _ _ E2)) as H2. set (k2 := with_mem m2 k0) in *. clearbody k2.
  destruct r2 as [ip|]; [|destruct (f_end_op f2); try done; cbn [obind]; intros [= _ <- <- <-]; by left].
  destruct (f_ilock f2 ip) as [f3| | |]; try done. cbn [obind].
  destruct (f_readi _ _ _ _ _ _) as [[[f4 m4] r4]| | |] eqn:E4; try done. cbn [obind].
  pose proof (at_rest_local _ _ H2 (read_local _ _ _ _ _ _ _ _ _ E4 ltac:(done) ltac:(done) Helf32 Helf)) as H4.
  set (k4 := with_mem m4 k2) in *. clearbody k4.
  destruct (negb (r4 =? SIZEOF_ELFHDR)); [by apply bad_settles|]. destruct (negb _); [by apply bad_settles|].
  destruct (start_loading k4 H4) as (k5 & pgdir & -> & H5 & _). cbn [obind].
  destruct H5 as [(-> & _ & H5)|(Hp0 & free5 & Hl5)]; [by apply bad_settles|]. rewrite (proj2 (Z.eqb_neq _ _) Hp0).
  destruct (load_program _ _ _ _ _ _ _ _) as [[[f6 k6] r6]| | |] eqn:E6; try done. cbn [obind].
  destruct (load_program_accounts _ _ _ _ _ _ _ _ _ _ _ Hl5 (proj1 (u32_range _)) E6) as (free6 & sz6 & Hl6 & Hr6).
  destruct r6 as [sz|]; [|by eapply bad_loading]. rewrite (Hr6 sz eq_refl).
  destruct (f_iunlockput f6 ip) as [f7| | |]; try done. cbn [obind]. destruct (f_end_op f7) as [f8| | |]; try done. cbn [obind].
  by eapply start_settles.
Qed.

End accounts.
(** Where [exec] is called: the locals of the call and the name of the process
    lie in no page that is free or belongs to the process. *)
Record setting (kend data elf ph pname : Z) (locals : Z -> Prop) (k0 : kmem) (free0 : list Z) (old : Z) : Prop := {
  set_kend : KERNBASE < kend;
  set_data : data_ok data;
  set_elf : (forall x, elf <= x < elf + SIZEOF_ELFHDR -> locals x) /\ 0 <= elf <= 2 ^ 32 - SIZEOF_ELFHDR;
  set_ph : (forall x, ph <= x < ph + SIZEOF_PROGHDR -> locals x) /\ 0 <= ph <= 2 ^ 32 - SIZEOF_PROGHDR;
  set_name : forall x, pname <= x < pname + 16 -> locals x;
  set_free : free_pages kend k0 free0;
  set_old : aspace kend k0 free0 old;
  set_locals : forall p x, owned k0 free0 old p -> inside p x -> ~ locals x
}.

Lemma set_free_locals kend data elf ph pname locals k0 free0 old :
  setting kend data elf ph pname locals k0 free0 old -> forall p x, p ∈ free0 -> inside p x -> ~ locals x.
Proof. intros Hs p x Hp. apply (set_locals _ _ _ _ _ _ _ _ _ Hs). by left. Qed.

End ExecThms.
