(* ===== verification/ExecArgs.v ===== *)
(** * exec: the new program

    What [exec] leaves when it returns: every page accounted for, and in the
    top page of the new image what the calling convention asks for, a return
    address, [argc], [argv], the pointers and the strings they point to.  It
    succeeds on an ELF file ([image_size] says which bytes are one, and how much
    memory they ask for) that the file system lets it read, when enough pages
    are free. *)

From S2P Require Import Prelude DfsImage Kalloc Vm VmSpec VmThms VmLife CString Fs Exec ExecThms.
Import Kalloc Vm VmSpec VmThms VmLife Exec ExecThms.
Local Open Scope Z_scope.
Local Open Scope xv6_scope.

Module ExecArgs.

(** ** What the program sees *)

(** Memory through the entries of [pgdir], and the addresses a user program
    may use. *)
Definition user_mem (k : kmem) (pgdir : Z) : bytes :=
  fun va => mem k (pgtab_of (pte k pgdir (va / 4096)) + va mod 4096).
Definition usable (k : kmem) (pgdir va : Z) : Prop := exists p, user_page k pgdir (va / 4096) p.

Definition str_at (m : bytes) (a : Z) (s : list Z) : Prop :=
  forall i c, (s ++ [0]) !! i = Some c -> m (a + Z.of_nat i) = c.

(** [main(argc, argv)] called with [strs]: the words from [sp] on, and the
    strings below [top]. *)
Definition program_stack (m : bytes) (sp top : Z) (strs : list (list Z)) : Prop :=
  let word a := u32 (word32 m a) in
  let argv := sp + 12 in
  argv + 4 * (Z.of_nat (length strs) + 1) <= top /\
  word sp = 2 ^ 32 - 1 /\ word (sp + 4) = Z.of_nat (length strs) /\ word (sp + 8) = argv /\
  (forall i s, strs !! i = Some s ->
     let p := word (argv + 4 * Z.of_nat i) in sp <= p /\ p + Z.of_nat (length s) < top /\ str_at m p s) /\
  word (argv + 4 * Z.of_nat (length strs)) = 0.

Lemma word_same m m' sp top a :
  (forall x, sp <= x < top -> m' x = m x) -> sp <= a -> a + 4 <= top -> word32 m' a = word32 m a.
Proof. intros Hm Ha Ha'. apply word32_ext. intros j Hj. apply Hm. lia. Qed.

Lemma program_stack_same m m' sp top strs :
  (forall x, sp <= x < top -> m' x = m x) -> program_stack m sp top strs -> program_stack m' sp top strs.
Proof.
  intros Hm (Ht & H1 & H2 & H3 & H4 & H5). unfold program_stack.
  rewrite !(word_same m m' sp top) by (done || lia). split_and!; [done..| |done].
  intros i s Hi. pose proof (lookup_lt_Some _ _ _ Hi). rewrite (word_same m m' sp top) by (done || lia).
  destruct (H4 i s Hi) as (Hp & Hp' & Hs). split_and!; [done|done|]. intros j c Hj.
  pose proof (lookup_lt_Some _ _ _ Hj) as Hlt. rewrite length_app in Hlt. simpl in Hlt. rewrite Hm by lia. by apply Hs.
Qed.

(** The room the strings take, each on a word boundary, and all there is. *)
Definition room (s : list Z) : Z := (Z.of_nat (length s) + 4) / 4 * 4.
Definition strings_room (strs : list (list Z)) : Z := foldr (fun s n => room s + n) 0 strs.
Definition fits (strs : list (list Z)) : bool :=
  (Z.of_nat (length strs) <=? MAXARG) && (strings_room strs + 4 * (Z.of_nat (length strs) + 4) <=? PGSIZE).

Lemma strings_room_nonneg strs : 0 <= strings_room strs.
Proof. induction strs as [|s strs IH]; simpl; [lia|]. unfold room. pose proof (Z.div_pos (Z.of_nat (length s) + 4) 4). lia. Qed.

Lemma room_spec s : Z.of_nat (length s) + 1 <= room s <= Z.of_nat (length s) + 4 /\ room s mod 4 = 0.
Proof. unfold room. rewrite Z.mod_mul by lia. pose proof (Z.div_mod (Z.of_nat (length s) + 4) 4 ltac:(lia)).
  pose proof (Z.mod_pos_bound (Z.of_nat (length s) + 4) 4 ltac:(lia)). lia. Qed.

Lemma push_room sp s : sp mod 4 = 0 -> room s <= sp < 2 ^ 32 -> push sp (Z.of_nat (length s)) = sp - room s.
Proof.
  intros Hal Hsp. pose proof (room_spec s) as [Hr _]. unfold push. rewrite u32_small by (unfold is_u32; lia).
  rewrite <- Z.sub_land_same_l. change 3 with (Z.ones 2). rewrite Z.land_ones by lia. change (2 ^ 2) with 4.
  unfold room. Z.div_mod_to_equations. lia.
Qed.

Lemma strlen_at fuel m a s n :
  Forall (fun c => 0 < c < 256) s -> str_at m (a + n) s -> (length s < fuel)%nat ->
  CString.strlen fuel m a n = Some (n + Z.of_nat (length s)).
Proof.
  revert s n. induction fuel as [|fuel IH]; intros s n Hs Hm Hf; [lia|]. cbn [CString.strlen].
  destruct s as [|c s].
  - pose proof (Hm 0%nat 0 eq_refl) as H0. rewrite Z.add_0_r in H0. rewrite H0. cbn. f_equal. lia.
  - pose proof (Hm 0%nat c eq_refl) as H0. rewrite Z.add_0_r in H0. apply Forall_cons in Hs as [Hc Hs].
    rewrite H0, (proj2 (Z.eqb_neq c 0)) by lia. rewrite (IH s (n + 1)); [|done| |simpl in Hf; lia].
    + f_equal. simpl. lia.
    + intros i x Hi. rewrite <- (Hm (S i) x Hi). f_equal. lia.
Qed.

Lemma bytes_at_lookup m a n i : (i < n)%nat -> bytes_at m a (Z.of_nat n) !! i = Some (m (a + Z.of_nat i)).
Proof.
  intros Hi. unfold bytes_at. rewrite list_lookup_fmap, lookup_seqZ_lt by lia. done.
Qed.

Lemma bytes_at_length m a n : length (bytes_at m a (Z.of_nat n)) = n.
Proof. unfold bytes_at. rewrite length_fmap, length_seqZ. lia. Qed.

Lemma bytes_at_str m a s : str_at m a s -> bytes_at m a (Z.of_nat (length s) + 1) = s ++ [0].
Proof.
  intros Hm. replace (Z.of_nat (length s) + 1) with (Z.of_nat (length (s ++ [0]))) by (rewrite length_app; simpl; lia).
  apply list_eq_same_length with (n := length (s ++ [0])); [done|apply bytes_at_length|].
  intros i x y Hi. rewrite bytes_at_lookup by done. intros [= <-] Hy. by apply Hm.
Qed.

(** ** Words *)

Lemma word_bytes_lookup ws i j w : ws !! i = Some w -> (j < 4)%nat ->
  (ws ≫= word_bytes) !! (4 * i + j)%nat = Some (u8 (u32 w / 2 ^ (8 * Z.of_nat j))).
Proof.
  revert i. induction ws as [|v ws IH]; intros i Hi Hj; [done|]. cbn [mbind list_bind].
  destruct i as [|i].
  - injection Hi as ->. rewrite lookup_app_l by (simpl; lia). by destruct j as [|[|[|[|]]]]; [..|lia].
  - rewrite lookup_app_r by (simpl; lia). replace (4 * S i + j - length (word_bytes v))%nat with (4 * i + j)%nat by (simpl; lia).
    by apply IH.
Qed.

Lemma word_bytes_length ws : length (ws ≫= word_bytes) = (4 * length ws)%nat.
Proof. induction ws as [|v ws IH]; [done|]. cbn [mbind list_bind]. rewrite length_app. cbn in IH |- *. rewrite IH. lia. Qed.

Lemma word_at_bytes m a w : is_u32 w -> (forall j, (j < 4)%nat -> m (a + Z.of_nat j) = u8 (u32 w / 2 ^ (8 * Z.of_nat j))) ->
  u32 (word32 m a) = w.
Proof.
  intros Hw Hm. rewrite (word32_ext m (put32 m a w) a).
  - rewrite word32_put32_eq, u32_s32. by apply u32_small.
  - intros j Hj. rewrite put32_in by done. rewrite <- (Z2Nat.id j) by lia. apply Hm. lia.
Qed.

(** ** Pushing onto one page *)

Section page.
Context (kend : Z) (Hkend : KERNBASE < kend).
Context (strfuel : nat) (pgdir top_sz : Z) (free : list Z).
Notation uspace := (uspace kend).

(** A string of the calling process. *)
Record arg_ok (m : bytes) (a : Z) (s : list Z) : Prop := {
  arg_low : 0 <= a /\ a + Z.of_nat (length s) < KERNBASE;
  arg_chars : Forall (fun c => 0 < c < 256) s;
  arg_fuel : (length s < strfuel)%nat;
  arg_str : str_at m a s
}.

Lemma arg_ok_same m m' a s : arg_ok m a s -> (forall x, x < KERNBASE -> m' x = m x) -> arg_ok m' a s.
Proof.
  intros [Hl Hc Hf Hs] Hm. split; [done..|]. intros i c Hi. rewrite Hm; [by apply Hs|].
  apply lookup_lt_Some in Hi. rewrite length_app in Hi. simpl in Hi. lia.
Qed.

Lemma user_page_frames k k' n p :
  uspace k free pgdir top_sz -> frames_only k k' pgdir -> user_page k pgdir n p -> user_page k' pgdir n p.
Proof.
  intros Hu Hf (Hv & E & Hp). destruct (frames_only_spec kend k k' free pgdir (us_aspace _ _ _ _ _ Hu) Hf) as (_ & Hpte & Hpl).
  split; [done|]. rewrite Hpl by done. rewrite Hpte by by apply valid_upage. done.
Qed.

(** Page [n], at [P], seen from the program. *)
Context (n P : Z).
Definition seen (k : kmem) : bytes := fun va => mem k (P + (va - 4096 * n)).
(** Only the bytes from [lo] to [hi] of the page have been written. *)
Definition wrote (k k' : kmem) (lo hi : Z) : Prop :=
  frames_only k k' pgdir /\ forall x, ~ P + (lo - 4096 * n) <= x < P + (hi - 4096 * n) -> mem k' x = mem k x.

Lemma wrote_refl k lo hi : wrote k k lo hi.
Proof. done. Qed.

Lemma wrote_trans k k1 k' lo mid hi :
  uspace k free pgdir top_sz -> lo <= mid <= hi -> wrote k k1 mid hi -> wrote k1 k' lo mid -> wrote k k' lo hi.
Proof.
  intros Hu Hm [H1 H1'] [H2 H2']. split; [eapply frames_only_trans; [apply Hu|done|done]|].
  intros x Hx. rewrite H2' by lia. apply H1'. lia.
Qed.

Lemma wrote_seen k k' lo hi va : wrote k k' lo hi -> ~ lo <= va < hi -> seen k' va = seen k va.
Proof. intros [_ Hm] Hva. unfold seen. apply Hm. lia. Qed.

Lemma wrote_low k k' lo hi x :
  uspace k free pgdir top_sz -> user_page k pgdir n P -> 4096 * n <= lo -> wrote k k' lo hi -> x < KERNBASE -> mem k' x = mem k x.
Proof.
  intros Hu Hp Hlo [_ Hm] Hx. apply Hm. destruct (user_page_ok kend _ _ _ _ _ (us_aspace _ _ _ _ _ Hu) Hp) as (_ & ? & _). lia.
Qed.

Lemma copy_in_page k va l :
  uspace k free pgdir top_sz -> user_page k pgdir n P -> 4096 * n <= va -> va + Z.of_nat (length l) <= 4096 * n + PGSIZE ->
  exists k', copy_to k pgdir va l = Ret (k', 0) /\ wrote k k' va (va + Z.of_nat (length l)) /\
    forall i c, l !! i = Some c -> seen k' (va + Z.of_nat i) = u8 c.
Proof.
  intros Hu Hp Hlo Hhi. unfold copy_to.
  destruct (copyout_page kend k free pgdir top_sz n P va l (length l) Hu Hp Hlo Hhi) as (k' & E & Hf & Hm).
  exists k'. split; [done|]. split; [split; [done|]; intros x Hx; rewrite Hm, decide_False; [done|lia]|].
  intros i c Hi. pose proof (lookup_lt_Some _ _ _ Hi). unfold seen. rewrite Hm, decide_True by lia.
  replace (Z.to_nat _) with i by lia. by rewrite Hi.
Qed.

Lemma seen_str k k' p s lo : str_at (seen k) p s -> wrote k k' lo p -> str_at (seen k') p s.
Proof.
  intros Hs Hw i c Hi. rewrite (wrote_seen _ _ _ _ _ Hw) by lia. by apply Hs.
Qed.

Lemma push_args_page argv strs : forall k sp ptrs,
  uspace k free pgdir top_sz -> user_page k pgdir n P -> Forall2 (arg_ok (mem k)) argv strs ->
  sp mod 4 = 0 -> 0 <= 4096 * n -> 4096 * n <= sp - strings_room strs -> sp <= 4096 * n + PGSIZE -> sp < 2 ^ 32 ->
  Z.of_nat (length ptrs + length strs) <= MAXARG ->
  let sp' := sp - strings_room strs in
  exists k' ptrs', push_args strfuel k pgdir sp ptrs argv = Ret (k', Some (sp', ptrs ++ ptrs')) /\
    sp' mod 4 = 0 /\ wrote k k' sp' sp /\
      Forall2 (fun p s => sp' <= p /\ p + Z.of_nat (length s) < sp /\ str_at (seen k') p s) ptrs' strs.
Proof.
  intros k sp ptrs Hu Hp Hargs. revert k sp ptrs Hu Hp Hargs.
  induction argv as [|a argv IH] in strs |- *; intros k sp ptrs Hu Hp Hargs Hal H0 Hlo Hhi H32 Hn sp';
    inversion Hargs as [|? s ? strs' Ha Hargs']; subst; cbn [push_args].
  { exists k, []. rewrite app_nil_r. unfold sp'. simpl. rewrite Z.sub_0_r. split_and!; try done. }
  rewrite (proj2 (Z.leb_gt _ _)) by (simpl in Hn; lia). destruct Ha as [[Ha0 Ha1] Hc Hf Hs].
  rewrite (strlen_at strfuel (mem k) a s 0 Hc); [|by rewrite Z.add_0_r|done]. cbn [of_option obind].
  rewrite Z.add_0_l. cbn [strings_room foldr] in *. fold (strings_room strs') in *.
  pose proof (strings_room_nonneg strs') as Hnn. pose proof (room_spec s) as [Hr Hr4].
  rewrite push_room by lia. set (sp1 := sp - room s) in *. rewrite (bytes_at_str _ _ _ Hs).
  assert (Hls : Z.of_nat (length (s ++ [0])) = Z.of_nat (length s) + 1) by (rewrite length_app; simpl; lia).
  destruct (copy_in_page k sp1 (s ++ [0]) Hu Hp) as (k1 & -> & Hw1 & Hs1); [unfold sp1; lia|rewrite Hls; unfold sp1; lia|].
  cbn [obind Z.ltb Z.compare].
  assert (Hw1' : wrote k k1 sp1 sp).
  { destruct Hw1 as [Hf1 Hm1]. split; [done|]. intros x Hx. apply Hm1. rewrite Hls. unfold sp1 in *. lia. }
  destruct (frames_only_uspace kend k k1 free pgdir top_sz Hu (proj1 Hw1)) as [Hu1 _].
  destruct (IH strs' k1 sp1 (ptrs ++ [sp1])) as (k' & ptrs' & -> & Hal' & Hw' & Hp'); [done|by eapply user_page_frames; [|apply Hw1|]| |..].
  { eapply Forall2_impl; [exact Hargs'|]. intros x y Hxy. eapply arg_ok_same; [done|]. intros z Hz.
    eapply (wrote_low k k1 sp1 sp); [done|done|unfold sp1; lia|done|done]. }
  { unfold sp1. rewrite Zminus_mod, Hal, Hr4. done. }
  { done. }
  { unfold sp1. lia. }
  { unfold sp1. lia. }
  { unfold sp1. lia. }
  { rewrite length_app. simpl in *. lia. }
  replace (sp1 - strings_room strs') with sp' in * by (unfold sp1, sp'; lia).
  exists k', (sp1 :: ptrs'). rewrite <- app_assoc. split_and!; [done|done| |].
  - eapply wrote_trans; [done| |done|done]. unfold sp1, sp'. lia.
  - constructor; [|eapply Forall2_impl; [exact Hp'|]; intros p' s' (? & ? & ?); split_and!; [done|unfold sp1 in *; lia|done]].
    split_and!; [unfold sp1, sp'; lia|unfold sp1; lia|]. eapply seen_str; [|exact Hw']. intros i c Hi. rewrite (Hs1 i c Hi).
    apply u8_small. apply lookup_app_Some in Hi as [Hi|[_ Hi]].
    + assert (0 < c < 256) by exact (Forall_lookup_1 _ _ _ _ Hc Hi). unfold is_u8. lia.
    + apply list_lookup_singleton_Some in Hi as [_ <-]. done.
Qed.

Lemma ustack_lookup sp ptrs :
  let ws := ustack sp ptrs in
  length ws = (length ptrs + 4)%nat /\ ws !! 0%nat = Some (2 ^ 32 - 1) /\ ws !! 1%nat = Some (Z.of_nat (length ptrs)) /\
  ws !! 2%nat = Some (u32 (sp - (Z.of_nat (length ptrs) + 1) * 4)) /\
  (forall i p, ptrs !! i = Some p -> ws !! (3 + i)%nat = Some p) /\ ws !! (3 + length ptrs)%nat = Some 0.
Proof.
  unfold ustack. cbn zeta. split_and!; [rewrite !length_app; simpl; lia|done..| |].
  - intros i p Hi. simpl. by apply lookup_app_l_Some.
  - simpl. by apply list_lookup_middle.
Qed.

Lemma build_stack_page argv strs k :
  uspace k free pgdir top_sz -> user_page k pgdir n P -> Forall2 (arg_ok (mem k)) argv strs -> fits strs = true ->
  let top := 4096 * n + PGSIZE in 0 <= n -> top < 2 ^ 32 ->
  exists k' sp, build_stack strfuel k pgdir top argv = Ret (k', Some sp) /\ frames_only k k' pgdir /\
    4096 * n <= sp /\ program_stack (seen k') sp top strs.
Proof.
  intros Hu Hp Hargs Hfit top Hn Ht. apply andb_true_iff in Hfit as [Hmax Hroom]. apply Z.leb_le in Hmax, Hroom.
  pose proof (strings_room_nonneg strs) as Hnn. unfold build_stack. unfold PGSIZE in *.
  assert (Htop4 : top mod 4 = 0) by (unfold top; Z.div_mod_to_equations; lia).
  destruct (push_args_page argv strs k top [] Hu Hp Hargs Htop4) as (k1 & ptrs & -> & Hal & Hw1 & Hptrs); [lia|unfold top; lia|done|done|done|].
  cbn [obind app]. set (sp1 := top - strings_room strs) in *. pose proof (Forall2_length _ _ _ Hptrs) as Hlen.
  destruct (ustack_lookup sp1 ptrs) as (Hl & Hw_0 & Hw_1 & Hw_2 & Hw_p & Hw_n). rewrite Hlen in Hl, Hw_1, Hw_2, Hw_n.
  set (ws := ustack sp1 ptrs) in *. clearbody ws. set (N := Z.of_nat (length strs)) in *.
  assert (Hsp2 : u32 (sp1 - 4 * Z.of_nat (length ws)) = sp1 - 4 * (N + 4)).
  { replace (4 * Z.of_nat (length ws)) with (4 * (N + 4)) by lia. apply u32_small. unfold is_u32, sp1, top in *. lia. }
  rewrite Hsp2. set (sp2 := sp1 - 4 * (N + 4)) in *.
  assert (Hlo : 4096 * n <= sp2) by (unfold sp2, sp1, top; lia).
  destruct (frames_only_uspace kend k k1 free pgdir top_sz Hu (proj1 Hw1)) as [Hu1 _].
  assert (Hp1 : user_page k1 pgdir n P) by (apply (user_page_frames k k1); [done|apply Hw1|done]).
  assert (Hlb : sp2 + Z.of_nat (length (ws ≫= word_bytes)) = sp1) by (rewrite word_bytes_length; unfold sp2; lia).
  destruct (copy_in_page k1 sp2 (ws ≫= word_bytes) Hu1 Hp1 Hlo) as (k2 & -> & Hw2 & Hs2); [rewrite Hlb; unfold sp1, top, PGSIZE; lia|].
  rewrite Hlb in Hw2. cbn [obind Z.ltb Z.compare]. exists k2, sp2. split; [done|].
  split; [apply (wrote_trans k k1 k2 sp2 sp1 top); [done|unfold sp2, sp1; lia|done|done]|]. split; [done|].
  assert (Hword : forall i w a, ws !! i = Some w -> is_u32 w -> a = sp2 + 4 * Z.of_nat i -> u32 (word32 (seen k2) a) = w).
  { intros i w a Hi Hw ->. apply word_at_bytes; [done|]. intros j Hj. pose proof (word_bytes_lookup ws i j w Hi Hj) as Hb.
    specialize (Hs2 _ _ Hb). replace (sp2 + 4 * Z.of_nat i + Z.of_nat j) with (sp2 + Z.of_nat (4 * i + j)) by lia.
    rewrite Hs2. apply u8_small, u8_range. }
  assert (HN : MAXARG = 32) by done.
  assert (Hargv : u32 (sp1 - (N + 1) * 4) = sp2 + 12).
  { replace (sp1 - (N + 1) * 4) with (sp2 + 12) by (unfold sp2; lia). apply u32_small. unfold is_u32, sp2, sp1, top in *. lia. }
  rewrite Hargv in Hw_2. unfold program_stack. fold N. split_and!.
  - unfold sp2, sp1, top. lia.
  - apply (Hword 0%nat); [done|unfold is_u32; lia|lia].
  - apply (Hword 1%nat); [done|unfold is_u32; lia|lia].
  - apply (Hword 2%nat); [done|unfold is_u32, sp2, sp1, top in *; lia|lia].
  - intros i s Hi. destruct (Forall2_lookup_r _ _ _ i s Hptrs Hi) as (p & Hpi & Hge & Hlt & Hs).
    assert (Hwp : u32 (word32 (seen k2) (sp2 + 12 + 4 * Z.of_nat i)) = p).
    { apply (Hword (3 + i)%nat); [by apply Hw_p|unfold is_u32, sp1, top in *; lia|lia]. }
    rewrite Hwp. split_and!; [unfold sp2; lia|done|]. intros j c Hj. rewrite (wrote_seen k1 k2 sp2 sp1 _ Hw2) by lia. by apply Hs.
  - apply (Hword (3 + length strs)%nat); [done|done|lia].
Qed.

End page.
(** ** exec returns *)

(** The bytes of a file and its words. *)
Definition file_mem (file : list Z) : bytes := fun x => default 0 (getZ file x).
Definition file_word (file : list Z) (off : Z) : Z := u32 (word32 (file_mem file) off).

(** The end of the image the program headers describe, [n] of them from [off]
    on, when every segment lies in the file and in user memory. *)
Fixpoint image_end (file : list Z) (n : nat) (off sz : Z) : option Z :=
  match n with
  | O => Some sz
  | S n =>
      if Z.of_nat (length file) <? off + SIZEOF_PROGHDR then None
      else if negb (file_word file off =? ELF_PROG_LOAD) then image_end file n (u32 (off + SIZEOF_PROGHDR)) sz
      else
        let offset := file_word file (off + 4) in let vaddr := file_word file (off + 8) in
        let filesz := file_word file (off + 16) in let memsz := file_word file (off + 20) in
        let sz := Z.max sz (vaddr + memsz) in
        if (memsz <? filesz) || negb (vaddr mod PGSIZE =? 0) || (sz =? 0) || (KERNBASE <=? sz) ||
           (Z.of_nat (length file) <? offset + filesz) then None
        else image_end file n (u32 (off + SIZEOF_PROGHDR)) sz
  end.

Definition image_size (file : list Z) : option Z :=
  if (Z.of_nat (length file) <? SIZEOF_ELFHDR) || negb (file_word file 0 =? ELF_MAGIC) then None
  else image_end file (Z.to_nat (Fs.word16 (file_mem file) 44)) (file_word file 28) 0.

Lemma image_end_ge file n : forall off sz sz', image_end file n off sz = Some sz' -> sz <= sz' /\ (sz < KERNBASE -> sz' < KERNBASE).
Proof.
  induction n as [|n IH]; intros off sz sz'; cbn [image_end]; [intros [= <-]; lia|].
  destruct (_ <? _); [done|]. destruct (negb _); [by apply IH|]. cbn zeta. destruct (_ || _) eqn:Eb; [done|]. intros E%IH. rewrite !orb_false_iff, Z.leb_gt in Eb. lia.
Qed.

(** The file [ip] of [file]'s bytes, locked, in the states [held]: it can be
    read, what lies in it comes out, and it can be let go. *)
Record readable {F} `{Files F} (held : F -> Prop) (ip : nat) (file : list Z) : Prop := {
  rd_readi f m dst off n :
    held f -> 0 <= dst -> is_u32 off -> is_u32 n -> dst + n <= 2 ^ 32 ->
    exists f' m' r, f_readi f m ip dst off n = Ret (f', m', r) /\ held f' /\
      (off + n <= Z.of_nat (length file) -> r = n /\ forall j, 0 <= j < n -> m' (dst + j) = file_mem file (off + j));
  rd_close f : held f -> exists f1 f2, f_iunlockput f ip = Ret f1 /\ f_end_op f1 = Ret f2
}.

(** [path] names the file [ip], which can be locked. *)
Definition opens {F} `{Files F} (held : F -> Prop) (ip : nat) (f : F) (m : bytes) (path : Z) : Prop :=
  exists f1 f2 m' f3, f_begin_op f = Ret f1 /\ f_namei f1 m path = Ret (f2, m', Some ip) /\ f_ilock f2 ip = Ret f3 /\ held f3.

(** Words of a buffer that a read has filled. *)
Lemma word_read m file dst off n i :
  (forall j, 0 <= j < n -> m (dst + j) = file_mem file (off + j)) -> 0 <= i -> i + 4 <= n ->
  word32 m (dst + i) = word32 (file_mem file) (off + i).
Proof. intros Hm Hi Hn. unfold word32. rewrite <- !Z.add_assoc, !Hm by lia. done. Qed.

Section returns.
Context {F : Type} `{Files F} (kend data elf ph pname : Z) (strfuel : nat) (locals : Z -> Prop).
Context {HF : FilesSpec F locals}.
Context (held : F -> Prop) (ip : nat) (file : list Z) (Hread : readable held ip file) (Hfile : Z.of_nat (length file) < 2 ^ 32).
Context (k0 : kmem) (free0 : list Z) (old : Z) (Hset : setting kend data elf ph pname locals k0 free0 old).
Notation loading := (loading kend locals k0 free0).
Notation at_rest := (at_rest kend locals k0 free0).
Notation settled := (settled kend locals k0 free0 old).
Notation enough := (enough free0).

Lemma load_segment_returns f k free pgdir sz :
  held f -> loading k free pgdir sz ->
  exists f' k' r, load_segment kend ph f k ip pgdir sz = Ret (f', k', r) /\ held f' /\
    let sz1 := Z.max sz (ph_vaddr ph k + ph_memsz ph k) in
    (forall top, enough top -> top < KERNBASE -> sz1 <= top -> 0 < sz1 -> ph_filesz ph k <= ph_memsz ph k ->
       ph_vaddr ph k mod 4096 = 0 -> ph_off ph k + ph_filesz ph k <= Z.of_nat (length file) -> r = Some sz1).
Proof.
  intros Hf Hl. destruct (load_segment_cases kend (set_kend _ _ _ _ _ _ _ _ _ Hset) ph locals k0 free0 (set_free _ _ _ _ _ _ _ _ _ Hset) f k ip free pgdir sz Hl)
    as [(k1 & free1 & sz1 & -> & Hl1 & Hno)|(k1 & free1 & -> & Hl1 & Hva & Hal & Hfz & Hsz)].
  { exists f, k1, None. split_and!; [done|done|]. intros sz2 top He Ht Hs2 Hs0 Hms Hal _. by destruct (Hno top). }
  destruct (loaduvm_returns kend (fun f m a o n => f_readi f m ip a o n) pgdir (Z.max sz (ph_vaddr ph k + ph_memsz ph k)) (ph_vaddr ph k) (ph_off ph k)
      (ph_filesz ph k) free1) with (Inv := held) (lim := Z.of_nat (length file)) (fuel := alloc_fuel 0 (ph_filesz ph k)) (f := f) (k := k1) (i := 0)
    as (f' & k' & r & -> & Hf' & Hr); [|done|done| |done|apply Hl1|done|done| |unfold alloc_fuel; lia|].
  - intros ? ? ? ? ? ? ? ?. apply (readi_frames locals).
  - intros f1 m dst off n Hf1 Hd Ho Hn Hdn. destruct (rd_readi _ _ _ Hread f1 m dst off n Hf1 Hd Ho Hn Hdn) as (f2 & m2 & r2 & E & Hf2 & Hr2).
    exists f2, m2, r2. split_and!; [done|done|]. intros Hle. by apply Hr2.
  - unfold alloc_fuel, PGSIZE. rewrite Z.sub_0_r. pose proof (Z.div_mod (ph_filesz ph k) 4096 ltac:(lia)).
    pose proof (Z.mod_pos_bound (ph_filesz ph k) 4096 ltac:(lia)). pose proof (Z.div_pos (ph_filesz ph k) 4096 ltac:(lia) ltac:(lia)). lia.
  - cbn [obind]. eexists _, _, _. split_and!; [done|done|]. intros top _ _ _ _ _ _ Hlen. rewrite Hr; [done| |done|done].
    unfold ph_off, ld. apply u32_range.
Qed.

Lemma load_program_returns n : forall f k free pgdir off sz,
  held f -> loading k free pgdir sz -> is_u32 off ->
  exists f' k' r, load_program kend ph n f k ip pgdir off sz = Ret (f', k', r) /\ held f' /\
    forall s top, image_end file n off sz = Some s -> s <= top -> top < KERNBASE -> enough top -> r = Some s.
Proof.
  induction n as [|n IH]; intros f k free pgdir off sz Hf Hl Ho; cbn [load_program].
  { exists f, k, (Some sz). by split_and!; [|done|intros s top [= <-]]. }
  destruct (set_ph _ _ _ _ _ _ _ _ _ Hset) as [Hph Hph32]. unfold SIZEOF_PROGHDR in *.
  destruct (rd_readi _ _ _ Hread f (mem k) ph off 32 Hf) as (f1 & m1 & r1 & E1 & Hf1 & Hr1); [lia|done|done|lia|]. rewrite E1. cbn [obind].
  pose proof (loading_local kend locals k0 free0 (set_free_locals _ _ _ _ _ _ _ _ _ Hset) k free pgdir sz m1 Hl
    (read_local locals _ _ _ _ _ _ _ _ _ E1 (proj1 Ho) ltac:(done) Hph32 Hph)) as Hl1.
  pose proof (u32_range (off + 32)) as Ho'. cbn [image_end]. unfold SIZEOF_PROGHDR.
  destruct (Z.ltb_spec (Z.of_nat (length file)) (off + 32)) as [Hsh|Hin].
  { destruct (negb _); [by eexists _, _, _; split_and!|]. destruct (negb _).
    { destruct (IH f1 _ free pgdir (u32 (off + 32)) sz Hf1 Hl1 Ho') as (f2 & k2 & r2 & E2 & Hf2 & _). rewrite E2. by eexists _, _, _; split_and!. }
    destruct (load_segment_returns f1 (with_mem m1 k) free pgdir sz Hf1 Hl1) as (f2 & k2 & r2 & E2 & Hf2 & _). rewrite E2. cbn [obind].
    destruct (load_segment_accounts kend (set_kend _ _ _ _ _ _ _ _ _ Hset) ph locals k0 free0 (set_free _ _ _ _ _ _ _ _ _ Hset) _ _ _ _ _ _ _ _ _ Hl1 E2) as (free2 & sz2 & Hl2 & Hr2).
    destruct r2 as [s2|]; [|by eexists _, _, _; split_and!]. rewrite (Hr2 s2 eq_refl).
    destruct (IH f2 k2 free2 pgdir (u32 (off + 32)) sz2 Hf2 Hl2 Ho') as (f3 & k3 & r3 & -> & Hf3 & _). by eexists _, _, _; split_and!. }
  destruct (Hr1 Hin) as [-> Hm1]. change (negb (32 =? 32)) with false. cbv iota.
  assert (Hw : forall i, 0 <= i -> i + 4 <= 32 -> ld (with_mem m1 k) (ph + i) = file_word file (off + i)).
  { intros i Hi0 Hi. unfold ld, file_word. f_equal. by apply (word_read m1 file ph off 32). }
  assert (Ht : ph_type ph (with_mem m1 k) = file_word file off).
  { unfold ph_type. rewrite <- (Z.add_0_r ph), Hw by lia. by rewrite Z.add_0_r. }
  rewrite Ht. destruct (negb (file_word file off =? ELF_PROG_LOAD)); [by apply IH with (free := free)|].
  destruct (load_segment_returns f1 (with_mem m1 k) free pgdir sz Hf1 Hl1) as (f2 & k2 & r2 & E2 & Hf2 & Hok). rewrite E2. cbn [obind].
  destruct (load_segment_accounts kend (set_kend _ _ _ _ _ _ _ _ _ Hset) ph locals k0 free0 (set_free _ _ _ _ _ _ _ _ _ Hset) _ _ _ _ _ _ _ _ _ Hl1 E2) as (free2 & sz2 & Hl2 & Hr2).
  unfold ph_vaddr, ph_memsz, ph_filesz, ph_off in Hok. rewrite !Hw in Hok by lia. cbn zeta in *.
  set (sz1 := Z.max sz (file_word file (off + 8) + file_word file (off + 20))) in *.
  destruct (Z.ltb_spec (file_word file (off + 20)) (file_word file (off + 16))) as [|Hms]; [|
    destruct (Z.eqb_spec (file_word file (off + 8) mod PGSIZE) 0) as [Hal|];
      [destruct (Z.eqb_spec sz1 0) as [|Hs0];
        [|destruct (Z.leb_spec KERNBASE sz1) as [|Hk1];
          [|destruct (Z.ltb_spec (Z.of_nat (length file)) (file_word file (off + 4) + file_word file (off + 16))) as [|Hlen]]]|]].
  5: { cbn [orb negb]. assert (Hs1 : 0 < sz1) by (pose proof (us_size _ _ _ _ _ (proj1 (proj2 Hl1))); lia).
    destruct r2 as [s2|]; [rewrite (Hr2 s2 eq_refl)|].
    - destruct (IH f2 k2 free2 pgdir (u32 (off + 32)) sz2 Hf2 Hl2 Ho') as (f3 & k3 & r3 & -> & Hf3 & Hr3). eexists _, _, _. split_and!; [done|done|].
      intros s top Es Hs Htop He. pose proof (image_end_ge _ _ _ _ _ Es) as [Hge _].
      specialize (Hok top He Htop ltac:(lia) Hs1 Hms Hal Hlen). injection Hok as Hok. rewrite <- (Hr2 s2 eq_refl), Hok in Hr3. by apply (Hr3 s top).
    - eexists _, _, _. split_and!; [done|done|]. intros s top Es Hs Htop He. pose proof (image_end_ge _ _ _ _ _ Es) as [Hge _].
      by specialize (Hok top He Htop ltac:(lia) Hs1 Hms Hal Hlen). }
  all: cbn [orb negb]; rewrite ?orb_true_r; destruct r2 as [s2|]; [|by eexists _, _, _; split_and!]; rewrite (Hr2 s2 eq_refl);
    destruct (IH f2 k2 free2 pgdir (u32 (off + 32)) sz2 Hf2 Hl2 Ho') as (f3 & k3 & r3 & -> & Hf3 & _); by eexists _, _, _; split_and!.
Qed.

(** The inode [bad] lets go is the one that is locked, if any. *)
Definition let_go (f : F) (ino : option nat) : Prop := match ino with None => True | Some i => i = ip /\ held f end.

Lemma bad_returns f k cur free pgdir sz ino :
  let_go f ino -> (if pgdir =? 0 then at_rest k else loading k free pgdir sz) ->
  exists f' k', bad kend f k cur pgdir ino = Ret (f', k', cur, -1).
Proof.
  intros Hino Hk. unfold bad.
  assert (exists k1, (if pgdir =? 0 then Ret k else freevm kend k pgdir) = Ret k1) as (k1 & ->).
  { destruct (pgdir =? 0); [by exists k|]. destruct (loading_freevm kend (set_kend _ _ _ _ _ _ _ _ _ Hset) _ _ _ _ _ _ _ Hk) as (k1 & E & _). by exists k1. }
  cbn [obind]. destruct ino as [i|]; [|by eauto]. destruct Hino as [-> Hf].
  destruct (rd_close _ _ _ Hread f Hf) as (f1 & f2 & -> & E). cbn [obind]. rewrite E. cbn [obind]. eauto.
Qed.

Lemma bad_loading_returns f k cur free pgdir sz ino :
  let_go f ino -> loading k free pgdir sz -> exists f' k', bad kend f k cur pgdir ino = Ret (f', k', cur, -1).
Proof.
  intros Hino Hl. apply (bad_returns f k cur free pgdir sz ino Hino). rewrite (proj2 (Z.eqb_neq _ _) (loading_dir _ _ _ _ _ _ _ _ Hl)). done.
Qed.

(** A string of the process that the call does not write over. *)
Definition given (a : Z) (s : list Z) : Prop :=
  arg_ok strfuel (mem k0) a s /\ forall x, a <= x <= a + Z.of_nat (length s) -> ~ locals x.

Lemma free_high p x : p ∈ free0 -> inside p x -> KERNBASE <= x.
Proof.
  intros Hp Hx. pose proof (fp_ok _ _ _ (set_free _ _ _ _ _ _ _ _ _ Hset)) as Hok. rewrite Forall_forall in Hok.
  destruct (Hok p Hp) as (_ & _ & ?). unfold inside in Hx. lia.
Qed.

Lemma given_loading k free pgdir sz a s : loading k free pgdir sz -> given a s -> arg_ok strfuel (mem k) a s.
Proof.
  intros (Ho & _) [[Hl Hc Hf Hs] Hloc]. split; [done..|]. intros i c Hi. pose proof (lookup_lt_Some _ _ _ Hi) as Hlt.
  rewrite length_app in Hlt. simpl in Hlt. rewrite Ho; [by apply Hs|apply Hloc; lia|].
  intros p Hp Hx. pose proof (free_high p _ Hp Hx). lia.
Qed.

Lemma last_elem_returns fuel m : forall s str last,
  str_at m s str -> Forall (fun c => 0 < c < 256) str -> (length str < fuel)%nat -> exists a, last_elem fuel m s last = Some a.
Proof.
  induction fuel as [|fuel IH]; intros s str last Hs Hc Hf; [lia|]. cbn [last_elem]. destruct str as [|c str].
  - pose proof (Hs 0%nat 0 eq_refl) as H0. rewrite Z.add_0_r in H0. rewrite H0. by eauto.
  - pose proof (Hs 0%nat c eq_refl) as H0. rewrite Z.add_0_r in H0. apply Forall_cons in Hc as [Hc0 Hc].
    rewrite H0, (proj2 (Z.eqb_neq c 0)) by lia. apply (IH (s + 1) str); [|done|simpl in Hf; lia].
    intros i x Hi. rewrite <- (Hs (S i) x Hi). f_equal. lia.
Qed.

(** The stack of a program that has been started. *)
Definition started (k : kmem) (cur : image) (strs : list (list Z)) : Prop :=
  program_stack (user_mem k (Exec.pgdir cur)) (esp cur) (sz cur) strs /\
  forall va, esp cur <= va < sz cur -> usable k (Exec.pgdir cur) va.

Lemma user_mem_page k pgdir n p va : user_page k pgdir n p -> 4096 * n <= va < 4096 * n + PGSIZE ->
  user_mem k pgdir va = mem k (p + (va - 4096 * n)) /\ va / 4096 = n.
Proof.
  intros (Hv & E & _) Hva. unfold PGSIZE in Hva. assert (Hd : va / 4096 = n) by (symmetry; apply Z.div_unique_pos with (va - 4096 * n); lia).
  split; [|done]. unfold user_mem. rewrite Hd. simpl in E. destruct (present (pte k pgdir n)); [|done]. injection E as ->.
  f_equal. pose proof (Z.div_mod va 4096 ltac:(lia)). lia.
Qed.

(** From the last write to the new image to the end of the call. *)
Lemma commit_returns k free pgdir top n P sp m strs entry :
  loading k free pgdir top -> (forall x, ~ locals x -> m x = mem k x) ->
  user_page k pgdir n P -> top = 4096 * n + PGSIZE -> 4096 * n <= sp -> program_stack (seen n P k) sp top strs ->
  exists k', freevm kend (with_mem m k) old = Ret k' /\ started k' {| Exec.pgdir := pgdir; sz := top; eip := entry; esp := sp |} strs.
Proof.
  intros Hl Hm Hp Htop Hsp Hst. pose proof (set_free_locals _ _ _ _ _ _ _ _ _ Hset) as Hfl.
  pose proof (loading_local kend locals k0 free0 Hfl k free pgdir top m Hl Hm) as Hl4.
  destruct (replace_image kend (set_kend _ _ _ _ _ _ _ _ _ Hset) locals k0 free0 (set_free _ _ _ _ _ _ _ _ _ Hset) old
    (set_old _ _ _ _ _ _ _ _ _ Hset) (set_locals _ _ _ _ _ _ _ _ _ Hset) _ _ _ _ Hl4) as (k5 & free5 & -> & _ & _ & Hpte5 & Hmem5 & _).
  exists k5. split; [done|].
  assert (Hpte4 : forall n, upage n -> pte (with_mem m k) pgdir n = pte k pgdir n).
  { destruct Hl as (_ & [Ha _ _ _ _] & Hown). apply (entries_same kend k (with_mem m k) free pgdir Ha).
    intros s p x Hs _ E Hx. apply Hm. apply (Hfl p); [|done]. apply Hown. right. by exists s. }
  pose proof Hp as (Hv & E & Hu). pose proof (valid_upage n Hv) as Hun.
  assert (Hp5 : user_page k5 pgdir n P).
  { split; [done|]. unfold place in *. by rewrite Hpte5, Hpte4. }
  assert (HP : forall x, inside P x -> mem k5 x = mem k x).
  { intros x Hx. rewrite (Hmem5 (SFrame n) P); [|done|unfold place in *; by rewrite Hpte4|done].
    apply Hm. apply (Hfl P); [|done]. destruct Hl as (_ & _ & Hown). apply Hown. right. by exists (SFrame n). }
  split; cbn [Exec.pgdir sz esp].
  - eapply program_stack_same; [|exact Hst]. intros va Hva.
    destruct (user_mem_page k5 pgdir n P va Hp5) as [-> _]; [lia|]. unfold seen. apply HP. unfold inside. lia.
  - intros va Hva. exists P. destruct (user_mem_page k5 pgdir n P va Hp5) as [_ ->]; [lia|done].
Qed.

Lemma start_returns f k cur path ps argv strs free pgdir sz0 :
  loading k free pgdir sz0 -> Exec.pgdir cur = old -> given path ps -> Forall2 given argv strs -> fits strs = true ->
  exists f' k' cur' r, start kend elf pname strfuel f k cur path argv pgdir sz0 = Ret (f', k', cur', r) /\
    (r = -1 \/ r = 0 /\ started k' cur' strs) /\
    let top := PGROUNDUP sz0 + 2 * PGSIZE in (top < KERNBASE -> enough top -> r = 0).
Proof.
  intros Hl Hcur Hpath Hargs Hfit. pose proof (set_kend _ _ _ _ _ _ _ _ _ Hset) as Hkend. unfold start.
  destruct (stack_pages kend Hkend locals k0 free0 (set_free _ _ _ _ _ _ _ _ _ Hset) k free pgdir sz0 Hl) as (k1 & free1 & r1 & -> & Hr1). cbn [obind].
  destruct Hr1 as [(-> & (sz1 & Hl1) & Hno)|(-> & Hl1 & Hal & Htop & P & Hp1)]; cbn [Z.eqb].
  { destruct (bad_loading_returns f k1 cur free1 pgdir sz1 None I Hl1) as (f' & k' & ->). exists f', k', cur, (-1).
    split_and!; [done|by left|]. intros Ht He. by destruct (Hno Ht He). }
  set (top := PGROUNDUP sz0 + 2 * PGSIZE) in *. rewrite (proj2 (Z.eqb_neq top 0)) by lia.
  destruct (guard_page kend locals k0 free0 k1 free1 pgdir top Hl1 Hal Htop) as (k2 & -> & Hl2 & Hpte2). cbn [obind].
  pose proof (Z.div_mod top 4096 ltac:(lia)) as Hdiv. rewrite Hal in Hdiv. set (n := top / 4096 - 1) in *.
  assert (Htn : top = 4096 * n + PGSIZE) by (unfold n, PGSIZE; lia).
  assert (Hp2 : user_page k2 pgdir n P).
  { destruct Hp1 as (Hv & Epl & Hu). pose proof (valid_upage n Hv). split; [done|]. unfold place in *.
    rewrite Hpte2 by (done || (unfold n; lia)). done. }
  destruct (build_stack_page kend Hkend strfuel pgdir top free1 n P argv strs k2) as (k3 & sp & E3 & Hf3 & Hsp & Hst);
    [apply Hl2|done| |done|unfold n; lia|unfold PGSIZE, KERNBASE in *; lia|].
  { eapply Forall2_impl; [exact Hargs|]. intros a s Hg. by eapply given_loading. }
  rewrite <- Htn in E3, Hst. rewrite E3. cbn [obind].
  pose proof (loading_frames kend locals k0 free0 k2 k3 free1 pgdir top Hl2 Hf3) as Hl3.
  destruct (given_loading _ _ _ _ _ _ Hl3 Hpath) as [_ Hpc Hpf Hpstr].
  destruct (last_elem_returns strfuel (mem k3) path ps path Hpstr Hpc Hpf) as (last & ->). cbn [of_option obind].
  set (m4 := CString.safestrcpy _ _ _ _). rewrite Hcur.
  assert (Hp3 : user_page k3 pgdir n P) by (apply (user_page_frames kend pgdir top free1 k2 k3); [apply Hl2|done|done]).
  destruct (commit_returns k3 free1 pgdir top n P sp m4 strs (elf_entry elf (with_mem m4 k3)) Hl3) as (k5 & -> & Hs5); try done.
  { intros x Hx. apply CString.safestrcpy_out; [lia|]. intros Hin. by apply Hx, (set_name _ _ _ _ _ _ _ _ _ Hset). }
  cbn [obind]. eexists _, _, _, _. split_and!; [done|by right|done].
Qed.

(** From the loop over the program headers on. *)
Lemma load_returns f k cur path ps argv strs free pgdir n off :
  held f -> loading k free pgdir 0 -> is_u32 off ->
  Exec.pgdir cur = old -> given path ps -> Forall2 given argv strs -> fits strs = true ->
  exists f' k' cur' r,
    (let* (f, k, r) := load_program kend ph n f k ip pgdir off 0 in
     match r with
     | None => bad kend f k cur pgdir (Some ip)
     | Some sz => let* f := f_iunlockput f ip in let* f := f_end_op f in start kend elf pname strfuel f k cur path argv pgdir sz
     end) = Ret (f', k', cur', r) /\
    (r = -1 \/ r = 0 /\ started k' cur' strs) /\
    forall sz, image_end file n off 0 = Some sz -> let top := PGROUNDUP sz + 2 * PGSIZE in top < KERNBASE -> enough top -> r = 0.
Proof.
  intros Hf Hl Ho Hcur Hpath Hargs Hfit. pose proof (set_kend _ _ _ _ _ _ _ _ _ Hset) as Hkend.
  destruct (set_ph _ _ _ _ _ _ _ _ _ Hset) as [Hph Hph32].
  destruct (load_program_returns n f k free pgdir off 0 Hf Hl Ho) as (f1 & k1 & r1 & E1 & Hf1 & Hr1). rewrite E1. cbn [obind].
  destruct (load_program_accounts kend Hkend ph locals Hph Hph32 k0 free0 (set_free _ _ _ _ _ _ _ _ _ Hset)
    (set_free_locals _ _ _ _ _ _ _ _ _ Hset) _ _ _ _ _ _ _ _ _ _ _ Hl (proj1 Ho) E1) as (free1 & sz1 & Hl1 & Hs1).
  assert (Hend : forall sz, image_end file n off 0 = Some sz -> let top := PGROUNDUP sz + 2 * PGSIZE in
    top < KERNBASE -> enough top -> r1 = Some sz).
  { intros sz Es top Ht He. pose proof (image_end_ge _ _ _ _ _ Es) as [Hge Hlt]. specialize (Hlt eq_refl). apply (Hr1 sz top Es); [|done|done].
    unfold top, PGSIZE, KERNBASE in *. pose proof (PGROUNDUP_spec sz Hge ltac:(unfold PGSIZE; lia)). lia. }
  destruct r1 as [s1|].
  - pose proof (Hs1 s1 eq_refl) as ->. destruct (rd_close _ _ _ Hread f1 Hf1) as (f2 & f3 & -> & E3). cbn [obind]. rewrite E3. cbn [obind].
    destruct (start_returns f3 k1 cur path ps argv strs free1 pgdir sz1 Hl1 Hcur Hpath Hargs Hfit) as (f' & k' & cur' & r & -> & Hr & Hok).
    eexists _, _, _, _. split_and!; [done|done|]. intros sz Es Ht He. specialize (Hend sz Es Ht He). injection Hend as <-. by apply Hok.
  - destruct (bad_loading_returns f1 k1 cur free1 pgdir sz1 (Some ip) (conj eq_refl Hf1) Hl1) as (f' & k' & ->).
    eexists _, _, _, _. split_and!; [done|by left|]. intros sz Es Ht He. by specialize (Hend sz Es Ht He).
Qed.

Lemma image_size_Some sz : image_size file = Some sz ->
  SIZEOF_ELFHDR <= Z.of_nat (length file) /\ file_word file 0 = ELF_MAGIC /\
  image_end file (Z.to_nat (Fs.word16 (file_mem file) 44)) (file_word file 28) 0 = Some sz.
Proof.
  unfold image_size. destruct (Z.ltb_spec (Z.of_nat (length file)) SIZEOF_ELFHDR); [done|]. cbn [orb].
  destruct (Z.eqb_spec (file_word file 0) ELF_MAGIC); [done|done].
Qed.

Lemma exec_returns f cur path ps argv strs :
  Exec.pgdir cur = old -> given path ps -> Forall2 given argv strs -> fits strs = true -> opens held ip f (mem k0) path ->
  exists f' k' cur' r, exec kend data elf ph pname strfuel f k0 cur path argv = Ret (f', k', cur', r) /\
    (r = -1 \/ r = 0 /\ started k' cur' strs) /\
    forall sz, image_size file = Some sz -> let top := PGROUNDUP sz + 2 * PGSIZE in top < KERNBASE -> enough top -> r = 0.
Proof.
  intros Hcur Hpath Hargs Hfit (f1 & f2 & m2 & f3 & E1 & E2 & E3 & Hf3). pose proof (set_kend _ _ _ _ _ _ _ _ _ Hset) as Hkend.
  pose proof (set_free_locals _ _ _ _ _ _ _ _ _ Hset) as Hfl. unfold exec. rewrite E1. cbn [obind]. rewrite E2. cbn [obind].
  assert (H0 : at_rest k0) by (split; [done|exists free0; split; [apply (set_free _ _ _ _ _ _ _ _ _ Hset)|done]]).
  pose proof (at_rest_local kend locals k0 free0 Hfl _ _ H0 (namei_writes _ _ _ _ _ _ E2)) as H2.
  set (k2 := with_mem m2 k0) in *. clearbody k2. rewrite E3. cbn [obind].
  destruct (set_elf _ _ _ _ _ _ _ _ _ Hset) as [Helf Helf32]. unfold SIZEOF_ELFHDR in Helf32.
  destruct (rd_readi _ _ _ Hread f3 (mem k2) elf 0 SIZEOF_ELFHDR Hf3) as (f4 & m4 & r4 & E4 & Hf4 & Hr4);
    [lia|done|done|unfold SIZEOF_ELFHDR; lia|]. rewrite E4. cbn [obind].
  pose proof (at_rest_local kend locals k0 free0 Hfl _ _ H2 (read_local locals _ _ _ _ _ _ _ _ _ E4 ltac:(done) ltac:(done) Helf32 Helf)) as H4.
  set (k4 := with_mem m4 k2) in *. change m4 with (mem k4) in Hr4. clearbody k4.
  assert (Hbad : forall k (P : Prop), at_rest k -> P -> exists f' k' cur' r, bad kend f4 k cur 0 (Some ip) = Ret (f', k', cur', r) /\
    (r = -1 \/ r = 0 /\ started k' cur' strs) /\ P).
  { intros k P Hk HP. destruct (bad_returns f4 k cur free0 0 0 (Some ip) (conj eq_refl Hf4) Hk) as (f' & k' & ->).
    eexists _, _, _, _. split_and!; [done|by left|done]. }
  destruct (Z.eqb_spec r4 SIZEOF_ELFHDR) as [->|Hr4']; cbn [negb].
  2: { destruct (Hbad k4 (forall sz, image_size file <> Some sz) H4) as (f' & k' & cur' & r & -> & Hr & Hno).
    { intros sz (Hlen & _)%image_size_Some. by apply Hr4', Hr4. }
    eexists _, _, _, _. split_and!; [done|done|]. intros sz Es. by apply Hno in Es. }
  assert (Hw : forall k, (forall x, locals x -> mem k x = mem k4 x) -> SIZEOF_ELFHDR <= Z.of_nat (length file) ->
    forall i, 0 <= i < SIZEOF_ELFHDR -> mem k (elf + i) = file_mem file (0 + i)).
  { intros k Hk Hin i Hi. rewrite Hk by (apply Helf; lia). by apply Hr4. }
  destruct (Z.eqb_spec (elf_magic elf k4) ELF_MAGIC) as [Hmg|Hmg]; cbn [negb].
  2: { destruct (Hbad k4 (forall sz, image_size file <> Some sz) H4) as (f' & k' & cur' & r & -> & Hr & Hno).
    { intros sz (Hlen & Em & _)%image_size_Some. apply Hmg. rewrite <- Em. unfold elf_magic, ld, file_word. f_equal.
      rewrite <- (Z.add_0_r elf). by apply (word_read (mem k4) file elf 0 SIZEOF_ELFHDR); [apply Hw| |]. }
    eexists _, _, _, _. split_and!; [done|done|]. intros sz Es. by apply Hno in Es. }
  destruct (start_loading kend data Hkend (set_data _ _ _ _ _ _ _ _ _ Hset) locals k0 free0 (set_free _ _ _ _ _ _ _ _ _ Hset) Hfl k4 H4)
    as (k5 & pgdir & -> & H5 & Hloc). cbn [obind].
  destruct H5 as [(-> & Hfew & H5)|(Hp0 & free5 & Hl5)].
  { destruct (Hbad k5 True H5 I) as (f' & k' & cur' & r & E & Hr & _). cbn [Z.eqb]. rewrite E. eexists _, _, _, _. split_and!; [done|done|].
    intros sz Es Ht He. exfalso. unfold ExecThms.enough, PGSIZE in He.
    destruct (image_size_Some sz Es) as (_ & _ & [Hge Hlt]%image_end_ge). specialize (Hlt eq_refl). unfold KERNBASE in Hlt.
    pose proof (PGROUNDUP_spec sz Hge ltac:(unfold PGSIZE; lia)). pose proof (Z.div_pos (PGROUNDUP sz + 2 * 4096) 4096). lia. }
  rewrite (proj2 (Z.eqb_neq _ _) Hp0).
  destruct (load_returns f4 k5 cur path ps argv strs free5 pgdir (Z.to_nat (elf_phnum elf k5)) (elf_phoff elf k5) Hf4 Hl5 (u32_range _) Hcur Hpath Hargs Hfit)
    as (f' & k' & cur' & r & -> & Hr & Hok). eexists _, _, _, _. split_and!; [done|done|].
  intros sz (Hlen & _ & Es)%image_size_Some Ht He. apply (Hok sz); [|done|done]. rewrite <- Es. f_equal.
  - f_equal. unfold elf_phnum, Fs.word16. rewrite <- Z.add_assoc, !(Hw k5 Hloc Hlen) by (unfold SIZEOF_ELFHDR; lia). done.
  - unfold elf_phoff, ld, file_word. f_equal. by apply (word_read (mem k5) file elf 0 SIZEOF_ELFHDR); [apply Hw| |].
Qed.

End returns.
(** ** Properties *)

(** C7.  Whatever the file holds and wherever [exec] fails, every page is
    accounted for when it returns.  After -1 the process is as it was: the free
    pages are the ones that were free, and no other byte has changed but those
    of the locals.  After 0 the new image is well formed, its pages are in use
    once, the free pages are those that were free or belonged to the old image
    and are not part of the new one, and no byte of another process or of the
    kernel has changed. *)
Theorem exec_accounts {F} `{Files F} kend data elf ph pname strfuel locals `{!FilesSpec F locals} k0 free0
    f cur path argv f' k' cur' r :
  setting kend data elf ph pname locals k0 free0 (Exec.pgdir cur) ->
  exec kend data elf ph pname strfuel f k0 cur path argv = Ret (f', k', cur', r) ->
  settled kend locals k0 free0 (Exec.pgdir cur) k' cur cur' r.
Proof.
  intros Hs. pose proof (set_free_locals _ _ _ _ _ _ _ _ _ Hs) as Hfl. destruct Hs as [? ? [? ?] [? ?] ? ? ? ?].
  by apply exec_settles.
Qed.

(** C8.  Called with the path of a file that can be locked and read, and with
    arguments in the memory of the process that take no more than a page with
    the pointers to them, [exec] returns: with -1, or with 0 and a program whose
    stack is that of [main(argc, argv)], every string of [argv] in it as it was
    given, in memory the program may use.  It is 0 whenever the file is an ELF
    file whose segments lie in it and below the kernel, and enough pages are
    free for the image, its tables and its directory. *)
Theorem exec_arguments {F} `{Files F} kend data elf ph pname strfuel locals `{!FilesSpec F locals} held ip file k0 free0
    f cur path ps argv strs :
  readable held ip file -> Z.of_nat (length file) < 2 ^ 32 -> opens held ip f (mem k0) path ->
  setting kend data elf ph pname locals k0 free0 (Exec.pgdir cur) ->
  given strfuel locals k0 path ps -> Forall2 (given strfuel locals k0) argv strs -> fits strs = true ->
  exists f' k' cur' r, exec kend data elf ph pname strfuel f k0 cur path argv = Ret (f', k', cur', r) /\
    (r = -1 \/ r = 0 /\ started k' cur' strs) /\
    forall sz, image_size file = Some sz ->
      let top := PGROUNDUP sz + 2 * PGSIZE in top < KERNBASE -> enough free0 top -> r = 0.
Proof. intros Hr Hlen Ho Hs Hp Ha Hf. by eapply exec_returns. Qed.

(** ** A small machine *)

(** One file, whose name is any path. *)
Section one_file.
Context (content : list Z).

Definition read_file (m : bytes) (dst off n : Z) : bytes * Z :=
  let l := take (Z.to_nat n) (drop (Z.to_nat off) content) in
  (fun x => if (dst <=? x) && (x <? dst + Z.of_nat (length l)) then default 0 (getZ l (x - dst)) else m x, Z.of_nat (length l)).

Definition one_file : Files unit := {|
  f_begin_op f := Ret f; f_namei f m _ := Ret (f, m, Some 0%nat); f_ilock f _ := Ret f;
  f_readi f m _ dst off n := let (m, r) := read_file m dst off n in Ret (f, m, r);
  f_iunlockput f _ := Ret f; f_end_op f := Ret f
|}.

Lemma one_file_spec locals : @FilesSpec unit one_file locals.
Proof.
  split.
  - by intros f m path f' m' r [= _ <- _].
  - intros f m ip dst off n f' m' r [= _ <- _] _ Hd Hn Hlen x Hx.
    assert (Z.of_nat (length (take (Z.to_nat n) (drop (Z.to_nat off) content))) <= n) by (rewrite length_take; lia).
    destruct (Z.leb_spec dst x), (Z.ltb_spec x (dst + Z.of_nat (length (take (Z.to_nat n) (drop (Z.to_nat off) content))))); simpl; done || lia.
Qed.

Lemma one_file_readable : @readable unit one_file (fun _ => True) 0 content.
Proof.
  split; [|by eauto]. intros f m dst off n _ Hd [Ho _] [Hn _] _. eexists _, _, _. split; [done|]. split; [done|]. intros Hle.
  assert (Hl : length (take (Z.to_nat n) (drop (Z.to_nat off) content)) = Z.to_nat n) by (rewrite length_take, length_drop; lia).
  cbn beta. rewrite Hl, Z2Nat.id by done. split; [done|]. intros j Hj.
  rewrite (proj2 (Z.leb_le _ _)), (proj2 (Z.ltb_lt _ _)) by lia. cbn [andb]. unfold file_mem. f_equal. unfold getZ.
  rewrite !decide_True by lia. rewrite lookup_take_lt by lia. rewrite lookup_drop. f_equal. lia.
Qed.

Lemma one_file_opens f m path : @opens unit one_file (fun _ => True) 0 f m path.
Proof. unfold opens. by eexists _, _, _, _. Qed.
End one_file.

(** An ELF file: the header, one program header, and a segment of 12 bytes
    that is to have 100. *)
Definition elf_file : list Z :=
  ([ELF_MAGIC; 0; 0; 0; 0; 0; 0; 52; 0; 0; 0; 1; 0] ++ [ELF_PROG_LOAD; 84; 0; 0; 12; 100; 7; 4096] ++ [11; 22; 33]) ≫= word_bytes.

Lemma elf_file_size : image_size elf_file = Some 100.
Proof. vm_compute. reflexivity. Qed.

(** A kernel of 2 MB, 1036 free pages behind it, and the empty image of a
    process that holds the text at its address 4096. *)
Definition kend : Z := KERNBASE + 2 ^ 21.
Definition frame (i : Z) : Z := kend + 4096 * i.
Definition text : list Z := lit "/bin/echo" ++ [0] ++ lit "hello" ++ [0].
Definition before : kmem :=
  {| mem := fun x => if x <? KERNBASE then default 0 (getZ text (x - 4096)) else 0; use_lock := true; freelist := 0 |}.
Definition pages : list Z := rev (range_pages (frame 1) 1036).
Definition image0 : image := {| Exec.pgdir := frame 2000; sz := 0; eip := 0; esp := 0 |}.
Definition kernel_locals (x : Z) : Prop := KERNBASE <= x < kend.

Lemma frame_ok i : 0 <= i < 3000 -> page_ok kend (frame i).
Proof.
  intros Hi. unfold page_ok, frame, kend, PGSIZE, KERNBASE, PHYSTOP. split; [|lia].
  replace (2147483648 + 2 ^ 21 + 4096 * i) with ((524288 + 512 + i) * 4096) by lia. by apply Z.mod_mul.
Qed.

Lemma freerange_out fuel : forall k p vend k' x, freerange_from kend fuel k p vend = Ret k' -> x < p \/ vend <= x -> mem k' x = mem k x.
Proof.
  induction fuel as [|fuel IH]; intros k p vend k' x; cbn [freerange_from]; [done|].
  destruct (Z.leb_spec (p + PGSIZE) vend) as [Hp|]; [|by intros [= ->]].
  destruct (kfree kend k p) as [k1| | |] eqn:E; try done. cbn [obind]. intros E' Hx. unfold PGSIZE in *.
  rewrite (IH _ _ _ _ _ E') by lia. unfold kfree in E. destruct (_ || _); [done|]. injection E as <-. cbn [mem].
  rewrite put32_out by lia. unfold memset. destruct (Z.leb_spec p x), (Z.ltb_spec x (p + PGSIZE)); unfold PGSIZE in *; simpl; done || lia.
Qed.

(** The machine [freerange] leaves. *)
Lemma machine_exists : exists k, free_pages kend k pages /\ forall x, x < frame 1 \/ frame 1037 <= x -> mem k x = mem before x.
Proof.
  assert (H0 : free_pages kend before []) by (split; [done|constructor|constructor]).
  destruct (freerange_from_spec kend 1036 before [] (frame 1) (frame 1037) 1037 H0) as (k & E & Hf & _);
    [lia|by apply frame_ok|unfold frame, PGSIZE; lia|unfold frame; lia|unfold frame, kend, KERNBASE; lia|unfold frame, kend, KERNBASE, PHYSTOP; lia|by intros v _ ?%not_elem_of_nil|].
  exists k. rewrite app_nil_r in Hf. split; [exact Hf|]. intros x Hx. exact (freerange_out _ _ _ _ _ x E Hx).
Qed.

Section machine.
Context (k : kmem) (Hfree : free_pages kend k pages) (Hmem : forall x, x < frame 1 \/ frame 1037 <= x -> mem k x = mem before x).

Lemma machine_setting :
  setting kend (KERNBASE + 2 ^ 20 + 4096) KERNBASE (KERNBASE + 64) (KERNBASE + 128) kernel_locals k pages (frame 2000).
Proof.
  assert (Hnf : frame 2000 ∉ pages).
  { unfold pages. rewrite <- Permutation_rev, elem_of_range_pages. intros (i & Hi & E). unfold frame, PGSIZE in E. lia. }
  destruct (empty_aspace kend k pages (frame 2000) Hfree (frame_ok 2000 ltac:(lia)) Hnf) as [Ha _].
  { intros x Hx. rewrite Hmem by (right; unfold frame in *; lia). unfold before. cbn [mem].
    rewrite (proj2 (Z.ltb_ge _ _)); [done|]. unfold frame, kend, KERNBASE in *. lia. }
  unfold kernel_locals. split; unfold SIZEOF_ELFHDR, SIZEOF_PROGHDR, kend, KERNBASE in *; try done; try (split; lia || intros; lia).
  intros p x Hp Hx Hl. assert (page_ok (2147483648 + 2 ^ 21) p) as (_ & ? & _) by (eapply owned_page; [exact Ha|exact Hp]).
  unfold inside in Hx. lia.
Qed.

Lemma machine_strings :
  given 100 kernel_locals k 4096 (lit "/bin/echo") /\ Forall2 (given 100 kernel_locals k) [4101; 4106] [lit "echo"; lit "hello"].
Proof.
  assert (Hg : forall a s, 0 <= a -> a + Z.of_nat (length s) < KERNBASE -> Forall (fun c => 0 < c < 256) s -> (length s < 100)%nat ->
    Forall (fun i => mem before (a + Z.of_nat i) = default 0 ((s ++ [0]) !! i)) (seq 0 (length (s ++ [0]))) -> given 100 kernel_locals k a s).
  { intros a s H1 H2 H3 H4 Hf. split.
    - split; [done..|]. intros i c Hi. pose proof (lookup_lt_Some _ _ _ Hi) as Hlt. rewrite length_app in Hlt. simpl in Hlt.
      rewrite Forall_forall in Hf. rewrite Hmem by (left; unfold frame, kend; lia).
      rewrite (Hf i), Hi; [done|]. apply elem_of_seq. rewrite length_app. simpl. lia.
    - intros x Hx. unfold kernel_locals, KERNBASE in *. lia. }
  split; [|constructor; [|constructor; [|constructor]]];
    (apply Hg; [lia|by vm_compute|by apply (bool_decide_unpack _)|by vm_compute; lia|by apply (bool_decide_unpack _)]).
Qed.

Lemma machine_enough : enough pages (PGROUNDUP 100 + 2 * PGSIZE).
Proof. unfold enough, pages. rewrite length_rev. unfold range_pages. rewrite length_map, length_seq. vm_compute. congruence. Qed.
End machine.

(** [exec] of the file succeeds there. *)
Notation run k := (@exec unit (one_file elf_file) kend (KERNBASE + 2 ^ 20 + 4096) KERNBASE (KERNBASE + 64) (KERNBASE + 128) 100
  tt k image0 4096 [4101; 4106]).

Lemma exec_arguments_witness :
  exists k f' k' cur', run k = Ret (f', k', cur', 0) /\ started k' cur' [lit "echo"; lit "hello"].
Proof.
  destruct machine_exists as (k & Hfree & Hmem). destruct (machine_strings k Hmem) as [Hp Ha].
  destruct (@exec_arguments unit (one_file elf_file) kend (KERNBASE + 2 ^ 20 + 4096) KERNBASE (KERNBASE + 64) (KERNBASE + 128) 100 kernel_locals
    (one_file_spec elf_file kernel_locals) (fun _ => True) 0%nat elf_file k pages tt image0 4096 (lit "/bin/echo") [4101; 4106]
    [lit "echo"; lit "hello"] (one_file_readable elf_file) eq_refl (one_file_opens elf_file tt (mem k) 4096)
    (machine_setting k Hfree Hmem) Hp Ha eq_refl) as (f' & k' & cur' & r & E & Hr & Hok).
  specialize (Hok 100 elf_file_size eq_refl machine_enough). subst r.
  exists k, f', k', cur'. split; [exact E|]. destruct Hr as [[=]|[_ Hr]]. exact Hr.
Defined.

Lemma exec_accounts_witness :
  exists k f' k' cur', run k = Ret (f', k', cur', 0) /\ settled kend kernel_locals k pages (frame 2000) k' image0 cur' 0.
Proof.
  destruct machine_exists as (k & Hfree & Hmem). destruct (machine_strings k Hmem) as [Hp Ha].
  destruct (exec_returns kend (KERNBASE + 2 ^ 20 + 4096) KERNBASE (KERNBASE + 64) (KERNBASE + 128) 100 kernel_locals (HF := one_file_spec elf_file kernel_locals)
    (fun _ => True) 0%nat elf_file (one_file_readable elf_file) eq_refl k pages (frame 2000) (machine_setting k Hfree Hmem)
    tt image0 4096 (lit "/bin/echo") [4101; 4106] [lit "echo"; lit "hello"] eq_refl Hp Ha eq_refl (one_file_opens elf_file tt (mem k) 4096))
    as (f' & k' & cur' & r & E & _ & Hok).
  specialize (Hok 100 elf_file_size eq_refl machine_enough). subst r. exists k, f', k', cur'. split; [exact E|].
  exact (@exec_accounts unit (one_file elf_file) kend (KERNBASE + 2 ^ 20 + 4096) KERNBASE (KERNBASE + 64) (KERNBASE + 128) 100 kernel_locals
    (one_file_spec elf_file kernel_locals) k pages tt image0 4096 [4101; 4106] f' k' cur' 0 (machine_setting k Hfree Hmem) E).
Defined.

End ExecArgs.
