(* ===== verification/ExecFs.v ===== *)
(** * exec on the file system of [Fs]

    [Fs] over the log keeps the promises [exec] asks of a file system: it writes
    the buffer of a read and the locals of [namei], and a locked inode of a
    well-formed file can be read and let go. *)

From S2P Require Import Prelude DfsImage Bio Log LogSpec Kalloc Vm CString Txn Fs FsThms Sysfile Exec ExecThms ExecArgs.
Import Bio LogSpec Txn Exec ExecThms.
Local Open Scope Z_scope.
Local Open Scope xv6_scope.

Module ExecFs.

Section fs.
Context {T : Type} `{Txn T}.
Context (sb : Fs.superblock) (mypid : Z).
Abbreviation fs := (Fs.fs T).
Context (devsw_read : Z -> option (fs -> bytes -> nat -> Z -> Z -> outcome (fs * bytes * Z))).
(** A device writes to the buffer it is given. *)
Definition devices_ok : Prop := forall d g f m i a n f' m' r,
  devsw_read d = Some g -> g f m i a n = Ret (f', m', r) -> forall x, ~ a <= x < a + n -> m' x = m x.
Context (Hdev : devices_ok).

Lemma move_in_out mem dst src o m x : ~ dst <= x < dst + m -> Fs.move_in mem dst src o m x = mem x.
Proof. intros Hx. unfold Fs.move_in. destruct (Z.leb_spec dst x), (Z.ltb_spec x (dst + m)); simpl; done || lia. Qed.

Lemma readi_from_out fuel : forall (f : fs) mem i dst off tot n f' mem',
  Fs.readi_from sb fuel f mem i dst off tot n = Ret (f', mem') -> 0 <= off -> 0 <= dst -> dst + (n - tot) <= 2 ^ 32 ->
  forall x, ~ dst <= x < dst + (n - tot) -> mem' x = mem x.
Proof.
  induction fuel as [|fuel IH]; intros f mem i dst off tot n f' mem'; cbn [Fs.readi_from];
    (destruct (Z.ltb_spec tot n) as [Hlt|]; [|by intros [= _ <-]]); [done|].
  destruct (Fs.bmap sb f i (off / Fs.BSIZE)) as [[f1 b]| | |]; try done. cbn [obind].
  destruct (tread (Fs.disk f1) b) as [[s bp]| | |]; try done. cbn [obind].
  set (m := Z.min _ _). destruct (trelse s bp) as [s1| | |]; try done. cbn [obind].
  intros E Ho Hd Hn x Hx. pose proof (Z.mod_pos_bound off Fs.BSIZE eq_refl) as Hm. unfold Fs.BSIZE in Hm.
  assert (0 < m /\ m <= n - tot) as [Hm0 Hmn] by (unfold m, Fs.BSIZE; lia). clearbody m.
  destruct (decide (m = n - tot)) as [Heq|Hne].
  - destruct fuel; cbn [Fs.readi_from] in E; rewrite (proj2 (Z.ltb_ge _ _)) in E by lia; injection E as _ <-;
      apply move_in_out; lia.
  - rewrite u32_small in E by (unfold is_u32; lia). rewrite (IH _ _ _ _ _ _ _ _ _ E) by lia. apply move_in_out. lia.
Qed.

Lemma readi_out (f : fs) mem i dst off n f' mem' r :
  Fs.readi sb devsw_read f mem i dst off n = Ret (f', mem', r) -> 0 <= off -> 0 <= dst -> 0 <= n -> dst + n <= 2 ^ 32 ->
  forall x, ~ dst <= x < dst + n -> mem' x = mem x.
Proof.
  unfold Fs.readi. destruct (Fs.icache f !! i) as [ip|]; [|done]. cbn [of_option obind]. intros E Ho Hd Hn Hlen x Hx.
  destruct (Fs.type ip =? Fs.T_DEV).
  { unfold Fs.device in E. destruct (_ || _); [by injection E as _ <- _|].
    destruct (devsw_read (Fs.major ip)) as [g|] eqn:Eg; [|by injection E as _ <- _]. by eapply Hdev. }
  destruct (Z.ltb_spec (Fs.isize ip) off); [by injection E as _ <- _|].
  destruct (Z.ltb_spec (u32 (off + n)) off); [by injection E as _ <- _|]. cbn [orb] in E.
  assert (u32 (off + n) <= off + n) as Hle.
  { unfold u32. apply Z.mod_le; lia. }
  set (n' := if _ <? _ then _ else _) in *. assert (n' <= n).
  { unfold n'. destruct (Z.ltb_spec (Fs.isize ip) (u32 (off + n))); lia. }
  clearbody n'. destruct (Fs.readi_from _ _ _ _ _ _ _ _ _) as [[f1 m1]| | |] eqn:E1; try done. cbn [obind] in E.
  injection E as _ <- _. rewrite (readi_from_out _ _ _ _ _ _ _ _ _ _ E1) by lia. done.
Qed.

Context (name de : Z) (Hde : 0 <= de) (Hde32 : de + Fs.SIZEOF_DIRENT <= 2 ^ 32).

(** The locals of [namei]: the path element and the directory entry. *)
Definition namei_locals (x : Z) : Prop :=
  name <= x < name + Z.of_nat Fs.DIRSIZ \/ de <= x < de + Fs.SIZEOF_DIRENT.

Lemma dirlookup_from_out fuel : forall (f : fs) mem dp off f' mem' r,
  Fs.dirlookup_from sb devsw_read fuel f mem dp name de off = Ret (f', mem', r) -> 0 <= off ->
  forall x, ~ namei_locals x -> mem' x = mem x.
Proof.
  induction fuel as [|fuel IH]; intros f mem dp off f' mem' r; cbn [Fs.dirlookup_from];
    destruct (Fs.icache f !! dp) as [ip|]; cbn [of_option obind]; try done;
    (destruct (off <? Fs.isize ip); [|by intros [= _ <- _]]); [done|].
  destruct (Fs.readi _ _ _ _ _ _ _ _) as [[[f1 m1] r1]| | |] eqn:E1; try done. cbn [obind]. intros E Ho x Hx.
  assert (m1 x = mem x) as <-.
  { eapply readi_out; [exact E1|done|done|done|done|]. intros Hin. apply Hx. by right. }
  destruct (negb _); [done|]. destruct (Fs.word16 m1 de =? 0); [eapply IH; [exact E|unfold Fs.SIZEOF_DIRENT; lia|done]|].
  destruct (_ =? 0); [|eapply IH; [exact E|unfold Fs.SIZEOF_DIRENT; lia|done]].
  destruct (Fs.iget _ _ _) as [[f2 j]| | |]; try done. cbn [obind] in E. by injection E as _ <- _.
Qed.

Lemma skip_while_forward fuel test mem : forall path path', Fs.skip_while fuel test mem path = Ret path' -> path <= path'.
Proof.
  induction fuel as [|fuel IH]; intros path path'; cbn [Fs.skip_while]; [done|].
  destruct (test (mem path)); [intros E%IH; lia|by intros [= ->]].
Qed.

Lemma skipelem_out fuel mem path mem' r :
  Fs.skipelem fuel mem path name = Ret (mem', r) -> forall x, ~ namei_locals x -> mem' x = mem x.
Proof.
  unfold Fs.skipelem. destruct (Fs.skip_while fuel Fs.is_slash mem path) as [p1| | |]; try done. cbn [obind].
  destruct (mem p1 =? 0); [by intros [= <- _]|].
  destruct (Fs.skip_while fuel Fs.in_elem mem p1) as [p2| | |] eqn:E2; try done. cbn [obind].
  apply skip_while_forward in E2. set (mem1 := if _ <=? _ then _ else _). intros E x Hx.
  assert (mem' = mem1) as -> by (destruct (Fs.skip_while _ _ mem1 _); [by injection E|done..]).
  assert (Hxn : ~ name <= x < name + Z.of_nat Fs.DIRSIZ) by (intros ?; apply Hx; by left).
  unfold mem1. destruct (Z.leb_spec (Z.of_nat Fs.DIRSIZ) (p2 - p1)); [by apply CString.memmove_out|].
  rewrite put8_out by lia. apply CString.memmove_out. lia.
Qed.

Lemma namex_from_out fuel strfuel np : forall (f : fs) mem i path f' mem' r,
  Fs.namex_from sb mypid devsw_read fuel strfuel f mem i path np name de = Ret (f', mem', r) ->
  forall x, ~ namei_locals x -> mem' x = mem x.
Proof.
  induction fuel as [|fuel IH]; intros f mem i path f' mem' r; cbn [Fs.namex_from]; [done|].
  destruct (Fs.skipelem _ _ _ _) as [[m1 next]| | |] eqn:E1; try done. cbn [obind]. intros E x Hx.
  rewrite <- (skipelem_out _ _ _ _ _ E1 x Hx). destruct next as [p|].
  2: { destruct np; [|by injection E as _ <- _]. destruct (Fs.iput _ _ _ _); try done. cbn [obind] in E. by injection E as _ <- _. }
  destruct (Fs.ilock _ _ _ _) as [f1| | |]; try done. cbn [obind] in E.
  destruct (Fs.icache f1 !! i) as [ip|]; [|done]. cbn [of_option obind] in E.
  destruct (negb _).
  { destruct (Fs.iunlockput _ _ _ _); try done. cbn [obind] in E. by injection E as _ <- _. }
  destruct (_ && _).
  { destruct (Fs.iunlock _ _ _); try done. cbn [obind] in E. by injection E as _ <- _. }
  destruct (Fs.dirlookup _ _ _ _ _ _ _) as [[[f2 m2] r2]| | |] eqn:E2; try done. cbn [obind] in E.
  assert (m2 x = m1 x) as <-.
  { unfold Fs.dirlookup in E2. destruct (Fs.icache f1 !! i) as [ip2|]; [|done]. cbn [of_option obind] in E2.
    destruct (negb _); [done|]. by eapply dirlookup_from_out. }
  destruct (Fs.iunlockput _ _ _ _) as [f3| | |]; try done. cbn [obind] in E.
  destruct r2 as [[j o]|]; [|by injection E as _ <- _]. by eapply IH.
Qed.

Lemma namei_out fuel (f : fs) mem cwd path f' mem' r :
  Fs.namei sb mypid devsw_read fuel f mem cwd path name de = Ret (f', mem', r) ->
  forall x, ~ namei_locals x -> mem' x = mem x.
Proof.
  unfold Fs.namei, Fs.namex. destruct (mem path =? Fs.SLASH).
  - destruct (Fs.iget _ _ _) as [[f1 i]| | |]; try done. cbn [obind]. by apply namex_from_out.
  - cbn [obind]. by apply namex_from_out.
Qed.
End fs.

(** The file system of xv6 satisfies the interface of [exec]. *)
Lemma fs_files_spec {T} `{BlockCache T} sb mypid devsw_read strfuel cwd name de locals :
  devices_ok devsw_read -> 0 <= de -> de + Fs.SIZEOF_DIRENT <= 2 ^ 32 ->
  (forall x, namei_locals name de x -> locals x) ->
  @FilesSpec (Fs.fs (Log.log * T)) (fs_files sb mypid devsw_read strfuel cwd name de) locals.
Proof.
  intros Hdev Hd Hd32 Hl. split.
  - intros f m path f' m' r E x Hx. eapply namei_out; [exact Hdev|exact Hd|exact Hd32|exact E|]. intros Hin. by apply Hx, Hl.
  - intros f m ip dst off n f' m' r E. exact (readi_out sb devsw_read Hdev f m ip dst off n f' m' r E).
Qed.

(** ** A locked inode *)

Section held.
Context {T : Type} `{BlockCacheSpec T}.
Context (sb : Fs.superblock) (mypid : Z).
Abbreviation fs := (Fs.fs (Log.log * T)).
Context (devsw_read : Z -> option (fs -> bytes -> nat -> Z -> Z -> outcome (fs * bytes * Z))).
Context (strfuel cwd : nat) (name de : Z).

(** In a transaction, with no buffer held, the inode at [i] is locked by the
    process and linked, and its blocks hold the bytes of [file]. *)
Definition fs_held (i : nat) (file : list Z) (f : fs) : Prop :=
  exists ip, Fs.icache f !! i = Some ip /\ Fs.type ip <> Fs.T_DEV /\ Fs.lock ip = {| locked := true; pid := mypid |} /\
    1 <= Fs.ref ip /\ Fs.nlink ip <> 0 /\ txn_ok (Fs.disk f) ∅ ∅ /\ FsThms.file_ok (Fs.disk f) ∅ ∅ ip /\
    Fs.isize ip = Z.of_nat (length file) /\
    forall x, 0 <= x < Fs.isize ip -> FsThms.file_byte (Fs.disk f) ip x = ExecArgs.file_mem file x.

Lemma file_byte_same s s' ip x : tsame s s' -> FsThms.file_byte (T := Log.log * T) s' ip x = FsThms.file_byte s ip x.
Proof. intros Hs. unfold FsThms.file_byte. rewrite (FsThms.file_block_same _ _ _ _ Hs). by rewrite (proj1 Hs). Qed.

Lemma end_op_ok (f : fs) : txn_ok (Fs.disk f) ∅ ∅ -> exists f', Sysfile.end_op f = Ret f'.
Proof.
  destruct (Fs.disk f) as [lg c] eqn:E. intros [W [Ho Hc] C _ _ _]. cbn [fst snd] in *. unfold Sysfile.end_op. rewrite E. cbn [fst snd].
  unfold Log.end_op, Log.end_op_enter. cbn [Log.committing Log.with_out Log.outstanding]. rewrite Hc.
  destruct (Z.eqb_spec (Log.outstanding lg - 1) 0); [|by eauto]. cbn [obind].
  destruct (Z.ltb_spec 0 (Log.n (Log.lh lg))) as [Hn|Hn].
  - assert (W' : log_wf (Log.with_out (Log.outstanding lg - 1) true lg)) by (destruct W; by split).
    destruct (commit_ok (Log.with_out (Log.outstanding lg - 1) true lg) c W' Hn C) as (c' & hd & hd0 & E' & _).
    match goal with |- context [Log.commit ?l c] => change l with (Log.with_out (Log.outstanding lg - 1) true lg) end.
    rewrite E'. cbn [obind]. eauto.
  - unfold Log.commit. cbn. rewrite (proj2 (Z.ltb_ge _ _)) by done. cbn [obind]. eauto.
Qed.

Lemma fs_readable i file :
  @ExecArgs.readable fs (fs_files sb mypid devsw_read strfuel cwd name de) (fs_held i file) i file.
Proof.
  split.
  - intros f m dst off n (ip & Hi & Hty & Hl & Hr & Hn & Hok & Hf & Hsz & Hb) Hd Ho Hn0 Hdn.
    assert (Hsize : 0 <= Fs.isize ip <= 71680) by exact (FsThms.fo_size _ _ _ _ Hf).
    destruct (FsThms.readi_reads sb devsw_read f m i ip ∅ ∅ dst off n Hi Hty Hok Hf) as (f' & m' & r & E & Hic & Hok' & Hs & Hres);
      [rewrite size_empty; lia|done|done|lia|].
    exists f', m', r. split; [exact E|]. split.
    + exists ip. rewrite Hic. split_and!; try done; [by apply (FsThms.file_ok_same (Fs.disk f))|].
      intros x Hx. rewrite (file_byte_same _ _ _ _ Hs). by apply Hb.
    + intros Hle. unfold is_u32 in Ho, Hn0. rewrite decide_True in Hres by lia. destruct Hres as [-> Hm]. split; [lia|].
      intros j Hj. rewrite Hm, decide_True by lia. rewrite Hb by lia. f_equal. lia.
  - intros f (ip & Hi & Hty & Hl & Hr & Hn & Hok & Hf & Hsz & Hb). cbn [f_iunlockput f_end_op fs_files].
    unfold Fs.iunlockput, Fs.iunlock. rewrite Hi. cbn [of_option obind]. unfold holdingsleep. rewrite Hl. cbn [locked pid].
    rewrite Z.eqb_refl, (proj2 (Z.ltb_ge _ _)) by lia. cbn [andb negb orb obind].
    unfold Fs.iput, Fs.upd at 1. cbn [Fs.icache Fs.with_icache]. rewrite list_lookup_alter_eq, Hi. cbn [fmap option_fmap option_map of_option obind].
    unfold acquiresleep. cbn [Fs.lock Fs.with_lock releasesleep locked obind Fs.valid Fs.nlink].
    rewrite (proj2 (Z.eqb_neq _ _) Hn), andb_false_r. cbn [obind].
    eexists. match goal with |- exists f2, Ret ?g = Ret _ /\ _ => destruct (end_op_ok g Hok) as (f2 & E2) end.
    exists f2. split; [reflexivity|exact E2].
Qed.

(** [ilock] of a cached inode that is free gives such a state. *)
Lemma fs_ilock_held (f : fs) i ip file :
  Fs.icache f !! i = Some ip -> Fs.type ip <> Fs.T_DEV -> locked (Fs.lock ip) = false -> Fs.valid ip = true ->
  1 <= Fs.ref ip -> Fs.nlink ip <> 0 -> txn_ok (Fs.disk f) ∅ ∅ -> FsThms.file_ok (Fs.disk f) ∅ ∅ ip ->
  Fs.isize ip = Z.of_nat (length file) ->
  (forall x, 0 <= x < Fs.isize ip -> FsThms.file_byte (Fs.disk f) ip x = ExecArgs.file_mem file x) ->
  exists f', Fs.ilock sb mypid f (Some i) = Ret f' /\ fs_held i file f'.
Proof.
  intros Hi Hty Hl Hv Hr Hn Hok Hf Hsz Hb. unfold Fs.ilock. rewrite Hi. cbn [of_option obind].
  rewrite (proj2 (Z.ltb_ge _ _)) by lia. unfold acquiresleep. rewrite Hl, Hv. cbn [obind negb].
  eexists. split; [reflexivity|]. exists (Fs.with_lock {| locked := true; pid := mypid |} ip). unfold Fs.upd.
  cbn [Fs.icache Fs.with_icache Fs.disk]. rewrite list_lookup_alter_eq, Hi. split_and!; try done. by destruct Hf.
Qed.
End held.

End ExecFs.
